(* ===== verification/_CoqProject ===== *)
-Q . S2P
Prelude.v
Binary.v
GoStrings.v
GoUnicode.v
GoJson.v
GoJsonSpec.v
GoJsonTypes.v
GoTime.v
Frame.v
ControlApi.v
Routing.v
EngineTypes.v
Shard.v
ShardInv.v
ShardOps.v
Primitives.v
Instances.v
Worker.v
KvSpec.v
PrimitiveSpec.v
MemoryEngine.v
EngineSpec.v
EngineExamples.v
EngineFiles.v
EngineTable.v
Service.v
ServiceSpec.v
ServiceLocks.v
ControlRoutes.v
ControlRoutesSpec.v
Control.v
ControlSpec.v
ControlTheorems.v
ControlOwners.v
ControlReplicas.v
ControlExamples.v
ControlCodec.v
ControlWire.v
ControlRaft.v
GoFloat.v
WireTypes.v
Wire.v
WireBatch.v
WirePrimitive.v
WireSpec.v
WireMessages.v
Replication.v
ReplicationSpec.v
ReplicationFiles.v
TcpWire.v
TcpServer.v
TcpClient.v
TcpSpec.v
TcpCalls.v
TcpMigration.v
TcpPipeline.v
Executor.v
ControlService.v
ExecutorSafety.v
ExecutorMoves.v
ExecutorLimits.v
NodeAgent.v
ControlEndpoints.v
ControlServiceSpec.v
ControlHttp.v
Frontend.v
Wiring.v
Routed.v
RoutedSpec.v
Sdk.v
SdkSpec.v
Resp.v
GoSha1.v
Redis.v
RedisCommands.v
RedisServer.v
RedisSpec.v
EngineFrame.v
RedisAtomic.v
RedisSafety.v
