(* ===== verification/Prelude.v ===== *)
(** * Nespa: a verification library

    Nespa is a distributed cache.  Nodes store entries in memory and answer a binary TCP
    protocol and, optionally, the Redis protocol; a control plane, replicated by raft,
    keeps the catalog of namespaces and spaces, the nodes with their liveness and the
    assignment of the 65536 slots of every space to nodes; an executor in the control
    plane moves ranges of slots between nodes; clients route each key with the control
    plane's snapshot.  This library models these parts as functions and step relations on
    the data the Go code keeps, and proves what makes each of them, and their
    composition, correct.  The comment of a definition that models code
    names its file under src/ and its function.

    ** The parts and their files

    Go's library, as far as the code uses it: [Prelude] (machine integers kept as [Z]
    with their wrap-around written out, results, times, the iteration order of maps,
    sums, tactics and hints), [Binary] (encoding/binary), [GoStrings] (strings, strconv),
    [GoUnicode] (runes and cases), [GoJson], [GoJsonSpec], [GoJsonTypes] (encoding/json:
    texts, both layouts, codecs of structs), [GoTime] (times in RFC 3339), [GoFloat]
    (bits of floats), [GoSha1].

    The storage engine (cache/engine): [EngineTypes] (data), [Shard] (one shard's
    commands), [Primitives] (maps, sets, lists, scored sets, bitmaps, HyperLogLog and geo
    sets with their cost estimates), [Worker] (dispatch), [MemoryEngine] (the engine over
    its shards), [EngineFiles] (snapshot files, and node/persistence.go).  Their
    properties: [ShardInv], [ShardOps] (accounting), [KvSpec] (the abstract store and its
    refinement by a shard), [PrimitiveSpec], [EngineSpec] and [EngineTable] (the engine
    as one store and one table).

    The cache service (cache): [Service] (admission by quota, calls, batches,
    transactions, as functions of the locked service over the class [Engine]),
    [ServiceSpec] (quotas, proved against the class [EngineContract], which the engine
    discharges), [ServiceLocks] (the same calls as threads that interleave at every
    engine call under the read-write lock), [EngineFrame] (what a call leaves alone).

    The wire: [Frame] (protocol/frame.go), [WireTypes], [Wire], [WireBatch],
    [WirePrimitive] (cachewire) with [WireSpec] and [WireMessages] (round trips from the
    classes [Wire] and [Packs]).

    The TCP transport (transport/tcp): [TcpWire], [TcpServer] (handlers, fences),
    [TcpClient], [Replication] (dispatcher, outbox, acknowledgements, replay),
    [ReplicationFiles] (their files as JSON).  Properties: [TcpSpec], [TcpCalls],
    [TcpMigration], [TcpPipeline], [ReplicationSpec].

    The control plane (control, controlapi, routing): [ControlApi] (data), [Routing]
    (slots and selection), [ControlRoutes] (route tables, migration tasks, overrides),
    [Control] (the replicated state machine), [ControlCodec] and [ControlWire] (JSON of
    commands and snapshots), [ControlRaft] (retries, proposals, membership),
    [ControlService] (the service and its life), [ControlEndpoints] (HTTP handlers),
    [Executor] (migrations, on the control state, the TCP client and the nodes).
    Properties: [ControlRoutesSpec], [ControlSpec], [ControlTheorems], [ControlOwners],
    [ControlReplicas], [ControlServiceSpec], [ExecutorSafety], [ExecutorMoves],
    [ExecutorLimits].

    Clients and front ends: [NodeAgent] (node/service.go), [ControlHttp] (the three
    clients of the control plane's HTTP interface, and the routes and bodies of its
    server), [Frontend] (frontend: the route cache
    and its refreshes), [Routed] and [RoutedSpec] (client), [Sdk] and [SdkSpec] (sdk/go),
    [Resp], [Redis], [RedisCommands], [RedisServer] (transport/redis) with [RedisSpec],
    [RedisAtomic] and [RedisSafety], [Wiring] (cmd, runtime, admin and the life of the
    servers).

    [Instances], [EngineExamples] and [ControlExamples] evaluate the theorems on concrete
    engines and clusters; the closed theorems there and in the property files also show
    where the code departs from what it means to do.

    ** What the theorems show

    Storage: the engine refines one abstract key-value store whatever its number of
    shards; a shard's counters are the sums over its entries (restored snapshots having no
    key twice); a restart restores the last snapshot that was saved of an engine with keys
    in UTF-8, whatever failed in between.
    Service: a set keeps every quota, also when sets and gets interleave at engine calls;
    writing calls and transactions are atomic under the lock.
    Wire and transport: frames and messages are read back as written; a remote call is the
    local call; connections end; fences refuse every write to a range being moved;
    pipelined requests are answered in order, on a connection that takes the batch;
    replication loses nothing while its queue has room and commands are enqueued one at a
    time, on a list of entries and on the bytes of its files (a run of two calls that
    cross loses a command: [crossed_enqueues_lose]).
    Control plane: the state machine keeps its invariant; a revision identifies what
    clients see; replicas that apply one log agree; a route table gives every slot one
    owner; a rebalance moves no slot before its data; a cut-over is final; a proposal is
    applied once or not at all; snapshots bring the state back; failed requests to the
    catalog and the nodes change nothing, unless raft loses the answer of an attempt it
    applied; a migration loses no entry to an older one whatever fails, and merges the
    range into the target when nothing does.
    Clients: a routed call reaches the owner of its key and returns its final answer, an
    old client recovers, batches keep positions; the SDK reads its writes while the node
    stores them; a registration over HTTP reaches the registered handler and is its call;
    the front end resolves keys as the control plane does.
    Redis: users stay in their namespaces, connections that do not authenticate change
    nothing, transactions are atomic and pipelines are answered in full.

    ** What happens outside is an argument

    A call, a write or a timer of the outside world ends in one of its outcomes, given as
    an argument, and theorems hold for every value of it unless they say otherwise:
    [callFate], [fetchFate] and [sendFate] (calls of nodes), [proposal], [attempt],
    [memberTrial] and [startEnv] (raft), [fileFate], [diskWrite] and [fileState] (files),
    [httpFate] (HTTP exchanges), [redisEnv] (other connections, clocks, buffers),
    [startOutcome] and [stopOutcome] (HTTP services).  Clocks are functions from the
    number of a reading to a time.  Ticks and connections are steps of relations.

    Code that is not in the repository is a class whose laws are its documented
    behaviour, with an instance that shows they can hold: [Codecs] (the encodings of
    collectionx), [GoMath] (trigonometry), [Unicode] (case tables), [FloatText] (floats
    as text), [Lua] (the interpreter), [ErrorBody] and [OopsLibrary] (error texts and
    codes), [NilLists] (nil lists of collectionx), [HttpLibrary] (httpx: finding an entry
    of a table of routes, reading and writing JSON; the tables the endpoints register and
    the codecs of the bodies are definitions of [ControlHttp]), and
    [RangeOrder], the order Go enumerates a map in, about which only that it is a
    permutation is assumed.

    ** Fuel

    Recursion that is not structural takes fuel that is proved or computed to be enough:
    [serveConn] (TCP) and [runSession] (Redis) take more than the bytes of their input;
    [serveConn] has no value without enough fuel, and [connection_terminates] shows that
    it then has the value of the connection's run; the JSON parser and stream reader
    take the length of the text and one, with encoding/json's nesting limit of 10000;
    [put_uvarint] and [format_uint] take the ten and twenty digits of a 64-bit number;
    [trim_left] and the loops over arguments take the length of the list; [drain_fuel]
    counts the jobs and outbox entries a worker has left; [retryFuel] the attempts that
    fit in a timeout; [commandDepth] the nesting of EXEC and EVAL, which is never
    exceeded ([command_depth_enough]); [luaLoop] takes the stretches of a script between
    its calls that fit before the deadline, and what is proved of scripts is proved for
    every deadline; the rounds of the executor are a
    number that is given, and its safety holds for every number.

    ** Not modelled

    The libraries: raft (dragonboat), the HTTP and web servers (httpx, fiber), the
    dependency container (dix: only the declared order of the hooks is), the event bus,
    flags and environment (cobra, pflag, configx), logging, the Lua interpreter.  Listening
    and dialling, timeouts other than as outcomes, TCP below the bytes it carries.  The
    goroutines of a migration wave run one after the other, the requests of the
    connections of a node run one at a time, buffers of sockets have no bound, and the sweeper and snapshots
    of a node are steps between calls.  HTML templates, error texts other than where code
    reads them, the smoke-test programs of scripts/smoke and the example of sdk/go. *)

From stdpp Require Export base gmap sets list strings sorting.
From Stdlib Require Export ZArith Lia.
From Stdlib.Strings Require Byte.

Abbreviation byte := Byte.byte.

(** ** Machine integers

    Go's [uint64], [uint32] and [int64] values are kept as [Z]; every Go
    operation that can leave the range is followed by the wrap below. *)

Declare Scope nespa_scope.
Delimit Scope nespa_scope with nespa.

Definition u64 (z : Z) : Z := (z mod 2 ^ 64)%Z.
Definition u32 (z : Z) : Z := (z mod 2 ^ 32)%Z.
Definition s64 (z : Z) : Z := ((z + 2 ^ 63) mod 2 ^ 64 - 2 ^ 63)%Z.

Definition maxUint64 : Z := (2 ^ 64 - 1)%Z.
Definition maxInt64 : Z := (2 ^ 63 - 1)%Z.
Definition minInt64 : Z := (- 2 ^ 63)%Z.

Definition is_u64 (z : Z) : Prop := (0 <= z < 2 ^ 64)%Z.
Definition is_u32 (z : Z) : Prop := (0 <= z < 2 ^ 32)%Z.
Definition is_s64 (z : Z) : Prop := (- 2 ^ 63 <= z < 2 ^ 63)%Z.

Notation "a +% b" := (u64 (a + b)) (at level 50, left associativity) : nespa_scope.
Notation "a -% b" := (u64 (a - b)) (at level 50, left associativity) : nespa_scope.

#[global] Instance is_u64_dec z : Decision (is_u64 z).
Proof. unfold is_u64. apply _. Defined.
#[global] Instance is_u32_dec z : Decision (is_u32 z).
Proof. unfold is_u32. apply _. Defined.
#[global] Instance is_s64_dec z : Decision (is_s64 z).
Proof. unfold is_s64. apply _. Defined.

(** ** Errors as values *)

Inductive result (E A : Type) : Type :=
| Ok (a : A)
| Err (e : E).
Arguments Ok {E A} a.
Arguments Err {E A} e.

#[global] Instance result_ret E : MRet (result E) := fun A a => Ok a.
#[global] Instance result_bind E : MBind (result E) := fun A B f r =>
  match r with Ok a => f a | Err e => Err e end.
#[global] Instance result_fmap E : FMap (result E) := fun A B f r =>
  match r with Ok a => Ok (f a) | Err e => Err e end.

Definition is_ok {E A} (r : result E A) : bool :=
  match r with Ok _ => true | Err _ => false end.

Definition map_err {E F A} (f : E -> F) (r : result E A) : result F A :=
  match r with Ok a => Ok a | Err e => Err (f e) end.

(** ** Bytes and strings

    A Go [byte] is [Byte.byte], a [[]byte] a list of them, and a Go string is
    Stdlib's [string], which is a sequence of eight-bit characters as in Go. *)

Definition byte_Z (b : byte) : Z := Z.of_N (Byte.to_N b).

Definition byte_of_Z (z : Z) : byte :=
  match Byte.of_N (Z.to_N (z mod 256)) with
  | Some b => b
  | None => Byte.x00
  end.

#[global] Instance byte_eq_decision : EqDecision byte := Byte.byte_eq_dec.

(** Go's [[]byte(s)] and [string(b)]. *)
Definition str_bytes (s : string) : list byte := String.list_byte_of_string s.
Definition bytes_str (b : list byte) : string := String.string_of_list_byte b.

(** Go's [len]. *)
Definition str_len (s : string) : Z := Z.of_nat (String.length s).
Definition zlen {A} (l : list A) : Z := Z.of_nat (length l).

(** ** Time

    A [time.Time] is the number of nanoseconds since Go's zero time, January 1
    of year 1, so that [time.Time{}] is 0; a [time.Duration] is an [int64] of
    nanoseconds. *)

Definition Time := Z.
Definition Duration := Z.

Definition zeroTime : Time := 0%Z.
Definition IsZero (t : Time) : bool := (t =? zeroTime)%Z.
Definition After (t u : Time) : bool := (u <? t)%Z.
Definition Before (t u : Time) : bool := (t <? u)%Z.
Definition TimeEqual (t u : Time) : bool := (t =? u)%Z.
Definition TimeAdd (t : Time) (d : Duration) : Time := (t + d)%Z.

(** [Time.Sub] saturates at the bounds of a [Duration]. *)
Definition TimeSub (t u : Time) : Duration :=
  Z.max minInt64 (Z.min maxInt64 (t - u)).

Definition nsPerSecond : Z := 1000000000%Z.
Definition unixToInternal : Z := 62135596800%Z.

(** [Time.Unix] and [time.Unix(sec, 0)]. *)
Definition Unix (t : Time) : Z := (t / nsPerSecond - unixToInternal)%Z.
Definition timeUnix (sec : Z) : Time := ((sec + unixToInternal) * nsPerSecond)%Z.

(** [time.Duration(ms) * time.Millisecond], at [int64] width. *)
Definition millis (ms : Z) : Duration := s64 (ms * 1000000).

(** ** Iteration order of Go maps

    [Range] over a map visits its bindings in an order the language does not
    fix.  The model takes the order as a parameter: any enumeration of the
    bindings, which may differ from map to map.  Every theorem holds for every
    instance. *)

Class RangeOrder := {
  range_order : forall {K A} `{Countable K}, gmap K A -> list (K * A);
  range_perm : forall {K A} `{Countable K} (m : gmap K A),
      range_order m ≡ₚ map_to_list m
}.

(** The order stdpp enumerates a map in: the instance witnesses use. *)
Program Definition canonical_order : RangeOrder := {|
  range_order := fun K A _ _ m => map_to_list m
|}.
Next Obligation. done. Qed.

(** ** Sums over finite maps *)

Definition msum {K A} `{Countable K} (f : K -> A -> Z) (m : gmap K A) : Z :=
  map_fold (fun k a acc => (f k a + acc)%Z) 0%Z m.

(** Sum over a list. *)
Definition lsum {A} (f : A -> Z) (l : list A) : Z :=
  foldr (fun a acc => (f a + acc)%Z) 0%Z l.

(** ** Automation *)

Create HintDb nespa discriminated.
#[export] Hint Constants Opaque : nespa.
Create Rewrite HintDb nespa_wrap.

(** Case analysis on the tests of an executable definition. *)
Ltac case_bool :=
  match goal with
  | |- context [if ?b then _ else _] => destruct b eqn:?
  | H : context [if ?b then _ else _] |- _ => destruct b eqn:?
  end.

Ltac bool_to_prop :=
  repeat match goal with
  | H : (_ && _)%bool = true |- _ => apply andb_prop in H as [? ?]
  | H : (_ || _)%bool = false |- _ => apply orb_false_elim in H as [? ?]
  | H : negb _ = true |- _ => apply negb_true_iff in H
  | H : negb _ = false |- _ => apply negb_false_iff in H
  | H : (_ =? _)%Z = true |- _ => apply Z.eqb_eq in H
  | H : (_ =? _)%Z = false |- _ => apply Z.eqb_neq in H
  | H : (_ <=? _)%Z = true |- _ => apply Z.leb_le in H
  | H : (_ <=? _)%Z = false |- _ => apply Z.leb_gt in H
  | H : (_ <? _)%Z = true |- _ => apply Z.ltb_lt in H
  | H : (_ <? _)%Z = false |- _ => apply Z.ltb_ge in H
  | H : bool_decide _ = true |- _ => apply bool_decide_eq_true in H
  | H : bool_decide _ = false |- _ => apply bool_decide_eq_false in H
  end.

(** ** Lemmas: integers *)

Lemma u64_range z : is_u64 (u64 z).
Proof. apply Z.mod_pos_bound. lia. Qed.

Lemma u64_small z : is_u64 z -> u64 z = z.
Proof. intros H. apply Z.mod_small, H. Qed.

Lemma u32_range z : is_u32 (u32 z).
Proof. apply Z.mod_pos_bound. lia. Qed.

Lemma u32_small z : is_u32 z -> u32 z = z.
Proof. intros H. apply Z.mod_small, H. Qed.

Lemma s64_range z : is_s64 (s64 z).
Proof.
  unfold is_s64, s64. pose proof (Z.mod_pos_bound (z + 2 ^ 63) (2 ^ 64)). lia.
Qed.

Lemma s64_small z : is_s64 z -> s64 z = z.
Proof. unfold is_s64, s64. intros H. rewrite Z.mod_small; lia. Qed.

#[export] Hint Resolve u64_range u32_range s64_range : nespa.
#[export] Hint Rewrite u64_small u32_small s64_small using (unfold is_u64, is_u32, is_s64 in *; lia) : nespa_wrap.

(** ** Lemmas: bytes *)

Lemma byte_Z_range b : (0 <= byte_Z b < 256)%Z.
Proof. unfold byte_Z. pose proof (Byte.to_N_bounded b). lia. Qed.

Lemma byte_Z_of_Z z : byte_Z (byte_of_Z z) = (z mod 256)%Z.
Proof.
  unfold byte_Z, byte_of_Z.
  pose proof (Z.mod_pos_bound z 256 ltac:(lia)) as Hb.
  destruct (Byte.of_N (Z.to_N (z mod 256))) as [b|] eqn:E.
  - apply Byte.to_of_N in E. rewrite E. lia.
  - apply Byte.of_N_None_iff in E. lia.
Qed.

Lemma byte_of_Z_byte b : byte_of_Z (byte_Z b) = b.
Proof.
  unfold byte_of_Z. rewrite Z.mod_small by apply byte_Z_range.
  unfold byte_Z. rewrite N2Z.id, Byte.of_to_N. done.
Qed.

Lemma byte_Z_inj b c : byte_Z b = byte_Z c -> b = c.
Proof. intros H. rewrite <- (byte_of_Z_byte b), H. apply byte_of_Z_byte. Qed.

Lemma bytes_str_bytes s : bytes_str (str_bytes s) = s.
Proof. apply String.string_of_list_byte_of_string. Qed.

Lemma str_bytes_str b : str_bytes (bytes_str b) = b.
Proof. apply String.list_byte_of_string_of_list_byte. Qed.

Lemma str_bytes_inj s t : str_bytes s = str_bytes t -> s = t.
Proof. intros H. rewrite <- (bytes_str_bytes s), H. apply bytes_str_bytes. Qed.

Lemma bytes_str_inj b c : bytes_str b = bytes_str c -> b = c.
Proof. intros H. rewrite <- (str_bytes_str b), H. apply str_bytes_str. Qed.

Lemma length_str_bytes s : length (str_bytes s) = String.length s.
Proof.
  unfold str_bytes, String.list_byte_of_string. rewrite length_map.
  induction s as [|a s IH]; simpl; [done | by rewrite IH].
Qed.

Lemma str_len_bytes s : str_len s = zlen (str_bytes s).
Proof. unfold str_len, zlen. by rewrite length_str_bytes. Qed.

Lemma str_len_nonneg s : (0 <= str_len s)%Z.
Proof. unfold str_len. lia. Qed.

Lemma str_len_pos s : s <> "" -> (1 <= str_len s)%Z.
Proof. destruct s; [done|]. unfold str_len; simpl. lia. Qed.

Lemma zlen_nonneg {A} (l : list A) : (0 <= zlen l)%Z.
Proof. unfold zlen. lia. Qed.

Lemma zlen_app {A} (l k : list A) : zlen (l ++ k) = (zlen l + zlen k)%Z.
Proof. unfold zlen. rewrite length_app. lia. Qed.

Lemma zlen_cons {A} (x : A) (l : list A) : zlen (x :: l) = (1 + zlen l)%Z.
Proof. unfold zlen. simpl. lia. Qed.

#[export] Hint Resolve byte_Z_range str_len_nonneg zlen_nonneg : nespa.

(** ** Lemmas: sums *)

Section Sums.
Context {K A : Type} `{Countable K}.
Implicit Types (f g : K -> A -> Z) (m : gmap K A).

Lemma msum_empty f : msum f ∅ = 0%Z.
Proof. apply map_fold_empty. Qed.

Lemma msum_insert_new f m i x :
  m !! i = None -> msum f (<[i:=x]> m) = (f i x + msum f m)%Z.
Proof. intros Hi. unfold msum. rewrite map_fold_insert_L; [done | | done]. intros; lia. Qed.

Lemma msum_delete f m i x :
  m !! i = Some x -> msum f m = (f i x + msum f (delete i m))%Z.
Proof.
  intros Hi. rewrite <- (insert_delete_id m i x Hi) at 1.
  apply msum_insert_new, lookup_delete_eq.
Qed.

Lemma msum_insert f m i x :
  msum f (<[i:=x]> m) = (f i x + msum f (delete i m))%Z.
Proof.
  rewrite <- insert_delete_eq. apply msum_insert_new, lookup_delete_eq.
Qed.

Lemma msum_replace f m i x y :
  m !! i = Some y -> msum f (<[i:=x]> m) = (msum f m - f i y + f i x)%Z.
Proof. intros Hi. rewrite msum_insert, (msum_delete f m i y Hi). lia. Qed.

Lemma msum_nonneg f m :
  (forall i x, m !! i = Some x -> 0 <= f i x)%Z -> (0 <= msum f m)%Z.
Proof.
  induction m as [|i x m Hi IH] using map_ind; intros Hf.
  - by rewrite msum_empty.
  - rewrite msum_insert_new by done.
    assert (0 <= f i x)%Z by (apply Hf; by rewrite lookup_insert_eq).
    assert (0 <= msum f m)%Z; [|lia].
    apply IH. intros j y Hj. apply Hf. rewrite lookup_insert_ne; [done|].
    intros ->. congruence.
Qed.

Lemma msum_le f g m :
  (forall i x, m !! i = Some x -> f i x <= g i x)%Z -> (msum f m <= msum g m)%Z.
Proof.
  induction m as [|i x m Hi IH] using map_ind; intros Hf.
  - by rewrite !msum_empty.
  - rewrite !msum_insert_new by done.
    assert (f i x <= g i x)%Z by (apply Hf; by rewrite lookup_insert_eq).
    assert (msum f m <= msum g m)%Z; [|lia].
    apply IH. intros j y Hj. apply Hf. rewrite lookup_insert_ne; [done|].
    intros ->. congruence.
Qed.

Lemma msum_ext f g m :
  (forall i x, m !! i = Some x -> f i x = g i x)%Z -> msum f m = msum g m.
Proof.
  intros E. apply Z.le_antisymm; apply msum_le; intros i x Hx; by rewrite (E i x Hx).
Qed.

Lemma msum_lookup_le f m i x :
  (forall j y, m !! j = Some y -> 0 <= f j y)%Z ->
  m !! i = Some x -> (f i x <= msum f m)%Z.
Proof.
  intros Hf Hi. rewrite (msum_delete f m i x Hi).
  assert (0 <= msum f (delete i m))%Z; [|lia].
  apply msum_nonneg. intros j y [_ Hj]%lookup_delete_Some. by apply Hf.
Qed.

Lemma msum_zero m : msum (fun _ _ => 0%Z) m = 0%Z.
Proof.
  induction m as [|i x m Hi IH] using map_ind; [done|]. by rewrite msum_insert_new, IH by done.
Qed.

Lemma msum_const_size m : msum (fun _ _ => 1%Z) m = Z.of_nat (size m).
Proof.
  induction m as [|i x m Hi IH] using map_ind.
  - by rewrite msum_empty, map_size_empty.
  - rewrite msum_insert_new, map_size_insert_None, IH by done. lia.
Qed.

Lemma msum_union f m m' : m ##ₘ m' -> msum f (m ∪ m') = (msum f m + msum f m')%Z.
Proof.
  induction m as [|i x m Hi IH] using map_ind; intros Hd.
  - by rewrite map_empty_union, msum_empty.
  - apply map_disjoint_insert_l in Hd as [Hi' Hd].
    rewrite <- insert_union_l, !msum_insert_new, IH by (done || by apply lookup_union_None). lia.
Qed.

Lemma msum_list f m : msum f m = lsum (fun kv => f kv.1 kv.2) (map_to_list m).
Proof.
  unfold msum, lsum. rewrite map_fold_foldr.
  induction (map_to_list m) as [|[k a] l IH]; simpl; [done | by rewrite IH].
Qed.
End Sums.

Lemma lsum_perm {A} (f : A -> Z) l k : l ≡ₚ k -> lsum f l = lsum f k.
Proof. induction 1; simpl; lia. Qed.

Lemma lsum_cons {A} (f : A -> Z) x l : lsum f (x :: l) = (f x + lsum f l)%Z.
Proof. done. Qed.

Lemma lsum_app {A} (f : A -> Z) l k : lsum f (l ++ k) = (lsum f l + lsum f k)%Z.
Proof. induction l; simpl; lia. Qed.

Lemma lsum_snoc {A} (f : A -> Z) l x : lsum f (l ++ [x]) = (lsum f l + f x)%Z.
Proof. rewrite lsum_app. simpl. lia. Qed.

Lemma lsum_nonneg {A} (f : A -> Z) l :
  (forall x, x ∈ l -> 0 <= f x)%Z -> (0 <= lsum f l)%Z.
Proof.
  induction l as [|x l IH]; intros Hf; simpl; [lia|].
  assert (0 <= f x)%Z by (apply Hf; set_solver).
  assert (0 <= lsum f l)%Z by (apply IH; set_solver). lia.
Qed.

Lemma lsum_fmap {A B} (f : B -> Z) (g : A -> B) l : lsum f (g <$> l) = lsum (fun x => f (g x)) l.
Proof. induction l as [|x l IH]; [done|]. rewrite fmap_cons, !lsum_cons. by rewrite IH. Qed.

Lemma lsum_update {A} (f : A -> Z) l i x x' : l !! i = Some x -> lsum f (<[i := x']> l) = (lsum f l - f x + f x')%Z.
Proof.
  intros H. rewrite insert_take_drop by (by eapply lookup_lt_Some). rewrite <- (take_drop_middle l i x H) at 3.
  rewrite !lsum_app, !lsum_cons. lia.
Qed.

Lemma lsum_ext_in {A} (f g : A -> Z) l : (forall x, x ∈ l -> f x = g x) -> lsum f l = lsum g l.
Proof.
  induction l as [|x l IH]; intros E; [done|]. rewrite !lsum_cons, E by set_solver. f_equal. apply IH. set_solver.
Qed.

Lemma filter_all {A} (P : A -> Prop) `{!forall x, Decision (P x)} (l : list A) : Forall P l -> filter P l = l.
Proof. induction 1 as [|x l Hx _ IH]; [done|]. rewrite filter_cons. by rewrite decide_True, IH. Qed.

(** A map is rebuilt from any list of its bindings. *)
Lemma foldl_insert_map {K A} `{Countable K} (l : list (K * A)) (m : gmap K A) : l ≡ₚ map_to_list m ->
  foldl (fun m ka => <[ka.1 := ka.2]> m) ∅ l = m.
Proof.
  intros Hp. transitivity (list_to_map (reverse l) : gmap K A).
  - clear Hp m. induction l as [|[k a] l IH] using rev_ind; [done|].
    rewrite foldl_snoc, IH, reverse_snoc. done.
  - symmetry. apply list_to_map_flip. by rewrite reverse_Permutation.
Qed.

Lemma filter_none {A} (P : A -> Prop) `{!forall x, Decision (P x)} l :
  (forall x, x ∈ l -> ~ P x) -> filter P l = [].
Proof.
  induction l as [|x l IH]; intros HP; [done|].
  rewrite filter_cons, decide_False by (apply HP; set_solver). apply IH. set_solver.
Qed.

Lemma NoDup_fmap_filter {A B} (f : A -> B) (P : A -> Prop) `{!forall x, Decision (P x)} l :
  NoDup (f <$> l) -> NoDup (f <$> filter P l).
Proof.
  induction l as [|x l IH]; [done|]. rewrite fmap_cons, NoDup_cons. intros [Hx Hl].
  rewrite filter_cons. case_decide; [|by apply IH]. rewrite fmap_cons, NoDup_cons.
  split; [|by apply IH]. intros (y & Ey & Hy)%list_elem_of_fmap. apply Hx.
  apply list_elem_of_filter in Hy as [_ Hy]. rewrite Ey. by apply list_elem_of_fmap_2.
Qed.

(** ** Lemmas: sorting *)

(** A sort is determined by the multiset of what it sorts when equal keys mean
    equal elements, and so is any view [f] of it that keeps the order. *)
Lemma sort_unique {A B K} (R : relation A) `{!forall x y, Decision (R x y)} (RB : relation B) (f : A -> B)
    (key : B -> K) (l1 l2 : list A) :
  Total R -> Transitive RB -> (forall x y, R x y -> RB (f x) (f y)) ->
  (forall x y, RB x y -> RB y x -> key x = key y) ->
  f <$> l1 ≡ₚ f <$> l2 -> NoDup (key <$> (f <$> l1)) ->
  f <$> merge_sort R l1 = f <$> merge_sort R l2.
Proof.
  intros HR HB Hf Hk Hp Hnd.
  assert (forall l, Sorted RB (f <$> merge_sort R l)) as Hsort.
  { intros l. pose proof (Sorted_merge_sort R l) as Hs. induction Hs as [|x l' Hs IH Hh]; [constructor|].
    rewrite fmap_cons. constructor; [done|]. destruct Hh; constructor. by apply Hf. }
  assert (forall l, f <$> merge_sort R l ≡ₚ f <$> l) as Hperm by (intros l; by rewrite merge_sort_Permutation).
  apply (Sorted_unique_strong RB); [|done|done|by rewrite !Hperm].
  intros x y Hx Hy Hxy Hyx. rewrite Hperm in Hx, Hy. rewrite <- Hp in Hy.
  assert (key x = key y) as E by auto. clear -Hnd Hx Hy E.
  induction (f <$> l1) as [|z l IH]; [by apply elem_of_nil in Hx|].
  rewrite fmap_cons, NoDup_cons in Hnd. destruct Hnd as [Hz Hnd].
  apply elem_of_cons in Hx as [->|Hx], Hy as [->|Hy].
  - done.
  - destruct Hz. rewrite E. by apply list_elem_of_fmap_2.
  - destruct Hz. rewrite <- E. by apply list_elem_of_fmap_2.
  - by apply IH.
Qed.

(** The order of strings. *)
Lemma leb_trans a b c : String.leb a b = true -> String.leb b c = true -> String.leb a c = true.
Proof.
  intros H1 H2. apply Is_true_eq_true. apply Is_true_eq_left in H1, H2.
  exact (transitivity (R := String.le) H1 H2).
Qed.

(** ** Lemmas: map iteration *)

Section RangeLemmas.
Context `{!RangeOrder} {K A : Type} `{Countable K}.
Implicit Types m : gmap K A.

Lemma elem_of_range m i x : (i, x) ∈ range_order m <-> m !! i = Some x.
Proof. rewrite range_perm. apply elem_of_map_to_list. Qed.

Lemma NoDup_range m : NoDup (range_order m).*1.
Proof. rewrite range_perm. apply NoDup_fst_map_to_list. Qed.

Lemma length_range m : length (range_order m) = size m.
Proof. rewrite range_perm. apply length_map_to_list. Qed.

Lemma lsum_range (f : K -> A -> Z) m :
  lsum (fun kv => f kv.1 kv.2) (range_order m) = msum f m.
Proof. rewrite msum_list. apply lsum_perm, range_perm. Qed.
End RangeLemmas.
