(* ===== verification/Binary.v ===== *)
(** * Go's encoding/binary

    The fixed-width big-endian integers and the variable-length integers of
    Go's standard library that frame.go, routing.go, entry.go and the cachewire
    codecs use, with the round trips the codecs are proved from. *)

From S2P Require Import Prelude.

Local Open Scope Z_scope.

(** [binary.BigEndian.PutUintN] and [AppendUintN] for an N = 8n bit value. *)
Fixpoint be_put (n : nat) (v : Z) : list byte :=
  match n with
  | O => []
  | S m => byte_of_Z (Z.shiftr v (8 * Z.of_nat m)) :: be_put m v
  end.

(** [binary.BigEndian.UintN] of a slice of the value's size. *)
Definition be_get (bs : list byte) : Z :=
  foldl (fun acc b => acc * 256 + byte_Z b) 0 bs.

(** [binary.AppendUvarint]: seven bits a byte, the lowest first, the top bit set
    on every byte but the last.  A [uint64] takes at most ten bytes, so nine
    continuation bytes are enough fuel. *)
Fixpoint put_uvarint (fuel : nat) (x : Z) : list byte :=
  match fuel with
  | O => [byte_of_Z x]
  | S f =>
      if x >=? 128
      then byte_of_Z (Z.lor (x mod 256) 128) :: put_uvarint f (Z.shiftr x 7)
      else [byte_of_Z x]
  end.

Definition AppendUvarint (raw : list byte) (x : Z) : list byte :=
  raw ++ put_uvarint 9 x.

(** [binary.Uvarint]: the value and the number of bytes read, 0 when the buffer
    is too small and negative when the value overflows 64 bits. *)
Fixpoint uvarint_loop (buf : list byte) (i s x : Z) : Z * Z :=
  match buf with
  | [] => (0, 0)
  | b :: rest =>
      if i =? 10 then (0, - (i + 1))
      else if byte_Z b <? 128 then
        if (i =? 9) && (1 <? byte_Z b) then (0, - (i + 1))
        else (u64 (Z.lor x (Z.shiftl (byte_Z b) s)), i + 1)
      else uvarint_loop rest (i + 1) (s + 7)
             (u64 (Z.lor x (Z.shiftl (Z.land (byte_Z b) 127) s)))
  end.

Definition Uvarint (buf : list byte) : Z * Z := uvarint_loop buf 0 0 0.

(** [binary.AppendVarint] and [binary.Varint]: zig-zag signed integers. *)
Definition zigzag (x : Z) : Z :=
  let ux := u64 (Z.shiftl x 1) in
  if x <? 0 then u64 (Z.lnot ux) else ux.

Definition unzigzag (ux : Z) : Z :=
  let x := Z.shiftr ux 1 in
  if Z.testbit ux 0 then Z.lnot x else x.

Definition AppendVarint (raw : list byte) (x : Z) : list byte :=
  AppendUvarint raw (zigzag x).

Definition Varint (buf : list byte) : Z * Z :=
  let '(ux, n) := Uvarint buf in (unzigzag ux, n).

(** ** Fixed width *)

Lemma length_be_put n v : length (be_put n v) = n.
Proof. revert v; induction n as [|n IH]; intros v; simpl; [done | by rewrite IH]. Qed.

Lemma pow_256 n : 2 ^ (8 * Z.of_nat n) = 256 ^ Z.of_nat n.
Proof. rewrite Z.pow_mul_r by lia. done. Qed.

Lemma be_get_acc bs acc :
  foldl (fun acc b => acc * 256 + byte_Z b) acc bs
  = acc * 256 ^ zlen bs + be_get bs.
Proof.
  unfold be_get. revert acc; induction bs as [|b bs IH]; intros acc.
  - unfold zlen; simpl. lia.
  - cbn [foldl]. rewrite IH, (IH (0 * 256 + byte_Z b)), zlen_cons, Z.pow_add_r; [lia | lia | apply zlen_nonneg].
Qed.

Lemma be_get_cons b bs : be_get (b :: bs) = byte_Z b * 256 ^ zlen bs + be_get bs.
Proof. unfold be_get at 1. simpl. rewrite be_get_acc. lia. Qed.

Lemma be_get_app bs cs : be_get (bs ++ cs) = be_get bs * 256 ^ zlen cs + be_get cs.
Proof. unfold be_get at 1. rewrite foldl_app, be_get_acc. done. Qed.

Lemma be_get_put n v : be_get (be_put n v) = v mod 256 ^ Z.of_nat n.
Proof.
  induction n as [|n IH].
  - simpl. rewrite Z.mod_1_r. done.
  - simpl be_put. rewrite be_get_cons, byte_Z_of_Z, IH.
    unfold zlen. rewrite length_be_put, Z.shiftr_div_pow2 by lia.
    rewrite pow_256, Nat2Z.inj_succ, Z.pow_succ_r by lia.
    rewrite (Z.mul_comm 256), Z.rem_mul_r by lia. lia.
Qed.

Lemma be_get_range bs : 0 <= be_get bs < 256 ^ zlen bs.
Proof.
  induction bs as [|b bs IH]; [done|].
  rewrite be_get_cons, zlen_cons, Z.pow_add_r by (try apply zlen_nonneg; lia).
  pose proof (byte_Z_range b). nia.
Qed.

Lemma be_put_carry n v c : be_put n (c * 256 ^ Z.of_nat n + v) = be_put n v.
Proof.
  revert v c; induction n as [|n IH]; intros v c; [done|]. simpl.
  rewrite Nat2Z.inj_succ, Z.pow_succ_r by lia. f_equal.
  - apply byte_Z_inj. rewrite !byte_Z_of_Z, !Z.shiftr_div_pow2, !pow_256 by lia.
    rewrite (Z.mul_assoc c), (Z.add_comm (c * 256 * _)).
    rewrite Z.div_add, Z.mod_add by lia. done.
  - rewrite Z.mul_assoc. apply IH.
Qed.

Lemma be_put_get bs : be_put (length bs) (be_get bs) = bs.
Proof.
  induction bs as [|b bs IH]; [done|]. simpl.
  pose proof (be_get_range bs) as Hr. pose proof (byte_Z_range b) as Hb.
  rewrite be_get_cons. unfold zlen in *.
  rewrite be_put_carry, IH, Z.shiftr_div_pow2, pow_256 by lia.
  by rewrite Z.div_add_l, (Z.div_small (be_get bs)), Z.add_0_r, byte_of_Z_byte by lia.
Qed.

Lemma be_get_put_small n v : 0 <= v < 256 ^ Z.of_nat n -> be_get (be_put n v) = v.
Proof. intros H. rewrite be_get_put. by apply Z.mod_small. Qed.

(** ** Variable width *)

Lemma lor_shiftl_add x y s : 0 <= x < 2 ^ s -> 0 <= s -> 0 <= y ->
  Z.lor x (Z.shiftl y s) = x + y * 2 ^ s.
Proof.
  intros Hx Hs Hy. rewrite <- Z.shiftl_mul_pow2 by done.
  assert (Z.land x (Z.shiftl y s) = 0) as E.
  { apply Z.bits_inj'; intros n Hn. rewrite Z.land_spec, Z.bits_0.
    destruct (Z.ltb_spec n s).
    - rewrite Z.shiftl_spec_low by done. by rewrite andb_false_r.
    - rewrite <- (Z.mod_small x (2 ^ s)) by done. by rewrite Z.mod_pow2_bits_high by lia. }
  by rewrite Z.add_nocarry_lxor, Z.lxor_lor by exact E.
Qed.

Lemma continuation_byte x : byte_Z (byte_of_Z (Z.lor (x mod 256) 128)) = x mod 128 + 128.
Proof.
  rewrite byte_Z_of_Z.
  assert (Z.lor (x mod 256) 128 = x mod 128 + 128) as ->.
  { assert (x mod 256 = x mod 128 + 128 * ((x / 128) mod 2)) as E.
    { replace 256 with (128 * 2) by done. rewrite Z.rem_mul_r by lia. done. }
    pose proof (Z.mod_pos_bound x 128 ltac:(lia)).
    pose proof (Z.mod_pos_bound (x / 128) 2 ltac:(lia)).
    assert (Z.lor (x mod 256) 128 = Z.lor (x mod 128) (Z.shiftl 1 7)) as ->.
    { assert ((x / 128) mod 2 = 0 \/ (x / 128) mod 2 = 1) as [E0|E1] by lia.
      - rewrite E, E0. replace (x mod 128 + 128 * 0) with (x mod 128) by lia. done.
      - rewrite E, E1. replace (128 * 1) with (1 * 2 ^ 7) by lia.
        rewrite <- lor_shiftl_add by lia. rewrite <- Z.lor_assoc. done. }
    rewrite lor_shiftl_add by lia. lia. }
  apply Z.mod_small. pose proof (Z.mod_pos_bound x 128 ltac:(lia)). lia.
Qed.

Lemma uvarint_loop_put f : forall i s x y rest,
  0 <= i -> i = 9 - Z.of_nat f -> s = 7 * i -> 0 <= x < 2 ^ s -> 0 <= y < 2 ^ (64 - s) ->
  uvarint_loop (put_uvarint f y ++ rest) i s x
  = (x + y * 2 ^ s, i + zlen (put_uvarint f y)).
Proof.
  induction f as [|f IH]; intros i s x y rest Hi0 Hi Hs Hx Hy.
  - simpl put_uvarint.
    assert (i = 9) as -> by lia. assert (s = 63) as -> by lia. subst.
    simpl. rewrite byte_Z_of_Z.
    replace (2 ^ (64 - 63)) with 2 in Hy by done.
    rewrite Z.mod_small by lia.
    rewrite (proj2 (Z.ltb_lt _ _)) by lia. rewrite (proj2 (Z.ltb_ge 1 y)) by lia.
    rewrite lor_shiftl_add by lia. rewrite u64_small; [done|]. unfold is_u64. lia.
  - assert (i < 9) by lia.
    assert (2 ^ s * 2 ^ (64 - s) = 2 ^ 64) as Hp by (rewrite <- Z.pow_add_r by lia; f_equal; lia).
    cbn [put_uvarint]. rewrite Z.geb_leb. destruct (Z.leb_spec 128 y) as [Hc|Hc].
    + cbn [app uvarint_loop]. rewrite continuation_byte.
      pose proof (Z.mod_pos_bound y 128 ltac:(lia)) as Hm.
      rewrite (proj2 (Z.eqb_neq i 10)) by lia.
      rewrite (proj2 (Z.ltb_ge (y mod 128 + 128) 128)) by lia.
      replace (Z.land (y mod 128 + 128) 127) with (y mod 128)
        by (change 127 with (Z.ones 7); rewrite Z.land_ones by lia;
            change (2 ^ 7) with 128;
            replace (y mod 128 + 128) with (y mod 128 + 1 * 128) by lia;
            rewrite Z.mod_add by lia; by rewrite Z.mod_mod by lia).
      rewrite lor_shiftl_add by lia.
      assert (y mod 128 <= y) by (apply Z.mod_le; lia).
      assert (x + y mod 128 * 2 ^ s < 2 ^ (s + 7)).
      { rewrite Z.pow_add_r by lia. change (2 ^ 7) with 128. nia. }
      assert (2 ^ (s + 7) <= 2 ^ 64) by (apply Z.pow_le_mono_r; lia).
      rewrite u64_small by (unfold is_u64; nia).
      rewrite Z.shiftr_div_pow2 by lia. change (2 ^ 7) with 128.
      rewrite IH; [ | lia | lia | lia | nia | ].
      * rewrite zlen_cons. f_equal; [|lia].
        rewrite Z.pow_add_r by lia. change (2 ^ 7) with 128.
        rewrite (Z.div_mod y 128) at 3 by lia. ring.
      * split; [apply Z.div_pos; lia|]. apply Z.div_lt_upper_bound; [lia|].
        replace (64 - s) with (7 + (64 - (s + 7))) in Hy by lia.
        rewrite Z.pow_add_r in Hy by lia. lia.
    + cbn [app uvarint_loop]. rewrite byte_Z_of_Z, Z.mod_small by lia.
      rewrite (proj2 (Z.eqb_neq i 10)) by lia. rewrite (proj2 (Z.ltb_lt y 128)) by lia.
      rewrite (proj2 (Z.eqb_neq i 9)) by lia. cbn [andb].
      rewrite lor_shiftl_add by lia.
      rewrite u64_small; [done|]. unfold is_u64. nia.
Qed.

(** A [uint64] written by [AppendUvarint] is read back with its size, whatever
    follows it. *)
Lemma Uvarint_put x rest : is_u64 x ->
  Uvarint (put_uvarint 9 x ++ rest) = (x, zlen (put_uvarint 9 x)).
Proof.
  intros H. unfold Uvarint. rewrite uvarint_loop_put by (unfold is_u64 in H; lia).
  f_equal. lia.
Qed.

Lemma zlen_put_uvarint_pos f x : 1 <= zlen (put_uvarint f x).
Proof.
  destruct f; simpl; [done|]. destruct (x >=? 128); rewrite zlen_cons; [|done].
  pose proof (zlen_nonneg (put_uvarint f (Z.shiftr x 7))). lia.
Qed.

Lemma zlen_put_uvarint_le f x : zlen (put_uvarint f x) <= 1 + Z.of_nat f.
Proof.
  revert x; induction f as [|f IH]; intros x; simpl; [done|].
  destruct (x >=? 128); rewrite zlen_cons; [|unfold zlen; simpl; lia].
  specialize (IH (Z.shiftr x 7)). lia.
Qed.

Lemma zigzag_range x : is_u64 (zigzag x).
Proof. unfold zigzag. destruct (x <? 0); apply u64_range. Qed.

Lemma zigzag_value x : is_s64 x -> zigzag x = if x <? 0 then - 2 * x - 1 else 2 * x.
Proof.
  unfold is_s64, zigzag. intros H. rewrite Z.shiftl_mul_pow2 by lia.
  destruct (Z.ltb_spec x 0).
  - replace (u64 (x * 2 ^ 1)) with (2 * x + 2 ^ 64).
    2:{ unfold u64. rewrite <- (Z.mod_add _ 1) by lia. rewrite Z.mod_small; lia. }
    unfold Z.lnot. replace (Z.pred (- (2 * x + 2 ^ 64))) with (- 2 * x - 1 + (-1) * 2 ^ 64) by lia.
    unfold u64. rewrite Z.mod_add by lia. apply Z.mod_small. lia.
  - rewrite u64_small by (unfold is_u64; lia). lia.
Qed.

Lemma unzigzag_zigzag x : is_s64 x -> unzigzag (zigzag x) = x.
Proof.
  intros H. rewrite zigzag_value by done. unfold unzigzag.
  rewrite Z.bit0_odd, Z.shiftr_div_pow2 by lia. change (2 ^ 1) with 2.
  destruct (Z.ltb_spec x 0).
  - replace (- 2 * x - 1) with (1 + 2 * (- x - 1)) by lia.
    rewrite Z.odd_add_mul_2. cbn. replace (1 + 2 * (- x - 1)) with (1 + (- x - 1) * 2) by lia.
    rewrite Z.div_add by lia. change (1 / 2) with 0. unfold Z.lnot. lia.
  - rewrite Z.odd_mul. cbn. rewrite Z.mul_comm, Z.div_mul; lia.
Qed.

(** The same for signed integers: [AppendVarint] then [Varint]. *)
Lemma Varint_put x rest : is_s64 x ->
  Varint (put_uvarint 9 (zigzag x) ++ rest) = (x, zlen (put_uvarint 9 (zigzag x))).
Proof.
  intros H. unfold Varint. rewrite Uvarint_put by apply zigzag_range.
  by rewrite unzigzag_zigzag.
Qed.
