(* ===== verification/GoStrings.v ===== *)
(** * Go's strings and strconv

    [strings.TrimSpace], [strconv.FormatInt] and [strconv.ParseInt] in base 10,
    as the counters and the catalog use them, on the bytes of a string. *)

From S2P Require Import Prelude.

Local Open Scope Z_scope.

(** ** TrimSpace

    The UTF-8 encodings of the runes [unicode.IsSpace] accepts. *)
Definition ascii_spaces : list Z := [9; 10; 11; 12; 13; 32].

Definition space_encodings : list (list Z) :=
  map (fun c => [c]) ascii_spaces ++
  [[0xc2; 0x85]; [0xc2; 0xa0]; [0xe1; 0x9a; 0x80]] ++
  map (fun c => [0xe2; 0x80; c])
    [0x80; 0x81; 0x82; 0x83; 0x84; 0x85; 0x86; 0x87; 0x88; 0x89; 0x8a; 0xa8; 0xa9; 0xaf] ++
  [[0xe2; 0x81; 0x9f]; [0xe3; 0x80; 0x80]].

Fixpoint strip_prefix (p s : list Z) : option (list Z) :=
  match p, s with
  | [], _ => Some s
  | a :: p', b :: s' => if a =? b then strip_prefix p' s' else None
  | _ :: _, [] => None
  end.

(** Drop one leading space rune. *)
Fixpoint strip_space (encs : list (list Z)) (s : list Z) : option (list Z) :=
  match encs with
  | [] => None
  | e :: encs' =>
      match strip_prefix e s with
      | Some rest => Some rest
      | None => strip_space encs' s
      end
  end.

Fixpoint trim_left (fuel : nat) (encs : list (list Z)) (s : list Z) : list Z :=
  match fuel with
  | O => s
  | S f => match strip_space encs s with
           | Some rest => trim_left f encs rest
           | None => s
           end
  end.

Definition trim_bytes (s : list Z) : list Z :=
  let l := trim_left (length s) space_encodings s in
  reverse (trim_left (length l) (reverse <$> space_encodings) (reverse l)).

Definition TrimSpace (s : string) : string :=
  bytes_str (byte_of_Z <$> trim_bytes (byte_Z <$> str_bytes s)).

(** ** Decimal integers *)

Definition digit (d : Z) : byte := byte_of_Z (48 + d).

(** The digits of [n], most significant first, before [acc]. *)
Fixpoint format_uint (fuel : nat) (n : Z) (acc : list byte) : list byte :=
  match fuel with
  | O => acc
  | S f =>
      let acc := digit (n mod 10) :: acc in
      if n / 10 =? 0 then acc else format_uint f (n / 10) acc
  end.

(** [strconv.FormatInt(x, 10)]: an [int64] has at most nineteen digits. *)
Definition FormatInt (x : Z) : list byte :=
  if x <? 0 then byte_of_Z 45 :: format_uint 20 (- x) [] else format_uint 20 x [].

Definition is_digit (b : byte) : bool := (48 <=? byte_Z b) && (byte_Z b <=? 57).

Fixpoint parse_digits (s : list byte) (acc : Z) : option Z :=
  match s with
  | [] => Some acc
  | b :: rest => if is_digit b then parse_digits rest (acc * 10 + (byte_Z b - 48)) else None
  end.

(** [strconv.ParseUint(s, 10, 64)] without its bound, which [ParseInt] checks. *)
Definition parse_uint (s : list byte) : option Z :=
  match s with [] => None | _ => parse_digits s 0 end.

(** [strconv.ParseInt(s, 10, 64)]: [None] for a syntax or a range error. *)
Definition ParseInt (s : list byte) : option Z :=
  match s with
  | [] => None
  | b :: rest =>
      let neg := byte_Z b =? 45 in
      let body := if neg || (byte_Z b =? 43) then rest else s in
      match parse_uint body with
      | None => None
      | Some un =>
          if neg then if un <=? 2 ^ 63 then Some (- un) else None
          else if un <? 2 ^ 63 then Some un else None
      end
  end.

(** ** Lemmas: FormatInt and ParseInt *)

Lemma byte_Z_digit d : 0 <= d < 10 -> byte_Z (digit d) = 48 + d.
Proof. intros H. unfold digit. rewrite byte_Z_of_Z. apply Z.mod_small. lia. Qed.

Lemma is_digit_digit d : 0 <= d < 10 -> is_digit (digit d) = true.
Proof.
  intros H. unfold is_digit. rewrite byte_Z_digit by done.
  apply andb_true_intro; split; apply Z.leb_le; lia.
Qed.

Lemma parse_format_uint fuel : forall n acc a,
  0 <= n < 10 ^ Z.of_nat fuel -> (fuel <> 0)%nat ->
  exists k, 0 <= k /\
  parse_digits (format_uint fuel n acc) a = parse_digits acc (a * 10 ^ k + n).
Proof.
  induction fuel as [|f IH]; intros n acc a Hn Hf; [done|].
  cbn [format_uint]. pose proof (Z.mod_pos_bound n 10 ltac:(lia)) as Hm.
  assert (forall a', parse_digits (digit (n mod 10) :: acc) a' = parse_digits acc (a' * 10 + n mod 10)) as Hd.
  { intros a'. cbn [parse_digits]. rewrite is_digit_digit, byte_Z_digit by done. f_equal. lia. }
  destruct (Z.eqb_spec (n / 10) 0) as [H0|H0].
  - exists 1. split; [done|]. rewrite Hd. f_equal. rewrite (Z.div_mod n 10) at 2 by lia. lia.
  - rewrite Nat2Z.inj_succ, Z.pow_succ_r in Hn by lia.
    assert (0 <= n / 10 < 10 ^ Z.of_nat f) as Hq.
    { split; [apply Z.div_pos; lia|]. apply Z.div_lt_upper_bound; lia. }
    destruct f as [|f]; [simpl in Hq; lia|].
    destruct (IH (n / 10) (digit (n mod 10) :: acc) a Hq) as (k & Hk & E); [done|].
    exists (k + 1). split; [lia|]. rewrite E, Hd. f_equal.
    rewrite Z.pow_add_r by lia. rewrite (Z.div_mod n 10) at 3 by lia. lia.
Qed.

Lemma format_uint_nonempty fuel n acc : (fuel <> 0)%nat -> format_uint fuel n acc <> [].
Proof.
  revert n acc; induction fuel as [|f IH]; intros n acc Hf; [done|]. cbn [format_uint].
  case_bool; [done|]. destruct f; [done|]. by apply IH.
Qed.

Lemma format_uint_digits fuel n acc :
  0 <= n -> Forall (fun b => is_digit b = true) acc ->
  Forall (fun b => is_digit b = true) (format_uint fuel n acc).
Proof.
  revert n acc; induction fuel as [|f IH]; intros n acc Hn Ha; [done|]. cbn [format_uint].
  pose proof (Z.mod_pos_bound n 10 ltac:(lia)).
  assert (is_digit (digit (n mod 10)) = true) by (by apply is_digit_digit).
  case_bool; [by constructor|]. apply IH; [apply Z.div_pos; lia | by constructor].
Qed.

Lemma parse_uint_format n : 0 <= n < 10 ^ 20 -> parse_uint (format_uint 20 n []) = Some n.
Proof.
  intros Hn. destruct (parse_format_uint 20 n [] 0) as (k & Hk & E); [done|done|].
  unfold parse_uint. destruct (format_uint 20 n []) eqn:Ef.
  - by apply format_uint_nonempty in Ef.
  - rewrite E. simpl. f_equal; lia.
Qed.

(** A formatted [int64] parses back. *)
Lemma ParseInt_FormatInt x : is_s64 x -> ParseInt (FormatInt x) = Some x.
Proof.
  unfold is_s64, FormatInt. intros Hx. destruct (Z.ltb_spec x 0).
  - unfold ParseInt. rewrite byte_Z_of_Z. change (45 mod 256) with 45.
    rewrite Z.eqb_refl. cbn [orb].
    rewrite parse_uint_format by lia. rewrite (proj2 (Z.leb_le _ _)) by lia.
    f_equal. lia.
  - assert (parse_uint (format_uint 20 x []) = Some x) as Hp by (apply parse_uint_format; lia).
    pose proof (format_uint_digits 20 x [] ltac:(lia) ltac:(constructor)) as Hd.
    unfold ParseInt. destruct (format_uint 20 x []) as [|b rest] eqn:E; [done|].
    inversion Hd as [|? ? Hb _]; subst. unfold is_digit in Hb. bool_to_prop.
    rewrite (proj2 (Z.eqb_neq (byte_Z b) 45)), (proj2 (Z.eqb_neq (byte_Z b) 43)) by lia.
    cbn [orb]. rewrite Hp. rewrite (proj2 (Z.ltb_lt _ _)) by lia. done.
Qed.

(** ** Lemmas: TrimSpace *)

Definition space_start (z : Z) : bool := existsb (fun e => match e with a :: _ => a =? z | [] => false end) space_encodings.
Definition space_end (z : Z) : bool :=
  existsb (fun e => match reverse e with a :: _ => a =? z | [] => false end) space_encodings.

Lemma strip_space_none encs z s :
  existsb (fun e => match e with a :: _ => a =? z | [] => false end) encs = false ->
  Forall (fun e => e <> []) encs ->
  strip_space encs (z :: s) = None.
Proof.
  induction encs as [|e encs IH]; intros He Hf; [done|]. cbn in *.
  apply orb_false_elim in He as [H1 H2]. inversion Hf; subst.
  destruct e as [|a e]; [done|]. cbn [strip_prefix]. rewrite H1. by apply IH.
Qed.

Lemma trim_left_none fuel encs s : strip_space encs s = None -> trim_left fuel encs s = s.
Proof. destruct fuel; simpl; [done|]. by intros ->. Qed.

(** Text that neither starts nor ends with a byte of a space is unchanged. *)
Lemma TrimSpace_id s :
  (forall z, head (byte_Z <$> str_bytes s) = Some z -> space_start z = false) ->
  (forall z, last (byte_Z <$> str_bytes s) = Some z -> space_end z = false) ->
  TrimSpace s = s.
Proof.
  intros Hh Ht. unfold TrimSpace, trim_bytes.
  set (l := byte_Z <$> str_bytes s) in *.
  assert (forall n, trim_left n space_encodings l = l) as ->.
  { intros n. apply trim_left_none. destruct l as [|z l']; [done|].
    apply strip_space_none; [by apply Hh | by repeat constructor]. }
  assert (forall n, trim_left n (reverse <$> space_encodings) (reverse l) = reverse l) as ->.
  { intros n. apply trim_left_none. destruct (reverse l) as [|z l'] eqn:E; [done|].
    apply strip_space_none; [|by repeat constructor].
    assert (last l = Some z) as Hl.
    { rewrite <- (reverse_involutive l), E, reverse_cons. by rewrite last_snoc. }
    specialize (Ht z Hl). transitivity (space_end z); [|exact Ht]. unfold space_end.
    clear. induction space_encodings as [|e es IH]; [done|]. cbn. by f_equal. }
  rewrite reverse_involutive. subst l.
  rewrite <- list_fmap_compose.
  assert (forall bs : list byte, byte_of_Z ∘ byte_Z <$> bs = bs) as ->.
  { induction bs as [|b bs IH]; [done|]. rewrite fmap_cons, IH. unfold compose.
    by rewrite byte_of_Z_byte. }
  apply bytes_str_bytes.
Qed.

Lemma digit_not_space z : 48 <= z <= 57 -> space_start z = false /\ space_end z = false.
Proof.
  intros H. assert (z = 48 \/ z = 49 \/ z = 50 \/ z = 51 \/ z = 52 \/ z = 53 \/ z = 54 \/ z = 55
                    \/ z = 56 \/ z = 57) as Hz by lia.
  by repeat destruct Hz as [->|Hz]; subst.
Qed.

Lemma FormatInt_bytes x : Forall (fun b => byte_Z b = 45 \/ 48 <= byte_Z b <= 57) (FormatInt x).
Proof.
  assert (forall n, 0 <= n ->
    Forall (fun b => byte_Z b = 45 \/ 48 <= byte_Z b <= 57) (format_uint 20 n [])) as Hd.
  { intros n Hn. eapply Forall_impl; [by apply (format_uint_digits 20 n [])|].
    cbn. unfold is_digit. intros b Hb. bool_to_prop. lia. }
  unfold FormatInt. destruct (Z.ltb_spec x 0); [constructor; [by left|]|]; apply Hd; lia.
Qed.

Lemma TrimSpace_FormatInt x : TrimSpace (bytes_str (FormatInt x)) = bytes_str (FormatInt x).
Proof.
  pose proof (FormatInt_bytes x) as Hb.
  assert (forall z, z ∈ byte_Z <$> FormatInt x -> space_start z = false /\ space_end z = false) as Hz.
  { intros z (b & -> & Hin)%list_elem_of_fmap. rewrite Forall_forall in Hb.
    destruct (Hb b Hin) as [->|?]; [done | by apply digit_not_space]. }
  apply TrimSpace_id; rewrite str_bytes_str; intros z Hin; apply Hz.
  - destruct (byte_Z <$> FormatInt x); [done|]. injection Hin as ->. set_solver.
  - apply last_Some in Hin as (l' & ->). set_solver.
Qed.

Lemma parse_digits_nonneg s acc n : 0 <= acc -> parse_digits s acc = Some n -> 0 <= n.
Proof.
  revert acc. induction s as [|b s IH]; intros acc Ha; simpl; [by intros [= <-]|].
  unfold is_digit. case_bool; [|done]. bool_to_prop. apply IH. lia.
Qed.

Lemma ParseInt_range s n : ParseInt s = Some n -> is_s64 n.
Proof.
  unfold ParseInt, is_s64. destruct s as [|b s]; [done|]. cbn zeta.
  set (body := if _ : bool then s else b :: s).
  destruct (parse_uint body) as [un|] eqn:E; [|done].
  assert (0 <= un) by (unfold parse_uint in E; destruct body; [done|]; by apply parse_digits_nonneg in E).
  repeat case_bool; intros [= <-]; bool_to_prop; lia.
Qed.

(** ** Lemmas: TrimSpace is idempotent *)

Definition encodings_ok (encs : list (list Z)) : Prop := Forall (fun e => e <> []) encs.

Lemma strip_prefix_drop p s r : strip_prefix p s = Some r -> r = drop (length p) s /\ (length p <= length s)%nat.
Proof.
  revert s. induction p as [|a p IH]; intros s; [by intros [= <-]; split; [|cbn; lia]|].
  destruct s as [|b s]; [done|]. cbn [strip_prefix]. case_bool; [|done]. intros E. apply IH in E as [-> ?].
  split; [done|cbn; lia].
Qed.

Lemma strip_space_drop encs s r : encodings_ok encs -> strip_space encs s = Some r ->
  exists k, (0 < k <= length s)%nat /\ r = drop k s.
Proof.
  induction 1 as [|e encs He _ IH]; [done|]. cbn [strip_space]. destruct (strip_prefix e s) as [x|] eqn:E; [|apply IH].
  intros [= <-]. apply strip_prefix_drop in E as [-> Hle]. exists (length e). split; [|done].
  destruct e; [done|cbn in *; lia].
Qed.

Lemma trim_left_drop fuel encs s : encodings_ok encs ->
  exists k, trim_left fuel encs s = drop k s.
Proof.
  intros He. revert s. induction fuel as [|f IH]; intros s; [by exists 0%nat|]. cbn [trim_left].
  destruct (strip_space encs s) as [r|] eqn:E; [|by exists 0%nat].
  destruct (strip_space_drop encs s r He E) as (k & _ & ->). destruct (IH (drop k s)) as [j ->].
  exists (k + j)%nat. by rewrite drop_drop.
Qed.

Lemma trim_left_stripped fuel encs s : encodings_ok encs -> (length s <= fuel)%nat ->
  strip_space encs (trim_left fuel encs s) = None.
Proof.
  intros He. revert s. induction fuel as [|f IH]; intros s Hl.
  - destruct s; [|cbn in Hl; lia]. cbn [trim_left].
    destruct (strip_space encs []) as [r|] eqn:E; [|done].
    destruct (strip_space_drop encs [] r He E) as (k & Hk & _). cbn in Hk. lia.
  - cbn [trim_left]. destruct (strip_space encs s) as [r|] eqn:E; [|done].
    destruct (strip_space_drop encs s r He E) as (k & Hk & ->). apply IH. rewrite length_drop. lia.
Qed.

Lemma strip_prefix_app p s t r : strip_prefix p s = Some r -> strip_prefix p (s ++ t) = Some (r ++ t).
Proof.
  revert s. induction p as [|a p IH]; intros s; [by intros [= <-]|].
  destruct s as [|b s]; [done|]. cbn. case_bool; [apply IH|done].
Qed.

Lemma strip_space_app encs s t : strip_space encs (s ++ t) = None -> strip_space encs s = None.
Proof.
  induction encs as [|e encs IH]; [done|]. cbn [strip_space].
  destruct (strip_prefix e s) as [r|] eqn:E; [by rewrite (strip_prefix_app e s t r E)|].
  by destruct (strip_prefix e (s ++ t)).
Qed.

Lemma space_encodings_ok : encodings_ok space_encodings /\ encodings_ok (reverse <$> space_encodings).
Proof. by repeat constructor. Qed.

(** The trimmed text is a slice, and it can be trimmed no further. *)
Lemma trim_bytes_slice s : exists j k, trim_bytes s = take j (drop k s) /\ trim_bytes (trim_bytes s) = trim_bytes s.
Proof.
  destruct space_encodings_ok as [He Hr]. unfold trim_bytes at 1 3 4.
  destruct (trim_left_drop (length s) space_encodings s He) as [k Ek].
  pose proof (trim_left_stripped (length s) space_encodings s He ltac:(done)) as Hs. rewrite Ek in *.
  set (l := drop k s) in *.
  destruct (trim_left_drop (length l) (reverse <$> space_encodings) (reverse l) Hr) as [i Ei].
  pose proof (trim_left_stripped (length l) (reverse <$> space_encodings) (reverse l) Hr
    ltac:(by rewrite length_reverse)) as Ht. rewrite Ei in *.
  set (r := reverse (drop i (reverse l))).
  assert (l = r ++ reverse (take i (reverse l))) as El.
  { unfold r. rewrite <- reverse_app, take_drop. by rewrite reverse_involutive. }
  exists (length r), k. split.
  - fold l. rewrite El at 1. by rewrite take_app_length.
  - unfold trim_bytes. rewrite El in Hs.
    rewrite (trim_left_none _ _ r) by (by eapply strip_space_app).
    rewrite trim_left_none; [apply reverse_involutive|]. unfold r. by rewrite reverse_involutive.
Qed.

Lemma TrimSpace_idem s : TrimSpace (TrimSpace s) = TrimSpace s.
Proof.
  unfold TrimSpace. rewrite str_bytes_str.
  destruct (trim_bytes_slice (byte_Z <$> str_bytes s)) as (j & k & Es & Ei).
  assert (byte_Z <$> (byte_of_Z <$> trim_bytes (byte_Z <$> str_bytes s)) = trim_bytes (byte_Z <$> str_bytes s)) as ->;
    [|by rewrite Ei].
  rewrite Es. rewrite <- list_fmap_compose, <- fmap_drop, <- fmap_take. generalize (take j (drop k (str_bytes s))).
  induction l as [|b l IH]; [done|]. rewrite !fmap_cons, IH. unfold compose. by rewrite byte_of_Z_byte.
Qed.
