(* ===== verification/GoUnicode.v ===== *)
(** * Go's runes and letter cases

    UTF-8 as Go's [range] over a string and [strings.Map] read and write it, with
    [strings.ToUpper], [strings.ToLower] and [strings.EqualFold].  The tables of
    package unicode are the class [Unicode], whose laws say what they hold for the
    ASCII runes. *)

From S2P Require Import Prelude.

Local Open Scope Z_scope.

Definition runeError : Z := 0xFFFD.

Definition inRange (low high b : Z) : bool := (low <=? b) && (b <=? high).

Definition continuation (b : Z) : bool := inRange 0x80 0xBF b.

(** The bounds of the second byte after the first byte of a long rune. *)
Definition secondByte (b : Z) : Z * Z :=
  if b =? 0xE0 then (0xA0, 0xBF)
  else if b =? 0xED then (0x80, 0x9F)
  else if b =? 0xF0 then (0x90, 0xBF)
  else if b =? 0xF4 then (0x80, 0x8F)
  else (0x80, 0xBF).

(** [utf8.DecodeRuneInString]: the first rune and how many bytes follow its first;
    an invalid byte is [runeError] on its own. *)
Definition decodeRune (b : Z) (rest : list Z) : Z * nat :=
  if b <? 0x80 then (b, 0%nat)
  else
    let '(low, high) := secondByte b in
    match rest with
    | c :: rest1 =>
        if negb (inRange low high c) then (runeError, 0%nat)
        else if inRange 0xC2 0xDF b then ((b - 0xC0) * 64 + (c - 0x80), 1%nat)
        else match rest1 with
             | d :: rest2 =>
                 if negb (continuation d) then (runeError, 0%nat)
                 else if inRange 0xE0 0xEF b then ((b - 0xE0) * 4096 + (c - 0x80) * 64 + (d - 0x80), 2%nat)
                 else match rest2 with
                      | e :: _ =>
                          if negb (continuation e) then (runeError, 0%nat)
                          else if inRange 0xF0 0xF4 b
                          then ((b - 0xF0) * 262144 + (c - 0x80) * 4096 + (d - 0x80) * 64 + (e - 0x80), 3%nat)
                          else (runeError, 0%nat)
                      | [] => (runeError, 0%nat)
                      end
             | [] => (runeError, 0%nat)
             end
    | [] => (runeError, 0%nat)
    end.

(** [range] over a string; [skip] bytes of the current rune are left. *)
Fixpoint runesFrom (skip : nat) (s : list Z) : list Z :=
  match s with
  | [] => []
  | b :: rest =>
      match skip with
      | S skip => runesFrom skip rest
      | O => let '(rune, more) := decodeRune b rest in rune :: runesFrom more rest
      end
  end.

Definition runes (s : list byte) : list Z := runesFrom 0 (byte_Z <$> s).

(** [utf8.AppendRune]. *)
Definition encodeRune (r : Z) : list Z :=
  let r := if inRange 0xD800 0xDFFF r || (0x10FFFF <? r) || (r <? 0) then runeError else r in
  if r <? 0x80 then [r]
  else if r <? 0x800 then [0xC0 + r / 64; 0x80 + r mod 64]
  else if r <? 0x10000 then [0xE0 + r / 4096; 0x80 + (r / 64) mod 64; 0x80 + r mod 64]
  else [0xF0 + r / 262144; 0x80 + (r / 4096) mod 64; 0x80 + (r / 64) mod 64; 0x80 + r mod 64].

(** [strings.Map] of a mapping that drops no rune. *)
Definition mapRunes (f : Z -> Z) (s : list byte) : list byte :=
  byte_of_Z <$> (runes s ≫= fun r => encodeRune (f r)).

Definition asciiUpper (r : Z) : Z := if inRange 97 122 r then r - 32 else r.
Definition asciiLower (r : Z) : Z := if inRange 65 90 r then r + 32 else r.
Definition asciiLetter (r : Z) : bool := inRange 65 90 r || inRange 97 122 r.
Definition asciiDigit (r : Z) : bool := inRange 48 57 r.

(** [unicode.ToUpper], [unicode.ToLower], [unicode.IsLetter], [unicode.IsDigit] and
    equality under simple folding. *)
Class Unicode := {
  rune_ToUpper : Z -> Z;
  rune_ToLower : Z -> Z;
  rune_IsLetter : Z -> bool;
  rune_IsDigit : Z -> bool;
  rune_EqualFold : Z -> Z -> bool;
  ascii_ToUpper : forall r, 0 <= r < 128 -> rune_ToUpper r = asciiUpper r;
  ascii_ToLower : forall r, 0 <= r < 128 -> rune_ToLower r = asciiLower r;
  ascii_IsLetter : forall r, 0 <= r < 128 -> rune_IsLetter r = asciiLetter r;
  ascii_IsDigit : forall r, 0 <= r < 128 -> rune_IsDigit r = asciiDigit r;
  ascii_EqualFold : forall r q, 0 <= r < 128 -> 0 <= q < 128 -> rune_EqualFold r q = (asciiUpper r =? asciiUpper q)
}.

(** Tables that know the ASCII runes only: the instance witnesses use. *)
Program Definition ascii_tables : Unicode := {|
  rune_ToUpper := asciiUpper;
  rune_ToLower := asciiLower;
  rune_IsLetter := asciiLetter;
  rune_IsDigit := asciiDigit;
  rune_EqualFold := fun r q => asciiUpper r =? asciiUpper q
|}.
Solve All Obligations with done.

Section Cases.
  Context `{!Unicode}.

Definition ToUpper (s : list byte) : list byte := mapRunes rune_ToUpper s.

Definition ToLower (s : list byte) : list byte := mapRunes rune_ToLower s.

Fixpoint foldRunes (s t : list Z) : bool :=
  match s, t with
  | [], [] => true
  | r :: s, q :: t => ((r =? q) || rune_EqualFold r q) && foldRunes s t
  | _, _ => false
  end.

Definition EqualFold (s t : list byte) : bool := foldRunes (runes s) (runes t).
End Cases.

(** ** ASCII *)

Definition is_ascii (s : list byte) : Prop := Forall (fun b => byte_Z b < 128) s.

#[global] Instance is_ascii_dec s : Decision (is_ascii s).
Proof. unfold is_ascii. apply _. Defined.

Lemma runes_ascii s : is_ascii s -> runes s = byte_Z <$> s.
Proof.
  unfold runes. induction 1 as [|b s Hb _ IH]; [done|]. cbn [fmap list_fmap runesFrom]. unfold decodeRune.
  rewrite (proj2 (Z.ltb_lt _ _)) by exact Hb. by f_equal.
Qed.

Lemma asciiUpper_range r : 0 <= r < 128 -> 0 <= asciiUpper r < 128.
Proof. unfold asciiUpper, inRange. intros. destruct (Z.leb_spec 97 r), (Z.leb_spec r 122); cbn; lia. Qed.

(** The upper case of an ASCII text is the upper case of its bytes. *)
Lemma ToUpper_ascii `{!Unicode} s : is_ascii s -> ToUpper s = (fun b => byte_of_Z (asciiUpper (byte_Z b))) <$> s.
Proof.
  intros Hs. unfold ToUpper, mapRunes. rewrite runes_ascii by done. induction Hs as [|b s Hb _ IH]; [done|].
  pose proof (byte_Z_range b). cbn [fmap list_fmap mbind list_bind].
  rewrite ascii_ToUpper by lia. pose proof (asciiUpper_range (byte_Z b) ltac:(lia)).
  assert (encodeRune (asciiUpper (byte_Z b)) = [asciiUpper (byte_Z b)]) as ->.
  { unfold encodeRune, inRange. rewrite (proj2 (Z.leb_gt 0xD800 _)), (proj2 (Z.ltb_ge 0x10FFFF _)), (proj2 (Z.ltb_ge _ 0)) by lia.
    cbn [andb orb]. by rewrite (proj2 (Z.ltb_lt _ 0x80)) by lia. }
  cbn [app fmap list_fmap]. f_equal. exact IH.
Qed.

(** A text with a byte that is not UTF-8 and a rune of three bytes. *)
Example runes_mixed : runes (byte_of_Z <$> [65; 0xFF; 0xE2; 0x82; 0xAC; 66]) = [65; runeError; 0x20AC; 66].
Proof. vm_compute. reflexivity. Qed.

Example encode_decode : runes (byte_of_Z <$> (encodeRune 0x1F600 ++ encodeRune 0x7FF)) = [0x1F600; 0x7FF].
Proof. vm_compute. reflexivity. Qed.
