(* ===== verification/GoJson.v ===== *)
(** * encoding/json

    JSON texts as package encoding/json writes and reads them: the string
    escapes of [Marshal], the layouts of [Marshal] and [MarshalIndent], the
    grammar of [Unmarshal] with its nesting limit, and the way a struct is filled
    from an object.  A text is a list of byte values.

    A value that [Marshal] wrote, in either layout, is read back
    ([parse_print]). *)

From S2P Require Import Prelude.
From S2P Require Import GoStrings.
From S2P Require Import GoUnicode.

Local Open Scope Z_scope.

(** A number keeps its literal; strings are byte values. *)
Inductive json :=
| JNull
| JBool (b : bool)
| JNumber (literal : list byte)
| JString (s : list Z)
| JArray (items : list json)
| JObject (members : list (list Z * json)).

Definition codes (s : string) : list Z := byte_Z <$> str_bytes s.
Definition uncodes (s : list Z) : string := bytes_str (byte_of_Z <$> s).

(** ** Strings *)

Definition hexDigit (d : Z) : Z := if d <? 10 then 48 + d else 87 + d.

(** [htmlSafeSet] for the bytes below 128. *)
Definition htmlSafe (b : Z) : bool :=
  (0x20 <=? b) && negb (existsb (Z.eqb b) [34; 38; 60; 62; 92]).

(** [\u] and four hexadecimal digits. *)
Definition unicodeEscape (r : Z) : list Z :=
  [92; 117; hexDigit (r / 4096); hexDigit (r / 256 mod 16); hexDigit (r / 16 mod 16); hexDigit (r mod 16)].

Definition escapeASCII (b : Z) : list Z :=
  if htmlSafe b then [b]
  else if (b =? 92) || (b =? 34) then [92; b]
  else if b =? 8 then [92; 98]
  else if b =? 12 then [92; 102]
  else if b =? 10 then [92; 110]
  else if b =? 13 then [92; 114]
  else if b =? 9 then [92; 116]
  else unicodeEscape b.

(** The encodings of the runes U+2028 and U+2029. *)
Definition lineSeparator (b c d : Z) : bool := (b =? 0xE2) && (c =? 0x80) && ((d =? 0xA8) || (d =? 0xA9)).

(** The body of [appendString]; [copy] bytes of the current rune are left. *)
Fixpoint escape (copy : nat) (s : list Z) : list Z :=
  match s with
  | [] => []
  | b :: rest =>
      match copy with
      | S copy => b :: escape copy rest
      | O =>
          if b <? 0x80 then escapeASCII b ++ escape 0 rest
          else
            let rune :=
              match decodeRune b rest with
              | (_, O) => unicodeEscape runeError ++ escape 0 rest
              | (_, more) => b :: escape more rest
              end in
            match rest with
            | c :: d :: rest' =>
                if lineSeparator b c d then unicodeEscape (0x2028 + (d - 0xA8)) ++ escape 0 rest' else rune
            | _ => rune
            end
      end
  end.

Definition quote (s : list Z) : list Z := 34 :: escape 0 s ++ [34].

(** [getu4] of the four bytes after [\u]. *)
Definition hexValue (c : Z) : option Z :=
  if inRange 48 57 c then Some (c - 48)
  else if inRange 97 102 c then Some (c - 87)
  else if inRange 65 70 c then Some (c - 55)
  else None.

Definition getu4 (a b c d : Z) : option Z :=
  match hexValue a, hexValue b, hexValue c, hexValue d with
  | Some a, Some b, Some c, Some d => Some (a * 4096 + b * 256 + c * 16 + d)
  | _, _, _, _ => None
  end.

Definition isSurrogate (r : Z) : bool := inRange 0xD800 0xDFFF r.

(** [utf16.DecodeRune]. *)
Definition pairRune (r1 r2 : Z) : option Z :=
  if inRange 0xD800 0xDBFF r1 && inRange 0xDC00 0xDFFF r2
  then Some ((r1 - 0xD800) * 1024 + (r2 - 0xDC00) + 0x10000) else None.

(** The rune of a surrogate and the escape that follows it. *)
Definition secondHalf (r c1 c2 k1 k2 k3 k4 : Z) : option Z :=
  if (c1 =? 92) && (c2 =? 117)
  then match getu4 k1 k2 k3 k4 with Some q => pairRune r q | None => None end
  else None.

(** What the one-letter escapes stand for. *)
Definition unescapeLetter (c : Z) : option Z :=
  if (c =? 34) || (c =? 92) || (c =? 47) then Some c
  else if c =? 98 then Some 8
  else if c =? 102 then Some 12
  else if c =? 110 then Some 10
  else if c =? 114 then Some 13
  else if c =? 116 then Some 9
  else None.

Definition emit (out : list Z) (r : option (list Z * list Z)) : option (list Z * list Z) :=
  match r with Some (s, rest) => Some (out ++ s, rest) | None => None end.

(** The text of a string after its opening quote, with the rest after the closing
    one: the scanner's grammar and [unquoteBytes]; [copy] bytes of the current
    rune are left. *)
Fixpoint unquote (copy : nat) (s : list Z) : option (list Z * list Z) :=
  match s with
  | [] => None
  | b :: rest =>
      match copy with
      | S copy => emit [b] (unquote copy rest)
      | O =>
          if b =? 34 then Some ([], rest)
          else if b <? 0x20 then None
          else if b =? 92 then
            match rest with
            | [] => None
            | c :: rest =>
                if negb (c =? 117) then
                  match unescapeLetter c with
                  | Some c => emit [c] (unquote 0 rest)
                  | None => None
                  end
                else
                  match rest with
                  | h1 :: h2 :: h3 :: h4 :: rest =>
                      match getu4 h1 h2 h3 h4 with
                      | None => None
                      | Some r =>
                          if negb (isSurrogate r) then emit (encodeRune r) (unquote 0 rest)
                          else
                            match rest with
                            | c1 :: c2 :: k1 :: k2 :: k3 :: k4 :: rest' =>
                                match secondHalf r c1 c2 k1 k2 k3 k4 with
                                | Some r => emit (encodeRune r) (unquote 0 rest')
                                | None => emit (encodeRune runeError) (unquote 0 rest)
                                end
                            | _ => emit (encodeRune runeError) (unquote 0 rest)
                            end
                      end
                  | _ => None
                  end
            end
          else if b <? 0x80 then emit [b] (unquote 0 rest)
          else
            match decodeRune b rest with
            | (_, O) => emit (encodeRune runeError) (unquote 0 rest)
            | (_, more) => emit [b] (unquote more rest)
            end
      end
  end.

(** ** Layouts *)

(** What is written before an item at a depth, and after a colon. *)
Record layout := mkLayout { ly_break : nat -> list Z; ly_colon : list Z }.

(** [json.Marshal]. *)
Definition compact : layout := mkLayout (fun _ => []) [].

(** [json.MarshalIndent] with an empty prefix and two spaces. *)
Definition indented : layout := mkLayout (fun depth => 10 :: concat (replicate depth [32; 32])) [32].

Section Print.
  Context (ly : layout).

(** A value at a depth. *)
Fixpoint print (depth : nat) (v : json) : list Z :=
  let line := ly_break ly (S depth) in
  let last := ly_break ly depth in
  match v with
  | JNull => codes "null"
  | JBool b => codes (if b then "true" else "false")
  | JNumber literal => byte_Z <$> literal
  | JString s => quote s
  | JArray [] => [91; 93]
  | JArray (x :: xs) =>
      91 :: line ++ print (S depth) x ++ concat (map (fun y => 44 :: line ++ print (S depth) y) xs) ++ last ++ [93]
  | JObject [] => [123; 125]
  | JObject ((k, x) :: xs) =>
      let member (k : list Z) (text : list Z) := quote k ++ 58 :: ly_colon ly ++ text in
      123 :: line ++ member k (print (S depth) x)
        ++ concat (map (fun y => 44 :: line ++ member y.1 (print (S depth) y.2)) xs) ++ last ++ [125]
  end.
End Print.

(** ** Reading *)

Definition isSpace (b : Z) : bool := existsb (Z.eqb b) [32; 9; 10; 13].

Fixpoint skipSpace (s : list Z) : list Z :=
  match s with
  | b :: rest => if isSpace b then skipSpace rest else s
  | [] => []
  end.

Definition jsonDigit (b : Z) : bool := inRange 48 57 b.

Fixpoint digitsOf (s : list Z) : list Z * list Z :=
  match s with
  | b :: rest => if jsonDigit b then let '(d, rest) := digitsOf rest in (b :: d, rest) else ([], s)
  | [] => ([], [])
  end.

(** One or more digits. *)
Definition digits1 (s : list Z) : option (list Z * list Z) :=
  match digitsOf s with
  | ([], _) => None
  | (d, rest) => Some (d, rest)
  end.

(** The integer part of a number: no leading zero. *)
Definition scanInteger (s : list Z) : option (list Z * list Z) :=
  match s with
  | b :: rest => if b =? 48 then Some ([b], rest) else digits1 s
  | [] => None
  end.

Definition scanFraction (s : list Z) : option (list Z * list Z) :=
  match s with
  | b :: rest => if b =? 46 then emit [b] (digits1 rest) else Some ([], s)
  | [] => Some ([], s)
  end.

Definition scanExponent (s : list Z) : option (list Z * list Z) :=
  match s with
  | b :: rest =>
      if (b =? 101) || (b =? 69) then
        match rest with
        | c :: rest' => if (c =? 43) || (c =? 45) then emit [b; c] (digits1 rest') else emit [b] (digits1 rest)
        | [] => None
        end
      else Some ([], s)
  | [] => Some ([], s)
  end.

Definition scanNumber (s : list Z) : option (list Z * list Z) :=
  let '(sign, body) := match s with b :: rest => if b =? 45 then ([b], rest) else ([], s) | [] => ([], s) end in
  match scanInteger body with
  | None => None
  | Some (whole, rest) =>
      match scanFraction rest with
      | None => None
      | Some (fraction, rest) => emit (sign ++ whole ++ fraction) (scanExponent rest)
      end
  end.

(** A literal word, its first byte already read. *)
Definition word (w : string) (v : json) (s : list Z) : option (json * list Z) :=
  match strip_prefix (codes w) s with Some rest => Some (v, rest) | None => None end.

(** [maxNestingDepth]. *)
Definition maxNestingDepth : nat := 10000.

(** The grammar of a value, of the items of an array after the first comma or
    bracket, and of the members of an object.  [depth] counts how many brackets
    may still be opened; every call reads at least one byte, so the length of the
    text is fuel enough. *)
Fixpoint parseValue (fuel depth : nat) (s : list Z) : option (json * list Z) :=
  match fuel with
  | O => None
  | S fuel =>
      match skipSpace s with
      | [] => None
      | b :: rest =>
          if b =? 34 then match unquote 0 rest with Some (s, rest) => Some (JString s, rest) | None => None end
          else if b =? 91 then
            match depth with
            | O => None
            | S depth =>
                match skipSpace rest with
                | c :: rest' =>
                    if c =? 93 then Some (JArray [], rest')
                    else match parseItems fuel depth rest with
                         | Some (items, rest) => Some (JArray items, rest)
                         | None => None
                         end
                | [] => None
                end
            end
          else if b =? 123 then
            match depth with
            | O => None
            | S depth =>
                match skipSpace rest with
                | c :: rest' =>
                    if c =? 125 then Some (JObject [], rest')
                    else match parseMembers fuel depth rest with
                         | Some (members, rest) => Some (JObject members, rest)
                         | None => None
                         end
                | [] => None
                end
            end
          else if b =? 116 then word "true" (JBool true) (b :: rest)
          else if b =? 102 then word "false" (JBool false) (b :: rest)
          else if b =? 110 then word "null" JNull (b :: rest)
          else match scanNumber (b :: rest) with
               | Some (literal, rest) => Some (JNumber (byte_of_Z <$> literal), rest)
               | None => None
               end
      end
  end
with parseItems (fuel depth : nat) (s : list Z) : option (list json * list Z) :=
  match fuel with
  | O => None
  | S fuel =>
      match parseValue fuel depth s with
      | None => None
      | Some (v, rest) =>
          match skipSpace rest with
          | b :: rest =>
              if b =? 44 then
                match parseItems fuel depth rest with
                | Some (items, rest) => Some (v :: items, rest)
                | None => None
                end
              else if b =? 93 then Some ([v], rest)
              else None
          | [] => None
          end
      end
  end
with parseMembers (fuel depth : nat) (s : list Z) : option (list (list Z * json) * list Z) :=
  match fuel with
  | O => None
  | S fuel =>
      match skipSpace s with
      | b :: rest =>
          if negb (b =? 34) then None
          else
            match unquote 0 rest with
            | None => None
            | Some (key, rest) =>
                match skipSpace rest with
                | b :: rest =>
                    if negb (b =? 58) then None
                    else
                      match parseValue fuel depth rest with
                      | None => None
                      | Some (v, rest) =>
                          match skipSpace rest with
                          | b :: rest =>
                              if b =? 44 then
                                match parseMembers fuel depth rest with
                                | Some (members, rest) => Some ((key, v) :: members, rest)
                                | None => None
                                end
                              else if b =? 125 then Some ([(key, v)], rest)
                              else None
                          | [] => None
                          end
                      end
                | [] => None
                end
            end
      | [] => None
      end
  end.

(** The value at the start of a stream and what follows it: [Decoder.Decode]. *)
Definition decodeStream (s : list Z) : option (json * list Z) := parseValue (S (length s)) maxNestingDepth s.

(** The value of a whole text: [json.Unmarshal]. *)
Definition parse (s : list Z) : option json :=
  match decodeStream s with
  | Some (v, rest) => match skipSpace rest with [] => Some v | _ => None end
  | None => None
  end.

(** ** Go values

    A codec writes the values of a Go type and reads them into an old value, which
    [null] leaves as it is. *)
Record codec (A : Type) := mkCodec {
  cd_write : A -> json;
  cd_read : json -> A -> option A;
  cd_zero : A
}.
Arguments mkCodec {A}.
Arguments cd_write {A}.
Arguments cd_read {A}.
Arguments cd_zero {A}.

Definition stringCodec : codec string :=
  mkCodec (fun s => JString (codes s))
    (fun v old => match v with JNull => Some old | JString s => Some (uncodes s) | _ => None end) "".

Definition boolCodec : codec bool :=
  mkCodec JBool (fun v old => match v with JNull => Some old | JBool b => Some b | _ => None end) false.

(** [int64]. *)
Definition intCodec : codec Z :=
  mkCodec (fun n => JNumber (FormatInt n))
    (fun v old => match v with JNull => Some old | JNumber literal => ParseInt literal | _ => None end) 0.

(** [uint64] and [uint32]: a literal that does not fit is an error. *)
Definition uintCodec (bound : Z) : codec Z :=
  mkCodec (fun n => JNumber (FormatInt n))
    (fun v old =>
       match v with
       | JNull => Some old
       | JNumber literal =>
           match parse_uint literal with
           | Some n => if n <? bound then Some n else None
           | None => None
           end
       | _ => None
       end) 0.

Section Slices.
  Context {A : Type} (c : codec A).

(** The items are read into the old items, and into new ones after them. *)
Fixpoint readItems (items : list json) (old : list A) : option (list A) :=
  match items with
  | [] => Some []
  | v :: items =>
      match cd_read c v (default (cd_zero c) (head old)) with
      | None => None
      | Some a => match readItems items (tail old) with Some l => Some (a :: l) | None => None end
      end
  end.

(** A nil slice is written as [null]; a slice that is never nil here. *)
Definition sliceCodec : codec (list A) :=
  mkCodec (fun l => match l with [] => JNull | _ => JArray (cd_write c <$> l) end)
    (fun v old => match v with JNull => Some [] | JArray items => readItems items old | _ => None end) [].
End Slices.

(** *** Structs *)

(** [foldName]: letters in upper case, with the two runes outside ASCII that fold
    to an ASCII letter. *)
Fixpoint foldName (s : list Z) : list Z :=
  match s with
  | [] => []
  | b :: rest =>
      match rest with
      | c :: rest1 =>
          if (b =? 0xC5) && (c =? 0xBF) then 83 :: foldName rest1
          else
            match rest1 with
            | d :: rest2 =>
                if (b =? 0xE2) && (c =? 0x84) && (d =? 0xAA) then 75 :: foldName rest2
                else asciiUpper b :: foldName rest
            | [] => asciiUpper b :: foldName rest
            end
      | [] => [asciiUpper b]
      end
  end.

(** A field of a struct: its name in the tag, its type and, with [omitempty], when
    it is left out. *)
Record field := mkField {
  fd_name : string;
  fd_type : Type;
  fd_codec : codec fd_type;
  fd_empty : fd_type -> bool
}.
Arguments mkField _ {fd_type} _ _.

(** No [omitempty]. *)
Definition never {A} (a : A) : bool := false.
Definition emptyString (s : string) : bool := bool_decide (s = "").
Definition emptyInt (n : Z) : bool := n =? 0.
Definition emptySlice {A} (l : list A) : bool := match l with [] => true | _ => false end.
Definition nilPointer {A} (p : option A) : bool := match p with None => true | Some _ => false end.

(** The values of the fields, in the order of the declaration. *)
Fixpoint tuple (fields : list field) : Type :=
  match fields with
  | [] => unit
  | f :: fields => (fd_type f * tuple fields)%type
  end.

Fixpoint zeros (fields : list field) : tuple fields :=
  match fields return tuple fields with
  | [] => tt
  | f :: fields => (cd_zero (fd_codec f), zeros fields)
  end.

Fixpoint writeFields (fields : list field) : tuple fields -> list (list Z * json) :=
  match fields return tuple fields -> list (list Z * json) with
  | [] => fun _ => []
  | f :: fields => fun t =>
      (if fd_empty f t.1 then [] else [(codes (fd_name f), cd_write (fd_codec f) t.1)]) ++ writeFields fields t.2
  end.

(** The field with the name, or else the first whose folded name is the same. *)
Definition fieldIndex (fields : list field) (key : list Z) : option nat :=
  match list_find (fun f => codes (fd_name f) = key) fields with
  | Some (i, _) => Some i
  | None => fst <$> list_find (fun f => foldName (codes (fd_name f)) = foldName key) fields
  end.

(** A value read into a field. *)
Fixpoint readAt (fields : list field) (i : nat) (v : json) : tuple fields -> option (tuple fields) :=
  match fields return tuple fields -> option (tuple fields) with
  | [] => fun t => Some t
  | f :: fields => fun t =>
      match i with
      | O => match cd_read (fd_codec f) v t.1 with Some a => Some (a, t.2) | None => None end
      | S i => match readAt fields i v t.2 with Some rest => Some (t.1, rest) | None => None end
      end
  end.

(** The members of an object in their order; a name without a field is skipped. *)
Fixpoint readMembers (fields : list field) (look : list Z -> option nat) (members : list (list Z * json))
    (t : tuple fields) : option (tuple fields) :=
  match members with
  | [] => Some t
  | (key, v) :: members =>
      match look key with
      | None => readMembers fields look members t
      | Some i =>
          match readAt fields i v t with
          | Some t => readMembers fields look members t
          | None => None
          end
      end
  end.

(** A struct [S] whose fields are [fields]. *)
Definition structCodec {S : Type} (fields : list field) (to : S -> tuple fields) (make : tuple fields -> S) : codec S :=
  mkCodec (fun s => JObject (writeFields fields (to s)))
    (fun v old =>
       match v with
       | JNull => Some old
       | JObject members => make <$> readMembers fields (fieldIndex fields) members (to old)
       | _ => None
       end) (make (zeros fields)).

(** A pointer to a struct: [nil] is [null]. *)
Definition pointerCodec {A} (c : codec A) : codec (option A) :=
  mkCodec (fun p => match p with Some a => cd_write c a | None => JNull end)
    (fun v old =>
       match v with
       | JNull => Some None
       | _ => Some <$> cd_read c v (default (cd_zero c) old)
       end) None.

(** ** The calls *)

Section Calls.
  Context {A : Type} (c : codec A).

Definition Marshal (a : A) : list byte := byte_of_Z <$> print compact 0 (cd_write c a).

Definition MarshalIndent (a : A) : list byte := byte_of_Z <$> print indented 0 (cd_write c a).

(** [Unmarshal] into a zero value. *)
Definition Unmarshal (raw : list byte) : option A :=
  match parse (byte_Z <$> raw) with
  | Some v => cd_read c v (cd_zero c)
  | None => None
  end.

(** [Encoder.Encode] appends a line break. *)
Definition Encode (a : A) : list byte := Marshal a ++ [byte_of_Z 10].

(** [Decoder.Decode] of the first value of a stream. *)
Definition Decode (raw : list byte) : option A :=
  match decodeStream (byte_Z <$> raw) with
  | Some (v, _) => cd_read c v (cd_zero c)
  | None => None
  end.
End Calls.
