(* ===== verification/GoJsonSpec.v ===== *)
(** * Reading back what encoding/json wrote

    [parse_print]: a value whose strings are UTF-8 and whose numbers are integers,
    not nested beyond the limit, is read back from either layout. *)

From S2P Require Import Prelude.
From S2P Require Import GoStrings.
From S2P Require Import GoUnicode.
From S2P Require Import GoJson.

Local Open Scope Z_scope.

(** ** Strings *)

(** [utf8.Valid]; [copy] bytes of the current rune are left. *)
Fixpoint utf8Valid (copy : nat) (s : list Z) : bool :=
  match s with
  | [] => true
  | b :: rest =>
      match copy with
      | S copy => utf8Valid copy rest
      | O =>
          if b <? 0x80 then (0 <=? b) && utf8Valid 0 rest
          else match decodeRune b rest with
               | (_, O) => false
               | (_, more) => utf8Valid more rest
               end
      end
  end.

(** A long rune is decided by its own bytes, which are there. *)
Lemma decodeRune_long b rest r more : decodeRune b rest = (r, S more) ->
  (S more <= length rest)%nat /\
  forall t, decodeRune b (take (S more) rest ++ t) = (r, S more).
Proof.
  unfold decodeRune. destruct (b <? 0x80) eqn:Eb; [done|]. destruct (secondByte b) as [low high].
  destruct rest as [|c [|d [|e rest]]]; cbn [length];
    repeat match goal with
    | |- (if ?x then _ else _) = _ -> _ => destruct x eqn:?
    | |- (_, _) = (_, _) -> _ => intros [= <- <-]
    end; try done.
  all: split; [lia|]; intros t; cbn [take app]; repeat match goal with E : _ = _ |- _ => rewrite E; clear E end; done.
Qed.

Lemma utf8Valid_drop copy s : utf8Valid copy s = true -> utf8Valid 0 (drop copy s) = true.
Proof.
  revert copy. induction s as [|b s IH]; intros [|copy]; try done. cbn. apply IH.
Qed.

Lemma escape_copy copy s : (copy <= length s)%nat -> escape copy s = take copy s ++ escape 0 (drop copy s).
Proof.
  revert copy. induction s as [|b s IH]; intros [|copy] Hl; cbn in Hl; try lia; try done.
  cbn [escape take drop app]. by rewrite IH by lia.
Qed.

Lemma emit_nil r : emit [] r = r.
Proof. by destruct r as [[]|]. Qed.

Lemma emit_app a b r : emit a (emit b r) = emit (a ++ b) r.
Proof. destruct r as [[]|]; [|done]. cbn. by rewrite app_assoc. Qed.

Lemma unquote_copy copy s t : (copy <= length s)%nat ->
  unquote copy (s ++ t) = emit (take copy s) (unquote 0 (drop copy s ++ t)).
Proof.
  revert copy. induction s as [|b s IH]; intros [|copy] Hl; cbn in Hl; try lia; try (symmetry; apply emit_nil).
  cbn [app unquote take drop]. rewrite IH by lia. apply emit_app.
Qed.

(** The escape of an ASCII byte is read back. *)
Lemma unquote_ascii b t : 0 <= b < 0x80 -> unquote 0 (escapeASCII b ++ t) = emit [b] (unquote 0 t).
Proof.
  intros Hb. destruct (decide (b ∈ [34; 38; 60; 62; 92] ++ seqZ 0 32)) as [Hin|Hout].
  - cbn in Hin. repeat (apply elem_of_cons in Hin as [->|Hin]; [reflexivity|]). by apply elem_of_nil in Hin.
  - rewrite elem_of_app, elem_of_seqZ in Hout. unfold escapeASCII, htmlSafe.
    assert (existsb (Z.eqb b) [34; 38; 60; 62; 92] = false) as ->.
    { apply not_true_is_false. rewrite existsb_exists. intros (x & Hx & ->%Z.eqb_eq). apply Hout. left. by apply list_elem_of_In. }
    rewrite (proj2 (Z.leb_le _ _)) by lia. cbn [andb negb app unquote].
    assert (b <> 34 /\ b <> 92) as [H1 H2] by (split; intros ->; apply Hout; left; set_solver).
    rewrite (proj2 (Z.eqb_neq b 34)), (proj2 (Z.ltb_ge b 32)), (proj2 (Z.eqb_neq b 92)), (proj2 (Z.ltb_lt b 128)) by lia.
    done.
Qed.

Lemma lineSeparator_spec b c d : lineSeparator b c d = true -> b = 0xE2 /\ c = 0x80 /\ (d = 0xA8 \/ d = 0xA9).
Proof. unfold lineSeparator. intros H. bool_to_prop. lia. Qed.

(** A quoted string is read back. *)
Lemma unquote_escape s t : utf8Valid 0 s = true -> unquote 0 (escape 0 s ++ 34 :: t) = Some (s, t).
Proof.
  remember (length s) as n eqn:En. revert s t En. induction (lt_wf n) as [n _ IH]. intros s t -> Hv.
  destruct s as [|b rest]; [done|]. cbn [utf8Valid] in Hv. cbn [escape]. destruct (b <? 0x80) eqn:Eb.
  - bool_to_prop. rewrite <- app_assoc, unquote_ascii by lia. by rewrite (IH (length rest)) by (cbn; done || lia).
  - destruct (decodeRune b rest) as [r more] eqn:Ed. destruct more as [|more]; [done|].
    destruct (decodeRune_long _ _ _ _ Ed) as [Hl Hd].
    assert (unquote 0 ((b :: escape (S more) rest) ++ 34 :: t) = Some (b :: rest, t)) as Hlong.
    { rewrite escape_copy, <- app_comm_cons, <- app_assoc by done. cbn [unquote].
      rewrite (proj2 (Z.eqb_neq b 34)), (proj2 (Z.ltb_ge b 32)), (proj2 (Z.eqb_neq b 92)), Eb by (bool_to_prop; lia).
      rewrite Hd, unquote_copy by (rewrite length_take; lia).
      rewrite (drop_ge (take _ _)), (take_ge (take _ _)) by (rewrite length_take; lia). cbn [app].
      rewrite (IH (length (drop (S more) rest))) by (rewrite ?length_drop; cbn [length]; first [lia|done|by apply utf8Valid_drop]).
      cbn [emit app]. by rewrite take_drop. }
    destruct rest as [|c [|d rest']]; try exact Hlong. destruct (lineSeparator b c d) eqn:El; [|exact Hlong].
    apply lineSeparator_spec in El as (-> & -> & Hd'). clear Hlong Hd.
    assert (utf8Valid 0 rest' = true) as Hv'.
    { destruct Hd' as [-> | ->]; cbn in Ed; injection Ed as <- <-; exact Hv. }
    rewrite <- app_assoc. destruct Hd' as [-> | ->]; cbn -[escape unquote].
    all: cbn [unquote]; rewrite (IH (length rest')) by (cbn; done || lia); reflexivity.
Qed.

(** ** Numbers *)

(** A text after a value: it does not continue a number. *)
Definition after_value (t : list Z) : Prop :=
  match t with
  | b :: _ => jsonDigit b = false /\ b <> 46 /\ b <> 101 /\ b <> 69
  | [] => True
  end.

Lemma digitsOf_app ds t : Forall (fun b => jsonDigit b = true) ds -> after_value t ->
  digitsOf (ds ++ t) = (ds, t).
Proof.
  intros Hd Ht. induction Hd as [|b ds Hb _ IH]; cbn.
  - destruct t as [|b t]; [done|]. destruct Ht as [Hb _]. cbn. by rewrite Hb.
  - by rewrite Hb, IH.
Qed.

Lemma after_number t : after_value t -> scanFraction t = Some ([], t) /\ scanExponent t = Some ([], t).
Proof.
  destruct t as [|b t]; [done|]. intros (_ & H1 & H2 & H3). unfold scanFraction, scanExponent.
  by rewrite (proj2 (Z.eqb_neq b 46)), (proj2 (Z.eqb_neq b 101)), (proj2 (Z.eqb_neq b 69)) by done.
Qed.

(** Digits without a leading zero. *)
Lemma format_uint_lead fuel n acc : 0 < n < 10 ^ Z.of_nat fuel -> exists d ds, format_uint fuel n acc = d :: ds /\ byte_Z d <> 48.
Proof.
  revert n acc. induction fuel as [|fuel IH]; intros n acc Hn; [cbn in Hn; lia|]. cbn [format_uint].
  pose proof (Z.mod_pos_bound n 10 ltac:(lia)). pose proof (Z.div_mod n 10 ltac:(lia)).
  destruct (Z.eqb_spec (n / 10) 0) as [E|E].
  - eexists _, _. split; [done|]. rewrite byte_Z_digit by lia. lia.
  - apply IH. rewrite Nat2Z.inj_succ, Z.pow_succ_r in Hn by lia.
    split; [|apply Z.div_lt_upper_bound; lia]. pose proof (Z.div_pos n 10 ltac:(lia) ltac:(lia)). lia.
Qed.

Lemma scanInteger_format n t : 0 <= n < 10 ^ 20 -> after_value t ->
  scanInteger ((byte_Z <$> format_uint 20 n []) ++ t) = Some (byte_Z <$> format_uint 20 n [], t).
Proof.
  intros Hn Ht. destruct (decide (n = 0)) as [->|H0]; [done|].
  destruct (format_uint_lead 20 n [] ltac:(change (Z.of_nat 20) with 20; lia)) as (d & ds & E & Hd).
  pose proof (format_uint_digits 20 n [] ltac:(lia) ltac:(constructor)) as Hds. rewrite E in *.
  assert (Forall (fun b => jsonDigit b = true) (byte_Z <$> (d :: ds))) as Hj by (apply Forall_fmap; exact Hds).
  unfold scanInteger. rewrite fmap_cons in *. cbn [app]. rewrite (proj2 (Z.eqb_neq _ 48)) by done.
  unfold digits1. rewrite app_comm_cons, digitsOf_app by done. done.
Qed.

(** The literals of 64-bit integers. *)
Definition integer (literal : list byte) : Prop := exists n, literal = FormatInt n /\ - 2 ^ 63 <= n < 2 ^ 64.

Lemma scanNumber_integer literal t : integer literal -> after_value t ->
  scanNumber ((byte_Z <$> literal) ++ t) = Some (byte_Z <$> literal, t).
Proof.
  intros (n & -> & Hn) Ht. destruct (after_number t Ht) as [Hf He]. unfold FormatInt.
  destruct (Z.ltb_spec n 0).
  - change (byte_Z <$> byte_of_Z 45 :: format_uint 20 (- n) []) with (45 :: (byte_Z <$> format_uint 20 (- n) [])).
    cbn [app]. unfold scanNumber. rewrite Z.eqb_refl, scanInteger_format by (done || lia).
    rewrite Hf, He. cbn. by rewrite !app_nil_r.
  - pose proof (format_uint_nonempty 20 n [] ltac:(lia)) as Hne.
    pose proof (format_uint_digits 20 n [] ltac:(lia) ltac:(constructor)) as Hds.
    pose proof (scanInteger_format n t ltac:(lia) Ht) as Hs.
    destruct (format_uint 20 n []) as [|d ds]; [done|]. apply Forall_cons in Hds as [Hd _].
    unfold is_digit in Hd. bool_to_prop. unfold scanNumber. rewrite fmap_cons in *. cbn [app] in *.
    rewrite (proj2 (Z.eqb_neq _ 45)) by lia. rewrite Hs, Hf, He. cbn. by rewrite !app_nil_r.
Qed.

(** ** Values *)

(** Induction through the items and the members. *)
Lemma json_nested (P : json -> Prop) : P JNull -> (forall b, P (JBool b)) -> (forall l, P (JNumber l)) ->
  (forall s, P (JString s)) -> (forall l, Forall P l -> P (JArray l)) ->
  (forall l, Forall (fun kv => P kv.2) l -> P (JObject l)) -> forall v, P v.
Proof.
  intros H1 H2 H3 H4 H5 H6. fix IH 1. intros [|b|l|s|l|l]; [apply H1|apply H2|apply H3|apply H4|apply H5|apply H6].
  - induction l as [|x l IHl]; constructor; [apply IH|exact IHl].
  - induction l as [|[k x] l IHl]; constructor; [apply IH|exact IHl].
Qed.

(** A value [Marshal] can write, nested at most [n] deep. *)
Fixpoint writable (n : nat) (v : json) {struct v} : Prop :=
  match v with
  | JNull | JBool _ => True
  | JNumber literal => integer literal
  | JString s => utf8Valid 0 s = true
  | JArray items =>
      match n with O => False | S n => foldr (fun v P => writable n v /\ P) True items end
  | JObject members =>
      match n with
      | O => False
      | S n => foldr (fun kv P => (utf8Valid 0 kv.1 = true /\ writable n kv.2) /\ P) True members
      end
  end.

(** The number of calls a value takes. *)
Fixpoint calls (v : json) : nat :=
  match v with
  | JArray items => S (foldr (fun v n => S (calls v + n)) 0 items)%nat
  | JObject members => S (foldr (fun kv n => S (calls kv.2 + n)) 0 members)%nat
  | _ => 1
  end.

Definition blank (s : list Z) : Prop := Forall (fun b => isSpace b = true) s.

Lemma skipSpace_blank s t : blank s -> skipSpace (s ++ t) = skipSpace t.
Proof. induction 1 as [|b s Hb _ IH]; [done|]. cbn [app skipSpace]. by rewrite Hb. Qed.

Class Blank (ly : layout) : Prop := {
  blank_break : forall depth, blank (ly_break ly depth);
  blank_colon : blank (ly_colon ly)
}.

#[global] Instance compact_blank : Blank compact.
Proof. split; [intros ?|]; apply List.Forall_nil. Qed.

#[global] Instance indented_blank : Blank indented.
Proof.
  split; [|by repeat constructor]. intros depth. cbn. constructor; [done|].
  induction depth as [|d IH]; cbn; [constructor|]. by repeat constructor.
Qed.

Section Print.
  Context (ly : layout) `{!Blank ly}.

Lemma after_blank s b t : blank s -> after_value (b :: t) -> after_value (s ++ b :: t).
Proof.
  intros Hs Hb. destruct Hs as [|c s Hc _]; [done|]. cbn. unfold isSpace in Hc. cbn in Hc. bool_to_prop.
  unfold jsonDigit, inRange. split_and!; [|lia..]. apply andb_false_iff. rewrite Z.leb_gt. left. lia.
Qed.

Lemma skip_to b t : isSpace b = false -> skipSpace (b :: t) = b :: t.
Proof. cbn. by intros ->. Qed.

Ltac around := first
  [ done | lia | apply blank_break | apply blank_colon | apply after_blank; [apply blank_break|done] ].

(** What is written for a value is read back, wherever it stands. *)
Definition readable (v : json) : Prop := forall fuel depth d pre t,
  writable depth v -> (calls v <= fuel)%nat -> blank pre -> after_value t ->
  parseValue fuel depth (pre ++ print ly d v ++ t) = Some (v, t).

Lemma parseItems_print d x xs : Forall readable (x :: xs) -> forall fuel depth t,
  Forall (writable depth) (x :: xs) -> (foldr (fun v n => S (calls v + n)) 0 (x :: xs) <= fuel)%nat ->
  parseItems fuel depth (ly_break ly (S d) ++ print ly (S d) x ++
    concat (map (fun y => 44 :: ly_break ly (S d) ++ print ly (S d) y) xs) ++ ly_break ly d ++ 93 :: t) = Some (x :: xs, t).
Proof.
  revert x. induction xs as [|y xs IH]; intros x Hr fuel depth t Hw Hf; apply Forall_cons in Hr as [Hx Hr];
    apply Forall_cons in Hw as [Hwx Hw]; (destruct fuel as [|fuel]; [cbn in Hf; lia|]); cbn [foldr] in Hf;
    cbn [parseItems map concat app].
  - rewrite Hx by around.
    by rewrite skipSpace_blank by apply blank_break.
  - rewrite Hx by around. rewrite skip_to by done. cbn [Z.eqb Pos.eqb].
    rewrite <- !app_assoc. rewrite IH by (done || cbn [foldr]; lia). done.
Qed.

Lemma parseMembers_print d kv xs : Forall (fun kv => readable kv.2) (kv :: xs) -> forall fuel depth t,
  Forall (fun kv => utf8Valid 0 kv.1 = true /\ writable depth kv.2) (kv :: xs) ->
  (foldr (fun kv n => S (calls kv.2 + n)) 0 (kv :: xs) <= fuel)%nat ->
  parseMembers fuel depth (ly_break ly (S d) ++ (quote kv.1 ++ 58 :: ly_colon ly ++ print ly (S d) kv.2) ++
    concat (map (fun y => 44 :: ly_break ly (S d) ++ quote y.1 ++ 58 :: ly_colon ly ++ print ly (S d) y.2) xs) ++
    ly_break ly d ++ 125 :: t) = Some (kv :: xs, t).
Proof.
  revert kv. induction xs as [|y xs IH]; intros [k x] Hr fuel depth t Hw Hf; apply Forall_cons in Hr as [Hx Hr];
    apply Forall_cons in Hw as [[Hk Hwx] Hw]; (destruct fuel as [|fuel]; [cbn in Hf; lia|]); cbn [foldr fst snd] in *;
    cbn [parseMembers map concat app]; rewrite skipSpace_blank by apply blank_break; unfold quote at 1;
    cbn [app]; rewrite skip_to by done; cbn [Z.eqb Pos.eqb negb]; rewrite <- !app_assoc; cbn [app];
    rewrite unquote_escape by done; rewrite skip_to by done; cbn [Z.eqb Pos.eqb negb]; rewrite <- !app_assoc.
  - rewrite Hx by around.
    by rewrite skipSpace_blank by apply blank_break.
  - rewrite Hx by around. cbn [app]. rewrite skip_to by done. cbn [Z.eqb Pos.eqb].
    rewrite <- ?app_assoc. specialize (IH y Hr fuel depth t Hw ltac:(cbn [foldr]; lia)).
    rewrite <- ?app_assoc in IH. cbn [app] in IH. rewrite <- ?app_assoc in IH. rewrite IH. done.
Qed.

Lemma writable_items n l : foldr (fun v P => writable n v /\ P) True l <-> Forall (writable n) l.
Proof. induction l as [|x l IH]; cbn; [split; [constructor|done]|]. rewrite Forall_cons. by rewrite IH. Qed.

Lemma writable_members n l :
  foldr (fun kv P => (utf8Valid 0 kv.1 = true /\ writable n kv.2) /\ P) True l <->
  Forall (fun kv => utf8Valid 0 kv.1 = true /\ writable n kv.2) l.
Proof. induction l as [|x l IH]; cbn; [split; [constructor|done]|]. rewrite Forall_cons. by rewrite IH. Qed.

Lemma FormatInt_head literal : integer literal -> exists b rest, byte_Z <$> literal = b :: rest /\
  isSpace b = false /\ (b = 45 \/ 48 <= b <= 57).
Proof.
  intros (n & -> & Hn). pose proof (FormatInt_bytes n) as Hb.
  assert (FormatInt n <> []) as Hne by (unfold FormatInt; case_bool; [done|by apply format_uint_nonempty]).
  destruct (FormatInt n) as [|b l]; [done|]. apply Forall_cons in Hb as [Hb _]. exists (byte_Z b), (byte_Z <$> l).
  split_and!; [done| |done]. unfold isSpace. cbn. repeat rewrite (proj2 (Z.eqb_neq _ _)) by lia. done.
Qed.

Lemma bytes_literal (literal : list byte) : byte_of_Z <$> (byte_Z <$> literal) = literal.
Proof.
  rewrite <- list_fmap_compose. rewrite <- (list_fmap_id literal) at 2. apply list_fmap_ext. intros i b _. apply byte_of_Z_byte.
Qed.

Lemma open_bracket d b t : isSpace b = false -> skipSpace (ly_break ly d ++ b :: t) = b :: t.
Proof. intros Hb. rewrite skipSpace_blank by apply blank_break. by apply skip_to. Qed.

(** The first byte of a value is neither blank nor a bracket that closes. *)
Lemma print_head d v n t : writable n v -> exists b rest, print ly d v ++ t = b :: rest /\ isSpace b = false /\ b <> 93 /\ b <> 125.
Proof.
  destruct v as [|[|]|literal|s|[|x xs]|[|[k x] xs]]; intros Hw; try (by eexists _, _).
  destruct (FormatInt_head literal Hw) as (b & rest & E & Hs & Hb). cbn [print]. rewrite E.
  eexists _, _. split_and!; [done|done|lia|lia].
Qed.

Lemma readable_all v : readable v.
Proof.
  induction v as [|b|literal|s|l IH|l IH] using json_nested; intros fuel depth d pre t Hw Hf Hp Ht;
    (destruct fuel as [|fuel]; [cbn in Hf; lia|]); cbn [parseValue]; rewrite skipSpace_blank by done.
  - done.
  - by destruct b.
  - destruct (FormatInt_head literal Hw) as (b & rest & E & Hs & Hb). cbn [print]. rewrite E. cbn [app].
    rewrite skip_to by done. repeat rewrite (proj2 (Z.eqb_neq _ _)) by lia.
    rewrite app_comm_cons, <- E, scanNumber_integer by done. by rewrite bytes_literal.
  - cbn [print quote app]. rewrite skip_to by done. cbn [Z.eqb Pos.eqb]. rewrite <- app_assoc. cbn [app]. by rewrite unquote_escape.
  - destruct depth as [|depth]; [by destruct l|]. cbn [writable] in Hw. apply writable_items in Hw.
    destruct l as [|x xs]; [done|]. cbn [print app]. rewrite skip_to by done. cbn [Z.eqb Pos.eqb].
    rewrite <- !app_assoc. rewrite skipSpace_blank by apply blank_break.
    pose proof Hw as [Hwx _]%Forall_cons. cbn [calls] in Hf.
    match goal with |- context[print ly (S d) x ++ ?t'] =>
      destruct (print_head (S d) x depth t' Hwx) as (b & rest & E & Hs & Hb & _) end.
    rewrite E at 1. rewrite skip_to by done. rewrite (proj2 (Z.eqb_neq b 93)) by done. cbn [app].
    rewrite parseItems_print by (done || lia). done.
  - destruct depth as [|depth]; [by destruct l|]. cbn [writable] in Hw. apply writable_members in Hw.
    destruct l as [|[k x] xs]; [done|]. cbn [print app]. rewrite skip_to by done. cbn [Z.eqb Pos.eqb].
    cbn [calls] in Hf. pose proof (parseMembers_print d (k, x) xs IH fuel depth t Hw ltac:(lia)) as Hm.
    cbn [fst snd] in Hm. rewrite <- ?app_assoc in *. rewrite skipSpace_blank by apply blank_break.
    unfold quote at 1. cbn [app]. rewrite skip_to by done. cbn [Z.eqb Pos.eqb]. cbn [app] in Hm. by rewrite Hm.
Qed.

Lemma calls_length d v n : writable n v -> (calls v <= length (print ly d v))%nat.
Proof.
  revert d n. induction v as [|b|literal|s|l IH|l IH] using json_nested; intros d n Hw; try (cbn; lia).
  - by destruct b; cbn; lia.
  - destruct (FormatInt_head literal Hw) as (b & rest & E & _). cbn [print calls]. rewrite E. cbn. lia.
  - destruct n as [|n]; [done|]. cbn [writable] in Hw. apply writable_items in Hw. destruct l as [|x xs]; [cbn; lia|].
    assert (forall ys, Forall (fun v => forall d n, writable n v -> (calls v <= length (print ly d v))%nat) ys ->
      Forall (writable n) ys -> (foldr (fun v n => S (calls v + n)) 0 ys <=
      length (concat (map (fun y => 44%Z :: ly_break ly (S d) ++ print ly (S d) y) ys)))%nat) as Hs.
    { intros ys HI HW. induction ys as [|y ys IHy]; [done|]. apply Forall_cons in HI as [Hy HI], HW as [Wy HW].
      cbn [foldr map concat app length]. rewrite !length_app. specialize (Hy (S d) n Wy). specialize (IHy HI HW). lia. }
    apply Forall_cons in IH as [Hx IH], Hw as [Wx Hw]. specialize (Hx (S d) n Wx). specialize (Hs xs IH Hw).
    cbn [calls foldr print length]. rewrite !length_app. cbn [length]. lia.
  - destruct n as [|n]; [done|]. cbn [writable] in Hw. apply writable_members in Hw. destruct l as [|[k x] xs]; [cbn; lia|].
    assert (forall ys, Forall (fun kv => forall d n, writable n kv.2 -> (calls kv.2 <= length (print ly d kv.2))%nat) ys ->
      Forall (fun kv => utf8Valid 0 kv.1 = true /\ writable n kv.2) ys -> (foldr (fun kv n => S (calls kv.2 + n)) 0 ys <=
      length (concat (map (fun y => 44%Z :: ly_break ly (S d) ++ quote y.1 ++ 58%Z :: ly_colon ly ++ print ly (S d) y.2) ys)))%nat) as Hs.
    { intros ys HI HW. induction ys as [|y ys IHy]; [done|]. apply Forall_cons in HI as [Hy HI], HW as [[_ Wy] HW].
      cbn [foldr map concat app length]. rewrite !length_app. cbn [length]. rewrite !length_app.
      specialize (Hy (S d) n Wy). specialize (IHy HI HW). lia. }
    apply Forall_cons in IH as [Hx IH], Hw as [[_ Wx] Hw]. specialize (Hx (S d) n Wx). specialize (Hs xs IH Hw).
    cbn [calls foldr print length fst snd] in *. rewrite !length_app. cbn [length]. rewrite !length_app. lia.
Qed.

(** The value at the start of a stream. *)
Lemma decodeStream_print v t : writable maxNestingDepth v -> after_value t ->
  decodeStream (print ly 0 v ++ t) = Some (v, t).
Proof.
  intros Hw Ht. unfold decodeStream. rewrite length_app. pose proof (calls_length 0 v _ Hw).
  apply (readable_all v _ _ 0%nat []); [done|lia|apply List.Forall_nil|done].
Qed.

(** A value written in either layout is read back. *)
Theorem parse_print v : writable maxNestingDepth v -> parse (print ly 0 v) = Some v.
Proof.
  intros Hw. unfold parse. rewrite <- (app_nil_r (print ly 0 v)). by rewrite decodeStream_print.
Qed.
End Print.

(** ** Codecs *)

(** Values in [ok] are written at most [n] deep and read back into a zero value. *)
Record lawful {A} (c : codec A) (n : nat) (ok : A -> Prop) : Prop := {
  lw_read : forall a, ok a -> cd_read c (cd_write c a) (cd_zero c) = Some a;
  lw_depth : forall a, ok a -> writable n (cd_write c a)
}.

Definition utf8 (s : string) : Prop := utf8Valid 0 (codes s) = true.

Lemma codes_range s : Forall (fun z => 0 <= z < 256) (codes s).
Proof. unfold codes. apply Forall_fmap, Forall_true. intros b. apply byte_Z_range. Qed.

Lemma uncodes_codes s : uncodes (codes s) = s.
Proof. unfold uncodes, codes. rewrite bytes_literal. apply bytes_str_bytes. Qed.

Lemma string_lawful n : lawful stringCodec n utf8.
Proof. split; [|done]. intros s _. cbn. by rewrite uncodes_codes. Qed.

Lemma bool_lawful n : lawful boolCodec n (fun _ => True).
Proof. done. Qed.

Lemma int_lawful n : lawful intCodec n is_s64.
Proof.
  split; intros a Ha; cbn; [by apply ParseInt_FormatInt|]. exists a. split; [done|]. unfold is_s64 in Ha. lia.
Qed.

Lemma uint_lawful n bound : bound <= 2 ^ 64 -> lawful (uintCodec bound) n (fun z => 0 <= z < bound).
Proof.
  intros Hb. split; intros a Ha; cbn.
  - unfold FormatInt. rewrite (proj2 (Z.ltb_ge a 0)) by lia. rewrite parse_uint_format by lia.
    by rewrite (proj2 (Z.ltb_lt a bound)) by lia.
  - exists a. split; [done|lia].
Qed.

Lemma slice_lawful {A} (c : codec A) n ok : lawful c n ok -> lawful (sliceCodec c) (S n) (Forall ok).
Proof.
  intros [Hr Hd]. split; intros l Hl.
  - destruct l as [|a l]; [done|]. cbn [cd_read cd_write sliceCodec cd_zero].
    generalize (a :: l) Hl. clear Hl. intros l' Hl. induction Hl as [|x l' Hx _ IH]; [done|].
    rewrite fmap_cons. cbn [readItems head tail default]. by rewrite Hr, IH.
  - destruct l as [|a l]; [done|]. cbn [cd_write sliceCodec writable]. apply writable_items. apply Forall_fmap.
    eapply Forall_impl; [exact Hl|]. apply Hd.
Qed.

Lemma pointer_lawful {A} (c : codec A) n ok : lawful c n ok -> (forall a, ok a -> cd_write c a <> JNull) ->
  lawful (pointerCodec c) n (fun p => match p with Some a => ok a | None => True end).
Proof.
  intros [Hr Hd] Hn. split; intros [a|] Ha; try done; cbn.
  - specialize (Hn a Ha). specialize (Hr a Ha). destruct (cd_write c a); try done; cbn; by rewrite Hr.
  - by apply Hd.
Qed.

(** *** Structs *)

(** The values of the fields can be written [n] deep and read back, and those left
    out are zero. *)
Fixpoint fields_ok (n : nat) (fields : list field) : tuple fields -> Prop :=
  match fields return tuple fields -> Prop with
  | [] => fun _ => True
  | f :: fields => fun t =>
      (cd_read (fd_codec f) (cd_write (fd_codec f) t.1) (cd_zero (fd_codec f)) = Some t.1 /\
       writable n (cd_write (fd_codec f) t.1) /\ (fd_empty f t.1 = true -> t.1 = cd_zero (fd_codec f))) /\
      fields_ok n fields t.2
  end.

Lemma readMembers_tail f fields look members a t :
  Forall (fun kv => exists i, look kv.1 = Some (S i)) members ->
  readMembers (f :: fields) look members (a, t) =
    pair a <$> readMembers fields (fun key => pred <$> look key) members t.
Proof.
  intros Hm. revert t. induction Hm as [|[k v] members [i Hi] _ IH]; intros t; [done|]. cbn [readMembers].
  cbn [fst] in Hi. rewrite Hi. cbn. destruct (readAt fields i v t); [apply IH|done].
Qed.

Lemma writeFields_named fields t : forall kv, kv ∈ writeFields fields t ->
  exists i f, fields !! i = Some f /\ kv.1 = codes (fd_name f).
Proof.
  induction fields as [|f fields IH]; intros kv Hkv; cbn in Hkv; [by apply elem_of_nil in Hkv|].
  apply elem_of_app in Hkv as [Hkv|Hkv].
  - destruct (fd_empty f t.1); [by apply elem_of_nil in Hkv|]. apply list_elem_of_singleton in Hkv as ->. by exists 0%nat, f.
  - destruct (IH t.2 kv Hkv) as (i & g & Hi & E). by exists (S i), g.
Qed.

Lemma readMembers_write n fields look t :
  (forall i f, fields !! i = Some f -> look (codes (fd_name f)) = Some i) -> fields_ok n fields t ->
  readMembers fields look (writeFields fields t) (zeros fields) = Some t.
Proof.
  revert look. induction fields as [|f fields IH]; intros look Hl Ht; cbn in t; [by destruct t|].
  destruct t as [a t]. destruct Ht as [(Hr & _ & He) Ht]. cbn [fst snd] in *.
  assert (readMembers (f :: fields) look (writeFields fields t) (a, zeros fields) = Some (a, t)) as Hrest.
  { rewrite readMembers_tail.
    - rewrite IH; [done| |done]. intros i g Hi. by rewrite (Hl (S i) g Hi).
    - apply Forall_forall. intros kv (i & g & Hi & ->)%writeFields_named. exists i. by apply Hl. }
  cbn [writeFields zeros fst snd]. destruct (fd_empty f a).
  - by rewrite <- He in *.
  - cbn [app readMembers]. rewrite (Hl 0%nat f eq_refl). cbn [readAt fst snd]. by rewrite Hr.
Qed.

(** Names that decide their field: checked by computation. *)
Definition well_named (fields : list field) : bool :=
  bool_decide (fieldIndex fields <$> (codes ∘ fd_name <$> fields) = Some <$> seq 0 (length fields)) &&
  forallb (fun f => utf8Valid 0 (codes (fd_name f))) fields.

Lemma well_named_index fields i f : well_named fields = true -> fields !! i = Some f ->
  fieldIndex fields (codes (fd_name f)) = Some i.
Proof.
  unfold well_named. intros [H%bool_decide_eq_true _]%andb_true_iff Hi.
  assert ((fieldIndex fields <$> (codes ∘ fd_name <$> fields)) !! i = (Some <$> seq 0 (length fields)) !! i) as E
    by (by rewrite H).
  rewrite !list_lookup_fmap, Hi, lookup_seq_lt in E by (by eapply lookup_lt_Some). by injection E.
Qed.

Lemma struct_lawful {T} (fields : list field) (to : T -> tuple fields) (make : tuple fields -> T) n (ok : T -> Prop) :
  well_named fields = true -> (forall t, to (make t) = t) -> (forall s, make (to s) = s) ->
  (forall s, ok s -> fields_ok n fields (to s)) -> lawful (structCodec fields to make) (S n) ok.
Proof.
  intros Hn Hto Hof Hok. split; intros s Hs; cbn.
  - rewrite Hto, (readMembers_write n); [by cbn; rewrite Hof| |by apply Hok]. intros. by apply well_named_index.
  - apply writable_members. specialize (Hok s Hs). unfold well_named in Hn.
    apply andb_true_iff in Hn as [_ Hu]. revert Hok Hu. generalize (to s). clear.
    induction fields as [|f fields IH]; intros t Ht Hu; cbn in *; [apply List.Forall_nil|].
    apply andb_true_iff in Hu as [Hf Hu]. apply Forall_app. destruct Ht as [(_ & Hw & _) Ht]. split; [|by apply IH].
    case_match; [apply List.Forall_nil|]. by apply Forall_singleton.
Qed.

Lemma writable_le n m v : (n <= m)%nat -> writable n v -> writable m v.
Proof.
  revert n m. induction v as [|b|literal|s|l IH|l IH] using json_nested; intros n m Hnm Hw; try done;
    (destruct n as [|n]; [done|]; destruct m as [|m]; [lia|]); cbn [writable] in *.
  - rewrite writable_items in *. rewrite Forall_forall in *. intros x Hx. apply (IH x Hx n); [lia|by apply Hw].
  - rewrite writable_members in *. rewrite Forall_forall in *. intros x Hx. destruct (Hw x Hx) as [Hv Hn].
    split; [done|]. apply (IH x Hx n); [lia|done].
Qed.

Lemma lawful_le {A} (c : codec A) n m ok : (n <= m)%nat -> lawful c n ok -> lawful c m ok.
Proof. intros Hnm [Hr Hd]. split; [done|]. intros a Ha. eapply writable_le; [exact Hnm|by apply Hd]. Qed.

(** ** Round trips *)

Definition octets (s : list Z) : Prop := Forall (fun z => 0 <= z < 256) s.

Lemma decodeRune_octets b rest r more : decodeRune b rest = (r, S more) -> octets (b :: take (S more) rest).
Proof.
  unfold decodeRune, inRange, continuation. destruct (b <? 0x80) eqn:Eb; [done|].
  assert (0 <= (secondByte b).1 /\ (secondByte b).2 < 256) as Hsb by (unfold secondByte; repeat case_bool; cbn; lia).
  destruct (secondByte b) as [low high]. cbn in Hsb.
  destruct rest as [|c [|d [|e rest]]];
    repeat match goal with
    | |- (if ?x then _ else _) = _ -> _ => destruct x eqn:?
    | |- (_, _) = (_, _) -> _ => intros [= <- <-]
    end; try done; unfold inRange in *; bool_to_prop; cbn [take]; unfold octets;
    repeat (apply List.Forall_cons; [lia|]); apply List.Forall_nil.
Qed.

Lemma utf8_octets s : utf8Valid 0 s = true -> octets s.
Proof.
  remember (length s) as n eqn:En. revert s En. induction (lt_wf n) as [n _ IH]. intros [|b rest] -> Hv; [apply List.Forall_nil|].
  cbn [utf8Valid] in Hv. destruct (b <? 0x80) eqn:Eb.
  - bool_to_prop. constructor; [lia|]. eapply (IH (length rest)); [cbn; lia|done|done].
  - destruct (decodeRune b rest) as [r [|more]] eqn:Ed; [done|]. pose proof (decodeRune_octets _ _ _ _ Ed) as Ho.
    apply Forall_cons in Ho as [Hb Ho]. constructor; [done|]. rewrite <- (take_drop (S more) rest). apply Forall_app. split; [done|].
    apply (IH (length (drop (S more) rest))); [rewrite length_drop; cbn; lia|done|by apply utf8Valid_drop].
Qed.

Lemma unicodeEscape_octets r : 0 <= r < 65536 -> octets (unicodeEscape r).
Proof.
  intros Hr. assert (forall d, 0 <= d < 16 -> 0 <= hexDigit d < 256) as Hh by (intros d Hd; unfold hexDigit; case_bool; lia).
  assert (0 <= r / 4096 < 16) by (split; [apply Z.div_pos; lia|apply Z.div_lt_upper_bound; lia]).
  unfold unicodeEscape, octets. repeat (apply List.Forall_cons; [first [apply Hh; first [done|apply Z.mod_pos_bound; lia]|lia]|]).
  apply List.Forall_nil.
Qed.

Lemma escapeASCII_octets b : 0 <= b < 128 -> octets (escapeASCII b).
Proof.
  intros Hb. unfold escapeASCII. repeat case_bool; unfold octets;
    try (repeat (apply List.Forall_cons; [lia|]); apply List.Forall_nil). apply unicodeEscape_octets. lia.
Qed.

Lemma escape_octets s copy : octets s -> octets (escape copy s).
Proof.
  remember (length s) as n eqn:En. revert s copy En. induction (lt_wf n) as [n _ IH].
  intros [|b rest] copy -> Ho; [apply List.Forall_nil|]. apply Forall_cons in Ho as [Hb Ho].
  assert (forall c, octets (escape c rest)) as Hrest by (intros c; apply (IH (length rest)); [cbn; lia|done|done]).
  cbn [escape]. destruct copy as [|copy]; [|constructor; [done|apply Hrest]].
  destruct (b <? 0x80) eqn:Eb; [bool_to_prop; apply Forall_app; split; [apply escapeASCII_octets; lia|apply Hrest]|].
  assert (octets (match decodeRune b rest with
    (_, 0%nat) => unicodeEscape runeError ++ escape 0 rest | (_, S _ as more) => b :: escape more rest end)) as Hrune.
  { destruct (decodeRune b rest) as [r [|more]]; [|constructor; [done|apply Hrest]].
    apply Forall_app. split; [apply unicodeEscape_octets; unfold runeError; lia|apply Hrest]. }
  destruct rest as [|c [|d rest']]; [exact Hrune|exact Hrune|]. destruct (lineSeparator b c d) eqn:El; [|exact Hrune].
  apply lineSeparator_spec in El as (_ & _ & Hd). apply Forall_app. split; [apply unicodeEscape_octets; lia|].
  apply (IH (length rest')); [cbn; lia|done|]. by apply Forall_cons in Ho as [_ [_ Ho]%Forall_cons].
Qed.

Lemma quote_octets s : utf8Valid 0 s = true -> octets (quote s).
Proof.
  intros Hv. unfold quote. constructor; [lia|]. apply Forall_app. split; [by apply escape_octets, utf8_octets|].
  constructor; [lia|constructor].
Qed.

Lemma blank_octets s : blank s -> octets s.
Proof. intros Hs. eapply Forall_impl; [exact Hs|]. unfold isSpace. cbn. intros b Hb. bool_to_prop. lia. Qed.

Ltac octet_list := cbn; unfold octets; repeat (apply List.Forall_cons; [lia|]); apply List.Forall_nil.

Lemma print_octets ly `{!Blank ly} n d v : writable n v -> octets (print ly d v).
Proof.
  assert (forall d, octets (ly_break ly d)) as Hb by (intros; apply blank_octets, blank_break).
  assert (octets (ly_colon ly)) as Hc by apply blank_octets, blank_colon.
  revert n d. induction v as [|b|literal|s|l IH|l IH] using json_nested; intros n d Hw.
  - apply codes_range.
  - apply codes_range.
  - cbn. apply Forall_fmap, Forall_true. intros. apply byte_Z_range.
  - by apply quote_octets.
  - destruct n as [|n]; [done|]. cbn [writable] in Hw. apply writable_items in Hw.
    assert (Forall (fun x => octets (print ly (S d) x)) l) as Hl.
    { rewrite Forall_forall in *. intros x Hx. eapply IH; [done|by apply Hw]. }
    clear IH Hw. destruct Hl as [|x xs Hx Hxs]; [octet_list|]. cbn [print].
    constructor; [lia|]. repeat (apply Forall_app; split); first [apply Hb|exact Hx|octet_list|idtac].
    induction Hxs as [|y ys Hy _ IHy]; [constructor|]. cbn [map concat]. apply Forall_app. split; [|exact IHy].
    constructor; [lia|]. apply Forall_app. split; [apply Hb|exact Hy].
  - destruct n as [|n]; [done|]. cbn [writable] in Hw. apply writable_members in Hw.
    assert (Forall (fun kv => octets (quote kv.1 ++ 58 :: ly_colon ly ++ print ly (S d) kv.2)) l) as Hl.
    { rewrite Forall_forall in *. intros kv Hk. destruct (Hw kv Hk) as [Hv Hn]. apply Forall_app.
      split; [by apply quote_octets|]. constructor; [lia|]. apply Forall_app. split; [done|]. by eapply IH. }
    clear IH Hw. destruct Hl as [|[k x] xs Hx Hxs]; [octet_list|]. cbn [print].
    constructor; [lia|]. apply Forall_app. split; [apply Hb|]. apply Forall_app. split; [exact Hx|].
    apply Forall_app. split; [|apply Forall_app; split; [apply Hb|octet_list]].
    induction Hxs as [|y ys Hy _ IHy]; [constructor|]. cbn [map concat]. apply Forall_app. split; [|exact IHy].
    constructor; [lia|]. apply Forall_app. split; [apply Hb|exact Hy].
Qed.

Lemma octets_bytes s : octets s -> byte_Z <$> (byte_of_Z <$> s) = s.
Proof.
  intros Hs. rewrite <- list_fmap_compose. rewrite <- (list_fmap_id s) at 2. apply list_fmap_ext. intros i z Hi. cbn.
  rewrite byte_Z_of_Z. apply Z.mod_small. unfold octets in Hs. rewrite Forall_lookup in Hs. by apply (Hs i).
Qed.

(** A value of a lawful codec that [Marshal], [MarshalIndent] or [Encode] wrote is
    read back. *)
Section Calls.
  Context {A : Type} (c : codec A) (ok : A -> Prop) (Hc : lawful c maxNestingDepth ok).

Lemma Unmarshal_Marshal a : ok a -> Unmarshal c (Marshal c a) = Some a.
Proof.
  intros Ha. unfold Unmarshal, Marshal. pose proof (lw_depth _ _ _ Hc a Ha) as Hw.
  rewrite octets_bytes by (eapply (print_octets compact); exact Hw). rewrite parse_print by (apply _ || done). by apply Hc.
Qed.

Lemma Unmarshal_MarshalIndent a : ok a -> Unmarshal c (MarshalIndent c a) = Some a.
Proof.
  intros Ha. unfold Unmarshal, MarshalIndent. pose proof (lw_depth _ _ _ Hc a Ha) as Hw.
  rewrite octets_bytes by (eapply (print_octets indented); exact Hw). rewrite parse_print by (apply _ || done). by apply Hc.
Qed.

Lemma Decode_Encode a : ok a -> Decode c (Encode c a) = Some a.
Proof.
  intros Ha. unfold Decode, Encode, Marshal. pose proof (lw_depth _ _ _ Hc a Ha) as Hw.
  rewrite fmap_app, octets_bytes by (eapply (print_octets compact); exact Hw).
  rewrite decodeStream_print by (apply _ || done). by apply Hc.
Qed.
End Calls.
