(* ===== verification/GoJsonTypes.v ===== *)
(** * More types in JSON

    Codecs of [encoding/json] for the types several components share: unsigned
    integers, byte slices in base64 and maps with string keys; streams of values;
    and the tactic that derives the law of a struct from those of its fields. *)

From S2P Require Import Prelude.
From S2P Require Import GoStrings.
From S2P Require Import GoUnicode.
From S2P Require Import GoJson.
From S2P Require Import GoJsonSpec.

Local Open Scope Z_scope.

Definition uint64Codec : codec Z := uintCodec (2 ^ 64).
Definition uint32Codec : codec Z := uintCodec (2 ^ 32).
Definition uint16Codec : codec Z := uintCodec (2 ^ 16).
Definition uint8Codec : codec Z := uintCodec (2 ^ 8).

(** ** Base64 *)

(** [base64.StdEncoding]. *)
Definition base64Char (v : Z) : Z :=
  if v <? 26 then 65 + v
  else if v <? 52 then 71 + v
  else if v <? 62 then v - 4
  else if v =? 62 then 43 else 47.

Definition base64Value (c : Z) : option Z :=
  if inRange 65 90 c then Some (c - 65)
  else if inRange 97 122 c then Some (c - 71)
  else if inRange 48 57 c then Some (c + 4)
  else if c =? 43 then Some 62
  else if c =? 47 then Some 63
  else None.

(** [EncodeToString] with padding. *)
Fixpoint base64Encode (s : list Z) : list Z :=
  match s with
  | [] => []
  | [a] => [base64Char (a / 4); base64Char (a mod 4 * 16); 61; 61]
  | [a; b] => [base64Char (a / 4); base64Char (a mod 4 * 16 + b / 16); base64Char (b mod 16 * 4); 61]
  | a :: b :: c :: rest =>
      base64Char (a / 4) :: base64Char (a mod 4 * 16 + b / 16) :: base64Char (b mod 16 * 4 + c / 64)
        :: base64Char (c mod 64) :: base64Encode rest
  end.

(** Groups of four; the last one may be padded, and the bits it does not use are
    not looked at. *)
Fixpoint base64Groups (s : list Z) : option (list Z) :=
  match s with
  | [] => Some []
  | a :: b :: c :: d :: rest =>
      match base64Value a, base64Value b with
      | Some a, Some b =>
          let first := a * 4 + b / 16 in
          if (c =? 61) && (d =? 61) then match rest with [] => Some [first] | _ => None end
          else
            match base64Value c with
            | None => None
            | Some c =>
                let second := b mod 16 * 16 + c / 4 in
                if d =? 61 then match rest with [] => Some [first; second] | _ => None end
                else
                  match base64Value d, base64Groups rest with
                  | Some d, Some rest => Some (first :: second :: c mod 4 * 64 + d :: rest)
                  | _, _ => None
                  end
            end
      | _, _ => None
      end
  | _ => None
  end.

(** [Decode] skips line breaks. *)
Definition base64Decode (s : list Z) : option (list Z) := base64Groups (filter (fun c => c <> 10 /\ c <> 13) s).

(** [[]byte]; a nil slice is written as [null], and an array of numbers is read too. *)
Definition bytesCodec : codec (list byte) :=
  mkCodec (fun l => match l with [] => JNull | _ => JString (base64Encode (byte_Z <$> l)) end)
    (fun v old =>
       match v with
       | JNull => Some []
       | JString s => match base64Decode s with Some l => Some (byte_of_Z <$> l) | None => None end
       | JArray items => (fun l : list Z => byte_of_Z <$> l) <$> readItems uint8Codec items (byte_Z <$> old)
       | _ => None
       end) [].

(** ** Maps *)

Section Maps.
  Context {A : Type} (c : codec A).

Definition key_before (a b : string * A) : Prop := String.leb a.1 b.1 = true.

#[global] Instance key_before_dec a b : Decision (key_before a b).
Proof. unfold key_before. apply _. Defined.

(** The members are inserted in their order, each read into a zero value. *)
Fixpoint readEntries (members : list (list Z * json)) (m : gmap string A) : option (gmap string A) :=
  match members with
  | [] => Some m
  | (k, v) :: members =>
      match cd_read c v (cd_zero c) with
      | None => None
      | Some a => readEntries members (<[uncodes k := a]> m)
      end
  end.

(** [map[string]T], not nil, written in the order of its keys. *)
Definition mapCodec : codec (gmap string A) :=
  mkCodec (fun m => JObject ((fun p => (codes p.1, cd_write c p.2)) <$> merge_sort key_before (map_to_list m)))
    (fun v old =>
       match v with
       | JNull => Some ∅
       | JObject members => readEntries members old
       | _ => None
       end) ∅.
End Maps.

(** ** Streams *)

Section Streams.
  Context {A : Type} (c : codec A).

(** [Decode] until the end of the stream: the values, or nothing when one cannot be
    read.  Every value takes a byte, so the length is fuel enough. *)
Fixpoint decodeAll (fuel : nat) (s : list Z) : option (list A) :=
  match fuel with
  | O => None
  | S fuel =>
      match skipSpace s with
      | [] => Some []
      | _ =>
          match decodeStream s with
          | None => None
          | Some (v, rest) =>
              match cd_read c v (cd_zero c), decodeAll fuel rest with
              | Some a, Some l => Some (a :: l)
              | _, _ => None
              end
          end
      end
  end.

Definition DecodeAll (raw : list byte) : option (list A) := decodeAll (S (length raw)) (byte_Z <$> raw).
End Streams.

(** ** Laws *)

Lemma field_ok {A} (c : codec A) n ok (empty : A -> bool) a : lawful c n ok -> ok a ->
  (empty a = true -> a = cd_zero c) ->
  (cd_read c (cd_write c a) (cd_zero c) = Some a /\ writable n (cd_write c a) /\ (empty a = true -> a = cd_zero c)).
Proof. intros [Hr Hd] Ha He. auto. Qed.

Lemma emptyString_zero s : emptyString s = true -> s = "".
Proof. unfold emptyString. by intros H%bool_decide_eq_true. Qed.

Lemma emptyInt_zero n : emptyInt n = true -> n = 0.
Proof. unfold emptyInt. by intros H%Z.eqb_eq. Qed.

Lemma emptySlice_zero {A} (l : list A) : emptySlice l = true -> l = [].
Proof. by destruct l. Qed.

Lemma nilPointer_zero {A} (p : option A) : nilPointer p = true -> p = None.
Proof. by destruct p. Qed.

Lemma uint64_lawful n : lawful uint64Codec n is_u64.
Proof. by apply uint_lawful. Qed.

Lemma uint32_lawful n : lawful uint32Codec n is_u32.
Proof. by apply uint_lawful. Qed.

Create HintDb codec.
#[export] Hint Resolve string_lawful int_lawful uint64_lawful uint32_lawful bool_lawful : codec.
#[export] Hint Resolve emptyString_zero emptyInt_zero emptySlice_zero nilPointer_zero : codec.

(** The law of a struct from the laws of its fields. *)
Ltac struct_codec :=
  apply struct_lawful;
  [ vm_compute; reflexivity
  | intros t; cbn in t; repeat match goal with x : (_ * _)%type |- _ => destruct x end;
    repeat match goal with x : unit |- _ => destruct x end; reflexivity
  | by intros []
  | intros ? Hok; hnf in Hok; repeat match goal with H : _ /\ _ |- _ => destruct H end; cbn [fields_ok fst snd fd_codec fd_empty];
    repeat (split; [eapply field_ok; [solve [eauto with codec]|first [eassumption|done]|first [done|solve [eauto with codec]]]|]);
    exact I ].

Lemma nesting_room n : (n <= 10)%nat -> (n <= maxNestingDepth)%nat.
Proof. intros Hn. etrans; [exact Hn|]. apply Nat.leb_le. vm_compute. reflexivity. Qed.

(** *** Base64 *)

(** A character of the alphabet. *)
Definition alphabet (c : Z) : Prop := c <> 10 /\ c <> 13 /\ 0 <= c < 128.

Lemma base64_sextet v : 0 <= v < 64 -> base64Value (base64Char v) = Some v /\ base64Char v <> 61 /\ alphabet (base64Char v).
Proof.
  intros Hv. assert (Forall (fun v => base64Value (base64Char v) = Some v /\ base64Char v <> 61 /\ alphabet (base64Char v)) (seqZ 0 64))
    as H by (apply Forall_forall; intros x Hx; cbn in Hx; repeat (apply elem_of_cons in Hx as [->|Hx]; [by vm_compute|]);
             by apply elem_of_nil in Hx).
  rewrite Forall_forall in H. apply H. apply elem_of_seqZ. lia.
Qed.

Lemma base64_value v : 0 <= v < 64 -> base64Value (base64Char v) = Some v.
Proof. apply base64_sextet. Qed.

Lemma base64_pad v : 0 <= v < 64 -> (base64Char v =? 61) = false.
Proof. intros Hv. apply Z.eqb_neq. by apply base64_sextet. Qed.

(** Induction in steps of three. *)
Lemma triples_ind (P : list Z -> Prop) : P [] -> (forall a, P [a]) -> (forall a b, P [a; b]) ->
  (forall a b c rest, P rest -> P (a :: b :: c :: rest)) -> forall s, P s.
Proof.
  intros H0 H1 H2 H3. fix IH 1. intros [|a [|b [|c rest]]]; [exact H0|apply H1|apply H2|apply H3, IH].
Qed.

Lemma base64_roundtrip s : octets s -> base64Groups (base64Encode s) = Some s /\ Forall alphabet (base64Encode s).
Proof.
  assert (alphabet 61) as Hpad by (unfold alphabet; lia).
  assert (forall a, 0 <= a < 256 -> 0 <= a / 4 < 64 /\ 0 <= a mod 4 * 16 < 64 /\ a / 4 * 4 + a mod 4 * 16 / 16 = a) as Ha
    by (intros; Z.to_euclidean_division_equations; lia).
  assert (forall a b, 0 <= a < 256 -> 0 <= b < 256 -> let v := a mod 4 * 16 + b / 16 in
    0 <= v < 64 /\ 0 <= b mod 16 * 4 < 64 /\ a / 4 * 4 + v / 16 = a /\ v mod 16 * 16 + b mod 16 * 4 / 4 = b) as Hb
    by (intros; subst v; Z.to_euclidean_division_equations; lia).
  assert (forall a b c, 0 <= a < 256 -> 0 <= b < 256 -> 0 <= c < 256 -> let v := a mod 4 * 16 + b / 16 in let w := b mod 16 * 4 + c / 64 in
    0 <= w < 64 /\ 0 <= c mod 64 < 64 /\ v mod 16 * 16 + w / 4 = b /\ w mod 4 * 64 + c mod 64 = c) as Hc
    by (intros; subst v w; Z.to_euclidean_division_equations; lia).
  induction s as [|a|a b|a b c rest IH] using triples_ind; intros Ho; [by split; [|constructor]|..];
    repeat (apply Forall_cons in Ho as [? Ho]); cbn [base64Encode base64Groups].
  - destruct (Ha a) as (K1 & K2 & K3); [done|]. rewrite !base64_value by lia. rewrite K3. split; [done|].
    repeat constructor; try done; by apply base64_sextet.
  - destruct (Ha a) as (K1 & _ & _); [done|]. destruct (Hb a b) as (K2 & K3 & K4 & K5); [done|done|].
    rewrite !base64_value by lia. rewrite !base64_pad by lia. cbn [andb]. rewrite K4, K5. split; [done|].
    repeat constructor; try done; by apply base64_sextet.
  - destruct (Ha a) as (K1 & _ & _); [done|]. destruct (Hb a b) as (K2 & K3 & K4 & K5); [done|done|].
    destruct (Hc a b c) as (K6 & K7 & K8 & K9); [done|done|done|]. destruct (IH Ho) as [-> HF].
    rewrite !base64_value by lia. rewrite !base64_pad by lia. cbn [andb]. rewrite K4, K8, K9. split; [done|].
    repeat constructor; try done; by apply base64_sextet.
Qed.

Lemma base64_decode s : octets s -> base64Decode (base64Encode s) = Some s.
Proof.
  intros Ho. destruct (base64_roundtrip s Ho) as [Hr HF]. unfold base64Decode. rewrite filter_all; [done|].
  eapply Forall_impl; [exact HF|]. by intros c (? & ? & _).
Qed.

Lemma ascii_valid s : Forall (fun c => 0 <= c < 128) s -> utf8Valid 0 s = true.
Proof.
  induction 1 as [|c s Hc _ IH]; [done|]. cbn [utf8Valid]. rewrite (proj2 (Z.ltb_lt _ _)) by lia.
  by rewrite (proj2 (Z.leb_le _ _)) by lia.
Qed.

Lemma bytes_octets l : octets (byte_Z <$> l).
Proof. apply Forall_fmap, Forall_true. intros b. apply byte_Z_range. Qed.

Lemma bytes_lawful n : lawful bytesCodec n (fun _ => True).
Proof.
  split; intros l _; (destruct l as [|b l]; [done|]); cbn [bytesCodec cd_write cd_read].
  - rewrite base64_decode by apply bytes_octets. by rewrite bytes_literal.
  - cbn [writable]. apply ascii_valid. destruct (base64_roundtrip _ (bytes_octets (b :: l))) as [_ HF].
    eapply Forall_impl; [exact HF|]. by intros c (_ & _ & ?).
Qed.
#[export] Hint Resolve bytes_lawful : codec.

(** *** Maps *)

Lemma readEntries_write {A} (c : codec A) n ok l : lawful c n ok -> Forall (fun p => utf8 p.1 /\ ok p.2) l -> forall m,
  readEntries c ((fun p => (codes p.1, cd_write c p.2)) <$> l) m = Some (foldl (fun m p => <[p.1 := p.2]> m) m l).
Proof.
  intros Hc. induction 1 as [|[k a] l [Hk Ha] _ IH]; intros m; [done|]. rewrite fmap_cons. cbn [readEntries foldl fst snd] in *.
  by rewrite (lw_read _ _ _ Hc a Ha), uncodes_codes, IH.
Qed.

Lemma map_lawful {A} (c : codec A) n ok : lawful c n ok ->
  lawful (mapCodec c) (S n) (map_Forall (fun k a => utf8 k /\ ok a)).
Proof.
  intros Hc. split; intros m Hm; cbn [mapCodec cd_write cd_read cd_zero];
    set (l := merge_sort key_before (map_to_list m));
    (assert (l ≡ₚ map_to_list m) as Hp by apply merge_sort_Permutation);
    (assert (Forall (fun p => utf8 p.1 /\ ok p.2) l) as Hl by
      (rewrite Hp; apply Forall_forall; intros [k a] Hin%elem_of_map_to_list; exact (Hm k a Hin))).
  - rewrite (readEntries_write c n ok) by done. by rewrite (foldl_insert_map l m).
  - cbn [writable]. apply writable_members. apply Forall_fmap. eapply Forall_impl; [exact Hl|]. intros [k a] [Hk Ha].
    split; [exact Hk|]. by apply Hc.
Qed.

(** *** Streams *)

Section Stream.
  Context {A : Type} (c : codec A) (ok : A -> Prop) (Hc : lawful c maxNestingDepth ok).

Lemma decodeStream_blank pre v t : writable maxNestingDepth v -> blank pre -> after_value t ->
  decodeStream (pre ++ print compact 0 v ++ t) = Some (v, t).
Proof.
  intros Hw Hp Ht. unfold decodeStream. rewrite !length_app. pose proof (calls_length compact 0 v _ Hw).
  apply (readable_all compact v); [done|lia|done|done].
Qed.

Lemma decodeAll_print l : Forall ok l -> forall fuel pre, (length l < fuel)%nat -> blank pre ->
  decodeAll c fuel (pre ++ concat ((fun a => print compact 0 (cd_write c a) ++ [10]) <$> l)) = Some l.
Proof.
  induction 1 as [|a l Ha _ IH]; intros [|fuel] pre Hf Hp; cbn [length] in Hf; try lia.
  - cbn [decodeAll]. by rewrite skipSpace_blank.
  - rewrite fmap_cons. cbn [concat decodeAll]. pose proof (lw_depth _ _ _ Hc a Ha) as Hw.
    set (rest := concat _). rewrite skipSpace_blank by done. rewrite <- app_assoc.
    destruct (print_head compact 0 _ _ ([10] ++ rest) Hw) as (b & t & E & Hb & _). rewrite E, (skip_to b t Hb), <- E.
    rewrite decodeStream_blank by done. rewrite (lw_read _ _ _ Hc a Ha). subst rest. rewrite IH; [done|lia|by repeat constructor].
Qed.

(** A stream written value by value is read back. *)
Lemma DecodeAll_Encode l : Forall ok l -> DecodeAll c (concat (Encode c <$> l)) = Some l.
Proof.
  intros Hl. unfold DecodeAll.
  assert (byte_Z <$> concat (Encode c <$> l) = concat ((fun a => print compact 0 (cd_write c a) ++ [10]) <$> l) /\
    (length l <= length (concat (Encode c <$> l)))%nat) as [-> Hlen].
  { induction Hl as [|a l Ha _ [IH1 IH2]]; [done|]. rewrite !fmap_cons. cbn [concat]. rewrite fmap_app, length_app, IH1.
    unfold Encode at 1, Marshal at 1. rewrite fmap_app, octets_bytes by (eapply (print_octets compact), Hc, Ha).
    split; [done|]. unfold Encode at 1. rewrite length_app. cbn [length]. lia. }
  apply (decodeAll_print l Hl _ []); [lia|constructor].
Qed.
End Stream.
