(* ===== verification/GoTime.v ===== *)
(** * Times in JSON

    [time.Time] as encoding/json writes and reads it: the calendar of package
    time, the format RFC 3339 with up to nine digits of a second's fraction, and the
    range of years the format has.  A time is a number of nanoseconds from
    January 1 of year 1 (Prelude); the zone it is shown in, a number of minutes east
    of UTC, is an argument.

    A time within the years 0 to 9999 is read back as it was written, in every
    zone ([parse_format]). *)

From S2P Require Import Prelude.
From S2P Require Import GoStrings.
From S2P Require Import GoUnicode.
From S2P Require Import GoJson.
From S2P Require Import GoJsonSpec.
From S2P Require Import GoJsonTypes.

Local Open Scope Z_scope.

(** ** The calendar *)

Definition isLeap (year : Z) : bool := (year mod 4 =? 0) && (negb (year mod 100 =? 0) || (year mod 400 =? 0)).

(** Days from January 1 of year 1 to January 1 of a year. *)
Definition daysSinceEpoch (year : Z) : Z :=
  let y := year - 1 in 365 * y + y / 4 - y / 100 + y / 400.

(** The year of a day and the day's number in it, by cycles of 400, 100, 4 and 1
    years. *)
Definition yearAndDay (d : Z) : Z * Z :=
  let n400 := d / 146097 in
  let d := d mod 146097 in
  let n100 := Z.min 3 (d / 36524) in
  let d := d - 36524 * n100 in
  let n4 := d / 1461 in
  let d := d mod 1461 in
  let n1 := Z.min 3 (d / 365) in
  (400 * n400 + 100 * n100 + 4 * n4 + n1 + 1, d - 365 * n1).

Definition monthLengths : list Z := [31; 28; 31; 30; 31; 30; 31; 31; 30; 31; 30; 31].

Definition daysIn (leap : bool) (month : Z) : Z :=
  nth (Z.to_nat (month - 1)) monthLengths 0 + (if leap && (month =? 2) then 1 else 0).

(** Days of a year before a month, numbered from 1. *)
Definition daysBefore (leap : bool) (month : Z) : Z :=
  lsum (daysIn leap) (seqZ 1 (month - 1)).

(** The month and the day of the month of a day of the year. *)
Definition monthAndDay (leap : bool) (yday : Z) : Z * Z :=
  let month := zlen (filter (fun m => daysBefore leap m <= yday) (seqZ 1 12)) in
  (month, yday - daysBefore leap month + 1).

(** ** Digits *)

Definition digitChar (d : Z) : Z := 48 + d.
Definition twoDigits (n : Z) : list Z := [digitChar (n / 10 mod 10); digitChar (n mod 10)].

(** The last [w] digits of a number. *)
Fixpoint digitsW (w : nat) (n : Z) : list Z :=
  match w with
  | O => []
  | S w => digitsW w (n / 10) ++ [digitChar (n mod 10)]
  end.

Definition trimZeros : list Z -> list Z :=
  foldr (fun c rest => match rest with [] => if c =? 48 then [] else [c] | _ => c :: rest end) [].

Definition numberOf (digits : list Z) : Z := foldl (fun n c => n * 10 + (c - 48)) 0 digits.

(** [parseUint] between two bounds. *)
Definition parseBounded (lo hi : Z) (digits : list Z) : option Z :=
  if forallb jsonDigit digits then
    let n := numberOf digits in
    if (lo <=? n) && (n <=? hi) then Some n else None
  else None.

(** ** RFC 3339 *)

Definition secondsPerDay : Z := 86400.

(** The year, the day of the year and the second of the day that a clock in the
    zone shows. *)
Definition clockOf (zone : Z) (t : Time) : Z * Z * Z :=
  let seconds := t / nsPerSecond + zone * 60 in
  let '(year, yday) := yearAndDay (seconds / secondsPerDay) in
  (year, yday, seconds mod secondsPerDay).

Definition formatZone (zone : Z) : list Z :=
  if zone =? 0 then [90]
  else (if zone <? 0 then 45 else 43) :: twoDigits (Z.abs zone / 60) ++ 58 :: twoDigits (Z.abs zone mod 60).

Definition formatFraction (nanos : Z) : list Z :=
  if nanos =? 0 then [] else 46 :: trimZeros (digitsW 9 nanos).

(** [appendFormatRFC3339] with nanoseconds. *)
Definition formatRFC3339 (zone : Z) (t : Time) : list Z :=
  let '(year, yday, second) := clockOf zone t in
  let '(month, day) := monthAndDay (isLeap year) yday in
  digitsW 4 year ++ 45 :: twoDigits month ++ 45 :: twoDigits day ++ 84 :: twoDigits (second / 3600) ++
  58 :: twoDigits (second / 60 mod 60) ++ 58 :: twoDigits (second mod 60) ++
  formatFraction (t mod nsPerSecond) ++ formatZone zone.

(** What [appendStrictRFC3339] checks. *)
Definition timeFits (zone : Z) (t : Time) : bool :=
  let '(year, _, _) := clockOf zone t in
  (0 <=? year) && (year <=? 9999) && (Z.abs zone / 60 <? 24).

(** The nanoseconds of a fraction's digits; those after the ninth are dropped. *)
Definition parseNanoseconds (digits : list Z) : Z :=
  let digits := take 9 digits in numberOf digits * 10 ^ (9 - zlen digits).

(** The fraction and what follows it. *)
Definition parseFraction (s : list Z) : Z * list Z :=
  match s with
  | c :: d :: _ =>
      if (c =? 46) && jsonDigit d then let '(digits, rest) := digitsOf (tail s) in (parseNanoseconds digits, rest)
      else (0, s)
  | _ => (0, s)
  end.

(** The zone in minutes. *)
Definition parseZone (s : list Z) : option Z :=
  match s with
  | [z] => if z =? 90 then Some 0 else None
  | [sign; h1; h2; colon; m1; m2] =>
      match parseBounded 0 23 [h1; h2], parseBounded 0 59 [m1; m2] with
      | Some hour, Some minute =>
          if ((sign =? 45) || (sign =? 43)) && (colon =? 58)
          then Some ((if sign =? 45 then -1 else 1) * (hour * 60 + minute)) else None
      | _, _ => None
      end
  | _ => None
  end.

(** [parseRFC3339], the strict reading of [UnmarshalJSON]. *)
Definition parseRFC3339 (s : list Z) : option Time :=
  match s with
  | y1 :: y2 :: y3 :: y4 :: p1 :: o1 :: o2 :: p2 :: d1 :: d2 :: p3 :: h1 :: h2 :: p4 :: n1 :: n2 :: p5 :: s1 :: s2 :: rest =>
      if negb ((p1 =? 45) && (p2 =? 45) && (p3 =? 84) && (p4 =? 58) && (p5 =? 58)) then None
      else
        match parseBounded 0 9999 [y1; y2; y3; y4], parseBounded 1 12 [o1; o2] with
        | Some year, Some month =>
            match parseBounded 1 (daysIn (isLeap year) month) [d1; d2], parseBounded 0 23 [h1; h2],
                  parseBounded 0 59 [n1; n2], parseBounded 0 59 [s1; s2] with
            | Some day, Some hour, Some minute, Some second =>
                let '(nanos, rest) := parseFraction rest in
                match parseZone rest with
                | Some zone =>
                    let days := daysSinceEpoch year + daysBefore (isLeap year) month + (day - 1) in
                    Some ((days * secondsPerDay + hour * 3600 + minute * 60 + second - zone * 60) * nsPerSecond + nanos)
                | None => None
                end
            | _, _, _, _ => None
            end
        | _, _ => None
        end
  | _ => None
  end.

(** The zone a time is shown in depends on the time, as the offset of a place does.
    [UnmarshalJSON] reads the text between the quotes as it stands; a text with
    escapes is taken here as what it stands for. *)
Definition timeCodec (zone : Time -> Z) : codec Time :=
  mkCodec (fun t => JString (formatRFC3339 (zone t) t))
    (fun v old => match v with JNull => Some old | JString s => parseRFC3339 s | _ => None end) zeroTime.

Example format_zero : formatRFC3339 0 zeroTime = codes "0001-01-01T00:00:00Z".
Proof. vm_compute. reflexivity. Qed.

Example format_leap_day : formatRFC3339 (-330) (timeUnix 1709251199 + 120000000) = codes "2024-02-29T18:29:59.12-05:30".
Proof. vm_compute. reflexivity. Qed.

Example parse_nanos : parseRFC3339 (codes "1970-01-01T08:00:01.000000042+08:00") = Some (timeUnix 1 + 42).
Proof. vm_compute. reflexivity. Qed.

(** ** The calendar, back and forth *)

Lemma days_of_cycles a b c e : 0 <= b <= 3 -> 0 <= c <= 24 -> 0 <= e <= 3 ->
  daysSinceEpoch (400 * a + 100 * b + 4 * c + e + 1) = 146097 * a + 36524 * b + 1461 * c + 365 * e.
Proof.
  intros Hb Hc He. unfold daysSinceEpoch. replace (400 * a + 100 * b + 4 * c + e + 1 - 1) with (400 * a + 100 * b + 4 * c + e) by lia.
  assert ((400 * a + 100 * b + 4 * c + e) / 4 = 100 * a + 25 * b + c) as -> by (Z.div_mod_to_equations; lia).
  assert ((400 * a + 100 * b + 4 * c + e) / 100 = 4 * a + b) as -> by (Z.div_mod_to_equations; lia).
  assert ((400 * a + 100 * b + 4 * c + e) / 400 = a) as -> by (Z.div_mod_to_equations; lia). lia.
Qed.

Lemma leap_of_cycles a b c : 0 <= b <= 3 -> 0 <= c <= 24 -> (c = 24 -> b = 3) ->
  isLeap (400 * a + 100 * b + 4 * c + 3 + 1) = true.
Proof.
  intros Hb Hc Hl. unfold isLeap. apply andb_true_intro. split; [apply Z.eqb_eq; symmetry; apply (Z.mod_unique _ 4 (100 * a + 25 * b + c + 1) 0); lia|].
  apply orb_true_intro. destruct (decide (c = 24)) as [->|].
  - right. rewrite Hl by done. apply Z.eqb_eq. symmetry. apply (Z.mod_unique _ 400 (a + 1) 0); lia.
  - left. apply negb_true_iff, Z.eqb_neq. rewrite <- (Z.mod_unique _ 100 (4 * a + b) (4 * c + 4)); lia.
Qed.

(** The day of the year is within the year, and the year's days before it and the day
    give the number back. *)
Lemma yearAndDay_spec d : let '(year, yday) := yearAndDay d in
  daysSinceEpoch year + yday = d /\ 0 <= yday <= 365 /\ (yday = 365 -> isLeap year = true).
Proof.
  unfold yearAndDay. pose proof (Z.div_mod d 146097 ltac:(done)) as Ed. pose proof (Z.mod_pos_bound d 146097 ltac:(done)) as Hr.
  set (a := d / 146097) in *. set (r1 := d mod 146097) in *. set (b := Z.min 3 (r1 / 36524)).
  assert (0 <= b <= 3 /\ 36524 * b <= r1 /\ (b < 3 -> r1 < 36524 * (b + 1))) as (Hb & Hb1 & Hb2)
    by (subst b; Z.div_mod_to_equations; lia).
  set (r2 := r1 - 36524 * b). assert (0 <= r2 <= 36524 /\ (r2 = 36524 -> b = 3)) as [Hr2 Hr2b] by (subst r2; lia).
  pose proof (Z.div_mod r2 1461 ltac:(done)) as Er2. pose proof (Z.mod_pos_bound r2 1461 ltac:(done)) as Hr3.
  set (c := r2 / 1461) in *. set (r3 := r2 mod 1461) in *. assert (0 <= c <= 24) as Hc by lia. set (e := Z.min 3 (r3 / 365)).
  assert (0 <= e <= 3 /\ 365 * e <= r3 /\ (e < 3 -> r3 < 365 * (e + 1))) as (He & He1 & He2)
    by (subst e; Z.div_mod_to_equations; lia).
  rewrite days_of_cycles by lia. split; [subst r2; lia|]. split; [lia|]. intros Hy.
  assert (e = 3) as -> by lia. apply leap_of_cycles; [lia|lia|]. intros ->. apply Hr2b. lia.
Qed.

Definition month_ok (leap : bool) (yday : Z) : bool :=
  let '(month, day) := monthAndDay leap yday in
  (1 <=? month) && (month <=? 12) && (1 <=? day) && (day <=? daysIn leap month) && (day <=? 31) &&
  (daysBefore leap month + (day - 1) =? yday).

Lemma monthAndDay_spec leap yday : 0 <= yday <= 365 -> (yday = 365 -> leap = true) ->
  let '(month, day) := monthAndDay leap yday in
  1 <= month <= 12 /\ 1 <= day <= daysIn leap month /\ day <= 31 /\ daysBefore leap month + (day - 1) = yday.
Proof.
  intros Hy Hl.
  assert (forallb (month_ok true) (seqZ 0 366) && forallb (month_ok false) (seqZ 0 365) = true) as Hall
    by (vm_compute; reflexivity).
  apply andb_prop in Hall as [H1 H2]. rewrite forallb_forall in H1, H2.
  assert (month_ok leap yday = true) as Hm.
  { destruct leap; [apply H1|apply H2]; apply list_elem_of_In, elem_of_seqZ; [lia|].
    destruct (decide (yday = 365)); [by discriminate Hl|lia]. }
  unfold month_ok in Hm. destruct (monthAndDay leap yday). bool_to_prop. lia.
Qed.

(** ** Digits, back and forth *)

Definition digits (l : list Z) : Prop := Forall (fun c => jsonDigit c = true) l.

Lemma digitChar_digit d : 0 <= d <= 9 -> jsonDigit (digitChar d) = true.
Proof. intros H. unfold jsonDigit, inRange, digitChar. apply andb_true_intro. split; apply Z.leb_le; lia. Qed.

Lemma digitsW_spec w n : digits (digitsW w n) /\ length (digitsW w n) = w /\ (0 <= n < 10 ^ Z.of_nat w -> numberOf (digitsW w n) = n).
Proof.
  revert n. induction w as [|w IH]; intros n; [split_and!; [constructor|done|]; cbn; lia|].
  cbn [digitsW]. destruct (IH (n / 10)) as (K1 & K2 & K3).
  assert (0 <= n mod 10 <= 9) as Hm by (Z.div_mod_to_equations; lia). split_and!.
  - apply Forall_app_2; [done|]. apply Forall_singleton. by apply digitChar_digit.
  - rewrite length_app, K2. cbn. lia.
  - intros Hn. rewrite Nat2Z.inj_succ, Z.pow_succ_r in Hn by lia. unfold numberOf in *. rewrite foldl_app. cbn [foldl].
    rewrite K3 by (Z.div_mod_to_equations; lia). unfold digitChar. Z.div_mod_to_equations. lia.
Qed.

Lemma parse_digitsW w n lo hi : 0 <= n < 10 ^ Z.of_nat w -> lo <= n <= hi -> parseBounded lo hi (digitsW w n) = Some n.
Proof.
  intros Hn Hb. destruct (digitsW_spec w n) as (K1 & _ & K3). unfold parseBounded.
  assert (forallb jsonDigit (digitsW w n) = true) as -> by (apply forallb_forall; intros c Hc; apply (proj1 (Forall_forall _ _) K1), list_elem_of_In, Hc).
  rewrite K3 by done. rewrite (proj2 (Z.leb_le lo n)), (proj2 (Z.leb_le n hi)) by lia. done.
Qed.

Lemma twoDigits_digitsW n : twoDigits n = digitsW 2 n.
Proof. done. Qed.

Lemma trimZeros_spec l : exists k, l = trimZeros l ++ replicate k 48.
Proof.
  induction l as [|c l [k IH]]; [by exists 0%nat|]. cbn [trimZeros foldr]. fold (trimZeros l).
  destruct (trimZeros l) as [|d rest] eqn:E.
  - cbn in IH. destruct (Z.eqb_spec c 48) as [->|]; [exists (S k)|exists k]; cbn; by rewrite IH at 1.
  - exists k. cbn in *. by rewrite IH at 1.
Qed.

Lemma numberOf_zeros l k : numberOf (l ++ replicate k 48) = numberOf l * 10 ^ Z.of_nat k.
Proof.
  unfold numberOf. rewrite foldl_app. generalize (foldl (fun n c => n * 10 + (c - 48)) 0 l). induction k as [|k IH]; intros n; [cbn; lia|].
  cbn [replicate foldl]. rewrite IH, Nat2Z.inj_succ, Z.pow_succ_r by lia. lia.
Qed.

Lemma digitsOf_span l rest : digits l -> match rest with c :: _ => jsonDigit c = false | [] => True end ->
  digitsOf (l ++ rest) = (l, rest).
Proof.
  intros Hl Hr. induction Hl as [|c l Hc _ IH].
  - destruct rest as [|c rest]; [done|]. cbn. by rewrite Hr.
  - cbn. by rewrite Hc, IH.
Qed.

Lemma trimZeros_digits l : digits l -> digits (trimZeros l).
Proof. intros Hl. destruct (trimZeros_spec l) as [k E]. rewrite E in Hl. by apply Forall_app in Hl as [? _]. Qed.

Lemma four_digits n lo hi : 0 <= n <= 9999 -> lo <= n <= hi ->
  exists a b c d, digitsW 4 n = [a; b; c; d] /\ parseBounded lo hi [a; b; c; d] = Some n.
Proof. intros Hn Hb. eexists _, _, _, _. split; [reflexivity|]. by apply (parse_digitsW 4); [cbn; lia|]. Qed.

Lemma two_digits n lo hi : 0 <= n <= 99 -> lo <= n <= hi ->
  exists a b, twoDigits n = [a; b] /\ parseBounded lo hi [a; b] = Some n.
Proof. intros Hn Hb. eexists _, _. split; [reflexivity|]. by apply (parse_digitsW 2); [cbn; lia|]. Qed.

Lemma zone_roundtrip zone : Z.abs zone / 60 < 24 -> parseZone (formatZone zone) = Some zone.
Proof.
  intros Hz. unfold formatZone. destruct (Z.eqb_spec zone 0) as [->|Hne]; [done|].
  destruct (two_digits (Z.abs zone / 60) 0 23) as (h1 & h2 & -> & Eh); [Z.div_mod_to_equations; lia..|].
  destruct (two_digits (Z.abs zone mod 60) 0 59) as (m1 & m2 & -> & Em); [Z.div_mod_to_equations; lia..|].
  cbn [app parseZone]. rewrite Eh, Em. destruct (Z.ltb_spec zone 0); cbn; f_equal; Z.div_mod_to_equations; lia.
Qed.

Lemma zone_head zone : exists c rest, formatZone zone = c :: rest /\ jsonDigit c = false /\ c <> 46.
Proof.
  unfold formatZone. destruct (zone =? 0); [by eexists 90, _|].
  destruct (zone <? 0); eexists _, _; (split; [reflexivity|done]).
Qed.

Lemma fraction_roundtrip nanos zone : 0 <= nanos < nsPerSecond ->
  parseFraction (formatFraction nanos ++ formatZone zone) = (nanos, formatZone zone).
Proof.
  intros Hn. destruct (zone_head zone) as (z & rest & -> & Hz & Hdot). unfold formatFraction.
  destruct (Z.eqb_spec nanos 0) as [->|Hne].
  { cbn [app]. unfold parseFraction. destruct rest as [|d rest]; [done|]. by rewrite (proj2 (Z.eqb_neq z 46)) by done. }
  destruct (digitsW_spec 9 nanos) as (Hd & Hl & Hv). specialize (Hv Hn).
  pose proof (trimZeros_digits _ Hd) as Ht. destruct (trimZeros_spec (digitsW 9 nanos)) as [k Hk].
  set (digits := trimZeros (digitsW 9 nanos)) in *. rewrite Hk in Hl, Hv. rewrite numberOf_zeros in Hv.
  rewrite length_app, length_replicate in Hl.
  destruct digits as [|d digits'] eqn:E; [cbn in Hv; lia|]. rewrite <- E in *.
  unfold parseFraction. rewrite E at 1. cbn [app tail Z.eqb Pos.eqb].
  assert (jsonDigit d = true) as -> by (rewrite E in Ht; by apply Forall_inv in Ht). cbn [andb].
  rewrite digitsOf_span by done. unfold parseNanoseconds. rewrite take_ge by lia. f_equal.
  etrans; [|exact Hv]. do 2 f_equal. unfold zlen. lia.
Qed.

(** A time that can be written is read back. *)
Lemma parse_format zone t : timeFits zone t = true -> parseRFC3339 (formatRFC3339 zone t) = Some t.
Proof.
  unfold timeFits, formatRFC3339, clockOf. set (seconds := t / nsPerSecond + zone * 60).
  pose proof (yearAndDay_spec (seconds / secondsPerDay)) as Hy. destruct (yearAndDay _) as [year yday].
  destruct Hy as (Ed & Hyday & Hleap). intros Hf. bool_to_prop.
  pose proof (monthAndDay_spec (isLeap year) yday Hyday Hleap) as Hm. destruct (monthAndDay _ _) as [month day].
  destruct Hm as (Hmonth & Hday & Hday31 & Eday). set (second := seconds mod secondsPerDay).
  assert (0 <= second < 86400) as Hs by (apply Z.mod_pos_bound; done).
  destruct (four_digits year 0 9999) as (y1 & y2 & y3 & y4 & -> & Ey); [lia..|].
  destruct (two_digits month 1 12) as (o1 & o2 & -> & Eo); [lia..|].
  destruct (two_digits day 1 (daysIn (isLeap year) month)) as (d1 & d2 & -> & Edd); [lia..|].
  destruct (two_digits (second / 3600) 0 23) as (h1 & h2 & -> & Eh); [Z.div_mod_to_equations; lia..|].
  destruct (two_digits (second / 60 mod 60) 0 59) as (n1 & n2 & -> & En); [Z.div_mod_to_equations; lia..|].
  destruct (two_digits (second mod 60) 0 59) as (s1 & s2 & -> & Es); [Z.div_mod_to_equations; lia..|].
  cbn [app]. unfold parseRFC3339. cbn [Z.eqb Pos.eqb andb negb].
  rewrite Ey, Eo, Edd, Eh, En, Es, fraction_roundtrip by (apply Z.mod_pos_bound; done).
  rewrite zone_roundtrip by done. f_equal.
  replace (daysSinceEpoch year + daysBefore (isLeap year) month + (day - 1)) with (seconds / secondsPerDay) by lia.
  assert (second / 3600 * 3600 + second / 60 mod 60 * 60 + second mod 60 = second) as Hclock
    by (Z.div_mod_to_equations; lia).
  pose proof (Z.div_mod seconds secondsPerDay ltac:(done)) as Hsec. fold second in Hsec.
  pose proof (Z.div_mod t nsPerSecond ltac:(done)) as Ht. subst seconds. lia.
Qed.

Lemma formatted_ascii zone t : Forall (fun c => 0 <= c < 128) (formatRFC3339 zone t).
Proof.
  assert (forall l, digits l -> Forall (fun c => 0 <= c < 128) l) as Hd.
  { intros l Hl. eapply Forall_impl; [exact Hl|]. intros c Hc. unfold jsonDigit, inRange in Hc. bool_to_prop. lia. }
  assert (forall n, Forall (fun c => 0 <= c < 128) (twoDigits n)) as H2
    by (intros n; apply Hd; apply (digitsW_spec 2)).
  unfold formatRFC3339. destruct (clockOf zone t) as [[year yday] second]. destruct (monthAndDay _ _) as [month day].
  assert (Forall (fun c => 0 <= c < 128) (formatZone zone)) as Hz.
  { unfold formatZone. destruct (zone =? 0); [by constructor|]. constructor; [by destruct (zone <? 0)|].
    apply Forall_app_2; [apply H2|]. constructor; [done|apply H2]. }
  assert (Forall (fun c => 0 <= c < 128) (formatFraction (t mod nsPerSecond))) as Hfr.
  { unfold formatFraction. case_match; constructor; [done|]. apply Hd, trimZeros_digits, digitsW_spec. }
  repeat first [apply Forall_app_2; [first [apply H2|exact Hfr|apply Hd, (digitsW_spec 4)]|]|constructor; [done|]|exact Hz].
Qed.

Lemma time_lawful zone n : lawful (timeCodec zone) n (fun t => timeFits (zone t) t = true).
Proof.
  split; intros t Ht; cbn [timeCodec cd_read cd_write cd_zero writable].
  - by apply parse_format.
  - apply ascii_valid, formatted_ascii.
Qed.
