(* ===== verification/Frame.v ===== *)
(** * The TCP frame codec (protocol/frame.go)

    A frame is a 32-byte big-endian header followed by metadata and payload.
    [Encode] writes to any [io.Writer], [Decode] reads from a byte stream with
    [io.ReadFull]; both check the codec's length limits. *)

From S2P Require Import Prelude.
From S2P Require Import Binary.

Local Open Scope Z_scope.

(** ** Constants and data *)

(** src: protocol/frame.go Magic 13-13 *)
Definition Magic : Z := 0x4e535041.
(** src: protocol/frame.go Version 14-14 *)
Definition Version : Z := 1.
(** src: protocol/frame.go FixedHeaderSize 15-15 *)
Definition FixedHeaderSize : Z := 32.
(** src: protocol/frame.go DefaultMaxMetadataBytes 17-17 *)
Definition DefaultMaxMetadataBytes : Z := Z.shiftl 1 20.
(** src: protocol/frame.go DefaultMaxPayloadBytes 18-18 *)
Definition DefaultMaxPayloadBytes : Z := Z.shiftl 64 20.

(** The sentinels of frame.go and the errors of [io] it returns; formatted
    details are dropped.
    src: protocol/frame.go ErrInvalidMagic 21-26 *)
Inductive frameError :=
| ErrInvalidMagic
| ErrUnsupportedVersion
| ErrFrameTooLarge
| ErrInvalidFrame
| ErrWrite
| ErrShortWrite
| ErrEOF
| ErrUnexpectedEOF.

(** src: protocol/frame.go Op 42-66 *)
Definition Op := Z.
Definition OpCacheGet : Op := 1.
Definition OpCacheSet : Op := 2.
Definition OpCacheDelete : Op := 3.
Definition OpCacheBatchGet : Op := 4.
Definition OpCacheBatchSet : Op := 5.
Definition OpNodeHeartbeat : Op := 6.
Definition OpControlSnapshot : Op := 7.
Definition OpControlWatch : Op := 8.
Definition OpCacheExists : Op := 9.
Definition OpCacheTouch : Op := 10.
Definition OpCacheAdjust : Op := 11.
Definition OpCachePrimitive : Op := 12.
Definition OpCacheBatchPrimitive : Op := 13.
Definition OpCacheBatchDelete : Op := 14.
Definition OpCacheBatchExists : Op := 15.
Definition OpCacheBatchTouch : Op := 16.
Definition OpNodeExportRange : Op := 17.
Definition OpNodeImportSnapshot : Op := 18.
Definition OpNodeDeleteRange : Op := 19.
Definition OpNodeFenceRange : Op := 20.
Definition OpNodeUnfenceRange : Op := 21.

(** src: protocol/frame.go Frame *)
Record Frame := mkFrame {
  Flags : Z;
  FrameOp : Op;
  RequestID : Z;
  RouteEpoch : Z;
  Metadata : list byte;
  Payload : list byte
}.

(** src: protocol/frame.go Codec *)
Record Codec := mkCodec {
  MaxMetadataBytes : Z;
  MaxPayloadBytes : Z
}.

(** src: protocol/frame.go CodecOption *)
Definition CodecOption := Codec -> Codec.

(** src: protocol/frame.go WithMaxMetadataBytes *)
Definition WithMaxMetadataBytes (limit : Z) : CodecOption := fun c =>
  mkCodec limit (MaxPayloadBytes c).

(** src: protocol/frame.go WithMaxPayloadBytes *)
Definition WithMaxPayloadBytes (limit : Z) : CodecOption := fun c =>
  mkCodec (MaxMetadataBytes c) limit.

(** src: protocol/frame.go NewCodec *)
Definition NewCodec (opts : list CodecOption) : Codec :=
  foldl (fun c opt => opt c) (mkCodec DefaultMaxMetadataBytes DefaultMaxPayloadBytes) opts.

(** The field widths of the Go struct. *)
Definition frame_typed (f : Frame) : Prop :=
  0 <= Flags f < 256 /\ 0 <= FrameOp f < 2 ^ 16 /\ is_u64 (RequestID f) /\ is_u64 (RouteEpoch f).

Definition codec_typed (c : Codec) : Prop :=
  is_u32 (MaxMetadataBytes c) /\ is_u32 (MaxPayloadBytes c).

(** ** Length checks *)

(** src: protocol/frame.go limits *)
Definition limits (c : Codec) : Z * Z :=
  let maxMetadataBytes :=
    if MaxMetadataBytes c =? 0 then DefaultMaxMetadataBytes else MaxMetadataBytes c in
  let maxPayloadBytes :=
    if MaxPayloadBytes c =? 0 then DefaultMaxPayloadBytes else MaxPayloadBytes c in
  (maxMetadataBytes, maxPayloadBytes).

(** src: protocol/frame.go validateLengths *)
Definition validateLengths (c : Codec) (metaLen payloadLen : Z) : result frameError unit :=
  let '(maxMetadataBytes, maxPayloadBytes) := limits c in
  if maxMetadataBytes <? metaLen then Err ErrFrameTooLarge
  else if maxPayloadBytes <? payloadLen then Err ErrFrameTooLarge
  else Ok tt.

(** src: protocol/frame.go checkedLengths *)
Definition checkedLengths (metaLen payloadLen : Z) : result frameError (Z * Z) :=
  let maxUint32 := 2 ^ 32 - 1 in
  if (metaLen <? 0) || (maxUint32 <? metaLen) then Err ErrFrameTooLarge
  else if (payloadLen <? 0) || (maxUint32 <? payloadLen) then Err ErrFrameTooLarge
  else Ok (u32 metaLen, u32 payloadLen).

(** ** Encoding *)

(** The fixed header, bytes 0 to 31.
    src: protocol/frame.go Encode 135-143 *)
Definition header (f : Frame) (metaLen payloadLen : Z) : list byte :=
  be_put 4 Magic ++ [byte_of_Z Version] ++ [byte_of_Z (Flags f)] ++
  be_put 2 (FrameOp f) ++ be_put 8 (RequestID f) ++ be_put 8 (RouteEpoch f) ++
  be_put 4 metaLen ++ be_put 4 payloadLen.

Section Encode.
  (** An [io.Writer]: its state, and [Write], which returns the number of bytes
      taken and whether it failed. *)
  Context {W : Type} (Write : W -> list byte -> W * (Z * bool)).

(** src: protocol/frame.go writeFull *)
Definition writeFull (w : W) (p : list byte) : W * result frameError unit :=
  let '(w', (n, failed)) := Write w p in
  if (failed : bool) then (w', Err ErrWrite)
  else if negb (n =? zlen p) then (w', Err ErrShortWrite)
  else (w', Ok tt).

(** src: protocol/frame.go Encode 123-159 *)
Definition Encode (c : Codec) (w : W) (frame : Frame) : W * result frameError unit :=
  if FrameOp frame =? 0 then (w, Err ErrInvalidFrame)
  else match checkedLengths (zlen (Metadata frame)) (zlen (Payload frame)) with
  | Err e => (w, Err e)
  | Ok (metaLen, payloadLen) =>
      match validateLengths c metaLen payloadLen with
      | Err e => (w, Err e)
      | Ok _ =>
          let '(w1, r1) := writeFull w (header frame metaLen payloadLen) in
          match r1 with
          | Err e => (w1, Err e)
          | Ok _ =>
              let '(w2, r2) :=
                if 0 <? zlen (Metadata frame) then writeFull w1 (Metadata frame)
                else (w1, Ok tt) in
              match r2 with
              | Err e => (w2, Err e)
              | Ok _ =>
                  if 0 <? zlen (Payload frame) then writeFull w2 (Payload frame)
                  else (w2, Ok tt)
              end
          end
      end
  end.
End Encode.

(** A [bytes.Buffer]: it takes everything it is given. *)
Definition bufWrite (w : list byte) (p : list byte) : list byte * (Z * bool) :=
  (w ++ p, (zlen p, false)).

(** ** Decoding *)

(** [io.ReadFull] for [n] bytes of a stream: the bytes, or the error and what is
    left of the stream. *)
Definition ReadFull (r : list byte) (n : Z) : result frameError (list byte) * list byte :=
  if n <=? zlen r then (Ok (take (Z.to_nat n) r), drop (Z.to_nat n) r)
  else match r with
       | [] => (Err ErrEOF, [])
       | _ => (Err ErrUnexpectedEOF, [])
       end.

(** Slice [bs[lo:hi]]. *)
Definition slice (lo hi : nat) (bs : list byte) : list byte := take (hi - lo) (drop lo bs).

(** src: protocol/frame.go readHeader *)
Definition readHeader (r : list byte) : result frameError (list byte) * list byte :=
  ReadFull r FixedHeaderSize.

(** src: protocol/frame.go readFrameBody *)
Definition readFrameBody (r : list byte) (frame : Frame) (metaLen payloadLen : Z)
    : result frameError Frame * list byte :=
  let '(meta, r1) :=
    if 0 <? metaLen then ReadFull r metaLen else (Ok [], r) in
  match meta with
  | Err e => (Err e, r1)
  | Ok m =>
      let '(payload, r2) :=
        if 0 <? payloadLen then ReadFull r1 payloadLen else (Ok [], r1) in
      match payload with
      | Err e => (Err e, r2)
      | Ok p =>
          (Ok (mkFrame (Flags frame) (FrameOp frame) (RequestID frame) (RouteEpoch frame) m p), r2)
      end
  end.

(** src: protocol/frame.go Decode 161-193 *)
Definition Decode (c : Codec) (r : list byte) : result frameError Frame * list byte :=
  let '(hdr, r1) := readHeader r in
  match hdr with
  | Err e => (Err e, r1)
  | Ok h =>
      if negb (be_get (slice 0 4 h) =? Magic) then (Err ErrInvalidMagic, r1)
      else if negb (be_get (slice 4 5 h) =? Version) then (Err ErrUnsupportedVersion, r1)
      else
        let metaLen := be_get (slice 24 28 h) in
        let payloadLen := be_get (slice 28 32 h) in
        match validateLengths c metaLen payloadLen with
        | Err e => (Err e, r1)
        | Ok _ =>
            let frame := mkFrame (be_get (slice 5 6 h)) (be_get (slice 6 8 h))
                           (be_get (slice 8 16 h)) (be_get (slice 16 24 h)) [] [] in
            if FrameOp frame =? 0 then (Err ErrInvalidFrame, r1)
            else readFrameBody r1 frame metaLen payloadLen
        end
  end.

(** The bytes of a frame on the wire. *)
Definition frame_bytes (f : Frame) : list byte :=
  header f (zlen (Metadata f)) (zlen (Payload f)) ++ Metadata f ++ Payload f.

(** What [Encode] requires of a frame. *)
Definition frame_admissible (c : Codec) (f : Frame) : Prop :=
  FrameOp f <> 0 /\ zlen (Metadata f) <= (limits c).1 /\ zlen (Payload f) <= (limits c).2.

(** ** Lemmas *)

Lemma limits_range c : codec_typed c ->
  0 <= (limits c).1 < 2 ^ 32 /\ 0 <= (limits c).2 < 2 ^ 32.
Proof.
  unfold codec_typed, is_u32, limits. intros [Hm Hp]. simpl.
  unfold DefaultMaxMetadataBytes, DefaultMaxPayloadBytes.
  split; case_bool; try lia; vm_compute; (split; congruence).
Qed.

Lemma validateLengths_ok c m p :
  validateLengths c m p = Ok tt <-> m <= (limits c).1 /\ p <= (limits c).2.
Proof.
  unfold validateLengths. destruct (limits c) as [lm lp]; simpl.
  repeat case_bool; bool_to_prop; split; intros; try done; lia.
Qed.

Lemma validateLengths_err c m p e : validateLengths c m p = Err e -> e = ErrFrameTooLarge.
Proof. unfold validateLengths. destruct (limits c). repeat case_bool; congruence. Qed.

Lemma validateLengths_cases c m p :
  validateLengths c m p = Ok tt \/ validateLengths c m p = Err ErrFrameTooLarge.
Proof. unfold validateLengths. destruct (limits c). repeat case_bool; auto. Qed.

Lemma checkedLengths_ok m p : 0 <= m < 2 ^ 32 -> 0 <= p < 2 ^ 32 ->
  checkedLengths m p = Ok (m, p).
Proof.
  intros Hm Hp. unfold checkedLengths. repeat case_bool; bool_to_prop; try lia.
  by rewrite !u32_small by done.
Qed.

Lemma checkedLengths_cases m p :
  checkedLengths m p = Ok (m, p) \/ checkedLengths m p = Err ErrFrameTooLarge.
Proof.
  unfold checkedLengths. case_bool; [by right|]. case_bool; [by right|]. left.
  bool_to_prop. by rewrite !u32_small by (unfold is_u32; lia).
Qed.

Lemma length_header f m p : length (header f m p) = 32%nat.
Proof. reflexivity. Qed.

(** The fields of a written header. *)
Lemma header_slices f m p :
  slice 0 4 (header f m p) = be_put 4 Magic /\
  slice 4 5 (header f m p) = [byte_of_Z Version] /\
  slice 5 6 (header f m p) = [byte_of_Z (Flags f)] /\
  slice 6 8 (header f m p) = be_put 2 (FrameOp f) /\
  slice 8 16 (header f m p) = be_put 8 (RequestID f) /\
  slice 16 24 (header f m p) = be_put 8 (RouteEpoch f) /\
  slice 24 28 (header f m p) = be_put 4 m /\
  slice 28 32 (header f m p) = be_put 4 p.
Proof. repeat split. Qed.

Lemma be_get_byte b : be_get [b] = byte_Z b.
Proof. unfold be_get. simpl. lia. Qed.

Lemma ReadFull_app (l r : list byte) : ReadFull (l ++ r) (zlen l) = (Ok l, r).
Proof.
  unfold ReadFull. rewrite zlen_app.
  rewrite (proj2 (Z.leb_le _ _)) by (pose proof (zlen_nonneg r); lia).
  unfold zlen. by rewrite Nat2Z.id, take_app_length, drop_app_length.
Qed.

Lemma ReadFull_ok r n l r' : 0 <= n -> ReadFull r n = (Ok l, r') ->
  r = l ++ r' /\ zlen l = n.
Proof.
  unfold ReadFull. intros Hn. destruct (Z.leb_spec n (zlen r)).
  - intros [= <- <-]. rewrite take_drop. split; [done|].
    unfold zlen in *. rewrite length_take. lia.
  - destruct r; intros; discriminate.
Qed.

(** A 32-byte header is the header of the fields read from it. *)
Lemma header_of_slices h :
  length h = 32%nat -> be_get (slice 0 4 h) = Magic -> be_get (slice 4 5 h) = Version ->
  header (mkFrame (be_get (slice 5 6 h)) (be_get (slice 6 8 h))
            (be_get (slice 8 16 h)) (be_get (slice 16 24 h)) [] [])
         (be_get (slice 24 28 h)) (be_get (slice 28 32 h)) = h.
Proof.
  intros Hl Hm Hv. unfold header; simpl Flags; simpl FrameOp; simpl RequestID; simpl RouteEpoch.
  rewrite <- Hm, <- Hv.
  assert (forall b, byte_of_Z (be_get [b]) = b) as Hb
    by (intros b; rewrite be_get_byte; apply byte_of_Z_byte).
  do 32 (destruct h as [|? h]; [done|]). destruct h; [|done].
  unfold slice; cbn [drop take Nat.sub].
  rewrite !Hb.
  rewrite (be_put_get [_; _; _; _]).
  rewrite (be_put_get [_; _]).
  rewrite (be_put_get [_; _; _; _; _; _; _; _]).
  rewrite (be_put_get [_; _; _; _; _; _; _; _]).
  rewrite (be_put_get [_; _; _; _]).
  rewrite (be_put_get [_; _; _; _]). done.
Qed.

Lemma readFrameBody_app f fm fp rest : Metadata f = [] -> Payload f = [] ->
  readFrameBody (fm ++ fp ++ rest) f (zlen fm) (zlen fp)
  = (Ok (mkFrame (Flags f) (FrameOp f) (RequestID f) (RouteEpoch f) fm fp), rest).
Proof.
  intros _ _. unfold readFrameBody.
  assert (forall l r, (if 0 <? zlen l then ReadFull (l ++ r) (zlen l) else (Ok [], l ++ r))
                      = (Ok l, r)) as Hr.
  { intros l r. destruct (Z.ltb_spec 0 (zlen l)); [apply ReadFull_app|].
    destruct l; [done|]. rewrite zlen_cons in *. pose proof (zlen_nonneg l). lia. }
  by rewrite !Hr.
Qed.

Lemma Decode_bytes c f rest : codec_typed c -> frame_typed f -> frame_admissible c f ->
  Decode c (frame_bytes f ++ rest) = (Ok f, rest).
Proof.
  intros Hc (Hfl & Hop & Hid & Hep) (Hop0 & Hm & Hp).
  pose proof (limits_range c Hc) as [Lm Lp].
  pose proof (zlen_nonneg (Metadata f)). pose proof (zlen_nonneg (Payload f)).
  unfold Decode, readHeader, frame_bytes.
  set (h := header f (zlen (Metadata f)) (zlen (Payload f))).
  assert (FixedHeaderSize = zlen h) as -> by done.
  rewrite <- !app_assoc, ReadFull_app. subst h.
  destruct (header_slices f (zlen (Metadata f)) (zlen (Payload f)))
    as (-> & -> & -> & -> & -> & -> & -> & ->).
  rewrite !be_get_byte, !byte_Z_of_Z, (Z.mod_small (Flags f)), !be_get_put_small by (unfold is_u64, Magic in *; lia).
  rewrite !Z.eqb_refl. cbn [negb].
  rewrite (proj2 (validateLengths_ok c _ _)) by done.
  cbn [FrameOp]. rewrite (proj2 (Z.eqb_neq _ _)) by done.
  rewrite readFrameBody_app by done. by destruct f.
Qed.

Lemma Encode_buf c f w : codec_typed c -> frame_admissible c f ->
  Encode bufWrite c w f = (w ++ frame_bytes f, Ok tt).
Proof.
  intros Hc (Hop0 & Hm & Hp). pose proof (limits_range c Hc) as [Lm Lp].
  pose proof (zlen_nonneg (Metadata f)). pose proof (zlen_nonneg (Payload f)).
  unfold Encode. rewrite (proj2 (Z.eqb_neq _ _)) by done.
  rewrite checkedLengths_ok by lia. rewrite (proj2 (validateLengths_ok c _ _)) by done.
  assert (forall u p, writeFull bufWrite u p = (u ++ p, Ok tt)) as Hw.
  { intros u p. unfold writeFull, bufWrite. by rewrite Z.eqb_refl. }
  assert (forall u p, (if 0 <? zlen p then writeFull bufWrite u p else (u, Ok tt)) = (u ++ p, Ok tt)) as Hw'.
  { intros u p. destruct (Z.ltb_spec 0 (zlen p)); [apply Hw|].
    destruct p; [by rewrite app_nil_r|]. rewrite zlen_cons in *. pose proof (zlen_nonneg p). lia. }
  rewrite Hw, Hw', Hw'. unfold frame_bytes. by rewrite !app_assoc.
Qed.

Lemma readFrameBody_ok r f m p g rest : 0 <= m -> 0 <= p ->
  readFrameBody r f m p = (Ok g, rest) ->
  r = Metadata g ++ Payload g ++ rest /\ zlen (Metadata g) = m /\ zlen (Payload g) = p /\
  Flags g = Flags f /\ FrameOp g = FrameOp f /\ RequestID g = RequestID f /\
  RouteEpoch g = RouteEpoch f.
Proof.
  intros Hm Hp. unfold readFrameBody.
  assert (forall r n l r', 0 <= n ->
    (if 0 <? n then ReadFull r n else (Ok [], r)) = (Ok l, r') -> r = l ++ r' /\ zlen l = n) as Hr.
  { intros r0 n l r' Hn. destruct (Z.ltb_spec 0 n).
    - by apply ReadFull_ok.
    - intros [= <- <-]. split; [done|]. unfold zlen; simpl. lia. }
  destruct (if 0 <? m then _ else _) as [[ml|?] r1] eqn:E1; [|done].
  destruct (if 0 <? p then _ else _) as [[pl|?] r2] eqn:E2; [|done].
  intros [= <- <-]. cbn [Metadata Payload Flags FrameOp RequestID RouteEpoch].
  apply Hr in E1 as [-> ?]; [|done]. apply Hr in E2 as [-> ?]; [|done]. done.
Qed.

(** What a decoded frame is: the bytes it was read from are those of the frame. *)
Lemma Decode_inv c r f rest : codec_typed c -> Decode c r = (Ok f, rest) ->
  frame_typed f /\ frame_admissible c f /\ r = frame_bytes f ++ rest.
Proof.
  intros Hc. unfold Decode, readHeader.
  destruct (ReadFull r FixedHeaderSize) as [[h|?] r1] eqn:Eh; [|done].
  apply ReadFull_ok in Eh as [-> Hlen]; [|done].
  destruct (be_get (slice 0 4 h) =? Magic) eqn:Em; [|done]; cbn [negb].
  destruct (be_get (slice 4 5 h) =? Version) eqn:Ev; [|done]; cbn [negb].
  destruct (validateLengths_cases c (be_get (slice 24 28 h)) (be_get (slice 28 32 h))) as [El|El]; rewrite El; [|done].
  cbn [FrameOp]. destruct (be_get (slice 6 8 h) =? 0) eqn:Eo; [done|].
  bool_to_prop. apply validateLengths_ok in El as [Lm Lp]. intros Hb.
  assert (length h = 32%nat) as Hl by (unfold zlen in Hlen; change FixedHeaderSize with 32 in Hlen; lia).
  apply readFrameBody_ok in Hb as (-> & Hm & Hp & Hfl & Hop & Hid & Hep); try apply be_get_range.
  simpl in Hfl, Hop, Hid, Hep.
  assert (frame_admissible c f) as Ha by (unfold frame_admissible; rewrite Hop, Hm, Hp; done).
  split; [|split; [done|]].
  - assert (forall lo hi, (lo <= hi <= 32)%nat ->
              0 <= be_get (slice lo hi h) < 256 ^ Z.of_nat (hi - lo)) as Hs.
    { intros lo hi Hlh. pose proof (be_get_range (slice lo hi h)) as Hr.
      unfold zlen in Hr. replace (length (slice lo hi h)) with (hi - lo)%nat in Hr; [done|].
      unfold slice. rewrite length_take, length_drop. lia. }
    unfold frame_typed, is_u64. rewrite Hfl, Hop, Hid, Hep.
    repeat split; eapply Hs; lia.
  - unfold frame_bytes. rewrite <- !app_assoc. f_equal.
    rewrite <- (header_of_slices h) by done. unfold header.
    by rewrite Hfl, Hop, Hid, Hep, Hm, Hp.
Qed.

(** ** Properties *)

(** Encoding a frame into a buffer and decoding the buffer gives the frame
    back and leaves the bytes that follow it, for every codec and every frame
    its limits admit. *)
Theorem frame_roundtrip c f rest : codec_typed c -> frame_typed f -> frame_admissible c f ->
  exists w, Encode bufWrite c [] f = (w, Ok tt) /\ Decode c (w ++ rest) = (Ok f, rest).
Proof.
  intros Hc Hf Ha. exists (frame_bytes f). split.
  - by rewrite Encode_buf.
  - by apply Decode_bytes.
Qed.

(** C40: [Decode] accepts nothing but frames [Encode] writes: a decoded frame is
    well typed, within the codec's limits, has a non-zero op, and re-encodes to
    exactly the bytes consumed. *)
Theorem frame_decode_canonical c r f rest : codec_typed c ->
  Decode c r = (Ok f, rest) ->
  frame_typed f /\ frame_admissible c f /\
  exists w, Encode bufWrite c [] f = (w, Ok tt) /\ r = w ++ rest.
Proof.
  intros Hc (Ht & Ha & ->)%Decode_inv; [|done]. split_and!; [done..|]. exists (frame_bytes f).
  by rewrite Encode_buf.
Qed.

(** [Encode] rejects a frame with op 0 or an oversized part before it writes
    anything, whatever the writer. *)
Lemma frame_encode_rejects {W} (Write : W -> list byte -> W * (Z * bool)) c w f :
  codec_typed c -> ~ frame_admissible c f ->
  Encode Write c w f = (w, Err ErrInvalidFrame) \/ Encode Write c w f = (w, Err ErrFrameTooLarge).
Proof.
  intros Hc Hn. unfold Encode. destruct (Z.eqb_spec (FrameOp f) 0) as [|Hop]; [by left|right].
  destruct (checkedLengths_cases (zlen (Metadata f)) (zlen (Payload f))) as [->| ->]; [|done].
  destruct (validateLengths_cases c (zlen (Metadata f)) (zlen (Payload f))) as [El|El];
    rewrite El; [|done].
  apply validateLengths_ok in El. by destruct Hn.
Qed.

(** ** Witnesses *)

Definition sample_frame : Frame :=
  mkFrame 1 OpCacheSet 7 42 (str_bytes "meta") (str_bytes "value").

Lemma frame_roundtrip_witness :
  exists w, Encode bufWrite (NewCodec []) [] sample_frame = (w, Ok tt) /\
            Decode (NewCodec []) (w ++ str_bytes "next") = (Ok sample_frame, str_bytes "next").
Proof.
  apply frame_roundtrip.
  - vm_compute. repeat split; congruence.
  - vm_compute. repeat split; congruence.
  - vm_compute. repeat split; congruence.
Defined.

Lemma frame_decode_canonical_witness :
  frame_typed sample_frame /\ frame_admissible (NewCodec []) sample_frame /\
  exists w, Encode bufWrite (NewCodec []) [] sample_frame = (w, Ok tt) /\
            frame_bytes sample_frame = w ++ [].
Proof.
  apply frame_decode_canonical.
  - vm_compute. repeat split; congruence.
  - vm_compute. reflexivity.
Defined.
