(* ===== verification/ControlApi.v ===== *)
(** * Shared control-plane data (controlapi/types.go)

    The bodies the control plane, the routing helpers and the migration code
    exchange. *)

From S2P Require Import Prelude.

Local Open Scope Z_scope.

(** src: controlapi/types.go VSlotCount 5-5 *)
Definition VSlotCount : Z := 65536.
(** src: controlapi/types.go VSlotMax 6-6 *)
Definition VSlotMax : Z := VSlotCount - 1.

(** src: controlapi/types.go NodeBody *)
Record NodeBody := mkNode {
  nb_nodeID : string;
  nb_addr : string;
  nb_state : string;
  nb_lastSeenUnix : Z
}.

(** src: controlapi/types.go NamespaceBody *)
Record NamespaceBody := mkNamespace {
  ns_namespace : string;
  ns_version : Z;
  ns_createdAtUnix : Z
}.

(** src: controlapi/types.go SpaceBody *)
Record SpaceBody := mkSpace {
  sp_namespace : string;
  sp_space : string;
  sp_version : Z;
  sp_createdAtUnix : Z
}.

(** src: controlapi/types.go EntityBody *)
Record EntityBody := mkEntity {
  en_namespace : string;
  en_space : string;
  en_entity : string;
  en_createdAtUnix : Z
}.

(** src: controlapi/types.go RouteReplicaBody *)
Record RouteReplicaBody := mkReplica {
  rr_nodeID : string;
  rr_addr : string;
  rr_weight : Z
}.

(** src: controlapi/types.go RouteBody *)
Record RouteBody := mkRoute {
  rt_namespace : string;
  rt_space : string;
  rt_start : Z;
  rt_end : Z;
  rt_nodeID : string;
  rt_addr : string;
  rt_weight : Z;
  rt_replicas : list RouteReplicaBody
}.

(** src: controlapi/types.go RebalanceEventBody *)
Record RebalanceEventBody := mkEvent {
  ev_id : Z;
  ev_revision : Z;
  ev_type : string;
  ev_reason : string;
  ev_nodeID : string;
  ev_addr : string;
  ev_state : string;
  ev_namespace : string;
  ev_space : string;
  ev_routeCount : Z;
  ev_createdAtUnix : Z
}.

(** src: controlapi/types.go MigrationTaskBody *)
Record MigrationTaskBody := mkTask {
  mt_planID : Z;
  mt_taskID : Z;
  mt_revision : Z;
  mt_namespace : string;
  mt_space : string;
  mt_start : Z;
  mt_end : Z;
  mt_sourceNodeID : string;
  mt_sourceAddr : string;
  mt_targetNodeID : string;
  mt_targetAddr : string;
  mt_state : string;
  mt_createdAtUnix : Z;
  mt_startedAtUnix : Z;
  mt_cutoverAtUnix : Z;
  mt_finishedAtUnix : Z;
  mt_importedEntries : Z;
  mt_deletedEntries : Z;
  mt_attempts : Z;
  mt_nextRetryUnix : Z;
  mt_error : string
}.

(** src: controlapi/types.go MigrationPlanBody *)
Record MigrationPlanBody := mkPlan {
  mp_id : Z;
  mp_revision : Z;
  mp_reason : string;
  mp_state : string;
  mp_createdAtUnix : Z;
  mp_tasks : list MigrationTaskBody
}.

(** The zero values of the structs. *)
Definition zeroNode : NodeBody := mkNode "" "" "" 0.
Definition zeroSpace : SpaceBody := mkSpace "" "" 0 0.
Definition zeroRoute : RouteBody := mkRoute "" "" 0 0 "" "" 0 [].
Definition zeroTask : MigrationTaskBody :=
  mkTask 0 0 0 "" "" 0 0 "" "" "" "" "" 0 0 0 0 0 0 0 0 "".

#[global] Instance NodeBody_eq_dec : EqDecision NodeBody.
Proof. solve_decision. Defined.
#[global] Instance NamespaceBody_eq_dec : EqDecision NamespaceBody.
Proof. solve_decision. Defined.
#[global] Instance SpaceBody_eq_dec : EqDecision SpaceBody.
Proof. solve_decision. Defined.
#[global] Instance EntityBody_eq_dec : EqDecision EntityBody.
Proof. solve_decision. Defined.
#[global] Instance RouteReplicaBody_eq_dec : EqDecision RouteReplicaBody.
Proof. solve_decision. Defined.
#[global] Instance RouteBody_eq_dec : EqDecision RouteBody.
Proof. solve_decision. Defined.
