(* ===== verification/Routing.v ===== *)
(** * Route selection (routing/routing.go)

    The virtual slot of a key is the FNV-1a hash of its length-prefixed parts;
    [Select] picks, among the routes that cover the slot, the first exact route
    of the space, else the first route of the namespace, else the first
    wildcard. *)

From S2P Require Import Prelude.
From S2P Require Import Binary.
From S2P Require Import ControlApi.

Local Open Scope Z_scope.

(** ** FNV-1a, 64 bits (hash/fnv) *)

Definition fnv_offset64 : Z := 14695981039346656037.
Definition fnv_prime64 : Z := 1099511628211.

(** [hash.Write]: xor the byte in, multiply by the prime, at 64 bits. *)
Definition fnv_write (h : Z) (data : list byte) : Z :=
  foldl (fun h b => u64 (Z.lxor h (byte_Z b) * fnv_prime64)) h data.

(** ** Slots *)

(** src: routing/routing.go writeHashPart *)
Definition writeHashPart (h : Z) (value : string) : Z :=
  let size := AppendUvarint [] (u64 (str_len value)) in
  fnv_write (fnv_write h size) (str_bytes value).

(** src: routing/routing.go VSlotFor *)
Definition VSlotFor (namespace space key : string) : Z :=
  let hash := fnv_offset64 in
  let hash := writeHashPart hash namespace in
  let hash := writeHashPart hash space in
  let hash := writeHashPart hash key in
  u32 (hash mod VSlotCount).

(** ** Matching *)

(** src: routing/routing.go matchKind 65-77 *)
Inductive matchKind := noRoute | exactRoute | namespaceRoute | wildcardRoute.

(** src: routing/routing.go routeMatch *)
Definition routeMatch (route : RouteBody) (namespace space : string) : matchKind :=
  if bool_decide (rt_namespace route = namespace) && bool_decide (rt_space route = space)
  then exactRoute
  else if bool_decide (rt_namespace route = namespace) && bool_decide (rt_space route = "")
  then namespaceRoute
  else if bool_decide (rt_namespace route = "") && bool_decide (rt_space route = "")
  then wildcardRoute
  else noRoute.

(** src: routing/routing.go normalizedRange *)
Definition normalizedRange (route : RouteBody) : Z * Z :=
  if (rt_start route =? 0) && (rt_end route =? 0) then (0, VSlotMax)
  else (rt_start route, rt_end route).

(** src: routing/routing.go ContainsVSlot *)
Definition ContainsVSlot (route : RouteBody) (vslot : Z) : bool :=
  let '(start, stop) := normalizedRange route in
  (start <=? vslot) && (vslot <=? stop).

(** src: routing/routing.go selectable *)
Definition selectable (route : RouteBody) (vslot : Z) : bool :=
  negb (bool_decide (rt_addr route = "")) && ContainsVSlot route vslot.

(** src: routing/routing.go routeCandidates *)
Record routeCandidates := mkCandidates {
  namespaceMatch : option RouteBody;
  wildcard : option RouteBody
}.

(** src: routing/routing.go add *)
Definition add (c : routeCandidates) (kind : matchKind) (route : RouteBody) : routeCandidates :=
  match kind with
  | namespaceRoute =>
      match namespaceMatch c with
      | None => mkCandidates (Some route) (wildcard c)
      | Some _ => c
      end
  | wildcardRoute =>
      match wildcard c with
      | None => mkCandidates (namespaceMatch c) (Some route)
      | Some _ => c
      end
  | exactRoute | noRoute => c
  end.

(** src: routing/routing.go firstRoute *)
Fixpoint firstRoute (routes : list (option RouteBody)) : option RouteBody :=
  match routes with
  | [] => None
  | Some route :: _ => Some route
  | None :: rest => firstRoute rest
  end.

(** The loop of [Select]: the exact route, or the candidates.
    src: routing/routing.go Select 23-32 *)
Fixpoint selectLoop (routes : list RouteBody) (vslot : Z) (namespace space : string)
    (candidates : routeCandidates) : RouteBody + routeCandidates :=
  match routes with
  | [] => inr candidates
  | route :: rest =>
      if negb (selectable route vslot) then selectLoop rest vslot namespace space candidates
      else match routeMatch route namespace space with
           | exactRoute => inl route
           | kind => selectLoop rest vslot namespace space (add candidates kind route)
           end
  end.

(** src: routing/routing.go Select *)
Definition Select (routes : list RouteBody) (namespace space key : string) : option RouteBody :=
  let vslot := VSlotFor namespace space key in
  match selectLoop routes vslot namespace space (mkCandidates None None) with
  | inl route => Some route
  | inr candidates => firstRoute [namespaceMatch candidates; wildcard candidates]
  end.

(** src: routing/routing.go NamespaceVersion *)
Definition NamespaceVersion (namespaces : list NamespaceBody) (namespace : string) : option Z :=
  match namespaces with
  | [] => Some 0
  | _ => match list_find (fun item => ns_namespace item = namespace) namespaces with
         | Some (_, item) => Some (ns_version item)
         | None => None
         end
  end.

(** src: routing/routing.go SpaceVersion *)
Definition SpaceVersion (spaces : list SpaceBody) (namespace space : string) : option Z :=
  match spaces with
  | [] => Some 0
  | _ => match list_find (fun item => sp_namespace item = namespace /\ sp_space item = space) spaces with
         | Some (_, item) => Some (sp_version item)
         | None => None
         end
  end.

(** ** Specification

    The first route of the list that covers the slot and matches with a kind. *)
Definition isKind (k : matchKind) (route : RouteBody) (namespace space : string) : bool :=
  match k, routeMatch route namespace space with
  | exactRoute, exactRoute | namespaceRoute, namespaceRoute
  | wildcardRoute, wildcardRoute | noRoute, noRoute => true
  | _, _ => false
  end.

Definition firstOfKind (k : matchKind) (routes : list RouteBody) (vslot : Z)
    (namespace space : string) : option RouteBody :=
  snd <$> list_find (fun r => selectable r vslot && isKind k r namespace space = true) routes.

Definition orElse {A} (a b : option A) : option A :=
  match a with Some x => Some x | None => b end.

(** ** Lemmas *)

Lemma VSlotFor_range namespace space key : 0 <= VSlotFor namespace space key <= VSlotMax.
Proof.
  unfold VSlotFor, VSlotMax, VSlotCount.
  set (h := writeHashPart _ key).
  pose proof (Z.mod_pos_bound h 65536 ltac:(lia)).
  rewrite u32_small by (unfold is_u32; lia). lia.
Qed.

Lemma firstOfKind_cons k r routes vslot namespace space :
  firstOfKind k (r :: routes) vslot namespace space
  = if selectable r vslot && isKind k r namespace space then Some r
    else firstOfKind k routes vslot namespace space.
Proof.
  unfold firstOfKind. simpl. case_decide as Hd.
  - by rewrite Hd.
  - destruct (selectable r vslot && isKind k r namespace space); [done|].
    destruct (list_find _ routes) as [[i x]|]; done.
Qed.

Lemma selectLoop_spec routes vslot namespace space c :
  match selectLoop routes vslot namespace space c with
  | inl r => firstOfKind exactRoute routes vslot namespace space = Some r
  | inr c' =>
      firstOfKind exactRoute routes vslot namespace space = None /\
      namespaceMatch c' = orElse (namespaceMatch c) (firstOfKind namespaceRoute routes vslot namespace space) /\
      wildcard c' = orElse (wildcard c) (firstOfKind wildcardRoute routes vslot namespace space)
  end.
Proof.
  revert c; induction routes as [|r routes IH]; intros c; simpl.
  - by destruct c as [[|] [|]].
  - rewrite !firstOfKind_cons. unfold isKind.
    destruct (selectable r vslot); simpl; [|apply IH].
    destruct (routeMatch r namespace space); simpl; try done; try apply IH.
    + specialize (IH (add c namespaceRoute r)).
      destruct (selectLoop _ _ _ _ _); [done|]. destruct IH as (? & -> & ->).
      by destruct c as [[|] [|]].
    + specialize (IH (add c wildcardRoute r)).
      destruct (selectLoop _ _ _ _ _); [done|]. destruct IH as (? & -> & ->).
      by destruct c as [[|] [|]].
Qed.

Lemma firstOfKind_some k routes vslot namespace space r :
  firstOfKind k routes vslot namespace space = Some r ->
  r ∈ routes /\ selectable r vslot = true /\ isKind k r namespace space = true.
Proof.
  unfold firstOfKind. destruct (list_find _ routes) as [[i x]|] eqn:E; [|done].
  intros [= ->]. apply list_find_Some in E as (Hi & Hb & _).
  apply andb_prop in Hb as [? ?]. eauto using list_elem_of_lookup_2.
Qed.

Lemma firstOfKind_none k routes vslot namespace space :
  firstOfKind k routes vslot namespace space = None ->
  forall r, r ∈ routes -> selectable r vslot = true -> isKind k r namespace space = false.
Proof.
  unfold firstOfKind. destruct (list_find _ routes) as [[i x]|] eqn:E; [done|].
  intros _ r Hr Hs. apply list_find_None in E. rewrite Forall_forall in E.
  specialize (E r Hr). rewrite Hs in E. simpl in E. by destruct (isKind k r namespace space).
Qed.

(** ** Properties *)

(** [Select] is the declarative choice: the first covering route of the exact
    space, else of the namespace, else the first covering wildcard route. *)
Theorem select_spec routes namespace space key :
  Select routes namespace space key =
  let vslot := VSlotFor namespace space key in
  orElse (firstOfKind exactRoute routes vslot namespace space)
    (orElse (firstOfKind namespaceRoute routes vslot namespace space)
            (firstOfKind wildcardRoute routes vslot namespace space)).
Proof.
  unfold Select. cbv zeta.
  pose proof (selectLoop_spec routes (VSlotFor namespace space key) namespace space (mkCandidates None None)) as H.
  destruct (selectLoop _ _ _ _ _) as [r|c']; [by rewrite H|].
  destruct H as (-> & Hn & Hw). simpl. rewrite Hn, Hw. simpl.
  destruct (firstOfKind namespaceRoute _ _ _ _); [done|].
  by destruct (firstOfKind wildcardRoute _ _ _ _).
Qed.

(** The selected route is one of the routes, has an address, covers the slot
    of the key (a slot below 65536) and belongs to the space, the namespace or
    everything. *)
Theorem select_sound routes namespace space key r :
  Select routes namespace space key = Some r ->
  r ∈ routes /\ rt_addr r <> "" /\
  0 <= VSlotFor namespace space key <= VSlotMax /\
  ContainsVSlot r (VSlotFor namespace space key) = true /\
  routeMatch r namespace space <> noRoute.
Proof.
  unfold Select.
  pose proof (selectLoop_spec routes (VSlotFor namespace space key) namespace space (mkCandidates None None)) as H.
  intros Hs.
  assert (exists k, k <> noRoute /\ firstOfKind k routes (VSlotFor namespace space key) namespace space = Some r)
    as (k & Hk & Hf).
  { destruct (selectLoop _ _ _ _ _) as [r'|c'].
    - exists exactRoute. split; congruence.
    - destruct H as (_ & Hn & Hw). simpl in *. rewrite Hn, Hw in Hs.
      destruct (firstOfKind namespaceRoute _ _ _ _) eqn:En.
      + exists namespaceRoute. split; congruence.
      + destruct (firstOfKind wildcardRoute _ _ _ _) eqn:Ew; [|done].
        exists wildcardRoute. split; congruence. }
  apply firstOfKind_some in Hf as (Hin & Hsel & Hkind).
  unfold selectable in Hsel. apply andb_prop in Hsel as [Ha Hc]. bool_to_prop.
  split; [done|]. split; [done|]. split; [apply VSlotFor_range|]. split; [done|].
  intros Hno. unfold isKind in Hkind. rewrite Hno in Hkind. by destruct k.
Qed.

(** ** Witnesses *)

Definition sample_routes : list RouteBody :=
  [ mkRoute "" "" 0 0 "n0" "10.0.0.1:7403" 1 [];
    mkRoute "orders" "" 0 65535 "n1" "10.0.0.2:7403" 1 [];
    mkRoute "orders" "session" 0 65535 "n2" "10.0.0.3:7403" 1 [] ].

Lemma select_sound_witness :
  let r := mkRoute "orders" "session" 0 65535 "n2" "10.0.0.3:7403" 1 [] in
  r ∈ sample_routes /\ rt_addr r <> "" /\
  0 <= VSlotFor "orders" "session" "k" <= VSlotMax /\
  ContainsVSlot r (VSlotFor "orders" "session" "k") = true /\
  routeMatch r "orders" "session" <> noRoute.
Proof. apply (select_sound sample_routes "orders" "session" "k"). vm_compute. reflexivity. Defined.
