(* ===== verification/EngineTypes.v ===== *)
(** * Data of the storage engine (cache/engine: engine.go, entry.go, primitive_types.go)

    Keys, options, entries, records, shard state, shard commands and results.
    A struct is a record with the struct's fields; an [uint8] enumeration is an
    inductive type.  A Go [*entry] is the entry itself: the engine keeps each
    pointer in one slot of one shard's map and copies values out of it, so the
    model updates the slot. *)

From S2P Require Import Prelude.
From S2P Require Import Binary.
From Stdlib Require Export SpecFloat.

Local Open Scope Z_scope.

(** ** Errors *)

(** src: cache/engine/engine.go ErrInvalidKey 13-25 *)
Inductive engineError :=
| ErrInvalidKey
| ErrNotFound
| ErrClosed
| ErrNilContext
| ErrInvalidCounter
| ErrInvalidPrimitive
| ErrInvalidCollection
| ErrUnknownShardCommand.

(** ** Keys and options *)

(** src: cache/engine/engine.go Key *)
Record Key := mkKey {
  k_namespace : string;
  k_space : string;
  k_entity : string;
  k_key : string
}.

#[global] Instance Key_eq_dec : EqDecision Key.
Proof. solve_decision. Defined.

Definition zeroKey : Key := mkKey "" "" "" "".

(** src: cache/engine/engine.go SetOptions *)
Record SetOptions := mkSetOptions {
  so_ttl : Duration;
  so_namespaceVersion : Z;
  so_spaceVersion : Z;
  so_expectedVersion : Z
}.

(** src: cache/engine/engine.go GetOptions *)
Record GetOptions := mkGetOptions {
  go_namespaceVersion : Z;
  go_spaceVersion : Z
}.

(** src: cache/engine/engine.go TouchOptions *)
Record TouchOptions := mkTouchOptions {
  to_ttl : Duration;
  to_namespaceVersion : Z;
  to_spaceVersion : Z;
  to_expectedVersion : Z
}.

(** src: cache/engine/engine.go AdjustOptions *)
Record AdjustOptions := mkAdjustOptions {
  ao_delta : Z;
  ao_initialValue : Z;
  ao_ttl : Duration;
  ao_namespaceVersion : Z;
  ao_spaceVersion : Z;
  ao_expectedVersion : Z
}.

(** src: cache/engine/engine.go DeleteOptions *)
Record DeleteOptions := mkDeleteOptions { do_expectedVersion : Z }.

(** src: cache/engine/engine.go EvictOptions *)
Record EvictOptions := mkEvictOptions {
  eo_namespace : string;
  eo_space : string;
  eo_targetBytes : Z;
  eo_exclude : Key;
  eo_excludeActive : bool;
  eo_now : Time
}.

(** src: cache/engine/engine.go EvictResult *)
Record EvictResult := mkEvictResult {
  er_requestedBytes : Z;
  er_freedBytes : Z;
  er_evictedObjects : Z
}.

(** src: cache/engine/migration_types.go RangeOptions *)
Record RangeOptions := mkRangeOptions {
  ro_namespace : string;
  ro_space : string;
  ro_vslotStart : Z;
  ro_vslotEnd : Z;
  ro_now : Time
}.

(** ** Entries and records *)

(** src: cache/engine/engine.go entry *)
Record entry := mkEntry {
  e_key : Key;
  e_value : list byte;
  e_version : Z;
  e_namespaceVersion : Z;
  e_spaceVersion : Z;
  e_expireAt : Time;
  e_createdAt : Time;
  e_updatedAt : Time;
  e_lastAccessAt : Time;
  e_accessCount : Z;
  e_costBytes : Z
}.

(** The struct [Record] of engine.go.
    src: cache/engine/engine.go Record *)
Record CacheRecord := mkRecord {
  r_key : Key;
  r_value : list byte;
  r_costBytes : Z;
  r_version : Z;
  r_namespaceVersion : Z;
  r_spaceVersion : Z;
  r_expireAt : Time;
  r_createdAt : Time;
  r_updatedAt : Time;
  r_lastAccessAt : Time;
  r_accessCount : Z
}.

Definition zeroRecord : CacheRecord :=
  mkRecord zeroKey [] 0 0 0 0 zeroTime zeroTime zeroTime zeroTime 0.

(** src: cache/engine/snapshot_types.go SnapshotEntry *)
Record SnapshotEntry := mkSnapshotEntry {
  se_key : Key;
  se_value : list byte;
  se_version : Z;
  se_namespaceVersion : Z;
  se_spaceVersion : Z;
  se_expireAt : Time;
  se_createdAt : Time;
  se_updatedAt : Time;
  se_lastAccessAt : Time;
  se_accessCount : Z
}.

(** ** Statistics *)

(** src: cache/engine/engine.go spaceKey *)
Record spaceKey := mkSpaceKey { sk_namespace : string; sk_space : string }.

#[global] Instance spaceKey_eq_dec : EqDecision spaceKey.
Proof. solve_decision. Defined.

#[global] Program Instance spaceKey_countable : Countable spaceKey :=
  inj_countable' (fun k => (sk_namespace k, sk_space k)) (fun p => mkSpaceKey p.1 p.2) _.
Next Obligation. by intros []. Qed.

(** src: cache/engine/engine.go spaceUsage *)
Record spaceUsage := mkSpaceUsage { su_objects : Z; su_memoryBytes : Z }.

Definition zeroUsage : spaceUsage := mkSpaceUsage 0 0.

(** src: cache/engine/engine.go ShardStats *)
Record ShardStats := mkShardStats {
  ss_id : Z;
  ss_objects : Z;
  ss_memoryBytes : Z;
  ss_evictions : Z;
  ss_getRequests : Z;
  ss_getHits : Z;
  ss_getMisses : Z;
  ss_getExpired : Z;
  ss_touchRequests : Z;
  ss_touchHits : Z;
  ss_touchMisses : Z;
  ss_queueDepth : Z
}.

(** src: cache/engine/engine.go SpaceStats *)
Record SpaceStats := mkSpaceStats {
  sps_namespace : string;
  sps_space : string;
  sps_objects : Z;
  sps_memoryBytes : Z
}.

(** src: cache/engine/engine.go Stats *)
Record Stats := mkStats {
  st_objects : Z;
  st_memoryBytes : Z;
  st_evictions : Z;
  st_getRequests : Z;
  st_getHits : Z;
  st_getMisses : Z;
  st_getExpired : Z;
  st_touchRequests : Z;
  st_touchHits : Z;
  st_touchMisses : Z;
  st_shards : list ShardStats;
  st_spaces : list SpaceStats
}.

Definition zeroShardStats : ShardStats := mkShardStats 0 0 0 0 0 0 0 0 0 0 0 0.
Definition zeroStats : Stats := mkStats 0 0 0 0 0 0 0 0 0 0 [] [].

(** ** Primitives *)

(** src: cache/engine/primitive_types.go PrimitiveKind 5-35 *)
Inductive PrimitiveKind :=
| PrimitiveCounterAdjust
| PrimitiveMapSet
| PrimitiveMapGet
| PrimitiveMapDelete
| PrimitiveMapGetAll
| PrimitiveSetAdd
| PrimitiveSetRemove
| PrimitiveSetContains
| PrimitiveSetMembers
| PrimitiveScoredSetPut
| PrimitiveScoredSetRemove
| PrimitiveScoredSetRange
| PrimitiveListPushFront
| PrimitiveListPushBack
| PrimitiveListPopFront
| PrimitiveListPopBack
| PrimitiveListRange
| PrimitiveBitmapSetBit
| PrimitiveBitmapGetBit
| PrimitiveBitmapBitCount
| PrimitiveHLLAdd
| PrimitiveHLLCount
| PrimitiveHLLMerge
| PrimitiveHLLMembers
| PrimitiveGeoAdd
| PrimitiveGeoDist
| PrimitiveGeoRadius
| PrimitiveUnknown (code : Z).

#[global] Instance PrimitiveKind_eq_dec : EqDecision PrimitiveKind.
Proof. solve_decision. Defined.

(** A Go [float64] is a [spec_float] of Stdlib's SpecFloat, whose comparisons
    are IEEE 754's. *)
Abbreviation float64 := spec_float.

(** src: cache/engine/primitive_types.go PrimitiveOptions *)
Record PrimitiveOptions := mkPrimitiveOptions {
  po_ttl : Duration;
  po_namespaceVersion : Z;
  po_spaceVersion : Z;
  po_expectedVersion : Z
}.

(** src: cache/engine/primitive_types.go PrimitiveRequest *)
Record PrimitiveRequest := mkPrimitiveRequest {
  pr_kind : PrimitiveKind;
  pr_key : Key;
  pr_options : PrimitiveOptions;
  pr_field : string;
  pr_member : string;
  pr_value : list byte;
  pr_delta : Z;
  pr_initialValue : Z;
  pr_score : float64;
  pr_minScore : float64;
  pr_maxScore : float64;
  pr_hasMinScore : bool;
  pr_hasMaxScore : bool;
  pr_limit : Z;
  pr_start : Z;
  pr_reverse : bool
}.

(** src: cache/engine/primitive_types.go MapField *)
Record MapField := mkMapField { mf_field : string; mf_value : list byte }.

(** src: cache/engine/primitive_types.go ScoredMember *)
Record ScoredMember := mkScoredMember { sm_member : string; sm_score : float64 }.

(** src: cache/engine/primitive_types.go GeoPoint *)
Record GeoPoint := mkGeoPoint { gp_longitude : float64; gp_latitude : float64 }.

(** src: cache/engine/primitive_types.go PrimitiveResult *)
Record PrimitiveResult := mkPrimitiveResult {
  pres_record : CacheRecord;
  pres_found : bool;
  pres_applied : bool;
  pres_value : list byte;
  pres_bool : bool;
  pres_count : Z;
  pres_fields : list MapField;
  pres_members : list string;
  pres_scoredMembers : list ScoredMember;
  pres_values : list (list byte)
}.

Definition zeroPrimitiveResult : PrimitiveResult :=
  mkPrimitiveResult zeroRecord false false [] false 0 [] [] [] [].

(** src: cache/engine/primitive_types.go WriteEstimate *)
Record WriteEstimate := mkWriteEstimate {
  we_key : Key;
  we_applied : bool;
  we_oldCostBytes : Z;
  we_newCostBytes : Z
}.

Definition zeroEstimate : WriteEstimate := mkWriteEstimate zeroKey false 0 0.

(** ** Shards *)

(** The channel of commands is the caller's: it belongs to the queue model.
    src: cache/engine/engine.go shardWorker *)
Record shardWorker := mkShard {
  sw_id : Z;
  sw_entries : gmap string entry;
  sw_spaces : gmap spaceKey spaceUsage;
  sw_objects : Z;
  sw_memoryBytes : Z;
  sw_evictions : Z;
  sw_gets : Z;
  sw_getHits : Z;
  sw_getMisses : Z;
  sw_getExpired : Z;
  sw_touches : Z;
  sw_touchHits : Z;
  sw_touchMisses : Z
}.

(** src: cache/engine/engine.go commandKind 197-216 *)
Inductive commandKind :=
| commandSet
| commandGet
| commandDelete
| commandTouch
| commandAdjust
| commandAdjustEstimate
| commandPrimitive
| commandPrimitiveEstimate
| commandStats
| commandSnapshot
| commandRestore
| commandExport
| commandImport
| commandDeleteRange
| commandSweep
| commandEvict.

(** src: cache/engine/engine.go shardCommand *)
Record shardCommand := mkCommand {
  c_kind : commandKind;
  c_physical : string;
  c_key : Key;
  c_value : list byte;
  c_setOpts : SetOptions;
  c_getOpts : GetOptions;
  c_touch : TouchOptions;
  c_adjust : AdjustOptions;
  c_primitive : PrimitiveRequest;
  c_deleteOpts : DeleteOptions;
  c_evict : EvictOptions;
  c_rangeOpts : RangeOptions;
  c_snapshot : list SnapshotEntry;
  c_now : Time
}.

(** src: cache/engine/engine.go shardResult *)
Record shardResult := mkResult {
  res_record : CacheRecord;
  res_found : bool;
  res_deleted : bool;
  res_touched : bool;
  res_primitive : PrimitiveResult;
  res_estimate : WriteEstimate;
  res_stats : ShardStats;
  res_spaces : gmap spaceKey spaceUsage;
  res_snapshot : list SnapshotEntry;
  res_imported : Z;
  res_deletedRange : Z;
  res_swept : Z;
  res_evicted : EvictResult;
  res_err : option engineError
}.

(** Field updates of a shard. *)
Definition set_entries (v : gmap string entry) (s : shardWorker) : shardWorker :=
  mkShard (sw_id s) v (sw_spaces s) (sw_objects s) (sw_memoryBytes s) (sw_evictions s) (sw_gets s) (sw_getHits s) (sw_getMisses s) (sw_getExpired s) (sw_touches s) (sw_touchHits s) (sw_touchMisses s).
Definition set_spaces (v : gmap spaceKey spaceUsage) (s : shardWorker) : shardWorker :=
  mkShard (sw_id s) (sw_entries s) v (sw_objects s) (sw_memoryBytes s) (sw_evictions s) (sw_gets s) (sw_getHits s) (sw_getMisses s) (sw_getExpired s) (sw_touches s) (sw_touchHits s) (sw_touchMisses s).
Definition set_objects (v : Z) (s : shardWorker) : shardWorker :=
  mkShard (sw_id s) (sw_entries s) (sw_spaces s) v (sw_memoryBytes s) (sw_evictions s) (sw_gets s) (sw_getHits s) (sw_getMisses s) (sw_getExpired s) (sw_touches s) (sw_touchHits s) (sw_touchMisses s).
Definition set_memoryBytes (v : Z) (s : shardWorker) : shardWorker :=
  mkShard (sw_id s) (sw_entries s) (sw_spaces s) (sw_objects s) v (sw_evictions s) (sw_gets s) (sw_getHits s) (sw_getMisses s) (sw_getExpired s) (sw_touches s) (sw_touchHits s) (sw_touchMisses s).
Definition set_evictions (v : Z) (s : shardWorker) : shardWorker :=
  mkShard (sw_id s) (sw_entries s) (sw_spaces s) (sw_objects s) (sw_memoryBytes s) v (sw_gets s) (sw_getHits s) (sw_getMisses s) (sw_getExpired s) (sw_touches s) (sw_touchHits s) (sw_touchMisses s).
Definition set_gets (v : Z) (s : shardWorker) : shardWorker :=
  mkShard (sw_id s) (sw_entries s) (sw_spaces s) (sw_objects s) (sw_memoryBytes s) (sw_evictions s) v (sw_getHits s) (sw_getMisses s) (sw_getExpired s) (sw_touches s) (sw_touchHits s) (sw_touchMisses s).
Definition set_getHits (v : Z) (s : shardWorker) : shardWorker :=
  mkShard (sw_id s) (sw_entries s) (sw_spaces s) (sw_objects s) (sw_memoryBytes s) (sw_evictions s) (sw_gets s) v (sw_getMisses s) (sw_getExpired s) (sw_touches s) (sw_touchHits s) (sw_touchMisses s).
Definition set_getMisses (v : Z) (s : shardWorker) : shardWorker :=
  mkShard (sw_id s) (sw_entries s) (sw_spaces s) (sw_objects s) (sw_memoryBytes s) (sw_evictions s) (sw_gets s) (sw_getHits s) v (sw_getExpired s) (sw_touches s) (sw_touchHits s) (sw_touchMisses s).
Definition set_getExpired (v : Z) (s : shardWorker) : shardWorker :=
  mkShard (sw_id s) (sw_entries s) (sw_spaces s) (sw_objects s) (sw_memoryBytes s) (sw_evictions s) (sw_gets s) (sw_getHits s) (sw_getMisses s) v (sw_touches s) (sw_touchHits s) (sw_touchMisses s).
Definition set_touches (v : Z) (s : shardWorker) : shardWorker :=
  mkShard (sw_id s) (sw_entries s) (sw_spaces s) (sw_objects s) (sw_memoryBytes s) (sw_evictions s) (sw_gets s) (sw_getHits s) (sw_getMisses s) (sw_getExpired s) v (sw_touchHits s) (sw_touchMisses s).
Definition set_touchHits (v : Z) (s : shardWorker) : shardWorker :=
  mkShard (sw_id s) (sw_entries s) (sw_spaces s) (sw_objects s) (sw_memoryBytes s) (sw_evictions s) (sw_gets s) (sw_getHits s) (sw_getMisses s) (sw_getExpired s) (sw_touches s) v (sw_touchMisses s).
Definition set_touchMisses (v : Z) (s : shardWorker) : shardWorker :=
  mkShard (sw_id s) (sw_entries s) (sw_spaces s) (sw_objects s) (sw_memoryBytes s) (sw_evictions s) (sw_gets s) (sw_getHits s) (sw_getMisses s) (sw_getExpired s) (sw_touches s) (sw_touchHits s) v.

(** The zero [shardResult] and the composite literals the handlers build. *)
Definition zeroResult : shardResult :=
  mkResult zeroRecord false false false zeroPrimitiveResult zeroEstimate zeroShardStats ∅ [] 0 0 0 (mkEvictResult 0 0 0) None.
Definition resRecord (r : CacheRecord) : shardResult :=
  mkResult r true false false zeroPrimitiveResult zeroEstimate zeroShardStats ∅ [] 0 0 0 (mkEvictResult 0 0 0) None.
Definition resDeleted  : shardResult :=
  mkResult zeroRecord true true false zeroPrimitiveResult zeroEstimate zeroShardStats ∅ [] 0 0 0 (mkEvictResult 0 0 0) None.
Definition resTouched  : shardResult :=
  mkResult zeroRecord false false true zeroPrimitiveResult zeroEstimate zeroShardStats ∅ [] 0 0 0 (mkEvictResult 0 0 0) None.
Definition resErr (e : option engineError) : shardResult :=
  mkResult zeroRecord false false false zeroPrimitiveResult zeroEstimate zeroShardStats ∅ [] 0 0 0 (mkEvictResult 0 0 0) e.
Definition resPrimitive (p : PrimitiveResult) : shardResult :=
  mkResult zeroRecord false false false p zeroEstimate zeroShardStats ∅ [] 0 0 0 (mkEvictResult 0 0 0) None.
Definition resEstimate (w : WriteEstimate) : shardResult :=
  mkResult zeroRecord false false false zeroPrimitiveResult w zeroShardStats ∅ [] 0 0 0 (mkEvictResult 0 0 0) None.
Definition resErrEstimate (e : option engineError) (w : WriteEstimate) : shardResult :=
  mkResult zeroRecord false false false zeroPrimitiveResult w zeroShardStats ∅ [] 0 0 0 (mkEvictResult 0 0 0) e.
Definition resStats (st : ShardStats) (sp : gmap spaceKey spaceUsage) : shardResult :=
  mkResult zeroRecord false false false zeroPrimitiveResult zeroEstimate st sp [] 0 0 0 (mkEvictResult 0 0 0) None.
Definition resSnapshot (l : list SnapshotEntry) : shardResult :=
  mkResult zeroRecord false false false zeroPrimitiveResult zeroEstimate zeroShardStats ∅ l 0 0 0 (mkEvictResult 0 0 0) None.
Definition resImported (n : Z) (e : option engineError) : shardResult :=
  mkResult zeroRecord false false false zeroPrimitiveResult zeroEstimate zeroShardStats ∅ [] n 0 0 (mkEvictResult 0 0 0) e.
Definition resDeletedRange (n : Z) : shardResult :=
  mkResult zeroRecord false false false zeroPrimitiveResult zeroEstimate zeroShardStats ∅ [] 0 n 0 (mkEvictResult 0 0 0) None.
Definition resSwept (n : Z) : shardResult :=
  mkResult zeroRecord false false false zeroPrimitiveResult zeroEstimate zeroShardStats ∅ [] 0 0 n (mkEvictResult 0 0 0) None.
Definition resEvicted (r : EvictResult) : shardResult :=
  mkResult zeroRecord false false false zeroPrimitiveResult zeroEstimate zeroShardStats ∅ [] 0 0 0 r None.

(** The zero command: the handlers fill the fields their kind uses. *)
Definition zeroPrimitiveRequest : PrimitiveRequest :=
  mkPrimitiveRequest (PrimitiveUnknown 0) zeroKey (mkPrimitiveOptions 0 0 0 0) "" "" [] 0 0
    (S754_zero false) (S754_zero false) (S754_zero false) false false 0 0 false.

Definition zeroCommand (k : commandKind) : shardCommand :=
  mkCommand k "" zeroKey [] (mkSetOptions 0 0 0 0) (mkGetOptions 0 0) (mkTouchOptions 0 0 0 0)
    (mkAdjustOptions 0 0 0 0 0 0) zeroPrimitiveRequest (mkDeleteOptions 0)
    (mkEvictOptions "" "" 0 zeroKey false zeroTime) (mkRangeOptions "" "" 0 0 zeroTime) [] zeroTime.
