(* ===== verification/Shard.v ===== *)
(** * The shard worker's key-value operations

    cache/engine: entry.go, worker.go, adjust.go, adjust_estimate.go,
    eviction.go, snapshot.go, snapshot_entry.go and migration.go, one shard at a
    time.  Every operation takes the shard and returns the shard it leaves. *)

From S2P Require Import Prelude.
From S2P Require Import Binary.
From S2P Require Import GoStrings.
From S2P Require Import Routing.
From S2P Require Import EngineTypes.

Local Open Scope Z_scope.
Local Open Scope nespa_scope.

(** ** entry.go *)

(** src: cache/engine/entry.go newEntry *)
Definition newEntry (cmd : shardCommand) (expireAt : Time) (cost : Z) : entry :=
  mkEntry (c_key cmd) (c_value cmd) 1
    (so_namespaceVersion (c_setOpts cmd)) (so_spaceVersion (c_setOpts cmd))
    expireAt (c_now cmd) (c_now cmd) (c_now cmd) 1 cost.

(** src: cache/engine/entry.go expired *)
Definition expired (e : entry) (now : Time) : bool :=
  negb (IsZero (e_expireAt e)) && negb (After (e_expireAt e) now).

(** src: cache/engine/entry.go visible *)
Definition visible (e : entry) (opts : GetOptions) : bool :=
  if negb (go_namespaceVersion opts =? 0) && negb (e_namespaceVersion e =? go_namespaceVersion opts)
  then false
  else if negb (go_spaceVersion opts =? 0) && negb (e_spaceVersion e =? go_spaceVersion opts)
  then false
  else true.

(** src: cache/engine/entry.go record *)
Definition record (e : entry) : CacheRecord :=
  mkRecord (e_key e) (e_value e) (e_costBytes e) (e_version e) (e_namespaceVersion e)
    (e_spaceVersion e) (e_expireAt e) (e_createdAt e) (e_updatedAt e) (e_lastAccessAt e)
    (e_accessCount e).

(** src: cache/engine/entry.go validateKey *)
Definition validateKey (key : Key) : option engineError :=
  if bool_decide (k_namespace key = "") || bool_decide (k_space key = "")
     || bool_decide (k_key key = "")
  then Some ErrInvalidKey else None.

(** src: cache/engine/entry.go appendKeyPart *)
Definition appendKeyPart (raw : list byte) (part : string) : list byte :=
  AppendUvarint raw (u64 (str_len part)) ++ str_bytes part.

(** src: cache/engine/entry.go physicalKey *)
Definition physicalKey (key : Key) : string :=
  let raw := [] in
  let raw := appendKeyPart raw (k_namespace key) in
  let raw := appendKeyPart raw (k_space key) in
  let raw := appendKeyPart raw (k_entity key) in
  let raw := appendKeyPart raw (k_key key) in
  bytes_str raw.

(** src: cache/engine/entry.go spaceKeyOf *)
Definition spaceKeyOf (key : Key) : spaceKey := mkSpaceKey (k_namespace key) (k_space key).

(** src: cache/engine/entry.go costOf *)
Definition costOf (key : Key) (value : list byte) : Z :=
  u64 (str_len (k_namespace key) + str_len (k_space key) + str_len (k_entity key)
       + str_len (k_key key) + zlen value).

(** src: cache/engine/entry.go EstimateCost *)
Definition EstimateCost (key : Key) (value : list byte) : Z := costOf key value.

(** ** worker.go: accounting *)

(** src: cache/engine/worker.go addSpaceUsage *)
Definition addSpaceUsage (key : spaceKey) (objects memoryBytes : Z) (s : shardWorker) : shardWorker :=
  let usage := default zeroUsage (sw_spaces s !! key) in
  let usage := mkSpaceUsage (su_objects usage +% objects) (su_memoryBytes usage +% memoryBytes) in
  set_spaces (<[key := usage]> (sw_spaces s)) s.

(** src: cache/engine/worker.go subtractSpaceUsage *)
Definition subtractSpaceUsage (key : spaceKey) (objects memoryBytes : Z) (s : shardWorker) : shardWorker :=
  let usage := default zeroUsage (sw_spaces s !! key) in
  let usage := mkSpaceUsage (su_objects usage -% objects) (su_memoryBytes usage -% memoryBytes) in
  if (su_objects usage =? 0) && (su_memoryBytes usage =? 0)
  then set_spaces (delete key (sw_spaces s)) s
  else set_spaces (<[key := usage]> (sw_spaces s)) s.

(** src: cache/engine/worker.go deleteEntry *)
Definition deleteEntry (physical : string) (ent : entry) (s : shardWorker) : shardWorker :=
  let s := set_entries (delete physical (sw_entries s)) s in
  let s := set_objects (sw_objects s -% 1) s in
  let s := set_memoryBytes (sw_memoryBytes s -% e_costBytes ent) s in
  subtractSpaceUsage (spaceKeyOf (e_key ent)) 1 (e_costBytes ent) s.

(** src: cache/engine/worker.go replaceEntryCost *)
Definition replaceEntryCost (key : Key) (oldCost cost : Z) (s : shardWorker) : shardWorker :=
  if oldCost <=? cost then
    let delta := cost -% oldCost in
    let s := set_memoryBytes (sw_memoryBytes s +% delta) s in
    addSpaceUsage (spaceKeyOf key) 0 delta s
  else
    let delta := oldCost -% cost in
    let s := set_memoryBytes (sw_memoryBytes s -% delta) s in
    subtractSpaceUsage (spaceKeyOf key) 0 delta s.

(** The insertion of a new entry: [entries.Set], [objects++], [memoryBytes +=]
    and [addSpaceUsage], as applySet, applyNewCounter, importEntry, restoreEntries
    and createPrimitiveEntry each write it.
    src: cache/engine/worker.go applySet 124-128 *)
Definition addEntry (physical : string) (ent : entry) (s : shardWorker) : shardWorker :=
  let s := set_entries (<[physical := ent]> (sw_entries s)) s in
  let s := set_objects (sw_objects s +% 1) s in
  let s := set_memoryBytes (sw_memoryBytes s +% e_costBytes ent) s in
  addSpaceUsage (spaceKeyOf (e_key ent)) 1 (e_costBytes ent) s.

(** A write through the [*entry] found at [physical]. *)
Definition storeEntry (physical : string) (ent : entry) (s : shardWorker) : shardWorker :=
  set_entries (<[physical := ent]> (sw_entries s)) s.

(** ** worker.go: set, get, delete, touch *)

(** src: cache/engine/worker.go replaceEntry *)
Definition replaceEntry (existing : entry) (cmd : shardCommand) (expireAt : Time) (cost : Z)
    (s : shardWorker) : shardWorker * entry :=
  let s := replaceEntryCost (e_key existing) (e_costBytes existing) cost s in
  let existing := mkEntry (e_key existing) (c_value cmd) (e_version existing +% 1)
      (so_namespaceVersion (c_setOpts cmd)) (so_spaceVersion (c_setOpts cmd))
      expireAt (e_createdAt existing) (c_now cmd) (c_now cmd)
      (e_accessCount existing +% 1) cost in
  (storeEntry (c_physical cmd) existing s, existing).

(** src: cache/engine/worker.go applySet *)
Definition applySet (s : shardWorker) (cmd : shardCommand) : shardWorker * shardResult :=
  let proceed :=
    if 0 <? so_expectedVersion (c_setOpts cmd) then
      match sw_entries s !! c_physical cmd with
      | Some existing => e_version existing =? so_expectedVersion (c_setOpts cmd)
      | None => false
      end
    else true in
  if negb proceed then (s, zeroResult)
  else
    let expireAt :=
      if 0 <? so_ttl (c_setOpts cmd) then TimeAdd (c_now cmd) (so_ttl (c_setOpts cmd)) else zeroTime in
    let cost := costOf (c_key cmd) (c_value cmd) in
    match sw_entries s !! c_physical cmd with
    | Some existing =>
        let '(s, ent) := replaceEntry existing cmd expireAt cost s in
        (s, resRecord (record ent))
    | None =>
        let ent := newEntry cmd expireAt cost in
        (addEntry (c_physical cmd) ent s, resRecord (record ent))
    end.

(** [ent.lastAccessAt = now; ent.accessCount++]. *)
Definition touchAccess (ent : entry) (now : Time) : entry :=
  mkEntry (e_key ent) (e_value ent) (e_version ent) (e_namespaceVersion ent) (e_spaceVersion ent)
    (e_expireAt ent) (e_createdAt ent) (e_updatedAt ent) now (e_accessCount ent +% 1)
    (e_costBytes ent).

(** src: cache/engine/worker.go applyGet *)
Definition applyGet (s : shardWorker) (cmd : shardCommand) : shardWorker * shardResult :=
  let s := set_gets (sw_gets s +% 1) s in
  match sw_entries s !! c_physical cmd with
  | None => (set_getMisses (sw_getMisses s +% 1) s, zeroResult)
  | Some ent =>
      if expired ent (c_now cmd) then
        let s := deleteEntry (c_physical cmd) ent s in
        let s := set_getExpired (sw_getExpired s +% 1) s in
        (set_getMisses (sw_getMisses s +% 1) s, zeroResult)
      else if negb (visible ent (c_getOpts cmd)) then
        (set_getMisses (sw_getMisses s +% 1) s, zeroResult)
      else
        let ent := touchAccess ent (c_now cmd) in
        let s := storeEntry (c_physical cmd) ent s in
        (set_getHits (sw_getHits s +% 1) s, resRecord (record ent))
  end.

(** src: cache/engine/worker.go applyDelete *)
Definition applyDelete (s : shardWorker) (cmd : shardCommand) : shardWorker * shardResult :=
  match sw_entries s !! c_physical cmd with
  | None => (s, zeroResult)
  | Some ent =>
      if (0 <? do_expectedVersion (c_deleteOpts cmd))
         && negb (e_version ent =? do_expectedVersion (c_deleteOpts cmd))
      then (s, zeroResult)
      else (deleteEntry (c_physical cmd) ent s, resDeleted)
  end.

(** src: cache/engine/worker.go applyTouch *)
Definition applyTouch (s : shardWorker) (cmd : shardCommand) : shardWorker * shardResult :=
  let s := set_touches (sw_touches s +% 1) s in
  let miss s := (set_touchMisses (sw_touchMisses s +% 1) s, zeroResult) in
  match sw_entries s !! c_physical cmd with
  | None => miss s
  | Some ent =>
      if to_ttl (c_touch cmd) <? 0 then miss s
      else if expired ent (c_now cmd) then miss (deleteEntry (c_physical cmd) ent s)
      else if (0 <? to_expectedVersion (c_touch cmd))
              && negb (e_version ent =? to_expectedVersion (c_touch cmd))
      then miss s
      else if negb (visible ent (mkGetOptions (to_namespaceVersion (c_touch cmd))
                                              (to_spaceVersion (c_touch cmd))))
      then miss s
      else
        let expireAt :=
          if 0 <? to_ttl (c_touch cmd) then TimeAdd (c_now cmd) (to_ttl (c_touch cmd)) else zeroTime in
        let ent := mkEntry (e_key ent) (e_value ent) (e_version ent) (e_namespaceVersion ent)
                     (e_spaceVersion ent) expireAt (e_createdAt ent) (c_now cmd) (c_now cmd)
                     (e_accessCount ent +% 1) (e_costBytes ent) in
        let s := storeEntry (c_physical cmd) ent s in
        (set_touchHits (sw_touchHits s +% 1) s, resTouched)
  end.

(** src: cache/engine/worker.go statsResult *)
Definition statsResult (s : shardWorker) (queueDepth : Z) : shardResult :=
  resStats (mkShardStats (sw_id s) (sw_objects s) (sw_memoryBytes s) (sw_evictions s) (sw_gets s)
              (sw_getHits s) (sw_getMisses s) (sw_getExpired s) (sw_touches s) (sw_touchHits s)
              (sw_touchMisses s) queueDepth)
    (sw_spaces s).

(** ** adjust.go: counters *)

(** [existing] and [exists] are one option: the entry is set exactly when it exists.
    src: cache/engine/adjust.go counterAdjustment *)
Record counterAdjustment := mkAdjustment {
  ca_existing : option entry;
  ca_next : Z;
  ca_expireAt : Time
}.

(** src: cache/engine/adjust.go safeAdd *)
Definition safeAdd (base delta : Z) : result engineError Z :=
  if (0 <? delta) && (s64 (maxInt64 - delta) <? base) then Err ErrInvalidCounter
  else if (delta <? 0) && (base <? s64 (minInt64 - delta)) then Err ErrInvalidCounter
  else Ok (s64 (base + delta)).

(** src: cache/engine/adjust.go addToCurrentCounter *)
Definition addToCurrentCounter (raw : list byte) (delta : Z) : result engineError Z :=
  let text := TrimSpace (bytes_str raw) in
  match ParseInt (str_bytes text) with
  | None => Err ErrInvalidCounter
  | Some current => safeAdd current delta
  end.

(** The adjustment, or [None] when it does not apply.
    src: cache/engine/adjust.go newCounterAdjustment *)
Definition newCounterAdjustment (cmd : shardCommand) : result engineError (option counterAdjustment) :=
  if 0 <? ao_expectedVersion (c_adjust cmd) then Ok None
  else match safeAdd (ao_initialValue (c_adjust cmd)) (ao_delta (c_adjust cmd)) with
  | Err e => Err e
  | Ok next =>
      let expireAt :=
        if 0 <? ao_ttl (c_adjust cmd) then TimeAdd (c_now cmd) (ao_ttl (c_adjust cmd)) else zeroTime in
      Ok (Some (mkAdjustment None next expireAt))
  end.

(** src: cache/engine/adjust.go prepareCounterAdjustment *)
Definition prepareCounterAdjustment (s : shardWorker) (cmd : shardCommand)
    : shardWorker * result engineError (option counterAdjustment) :=
  match sw_entries s !! c_physical cmd with
  | None => (s, newCounterAdjustment cmd)
  | Some existing =>
      if (0 <? ao_expectedVersion (c_adjust cmd))
         && negb (e_version existing =? ao_expectedVersion (c_adjust cmd))
      then (s, Ok None)
      else if expired existing (c_now cmd) then (deleteEntry (c_physical cmd) existing s, Ok None)
      else match addToCurrentCounter (e_value existing) (ao_delta (c_adjust cmd)) with
      | Err e => (s, Err e)
      | Ok next => (s, Ok (Some (mkAdjustment (Some existing) next (e_expireAt existing))))
      end
  end.

(** src: cache/engine/adjust.go applyExistingCounter *)
Definition applyExistingCounter (s : shardWorker) (cmd : shardCommand) (existing : entry)
    (adjustment : counterAdjustment) : shardWorker * shardResult :=
  let value := FormatInt (ca_next adjustment) in
  let cost := costOf (c_key cmd) value in
  let oldCost := e_costBytes existing in
  let existing := mkEntry (e_key existing) value (e_version existing +% 1)
      (ao_namespaceVersion (c_adjust cmd)) (ao_spaceVersion (c_adjust cmd))
      (ca_expireAt adjustment) (e_createdAt existing) (c_now cmd) (c_now cmd)
      (e_accessCount existing +% 1) cost in
  let s := storeEntry (c_physical cmd) existing s in
  let s := replaceEntryCost (c_key cmd) oldCost cost s in
  (s, resRecord (record existing)).

(** src: cache/engine/adjust.go applyNewCounter *)
Definition applyNewCounter (s : shardWorker) (cmd : shardCommand) (adjustment : counterAdjustment)
    : shardWorker * shardResult :=
  let value := FormatInt (ca_next adjustment) in
  let cost := costOf (c_key cmd) value in
  let ent := mkEntry (c_key cmd) value 1
      (ao_namespaceVersion (c_adjust cmd)) (ao_spaceVersion (c_adjust cmd))
      (ca_expireAt adjustment) (c_now cmd) (c_now cmd) (c_now cmd) 1 cost in
  (addEntry (c_physical cmd) ent s, resRecord (record ent)).

(** src: cache/engine/adjust.go applyAdjust *)
Definition applyAdjust (s : shardWorker) (cmd : shardCommand) : shardWorker * shardResult :=
  let '(s, r) := prepareCounterAdjustment s cmd in
  match r with
  | Err e => (s, resErr (Some e))
  | Ok None => (s, zeroResult)
  | Ok (Some adjustment) =>
      match ca_existing adjustment with
      | Some existing => applyExistingCounter s cmd existing adjustment
      | None => applyNewCounter s cmd adjustment
      end
  end.

(** src: cache/engine/primitive_estimate.go estimateWriteCost *)
Definition estimateWriteCost (cmd : shardCommand) (ent : option entry) (value : list byte) : WriteEstimate :=
  let oldCost := match ent with Some ent => e_costBytes ent | None => 0 end in
  mkWriteEstimate (c_key cmd) true oldCost (costOf (c_key cmd) value).

(** src: cache/engine/adjust_estimate.go applyAdjustEstimate *)
Definition applyAdjustEstimate (s : shardWorker) (cmd : shardCommand) : shardWorker * shardResult :=
  let '(s, r) := prepareCounterAdjustment s cmd in
  match r with
  | Err e => (s, resErrEstimate (Some e) (mkWriteEstimate (c_key cmd) false 0 0))
  | Ok None => (s, resErrEstimate None (mkWriteEstimate (c_key cmd) false 0 0))
  | Ok (Some adjustment) =>
      let value := FormatInt (ca_next adjustment) in
      (s, resEstimate (estimateWriteCost cmd (ca_existing adjustment) value))
  end.

(** ** eviction.go *)

(** src: cache/engine/eviction.go checkedUint64 *)
Definition checkedUint64 (value : Z) : Z := if value <? 0 then 0 else u64 value.

(** src: cache/engine/eviction.go compareTime *)
Definition compareTime (left right : Time) : Z :=
  if Before left right then -1 else if Before right left then 1 else 0.

(** The order of the eviction candidates: least recently used first, then
    oldest first.
    src: cache/engine/eviction.go evict 12-17 *)
Definition compareEviction (left right : entry) : Z :=
  if TimeEqual (e_lastAccessAt left) (e_lastAccessAt right)
  then compareTime (e_createdAt left) (e_createdAt right)
  else compareTime (e_lastAccessAt left) (e_lastAccessAt right).

Definition evict_le (left right : entry) : Prop := compareEviction left right <= 0.

#[global] Instance evict_le_dec left right : Decision (evict_le left right).
Proof. unfold evict_le. apply _. Defined.

(** src: cache/engine/eviction.go evictionCandidate *)
Definition evictionCandidate (ent : entry) (opts : EvictOptions) (physical excludePhysical : string) : bool :=
  if negb (bool_decide (excludePhysical = "")) && bool_decide (physical = excludePhysical) then false
  else bool_decide (k_namespace (e_key ent) = eo_namespace opts)
       && bool_decide (k_space (e_key ent) = eo_space opts).

(** src: cache/engine/eviction.go deleteExpired *)
Definition deleteExpired (expiredList : list (string * entry)) (s : shardWorker) : shardWorker :=
  foldl (fun s item => deleteEntry item.1 item.2 s) s expiredList.

(** [result.FreedBytes += cost; result.EvictedObjects++]. *)
Definition countEvicted (ent : entry) (result : EvictResult) : EvictResult :=
  mkEvictResult (er_requestedBytes result) (er_freedBytes result +% e_costBytes ent)
    (er_evictedObjects result +% 1).

Section Range.
  Context `{!RangeOrder}.

(** The candidates, with the expired entries already deleted and counted.
    src: cache/engine/eviction.go collectEvictionCandidates *)
Definition collectEvictionCandidates (opts : EvictOptions) (s : shardWorker) (result : EvictResult)
    : shardWorker * EvictResult * list entry :=
  let excludePhysical := if eo_excludeActive opts then physicalKey (eo_exclude opts) else "" in
  let '(result, expiredList, candidates) :=
    foldl (fun '(result, expiredList, candidates) '(physical, ent) =>
             if negb (evictionCandidate ent opts physical excludePhysical)
             then (result, expiredList, candidates)
             else if expired ent (eo_now opts)
             then (countEvicted ent result, expiredList ++ [(physical, ent)], candidates)
             else (result, expiredList, candidates ++ [ent]))
          (result, [], []) (range_order (sw_entries s)) in
  (deleteExpired expiredList s, result, candidates).

(** The loop of evictCandidates: stop once enough is freed.
    src: cache/engine/eviction.go evictCandidates 59-67 *)
Fixpoint evictLoop (candidates : list entry) (target : Z) (result : EvictResult) (s : shardWorker)
    : shardWorker * EvictResult :=
  match candidates with
  | [] => (s, result)
  | ent :: rest =>
      if target <=? er_freedBytes result then (s, result)
      else evictLoop rest target (countEvicted ent result)
             (deleteEntry (physicalKey (e_key ent)) ent s)
  end.

(** src: cache/engine/eviction.go evictCandidates *)
Definition evictCandidates (candidates : list entry) (target : Z) (result : EvictResult) (s : shardWorker)
    : shardWorker * EvictResult :=
  let '(s, result) := evictLoop candidates target result s in
  if 0 <? er_evictedObjects result
  then (set_evictions (sw_evictions s +% er_evictedObjects result) s, result)
  else (s, result).

(** src: cache/engine/eviction.go evict *)
Definition evict (opts : EvictOptions) (s : shardWorker) : shardWorker * EvictResult :=
  let result := mkEvictResult (eo_targetBytes opts) 0 0 in
  let '(s, result, candidates) := collectEvictionCandidates opts s result in
  let candidates := merge_sort evict_le candidates in
  evictCandidates candidates (eo_targetBytes opts) result s.

(** src: cache/engine/eviction.go sweepExpired *)
Definition sweepExpired (now : Time) (s : shardWorker) : shardWorker * Z :=
  let expiredList := filter (fun item => expired item.2 now = true) (range_order (sw_entries s)) in
  (deleteExpired expiredList s, checkedUint64 (zlen expiredList)).

(** ** snapshot.go and migration.go *)

(** src: cache/engine/migration.go snapshotEntryFromEntry *)
Definition snapshotEntryFromEntry (ent : entry) : SnapshotEntry :=
  mkSnapshotEntry (e_key ent) (e_value ent) (e_version ent) (e_namespaceVersion ent)
    (e_spaceVersion ent) (e_expireAt ent) (e_createdAt ent) (e_updatedAt ent)
    (e_lastAccessAt ent) (e_accessCount ent).

(** src: cache/engine/snapshot_entry.go entryFromSnapshot *)
Definition entryFromSnapshot (item : SnapshotEntry) : result engineError entry :=
  match validateKey (se_key item) with
  | Some e => Err e
  | None =>
      Ok (mkEntry (se_key item) (se_value item)
            (if se_version item =? 0 then 1 else se_version item)
            (se_namespaceVersion item) (se_spaceVersion item) (se_expireAt item)
            (se_createdAt item) (se_updatedAt item) (se_lastAccessAt item)
            (se_accessCount item) (costOf (se_key item) (se_value item)))
  end.

(** src: cache/engine/snapshot.go snapshotEntries *)
Definition snapshotEntries (s : shardWorker) : list SnapshotEntry :=
  (fun item => snapshotEntryFromEntry item.2) <$> range_order (sw_entries s).

(** src: cache/engine/migration.go entryInRange *)
Definition entryInRange (key : Key) (opts : RangeOptions) : bool :=
  if negb (bool_decide (k_namespace key = ro_namespace opts))
     || negb (bool_decide (k_space key = ro_space opts))
  then false
  else
    let slot := VSlotFor (k_namespace key) (k_space key) (k_key key) in
    (ro_vslotStart opts <=? slot) && (slot <=? ro_vslotEnd opts).

(** src: cache/engine/migration.go exportEntries *)
Definition exportEntries (opts : RangeOptions) (s : shardWorker) : list SnapshotEntry :=
  (fun item => snapshotEntryFromEntry item.2) <$>
  filter (fun item => expired item.2 (ro_now opts) || negb (entryInRange (e_key item.2) opts) = false)
    (range_order (sw_entries s)).

(** src: cache/engine/migration.go rangeDeleteTargets *)
Definition rangeDeleteTargets (opts : RangeOptions) (s : shardWorker) : list (string * entry) :=
  filter (fun item => entryInRange (e_key item.2) opts = true) (range_order (sw_entries s)).

(** src: cache/engine/migration.go deleteRange *)
Definition deleteRange (opts : RangeOptions) (s : shardWorker) : shardWorker * Z :=
  let targets := rangeDeleteTargets opts s in
  (foldl (fun s target => deleteEntry target.1 target.2 s) s targets, u64 (zlen targets)).
End Range.

(** src: cache/engine/migration.go shouldImportEntry *)
Definition shouldImportEntry (existing incoming : entry) : bool :=
  if negb (e_version incoming =? e_version existing)
  then e_version existing <? e_version incoming
  else After (e_updatedAt incoming) (e_updatedAt existing).

(** src: cache/engine/migration.go replaceImportedEntry *)
Definition replaceImportedEntry (physical : string) (existing ent : entry) (s : shardWorker)
    : shardWorker * bool :=
  if negb (shouldImportEntry existing ent) then (s, false)
  else
    let s := replaceEntryCost (e_key existing) (e_costBytes existing) (e_costBytes ent) s in
    (storeEntry physical ent s, true).

(** src: cache/engine/migration.go importEntry *)
Definition importEntry (item : SnapshotEntry) (s : shardWorker)
    : shardWorker * result engineError bool :=
  match entryFromSnapshot item with
  | Err e => (s, Err e)
  | Ok ent =>
      let physical := physicalKey (e_key ent) in
      match sw_entries s !! physical with
      | Some existing =>
          let '(s, ok) := replaceImportedEntry physical existing ent s in (s, Ok ok)
      | None => (addEntry physical ent s, Ok true)
      end
  end.

(** The shard, the number imported and the error that stopped the loop.
    src: cache/engine/migration.go importEntries *)
Fixpoint importEntries (entries : list SnapshotEntry) (s : shardWorker) (imported : Z)
    : shardWorker * Z * option engineError :=
  match entries with
  | [] => (s, imported, None)
  | item :: rest =>
      let '(s, r) := importEntry item s in
      match r with
      | Err e => (s, imported, Some e)
      | Ok true => importEntries rest s (imported +% 1)
      | Ok false => importEntries rest s imported
      end
  end.

(** The loop of restoreEntries.
    src: cache/engine/snapshot.go restoreEntries 157-168 *)
Fixpoint restoreLoop (entries : list SnapshotEntry) (s : shardWorker)
    : shardWorker * option engineError :=
  match entries with
  | [] => (s, None)
  | item :: rest =>
      match entryFromSnapshot item with
      | Err e => (s, Some e)
      | Ok ent => restoreLoop rest (addEntry (physicalKey (e_key ent)) ent s)
      end
  end.

Definition emptyShard (id : Z) : shardWorker := mkShard id ∅ ∅ 0 0 0 0 0 0 0 0 0 0.

(** src: cache/engine/snapshot.go restoreEntries *)
Definition restoreEntries (entries : list SnapshotEntry) (s : shardWorker)
    : shardWorker * option engineError :=
  restoreLoop entries (emptyShard (sw_id s)).
