(* ===== verification/ShardInv.v ===== *)
(** * Accounting invariant of a shard

    The counters a shard keeps beside its map (objects, bytes, per-space usage)
    are exactly the sums over its entries, every entry sits at the physical key
    of its key and costs what [costOf] says, and every operation of Shard.v
    keeps it so. *)

From S2P Require Import Prelude.
From S2P Require Import Binary.
From S2P Require Import GoStrings.
From S2P Require Import Routing.
From S2P Require Import EngineTypes.
From S2P Require Import Shard.

Local Open Scope Z_scope.
Local Open Scope nespa_scope.

(** ** Invariant *)

(** A Go string is shorter than 2^64 bytes. *)
Definition key_typed (k : Key) : Prop :=
  is_u64 (str_len (k_namespace k)) /\ is_u64 (str_len (k_space k)) /\
  is_u64 (str_len (k_entity k)) /\ is_u64 (str_len (k_key k)).

Definition key_ok (k : Key) : Prop := validateKey k = None /\ key_typed k.

Definition entry_ok (p : string) (e : entry) : Prop :=
  p = physicalKey (e_key e) /\ key_ok (e_key e) /\ e_costBytes e = costOf (e_key e) (e_value e).

Definition total_cost (m : gmap string entry) : Z := msum (fun _ e => e_costBytes e) m.

Definition in_space (k : spaceKey) (e : entry) : bool := bool_decide (spaceKeyOf (e_key e) = k).

Definition space_count (k : spaceKey) (m : gmap string entry) : Z :=
  msum (fun _ e => if in_space k e then 1 else 0) m.

Definition space_cost (k : spaceKey) (m : gmap string entry) : Z :=
  msum (fun _ e => if in_space k e then e_costBytes e else 0) m.

(** The shard's totals fit the 64-bit counters. *)
Definition fits (m : gmap string entry) : Prop :=
  Z.of_nat (size m) < 2 ^ 64 /\ total_cost m < 2 ^ 64.

Definition entries_ok (m : gmap string entry) : Prop :=
  forall p e, m !! p = Some e -> entry_ok p e.

Definition usage_of (k : spaceKey) (m : gmap string entry) : option spaceUsage :=
  if space_count k m =? 0 then None
  else Some (mkSpaceUsage (space_count k m) (space_cost k m)).

Record shard_inv (s : shardWorker) : Prop := {
  inv_entries : entries_ok (sw_entries s);
  inv_fits : fits (sw_entries s);
  inv_objects : sw_objects s = Z.of_nat (size (sw_entries s));
  inv_memory : sw_memoryBytes s = total_cost (sw_entries s);
  inv_spaces : forall k, sw_spaces s !! k = usage_of k (sw_entries s)
}.

(** A command that names a key names it by its physical key. *)
Definition cmd_ok (cmd : shardCommand) : Prop :=
  c_physical cmd = physicalKey (c_key cmd) /\ key_ok (c_key cmd).

(** ** Physical keys *)

Lemma part_inj a b r r' :
  is_u64 (str_len a) -> is_u64 (str_len b) ->
  put_uvarint 9 (u64 (str_len a)) ++ str_bytes a ++ r
  = put_uvarint 9 (u64 (str_len b)) ++ str_bytes b ++ r' -> a = b /\ r = r'.
Proof.
  intros Ha Hb. pose proof (u64_small _ Ha) as ->. pose proof (u64_small _ Hb) as ->. intros E.
  pose proof (Uvarint_put _ (str_bytes a ++ r) Ha) as U1.
  pose proof (Uvarint_put _ (str_bytes b ++ r') Hb) as U2.
  rewrite E, U2 in U1. pose proof (f_equal fst U1) as El. cbn [fst] in El. rewrite El in E.
  apply app_inv_head in E.
  assert (length (str_bytes a) = length (str_bytes b)) as Hl.
  { rewrite !str_len_bytes in El. unfold zlen in El. lia. }
  apply app_inj_1 in E as [E1 E2]; [|done]. by apply str_bytes_inj in E1.
Qed.

Lemma physicalKey_unfold k : physicalKey k = bytes_str (
  put_uvarint 9 (u64 (str_len (k_namespace k))) ++ str_bytes (k_namespace k) ++
  put_uvarint 9 (u64 (str_len (k_space k))) ++ str_bytes (k_space k) ++
  put_uvarint 9 (u64 (str_len (k_entity k))) ++ str_bytes (k_entity k) ++
  put_uvarint 9 (u64 (str_len (k_key k))) ++ str_bytes (k_key k) ++ []).
Proof.
  unfold physicalKey, appendKeyPart, AppendUvarint. f_equal.
  by rewrite app_nil_l, app_nil_r, <- !app_assoc.
Qed.

(** Distinct keys have distinct physical keys. *)
Lemma physicalKey_inj k k' : key_typed k -> key_typed k' ->
  physicalKey k = physicalKey k' -> k = k'.
Proof.
  intros (H1 & H2 & H3 & H4) (H1' & H2' & H3' & H4'). rewrite !physicalKey_unfold.
  intros E%bytes_str_inj.
  apply part_inj in E as [E1 E]; [|assumption..].
  apply part_inj in E as [E2 E]; [|assumption..].
  apply part_inj in E as [E3 E]; [|assumption..].
  apply part_inj in E as [E4 _]; [|assumption..].
  destruct k, k'; simpl in *; congruence.
Qed.

Lemma physicalKey_nonempty k : physicalKey k <> "".
Proof.
  rewrite physicalKey_unfold. intros E. change "" with (bytes_str []) in E.
  apply bytes_str_inj, app_eq_nil in E as [E _].
  pose proof (zlen_put_uvarint_pos 9 (u64 (str_len (k_namespace k)))) as H.
  rewrite E in H. unfold zlen in H. cbn in H. lia.
Qed.

(** ** Sums *)

Lemma costOf_nonneg k v : 0 <= costOf k v < 2 ^ 64.
Proof. unfold costOf. apply u64_range. Qed.

Section Totals.
  Implicit Types m : gmap string entry.

Lemma cost_nonneg m p e : entries_ok m -> m !! p = Some e -> 0 <= e_costBytes e.
Proof. intros Hm He. destruct (Hm p e He) as (_ & _ & ->). apply costOf_nonneg. Qed.

Lemma total_cost_nonneg m : entries_ok m -> 0 <= total_cost m.
Proof. intros Hm. apply msum_nonneg. intros. by eapply cost_nonneg. Qed.

Lemma entries_ok_delete m p : entries_ok m -> entries_ok (delete p m).
Proof. intros Hm q e [_ H]%lookup_delete_Some. by apply Hm. Qed.

Lemma entries_ok_insert m p e : entries_ok m -> entry_ok p e -> entries_ok (<[p := e]> m).
Proof. intros Hm He q f [[<- <-]|[_ H]]%lookup_insert_Some; [done|by apply Hm]. Qed.

Lemma space_count_nonneg k m : 0 <= space_count k m.
Proof. apply msum_nonneg. intros. by case_match. Qed.

Lemma space_cost_nonneg k m : entries_ok m -> 0 <= space_cost k m.
Proof. intros Hm. apply msum_nonneg. intros p e He. case_match; [by eapply cost_nonneg|done]. Qed.

Lemma space_count_le k m : space_count k m <= Z.of_nat (size m).
Proof. rewrite <- msum_const_size. apply msum_le. intros. by case_match. Qed.

Lemma space_cost_le k m : entries_ok m -> space_cost k m <= total_cost m.
Proof.
  intros Hm. apply msum_le. intros p e He. pose proof (cost_nonneg m p e Hm He). case_match; lia.
Qed.

Lemma space_count_pos m p e : m !! p = Some e -> 1 <= space_count (spaceKeyOf (e_key e)) m.
Proof.
  intros He. unfold space_count. rewrite (msum_delete _ m p e He). unfold in_space at 1.
  rewrite bool_decide_eq_true_2 by done.
  pose proof (space_count_nonneg (spaceKeyOf (e_key e)) (delete p m)). unfold space_count in *. lia.
Qed.

Lemma space_count_zero k m : space_count k m = 0 -> space_cost k m = 0.
Proof.
  intros H. unfold space_cost. transitivity (msum (fun (_ : string) (_ : entry) => 0) m).
  - apply msum_ext. intros p e He. destruct (in_space k e) eqn:Ei; [|done].
    unfold in_space in Ei. bool_to_prop. pose proof (space_count_pos m p e He). subst. lia.
  - clear. induction m as [|p e m Hp IH] using map_ind; [apply msum_empty|].
    rewrite msum_insert_new by done. lia.
Qed.

Lemma fits_delete m p e : entries_ok m -> m !! p = Some e -> fits m -> fits (delete p m).
Proof.
  intros Hm He [Hs Hc]. split.
  - rewrite map_size_delete, He. simpl. lia.
  - unfold total_cost in *. rewrite (msum_delete _ m p e He) in Hc.
    pose proof (cost_nonneg m p e Hm He). lia.
Qed.

Lemma size_delete_Some m p e : m !! p = Some e ->
  Z.of_nat (size m) = Z.of_nat (size (delete p m)) + 1.
Proof.
  intros He. rewrite map_size_delete, He. simpl.
  assert (size m <> 0%nat); [|lia].
  intros E%map_size_empty_inv. subst. by rewrite lookup_empty in He.
Qed.
End Totals.

#[export] Hint Resolve entries_ok_delete entries_ok_insert total_cost_nonneg
  space_count_nonneg space_cost_nonneg : nespa.

(** ** The accounting steps *)

Lemma shard_inv_ext s t :
  sw_entries t = sw_entries s -> sw_spaces t = sw_spaces s -> sw_objects t = sw_objects s ->
  sw_memoryBytes t = sw_memoryBytes s -> shard_inv s -> shard_inv t.
Proof. intros E1 E2 E3 E4 []. constructor; rewrite ?E1, ?E2, ?E3, ?E4; done. Qed.

Lemma usage_default k s : shard_inv s ->
  default zeroUsage (sw_spaces s !! k)
  = mkSpaceUsage (space_count k (sw_entries s)) (space_cost k (sw_entries s)).
Proof.
  intros []. rewrite inv_spaces0. unfold usage_of.
  destruct (Z.eqb_spec (space_count k (sw_entries s)) 0) as [E|]; [|done].
  simpl. by rewrite E, space_count_zero.
Qed.

(** What one entry adds to a space's sums. *)
Definition unit_in (k : spaceKey) (e : entry) : Z := if in_space k e then 1 else 0.
Definition cost_in (k : spaceKey) (e : entry) : Z := if in_space k e then e_costBytes e else 0.

Section Steps.
  Implicit Types m : gmap string entry.

Lemma sums_delete k m p e : m !! p = Some e ->
  total_cost m = e_costBytes e + total_cost (delete p m) /\
  space_count k m = unit_in k e + space_count k (delete p m) /\
  space_cost k m = cost_in k e + space_cost k (delete p m).
Proof. intros He. split_and!; exact (msum_delete _ m p e He). Qed.

Lemma sums_insert k m p e : m !! p = None ->
  total_cost (<[p := e]> m) = e_costBytes e + total_cost m /\
  space_count k (<[p := e]> m) = unit_in k e + space_count k m /\
  space_cost k (<[p := e]> m) = cost_in k e + space_cost k m.
Proof. intros He. split_and!; exact (msum_insert_new _ m p e He). Qed.

Lemma sums_replace k m p e f : m !! p = Some e ->
  total_cost (<[p := f]> m) = total_cost m - e_costBytes e + e_costBytes f /\
  space_count k (<[p := f]> m) = space_count k m - unit_in k e + unit_in k f /\
  space_cost k (<[p := f]> m) = space_cost k m - cost_in k e + cost_in k f.
Proof. intros He. split_and!; exact (msum_replace _ m p f e He). Qed.

Lemma in_own_space e : in_space (spaceKeyOf (e_key e)) e = true.
Proof. by apply bool_decide_eq_true. Qed.

Lemma in_other_space k e : spaceKeyOf (e_key e) <> k -> in_space k e = false.
Proof. intros H. by apply bool_decide_eq_false. Qed.

Lemma usage_of_same k m m' : space_count k m = space_count k m' -> space_cost k m = space_cost k m' ->
  usage_of k m = usage_of k m'.
Proof. unfold usage_of. by intros -> ->. Qed.
End Steps.

Section Accounting.
  Implicit Types s : shardWorker.

Lemma addSpaceUsage_entries k o b s : sw_entries (addSpaceUsage k o b s) = sw_entries s.
Proof. done. Qed.

Lemma subtractSpaceUsage_entries k o b s : sw_entries (subtractSpaceUsage k o b s) = sw_entries s.
Proof. unfold subtractSpaceUsage. by case_bool. Qed.

Lemma subtractSpaceUsage_objects k o b s : sw_objects (subtractSpaceUsage k o b s) = sw_objects s.
Proof. unfold subtractSpaceUsage. by case_bool. Qed.

Lemma subtractSpaceUsage_memory k o b s : sw_memoryBytes (subtractSpaceUsage k o b s) = sw_memoryBytes s.
Proof. unfold subtractSpaceUsage. by case_bool. Qed.

Lemma deleteEntry_entries p e s : sw_entries (deleteEntry p e s) = delete p (sw_entries s).
Proof. unfold deleteEntry. by rewrite subtractSpaceUsage_entries. Qed.

Lemma replaceEntryCost_entries k o c s : sw_entries (replaceEntryCost k o c s) = sw_entries s.
Proof. unfold replaceEntryCost. case_bool; [done|]. by rewrite subtractSpaceUsage_entries. Qed.

(** [addSpaceUsage] and [subtractSpaceUsage] leave the usage of a map [m] when
    they add or subtract the difference from the shard's own sums to [m]'s. *)
Lemma addSpaceUsage_spaces k o b s m :
  default zeroUsage (sw_spaces s !! k) = mkSpaceUsage (space_count k m - o) (space_cost k m - b) ->
  is_u64 (space_count k m) -> is_u64 (space_cost k m) -> space_count k m <> 0 ->
  (forall k', k <> k' -> sw_spaces s !! k' = usage_of k' m) ->
  forall k', sw_spaces (addSpaceUsage k o b s) !! k' = usage_of k' m.
Proof.
  intros Hd Hc Hb Hz Ho k'. unfold addSpaceUsage. rewrite Hd. cbn [su_objects su_memoryBytes].
  rewrite !Z.sub_add, !u64_small by assumption.
  cbn [sw_spaces set_spaces]. destruct (decide (k = k')) as [<-|Hne].
  - rewrite lookup_insert_eq. unfold usage_of. by rewrite (proj2 (Z.eqb_neq _ _) Hz).
  - rewrite lookup_insert_ne by done. by apply Ho.
Qed.

Lemma subtractSpaceUsage_spaces k o b s m :
  default zeroUsage (sw_spaces s !! k) = mkSpaceUsage (space_count k m + o) (space_cost k m + b) ->
  is_u64 (space_count k m) -> is_u64 (space_cost k m) ->
  (forall k', k <> k' -> sw_spaces s !! k' = usage_of k' m) ->
  forall k', sw_spaces (subtractSpaceUsage k o b s) !! k' = usage_of k' m.
Proof.
  intros Hd Hc Hb Ho k'. unfold subtractSpaceUsage. rewrite Hd. cbn [su_objects su_memoryBytes].
  rewrite !Z.add_simpl_r, !u64_small by assumption.
  destruct (decide (k = k')) as [<-|Hne].
  - unfold usage_of. destruct (Z.eqb_spec (space_count k m) 0) as [E|E].
    + rewrite (space_count_zero _ _ E). cbn. by rewrite lookup_delete_eq.
    + cbn. by rewrite lookup_insert_eq.
  - case_bool; cbn; rewrite ?lookup_delete_ne, ?lookup_insert_ne by done; by apply Ho.
Qed.

Lemma space_count_u64 k m : fits m -> is_u64 (space_count k m).
Proof.
  intros [Hs _]. pose proof (space_count_nonneg k m). pose proof (space_count_le k m).
  unfold is_u64. lia.
Qed.

Lemma space_cost_u64 k m : entries_ok m -> fits m -> is_u64 (space_cost k m).
Proof.
  intros Hm [_ Hs]. pose proof (space_cost_nonneg k m Hm). pose proof (space_cost_le k m Hm).
  unfold is_u64. lia.
Qed.
End Accounting.

#[export] Hint Resolve space_count_u64 space_cost_u64 : nespa.

Lemma deleteEntry_inv s p e : shard_inv s -> sw_entries s !! p = Some e ->
  shard_inv (deleteEntry p e s).
Proof.
  intros Hi He. pose proof Hi as [Hm Hf Ho Hc Hs]. set (m := sw_entries s) in *.
  pose proof (entries_ok_delete m p Hm) as Hm'. pose proof (fits_delete m p e Hm He Hf) as Hf'.
  pose proof (size_delete_Some m p e He) as Hsz.
  constructor; rewrite ?deleteEntry_entries; fold m; try assumption.
  - unfold deleteEntry. rewrite subtractSpaceUsage_objects. cbn. rewrite Ho, u64_small; [lia|].
    destruct Hf'. unfold is_u64. lia.
  - unfold deleteEntry. rewrite subtractSpaceUsage_memory. cbn. rewrite Hc.
    destruct (sums_delete (spaceKeyOf (e_key e)) m p e He) as (-> & _ & _).
    rewrite Z.add_simpl_l, u64_small; [done|].
    destruct Hf'. pose proof (total_cost_nonneg _ Hm'). by unfold is_u64.
  - set (k := spaceKeyOf (e_key e)). destruct (sums_delete k m p e He) as (_ & E1 & E2).
    unfold unit_in, cost_in in *. unfold k in E1, E2. rewrite in_own_space in E1, E2. fold k in E1, E2.
    unfold deleteEntry. apply subtractSpaceUsage_spaces; [|by auto with nespa..|].
    + change (default zeroUsage (sw_spaces s !! k) = mkSpaceUsage (space_count k (delete p m) + 1) (space_cost k (delete p m) + e_costBytes e)).
      rewrite (usage_default k s Hi). fold m. f_equal; lia.
    + intros k' Hne. cbn. rewrite Hs. fold m. destruct (sums_delete k' m p e He) as (_ & E3 & E4).
      unfold unit_in, cost_in in E3, E4. rewrite in_other_space in E3, E4 by done.
      by apply usage_of_same.
Qed.

Lemma addEntry_inv s p e : shard_inv s -> sw_entries s !! p = None -> entry_ok p e ->
  fits (<[p := e]> (sw_entries s)) -> shard_inv (addEntry p e s).
Proof.
  intros Hi He Hok Hf'. pose proof Hi as [Hm Hf Ho Hc Hs]. set (m := sw_entries s) in *.
  pose proof (entries_ok_insert m p e Hm Hok) as Hm'.
  constructor; cbn [addEntry sw_entries set_entries set_objects set_memoryBytes addSpaceUsage set_spaces];
    fold m; try assumption.
  - cbn. rewrite Ho. fold m. rewrite map_size_insert_None by done.
    rewrite u64_small; [lia|]. destruct Hf' as [H _]. rewrite map_size_insert_None in H by done.
    unfold is_u64. lia.
  - cbn. rewrite Hc. fold m. destruct (sums_insert (spaceKeyOf (e_key e)) m p e He) as (E & _ & _).
    rewrite Z.add_comm, <- E, u64_small; [done|].
    destruct Hf'. pose proof (total_cost_nonneg _ Hm'). by unfold is_u64.
  - set (k := spaceKeyOf (e_key e)). destruct (sums_insert k m p e He) as (_ & E1 & E2).
    unfold unit_in, cost_in in *. unfold k in E1, E2. rewrite in_own_space in E1, E2. fold k in E1, E2.
    unfold addEntry. apply addSpaceUsage_spaces; [|by auto with nespa..| |].
    + change (default zeroUsage (sw_spaces s !! k) = mkSpaceUsage (space_count k (<[p := e]> m) - 1) (space_cost k (<[p := e]> m) - e_costBytes e)).
      rewrite (usage_default k s Hi). fold m. f_equal; lia.
    + fold k. pose proof (space_count_nonneg k m). lia.
    + intros k' Hne. cbn. rewrite Hs. fold m. destruct (sums_insert k' m p e He) as (_ & E3 & E4).
      unfold unit_in, cost_in in E3, E4. rewrite in_other_space in E3, E4 by done.
      by apply usage_of_same.
Qed.

Lemma size_replace (m : gmap string entry) p e f : m !! p = Some e -> size (<[p := f]> m) = size m.
Proof. intros He. by rewrite map_size_insert, He. Qed.

(** The accounting of a write through an entry pointer, in the order applySet
    and replaceImportedEntry use; applyExistingCounter's order gives the same
    shard. *)
Lemma replaceEntryCost_storeEntry k o c p f s :
  replaceEntryCost k o c (storeEntry p f s) = storeEntry p f (replaceEntryCost k o c s).
Proof. unfold replaceEntryCost, subtractSpaceUsage. cbn. repeat case_bool; done. Qed.

Lemma replace_inv s p e f : shard_inv s -> sw_entries s !! p = Some e -> entry_ok p f ->
  e_key f = e_key e -> fits (<[p := f]> (sw_entries s)) ->
  shard_inv (storeEntry p f (replaceEntryCost (e_key e) (e_costBytes e) (e_costBytes f) s)).
Proof.
  intros Hi He Hok Hk Hf'. pose proof Hi as [Hm Hf Ho Hc Hs]. set (m := sw_entries s) in *.
  pose proof (entries_ok_insert m p f Hm Hok) as Hm'. pose proof (cost_nonneg m p e Hm He) as Hce.
  set (k := spaceKeyOf (e_key e)).
  destruct (sums_replace k m p e f He) as (Et & E1 & E2).
  assert (in_space k e = true /\ in_space k f = true) as [I1 I2].
  { split; [apply in_own_space|]. unfold k. rewrite <- Hk. apply in_own_space. }
  unfold unit_in, cost_in in E1, E2. rewrite I1, I2 in E1, E2.
  pose proof (space_count_pos _ _ _ He) as Hpos. fold k in Hpos.
  pose proof (space_cost_u64 k _ Hm' Hf') as Hu'. pose proof (space_cost_u64 k _ Hm Hf) as Hu.
  pose proof (total_cost_nonneg _ Hm') as Ht'.
  assert (0 <= e_costBytes f < 2 ^ 64) as Hcf
    by (destruct Hok as (_ & _ & ->); apply costOf_nonneg).
  assert (e_costBytes e < 2 ^ 64) as Hce'
    by (destruct (Hm p e He) as (_ & _ & ->); apply costOf_nonneg).
  pose proof (usage_default k s Hi) as Hud.
  pose proof (space_count_u64 k _ Hf') as Hcu. destruct Hf' as [Hf1 Hf2].
  constructor; cbn [storeEntry set_entries sw_entries sw_objects sw_memoryBytes sw_spaces];
    rewrite ?replaceEntryCost_entries; fold m; try (by assumption).
  - by split.
  - rewrite (size_replace m p e f He), <- Ho. unfold replaceEntryCost.
    case_bool; [done|]. by rewrite subtractSpaceUsage_objects.
  - rewrite Et. unfold replaceEntryCost. case_bool; bool_to_prop; cbn [sw_memoryBytes set_memoryBytes].
    + cbn. rewrite Hc, (u64_small (e_costBytes f - _)), u64_small; unfold is_u64; lia.
    + rewrite subtractSpaceUsage_memory. cbn.
      rewrite Hc, (u64_small (e_costBytes e - _)), u64_small; unfold is_u64; lia.
  - assert (forall k', k <> k' -> sw_spaces s !! k' = usage_of k' (<[p := f]> m)) as Hother.
    { intros k' Hne. rewrite Hs. destruct (sums_replace k' m p e f He) as (_ & E3 & E4).
      unfold unit_in, cost_in in E3, E4.
      rewrite !in_other_space in E3, E4 by (rewrite ?Hk; done). apply usage_of_same; lia. }
    unfold replaceEntryCost. case_bool; bool_to_prop.
    + rewrite (u64_small (e_costBytes f - _)) by (unfold is_u64; lia).
      apply addSpaceUsage_spaces; [|assumption..|fold k; lia|exact Hother].
      cbn [sw_spaces set_memoryBytes]. fold k. rewrite Hud. fold m. f_equal; lia.
    + rewrite (u64_small (e_costBytes e - _)) by (unfold is_u64; lia).
      apply subtractSpaceUsage_spaces; [|assumption..|exact Hother].
      cbn [sw_spaces set_memoryBytes]. fold k. rewrite Hud. fold m. f_equal; lia.
Qed.

(** A write that keeps an entry's key and cost keeps the accounting. *)
Lemma storeEntry_inv s p e f : shard_inv s -> sw_entries s !! p = Some e -> entry_ok p f ->
  e_key f = e_key e -> e_costBytes f = e_costBytes e -> shard_inv (storeEntry p f s).
Proof.
  intros Hi He Hok Hk Hce. pose proof Hi as [Hm Hf Ho Hc Hs]. set (m := sw_entries s) in *.
  assert (total_cost (<[p := f]> m) = total_cost m) as Ht
    by (destruct (sums_replace (spaceKeyOf (e_key e)) m p e f He) as (-> & _); lia).
  constructor; cbn [storeEntry set_entries sw_entries sw_objects sw_memoryBytes sw_spaces]; fold m.
  - by apply entries_ok_insert.
  - unfold fits. by rewrite (size_replace m p e f He), Ht.
  - by rewrite (size_replace m p e f He).
  - by rewrite Ht.
  - intros k. rewrite Hs. destruct (sums_replace k m p e f He) as (_ & E1 & E2).
    unfold unit_in, cost_in, in_space in E1, E2. rewrite Hk, Hce in *.
    apply usage_of_same; lia.
Qed.

(** The physical key identifies the key: no two keys, whatever bytes their
    parts hold, have the same physical key, and no key has an empty one. *)
Theorem physical_keys_injective (k k' : Key) : key_typed k -> key_typed k' ->
  (physicalKey k = physicalKey k' <-> k = k') /\ physicalKey k <> "".
Proof.
  intros H H'. split; [split; [by apply physicalKey_inj|by intros ->]|apply physicalKey_nonempty].
Qed.

(** Moving a separator between two parts changes the physical key. *)
Lemma physical_keys_injective_witness :
  physicalKey (mkKey "ab" "c" "" "k") <> physicalKey (mkKey "a" "bc" "" "k").
Proof.
  intros E. apply (proj1 (physical_keys_injective (mkKey "ab" "c" "" "k") (mkKey "a" "bc" "" "k")
    ltac:(unfold key_typed, is_u64, str_len; cbn [k_namespace k_space k_entity k_key String.length]; lia)
    ltac:(unfold key_typed, is_u64, str_len; cbn [k_namespace k_space k_entity k_key String.length]; lia))) in E.
  discriminate E.
Defined.
