(* ===== verification/ShardOps.v ===== *)
(** * What the shard operations do

    Every operation of Shard.v keeps the accounting invariant of ShardInv.v;
    eviction, expiry sweeps, range export, import, range deletion and snapshot
    restore do to the entries what they promise. *)

From S2P Require Import Prelude.
From S2P Require Import Binary.
From S2P Require Import GoStrings.
From S2P Require Import Routing.
From S2P Require Import EngineTypes.
From S2P Require Import Shard.
From S2P Require Import ShardInv.

Local Open Scope Z_scope.
Local Open Scope nespa_scope.

(** ** Commands on one key *)

(** The statistics counters are not part of the accounting. *)
Ltac inv_via H := refine (shard_inv_ext _ _ _ _ _ _ H); done.

Section OneKey.
  Implicit Types (s : shardWorker) (cmd : shardCommand).

(** The entry a command finds is the entry of the key it names. *)
Lemma found_key s cmd e : entries_ok (sw_entries s) -> cmd_ok cmd ->
  sw_entries s !! c_physical cmd = Some e -> e_key e = c_key cmd.
Proof.
  intros Hm [Hp [_ Ht]] He. destruct (Hm _ _ He) as (Ep & [_ Ht'] & _).
  apply physicalKey_inj; [done..|]. by rewrite <- Ep, Hp.
Qed.

Lemma cmd_entry_ok cmd e : cmd_ok cmd -> e_key e = c_key cmd ->
  e_costBytes e = costOf (c_key cmd) (e_value e) -> entry_ok (c_physical cmd) e.
Proof. intros [Hp Hk] Ek Hc. split_and!; rewrite Ek; done. Qed.

Lemma applySet_inv s cmd : shard_inv s -> cmd_ok cmd ->
  fits (sw_entries (applySet s cmd).1) -> shard_inv (applySet s cmd).1.
Proof.
  intros Hi Hcmd. unfold applySet. case_bool; [done|].
  destruct (sw_entries s !! c_physical cmd) as [e|] eqn:He; cbn [fst].
  - pose proof (found_key s cmd e (inv_entries s Hi) Hcmd He) as Hk. cbn. intros Hf.
    rewrite replaceEntryCost_entries in Hf.
    apply (replace_inv s _ e); [done|done| |done|done]. apply cmd_entry_ok; done.
  - intros Hf. apply addEntry_inv; [done|done| |exact Hf]. apply cmd_entry_ok; done.
Qed.

Lemma applyGet_inv s cmd : shard_inv s -> shard_inv (applyGet s cmd).1.
Proof.
  intros Hi. unfold applyGet. cbn [sw_entries set_gets].
  assert (shard_inv (set_gets (sw_gets s +% 1) s)) as Hi' by (inv_via Hi).
  destruct (sw_entries s !! c_physical cmd) as [e|] eqn:He; [|inv_via Hi].
  pose proof (inv_entries s Hi _ _ He) as Hok.
  repeat case_bool; cbn [fst].
  - inv_via (deleteEntry_inv _ _ e Hi' He).
  - inv_via Hi.
  - inv_via (storeEntry_inv _ _ e (touchAccess e (c_now cmd)) Hi' He Hok eq_refl eq_refl).
Qed.

Lemma applyDelete_inv s cmd : shard_inv s -> shard_inv (applyDelete s cmd).1.
Proof.
  intros Hi. unfold applyDelete. case_match; [|done]. case_bool; [done|]. by apply deleteEntry_inv.
Qed.

Lemma applyTouch_inv s cmd : shard_inv s -> shard_inv (applyTouch s cmd).1.
Proof.
  intros Hi. unfold applyTouch. cbn [sw_entries set_touches].
  assert (shard_inv (set_touches (sw_touches s +% 1) s)) as Hi' by (inv_via Hi).
  destruct (sw_entries s !! c_physical cmd) as [e|] eqn:He; [|inv_via Hi].
  pose proof (inv_entries s Hi _ _ He) as Hok.
  destruct (to_ttl (c_touch cmd) <? 0); [inv_via Hi|].
  destruct (expired e (c_now cmd)).
  { inv_via (deleteEntry_inv _ _ e Hi' He). }
  destruct (_ && _); [inv_via Hi|].
  destruct (negb _); [inv_via Hi|]. cbn [fst].
  match goal with |- shard_inv (set_touchHits _ (storeEntry _ ?f _)) =>
    inv_via (storeEntry_inv _ _ e f Hi' He Hok eq_refl eq_refl) end.
Qed.

Lemma prepareCounterAdjustment_inv s cmd : shard_inv s ->
  shard_inv (prepareCounterAdjustment s cmd).1.
Proof.
  intros Hi. unfold prepareCounterAdjustment. case_match; [|done].
  case_bool; [done|]. case_bool; [by apply deleteEntry_inv|]. by case_match.
Qed.

(** An adjustment prepared for an existing counter is for the entry still stored. *)
Lemma prepareCounterAdjustment_lookup s cmd a :
  (prepareCounterAdjustment s cmd).2 = Ok (Some a) ->
  (prepareCounterAdjustment s cmd).1 = s /\ ca_existing a = sw_entries s !! c_physical cmd.
Proof.
  unfold prepareCounterAdjustment, newCounterAdjustment. intros H.
  repeat (case_match; simplify_eq/=; try done).
Qed.

Lemma applyAdjust_inv s cmd : shard_inv s -> cmd_ok cmd ->
  fits (sw_entries (applyAdjust s cmd).1) -> shard_inv (applyAdjust s cmd).1.
Proof.
  intros Hi Hcmd. unfold applyAdjust.
  pose proof (prepareCounterAdjustment_inv s cmd Hi) as Hi'.
  pose proof (prepareCounterAdjustment_lookup s cmd) as Hl.
  destruct (prepareCounterAdjustment s cmd) as [s' [[a|]|err]]; [|done|done].
  destruct (Hl a eq_refl) as [E Ha]. cbn [fst] in E, Hi'. subst s'.
  destruct (ca_existing a) as [e|]; symmetry in Ha.
  - pose proof (found_key s cmd e (inv_entries s Hi) Hcmd Ha) as Hk.
    unfold applyExistingCounter. cbn [fst]. rewrite replaceEntryCost_storeEntry.
    cbn. rewrite replaceEntryCost_entries, <- Hk. intros Hf.
    apply (replace_inv s _ e); [done|done| |done|done]. by apply cmd_entry_ok; cbn; rewrite ?Hk.
  - intros Hf. apply addEntry_inv; [done|done| |exact Hf]. by apply cmd_entry_ok.
Qed.

Lemma applyAdjustEstimate_state s cmd :
  (applyAdjustEstimate s cmd).1 = (prepareCounterAdjustment s cmd).1.
Proof. unfold applyAdjustEstimate. by destruct (prepareCounterAdjustment s cmd) as [s' [[a|]|err]]. Qed.
End OneKey.

(** ** Deleting a list of entries *)

Section Deletes.
  Implicit Types (s : shardWorker) (l : list (string * entry)).

(** A list of distinct bindings of the shard's map. *)
Definition bindings_of (s : shardWorker) (l : list (string * entry)) : Prop :=
  NoDup l.*1 /\ forall p e, (p, e) ∈ l -> sw_entries s !! p = Some e.

Definition list_cost (l : list (string * entry)) : Z := lsum (fun kv => e_costBytes kv.2) l.

Lemma bindings_of_cons s p e l : bindings_of s ((p, e) :: l) ->
  sw_entries s !! p = Some e /\ bindings_of (deleteEntry p e s) l.
Proof.
  intros [[Hp Hn]%NoDup_cons Hl]. split; [apply Hl; set_solver|].
  split; [done|]. intros q f Hq. rewrite deleteEntry_entries, lookup_delete_ne.
  - apply Hl. set_solver.
  - intros <-. apply Hp. by apply (list_elem_of_fmap_2 fst) in Hq.
Qed.

Lemma deleteExpired_lookup l s p : sw_entries (deleteExpired l s) !! p
  = if bool_decide (p ∈ l.*1) then None else sw_entries s !! p.
Proof.
  revert s. induction l as [|[q e] l IH]; intros s; [done|].
  cbn. fold (deleteExpired l (deleteEntry q e s)). rewrite IH, deleteEntry_entries.
  destruct (decide (p ∈ l.*1)) as [Hp|Hp].
  - rewrite !bool_decide_eq_true_2; [done|set_solver..].
  - rewrite (bool_decide_eq_false_2 _ Hp). destruct (decide (p = q)) as [->|Hne].
    + rewrite lookup_delete_eq, bool_decide_eq_true_2; [done|set_solver].
    + rewrite lookup_delete_ne, bool_decide_eq_false_2; [done|set_solver|done].
Qed.

Lemma deleteEntry_totals s p e : shard_inv s -> sw_entries s !! p = Some e ->
  sw_memoryBytes s = e_costBytes e + sw_memoryBytes (deleteEntry p e s) /\
  sw_objects s = 1 + sw_objects (deleteEntry p e s).
Proof.
  intros Hi He. pose proof (deleteEntry_inv s p e Hi He) as [_ _ -> -> _].
  destruct Hi as [_ _ -> -> _]. rewrite deleteEntry_entries. split.
  - by apply (sums_delete (spaceKeyOf (e_key e))).
  - rewrite (size_delete_Some _ p e He). lia.
Qed.

Lemma deleteExpired_inv l s : shard_inv s -> bindings_of s l ->
  shard_inv (deleteExpired l s) /\
  sw_memoryBytes s = list_cost l + sw_memoryBytes (deleteExpired l s) /\
  sw_objects s = zlen l + sw_objects (deleteExpired l s).
Proof.
  revert s. induction l as [|[p e] l IH]; intros s Hi Hl; [done|].
  apply bindings_of_cons in Hl as [He Hl].
  change (deleteExpired _ s) with (deleteExpired l (deleteEntry p e s)).
  change (list_cost _) with (e_costBytes e + list_cost l).
  destruct (IH _ (deleteEntry_inv s p e Hi He) Hl) as (H1 & H2 & H3).
  destruct (deleteEntry_totals s p e Hi He) as [H4 H5].
  split_and!; [done|lia|rewrite zlen_cons; lia].
Qed.

Lemma bindings_of_perm s l l' : l ≡ₚ l' -> bindings_of s l -> bindings_of s l'.
Proof. intros Hp [Hn Hl]. split; [by rewrite <- Hp|]. intros p e. rewrite <- Hp. apply Hl. Qed.

Lemma bindings_of_prefix s l l' : bindings_of s (l ++ l') -> bindings_of s l.
Proof.
  intros [Hn Hl]. rewrite fmap_app in Hn. apply NoDup_app in Hn as (Hn & _).
  split; [done|]. intros p e Hp. apply Hl. set_solver.
Qed.

Lemma bindings_of_cost_nonneg s l p e : entries_ok (sw_entries s) -> bindings_of s l ->
  (p, e) ∈ l -> 0 <= e_costBytes e.
Proof. intros Hm [_ Hl] Hp. eapply cost_nonneg; [done|]. by apply Hl. Qed.

Lemma list_cost_nonneg s l : entries_ok (sw_entries s) -> bindings_of s l -> 0 <= list_cost l.
Proof.
  intros Hm Hl. apply lsum_nonneg. intros [p e] Hp. by eapply bindings_of_cost_nonneg.
Qed.

Context `{!RangeOrder}.

Lemma bindings_of_range s (P : string * entry -> Prop) `{!forall x, Decision (P x)} :
  bindings_of s (filter P (range_order (sw_entries s))).
Proof.
  split.
  - apply NoDup_fmap_filter, NoDup_range.
  - intros p e [_ Hp]%list_elem_of_filter. by apply elem_of_range.
Qed.
End Deletes.

(** ** Expiry sweep and range deletion *)

Section Range.
  Context `{!RangeOrder}.
  Implicit Types s : shardWorker.

Lemma delete_filter_lookup (P : string * entry -> Prop) `{!forall x, Decision (P x)} s p :
  sw_entries (deleteExpired (filter P (range_order (sw_entries s))) s) !! p
  = match sw_entries s !! p with
    | Some e => if decide (P (p, e)) then None else Some e
    | None => None
    end.
Proof.
  rewrite deleteExpired_lookup. set (l := filter _ _).
  destruct (sw_entries s !! p) as [e|] eqn:He; [|by case_bool].
  destruct (decide (P (p, e))) as [HP|HP].
  - rewrite bool_decide_eq_true_2; [done|]. apply list_elem_of_fmap. exists (p, e).
    split; [done|]. apply list_elem_of_filter. by rewrite elem_of_range.
  - rewrite bool_decide_eq_false_2; [done|]. intros ([q f] & Eq & Hin)%list_elem_of_fmap.
    cbn in Eq. subst q. apply list_elem_of_filter in Hin as [Hf Hin].
    apply elem_of_range in Hin. congruence.
Qed.

Lemma zlen_filter_range_u64 (P : string * entry -> Prop) `{!forall x, Decision (P x)} s :
  fits (sw_entries s) -> is_u64 (zlen (filter P (range_order (sw_entries s)))).
Proof.
  intros [Hf _]. pose proof (length_filter P (range_order (sw_entries s))) as Hl.
  rewrite length_range in Hl. unfold is_u64, zlen. lia.
Qed.

Lemma sweepExpired_spec now s : shard_inv s ->
  let '(s', n) := sweepExpired now s in
  shard_inv s' /\
  (forall p, sw_entries s' !! p
     = match sw_entries s !! p with
       | Some e => if expired e now then None else Some e
       | None => None
       end) /\
  n = sw_objects s - sw_objects s'.
Proof.
  intros Hi. unfold sweepExpired. set (P := fun item => _).
  destruct (deleteExpired_inv _ s Hi (bindings_of_range s P)) as (H1 & H2 & H3).
  split_and!; [done| |].
  - intros p. rewrite delete_filter_lookup. unfold P. case_match; [|done]. cbn.
    by case_decide; case_bool.
  - unfold checkedUint64. pose proof (zlen_filter_range_u64 P s (inv_fits s Hi)) as Hu.
    rewrite (proj2 (Z.ltb_ge _ _)) by apply Hu. rewrite (u64_small _ Hu). lia.
Qed.

Lemma deleteRange_spec opts s : shard_inv s ->
  let '(s', n) := deleteRange opts s in
  shard_inv s' /\
  (forall p, sw_entries s' !! p
     = match sw_entries s !! p with
       | Some e => if entryInRange (e_key e) opts then None else Some e
       | None => None
       end) /\
  n = sw_objects s - sw_objects s'.
Proof.
  intros Hi. unfold deleteRange, rangeDeleteTargets. set (P := fun item : string * entry => entryInRange (e_key item.2) opts = true).
  destruct (deleteExpired_inv _ s Hi (bindings_of_range s P)) as (H1 & H2 & H3).
  split_and!; [exact H1| |].
  - intros p. etransitivity; [apply delete_filter_lookup|]. unfold P. case_match; [|done]. cbn.
    by case_decide; case_bool.
  - rewrite (u64_small _ (zlen_filter_range_u64 P s (inv_fits s Hi))).
    unfold deleteExpired in H3. lia.
Qed.

(** ** Eviction *)

(** An entry the options name: in the space, and not the key to keep. *)
Definition evictable (opts : EvictOptions) (e : entry) : bool :=
  bool_decide (k_namespace (e_key e) = eo_namespace opts)
  && bool_decide (k_space (e_key e) = eo_space opts)
  && negb (eo_excludeActive opts && bool_decide (e_key e = eo_exclude opts)).

Definition excludePhysicalOf (opts : EvictOptions) : string :=
  if eo_excludeActive opts then physicalKey (eo_exclude opts) else "".

Lemma evictionCandidate_evictable opts p e : key_typed (eo_exclude opts) -> entry_ok p e ->
  evictionCandidate e opts p (excludePhysicalOf opts) = evictable opts e.
Proof.
  intros Hx (-> & [_ Ht] & _). unfold evictionCandidate, evictable, excludePhysicalOf.
  destruct (eo_excludeActive opts); cbn [andb negb].
  - rewrite (bool_decide_eq_false_2 _ (physicalKey_nonempty _)). cbn [andb negb].
    destruct (decide (e_key e = eo_exclude opts)) as [->|Hne].
    + rewrite (bool_decide_eq_true_2 (eo_exclude opts = eo_exclude opts)), bool_decide_eq_true_2 by done.
      by rewrite andb_false_r.
    + rewrite (bool_decide_eq_false_2 _ Hne), andb_true_r.
      rewrite bool_decide_eq_false_2; [done|]. intros E. by apply Hne, physicalKey_inj.
  - by rewrite andb_true_r.
Qed.

Lemma evict_le_iff e f : evict_le e f <->
  e_lastAccessAt e < e_lastAccessAt f \/
  (e_lastAccessAt e = e_lastAccessAt f /\ e_createdAt e <= e_createdAt f).
Proof.
  unfold evict_le, compareEviction, compareTime, TimeEqual, Before.
  repeat case_bool; bool_to_prop; lia.
Qed.

#[local] Instance evict_le_total : Total evict_le.
Proof. intros e f. rewrite !evict_le_iff. lia. Qed.

#[local] Instance evict_le_trans : Transitive evict_le.
Proof. intros e f g. rewrite !evict_le_iff. lia. Qed.

Definition counted (r : EvictResult) (l : list entry) : EvictResult :=
  foldl (fun r e => countEvicted e r) r l.

Definition at_key (e : entry) : string * entry := (physicalKey (e_key e), e).

Lemma counted_totals r l : is_u64 (er_freedBytes r) -> is_u64 (er_evictedObjects r) ->
  er_freedBytes (counted r l) = u64 (er_freedBytes r + lsum e_costBytes l) /\
  er_evictedObjects (counted r l) = u64 (er_evictedObjects r + zlen l).
Proof.
  revert r. induction l as [|e l IH]; intros r H1 H2.
  - cbn. rewrite !Z.add_0_r, !u64_small; done.
  - change (counted r (e :: l)) with (counted (countEvicted e r) l).
    destruct (IH (countEvicted e r)) as [-> ->]; [apply u64_range..|].
    cbn [countEvicted er_freedBytes er_evictedObjects]. rewrite zlen_cons. cbn [lsum foldr].
    unfold u64. rewrite !Zplus_mod_idemp_l. split; f_equal; unfold lsum; lia.
Qed.

Lemma collect_fold opts excl l r el c :
  foldl (fun '(result, expiredList, candidates) '(physical, ent) =>
           if negb (evictionCandidate ent opts physical excl)
           then (result, expiredList, candidates)
           else if expired ent (eo_now opts)
           then (countEvicted ent result, expiredList ++ [(physical, ent)], candidates)
           else (result, expiredList, candidates ++ [ent])) (r, el, c) l
  = let E := filter (fun i => evictionCandidate i.2 opts i.1 excl && expired i.2 (eo_now opts) = true) l in
    (counted r E.*2, el ++ E,
     c ++ (filter (fun i => evictionCandidate i.2 opts i.1 excl && negb (expired i.2 (eo_now opts)) = true) l).*2).
Proof.
  revert r el c. induction l as [|[p e] l IH]; intros r el c; [cbn; by rewrite !app_nil_r|].
  cbn [foldl]. rewrite !filter_cons. cbn [fst snd].
  destruct (evictionCandidate e opts p excl), (expired e (eo_now opts)); cbn [negb andb];
    rewrite IH; repeat (rewrite decide_True by done || rewrite decide_False by done);
    cbn zeta; rewrite ?fmap_cons, <- ?app_assoc; done.
Qed.

Lemma evictLoop_spec cands target r s :
  exists taken rest, cands = taken ++ rest /\
    evictLoop cands target r s = (deleteExpired (at_key <$> taken) s, counted r taken) /\
    (rest = [] \/ target <= er_freedBytes (counted r taken)) /\
    (taken = [] \/ exists pre last, taken = pre ++ [last] /\ er_freedBytes (counted r pre) < target).
Proof.
  revert r s. induction cands as [|e cands IH]; intros r s.
  { exists [], []. cbn. auto. }
  cbn [evictLoop]. destruct (Z.leb_spec target (er_freedBytes r)) as [Hle|Hlt].
  { exists [], (e :: cands). cbn. auto. }
  destruct (IH (countEvicted e r) (deleteEntry (physicalKey (e_key e)) e s))
    as (taken & rest & -> & -> & Hr & Ht).
  exists (e :: taken), rest. split_and!; [done|done|done|]. right.
  destruct Ht as [->|(pre & last & -> & Hpre)].
  - exists [], e. done.
  - exists (e :: pre), last. done.
Qed.

Lemma deleteExpired_app l k s : deleteExpired (l ++ k) s = deleteExpired k (deleteExpired l s).
Proof. apply foldl_app. Qed.

Lemma counted_app r l k : counted r (l ++ k) = counted (counted r l) k.
Proof. apply foldl_app. Qed.

(** The lists an eviction works with: the expired victims, the live candidates in
    the order they are taken, and how many of those it took. *)
Record evict_run (opts : EvictOptions) (s t : shardWorker) (r : EvictResult)
    (dead : list (string * entry)) (taken rest : list entry) : Prop := {
  run_dead : forall p e, (p, e) ∈ dead <->
    sw_entries s !! p = Some e /\ evictable opts e = true /\ expired e (eo_now opts) = true;
  run_live : forall e, e ∈ taken ++ rest <->
    sw_entries s !! physicalKey (e_key e) = Some e /\ evictable opts e = true /\
    expired e (eo_now opts) = false;
  run_bindings : bindings_of s (dead ++ (at_key <$> taken));
  run_sorted : StronglySorted evict_le (taken ++ rest);
  run_state : t = set_evictions (sw_evictions t) (deleteExpired (dead ++ (at_key <$> taken)) s);
  run_result : r = counted (mkEvictResult (eo_targetBytes opts) 0 0) (dead.*2 ++ taken);
  run_stop : rest = [] \/ eo_targetBytes opts <= er_freedBytes r;
  run_minimal : taken = [] \/ exists pre last, taken = pre ++ [last] /\
    er_freedBytes (counted (mkEvictResult (eo_targetBytes opts) 0 0) (dead.*2 ++ pre))
    < eo_targetBytes opts
}.

Section Evict.
  Context (opts : EvictOptions) (s : shardWorker).
  Hypothesis Hi : shard_inv s.
  Hypothesis Hx : key_typed (eo_exclude opts).

Definition dead_of : list (string * entry) :=
  filter (fun i => evictionCandidate i.2 opts i.1 (excludePhysicalOf opts)
                   && expired i.2 (eo_now opts) = true) (range_order (sw_entries s)).

Definition live_of : list (string * entry) :=
  filter (fun i => evictionCandidate i.2 opts i.1 (excludePhysicalOf opts)
                   && negb (expired i.2 (eo_now opts)) = true) (range_order (sw_entries s)).

Lemma elem_of_dead p e : (p, e) ∈ dead_of <->
  sw_entries s !! p = Some e /\ evictable opts e = true /\ expired e (eo_now opts) = true.
Proof.
  unfold dead_of. rewrite list_elem_of_filter, elem_of_range, andb_true_iff. cbn [fst snd].
  split; intros H'; destruct_and!; split_and!; try done;
    by rewrite (evictionCandidate_evictable opts p e Hx (inv_entries s Hi p e ltac:(done))) in *.
Qed.

Lemma elem_of_live p e : (p, e) ∈ live_of <->
  sw_entries s !! p = Some e /\ evictable opts e = true /\ expired e (eo_now opts) = false.
Proof.
  unfold live_of. rewrite list_elem_of_filter, elem_of_range, andb_true_iff, negb_true_iff. cbn [fst snd].
  split; intros H'; destruct_and!; split_and!; try done;
    by rewrite (evictionCandidate_evictable opts p e Hx (inv_entries s Hi p e ltac:(done))) in *.
Qed.

Lemma live_at_key : at_key <$> live_of.*2 = live_of.
Proof.
  rewrite <- list_fmap_compose. rewrite <- (list_fmap_id live_of) at 2.
  apply list_fmap_ext. intros i [p e] Hl. apply list_elem_of_lookup_2, elem_of_live in Hl as [He _].
  destruct (inv_entries s Hi p e He) as (-> & _). done.
Qed.

Lemma bindings_dead_live : bindings_of s (dead_of ++ live_of).
Proof.
  destruct (bindings_of_range s (fun i => evictionCandidate i.2 opts i.1 (excludePhysicalOf opts)
                   && expired i.2 (eo_now opts) = true)) as [Hn1 Hb1].
  destruct (bindings_of_range s (fun i => evictionCandidate i.2 opts i.1 (excludePhysicalOf opts)
                   && negb (expired i.2 (eo_now opts)) = true)) as [Hn2 Hb2].
  split.
  - rewrite fmap_app. apply NoDup_app. split_and!; [done| |done].
    intros p ([q e] & -> & He)%list_elem_of_fmap ([q' f] & Ep & Hf)%list_elem_of_fmap. cbn in Ep. subst q'.
    apply elem_of_dead in He as (E1 & _ & E2). apply elem_of_live in Hf as (E3 & _ & E4). congruence.
  - intros p e [Hp|Hp]%elem_of_app; [apply elem_of_dead in Hp as [Hp _]|apply elem_of_live in Hp as [Hp _]]; exact Hp.
Qed.

Lemma evict_run_exists : let '(t, r) := evict opts s in
  exists dead taken rest, evict_run opts s t r dead taken rest.
Proof.
  unfold evict, collectEvictionCandidates. fold (excludePhysicalOf opts). rewrite collect_fold.
  cbn zeta. rewrite !app_nil_l. fold dead_of live_of.
  set (sorted := merge_sort evict_le live_of.*2).
  unfold evictCandidates.
  destruct (evictLoop_spec sorted (eo_targetBytes opts) (counted (mkEvictResult (eo_targetBytes opts) 0 0) dead_of.*2)
              (deleteExpired dead_of s)) as (taken & rest & Hs & -> & Hstop & Hmin).
  assert (taken ++ rest ≡ₚ live_of.*2) as Hp by (rewrite <- Hs; apply merge_sort_Permutation).
  assert (bindings_of s (dead_of ++ (at_key <$> taken))) as Hb.
  { apply (bindings_of_prefix _ _ (at_key <$> rest)). rewrite <- app_assoc, <- fmap_app.
    eapply bindings_of_perm; [|apply bindings_dead_live].
    by rewrite Hp, live_at_key. }
  rewrite <- deleteExpired_app, <- counted_app in *.
  case_bool; exists dead_of, taken, rest; constructor; try done.
  all: try (apply elem_of_dead).
  all: try (rewrite <- Hs; apply (StronglySorted_merge_sort _)).
  all: try (destruct Hmin as [->|(pre & last & -> & Hpre)]; [by left|right; exists pre, last; by rewrite counted_app]).
  all: try (by destruct (deleteExpired _ s)).
  all: intros e; rewrite Hp, list_elem_of_fmap; split;
    [ intros ([p f] & -> & Hl); apply elem_of_live in Hl as (E & Ev & Ex); cbn [snd];
      destruct (inv_entries s Hi p f E) as (<- & _); done
    | intros Hl; exists (at_key e); split; [done|]; by apply elem_of_live ].
Qed.
End Evict.

Lemma list_cost_app l k : list_cost (l ++ k) = list_cost l + list_cost k.
Proof. apply lsum_app. Qed.

Lemma list_cost_snd l : list_cost l = lsum e_costBytes l.*2.
Proof. induction l as [|[p e] l IH]; [done|]. unfold list_cost in *. cbn. unfold lsum in *. lia. Qed.

Lemma list_cost_at_key l : list_cost (at_key <$> l) = lsum e_costBytes l.
Proof. rewrite list_cost_snd, <- list_fmap_compose. f_equal. apply list_fmap_id. Qed.

Section EvictResults.
  Context (opts : EvictOptions) (s t : shardWorker) (r : EvictResult).
  Context (dead : list (string * entry)) (taken rest : list entry).
  Hypothesis Hi : shard_inv s.
  Hypothesis Hr : evict_run opts s t r dead taken rest.

Lemma evict_run_entries : sw_entries t = sw_entries (deleteExpired (dead ++ (at_key <$> taken)) s).
Proof. by rewrite (run_state _ _ _ _ _ _ _ Hr). Qed.

Lemma evict_run_totals : shard_inv t /\
  er_freedBytes r = sw_memoryBytes s - sw_memoryBytes t /\
  er_evictedObjects r = sw_objects s - sw_objects t.
Proof.
  destruct Hr as [_ _ Hb _ Ht Hres _ _].
  destruct (deleteExpired_inv _ s Hi Hb) as (H1 & H2 & H3).
  pose proof (list_cost_nonneg s _ (inv_entries s Hi) Hb) as Hnn.
  assert (shard_inv t) as Hit by (rewrite Ht; inv_via H1). split; [done|].
  assert (sw_memoryBytes t = sw_memoryBytes (deleteExpired (dead ++ (at_key <$> taken)) s) /\
          sw_objects t = sw_objects (deleteExpired (dead ++ (at_key <$> taken)) s)) as [-> ->]
    by (by rewrite Ht).
  destruct (counted_totals (mkEvictResult (eo_targetBytes opts) 0 0) (dead.*2 ++ taken)) as [E1 E2];
    [by (split; cbn)..|].
  rewrite <- Hres in E1, E2. cbn in E1, E2.
  assert (lsum e_costBytes (dead.*2 ++ taken) = list_cost (dead ++ (at_key <$> taken))) as Hc
    by (by rewrite lsum_app, list_cost_app, list_cost_snd, list_cost_at_key).
  assert (zlen (dead.*2 ++ taken) = zlen (dead ++ (at_key <$> taken))) as Hl
    by (rewrite !zlen_app; unfold zlen; by rewrite !length_fmap).
  rewrite Hc in E1. rewrite Hl in E2. rewrite E1, E2.
  pose proof (inv_memory _ H1) as M1. pose proof (inv_objects _ H1) as O1.
  pose proof (total_cost_nonneg _ (inv_entries _ H1)).
  destruct (inv_fits s Hi) as [F1 F2]. rewrite <- (inv_memory s Hi) in F2. rewrite <- (inv_objects s Hi) in F1.
  pose proof (zlen_nonneg (dead ++ (at_key <$> taken))).
  rewrite !u64_small by (unfold is_u64; lia). split; lia.
Qed.

Lemma evict_run_removed p e : sw_entries s !! p = Some e -> sw_entries t !! p = None ->
  (p, e) ∈ dead \/ e ∈ taken /\ p = physicalKey (e_key e).
Proof.
  intros He Ht. rewrite evict_run_entries, deleteExpired_lookup in Ht.
  case_bool; [|congruence]. bool_to_prop.
  apply list_elem_of_fmap in Heqb as ([q f] & -> & Hin). cbn [fst] in He.
  pose proof (proj2 (run_bindings _ _ _ _ _ _ _ Hr) q f Hin) as Hq. simplify_eq.
  apply elem_of_app in Hin as [Hin|Hin]; [by left|right].
  apply list_elem_of_fmap in Hin as (g & Eg & Hg). unfold at_key in Eg. by simplify_eq.
Qed.

Lemma evict_run_survivor p e : sw_entries t !! p = Some e -> evictable opts e = true ->
  sw_entries s !! p = Some e /\ expired e (eo_now opts) = false /\ e ∈ rest.
Proof.
  intros Ht Hev. rewrite evict_run_entries, deleteExpired_lookup in Ht. case_bool; [done|].
  bool_to_prop. destruct (inv_entries s Hi p e Ht) as (Ep & _). split; [done|].
  assert (expired e (eo_now opts) = false) as Hx.
  { apply not_true_is_false. intros Hx. apply Heqb. rewrite fmap_app. apply elem_of_app. left.
    apply list_elem_of_fmap. exists (p, e). split; [done|]. by apply (run_dead _ _ _ _ _ _ _ Hr). }
  split; [done|].
  assert (e ∈ taken ++ rest) as [Hin|Hin]%elem_of_app; [|exfalso; apply Heqb|done].
  { apply (run_live _ _ _ _ _ _ _ Hr). by rewrite <- Ep. }
  rewrite fmap_app. apply elem_of_app. right. apply list_elem_of_fmap. exists (p, e). split; [done|].
  apply list_elem_of_fmap. exists e. unfold at_key. by rewrite <- Ep.
Qed.

Lemma evict_run_lru e f : e ∈ taken -> f ∈ rest -> compareEviction e f <= 0.
Proof.
  intros He Hf. pose proof (run_sorted _ _ _ _ _ _ _ Hr) as Hs. clear -He Hf Hs.
  induction taken as [|g l IH]; [set_solver|]. cbn in Hs.
  apply StronglySorted_inv in Hs as [Hs Hg]. apply elem_of_cons in He as [->|He]; [|by apply IH].
  rewrite Forall_forall in Hg. apply Hg. set_solver.
Qed.

Lemma evict_run_stop p e : sw_entries t !! p = Some e -> evictable opts e = true ->
  eo_targetBytes opts <= er_freedBytes r.
Proof.
  intros Ht Hev. destruct (evict_run_survivor p e Ht Hev) as (_ & _ & Hin).
  destruct (run_stop _ _ _ _ _ _ _ Hr) as [->|]; [set_solver|done].
Qed.

Lemma evict_run_minimal : taken <> [] -> exists last, last ∈ taken /\
  er_freedBytes r - e_costBytes last < eo_targetBytes opts.
Proof.
  intros Hne. destruct (run_minimal _ _ _ _ _ _ _ Hr) as [?|(pre & last & Et & Hlt)]; [done|].
  exists last. split; [set_solver|]. destruct evict_run_totals as (Hit & Hfr & _).
  pose proof (run_result _ _ _ _ _ _ _ Hr) as Hres. pose proof (run_bindings _ _ _ _ _ _ _ Hr) as Hb.
  assert (0 <= lsum e_costBytes (dead.*2 ++ pre) /\ 0 <= e_costBytes last /\
          lsum e_costBytes (dead.*2 ++ pre) + e_costBytes last < 2 ^ 64) as (H1 & H2 & H3).
  { destruct (deleteExpired_inv _ s Hi Hb) as (Hd & Hm & _).
    pose proof (total_cost_nonneg _ (inv_entries _ Hd)) as Hge. rewrite <- (inv_memory _ Hd) in Hge.
    destruct (inv_fits s Hi) as [_ F2]. rewrite <- (inv_memory s Hi) in F2.
    rewrite Et, fmap_app, app_assoc in Hb, Hm, Hge. rewrite list_cost_app in Hm.
    pose proof (list_cost_nonneg s _ (inv_entries s Hi) (bindings_of_prefix _ _ _ Hb)) as Hn.
    assert (0 <= e_costBytes last)
      by (eapply (bindings_of_cost_nonneg s _ (physicalKey (e_key last)) last (inv_entries s Hi) Hb);
          set_solver).
    rewrite list_cost_app, list_cost_snd, list_cost_at_key, <- lsum_app in Hm, Hn.
    change (list_cost (at_key <$> [last])) with (e_costBytes last + 0) in Hm. lia. }
  rewrite Et, app_assoc in Hres.
  destruct (counted_totals (mkEvictResult (eo_targetBytes opts) 0 0) (dead.*2 ++ pre)) as [E1 _];
    [by (split; cbn)..|].
  destruct (counted_totals (mkEvictResult (eo_targetBytes opts) 0 0) ((dead.*2 ++ pre) ++ [last])) as [E2 _];
    [by (split; cbn)..|].
  rewrite <- Hres in E2. rewrite lsum_app in E2. cbn in E1, E2.
  rewrite E1, u64_small in Hlt by (unfold is_u64; lia).
  rewrite E2, u64_small by (unfold is_u64; lia). lia.
Qed.
End EvictResults.

(** An eviction keeps the accounting, removes only entries of the requested
    space other than the excluded key, leaves every other entry as it was,
    reports exactly the bytes and objects it freed, removes every expired
    candidate, stops short of its target only when no candidate is left, takes
    live entries in least-recently-used order and takes no live entry it does
    not need. *)
Theorem evict_correct (opts : EvictOptions) (s : shardWorker) :
  shard_inv s -> key_typed (eo_exclude opts) ->
  let '(t, r) := evict opts s in
  shard_inv t /\
  sw_entries t ⊆ sw_entries s /\
  (forall p e, sw_entries s !! p = Some e -> sw_entries t !! p = None -> evictable opts e = true) /\
  er_freedBytes r = sw_memoryBytes s - sw_memoryBytes t /\
  er_evictedObjects r = sw_objects s - sw_objects t /\
  (forall p e, sw_entries t !! p = Some e -> evictable opts e = true ->
     expired e (eo_now opts) = false /\ eo_targetBytes opts <= er_freedBytes r) /\
  (forall p e q f, sw_entries s !! p = Some e -> sw_entries t !! p = None ->
     expired e (eo_now opts) = false -> sw_entries t !! q = Some f -> evictable opts f = true ->
     compareEviction e f <= 0) /\
  (forall p e, sw_entries s !! p = Some e -> sw_entries t !! p = None ->
     expired e (eo_now opts) = false ->
     exists q f, sw_entries s !! q = Some f /\ sw_entries t !! q = None /\
       expired f (eo_now opts) = false /\ er_freedBytes r - e_costBytes f < eo_targetBytes opts).
Proof.
  intros Hi Hx. pose proof (evict_run_exists opts s Hi Hx) as Hrun.
  destruct (evict opts s) as [t r]. destruct Hrun as (dead & taken & rest & Hr).
  destruct (evict_run_totals _ _ _ _ _ _ _ Hi Hr) as (Hit & Hfb & Hob).
  assert (forall e, e ∈ taken -> sw_entries s !! physicalKey (e_key e) = Some e /\
            sw_entries t !! physicalKey (e_key e) = None /\ evictable opts e = true /\
            expired e (eo_now opts) = false) as Htaken.
  { intros e He. destruct (proj1 (run_live _ _ _ _ _ _ _ Hr e)) as (E1 & E2 & E3); [set_solver|].
    split_and!; [done| |done|done]. rewrite (evict_run_entries _ _ _ _ _ _ _ Hr), deleteExpired_lookup.
    rewrite bool_decide_eq_true_2; [done|]. rewrite fmap_app. apply elem_of_app. right.
    apply list_elem_of_fmap. exists (at_key e). split; [done|]. by apply list_elem_of_fmap_2. }
  split_and!; [done| | |done|done| | |].
  - apply map_subseteq_spec. intros p e. rewrite (evict_run_entries _ _ _ _ _ _ _ Hr), deleteExpired_lookup.
    by case_bool.
  - intros p e He Ht. destruct (evict_run_removed _ _ _ _ _ _ _ Hr p e He Ht) as [Hd|[Hl _]].
    + by apply (run_dead _ _ _ _ _ _ _ Hr) in Hd as (_ & ? & _).
    + by apply Htaken.
  - intros p e Ht Hev. destruct (evict_run_survivor _ _ _ _ _ _ _ Hi Hr p e Ht Hev) as (_ & ? & _).
    split; [done|]. by apply (evict_run_stop _ _ _ _ _ _ _ Hi Hr p e).
  - intros p e q f He Ht Hex Hq Hev.
    destruct (evict_run_removed _ _ _ _ _ _ _ Hr p e He Ht) as [Hd|[Hl _]].
    { apply (run_dead _ _ _ _ _ _ _ Hr) in Hd as (_ & _ & ?). congruence. }
    destruct (evict_run_survivor _ _ _ _ _ _ _ Hi Hr q f Hq Hev) as (_ & _ & Hrest).
    by eapply evict_run_lru.
  - intros p e He Ht Hex. destruct (evict_run_removed _ _ _ _ _ _ _ Hr p e He Ht) as [Hd|[Hl _]].
    { apply (run_dead _ _ _ _ _ _ _ Hr) in Hd as (_ & _ & ?). congruence. }
    destruct (evict_run_minimal _ _ _ _ _ _ _ Hi Hr) as (last & Hin & Hlt); [intros ->; by apply elem_of_nil in Hl|].
    destruct (Htaken last Hin) as (? & ? & _ & ?). eauto 10.
Qed.

(** ** Export, import and restore *)

Lemma elem_of_export opts s x : shard_inv s ->
  x ∈ exportEntries opts s <->
  exists e, sw_entries s !! physicalKey (se_key x) = Some e /\ x = snapshotEntryFromEntry e /\
    expired e (ro_now opts) = false /\ entryInRange (e_key e) opts = true.
Proof.
  intros Hi. unfold exportEntries. rewrite list_elem_of_fmap. split.
  - intros ([p e] & -> & [Hc He]%list_elem_of_filter). apply elem_of_range in He. cbn [snd fst] in *.
    bool_to_prop. exists e. destruct (inv_entries s Hi p e He) as (-> & _). done.
  - intros (e & He & -> & Hx & Hr). exists (physicalKey (e_key e), e). split; [done|].
    apply list_elem_of_filter. cbn [snd]. rewrite Hx, Hr. by rewrite elem_of_range.
Qed.
End Range.

(** The physical keys of a list of snapshot entries. *)
Definition snap_keys (l : list SnapshotEntry) : list string := physicalKey ∘ se_key <$> l.

(** What a snapshot entry costs once it is stored. *)
Definition snap_cost (l : list SnapshotEntry) : Z := lsum (fun x => costOf (se_key x) (se_value x)) l.

(** There is room for the entries in the shard's counters. *)
Definition room (l : list SnapshotEntry) (m : gmap string entry) : Prop :=
  Z.of_nat (size m) + zlen l < 2 ^ 64 /\ total_cost m + snap_cost l < 2 ^ 64.

Definition snap_ok (x : SnapshotEntry) : Prop := key_ok (se_key x).

(** The entry a valid snapshot entry becomes. *)
Definition stored (x : SnapshotEntry) : entry :=
  mkEntry (se_key x) (se_value x) (if se_version x =? 0 then 1 else se_version x)
    (se_namespaceVersion x) (se_spaceVersion x) (se_expireAt x) (se_createdAt x) (se_updatedAt x)
    (se_lastAccessAt x) (se_accessCount x) (costOf (se_key x) (se_value x)).

(** The entry that wins when [incoming] is imported over [existing]. *)
Definition merged (existing : option entry) (incoming : entry) : entry :=
  match existing with
  | Some f => if shouldImportEntry f incoming then incoming else f
  | None => incoming
  end.

Section Importing.
  Implicit Types (s : shardWorker) (x : SnapshotEntry) (l : list SnapshotEntry).

Lemma entryFromSnapshot_ok x : snap_ok x -> entryFromSnapshot x = Ok (stored x).
Proof. intros [Hv _]. unfold entryFromSnapshot. by rewrite Hv. Qed.

Lemma stored_ok x : snap_ok x -> entry_ok (physicalKey (se_key x)) (stored x).
Proof. intros Hk. by split_and!. Qed.

Lemma snapshot_stored p e : entry_ok p e -> e_version e <> 0 -> stored (snapshotEntryFromEntry e) = e.
Proof.
  intros (_ & _ & Hc) Hv. destruct e. unfold stored. cbn in *.
  rewrite (proj2 (Z.eqb_neq _ _) Hv). by subst.
Qed.

Lemma snap_cost_nonneg l : 0 <= snap_cost l.
Proof. apply lsum_nonneg. intros x _. apply costOf_nonneg. Qed.

Lemma room_cons x l m e : entries_ok m -> room (x :: l) m ->
  (m !! physicalKey (se_key x) = e) ->
  fits (<[physicalKey (se_key x) := stored x]> m) /\
  room l (<[physicalKey (se_key x) := stored x]> m) /\ room l m.
Proof.
  intros Hm [Hs Hc] He. set (p := physicalKey (se_key x)) in *.
  change (snap_cost (x :: l)) with (e_costBytes (stored x) + snap_cost l) in Hc.
  rewrite zlen_cons in Hs. pose proof (snap_cost_nonneg l). pose proof (zlen_nonneg l).
  assert (0 <= e_costBytes (stored x)) by apply costOf_nonneg.
  unfold fits, room. rewrite map_size_insert. destruct e as [e|]; rewrite He; unfold id.
  - destruct (sums_replace (spaceKeyOf (e_key e)) m p e (stored x) He) as (-> & _).
    pose proof (cost_nonneg m p e Hm He). split_and!; lia.
  - destruct (sums_insert (spaceKeyOf (se_key x)) m p (stored x) He) as (-> & _). split_and!; lia.
Qed.

(** Importing one entry stores the winner and counts it when it is the incoming one. *)
Lemma importEntry_spec x s : shard_inv s -> snap_ok x -> room [x] (sw_entries s) ->
  let p := physicalKey (se_key x) in
  let '(t, r) := importEntry x s in
  shard_inv t /\
  sw_entries t = <[p := merged (sw_entries s !! p) (stored x)]> (sw_entries s) /\
  r = Ok (match sw_entries s !! p with Some f => shouldImportEntry f (stored x) | None => true end).
Proof.
  intros Hi Hx Hroom. unfold importEntry. rewrite (entryFromSnapshot_ok x Hx).
  change (e_key (stored x)) with (se_key x). cbn zeta.
  destruct (room_cons x [] _ _ (inv_entries s Hi) Hroom eq_refl) as (Hf & _ & _).
  pose proof (stored_ok x Hx) as Hok. set (p := physicalKey (se_key x)) in *.
  destruct (sw_entries s !! p) as [f|] eqn:He; cbn [merged].
  - unfold replaceImportedEntry. destruct (shouldImportEntry f (stored x)) eqn:Hsh; cbn [negb].
    + assert (e_key (stored x) = e_key f) as Hk.
      { destruct (inv_entries s Hi p f He) as (Ep & [_ Ht] & _). destruct Hx as [_ Ht'].
        by apply physicalKey_inj. }
      split_and!; [by apply (replace_inv s p f) | | done].
      cbn. by rewrite replaceEntryCost_entries.
    + split_and!; [done| |done]. by rewrite insert_id.
  - split_and!; [by apply addEntry_inv|done|done].
Qed.

Lemma importEntries_spec l s n : shard_inv s -> Forall snap_ok l -> NoDup (snap_keys l) ->
  room l (sw_entries s) -> exists t k,
  importEntries l s n = (t, k, None) /\ shard_inv t /\
  (forall x, x ∈ l -> sw_entries t !! physicalKey (se_key x)
     = Some (merged (sw_entries s !! physicalKey (se_key x)) (stored x))) /\
  (forall p, p ∉ snap_keys l -> sw_entries t !! p = sw_entries s !! p).
Proof.
  revert s n. induction l as [|x l IH]; intros s n Hi Hok Hnd Hroom.
  { exists s, n. split_and!; [done|done|set_solver|done]. }
  apply Forall_cons in Hok as [Hx Hok]. unfold snap_keys in Hnd. rewrite fmap_cons in Hnd.
  apply NoDup_cons in Hnd as [Hnx Hnd]. fold (snap_keys l) in Hnx, Hnd. cbn [compose] in Hnx.
  destruct (room_cons x l _ _ (inv_entries s Hi) Hroom eq_refl) as (_ & Hr1 & Hr2).
  pose proof (importEntry_spec x s Hi Hx) as Hone. cbn [importEntries].
  destruct (importEntry x s) as [t r].
  destruct Hone as (Hit & Het & Hr).
  { destruct Hroom as [H1 H2]. unfold room. rewrite zlen_cons in *.
    change (snap_cost (x :: l)) with (e_costBytes (stored x) + snap_cost l) in H2.
    change (snap_cost [x]) with (e_costBytes (stored x) + 0). change (zlen []) with 0.
    pose proof (snap_cost_nonneg l). pose proof (zlen_nonneg l). lia. }
  assert (room l (sw_entries t)) as Hroom'.
  { rewrite Het. destruct (sw_entries s !! physicalKey (se_key x)) as [f|] eqn:He; cbn [merged]; [|done].
    case_bool; [done|]. by rewrite insert_id. }
  assert (exists m, (match r with
     | Ok true => importEntries l t (n +% 1) | Ok false => importEntries l t n
     | Err e => (t, n, Some e) end) = importEntries l t m) as [m ->]
    by (rewrite Hr; case_match; eauto; case_match; eauto).
  destruct (IH t m Hit Hok Hnd Hroom') as (u & k & -> & Hiu & Hin & Hout).
  exists u, k. split_and!; [done|done| |].
  - intros y [->|Hy]%elem_of_cons.
    + rewrite Hout by done. by rewrite Het, lookup_insert_eq.
    + rewrite Hin by done. rewrite Het, lookup_insert_ne; [done|].
      intros E. apply Hnx. rewrite E. by apply (list_elem_of_fmap_2 (physicalKey ∘ se_key)).
  - intros p Hp. unfold snap_keys in Hp. rewrite fmap_cons, not_elem_of_cons in Hp.
    destruct Hp as [Hpx Hpl]. rewrite Hout by done. by rewrite Het, lookup_insert_ne.
Qed.
End Importing.

(** ** Migration of a range *)

Definition versions_set (s : shardWorker) : Prop :=
  forall p e, sw_entries s !! p = Some e -> e_version e <> 0.

(** An entry a range export sends. *)
Definition moved (opts : RangeOptions) (e : entry) : bool :=
  negb (expired e (ro_now opts)) && entryInRange (e_key e) opts.

Section Migration.
  Context `{!RangeOrder}.
  Implicit Types (s t : shardWorker) (x : SnapshotEntry) (l : list SnapshotEntry).

Lemma snap_keys_range s (P : string * entry -> Prop) `{!forall i, Decision (P i)} : shard_inv s ->
  snap_keys ((fun item => snapshotEntryFromEntry item.2) <$> filter P (range_order (sw_entries s)))
  = (filter P (range_order (sw_entries s))).*1.
Proof.
  intros Hi. unfold snap_keys. rewrite <- list_fmap_compose. apply list_fmap_ext.
  intros i [p e] Hl. apply list_elem_of_lookup_2, list_elem_of_filter in Hl as [_ Hl].
  apply elem_of_range in Hl. destruct (inv_entries s Hi p e Hl) as (-> & _). done.
Qed.

Lemma export_ok opts s : shard_inv s ->
  Forall snap_ok (exportEntries opts s) /\ NoDup (snap_keys (exportEntries opts s)).
Proof.
  intros Hi. split.
  - apply Forall_forall. intros x (e & He & -> & _)%elem_of_export; [|done].
    by destruct (inv_entries s Hi _ e He) as (_ & ? & _).
  - unfold exportEntries. rewrite snap_keys_range by done. apply (bindings_of_range s).
Qed.

Lemma export_keys opts s p : shard_inv s ->
  p ∈ snap_keys (exportEntries opts s) <->
  exists e, sw_entries s !! p = Some e /\ moved opts e = true.
Proof.
  intros Hi. unfold exportEntries. rewrite snap_keys_range by done. rewrite list_elem_of_fmap. split.
  - intros ([q e] & -> & [Hc He]%list_elem_of_filter). apply elem_of_range in He. cbn [fst snd] in *.
    exists e. split; [done|]. unfold moved. bool_to_prop. by rewrite H0, H1.
  - intros (e & He & Hm). exists (p, e). split; [done|]. apply list_elem_of_filter.
    rewrite elem_of_range. split; [|done]. unfold moved in Hm. bool_to_prop. cbn [snd]. by rewrite H0, H1.
Qed.

Lemma export_import_lookup opts s t n : shard_inv s -> versions_set s -> shard_inv t ->
  room (exportEntries opts s) (sw_entries t) ->
  exists u k, importEntries (exportEntries opts s) t n = (u, k, None) /\ shard_inv u /\
  forall p, sw_entries u !! p =
    match sw_entries s !! p with
    | Some e => if moved opts e then Some (merged (sw_entries t !! p) e) else sw_entries t !! p
    | None => sw_entries t !! p
    end.
Proof.
  intros Hs Hv Ht Hroom. destruct (export_ok opts s Hs) as [Hok Hnd].
  destruct (importEntries_spec _ t n Ht Hok Hnd Hroom) as (u & k & E & Hu & Hin & Hout).
  exists u, k. split_and!; [done|done|]. intros p.
  destruct (decide (p ∈ snap_keys (exportEntries opts s))) as [Hp|Hp].
  - apply export_keys in Hp as (e & He & Hm); [|done]. rewrite He, Hm.
    destruct (inv_entries s Hs p e He) as (Ep & Hk & Hc).
    assert (snapshotEntryFromEntry e ∈ exportEntries opts s) as Hx.
    { apply elem_of_export; [done|]. exists e. cbn [se_key snapshotEntryFromEntry]. rewrite <- Ep. unfold moved in Hm. by bool_to_prop. }
    specialize (Hin _ Hx). cbn [se_key snapshotEntryFromEntry] in Hin. rewrite <- Ep in Hin. rewrite Hin. do 2 f_equal.
    by apply (snapshot_stored p); [split_and!|apply (Hv p)].
  - rewrite Hout by done. destruct (sw_entries s !! p) as [e|] eqn:He; [|done].
    case_bool; [|done]. exfalso. apply Hp. apply export_keys; [done|]. eauto.
Qed.

Lemma shouldImport_merged f e : shouldImportEntry (merged f e) e = false.
Proof.
  assert (shouldImportEntry e e = false) as Hr
    by (unfold shouldImportEntry, After; rewrite Z.eqb_refl; cbn; apply Z.ltb_irrefl).
  destruct f as [f|]; cbn [merged]; [|done]. by destruct (shouldImportEntry f e) eqn:E.
Qed.

Lemma import_stale l t n : Forall snap_ok l ->
  (forall x, x ∈ l -> exists f, sw_entries t !! physicalKey (se_key x) = Some f /\
     shouldImportEntry f (stored x) = false) ->
  importEntries l t n = (t, n, None).
Proof.
  induction l as [|x l IH]; intros Hok Hl; [done|]. apply Forall_cons in Hok as [Hx Hok].
  cbn [importEntries]. unfold importEntry. rewrite (entryFromSnapshot_ok x Hx).
  destruct (Hl x ltac:(set_solver)) as (f & Hf & Hs). change (e_key (stored x)) with (se_key x).
  rewrite Hf. unfold replaceImportedEntry. rewrite Hs. cbn [negb].
  apply IH; [done|]. intros y Hy. apply Hl. set_solver.
Qed.

Lemma import_again l s : shard_inv s -> Forall snap_ok l -> NoDup (snap_keys l) ->
  room l (sw_entries s) -> exists t k,
  importEntries l s 0 = (t, k, None) /\ importEntries l t 0 = (t, 0, None).
Proof.
  intros Hi Hok Hnd Hroom.
  destruct (importEntries_spec l s 0 Hi Hok Hnd Hroom) as (t & k & E & Ht & Hin & _).
  exists t, k. split; [done|]. apply import_stale; [done|].
  intros x Hx. rewrite (Hin x Hx). eexists. split; [done|]. apply shouldImport_merged.
Qed.

(** ** Snapshot and restore *)

Lemma emptyShard_inv id : shard_inv (emptyShard id).
Proof. by constructor. Qed.

Lemma restoreLoop_spec l s : shard_inv s -> Forall snap_ok l -> NoDup (snap_keys l) ->
  (forall p, p ∈ snap_keys l -> sw_entries s !! p = None) -> room l (sw_entries s) ->
  exists t, restoreLoop l s = (t, None) /\ shard_inv t /\
  (forall x, x ∈ l -> sw_entries t !! physicalKey (se_key x) = Some (stored x)) /\
  (forall p, p ∉ snap_keys l -> sw_entries t !! p = sw_entries s !! p).
Proof.
  revert s. induction l as [|x l IH]; intros s Hi Hok Hnd Hnew Hroom.
  { exists s. split_and!; [done|done|set_solver|done]. }
  apply Forall_cons in Hok as [Hx Hok]. unfold snap_keys in Hnd. rewrite fmap_cons in Hnd.
  apply NoDup_cons in Hnd as [Hnx Hnd]. fold (snap_keys l) in Hnx, Hnd. cbn [compose] in Hnx.
  destruct (room_cons x l _ _ (inv_entries s Hi) Hroom eq_refl) as (Hf & Hr & _).
  cbn [restoreLoop]. rewrite (entryFromSnapshot_ok x Hx). change (e_key (stored x)) with (se_key x).
  destruct (IH (addEntry (physicalKey (se_key x)) (stored x) s)) as (t & -> & Ht & Hin & Hout);
    [| done | done | | exact Hr |].
  - apply addEntry_inv; [done| |by apply stored_ok|done]. apply Hnew. apply elem_of_cons. by left.
  - intros p Hp. cbn. rewrite lookup_insert_ne; [|by intros <-].
    apply Hnew. apply elem_of_cons. by right.
  - exists t. split_and!; [done|done| |].
    + intros y [->|Hy]%elem_of_cons; [|by apply Hin]. rewrite Hout by done. cbn.
      by rewrite lookup_insert_eq.
    + intros p Hp. unfold snap_keys in Hp. rewrite fmap_cons, not_elem_of_cons in Hp.
      destruct Hp as [Hpx Hpl]. rewrite Hout by done. cbn. by rewrite lookup_insert_ne.
Qed.

(** The accounting is a function of the entries. *)
Lemma shard_inv_determined s t : shard_inv s -> shard_inv t -> sw_entries s = sw_entries t ->
  sw_objects s = sw_objects t /\ sw_memoryBytes s = sw_memoryBytes t /\ sw_spaces s = sw_spaces t.
Proof.
  intros [_ _ O1 M1 S1] [_ _ O2 M2 S2] E. split_and!; [congruence..|].
  apply map_eq. intros k. by rewrite S1, S2, E.
Qed.
End Migration.
