(* ===== verification/Primitives.v ===== *)
(** * Collection primitives (cache/engine: primitive*.go, collection_value.go)

    Maps, sets, scored sets, lists, bitmaps, cardinality sketches and geo sets
    kept as encoded values of ordinary entries: validation, the handlers, and
    the handlers' cost estimates.

    The containers come from the collectionx module, which is not part of the
    repository: a [Map] is a [gmap], a [Set] a [gset], a [List] a list, and their
    [MarshalBinary]/[UnmarshalBinary] are the operations of the class [Codec].
    The trigonometric functions of Go's math package are the class [GoMath];
    the rest of the arithmetic is IEEE 754's, from Stdlib's SpecFloat. *)

From S2P Require Import Prelude.
From S2P Require Import Binary.
From S2P Require Import GoStrings.
From S2P Require Import Routing.
From S2P Require Import EngineTypes.
From S2P Require Import Shard.

Local Open Scope Z_scope.
Local Open Scope nespa_scope.

(** ** Interfaces *)

(** [MarshalBinary] and [UnmarshalBinary] of a container; [None] is an error. *)
Class Codec (C : Type) := {
  marshal : C -> option (list byte);
  unmarshal : list byte -> option C
}.

(** What the engine relies on: what was marshalled is read back. *)
Class CodecLaws (C : Type) `{!Codec C} : Prop := {
  unmarshal_marshal : forall c b, marshal c = Some b -> unmarshal b = Some c
}.

Abbreviation mapCollection := (gmap string (list byte)).
Abbreviation setCollection := (gset string).
Abbreviation scoredSetCollection := (gmap string float64).
Abbreviation listCollection := (list (list byte)).
Abbreviation bitmapCollection := (gset Z).
Abbreviation geoCollection := (gmap string GeoPoint).

Class Codecs := {
  #[global] map_codec :: Codec mapCollection;
  #[global] set_codec :: Codec setCollection;
  #[global] scored_codec :: Codec scoredSetCollection;
  #[global] list_codec :: Codec listCollection;
  #[global] bitmap_codec :: Codec bitmapCollection;
  #[global] geo_codec :: Codec geoCollection
}.

Class GoMath := {
  math_Sin : float64 -> float64;
  math_Cos : float64 -> float64;
  math_Atan2 : float64 -> float64 -> float64
}.

(** ** primitive_types.go and primitive_validate.go *)

(** src: cache/engine/primitive_types.go Mutates *)
Definition Mutates (k : PrimitiveKind) : bool :=
  match k with
  | PrimitiveCounterAdjust | PrimitiveMapSet | PrimitiveMapDelete | PrimitiveSetAdd
  | PrimitiveSetRemove | PrimitiveScoredSetPut | PrimitiveScoredSetRemove
  | PrimitiveListPushFront | PrimitiveListPushBack | PrimitiveListPopFront
  | PrimitiveListPopBack | PrimitiveBitmapSetBit | PrimitiveHLLAdd | PrimitiveHLLMerge
  | PrimitiveGeoAdd => true
  | _ => false
  end.

(** src: cache/engine/primitive_validate.go requirePrimitiveField *)
Definition requirePrimitiveField (r : PrimitiveRequest) : option engineError :=
  if bool_decide (pr_field r = "") then Some ErrInvalidPrimitive else None.

(** src: cache/engine/primitive_validate.go requirePrimitiveMember *)
Definition requirePrimitiveMember (r : PrimitiveRequest) : option engineError :=
  if bool_decide (pr_member r = "") then Some ErrInvalidPrimitive else None.

(** src: cache/engine/primitive_validate.go invalidFloat *)
Definition invalidFloat (value : float64) : bool :=
  match value with S754_nan | S754_infinity _ => true | _ => false end.

(** src: cache/engine/primitive_validate.go validateScoredSetPut *)
Definition validateScoredSetPut (r : PrimitiveRequest) : option engineError :=
  match requirePrimitiveMember r with
  | Some e => Some e
  | None => if invalidFloat (pr_score r) then Some ErrInvalidPrimitive else None
  end.

(** src: cache/engine/primitive_validate.go validateScoredSetRange *)
Definition validateScoredSetRange (r : PrimitiveRequest) : option engineError :=
  if pr_hasMinScore r && invalidFloat (pr_minScore r) then Some ErrInvalidPrimitive
  else if pr_hasMaxScore r && invalidFloat (pr_maxScore r) then Some ErrInvalidPrimitive
  else if pr_hasMinScore r && pr_hasMaxScore r && SFltb (pr_maxScore r) (pr_minScore r)
  then Some ErrInvalidPrimitive
  else None.

(** src: cache/engine/primitive_validate.go validateListRange *)
Definition validateListRange (r : PrimitiveRequest) : option engineError :=
  if pr_start r <? 0 then Some ErrInvalidPrimitive else None.

(** [int] has 64 bits.
    src: cache/engine/primitive_validate.go validateBitmapOffset *)
Definition validateBitmapOffset (r : PrimitiveRequest) : option engineError :=
  if pr_delta r <? 0 then Some ErrInvalidPrimitive
  else if negb (s64 (pr_delta r) =? pr_delta r) then Some ErrInvalidPrimitive
  else None.

(** src: cache/engine/primitive_validate.go validateBitmapSetBit *)
Definition validateBitmapSetBit (r : PrimitiveRequest) : option engineError :=
  match validateBitmapOffset r with
  | Some e => Some e
  | None =>
      if negb (pr_initialValue r =? 0) && negb (pr_initialValue r =? 1)
      then Some ErrInvalidPrimitive else None
  end.

(** src: cache/engine/primitive_validate.go validateBitmapBitCount *)
Definition validateBitmapBitCount (r : PrimitiveRequest) : option engineError :=
  if pr_start r <? 0 then Some ErrInvalidPrimitive
  else if maxInt64 <? pr_limit r then Some ErrInvalidPrimitive
  else None.

(** The [float64] constants 90, 180 and their opposites. *)
Definition sf90 (sign : bool) : float64 := S754_finite sign 6333186975989760 (-46).
Definition sf180 (sign : bool) : float64 := S754_finite sign 6333186975989760 (-45).

(** src: cache/engine/primitive_validate.go validLongitude *)
Definition validLongitude (value : float64) : bool := SFleb (sf180 true) value && SFleb value (sf180 false).

(** src: cache/engine/primitive_validate.go validLatitude *)
Definition validLatitude (value : float64) : bool := SFleb (sf90 true) value && SFleb value (sf90 false).

(** src: cache/engine/primitive_validate.go validateGeoAdd *)
Definition validateGeoAdd (r : PrimitiveRequest) : option engineError :=
  match requirePrimitiveMember r with
  | Some e => Some e
  | None =>
      if negb (validLongitude (pr_score r)) || negb (validLatitude (pr_minScore r))
      then Some ErrInvalidPrimitive else None
  end.

(** src: cache/engine/primitive_validate.go validateGeoDist *)
Definition validateGeoDist (r : PrimitiveRequest) : option engineError :=
  if bool_decide (pr_member r = "") || bool_decide (pr_field r = "")
  then Some ErrInvalidPrimitive else None.

(** src: cache/engine/primitive_validate.go validateGeoRadius *)
Definition validateGeoRadius (r : PrimitiveRequest) : option engineError :=
  if negb (validLongitude (pr_score r)) || negb (validLatitude (pr_minScore r))
  then Some ErrInvalidPrimitive
  else if SFltb (pr_maxScore r) (S754_zero false) then Some ErrInvalidPrimitive
  else None.

(** The table [primitiveValidators].
    src: cache/engine/primitive_validate.go primitiveValidators 19-55 *)
Definition validatePrimitiveShape (r : PrimitiveRequest) : option engineError :=
  match pr_kind r with
  | PrimitiveMapSet | PrimitiveMapGet | PrimitiveMapDelete => requirePrimitiveField r
  | PrimitiveSetAdd | PrimitiveSetRemove | PrimitiveSetContains
  | PrimitiveScoredSetRemove | PrimitiveHLLAdd => requirePrimitiveMember r
  | PrimitiveScoredSetPut => validateScoredSetPut r
  | PrimitiveScoredSetRange => validateScoredSetRange r
  | PrimitiveListRange => validateListRange r
  | PrimitiveBitmapSetBit => validateBitmapSetBit r
  | PrimitiveBitmapGetBit => validateBitmapOffset r
  | PrimitiveBitmapBitCount => validateBitmapBitCount r
  | PrimitiveGeoAdd => validateGeoAdd r
  | PrimitiveGeoDist => validateGeoDist r
  | PrimitiveGeoRadius => validateGeoRadius r
  | PrimitiveUnknown _ => Some ErrInvalidPrimitive
  | PrimitiveCounterAdjust | PrimitiveMapGetAll | PrimitiveSetMembers
  | PrimitiveListPushFront | PrimitiveListPushBack | PrimitiveListPopFront
  | PrimitiveListPopBack | PrimitiveHLLCount | PrimitiveHLLMerge | PrimitiveHLLMembers => None
  end.

(** src: cache/engine/primitive_validate.go validatePrimitiveRequest *)
Definition validatePrimitiveRequest (r : PrimitiveRequest) : option engineError :=
  match validateKey (pr_key r) with
  | Some e => Some e
  | None =>
      if po_ttl (pr_options r) <? 0 then Some ErrInvalidPrimitive else validatePrimitiveShape r
  end.

(** ** collection_value.go *)

(** src: cache/engine/collection_value.go collectionKind 12-22 *)
Inductive collectionKind :=
| collectionKindMap
| collectionKindSet
| collectionKindScoredSet
| collectionKindList
| collectionKindBitmap
| collectionKindHLL
| collectionKindGeo.

Definition collectionKind_Z (k : collectionKind) : Z :=
  match k with
  | collectionKindMap => 1
  | collectionKindSet => 2
  | collectionKindScoredSet => 3
  | collectionKindList => 4
  | collectionKindBitmap => 5
  | collectionKindHLL => 6
  | collectionKindGeo => 7
  end.

(** src: cache/engine/collection_value.go collectionValuePrefix 24-24 *)
Definition collectionValuePrefix : list byte := str_bytes "nspac1".

(** src: cache/engine/collection_value.go encodeCollectionBody *)
Definition encodeCollectionBody (kind : collectionKind) (body : list byte) : list byte :=
  collectionValuePrefix ++ [byte_of_Z (collectionKind_Z kind)] ++ body.

(** src: cache/engine/collection_value.go decodeCollectionBody *)
Definition decodeCollectionBody (raw : list byte) (expected : collectionKind)
    : result engineError (list byte) :=
  let prefixSize := length collectionValuePrefix in
  if (length raw <=? prefixSize)%nat
     || negb (bool_decide (take prefixSize raw = collectionValuePrefix))
  then Err ErrInvalidCollection
  else match drop prefixSize raw with
  | b :: body =>
      if negb (byte_Z b =? collectionKind_Z expected) then Err ErrInvalidCollection else Ok body
  | [] => Err ErrInvalidCollection
  end.

(** The shape the seven encoders and the seven decoders of the file share:
    marshal and prefix, or check the prefix and unmarshal. *)
Definition encodeCollection {C} `{!Codec C} (kind : collectionKind) (c : C) : result engineError (list byte) :=
  match marshal c with
  | None => Err ErrInvalidCollection
  | Some body => Ok (encodeCollectionBody kind body)
  end.

Definition decodeCollection {C} `{!Codec C} (kind : collectionKind) (raw : list byte) : result engineError C :=
  match decodeCollectionBody raw kind with
  | Err e => Err e
  | Ok body =>
      match unmarshal body with
      | None => Err ErrInvalidCollection
      | Some c => Ok c
      end
  end.

(** src: cache/engine/collection_value.go encodeMapCollection *)
Definition encodeMapCollection `{!Codecs} (fields : mapCollection) : result engineError (list byte) :=
  encodeCollection collectionKindMap fields.

(** src: cache/engine/collection_value.go decodeMapCollection *)
Definition decodeMapCollection `{!Codecs} (raw : list byte) : result engineError mapCollection :=
  decodeCollection collectionKindMap raw.

(** src: cache/engine/collection_value.go encodeSetCollection *)
Definition encodeSetCollection `{!Codecs} (members : setCollection) : result engineError (list byte) :=
  encodeCollection collectionKindSet members.

(** src: cache/engine/collection_value.go decodeSetCollection *)
Definition decodeSetCollection `{!Codecs} (raw : list byte) : result engineError setCollection :=
  decodeCollection collectionKindSet raw.

(** src: cache/engine/collection_value.go encodeScoredSetCollection *)
Definition encodeScoredSetCollection `{!Codecs} (scores : scoredSetCollection) : result engineError (list byte) :=
  encodeCollection collectionKindScoredSet scores.

(** src: cache/engine/collection_value.go decodeScoredSetCollection *)
Definition decodeScoredSetCollection `{!Codecs} (raw : list byte) : result engineError scoredSetCollection :=
  decodeCollection collectionKindScoredSet raw.

(** src: cache/engine/collection_value.go encodeListCollection *)
Definition encodeListCollection `{!Codecs} (values : listCollection) : result engineError (list byte) :=
  encodeCollection collectionKindList values.

(** src: cache/engine/collection_value.go decodeListCollection *)
Definition decodeListCollection `{!Codecs} (raw : list byte) : result engineError listCollection :=
  decodeCollection collectionKindList raw.

(** src: cache/engine/collection_value.go encodeBitmapCollection *)
Definition encodeBitmapCollection `{!Codecs} (bits : bitmapCollection) : result engineError (list byte) :=
  encodeCollection collectionKindBitmap bits.

(** src: cache/engine/collection_value.go decodeBitmapCollection *)
Definition decodeBitmapCollection `{!Codecs} (raw : list byte) : result engineError bitmapCollection :=
  decodeCollection collectionKindBitmap raw.

(** src: cache/engine/collection_value.go encodeHLLCollection *)
Definition encodeHLLCollection `{!Codecs} (hashes : setCollection) : result engineError (list byte) :=
  encodeCollection collectionKindHLL hashes.

(** src: cache/engine/collection_value.go decodeHLLCollection *)
Definition decodeHLLCollection `{!Codecs} (raw : list byte) : result engineError setCollection :=
  decodeCollection collectionKindHLL raw.

(** src: cache/engine/collection_value.go encodeGeoCollection *)
Definition encodeGeoCollection `{!Codecs} (points : geoCollection) : result engineError (list byte) :=
  encodeCollection collectionKindGeo points.

(** src: cache/engine/collection_value.go decodeGeoCollection *)
Definition decodeGeoCollection `{!Codecs} (raw : list byte) : result engineError geoCollection :=
  decodeCollection collectionKindGeo raw.

(** ** primitive.go: entries *)

(** src: cache/engine/primitive.go primitiveExpectedVersionMatches *)
Definition primitiveExpectedVersionMatches (ent : option entry) (expected : Z) : bool :=
  if expected =? 0 then true
  else match ent with Some ent => e_version ent =? expected | None => false end.

(** src: cache/engine/primitive.go primitiveExpireAt *)
Definition primitiveExpireAt (opts : PrimitiveOptions) (now existing : Time) : Time :=
  if 0 <? po_ttl opts then TimeAdd now (po_ttl opts) else existing.

(** src: cache/engine/primitive.go primitiveGetOptions *)
Definition primitiveGetOptions (opts : PrimitiveOptions) : GetOptions :=
  mkGetOptions (po_namespaceVersion opts) (po_spaceVersion opts).

(** src: cache/engine/primitive.go primitiveWriteResult *)
Definition primitiveWriteResult (ent : entry) (count : Z) : PrimitiveResult :=
  mkPrimitiveResult (record ent) true true [] false count [] [] [] [].

(** src: cache/engine/primitive.go primitiveMiss *)
Definition primitiveMiss : shardResult := zeroResult.

(** [result.primitive.Bool = b] and [result.primitive.Value = v]. *)
Definition withBool (b : bool) (p : PrimitiveResult) : PrimitiveResult :=
  mkPrimitiveResult (pres_record p) (pres_found p) (pres_applied p) (pres_value p) b (pres_count p)
    (pres_fields p) (pres_members p) (pres_scoredMembers p) (pres_values p).

Definition withValue (v : list byte) (p : PrimitiveResult) : PrimitiveResult :=
  mkPrimitiveResult (pres_record p) (pres_found p) (pres_applied p) v (pres_bool p) (pres_count p)
    (pres_fields p) (pres_members p) (pres_scoredMembers p) (pres_values p).

Definition onPrimitive (f : PrimitiveResult -> PrimitiveResult) (r : shardResult) : shardResult :=
  mkResult (res_record r) (res_found r) (res_deleted r) (res_touched r) (f (res_primitive r))
    (res_estimate r) (res_stats r) (res_spaces r) (res_snapshot r) (res_imported r)
    (res_deletedRange r) (res_swept r) (res_evicted r) (res_err r).

(** src: cache/engine/primitive.go readPrimitiveEntry *)
Definition readPrimitiveEntry (s : shardWorker) (cmd : shardCommand) : shardWorker * option entry :=
  match sw_entries s !! c_physical cmd with
  | None => (s, None)
  | Some ent =>
      if expired ent (c_now cmd) then (deleteEntry (c_physical cmd) ent s, None)
      else if negb (visible ent (primitiveGetOptions (pr_options (c_primitive cmd)))) then (s, None)
      else
        let ent := touchAccess ent (c_now cmd) in
        (storeEntry (c_physical cmd) ent s, Some ent)
  end.

(** src: cache/engine/primitive.go replacePrimitiveEntry *)
Definition replacePrimitiveEntry (s : shardWorker) (ent : entry) (cmd : shardCommand)
    (value : list byte) (expireAt : Time) : shardWorker * entry :=
  let cost := costOf (c_key cmd) value in
  let s := replaceEntryCost (e_key ent) (e_costBytes ent) cost s in
  let ent := mkEntry (e_key ent) value (e_version ent +% 1)
      (po_namespaceVersion (pr_options (c_primitive cmd)))
      (po_spaceVersion (pr_options (c_primitive cmd)))
      expireAt (e_createdAt ent) (c_now cmd) (c_now cmd) (e_accessCount ent +% 1) cost in
  (storeEntry (c_physical cmd) ent s, ent).

(** src: cache/engine/primitive.go writePrimitiveEntry *)
Definition writePrimitiveEntry (s : shardWorker) (cmd : shardCommand) (ent : entry)
    (value : list byte) (count : Z) : shardWorker * PrimitiveResult :=
  if bool_decide (e_value ent = value) then (s, primitiveWriteResult ent count)
  else
    let expireAt := primitiveExpireAt (pr_options (c_primitive cmd)) (c_now cmd) (e_expireAt ent) in
    let '(s, ent) := replacePrimitiveEntry s ent cmd value expireAt in
    (s, primitiveWriteResult ent count).

(** src: cache/engine/primitive.go createPrimitiveEntry *)
Definition createPrimitiveEntry (s : shardWorker) (cmd : shardCommand) (value : list byte) (count : Z)
    : shardWorker * PrimitiveResult :=
  let expireAt := primitiveExpireAt (pr_options (c_primitive cmd)) (c_now cmd) zeroTime in
  let cost := costOf (c_key cmd) value in
  let ent := mkEntry (c_key cmd) value 1
      (po_namespaceVersion (pr_options (c_primitive cmd)))
      (po_spaceVersion (pr_options (c_primitive cmd)))
      expireAt (c_now cmd) (c_now cmd) (c_now cmd) 1 cost in
  (addEntry (c_physical cmd) ent s, primitiveWriteResult ent count).

(** The entry to change: [None] when the expected version does not match, else
    the existing entry if there is one.
    src: cache/engine/primitive.go mutablePrimitiveEntry *)
Definition mutablePrimitiveEntry (s : shardWorker) (cmd : shardCommand)
    : shardWorker * option (option entry) :=
  let ent := sw_entries s !! c_physical cmd in
  let check :=
    if negb (primitiveExpectedVersionMatches ent (po_expectedVersion (pr_options (c_primitive cmd))))
    then (s, None) else (s, Some ent) in
  match ent with
  | Some e => if expired e (c_now cmd) then (deleteEntry (c_physical cmd) e s, Some None) else check
  | None => check
  end.

(** ** Opening, reading and writing a collection *)

(** The results of [mutableMap] and its like: an error, a version that does not
    match, a new collection, or the collection of an entry. *)
Inductive opened (C : Type) :=
| OpenErr (e : engineError)
| OpenRefused
| OpenNew (c : C)
| OpenExisting (c : C) (ent : entry).
Arguments OpenErr {C} e.
Arguments OpenRefused {C}.
Arguments OpenNew {C} c.
Arguments OpenExisting {C} c ent.

(** The results of [readMap] and its like. *)
Inductive readout (C : Type) :=
| ReadErr (e : engineError)
| ReadMiss
| ReadOk (c : C) (ent : entry).
Arguments ReadErr {C} e.
Arguments ReadMiss {C}.
Arguments ReadOk {C} c ent.

(** The body the seven [mutable...] functions share. *)
Definition mutableCollection {C} (decode : list byte -> result engineError C) (empty : C)
    (s : shardWorker) (cmd : shardCommand) : shardWorker * opened C :=
  match mutablePrimitiveEntry s cmd with
  | (s, None) => (s, OpenRefused)
  | (s, Some None) => (s, OpenNew empty)
  | (s, Some (Some ent)) =>
      match decode (e_value ent) with
      | Err e => (s, OpenErr e)
      | Ok c => (s, OpenExisting c ent)
      end
  end.

(** The body the seven [read...] functions share. *)
Definition readCollection {C} (decode : list byte -> result engineError C)
    (s : shardWorker) (cmd : shardCommand) : shardWorker * readout C :=
  match readPrimitiveEntry s cmd with
  | (s, None) => (s, ReadMiss)
  | (s, Some ent) =>
      match decode (e_value ent) with
      | Err e => (s, ReadErr e)
      | Ok c => (s, ReadOk c ent)
      end
  end.

(** The body the seven [write...Collection] functions share. *)
Definition writeCollection {C} (encode : C -> result engineError (list byte)) (count : C -> Z)
    (s : shardWorker) (cmd : shardCommand) (ent : option entry) (c : C) : shardWorker * shardResult :=
  match encode c with
  | Err e => (s, resErr (Some e))
  | Ok value =>
      match ent with
      | None => let '(s, p) := createPrimitiveEntry s cmd value (checkedUint64 (count c)) in (s, resPrimitive p)
      | Some ent => let '(s, p) := writePrimitiveEntry s cmd ent value (checkedUint64 (count c)) in (s, resPrimitive p)
      end
  end.

(** The body the [estimate...Collection] functions share. *)
Definition estimateCollection {C} (encode : C -> result engineError (list byte)) (onErr : engineError -> shardResult)
    (cmd : shardCommand) (ent : option entry) (c : C) : shardResult :=
  match encode c with
  | Err e => onErr e
  | Ok value => resEstimate (estimateWriteCost cmd ent value)
  end.

(** A handler that changes a collection: [err != nil || !ok] returns [err]. *)
Definition onOpened {C} (o : shardWorker * opened C)
    (k : shardWorker -> option entry -> C -> shardWorker * shardResult) : shardWorker * shardResult :=
  match o with
  | (s, OpenErr e) => (s, resErr (Some e))
  | (s, OpenRefused) => (s, resErr None)
  | (s, OpenNew c) => k s None c
  | (s, OpenExisting c ent) => k s (Some ent) c
  end.

(** A handler that reads a collection. *)
Definition onRead {C} (o : shardWorker * readout C)
    (k : entry -> C -> PrimitiveResult) : shardWorker * shardResult :=
  match o with
  | (s, ReadErr e) => (s, resErr (Some e))
  | (s, ReadMiss) => (s, resErr None)
  | (s, ReadOk c ent) => (s, resPrimitive (k ent c))
  end.

(** An estimate over a collection. *)
Definition onEstimate {C} (cmd : shardCommand) (o : shardWorker * opened C)
    (k : option entry -> C -> shardResult) : shardWorker * shardResult :=
  match o with
  | (s, OpenErr e) => (s, resErrEstimate (Some e) (mkWriteEstimate (c_key cmd) false 0 0))
  | (s, OpenRefused) => (s, resErrEstimate None (mkWriteEstimate (c_key cmd) false 0 0))
  | (s, OpenNew c) => (s, k None c)
  | (s, OpenExisting c ent) => (s, k (Some ent) c)
  end.

(** src: cache/engine/primitive_estimate_types.go unchangedPrimitiveEstimate *)
Definition unchangedPrimitiveEstimate (cmd : shardCommand) (ent : entry) : WriteEstimate :=
  mkWriteEstimate (c_key cmd) true (e_costBytes ent) (e_costBytes ent).

(** The estimate that does not apply. *)
Definition noEstimate (cmd : shardCommand) : shardResult :=
  resEstimate (mkWriteEstimate (c_key cmd) false 0 0).

Section Handlers.
  Context `{!Codecs, !GoMath, !RangeOrder}.

(** src: cache/engine/primitive_map.go mutableMap *)
Definition mutableMap (s : shardWorker) (cmd : shardCommand) : shardWorker * opened mapCollection :=
  mutableCollection decodeMapCollection ∅ s cmd.

(** src: cache/engine/primitive_map.go readMap *)
Definition readMap (s : shardWorker) (cmd : shardCommand) : shardWorker * readout mapCollection :=
  readCollection decodeMapCollection s cmd.

(** src: cache/engine/primitive_map.go writeMapCollection *)
Definition writeMapCollection (s : shardWorker) (cmd : shardCommand) (ent : option entry)
    (fields : mapCollection) : shardWorker * shardResult :=
  writeCollection encodeMapCollection (fun fields => Z.of_nat (size fields)) s cmd ent fields.

(** src: cache/engine/primitive_set.go mutableSet *)
Definition mutableSet (s : shardWorker) (cmd : shardCommand) : shardWorker * opened setCollection :=
  mutableCollection decodeSetCollection ∅ s cmd.

(** src: cache/engine/primitive_set.go readSet *)
Definition readSet (s : shardWorker) (cmd : shardCommand) : shardWorker * readout setCollection :=
  readCollection decodeSetCollection s cmd.

(** src: cache/engine/primitive_set.go writeSetCollection *)
Definition writeSetCollection (s : shardWorker) (cmd : shardCommand) (ent : option entry)
    (members : setCollection) : shardWorker * shardResult :=
  writeCollection encodeSetCollection (fun members => Z.of_nat (size members)) s cmd ent members.

(** src: cache/engine/primitive_scored_set.go mutableScoredSet *)
Definition mutableScoredSet (s : shardWorker) (cmd : shardCommand) : shardWorker * opened scoredSetCollection :=
  mutableCollection decodeScoredSetCollection ∅ s cmd.

(** src: cache/engine/primitive_scored_set.go readScoredSet *)
Definition readScoredSet (s : shardWorker) (cmd : shardCommand) : shardWorker * readout scoredSetCollection :=
  readCollection decodeScoredSetCollection s cmd.

(** src: cache/engine/primitive_scored_set.go writeScoredSetCollection *)
Definition writeScoredSetCollection (s : shardWorker) (cmd : shardCommand) (ent : option entry)
    (scores : scoredSetCollection) : shardWorker * shardResult :=
  writeCollection encodeScoredSetCollection (fun scores => Z.of_nat (size scores)) s cmd ent scores.

(** src: cache/engine/primitive_list.go mutableList *)
Definition mutableList (s : shardWorker) (cmd : shardCommand) : shardWorker * opened listCollection :=
  mutableCollection decodeListCollection [] s cmd.

(** src: cache/engine/primitive_list.go readList *)
Definition readList (s : shardWorker) (cmd : shardCommand) : shardWorker * readout listCollection :=
  readCollection decodeListCollection s cmd.

(** src: cache/engine/primitive_list.go writeListCollection *)
Definition writeListCollection (s : shardWorker) (cmd : shardCommand) (ent : option entry)
    (values : listCollection) : shardWorker * shardResult :=
  writeCollection encodeListCollection (fun values => zlen values) s cmd ent values.

(** src: cache/engine/primitive_bitmap.go mutableBitmap *)
Definition mutableBitmap (s : shardWorker) (cmd : shardCommand) : shardWorker * opened bitmapCollection :=
  mutableCollection decodeBitmapCollection ∅ s cmd.

(** src: cache/engine/primitive_bitmap.go readBitmap *)
Definition readBitmap (s : shardWorker) (cmd : shardCommand) : shardWorker * readout bitmapCollection :=
  readCollection decodeBitmapCollection s cmd.

(** src: cache/engine/primitive_bitmap.go writeBitmapCollection *)
Definition writeBitmapCollection (s : shardWorker) (cmd : shardCommand) (ent : option entry)
    (bits : bitmapCollection) : shardWorker * shardResult :=
  writeCollection encodeBitmapCollection (fun bits => Z.of_nat (size bits)) s cmd ent bits.

(** src: cache/engine/primitive_hll.go mutableHLL *)
Definition mutableHLL (s : shardWorker) (cmd : shardCommand) : shardWorker * opened setCollection :=
  mutableCollection decodeHLLCollection ∅ s cmd.

(** src: cache/engine/primitive_hll.go readHLL *)
Definition readHLL (s : shardWorker) (cmd : shardCommand) : shardWorker * readout setCollection :=
  readCollection decodeHLLCollection s cmd.

(** src: cache/engine/primitive_hll.go writeHLLCollection *)
Definition writeHLLCollection (s : shardWorker) (cmd : shardCommand) (ent : option entry)
    (hashes : setCollection) : shardWorker * shardResult :=
  writeCollection encodeHLLCollection (fun hashes => Z.of_nat (size hashes)) s cmd ent hashes.

(** src: cache/engine/primitive_geo.go mutableGeo *)
Definition mutableGeo (s : shardWorker) (cmd : shardCommand) : shardWorker * opened geoCollection :=
  mutableCollection decodeGeoCollection ∅ s cmd.

(** src: cache/engine/primitive_geo.go readGeo *)
Definition readGeo (s : shardWorker) (cmd : shardCommand) : shardWorker * readout geoCollection :=
  readCollection decodeGeoCollection s cmd.

(** src: cache/engine/primitive_geo.go writeGeoCollection *)
Definition writeGeoCollection (s : shardWorker) (cmd : shardCommand) (ent : option entry)
    (points : geoCollection) : shardWorker * shardResult :=
  writeCollection encodeGeoCollection (fun points => Z.of_nat (size points)) s cmd ent points.

(** ** primitive_map.go *)

(** src: cache/engine/primitive_map.go sameMapField *)
Definition sameMapField (fields : mapCollection) (field : string) (value : list byte) : bool :=
  match fields !! field with
  | Some current => bool_decide (current = value)
  | None => false
  end.

Definition field_le (a b : MapField) : Prop := String.leb (mf_field a) (mf_field b) = true.

#[global] Instance field_le_dec a b : Decision (field_le a b).
Proof. unfold field_le. apply _. Defined.

(** src: cache/engine/primitive_map.go mapFields *)
Definition mapFields (fields : mapCollection) : list MapField :=
  merge_sort field_le ((fun item => mkMapField item.1 item.2) <$> range_order fields).

(** [checkedUint64(c.Len())] of a map and of a set. *)
Definition mapLen {A} (m : gmap string A) : Z := checkedUint64 (Z.of_nat (size m)).
Definition setLen {K} `{Countable K} (m : gset K) : Z := checkedUint64 (Z.of_nat (size m)).

(** src: cache/engine/primitive_map.go applyMapSet *)
Definition applyMapSet (s : shardWorker) (cmd : shardCommand) : shardWorker * shardResult :=
  onOpened (mutableMap s cmd) (fun s ent fields =>
    let write := writeMapCollection s cmd ent
      (<[pr_field (c_primitive cmd) := pr_value (c_primitive cmd)]> fields) in
    match ent with
    | Some e =>
        if sameMapField fields (pr_field (c_primitive cmd)) (pr_value (c_primitive cmd))
        then (s, resPrimitive (primitiveWriteResult e (mapLen fields))) else write
    | None => write
    end).

(** src: cache/engine/primitive_map.go applyMapGet *)
Definition applyMapGet (s : shardWorker) (cmd : shardCommand) : shardWorker * shardResult :=
  onRead (readMap s cmd) (fun ent fields =>
    let value := fields !! pr_field (c_primitive cmd) in
    mkPrimitiveResult (record ent) (bool_decide (is_Some value)) false (default [] value) false
      (mapLen fields) [] [] [] []).

(** src: cache/engine/primitive_map.go applyMapDelete *)
Definition applyMapDelete (s : shardWorker) (cmd : shardCommand) : shardWorker * shardResult :=
  onOpened (mutableMap s cmd) (fun s ent fields =>
    match ent with
    | None => (s, primitiveMiss)
    | Some e =>
        match fields !! pr_field (c_primitive cmd) with
        | None => (s, resPrimitive (withBool false (primitiveWriteResult e (mapLen fields))))
        | Some _ =>
            let '(s, r) := writeMapCollection s cmd ent (delete (pr_field (c_primitive cmd)) fields) in
            (s, onPrimitive (withBool true) r)
        end
    end).

(** src: cache/engine/primitive_map.go applyMapGetAll *)
Definition applyMapGetAll (s : shardWorker) (cmd : shardCommand) : shardWorker * shardResult :=
  onRead (readMap s cmd) (fun ent fields =>
    mkPrimitiveResult (record ent) true false [] false (mapLen fields) (mapFields fields) [] [] []).

(** src: cache/engine/primitive_map_estimate.go estimateMapCollection *)
Definition estimateMapCollection (cmd : shardCommand) (ent : option entry) (fields : mapCollection) : shardResult :=
  estimateCollection encodeMapCollection (fun e => resErr (Some e)) cmd ent fields.

(** src: cache/engine/primitive_map_estimate.go estimateMapSet *)
Definition estimateMapSet (cmd : shardCommand) (ent : option entry) (fields : mapCollection) : shardResult :=
  let estimate := estimateMapCollection cmd ent
    (<[pr_field (c_primitive cmd) := pr_value (c_primitive cmd)]> fields) in
  match ent with
  | Some e =>
      if sameMapField fields (pr_field (c_primitive cmd)) (pr_value (c_primitive cmd))
      then resEstimate (unchangedPrimitiveEstimate cmd e) else estimate
  | None => estimate
  end.

(** src: cache/engine/primitive_map_estimate.go estimateMapDelete *)
Definition estimateMapDelete (cmd : shardCommand) (ent : option entry) (fields : mapCollection) : shardResult :=
  match ent with
  | None => noEstimate cmd
  | Some e =>
      match fields !! pr_field (c_primitive cmd) with
      | None => resEstimate (unchangedPrimitiveEstimate cmd e)
      | Some _ => estimateMapCollection cmd ent (delete (pr_field (c_primitive cmd)) fields)
      end
  end.

(** src: cache/engine/primitive_map_estimate.go estimateMapPrimitive *)
Definition estimateMapPrimitive (s : shardWorker) (cmd : shardCommand) : shardWorker * shardResult :=
  onEstimate cmd (mutableMap s cmd) (fun ent fields =>
    match pr_kind (c_primitive cmd) with
    | PrimitiveMapSet => estimateMapSet cmd ent fields
    | PrimitiveMapDelete => estimateMapDelete cmd ent fields
    | _ => resErr (Some ErrInvalidPrimitive)
    end).

(** ** primitive_set.go *)

Definition string_le (a b : string) : Prop := String.leb a b = true.

#[global] Instance string_le_dec a b : Decision (string_le a b).
Proof. unfold string_le. apply _. Defined.

(** The members are distinct, so their order before the sort does not matter.
    src: cache/engine/primitive_set.go sortedMembers *)
Definition sortedMembers (members : setCollection) : list string :=
  merge_sort string_le (elements members).

(** src: cache/engine/primitive_set.go applySetAdd *)
Definition applySetAdd (s : shardWorker) (cmd : shardCommand) : shardWorker * shardResult :=
  onOpened (mutableSet s cmd) (fun s ent members =>
    let write :=
      let '(s, r) := writeSetCollection s cmd ent ({[pr_member (c_primitive cmd)]} ∪ members) in
      (s, onPrimitive (withBool true) r) in
    match ent with
    | Some e =>
        if bool_decide (pr_member (c_primitive cmd) ∈ members)
        then (s, resPrimitive (withBool false (primitiveWriteResult e (setLen members)))) else write
    | None => write
    end).

(** src: cache/engine/primitive_set.go applySetRemove *)
Definition applySetRemove (s : shardWorker) (cmd : shardCommand) : shardWorker * shardResult :=
  onOpened (mutableSet s cmd) (fun s ent members =>
    match ent with
    | None => (s, primitiveMiss)
    | Some e =>
        if negb (bool_decide (pr_member (c_primitive cmd) ∈ members))
        then (s, resPrimitive (withBool false (primitiveWriteResult e (setLen members))))
        else
          let '(s, r) := writeSetCollection s cmd ent (members ∖ {[pr_member (c_primitive cmd)]}) in
          (s, onPrimitive (withBool true) r)
    end).

(** src: cache/engine/primitive_set.go applySetContains *)
Definition applySetContains (s : shardWorker) (cmd : shardCommand) : shardWorker * shardResult :=
  onRead (readSet s cmd) (fun ent members =>
    mkPrimitiveResult (record ent) true false [] (bool_decide (pr_member (c_primitive cmd) ∈ members))
      (setLen members) [] [] [] []).

(** src: cache/engine/primitive_set.go applySetMembers *)
Definition applySetMembers (s : shardWorker) (cmd : shardCommand) : shardWorker * shardResult :=
  onRead (readSet s cmd) (fun ent members =>
    mkPrimitiveResult (record ent) true false [] false (setLen members) [] (sortedMembers members) [] []).

(** src: cache/engine/primitive_set_estimate.go estimateSetCollection *)
Definition estimateSetCollection (cmd : shardCommand) (ent : option entry) (members : setCollection) : shardResult :=
  estimateCollection encodeSetCollection (fun e => resErr (Some e)) cmd ent members.

(** src: cache/engine/primitive_set_estimate.go estimateSetAdd *)
Definition estimateSetAdd (cmd : shardCommand) (ent : option entry) (members : setCollection) : shardResult :=
  let estimate := estimateSetCollection cmd ent ({[pr_member (c_primitive cmd)]} ∪ members) in
  match ent with
  | Some e =>
      if bool_decide (pr_member (c_primitive cmd) ∈ members)
      then resEstimate (unchangedPrimitiveEstimate cmd e) else estimate
  | None => estimate
  end.

(** src: cache/engine/primitive_set_estimate.go estimateSetRemove *)
Definition estimateSetRemove (cmd : shardCommand) (ent : option entry) (members : setCollection) : shardResult :=
  match ent with
  | None => noEstimate cmd
  | Some e =>
      if negb (bool_decide (pr_member (c_primitive cmd) ∈ members))
      then resEstimate (unchangedPrimitiveEstimate cmd e)
      else estimateSetCollection cmd ent (members ∖ {[pr_member (c_primitive cmd)]})
  end.

(** src: cache/engine/primitive_set_estimate.go estimateSetPrimitive *)
Definition estimateSetPrimitive (s : shardWorker) (cmd : shardCommand) : shardWorker * shardResult :=
  onEstimate cmd (mutableSet s cmd) (fun ent members =>
    match pr_kind (c_primitive cmd) with
    | PrimitiveSetAdd => estimateSetAdd cmd ent members
    | PrimitiveSetRemove => estimateSetRemove cmd ent members
    | _ => resErr (Some ErrInvalidPrimitive)
    end).

(** ** primitive_scored_set.go *)

(** [items[i].Score < items[j].Score], ties by member: the [less] of the sorts.
    src: cache/engine/primitive_scored_set.go sortedScoredMembers 118-123 *)
Definition scoredLess (a b : ScoredMember) : bool :=
  if SFeqb (sm_score a) (sm_score b) then String.ltb (sm_member a) (sm_member b)
  else SFltb (sm_score a) (sm_score b).

Definition scored_le (a b : ScoredMember) : Prop := scoredLess b a = false.

#[global] Instance scored_le_dec a b : Decision (scored_le a b).
Proof. unfold scored_le. apply _. Defined.

(** src: cache/engine/primitive_scored_set.go sortedScoredMembers *)
Definition sortedScoredMembers (scores : scoredSetCollection) : list ScoredMember :=
  merge_sort scored_le ((fun item => mkScoredMember item.1 item.2) <$> range_order scores).

(** src: cache/engine/primitive_scored_set.go filterScoredRange *)
Fixpoint filterScoredRange (items : list ScoredMember) (r : PrimitiveRequest) : list ScoredMember :=
  match items with
  | [] => []
  | item :: rest =>
      if pr_hasMinScore r && SFltb (sm_score item) (pr_minScore r) then filterScoredRange rest r
      else if pr_hasMaxScore r && SFltb (pr_maxScore r) (sm_score item) then filterScoredRange rest r
      else item :: filterScoredRange rest r
  end.

(** The swaps of [reverseScoredMembers] reverse the slice.
    src: cache/engine/primitive_scored_set.go reverseScoredMembers *)
Definition reverseScoredMembers (items : list ScoredMember) : list ScoredMember := reverse items.

(** The loop of [limitScoredMembers]: the index after the last item kept.
    src: cache/engine/primitive_scored_set.go limitScoredMembers 155-160 *)
Fixpoint limitLoop (items : list ScoredMember) (index : nat) (end' : nat) (limit : Z) : nat :=
  match items with
  | [] => end'
  | _ :: rest =>
      if limit <=? checkedUint64 (Z.of_nat index) then end'
      else limitLoop rest (S index) (index + 1)%nat limit
  end.

(** src: cache/engine/primitive_scored_set.go limitScoredMembers *)
Definition limitScoredMembers (items : list ScoredMember) (limit : Z) : list ScoredMember :=
  if (limit =? 0) || (checkedUint64 (zlen items) <=? limit) then items
  else take (limitLoop items 0 0 limit) items.

(** src: cache/engine/primitive_scored_set.go scoredRange *)
Definition scoredRange (scores : scoredSetCollection) (r : PrimitiveRequest) : list ScoredMember :=
  let items := sortedScoredMembers scores in
  let items := filterScoredRange items r in
  let items := if pr_reverse r then reverseScoredMembers items else items in
  limitScoredMembers items (pr_limit r).

(** src: cache/engine/primitive_scored_set.go applyScoredSetPut *)
Definition applyScoredSetPut (s : shardWorker) (cmd : shardCommand) : shardWorker * shardResult :=
  onOpened (mutableScoredSet s cmd) (fun s ent scores =>
    let current := scores !! pr_member (c_primitive cmd) in
    let write :=
      let '(s, r) := writeScoredSetCollection s cmd ent
        (<[pr_member (c_primitive cmd) := pr_score (c_primitive cmd)]> scores) in
      (s, onPrimitive (withBool (negb (bool_decide (is_Some current)))) r) in
    match ent, current with
    | Some e, Some score =>
        if SFeqb score (pr_score (c_primitive cmd))
        then (s, resPrimitive (withBool false (primitiveWriteResult e (mapLen scores)))) else write
    | _, _ => write
    end).

(** src: cache/engine/primitive_scored_set.go applyScoredSetRemove *)
Definition applyScoredSetRemove (s : shardWorker) (cmd : shardCommand) : shardWorker * shardResult :=
  onOpened (mutableScoredSet s cmd) (fun s ent scores =>
    match ent with
    | None => (s, primitiveMiss)
    | Some e =>
        match scores !! pr_member (c_primitive cmd) with
        | None => (s, resPrimitive (withBool false (primitiveWriteResult e (mapLen scores))))
        | Some _ =>
            let '(s, r) := writeScoredSetCollection s cmd ent (delete (pr_member (c_primitive cmd)) scores) in
            (s, onPrimitive (withBool true) r)
        end
    end).

(** src: cache/engine/primitive_scored_set.go applyScoredSetRange *)
Definition applyScoredSetRange (s : shardWorker) (cmd : shardCommand) : shardWorker * shardResult :=
  onRead (readScoredSet s cmd) (fun ent scores =>
    mkPrimitiveResult (record ent) true false [] false (mapLen scores) [] []
      (scoredRange scores (c_primitive cmd)) []).

(** src: cache/engine/primitive_scored_set_estimate.go estimateScoredSetCollection *)
Definition estimateScoredSetCollection (cmd : shardCommand) (ent : option entry)
    (scores : scoredSetCollection) : shardResult :=
  estimateCollection encodeScoredSetCollection (fun e => resErr (Some e)) cmd ent scores.

(** src: cache/engine/primitive_scored_set_estimate.go estimateScoredSetPut *)
Definition estimateScoredSetPut (cmd : shardCommand) (ent : option entry)
    (scores : scoredSetCollection) : shardResult :=
  let estimate := estimateScoredSetCollection cmd ent
    (<[pr_member (c_primitive cmd) := pr_score (c_primitive cmd)]> scores) in
  match ent, scores !! pr_member (c_primitive cmd) with
  | Some e, Some score =>
      if SFeqb score (pr_score (c_primitive cmd))
      then resEstimate (unchangedPrimitiveEstimate cmd e) else estimate
  | _, _ => estimate
  end.

(** src: cache/engine/primitive_scored_set_estimate.go estimateScoredSetRemove *)
Definition estimateScoredSetRemove (cmd : shardCommand) (ent : option entry)
    (scores : scoredSetCollection) : shardResult :=
  match ent with
  | None => noEstimate cmd
  | Some e =>
      match scores !! pr_member (c_primitive cmd) with
      | None => resEstimate (unchangedPrimitiveEstimate cmd e)
      | Some _ => estimateScoredSetCollection cmd ent (delete (pr_member (c_primitive cmd)) scores)
      end
  end.

(** src: cache/engine/primitive_scored_set_estimate.go estimateScoredSetPrimitive *)
Definition estimateScoredSetPrimitive (s : shardWorker) (cmd : shardCommand) : shardWorker * shardResult :=
  onEstimate cmd (mutableScoredSet s cmd) (fun ent scores =>
    match pr_kind (c_primitive cmd) with
    | PrimitiveScoredSetPut => estimateScoredSetPut cmd ent scores
    | PrimitiveScoredSetRemove => estimateScoredSetRemove cmd ent scores
    | _ => resErr (Some ErrInvalidPrimitive)
    end).

(** ** primitive_list.go *)

(** src: cache/engine/primitive_list.go listStartIndex *)
Definition listStartIndex (start : Z) (length : Z) : Z :=
  if start <? 0 then 0 else if length <? start then length else start.

(** The loop of [listEndIndex]; it runs at most [length] times.
    src: cache/engine/primitive_list.go listEndIndex 146-151 *)
Fixpoint listEndLoop (fuel : nat) (end' limit length : Z) : Z :=
  match fuel with
  | O => end'
  | S fuel => if (end' <? length) && (0 <? limit) then listEndLoop fuel (end' + 1) (limit -% 1) length else end'
  end.

(** src: cache/engine/primitive_list.go listEndIndex *)
Definition listEndIndex (start limit length : Z) : Z :=
  if limit =? 0 then length else listEndLoop (Z.to_nat length) start limit length.

(** A slice expression [items[start:stop]]. *)
Definition slice {A} (items : list A) (start stop : Z) : list A :=
  take (Z.to_nat (stop - start)) (drop (Z.to_nat start) items).

(** src: cache/engine/primitive_list.go listRangeValues *)
Definition listRangeValues (values : listCollection) (r : PrimitiveRequest) : list (list byte) :=
  let items := if pr_reverse r then reverse values else values in
  let start := listStartIndex (pr_start r) (zlen items) in
  if zlen items <=? start then []
  else slice items start (listEndIndex start (pr_limit r) (zlen items)).

(** [values.AddAt(0, value)] or [values.Add(value)]. *)
Definition pushed (values : listCollection) (value : list byte) (front : bool) : listCollection :=
  if front then value :: values else values ++ [value].

(** [values.RemoveAt(index)] at the first or the last index: the value removed
    and the values left, or [None] when there is no such index. *)
Definition popped (values : listCollection) (front : bool) : option (list byte * listCollection) :=
  let index := if front then 0%nat else (length values - 1)%nat in
  match values !! index with
  | Some value => Some (value, delete index values)
  | None => None
  end.

(** src: cache/engine/primitive_list.go applyListPush *)
Definition applyListPush (s : shardWorker) (cmd : shardCommand) (front : bool) : shardWorker * shardResult :=
  onOpened (mutableList s cmd) (fun s ent values =>
    writeListCollection s cmd ent (pushed values (pr_value (c_primitive cmd)) front)).

(** src: cache/engine/primitive_list.go applyListPushFront *)
Definition applyListPushFront (s : shardWorker) (cmd : shardCommand) := applyListPush s cmd true.

(** src: cache/engine/primitive_list.go applyListPushBack *)
Definition applyListPushBack (s : shardWorker) (cmd : shardCommand) := applyListPush s cmd false.

(** src: cache/engine/primitive_list.go applyListPop *)
Definition applyListPop (s : shardWorker) (cmd : shardCommand) (front : bool) : shardWorker * shardResult :=
  onOpened (mutableList s cmd) (fun s ent values =>
    match ent with
    | None => (s, primitiveMiss)
    | Some e =>
        match popped values front with
        | None =>
            (s, resPrimitive (mkPrimitiveResult (record e) false false [] false
                                (checkedUint64 (zlen values)) [] [] [] []))
        | Some (value, values) =>
            let '(s, r) := writeListCollection s cmd ent values in
            (s, onPrimitive (withValue value) r)
        end
    end).

(** src: cache/engine/primitive_list.go applyListPopFront *)
Definition applyListPopFront (s : shardWorker) (cmd : shardCommand) := applyListPop s cmd true.

(** src: cache/engine/primitive_list.go applyListPopBack *)
Definition applyListPopBack (s : shardWorker) (cmd : shardCommand) := applyListPop s cmd false.

(** src: cache/engine/primitive_list.go applyListRange *)
Definition applyListRange (s : shardWorker) (cmd : shardCommand) : shardWorker * shardResult :=
  onRead (readList s cmd) (fun ent values =>
    mkPrimitiveResult (record ent) true false [] false (checkedUint64 (zlen values)) [] [] []
      (listRangeValues values (c_primitive cmd))).

(** src: cache/engine/primitive_list_estimate.go estimateListCollection *)
Definition estimateListCollection (cmd : shardCommand) (ent : option entry) (values : listCollection) : shardResult :=
  estimateCollection encodeListCollection (fun e => resErr (Some e)) cmd ent values.

(** src: cache/engine/primitive_list_estimate.go estimateListPush *)
Definition estimateListPush (cmd : shardCommand) (ent : option entry) (values : listCollection) (front : bool)
    : shardResult :=
  estimateListCollection cmd ent (pushed values (pr_value (c_primitive cmd)) front).

(** src: cache/engine/primitive_list_estimate.go estimateListPop *)
Definition estimateListPop (cmd : shardCommand) (ent : option entry) (values : listCollection) (front : bool)
    : shardResult :=
  match ent with
  | None => noEstimate cmd
  | Some e =>
      match popped values front with
      | None => resEstimate (unchangedPrimitiveEstimate cmd e)
      | Some (_, values) => estimateListCollection cmd ent values
      end
  end.

(** src: cache/engine/primitive_list_estimate.go estimateListMutation *)
Definition estimateListMutation (cmd : shardCommand) (ent : option entry) (values : listCollection) : shardResult :=
  match pr_kind (c_primitive cmd) with
  | PrimitiveListPushFront => estimateListPush cmd ent values true
  | PrimitiveListPushBack => estimateListPush cmd ent values false
  | PrimitiveListPopFront => estimateListPop cmd ent values true
  | PrimitiveListPopBack => estimateListPop cmd ent values false
  | _ => resErr (Some ErrInvalidPrimitive)
  end.

(** src: cache/engine/primitive_list_estimate.go estimateListPrimitive *)
Definition estimateListPrimitive (s : shardWorker) (cmd : shardCommand) : shardWorker * shardResult :=
  onEstimate cmd (mutableList s cmd) (fun ent values => estimateListMutation cmd ent values).

(** ** primitive_bitmap.go *)

(** src: cache/engine/primitive_bitmap.go checkedUint64FromInt64 *)
Definition checkedUint64FromInt64 (value : Z) : Z := if value <? 0 then 0 else u64 value.

(** The loop of [bitmapCount] over the sorted bits.
    src: cache/engine/primitive_bitmap.go bitmapCount 114-124 *)
Fixpoint bitmapCountLoop (values : list Z) (startValue limit end' count : Z) : Z :=
  match values with
  | [] => count
  | bit :: rest =>
      let value := checkedUint64 bit in
      if value <? startValue then bitmapCountLoop rest startValue limit end' count
      else if (0 <? limit) && (end' <=? value) then count
      else bitmapCountLoop rest startValue limit end' (count +% 1)
  end.

(** src: cache/engine/primitive_bitmap.go bitmapCount *)
Definition bitmapCount (bits : bitmapCollection) (start limit : Z) : Z :=
  if (limit =? 0) && (start =? 0) then setLen bits
  else
    let startValue := checkedUint64FromInt64 start in
    let end' := startValue +% limit in
    let end' := if end' <? startValue then maxUint64 else end' in
    bitmapCountLoop (merge_sort Z.le (elements bits)) startValue limit end' 0.

(** src: cache/engine/primitive_bitmap.go applyBitmapSetBit *)
Definition applyBitmapSetBit (s : shardWorker) (cmd : shardCommand) : shardWorker * shardResult :=
  onOpened (mutableBitmap s cmd) (fun s ent bits =>
    let offset := pr_delta (c_primitive cmd) in
    let previous := bool_decide (offset ∈ bits) in
    let next := pr_initialValue (c_primitive cmd) =? 1 in
    if Bool.eqb previous next then
      match ent with
      | Some e => (s, resPrimitive (withBool previous (primitiveWriteResult e (setLen bits))))
      | None => (s, resPrimitive (mkPrimitiveResult zeroRecord false true [] previous 0 [] [] [] []))
      end
    else
      let bits := if next then {[offset]} ∪ bits else bits ∖ {[offset]} in
      let '(s, r) := writeBitmapCollection s cmd ent bits in
      (s, onPrimitive (withBool previous) r)).

(** src: cache/engine/primitive_bitmap.go applyBitmapGetBit *)
Definition applyBitmapGetBit (s : shardWorker) (cmd : shardCommand) : shardWorker * shardResult :=
  onRead (readBitmap s cmd) (fun ent bits =>
    mkPrimitiveResult (record ent) true false [] (bool_decide (pr_delta (c_primitive cmd) ∈ bits))
      (setLen bits) [] [] [] []).

(** src: cache/engine/primitive_bitmap.go applyBitmapBitCount *)
Definition applyBitmapBitCount (s : shardWorker) (cmd : shardCommand) : shardWorker * shardResult :=
  onRead (readBitmap s cmd) (fun ent bits =>
    mkPrimitiveResult (record ent) true false [] false
      (bitmapCount bits (pr_start (c_primitive cmd)) (pr_limit (c_primitive cmd))) [] [] [] []).

(** src: cache/engine/primitive_bitmap_estimate.go estimateBitmapPrimitive *)
Definition estimateBitmapPrimitive (s : shardWorker) (cmd : shardCommand) : shardWorker * shardResult :=
  onEstimate cmd (mutableBitmap s cmd) (fun ent bits =>
    let offset := pr_delta (c_primitive cmd) in
    let next := pr_initialValue (c_primitive cmd) =? 1 in
    let bits := if next then {[offset]} ∪ bits else bits ∖ {[offset]} in
    estimateCollection encodeBitmapCollection
      (fun e => resErrEstimate (Some e) (mkWriteEstimate (c_key cmd) false 0 0)) cmd ent bits).

(** ** primitive_hll.go *)

Definition hex_digit (d : Z) : byte := byte_of_Z (if d <? 10 then 48 + d else 87 + d).

(** [hex.EncodeToString]. *)
Definition hexEncode (raw : list byte) : string :=
  bytes_str (mjoin ((fun b => [hex_digit (byte_Z b / 16); hex_digit (byte_Z b mod 16)]) <$> raw)).

(** src: cache/engine/primitive_hll.go hllHash *)
Definition hllHash (member : string) : string :=
  hexEncode (be_put 8 (fnv_write fnv_offset64 (str_bytes member))).

(** [bytes.Split(raw, []byte{0})], with the part read so far. *)
Fixpoint splitZero (raw part : list byte) : list (list byte) :=
  match raw with
  | [] => [part]
  | b :: rest => if byte_Z b =? 0 then part :: splitZero rest [] else splitZero rest (part ++ [b])
  end.

(** src: cache/engine/primitive_hll.go decodeHLLHashes *)
Definition decodeHLLHashes (raw : list byte) : list string :=
  match raw with
  | [] => []
  | _ => bytes_str <$> filter (fun part => part <> []) (splitZero raw [])
  end.

(** [for ... hashes.Add(hash)]. *)
Definition addHashes (l : list string) (hashes : setCollection) : setCollection :=
  foldl (fun hashes hash => {[hash]} ∪ hashes) hashes l.

(** src: cache/engine/primitive_hll.go applyHLLAdd *)
Definition applyHLLAdd (s : shardWorker) (cmd : shardCommand) : shardWorker * shardResult :=
  onOpened (mutableHLL s cmd) (fun s ent hashes =>
    let hash := hllHash (pr_member (c_primitive cmd)) in
    let write :=
      let '(s, r) := writeHLLCollection s cmd ent ({[hash]} ∪ hashes) in
      (s, onPrimitive (withBool true) r) in
    match ent with
    | Some e =>
        if bool_decide (hash ∈ hashes)
        then (s, resPrimitive (withBool false (primitiveWriteResult e (setLen hashes)))) else write
    | None => write
    end).

(** src: cache/engine/primitive_hll.go applyHLLCount *)
Definition applyHLLCount (s : shardWorker) (cmd : shardCommand) : shardWorker * shardResult :=
  onRead (readHLL s cmd) (fun ent hashes =>
    mkPrimitiveResult (record ent) true false [] false (setLen hashes) [] [] [] []).

(** src: cache/engine/primitive_hll.go applyHLLMerge *)
Definition applyHLLMerge (s : shardWorker) (cmd : shardCommand) : shardWorker * shardResult :=
  onOpened (mutableHLL s cmd) (fun s ent hashes =>
    writeHLLCollection s cmd ent (addHashes (decodeHLLHashes (pr_value (c_primitive cmd))) hashes)).

(** src: cache/engine/primitive_hll.go applyHLLMembers *)
Definition applyHLLMembers (s : shardWorker) (cmd : shardCommand) : shardWorker * shardResult :=
  onRead (readHLL s cmd) (fun ent hashes =>
    mkPrimitiveResult (record ent) true false [] false (setLen hashes) []
      (merge_sort string_le (elements hashes)) [] []).

(** src: cache/engine/primitive_hll_estimate.go estimateHLLPrimitive *)
Definition estimateHLLPrimitive (s : shardWorker) (cmd : shardCommand) : shardWorker * shardResult :=
  onEstimate cmd (mutableHLL s cmd) (fun ent hashes =>
    let hashes :=
      match pr_kind (c_primitive cmd) with
      | PrimitiveHLLAdd => {[hllHash (pr_member (c_primitive cmd))]} ∪ hashes
      | PrimitiveHLLMerge => addHashes (decodeHLLHashes (pr_value (c_primitive cmd))) hashes
      | _ => hashes
      end in
    estimateCollection encodeHLLCollection
      (fun e => resErrEstimate (Some e) (mkWriteEstimate (c_key cmd) false 0 0)) cmd ent hashes).

(** ** primitive_geo.go *)

(** [float64] arithmetic. *)
Definition fmul : float64 -> float64 -> float64 := SFmul 53 1024.
Definition fadd : float64 -> float64 -> float64 := SFadd 53 1024.
Definition fsub : float64 -> float64 -> float64 := SFsub 53 1024.
Definition fdiv : float64 -> float64 -> float64 := SFdiv 53 1024.
Definition fsqrt : float64 -> float64 := SFsqrt 53 1024.

Definition math_Pi : float64 := S754_finite false 7074237752028440 (-51).
Definition f1 : float64 := S754_finite false 4503599627370496 (-52).
Definition f2 : float64 := S754_finite false 4503599627370496 (-51).

(** The constant [earthRadiusMeters * 2], 12742017.6.
    src: cache/engine/primitive_geo.go earthRadiusMeters 10-10 *)
Definition earthDiameterMeters : float64 := S754_finite false 6840818609632051 (-29).

(** src: cache/engine/primitive_geo.go degreesToRadians *)
Definition degreesToRadians (value : float64) : float64 := fdiv (fmul value math_Pi) (sf180 false).

(** src: cache/engine/primitive_geo.go geoDistanceMeters *)
Definition geoDistanceMeters (left right : GeoPoint) : float64 :=
  let leftLat := degreesToRadians (gp_latitude left) in
  let rightLat := degreesToRadians (gp_latitude right) in
  let deltaLat := degreesToRadians (fsub (gp_latitude right) (gp_latitude left)) in
  let deltaLon := degreesToRadians (fsub (gp_longitude right) (gp_longitude left)) in
  let sinLat := math_Sin (fdiv deltaLat f2) in
  let sinLon := math_Sin (fdiv deltaLon f2) in
  let a := fadd (fmul sinLat sinLat)
             (fmul (fmul (fmul (math_Cos leftLat) (math_Cos rightLat)) sinLon) sinLon) in
  fmul earthDiameterMeters (math_Atan2 (fsqrt a) (fsqrt (fsub f1 a))).

(** src: cache/engine/primitive_geo.go geoRadius *)
Definition geoRadius (points : geoCollection) (center : GeoPoint) (radiusMeters : float64) (limit : Z)
    : list ScoredMember :=
  let items :=
    filter (fun m => SFleb (sm_score m) radiusMeters = true)
      ((fun item => mkScoredMember item.1 (geoDistanceMeters center item.2)) <$> range_order points) in
  limitScoredMembers (merge_sort scored_le items) limit.

Definition requestPoint (r : PrimitiveRequest) : GeoPoint := mkGeoPoint (pr_score r) (pr_minScore r).

(** src: cache/engine/primitive_geo.go applyGeoAdd *)
Definition applyGeoAdd (s : shardWorker) (cmd : shardCommand) : shardWorker * shardResult :=
  onOpened (mutableGeo s cmd) (fun s ent points =>
    let hasCurrent := bool_decide (is_Some (points !! pr_member (c_primitive cmd))) in
    let '(s, r) := writeGeoCollection s cmd ent
      (<[pr_member (c_primitive cmd) := requestPoint (c_primitive cmd)]> points) in
    (s, onPrimitive (withBool (negb hasCurrent)) r)).

(** src: cache/engine/primitive_geo.go applyGeoDist *)
Definition applyGeoDist (s : shardWorker) (cmd : shardCommand) : shardWorker * shardResult :=
  onRead (readGeo s cmd) (fun ent points =>
    match points !! pr_member (c_primitive cmd), points !! pr_field (c_primitive cmd) with
    | Some pl, Some pr =>
        mkPrimitiveResult (record ent) true false [] false 1 [] []
          [mkScoredMember (pr_field (c_primitive cmd)) (geoDistanceMeters pl pr)] []
    | _, _ => mkPrimitiveResult (record ent) false false [] false 0 [] [] [] []
    end).

(** src: cache/engine/primitive_geo.go applyGeoRadius *)
Definition applyGeoRadius (s : shardWorker) (cmd : shardCommand) : shardWorker * shardResult :=
  onRead (readGeo s cmd) (fun ent points =>
    mkPrimitiveResult (record ent) true false [] false (mapLen points) [] []
      (geoRadius points (requestPoint (c_primitive cmd)) (pr_maxScore (c_primitive cmd))
         (pr_limit (c_primitive cmd))) []).

(** src: cache/engine/primitive_geo_estimate.go estimateGeoPrimitive *)
Definition estimateGeoPrimitive (s : shardWorker) (cmd : shardCommand) : shardWorker * shardResult :=
  onEstimate cmd (mutableGeo s cmd) (fun ent points =>
    estimateCollection encodeGeoCollection
      (fun e => resErrEstimate (Some e) (mkWriteEstimate (c_key cmd) false 0 0)) cmd ent
      (<[pr_member (c_primitive cmd) := requestPoint (c_primitive cmd)]> points)).

(** ** primitive.go: counters and dispatch *)

(** The command with the adjustment a counter primitive asks for; the kind, which
    applyCounterPrimitive also sets, is not read any more. *)
Definition counterCommand (cmd : shardCommand) : shardCommand :=
  let p := c_primitive cmd in
  mkCommand (c_kind cmd) (c_physical cmd) (c_key cmd) (c_value cmd) (c_setOpts cmd) (c_getOpts cmd)
    (c_touch cmd)
    (mkAdjustOptions (pr_delta p) (pr_initialValue p) (po_ttl (pr_options p))
       (po_namespaceVersion (pr_options p)) (po_spaceVersion (pr_options p))
       (po_expectedVersion (pr_options p)))
    p (c_deleteOpts cmd) (c_evict cmd) (c_rangeOpts cmd) (c_snapshot cmd) (c_now cmd).

(** src: cache/engine/primitive.go applyCounterPrimitive *)
Definition applyCounterPrimitive (s : shardWorker) (cmd : shardCommand) : shardWorker * shardResult :=
  let '(s, r) := applyAdjust s (counterCommand cmd) in
  if bool_decide (is_Some (res_err r)) || negb (res_found r) then (s, resErr (res_err r))
  else (s, resPrimitive (mkPrimitiveResult (res_record r) true true (r_value (res_record r)) false 0
                           [] [] [] [])).

(** src: cache/engine/primitive_estimate.go estimateCounterPrimitive *)
Definition estimateCounterPrimitive (s : shardWorker) (cmd : shardCommand) : shardWorker * shardResult :=
  let '(s, r) := prepareCounterAdjustment s (counterCommand cmd) in
  match r with
  | Err e => (s, resErrEstimate (Some e) (mkWriteEstimate (c_key cmd) false 0 0))
  | Ok None => (s, resErrEstimate None (mkWriteEstimate (c_key cmd) false 0 0))
  | Ok (Some adjustment) =>
      (s, resEstimate (estimateWriteCost cmd (ca_existing adjustment) (FormatInt (ca_next adjustment))))
  end.

(** The table [primitiveHandlers].
    src: cache/engine/primitive.go primitiveHandlers 10-47 *)
Definition applyPrimitive (s : shardWorker) (cmd : shardCommand) : shardWorker * shardResult :=
  match pr_kind (c_primitive cmd) with
  | PrimitiveCounterAdjust => applyCounterPrimitive s cmd
  | PrimitiveMapSet => applyMapSet s cmd
  | PrimitiveMapGet => applyMapGet s cmd
  | PrimitiveMapDelete => applyMapDelete s cmd
  | PrimitiveMapGetAll => applyMapGetAll s cmd
  | PrimitiveSetAdd => applySetAdd s cmd
  | PrimitiveSetRemove => applySetRemove s cmd
  | PrimitiveSetContains => applySetContains s cmd
  | PrimitiveSetMembers => applySetMembers s cmd
  | PrimitiveScoredSetPut => applyScoredSetPut s cmd
  | PrimitiveScoredSetRemove => applyScoredSetRemove s cmd
  | PrimitiveScoredSetRange => applyScoredSetRange s cmd
  | PrimitiveListPushFront => applyListPushFront s cmd
  | PrimitiveListPushBack => applyListPushBack s cmd
  | PrimitiveListPopFront => applyListPopFront s cmd
  | PrimitiveListPopBack => applyListPopBack s cmd
  | PrimitiveListRange => applyListRange s cmd
  | PrimitiveBitmapSetBit => applyBitmapSetBit s cmd
  | PrimitiveBitmapGetBit => applyBitmapGetBit s cmd
  | PrimitiveBitmapBitCount => applyBitmapBitCount s cmd
  | PrimitiveHLLAdd => applyHLLAdd s cmd
  | PrimitiveHLLCount => applyHLLCount s cmd
  | PrimitiveHLLMerge => applyHLLMerge s cmd
  | PrimitiveHLLMembers => applyHLLMembers s cmd
  | PrimitiveGeoAdd => applyGeoAdd s cmd
  | PrimitiveGeoDist => applyGeoDist s cmd
  | PrimitiveGeoRadius => applyGeoRadius s cmd
  | PrimitiveUnknown _ => (s, resErr (Some ErrInvalidPrimitive))
  end.

(** src: cache/engine/primitive_estimate.go applyPrimitiveEstimate *)
Definition applyPrimitiveEstimate (s : shardWorker) (cmd : shardCommand) : shardWorker * shardResult :=
  if negb (Mutates (pr_kind (c_primitive cmd))) then (s, noEstimate cmd)
  else match pr_kind (c_primitive cmd) with
  | PrimitiveCounterAdjust => estimateCounterPrimitive s cmd
  | PrimitiveMapSet | PrimitiveMapDelete => estimateMapPrimitive s cmd
  | PrimitiveSetAdd | PrimitiveSetRemove => estimateSetPrimitive s cmd
  | PrimitiveScoredSetPut | PrimitiveScoredSetRemove => estimateScoredSetPrimitive s cmd
  | PrimitiveListPushFront | PrimitiveListPushBack
  | PrimitiveListPopFront | PrimitiveListPopBack => estimateListPrimitive s cmd
  | PrimitiveBitmapSetBit => estimateBitmapPrimitive s cmd
  | PrimitiveHLLAdd | PrimitiveHLLMerge => estimateHLLPrimitive s cmd
  | PrimitiveGeoAdd => estimateGeoPrimitive s cmd
  | _ => (s, resErr (Some ErrInvalidPrimitive))
  end.
End Handlers.
