(* ===== verification/Instances.v ===== *)
(** * Concrete instances of the interfaces

    The development is parameterised by the encodings of collectionx, by Go's
    trigonometric functions and by the iteration order of Go maps.  This file
    gives each one an instance, so that the theorems can be evaluated on
    concrete inputs and the laws are seen to be satisfiable. *)

From S2P Require Import Prelude.
From S2P Require Import Binary.
From S2P Require Import EngineTypes.
From S2P Require Import Primitives.

(** ** A codec for any countable container *)

Fixpoint positive_bytes (p : positive) : list byte :=
  match p with
  | xH => []
  | xO p => Byte.x00 :: positive_bytes p
  | xI p => Byte.x01 :: positive_bytes p
  end.

Fixpoint bytes_positive (b : list byte) : option positive :=
  match b with
  | [] => Some xH
  | x :: rest =>
      match x, bytes_positive rest with
      | Byte.x00, Some p => Some (xO p)
      | Byte.x01, Some p => Some (xI p)
      | _, _ => None
      end
  end.

Lemma bytes_positive_bytes p : bytes_positive (positive_bytes p) = Some p.
Proof. induction p as [p IH|p IH|]; simpl; [by rewrite IH..|done]. Qed.

Definition countable_codec (C : Type) `{Countable C} : Codec C := {|
  marshal c := Some (positive_bytes (encode c));
  unmarshal b := match bytes_positive b with Some p => decode p | None => None end
|}.

Lemma countable_codec_laws (C : Type) `{Countable C} : CodecLaws C (Codec0 := countable_codec C).
Proof.
  constructor. intros c b [= <-]. simpl. rewrite bytes_positive_bytes. apply decode_encode.
Qed.

(** ** Floats and points are countable *)

#[global] Instance spec_float_eq_dec : EqDecision spec_float.
Proof. solve_decision. Defined.

Definition float_code (f : spec_float) : bool + (bool + (unit + bool * positive * Z)) :=
  match f with
  | S754_zero s => inl s
  | S754_infinity s => inr (inl s)
  | S754_nan => inr (inr (inl tt))
  | S754_finite s m e => inr (inr (inr (s, m, e)))
  end.

Definition float_decode (c : bool + (bool + (unit + bool * positive * Z))) : spec_float :=
  match c with
  | inl s => S754_zero s
  | inr (inl s) => S754_infinity s
  | inr (inr (inl _)) => S754_nan
  | inr (inr (inr (s, m, e))) => S754_finite s m e
  end.

#[global] Program Instance spec_float_countable : Countable spec_float :=
  inj_countable' float_code float_decode _.
Next Obligation. by intros []. Qed.

#[global] Instance GeoPoint_eq_dec : EqDecision GeoPoint.
Proof. solve_decision. Defined.

#[global] Program Instance GeoPoint_countable : Countable GeoPoint :=
  inj_countable' (fun g => (gp_longitude g, gp_latitude g)) (fun p => mkGeoPoint p.1 p.2) _.
Next Obligation. by intros []. Qed.

#[global] Program Instance byte_countable : Countable byte :=
  inj_countable Byte.to_N Byte.of_N _.
Next Obligation. apply Byte.of_to_N. Qed.

(** ** The instances *)

Definition sample_codecs : Codecs := {|
  map_codec := countable_codec _;
  set_codec := countable_codec _;
  scored_codec := countable_codec _;
  list_codec := countable_codec _;
  bitmap_codec := countable_codec _;
  geo_codec := countable_codec _
|}.

(** A flat world: the sine and the cosine are constant. *)
Definition sample_math : GoMath := {|
  math_Sin _ := S754_zero false;
  math_Cos _ := f1;
  math_Atan2 _ _ := S754_zero false
|}.
