(* ===== verification/Worker.v ===== *)
(** * The shard worker (cache/engine/worker.go)

    The dispatch of a shard command to its handler, and the shard's accounting
    invariant over every command. *)

From S2P Require Import Prelude.
From S2P Require Import Binary.
From S2P Require Import GoStrings.
From S2P Require Import Routing.
From S2P Require Import EngineTypes.
From S2P Require Import Shard.
From S2P Require Import ShardInv.
From S2P Require Import ShardOps.
From S2P Require Import Primitives.

Local Open Scope Z_scope.
Local Open Scope nespa_scope.

Section Apply.
  Context `{!Codecs, !GoMath, !RangeOrder}.

(** The table [commandHandlers]; [queueDepth] is [len(s.commands)].
    src: cache/engine/worker.go commandHandlers 11-90 *)
Definition apply (queueDepth : Z) (s : shardWorker) (cmd : shardCommand) : shardWorker * shardResult :=
  match c_kind cmd with
  | commandSet => applySet s cmd
  | commandGet => applyGet s cmd
  | commandDelete => applyDelete s cmd
  | commandTouch => applyTouch s cmd
  | commandAdjust => applyAdjust s cmd
  | commandAdjustEstimate => applyAdjustEstimate s cmd
  | commandPrimitive => applyPrimitive s cmd
  | commandPrimitiveEstimate => applyPrimitiveEstimate s cmd
  | commandStats => (s, statsResult s queueDepth)
  | commandSnapshot => (s, resSnapshot (snapshotEntries s))
  | commandRestore => let '(s, e) := restoreEntries (c_snapshot cmd) s in (s, resErr e)
  | commandExport => (s, resSnapshot (exportEntries (c_rangeOpts cmd) s))
  | commandImport =>
      let '(s, imported, e) := importEntries (c_snapshot cmd) s 0 in (s, resImported imported e)
  | commandDeleteRange => let '(s, n) := deleteRange (c_rangeOpts cmd) s in (s, resDeletedRange n)
  | commandSweep => let '(s, n) := sweepExpired (c_now cmd) s in (s, resSwept n)
  | commandEvict => let '(s, r) := evict (c_evict cmd) s in (s, resEvicted r)
  end.
End Apply.

(** ** Primitives keep the accounting *)

Section PrimitiveInv.
  Context `{!Codecs, !GoMath, !RangeOrder}.
  Implicit Types (s : shardWorker) (cmd : shardCommand).

Lemma readPrimitiveEntry_inv s cmd : shard_inv s -> shard_inv (readPrimitiveEntry s cmd).1.
Proof.
  intros Hi. unfold readPrimitiveEntry. destruct (sw_entries s !! c_physical cmd) as [e|] eqn:He; [|done].
  case_bool; [by apply deleteEntry_inv|]. case_bool; [done|].
  apply (storeEntry_inv s _ e); [done|done| |done|done]. exact (inv_entries s Hi _ _ He).
Qed.

Lemma mutablePrimitiveEntry_inv s cmd : shard_inv s -> shard_inv (mutablePrimitiveEntry s cmd).1.
Proof.
  intros Hi. unfold mutablePrimitiveEntry. case_match; [case_bool; [by apply deleteEntry_inv|]|]; by case_bool.
Qed.

(** The entry opened for a change is the one stored under the key afterwards. *)
Lemma mutablePrimitiveEntry_lookup s cmd ent :
  (mutablePrimitiveEntry s cmd).2 = Some ent ->
  sw_entries (mutablePrimitiveEntry s cmd).1 !! c_physical cmd = ent.
Proof.
  unfold mutablePrimitiveEntry. destruct (sw_entries s !! c_physical cmd) as [e|] eqn:He.
  - destruct (expired e (c_now cmd)); cbn [fst snd].
    + intros [= <-]. rewrite deleteEntry_entries. apply lookup_delete_eq.
    + by case_bool; intros [= <-].
  - by case_bool; intros [= <-].
Qed.

Lemma mutableCollection_inv {C} (decode : list byte -> result engineError C) empty s cmd :
  shard_inv s -> shard_inv (mutableCollection decode empty s cmd).1.
Proof.
  intros Hi%(mutablePrimitiveEntry_inv s cmd). unfold mutableCollection.
  destruct (mutablePrimitiveEntry s cmd) as [t [[ent|]|]]; cbn [fst] in *; [|done|done]. by case_match.
Qed.

Definition opened_entry {C} (o : opened C) : option (option entry) :=
  match o with OpenNew _ => Some None | OpenExisting _ ent => Some (Some ent) | _ => None end.

Lemma mutableCollection_lookup {C} (decode : list byte -> result engineError C) empty s cmd ent :
  opened_entry (mutableCollection decode empty s cmd).2 = Some ent ->
  sw_entries (mutableCollection decode empty s cmd).1 !! c_physical cmd = ent.
Proof.
  pose proof (mutablePrimitiveEntry_lookup s cmd) as Hl. unfold mutableCollection.
  destruct (mutablePrimitiveEntry s cmd) as [t [[e|]|]]; cbn [fst snd] in *; [|by intros [= <-]; apply Hl|done].
  case_match; [|done]. cbn. intros [= <-]. by apply Hl.
Qed.

(** What a handler that changes a collection relies on. *)
Definition handler_inv {C} (cmd : shardCommand)
    (k : shardWorker -> option entry -> C -> shardWorker * shardResult) : Prop :=
  forall s ent c, shard_inv s -> sw_entries s !! c_physical cmd = ent ->
    fits (sw_entries (k s ent c).1) -> shard_inv (k s ent c).1.

Lemma onOpened_inv {C} (decode : list byte -> result engineError C) empty s cmd k :
  handler_inv cmd k -> shard_inv s ->
  fits (sw_entries (onOpened (mutableCollection decode empty s cmd) k).1) ->
  shard_inv (onOpened (mutableCollection decode empty s cmd) k).1.
Proof.
  intros Hk Hi. pose proof (mutableCollection_inv decode empty s cmd Hi) as Hi'.
  pose proof (mutableCollection_lookup decode empty s cmd) as Hl.
  destruct (mutableCollection decode empty s cmd) as [t []]; cbn [onOpened fst snd opened_entry] in *;
    auto.
Qed.

Lemma onRead_inv {C} (decode : list byte -> result engineError C) s cmd k :
  shard_inv s -> shard_inv (onRead (readCollection decode s cmd) k).1.
Proof.
  intros Hi%(readPrimitiveEntry_inv s cmd). unfold readCollection.
  destruct (readPrimitiveEntry s cmd) as [t [ent|]]; cbn [fst] in *; [|done]. by case_match.
Qed.

Lemma onEstimate_inv {C} (decode : list byte -> result engineError C) empty s cmd k :
  shard_inv s -> shard_inv (onEstimate cmd (mutableCollection decode empty s cmd) k).1.
Proof.
  intros Hi%(mutableCollection_inv decode empty s cmd).
  by destruct (mutableCollection decode empty s cmd) as [t []].
Qed.

Lemma writeCollection_inv {C} encode (count : C -> Z) s cmd ent c :
  cmd_ok cmd -> shard_inv s -> sw_entries s !! c_physical cmd = ent ->
  fits (sw_entries (writeCollection encode count s cmd ent c).1) ->
  shard_inv (writeCollection encode count s cmd ent c).1.
Proof.
  intros Hcmd Hi He. unfold writeCollection. case_match; [|done]. destruct ent as [e|].
  - unfold writePrimitiveEntry. case_bool; [done|]. cbn. rewrite replaceEntryCost_entries. intros Hf.
    pose proof (found_key s cmd e (inv_entries s Hi) Hcmd He) as Hk.
    apply (replace_inv s _ e); [done|done| |done|done]. by apply cmd_entry_ok.
  - intros Hf. apply addEntry_inv; [done|done| |exact Hf]. by apply cmd_entry_ok.
Qed.

(** The part of a handler after the write changes only the result. *)
Lemma onPrimitive_state f (r : shardWorker * shardResult) :
  (let '(s, x) := r in (s, onPrimitive f x)).1 = r.1.
Proof. by destruct r. Qed.

Ltac handler :=
  intros ? ent ? ? ?; destruct ent; cbn beta iota zeta; repeat (first [rewrite onPrimitive_state | case_match]);
  try done; by apply writeCollection_inv.

Lemma applyPrimitive_inv s cmd : shard_inv s -> cmd_ok cmd ->
  fits (sw_entries (applyPrimitive s cmd).1) -> shard_inv (applyPrimitive s cmd).1.
Proof.
  intros Hi Hcmd. unfold applyPrimitive.
  destruct (pr_kind (c_primitive cmd));
    try (intros _; apply onRead_inv; exact Hi);
    try (apply onOpened_inv; [|exact Hi]; handler).
  - unfold applyCounterPrimitive. pose proof (applyAdjust_inv s (counterCommand cmd) Hi Hcmd) as Ha.
    destruct (applyAdjust s (counterCommand cmd)) as [t r]. cbn [fst] in Ha. by case_bool.
  - done.
Qed.

Lemma applyPrimitiveEstimate_inv s cmd : shard_inv s -> shard_inv (applyPrimitiveEstimate s cmd).1.
Proof.
  intros Hi. unfold applyPrimitiveEstimate. case_bool; [done|].
  destruct (pr_kind (c_primitive cmd)); try done; try (apply onEstimate_inv; exact Hi).
  unfold estimateCounterPrimitive.
  pose proof (prepareCounterAdjustment_inv s (counterCommand cmd) Hi) as Ha.
  destruct (prepareCounterAdjustment s (counterCommand cmd)) as [t [[a|]|e]]; exact Ha.
Qed.
End PrimitiveInv.

(** ** Import and restore of any list *)

Definition snap_typed (l : list SnapshotEntry) : Prop := Forall (fun x => key_typed (se_key x)) l.

Lemma snap_valid x : key_typed (se_key x) ->
  snap_ok x \/ exists e, entryFromSnapshot x = Err e.
Proof.
  intros Ht. unfold snap_ok, key_ok, entryFromSnapshot.
  destruct (validateKey (se_key x)); [right; eauto|by left].
Qed.

Lemma room_one x l m : room (x :: l) m -> room [x] m.
Proof.
  intros [H1 H2]. unfold room. rewrite zlen_cons in *.
  change (snap_cost (x :: l)) with (e_costBytes (stored x) + snap_cost l) in H2.
  change (snap_cost [x]) with (e_costBytes (stored x) + 0). change (zlen []) with 0.
  pose proof (snap_cost_nonneg l). pose proof (zlen_nonneg l). lia.
Qed.

Lemma importEntries_inv l s n : shard_inv s -> snap_typed l -> room l (sw_entries s) ->
  shard_inv (importEntries l s n).1.1.
Proof.
  revert s n. induction l as [|x l IH]; intros s n Hi Ht Hroom; [done|].
  apply Forall_cons in Ht as [Hx Ht]. cbn [importEntries].
  destruct (snap_valid x Hx) as [Hok|[e He]]; [|unfold importEntry; by rewrite He].
  pose proof (importEntry_spec x s Hi Hok (room_one x l _ Hroom)) as Hone.
  destruct (room_cons x l _ _ (inv_entries s Hi) Hroom eq_refl) as (_ & Hr1 & Hr2).
  destruct (importEntry x s) as [t r]. destruct Hone as (Hit & Het & ->).
  assert (room l (sw_entries t)) as Hroom'.
  { rewrite Het. destruct (sw_entries s !! physicalKey (se_key x)) as [f|] eqn:He; cbn [merged]; [|done].
    case_bool; [done|]. by rewrite insert_id. }
  case_match; by apply IH.
Qed.

Lemma restoreLoop_inv l s : shard_inv s -> snap_typed l -> NoDup (snap_keys l) ->
  (forall p, p ∈ snap_keys l -> sw_entries s !! p = None) -> room l (sw_entries s) ->
  shard_inv (restoreLoop l s).1.
Proof.
  revert s. induction l as [|x l IH]; intros s Hi Ht Hnd Hnew Hroom; [done|].
  apply Forall_cons in Ht as [Hx Ht]. unfold snap_keys in Hnd, Hnew. rewrite fmap_cons in Hnd, Hnew.
  apply NoDup_cons in Hnd as [Hnx Hnd]. fold (snap_keys l) in Hnx, Hnd, Hnew. cbn [restoreLoop].
  destruct (snap_valid x Hx) as [Hok|[e He]]; [|by rewrite He].
  rewrite (entryFromSnapshot_ok x Hok). change (e_key (stored x)) with (se_key x).
  destruct (room_cons x l _ _ (inv_entries s Hi) Hroom eq_refl) as (Hf & Hr & _).
  assert (sw_entries s !! physicalKey (se_key x) = None) as Hn
    by (apply Hnew, elem_of_cons; by left).
  apply IH; [|done|done| |exact Hr].
  - apply addEntry_inv; [done|done|by apply stored_ok|done].
  - intros p Hp. cbn. rewrite lookup_insert_ne; [|by intros <-]. apply Hnew, elem_of_cons. by right.
Qed.

(** ** Every command *)

Section Reachable.
  Context `{!Codecs, !GoMath, !RangeOrder}.

(** What a command must satisfy for the shard's counters to stay within 64
    bits: keys are Go strings, and the total size stays below 2^64 bytes. *)
Definition cmd_admissible (s : shardWorker) (cmd : shardCommand) : Prop :=
  match c_kind cmd with
  | commandSet | commandAdjust | commandPrimitive => cmd_ok cmd /\ fits (sw_entries (apply 0 s cmd).1)
  | commandImport => snap_typed (c_snapshot cmd) /\ room (c_snapshot cmd) (sw_entries s)
  | commandRestore =>
      snap_typed (c_snapshot cmd) /\ NoDup (snap_keys (c_snapshot cmd)) /\ room (c_snapshot cmd) ∅
  | commandEvict => key_typed (eo_exclude (c_evict cmd))
  | _ => True
  end.

Lemma apply_inv depth s cmd : shard_inv s -> cmd_admissible s cmd -> shard_inv (apply depth s cmd).1.
Proof.
  intros Hi. unfold cmd_admissible, apply. destruct (c_kind cmd).
  - intros []. by apply applySet_inv.
  - intros _. by apply applyGet_inv.
  - intros _. by apply applyDelete_inv.
  - intros _. by apply applyTouch_inv.
  - intros []. by apply applyAdjust_inv.
  - intros _. rewrite applyAdjustEstimate_state. by apply prepareCounterAdjustment_inv.
  - intros []. by apply applyPrimitive_inv.
  - intros _. by apply applyPrimitiveEstimate_inv.
  - done.
  - done.
  - intros (Ht & Hn & Hr). pose proof (restoreLoop_inv _ _ (emptyShard_inv (sw_id s)) Ht Hn) as H2.
    unfold restoreEntries. destruct (restoreLoop _ _) as [t e]. by apply H2.
  - done.
  - intros (Ht & Hr). pose proof (importEntries_inv _ s 0 Hi Ht Hr) as H2.
    by destruct (importEntries _ s 0) as [[t n] e].
  - intros _. pose proof (deleteRange_spec (c_rangeOpts cmd) s Hi) as H2.
    destruct (deleteRange _ s) as [t n]; apply H2.
  - intros _. pose proof (sweepExpired_spec (c_now cmd) s Hi) as H2.
    destruct (sweepExpired _ s) as [t n]; apply H2.
  - intros Hx. pose proof (evict_run_exists (c_evict cmd) s Hi Hx) as H2.
    destruct (evict _ s) as [t r]. destruct H2 as (d & ta & re & Hr).
    by apply (evict_run_totals _ _ _ _ _ _ _ Hi Hr).
Qed.

(** The states a worker reaches from an empty shard, one command at a time in
    the order of its queue. *)
Inductive shard_reachable (id : Z) : shardWorker -> Prop :=
| reach_init : shard_reachable id (emptyShard id)
| reach_step depth s cmd : shard_reachable id s -> cmd_admissible s cmd ->
    shard_reachable id (apply depth s cmd).1.

(** C4: whatever admissible commands a shard has applied, its object count, its memory use
    and its per-space usage are exactly the sums over the entries it stores, each entry
    sits at the physical key of its own key, and each costs what [costOf] says.  A
    command is admissible ([cmd_admissible]) when its keys and sizes are those of Go
    strings and integers, the totals stay below 2^64, and a snapshot that is restored
    has no key twice (with two entries of a key the shard overcounts). *)
Theorem reachable_accounting (id : Z) (s : shardWorker) : shard_reachable id s -> shard_inv s.
Proof. induction 1; [apply emptyShard_inv | by apply apply_inv]. Qed.
End Reachable.
