(* ===== verification/KvSpec.v ===== *)
(** * The key-value contract of a shard

    An abstract store maps keys to items and knows nothing of physical keys,
    cost accounting, per-space usage or statistics.  The section Refinement
    shows that the handlers of set, get, delete, touch and adjust implement it:
    same answer, same item under the command's key, every other key untouched. *)

From S2P Require Import Prelude.
From S2P Require Import Binary.
From S2P Require Import GoStrings.
From S2P Require Import Routing.
From S2P Require Import EngineTypes.
From S2P Require Import Shard.
From S2P Require Import ShardInv.
From S2P Require Import ShardOps.
From S2P Require Import Primitives.
From S2P Require Import Instances.
From S2P Require Import Worker.

Local Open Scope Z_scope.
Local Open Scope nespa_scope.

(** ** The abstract store *)

Record item := mkItem {
  it_value : list byte;
  it_version : Z;
  it_namespaceVersion : Z;
  it_spaceVersion : Z;
  it_expireAt : Time;
  it_createdAt : Time;
  it_updatedAt : Time;
  it_lastAccessAt : Time;
  it_accessCount : Z
}.

Inductive kv_op :=
| KvSet (value : list byte) (opts : SetOptions)
| KvGet (opts : GetOptions)
| KvDelete (opts : DeleteOptions)
| KvTouch (opts : TouchOptions)
| KvAdjust (opts : AdjustOptions).

Inductive kv_answer :=
| AnsItem (i : item)
| AnsNone
| AnsDeleted
| AnsTouched
| AnsError (e : engineError).

(** An item lives until its deadline; a zero deadline is none. *)
Definition live (now : Time) (i : item) : bool := (it_expireAt i =? 0) || (now <? it_expireAt i).

Definition deadline (now : Time) (ttl : Duration) : Time := if 0 <? ttl then now + ttl else 0.

(** A version filter of 0 matches everything. *)
Definition version_ok (wanted actual : Z) : bool := (wanted =? 0) || (actual =? wanted).

(** The optimistic lock of set, delete and touch: an expectation of 0 is none. *)
Definition cas_ok (expected : Z) (cur : option item) : bool :=
  if 0 <? expected then match cur with Some i => it_version i =? expected | None => false end else true.

(** Exact 64-bit signed addition, or none. *)
Definition checked_add (a b : Z) : option Z :=
  if bool_decide (is_s64 (a + b)) then Some (a + b) else None.

(** The item after a write: a new one, or the next version of the old one. *)
Definition next_item (now : Time) (cur : option item) (value : list byte) (nsv spv : Z) (expire : Time) : item :=
  match cur with
  | None => mkItem value 1 nsv spv expire now now now 1
  | Some i =>
      mkItem value (it_version i +% 1) nsv spv expire (it_createdAt i) now now (it_accessCount i +% 1)
  end.

Definition kv_set (now : Time) (cur : option item) (value : list byte) (o : SetOptions) : option item * kv_answer :=
  if cas_ok (so_expectedVersion o) cur then
    let i := next_item now cur value (so_namespaceVersion o) (so_spaceVersion o) (deadline now (so_ttl o)) in
    (Some i, AnsItem i)
  else (cur, AnsNone).

Definition kv_get (now : Time) (cur : option item) (o : GetOptions) : option item * kv_answer :=
  match cur with
  | None => (None, AnsNone)
  | Some i =>
      if negb (live now i) then (None, AnsNone)
      else if version_ok (go_namespaceVersion o) (it_namespaceVersion i)
              && version_ok (go_spaceVersion o) (it_spaceVersion i) then
        let i := mkItem (it_value i) (it_version i) (it_namespaceVersion i) (it_spaceVersion i)
                   (it_expireAt i) (it_createdAt i) (it_updatedAt i) now (it_accessCount i +% 1) in
        (Some i, AnsItem i)
      else (cur, AnsNone)
  end.

Definition kv_delete (cur : option item) (o : DeleteOptions) : option item * kv_answer :=
  match cur with
  | None => (None, AnsNone)
  | Some i => if cas_ok (do_expectedVersion o) cur then (None, AnsDeleted) else (cur, AnsNone)
  end.

Definition kv_touch (now : Time) (cur : option item) (o : TouchOptions) : option item * kv_answer :=
  match cur with
  | None => (None, AnsNone)
  | Some i =>
      if to_ttl o <? 0 then (cur, AnsNone)
      else if negb (live now i) then (None, AnsNone)
      else if cas_ok (to_expectedVersion o) cur && version_ok (to_namespaceVersion o) (it_namespaceVersion i)
              && version_ok (to_spaceVersion o) (it_spaceVersion i) then
        (Some (mkItem (it_value i) (it_version i) (it_namespaceVersion i) (it_spaceVersion i)
                 (deadline now (to_ttl o)) (it_createdAt i) now now (it_accessCount i +% 1)), AnsTouched)
      else (cur, AnsNone)
  end.

(** A counter is the decimal text of a 64-bit integer. *)
Definition kv_adjust (now : Time) (cur : option item) (o : AdjustOptions) : option item * kv_answer :=
  let write n expire :=
    let i := next_item now cur (FormatInt n) (ao_namespaceVersion o) (ao_spaceVersion o) expire in
    (Some i, AnsItem i) in
  if negb (cas_ok (ao_expectedVersion o) cur) then (cur, AnsNone)
  else match cur with
  | None =>
      match checked_add (ao_initialValue o) (ao_delta o) with
      | Some n => write n (deadline now (ao_ttl o))
      | None => (cur, AnsError ErrInvalidCounter)
      end
  | Some i =>
      if negb (live now i) then (None, AnsNone)
      else match ParseInt (str_bytes (TrimSpace (bytes_str (it_value i)))) with
      | None => (cur, AnsError ErrInvalidCounter)
      | Some n =>
          match checked_add n (ao_delta o) with
          | Some n => write n (it_expireAt i)
          | None => (cur, AnsError ErrInvalidCounter)
          end
      end
  end.

Definition kv_step (now : Time) (op : kv_op) (cur : option item) : option item * kv_answer :=
  match op with
  | KvSet value o => kv_set now cur value o
  | KvGet o => kv_get now cur o
  | KvDelete o => kv_delete cur o
  | KvTouch o => kv_touch now cur o
  | KvAdjust o => kv_adjust now cur o
  end.

(** ** The abstraction *)

Definition item_of (e : entry) : item :=
  mkItem (e_value e) (e_version e) (e_namespaceVersion e) (e_spaceVersion e) (e_expireAt e)
    (e_createdAt e) (e_updatedAt e) (e_lastAccessAt e) (e_accessCount e).

Definition item_of_record (r : CacheRecord) : item :=
  mkItem (r_value r) (r_version r) (r_namespaceVersion r) (r_spaceVersion r) (r_expireAt r)
    (r_createdAt r) (r_updatedAt r) (r_lastAccessAt r) (r_accessCount r).

(** The store a shard holds. *)
Definition store_of (s : shardWorker) (k : Key) : option item :=
  item_of <$> sw_entries s !! physicalKey k.

(** The operation a command asks for, when it is one of the contract's. *)
Definition op_of (cmd : shardCommand) : option kv_op :=
  match c_kind cmd with
  | commandSet => Some (KvSet (c_value cmd) (c_setOpts cmd))
  | commandGet => Some (KvGet (c_getOpts cmd))
  | commandDelete => Some (KvDelete (c_deleteOpts cmd))
  | commandTouch => Some (KvTouch (c_touch cmd))
  | commandAdjust => Some (KvAdjust (c_adjust cmd))
  | _ => None
  end.

(** What the caller reads from the result of each operation. *)
Definition answer_of (r : shardResult) : kv_answer :=
  match res_err r with
  | Some e => AnsError e
  | None =>
      if res_deleted r then AnsDeleted
      else if res_touched r then AnsTouched
      else if res_found r then AnsItem (item_of_record (res_record r))
      else AnsNone
  end.

(** The options of an adjustment are 64-bit integers, and versions are unsigned. *)
Definition op_typed (op : kv_op) : Prop :=
  match op with
  | KvAdjust o => is_s64 (ao_delta o) /\ is_s64 (ao_initialValue o)
  | _ => True
  end.

(** ** Refinement *)

Section Refinement.
  Implicit Types (s : shardWorker) (cmd : shardCommand).

Lemma live_expired now e : live now (item_of e) = negb (expired e now).
Proof.
  unfold live, expired, IsZero, After, zeroTime. cbn.
  destruct (e_expireAt e =? 0); cbn; [done|]. by rewrite negb_involutive.
Qed.

Lemma visible_versions e o : visible e o
  = version_ok (go_namespaceVersion o) (e_namespaceVersion e) && version_ok (go_spaceVersion o) (e_spaceVersion e).
Proof.
  unfold visible, version_ok.
  destruct (go_namespaceVersion o =? 0), (e_namespaceVersion e =? go_namespaceVersion o),
    (go_spaceVersion o =? 0), (e_spaceVersion e =? go_spaceVersion o); done.
Qed.

Lemma safeAdd_checked a b : is_s64 a -> is_s64 b ->
  safeAdd a b = match checked_add a b with Some n => Ok n | None => Err ErrInvalidCounter end.
Proof.
  intros Ha Hb. unfold safeAdd, checked_add, maxInt64, minInt64. unfold is_s64 in *.
  destruct (Z.ltb_spec 0 b), (Z.ltb_spec b 0); try lia; cbn [andb].
  - rewrite (s64_small (2 ^ 63 - 1 - b)) by (unfold is_s64; lia).
    case_bool; bool_to_prop; [rewrite bool_decide_eq_false_2 by (unfold is_s64; lia); done|].
    rewrite bool_decide_eq_true_2 by (unfold is_s64; lia). by rewrite s64_small by (unfold is_s64; lia).
  - rewrite (s64_small (- 2 ^ 63 - b)) by (unfold is_s64; lia).
    case_bool; bool_to_prop; [rewrite bool_decide_eq_false_2 by (unfold is_s64; lia); done|].
    rewrite bool_decide_eq_true_2 by (unfold is_s64; lia). by rewrite s64_small by (unfold is_s64; lia).
  - rewrite bool_decide_eq_true_2 by (unfold is_s64; lia). by rewrite s64_small by (unfold is_s64; lia).
Qed.

(** [cur] becomes [next.1] under the command's physical key, the answer is
    [next.2], and nothing else changes. *)
Definition refines_at (s : shardWorker) (cmd : shardCommand) (next : option item * kv_answer)
    (out : shardWorker * shardResult) : Prop :=
  item_of <$> sw_entries out.1 !! c_physical cmd = next.1 /\
  answer_of out.2 = next.2 /\
  forall q, q <> c_physical cmd -> sw_entries out.1 !! q = sw_entries s !! q.

Definition current (s : shardWorker) (cmd : shardCommand) : option item :=
  item_of <$> sw_entries s !! c_physical cmd.

Lemma refines_unchanged s t cmd r next :
  sw_entries t = sw_entries s -> next = (current s cmd, answer_of r) -> refines_at s cmd next (t, r).
Proof. intros E ->. split_and!; cbn; [by rewrite E|done|]. intros q _. by rewrite E. Qed.

Lemma refines_stored s t cmd r next e :
  sw_entries t = <[c_physical cmd := e]> (sw_entries s) -> next = (Some (item_of e), answer_of r) ->
  refines_at s cmd next (t, r).
Proof.
  intros E ->. split_and!; cbn; [by rewrite E, lookup_insert_eq|done|].
  intros q Hq. by rewrite E, lookup_insert_ne.
Qed.

Lemma refines_deleted s t cmd r next :
  sw_entries t = delete (c_physical cmd) (sw_entries s) -> next = (None, answer_of r) ->
  refines_at s cmd next (t, r).
Proof.
  intros E ->. split_and!; cbn; [by rewrite E, lookup_delete_eq|done|].
  intros q Hq. by rewrite E, lookup_delete_ne.
Qed.

Lemma cas_expected expected (o : option entry) :
  cas_ok expected (item_of <$> o)
  = if 0 <? expected then match o with Some e => e_version e =? expected | None => false end else true.
Proof. by destruct o. Qed.

Lemma cas_mismatch expected e :
  (0 <? expected) && negb (e_version e =? expected) = negb (cas_ok expected (Some (item_of e))).
Proof. unfold cas_ok. cbn. by destruct (0 <? expected). Qed.

Lemma applySet_refines s cmd :
  refines_at s cmd (kv_set (c_now cmd) (current s cmd) (c_value cmd) (c_setOpts cmd)) (applySet s cmd).
Proof.
  unfold applySet, kv_set, current. rewrite cas_expected.
  destruct (if 0 <? so_expectedVersion (c_setOpts cmd) then _ else true); cbn [negb];
    [|by apply refines_unchanged].
  destruct (sw_entries s !! c_physical cmd) as [e|]; cbn [replaceEntry].
  - eapply refines_stored; [cbn; rewrite replaceEntryCost_entries; reflexivity|reflexivity].
  - eapply refines_stored; reflexivity.
Qed.

Lemma applyGet_refines s cmd :
  refines_at s cmd (kv_get (c_now cmd) (current s cmd) (c_getOpts cmd)) (applyGet s cmd).
Proof.
  unfold applyGet, kv_get, current. cbn [sw_entries set_gets].
  destruct (sw_entries s !! c_physical cmd) as [e|] eqn:He; cbn [fmap option_fmap option_map];
    [|apply refines_unchanged; [done|]; unfold current; by rewrite He].
  rewrite live_expired, negb_involutive, visible_versions. cbn [item_of it_namespaceVersion it_spaceVersion].
  destruct (expired e (c_now cmd)).
  { apply refines_deleted; [|done]. cbn. by rewrite deleteEntry_entries. }
  destruct (_ && _); cbn [negb].
  - eapply refines_stored; reflexivity.
  - apply refines_unchanged; [done|]. unfold current. by rewrite He.
Qed.

Lemma applyDelete_refines s cmd :
  refines_at s cmd (kv_delete (current s cmd) (c_deleteOpts cmd)) (applyDelete s cmd).
Proof.
  unfold applyDelete, kv_delete, current.
  destruct (sw_entries s !! c_physical cmd) as [e|] eqn:He; cbn [fmap option_fmap option_map];
    [|apply refines_unchanged; [done|]; unfold current; by rewrite He].
  rewrite cas_mismatch. destruct (cas_ok _ _); cbn [negb].
  - apply refines_deleted; [|done]. by rewrite deleteEntry_entries.
  - apply refines_unchanged; [done|]. unfold current. by rewrite He.
Qed.

Lemma applyTouch_refines s cmd :
  refines_at s cmd (kv_touch (c_now cmd) (current s cmd) (c_touch cmd)) (applyTouch s cmd).
Proof.
  unfold applyTouch, kv_touch, current. cbn [sw_entries set_touches].
  destruct (sw_entries s !! c_physical cmd) as [e|] eqn:He; cbn [fmap option_fmap option_map];
    [|apply refines_unchanged; [done|]; unfold current; by rewrite He].
  destruct (to_ttl (c_touch cmd) <? 0).
  { apply refines_unchanged; [done|]. unfold current. by rewrite He. }
  rewrite live_expired, negb_involutive, visible_versions, cas_mismatch.
  cbn [item_of it_namespaceVersion it_spaceVersion go_namespaceVersion go_spaceVersion].
  destruct (expired e (c_now cmd)).
  { apply refines_deleted; [|done]. cbn. by rewrite deleteEntry_entries. }
  rewrite <- andb_assoc.
  destruct (cas_ok _ _); cbn [negb andb];
    [|apply refines_unchanged; [done|]; unfold current; by rewrite He].
  destruct (_ && _); cbn [negb];
    [|apply refines_unchanged; [done|]; unfold current; by rewrite He].
  eapply refines_stored; reflexivity.
Qed.

Lemma applyAdjust_refines s cmd : op_typed (KvAdjust (c_adjust cmd)) ->
  refines_at s cmd (kv_adjust (c_now cmd) (current s cmd) (c_adjust cmd)) (applyAdjust s cmd).
Proof.
  intros [Hd Hini]. unfold applyAdjust, prepareCounterAdjustment, kv_adjust, current.
  destruct (sw_entries s !! c_physical cmd) as [e|] eqn:He; cbn [fmap option_fmap option_map].
  - rewrite cas_mismatch. destruct (cas_ok _ _); cbn [negb];
      [|apply refines_unchanged; [done|]; unfold current; by rewrite He].
    rewrite live_expired, negb_involutive. destruct (expired e (c_now cmd)).
    { apply refines_deleted; [|done]. by rewrite deleteEntry_entries. }
    unfold addToCurrentCounter. cbn [item_of it_value].
    destruct (ParseInt _) as [n|] eqn:En; [|apply refines_unchanged; [done|]; unfold current; by rewrite He].
    rewrite (safeAdd_checked n _ (ParseInt_range _ _ En) Hd).
    destruct (checked_add n _) as [m|]; [|apply refines_unchanged; [done|]; unfold current; by rewrite He].
    eapply refines_stored; [cbn; rewrite replaceEntryCost_entries; reflexivity|reflexivity].
  - unfold newCounterAdjustment, cas_ok. destruct (0 <? ao_expectedVersion (c_adjust cmd)); cbn [negb].
    { apply refines_unchanged; [done|]. unfold current. by rewrite He. }
    rewrite (safeAdd_checked _ _ Hini Hd).
    destruct (checked_add _ _) as [m|]; [|apply refines_unchanged; [done|]; unfold current; by rewrite He].
    eapply refines_stored; reflexivity.
Qed.
End Refinement.

Section Contract.
  Context `{!Codecs, !GoMath, !RangeOrder}.

Lemma apply_refines_at depth s cmd op : op_of cmd = Some op -> op_typed op ->
  refines_at s cmd (kv_step (c_now cmd) op (current s cmd)) (apply depth s cmd).
Proof.
  unfold op_of, apply. destruct (c_kind cmd); intros [= <-] Ht.
  - apply applySet_refines.
  - apply applyGet_refines.
  - apply applyDelete_refines.
  - apply applyTouch_refines.
  - by apply applyAdjust_refines.
Qed.

(** A shard implements the abstract key-value store.  A set, get, delete,
    touch or adjust command answers what the store answers, leaves under its key
    the item the store leaves, and changes no other key. *)
Theorem shard_refines_store (depth : Z) (s : shardWorker) (cmd : shardCommand) (key : Key) (op : kv_op) :
  c_physical cmd = physicalKey key -> key_typed key -> op_of cmd = Some op -> op_typed op ->
  let '(t, r) := apply depth s cmd in
  answer_of r = (kv_step (c_now cmd) op (store_of s key)).2 /\
  store_of t key = (kv_step (c_now cmd) op (store_of s key)).1 /\
  forall k, key_typed k -> k <> key -> store_of t k = store_of s k.
Proof.
  intros Hp Hk Hop Ht. pose proof (apply_refines_at depth s cmd op Hop Ht) as Hr.
  unfold store_of. rewrite <- Hp. fold (current s cmd).
  destruct (apply depth s cmd) as [t r]. destruct Hr as (Hi & Ha & Ho). split_and!; [done|done|].
  intros k Hkt Hne. f_equal. apply Ho. rewrite Hp. intros E. by apply Hne, physicalKey_inj.
Qed.

(** Commands applied one after the other. *)
Definition run (cmds : list shardCommand) (s : shardWorker) : shardWorker :=
  foldl (fun s cmd => (apply 0 s cmd).1) s cmds.

(** A contract command on a key other than [key]. *)
Definition elsewhere (key : Key) (cmd : shardCommand) : Prop :=
  exists k op, c_physical cmd = physicalKey k /\ key_typed k /\ k <> key /\
    op_of cmd = Some op /\ op_typed op.

Lemma run_elsewhere key cmds s : key_typed key -> Forall (elsewhere key) cmds ->
  store_of (run cmds s) key = store_of s key.
Proof.
  intros Hk. revert s. induction cmds as [|cmd cmds IH]; intros s Hall; [done|].
  apply Forall_cons in Hall as [(k & op & Hp & Hkt & Hne & Hop & Ht) Hall].
  change (run (cmd :: cmds) s) with (run cmds (apply 0 s cmd).1). rewrite (IH _ Hall).
  unfold store_of. f_equal. destruct (apply_refines_at 0 s cmd op Hop Ht) as (_ & _ & Ho). apply Ho.
  rewrite Hp. intros E. by apply Hne, physicalKey_inj.
Qed.

(** A value that was set is what a later get of the key returns, with the
    version the set reported, whatever commands on other keys ran in between, as
    long as the item's deadline has not passed and the get asks for its versions. *)
Theorem read_your_write (s : shardWorker) (wr rd : shardCommand) (key : Key) (i : item)
    (cmds : list shardCommand) :
  c_physical wr = physicalKey key -> c_physical rd = physicalKey key -> key_typed key ->
  c_kind wr = commandSet -> c_kind rd = commandGet ->
  answer_of (apply 0 s wr).2 = AnsItem i -> Forall (elsewhere key) cmds ->
  live (c_now rd) i = true ->
  version_ok (go_namespaceVersion (c_getOpts rd)) (it_namespaceVersion i) = true ->
  version_ok (go_spaceVersion (c_getOpts rd)) (it_spaceVersion i) = true ->
  exists j, answer_of (apply 0 (run cmds (apply 0 s wr).1) rd).2 = AnsItem j /\
    it_value j = c_value wr /\ it_version j = it_version i.
Proof.
  intros Hw Hr Hk Kw Kr Ha Hcmds Hl Hv1 Hv2.
  destruct (apply_refines_at 0 s wr (KvSet (c_value wr) (c_setOpts wr))) as (S1 & S2 & _);
    [unfold op_of; by rewrite Kw|done|].
  destruct (apply_refines_at 0 (run cmds (apply 0 s wr).1) rd (KvGet (c_getOpts rd))) as (_ & G2 & _);
    [unfold op_of; by rewrite Kr|done|].
  rewrite Ha in S2. unfold kv_step, kv_set in S1, S2. destruct (cas_ok _ _); [|done].
  cbn [snd] in S2. injection S2 as Hi. cbn [fst] in S1. rewrite <- Hi in S1.
  assert (current (run cmds (apply 0 s wr).1) rd = Some i) as Hc.
  { unfold current. rewrite Hr. fold (store_of (run cmds (apply 0 s wr).1) key).
    rewrite run_elsewhere by done. unfold store_of. by rewrite <- Hw. }
  rewrite Hc in G2. cbn [kv_step kv_get] in G2. rewrite Hl, Hv1, Hv2 in G2. cbn [negb andb snd] in G2.
  eexists. split; [exact G2|]. cbn. rewrite Hi. unfold next_item. by case_match.
Qed.
End Contract.
