(* ===== verification/PrimitiveSpec.v ===== *)
(** * What the collection primitives do

    Stored collections are read back and never confused with another kind; an
    applied mutation leaves the updated collection in the entry; the estimate
    the quota relies on is the exact change of the shard's memory. *)

From S2P Require Import Prelude.
From S2P Require Import Binary.
From S2P Require Import GoStrings.
From S2P Require Import Routing.
From S2P Require Import EngineTypes.
From S2P Require Import Shard.
From S2P Require Import ShardInv.
From S2P Require Import ShardOps.
From S2P Require Import Primitives.
From S2P Require Import Instances.
From S2P Require Import Worker.

Local Open Scope Z_scope.
Local Open Scope nespa_scope.

(** ** Encoded collections *)

Lemma decodeCollectionBody_encode kind kind' body :
  decodeCollectionBody (encodeCollectionBody kind body) kind'
  = if collectionKind_Z kind =? collectionKind_Z kind' then Ok body else Err ErrInvalidCollection.
Proof.
  unfold decodeCollectionBody, encodeCollectionBody.
  assert ((length (collectionValuePrefix ++ [byte_of_Z (collectionKind_Z kind)] ++ body)
           <=? length collectionValuePrefix)%nat = false) as ->.
  { apply Nat.leb_gt. rewrite !length_app. simpl. lia. }
  rewrite take_app_length, drop_app_length, bool_decide_eq_true_2 by done. cbn [negb orb app].
  rewrite byte_Z_of_Z, Z.mod_small by (destruct kind; cbn; lia).
  by destruct (_ =? _).
Qed.

Lemma encodeCollection_decodes {C} `{!Codec C, !CodecLaws C} kind (c : C) value :
  encodeCollection kind c = Ok value -> decodeCollection kind value = Ok c.
Proof.
  unfold encodeCollection, decodeCollection. destruct (marshal c) as [body|] eqn:E; [|done].
  intros [= <-]. rewrite decodeCollectionBody_encode, Z.eqb_refl.
  by rewrite (unmarshal_marshal c body E).
Qed.

Lemma encodeCollection_other_kind {C D} `{!Codec C, !Codec D} kind kind' (c : C) value :
  encodeCollection kind c = Ok value -> collectionKind_Z kind <> collectionKind_Z kind' ->
  decodeCollection (C := D) kind' value = Err ErrInvalidCollection.
Proof.
  unfold encodeCollection, decodeCollection. destruct (marshal c) as [body|]; [|done].
  intros [= <-] Hne. rewrite decodeCollectionBody_encode. by rewrite (proj2 (Z.eqb_neq _ _) Hne).
Qed.

(** A stored collection is read back exactly as it was written, and an
    operation of another collection kind on it is refused as an invalid
    collection, whatever the two codecs are. *)
Theorem collection_kinds_separated {C D} `{!Codec C, !CodecLaws C, !Codec D}
    (kind kind' : collectionKind) (c : C) (value : list byte) :
  encodeCollection kind c = Ok value ->
  decodeCollection (C := C) kind value = Ok c /\
  (kind <> kind' -> decodeCollection (C := D) kind' value = Err ErrInvalidCollection).
Proof.
  intros He. split; [by apply encodeCollection_decodes|].
  intros Hne. apply (encodeCollection_other_kind kind kind' c value He).
  intros E. apply Hne. by destruct kind, kind'.
Qed.

Lemma collection_kinds_separated_witness :
  decodeCollection (C := gset string) (Codec0 := countable_codec _) collectionKindSet
    (encodeCollectionBody collectionKindSet (positive_bytes (encode ({["a"; "b"]} : gset string))))
  = Ok ({["a"; "b"]} : gset string).
Proof.
  refine (proj1 (@collection_kinds_separated (gset string) (gset string) (countable_codec _)
    (countable_codec_laws _) (countable_codec _) collectionKindSet collectionKindHLL
    ({["a"; "b"]} : gset string) _ _)).
  reflexivity.
Defined.

(** ** Estimates *)

(** The kinds whose estimate is exact: a bit that is already set in a missing
    bitmap and a member already counted are estimated as writes. *)
Definition exact_estimate (k : PrimitiveKind) : bool :=
  Mutates k && match k with PrimitiveBitmapSetBit | PrimitiveHLLAdd => false | _ => true end.

(** The command does not name a version of an entry that has expired. *)
Definition not_stale (s : shardWorker) (cmd : shardCommand) : Prop :=
  forall e, sw_entries s !! c_physical cmd = Some e -> expired e (c_now cmd) = true ->
    po_expectedVersion (pr_options (c_primitive cmd)) = 0.

Section Estimates.
  Implicit Types (s : shardWorker) (cmd : shardCommand).

Lemma mutablePrimitiveEntry_again s cmd : not_stale s cmd ->
  mutablePrimitiveEntry (mutablePrimitiveEntry s cmd).1 cmd = mutablePrimitiveEntry s cmd.
Proof.
  intros Hns. unfold mutablePrimitiveEntry at 2 3.
  destruct (sw_entries s !! c_physical cmd) as [e|] eqn:He.
  - destruct (expired e (c_now cmd)) eqn:Hx.
    + cbn [fst]. unfold mutablePrimitiveEntry. rewrite deleteEntry_entries, lookup_delete_eq.
      unfold primitiveExpectedVersionMatches. by rewrite (Hns e He Hx).
    + case_bool; cbn [fst]; unfold mutablePrimitiveEntry; rewrite He, Hx; by rewrite Heqb.
  - case_bool; cbn [fst]; unfold mutablePrimitiveEntry; rewrite He; by rewrite Heqb.
Qed.

Lemma mutableCollection_again {C} (decode : list byte -> result engineError C) empty s cmd : not_stale s cmd ->
  mutableCollection decode empty (mutableCollection decode empty s cmd).1 cmd = mutableCollection decode empty s cmd.
Proof.
  intros Hns%mutablePrimitiveEntry_again. unfold mutableCollection at 2 3.
  destruct (mutablePrimitiveEntry s cmd) as [t [[e|]|]] eqn:E; cbn [fst] in Hns.
  - destruct (decode (e_value e)) eqn:D; cbn [fst]; unfold mutableCollection; by rewrite Hns, D.
  - cbn [fst]. unfold mutableCollection. by rewrite Hns.
  - cbn [fst]. unfold mutableCollection. by rewrite Hns.
Qed.

Definition old_cost (ent : option entry) : Z := match ent with Some e => e_costBytes e | None => 0 end.

(** A write that succeeds moves the memory from the old cost to the new one. *)
Lemma writeCollection_memory {C} encode (count : C -> Z) s cmd ent c value :
  cmd_ok cmd -> shard_inv s -> sw_entries s !! c_physical cmd = ent -> encode c = Ok value ->
  fits (sw_entries (writeCollection encode count s cmd ent c).1) ->
  res_err (writeCollection encode count s cmd ent c).2 = None /\
  sw_memoryBytes (writeCollection encode count s cmd ent c).1
  = sw_memoryBytes s - old_cost ent + costOf (c_key cmd) value.
Proof.
  intros Hcmd Hi He Henc Hf.
  pose proof (writeCollection_inv encode count s cmd ent c Hcmd Hi He Hf) as Hi'.
  rewrite (inv_memory _ Hi'), (inv_memory s Hi). unfold writeCollection. rewrite Henc.
  destruct ent as [e|]; cbn [old_cost].
  - pose proof (found_key s cmd e (inv_entries s Hi) Hcmd He) as Hk.
    unfold writePrimitiveEntry. destruct (decide (e_value e = value)) as [Ev|Ev].
    + rewrite bool_decide_eq_true_2 by done. split; [done|]. cbn [fst].
      destruct (inv_entries s Hi _ _ He) as (_ & _ & Hc). rewrite Hc, Hk, Ev. lia.
    + rewrite bool_decide_eq_false_2 by done. split; [done|]. cbn. rewrite replaceEntryCost_entries.
      match goal with |- total_cost (<[_ := ?f]> _) = _ =>
        destruct (sums_replace (spaceKeyOf (e_key e)) _ _ e f He) as (-> & _) end. cbn. lia.
  - split; [done|]. cbn.
    match goal with |- total_cost (<[_ := ?f]> _) = _ =>
      destruct (sums_insert (spaceKeyOf (c_key cmd)) _ _ f He) as (-> & _) end. cbn. lia.
Qed.

(** The estimate agrees with the handler it estimates. *)
Definition agrees {C} (cmd : shardCommand) (est : option entry -> C -> shardResult)
    (hand : shardWorker -> option entry -> C -> shardWorker * shardResult) : Prop :=
  forall s ent c, shard_inv s -> sw_entries s !! c_physical cmd = ent ->
    we_applied (res_estimate (est ent c)) = true -> fits (sw_entries (hand s ent c).1) ->
    res_err (hand s ent c).2 = None /\
    sw_memoryBytes (hand s ent c).1 = sw_memoryBytes s
      - we_oldCostBytes (res_estimate (est ent c)) + we_newCostBytes (res_estimate (est ent c)).

(** The conclusion of the estimate theorem. *)
Definition estimate_is_exact (s2 : shardWorker) (r2 : shardResult) (s1 : shardWorker) (r1 : shardResult) : Prop :=
  res_err r2 = None /\
  sw_memoryBytes s2 = sw_memoryBytes s1
    - we_oldCostBytes (res_estimate r1) + we_newCostBytes (res_estimate r1).

Lemma onEstimate_exact {C} (decode : list byte -> result engineError C) empty s cmd est hand :
  agrees cmd est hand -> shard_inv s -> not_stale s cmd ->
  let e := onEstimate cmd (mutableCollection decode empty s cmd) est in
  let h := onOpened (mutableCollection decode empty e.1 cmd) hand in
  we_applied (res_estimate e.2) = true -> fits (sw_entries h.1) -> estimate_is_exact h.1 h.2 e.1 e.2.
Proof.
  intros Ha Hi Hns. pose proof (mutableCollection_again decode empty s cmd Hns) as Hag.
  pose proof (mutableCollection_inv decode empty s cmd Hi) as Hi'.
  pose proof (mutableCollection_lookup decode empty s cmd) as Hl.
  destruct (mutableCollection decode empty s cmd) as [t o] eqn:E. cbn [fst snd] in Hag, Hi', Hl.
  destruct o; cbn [onEstimate fst snd opened_entry] in *; try done; rewrite Hag; cbn [onOpened];
    intros Happ Hf; apply Ha; auto.
Qed.

Lemma estimateCollection_agrees {C} encode (count : C -> Z) onErr cmd s ent c :
  (forall e, we_applied (res_estimate (onErr e)) = false) ->
  cmd_ok cmd -> shard_inv s -> sw_entries s !! c_physical cmd = ent ->
  we_applied (res_estimate (estimateCollection encode onErr cmd ent c)) = true ->
  fits (sw_entries (writeCollection encode count s cmd ent c).1) ->
  res_err (writeCollection encode count s cmd ent c).2 = None /\
  sw_memoryBytes (writeCollection encode count s cmd ent c).1
  = sw_memoryBytes s - we_oldCostBytes (res_estimate (estimateCollection encode onErr cmd ent c))
    + we_newCostBytes (res_estimate (estimateCollection encode onErr cmd ent c)).
Proof.
  intros Herr Hcmd Hi He. unfold estimateCollection. destruct (encode c) as [value|err] eqn:Henc.
  - intros _ Hf. destruct (writeCollection_memory encode count s cmd ent c value Hcmd Hi He Henc Hf) as [-> ->].
    split; [done|]. by destruct ent.
  - by rewrite Herr.
Qed.

Lemma onPrimitive_err f (r : shardWorker * shardResult) :
  res_err (let '(s, x) := r in (s, onPrimitive f x)).2 = res_err r.2.
Proof. by destruct r. Qed.
End Estimates.

Section EstimateTheorem.
  Context `{!Codecs, !GoMath, !RangeOrder}.

Lemma unchanged_exact (s : shardWorker) (cmd : shardCommand) e :
  sw_memoryBytes s = sw_memoryBytes s
    - we_oldCostBytes (res_estimate (resEstimate (unchangedPrimitiveEstimate cmd e)))
    + we_newCostBytes (res_estimate (resEstimate (unchangedPrimitiveEstimate cmd e))).
Proof. cbn. lia. Qed.

Ltac estimated :=
  rewrite ?onPrimitive_err, ?onPrimitive_state in *;
  first [ done
        | by (split; [done | apply unchanged_exact])
        | by apply estimateCollection_agrees ].

Ltac agree :=
  unfold estimateMapSet, estimateMapDelete, estimateSetAdd, estimateSetRemove, estimateScoredSetPut,
    estimateScoredSetRemove, estimateListPush, estimateListPop, noEstimate;
  intros ? ent ? ? ?; destruct ent; cbn beta iota zeta;
  repeat (first [rewrite onPrimitive_state | rewrite onPrimitive_err | case_match]); intros; estimated.

Lemma counter_exact (s : shardWorker) (cmd : shardCommand) : shard_inv s -> cmd_ok cmd ->
  let e := estimateCounterPrimitive s cmd in
  let h := applyCounterPrimitive e.1 cmd in
  we_applied (res_estimate e.2) = true -> fits (sw_entries h.1) -> estimate_is_exact h.1 h.2 e.1 e.2.
Proof.
  intros Hi Hcmd. unfold estimateCounterPrimitive, applyCounterPrimitive.
  assert (cmd_ok (counterCommand cmd)) as Hcc by exact Hcmd. set (cc := counterCommand cmd) in *.
  pose proof (prepareCounterAdjustment_lookup s cc) as Hl.
  destruct (prepareCounterAdjustment s cc) as [t [[a|]|e]] eqn:E; [|done|done].
  destruct (Hl a eq_refl) as [Et Ha]. cbn [fst] in Et. subst t. cbn [fst snd].
  pose proof (applyAdjust_inv s cc Hi Hcc) as Hinv.
  unfold applyAdjust in *. rewrite E in *. intros _. destruct (ca_existing a) as [e|] eqn:Hex; symmetry in Ha; change (c_physical cc) with (c_physical cmd) in Ha.
  - cbn. intros Hf. split; [done|]. pose proof (inv_memory _ (Hinv Hf)) as Hm. cbn in Hm.
    rewrite Hm, (inv_memory s Hi), replaceEntryCost_entries. cbn.
    match goal with |- total_cost (<[_ := ?f]> _) = _ =>
      destruct (sums_replace (spaceKeyOf (e_key e)) _ _ e f Ha) as (-> & _) end. cbn. lia.
  - cbn. intros Hf. split; [done|]. pose proof (inv_memory _ (Hinv Hf)) as Hm. cbn in Hm.
    etransitivity; [exact Hm|]. rewrite (inv_memory s Hi).
    match goal with |- total_cost (<[_ := ?f]> _) = _ =>
      destruct (sums_insert (spaceKeyOf (c_key cmd)) _ _ f Ha) as (-> & _) end. cbn. lia.
Qed.

(** The cost estimate of a mutating primitive is exact.  When the estimate
    says the primitive applies, running the primitive right after it succeeds
    and changes the shard's memory by exactly the new cost less the old one, for
    every kind but the two whose no-op is estimated as a write. *)
Theorem estimate_exact (s : shardWorker) (cmd : shardCommand) :
  shard_inv s -> cmd_ok cmd -> not_stale s cmd -> exact_estimate (pr_kind (c_primitive cmd)) = true ->
  let '(s1, r1) := applyPrimitiveEstimate s cmd in
  let '(s2, r2) := applyPrimitive s1 cmd in
  we_applied (res_estimate r1) = true -> fits (sw_entries s2) ->
  res_err r2 = None /\
  sw_memoryBytes s2 = sw_memoryBytes s1
    - we_oldCostBytes (res_estimate r1) + we_newCostBytes (res_estimate r1).
Proof.
  intros Hi Hcmd Hns Hk.
  assert (forall e h : shardWorker * shardResult,
    (we_applied (res_estimate e.2) = true -> fits (sw_entries h.1) -> estimate_is_exact h.1 h.2 e.1 e.2) ->
    h = applyPrimitive e.1 cmd -> e = applyPrimitiveEstimate s cmd ->
    let '(s1, r1) := applyPrimitiveEstimate s cmd in
    let '(s2, r2) := applyPrimitive s1 cmd in
    we_applied (res_estimate r1) = true -> fits (sw_entries s2) -> estimate_is_exact s2 r2 s1 r1) as Hgo.
  { intros [s1 r1] [s2 r2] Hx Eh <-. cbn [fst] in Eh. rewrite <- Eh. exact Hx. }
  eapply Hgo; [|reflexivity|reflexivity]. clear Hgo. revert Hk.
  unfold applyPrimitive, applyPrimitiveEstimate, estimateMapPrimitive, estimateSetPrimitive,
    estimateScoredSetPrimitive, estimateListPrimitive, estimateListMutation, estimateHLLPrimitive.
  destruct (pr_kind (c_primitive cmd)) eqn:Hkind; intros Hk; try discriminate Hk; cbn [negb Mutates];
    try (apply onEstimate_exact; [|exact Hi|exact Hns]; agree).
  by apply counter_exact.
Qed.
End EstimateTheorem.

(** ** Mutations and reads *)

(** The collection stored under a command's key. *)
Definition stored_collection {C} (decode : list byte -> result engineError C) (s : shardWorker)
    (cmd : shardCommand) : option C :=
  match sw_entries s !! c_physical cmd with
  | Some e => match decode (e_value e) with Ok c => Some c | Err _ => None end
  | None => None
  end.

(** The collection a mutation starts from: the stored one, or an empty one when
    there is no entry or it has expired. *)
Definition base_collection {C} (decode : list byte -> result engineError C) (empty : C)
    (s : shardWorker) (cmd : shardCommand) : option C :=
  match sw_entries s !! c_physical cmd with
  | None => Some empty
  | Some e => if expired e (c_now cmd) then Some empty else stored_collection decode s cmd
  end.

(** A later read of the same key that the entry's deadline and versions allow. *)
Definition can_read (s : shardWorker) (cmd : shardCommand) : Prop :=
  exists e, sw_entries s !! c_physical cmd = Some e /\ expired e (c_now cmd) = false /\
    visible e (primitiveGetOptions (pr_options (c_primitive cmd))) = true.

Section Mutations.
  Implicit Types (s : shardWorker) (cmd : shardCommand).

(** What a successful write leaves. *)
Lemma writeCollection_stores {C} encode (count : C -> Z) s cmd ent c t r :
  sw_entries s !! c_physical cmd = ent -> writeCollection encode count s cmd ent c = (t, r) -> res_err r = None ->
  exists e value, encode c = Ok value /\ sw_entries t !! c_physical cmd = Some e /\ e_value e = value /\
    forall q, q <> c_physical cmd -> sw_entries t !! q = sw_entries s !! q.
Proof.
  intros He. unfold writeCollection. destruct (encode c) as [value|err]; [|by intros [= <- <-]].
  destruct ent as [e|].
  - unfold writePrimitiveEntry. destruct (decide (e_value e = value)) as [Ev|Ev].
    + rewrite bool_decide_eq_true_2 by done. intros [= <- <-] _. by exists e, value.
    + rewrite bool_decide_eq_false_2 by done. intros [= <- <-] _. eexists _, value.
      split; [done|]. cbn. rewrite replaceEntryCost_entries, lookup_insert_eq.
      split_and!; [done|done|]. intros q Hq. by rewrite lookup_insert_ne.
  - intros [= <- <-] _. eexists _, value. split; [done|]. cbn. rewrite lookup_insert_eq.
    split_and!; [done|done|]. intros q Hq. by rewrite lookup_insert_ne.
Qed.

Lemma mutableCollection_base {C} (decode : list byte -> result engineError C) empty s cmd c o t :
  mutableCollection decode empty s cmd = (t, o) ->
  o = OpenNew c \/ (exists ent, o = OpenExisting c ent) ->
  base_collection decode empty s cmd = Some c /\
  forall q, q <> c_physical cmd -> sw_entries t !! q = sw_entries s !! q.
Proof.
  unfold mutableCollection, mutablePrimitiveEntry, base_collection, stored_collection.
  destruct (sw_entries s !! c_physical cmd) as [e|].
  - destruct (expired e (c_now cmd)).
    + intros [= <- <-] [[= <-]|[ent ?]]; [|done]. split; [done|]. intros q Hq.
      by rewrite deleteEntry_entries, lookup_delete_ne.
    + case_bool; [|destruct (decode (e_value e))]; intros [= <- <-] [?|[ent ?]]; by simplify_eq.
  - case_bool; intros [= <- <-] [?|[ent ?]]; by simplify_eq.
Qed.

(** A handler that opens a collection, updates it and writes it. *)
Lemma onOpened_update {C} `{!Codec C, !CodecLaws C} kind (count : C -> Z) empty s cmd f t r
    (k : shardWorker -> option entry -> C -> shardWorker * shardResult) :
  (forall s ent c t r, sw_entries s !! c_physical cmd = ent -> k s ent c = (t, r) -> res_err r = None ->
     pres_applied (res_primitive r) = true ->
     (exists e, ent = Some e /\ t = s /\ f c = c) \/
     exists r', writeCollection (encodeCollection kind) count s cmd ent (f c) = (t, r') /\ res_err r' = None) ->
  onOpened (mutableCollection (decodeCollection kind) empty s cmd) k = (t, r) ->
  res_err r = None -> pres_applied (res_primitive r) = true ->
  exists c, base_collection (decodeCollection kind) empty s cmd = Some c /\
    stored_collection (decodeCollection kind) t cmd = Some (f c) /\
    forall q, q <> c_physical cmd -> sw_entries t !! q = sw_entries s !! q.
Proof.
  intros Hk. pose proof (mutableCollection_lookup (decodeCollection kind) empty s cmd) as Hl.
  pose proof (mutableCollection_base (decodeCollection kind) empty s cmd) as Hb.
  destruct (mutableCollection _ _ s cmd) as [u o] eqn:Eo. cbn [fst snd] in Hl.
  assert (forall ent c, opened_entry o = Some ent ->
    base_collection (decodeCollection kind) empty s cmd = Some c ->
    (forall q, q <> c_physical cmd -> sw_entries u !! q = sw_entries s !! q) ->
    (forall e, ent = Some e -> stored_collection (decodeCollection kind) u cmd = Some c) ->
    k u ent c = (t, r) -> res_err r = None -> pres_applied (res_primitive r) = true ->
    exists c, base_collection (decodeCollection kind) empty s cmd = Some c /\
      stored_collection (decodeCollection kind) t cmd = Some (f c) /\
      forall q, q <> c_physical cmd -> sw_entries t !! q = sw_entries s !! q) as Hgo.
  { intros ent c Ho Hbase Hframe Hst Ek Herr Happ. exists c. split; [done|].
    destruct (Hk u ent c t r (Hl ent Ho) Ek Herr Happ) as [(e & He & -> & Hf)|(r' & Hw & Hr')].
    - rewrite Hf. split; [by apply (Hst e)|done].
    - destruct (writeCollection_stores _ _ _ _ _ _ _ _ (Hl ent Ho) Hw Hr') as (e & v & Henc & He & Hv & Hfr).
      split; [|intros q Hq; by rewrite Hfr, Hframe].
      unfold stored_collection. rewrite He, Hv. by rewrite (encodeCollection_decodes kind (f c) v Henc). }
  destruct o as [e| |c|c ent]; cbn [onOpened].
  - by intros [= <- <-].
  - by intros [= <- <-].
  - intros Ek Herr Happ. destruct (Hb c _ u eq_refl) as [Hbase Hframe]; [by left|].
    by apply (Hgo None c).
  - intros Ek Herr Happ. destruct (Hb c _ u eq_refl) as [Hbase Hframe]; [right; by exists ent|].
    apply (Hgo (Some ent) c); try done. intros e _. unfold stored_collection.
    rewrite (Hl (Some ent) eq_refl). unfold mutableCollection in Eo.
    destruct (mutablePrimitiveEntry s cmd) as [v [[e'|]|]]; try done.
    destruct (decodeCollection kind (e_value e')) eqn:D; simplify_eq. by rewrite D.
Qed.

Lemma readCollection_stored {C} (decode : list byte -> result engineError C) s cmd c :
  can_read s cmd -> stored_collection decode s cmd = Some c ->
  exists t e, readCollection decode s cmd = (t, ReadOk c e).
Proof.
  intros (e & He & Hx & Hv). unfold stored_collection, readCollection, readPrimitiveEntry.
  rewrite He, Hx, Hv. cbn [negb touchAccess e_value]. destruct (decode (e_value e)); [|done].
  intros [= <-]. eauto.
Qed.
End Mutations.

(** ** Maps *)

Section Maps.
  Context `{!Codecs, !RangeOrder} `{!CodecLaws mapCollection}.

Lemma applyMapSet_stores s cmd t r : applyMapSet s cmd = (t, r) -> res_err r = None ->
  pres_applied (res_primitive r) = true ->
  exists m, base_collection decodeMapCollection ∅ s cmd = Some m /\
    stored_collection decodeMapCollection t cmd
    = Some (<[pr_field (c_primitive cmd) := pr_value (c_primitive cmd)]> m) /\
    forall q, q <> c_physical cmd -> sw_entries t !! q = sw_entries s !! q.
Proof.
  apply (onOpened_update collectionKindMap (fun fields => Z.of_nat (size fields)) ∅ s cmd
           (fun m => <[pr_field (c_primitive cmd) := pr_value (c_primitive cmd)]> m)).
  intros u ent c v x Hent Hw Herr _. destruct ent as [e|]; [|right; by exists x].
  destruct (sameMapField c _ _) eqn:Hs; [|right; by exists x]. left. exists e.
  cbn zeta in Hw. simplify_eq. split_and!; [done|done|]. unfold sameMapField in Hs. destruct (c !! _) as [w|] eqn:Hl; [|done].
  bool_to_prop. subst. by apply insert_id.
Qed.

(** A map field that was set is read back, until the entry expires or its
    versions hide it; every other field reads as before, and no other key of the
    shard changes. *)
Theorem map_set_then_get (s t : shardWorker) (cmd rd : shardCommand) (r : shardResult) :
  applyMapSet s cmd = (t, r) -> res_err r = None -> pres_applied (res_primitive r) = true ->
  c_physical rd = c_physical cmd -> can_read t rd ->
  exists m, base_collection decodeMapCollection ∅ s cmd = Some m /\
    (let m' := <[pr_field (c_primitive cmd) := pr_value (c_primitive cmd)]> m in
     let got := res_primitive (applyMapGet t rd).2 in
     pres_found got = bool_decide (is_Some (m' !! pr_field (c_primitive rd))) /\
     pres_value got = default [] (m' !! pr_field (c_primitive rd))) /\
    forall q, q <> c_physical cmd -> sw_entries t !! q = sw_entries s !! q.
Proof.
  intros Hs Herr Happ Hp Hr. destruct (applyMapSet_stores s cmd t r Hs Herr Happ) as (m & Hb & Hst & Hf).
  exists m. split_and!; [done| |done]. cbn zeta.
  assert (stored_collection decodeMapCollection t rd
    = Some (<[pr_field (c_primitive cmd) := pr_value (c_primitive cmd)]> m)) as Hst'
    by (unfold stored_collection in *; by rewrite Hp).
  destruct (readCollection_stored _ t rd _ Hr Hst') as (u & e & Hread).
  unfold applyMapGet, readMap. rewrite Hread. done.
Qed.

End Maps.

(** ** Sets *)

Section Sets.
  Context `{!Codecs} `{!CodecLaws setCollection}.

Lemma applySetAdd_stores s cmd t r : applySetAdd s cmd = (t, r) -> res_err r = None ->
  pres_applied (res_primitive r) = true ->
  exists m, base_collection decodeSetCollection ∅ s cmd = Some m /\
    stored_collection decodeSetCollection t cmd = Some ({[pr_member (c_primitive cmd)]} ∪ m) /\
    forall q, q <> c_physical cmd -> sw_entries t !! q = sw_entries s !! q.
Proof.
  apply (onOpened_update collectionKindSet (fun members => Z.of_nat (size members)) ∅ s cmd
           (fun m => {[pr_member (c_primitive cmd)]} ∪ m)).
  intros u ent c v x Hent Hw Herr _. cbn zeta in Hw.
  assert (exists x', writeSetCollection u cmd ent ({[pr_member (c_primitive cmd)]} ∪ c) = (v, x') /\
            res_err x' = None \/ (exists e, ent = Some e /\ v = u /\ {[pr_member (c_primitive cmd)]} ∪ c = c))
    as [x' [[Hx Hx']|Hx]]; [|right; by exists x'|by left].
  destruct ent as [e|]; [destruct (bool_decide _) eqn:Hb|].
  - exists x. right. exists e. simplify_eq. split_and!; [done|done|]. bool_to_prop. set_solver.
  - destruct (writeSetCollection u cmd (Some e) _) as [v' x'] eqn:E. exists x'. left. by simplify_eq.
  - destruct (writeSetCollection u cmd None _) as [v' x'] eqn:E. exists x'. left. by simplify_eq.
Qed.

Lemma applySetRemove_stores s cmd t r : applySetRemove s cmd = (t, r) -> res_err r = None ->
  pres_applied (res_primitive r) = true ->
  exists m, base_collection decodeSetCollection ∅ s cmd = Some m /\
    stored_collection decodeSetCollection t cmd = Some (m ∖ {[pr_member (c_primitive cmd)]}) /\
    forall q, q <> c_physical cmd -> sw_entries t !! q = sw_entries s !! q.
Proof.
  apply (onOpened_update collectionKindSet (fun members => Z.of_nat (size members)) ∅ s cmd
           (fun m => m ∖ {[pr_member (c_primitive cmd)]})).
  intros u ent c v x Hent Hw Herr Happ. destruct ent as [e|]; [|by simplify_eq].
  destruct (bool_decide _) eqn:Hb; cbn [negb] in Hw.
  - destruct (writeSetCollection u cmd (Some e) _) as [v' x'] eqn:E. right. exists x'. by simplify_eq.
  - left. exists e. simplify_eq. split_and!; [done|done|]. bool_to_prop. set_solver.
Qed.

(** A member that was added to a set is contained in it, a member that was
    removed is not, and membership of every other member is unchanged. *)
Theorem set_add_remove_contains (s t : shardWorker) (cmd rd : shardCommand) (r : shardResult) (adding : bool) :
  (if adding then applySetAdd s cmd else applySetRemove s cmd) = (t, r) ->
  res_err r = None -> pres_applied (res_primitive r) = true ->
  c_physical rd = c_physical cmd -> can_read t rd ->
  exists m, base_collection decodeSetCollection ∅ s cmd = Some m /\
    pres_bool (res_primitive (applySetContains t rd).2)
    = if decide (pr_member (c_primitive rd) = pr_member (c_primitive cmd)) then adding
      else bool_decide (pr_member (c_primitive rd) ∈ m).
Proof.
  intros Hs Herr Happ Hp Hr. set (x := pr_member (c_primitive cmd)) in *.
  assert (exists m, base_collection decodeSetCollection ∅ s cmd = Some m /\
    stored_collection decodeSetCollection t cmd = Some (if adding then {[x]} ∪ m else m ∖ {[x]}))
    as (m & Hb & Hst).
  { destruct adding;
      [destruct (applySetAdd_stores s cmd t r Hs Herr Happ) as (m & ? & ? & _)
      |destruct (applySetRemove_stores s cmd t r Hs Herr Happ) as (m & ? & ? & _)]; eauto. }
  exists m. split; [done|].
  assert (stored_collection decodeSetCollection t rd
    = Some (if adding then {[x]} ∪ m else m ∖ {[x]})) as Hst'
    by (unfold stored_collection in *; by rewrite Hp).
  destruct (readCollection_stored _ t rd _ Hr Hst') as (u & e & Hread).
  unfold applySetContains, readSet. rewrite Hread. cbn [onRead snd res_primitive resPrimitive pres_bool].
  destruct adding; case_decide; [apply bool_decide_eq_true_2|apply bool_decide_ext|
    apply bool_decide_eq_false_2|apply bool_decide_ext]; set_solver.
Qed.

End Sets.

(** ** Lists *)

Section Lists.
  Context `{!Codecs} `{!CodecLaws listCollection}.

Lemma applyListPush_stores front s cmd t r : applyListPush s cmd front = (t, r) -> res_err r = None ->
  pres_applied (res_primitive r) = true ->
  exists l, base_collection decodeListCollection [] s cmd = Some l /\
    stored_collection decodeListCollection t cmd = Some (pushed l (pr_value (c_primitive cmd)) front) /\
    forall q, q <> c_physical cmd -> sw_entries t !! q = sw_entries s !! q.
Proof.
  apply (onOpened_update collectionKindList zlen [] s cmd
           (fun l => pushed l (pr_value (c_primitive cmd)) front)).
  intros u ent c v x Hent Hw Herr _. right. by exists x.
Qed.

Lemma applyListPop_result front s cmd t r : applyListPop s cmd front = (t, r) -> res_err r = None ->
  pres_applied (res_primitive r) = true ->
  exists l l', stored_collection decodeListCollection s cmd = Some l /\
    popped l front = Some (pres_value (res_primitive r), l') /\
    stored_collection decodeListCollection t cmd = Some l'.
Proof.
  unfold applyListPop, mutableList.
  pose proof (mutableCollection_base decodeListCollection [] s cmd) as Hb.
  pose proof (mutableCollection_lookup decodeListCollection [] s cmd) as Hl.
  destruct (mutableCollection decodeListCollection [] s cmd) as [u o] eqn:Eo. cbn [fst snd] in Hl.
  destruct o as [e| |c|c e]; cbn [onOpened]; [by intros [= <- <-]..|].
  assert (stored_collection decodeListCollection s cmd = Some c) as Hst.
  { revert Eo. unfold mutableCollection, mutablePrimitiveEntry, stored_collection.
    destruct (sw_entries s !! c_physical cmd) as [f|]; [|by case_bool].
    case_bool; [done|]. case_bool; [done|]. case_match; [|done]. by intros [= _ <- _]. }
  destruct (popped c front) as [[v l']|] eqn:Hpop; [|by intros [= <- <-]].
  destruct (writeListCollection u cmd (Some e) l') as [w x] eqn:Ew. intros [= <- <-] Herr _.
  exists c, l'. split_and!; [done|done|].
  destruct (writeCollection_stores _ _ _ _ _ _ _ _ (Hl (Some e) eq_refl) Ew Herr) as (f & y & Henc & Hf & Hy & _).
  unfold stored_collection. rewrite Hf, Hy. unfold decodeListCollection.
  by rewrite (encodeCollection_decodes collectionKindList l' y Henc).
Qed.

Lemma popped_pushed l front x l' : popped l front = Some (x, l') -> l = pushed l' x front.
Proof.
  unfold popped, pushed. destruct front.
  - destruct l as [|y l]; [done|]. cbn. by intros [= -> ->].
  - destruct (l !! (length l - 1)%nat) as [y|] eqn:E; [|done]. intros [= -> <-].
    rewrite <- (take_drop_middle l _ _ E) at 1. rewrite delete_take_drop.
    rewrite (drop_ge l (S _)) by (apply lookup_lt_Some in E; lia). by rewrite app_nil_r.
Qed.

(** Lists are double-ended queues.  After a push and a pop of the same list,
    the list the push built is the list that is left with the popped value at
    the popped end: a push and a pop of one end cancel, a push at the back and a
    pop at the front are a queue. *)
Theorem list_push_then_pop (s t u : shardWorker) (push pop : shardCommand) (r1 r2 : shardResult)
    (front front' : bool) :
  applyListPush s push front = (t, r1) -> res_err r1 = None -> pres_applied (res_primitive r1) = true ->
  c_physical pop = c_physical push ->
  applyListPop t pop front' = (u, r2) -> res_err r2 = None -> pres_applied (res_primitive r2) = true ->
  exists before after, base_collection decodeListCollection [] s push = Some before /\
    stored_collection decodeListCollection u pop = Some after /\
    let v := pr_value (c_primitive push) in
    let w := pres_value (res_primitive r2) in
    (if front then v :: before else before ++ [v]) = (if front' then w :: after else after ++ [w]).
Proof.
  intros Hpush Herr1 Happ1 Hp Hpop Herr2 Happ2.
  destruct (applyListPush_stores front s push t r1 Hpush Herr1 Happ1) as (l & Hb & Hst & _).
  destruct (applyListPop_result front' t pop u r2 Hpop Herr2 Happ2) as (k & l' & Hk & Hpp & Hl').
  assert (k = pushed l (pr_value (c_primitive push)) front) as ->
    by (unfold stored_collection in *; rewrite Hp in Hk; congruence).
  exists l, l'. split_and!; [done|done|]. exact (popped_pushed _ _ _ _ Hpp).
Qed.
End Lists.
