(* ===== verification/MemoryEngine.v ===== *)
(** * The sharded engine (cache/engine: memory.go, stats.go, snapshot.go, migration.go)

    A [MemoryEngine] is a list of shards and whether it is closed.  A command is
    executed by the shard its physical key hashes to; a call that concerns every
    shard visits them in order.

    A call is one sequence of commands, each applied by its worker as soon as it
    is sent: interleavings of calls are sequences of the same commands, because a
    worker applies the commands of its channel one at a time.  A context is nil
    or alive; cancellation while a command waits is not modelled.  The clock
    [e.now()] is an argument of each call. *)

From S2P Require Import Prelude.
From S2P Require Import Binary.
From S2P Require Import GoStrings.
From S2P Require Import Routing.
From S2P Require Import EngineTypes.
From S2P Require Import Shard.
From S2P Require Import ShardInv.
From S2P Require Import ShardOps.
From S2P Require Import Primitives.
From S2P Require Import Worker.

Local Open Scope Z_scope.
Local Open Scope nespa_scope.

(** ** State *)

(** src: cache/engine/engine.go MemoryEngine *)
Record MemoryEngine := mkEngine {
  me_closed : bool;
  me_shards : list shardWorker
}.

(** A [context.Context]. *)
Inductive Context' := NilContext | LiveContext.

(** src: cache/engine/memory.go NewMemory *)
Definition NewMemory (cfgShardCount : Z) : MemoryEngine :=
  let shardCount := if cfgShardCount <=? 0 then 16 else cfgShardCount in
  mkEngine false ((fun i => emptyShard (Z.of_nat i)) <$> seq 0 (Z.to_nat shardCount)).

(** src: cache/engine/memory.go Close *)
Definition Close (e : MemoryEngine) : MemoryEngine := mkEngine true (me_shards e).

(** The index of the shard [shardFor] returns.
    src: cache/engine/memory.go shardFor *)
Definition shardIndex (shards : Z) (physical : string) : nat :=
  Z.to_nat (fnv_write fnv_offset64 (str_bytes physical) mod shards).

Definition shardFor (e : MemoryEngine) (physical : string) : nat :=
  shardIndex (zlen (me_shards e)) physical.

(** ** Results *)

(** src: cache/engine/migration_types.go ImportResult *)
Record ImportResult := mkImportResult { ir_imported : Z }.

(** src: cache/engine/migration_types.go DeleteRangeResult *)
Record DeleteRangeResult := mkDeleteRangeResult { dr_deleted : Z }.

(** One turn of a loop over the shards: go on, or return with an error or not. *)
Inductive turn (A : Type) :=
| Next (a : A)
| Return (a : A) (err : option engineError).
Arguments Next {A} a.
Arguments Return {A} a err.

Section Engine.
  Context `{!Codecs, !GoMath, !RangeOrder}.

(** Send a command to the worker at an index and wait for its reply.
    src: cache/engine/memory.go executeOn *)
Definition executeOn (ctx : Context') (e : MemoryEngine) (index : nat) (cmd : shardCommand)
    : MemoryEngine * result engineError shardResult :=
  match ctx with
  | NilContext => (e, Err ErrNilContext)
  | LiveContext =>
      if me_closed e then (e, Err ErrClosed)
      else match me_shards e !! index with
      | None => (e, Err ErrClosed)
      | Some worker =>
          let '(worker, r) := apply 0 worker cmd in
          (mkEngine (me_closed e) (<[index := worker]> (me_shards e)), Ok r)
      end
  end.

(** src: cache/engine/memory.go execute *)
Definition execute (ctx : Context') (e : MemoryEngine) (cmd : shardCommand) :=
  executeOn ctx e (shardFor e (c_physical cmd)) cmd.

(** [for _, worker := range e.shards]. *)
Fixpoint forWorkers {A} (indices : list nat)
    (body : MemoryEngine -> nat -> A -> MemoryEngine * turn A) (e : MemoryEngine) (acc : A)
    : MemoryEngine * (A * option engineError) :=
  match indices with
  | [] => (e, (acc, None))
  | index :: rest =>
      match body e index acc with
      | (e, Next acc) => forWorkers rest body e acc
      | (e, Return acc err) => (e, (acc, err))
      end
  end.

Definition eachShard {A} (body : MemoryEngine -> nat -> A -> MemoryEngine * turn A) (e : MemoryEngine) (acc : A)
    : MemoryEngine * (A * option engineError) :=
  forWorkers (seq 0 (length (me_shards e))) body e acc.

(** [if err != nil { return ... }; if result.err != nil { return ... }]. *)
Definition onReply {A} (out : MemoryEngine * result engineError shardResult) (failed : A)
    (k : shardResult -> A) : MemoryEngine * turn A :=
  match out with
  | (e, Err err) => (e, Return failed (Some err))
  | (e, Ok r) =>
      match res_err r with
      | Some err => (e, Return failed (Some err))
      | None => (e, Next (k r))
      end
  end.

(** ** One key *)

Definition setCommand (key : Key) (value : list byte) (opts : SetOptions) (now : Time) : shardCommand :=
  mkCommand commandSet (physicalKey key) key value opts (mkGetOptions 0 0) (mkTouchOptions 0 0 0 0)
    (mkAdjustOptions 0 0 0 0 0 0) zeroPrimitiveRequest (mkDeleteOptions 0)
    (c_evict (zeroCommand commandSet)) (c_rangeOpts (zeroCommand commandSet)) [] now.

Definition getCommand (key : Key) (opts : GetOptions) (now : Time) : shardCommand :=
  mkCommand commandGet (physicalKey key) zeroKey [] (mkSetOptions 0 0 0 0) opts (mkTouchOptions 0 0 0 0)
    (mkAdjustOptions 0 0 0 0 0 0) zeroPrimitiveRequest (mkDeleteOptions 0)
    (c_evict (zeroCommand commandGet)) (c_rangeOpts (zeroCommand commandGet)) [] now.

Definition deleteCommand (key : Key) (opts : DeleteOptions) : shardCommand :=
  mkCommand commandDelete (physicalKey key) zeroKey [] (mkSetOptions 0 0 0 0) (mkGetOptions 0 0)
    (mkTouchOptions 0 0 0 0) (mkAdjustOptions 0 0 0 0 0 0) zeroPrimitiveRequest opts
    (c_evict (zeroCommand commandDelete)) (c_rangeOpts (zeroCommand commandDelete)) [] zeroTime.

Definition touchCommand (key : Key) (opts : TouchOptions) (now : Time) : shardCommand :=
  mkCommand commandTouch (physicalKey key) zeroKey [] (mkSetOptions 0 0 0 0) (mkGetOptions 0 0) opts
    (mkAdjustOptions 0 0 0 0 0 0) zeroPrimitiveRequest (mkDeleteOptions 0)
    (c_evict (zeroCommand commandTouch)) (c_rangeOpts (zeroCommand commandTouch)) [] now.

Definition adjustCommand (kind : commandKind) (key : Key) (opts : AdjustOptions) (now : Time) : shardCommand :=
  mkCommand kind (physicalKey key) key [] (mkSetOptions 0 0 0 0) (mkGetOptions 0 0)
    (mkTouchOptions 0 0 0 0) opts zeroPrimitiveRequest (mkDeleteOptions 0)
    (c_evict (zeroCommand kind)) (c_rangeOpts (zeroCommand kind)) [] now.

Definition primitiveCommand (kind : commandKind) (request : PrimitiveRequest) (now : Time) : shardCommand :=
  mkCommand kind (physicalKey (pr_key request)) (pr_key request) [] (mkSetOptions 0 0 0 0)
    (mkGetOptions 0 0) (mkTouchOptions 0 0 0 0) (mkAdjustOptions 0 0 0 0 0 0) request
    (mkDeleteOptions 0) (c_evict (zeroCommand kind)) (c_rangeOpts (zeroCommand kind)) [] now.

(** A record, whether it was found, and the error of the command. *)
Definition recordReply (out : MemoryEngine * result engineError shardResult)
    : MemoryEngine * (CacheRecord * bool * option engineError) :=
  match out with
  | (e, Err err) => (e, (zeroRecord, false, Some err))
  | (e, Ok r) => (e, (res_record r, res_found r, res_err r))
  end.

(** src: cache/engine/memory.go Set *)
Definition Set' (ctx : Context') (e : MemoryEngine) (key : Key) (value : list byte) (opts : SetOptions)
    (now : Time) : MemoryEngine * (CacheRecord * bool * option engineError) :=
  match validateKey key with
  | Some err => (e, (zeroRecord, false, Some err))
  | None => recordReply (execute ctx e (setCommand key value opts now))
  end.

(** src: cache/engine/memory.go Get *)
Definition Get (ctx : Context') (e : MemoryEngine) (key : Key) (opts : GetOptions) (now : Time)
    : MemoryEngine * (CacheRecord * bool * option engineError) :=
  match validateKey key with
  | Some err => (e, (zeroRecord, false, Some err))
  | None => recordReply (execute ctx e (getCommand key opts now))
  end.

(** src: cache/engine/memory.go Delete *)
Definition Delete (ctx : Context') (e : MemoryEngine) (key : Key) (opts : DeleteOptions)
    : MemoryEngine * (bool * bool * option engineError) :=
  match validateKey key with
  | Some err => (e, (false, false, Some err))
  | None =>
      match execute ctx e (deleteCommand key opts) with
      | (e, Err err) => (e, (false, false, Some err))
      | (e, Ok r) => (e, (res_deleted r, res_found r, res_err r))
      end
  end.

(** src: cache/engine/memory.go Exists *)
Definition Exists (ctx : Context') (e : MemoryEngine) (key : Key) (opts : GetOptions) (now : Time)
    : MemoryEngine * (bool * option engineError) :=
  let '(e, (_, ok, err)) := Get ctx e key opts now in (e, (ok, err)).

(** src: cache/engine/memory.go Touch *)
Definition Touch (ctx : Context') (e : MemoryEngine) (key : Key) (opts : TouchOptions) (now : Time)
    : MemoryEngine * (bool * option engineError) :=
  match validateKey key with
  | Some err => (e, (false, Some err))
  | None =>
      match execute ctx e (touchCommand key opts now) with
      | (e, Err err) => (e, (false, Some err))
      | (e, Ok r) => (e, (res_touched r, res_err r))
      end
  end.

(** src: cache/engine/memory.go Adjust *)
Definition Adjust (ctx : Context') (e : MemoryEngine) (key : Key) (opts : AdjustOptions) (now : Time)
    : MemoryEngine * (CacheRecord * bool * option engineError) :=
  match validateKey key with
  | Some err => (e, (zeroRecord, false, Some err))
  | None => recordReply (execute ctx e (adjustCommand commandAdjust key opts now))
  end.

(** src: cache/engine/adjust_estimate.go EstimateAdjust *)
Definition EstimateAdjust (ctx : Context') (e : MemoryEngine) (key : Key) (opts : AdjustOptions) (now : Time)
    : MemoryEngine * (WriteEstimate * option engineError) :=
  match validateKey key with
  | Some err => (e, (zeroEstimate, Some err))
  | None =>
      match execute ctx e (adjustCommand commandAdjustEstimate key opts now) with
      | (e, Err err) => (e, (zeroEstimate, Some err))
      | (e, Ok r) => (e, (res_estimate r, res_err r))
      end
  end.

(** src: cache/engine/memory.go Primitive *)
Definition Primitive (ctx : Context') (e : MemoryEngine) (request : PrimitiveRequest) (now : Time)
    : MemoryEngine * (PrimitiveResult * option engineError) :=
  match validatePrimitiveRequest request with
  | Some err => (e, (zeroPrimitiveResult, Some err))
  | None =>
      match execute ctx e (primitiveCommand commandPrimitive request now) with
      | (e, Err err) => (e, (zeroPrimitiveResult, Some err))
      | (e, Ok r) => (e, (res_primitive r, res_err r))
      end
  end.

(** src: cache/engine/primitive_estimate.go EstimatePrimitive *)
Definition EstimatePrimitive (ctx : Context') (e : MemoryEngine) (request : PrimitiveRequest) (now : Time)
    : MemoryEngine * (WriteEstimate * option engineError) :=
  match validatePrimitiveRequest request with
  | Some err => (e, (zeroEstimate, Some err))
  | None =>
      match execute ctx e (primitiveCommand commandPrimitiveEstimate request now) with
      | (e, Err err) => (e, (zeroEstimate, Some err))
      | (e, Ok r) => (e, (res_estimate r, res_err r))
      end
  end.

(** ** stats.go *)

(** src: cache/engine/stats.go addShardStats *)
Definition addShardStats (stats : Stats) (shard : ShardStats) : Stats :=
  mkStats (st_objects stats +% ss_objects shard) (st_memoryBytes stats +% ss_memoryBytes shard)
    (st_evictions stats +% ss_evictions shard) (st_getRequests stats +% ss_getRequests shard)
    (st_getHits stats +% ss_getHits shard) (st_getMisses stats +% ss_getMisses shard)
    (st_getExpired stats +% ss_getExpired shard) (st_touchRequests stats +% ss_touchRequests shard)
    (st_touchHits stats +% ss_touchHits shard) (st_touchMisses stats +% ss_touchMisses shard)
    (st_shards stats) (st_spaces stats).

(** src: cache/engine/stats.go addSpaceStats *)
Definition addSpaceStats (total shard : gmap spaceKey spaceUsage) : gmap spaceKey spaceUsage :=
  foldl (fun total item =>
    let next := default zeroUsage (total !! item.1) in
    let next := mkSpaceUsage (su_objects next +% su_objects item.2)
                             (su_memoryBytes next +% su_memoryBytes item.2) in
    <[item.1 := next]> total) total (range_order shard).

Definition space_le (a b : SpaceStats) : Prop :=
  (if bool_decide (sps_namespace a = sps_namespace b) then String.leb (sps_space a) (sps_space b)
   else String.leb (sps_namespace a) (sps_namespace b)) = true.

#[global] Instance space_le_dec a b : Decision (space_le a b).
Proof. unfold space_le. apply _. Defined.

(** src: cache/engine/stats.go buildSpaceStats *)
Definition buildSpaceStats (spaces : gmap spaceKey spaceUsage) : list SpaceStats :=
  merge_sort space_le
    ((fun item => mkSpaceStats (sk_namespace item.1) (sk_space item.1) (su_objects item.2)
                    (su_memoryBytes item.2)) <$> range_order spaces).

(** [stats.Shards[i] = s]; the slice is built in order. *)
Definition appendShard (s : ShardStats) (stats : Stats) : Stats :=
  mkStats (st_objects stats) (st_memoryBytes stats) (st_evictions stats) (st_getRequests stats)
    (st_getHits stats) (st_getMisses stats) (st_getExpired stats) (st_touchRequests stats)
    (st_touchHits stats) (st_touchMisses stats) (st_shards stats ++ [s]) (st_spaces stats).

Definition withSpaces (l : list SpaceStats) (stats : Stats) : Stats :=
  mkStats (st_objects stats) (st_memoryBytes stats) (st_evictions stats) (st_getRequests stats)
    (st_getHits stats) (st_getMisses stats) (st_getExpired stats) (st_touchRequests stats)
    (st_touchHits stats) (st_touchMisses stats) (st_shards stats) l.

(** src: cache/engine/memory.go Stats *)
Definition EngineStats (ctx : Context') (e : MemoryEngine) : MemoryEngine * result engineError Stats :=
  let '(e, (acc, err)) :=
    eachShard (fun e index acc =>
      onReply (executeOn ctx e index (zeroCommand commandStats)) acc (fun r =>
        (appendShard (res_stats r) (addShardStats acc.1 (res_stats r)),
         addSpaceStats acc.2 (res_spaces r)))) e (zeroStats, ∅) in
  match err with
  | Some err => (e, Err err)
  | None => (e, Ok (withSpaces (buildSpaceStats acc.2) acc.1))
  end.

(** ** Sweep and eviction *)

Definition sweepCommand (now : Time) : shardCommand :=
  mkCommand commandSweep "" zeroKey [] (mkSetOptions 0 0 0 0) (mkGetOptions 0 0) (mkTouchOptions 0 0 0 0)
    (mkAdjustOptions 0 0 0 0 0 0) zeroPrimitiveRequest (mkDeleteOptions 0)
    (c_evict (zeroCommand commandSweep)) (c_rangeOpts (zeroCommand commandSweep)) [] now.

Definition evictCommand (opts : EvictOptions) (now : Time) : shardCommand :=
  mkCommand commandEvict "" zeroKey [] (mkSetOptions 0 0 0 0) (mkGetOptions 0 0) (mkTouchOptions 0 0 0 0)
    (mkAdjustOptions 0 0 0 0 0 0) zeroPrimitiveRequest (mkDeleteOptions 0)
    opts (c_rangeOpts (zeroCommand commandEvict)) [] now.

(** src: cache/engine/memory.go SweepExpired *)
Definition SweepExpired (ctx : Context') (e : MemoryEngine) (now : Time)
    : MemoryEngine * (Z * option engineError) :=
  eachShard (fun e index deleted =>
    onReply (executeOn ctx e index (sweepCommand now)) deleted (fun r => deleted +% res_swept r)) e 0.

Definition withTarget (target : Z) (opts : EvictOptions) : EvictOptions :=
  mkEvictOptions (eo_namespace opts) (eo_space opts) target (eo_exclude opts) (eo_excludeActive opts)
    (eo_now opts).

Definition withNow (now : Time) (opts : EvictOptions) : EvictOptions :=
  mkEvictOptions (eo_namespace opts) (eo_space opts) (eo_targetBytes opts) (eo_exclude opts)
    (eo_excludeActive opts) now.

(** src: cache/engine/memory.go evictFromShards *)
Definition evictFromShards (ctx : Context') (e : MemoryEngine) (opts : EvictOptions)
    : MemoryEngine * (EvictResult * option engineError) :=
  eachShard (fun e index total =>
    if eo_targetBytes opts <=? er_freedBytes total then (e, Return total None)
    else
      let shardOpts := withTarget (eo_targetBytes opts -% er_freedBytes total) opts in
      onReply (executeOn ctx e index (evictCommand shardOpts (eo_now opts))) total (fun r =>
        mkEvictResult (er_requestedBytes total)
          (er_freedBytes total +% er_freedBytes (res_evicted r))
          (er_evictedObjects total +% er_evictedObjects (res_evicted r))))
    e (mkEvictResult (eo_targetBytes opts) 0 0).

(** src: cache/engine/memory.go Evict *)
Definition Evict (ctx : Context') (e : MemoryEngine) (opts : EvictOptions) (now : Time)
    : MemoryEngine * (EvictResult * option engineError) :=
  if eo_targetBytes opts =? 0 then (e, (mkEvictResult 0 0 0, None))
  else if bool_decide (eo_namespace opts = "") || bool_decide (eo_space opts = "")
  then (e, (mkEvictResult 0 0 0, Some ErrInvalidKey))
  else
    let opts := if IsZero (eo_now opts) then withNow now opts else opts in
    evictFromShards ctx e opts.

(** ** Snapshots and migration *)

Definition snapshotCommand (kind : commandKind) (entries : list SnapshotEntry) : shardCommand :=
  mkCommand kind "" zeroKey [] (mkSetOptions 0 0 0 0) (mkGetOptions 0 0) (mkTouchOptions 0 0 0 0)
    (mkAdjustOptions 0 0 0 0 0 0) zeroPrimitiveRequest (mkDeleteOptions 0)
    (c_evict (zeroCommand kind)) (c_rangeOpts (zeroCommand kind)) entries zeroTime.

Definition rangeCommand (kind : commandKind) (opts : RangeOptions) : shardCommand :=
  mkCommand kind "" zeroKey [] (mkSetOptions 0 0 0 0) (mkGetOptions 0 0) (mkTouchOptions 0 0 0 0)
    (mkAdjustOptions 0 0 0 0 0 0) zeroPrimitiveRequest (mkDeleteOptions 0)
    (c_evict (zeroCommand kind)) opts [] zeroTime.

Definition snap_le (a b : SnapshotEntry) : Prop :=
  String.leb (physicalKey (se_key a)) (physicalKey (se_key b)) = true.

#[global] Instance snap_le_dec a b : Decision (snap_le a b).
Proof. unfold snap_le. apply _. Defined.

(** src: cache/engine/migration.go sortSnapshotEntries *)
Definition sortSnapshotEntries (entries : list SnapshotEntry) : list SnapshotEntry :=
  merge_sort snap_le entries.

(** The entries [snapshotEntriesByShard] maps to the worker at an index.
    src: cache/engine/snapshot.go snapshotEntriesByShard *)
Definition snapshotEntriesByShard (e : MemoryEngine) (entries : list SnapshotEntry) (index : nat)
    : list SnapshotEntry :=
  filter (fun x => shardFor e (physicalKey (se_key x)) = index) entries.

(** src: cache/engine/snapshot.go Snapshot *)
Definition Snapshot (ctx : Context') (e : MemoryEngine)
    : MemoryEngine * result engineError (list SnapshotEntry) :=
  let '(e, (entries, err)) :=
    eachShard (fun e index entries =>
      onReply (executeOn ctx e index (zeroCommand commandSnapshot)) entries
        (fun r => entries ++ res_snapshot r)) e [] in
  match err with
  | Some err => (e, Err err)
  | None => (e, Ok (sortSnapshotEntries entries))
  end.

(** src: cache/engine/snapshot.go Restore *)
Definition Restore (ctx : Context') (e : MemoryEngine) (snapshot : list SnapshotEntry)
    : MemoryEngine * option engineError :=
  let entriesByShard := snapshotEntriesByShard e snapshot in
  let '(e, (_, err)) :=
    eachShard (fun e index (_ : unit) =>
      onReply (executeOn ctx e index (snapshotCommand commandRestore (entriesByShard index))) tt
        (fun _ => tt)) e tt in
  (e, err).

(** src: cache/engine/migration.go validateRangeOptions *)
Definition validateRangeOptions (opts : RangeOptions) : option engineError :=
  if bool_decide (ro_namespace opts = "") || bool_decide (ro_space opts = "")
     || (ro_vslotEnd opts <? ro_vslotStart opts)
  then Some ErrInvalidKey else None.

Definition withRangeNow (now : Time) (opts : RangeOptions) : RangeOptions :=
  mkRangeOptions (ro_namespace opts) (ro_space opts) (ro_vslotStart opts) (ro_vslotEnd opts) now.

(** src: cache/engine/migration.go Export *)
Definition Export' (ctx : Context') (e : MemoryEngine) (opts : RangeOptions) (now : Time)
    : MemoryEngine * result engineError (list SnapshotEntry) :=
  match validateRangeOptions opts with
  | Some err => (e, Err err)
  | None =>
      let opts := if IsZero (ro_now opts) then withRangeNow now opts else opts in
      let '(e, (entries, err)) :=
        eachShard (fun e index entries =>
          onReply (executeOn ctx e index (rangeCommand commandExport opts)) entries
            (fun r => entries ++ res_snapshot r)) e [] in
      match err with
      | Some err => (e, Err err)
      | None => (e, Ok (sortSnapshotEntries entries))
      end
  end.

(** src: cache/engine/migration.go Import *)
Definition Import' (ctx : Context') (e : MemoryEngine) (snapshot : list SnapshotEntry)
    : MemoryEngine * (ImportResult * option engineError) :=
  let entriesByShard := snapshotEntriesByShard e snapshot in
  eachShard (fun e index total =>
    onReply (executeOn ctx e index (snapshotCommand commandImport (entriesByShard index))) total
      (fun r => mkImportResult (ir_imported total +% res_imported r))) e (mkImportResult 0).

(** src: cache/engine/migration.go DeleteRange *)
Definition DeleteRange (ctx : Context') (e : MemoryEngine) (opts : RangeOptions)
    : MemoryEngine * (DeleteRangeResult * option engineError) :=
  match validateRangeOptions opts with
  | Some err => (e, (mkDeleteRangeResult 0, Some err))
  | None =>
      eachShard (fun e index total =>
        onReply (executeOn ctx e index (rangeCommand commandDeleteRange opts)) total
          (fun r => mkDeleteRangeResult (dr_deleted total +% res_deletedRange r)))
        e (mkDeleteRangeResult 0)
  end.
End Engine.
