(* ===== verification/EngineSpec.v ===== *)
(** * What the sharded engine does

    The engine is one key-value store, whatever its number of shards: each key
    lives in the shard its physical key hashes to; statistics, eviction, expiry,
    snapshots and range migration over all shards add up. *)

From S2P Require Import Prelude.
From S2P Require Import Binary.
From S2P Require Import GoStrings.
From S2P Require Import Routing.
From S2P Require Import EngineTypes.
From S2P Require Import Shard.
From S2P Require Import ShardInv.
From S2P Require Import ShardOps.
From S2P Require Import Primitives.
From S2P Require Import Worker.
From S2P Require Import KvSpec.
From S2P Require Import MemoryEngine.

Local Open Scope Z_scope.
Local Open Scope nespa_scope.

(** ** Invariant and abstraction *)

(** There is a shard, every shard keeps its accounting, and every entry is in
    the shard its physical key hashes to. *)
Record engine_inv (e : MemoryEngine) : Prop := {
  ei_shards : me_shards e <> [];
  ei_shard : forall i s, me_shards e !! i = Some s -> shard_inv s;
  ei_placed : forall i s p ent, me_shards e !! i = Some s -> sw_entries s !! p = Some ent ->
    shardFor e p = i
}.

(** The entry and the item stored under a key. *)
Definition engine_entry (e : MemoryEngine) (p : string) : option entry :=
  match me_shards e !! shardFor e p with
  | Some s => sw_entries s !! p
  | None => None
  end.

Definition engine_store (e : MemoryEngine) (k : Key) : option item :=
  item_of <$> engine_entry e (physicalKey k).

Lemma shardIndex_lt n p : 0 < n -> (shardIndex n p < Z.to_nat n)%nat.
Proof.
  intros Hn. unfold shardIndex. pose proof (Z.mod_pos_bound (fnv_write fnv_offset64 (str_bytes p)) n Hn). lia.
Qed.

Lemma shardFor_lookup e p : me_shards e <> [] -> exists s, me_shards e !! shardFor e p = Some s.
Proof.
  intros Hne. apply lookup_lt_is_Some. unfold shardFor.
  assert (0 < zlen (me_shards e)) by (destruct (me_shards e); [done|rewrite zlen_cons; pose proof (zlen_nonneg l); lia]).
  pose proof (shardIndex_lt (zlen (me_shards e)) p). unfold zlen in *. lia.
Qed.

Lemma shardFor_length e e' p : length (me_shards e) = length (me_shards e') -> shardFor e p = shardFor e' p.
Proof. intros E. unfold shardFor, zlen. by rewrite E. Qed.

Lemma engine_entry_shard e i s p : engine_inv e -> me_shards e !! i = Some s ->
  shardFor e p = i -> engine_entry e p = sw_entries s !! p.
Proof. intros _ Hs <-. unfold engine_entry. by rewrite Hs. Qed.

Section EngineOps.
  Context `{!Codecs, !GoMath, !RangeOrder}.

Lemma executeOn_open e i s cmd : me_closed e = false -> me_shards e !! i = Some s ->
  executeOn LiveContext e i cmd
  = (mkEngine false (<[i := (apply 0 s cmd).1]> (me_shards e)), Ok (apply 0 s cmd).2).
Proof.
  intros Hc Hs. unfold executeOn. rewrite Hc, Hs. by destruct (apply 0 s cmd).
Qed.

(** A command on one key changes entries of its own key only, at most. *)
Definition keyed (cmd : shardCommand) : Prop :=
  forall s q, q <> c_physical cmd -> sw_entries (apply 0 s cmd).1 !! q = sw_entries s !! q.

Lemma execute_inv e cmd : engine_inv e -> keyed cmd ->
  (forall s, me_shards e !! shardFor e (c_physical cmd) = Some s -> cmd_admissible s cmd) ->
  engine_inv (execute LiveContext e cmd).1.
Proof.
  intros [Hne Hinv Hpl] Hkey Hadm. unfold execute.
  destruct (shardFor_lookup e (c_physical cmd) Hne) as [s Hs].
  unfold executeOn. destruct (me_closed e); [by constructor|]. rewrite Hs.
  pose proof (apply_inv 0 s cmd (Hinv _ _ Hs) (Hadm s Hs)) as Hi. specialize (Hkey s).
  destruct (apply 0 s cmd) as [t r]. cbn [fst] in *.
  constructor; cbn [me_shards].
  - intros E. apply (f_equal length) in E. rewrite length_insert in E. by destruct (me_shards e).
  - intros i u [(<- & <- & _)|[_ Hu]]%list_lookup_insert_Some; [done|by apply (Hinv i)].
  - intros i u p ent Hu Hent. erewrite shardFor_length by apply length_insert.
    apply list_lookup_insert_Some in Hu as [(<- & <- & _)|[_ Hu]]; [|by apply (Hpl i u p ent)].
    destruct (decide (p = c_physical cmd)) as [->|Hp]; [done|].
    apply (Hpl _ s p ent Hs). by rewrite <- Hkey.
Qed.

Lemma execute_entry e cmd s p : me_closed e = false ->
  me_shards e !! shardFor e (c_physical cmd) = Some s ->
  engine_entry (execute LiveContext e cmd).1 p
  = if decide (shardFor e p = shardFor e (c_physical cmd))
    then sw_entries (apply 0 s cmd).1 !! p else engine_entry e p.
Proof.
  intros Hc Hs. unfold execute. rewrite (executeOn_open e _ s cmd Hc Hs). cbn [fst].
  unfold engine_entry. erewrite (shardFor_length _ e p) by apply length_insert. cbn [me_shards].
  case_decide as E.
  - rewrite E, list_lookup_insert_eq by (by eapply lookup_lt_Some). done.
  - by rewrite list_lookup_insert_ne.
Qed.

(** C1: the engine implements one abstract key-value store whatever its number of
    shards: a set, get, delete, touch or adjust command is answered by the
    store's operation on the key's item, which becomes the store's next item, and
    no other key changes. *)
Theorem engine_refines_store (e : MemoryEngine) (cmd : shardCommand) (key : Key) (op : kv_op) :
  engine_inv e -> me_closed e = false -> c_physical cmd = physicalKey key -> key_typed key ->
  op_of cmd = Some op -> op_typed op ->
  exists e' r, execute LiveContext e cmd = (e', Ok r) /\
  answer_of r = (kv_step (c_now cmd) op (engine_store e key)).2 /\
  engine_store e' key = (kv_step (c_now cmd) op (engine_store e key)).1 /\
  forall k, key_typed k -> k <> key -> engine_store e' k = engine_store e k.
Proof.
  intros Hi Hc Hp Hk Hop Ht. destruct (shardFor_lookup e (c_physical cmd) (ei_shards e Hi)) as [s Hs].
  pose proof (apply_refines_at 0 s cmd op Hop Ht) as (Hr1 & Hr2 & Hr3).
  pose proof (fun p => execute_entry e cmd s p Hc Hs) as He.
  assert (execute LiveContext e cmd = ((execute LiveContext e cmd).1, Ok (apply 0 s cmd).2)) as Ex
    by (unfold execute; by rewrite (executeOn_open e _ s cmd Hc Hs)).
  eexists _, _. split; [exact Ex|].
  assert (engine_store e key = current s cmd) as Hcur.
  { unfold engine_store, engine_entry, current. rewrite <- Hp. by rewrite Hs. }
  rewrite Hcur. split_and!.
  - exact Hr2.
  - unfold engine_store. rewrite <- Hp, He, decide_True by done. exact Hr1.
  - intros k Hkt Hne. unfold engine_store. f_equal. rewrite He. case_decide as E; [|done].
    assert (physicalKey k <> c_physical cmd) as Hpk.
    { rewrite Hp. intros E'. by apply Hne, physicalKey_inj. }
    rewrite Hr3 by done. unfold engine_entry. rewrite E. by rewrite Hs.
Qed.

(** ** Calls that visit every shard *)

Definition visited (cmds : nat -> shardCommand) (l : list shardWorker) : list shardWorker :=
  imap (fun i s => (apply 0 s (cmds i)).1) l.

Definition replies (cmds : nat -> shardCommand) (l : list shardWorker) : list shardResult :=
  imap (fun i s => (apply 0 s (cmds i)).2) l.

Lemma visited_cons cmds cmds' s l : (forall i, cmds' i = cmds (S i)) ->
  visited cmds (s :: l) = (apply 0 s (cmds 0%nat)).1 :: visited cmds' l /\
  replies cmds (s :: l) = (apply 0 s (cmds 0%nat)).2 :: replies cmds' l.
Proof.
  intros E. unfold visited, replies. cbn [imap].
  split; f_equal; apply imap_ext; intros i x _; cbn; by rewrite E.
Qed.

Lemma forWorkers_visits {A} (failed : A -> A) (k : A -> shardResult -> A) cmds todo before acc :
  (forall i s, todo !! i = Some s -> res_err (apply 0 s (cmds (length before + i)%nat)).2 = None) ->
  forWorkers (seq (length before) (length todo))
    (fun e index acc => onReply (executeOn LiveContext e index (cmds index)) (failed acc) (k acc))
    (mkEngine false (before ++ todo)) acc
  = (mkEngine false (before ++ visited (fun i => cmds (length before + i)%nat) todo),
     (foldl k acc (replies (fun i => cmds (length before + i)%nat) todo), None)).
Proof.
  revert before acc. induction todo as [|s todo IH]; intros before acc Hok; [done|].
  cbn [length seq forWorkers].
  rewrite (executeOn_open _ _ s) by (done || cbn; by rewrite lookup_app_r, Nat.sub_diag by lia).
  pose proof (Hok 0%nat s eq_refl) as Hs. rewrite Nat.add_0_r in Hs.
  cbn [onReply me_shards]. rewrite Hs, insert_app_r_alt, Nat.sub_diag by lia. cbn [insert list_insert].
  pose proof (IH (before ++ [(apply 0 s (cmds (length before))).1])
                (k acc (apply 0 s (cmds (length before))).2)) as IH'.
  rewrite length_app, <- !app_assoc in IH'. cbn [length app] in IH'. rewrite Nat.add_1_r in IH'.
  rewrite IH'.
  - destruct (visited_cons (fun i => cmds (length before + i)%nat)
                (fun i => cmds (S (length before) + i)%nat) s todo) as [-> ->].
    { intros i. f_equal. lia. }
    cbn [foldl]. by rewrite Nat.add_0_r.
  - intros i x Hx. specialize (Hok (S i) x Hx). by rewrite Nat.add_succ_r in Hok.
Qed.

Lemma eachShard_visits {A} (failed : A -> A) (k : A -> shardResult -> A) cmds e acc :
  me_closed e = false ->
  (forall i s, me_shards e !! i = Some s -> res_err (apply 0 s (cmds i)).2 = None) ->
  eachShard (fun e index acc => onReply (executeOn LiveContext e index (cmds index)) (failed acc) (k acc)) e acc
  = (mkEngine false (visited cmds (me_shards e)), (foldl k acc (replies cmds (me_shards e)), None)).
Proof.
  intros Hc Hok. destruct e as [c l]. cbn in Hc. subst c.
  exact (forWorkers_visits failed k cmds l [] acc Hok).
Qed.

Lemma visited_lookup cmds l i : visited cmds l !! i = (fun s => (apply 0 s (cmds i)).1) <$> l !! i.
Proof. apply list_lookup_imap. Qed.

Lemma length_visited cmds l : length (visited cmds l) = length l.
Proof. apply length_imap. Qed.

(** The engine after a visit is well formed when every shard's command is
    admissible and brings no entry that belongs to another shard. *)
Lemma visited_inv cmds e : engine_inv e ->
  (forall i s, me_shards e !! i = Some s -> cmd_admissible s (cmds i)) ->
  (forall i s p ent, me_shards e !! i = Some s -> sw_entries (apply 0 s (cmds i)).1 !! p = Some ent ->
     shardFor e p = i) ->
  engine_inv (mkEngine false (visited cmds (me_shards e))).
Proof.
  intros [Hne Hinv _] Hadm Hpl. constructor; cbn [me_shards].
  - intros E. apply (f_equal length) in E. rewrite length_visited in E. by destruct (me_shards e).
  - intros i s. rewrite visited_lookup. intros (t & Ht & ->)%fmap_Some.
    apply apply_inv; [by apply (Hinv i)|by apply Hadm].
  - intros i s p ent. rewrite visited_lookup. intros (t & Ht & ->)%fmap_Some Hent.
    erewrite shardFor_length by apply length_visited. by apply (Hpl i t p ent).
Qed.

Lemma visited_entry cmds e p s : me_shards e !! shardFor e p = Some s ->
  engine_entry (mkEngine false (visited cmds (me_shards e))) p
  = sw_entries (apply 0 s (cmds (shardFor e p))).1 !! p.
Proof.
  intros Hs. unfold engine_entry. erewrite (shardFor_length _ e p) by apply length_visited.
  cbn [me_shards]. by rewrite visited_lookup, Hs.
Qed.

(** ** Snapshots of all shards *)

(** The snapshot entries of the entries of a shard that satisfy a test. *)
Definition selected (P : entry -> bool) (s : shardWorker) : list SnapshotEntry :=
  (fun item => snapshotEntryFromEntry item.2) <$>
  filter (fun item => P item.2 = true) (range_order (sw_entries s)).

Definition collected (P : entry -> bool) (l : list shardWorker) : list SnapshotEntry :=
  mjoin (selected P <$> l).

Lemma snapshotEntries_selected s : snapshotEntries s = selected (fun _ => true) s.
Proof.
  unfold snapshotEntries, selected. f_equal. induction (range_order (sw_entries s)) as [|x l IH]; [done|].
  rewrite filter_cons_True by done. by f_equal.
Qed.

Lemma exportEntries_selected opts s : exportEntries opts s = selected (moved opts) s.
Proof.
  unfold exportEntries, selected. f_equal. apply list_filter_iff. intros [p ent]. unfold moved. cbn.
  by destruct (expired _ _), (entryInRange _ _).
Qed.

Lemma elem_of_selected P s x : shard_inv s -> x ∈ selected P s <->
  exists ent, sw_entries s !! physicalKey (se_key x) = Some ent /\ x = snapshotEntryFromEntry ent /\ P ent = true.
Proof.
  intros Hi. unfold selected. rewrite list_elem_of_fmap. split.
  - intros ([p ent] & -> & [HP He]%list_elem_of_filter). apply elem_of_range in He. cbn [snd] in *.
    exists ent. destruct (inv_entries s Hi p ent He) as (-> & _). done.
  - intros (ent & He & -> & HP). exists (physicalKey (e_key ent), ent). split; [done|].
    apply list_elem_of_filter. by rewrite elem_of_range.
Qed.

Lemma elem_of_collected P e x : engine_inv e -> x ∈ collected P (me_shards e) <->
  exists ent, engine_entry e (physicalKey (se_key x)) = Some ent /\ x = snapshotEntryFromEntry ent /\ P ent = true.
Proof.
  intros Hi. unfold collected. rewrite list_elem_of_join. split.
  - intros (l & Hx & Hl). apply list_elem_of_fmap in Hl as (s & -> & Hs).
    apply list_elem_of_lookup_1 in Hs as [i Hs].
    apply elem_of_selected in Hx as (ent & He & -> & HP); [|by apply (ei_shard e Hi i)].
    exists ent. split_and!; [|done|done].
    rewrite (engine_entry_shard e i s); [done|done|done|]. by apply (ei_placed e Hi i s _ ent).
  - intros (ent & He & -> & HP). unfold engine_entry in He.
    destruct (me_shards e !! _) as [s|] eqn:Hs; [|done].
    exists (selected P s). split.
    + apply elem_of_selected; [by apply (ei_shard e Hi _ s Hs)|]. by exists ent.
    + apply list_elem_of_fmap_2. by eapply list_elem_of_lookup_2.
Qed.

Lemma selected_keys_placed P e i s p : engine_inv e -> me_shards e !! i = Some s ->
  p ∈ snap_keys (selected P s) -> shardFor e p = i.
Proof.
  intros Hi Hs (x & -> & Hx)%list_elem_of_fmap.
  apply elem_of_selected in Hx as (ent & He & _ & _); [|by apply (ei_shard e Hi i)].
  by apply (ei_placed e Hi i s _ ent).
Qed.

Lemma selected_NoDup P s : shard_inv s -> NoDup (snap_keys (selected P s)).
Proof.
  intros Hi. unfold selected. rewrite snap_keys_range by done. apply (bindings_of_range s).
Qed.

Lemma collected_NoDup P e : engine_inv e -> NoDup (snap_keys (collected P (me_shards e))).
Proof.
  intros Hi. unfold collected.
  assert (forall before l, me_shards e = before ++ l ->
    NoDup (snap_keys (mjoin (selected P <$> l))) /\
    forall p, p ∈ snap_keys (mjoin (selected P <$> l)) -> (length before <= shardFor e p)%nat) as Hgo.
  2: by apply (Hgo []).
  intros before l. revert before. induction l as [|s l IH]; intros before E.
  { split; [constructor|]. intros p Hp. by apply elem_of_nil in Hp. }
  destruct (IH (before ++ [s])) as [Hn Hp]; [by rewrite <- app_assoc|]. rewrite length_app in Hp. cbn in Hp.
  assert (me_shards e !! length before = Some s) as Hs by (by rewrite E, lookup_app_r, Nat.sub_diag).
  unfold snap_keys in *. cbn [fmap list_fmap mjoin list_join]. rewrite fmap_app. split.
  - apply NoDup_app. split_and!; [by apply selected_NoDup, (ei_shard e Hi _ s Hs)| |exact Hn].
    intros p Hp1 Hp2. apply (selected_keys_placed P e _ s p Hi Hs) in Hp1.
    specialize (Hp p Hp2). lia.
  - intros p [Hp1|Hp2]%elem_of_app.
    + apply (selected_keys_placed P e _ s p Hi Hs) in Hp1. lia.
    + specialize (Hp p Hp2). lia.
Qed.

Lemma collected_ok P e : engine_inv e -> Forall snap_ok (collected P (me_shards e)).
Proof.
  intros Hi. apply Forall_forall. intros x (ent & He & -> & _)%elem_of_collected; [|done].
  unfold engine_entry in He. destruct (me_shards e !! _) as [s|] eqn:Hs; [|done].
  by destruct (inv_entries s (ei_shard e Hi _ s Hs) _ ent He) as (_ & ? & _).
Qed.

Lemma sortSnapshotEntries_perm l : sortSnapshotEntries l ≡ₚ l.
Proof. apply merge_sort_Permutation. Qed.

(** A command that answers a list and changes nothing. *)
Lemma visited_same (cmds : nat -> shardCommand) l :
  (forall i s, l !! i = Some s -> (apply 0 s (cmds i)).1 = s) -> visited cmds l = l.
Proof.
  intros Hs. apply list_eq. intros i. rewrite visited_lookup.
  destruct (l !! i) as [s|] eqn:E; [|done]. cbn. by rewrite (Hs i s E).
Qed.

Lemma replies_collected P cmds l acc :
  (forall i s, l !! i = Some s -> res_snapshot (apply 0 s (cmds i)).2 = selected P s) ->
  foldl (fun entries r => entries ++ res_snapshot r) acc (replies cmds l) = acc ++ collected P l.
Proof.
  revert cmds acc. induction l as [|s l IH]; intros cmds acc Hs; [by rewrite app_nil_r|].
  destruct (visited_cons cmds (fun i => cmds (S i)) s l (fun _ => eq_refl)) as [_ ->]. cbn [foldl].
  rewrite (Hs 0%nat s eq_refl), IH by (intros i x Hx; by apply (Hs (S i))).
  unfold collected. cbn. by rewrite app_assoc.
Qed.

Lemma Snapshot_collected e : me_closed e = false ->
  Snapshot LiveContext e = (e, Ok (sortSnapshotEntries (collected (fun _ => true) (me_shards e)))).
Proof.
  intros Hc. unfold Snapshot.
  rewrite (eachShard_visits (fun acc => acc) (fun entries r => entries ++ res_snapshot r)
             (fun _ => zeroCommand commandSnapshot)) by done.
  rewrite (replies_collected (fun _ => true)) by (intros i s _; apply snapshotEntries_selected).
  rewrite visited_same by done. by destruct e as [[] l].
Qed.

Lemma Export_collected e opts now : me_closed e = false -> validateRangeOptions opts = None ->
  Export' LiveContext e opts now
  = (e, Ok (sortSnapshotEntries (collected
        (moved (if IsZero (ro_now opts) then withRangeNow now opts else opts)) (me_shards e)))).
Proof.
  intros Hc Hv. unfold Export'. rewrite Hv.
  set (o := if IsZero (ro_now opts) then _ else _).
  rewrite (eachShard_visits (fun acc => acc) (fun entries r => entries ++ res_snapshot r)
             (fun _ => rangeCommand commandExport o)) by done.
  rewrite (replies_collected (moved o)) by (intros i s _; apply (exportEntries_selected o s)).
  rewrite visited_same by done. by destruct e as [[] l].
Qed.

(** ** Importing and restoring over all shards *)

Lemma snap_cost_filter (P : SnapshotEntry -> Prop) `{!forall x, Decision (P x)} l :
  snap_cost (filter P l) <= snap_cost l.
Proof.
  induction l as [|x l IH]; [done|]. pose proof (costOf_nonneg (se_key x) (se_value x)).
  change (snap_cost (x :: l)) with (costOf (se_key x) (se_value x) + snap_cost l).
  rewrite filter_cons. case_decide; [|lia].
  change (snap_cost (x :: filter P l)) with (costOf (se_key x) (se_value x) + snap_cost (filter P l)). lia.
Qed.

Lemma room_filter (P : SnapshotEntry -> Prop) `{!forall x, Decision (P x)} l m :
  room l m -> room (filter P l) m.
Proof.
  intros [Hr1 Hr2]. pose proof (snap_cost_filter P l). pose proof (length_filter P l). unfold room, zlen in *.
  split; lia.
Qed.

Lemma by_shard e l i : Forall snap_ok l -> NoDup (snap_keys l) ->
  Forall snap_ok (snapshotEntriesByShard e l i) /\ NoDup (snap_keys (snapshotEntriesByShard e l i)) /\
  (forall x, x ∈ l -> shardFor e (physicalKey (se_key x)) = i -> x ∈ snapshotEntriesByShard e l i) /\
  (forall p, p ∈ snap_keys (snapshotEntriesByShard e l i) -> shardFor e p = i /\ p ∈ snap_keys l).
Proof.
  intros Hok Hnd. unfold snapshotEntriesByShard. split_and!.
  - apply Forall_forall. intros x [_ Hx]%list_elem_of_filter. rewrite Forall_forall in Hok. by apply Hok.
  - by apply NoDup_fmap_filter.
  - intros x Hx Hp. by apply list_elem_of_filter.
  - intros p (x & -> & [Hp Hx]%list_elem_of_filter)%list_elem_of_fmap. split; [done|].
    by apply (list_elem_of_fmap_2 (physicalKey ∘ se_key)).
Qed.

(** What a visit does to every key, from what it does to each shard's keys. *)
Lemma visit_keys e l cmds (after : SnapshotEntry -> option entry -> option entry)
    (other : option entry -> option entry) :
  engine_inv e -> Forall snap_ok l -> NoDup (snap_keys l) ->
  (forall i s, me_shards e !! i = Some s -> cmd_admissible s (cmds i) /\
     let t := (apply 0 s (cmds i)).1 in
     (forall x, x ∈ snapshotEntriesByShard e l i ->
        sw_entries t !! physicalKey (se_key x) = after x (sw_entries s !! physicalKey (se_key x))) /\
     (forall p, p ∉ snap_keys (snapshotEntriesByShard e l i) -> sw_entries t !! p = other (sw_entries s !! p)) /\
     (forall ent, other None = Some ent -> False)) ->
  engine_inv (mkEngine false (visited cmds (me_shards e))) /\
  (forall x, x ∈ l -> engine_entry (mkEngine false (visited cmds (me_shards e))) (physicalKey (se_key x))
     = after x (engine_entry e (physicalKey (se_key x)))) /\
  (forall p, p ∉ snap_keys l -> engine_entry (mkEngine false (visited cmds (me_shards e))) p
     = other (engine_entry e p)).
Proof.
  intros Hi Hok Hnd Hsh. split_and!.
  - apply visited_inv; [done|intros i s Hs; by apply Hsh|].
    intros i s p ent Hs Hent. destruct (by_shard e l i Hok Hnd) as (_ & _ & _ & Hin).
    destruct (Hsh i s Hs) as (_ & _ & Hout & Hno).
    destruct (decide (p ∈ snap_keys (snapshotEntriesByShard e l i))) as [Hp|Hp]; [by apply Hin|].
    rewrite (Hout p Hp) in Hent. destruct (sw_entries s !! p) as [f|] eqn:Hf; [by apply (ei_placed e Hi i s p f)|].
    by apply Hno in Hent.
  - intros x Hx. set (p := physicalKey (se_key x)).
    destruct (shardFor_lookup e p (ei_shards e Hi)) as [s Hs].
    rewrite (visited_entry cmds e p s Hs). destruct (by_shard e l (shardFor e p) Hok Hnd) as (_ & _ & Hin & _).
    destruct (Hsh _ s Hs) as (_ & Hx' & _). unfold p. rewrite Hx' by (by apply Hin).
    unfold engine_entry. fold p. by rewrite Hs.
  - intros p Hp. destruct (shardFor_lookup e p (ei_shards e Hi)) as [s Hs].
    rewrite (visited_entry cmds e p s Hs). destruct (by_shard e l (shardFor e p) Hok Hnd) as (_ & _ & _ & Hin).
    destruct (Hsh _ s Hs) as (_ & _ & Hout & _). rewrite Hout by (intros Hp'; by apply Hin in Hp' as [_ ?]).
    unfold engine_entry. by rewrite Hs.
Qed.

Lemma snap_ok_typed l : Forall snap_ok l -> snap_typed l.
Proof. intros Hok. apply (Forall_impl _ _ _ Hok). by intros x [_ ?]. Qed.

Lemma Import_spec e l : engine_inv e -> me_closed e = false -> Forall snap_ok l -> NoDup (snap_keys l) ->
  (forall i s, me_shards e !! i = Some s -> room l (sw_entries s)) ->
  exists e' n, Import' LiveContext e l = (e', (n, None)) /\ engine_inv e' /\ me_closed e' = false /\
  (forall x, x ∈ l -> engine_entry e' (physicalKey (se_key x))
     = Some (merged (engine_entry e (physicalKey (se_key x))) (stored x))) /\
  (forall p, p ∉ snap_keys l -> engine_entry e' p = engine_entry e p).
Proof.
  intros Hi Hc Hok Hnd Hroom. unfold Import'.
  set (cmds := fun i => snapshotCommand commandImport (snapshotEntriesByShard e l i)).
  assert (forall i s, me_shards e !! i = Some s -> exists t k,
    importEntries (snapshotEntriesByShard e l i) s 0 = (t, k, None) /\
    (forall x, x ∈ snapshotEntriesByShard e l i -> sw_entries t !! physicalKey (se_key x)
       = Some (merged (sw_entries s !! physicalKey (se_key x)) (stored x))) /\
    (forall p, p ∉ snap_keys (snapshotEntriesByShard e l i) -> sw_entries t !! p = sw_entries s !! p)) as Hsh.
  { intros i s Hs. destruct (by_shard e l i Hok Hnd) as (Hok' & Hnd' & _).
    destruct (importEntries_spec _ s 0 (ei_shard e Hi i s Hs) Hok' Hnd'
                (room_filter _ _ _ (Hroom i s Hs))) as (t & k & ? & _ & ? & ?); eauto 10. }
  rewrite (eachShard_visits (fun acc => acc) (fun total r => mkImportResult (ir_imported total +% res_imported r))
             cmds) by (done || intros i s Hs; destruct (Hsh i s Hs) as (t & k & E & _); cbn; by rewrite E).
  eexists _, _. split; [reflexivity|].
  destruct (visit_keys e l cmds (fun x cur => Some (merged cur (stored x))) (fun cur => cur) Hi Hok Hnd)
    as (H1' & H2' & H3'); [|done].
  intros i s Hs. destruct (Hsh i s Hs) as (t & k & E & Hin & Hout). cbn. rewrite E. cbn.
  split; [|done]. split; [|by apply room_filter, (Hroom i)].
  apply snap_ok_typed, (by_shard e l i Hok Hnd).
Qed.

Lemma apply_restore s l t err : restoreEntries l s = (t, err) ->
  apply 0 s (snapshotCommand commandRestore l) = (t, resErr err).
Proof. intros E. unfold apply. cbn [c_kind c_snapshot snapshotCommand]. by rewrite E. Qed.

Lemma Restore_spec e l : engine_inv e -> me_closed e = false -> Forall snap_ok l -> NoDup (snap_keys l) ->
  room l ∅ ->
  exists e', Restore LiveContext e l = (e', None) /\ me_closed e' = false /\ engine_inv e' /\
  (forall x, x ∈ l -> engine_entry e' (physicalKey (se_key x)) = Some (stored x)) /\
  (forall p, p ∉ snap_keys l -> engine_entry e' p = None).
Proof.
  intros Hi Hc Hok Hnd Hroom. unfold Restore.
  set (cmds := fun i => snapshotCommand commandRestore (snapshotEntriesByShard e l i)).
  assert (forall i s, me_shards e !! i = Some s -> exists t,
    restoreEntries (snapshotEntriesByShard e l i) s = (t, None) /\
    (forall x, x ∈ snapshotEntriesByShard e l i -> sw_entries t !! physicalKey (se_key x) = Some (stored x)) /\
    (forall p, p ∉ snap_keys (snapshotEntriesByShard e l i) -> sw_entries t !! p = None)) as Hsh.
  { intros i s Hs. destruct (by_shard e l i Hok Hnd) as (Hok' & Hnd' & _).
    destruct (restoreLoop_spec _ _ (emptyShard_inv (sw_id s)) Hok' Hnd') as (t & ? & _ & ? & ?);
      [done|by apply room_filter|eauto 10]. }
  rewrite (eachShard_visits (fun _ => tt) (fun _ _ => tt) cmds)
    by (done || intros i s Hs; destruct (Hsh i s Hs) as (t & E & _); unfold cmds; by rewrite (apply_restore _ _ _ _ E)).
  eexists _. split; [reflexivity|].
  destruct (visit_keys e l cmds (fun x _ => Some (stored x)) (fun _ => None) Hi Hok Hnd)
    as (H1' & H2' & H3'); [|done].
  intros i s Hs. destruct (Hsh i s Hs) as (t & E & Hin & Hout).
  unfold cmds at 2. rewrite (apply_restore _ _ _ _ E). cbn zeta. cbn [fst].
  split; [|done]. destruct (by_shard e l i Hok Hnd) as (Hok' & Hnd' & _).
  split_and!; [by apply snap_ok_typed|done|by apply room_filter].
Qed.

(** ** Sizes *)

Definition engine_objects (e : MemoryEngine) : Z :=
  lsum (fun s => Z.of_nat (size (sw_entries s))) (me_shards e).

Definition engine_cost (e : MemoryEngine) : Z := lsum (fun s => total_cost (sw_entries s)) (me_shards e).

Lemma lsum_filter_le {A} (P : A -> Prop) `{!forall x, Decision (P x)} (f : A -> Z) l :
  (forall x, x ∈ l -> 0 <= f x) -> lsum f (filter P l) <= lsum f l.
Proof.
  induction l as [|x l IH]; intros Hf; [done|]. assert (0 <= f x) by (apply Hf; set_solver).
  assert (lsum f (filter P l) <= lsum f l) by (apply IH; set_solver).
  rewrite filter_cons. case_decide; cbn; unfold lsum in *; lia.
Qed.

Lemma selected_size P s : shard_inv s ->
  zlen (selected P s) <= Z.of_nat (size (sw_entries s)) /\ snap_cost (selected P s) <= total_cost (sw_entries s).
Proof.
  intros Hi. unfold selected, zlen. rewrite length_fmap. split.
  - rewrite <- length_range. pose proof (length_filter (fun item => P item.2 = true) (range_order (sw_entries s))). lia.
  - unfold snap_cost, total_cost. rewrite <- lsum_range.
    transitivity (lsum (fun kv => e_costBytes kv.2)
                    (filter (fun item => P item.2 = true) (range_order (sw_entries s)))).
    + apply Z.eq_le_incl.
      assert (forall p ent, (p, ent) ∈ filter (fun item => P item.2 = true) (range_order (sw_entries s)) ->
        costOf (e_key ent) (e_value ent) = e_costBytes ent) as Hc.
      { intros p ent [_ He]%list_elem_of_filter. apply elem_of_range in He.
        by destruct (inv_entries s Hi p ent He) as (_ & _ & ->). }
      induction (filter _ _) as [|[p ent] l IH]; [done|]. cbn. rewrite (Hc p ent) by set_solver.
      f_equal. apply IH. intros q f Hq. apply (Hc q). set_solver.
    + apply lsum_filter_le. intros [p ent] He%elem_of_range. exact (cost_nonneg _ p ent (inv_entries s Hi) He).
Qed.

Lemma collected_size P e : engine_inv e ->
  zlen (collected P (me_shards e)) <= engine_objects e /\ snap_cost (collected P (me_shards e)) <= engine_cost e.
Proof.
  intros Hi. assert (forall s, s ∈ me_shards e -> shard_inv s) as Hs.
  { intros s [i Hs]%list_elem_of_lookup_1. by apply (ei_shard e Hi i). }
  unfold engine_objects, engine_cost, collected. induction (me_shards e) as [|s l IH]; [done|].
  destruct (selected_size P s) as [H1' H2']; [apply Hs; set_solver|].
  destruct IH as [H3' H4']; [intros; apply Hs; set_solver|].
  change (mjoin (selected P <$> s :: l)) with (selected P s ++ mjoin (selected P <$> l)).
  rewrite zlen_app. unfold snap_cost in *. rewrite lsum_app, !lsum_cons.
  split; lia.
Qed.

Lemma room_perm l l' m : l ≡ₚ l' -> room l m -> room l' m.
Proof.
  intros Hp [Hr1 Hr2]. unfold room, snap_cost, zlen in *.
  rewrite <- (Permutation_length Hp). by rewrite <- (lsum_perm _ _ _ Hp).
Qed.

Lemma shard_sizes_le e i s : engine_inv e -> me_shards e !! i = Some s ->
  Z.of_nat (size (sw_entries s)) <= engine_objects e /\ total_cost (sw_entries s) <= engine_cost e.
Proof.
  intros Hi Hs. unfold engine_objects, engine_cost.
  assert (forall j t, me_shards e !! j = Some t -> 0 <= total_cost (sw_entries t)) as Hn
    by (intros j t Ht; apply total_cost_nonneg, (ei_shard e Hi j t Ht)).
  rewrite <- (take_drop_middle _ _ _ Hs). rewrite !lsum_app, !lsum_cons.
  assert (0 <= lsum (fun s => total_cost (sw_entries s)) (take i (me_shards e)) /\
          0 <= lsum (fun s => total_cost (sw_entries s)) (drop (S i) (me_shards e))) as [Hn1 Hn2].
  { split; apply lsum_nonneg; intros t [j Ht]%list_elem_of_lookup_1.
    - apply lookup_take_Some in Ht as [Ht _]. by apply (Hn j).
    - rewrite lookup_drop in Ht. by apply (Hn _ t Ht). }
  assert (0 <= lsum (fun s => Z.of_nat (size (sw_entries s))) (take i (me_shards e)) /\
          0 <= lsum (fun s => Z.of_nat (size (sw_entries s))) (drop (S i) (me_shards e))) as [Hn3 Hn4]
    by (split; apply lsum_nonneg; intros; lia).
  split; lia.
Qed.

(** No entry's version counter has wrapped to 0. *)
Definition engine_versions_set (e : MemoryEngine) : Prop :=
  forall p ent, engine_entry e p = Some ent -> e_version ent <> 0.

Lemma stored_collected e x ent : engine_inv e -> engine_versions_set e ->
  engine_entry e (physicalKey (se_key x)) = Some ent -> x = snapshotEntryFromEntry ent -> stored x = ent.
Proof.
  intros Hi Hv He ->. apply (snapshot_stored (physicalKey (e_key ent))); [|by apply (Hv _ ent He)].
  unfold engine_entry in He. destruct (me_shards e !! _) as [s|] eqn:Hs; [|done].
  exact (inv_entries s (ei_shard e Hi _ s Hs) _ ent He).
Qed.

Lemma collected_keys P e p : engine_inv e -> p ∈ snap_keys (collected P (me_shards e)) <->
  exists ent, engine_entry e p = Some ent /\ P ent = true.
Proof.
  intros Hi. unfold snap_keys. rewrite list_elem_of_fmap. split.
  - intros (x & -> & Hx). apply elem_of_collected in Hx as (ent & He & -> & HP); [|done]. eauto.
  - intros (ent & He & HP). exists (snapshotEntryFromEntry ent).
    assert (p = physicalKey (e_key ent)) as Ep.
    { unfold engine_entry in He. destruct (me_shards e !! _) as [s|] eqn:Hs; [|done].
      by destruct (inv_entries s (ei_shard e Hi _ s Hs) _ ent He) as (? & _). }
    split; [done|]. apply elem_of_collected; [done|]. cbn [se_key snapshotEntryFromEntry]. rewrite <- Ep. eauto.
Qed.

(** What a snapshot holds and what restoring it gives. *)
Lemma engine_snapshot_restores (e : MemoryEngine) : engine_inv e -> me_closed e = false -> engine_versions_set e ->
  engine_objects e < 2 ^ 64 -> engine_cost e < 2 ^ 64 ->
  exists snapshot, Snapshot LiveContext e = (e, Ok snapshot) /\
    Forall (fun x => exists ent, engine_entry e (physicalKey (se_key x)) = Some ent /\ x = snapshotEntryFromEntry ent) snapshot /\
    forall e2, engine_inv e2 -> me_closed e2 = false ->
    exists e3, Restore LiveContext e2 snapshot = (e3, None) /\ engine_inv e3 /\
      forall p, engine_entry e3 p = engine_entry e p.
Proof.
  intros Hi Hc Hv Ho Hm. rewrite (Snapshot_collected e Hc).
  set (snap := collected (fun _ => true) (me_shards e)).
  pose proof (sortSnapshotEntries_perm snap) as Hp.
  destruct (collected_size (fun _ => true) e Hi) as [Hz Hs]. fold snap in Hz, Hs.
  exists (sortSnapshotEntries snap). split; [done|]. split.
  { rewrite Hp. apply Forall_forall. intros x (ent & He & Ex & _)%elem_of_collected; [|done]. eauto. }
  intros e2 Hi2 Hc2. destruct (Restore_spec e2 (sortSnapshotEntries snap) Hi2 Hc2) as (e3 & Hr & _ & Hi3 & Hin & Hout).
  { rewrite Hp. by apply collected_ok. }
  { unfold snap_keys. rewrite Hp. by apply collected_NoDup. }
  { apply (room_perm snap); [done|]. unfold room. change (total_cost ∅) with 0. rewrite map_size_empty. lia. }
  exists e3. split_and!; [done|done|]. intros p.
  destruct (engine_entry e p) as [ent|] eqn:He.
  - assert (p ∈ snap_keys snap) as (x & -> & Hx)%list_elem_of_fmap by (apply collected_keys; eauto).
    unfold compose in *. rewrite Hin by (by rewrite Hp). apply elem_of_collected in Hx as (ent' & He' & Ex & _); [|done].
    rewrite (stored_collected e x ent' Hi Hv He' Ex). congruence.
  - apply Hout. unfold snap_keys. rewrite Hp. intros (ent & He' & _)%collected_keys; [congruence|done].
Qed.

(** A snapshot of an engine, restored into any other engine, even one with a
    different number of shards and other contents, gives that engine exactly the
    entries of the first one. *)
Theorem snapshot_restore_roundtrip (e e2 : MemoryEngine) :
  engine_inv e -> engine_inv e2 -> me_closed e = false -> me_closed e2 = false ->
  engine_versions_set e -> engine_objects e < 2 ^ 64 -> engine_cost e < 2 ^ 64 ->
  exists snapshot e3,
    Snapshot LiveContext e = (e, Ok snapshot) /\ Restore LiveContext e2 snapshot = (e3, None) /\
    engine_inv e3 /\ forall p, engine_entry e3 p = engine_entry e p.
Proof.
  intros Hi Hi2 Hc Hc2 Hv Ho Hm. destruct (engine_snapshot_restores e) as (snapshot & Hs & _ & Hr); [done..|].
  destruct (Hr e2 Hi2 Hc2) as (e3 & H3). by exists snapshot, e3.
Qed.

(** Exporting a slot range of one engine and importing the export into
    another gives the second engine every unexpired entry of the range, keeping
    its own entry only when that one is at least as new, and changes nothing
    else in either engine; the numbers of shards may differ. *)
Theorem export_import_migrates (e e2 : MemoryEngine) (opts : RangeOptions) (now : Time) :
  engine_inv e -> engine_inv e2 -> me_closed e = false -> me_closed e2 = false ->
  engine_versions_set e -> validateRangeOptions opts = None ->
  engine_objects e + engine_objects e2 < 2 ^ 64 -> engine_cost e + engine_cost e2 < 2 ^ 64 ->
  let opts' := if IsZero (ro_now opts) then withRangeNow now opts else opts in
  exists snapshot e3 n,
    Export' LiveContext e opts now = (e, Ok snapshot) /\
    Import' LiveContext e2 snapshot = (e3, (n, None)) /\ engine_inv e3 /\
    forall p, engine_entry e3 p =
      match engine_entry e p with
      | Some ent => if moved opts' ent then Some (merged (engine_entry e2 p) ent) else engine_entry e2 p
      | None => engine_entry e2 p
      end.
Proof.
  intros Hi Hi2 Hc Hc2 Hv Hopt Ho Hm. cbn zeta. rewrite (Export_collected e opts now Hc Hopt).
  set (o := if IsZero (ro_now opts) then _ else _). set (snap := collected (moved o) (me_shards e)).
  pose proof (sortSnapshotEntries_perm snap) as Hp.
  destruct (collected_size (moved o) e Hi) as [Hz Hs]. fold snap in Hz, Hs.
  destruct (Import_spec e2 (sortSnapshotEntries snap) Hi2 Hc2) as (e3 & n & Hr & Hi3 & _ & Hin & Hout).
  { rewrite Hp. by apply collected_ok. }
  { unfold snap_keys. rewrite Hp. by apply collected_NoDup. }
  { intros i s Hsh. apply (room_perm snap); [done|]. destruct (shard_sizes_le e2 i s Hi2 Hsh). unfold room. lia. }
  exists (sortSnapshotEntries snap), e3, n. split_and!; [done|done|done|]. intros p.
  destruct (decide (p ∈ snap_keys snap)) as [Hk|Hk].
  - pose proof Hk as (ent & He & Hmv)%collected_keys; [|done]. rewrite He, Hmv.
    apply list_elem_of_fmap in Hk as (x & -> & Hx). unfold compose in *. rewrite Hin by (by rewrite Hp).
    apply elem_of_collected in Hx as (ent' & He' & Ex & _); [|done].
    rewrite (stored_collected e x ent' Hi Hv He' Ex). do 2 f_equal. congruence.
  - rewrite Hout by (unfold snap_keys; by rewrite Hp). destruct (engine_entry e p) as [ent|] eqn:He; [|done].
    case_bool; [|done]. exfalso. apply Hk, collected_keys; [done|]. eauto.
Qed.

(** ** Statistics *)

Definition space_objects (e : MemoryEngine) (k : spaceKey) : Z :=
  lsum (fun s => space_count k (sw_entries s)) (me_shards e).

Definition space_bytes (e : MemoryEngine) (k : spaceKey) : Z :=
  lsum (fun s => space_cost k (sw_entries s)) (me_shards e).

Lemma addSpaceStats_lookup total shard k : addSpaceStats total shard !! k
  = match shard !! k with
    | Some u =>
        let t := default zeroUsage (total !! k) in
        Some (mkSpaceUsage (su_objects t +% su_objects u) (su_memoryBytes t +% su_memoryBytes u))
    | None => total !! k
    end.
Proof.
  unfold addSpaceStats.
  assert (forall (l : list (spaceKey * spaceUsage)) (total : gmap spaceKey spaceUsage), NoDup l.*1 ->
    foldl (fun (total : gmap spaceKey spaceUsage) item =>
      let next := default zeroUsage (total !! item.1) in
      let next := mkSpaceUsage (su_objects next +% su_objects item.2) (su_memoryBytes next +% su_memoryBytes item.2) in
      <[item.1 := next]> total) total l !! k
    = match (list_to_map l : gmap spaceKey spaceUsage) !! k with
      | Some u =>
          let t := default zeroUsage (total !! k) in
          Some (mkSpaceUsage (su_objects t +% su_objects u) (su_memoryBytes t +% su_memoryBytes u))
      | None => total !! k
      end) as Hl.
  { clear total. induction l as [|[q u] l IH]; intros total Hn; [by rewrite list_to_map_nil, lookup_empty|].
    cbn [fmap list_fmap fst] in Hn. apply NoDup_cons in Hn as [Hq Hn]. cbn [foldl fst snd].
    rewrite IH by done. cbn [list_to_map]. destruct (decide (q = k)) as [->|Hne].
    - rewrite list_to_map_cons, lookup_insert_eq. rewrite (not_elem_of_list_to_map_1 l k Hq).
      by rewrite lookup_insert_eq.
    - rewrite list_to_map_cons, !lookup_insert_ne by done. done. }
  rewrite Hl by apply NoDup_range.
  assert (list_to_map (range_order shard) = shard) as ->; [|done].
  rewrite <- (list_to_map_to_list shard) at 2. apply list_to_map_proper; [apply NoDup_range|apply range_perm].
Qed.

(** The totals after some shards. *)
Definition totals_of (l : list shardWorker) (acc : Stats * gmap spaceKey spaceUsage) : Prop :=
  st_objects acc.1 = lsum (fun s => Z.of_nat (size (sw_entries s))) l /\
  st_memoryBytes acc.1 = lsum (fun s => total_cost (sw_entries s)) l /\
  forall k, acc.2 !! k =
    let n := lsum (fun s => space_count k (sw_entries s)) l in
    if n =? 0 then None else Some (mkSpaceUsage n (lsum (fun s => space_cost k (sw_entries s)) l)).

Lemma lsum_le {A} (f g : A -> Z) l : (forall x, x ∈ l -> f x <= g x) -> lsum f l <= lsum g l.
Proof.
  induction l as [|x l IH]; intros Hf; [done|]. rewrite !lsum_cons.
  assert (f x <= g x) by (apply Hf; set_solver). assert (lsum f l <= lsum g l) by (apply IH; set_solver). lia.
Qed.

Lemma lsum_zero {A} (f g : A -> Z) l : (forall x, x ∈ l -> 0 <= f x) ->
  (forall x, x ∈ l -> f x = 0 -> g x = 0) -> lsum f l = 0 -> lsum g l = 0.
Proof.
  induction l as [|x l IH]; intros Hf Hg; [done|]. rewrite !lsum_cons. intros Hz.
  assert (0 <= f x) by (apply Hf; set_solver).
  assert (0 <= lsum f l) by (apply lsum_nonneg; intros; apply Hf; set_solver).
  rewrite (Hg x) by (set_solver || lia). rewrite IH; set_solver || lia.
Qed.

Definition statsStep (acc : Stats * gmap spaceKey spaceUsage) (r : shardResult) : Stats * gmap spaceKey spaceUsage :=
  (appendShard (res_stats r) (addShardStats acc.1 (res_stats r)), addSpaceStats acc.2 (res_spaces r)).

Lemma statsStep_totals before s acc : shard_inv s -> (forall t, t ∈ before -> shard_inv t) ->
  lsum (fun s => Z.of_nat (size (sw_entries s))) (before ++ [s]) < 2 ^ 64 ->
  lsum (fun s => total_cost (sw_entries s)) (before ++ [s]) < 2 ^ 64 ->
  totals_of before acc -> totals_of (before ++ [s]) (statsStep acc (statsResult s 0)).
Proof.
  intros Hi Hb Ho Hm (E1 & E2 & E3). rewrite lsum_snoc in Ho, Hm.
  assert (0 <= lsum (fun s => Z.of_nat (size (sw_entries s))) before) by (apply lsum_nonneg; intros; lia).
  assert (0 <= lsum (fun s => total_cost (sw_entries s)) before)
    by (apply lsum_nonneg; intros t Ht; apply total_cost_nonneg, (Hb t Ht)).
  pose proof (total_cost_nonneg _ (inv_entries s Hi)).
  unfold totals_of, statsStep. rewrite !lsum_snoc. cbn [fst snd]. split_and!.
  - change (st_objects acc.1 +% sw_objects s = lsum (fun s => Z.of_nat (size (sw_entries s))) before
            + Z.of_nat (size (sw_entries s))).
    rewrite E1, (inv_objects s Hi). rewrite u64_small by (unfold is_u64; lia). lia.
  - change (st_memoryBytes acc.1 +% sw_memoryBytes s = lsum (fun s => total_cost (sw_entries s)) before
            + total_cost (sw_entries s)).
    rewrite E2, (inv_memory s Hi). rewrite u64_small by (unfold is_u64; lia). lia.
  - intros k. change (res_spaces (statsResult s 0)) with (sw_spaces s).
    rewrite addSpaceStats_lookup, (inv_spaces s Hi), E3. unfold usage_of. cbn zeta. rewrite !lsum_snoc.
    pose proof (space_count_nonneg k (sw_entries s)). pose proof (space_count_le k (sw_entries s)).
    pose proof (space_cost_nonneg k _ (inv_entries s Hi)). pose proof (space_cost_le k _ (inv_entries s Hi)).
    set (n := lsum (fun s => space_count k (sw_entries s)) before).
    set (b := lsum (fun s => space_cost k (sw_entries s)) before).
    assert (0 <= n <= lsum (fun s => Z.of_nat (size (sw_entries s))) before) as Hn.
    { split; [apply lsum_nonneg; intros; apply space_count_nonneg|apply lsum_le; intros; apply space_count_le]. }
    assert (0 <= b <= lsum (fun s => total_cost (sw_entries s)) before) as Hbb.
    { split; [apply lsum_nonneg; intros t Ht; apply space_cost_nonneg, (Hb t Ht)
             |apply lsum_le; intros t Ht; apply space_cost_le, (Hb t Ht)]. }
    destruct (Z.eqb_spec (space_count k (sw_entries s)) 0) as [Ez|Ez].
    + rewrite Ez, (space_count_zero _ _ Ez), !Z.add_0_r. done.
    + destruct (Z.eqb_spec n 0) as [En|En]; cbn [default from_option id su_objects su_memoryBytes zeroUsage].
      * assert (b = 0) as ->.
        { apply (lsum_zero (fun s => space_count k (sw_entries s))); [intros; apply space_count_nonneg| |done].
          intros t _. apply space_count_zero. }
        rewrite En, !u64_small by (unfold is_u64; lia). rewrite (proj2 (Z.eqb_neq _ _)) by lia. do 2 f_equal; lia.
      * rewrite !u64_small by (unfold is_u64; lia). rewrite (proj2 (Z.eqb_neq _ _)) by lia. do 2 f_equal; lia.
Qed.

Lemma stats_fold l before acc :
  (forall s, s ∈ before ++ l -> shard_inv s) ->
  lsum (fun s => Z.of_nat (size (sw_entries s))) (before ++ l) < 2 ^ 64 ->
  lsum (fun s => total_cost (sw_entries s)) (before ++ l) < 2 ^ 64 ->
  totals_of before acc ->
  totals_of (before ++ l) (foldl statsStep acc (replies (fun _ => zeroCommand commandStats) l)).
Proof.
  revert before acc. induction l as [|s l IH]; intros before acc Hi Ho Hm Ht; [by rewrite app_nil_r in *|].
  destruct (visited_cons (fun _ => zeroCommand commandStats) (fun _ => zeroCommand commandStats) s l (fun _ => eq_refl))
    as [_ ->]. cbn [foldl]. rewrite cons_middle, app_assoc in *. apply IH; [done|done|done|].
  assert (forall f : shardWorker -> Z, (forall x, x ∈ (before ++ [s]) ++ l -> 0 <= f x) ->
    lsum f ((before ++ [s]) ++ l) < 2 ^ 64 -> lsum f (before ++ [s]) < 2 ^ 64) as Hpre.
  { intros f Hf. rewrite lsum_app. assert (0 <= lsum f l); [|lia].
    apply lsum_nonneg. intros x Hx. apply Hf. set_solver. }
  apply statsStep_totals; [apply Hi; set_solver|intros; apply Hi; set_solver| | |done].
  - apply Hpre; [intros; lia|done].
  - apply Hpre; [intros x Hx; apply total_cost_nonneg, (Hi x Hx)|done].
Qed.

(** What a statistics call returns, for the users of the engine. *)
Lemma Stats_run (e : MemoryEngine) :
  engine_inv e -> me_closed e = false -> engine_objects e < 2 ^ 64 -> engine_cost e < 2 ^ 64 ->
  exists st, EngineStats LiveContext e = (e, Ok st) /\
    st_objects st = engine_objects e /\ st_memoryBytes st = engine_cost e /\
    (forall sp, sp ∈ st_spaces st <->
       let k := mkSpaceKey (sps_namespace sp) (sps_space sp) in
       sps_objects sp = space_objects e k /\ sps_memoryBytes sp = space_bytes e k /\ space_objects e k <> 0) /\
    NoDup ((fun sp => (sps_namespace sp, sps_space sp)) <$> st_spaces st).
Proof.
  intros Hi Hc Ho Hm. unfold EngineStats.
  rewrite (eachShard_visits (fun acc => acc) statsStep (fun _ => zeroCommand commandStats)) by done.
  rewrite visited_same by done.
  destruct (stats_fold (me_shards e) [] (zeroStats, ∅)) as (T1 & T2 & T3); [|done|done|done|].
  { intros s [i Hs]%list_elem_of_lookup_1. by apply (ei_shard e Hi i). }
  set (acc := foldl statsStep _ _) in *. cbn [app] in T1, T2, T3.
  eexists. split; [by destruct e as [[] l]|]. cbn [withSpaces st_objects st_memoryBytes st_spaces].
  split_and!; [exact T1|exact T2| |].
  - intros [ns sp n b]. unfold buildSpaceStats. rewrite merge_sort_Permutation, list_elem_of_fmap.
    cbn [sps_namespace sps_space sps_objects sps_memoryBytes]. unfold space_objects, space_bytes. split.
    + intros ([k u] & E & Hk). apply elem_of_range in Hk. rewrite T3 in Hk. cbn zeta in Hk.
      cbn [fst snd] in E. simplify_eq. destruct k as [ns sp]. cbn [sk_namespace sk_space].
      case_bool; simplify_eq. bool_to_prop. done.
    + intros (-> & -> & Hne). eexists (mkSpaceKey ns sp, mkSpaceUsage _ _). split; [done|].
      apply elem_of_range. rewrite T3. cbn zeta. by rewrite (proj2 (Z.eqb_neq _ _) Hne).
  - unfold buildSpaceStats. rewrite merge_sort_Permutation, <- list_fmap_compose.
    apply (NoDup_fmap_2_strong (fun item : spaceKey * spaceUsage => (sk_namespace item.1, sk_space item.1)) _).
    + intros [[n1 s1] u1] [[n2 s2] u2] H1' H2' E. cbn in E. simplify_eq.
      apply elem_of_range in H1', H2'. congruence.
    + apply (NoDup_fmap_1 fst), NoDup_range.
Qed.

(** The statistics of an engine are exact: the totals are the numbers of
    entries and bytes stored in all shards, and the list of spaces has exactly
    one line for each space that has entries, with its entries and bytes over
    all shards. *)
Theorem stats_exact (e : MemoryEngine) :
  engine_inv e -> me_closed e = false -> engine_objects e < 2 ^ 64 -> engine_cost e < 2 ^ 64 ->
  exists st, EngineStats LiveContext e = (e, Ok st) /\
    st_objects st = engine_objects e /\ st_memoryBytes st = engine_cost e /\
    (forall sp, sp ∈ st_spaces st <->
       let k := mkSpaceKey (sps_namespace sp) (sps_space sp) in
       sps_objects sp = space_objects e k /\ sps_memoryBytes sp = space_bytes e k /\ space_objects e k <> 0) /\
    NoDup ((fun sp => (sps_namespace sp, sps_space sp)) <$> st_spaces st).
Proof. apply Stats_run. Qed.

(** ** Deleting a range and sweeping *)

(** A visit whose commands keep or drop each entry by a test. *)
Lemma visited_filter cmd (P : entry -> bool) e : engine_inv e ->
  (forall s, shard_inv s -> cmd_admissible s cmd /\
     forall p, sw_entries (apply 0 s cmd).1 !! p
       = match sw_entries s !! p with Some ent => if P ent then None else Some ent | None => None end) ->
  engine_inv (mkEngine false (visited (fun _ => cmd) (me_shards e))) /\
  forall p, engine_entry (mkEngine false (visited (fun _ => cmd) (me_shards e))) p
    = match engine_entry e p with Some ent => if P ent then None else Some ent | None => None end.
Proof.
  intros Hi Hf. split.
  - apply visited_inv; [done|intros i s Hs; by apply Hf, (ei_shard e Hi i s)|].
    intros i s p ent Hs He. destruct (Hf s (ei_shard e Hi i s Hs)) as [_ Hl]. rewrite Hl in He.
    destruct (sw_entries s !! p) as [f|] eqn:Hp; [|done]. by apply (ei_placed e Hi i s p f).
  - intros p. destruct (shardFor_lookup e p (ei_shards e Hi)) as [s Hs].
    rewrite (visited_entry (fun _ => cmd) e p s Hs).
    destruct (Hf s (ei_shard e Hi _ s Hs)) as [_ ->]. unfold engine_entry. by rewrite Hs.
Qed.

(** Deleting a range removes exactly the entries whose key is in the space and
    whose slot is in the range, in every shard, and no other entry. *)
Lemma DeleteRange_spec (e : MemoryEngine) (opts : RangeOptions) :
  engine_inv e -> me_closed e = false -> validateRangeOptions opts = None ->
  exists e' n, DeleteRange LiveContext e opts = (e', (n, None)) /\ me_closed e' = false /\ engine_inv e' /\
  forall p, engine_entry e' p
    = match engine_entry e p with
      | Some ent => if entryInRange (e_key ent) opts then None else Some ent
      | None => None
      end.
Proof.
  intros Hi Hc Hv. unfold DeleteRange. rewrite Hv.
  rewrite (eachShard_visits (fun acc => acc) (fun total r => mkDeleteRangeResult (dr_deleted total +% res_deletedRange r))
             (fun _ => rangeCommand commandDeleteRange opts))
    by (done || intros i s _; cbn; by destruct (deleteRange opts s)).
  eexists _, _. split; [reflexivity|]. split; [done|].
  apply (visited_filter _ (fun ent => entryInRange (e_key ent) opts)); [done|].
  intros s Hs. split; [done|]. pose proof (deleteRange_spec opts s Hs) as Hd.
  unfold apply. cbn [c_kind rangeCommand c_rangeOpts]. destruct (deleteRange opts s) as [t n].
  by destruct Hd as (_ & ? & _).
Qed.

(** A sweep removes exactly the entries that have expired, in every shard. *)
Theorem sweep_exact (e : MemoryEngine) (now : Time) :
  engine_inv e -> me_closed e = false ->
  exists e' n, SweepExpired LiveContext e now = (e', (n, None)) /\ engine_inv e' /\
  forall p, engine_entry e' p
    = match engine_entry e p with
      | Some ent => if expired ent now then None else Some ent
      | None => None
      end.
Proof.
  intros Hi Hc. unfold SweepExpired.
  rewrite (eachShard_visits (fun acc => acc) (fun deleted r => deleted +% res_swept r)
             (fun _ => sweepCommand now))
    by (done || intros i s _; cbn; by destruct (sweepExpired now s)).
  eexists _, _. split; [reflexivity|].
  apply (visited_filter _ (fun ent => expired ent now)); [done|].
  intros s Hs. split; [done|]. pose proof (sweepExpired_spec now s Hs) as Hd.
  unfold apply. cbn [c_kind sweepCommand c_now]. destruct (sweepExpired now s) as [t n].
  by destruct Hd as (_ & ? & _).
Qed.

(** ** Eviction over all shards *)

(** What an eviction may do to a shard. *)
Record evict_step (opts : EvictOptions) (s t : shardWorker) : Prop := {
  es_inv : shard_inv t;
  es_kept : forall p ent, sw_entries t !! p = Some ent -> sw_entries s !! p = Some ent;
  es_removed : forall p ent, sw_entries s !! p = Some ent -> sw_entries t !! p = None -> evictable opts ent = true
}.

Definition exhausted (opts : EvictOptions) (t : shardWorker) : Prop :=
  forall p ent, sw_entries t !! p = Some ent -> evictable opts ent = false.

Lemma evict_shard opts target s : shard_inv s -> key_typed (eo_exclude opts) ->
  let '(t, r) := evict (withTarget target opts) s in
  evict_step opts s t /\
  er_freedBytes r = total_cost (sw_entries s) - total_cost (sw_entries t) /\
  (target <= er_freedBytes r \/ exhausted opts t).
Proof.
  intros Hi Hx. pose proof (evict_run_exists (withTarget target opts) s Hi Hx) as Hrun.
  destruct (evict (withTarget target opts) s) as [t r]. destruct Hrun as (dead & taken & rest & Hr).
  destruct (evict_run_totals _ _ _ _ _ _ _ Hi Hr) as (Hit & Hfb & _).
  rewrite (inv_memory s Hi), (inv_memory t Hit) in Hfb. split_and!; [|done|].
  - constructor; [done| |].
    + intros p ent. rewrite (evict_run_entries _ _ _ _ _ _ _ Hr), deleteExpired_lookup. by case_bool.
    + intros p ent He Ht. destruct (evict_run_removed _ _ _ _ _ _ _ Hr p ent He Ht) as [Hd|[Hl _]].
      * by apply (run_dead _ _ _ _ _ _ _ Hr) in Hd as (_ & ? & _).
      * by destruct (proj1 (run_live _ _ _ _ _ _ _ Hr ent)) as (_ & ? & _); [set_solver|].
  - destruct (Z.leb_spec target (er_freedBytes r)); [by left|right]. intros p ent Ht.
    apply not_true_is_false. intros Hev.
    pose proof (evict_run_stop _ _ _ _ _ _ _ Hi Hr p ent Ht Hev). cbn in *. lia.
Qed.

Lemma evict_step_refl opts s : shard_inv s -> evict_step opts s s.
Proof. intros Hi. constructor; [done|done|]. intros p ent. congruence. Qed.

Lemma evict_step_cost opts s t : shard_inv s -> evict_step opts s t ->
  0 <= total_cost (sw_entries t) <= total_cost (sw_entries s).
Proof.
  intros Hi [Ht Hk _]. split; [apply total_cost_nonneg, Ht|]. unfold total_cost.
  assert (sw_entries t ⊆ sw_entries s) as Hsub by (by apply map_subseteq_spec).
  rewrite <- (map_difference_union _ _ Hsub). rewrite msum_union by (by apply map_disjoint_difference_r1).
  assert (0 <= msum (fun _ e => e_costBytes e) (sw_entries s ∖ sw_entries t)); [|lia].
  apply msum_nonneg. intros p ent [Hp _]%lookup_difference_Some. by eapply cost_nonneg; [apply Hi|].
Qed.

(** The body of the loop of evictFromShards. *)
Definition evictBody (opts : EvictOptions) (e : MemoryEngine) (index : nat) (total : EvictResult)
    : MemoryEngine * turn EvictResult :=
  if eo_targetBytes opts <=? er_freedBytes total then (e, Return total None)
  else
    let shardOpts := withTarget (eo_targetBytes opts -% er_freedBytes total) opts in
    onReply (executeOn LiveContext e index (evictCommand shardOpts (eo_now opts))) total (fun r =>
      mkEvictResult (er_requestedBytes total)
        (er_freedBytes total +% er_freedBytes (res_evicted r))
        (er_evictedObjects total +% er_evictedObjects (res_evicted r))).

Definition shards_cost (l : list shardWorker) : Z := lsum (fun s => total_cost (sw_entries s)) l.

Lemma evict_fold opts todo before total : key_typed (eo_exclude opts) -> is_u64 (eo_targetBytes opts) ->
  (forall s, s ∈ todo -> shard_inv s) -> 0 <= er_freedBytes total ->
  er_freedBytes total + shards_cost todo < 2 ^ 64 ->
  exists todo' r,
    forWorkers (seq (length before) (length todo)) (evictBody opts) (mkEngine false (before ++ todo)) total
    = (mkEngine false (before ++ todo'), (r, None)) /\
    Forall2 (evict_step opts) todo todo' /\
    er_freedBytes r = er_freedBytes total + shards_cost todo - shards_cost todo' /\
    (eo_targetBytes opts <= er_freedBytes r \/ Forall (exhausted opts) todo').
Proof.
  intros Hx Hu. revert before total. induction todo as [|s todo IH]; intros before total Hi Hf Hb.
  { exists [], total. split_and!; [done|constructor|cbn; lia|right; constructor]. }
  assert (shard_inv s) as Hs by (apply Hi; set_solver).
  assert (forall t, t ∈ todo -> shard_inv t) as Hi' by (intros; apply Hi; set_solver).
  cbn [length seq forWorkers]. unfold evictBody at 1.
  destruct (Z.leb_spec (eo_targetBytes opts) (er_freedBytes total)) as [Hle|Hlt].
  { exists (s :: todo), total. split_and!; [done| |lia|by left].
    apply Forall2_same_length_lookup_2; [done|]. intros i x y Hx1 Hy1. simplify_eq.
    apply evict_step_refl, Hi. by eapply list_elem_of_lookup_2. }
  set (target := eo_targetBytes opts -% er_freedBytes total).
  rewrite (executeOn_open _ _ s) by (done || cbn; by rewrite lookup_app_r, Nat.sub_diag by lia).
  unfold apply at 1 2. cbn [c_kind evictCommand c_evict].
  pose proof (evict_shard opts target s Hs Hx) as He.
  destruct (evict (withTarget target opts) s) as [t r0]. destruct He as (Hst & Hfr & Hstop).
  cbn [fst snd onReply res_err resEvicted me_shards res_evicted].
  rewrite insert_app_r_alt, Nat.sub_diag by lia. cbn [insert list_insert].
  pose proof (evict_step_cost opts s t Hs Hst) as Hcost.
  unfold shards_cost in Hb. rewrite lsum_cons in Hb. fold (shards_cost todo) in Hb.
  assert (0 <= shards_cost todo) by (apply lsum_nonneg; intros u Hu'; apply total_cost_nonneg, (Hi' u Hu')).
  set (total' := mkEvictResult _ _ _).
  assert (er_freedBytes total' = er_freedBytes total + er_freedBytes r0) as Hft
    by (cbn; apply u64_small; unfold is_u64; lia).
  destruct (IH (before ++ [t]) total' Hi') as (todo' & r & Hrun & H2' & Hfree & Hend); [lia|lia|].
  rewrite length_app, <- !app_assoc in Hrun. cbn [length app] in Hrun. rewrite Nat.add_1_r in Hrun.
  exists (t :: todo'), r. split_and!.
  - exact Hrun.
  - by constructor.
  - unfold shards_cost in *. rewrite !lsum_cons. lia.
  - destruct Hend as [?|Hend]; [by left|]. destruct Hstop as [Hstop|Hstop]; [|right; by constructor].
    left. unfold target in Hstop. rewrite u64_small in Hstop by (unfold is_u64 in *; lia).
    assert (0 <= shards_cost todo - shards_cost todo'); [|lia].
    clear -H2' Hi'. unfold shards_cost. induction H2' as [|x y l k Hxy H2' IH']; [done|]. rewrite !lsum_cons.
    pose proof (evict_step_cost opts x y (Hi' x ltac:(set_solver)) Hxy).
    assert (forall t, t ∈ l -> shard_inv t) as Hl by (intros; apply Hi'; set_solver).
    specialize (IH' Hl). lia.
Qed.

(** What an eviction does, for the users of the engine. *)
Lemma Evict_run (e : MemoryEngine) (opts : EvictOptions) (now : Time) :
  engine_inv e -> me_closed e = false -> key_typed (eo_exclude opts) ->
  0 < eo_targetBytes opts < 2 ^ 64 -> eo_namespace opts <> "" -> eo_space opts <> "" ->
  engine_cost e < 2 ^ 64 ->
  exists e' r, Evict LiveContext e opts now = (e', (r, None)) /\ engine_inv e' /\ me_closed e' = false /\
    er_freedBytes r = engine_cost e - engine_cost e' /\
    (forall p ent, engine_entry e' p = Some ent -> engine_entry e p = Some ent) /\
    (forall p ent, engine_entry e p = Some ent -> engine_entry e' p = None -> evictable opts ent = true) /\
    (eo_targetBytes opts <= er_freedBytes r \/
     forall p ent, engine_entry e' p = Some ent -> evictable opts ent = false).
Proof.
  intros Hi Hc Hx Ht Hn Hsp Hcost. unfold Evict.
  rewrite (proj2 (Z.eqb_neq _ _)) by lia. rewrite !bool_decide_eq_false_2 by done. cbn [orb].
  set (o := if IsZero (eo_now opts) then _ else _).
  assert (eo_targetBytes o = eo_targetBytes opts /\ eo_exclude o = eo_exclude opts /\
          forall ent, evictable o ent = evictable opts ent) as (Eo & Ex & Ev)
    by (unfold o, evictable, withNow; by destruct (IsZero _)).
  destruct (evict_fold o (me_shards e) [] (mkEvictResult (eo_targetBytes o) 0 0))
    as (l & r & Hrun & H2' & Hfree & Hend).
  { by rewrite Ex. } { unfold is_u64. lia. }
  { intros s [i Hs]%list_elem_of_lookup_1. by apply (ei_shard e Hi i). } { done. }
  { exact Hcost. }
  destruct e as [c shards]. cbn in Hc. subst c.
  exists (mkEngine false l), r. split; [exact Hrun|].
  pose proof (Forall2_length _ _ _ H2') as Hlen. cbn [me_shards] in *.
  assert (forall p, shardFor (mkEngine false l) p = shardFor (mkEngine false shards) p) as Hfor
    by (intros; apply shardFor_length; cbn; lia).
  assert (forall p, exists s t, engine_entry (mkEngine false shards) p = sw_entries s !! p /\
    engine_entry (mkEngine false l) p = sw_entries t !! p /\ evict_step o s t /\ t ∈ l) as Hpt.
  { intros p. destruct (shardFor_lookup _ p (ei_shards _ Hi)) as [s Hs].
    destruct (Forall2_lookup_l _ _ _ _ _ H2' Hs) as (t & Htl & Hst). exists s, t.
    unfold engine_entry. rewrite Hfor. cbn [me_shards] in *. rewrite Hs, Htl.
    split_and!; [done|done|done|by eapply list_elem_of_lookup_2]. }
  split_and!.
  - constructor.
    + intros El. apply (ei_shards _ Hi). cbn in *. subst l. by destruct shards.
    + intros i t Htl. destruct (Forall2_lookup_r _ _ _ _ _ H2' Htl) as (s & Hs & []). done.
    + intros i t p ent Htl He. rewrite Hfor. destruct (Forall2_lookup_r _ _ _ _ _ H2' Htl) as (s & Hs & [_ Hk _]).
      by apply (ei_placed _ Hi i s p ent Hs), Hk.
  - done.
  - rewrite Hfree. unfold engine_cost, shards_cost. cbn [me_shards er_freedBytes]. lia.
  - intros p ent. destruct (Hpt p) as (s & t & -> & -> & [_ Hk _] & _). apply Hk.
  - intros p ent. destruct (Hpt p) as (s & t & -> & -> & [_ _ Hr] & _). rewrite <- Ev. apply Hr.
  - rewrite Eo in Hend. destruct Hend as [?|Hend]; [by left|right]. intros p ent.
    destruct (Hpt p) as (s & t & _ & -> & _ & Hin). rewrite <- Ev. rewrite Forall_forall in Hend. by apply Hend.
Qed.

(** An eviction over all shards frees exactly the bytes it reports, keeps
    every entry it does not remove as it was, removes only entries of the
    requested space other than the excluded key, and frees at least the target
    unless no such entry is left in any shard. *)
Theorem evict_reaches_target (e : MemoryEngine) (opts : EvictOptions) (now : Time) :
  engine_inv e -> me_closed e = false -> key_typed (eo_exclude opts) ->
  0 < eo_targetBytes opts < 2 ^ 64 -> eo_namespace opts <> "" -> eo_space opts <> "" ->
  engine_cost e < 2 ^ 64 ->
  exists e' r, Evict LiveContext e opts now = (e', (r, None)) /\ engine_inv e' /\
    er_freedBytes r = engine_cost e - engine_cost e' /\
    (forall p ent, engine_entry e' p = Some ent -> engine_entry e p = Some ent) /\
    (forall p ent, engine_entry e p = Some ent -> engine_entry e' p = None -> evictable opts ent = true) /\
    (eo_targetBytes opts <= er_freedBytes r \/
     forall p ent, engine_entry e' p = Some ent -> evictable opts ent = false).
Proof.
  intros Hi Hc Hx Ht Hn Hs Hcost.
  destruct (Evict_run e opts now Hi Hc Hx Ht Hn Hs Hcost) as (e' & r & ? & ? & _ & ?). by exists e', r.
Qed.
End EngineOps.
