(* ===== verification/EngineExamples.v ===== *)
(** * The engine's theorems on concrete inputs

    A small engine, built by the engine's own operations, on which each theorem
    about shards and engines is instantiated: its hypotheses hold there. *)

From S2P Require Import Prelude.
From S2P Require Import Binary.
From S2P Require Import GoStrings.
From S2P Require Import ControlApi.
From S2P Require Import Routing.
From S2P Require Import EngineTypes.
From S2P Require Import Shard.
From S2P Require Import ShardInv.
From S2P Require Import ShardOps.
From S2P Require Import Primitives.
From S2P Require Import Instances.
From S2P Require Import Worker.
From S2P Require Import KvSpec.
From S2P Require Import PrimitiveSpec.
From S2P Require Import MemoryEngine.
From S2P Require Import EngineSpec.

Local Open Scope Z_scope.

#[local] Existing Instance sample_codecs.
#[local] Existing Instance sample_math.
#[local] Existing Instance canonical_order.

(** ** A shard *)

Definition k1 : Key := mkKey "shop" "cart" "" "alice".
Definition k2 : Key := mkKey "shop" "cart" "" "bob".

Definition plain : SetOptions := mkSetOptions 0 0 0 0.

Definition set1 : shardCommand := setCommand k1 (str_bytes "apples") plain 100.
Definition set2 : shardCommand := setCommand k2 (str_bytes "pears") plain 200.

Definition sampleShard : shardWorker := (apply 0 (apply 0 (emptyShard 0) set1).1 set2).1.

Lemma key_ok_small k : validateKey k = None ->
  (String.length (k_namespace k) + String.length (k_space k) + String.length (k_entity k)
   + String.length (k_key k) < 1000)%nat -> key_ok k.
Proof. intros Hv Hl. split; [done|]. unfold key_typed, is_u64, str_len. lia. Qed.

Lemma k1_ok : key_ok k1.
Proof. apply key_ok_small; [done|simpl; lia]. Qed.
Lemma k2_ok : key_ok k2.
Proof. apply key_ok_small; [done|simpl; lia]. Qed.

Lemma set1_admissible : cmd_admissible (emptyShard 0) set1.
Proof. split; [split; [done|apply k1_ok]|]. split; vm_compute; reflexivity. Qed.

Lemma set2_admissible : cmd_admissible (apply 0 (emptyShard 0) set1).1 set2.
Proof. split; [split; [done|apply k2_ok]|]. split; vm_compute; reflexivity. Qed.

Lemma sampleShard_inv : shard_inv sampleShard.
Proof. apply apply_inv; [apply apply_inv; [apply emptyShard_inv|apply set1_admissible]|apply set2_admissible]. Qed.

(** Two commands in a row: the shard counts two objects, 17 and 14 bytes. *)
Lemma reachable_accounting_witness :
  shard_inv sampleShard /\ sw_objects sampleShard = 2 /\ sw_memoryBytes sampleShard = 35.
Proof.
  split; [|vm_compute; auto].
  apply (reachable_accounting 0). unfold sampleShard.
  apply reach_step; [apply reach_step; [apply reach_init|apply set1_admissible]|apply set2_admissible].
Defined.

Lemma zeroKey_typed : key_typed zeroKey.
Proof. unfold key_typed, is_u64, str_len. cbn [zeroKey k_namespace k_space k_entity k_key String.length]. lia. Qed.

Definition evictCart : EvictOptions := mkEvictOptions "shop" "cart" 10 zeroKey false 300.

Lemma evict_correct_witness :
  er_freedBytes (evict evictCart sampleShard).2
  = sw_memoryBytes sampleShard - sw_memoryBytes (evict evictCart sampleShard).1.
Proof.
  pose proof (evict_correct evictCart sampleShard sampleShard_inv) as H.
  destruct (evict evictCart sampleShard) as [t r].
  apply H. apply zeroKey_typed.
Defined.

(** A read through the refinement: bob's entry is the store's item. *)
Lemma shard_refines_store_witness :
  answer_of (apply 0 sampleShard (getCommand k2 (mkGetOptions 0 0) 300)).2
  = (kv_get 300 (store_of sampleShard k2) (mkGetOptions 0 0)).2.
Proof.
  pose proof (shard_refines_store 0 sampleShard (getCommand k2 (mkGetOptions 0 0) 300) k2
                (KvGet (mkGetOptions 0 0)) eq_refl (proj2 k2_ok) eq_refl I) as H.
  destruct (apply 0 sampleShard _) as [t r]. apply H.
Defined.

Lemma read_your_write_witness : exists j,
  answer_of (apply 0 (run [set2] (apply 0 (emptyShard 0) set1).1) (getCommand k1 (mkGetOptions 0 0) 300)).2
  = AnsItem j /\ it_value j = str_bytes "apples" /\ it_version j = 1.
Proof.
  refine (read_your_write (emptyShard 0) set1 (getCommand k1 (mkGetOptions 0 0) 300) k1
    (mkItem (str_bytes "apples") 1 0 0 0 100 100 100 1) [set2] eq_refl eq_refl (proj2 k1_ok) eq_refl eq_refl
    _ _ eq_refl eq_refl eq_refl).
  - vm_compute. reflexivity.
  - constructor; [|constructor]. exists k2, (KvSet (str_bytes "pears") plain).
    split_and!; [reflexivity|exact (proj2 k2_ok)|discriminate|reflexivity|exact I].
Defined.

(** ** Collections *)

Definition k3 : Key := mkKey "shop" "stock" "" "fruit".

Lemma k3_ok : key_ok k3.
Proof. apply key_ok_small; [done|simpl; lia]. Qed.

Definition request (kind : PrimitiveKind) (field : string) (value : list byte) : PrimitiveRequest :=
  mkPrimitiveRequest kind k3 (mkPrimitiveOptions 0 0 0 0) field field value 0 0
    (S754_zero false) (S754_zero false) (S754_zero false) false false 0 0 false.

Definition primitive (kind : PrimitiveKind) (field value : string) : shardCommand :=
  primitiveCommand commandPrimitive (request kind field (str_bytes value)) 100.

Lemma primitive_ok kind field value : cmd_ok (primitive kind field value).
Proof. split; [done|apply k3_ok]. Qed.

Definition stocked : shardWorker := (applyMapSet (emptyShard 0) (primitive PrimitiveMapSet "kiwi" "3")).1.

Lemma can_read_stocked : can_read stocked (primitive PrimitiveMapGet "kiwi" "").
Proof. eexists. split_and!; vm_compute; reflexivity. Defined.

Lemma map_set_then_get_witness : pres_value (res_primitive (applyMapGet stocked (primitive PrimitiveMapGet "kiwi" "")).2)
  = str_bytes "3".
Proof.
  set (out := applyMapSet (emptyShard 0) (primitive PrimitiveMapSet "kiwi" "3")).
  destruct (@map_set_then_get sample_codecs (countable_codec_laws _) (emptyShard 0) out.1
    (primitive PrimitiveMapSet "kiwi" "3") (primitive PrimitiveMapGet "kiwi" "") out.2
    (surjective_pairing _)) as (m & Hm & [_ Hv] & _);
    [vm_compute; reflexivity|vm_compute; reflexivity|reflexivity|exact can_read_stocked|].
  change stocked with out.1. rewrite Hv. vm_compute in Hm. injection Hm as <-. vm_compute. reflexivity.
Defined.

Definition added : shardWorker * shardResult := applySetAdd (emptyShard 0) (primitive PrimitiveSetAdd "kiwi" "").

Lemma can_read_added : can_read added.1 (primitive PrimitiveSetContains "kiwi" "").
Proof. eexists. split_and!; vm_compute; reflexivity. Defined.

Lemma set_add_remove_contains_witness :
  pres_bool (res_primitive (applySetContains added.1 (primitive PrimitiveSetContains "kiwi" "")).2) = true.
Proof.
  destruct (@set_add_remove_contains sample_codecs (countable_codec_laws _) (emptyShard 0) added.1
    (primitive PrimitiveSetAdd "kiwi" "") (primitive PrimitiveSetContains "kiwi" "") added.2 true
    (surjective_pairing _)) as (m & _ & ->);
    [vm_compute; reflexivity|vm_compute; reflexivity|reflexivity|exact can_read_added|].
  by rewrite decide_True.
Defined.

Definition pushedBack : shardWorker * shardResult :=
  applyListPush (applyListPush (emptyShard 0) (primitive PrimitiveListPushBack "" "first") false).1
    (primitive PrimitiveListPushBack "" "second") false.

Definition poppedFront : shardWorker * shardResult :=
  applyListPop pushedBack.1 (primitive PrimitiveListPopFront "" "") true.

(** First in, first out. *)
Lemma list_push_then_pop_witness : pres_value (res_primitive poppedFront.2) = str_bytes "first".
Proof.
  destruct (@list_push_then_pop sample_codecs (countable_codec_laws _)
    (applyListPush (emptyShard 0) (primitive PrimitiveListPushBack "" "first") false).1
    pushedBack.1 poppedFront.1 (primitive PrimitiveListPushBack "" "second")
    (primitive PrimitiveListPopFront "" "") pushedBack.2 poppedFront.2 false true
    (surjective_pairing _)) as (before & after & Hb & _ & He);
    [vm_compute; reflexivity|vm_compute; reflexivity|reflexivity|apply surjective_pairing
    |vm_compute; reflexivity|vm_compute; reflexivity|].
  vm_compute in Hb. injection Hb as <-. apply (f_equal (hd [])) in He.
  cbn [hd app] in He. rewrite <- He. reflexivity.
Defined.

(** The estimate of a first map field is its cost: key, prefix and body. *)
Lemma estimate_exact_witness :
  let cmd := primitive PrimitiveMapSet "kiwi" "3" in
  let est := applyPrimitiveEstimate (emptyShard 0) cmd in
  sw_memoryBytes (applyPrimitive est.1 cmd).1
  = sw_memoryBytes est.1 - we_oldCostBytes (res_estimate est.2) + we_newCostBytes (res_estimate est.2).
Proof.
  intros cmd est.
  assert (not_stale (emptyShard 0) cmd) as Hns
    by (intros e He; cbn [emptyShard sw_entries] in He; by rewrite lookup_empty in He).
  pose proof (estimate_exact (emptyShard 0) cmd (emptyShard_inv 0) (primitive_ok _ _ _) Hns eq_refl) as H.
  fold est in H. assert (we_applied (res_estimate est.2) = true) as Ha by (vm_compute; reflexivity).
  assert (fits (sw_entries (applyPrimitive est.1 cmd).1)) as Hf by (split; vm_compute; reflexivity).
  destruct est as [s1 r1]. cbn [fst snd] in *. destruct (applyPrimitive s1 cmd) as [s2 r2].
  by apply H.
Defined.

(** ** Engines *)

Lemma NewMemory_inv n : engine_inv (NewMemory n).
Proof.
  unfold NewMemory. set (c := if n <=? 0 then 16 else n).
  assert (0 < Z.to_nat c)%nat by (unfold c; case_bool; bool_to_prop; lia).
  assert (forall i s, ((fun i => emptyShard (Z.of_nat i)) <$> seq 0 (Z.to_nat c)) !! i = Some s ->
    exists id, s = emptyShard id) as Hs.
  { intros i s. rewrite list_lookup_fmap. intros (j & _ & ->)%fmap_Some. eauto. }
  constructor; cbn [me_shards].
  - intros E. apply (f_equal length) in E. rewrite length_fmap, length_seq in E. cbn in E. lia.
  - intros i s [id ->]%Hs. apply emptyShard_inv.
  - intros i s p ent [id ->]%Hs. cbn. by rewrite lookup_empty.
Qed.

Lemma keyed_kv cmd op : op_of cmd = Some op -> op_typed op -> keyed cmd.
Proof. intros Ho Ht s q Hq. by apply (apply_refines_at 0 s cmd op Ho Ht). Qed.

Definition engine1 : MemoryEngine := (execute LiveContext (NewMemory 2) set1).1.
Definition engine2 : MemoryEngine := (execute LiveContext engine1 set2).1.

Lemma engine1_inv : engine_inv engine1.
Proof.
  apply execute_inv; [apply NewMemory_inv|by eapply keyed_kv|].
  intros s Hs. vm_compute in Hs. injection Hs as <-.
  split; [split; [done|apply k1_ok]|]. split; vm_compute; reflexivity.
Qed.

Lemma engine2_inv : engine_inv engine2.
Proof.
  apply execute_inv; [apply engine1_inv|by eapply keyed_kv|].
  intros s Hs. vm_compute in Hs. injection Hs as <-.
  split; [split; [done|apply k2_ok]|]. split; vm_compute; reflexivity.
Qed.

Lemma engine_refines_store_witness : exists e' r,
  execute LiveContext engine2 (getCommand k1 (mkGetOptions 0 0) 300) = (e', Ok r) /\
  answer_of r = (kv_get 300 (engine_store engine2 k1) (mkGetOptions 0 0)).2.
Proof.
  destruct (engine_refines_store engine2 (getCommand k1 (mkGetOptions 0 0) 300) k1
    (KvGet (mkGetOptions 0 0)) engine2_inv eq_refl eq_refl (proj2 k1_ok) eq_refl I) as (e' & r & H1 & H2 & _).
  exists e', r. exact (conj H1 H2).
Defined.

Definition versions_check (e : MemoryEngine) : bool :=
  forallb (fun s => forallb (fun kv => negb (e_version kv.2 =? 0)) (map_to_list (sw_entries s))) (me_shards e).

Lemma versions_checked e : versions_check e = true -> engine_versions_set e.
Proof.
  unfold versions_check. intros Hf p ent He. unfold engine_entry in He.
  destruct (me_shards e !! _) as [s|] eqn:Hs; [|done].
  rewrite forallb_forall in Hf. apply list_elem_of_lookup_2, list_elem_of_In in Hs.
  specialize (Hf s Hs). rewrite forallb_forall in Hf.
  apply elem_of_map_to_list, list_elem_of_In in He. specialize (Hf (p, ent) He).
  by apply negb_true_iff, Z.eqb_neq in Hf.
Qed.

Lemma engine2_versions : engine_versions_set engine2.
Proof. apply versions_checked. vm_compute. reflexivity. Qed.

Lemma snapshot_restore_roundtrip_witness : exists snapshot e3,
  Snapshot LiveContext engine2 = (engine2, Ok snapshot) /\
  Restore LiveContext (NewMemory 5) snapshot = (e3, None) /\
  forall p, engine_entry e3 p = engine_entry engine2 p.
Proof.
  destruct (snapshot_restore_roundtrip engine2 (NewMemory 5) engine2_inv (NewMemory_inv 5) eq_refl eq_refl
    engine2_versions) as (snapshot & e3 & H1 & H2 & _ & H3);
    [vm_compute; reflexivity|vm_compute; reflexivity|].
  exists snapshot, e3. exact (conj H1 (conj H2 H3)).
Defined.

Definition wholeCart : RangeOptions := mkRangeOptions "shop" "cart" 0 VSlotMax 300.

Lemma export_import_migrates_witness : exists snapshot e3 n,
  Export' LiveContext engine2 wholeCart 300 = (engine2, Ok snapshot) /\
  Import' LiveContext (NewMemory 3) snapshot = (e3, (n, None)).
Proof.
  destruct (export_import_migrates engine2 (NewMemory 3) wholeCart 300 engine2_inv (NewMemory_inv 3)
    eq_refl eq_refl engine2_versions eq_refl) as (snapshot & e3 & n & H1 & H2 & _);
    [vm_compute; reflexivity|vm_compute; reflexivity|].
  exists snapshot, e3, n. exact (conj H1 H2).
Defined.

Lemma stats_exact_witness : exists st,
  EngineStats LiveContext engine2 = (engine2, Ok st) /\ st_objects st = 2.
Proof.
  destruct (stats_exact engine2 engine2_inv eq_refl) as (st & H1 & H2 & _);
    [vm_compute; reflexivity|vm_compute; reflexivity|].
  exists st. split; [exact H1|]. rewrite H2. vm_compute. reflexivity.
Defined.

Lemma sweep_exact_witness : exists e' n,
  SweepExpired LiveContext engine2 300 = (e', (n, None)) /\
  engine_entry e' (physicalKey k1) = engine_entry engine2 (physicalKey k1).
Proof.
  destruct (sweep_exact engine2 300 engine2_inv eq_refl) as (e' & n & H1 & _ & H2).
  exists e', n. split; [exact H1|]. rewrite H2. vm_compute. reflexivity.
Defined.

Lemma evict_reaches_target_witness : exists e' r,
  Evict LiveContext engine2 evictCart 300 = (e', (r, None)) /\
  er_freedBytes r = engine_cost engine2 - engine_cost e'.
Proof.
  destruct (evict_reaches_target engine2 evictCart 300 engine2_inv eq_refl zeroKey_typed)
    as (e' & r & H1 & _ & H2 & _); [vm_compute; auto|discriminate|discriminate|vm_compute; reflexivity|].
  exists e', r. exact (conj H1 H2).
Defined.

(** ** Divergences

    Concrete runs on which the code departs from what its documents or its other
    operations lead one to expect. *)

Definition withOptions (ttl nsv expected : Z) (now : Time) (kind : PrimitiveKind) (field value : string) : shardCommand :=
  primitiveCommand commandPrimitive
    (mkPrimitiveRequest kind k3 (mkPrimitiveOptions ttl nsv 0 expected) field field (str_bytes value) 0 0
       (S754_zero false) (S754_zero false) (S754_zero false) false false 0 0 false) now.

(** A namespace flush (its version goes from 1 to 2) hides the map; setting
    another field under the new version makes the flushed field readable again. *)
Theorem flushed_field_reappears :
  let written := (applyMapSet (emptyShard 0) (withOptions 0 1 0 100 PrimitiveMapSet "kiwi" "3")).1 in
  let afterSet := (applyMapSet written (withOptions 0 2 0 200 PrimitiveMapSet "plum" "5")).1 in
  pres_found (res_primitive (applyMapGet written (withOptions 0 2 0 200 PrimitiveMapGet "kiwi" "")).2) = false /\
  pres_value (res_primitive (applyMapGet afterSet (withOptions 0 2 0 300 PrimitiveMapGet "kiwi" "")).2) = str_bytes "3".
Proof. vm_compute. auto. Qed.

(** Setting the same value under the new version reports an applied write and
    leaves the entry under the old version, where the new version cannot read it. *)
Theorem rewrite_after_flush_is_lost :
  let written := (applyMapSet (emptyShard 0) (withOptions 0 1 0 100 PrimitiveMapSet "kiwi" "3")).1 in
  let again := applyMapSet written (withOptions 0 2 0 200 PrimitiveMapSet "kiwi" "3") in
  pres_applied (res_primitive again.2) = true /\
  pres_found (res_primitive (applyMapGet again.1 (withOptions 0 2 0 300 PrimitiveMapGet "kiwi" "")).2) = false.
Proof. vm_compute. auto. Qed.

(** An expected version is refused when the key is missing, and ignored when the
    key has expired. *)
Theorem stale_expected_version_is_ignored :
  let written := (applyMapSet (emptyShard 0) (withOptions 50 0 0 100 PrimitiveMapSet "kiwi" "3")).1 in
  pres_applied (res_primitive (applyMapSet (emptyShard 0) (withOptions 0 0 7 200 PrimitiveMapSet "kiwi" "4")).2) = false /\
  pres_applied (res_primitive (applyMapSet written (withOptions 0 0 7 200 PrimitiveMapSet "kiwi" "4")).2) = true.
Proof. vm_compute. auto. Qed.

(** Adjusting an expired counter does not apply; asking for the estimate first,
    as the quota does, makes the same adjustment apply. *)
Theorem estimate_changes_adjustment :
  let opts := mkAdjustOptions 1 0 0 0 0 0 in
  let counter := (apply 0 (emptyShard 0) (setCommand k1 (str_bytes "5") (mkSetOptions 50 0 0 0) 100)).1 in
  let estimated := apply 0 counter (adjustCommand commandAdjustEstimate k1 opts 200) in
  res_found (apply 0 counter (adjustCommand commandAdjust k1 opts 200)).2 = false /\
  we_applied (res_estimate estimated.2) = false /\
  res_found (apply 0 estimated.1 (adjustCommand commandAdjust k1 opts 200)).2 = true.
Proof. vm_compute. auto. Qed.

(** A snapshot that lists a key twice restores one entry and counts two. *)
Theorem duplicate_snapshot_overcounts :
  let x := mkSnapshotEntry k1 (str_bytes "apples") 1 0 0 0 100 100 100 1 in
  let s := (restoreEntries [x; x] (emptyShard 0)).1 in
  size (sw_entries s) = 1%nat /\ sw_objects s = 2.
Proof. vm_compute. auto. Qed.
