(* ===== verification/EngineFiles.v ===== *)
(** * Engine snapshots on disk

    cache/engine/snapshot.go (the files) and node/persistence.go: a node writes a
    snapshot of its engine to a JSON file at intervals and when it stops, and reads
    it back when it starts; with the hooks of cmd/modules.go that call them.

    Times are written in RFC 3339 (GoTime), in the zone the node runs in, which is an
    argument; a write of the file ends in a [fileFate].  A restart brings back the
    engine of the last save that succeeded ([restart_restores_last_save]). *)

From S2P Require Import Prelude.
From S2P Require Import GoStrings.
From S2P Require Import GoJson.
From S2P Require Import GoJsonSpec.
From S2P Require Import GoJsonTypes.
From S2P Require Import GoTime.
From S2P Require Import EngineTypes.
From S2P Require Import Shard.
From S2P Require Import ShardInv.
From S2P Require Import Primitives.
From S2P Require Import Instances.
From S2P Require Import MemoryEngine.
From S2P Require Import EngineSpec.
From S2P Require Import EngineExamples.

Local Open Scope Z_scope.
Local Open Scope nespa_scope.

(** ** Format *)

(** The fields have no tags.
    src: cache/engine/engine.go Key *)
Definition keyCodec : codec Key :=
  structCodec
    [mkField "Namespace" stringCodec never; mkField "Space" stringCodec never; mkField "Entity" stringCodec never;
     mkField "Key" stringCodec never]
    (fun k => (k_namespace k, (k_space k, (k_entity k, (k_key k, tt)))))
    (fun '(a, (b, (c, (d, _)))) => mkKey a b c d).

Section Format.
  Context (zone : Time -> Z).

(** src: cache/engine/snapshot_types.go SnapshotEntry *)
Definition snapshotEntryCodec : codec SnapshotEntry :=
  structCodec
    [mkField "key" keyCodec never; mkField "value" bytesCodec never; mkField "version" uint64Codec never;
     mkField "namespace_version" uint64Codec never; mkField "space_version" uint64Codec never;
     mkField "expire_at" (timeCodec zone) never; mkField "created_at" (timeCodec zone) never;
     mkField "updated_at" (timeCodec zone) never; mkField "last_access_at" (timeCodec zone) never;
     mkField "access_count" uint64Codec never]
    (fun x => (se_key x, (se_value x, (se_version x, (se_namespaceVersion x, (se_spaceVersion x, (se_expireAt x,
       (se_createdAt x, (se_updatedAt x, (se_lastAccessAt x, (se_accessCount x, tt)))))))))))
    (fun '(a, (b, (c, (d, (e, (f, (g, (h, (i, (j, _)))))))))) => mkSnapshotEntry a b c d e f g h i j).

(** The one field of the struct.
    src: cache/engine/snapshot_types.go Snapshot *)
Definition engineSnapshotCodec : codec (list SnapshotEntry) :=
  structCodec [mkField "entries" (sliceCodec snapshotEntryCodec) never] (fun l => (l, tt)) fst.

(** The times [json.Marshal] accepts; one that it does not fails the whole value. *)
Definition entryMarshals (x : SnapshotEntry) : bool :=
  forallb (fun t => timeFits (zone t) t) [se_expireAt x; se_createdAt x; se_updatedAt x; se_lastAccessAt x].

(** ** Files *)

(** How far a write of the snapshot gets. *)
Inductive fileFate := FileWritten | MkdirFails | TempFails | WriteFails | CloseFails | RenameFails.

Inductive fileError := EncodeFailed | FileFailed (fate : fileFate) | FileMissing | ReadFailed | DecodeFailed.

(** The file is replaced by a rename or left as it was; a temporary file that is left
    behind is not read again.
    src: cache/engine/snapshot.go SaveSnapshotFile *)
Definition SaveSnapshotFile (fate : fileFate) (snapshot : list SnapshotEntry) (file : option (list byte))
    : option (list byte) * option fileError :=
  if negb (forallb entryMarshals snapshot) then (file, Some EncodeFailed)
  else
    match fate with
    | FileWritten => (Some (MarshalIndent engineSnapshotCodec snapshot), None)
    | fate => (file, Some (FileFailed fate))
    end.

(** src: cache/engine/snapshot.go LoadSnapshotFile *)
Definition LoadSnapshotFile (readable : bool) (file : option (list byte)) : result fileError (list SnapshotEntry) :=
  match file with
  | None => Err FileMissing
  | Some raw =>
      if negb readable then Err ReadFailed
      else match Unmarshal engineSnapshotCodec raw with
           | Some snapshot => Ok snapshot
           | None => Err DecodeFailed
           end
  end.

(** ** The node *)

Section Node.
  Context `{!Codecs, !GoMath, !RangeOrder}.

Inductive persistError := PersistFile (e : fileError) | PersistEngine (e : engineError).

(** A missing file leaves the engine as it is.
    src: node/persistence.go RestoreEngineSnapshot *)
Definition RestoreEngineSnapshot (path : string) (readable : bool) (file : option (list byte)) (eng : MemoryEngine)
    : MemoryEngine * option persistError :=
  if bool_decide (TrimSpace path = "") then (eng, None)
  else
    match LoadSnapshotFile readable file with
    | Err FileMissing => (eng, None)
    | Err e => (eng, Some (PersistFile e))
    | Ok snapshot =>
        match Restore LiveContext eng snapshot with
        | (eng, Some e) => (eng, Some (PersistEngine e))
        | (eng, None) => (eng, None)
        end
    end.

(** src: node/persistence.go SaveEngineSnapshot *)
Definition SaveEngineSnapshot (path : string) (fate : fileFate) (eng : MemoryEngine) (file : option (list byte))
    : MemoryEngine * option (list byte) * option persistError :=
  if bool_decide (TrimSpace path = "") then (eng, file, None)
  else
    match Snapshot LiveContext eng with
    | (eng, Err e) => (eng, file, Some (PersistEngine e))
    | (eng, Ok snapshot) =>
        match SaveSnapshotFile fate snapshot file with
        | (file, Some e) => (eng, file, Some (PersistFile e))
        | (file, None) => (eng, file, None)
        end
    end.

(** The save of each tick; an error is logged.
    src: node/persistence.go runSnapshotSchedulerWithFunc *)
Definition runSnapshotScheduler {S T} (interval : Duration) (saveFunc : T -> S -> S) (ticks : list T) (s : S) : S :=
  if interval <=? 0 then s else foldl (fun s tick => saveFunc tick s) s ticks.

(** The hook starts the scheduler only with an interval and a path.
    src: cmd/modules.go engineModule 230-236 *)
Definition scheduleSnapshots {S T} (interval : Duration) (path : string) (saveFunc : T -> S -> S) (ticks : list T) (s : S) : S :=
  if (interval <=? 0) || bool_decide (TrimSpace path = "") then s
  else runSnapshotScheduler interval saveFunc ticks s.

(** The hook that stops the engine: it is closed only after a save without error.
    src: cmd/modules.go engineModule 241-249 *)
Definition stopEngine (path : string) (fate : fileFate) (eng : MemoryEngine) (file : option (list byte))
    : MemoryEngine * option (list byte) * option persistError :=
  match SaveEngineSnapshot path fate eng file with
  | (eng, file, Some e) => (eng, file, Some e)
  | (eng, file, None) => (Close eng, file, None)
  end.

(** Ticks until an error other than a closed engine ends the loop.
    src: cmd/modules.go runSweeper *)
Fixpoint runSweeper (ticks : list Time) (eng : MemoryEngine) : MemoryEngine :=
  match ticks with
  | [] => eng
  | now :: ticks =>
      match SweepExpired LiveContext eng now with
      | (eng, (_, Some ErrClosed)) | (eng, (_, None)) => runSweeper ticks eng
      | (eng, (_, Some _)) => eng
      end
  end.

End Node.
End Format.

(** ** What a file carries *)

Definition key_utf8 (k : Key) : Prop :=
  utf8 (k_namespace k) /\ utf8 (k_space k) /\ utf8 (k_entity k) /\ utf8 (k_key k).

Section Laws.
  Context (zone : Time -> Z).

Definition fits_zone (t : Time) : Prop := timeFits (zone t) t = true.

Definition snapshotEntry_wire (x : SnapshotEntry) : Prop :=
  key_utf8 (se_key x) /\ is_u64 (se_version x) /\ is_u64 (se_namespaceVersion x) /\ is_u64 (se_spaceVersion x) /\
  is_u64 (se_accessCount x) /\
  fits_zone (se_expireAt x) /\ fits_zone (se_createdAt x) /\ fits_zone (se_updatedAt x) /\ fits_zone (se_lastAccessAt x).

Lemma key_lawful n : lawful keyCodec (S n) key_utf8.
Proof. struct_codec. Qed.

#[local] Hint Resolve key_lawful time_lawful : codec.

Lemma snapshotEntry_lawful n : lawful (snapshotEntryCodec zone) (S (S n)) snapshotEntry_wire.
Proof.
  apply struct_lawful; [vm_compute; reflexivity|by intros (a & b & c & d & e & f & g & h & i & j & [])|by intros []|].
  intros x (H1 & H2 & H3 & H4 & H5 & H6 & H7 & H8 & H9). cbn [fields_ok fst snd fd_codec fd_empty].
  repeat (split; [eapply field_ok; [solve [eauto with codec]|first [eassumption|done]|done]|]). exact I.
Qed.

Lemma engineSnapshot_lawful n : lawful (engineSnapshotCodec zone) (S (S (S (S n)))) (Forall snapshotEntry_wire).
Proof.
  apply struct_lawful; [vm_compute; reflexivity|by intros [m []]|done|].
  intros l Hl. split; [|done]. eapply field_ok; [apply slice_lawful, snapshotEntry_lawful|exact Hl|done].
Qed.

Lemma snapshot_loads snapshot : Forall snapshotEntry_wire snapshot ->
  LoadSnapshotFile zone true (Some (MarshalIndent (engineSnapshotCodec zone) snapshot)) = Ok snapshot.
Proof.
  intros Hs. unfold LoadSnapshotFile. cbn [negb]. rewrite (Unmarshal_MarshalIndent _ (Forall snapshotEntry_wire)); [done| |done].
  eapply (lawful_le _ 4); [apply nesting_room; lia|]. apply engineSnapshot_lawful.
Qed.

Context `{!Codecs, !GoMath, !RangeOrder}.

(** What the fields of the entries are in the program: keys that are text, and
    unsigned 64-bit counters. *)
Definition entry_typed (ent : entry) : Prop :=
  key_utf8 (e_key ent) /\ is_u64 (e_version ent) /\ is_u64 (e_namespaceVersion ent) /\ is_u64 (e_spaceVersion ent) /\
  is_u64 (e_accessCount ent).

Definition entry_fits (ent : entry) : Prop :=
  fits_zone (e_expireAt ent) /\ fits_zone (e_createdAt ent) /\ fits_zone (e_updatedAt ent) /\ fits_zone (e_lastAccessAt ent).

Record persistable (e : MemoryEngine) : Prop := {
  ps_inv : engine_inv e;
  ps_open : me_closed e = false;
  ps_versions : engine_versions_set e;
  ps_objects : engine_objects e < 2 ^ 64;
  ps_cost : engine_cost e < 2 ^ 64;
  ps_typed : forall p ent, engine_entry e p = Some ent -> entry_typed ent
}.

(** [file] holds the entries of [e]: whatever engine is started, restoring the file
    gives it those. *)
Definition file_holds (path : string) (file : option (list byte)) (contents : string -> option entry) : Prop :=
  forall n, exists e1, RestoreEngineSnapshot zone path true file (NewMemory n) = (e1, None) /\ engine_inv e1 /\
    forall p, engine_entry e1 p = contents p.

Lemma marshals_fit x : entryMarshals zone x = true <->
  fits_zone (se_expireAt x) /\ fits_zone (se_createdAt x) /\ fits_zone (se_updatedAt x) /\ fits_zone (se_lastAccessAt x).
Proof. unfold entryMarshals, fits_zone. cbn [forallb]. rewrite !andb_true_iff. tauto. Qed.

(** A save replaces the file by one that holds the engine, or leaves it. *)
Lemma save_holds path fate e file : TrimSpace path <> "" -> persistable e ->
  exists file' err, SaveEngineSnapshot zone path fate e file = (e, file', err) /\
    (err = None -> file_holds path file' (engine_entry e)) /\ (err <> None -> file' = file) /\
    (fate = FileWritten -> (forall p ent, engine_entry e p = Some ent -> entry_fits ent) -> err = None).
Proof.
  intros Hpath [Hi Hc Hv Ho Hm Ht]. destruct (engine_snapshot_restores e Hi Hc Hv Ho Hm) as (snapshot & Hs & Hfrom & Hr).
  unfold SaveEngineSnapshot. rewrite bool_decide_eq_false_2, Hs by done. unfold SaveSnapshotFile.
  assert ((forall p ent, engine_entry e p = Some ent -> entry_fits ent) -> forallb (entryMarshals zone) snapshot = true) as Hall.
  { intros Hfit. apply forallb_forall. intros x Hx%list_elem_of_In. rewrite Forall_forall in Hfrom.
    destruct (Hfrom x Hx) as (ent & He & ->). apply marshals_fit. by apply (Hfit _ ent He). }
  destruct (forallb (entryMarshals zone) snapshot) eqn:Ef; cbn [negb].
  - destruct fate; try (eexists _, _; split; [reflexivity|]; split_and!; done).
    eexists _, _. split; [reflexivity|]. split_and!; [|done|done]. intros _ n.
    destruct (Hr (NewMemory n) (NewMemory_inv n) eq_refl) as (e1 & Er & Hi1 & He1). exists e1.
    unfold RestoreEngineSnapshot. rewrite bool_decide_eq_false_2, snapshot_loads, Er by
      (done || (apply Forall_forall; intros x Hx; rewrite Forall_forall in Hfrom; rewrite forallb_forall in Ef;
        pose proof (proj1 (marshals_fit x) (Ef x (proj1 (list_elem_of_In _ _) Hx))) as Hfx;
        destruct (Hfrom x Hx) as (ent & He & ->); destruct (Ht _ ent He) as (? & ? & ? & ? & ?);
        unfold snapshotEntry_wire; tauto)).
    done.
  - eexists _, _. split; [reflexivity|]. split_and!; [done|done|]. intros _ Hfit. by specialize (Hall Hfit).
Qed.

Lemma NewMemory_nothing n p : engine_entry (NewMemory n) p = None.
Proof.
  unfold engine_entry. destruct (me_shards (NewMemory n) !! _) as [s|] eqn:Hs; [|done].
  unfold NewMemory in Hs. cbn [me_shards] in Hs. apply list_lookup_fmap_Some in Hs as (i & -> & _). apply lookup_empty.
Qed.

(** ** The life of a node

    The node works, which may change its engine in any way, saves, at a tick or when
    it stops, and starts again from the file. *)
Record nodeLife := mkLife {
  nl_engine : MemoryEngine;
  nl_file : option (list byte);
  nl_saved : option MemoryEngine
}.

Inductive life_step (path : string) : nodeLife -> nodeLife -> Prop :=
| life_work e e' file saved : life_step path (mkLife e file saved) (mkLife e' file saved)
| life_save e file saved fate e' file' err :
    persistable e -> SaveEngineSnapshot zone path fate e file = (e', file', err) ->
    life_step path (mkLife e file saved) (mkLife e' file' (match err with None => Some e | Some _ => saved end))
| life_start e file saved n e' :
    RestoreEngineSnapshot zone path true file (NewMemory n) = (e', None) ->
    life_step path (mkLife e file saved) (mkLife e' file saved).

Definition saved_contents (l : nodeLife) (p : string) : option entry :=
  match nl_saved l with Some e => engine_entry e p | None => None end.

Lemma life_holds path l l' : TrimSpace path <> "" -> life_step path l l' ->
  file_holds path (nl_file l) (saved_contents l) -> file_holds path (nl_file l') (saved_contents l').
Proof.
  intros Hpath [e e' file saved|e file saved fate e' file' err Hp Hs|e file saved n e' Hr] Hf; [done| |done].
  destruct (save_holds path fate e file Hpath Hp) as (file'' & err'' & Es & Hok & Hkeep & _).
  rewrite Es in Hs. injection Hs as <- <- <-. destruct err'' as [err|].
  - cbn [nl_file]. by rewrite Hkeep.
  - by apply Hok.
Qed.

(** C7: a node comes back with what it last saved: after any history of work, saves that
    succeed or fail at any point of the write, and restarts, starting an engine with
    any number of shards from the file gives it exactly the entries of the engine at
    the last save that succeeded, or none when there was no such save; and a save
    succeeds when the disk takes it and the times of the entries are within the years
    0 to 9999.  The engines that are saved are [persistable]: open, in their invariant,
    with keys in UTF-8 (JSON replaces other bytes), versions that are set and totals
    below 2^64. *)
Theorem restart_restores_last_save path l n : TrimSpace path <> "" ->
  rtc (life_step path) (mkLife (NewMemory n) None None) l ->
  (forall m, exists e1, RestoreEngineSnapshot zone path true (nl_file l) (NewMemory m) = (e1, None) /\ engine_inv e1 /\
     forall p, engine_entry e1 p = saved_contents l p) /\
  (forall e, persistable e -> (forall p ent, engine_entry e p = Some ent -> entry_fits ent) ->
     exists file, SaveEngineSnapshot zone path FileWritten e (nl_file l) = (e, file, None)).
Proof.
  intros Hpath Hsteps. split.
  - assert (file_holds path (nl_file (mkLife (NewMemory n) None None)) (saved_contents (mkLife (NewMemory n) None None))) as Hf.
    { intros m. exists (NewMemory m). unfold RestoreEngineSnapshot. rewrite bool_decide_eq_false_2 by done.
      split_and!; [done|apply NewMemory_inv|apply NewMemory_nothing]. }
    revert Hf. induction Hsteps as [l|l1 l2 l3 Hs _ IH]; intros Hf; [exact Hf|]. by eapply IH, life_holds.
  - intros e Hp Hfit. destruct (save_holds path FileWritten e (nl_file l) Hpath Hp) as (file & err & Es & _ & _ & Hn).
    exists file. by rewrite Es, Hn.
Qed.

End Laws.

(** ** Examples *)

#[local] Existing Instance sample_codecs.
#[local] Existing Instance sample_math.
#[local] Existing Instance canonical_order.

#[global] Instance entry_typed_dec ent : Decision (entry_typed ent).
Proof. unfold entry_typed, key_utf8, utf8. apply _. Defined.

#[global] Instance entry_fits_dec zone ent : Decision (entry_fits zone ent).
Proof. unfold entry_fits, fits_zone. apply _. Defined.

Definition entries_check (P : entry -> Prop) `{!forall ent, Decision (P ent)} (e : MemoryEngine) : bool :=
  forallb (fun s => forallb (fun kv => bool_decide (P kv.2)) (map_to_list (sw_entries s))) (me_shards e).

Lemma entries_checked (P : entry -> Prop) `{!forall ent, Decision (P ent)} e : entries_check P e = true ->
  forall p ent, engine_entry e p = Some ent -> P ent.
Proof.
  unfold entries_check. intros Hf p ent He. unfold engine_entry in He.
  destruct (me_shards e !! _) as [s|] eqn:Hs; [|done].
  rewrite forallb_forall in Hf. apply list_elem_of_lookup_2, list_elem_of_In in Hs.
  specialize (Hf s Hs). rewrite forallb_forall in Hf.
  apply elem_of_map_to_list, list_elem_of_In in He. specialize (Hf (p, ent) He).
  by apply bool_decide_eq_true in Hf.
Qed.

Lemma engine1_persistable : persistable engine1.
Proof.
  split; [apply engine1_inv|done|apply versions_checked; vm_compute; reflexivity|vm_compute; reflexivity|
    vm_compute; reflexivity|]. apply (entries_checked entry_typed). vm_compute. reflexivity.
Qed.

Lemma engine2_persistable : persistable engine2.
Proof.
  split; [apply engine2_inv|done|apply engine2_versions|vm_compute; reflexivity|vm_compute; reflexivity|].
  apply (entries_checked entry_typed). vm_compute. reflexivity.
Qed.

Definition nodePath : string := "data/node.json".
Definition eastern (t : Time) : Z := if IsZero t then 0 else -300.

(** The node saves one entry, sets another one, and the next save fails in the rename. *)
Definition savedFile : option (list byte) := (SaveEngineSnapshot eastern nodePath FileWritten engine1 None).1.2.
Definition sampleLife : nodeLife := mkLife engine2 savedFile (Some engine1).

Lemma sampleLife_run : rtc (life_step eastern nodePath) (mkLife (NewMemory 2) None None) sampleLife.
Proof.
  eapply rtc_l; [apply (life_work _ _ _ engine1)|].
  eapply rtc_l; [apply (life_save _ _ _ _ _ FileWritten engine1 savedFile None); [apply engine1_persistable|vm_compute; reflexivity]|].
  eapply rtc_l; [apply (life_work _ _ _ engine2)|].
  eapply rtc_l; [apply (life_save _ _ engine2 savedFile (Some engine1) RenameFails engine2 savedFile
    (Some (PersistFile (FileFailed RenameFails)))); [apply engine2_persistable|vm_compute; reflexivity]|].
  apply rtc_refl.
Qed.

Lemma restart_restores_last_save_witness :
  (exists e1, RestoreEngineSnapshot eastern nodePath true savedFile (NewMemory 3) = (e1, None) /\
     forall p, engine_entry e1 p = engine_entry engine1 p) /\
  exists file, SaveEngineSnapshot eastern nodePath FileWritten engine2 savedFile = (engine2, file, None).
Proof.
  destruct (restart_restores_last_save eastern nodePath sampleLife 2) as [H1 H2]; [vm_compute; discriminate|exact sampleLife_run|].
  split.
  - destruct (H1 3) as (e1 & Hr & _ & He). exists e1. exact (conj Hr He).
  - apply (H2 engine2 engine2_persistable). apply (entries_checked (entry_fits eastern)). vm_compute. reflexivity.
Defined.

(** Keys whose bytes are not UTF-8, as a Redis client may send them. *)
Definition binaryKey (b : byte) : Key := mkKey "shop" "cart" "" (bytes_str [b]).
Definition binaryEngine : MemoryEngine :=
  let e := (execute LiveContext (NewMemory 2) (setCommand (binaryKey Byte.xff) (str_bytes "apples") plain 100)).1 in
  (execute LiveContext e (setCommand (binaryKey Byte.xfe) (str_bytes "pears") plain 200)).1.

Definition restarted : MemoryEngine :=
  let '(_, file, _) := SaveEngineSnapshot eastern nodePath FileWritten binaryEngine None in
  (RestoreEngineSnapshot eastern nodePath true file (NewMemory 2)).1.

(** encoding/json replaces bytes that are not UTF-8, so keys with such bytes come back
    under another name after a restart, and keys that differ only there as one: of two
    entries that are saved without error one is left, under neither key. *)
Theorem binary_keys_are_lost :
  (SaveEngineSnapshot eastern nodePath FileWritten binaryEngine None).2 = None /\
  is_Some (engine_entry binaryEngine (physicalKey (binaryKey Byte.xff))) /\
  is_Some (engine_entry binaryEngine (physicalKey (binaryKey Byte.xfe))) /\
  engine_entry restarted (physicalKey (binaryKey Byte.xff)) = None /\
  engine_entry restarted (physicalKey (binaryKey Byte.xfe)) = None /\
  lsum (fun s => Z.of_nat (size (sw_entries s))) (me_shards restarted) = 1.
Proof. vm_compute. split_and!; first [reflexivity|by eexists]. Qed.
