(* ===== verification/EngineTable.v ===== *)
(** * The table of an engine

    The shards of a well-formed engine are disjoint, so the engine is one finite
    map from physical keys to entries, and sums over its shards are sums over
    that map.  The engine's operations are restated on the table, in the form the
    service's contract asks for. *)

From S2P Require Import Prelude.
From S2P Require Import Binary.
From S2P Require Import GoStrings.
From S2P Require Import Routing.
From S2P Require Import EngineTypes.
From S2P Require Import Shard.
From S2P Require Import ShardInv.
From S2P Require Import ShardOps.
From S2P Require Import Primitives.
From S2P Require Import Worker.
From S2P Require Import KvSpec.
From S2P Require Import MemoryEngine.
From S2P Require Import EngineSpec.

Local Open Scope Z_scope.
Local Open Scope nespa_scope.

Definition table_of (l : list shardWorker) : gmap string entry :=
  foldr (fun s m => sw_entries s ∪ m) ∅ l.

Definition engine_table (e : MemoryEngine) : gmap string entry := table_of (me_shards e).

Section Table.
  Context (e : MemoryEngine).
  Hypothesis Hi : engine_inv e.

Lemma table_suffix before l : me_shards e = before ++ l ->
  (forall p ent, table_of l !! p = Some ent ->
     (length before <= shardFor e p)%nat /\
     exists s, me_shards e !! shardFor e p = Some s /\ sw_entries s !! p = Some ent) /\
  (forall f, lsum (fun s => msum f (sw_entries s)) l = msum f (table_of l)).
Proof.
  revert before. induction l as [|s l IH]; intros before E.
  { split; [intros p ent; cbn; by rewrite lookup_empty|done]. }
  destruct (IH (before ++ [s])) as [Hl Hs]; [by rewrite <- app_assoc|].
  rewrite length_app in Hl. cbn [length] in Hl.
  assert (me_shards e !! length before = Some s) as Hat by (by rewrite E, lookup_app_r, Nat.sub_diag).
  cbn [table_of foldr]. fold (table_of l). split.
  - intros p ent [Hp|[_ Hp]]%lookup_union_Some_raw.
    + pose proof (ei_placed e Hi _ s p ent Hat Hp) as Hf. rewrite Hf. eauto.
    + destruct (Hl p ent Hp) as [Hle Hex]. split; [lia|done].
  - intros f. rewrite lsum_cons, Hs, msum_union; [done|].
    apply map_disjoint_spec. intros p x y Hx Hy. destruct (Hl p y Hy) as [Hle _].
    pose proof (ei_placed e Hi _ s p x Hat Hx). lia.
Qed.

Lemma table_of_elem l s p ent : s ∈ l -> sw_entries s !! p = Some ent -> is_Some (table_of l !! p).
Proof.
  induction l as [|t l IH]; [by intros ?%elem_of_nil|]. intros [<-|Hs]%elem_of_cons Hp; cbn.
  - exists ent. by apply lookup_union_Some_l.
  - destruct (IH Hs Hp) as [x Hx]. fold (table_of l). apply lookup_union_is_Some. right. eauto.
Qed.

Lemma engine_table_lookup p : engine_table e !! p = engine_entry e p.
Proof.
  destruct (table_suffix [] (me_shards e) eq_refl) as [Hl _]. unfold engine_entry, engine_table.
  destruct (table_of (me_shards e) !! p) as [ent|] eqn:Ht.
  - destruct (Hl p ent Ht) as (_ & s & Hs & Hp). by rewrite Hs.
  - destruct (me_shards e !! shardFor e p) as [s|] eqn:Hs; [|done].
    destruct (sw_entries s !! p) as [ent|] eqn:Hp; [|done].
    destruct (table_of_elem (me_shards e) s p ent) as [x Hx]; [by eapply list_elem_of_lookup_2|done|congruence].
Qed.

Lemma engine_table_sum f : lsum (fun s => msum f (sw_entries s)) (me_shards e) = msum f (engine_table e).
Proof. by apply (table_suffix []). Qed.

Lemma engine_cost_table : engine_cost e = total_cost (engine_table e).
Proof. apply engine_table_sum. Qed.

Lemma space_bytes_table k : space_bytes e k = space_cost k (engine_table e).
Proof. apply engine_table_sum. Qed.

Lemma space_objects_table k : space_objects e k = space_count k (engine_table e).
Proof. apply engine_table_sum. Qed.

Lemma engine_objects_table : engine_objects e = Z.of_nat (size (engine_table e)).
Proof.
  rewrite <- msum_const_size, <- engine_table_sum. unfold engine_objects.
  clear Hi. induction (me_shards e) as [|s l IH]; [done|]. rewrite !lsum_cons, msum_const_size, IH. done.
Qed.

Lemma engine_table_ok : entries_ok (engine_table e).
Proof.
  intros p ent Hp. rewrite engine_table_lookup in Hp. unfold engine_entry in Hp.
  destruct (me_shards e !! _) as [s|] eqn:Hs; [|done]. exact (inv_entries s (ei_shard e Hi _ s Hs) p ent Hp).
Qed.
End Table.

Lemma engine_table_ext e e' : engine_inv e -> engine_inv e' ->
  (forall p, engine_entry e p = engine_entry e' p) -> engine_table e = engine_table e'.
Proof.
  intros Hi Hi' E. apply map_eq. intros p. by rewrite (engine_table_lookup e Hi), (engine_table_lookup e' Hi').
Qed.

(** ** Operations on the table *)

Section Operations.
  Context `{!Codecs, !GoMath, !RangeOrder}.

Lemma partial_alter_same (m : gmap string entry) p x : m !! p = x -> partial_alter (fun _ => x) p m = m.
Proof. intros <-. apply partial_alter_self. Qed.

Lemma execute_table e cmd s : engine_inv e -> me_closed e = false -> keyed cmd ->
  engine_inv (execute LiveContext e cmd).1 ->
  me_shards e !! shardFor e (c_physical cmd) = Some s ->
  engine_table (execute LiveContext e cmd).1
  = partial_alter (fun _ => sw_entries (apply 0 s cmd).1 !! c_physical cmd) (c_physical cmd) (engine_table e).
Proof.
  intros Hi Hc Hk Hi' Hs. apply map_eq. intros p.
  rewrite (engine_table_lookup _ Hi'), (execute_entry e cmd s p Hc Hs).
  destruct (decide (p = c_physical cmd)) as [->|Hne].
  - by rewrite decide_True, lookup_partial_alter_eq.
  - rewrite lookup_partial_alter_ne, (engine_table_lookup _ Hi) by done.
    case_decide as E; [|done]. rewrite Hk by done. unfold engine_entry. by rewrite E, Hs.
Qed.

Lemma keyed_contract cmd op : op_of cmd = Some op -> op_typed op -> keyed cmd.
Proof. intros Ho Ht s q Hq. by apply (apply_refines_at 0 s cmd op Ho Ht). Qed.

(** An expected version is 0 or the version of the stored entry. *)
Definition expected_ok (expected : Z) (old : option entry) : Prop :=
  expected <= 0 \/ exists ent, old = Some ent /\ e_version ent = expected.

(** A set leaves the shard alone, or stores an entry of the key with its cost. *)
Lemma applySet_outcome s cmd : shard_inv s -> cmd_ok cmd ->
  applySet s cmd = (s, zeroResult) \/
  exists t ent, applySet s cmd = (t, resRecord (record ent)) /\
    sw_entries t = <[c_physical cmd := ent]> (sw_entries s) /\
    e_key ent = c_key cmd /\ e_costBytes ent = costOf (c_key cmd) (c_value cmd) /\
    expected_ok (so_expectedVersion (c_setOpts cmd)) (sw_entries s !! c_physical cmd).
Proof.
  intros Hi Hcmd. unfold applySet. case_bool; [by left|right].
  assert (expected_ok (so_expectedVersion (c_setOpts cmd)) (sw_entries s !! c_physical cmd)) as Hx.
  { bool_to_prop. unfold expected_ok. case_bool; bool_to_prop; [right|by left].
    destruct (sw_entries s !! c_physical cmd) as [old|]; [|done]. bool_to_prop. eauto. }
  destruct (sw_entries s !! c_physical cmd) as [old|] eqn:He; cbn [replaceEntry].
  - eexists _, _. split; [reflexivity|]. cbn [storeEntry set_entries sw_entries e_key e_costBytes].
    rewrite replaceEntryCost_entries. pose proof (found_key s cmd old (inv_entries s Hi) Hcmd He). done.
  - eexists _, _. split; [reflexivity|]. done.
Qed.

Lemma fits_insert m p ent : entries_ok m -> 0 <= e_costBytes ent ->
  Z.of_nat (size m) + 1 < 2 ^ 64 -> total_cost m + e_costBytes ent < 2 ^ 64 -> fits (<[p := ent]> m).
Proof.
  intros Hm Hn Hs Hc. unfold fits. rewrite map_size_insert.
  destruct (m !! p) as [old|] eqn:Hp; unfold id.
  - destruct (sums_replace (spaceKeyOf (e_key old)) m p old ent Hp) as (-> & _).
    pose proof (cost_nonneg m p old Hm Hp). split; lia.
  - destruct (sums_insert (spaceKeyOf (e_key ent)) m p ent Hp) as (-> & _). split; lia.
Qed.

(** A set on the table. *)
Lemma Set_table e key value opts now : engine_inv e -> me_closed e = false -> key_ok key ->
  engine_objects e + 1 < 2 ^ 64 -> engine_cost e + costOf key value < 2 ^ 64 ->
  exists e' r found, Set' LiveContext e key value opts now = (e', (r, found, None)) /\
    engine_inv e' /\ me_closed e' = false /\
    if found then exists ent, e_key ent = key /\ e_costBytes ent = costOf key value /\
      expected_ok (so_expectedVersion opts) (engine_table e !! physicalKey key) /\
      engine_table e' = <[physicalKey key := ent]> (engine_table e)
    else engine_table e' = engine_table e.
Proof.
  intros Hi Hc [Hv Hk] Hobj Hcost. unfold Set'. rewrite Hv.
  set (cmd := setCommand key value opts now).
  destruct (shardFor_lookup e (c_physical cmd) (ei_shards e Hi)) as [s Hs].
  assert (cmd_ok cmd) as Hcmd by (by split).
  pose proof (ei_shard e Hi _ s Hs) as His.
  assert (keyed cmd) as Hkeyed by (by eapply keyed_contract).
  destruct (shard_sizes_le e _ s Hi Hs) as [Hsz Hct].
  pose proof (applySet_outcome s cmd His Hcmd) as Hout.
  pose proof (costOf_nonneg key value) as Hcn.
  assert (cmd_admissible s cmd) as Hadm.
  { split; [done|]. change (apply 0 s cmd) with (applySet s cmd).
    destruct Hout as [->|(t & ent & -> & Ht & _ & Hce & _)]; [apply (inv_fits s His)|]. cbn [fst]. rewrite Ht.
    change (costOf (c_key cmd) (c_value cmd)) with (costOf key value) in Hce.
    apply fits_insert; [apply (inv_entries s His)|lia..]. }
  assert (engine_inv (execute LiveContext e cmd).1) as Hi'.
  { apply execute_inv; [done|done|]. intros t Ht. by simplify_eq. }
  pose proof (execute_table e cmd s Hi Hc Hkeyed Hi' Hs) as Htab.
  revert Hi' Htab. unfold execute. rewrite (executeOn_open e _ s cmd Hc Hs). cbn [fst recordReply].
  change (apply 0 s cmd) with (applySet s cmd). set (e' := mkEngine false _). intros Hi' Htab.
  destruct Hout as [Eo|(t & ent & Eo & Ht & Hke & Hce & Hx)]; rewrite Eo in Htab |- *; cbn [snd fst] in Htab |- *.
  - eexists e', _, false. split_and!; [reflexivity|exact Hi'|done|]. rewrite Htab. apply partial_alter_same.
    rewrite (engine_table_lookup e Hi). unfold engine_entry. by rewrite Hs.
  - eexists e', _, true. split_and!; [reflexivity|exact Hi'|done|]. exists ent. split_and!; [done|done| |].
    + rewrite (engine_table_lookup e Hi). unfold engine_entry. change (physicalKey key) with (c_physical cmd). by rewrite Hs.
    + rewrite Htab, Ht, lookup_insert_eq. reflexivity.
Qed.

(** A get without version filters on the table. *)
Lemma Get_table e key now : engine_inv e -> me_closed e = false -> key_ok key ->
  exists e' r found, Get LiveContext e key (mkGetOptions 0 0) now = (e', (r, found, None)) /\
    engine_inv e' /\ me_closed e' = false /\
    if found then exists ent, e_key ent = key /\ e_costBytes ent = r_costBytes r /\ e_version ent = r_version r /\
        (exists old, engine_table e !! physicalKey key = Some old /\ e_key old = key /\
           e_costBytes old = r_costBytes r) /\
        engine_table e' = <[physicalKey key := ent]> (engine_table e)
    else r = zeroRecord /\ engine_table e' = delete (physicalKey key) (engine_table e).
Proof.
  intros Hi Hc [Hv Hk]. unfold Get. rewrite Hv. set (cmd := getCommand key (mkGetOptions 0 0) now).
  destruct (shardFor_lookup e (c_physical cmd) (ei_shards e Hi)) as [s Hs].
  pose proof (ei_shard e Hi _ s Hs) as His.
  assert (keyed cmd) as Hkeyed by (by eapply keyed_contract).
  assert (engine_inv (execute LiveContext e cmd).1) as Hi' by (by apply execute_inv).
  pose proof (execute_table e cmd s Hi Hc Hkeyed Hi' Hs) as Htab.
  assert (engine_table e !! physicalKey key = sw_entries s !! physicalKey key) as Hlook.
  { rewrite (engine_table_lookup e Hi). unfold engine_entry. change (physicalKey key) with (c_physical cmd). by rewrite Hs. }
  revert Hi' Htab. unfold execute. rewrite (executeOn_open e _ s cmd Hc Hs). cbn [fst recordReply].
  change (apply 0 s cmd) with (applyGet s cmd). change (c_physical cmd) with (physicalKey key).
  set (e' := mkEngine false _). intros Hi' Htab.
  assert (me_closed e' = false) as Hc' by done. clearbody e'. clear Hkeyed.
  unfold applyGet in Htab |- *. cbn [sw_entries set_gets] in Htab |- *. change (c_physical cmd) with (physicalKey key) in *.
  destruct (sw_entries s !! physicalKey key) as [ent|] eqn:He.
  - assert (e_key ent = key) as Hke.
    { destruct (inv_entries s His _ _ He) as (Ep & [_ Ht] & _). by apply physicalKey_inj. }
    destruct (expired ent (c_now cmd)).
    + eexists e', _, false. split_and!; [reflexivity|done|done|done|].
      rewrite Htab. cbn [fst]. cbn [sw_entries set_getMisses set_getExpired]. rewrite deleteEntry_entries, lookup_delete_eq.
      reflexivity.
    + assert (visible ent (c_getOpts cmd) = true) as Hvis by done. rewrite Hvis in Htab |- *. cbn [negb] in Htab |- *.
      eexists e', _, true. split_and!; [reflexivity|done|done|].
      exists (touchAccess ent (c_now cmd)). split_and!; [done|done|done|by exists ent|].
      rewrite Htab. cbn [fst set_getHits storeEntry set_entries sw_entries]. by rewrite lookup_insert_eq.
  - eexists e', _, false. split_and!; [reflexivity|done|done|done|].
    rewrite Htab. cbn [fst set_getMisses set_gets sw_entries]. rewrite He. reflexivity.
Qed.
(** The statistics list the spaces of the table. *)
Definition lists_spaces (st : Stats) (m : gmap string entry) : Prop :=
  (forall sp, sp ∈ st_spaces st <->
     let k := mkSpaceKey (sps_namespace sp) (sps_space sp) in
     sps_objects sp = space_count k m /\ sps_memoryBytes sp = space_cost k m /\ space_count k m <> 0) /\
  NoDup ((fun sp => (sps_namespace sp, sps_space sp)) <$> st_spaces st).

Lemma Stats_table e : engine_inv e -> me_closed e = false -> fits (engine_table e) ->
  exists st, EngineStats LiveContext e = (e, Ok st) /\ lists_spaces st (engine_table e).
Proof.
  intros Hi Hc [Ho Hm].
  destruct (Stats_run e Hi Hc) as (st & Hrun & _ & _ & Hsp & Hnd);
    [by rewrite engine_objects_table|by rewrite engine_cost_table|].
  exists st. split; [done|]. split; [|done]. intros sp. rewrite Hsp. cbn zeta.
  by rewrite space_objects_table, space_bytes_table.
Qed.

(** An eviction on the table. *)
Lemma Evict_table e opts now : engine_inv e -> me_closed e = false -> key_typed (eo_exclude opts) ->
  0 < eo_targetBytes opts < 2 ^ 64 -> eo_namespace opts <> "" -> eo_space opts <> "" -> fits (engine_table e) ->
  exists e' r, Evict LiveContext e opts now = (e', (r, None)) /\ engine_inv e' /\ me_closed e' = false /\
    engine_table e' ⊆ engine_table e /\
    er_freedBytes r = total_cost (engine_table e) - total_cost (engine_table e') /\
    forall p ent, engine_table e !! p = Some ent -> engine_table e' !! p = None -> evictable opts ent = true.
Proof.
  intros Hi Hc Hx Ht Hn Hs [_ Hm].
  destruct (Evict_run e opts now Hi Hc Hx Ht Hn Hs) as (e' & r & Hrun & Hi' & Hc' & Hf & Hsub & Hrem & _);
    [by rewrite engine_cost_table|].
  exists e', r. split_and!; [done|done|done| |by rewrite <- !engine_cost_table|].
  - apply map_subseteq_spec. intros p ent. rewrite !engine_table_lookup by done. apply Hsub.
  - intros p ent. rewrite !engine_table_lookup by done. apply Hrem.
Qed.
End Operations.
