(* ===== verification/Service.v ===== *)
(** * The cache service (cache: service.go, quota.go, ops.go, batch.go, migration.go,
    primitive_service.go, transaction.go)

    The service wraps an engine with admission control.  Its lock makes each call
    atomic, so a call is a function of the service state; the engine is the class
    [Engine], the interface of cache/engine/engine.go.

    [clock i] is the i-th reading of the engine's clock during the call. *)

From S2P Require Import Prelude.
From S2P Require Import Binary.
From S2P Require Import GoStrings.
From S2P Require Import Routing.
From S2P Require Import EngineTypes.
From S2P Require Import Shard.
From S2P Require Import Primitives.
From S2P Require Import MemoryEngine.

Local Open Scope Z_scope.
Local Open Scope nespa_scope.

(** ** The engine interface *)

(** src: cache/engine/engine.go Engine *)
Class Engine (E : Type) := {
  eng_Set : E -> Key -> list byte -> SetOptions -> Time -> E * (CacheRecord * bool * option engineError);
  eng_Get : E -> Key -> GetOptions -> Time -> E * (CacheRecord * bool * option engineError);
  eng_Delete : E -> Key -> DeleteOptions -> E * (bool * bool * option engineError);
  eng_Exists : E -> Key -> GetOptions -> Time -> E * (bool * option engineError);
  eng_Touch : E -> Key -> TouchOptions -> Time -> E * (bool * option engineError);
  eng_Adjust : E -> Key -> AdjustOptions -> Time -> E * (CacheRecord * bool * option engineError);
  eng_EstimateAdjust : E -> Key -> AdjustOptions -> Time -> E * (WriteEstimate * option engineError);
  eng_Primitive : E -> PrimitiveRequest -> Time -> E * (PrimitiveResult * option engineError);
  eng_EstimatePrimitive : E -> PrimitiveRequest -> Time -> E * (WriteEstimate * option engineError);
  eng_Stats : E -> E * result engineError Stats;
  eng_Evict : E -> EvictOptions -> Time -> E * (EvictResult * option engineError);
  eng_Export : E -> RangeOptions -> Time -> E * result engineError (list SnapshotEntry);
  eng_Import : E -> list SnapshotEntry -> E * (ImportResult * option engineError);
  eng_DeleteRange : E -> RangeOptions -> E * (DeleteRangeResult * option engineError)
}.

(** The in-memory engine, called with a live context. *)
#[export] Instance memory_engine `{!Codecs, !GoMath, !RangeOrder} : Engine MemoryEngine := {|
  eng_Set := Set' LiveContext;
  eng_Get := Get LiveContext;
  eng_Delete := Delete LiveContext;
  eng_Exists := Exists LiveContext;
  eng_Touch := Touch LiveContext;
  eng_Adjust := Adjust LiveContext;
  eng_EstimateAdjust := EstimateAdjust LiveContext;
  eng_Primitive := Primitive LiveContext;
  eng_EstimatePrimitive := EstimatePrimitive LiveContext;
  eng_Stats := EngineStats LiveContext;
  eng_Evict := Evict LiveContext;
  eng_Export := Export' LiveContext;
  eng_Import := Import' LiveContext;
  eng_DeleteRange := DeleteRange LiveContext
|}.

(** ** State *)

(** src: cache/service.go ErrQuotaExceeded 25-25 *)
Inductive serviceError :=
| EngineFailed (e : engineError)
| ErrQuotaExceeded
| ErrNestedTransactionUnsupported.

(** The keys of [Spaces] are [SpaceRef]s, which are space keys.
    src: cache/service.go QuotaConfig 27-45 *)
Record QuotaConfig := mkQuota {
  q_defaultNamespace : Z;
  q_defaultSpace : Z;
  q_namespaces : gmap string Z;
  q_spaces : gmap spaceKey Z
}.

(** src: cache/service.go SetResult *)
Record SetResult := mkSetResult { sr_record : CacheRecord; sr_found : bool }.

(** src: cache/service.go GetResult *)
Record GetResult := mkGetResult { gr_record : CacheRecord; gr_found : bool }.

(** src: cache/service.go DeleteResult *)
Record DeleteResult := mkDeleteResult { dl_deleted : bool; dl_found : bool }.

(** src: cache/service.go SetRequest *)
Record SetRequest := mkSetRequest { sq_key : Key; sq_value : list byte; sq_options : SetOptions }.

(** src: cache/service.go GetRequest *)
Record GetRequest := mkGetRequest { gq_key : Key; gq_options : GetOptions }.

(** src: cache/service.go TouchRequest *)
Record TouchRequest := mkTouchRequest { tq_key : Key; tq_options : TouchOptions }.

(** src: cache/batch_types.go DeleteRequest *)
Record DeleteRequest := mkDeleteRequest { dq_key : Key; dq_expectedVersion : Z }.

(** src: cache/service.go EvictRequest *)
Record EvictRequest := mkEvictRequest {
  eq_namespace : string;
  eq_space : string;
  eq_targetBytes : Z;
  eq_exclude : Key
}.

Section Service.
  Context {E : Type} `{!Engine E}.

(** src: cache/service.go EngineService *)
Record EngineService := mkService { svc_engine : E; svc_quota : QuotaConfig }.

Definition withEngine (e : E) (s : EngineService) : EngineService := mkService e (svc_quota s).

(** [if err != nil { return ..., wrapped }]. *)
Definition onEngine {A B} (s : EngineService) (out : E * (A * option engineError)) (k : A -> B)
    : EngineService * result serviceError B :=
  match out with
  | (e, (a, Some err)) => (withEngine e s, Err (EngineFailed err))
  | (e, (a, None)) => (withEngine e s, Ok (k a))
  end.

(** ** quota.go *)

(** src: cache/quota.go hasQuotaLimits *)
Definition hasQuotaLimits (q : QuotaConfig) : bool :=
  (0 <? q_defaultNamespace q) || (0 <? q_defaultSpace q)
  || negb (bool_decide (q_namespaces q = ∅)) || negb (bool_decide (q_spaces q = ∅)).

(** src: cache/quota.go namespaceLimit *)
Definition namespaceLimit (q : QuotaConfig) (namespace : string) : Z :=
  match q_namespaces q !! namespace with Some limit => limit | None => q_defaultNamespace q end.

(** src: cache/quota.go spaceLimit *)
Definition spaceLimit (q : QuotaConfig) (namespace space : string) : Z :=
  match q_spaces q !! mkSpaceKey namespace space with Some limit => limit | None => q_defaultSpace q end.

(** The loop of [usageFor].
    src: cache/quota.go usageFor *)
Definition usageFor (stats : Stats) (namespace space : string) : Z * Z :=
  foldl (fun '(ns, sp) item =>
    if negb (bool_decide (sps_namespace item = namespace)) then (ns, sp)
    else
      let ns := ns +% sps_memoryBytes item in
      if bool_decide (sps_space item = space) then (ns, sp +% sps_memoryBytes item) else (ns, sp))
    (0, 0) (st_spaces stats).

(** src: cache/quota.go minUint64 *)
Definition minUint64 (a b : Z) : Z := if a <? b then a else b.

(** src: cache/quota.go expectedVersionWillApply *)
Definition expectedVersionWillApply (found : bool) (version expected : Z) : bool :=
  (expected =? 0) || (found && (version =? expected)).

(** src: cache/ops.go evictLocked *)
Definition evictLocked (s : EngineService) (r : EvictRequest) (now : Time)
    : EngineService * result serviceError EvictResult :=
  onEngine s (eng_Evict (svc_engine s)
    (mkEvictOptions (eq_namespace r) (eq_space r) (eq_targetBytes r) (eq_exclude r)
       (negb (bool_decide (k_key (eq_exclude r) = ""))) zeroTime) now) (fun evicted => evicted).

(** src: cache/quota.go ensureSpaceQuota *)
Definition ensureSpaceQuota (s : EngineService) (key : Key) (nsUsage spaceUsage delta : Z) (now : Time)
    : EngineService * result serviceError (Z * Z) :=
  let limit := spaceLimit (svc_quota s) (k_namespace key) (k_space key) in
  if (limit =? 0) || (spaceUsage +% delta <=? limit) then (s, Ok (nsUsage, spaceUsage))
  else
    match evictLocked s (mkEvictRequest (k_namespace key) (k_space key)
                           (u64 (spaceUsage +% delta - limit)) key) now with
    | (s, Err err) => (s, Err err)
    | (s, Ok evicted) =>
        let spaceUsage := spaceUsage -% minUint64 spaceUsage (er_freedBytes evicted) in
        let nsUsage := nsUsage -% minUint64 nsUsage (er_freedBytes evicted) in
        if limit <? spaceUsage +% delta then (s, Err ErrQuotaExceeded)
        else (s, Ok (nsUsage, spaceUsage))
    end.

(** src: cache/quota.go ensureNamespaceQuota *)
Definition ensureNamespaceQuota (s : EngineService) (key : Key) (nsUsage delta : Z) : option serviceError :=
  let limit := namespaceLimit (svc_quota s) (k_namespace key) in
  if (0 <? limit) && (limit <? nsUsage +% delta) then Some ErrQuotaExceeded else None.

(** src: cache/quota.go admitCostGrowth *)
Definition admitCostGrowth (s : EngineService) (key : Key) (oldCost nextCost : Z) (now : Time)
    : EngineService * option serviceError :=
  if nextCost <=? oldCost then (s, None)
  else
    let delta := nextCost -% oldCost in
    match eng_Stats (svc_engine s) with
    | (e, Err err) => (withEngine e s, Some (EngineFailed err))
    | (e, Ok stats) =>
        let '(nsUsage, spaceUsage) := usageFor stats (k_namespace key) (k_space key) in
        match ensureSpaceQuota (withEngine e s) key nsUsage spaceUsage delta now with
        | (s, Err err) => (s, Some err)
        | (s, Ok (nsUsage, _)) => (s, ensureNamespaceQuota s key nsUsage delta)
        end
    end.

(** src: cache/quota.go currentRecord *)
Definition currentRecord (s : EngineService) (key : Key) (now : Time)
    : EngineService * result serviceError (CacheRecord * bool) :=
  onEngine s (eng_Get (svc_engine s) key (mkGetOptions 0 0) now) (fun r => r).

(** src: cache/quota.go admitSet *)
Definition admitSet (s : EngineService) (key : Key) (value : list byte) (opts : SetOptions) (clock : nat -> Time)
    : EngineService * option serviceError :=
  if negb (hasQuotaLimits (svc_quota s)) then (s, None)
  else
    let nextCost := EstimateCost key value in
    match currentRecord s key (clock 0%nat) with
    | (s, Err err) => (s, Some err)
    | (s, Ok (current, found)) =>
        if negb (expectedVersionWillApply found (r_version current) (so_expectedVersion opts)) then (s, None)
        else admitCostGrowth s key (r_costBytes current) nextCost (clock 1%nat)
    end.

(** src: cache/quota.go admitAdjust *)
Definition admitAdjust (s : EngineService) (key : Key) (opts : AdjustOptions) (clock : nat -> Time)
    : EngineService * option serviceError :=
  if negb (hasQuotaLimits (svc_quota s)) then (s, None)
  else
    match eng_EstimateAdjust (svc_engine s) key opts (clock 0%nat) with
    | (e, (_, Some err)) => (withEngine e s, Some (EngineFailed err))
    | (e, (estimate, None)) =>
        if negb (we_applied estimate) then (withEngine e s, None)
        else admitCostGrowth (withEngine e s) key (we_oldCostBytes estimate) (we_newCostBytes estimate)
               (clock 1%nat)
    end.

(** src: cache/quota.go admitPrimitive *)
Definition admitPrimitive (s : EngineService) (request : PrimitiveRequest) (clock : nat -> Time)
    : EngineService * option serviceError :=
  if negb (hasQuotaLimits (svc_quota s)) || negb (Mutates (pr_kind request)) then (s, None)
  else
    match eng_EstimatePrimitive (svc_engine s) request (clock 0%nat) with
    | (e, (_, Some err)) => (withEngine e s, Some (EngineFailed err))
    | (e, (estimate, None)) =>
        if negb (we_applied estimate) then (withEngine e s, None)
        else admitCostGrowth (withEngine e s) (pr_key request) (we_oldCostBytes estimate)
               (we_newCostBytes estimate) (clock 1%nat)
    end.

(** ** service.go *)

(** src: cache/service.go setLocked *)
Definition setLocked (s : EngineService) (key : Key) (value : list byte) (opts : SetOptions) (clock : nat -> Time)
    : EngineService * result serviceError SetResult :=
  match admitSet s key value opts clock with
  | (s, Some err) => (s, Err err)
  | (s, None) =>
      onEngine s (eng_Set (svc_engine s) key value opts (clock 2%nat)) (fun r => mkSetResult r.1 r.2)
  end.

(** src: cache/service.go getLocked *)
Definition getLocked (s : EngineService) (key : Key) (opts : GetOptions) (now : Time)
    : EngineService * result serviceError (CacheRecord * bool) :=
  onEngine s (eng_Get (svc_engine s) key opts now) (fun r => r).

(** src: cache/service.go deleteLocked *)
Definition deleteLocked (s : EngineService) (key : Key) (opts : DeleteOptions)
    : EngineService * result serviceError (bool * bool) :=
  onEngine s (eng_Delete (svc_engine s) key opts) (fun r => r).

(** src: cache/service.go existsLocked *)
Definition existsLocked (s : EngineService) (key : Key) (opts : GetOptions) (now : Time)
    : EngineService * result serviceError bool :=
  onEngine s (eng_Exists (svc_engine s) key opts now) (fun r => r).

(** src: cache/service.go touchLocked *)
Definition touchLocked (s : EngineService) (key : Key) (opts : TouchOptions) (now : Time)
    : EngineService * result serviceError bool :=
  onEngine s (eng_Touch (svc_engine s) key opts now) (fun r => r).

(** src: cache/service.go adjustLocked *)
Definition adjustLocked (s : EngineService) (key : Key) (opts : AdjustOptions) (clock : nat -> Time)
    : EngineService * result serviceError SetResult :=
  match admitAdjust s key opts clock with
  | (s, Some err) => (s, Err err)
  | (s, None) =>
      onEngine s (eng_Adjust (svc_engine s) key opts (clock 2%nat)) (fun r => mkSetResult r.1 r.2)
  end.

(** src: cache/primitive_service.go executePrimitive *)
Definition executePrimitive (s : EngineService) (request : PrimitiveRequest) (now : Time)
    : EngineService * result serviceError PrimitiveResult :=
  onEngine s (eng_Primitive (svc_engine s) request now) (fun r => r).

(** src: cache/primitive_service.go primitiveLocked *)
Definition primitiveLocked (s : EngineService) (request : PrimitiveRequest) (clock : nat -> Time)
    : EngineService * result serviceError PrimitiveResult :=
  match admitPrimitive s request clock with
  | (s, Some err) => (s, Err err)
  | (s, None) => executePrimitive s request (clock 2%nat)
  end.

(** src: cache/ops.go statsLocked *)
Definition statsLocked (s : EngineService) : EngineService * result serviceError Stats :=
  match eng_Stats (svc_engine s) with
  | (e, Err err) => (withEngine e s, Err (EngineFailed err))
  | (e, Ok stats) => (withEngine e s, Ok stats)
  end.

(** src: cache/migration.go exportLocked *)
Definition exportLocked (s : EngineService) (opts : RangeOptions) (now : Time)
    : EngineService * result serviceError (list SnapshotEntry) :=
  match eng_Export (svc_engine s) opts now with
  | (e, Err err) => (withEngine e s, Err (EngineFailed err))
  | (e, Ok snapshot) => (withEngine e s, Ok snapshot)
  end.

(** src: cache/migration.go importLocked *)
Definition importLocked (s : EngineService) (snapshot : list SnapshotEntry)
    : EngineService * result serviceError ImportResult :=
  onEngine s (eng_Import (svc_engine s) snapshot) (fun r => r).

(** src: cache/migration.go deleteRangeLocked *)
Definition deleteRangeLocked (s : EngineService) (opts : RangeOptions)
    : EngineService * result serviceError DeleteRangeResult :=
  onEngine s (eng_DeleteRange (svc_engine s) opts) (fun r => r).

(** ** batch.go *)

(** The loop of the batch calls: the results so far when a request fails. *)
Fixpoint batch {Req Res} (step : EngineService -> Req -> nat -> EngineService * result serviceError Res)
    (requests : list Req) (index : nat) (s : EngineService) (results : list Res)
    : EngineService * (list Res * option serviceError) :=
  match requests with
  | [] => (s, (results, None))
  | request :: rest =>
      match step s request index with
      | (s, Err err) => (s, (results, Some err))
      | (s, Ok r) => batch step rest (S index) s (results ++ [r])
      end
  end.

(** src: cache/batch.go batchSetLocked *)
Definition batchSetLocked (s : EngineService) (requests : list SetRequest) (clock : nat -> nat -> Time) :=
  batch (fun s r i => setLocked s (sq_key r) (sq_value r) (sq_options r) (clock i)) requests 0 s [].

(** src: cache/batch.go batchGetLocked *)
Definition batchGetLocked (s : EngineService) (requests : list GetRequest) (clock : nat -> Time) :=
  batch (fun s r i =>
    match getLocked s (gq_key r) (gq_options r) (clock i) with
    | (s, Err err) => (s, Err err)
    | (s, Ok (record, found)) => (s, Ok (mkGetResult record found))
    end) requests 0 s [].

(** src: cache/batch.go batchDeleteLocked *)
Definition batchDeleteLocked (s : EngineService) (requests : list DeleteRequest) :=
  batch (fun s r (_ : nat) =>
    match deleteLocked s (dq_key r) (mkDeleteOptions (dq_expectedVersion r)) with
    | (s, Err err) => (s, Err err)
    | (s, Ok (deleted, found)) => (s, Ok (mkDeleteResult (deleted && found) found))
    end) requests 0 s [].

(** src: cache/batch.go batchExistsLocked *)
Definition batchExistsLocked (s : EngineService) (requests : list GetRequest) (clock : nat -> Time) :=
  batch (fun s r i => existsLocked s (gq_key r) (gq_options r) (clock i)) requests 0 s [].

(** src: cache/batch.go batchTouchLocked *)
Definition batchTouchLocked (s : EngineService) (requests : list TouchRequest) (clock : nat -> Time) :=
  batch (fun s r i => touchLocked s (tq_key r) (tq_options r) (clock i)) requests 0 s [].

(** src: cache/batch.go batchPrimitiveLocked *)
Definition batchPrimitiveLocked (s : EngineService) (requests : list PrimitiveRequest) (clock : nat -> nat -> Time) :=
  batch (fun s r i => primitiveLocked s r (clock i)) requests 0 s [].

(** src: cache/batch.go primitiveBatchMutates *)
Definition primitiveBatchMutates (requests : list PrimitiveRequest) : bool :=
  existsb (fun r => Mutates (pr_kind r)) requests.

(** ** transaction.go *)

(** A transaction function runs on the locked service; [None] is a nil function.
    src: cache/transaction.go Transaction 14-21 *)
Definition Transaction (s : EngineService) (fn : option (EngineService -> EngineService * option serviceError))
    : EngineService * option serviceError :=
  match fn with
  | None => (s, None)
  | Some fn => fn s
  end.

(** The [Transaction] of the service a transaction function is given.
    src: cache/transaction.go Transaction 82-84 *)
Definition nestedTransaction (s : EngineService) (fn : option (EngineService -> EngineService * option serviceError))
    : EngineService * option serviceError :=
  (s, Some ErrNestedTransactionUnsupported).
End Service.

Arguments EngineService E : clear implicits.
