(* ===== verification/ServiceSpec.v ===== *)
(** * Quotas of the cache service

    The service is verified against a contract of its engine ([EngineContract]):
    a table of entries and what get, set, statistics and eviction do to it.  The
    in-memory engine fulfils the contract, so the theorems hold of it; they hold
    of any other engine that fulfils it too. *)

From S2P Require Import Prelude.
From S2P Require Import GoStrings.
From S2P Require Import Routing.
From S2P Require Import EngineTypes.
From S2P Require Import Shard.
From S2P Require Import ShardInv.
From S2P Require Import ShardOps.
From S2P Require Import Primitives.
From S2P Require Import MemoryEngine.
From S2P Require Import EngineSpec.
From S2P Require Import EngineTable.
From S2P Require Import Instances.
From S2P Require Import EngineExamples.
From S2P Require Import Service.

Local Open Scope Z_scope.
Local Open Scope nespa_scope.

(** ** The contract of an engine *)

(** There is room for one more entry of the given cost. *)
Definition has_room (cost : Z) (m : gmap string entry) : Prop :=
  Z.of_nat (size m) + 1 < 2 ^ 64 /\ total_cost m + cost < 2 ^ 64.

Class EngineContract (E : Type) `{!Engine E} := {
  eng_ok : E -> Prop;
  eng_table : E -> gmap string entry;
  eng_entries : forall e, eng_ok e -> entries_ok (eng_table e);
  eng_Get_law : forall e key now, eng_ok e -> key_ok key ->
    exists e' r found, eng_Get e key (mkGetOptions 0 0) now = (e', (r, found, None)) /\ eng_ok e' /\
    if found then exists ent, e_key ent = key /\ e_costBytes ent = r_costBytes r /\ e_version ent = r_version r /\
        (exists old, eng_table e !! physicalKey key = Some old /\ e_key old = key /\
           e_costBytes old = r_costBytes r) /\
        eng_table e' = <[physicalKey key := ent]> (eng_table e)
    else r = zeroRecord /\ eng_table e' = delete (physicalKey key) (eng_table e);
  eng_Set_law : forall e key value opts now, eng_ok e -> key_ok key -> has_room (costOf key value) (eng_table e) ->
    exists e' r found, eng_Set e key value opts now = (e', (r, found, None)) /\ eng_ok e' /\
    if found then exists ent, e_key ent = key /\ e_costBytes ent = costOf key value /\
      expected_ok (so_expectedVersion opts) (eng_table e !! physicalKey key) /\
      eng_table e' = <[physicalKey key := ent]> (eng_table e)
    else eng_table e' = eng_table e;
  eng_Stats_law : forall e, eng_ok e -> fits (eng_table e) ->
    exists st, eng_Stats e = (e, Ok st) /\ lists_spaces st (eng_table e);
  eng_Evict_law : forall e opts now, eng_ok e -> key_typed (eo_exclude opts) ->
    0 < eo_targetBytes opts < 2 ^ 64 -> eo_namespace opts <> "" -> eo_space opts <> "" -> fits (eng_table e) ->
    exists e' r, eng_Evict e opts now = (e', (r, None)) /\ eng_ok e' /\
      eng_table e' ⊆ eng_table e /\
      er_freedBytes r = total_cost (eng_table e) - total_cost (eng_table e') /\
      forall p ent, eng_table e !! p = Some ent -> eng_table e' !! p = None -> evictable opts ent = true
}.

#[export] Program Instance memory_contract `{!Codecs, !GoMath, !RangeOrder} : EngineContract MemoryEngine := {|
  eng_ok e := engine_inv e /\ me_closed e = false;
  eng_table := engine_table
|}.
Next Obligation. intros ??? e [Hi _]. by apply engine_table_ok. Qed.
Next Obligation.
  intros ??? e key now [Hi Hc] Hk. destruct (Get_table e key now Hi Hc Hk) as (e' & r & found & ? & ? & ? & ?).
  by exists e', r, found.
Qed.
Next Obligation.
  intros ??? e key value opts now [Hi Hc] Hk [Hs Hm].
  destruct (Set_table e key value opts now Hi Hc Hk) as (e' & r & found & ? & ? & ? & ?);
    [by rewrite engine_objects_table|by rewrite engine_cost_table|]. by exists e', r, found.
Qed.
Next Obligation. intros ??? e [Hi Hc]. by apply Stats_table. Qed.
Next Obligation.
  intros ??? e opts now [Hi Hc] Hx Ht Hn Hs Hf.
  destruct (Evict_table e opts now Hi Hc Hx Ht Hn Hs Hf) as (e' & r & ? & ? & ? & ?). by exists e', r.
Qed.

(** ** Costs of a class of entries *)

Definition class_cost (P : entry -> bool) (m : gmap string entry) : Z :=
  msum (fun _ e => if P e then e_costBytes e else 0) m.

Definition in_namespace (ns : string) (e : entry) : bool := bool_decide (k_namespace (e_key e) = ns).

(** The bytes of a namespace. *)
Definition namespace_cost (ns : string) (m : gmap string entry) : Z := class_cost (in_namespace ns) m.

Definition cost_at (p : string) (m : gmap string entry) : Z :=
  match m !! p with Some e => e_costBytes e | None => 0 end.

Lemma class_cost_nonneg P m : entries_ok m -> 0 <= class_cost P m.
Proof. intros Hm. apply msum_nonneg. intros p e He. case_bool; [by eapply cost_nonneg|done]. Qed.

Lemma class_cost_le P m : entries_ok m -> 0 <= class_cost P m <= total_cost m.
Proof.
  intros Hm. split; [by apply class_cost_nonneg|].
  apply msum_le. intros p e He. case_bool; [done|by eapply cost_nonneg].
Qed.

(** Replacing the entry of a key changes the costs of the classes it is in. *)
Lemma class_cost_insert P m p e :
  (forall old, m !! p = Some old -> P old = P e) ->
  class_cost P (<[p := e]> m) = class_cost P m + (if P e then e_costBytes e - cost_at p m else 0).
Proof.
  intros Hold. unfold class_cost, cost_at. destruct (m !! p) as [old|] eqn:Hp.
  - rewrite (msum_replace _ m p e old Hp), (Hold old eq_refl). case_bool; lia.
  - rewrite msum_insert_new by done. case_bool; lia.
Qed.

Lemma class_cost_delete P m p : entries_ok m -> class_cost P (delete p m) <= class_cost P m.
Proof.
  intros Hm. destruct (m !! p) as [e|] eqn:Hp.
  - unfold class_cost. rewrite (msum_delete _ m p e Hp). pose proof (cost_nonneg m p e Hm Hp). case_bool; lia.
  - by rewrite delete_id.
Qed.

(** Dropping entries lowers the cost of every class; when they are all of one
    class, by the whole difference. *)
Lemma class_cost_subseteq P m m' : entries_ok m -> m' ⊆ m ->
  class_cost P m' <= class_cost P m /\
  ((forall p e, m !! p = Some e -> m' !! p = None -> P e = true) ->
   class_cost P m - class_cost P m' = total_cost m - total_cost m').
Proof.
  intros Hm Hsub. unfold class_cost, total_cost.
  assert (forall f, msum f m = msum f m' + msum f (m ∖ m')) as Hsplit.
  { intros f. rewrite <- (map_difference_union _ _ Hsub) at 1. apply msum_union. by apply map_disjoint_difference_r1. }
  rewrite !Hsplit. split.
  - assert (0 <= msum (fun _ e => if P e then e_costBytes e else 0) (m ∖ m')); [|lia].
    apply msum_nonneg. intros p e [Hp _]%lookup_difference_Some. case_bool; [by eapply cost_nonneg|done].
  - intros HP. rewrite (msum_ext _ (fun _ e => e_costBytes e) (m ∖ m')); [lia|].
    intros p e [Hp Hn]%lookup_difference_Some. by rewrite (HP p e Hp Hn).
Qed.

Lemma entries_ok_subseteq m m' : entries_ok m -> m' ⊆ m -> entries_ok m'.
Proof. intros Hm Hsub p e He. apply Hm. by eapply lookup_weaken. Qed.

(** ** The usage the service computes *)

Lemma lsum_swap {A} (f : A -> entry -> Z) (l : list A) (m : gmap string entry) :
  lsum (fun a => msum (fun _ e => f a e) m) l = msum (fun _ e => lsum (fun a => f a e) l) m.
Proof.
  induction m as [|p e m Hp IH] using map_ind.
  - rewrite msum_empty. induction l as [|a l IHl]; [done|]. by rewrite lsum_cons, msum_empty, IHl.
  - rewrite msum_insert_new by done. rewrite <- IH. clear IH.
    induction l as [|a l IHl]; [done|]. rewrite !lsum_cons, msum_insert_new, IHl by done. lia.
Qed.

(** The sum over a list without repetition of a function that is 0 but at one key. *)
Lemma lsum_pick {A K} `{EqDecision K} (key : A -> K) (k : K) (c : Z) (l : list A) : NoDup (key <$> l) ->
  lsum (fun a => if bool_decide (k = key a) then c else 0) l = if bool_decide (k ∈ key <$> l) then c else 0.
Proof.
  induction l as [|a l IH]; [done|]. rewrite fmap_cons, NoDup_cons. intros [Ha Hl].
  rewrite lsum_cons, (IH Hl). destruct (decide (k = key a)) as [->|Hne].
  - rewrite bool_decide_eq_true_2 by done. rewrite (bool_decide_eq_false_2 (key a ∈ key <$> l)) by done.
    rewrite bool_decide_eq_true_2 by set_solver. lia.
  - rewrite bool_decide_eq_false_2 by done. rewrite (bool_decide_ext (k ∈ key a :: (key <$> l)) (k ∈ key <$> l)); [lia|].
    rewrite elem_of_cons. naive_solver.
Qed.

Definition spaceOf (sp : SpaceStats) : spaceKey := mkSpaceKey (sps_namespace sp) (sps_space sp).

(** Adding the lines of a statistics that satisfy a test adds up the entries
    whose space satisfies it. *)
Lemma listed_cost (st : Stats) m (test : spaceKey -> bool) : lists_spaces st m ->
  lsum (fun sp => if test (spaceOf sp) then sps_memoryBytes sp else 0) (st_spaces st)
  = class_cost (fun e => test (spaceKeyOf (e_key e))) m.
Proof.
  intros [Hl Hnd].
  assert (NoDup (spaceOf <$> st_spaces st)) as Hnd'.
  { apply (NoDup_fmap_1 (fun k => (sk_namespace k, sk_space k))). by rewrite <- list_fmap_compose. }
  transitivity (lsum (fun sp => msum (fun _ e =>
    if bool_decide (spaceKeyOf (e_key e) = spaceOf sp)
    then (if test (spaceKeyOf (e_key e)) then e_costBytes e else 0) else 0) m) (st_spaces st)).
  { apply (lsum_ext_in). intros sp Hsp. apply Hl in Hsp as (_ & -> & _). unfold space_cost.
    change (mkSpaceKey (sps_namespace sp) (sps_space sp)) with (spaceOf sp).
    destruct (test (spaceOf sp)) eqn:Ht; [|transitivity (msum (fun _ _ => 0) m); [by rewrite msum_zero|]];
      apply msum_ext; intros p e _.
    - unfold in_space. destruct (decide (spaceKeyOf (e_key e) = spaceOf sp)) as [E|E].
      + rewrite !bool_decide_eq_true_2 by exact E. rewrite E, Ht. reflexivity.
      + rewrite !bool_decide_eq_false_2 by exact E. reflexivity.
    - destruct (decide (spaceKeyOf (e_key e) = spaceOf sp)) as [E|E].
      + rewrite !bool_decide_eq_true_2 by exact E. rewrite E, Ht. reflexivity.
      + rewrite !bool_decide_eq_false_2 by exact E. reflexivity. }
  rewrite lsum_swap. apply msum_ext. intros p e He. rewrite (lsum_pick spaceOf) by done.
  rewrite bool_decide_eq_true_2; [done|]. apply list_elem_of_fmap.
  set (k := spaceKeyOf (e_key e)).
  exists (mkSpaceStats (sk_namespace k) (sk_space k) (space_count k m) (space_cost k m)).
  split; [by destruct k|]. apply Hl. cbn zeta. cbn [sps_namespace sps_space sps_objects sps_memoryBytes].
  pose proof (space_count_pos m p e He) as Hpos. fold k in Hpos. clearbody k. destruct k as [ns sp].
  cbn [sk_namespace sk_space]. split_and!; [reflexivity|reflexivity|lia].
Qed.

Lemma usage_loop l ns sp a b :
  foldl (fun '(n, s) item =>
    if negb (bool_decide (sps_namespace item = ns)) then (n, s)
    else
      let n := n +% sps_memoryBytes item in
      if bool_decide (sps_space item = sp) then (n, s +% sps_memoryBytes item) else (n, s)) (u64 a, u64 b) l
  = (u64 (a + lsum (fun i => if bool_decide (sps_namespace i = ns) then sps_memoryBytes i else 0) l),
     u64 (b + lsum (fun i => if bool_decide (spaceOf i = mkSpaceKey ns sp) then sps_memoryBytes i else 0) l)).
Proof.
  unfold spaceOf. revert a b. induction l as [|[n s o c] l IH]; intros a b; [cbn; by rewrite !Z.add_0_r|].
  cbn [foldl]. rewrite !lsum_cons. cbn [sps_namespace sps_space sps_memoryBytes].
  assert (forall x, u64 (u64 x + c) = u64 (x + c)) as Hu by (intros x; unfold u64; by rewrite Zplus_mod_idemp_l).
  destruct (decide (n = ns)) as [->|Hn].
  - rewrite (bool_decide_eq_true_2 (ns = ns)) by done. cbn [negb]. destruct (decide (s = sp)) as [->|Hs].
    + rewrite !(bool_decide_eq_true_2 (_ = _)) by done. cbn zeta. rewrite !Hu, IH. f_equal; f_equal; lia.
    + rewrite (bool_decide_eq_false_2 (s = sp)) by done. rewrite (bool_decide_eq_false_2 (_ = mkSpaceKey _ _)) by congruence.
      cbn zeta. rewrite !Hu, IH. f_equal; f_equal; lia.
  - rewrite (bool_decide_eq_false_2 (n = ns)) by done. cbn [negb]. rewrite (bool_decide_eq_false_2 (_ = mkSpaceKey _ _)) by congruence.
    rewrite IH. f_equal; f_equal; lia.
Qed.

Lemma usageFor_exact st m ns sp : entries_ok m -> total_cost m < 2 ^ 64 -> lists_spaces st m ->
  usageFor st ns sp = (namespace_cost ns m, space_cost (mkSpaceKey ns sp) m).
Proof.
  intros Hm Ht Hl. unfold usageFor. change (0, 0) with (u64 0, u64 0). rewrite usage_loop, !Z.add_0_l.
  pose proof (listed_cost st m (fun k => bool_decide (sk_namespace k = ns)) Hl) as Hns.
  cbn [spaceOf sk_namespace] in Hns. rewrite Hns.
  pose proof (listed_cost st m (fun k => bool_decide (k = mkSpaceKey ns sp)) Hl) as Hsp. rewrite Hsp. clear Hns Hsp.
  change (class_cost _ m) with (namespace_cost ns m) at 1.
  change (class_cost _ m) with (space_cost (mkSpaceKey ns sp) m).
  pose proof (class_cost_le (in_namespace ns) m Hm). pose proof (class_cost_le (in_space (mkSpaceKey ns sp)) m Hm : 0 <= space_cost (mkSpaceKey ns sp) m <= _).
  unfold namespace_cost in *. rewrite !u64_small by (unfold is_u64; lia). done.
Qed.

(** ** Quotas *)

Definition quota_typed (q : QuotaConfig) : Prop :=
  (forall ns, is_u64 (namespaceLimit q ns)) /\ (forall ns sp, is_u64 (spaceLimit q ns sp)).

(** Every space and namespace that has a limit is within it. *)
Definition within (q : QuotaConfig) (m : gmap string entry) : Prop :=
  (forall ns sp, 0 < spaceLimit q ns sp -> space_cost (mkSpaceKey ns sp) m <= spaceLimit q ns sp) /\
  (forall ns, 0 < namespaceLimit q ns -> namespace_cost ns m <= namespaceLimit q ns).

(** Entries are only dropped, from the space of the key and not the key itself. *)
Record made_room (key : Key) (m m' : gmap string entry) : Prop := {
  mr_sub : m' ⊆ m;
  mr_key : m' !! physicalKey key = m !! physicalKey key;
  mr_space : forall p ent, m !! p = Some ent -> m' !! p = None -> in_space (spaceKeyOf key) ent = true
}.

(** A write that grows the key's entry by [delta] bytes leaves its space and its
    namespace within their limits. *)
Definition admits (q : QuotaConfig) (key : Key) (delta : Z) (m : gmap string entry) : Prop :=
  (0 < spaceLimit q (k_namespace key) (k_space key) ->
   space_cost (spaceKeyOf key) m + delta <= spaceLimit q (k_namespace key) (k_space key)) /\
  (0 < namespaceLimit q (k_namespace key) ->
   namespace_cost (k_namespace key) m + delta <= namespaceLimit q (k_namespace key)).

Lemma made_room_refl key m : made_room key m m.
Proof. constructor; [done|done|]. intros p ent. congruence. Qed.

Lemma in_own_namespace key e : in_space (spaceKeyOf key) e = true -> in_namespace (k_namespace key) e = true.
Proof.
  unfold in_space, in_namespace, spaceKeyOf. intros E. bool_to_prop. apply bool_decide_eq_true_2. congruence.
Qed.

Lemma made_room_costs key m m' : entries_ok m -> made_room key m m' ->
  let freed := total_cost m - total_cost m' in
  0 <= freed /\ space_cost (spaceKeyOf key) m' = space_cost (spaceKeyOf key) m - freed /\
  namespace_cost (k_namespace key) m' = namespace_cost (k_namespace key) m - freed /\
  forall P, class_cost P m' <= class_cost P m.
Proof.
  intros Hm [Hsub _ Hsp]. cbn zeta.
  destruct (class_cost_subseteq (in_space (spaceKeyOf key)) m m' Hm Hsub) as [_ H1'].
  destruct (class_cost_subseteq (in_namespace (k_namespace key)) m m' Hm Hsub) as [_ H2'].
  destruct (class_cost_subseteq (fun _ => true) m m' Hm Hsub) as [H3' _].
  specialize (H1' Hsp). specialize (H2' (fun p e Hp Hn => in_own_namespace key e (Hsp p e Hp Hn))).
  unfold namespace_cost. change space_cost with (fun k => class_cost (in_space k)). cbv beta.
  change (total_cost) with (class_cost (fun _ => true)) in *.
  split_and!; [lia|lia|lia|]. intros P. by apply class_cost_subseteq.
Qed.

Lemma within_shrinks q m m' : (forall P, class_cost P m' <= class_cost P m) -> within q m -> within q m'.
Proof.
  intros Hle [Hs Hn]. split.
  - intros ns sp Hl. specialize (Hs ns sp Hl). specialize (Hle (in_space (mkSpaceKey ns sp))).
    unfold class_cost, space_cost in *. lia.
  - intros ns Hl. specialize (Hn ns Hl). specialize (Hle (in_namespace ns)). unfold namespace_cost in *. lia.
Qed.

Lemma unlimited q : hasQuotaLimits q = false ->
  (forall ns, namespaceLimit q ns <= 0) /\ (forall ns sp, spaceLimit q ns sp <= 0).
Proof.
  unfold hasQuotaLimits. intros Hq. bool_to_prop.
  match goal with E : q_spaces q = ∅, F : q_namespaces q = ∅ |- _ => rename E into Es, F into En end.
  split; intros *; unfold spaceLimit, namespaceLimit; rewrite ?Es, ?En, lookup_empty; lia.
Qed.

Section Admission.
  Context {E : Type} `{!Engine E, !EngineContract E}.
  Implicit Types (s : EngineService E) (key : Key).

Definition svc_ok s : Prop := eng_ok (svc_engine s) /\ quota_typed (svc_quota s).
Definition svc_table s : gmap string entry := eng_table (svc_engine s).

(** Making room in a space: when it succeeds the growth fits the space's limit. *)
Lemma ensureSpaceQuota_spec s key delta now : svc_ok s -> key_ok key -> 0 <= delta ->
  fits (svc_table s) -> total_cost (svc_table s) + delta < 2 ^ 64 ->
  let sp := spaceKeyOf key in let ns := k_namespace key in
  exists s' r, ensureSpaceQuota s key (namespace_cost ns (svc_table s)) (space_cost sp (svc_table s)) delta now = (s', r) /\
    svc_ok s' /\ svc_quota s' = svc_quota s /\ made_room key (svc_table s) (svc_table s') /\
    match r with
    | Err err => err = ErrQuotaExceeded
    | Ok (nsUsage, _) => nsUsage = namespace_cost ns (svc_table s') /\
        (0 < spaceLimit (svc_quota s) ns (k_space key) ->
         space_cost sp (svc_table s') + delta <= spaceLimit (svc_quota s) ns (k_space key))
    end.
Proof.
  intros [Hok Hq] [Hv Hk] Hd Hf Hroom sp ns. pose proof (eng_entries _ Hok) as Hm.
  fold (svc_table s) in Hm. pose proof (proj2 Hq ns (k_space key)) as Hlim. unfold ensureSpaceQuota. fold ns.
  set (limit := spaceLimit (svc_quota s) ns (k_space key)) in *.
  pose proof (class_cost_le (in_space sp) _ Hm : 0 <= space_cost sp (svc_table s) <= _) as Hsc.
  pose proof (class_cost_le (in_namespace ns) _ Hm : 0 <= namespace_cost ns (svc_table s) <= _) as Hnc.
  rewrite (u64_small (space_cost sp (svc_table s) + delta)) by (unfold is_u64; lia).
  destruct ((limit =? 0) || _) eqn:Hfast.
  { exists s, (Ok (namespace_cost ns (svc_table s), space_cost sp (svc_table s))).
    split_and!; [done|done|done|apply made_room_refl|done|].
    intros Hl. apply orb_prop in Hfast as [?|?]; bool_to_prop; lia. }
  bool_to_prop. unfold is_u64 in Hlim. rewrite u64_small by (unfold is_u64; lia). unfold evictLocked.
  cbn [eq_namespace eq_space eq_targetBytes eq_exclude]. unfold validateKey in Hv. destruct (_ || _ || _) eqn:Hne in Hv; [done|]. bool_to_prop.
  destruct (eng_Evict_law (svc_engine s) (mkEvictOptions ns (k_space key)
     (space_cost sp (svc_table s) + delta - limit) key (negb (bool_decide (k_key key = ""))) zeroTime) now)
    as (e' & r & -> & Hok' & Hsub & Hfr & Hrem); [done|done|cbn; lia|done|done|done|].
  fold (svc_table s) in Hsub, Hfr, Hrem. set (m' := eng_table e') in *.
  assert (made_room key (svc_table s) m') as Hmr.
  { constructor; [done| |].
    - destruct (svc_table s !! physicalKey key) as [ent|] eqn:He.
      + destruct (m' !! physicalKey key) as [ent'|] eqn:He'; [by rewrite <- He; eapply lookup_weaken in He'; eauto; congruence|].
        specialize (Hrem _ ent He He'). unfold evictable in Hrem. cbn in Hrem.
        destruct (Hm _ _ He) as (Ep & [_ Hke] & _). apply physicalKey_inj in Ep; [|done..].
        rewrite (bool_decide_eq_false_2 (k_key key = "")), (bool_decide_eq_true_2 (e_key ent = key)) in Hrem by done.
        by rewrite andb_false_r in Hrem.
      + destruct (m' !! physicalKey key) as [ent'|] eqn:He'; [|done]. eapply lookup_weaken in He'; [|done]. congruence.
    - intros p ent He He'. specialize (Hrem p ent He He'). unfold evictable in Hrem. cbn in Hrem. bool_to_prop.
      unfold in_space, spaceKeyOf. apply bool_decide_eq_true_2. f_equal; assumption. }
  destruct (made_room_costs key _ _ Hm Hmr) as (Hfree & Hsc' & Hnc' & _). cbn [onEngine].
  pose proof (eng_entries _ Hok') as Hm'.
  pose proof (class_cost_le (in_space sp) _ Hm' : 0 <= space_cost sp m' <= _) as Hsb.
  pose proof (class_cost_le (in_namespace ns) _ Hm' : 0 <= namespace_cost ns m' <= _) as Hnb.
  fold sp in Hsc'. fold ns in Hnc'. rewrite <- Hfr in Hfree, Hsc', Hnc'.
  assert (forall x, er_freedBytes r <= x < 2 ^ 64 -> u64 (x - minUint64 x (er_freedBytes r)) = x - er_freedBytes r) as Hmin.
  { intros x Hx. unfold minUint64. destruct (Z.ltb_spec x (er_freedBytes r)); [lia|]. apply u64_small. unfold is_u64. lia. }
  rewrite !Hmin by lia. rewrite <- Hsc', <- Hnc', (u64_small (space_cost sp m' + delta)) by (unfold is_u64; lia).
  destruct (Z.ltb_spec limit (space_cost sp m' + delta)).
  - exists (withEngine e' s), (Err ErrQuotaExceeded). split_and!; done.
  - exists (withEngine e' s), (Ok (namespace_cost ns m', space_cost sp m')). split_and!; done.
Qed.

(** Admission of a growing write: only room is made, and when it succeeds the
    growth fits both limits. *)
Lemma admitCostGrowth_spec s key old next now : svc_ok s -> key_ok key -> 0 <= old -> is_u64 next ->
  fits (svc_table s) -> total_cost (svc_table s) + next < 2 ^ 64 ->
  exists s' err, admitCostGrowth s key old next now = (s', err) /\
    svc_ok s' /\ svc_quota s' = svc_quota s /\ made_room key (svc_table s) (svc_table s') /\
    match err with
    | Some err => err = ErrQuotaExceeded
    | None => old < next -> admits (svc_quota s) key (next - old) (svc_table s')
    end.
Proof.
  intros Hs Hk Hold Hnext Hf Hroom. unfold admitCostGrowth. destruct (Z.leb_spec next old) as [Hle|Hlt].
  { exists s, None. split_and!; [done|done|done|apply made_room_refl|lia]. }
  unfold is_u64 in Hnext. rewrite u64_small by (unfold is_u64; lia).
  destruct (eng_Stats_law (svc_engine s)) as (st & -> & Hl); [apply Hs|done|].
  rewrite (usageFor_exact st (svc_table s)) by (done || apply eng_entries, Hs || apply Hf).
  change (withEngine (svc_engine s) s) with (mkService (svc_engine s) (svc_quota s)).
  replace (mkService (svc_engine s) (svc_quota s)) with s by (by destruct s).
  destruct (ensureSpaceQuota_spec s key (next - old) now Hs Hk) as (s' & r & Hrun & Hs' & Hq & Hmr & Hr);
    [lia|done|lia|]. change (mkSpaceKey (k_namespace key) (k_space key)) with (spaceKeyOf key). rewrite Hrun.
  destruct r as [[nsUsage u]|err]; [|by exists s', (Some err)]. destruct Hr as [-> Hsp].
  pose proof (made_room_costs key _ _ (eng_entries _ (proj1 Hs)) Hmr) as (_ & _ & _ & Hle).
  pose proof (class_cost_le (in_namespace (k_namespace key)) _ (eng_entries _ (proj1 Hs')) : 0 <= namespace_cost _ (svc_table s') <= _) as Hnb.
  specialize (Hle (fun _ => true) : total_cost (svc_table s') <= total_cost (svc_table s)).
  unfold ensureNamespaceQuota. rewrite Hq. set (limit := namespaceLimit _ _).
  fold (svc_table s') in Hnb.
  rewrite u64_small by (unfold is_u64; lia).
  destruct ((0 <? limit) && _) eqn:Hb.
  - exists s', (Some ErrQuotaExceeded). split_and!; done.
  - exists s', None. split_and!; [done|done|done|done|]. intros _. split; [done|].
    intros Hl'. fold limit in Hl' |- *. rewrite (proj2 (Z.ltb_lt _ _) Hl') in Hb. cbn in Hb. bool_to_prop. lia.
Qed.

(** The entry a get without version filters reads: only its own key can change,
    and no class of entries grows. *)
Lemma currentRecord_spec s key now : svc_ok s -> key_ok key ->
  exists s' r found, currentRecord s key now = (s', Ok (r, found)) /\ svc_ok s' /\ svc_quota s' = svc_quota s /\
    cost_at (physicalKey key) (svc_table s') = r_costBytes r /\
    (found = true -> exists ent, svc_table s' !! physicalKey key = Some ent /\ e_version ent = r_version r) /\
    (found = false -> svc_table s' !! physicalKey key = None) /\
    (forall p, p <> physicalKey key -> svc_table s' !! p = svc_table s !! p) /\
    Z.of_nat (size (svc_table s')) <= Z.of_nat (size (svc_table s)) /\
    forall P, (forall e f, e_key e = e_key f -> P e = P f) -> class_cost P (svc_table s') <= class_cost P (svc_table s).
Proof.
  intros [Hok Hq] Hk. unfold currentRecord.
  destruct (eng_Get_law (svc_engine s) key now Hok Hk) as (e' & r & found & -> & Hok' & Hr).
  exists (withEngine e' s), r, found. unfold svc_table, cost_at. cbn [onEngine withEngine svc_engine svc_quota].
  destruct found.
  - destruct Hr as (ent & Hke & Hce & Hve & (old & Ho & Hko & Hco) & ->).
    rewrite lookup_insert_eq, map_size_insert, Ho.
    split_and!; [done|done|done|done|by exists ent|done|intros p Hp; by rewrite lookup_insert_ne|unfold id; lia|].
    intros P HP. rewrite class_cost_insert.
    + unfold cost_at. rewrite Ho. case_bool; lia.
    + intros old' Ho'. simplify_eq. apply HP. congruence.
  - destruct Hr as [-> ->]. rewrite lookup_delete_eq.
    split_and!; [done|done|done|done|done|done|intros p Hp; by rewrite lookup_delete_ne| |].
    + rewrite map_size_delete. destruct (_ !! _); unfold id; lia.
    + intros P _. apply class_cost_delete, eng_entries, Hok.
Qed.

(** How a call may change the table: the key's own entry, and entries of the
    key's space that are evicted; its size and bytes grow by one entry at most. *)
Record writes_key (key : Key) (cost : Z) (m m' : gmap string entry) : Prop := {
  wk_others : forall p ent, m !! p = Some ent -> p <> physicalKey key ->
    m' !! p = Some ent \/ m' !! p = None /\ in_space (spaceKeyOf key) ent = true;
  wk_new : forall p ent, m' !! p = Some ent -> p <> physicalKey key -> m !! p = Some ent;
  wk_size : Z.of_nat (size m') <= Z.of_nat (size m) + 1;
  wk_bytes : total_cost m' <= total_cost m + cost
}.

Lemma made_room_writes key m0 m m' cost : 0 <= cost -> entries_ok m ->
  (forall p, p <> physicalKey key -> m !! p = m0 !! p) ->
  Z.of_nat (size m) <= Z.of_nat (size m0) -> total_cost m <= total_cost m0 ->
  made_room key m m' -> writes_key key cost m0 m'.
Proof.
  intros Hc Hm Hp Hsz Ht Hmr. pose proof (made_room_costs key m m' Hm Hmr) as (Hf & _). destruct Hmr as [Hsub _ Hsp].
  constructor.
  - intros p ent He Hne. rewrite <- Hp in He by done.
    destruct (m' !! p) as [ent'|] eqn:He'; [left|right; split; [done|by apply (Hsp p)]].
    eapply lookup_weaken in He'; [|done]. congruence.
  - intros p ent He Hne. rewrite <- Hp by done. by eapply lookup_weaken.
  - pose proof (map_subseteq_size _ _ Hsub). lia.
  - lia.
Qed.

Lemma insert_writes key cost m0 m ent : writes_key key 0 m0 m -> Z.of_nat (size m) <= Z.of_nat (size m0) ->
  entries_ok m -> e_costBytes ent = cost -> writes_key key cost m0 (<[physicalKey key := ent]> m).
Proof.
  intros [Ho Hn _ Hb] Hsz Hm Hce. constructor.
  - intros p e He Hne. rewrite lookup_insert_ne by done. by apply Ho.
  - intros p e He Hne. rewrite lookup_insert_ne in He by done. by apply Hn.
  - rewrite map_size_insert. destruct (_ !! _); unfold id; lia.
  - change total_cost with (class_cost (fun _ => true)) in *. rewrite class_cost_insert by done.
    unfold cost_at. destruct (m !! _) as [old|] eqn:He; [|lia]. pose proof (cost_nonneg m _ old Hm He). lia.
Qed.

(** Storing an admitted entry keeps the quotas. *)
Lemma within_insert q key m ent : entries_ok m -> key_typed key -> e_key ent = key -> within q m ->
  (cost_at (physicalKey key) m < e_costBytes ent -> admits q key (e_costBytes ent - cost_at (physicalKey key) m) m) ->
  within q (<[physicalKey key := ent]> m).
Proof.
  unfold admits. intros Hm Hk Hke [Hs Hn] Had.
  assert (forall P, (forall e f, e_key e = e_key f -> P e = P f) ->
    class_cost P (<[physicalKey key := ent]> m)
    = class_cost P m + (if P ent then e_costBytes ent - cost_at (physicalKey key) m else 0)) as Hins.
  { intros P HP. apply class_cost_insert. intros old Ho. apply HP. rewrite Hke.
    destruct (Hm _ _ Ho) as (Ep & [_ Ht] & _). by apply physicalKey_inj in Ep. }
  split.
  - intros ns sp Hl. specialize (Hs ns sp Hl).
    change space_cost with (fun k => class_cost (in_space k)) in *. cbv beta in *.
    rewrite Hins by (intros e f E'; unfold in_space; by rewrite E').
    destruct (in_space _ ent) eqn:Hin; [|lia].
    assert (spaceKeyOf key = mkSpaceKey ns sp) as Ek.
    { unfold in_space in Hin. rewrite Hke in Hin. by bool_to_prop. }
    injection Ek as <- <-. destruct (Z.le_gt_cases (e_costBytes ent) (cost_at (physicalKey key) m)); [lia|].
    destruct (Had ltac:(lia)) as [Hsp _]. specialize (Hsp Hl). unfold spaceKeyOf in *. lia.
  - intros ns Hl. specialize (Hn ns Hl). unfold namespace_cost in *.
    rewrite Hins by (intros e f E'; unfold in_namespace; by rewrite E').
    destruct (in_namespace ns ent) eqn:Hin; [|lia].
    assert (k_namespace key = ns) as <-. { unfold in_namespace in Hin. rewrite Hke in Hin. by bool_to_prop. }
    destruct (Z.le_gt_cases (e_costBytes ent) (cost_at (physicalKey key) m)); [lia|].
    destruct (Had ltac:(lia)) as [_ Hns]. specialize (Hns Hl). lia.
Qed.

Lemma admitSet_spec s key value opts clock : svc_ok s -> key_ok key -> is_u64 (so_expectedVersion opts) ->
  has_room (costOf key value) (svc_table s) ->
  exists s' err, admitSet s key value opts clock = (s', err) /\ svc_ok s' /\ svc_quota s' = svc_quota s /\
    (within (svc_quota s) (svc_table s) -> within (svc_quota s) (svc_table s')) /\
    writes_key key 0 (svc_table s) (svc_table s') /\
    Z.of_nat (size (svc_table s')) <= Z.of_nat (size (svc_table s)) /\
    match err with
    | Some err => err = ErrQuotaExceeded
    | None => expected_ok (so_expectedVersion opts) (svc_table s' !! physicalKey key) ->
        let old := cost_at (physicalKey key) (svc_table s') in
        old < costOf key value -> admits (svc_quota s) key (costOf key value - old) (svc_table s')
    end.
Proof.
  intros Hs Hk Hx [Hsz Hroom]. pose proof (eng_entries _ (proj1 Hs)) as Hm. fold (svc_table s) in Hm.
  unfold admitSet. destruct (hasQuotaLimits (svc_quota s)) eqn:Hq; cbn [negb].
  2: { exists s, None. destruct (unlimited _ Hq) as [Hns Hsp].
    split_and!; [done|done|done|done| |lia|].
    - apply (made_room_writes key _ (svc_table s)); [lia|done|done|lia|lia|apply made_room_refl].
    - intros; split; intros Hl; [specialize (Hsp (k_namespace key) (k_space key))|specialize (Hns (k_namespace key))]; lia. }
  destruct (currentRecord_spec s key (clock 0%nat) Hs Hk)
    as (s1 & r & found & -> & Hs1 & Hq1 & Hcost & Hf & Hnf & Hoth & Hsz1 & Hcl).
  pose proof (eng_entries _ (proj1 Hs1)) as Hm1. fold (svc_table s1) in Hm1.
  specialize (Hcl (fun _ => true) (fun _ _ _ => eq_refl)) as Ht1.
  change (class_cost (fun _ => true)) with total_cost in Ht1.
  assert (within (svc_quota s) (svc_table s) -> within (svc_quota s) (svc_table s1)) as Hw.
  { intros [Ws Wn]. split.
    - intros ns sp Hl. specialize (Ws ns sp Hl).
      specialize (Hcl (in_space (mkSpaceKey ns sp)) ltac:(intros e f E'; unfold in_space; by rewrite E')).
      unfold space_cost, class_cost in *. lia.
    - intros ns Hl. specialize (Wn ns Hl).
      specialize (Hcl (in_namespace ns) ltac:(intros e f E'; unfold in_namespace; by rewrite E')).
      unfold namespace_cost in *. lia. }
  destruct (expectedVersionWillApply found (r_version r) (so_expectedVersion opts)) eqn:Hexp; cbn [negb].
  - assert (0 <= r_costBytes r) as Hr0.
    { rewrite <- Hcost. unfold cost_at. destruct (_ !! _) as [ent|] eqn:He; [by eapply cost_nonneg|done]. }
    pose proof (costOf_nonneg key value) as Hc0. pose proof (total_cost_nonneg _ Hm1) as Ht0.
    pose proof (total_cost_nonneg _ Hm) as Ht0'.
    destruct (admitCostGrowth_spec s1 key (r_costBytes r) (costOf key value) (clock 1%nat) Hs1 Hk Hr0)
      as (s2 & err & Hrun & Hs2 & Hq2 & Hmr & Herr); [unfold is_u64; lia|split; lia|lia|].
    unfold EstimateCost. rewrite Hrun. exists s2, err. rewrite Hq2, Hq1.
    pose proof (made_room_costs key _ _ Hm1 Hmr) as (_ & _ & _ & Hcl2).
    pose proof (map_subseteq_size _ _ (mr_sub _ _ _ Hmr)).
    split_and!; [done|done|done|intros Hw0; eapply within_shrinks; [exact Hcl2|by apply Hw]| |lia|].
    + by eapply made_room_writes.
    + destruct err as [err|]; [done|]. intros _.
      replace (cost_at (physicalKey key) (svc_table s2)) with (r_costBytes r).
      { rewrite <- Hq1. exact Herr. }
      rewrite <- Hcost. unfold cost_at. by rewrite (mr_key _ _ _ Hmr).
  - exists s1, None. split_and!; [done|done|done|done| |lia|].
    + apply (made_room_writes key _ (svc_table s1)); [lia|done|done|lia|lia|apply made_room_refl].
    + intros Hexp'. exfalso. unfold expectedVersionWillApply in Hexp. bool_to_prop. unfold is_u64 in Hx.
      destruct Hexp' as [?|(ent & He & Hv)]; [lia|]. destruct found.
      * destruct (Hf eq_refl) as (ent' & He' & Hv'). rewrite He in He'. simplify_eq.
        match goal with Hb : (_ && _)%bool = false |- _ => cbn in Hb; bool_to_prop; congruence end.
      * rewrite (Hnf eq_refl) in He. done.
Qed.

(** What a set call of the service does, whatever its outcome. *)
Lemma setLocked_spec s key value opts clock : svc_ok s -> key_ok key -> is_u64 (so_expectedVersion opts) ->
  has_room (costOf key value) (svc_table s) ->
  exists s' r, setLocked s key value opts clock = (s', r) /\ svc_ok s' /\ svc_quota s' = svc_quota s /\
    (within (svc_quota s) (svc_table s) -> within (svc_quota s) (svc_table s')) /\
    writes_key key (costOf key value) (svc_table s) (svc_table s') /\
    match r with
    | Err err => err = ErrQuotaExceeded
    | Ok out => sr_found out = true -> exists ent, svc_table s' !! physicalKey key = Some ent /\
        e_key ent = key /\ e_costBytes ent = costOf key value
    end.
Proof.
  intros Hs Hk Hx Hroom. unfold setLocked.
  destruct (admitSet_spec s key value opts clock Hs Hk Hx Hroom) as (s1 & err & -> & Hs1 & Hq1 & Hw & Hwr & Hsz & Herr).
  pose proof (costOf_nonneg key value) as Hc0.
  destruct err as [err|].
  { exists s1, (Err err). split_and!; [done|done|done|done| |done].
    destruct Hwr as [H1' H2' H3' H4']. constructor; [done|done|done|lia]. }
  pose proof (eng_entries _ (proj1 Hs1)) as Hm1. fold (svc_table s1) in Hm1. destruct Hroom as [Hr1 Hr2].
  pose proof (wk_bytes _ _ _ _ Hwr) as Hb.
  destruct (eng_Set_law (svc_engine s1) key value opts (clock 2%nat) (proj1 Hs1) Hk)
    as (e' & r & found & -> & Hok' & Hout); [split; fold (svc_table s1); lia|].
  fold (svc_table s1) in Hout. exists (withEngine e' s1), (Ok (mkSetResult r found)).
  unfold svc_table at 2 4 5. cbn [withEngine svc_engine svc_quota onEngine fst snd sr_found].
  destruct found.
  - destruct Hout as (ent & Hke & Hce & Hexp & ->). rewrite Hq1.
    split_and!; [done|split; [done|exact (proj2 Hs1)]|done| | |by exists ent; rewrite lookup_insert_eq].
    + intros Hw0. apply within_insert; [done|apply Hk|done|by apply Hw|]. rewrite Hce. by apply Herr.
    + by apply insert_writes.
  - rewrite Hout, Hq1. split_and!; [done|split; [done|exact (proj2 Hs1)]|done|done| |done].
    destruct Hwr as [H1' H2' H3' H4']. constructor; [done|done|done|lia].
Qed.

(** C3: a set call never takes a space or a namespace over its quota.  Whatever
    engine is below, whatever the clock reads during the call and whether the
    call succeeds or not, a store that is within its limits stays within them;
    the call fails only for the quota; besides the key's own entry it only drops
    entries of the key's space, and a set that applies stores the key at the
    cost it was admitted with. *)
Theorem set_keeps_quota s key value opts clock : svc_ok s -> key_ok key -> is_u64 (so_expectedVersion opts) ->
  has_room (costOf key value) (svc_table s) -> within (svc_quota s) (svc_table s) ->
  exists s' r, setLocked s key value opts clock = (s', r) /\ svc_ok s' /\ svc_quota s' = svc_quota s /\
    within (svc_quota s) (svc_table s') /\
    writes_key key (costOf key value) (svc_table s) (svc_table s') /\
    match r with
    | Err err => err = ErrQuotaExceeded
    | Ok out => sr_found out = true -> exists ent, svc_table s' !! physicalKey key = Some ent /\
        e_key ent = key /\ e_costBytes ent = costOf key value
    end.
Proof.
  intros Hs Hk Hx Hroom Hw.
  destruct (setLocked_spec s key value opts clock Hs Hk Hx Hroom) as (s' & r & ? & ? & ? & ? & ?).
  exists s', r. naive_solver.
Qed.

Definition request_ok (r : SetRequest) : Prop := key_ok (sq_key r) /\ is_u64 (so_expectedVersion (sq_options r)).
Definition request_cost (r : SetRequest) : Z := costOf (sq_key r) (sq_value r).

Lemma batchSet_spec (requests : list SetRequest) index s results clock : svc_ok s ->
  Forall request_ok requests ->
  Z.of_nat (size (svc_table s)) + zlen requests < 2 ^ 64 ->
  total_cost (svc_table s) + lsum request_cost requests < 2 ^ 64 ->
  within (svc_quota s) (svc_table s) ->
  exists s' done err,
    batch (fun s r i => setLocked s (sq_key r) (sq_value r) (sq_options r) (clock i)) requests index s results
    = (s', (results ++ done, err)) /\
    svc_ok s' /\ within (svc_quota s) (svc_table s') /\ svc_quota s' = svc_quota s /\
    match err with
    | None => length done = length requests
    | Some err => err = ErrQuotaExceeded /\ (length done < length requests)%nat
    end.
Proof.
  revert index s results. induction requests as [|r requests IH]; intros index s results Hs Hr Hsz Hb Hw.
  { exists s, [], None. cbn [batch]. by rewrite app_nil_r. }
  apply Forall_cons in Hr as [[Hk Hx] Hr]. rewrite zlen_cons in Hsz. rewrite lsum_cons in Hb.
  pose proof (zlen_nonneg requests).
  assert (0 <= lsum request_cost requests) by (apply lsum_nonneg; intros; apply costOf_nonneg).
  destruct (setLocked_spec s (sq_key r) (sq_value r) (sq_options r) (clock index) Hs Hk Hx)
    as (s1 & out & Hrun & Hs1 & Hq1 & Hw1 & Hwr & Hout); [unfold has_room, request_cost in *; lia|].
  cbn [batch]. rewrite Hrun. destruct out as [out|err].
  - destruct Hwr as [_ _ Hwsz Hwb].
    destruct (IH (S index) s1 (results ++ [out]) Hs1 Hr) as (s' & ok & err & Hbatch & Hs' & Hw' & Hq' & Hend);
      [lia|unfold request_cost in *; lia|rewrite Hq1; by apply Hw1|].
    exists s', (out :: ok), err. rewrite Hbatch, <- app_assoc. rewrite Hq1 in Hw', Hq'.
    split_and!; [done|done|done|done|]. destruct err; cbn [length]; [|lia]. destruct Hend. split; [done|lia].
  - exists s1, [], (Some err). rewrite app_nil_r. split_and!; [done|done|by apply Hw1|done|done|cbn; lia].
Qed.

(** A batch of sets keeps every quota too: it runs its requests in order
    until one exceeds the quota, the only error it can report, and returns one
    result for each request before that one. *)
Theorem batch_set_keeps_quota s (requests : list SetRequest) (clock : nat -> nat -> Time) : svc_ok s ->
  Forall request_ok requests ->
  Z.of_nat (size (svc_table s)) + zlen requests < 2 ^ 64 ->
  total_cost (svc_table s) + lsum request_cost requests < 2 ^ 64 ->
  within (svc_quota s) (svc_table s) ->
  exists s' results err, batchSetLocked s requests clock = (s', (results, err)) /\
    svc_ok s' /\ within (svc_quota s) (svc_table s') /\ svc_quota s' = svc_quota s /\
    match err with
    | None => length results = length requests
    | Some err => err = ErrQuotaExceeded /\ (length results < length requests)%nat
    end.
Proof. intros Hs Hr Hsz Hb Hw. exact (batchSet_spec requests 0 s [] clock Hs Hr Hsz Hb Hw). Qed.
End Admission.

(** ** Instances *)

#[local] Existing Instance sample_codecs.
#[local] Existing Instance sample_math.
#[local] Existing Instance canonical_order.

(** The cart space of the shop is limited to 40 bytes, the shop to 60; the two
    entries stored take 35. *)
Definition cartQuota : QuotaConfig :=
  mkQuota 0 0 {["shop" := 60]} {[mkSpaceKey "shop" "cart" := 40]}.

Definition cartService : EngineService MemoryEngine := mkService engine2 cartQuota.

Lemma cartService_ok : svc_ok cartService.
Proof.
  split; [split; [apply engine2_inv|done]|]. split; intros *;
    unfold namespaceLimit, spaceLimit;
    cbn [cartService svc_quota cartQuota q_namespaces q_spaces q_defaultNamespace q_defaultSpace].
  - destruct ({["shop" := 60]} !! ns) as [x|] eqn:E; [|done]. apply lookup_singleton_Some in E as [_ <-]. done.
  - destruct (_ !! mkSpaceKey ns sp) as [x|] eqn:E; [|done]. apply lookup_singleton_Some in E as [_ <-]. done.
Qed.

Lemma cartService_within : within cartQuota (svc_table cartService).
Proof.
  split; intros *; unfold namespaceLimit, spaceLimit; cbn [cartQuota q_namespaces q_spaces q_defaultNamespace q_defaultSpace].
  - destruct (_ !! mkSpaceKey ns sp) as [x|] eqn:E; [|lia]. apply lookup_singleton_Some in E as [<- <-].
    intros _. vm_compute. discriminate.
  - destruct ({["shop" := 60]} !! ns) as [x|] eqn:E; [|lia]. apply lookup_singleton_Some in E as [<- <-].
    intros _. vm_compute. discriminate.
Qed.

Lemma set_keeps_quota_witness : exists s' r,
  setLocked cartService k3 (str_bytes "12 plums") (mkSetOptions 0 0 0 0) (fun i => 300 + Z.of_nat i) = (s', r) /\
  within cartQuota (svc_table s').
Proof.
  destruct (set_keeps_quota cartService k3 (str_bytes "12 plums") (mkSetOptions 0 0 0 0)
    (fun i => 300 + Z.of_nat i) cartService_ok k3_ok) as (s' & r & H1 & _ & _ & H2 & _);
    [vm_compute; split; [discriminate|reflexivity]|split; vm_compute; reflexivity|apply cartService_within|].
  exists s', r. exact (conj H1 H2).
Defined.

Definition cartRequests : list SetRequest :=
  [mkSetRequest k3 (str_bytes "12 plums") (mkSetOptions 0 0 0 0);
   mkSetRequest k1 (replicate 200 Byte.x2a) (mkSetOptions 0 0 0 0)].

(** The second request cannot fit the space: the batch stops there. *)
Lemma batch_set_keeps_quota_witness : exists s' results err,
  batchSetLocked cartService cartRequests (fun i j => 300 + Z.of_nat (i + j)) = (s', (results, err)) /\
  within cartQuota (svc_table s').
Proof.
  destruct (batch_set_keeps_quota cartService cartRequests (fun i j => 300 + Z.of_nat (i + j)) cartService_ok)
    as (s' & results & err & H1 & _ & H2 & _);
    [|vm_compute; reflexivity|vm_compute; reflexivity|apply cartService_within|].
  - repeat constructor; first [apply k3_ok|apply k1_ok|vm_compute; discriminate].
  - exists s', results, err. exact (conj H1 H2).
Defined.
