(* ===== verification/ServiceLocks.v ===== *)
(** * The lock of the cache service (cache: service.go, batch.go, ops.go, migration.go,
      primitive_service.go, transaction.go)

    The calls of the service take its read-write lock and run the locked functions of
    [Service], which call the engine several times.  Here a call is the sequence of its
    engine calls, threads interleave at every one of them, and the lock makes each writing
    call and each transaction happen at once.  The sweeper and the snapshots of a node call
    the engine without the lock and are not threads here; what a sweep in the middle of a set
    can do is shown at the end ([sweep_breaks_quota]). *)

From S2P Require Import Prelude.
From S2P Require Import EngineTypes.
From S2P Require Import Shard.
From S2P Require Import ShardInv.
From S2P Require Import ShardOps.
From S2P Require Import Primitives.
From S2P Require Import MemoryEngine.
From S2P Require Import EngineSpec.
From S2P Require Import EngineTable.
From S2P Require Import Instances.
From S2P Require Import EngineExamples.
From S2P Require Import Service.
From S2P Require Import ServiceSpec.

Local Open Scope Z_scope.
Local Open Scope nespa_scope.

(** ** Calls *)

(** A call of the interface, with what it is given.
    src: cache/service.go Service *)
Inductive serviceCall :=
| CallSet (key : Key) (value : list byte) (opts : SetOptions)
| CallGet (key : Key) (opts : GetOptions)
| CallDelete (key : Key) (opts : DeleteOptions)
| CallExists (key : Key) (opts : GetOptions)
| CallTouch (key : Key) (opts : TouchOptions)
| CallAdjust (key : Key) (opts : AdjustOptions)
| CallPrimitive (request : PrimitiveRequest)
| CallBatchPrimitive (requests : list PrimitiveRequest)
| CallBatchSet (requests : list SetRequest)
| CallBatchGet (requests : list GetRequest)
| CallBatchDelete (requests : list DeleteRequest)
| CallBatchExists (requests : list GetRequest)
| CallBatchTouch (requests : list TouchRequest)
| CallStats
| CallEvict (request : EvictRequest)
| CallExport (opts : RangeOptions)
| CallImport (snapshot : list SnapshotEntry)
| CallDeleteRange (opts : RangeOptions).

Inductive serviceReply :=
| RepliesSet (r : result serviceError SetResult)
| RepliesGet (r : result serviceError (CacheRecord * bool))
| RepliesDelete (r : result serviceError (bool * bool))
| RepliesFlag (r : result serviceError bool)
| RepliesPrimitive (r : result serviceError PrimitiveResult)
| RepliesBatchPrimitive (r : list PrimitiveResult * option serviceError)
| RepliesBatchSet (r : list SetResult * option serviceError)
| RepliesBatchGet (r : list GetResult * option serviceError)
| RepliesBatchDelete (r : list DeleteResult * option serviceError)
| RepliesBatchFlag (r : list bool * option serviceError)
| RepliesStats (r : result serviceError Stats)
| RepliesEvict (r : result serviceError EvictResult)
| RepliesExport (r : result serviceError (list SnapshotEntry))
| RepliesImport (r : result serviceError ImportResult)
| RepliesDeleteRange (r : result serviceError DeleteRangeResult)
| RepliesTransaction (err : option serviceError).

(** The readings of the clock of a call: by its requests, and in the order it takes them. *)
Definition callClock := nat -> nat -> Time.

Inductive lockMode := WriteLock | ReadLock.

(** src: cache/primitive_service.go Primitive *)
Definition primitiveLock (request : PrimitiveRequest) : lockMode :=
  if Mutates (pr_kind request) then WriteLock else ReadLock.

(** src: cache/batch.go BatchPrimitive *)
Definition batchPrimitiveLock (requests : list PrimitiveRequest) : lockMode :=
  if primitiveBatchMutates requests then WriteLock else ReadLock.

(** The lock each call takes.
    src: cache/service.go Get 196-201 *)
Definition lockOf (c : serviceCall) : lockMode :=
  match c with
  | CallGet _ _ | CallExists _ _ | CallBatchGet _ | CallBatchExists _ | CallStats | CallExport _ => ReadLock
  | CallPrimitive request => primitiveLock request
  | CallBatchPrimitive requests => batchPrimitiveLock requests
  | CallSet _ _ _ | CallDelete _ _ | CallTouch _ _ | CallAdjust _ _ | CallBatchSet _ | CallBatchDelete _
  | CallBatchTouch _ | CallEvict _ | CallImport _ | CallDeleteRange _ => WriteLock
  end.

(** ** Programs *)

(** Code that calls the engine, one call at a time: a step changes the state to [next] of it,
    and goes on with [k] of it. *)
Inductive program (S A : Type) :=
| Ret (a : A)
| Step (next : S -> S) (k : S -> program S A).
Arguments Ret {S A} a.
Arguments Step {S A} next k.

(** Running a program without interruption. *)
Fixpoint exec {S A} (p : program S A) (s : S) : S * A :=
  match p with
  | Ret a => (s, a)
  | Step next k => exec (k s) (next s)
  end.

Fixpoint bind {S A B} (p : program S A) (f : A -> program S B) : program S B :=
  match p with
  | Ret a => f a
  | Step next k => Step next (fun s => bind (k s) f)
  end.

Lemma exec_bind {S A B} (p : program S A) (f : A -> program S B) s :
  exec (bind p f) s = exec (f (exec p s).2) (exec p s).1.
Proof. revert s. induction p as [a|next k IH]; intros s; [done|]. cbn. apply IH. Qed.

(** ** The engine calls of the locked functions *)

Section Locks.
  Context {E : Type} `{!Engine E}.

Definition code : Type -> Type := program (EngineService E).

(** A call of the engine. *)
Definition engineCall {R} (op : E -> E * R) : code R :=
  Step (fun s => withEngine (op (svc_engine s)).1 s) (fun s => Ret (op (svc_engine s)).2).

(** The quota of the service, which no call changes. *)
Definition readQuota : code QuotaConfig := Step (fun s => s) (fun s => Ret (svc_quota s)).

(** [if err != nil { return ..., wrapped }]. *)
Definition checked {A B} (op : E -> E * (A * option engineError)) (k : A -> B) : code (result serviceError B) :=
  bind (engineCall op) (fun out =>
    match out.2 with Some err => Ret (Err (EngineFailed err)) | None => Ret (Ok (k out.1)) end).

Definition plain {A} (op : E -> E * result engineError A) : code (result serviceError A) :=
  bind (engineCall op) (fun out => match out with Err err => Ret (Err (EngineFailed err)) | Ok a => Ret (Ok a) end).

Definition evictCode (r : EvictRequest) (now : Time) : code (result serviceError EvictResult) :=
  checked (fun e => eng_Evict e (mkEvictOptions (eq_namespace r) (eq_space r) (eq_targetBytes r) (eq_exclude r)
    (negb (bool_decide (k_key (eq_exclude r) = ""))) zeroTime) now) (fun evicted => evicted).

Definition ensureSpaceCode (q : QuotaConfig) (key : Key) (nsUsage spaceUsage delta : Z) (now : Time)
    : code (result serviceError (Z * Z)) :=
  let limit := spaceLimit q (k_namespace key) (k_space key) in
  if (limit =? 0) || (spaceUsage +% delta <=? limit) then Ret (Ok (nsUsage, spaceUsage))
  else
    bind (evictCode (mkEvictRequest (k_namespace key) (k_space key) (u64 (spaceUsage +% delta - limit)) key) now) (fun r =>
      match r with
      | Err err => Ret (Err err)
      | Ok evicted =>
          let spaceUsage := spaceUsage -% minUint64 spaceUsage (er_freedBytes evicted) in
          let nsUsage := nsUsage -% minUint64 nsUsage (er_freedBytes evicted) in
          if limit <? spaceUsage +% delta then Ret (Err ErrQuotaExceeded) else Ret (Ok (nsUsage, spaceUsage))
      end).

Definition ensureNamespaceCode (q : QuotaConfig) (key : Key) (nsUsage delta : Z) : option serviceError :=
  let limit := namespaceLimit q (k_namespace key) in
  if (0 <? limit) && (limit <? nsUsage +% delta) then Some ErrQuotaExceeded else None.

Definition admitGrowthCode (q : QuotaConfig) (key : Key) (oldCost nextCost : Z) (now : Time) : code (option serviceError) :=
  if nextCost <=? oldCost then Ret None
  else
    let delta := nextCost -% oldCost in
    bind (engineCall eng_Stats) (fun r =>
      match r with
      | Err err => Ret (Some (EngineFailed err))
      | Ok stats =>
          let '(nsUsage, spaceUsage) := usageFor stats (k_namespace key) (k_space key) in
          bind (ensureSpaceCode q key nsUsage spaceUsage delta now) (fun r =>
            match r with
            | Err err => Ret (Some err)
            | Ok (nsUsage, _) => Ret (ensureNamespaceCode q key nsUsage delta)
            end)
      end).

Definition admitSetCode (q : QuotaConfig) (key : Key) (value : list byte) (opts : SetOptions) (clock : nat -> Time)
    : code (option serviceError) :=
  if negb (hasQuotaLimits q) then Ret None
  else
    bind (checked (fun e => eng_Get e key (mkGetOptions 0 0) (clock 0%nat)) (fun r => r)) (fun r =>
      match r with
      | Err err => Ret (Some err)
      | Ok (current, found) =>
          if negb (expectedVersionWillApply found (r_version current) (so_expectedVersion opts)) then Ret None
          else admitGrowthCode q key (r_costBytes current) (EstimateCost key value) (clock 1%nat)
      end).

Definition admitEstimateCode (q : QuotaConfig) (op : E -> E * (WriteEstimate * option engineError)) (key : Key) (now : Time)
    : code (option serviceError) :=
  bind (engineCall op) (fun out =>
    match out.2 with
    | Some err => Ret (Some (EngineFailed err))
    | None =>
        if negb (we_applied out.1) then Ret None
        else admitGrowthCode q key (we_oldCostBytes out.1) (we_newCostBytes out.1) now
    end).

(** A write after its admission. *)
Definition admittedCode {A} (admission : QuotaConfig -> code (option serviceError)) (write : code (result serviceError A))
    : code (result serviceError A) :=
  bind (bind readQuota admission) (fun err => match err with Some err => Ret (Err err) | None => write end).

Definition setCode key value opts (clock : nat -> Time) : code (result serviceError SetResult) :=
  admittedCode (fun q => admitSetCode q key value opts clock)
    (checked (fun e => eng_Set e key value opts (clock 2%nat)) (fun r => mkSetResult r.1 r.2)).

Definition adjustCode key opts (clock : nat -> Time) : code (result serviceError SetResult) :=
  admittedCode (fun q =>
      if negb (hasQuotaLimits q) then Ret None
      else admitEstimateCode q (fun e => eng_EstimateAdjust e key opts (clock 0%nat)) key (clock 1%nat))
    (checked (fun e => eng_Adjust e key opts (clock 2%nat)) (fun r => mkSetResult r.1 r.2)).

Definition primitiveCode request (clock : nat -> Time) : code (result serviceError PrimitiveResult) :=
  admittedCode (fun q =>
      if negb (hasQuotaLimits q) || negb (Mutates (pr_kind request)) then Ret None
      else admitEstimateCode q (fun e => eng_EstimatePrimitive e request (clock 0%nat)) (pr_key request) (clock 1%nat))
    (checked (fun e => eng_Primitive e request (clock 2%nat)) (fun r => r)).

Definition mapCode {A B} (f : A -> B) (p : code (result serviceError A)) : code (result serviceError B) :=
  bind p (fun r => Ret (match r with Err err => Err err | Ok a => Ok (f a) end)).

(** The loop of the batch calls. *)
Fixpoint batchCode {Req Res} (step : Req -> nat -> code (result serviceError Res)) (requests : list Req) (index : nat)
    (results : list Res) : code (list Res * option serviceError) :=
  match requests with
  | [] => Ret (results, None)
  | request :: rest =>
      bind (step request index) (fun r =>
        match r with
        | Err err => Ret (results, Some err)
        | Ok a => batchCode step rest (S index) (results ++ [a])
        end)
  end.

Lemma exec_engineCall {R} (op : E -> E * R) s : exec (engineCall op) s = (withEngine (op (svc_engine s)).1 s, (op (svc_engine s)).2).
Proof. done. Qed.

Lemma exec_checked {A B} op (k : A -> B) s : exec (checked op k) s = onEngine s (op (svc_engine s)) k.
Proof. unfold checked. rewrite exec_bind. cbn. by destruct (op (svc_engine s)) as [e [a [err|]]]. Qed.

Lemma exec_plain {A} (op : E -> E * result engineError A) s : exec (plain op) s =
  match op (svc_engine s) with
  | (e, Err err) => (withEngine e s, Err (EngineFailed err))
  | (e, Ok a) => (withEngine e s, Ok a)
  end.
Proof. unfold plain. rewrite exec_bind. cbn. by destruct (op (svc_engine s)) as [e [a|err]]. Qed.

Lemma ensureSpaceQuota_quota s key nsUsage spaceUsage delta now :
  svc_quota (ensureSpaceQuota s key nsUsage spaceUsage delta now).1 = svc_quota s.
Proof.
  unfold ensureSpaceQuota, evictLocked, onEngine. destruct (_ || _); [done|]. destruct (eng_Evict _ _ _) as [e [a [err|]]]; [done|].
  cbn. by destruct (_ <? _).
Qed.

Lemma exec_ensureSpace s key nsUsage spaceUsage delta now :
  exec (ensureSpaceCode (svc_quota s) key nsUsage spaceUsage delta now) s = ensureSpaceQuota s key nsUsage spaceUsage delta now.
Proof.
  unfold ensureSpaceCode, ensureSpaceQuota. cbn zeta. destruct (_ || _); [done|]. rewrite exec_bind. unfold evictCode.
  rewrite exec_checked. unfold evictLocked. destruct (onEngine _ _ _) as [s' [evicted|err]]; [|done]. cbn. by destruct (_ <? _).
Qed.

Lemma exec_admitGrowth s key oldCost nextCost now :
  exec (admitGrowthCode (svc_quota s) key oldCost nextCost now) s = admitCostGrowth s key oldCost nextCost now.
Proof.
  unfold admitGrowthCode, admitCostGrowth. destruct (_ <=? _); [done|]. rewrite exec_bind, exec_engineCall.
  destruct (eng_Stats (svc_engine s)) as [e [stats|err]]; [|done]. cbn. destruct (usageFor _ _ _) as [nsUsage spaceUsage].
  rewrite exec_bind. change (svc_quota s) with (svc_quota (withEngine e s)). rewrite exec_ensureSpace.
  pose proof (ensureSpaceQuota_quota (withEngine e s) key nsUsage spaceUsage (nextCost -% oldCost) now) as Hq.
  destruct (ensureSpaceQuota _ _ _ _ _ _) as [s' [[u1 u2]|err]]; [|done]. cbn in *. unfold ensureNamespaceQuota. by rewrite Hq.
Qed.

(** A write whose admission is its code. *)
Lemma exec_admitted {A} admission (locked : EngineService E * option serviceError) (write : code (result serviceError A)) s :
  exec (admission (svc_quota s)) s = locked ->
  exec (admittedCode admission write) s =
  match locked with (s, Some err) => (s, Err err) | (s, None) => exec write s end.
Proof.
  intros H. unfold admittedCode. rewrite !exec_bind. cbn. rewrite H. by destruct locked as [s' [err|]].
Qed.

Lemma exec_admitEstimate s op key now :
  exec (admitEstimateCode (svc_quota s) op key now) s =
  match op (svc_engine s) with
  | (e, (_, Some err)) => (withEngine e s, Some (EngineFailed err))
  | (e, (estimate, None)) =>
      if negb (we_applied estimate) then (withEngine e s, None)
      else admitCostGrowth (withEngine e s) key (we_oldCostBytes estimate) (we_newCostBytes estimate) now
  end.
Proof.
  unfold admitEstimateCode. rewrite exec_bind, exec_engineCall. destruct (op (svc_engine s)) as [e [estimate [err|]]]; [done|]. cbn.
  destruct (negb _); [done|]. apply (exec_admitGrowth (withEngine e s)).
Qed.

Lemma exec_set s key value opts clock : exec (setCode key value opts clock) s = setLocked s key value opts clock.
Proof.
  unfold setCode, setLocked. rewrite (exec_admitted _ (admitSet s key value opts clock)).
  - destruct (admitSet _ _ _ _ _) as [s' [err|]]; [done|]. apply exec_checked.
  - unfold admitSetCode, admitSet. destruct (negb _); [done|]. rewrite exec_bind, exec_checked. unfold currentRecord, onEngine.
    destruct (eng_Get _ _ _ _) as [e [[current found] [err|]]]; [done|]. cbn. destruct (negb _); [done|].
    apply (exec_admitGrowth (withEngine e s)).
Qed.

Lemma exec_adjust s key opts clock : exec (adjustCode key opts clock) s = adjustLocked s key opts clock.
Proof.
  unfold adjustCode, adjustLocked. rewrite (exec_admitted _ (admitAdjust s key opts clock)).
  - destruct (admitAdjust _ _ _ _) as [s' [err|]]; [done|]. apply exec_checked.
  - unfold admitAdjust. destruct (negb _); [done|]. apply exec_admitEstimate.
Qed.

Lemma exec_primitive s request clock : exec (primitiveCode request clock) s = primitiveLocked s request clock.
Proof.
  unfold primitiveCode, primitiveLocked. rewrite (exec_admitted _ (admitPrimitive s request clock)).
  - destruct (admitPrimitive _ _ _) as [s' [err|]]; [done|]. apply exec_checked.
  - unfold admitPrimitive. destruct (_ || _); [done|]. apply exec_admitEstimate.
Qed.

Lemma exec_mapCode {A B} (f : A -> B) p s : exec (mapCode f p) s =
  match exec p s with (s, Err err) => (s, Err err) | (s, Ok a) => (s, Ok (f a)) end.
Proof. unfold mapCode. rewrite exec_bind. by destruct (exec p s) as [s' [a|err]]. Qed.

Lemma exec_batch {Req Res} (stepCode : Req -> nat -> code (result serviceError Res)) step requests index results s :
  (forall s r i, exec (stepCode r i) s = step s r i) ->
  exec (batchCode stepCode requests index results) s = batch step requests index s results.
Proof.
  intros H. revert index results s. induction requests as [|r rest IH]; intros index results s; [done|]. cbn.
  rewrite exec_bind, H. destruct (step s r index) as [s' [a|err]]; [|done]. cbn. apply IH.
Qed.

(** ** The calls as code, and as the locked functions *)

(** src: cache/transaction.go transactionService 23-104 *)
Definition transactionService (c : serviceCall) (clock : callClock) : code serviceReply :=
  match c with
  | CallSet key value opts => bind (setCode key value opts (clock 0%nat)) (fun r => Ret (RepliesSet r))
  | CallGet key opts => bind (checked (fun e => eng_Get e key opts (clock 0%nat 0%nat)) (fun r => r)) (fun r => Ret (RepliesGet r))
  | CallDelete key opts => bind (checked (fun e => eng_Delete e key opts) (fun r => r)) (fun r => Ret (RepliesDelete r))
  | CallExists key opts =>
      bind (checked (fun e => eng_Exists e key opts (clock 0%nat 0%nat)) (fun r => r)) (fun r => Ret (RepliesFlag r))
  | CallTouch key opts =>
      bind (checked (fun e => eng_Touch e key opts (clock 0%nat 0%nat)) (fun r => r)) (fun r => Ret (RepliesFlag r))
  | CallAdjust key opts => bind (adjustCode key opts (clock 0%nat)) (fun r => Ret (RepliesSet r))
  | CallPrimitive request => bind (primitiveCode request (clock 0%nat)) (fun r => Ret (RepliesPrimitive r))
  | CallBatchPrimitive requests =>
      bind (batchCode (fun r i => primitiveCode r (clock i)) requests 0 []) (fun r => Ret (RepliesBatchPrimitive r))
  | CallBatchSet requests =>
      bind (batchCode (fun r i => setCode (sq_key r) (sq_value r) (sq_options r) (clock i)) requests 0 [])
        (fun r => Ret (RepliesBatchSet r))
  | CallBatchGet requests =>
      bind (batchCode (fun r i => mapCode (fun got => mkGetResult got.1 got.2)
          (checked (fun e => eng_Get e (gq_key r) (gq_options r) (clock i 0%nat)) (fun r => r))) requests 0 [])
        (fun r => Ret (RepliesBatchGet r))
  | CallBatchDelete requests =>
      bind (batchCode (fun r _ => mapCode (fun gone => mkDeleteResult (gone.1 && gone.2) gone.2)
          (checked (fun e => eng_Delete e (dq_key r) (mkDeleteOptions (dq_expectedVersion r))) (fun r => r))) requests 0 [])
        (fun r => Ret (RepliesBatchDelete r))
  | CallBatchExists requests =>
      bind (batchCode (fun r i => checked (fun e => eng_Exists e (gq_key r) (gq_options r) (clock i 0%nat)) (fun r => r)) requests 0 [])
        (fun r => Ret (RepliesBatchFlag r))
  | CallBatchTouch requests =>
      bind (batchCode (fun r i => checked (fun e => eng_Touch e (tq_key r) (tq_options r) (clock i 0%nat)) (fun r => r)) requests 0 [])
        (fun r => Ret (RepliesBatchFlag r))
  | CallStats => bind (plain eng_Stats) (fun r => Ret (RepliesStats r))
  | CallEvict request => bind (evictCode request (clock 0%nat 0%nat)) (fun r => Ret (RepliesEvict r))
  | CallExport opts => bind (plain (fun e => eng_Export e opts (clock 0%nat 0%nat))) (fun r => Ret (RepliesExport r))
  | CallImport snapshot => bind (checked (fun e => eng_Import e snapshot) (fun r => r)) (fun r => Ret (RepliesImport r))
  | CallDeleteRange opts => bind (checked (fun e => eng_DeleteRange e opts) (fun r => r)) (fun r => Ret (RepliesDeleteRange r))
  end.

(** What a call does when nothing interrupts it. *)
Definition callLocked (s : EngineService E) (c : serviceCall) (clock : callClock) : EngineService E * serviceReply :=
  let reply {A} (out : EngineService E * A) (k : A -> serviceReply) := (out.1, k out.2) in
  match c with
  | CallSet key value opts => reply (setLocked s key value opts (clock 0%nat)) RepliesSet
  | CallGet key opts => reply (getLocked s key opts (clock 0%nat 0%nat)) RepliesGet
  | CallDelete key opts => reply (deleteLocked s key opts) RepliesDelete
  | CallExists key opts => reply (existsLocked s key opts (clock 0%nat 0%nat)) RepliesFlag
  | CallTouch key opts => reply (touchLocked s key opts (clock 0%nat 0%nat)) RepliesFlag
  | CallAdjust key opts => reply (adjustLocked s key opts (clock 0%nat)) RepliesSet
  | CallPrimitive request => reply (primitiveLocked s request (clock 0%nat)) RepliesPrimitive
  | CallBatchPrimitive requests => reply (batchPrimitiveLocked s requests clock) RepliesBatchPrimitive
  | CallBatchSet requests => reply (batchSetLocked s requests clock) RepliesBatchSet
  | CallBatchGet requests => reply (batchGetLocked s requests (fun i => clock i 0%nat)) RepliesBatchGet
  | CallBatchDelete requests => reply (batchDeleteLocked s requests) RepliesBatchDelete
  | CallBatchExists requests => reply (batchExistsLocked s requests (fun i => clock i 0%nat)) RepliesBatchFlag
  | CallBatchTouch requests => reply (batchTouchLocked s requests (fun i => clock i 0%nat)) RepliesBatchFlag
  | CallStats => reply (statsLocked s) RepliesStats
  | CallEvict request => reply (evictLocked s request (clock 0%nat 0%nat)) RepliesEvict
  | CallExport opts => reply (exportLocked s opts (clock 0%nat 0%nat)) RepliesExport
  | CallImport snapshot => reply (importLocked s snapshot) RepliesImport
  | CallDeleteRange opts => reply (deleteRangeLocked s opts) RepliesDeleteRange
  end.

Lemma exec_reply {A} (p : code A) (k : A -> serviceReply) s out : exec p s = out ->
  exec (bind p (fun r => Ret (k r))) s = (out.1, k out.2).
Proof. intros <-. by rewrite exec_bind. Qed.

(** The engine calls of a call, uninterrupted, are its locked function. *)
Lemma exec_call s c clock : exec (transactionService c clock) s = callLocked s c clock.
Proof.
  destruct c; cbn [transactionService callLocked]; apply exec_reply;
    try first [apply exec_set | apply exec_adjust | apply exec_primitive | apply exec_checked | apply exec_plain].
  - apply exec_batch. intros. apply exec_primitive.
  - apply exec_batch. intros. apply exec_set.
  - apply exec_batch. intros. rewrite exec_mapCode, exec_checked. unfold getLocked. by destruct (onEngine _ _ _) as [? [[]|]].
  - apply exec_batch. intros. rewrite exec_mapCode, exec_checked. unfold deleteLocked. by destruct (onEngine _ _ _) as [? [[]|]].
  - apply exec_batch. intros. apply exec_checked.
  - apply exec_batch. intros. apply exec_checked.
Qed.

(** ** Transactions *)

(** A transaction function: what it calls on the service it is given, and how it goes on
    with the reply.
    src: cache/service.go TransactionFunc *)
Inductive txBody :=
| TxReturn (err : option serviceError)
| TxCall (c : serviceCall) (clock : callClock) (k : serviceReply -> txBody)
| TxNested (fn : txBody) (k : option serviceError -> txBody).

Fixpoint txCode (fn : txBody) : code (option serviceError) :=
  match fn with
  | TxReturn err => Ret err
  | TxCall c clock k => bind (transactionService c clock) (fun reply => txCode (k reply))
  | TxNested _ k => txCode (k (Some ErrNestedTransactionUnsupported))
  end.

(** What the function does to the service when nothing interrupts it. *)
Fixpoint txRun (fn : txBody) (s : EngineService E) : EngineService E * option serviceError :=
  match fn with
  | TxReturn err => (s, err)
  | TxCall c clock k => let out := callLocked s c clock in txRun (k out.2) out.1
  | TxNested inner k =>
      let out := nestedTransaction s (Some (txRun inner)) in txRun (k out.2) out.1
  end.

Lemma exec_tx fn s : exec (txCode fn) s = txRun fn s.
Proof.
  revert s. induction fn as [err|c clock k IH|inner _ k IH]; intros s; cbn [txCode txRun]; [done| |apply IH].
  rewrite exec_bind, exec_call. apply IH.
Qed.

(** ** Threads *)

(** A call of the service itself.
    src: cache/transaction.go Transaction 14-21 *)
Inductive publicCall :=
| Direct (c : serviceCall) (clock : callClock)
| InTransaction (fn : txBody).

Definition publicLock (c : publicCall) : lockMode :=
  match c with Direct c _ => lockOf c | InTransaction _ => WriteLock end.

Definition publicCode (c : publicCall) : code serviceReply :=
  match c with
  | Direct c clock => transactionService c clock
  | InTransaction fn => bind (txCode fn) (fun err => Ret (RepliesTransaction err))
  end.

(** What a call does when it happens at once. *)
Definition publicRun (c : publicCall) (s : EngineService E) : EngineService E * serviceReply :=
  match c with
  | Direct c clock => callLocked s c clock
  | InTransaction fn => let out := Transaction s (Some (txRun fn)) in (out.1, RepliesTransaction out.2)
  end.

Lemma exec_public c s : exec (publicCode c) s = publicRun c s.
Proof. destruct c as [c clock|fn]; [apply exec_call|]. apply exec_reply, exec_tx. Qed.

Inductive threadStatus :=
| Waiting
| Holding (rest : code serviceReply)
| Finished (reply : serviceReply).

Record thread := mkThread { th_call : publicCall; th_status : threadStatus }.

(** The service, the thread that has locked it for writing, those that have locked it for
    reading, and all the threads. *)
Record system := mkSystem {
  sy_service : EngineService E;
  sy_writer : option nat;
  sy_readers : gset nat;
  sy_threads : list thread
}.

Definition startSystem (s : EngineService E) (calls : list publicCall) : system :=
  mkSystem s None ∅ ((fun c => mkThread c Waiting) <$> calls).

(** One step of a thread: it takes its lock, calls the engine, or releases its lock and
    returns.  A thread that waits for the lock, or has returned, takes no step.  A waiting
    writer does not keep new readers out. *)
Definition threadStep (i : nat) (y : system) : option system :=
  match sy_threads y !! i with
  | None => None
  | Some (mkThread c status) =>
      match status with
      | Waiting =>
          let threads := <[i := mkThread c (Holding (publicCode c))]> (sy_threads y) in
          match publicLock c, sy_writer y with
          | _, Some _ => None
          | WriteLock, None =>
              if bool_decide (sy_readers y = ∅) then Some (mkSystem (sy_service y) (Some i) ∅ threads) else None
          | ReadLock, None => Some (mkSystem (sy_service y) None ({[i]} ∪ sy_readers y) threads)
          end
      | Holding (Step next k) =>
          Some (mkSystem (next (sy_service y)) (sy_writer y) (sy_readers y)
                  (<[i := mkThread c (Holding (k (sy_service y)))]> (sy_threads y)))
      | Holding (Ret reply) =>
          let threads := <[i := mkThread c (Finished reply)]> (sy_threads y) in
          match publicLock c with
          | WriteLock => Some (mkSystem (sy_service y) None (sy_readers y) threads)
          | ReadLock => Some (mkSystem (sy_service y) (sy_writer y) (sy_readers y ∖ {[i]}) threads)
          end
      | Finished _ => None
      end
  end.

(** A schedule names the thread that takes the next step; one that can take none is passed
    over. *)
Fixpoint runSchedule (schedule : list nat) (y : system) : system :=
  match schedule with
  | [] => y
  | i :: schedule => runSchedule schedule (default y (threadStep i y))
  end.

(** The calls that may store, remove or lengthen the life of an entry. *)
Definition writing (c : publicCall) : bool :=
  match c with
  | InTransaction _ => true
  | Direct c _ =>
      match c with
      | CallSet _ _ _ | CallDelete _ _ | CallTouch _ _ | CallAdjust _ _ | CallBatchSet _ | CallBatchDelete _
      | CallBatchTouch _ | CallEvict _ | CallImport _ | CallDeleteRange _ => true
      | CallPrimitive request => Mutates (pr_kind request)
      | CallBatchPrimitive requests => bool_decide (List.Exists (fun r => Mutates (pr_kind r) = true) requests)
      | CallGet _ _ | CallExists _ _ | CallBatchGet _ | CallBatchExists _ | CallStats | CallExport _ => false
      end
  end.

(** The service as its callers see it: a writing call or a transaction happens in one step,
    while nobody reads; a reading call takes the steps of its engine calls. *)
Inductive atomicStep : system -> system -> Prop :=
| atomic_write i c y : sy_threads y !! i = Some (mkThread c Waiting) -> writing c = true ->
    sy_writer y = None -> sy_readers y = ∅ ->
    atomicStep y (mkSystem (publicRun c (sy_service y)).1 None ∅
                    (<[i := mkThread c (Finished (publicRun c (sy_service y)).2)]> (sy_threads y)))
| atomic_read i c status y y' : sy_threads y !! i = Some (mkThread c status) -> writing c = false ->
    threadStep i y = Some y' -> atomicStep y y'.

(** ** The lock keeps writers apart *)

(** The writing calls are those that take the lock for writing. *)
Lemma writing_lock c : publicLock c = if writing c then WriteLock else ReadLock.
Proof.
  destruct c as [[] clock|]; try done. cbn. unfold batchPrimitiveLock, primitiveBatchMutates.
  destruct (existsb _ _) eqn:Ex.
  - apply existsb_exists in Ex as (r & Hr & Hm). rewrite bool_decide_eq_true_2; [done|].
    apply Exists_exists. exists r. split; [by apply list_elem_of_In|done].
  - rewrite bool_decide_eq_false_2; [done|]. intros (r & Hr & Hm)%Exists_exists.
    assert (existsb (fun r => Mutates (pr_kind r)) requests = true); [|congruence].
    apply existsb_exists. exists r. split; [by apply list_elem_of_In|done].
Qed.

Record locked_ok (y : system) : Prop := {
  lo_writer : forall i, sy_writer y = Some i -> sy_readers y = ∅ /\
    exists c rest, sy_threads y !! i = Some (mkThread c (Holding rest)) /\ publicLock c = WriteLock;
  lo_holding : forall i c rest, sy_threads y !! i = Some (mkThread c (Holding rest)) ->
    match publicLock c with WriteLock => sy_writer y = Some i | ReadLock => i ∈ sy_readers y end;
  lo_readers : forall i, i ∈ sy_readers y -> exists c rest, sy_threads y !! i = Some (mkThread c (Holding rest))
}.

Lemma start_ok s calls : locked_ok (startSystem s calls).
Proof.
  split; cbn; [done| |set_solver]. intros i c rest H. rewrite list_lookup_fmap in H. by destruct (calls !! i).
Qed.

(** What a step of a thread is, by its status. *)
Lemma threadStep_inv i y y' : threadStep i y = Some y' ->
  exists c status, sy_threads y !! i = Some (mkThread c status) /\
  ((status = Waiting /\ publicLock c = WriteLock /\ sy_writer y = None /\ sy_readers y = ∅ /\
    y' = mkSystem (sy_service y) (Some i) ∅ (<[i := mkThread c (Holding (publicCode c))]> (sy_threads y))) \/
   (status = Waiting /\ publicLock c = ReadLock /\ sy_writer y = None /\
    y' = mkSystem (sy_service y) None ({[i]} ∪ sy_readers y) (<[i := mkThread c (Holding (publicCode c))]> (sy_threads y))) \/
   (exists next k, status = Holding (Step next k) /\
    y' = mkSystem (next (sy_service y)) (sy_writer y) (sy_readers y)
           (<[i := mkThread c (Holding (k (sy_service y)))]> (sy_threads y))) \/
   (exists reply, status = Holding (Ret reply) /\ publicLock c = WriteLock /\
    y' = mkSystem (sy_service y) None (sy_readers y) (<[i := mkThread c (Finished reply)]> (sy_threads y))) \/
   (exists reply, status = Holding (Ret reply) /\ publicLock c = ReadLock /\
    y' = mkSystem (sy_service y) (sy_writer y) (sy_readers y ∖ {[i]}) (<[i := mkThread c (Finished reply)]> (sy_threads y)))).
Proof.
  unfold threadStep. destruct (sy_threads y !! i) as [[c status]|]; [|done]. intros H. exists c, status. split; [done|].
  destruct status as [|[reply|next k]|reply]; [| | |done].
  - destruct (publicLock c), (sy_writer y); try done; [case_bool_decide; [|done]|]; simplify_eq; naive_solver.
  - destruct (publicLock c); simplify_eq; naive_solver.
  - simplify_eq. right; right; left. by exists next, k.
Qed.

Lemma step_ok i y y' : locked_ok y -> threadStep i y = Some y' -> locked_ok y'.
Proof.
  intros [H1 H2 H3] (c & status & Hi & Hs)%threadStep_inv.
  assert (forall t, <[i := t]> (sy_threads y) !! i = Some t) as Hnew.
  { intros t. apply list_lookup_insert_eq. by eapply lookup_lt_Some. }
  assert (forall t j, j <> i -> <[i := t]> (sy_threads y) !! j = sy_threads y !! j) as Hold.
  { intros t j Hne. by apply list_lookup_insert_ne. }
  destruct Hs as [(-> & Ec & Ew & Er & ->)|[(-> & Ec & Ew & ->)|[(next & k & -> & ->)|[(r & -> & Ec & ->)|(r & -> & Ec & ->)]]]]; cbn in *.
  - split; cbn; [| |set_solver].
    + intros j [= <-]. split; [done|]. eauto.
    + intros j c' rest Hj. destruct (decide (j = i)) as [->|Hne]; [rewrite Hnew in Hj; simplify_eq; by rewrite Ec|].
      rewrite Hold in Hj by done. specialize (H2 j c' rest Hj). destruct (publicLock c'); [congruence|set_solver].
  - split; cbn; [done| |].
    + intros j c' rest Hj. destruct (decide (j = i)) as [->|Hne]; [rewrite Hnew in Hj; simplify_eq; rewrite Ec; set_solver|].
      rewrite Hold in Hj by done. specialize (H2 j c' rest Hj). destruct (publicLock c'); [congruence|set_solver].
    + intros j Hj. destruct (decide (j = i)) as [->|Hne]; [rewrite Hnew; eauto|]. rewrite Hold by done. apply H3. set_solver.
  - split; cbn.
    + intros j Hj. destruct (H1 j Hj) as (Hr & c' & rest & Hl & Hw). split; [done|].
      destruct (decide (j = i)) as [->|Hne]; [rewrite Hnew; simplify_eq; eauto|]. rewrite Hold by done. eauto.
    + intros j c' rest Hj. destruct (decide (j = i)) as [->|Hne]; [rewrite Hnew in Hj; simplify_eq; by eapply H2|].
      rewrite Hold in Hj by done. by eapply H2.
    + intros j Hj. destruct (decide (j = i)) as [->|Hne]; [rewrite Hnew; eauto|]. rewrite Hold by done. by apply H3.
  - pose proof (H2 i c _ Hi) as Hw. rewrite Ec in Hw. destruct (H1 i Hw) as [Hr _]. split; cbn; [done| |set_solver].
    intros j c' rest Hj. destruct (decide (j = i)) as [->|Hne]; [rewrite Hnew in Hj; simplify_eq|].
    rewrite Hold in Hj by done. specialize (H2 j c' rest Hj). destruct (publicLock c'); [congruence|done].
  - pose proof (H2 i c _ Hi) as Hw. rewrite Ec in Hw. split; cbn.
    + intros j Hj. destruct (H1 j Hj). set_solver.
    + intros j c' rest Hj. destruct (decide (j = i)) as [->|Hne]; [rewrite Hnew in Hj; simplify_eq|].
      rewrite Hold in Hj by done. specialize (H2 j c' rest Hj). destruct (publicLock c'); [done|set_solver].
    + intros j [Hj Hne]%elem_of_difference. rewrite Hold by set_solver. by apply H3.
Qed.

(** ** The simulation *)

(** The state of the callers' view: while a writer holds the lock its call has not happened
    yet, and what is left of its code finishes what the call does at once. *)
Definition seen (y a : system) : Prop :=
  match sy_writer y with
  | None => a = y
  | Some i => exists c rest s,
      sy_threads y !! i = Some (mkThread c (Holding rest)) /\ exec rest (sy_service y) = publicRun c s /\
      a = mkSystem s None ∅ (<[i := mkThread c Waiting]> (sy_threads y))
  end.

Lemma step_seen i y y' a : locked_ok y -> seen y a -> threadStep i y = Some y' ->
  exists a', rtc atomicStep a a' /\ seen y' a'.
Proof.
  intros Hok Hs Ht. pose proof (step_ok i y y' Hok Ht) as Hok'.
  pose proof Ht as (c & status & Hi & Hc)%threadStep_inv. unfold seen in Hs.
  destruct (sy_writer y) as [w|] eqn:Ew.
  - destruct (lo_writer y Hok w Ew) as [Hr _]. destruct Hs as (cw & rest & s & Hw & He & ->).
    assert (status <> Waiting /\ (forall p, status = Holding p -> i = w)) as [Hnw Hiw].
    { split.
      - intros ->. destruct Hc as [(_ & _ & ? & _)|[(_ & _ & ? & _)|[(? & ? & ? & _)|[(? & ? & _)|(? & ? & _)]]]]; congruence.
      - intros p ->. pose proof (lo_holding y Hok i c p Hi) as Hh. destruct (publicLock c); [congruence|set_solver]. }
    destruct Hc as [(? & _)|[(? & _)|[(next & k & -> & ->)|[(r & -> & Ec & ->)|(r & -> & Ec & ->)]]]]; [done|done| | |].
    + rewrite (Hiw _ eq_refl) in *. simplify_eq. eexists. split; [apply rtc_refl|]. unfold seen. cbn.
      exists cw, (k (sy_service y)), s. split_and!; [apply list_lookup_insert_eq; by eapply lookup_lt_Some|done|].
      by rewrite list_insert_insert_eq.
    + rewrite (Hiw _ eq_refl) in *. simplify_eq. cbn in He.
      eexists. split; [|unfold seen; cbn; reflexivity]. apply rtc_once.
      pose proof (atomic_write w cw (mkSystem s None ∅ (<[w:=mkThread cw Waiting]> (sy_threads y)))) as Ha. cbn in Ha.
      rewrite list_insert_insert_eq, <- He in Ha. cbn in Ha. rewrite Hr. rewrite writing_lock in Ec. apply Ha; [|by destruct (writing cw)|done|done].
      apply list_lookup_insert_eq. by eapply lookup_lt_Some.
    + pose proof (lo_holding y Hok i c _ Hi) as Hh. rewrite Ec in Hh. set_solver.
  - subst a. destruct (publicLock c) eqn:Ec.
    + assert (status = Waiting) as ->.
      { destruct Hc as [(? & _)|[(? & _)|[(next & k & -> & _)|[(r & -> & _)|(r & -> & ? & _)]]]]; [done|done| | |congruence];
          pose proof (lo_holding y Hok i c _ Hi) as Hh; rewrite Ec in Hh; congruence. }
      destruct Hc as [(_ & _ & _ & Hr & ->)|[(_ & ? & _)|[(? & ? & ? & _)|[(? & ? & _)|(? & ? & _)]]]]; [|congruence..].
      exists y. split; [apply rtc_refl|]. unfold seen. cbn. exists c, (publicCode c), (sy_service y).
      split_and!; [apply list_lookup_insert_eq; by eapply lookup_lt_Some|apply exec_public|].
      rewrite list_insert_insert_eq, list_insert_id by done. destruct y; cbn in *; congruence.
    + exists y'. split; [apply rtc_once; eapply atomic_read; [done| |done]; rewrite writing_lock in Ec; by destruct (writing c)|]. unfold seen.
      destruct Hc as [(_ & ? & _)|[(_ & _ & _ & ->)|[(next & k & -> & ->)|[(r & _ & ? & _)|(r & -> & _ & ->)]]]]; cbn; by rewrite ?Ew.
Qed.

Lemma run_seen schedule y a : locked_ok y -> seen y a ->
  exists a', rtc atomicStep a a' /\ locked_ok (runSchedule schedule y) /\ seen (runSchedule schedule y) a'.
Proof.
  revert y a. induction schedule as [|i schedule IH]; intros y a Hok Hs; [by eauto using rtc_refl|]. cbn.
  destruct (threadStep i y) as [y'|] eqn:Ei; cbn; [|by apply IH].
  destruct (step_seen i y y' a Hok Hs Ei) as (a1 & H1 & Hs1).
  destruct (IH y' a1 (step_ok i y y' Hok Ei) Hs1) as (a2 & H2 & H3). exists a2. split; [by etrans|done].
Qed.

Lemma schedule_atomic (s : EngineService E) (calls : list publicCall) (schedule : list nat) :
  sy_writer (runSchedule schedule (startSystem s calls)) = None ->
  rtc atomicStep (startSystem s calls) (runSchedule schedule (startSystem s calls)).
Proof.
  intros Hw. destruct (run_seen schedule (startSystem s calls) (startSystem s calls) (start_ok s calls)) as (a & Ha & _ & Hs).
  - done.
  - unfold seen in Hs. rewrite Hw in Hs. by subst a.
Qed.

(** C5: However the engine calls of concurrent service calls interleave, a state in which no
    writer holds the lock is one the callers could have seen had every writing call and
    every transaction happened at once, with no reader in the middle of its call; the
    replies are the same. *)
Theorem writers_are_atomic (s : EngineService E) (calls : list publicCall) (schedule : list nat) :
  sy_writer (runSchedule schedule (startSystem s calls)) = None ->
  rtc atomicStep (startSystem s calls) (runSchedule schedule (startSystem s calls)).
Proof. apply schedule_atomic. Qed.

Definition isFinished (t : thread) : bool := match th_status t with Finished _ => true | _ => false end.

Lemma holding_steps i y c rest : sy_threads y !! i = Some (mkThread c (Holding rest)) -> is_Some (threadStep i y).
Proof. intros H. unfold threadStep. rewrite H. destruct rest; [destruct (publicLock c)|]; by eexists. Qed.

(** No schedule deadlocks: while a thread has not returned, some thread can take a step. *)
Lemma threads_progress s calls schedule :
  let y := runSchedule schedule (startSystem s calls) in
  Forall (fun t => isFinished t = true) (sy_threads y) \/ exists i, is_Some (threadStep i y).
Proof.
  cbn zeta. destruct (run_seen schedule (startSystem s calls) (startSystem s calls) (start_ok s calls) eq_refl) as (_ & _ & Hok & _).
  revert Hok. generalize (runSchedule schedule (startSystem s calls)) as y. intros y Hok.
  destruct (decide (Forall (fun t => isFinished t = true) (sy_threads y))) as [|Hno]; [by left|right].
  apply not_Forall_Exists, Exists_exists in Hno as ([c status] & [i Hi]%list_elem_of_lookup & Hf); [|apply _].
  destruct status as [|rest|reply]; [|eauto using holding_steps|by destruct Hf].
  destruct (sy_writer y) as [w|] eqn:Ew.
  { destruct (lo_writer y Hok w Ew) as (_ & cw & rest & Hw & _). eauto using holding_steps. }
  destruct (decide (sy_readers y = ∅)) as [Er|[j Hj]%set_choose_L]; [|destruct (lo_readers y Hok j Hj) as (? & ? & ?); eauto using holding_steps].
  exists i. unfold threadStep. rewrite Hi, Ew. destruct (publicLock c); [rewrite bool_decide_eq_true_2 by done|]; by eexists.
Qed.
End Locks.

(** ** Quotas under concurrency *)

Section Quotas.
  Context {E : Type} `{!Engine E, !EngineContract E}.

(** A set, or a get without version filters, of a key of bounded length. *)
Definition client_call (c : publicCall) : Prop :=
  match c with
  | Direct (CallSet key value opts) _ => key_ok key /\ is_u64 (so_expectedVersion opts)
  | Direct (CallGet key opts) _ => key_ok key /\ opts = mkGetOptions 0 0
  | _ => False
  end.

Definition call_cost (c : publicCall) : Z :=
  match c with Direct (CallSet key value _) _ => costOf key value | _ => 0 end.

(** What a thread that waits may still add: entries and bytes. *)
Definition mayAdd (f : publicCall -> Z) (t : @thread E) : Z :=
  match th_status t with Waiting => f (th_call t) | _ => 0 end.

Definition one (c : publicCall) : Z := match c with Direct (CallSet _ _ _) _ => 1 | _ => 0 end.

(** What holds of the service whatever the clients have done so far. *)
Record quota_kept (q : QuotaConfig) (y : @system E) : Prop := {
  qk_ok : svc_ok (sy_service y);
  qk_quota : svc_quota (sy_service y) = q;
  qk_within : within q (svc_table (sy_service y));
  qk_size : Z.of_nat (size (svc_table (sy_service y))) + lsum (mayAdd one) (sy_threads y) < 2 ^ 64;
  qk_bytes : total_cost (svc_table (sy_service y)) + lsum (mayAdd call_cost) (sy_threads y) < 2 ^ 64;
  qk_calls : Forall (fun t => client_call (th_call t)) (sy_threads y);
  qk_rest : Forall (fun t => forall rest, th_status t = Holding rest ->
                      rest = publicCode (th_call t) \/ exists reply, rest = Ret reply) (sy_threads y)
}.

Lemma mayAdd_nonneg f (l : list (@thread E)) : (forall c, 0 <= f c) -> 0 <= lsum (mayAdd f) l.
Proof. intros Hf. apply lsum_nonneg. intros [c status] _. unfold mayAdd. destruct status; cbn; [apply Hf|lia|lia]. Qed.

Lemma one_nonneg c : 0 <= one c.
Proof. unfold one. destruct c as [[]|]; lia. Qed.

Lemma call_cost_nonneg c : 0 <= call_cost c.
Proof. unfold call_cost. destruct c as [[]|]; try lia. apply costOf_nonneg. Qed.

(** A set that happens at once keeps the quotas. *)
Lemma set_step_kept q y i c : quota_kept q y -> sy_threads y !! i = Some (mkThread c Waiting) -> writing c = true ->
  quota_kept q (mkSystem (publicRun c (sy_service y)).1 None ∅
    (<[i := mkThread c (Finished (publicRun c (sy_service y)).2)]> (sy_threads y))).
Proof.
  intros [H1 H2 H3 H4 H5 H6 H7] Hi Hw. pose proof (Forall_lookup_1 _ _ _ _ H6 Hi) as Hc. cbn in Hc.
  destruct c as [[key value opts|key opts| | | | | | | | | | | | | | | | ] clock|]; try done. destruct Hc as [Hk Hx].
  pose proof (mayAdd_nonneg one (sy_threads y) one_nonneg). pose proof (mayAdd_nonneg call_cost (sy_threads y) call_cost_nonneg).
  set (c := Direct (CallSet key value opts) clock) in *.
  assert (forall f r, lsum (mayAdd f) (<[i := mkThread c (Finished r)]> (sy_threads y)) = lsum (mayAdd f) (sy_threads y) - f c) as Hsum.
  { intros f r. rewrite (lsum_update _ _ _ _ _ Hi). unfold mayAdd. cbn. lia. }
  pose proof (Hsum one (RepliesStats (Err ErrQuotaExceeded))) as Ho. pose proof (Hsum call_cost (RepliesStats (Err ErrQuotaExceeded))) as Hb.
  cbn in Ho, Hb.
  pose proof (mayAdd_nonneg one (<[i := mkThread c (Finished (RepliesStats (Err ErrQuotaExceeded)))]> (sy_threads y)) one_nonneg).
  pose proof (mayAdd_nonneg call_cost (<[i := mkThread c (Finished (RepliesStats (Err ErrQuotaExceeded)))]> (sy_threads y)) call_cost_nonneg).
  destruct (setLocked_spec (sy_service y) key value opts (clock 0%nat) H1 Hk Hx) as (s' & r & Hr & Hs' & Hq' & Hwi & [_ _ Hsz Hby] & _).
  { unfold has_room. lia. }
  assert (publicRun c (sy_service y) = (s', RepliesSet r)) as -> by (cbn; by rewrite Hr).
  split; cbn [sy_service sy_threads fst snd]; rewrite ?Hsum; [done|congruence|rewrite H2 in Hwi; auto|cbn; lia|cbn; lia| |].
  - apply Forall_insert; [done|]. by split.
  - apply Forall_insert; [done|]. intros rest [=].
Qed.
(** A table none of whose classes of keys has grown is within the quotas the first was in. *)
Lemma within_keys q m m' :
  (forall P, (forall e f, e_key e = e_key f -> P e = P f) -> class_cost P m' <= class_cost P m) -> within q m -> within q m'.
Proof.
  intros Hle [Hs Hn]. split.
  - intros ns sp Hl. specialize (Hs ns sp Hl). specialize (Hle (in_space (mkSpaceKey ns sp))).
    unfold class_cost, space_cost in *. etrans; [apply Hle|done]. intros e f He. unfold in_space. by rewrite He.
  - intros ns Hl. specialize (Hn ns Hl). specialize (Hle (in_namespace ns)).
    unfold namespace_cost in *. etrans; [apply Hle|done]. intros e f He. unfold in_namespace. by rewrite He.
Qed.

(** The engine call of a get keeps the quotas. *)
Lemma get_kept (s : EngineService E) key now : svc_ok s -> key_ok key ->
  let s' := withEngine (eng_Get (svc_engine s) key (mkGetOptions 0 0) now).1 s in
  svc_ok s' /\ svc_quota s' = svc_quota s /\ (within (svc_quota s) (svc_table s) -> within (svc_quota s) (svc_table s')) /\
  Z.of_nat (size (svc_table s')) <= Z.of_nat (size (svc_table s)) /\ total_cost (svc_table s') <= total_cost (svc_table s).
Proof.
  intros Hs Hk. cbn zeta. destruct (currentRecord_spec s key now Hs Hk) as (s' & r & found & Hr & Hok & Hq & _ & _ & _ & _ & Hsz & Hc).
  unfold currentRecord, onEngine in Hr. destruct (eng_Get _ _ _ _) as [e [rf [err|]]]; [done|]. simplify_eq. cbn [fst].
  split_and!; [done|done|by apply within_keys|done|]. change total_cost with (class_cost (fun _ => true)). by apply Hc.
Qed.

(** The next step of a get that holds the lock. *)
Lemma get_code key opts clock next k : publicCode (Direct (CallGet key opts) clock) = Step next k ->
  forall s : EngineService E, next s = withEngine (eng_Get (svc_engine s) key opts (clock 0%nat 0%nat)).1 s /\ exists reply, k s = Ret reply.
Proof.
  intros [= <- <-] s. split; [done|]. destruct ((eng_Get _ _ _ _).2.2); by eexists.
Qed.

Lemma get_step_kept q y y' i c status : quota_kept q y -> sy_threads y !! i = Some (mkThread c status) -> writing c = false ->
  threadStep i y = Some y' -> quota_kept q y'.
Proof.
  intros [H1 H2 H3 H4 H5 H6 H7] Hi Hw (c' & status' & Hi' & Hc)%threadStep_inv.
  rewrite Hi in Hi'. injection Hi' as <- <-.
  pose proof (Forall_lookup_1 _ _ _ _ H6 Hi) as Hcl. pose proof (Forall_lookup_1 _ _ _ _ H7 Hi) as Hre. cbn in Hcl, Hre.
  destruct c as [[key value opts|key opts| | | | | | | | | | | | | | | | ] clock|]; try done. destruct Hcl as [Hk ->].
  set (c := Direct (CallGet key (mkGetOptions 0 0)) clock) in *.
  assert (forall f status', f c = 0 -> lsum (mayAdd f) (<[i := mkThread c status']> (sy_threads y)) = lsum (mayAdd f) (sy_threads y)) as Hsum.
  { intros f status' Hf. rewrite (lsum_update _ _ _ _ _ Hi). unfold mayAdd. cbn. destruct status, status'; lia. }
  assert (forall st, Forall (fun t => client_call (th_call t)) (<[i := mkThread c st]> (sy_threads y))) as Hcalls.
  { intros st. apply Forall_insert; [done|]. by split. }
  destruct Hc as [(_ & [=] & _)|[(-> & _ & _ & ->)|[(next & k & -> & ->)|[(r & _ & [=] & _)|(r & -> & _ & ->)]]]].
  - split; cbn [sy_service sy_threads]; rewrite ?Hsum by done; try done. apply Forall_insert; [done|]. cbn. intros rest [= <-]. by left.
  - destruct (Hre _ eq_refl) as [Hre'|[? [=]]]. destruct (get_code _ _ _ _ _ (eq_sym Hre') (sy_service y)) as [Hn [reply Hkr]].
    destruct (get_kept (sy_service y) key (clock 0%nat 0%nat) H1 Hk) as (G1 & G2 & G3 & G4 & G5). rewrite H2 in G2, G3.
    split; cbn [sy_service sy_threads]; rewrite ?Hsum, ?Hn by done; [done|done|by apply G3|lia|lia|done|].
    apply Forall_insert; [done|]. cbn. intros rest [= <-]. right. by exists reply.
  - split; cbn [sy_service sy_threads]; rewrite ?Hsum by done; try done. apply Forall_insert; [done|]. cbn. intros rest [=].
Qed.

(** C6: clients that set keys, and get keys without asking for versions, concurrently never
    take a space or a namespace over its quota, whatever the schedule of their engine
    calls: in every state in which no write is in progress the quotas hold, since the
    check of a quota and the write it admits are not separated by another write. *)
Theorem concurrent_sets_keep_quota (s : EngineService E) (calls : list publicCall) (schedule : list nat) :
  svc_ok s -> within (svc_quota s) (svc_table s) -> Forall client_call calls ->
  Z.of_nat (size (svc_table s)) + lsum one calls < 2 ^ 64 -> total_cost (svc_table s) + lsum call_cost calls < 2 ^ 64 ->
  sy_writer (runSchedule schedule (startSystem s calls)) = None ->
  within (svc_quota s) (svc_table (sy_service (runSchedule schedule (startSystem s calls)))).
Proof.
  intros Hs Hw Hc Hsz Hb Hn%schedule_atomic. apply qk_within. revert Hn.
  generalize (runSchedule schedule (startSystem s calls)) as y. apply rtc_ind_r.
  - split; cbn [startSystem sy_service sy_threads]; rewrite ?lsum_fmap; [done..| |].
    + by apply Forall_fmap.
    + apply Forall_fmap, Forall_forall. intros c _ rest [=].
  - intros y y' _ Hstep IH. destruct Hstep as [i c y Hi Hwr _ _|i c status y y' Hi Hwr Hst].
    + by apply set_step_kept.
    + by eapply get_step_kept.
Qed.
End Quotas.

(** ** Instances *)

#[local] Existing Instance sample_codecs.
#[local] Existing Instance sample_math.
#[local] Existing Instance canonical_order.

(** A set and a get of the cart, and a transaction that reads a key and sets another. *)
Definition cartClock : callClock := fun i j => 300 + Z.of_nat (i + j).
Definition cartCalls : list publicCall :=
  [Direct (CallSet k3 (str_bytes "12 plums") (mkSetOptions 0 0 0 0)) cartClock;
   Direct (CallGet k1 (mkGetOptions 0 0)) cartClock;
   Direct (CallSet k3 (str_bytes "9 plums") (mkSetOptions 0 0 0 0)) cartClock].

Definition cartBody : txBody :=
  TxCall (CallGet k1 (mkGetOptions 0 0)) cartClock (fun reply =>
    TxCall (CallSet k3 (str_bytes "12 plums") (mkSetOptions 0 0 0 0)) cartClock (fun _ => TxReturn None)).

(** The threads in turn, often enough for all to return. *)
Definition inTurn (n : nat) : list nat := concat (replicate n [0%nat; 1%nat; 2%nat]).

Lemma writers_are_atomic_witness :
  rtc atomicStep (startSystem cartService (InTransaction cartBody :: cartCalls))
    (runSchedule (inTurn 30) (startSystem cartService (InTransaction cartBody :: cartCalls))).
Proof. apply writers_are_atomic. vm_compute. reflexivity. Defined.

Lemma concurrent_sets_keep_quota_witness :
  within cartQuota (svc_table (sy_service (runSchedule (inTurn 30) (startSystem cartService cartCalls)))).
Proof.
  apply (concurrent_sets_keep_quota cartService cartCalls (inTurn 30));
    [apply cartService_ok|apply cartService_within| |vm_compute; reflexivity|vm_compute; reflexivity|vm_compute; reflexivity].
  repeat constructor; first [apply k3_ok|apply k1_ok|vm_compute; discriminate|vm_compute; reflexivity].
Defined.

(** All the threads of the schedule return. *)
Lemma in_turn_returns :
  forallb isFinished (sy_threads (runSchedule (inTurn 30) (startSystem cartService cartCalls))) = true.
Proof. vm_compute. reflexivity. Qed.

(** ** The sweeper is outside the lock *)

(** The next engine call of a program. *)
Definition stepOnce {S A} (p : program S A) (s : S) : S * program S A :=
  match p with Ret a => (s, Ret a) | Step next k => (next s, k s) end.

(** The cart with an entry that expires at 200. *)
Definition expiringCart : EngineService MemoryEngine :=
  let e := (eng_Set (NewMemory 2) k1 (str_bytes "3 pears") (mkSetOptions 100 0 0 0) 100).1 in
  mkService (eng_Set e k2 (str_bytes "7") (mkSetOptions 0 0 0 0) 100).1 cartQuota.

(** The set reads its key at 199 and writes it at 210; the sweeper runs at 200, between the
    reading and the statistics. *)
Definition sweptSet : EngineService MemoryEngine * result serviceError SetResult :=
  let set := setCode k1 (replicate 25 Byte.x2a) (mkSetOptions 0 0 0 0) (fun i => nth i [199; 205; 210] 0) in
  let '(s, rest) := stepOnce set expiringCart in
  let '(s, rest) := stepOnce rest s in
  exec rest (withEngine (SweepExpired LiveContext (svc_engine s) 200).1 s).

Definition cartBytes (s : EngineService MemoryEngine) : Z := space_cost (mkSpaceKey "shop" "cart") (svc_table s).

(** A sweep that removes the key's own entry between the two readings of an admission lets
    the set take its space over the quota: the bytes of the old entry are taken off twice.
    Without the sweep the same set keeps the space within its 40 bytes. *)
Theorem sweep_breaks_quota :
  cartBytes expiringCart = 32 /\
  (exists r, sweptSet.2 = Ok r /\ sr_found r = true) /\ cartBytes sweptSet.1 = 50 /\
  cartBytes (setLocked expiringCart k1 (replicate 25 Byte.x2a) (mkSetOptions 0 0 0 0) (fun i => nth i [199; 205; 210] 0)).1 = 38.
Proof.
  split_and!; [vm_compute; reflexivity| |vm_compute; reflexivity|vm_compute; reflexivity].
  eexists. split; vm_compute; reflexivity.
Qed.

