(* ===== verification/ControlRoutes.v ===== *)
(** * Routes and migration tasks (control: routing.go, rebalance.go, migration_routes.go)

    The route table a set of nodes and spaces gives, the migration tasks between
    two route tables, and the overrides that keep a slot at its source until its
    task has cut over. *)

From S2P Require Import Prelude.
From S2P Require Import ControlApi.

Local Open Scope Z_scope.
Local Open Scope nespa_scope.

(** src: control/state.go nodeStateHealthy 15-15 *)
Definition nodeStateHealthy : string := "healthy".
(** src: control/state.go nodeStateSuspect 16-16 *)
Definition nodeStateSuspect : string := "suspect".
(** src: control/state.go nodeStateDead 17-17 *)
Definition nodeStateDead : string := "dead".

(** ** Slots *)

(** src: control/routing.go checkedUint64 *)
Definition checkedUint64 (value : Z) : Z := if value <? 0 then 0 else value.

(** src: control/routing.go checkedVSlot *)
Definition checkedVSlot (value : Z) : Z := if VSlotMax <? value then VSlotMax else u32 value.

(** src: control/routing.go vslotRange *)
Definition vslotRange (index count : Z) : Z * Z :=
  let start := u64 (checkedUint64 index * VSlotCount) / checkedUint64 count in
  let stop := u64 (u64 (checkedUint64 (index + 1) * VSlotCount) / checkedUint64 count - 1) in
  (checkedVSlot start, checkedVSlot stop).

(** ** Route tables *)

(** src: control/routing.go healthyNodes *)
Definition healthyNodes (nodes : list NodeBody) : list NodeBody :=
  filter (fun node => nb_state node = nodeStateHealthy) nodes.

(** src: control/routing.go routeReplicaLimit *)
Definition routeReplicaLimit (nodeCount replicaCount : Z) : Z :=
  if (nodeCount <=? 1) || (replicaCount <=? 0) then 0
  else if nodeCount <=? replicaCount then nodeCount - 1
  else replicaCount.

(** src: control/routing.go defaultRouteReplicaCount 9-9 *)
Definition defaultRouteReplicaCount : Z := 1.

(** The index is always in range; [zeroNode] stands for an access that panics.
    src: control/routing.go routeReplicas *)
Definition routeReplicas (nodes : list NodeBody) (primaryIndex replicaCount : Z) : list RouteReplicaBody :=
  let limit := routeReplicaLimit (zlen nodes) replicaCount in
  (fun offset =>
    let node := nth (Z.to_nat ((primaryIndex + Z.of_nat offset) mod zlen nodes)) nodes zeroNode in
    mkReplica (nb_nodeID node) (nb_addr node) 1) <$> seq 1 (Z.to_nat limit).

(** src: control/routing.go routesForSpace *)
Definition routesForSpace (healthy : list NodeBody) (space : SpaceBody) : list RouteBody :=
  imap (fun index node =>
    let '(start, stop) := vslotRange (Z.of_nat index) (zlen healthy) in
    mkRoute (sp_namespace space) (sp_space space) start stop (nb_nodeID node) (nb_addr node) 1
      (routeReplicas healthy (Z.of_nat index) defaultRouteReplicaCount)) healthy.

(** src: control/routing.go routesForNodes *)
Definition routesForNodes (nodes : list NodeBody) (spaces : list SpaceBody) : list RouteBody :=
  let healthy := healthyNodes nodes in
  match healthy with
  | [] => []
  | _ =>
      match spaces with
      | [] => routesForSpace healthy zeroSpace
      | _ => spaces ≫= routesForSpace healthy
      end
  end.

(** ** Migration tasks between two tables *)

(** src: control/rebalance.go minUint32 *)
Definition minUint32 (left right : Z) : Z := if left <? right then left else right.

(** src: control/rebalance.go maxUint32 *)
Definition maxUint32 (left right : Z) : Z := if right <? left then left else right.

(** src: control/rebalance.go sameRouteScope *)
Definition sameRouteScope (left right : RouteBody) : bool :=
  bool_decide (rt_namespace left = rt_namespace right) && bool_decide (rt_space left = rt_space right).

(** src: control/rebalance.go emptyRouteScope *)
Definition emptyRouteScope (route : RouteBody) : bool :=
  bool_decide (rt_namespace route = "") && bool_decide (rt_space route = "").

(** src: control/rebalance.go routeOverlap *)
Definition routeOverlap (left right : RouteBody) : Z * Z * bool :=
  let start := maxUint32 (rt_start left) (rt_start right) in
  let stop := minUint32 (rt_end left) (rt_end right) in
  (start, stop, start <=? stop).

(** src: control/rebalance.go migrationTaskRange *)
Definition migrationTaskRange (previous current : RouteBody) : Z * Z * bool :=
  if emptyRouteScope previous || negb (sameRouteScope previous current)
     || bool_decide (rt_nodeID previous = rt_nodeID current)
  then (0, 0, false)
  else routeOverlap previous current.

(** src: control/migration_state.go migrationTaskPlanned 13-13 *)
Definition migrationTaskPlanned : string := "planned".
(** src: control/migration_state.go migrationTaskRunning 14-14 *)
Definition migrationTaskRunning : string := "running".
(** src: control/migration_state.go migrationTaskCleanup 15-15 *)
Definition migrationTaskCleanup : string := "cleanup".
(** src: control/migration_state.go migrationTaskDone 16-16 *)
Definition migrationTaskDone : string := "done".
(** src: control/migration_state.go migrationTaskFailed 17-17 *)
Definition migrationTaskFailed : string := "failed".

(** src: control/rebalance.go migrationTaskForRoute *)
Definition migrationTaskForRoute (event : RebalanceEventBody) (previous current : RouteBody) (start stop : Z)
    : MigrationTaskBody :=
  mkTask 0 0 (ev_revision event) (rt_namespace current) (rt_space current) start stop
    (rt_nodeID previous) (rt_addr previous) (rt_nodeID current) (rt_addr current)
    "planned" (ev_createdAtUnix event) 0 0 0 0 0 0 0 "".

(** src: control/rebalance.go migrationTasksForRoute *)
Definition migrationTasksForRoute (event : RebalanceEventBody) (previousRoutes : list RouteBody)
    (current : RouteBody) : list MigrationTaskBody :=
  if emptyRouteScope current then []
  else
    previousRoutes ≫= (fun previous =>
      match migrationTaskRange previous current with
      | (start, stop, true) => [migrationTaskForRoute event previous current start stop]
      | (_, _, false) => []
      end).

(** src: control/rebalance.go buildMigrationTasks *)
Definition buildMigrationTasks (event : RebalanceEventBody) (previousRoutes currentRoutes : list RouteBody)
    : list MigrationTaskBody :=
  currentRoutes ≫= migrationTasksForRoute event previousRoutes.

(** ** Overrides *)

(** src: control/migration_routes.go migrationTaskRoutesSource *)
Definition migrationTaskRoutesSource (task : MigrationTaskBody) : bool :=
  (mt_cutoverAtUnix task =? 0) && negb (bool_decide (mt_state task = migrationTaskDone)).

(** src: control/migration_routes.go taskRouteOverlap *)
Definition taskRouteOverlap (route : RouteBody) (task : MigrationTaskBody) : Z * Z * bool :=
  if negb (bool_decide (rt_namespace route = mt_namespace task))
     || negb (bool_decide (rt_space route = mt_space task))
  then (0, 0, false)
  else
    let start := maxUint32 (rt_start route) (mt_start task) in
    let stop := minUint32 (rt_end route) (mt_end task) in
    (start, stop, start <=? stop).

(** src: control/migration_routes.go sourceRouteForTask *)
Definition sourceRouteForTask (task : MigrationTaskBody) : RouteBody :=
  mkRoute (mt_namespace task) (mt_space task) 0 0 (mt_sourceNodeID task) (mt_sourceAddr task) 1 [].

(** [route.VSlotStart = start; route.VSlotEnd = end]. *)
Definition withRange (start stop : Z) (route : RouteBody) : RouteBody :=
  mkRoute (rt_namespace route) (rt_space route) start stop (rt_nodeID route) (rt_addr route)
    (rt_weight route) (rt_replicas route).

(** src: control/migration_routes.go appendRouteSegment *)
Definition appendRouteSegment (routes : list RouteBody) (route : RouteBody) (start stop : Z) : list RouteBody :=
  if stop <? start then routes else routes ++ [withRange start stop route].

(** The body of the loop of [overrideRouteRange].
    src: control/migration_routes.go overrideRouteRange 40-54 *)
Definition overrideOne (task : MigrationTaskBody) (out : list RouteBody) (route : RouteBody) : list RouteBody :=
  match taskRouteOverlap route task with
  | (_, _, false) => out ++ [route]
  | (start, stop, true) =>
      let out := if rt_start route <? start
                 then appendRouteSegment out route (rt_start route) (u32 (start - 1)) else out in
      let out := appendRouteSegment out (sourceRouteForTask task) start stop in
      if stop <? rt_end route then appendRouteSegment out route (u32 (stop + 1)) (rt_end route) else out
  end.

(** src: control/migration_routes.go overrideRouteRange *)
Definition overrideRouteRange (routes : list RouteBody) (task : MigrationTaskBody) : list RouteBody :=
  foldl (overrideOne task) [] routes.

Definition route_le (a b : RouteBody) : Prop :=
  (if negb (bool_decide (rt_namespace a = rt_namespace b)) then String.leb (rt_namespace a) (rt_namespace b)
   else if negb (bool_decide (rt_space a = rt_space b)) then String.leb (rt_space a) (rt_space b)
   else rt_start a <=? rt_start b) = true.

#[global] Instance route_le_dec a b : Decision (route_le a b).
Proof. unfold route_le. apply _. Defined.

(** src: control/migration_routes.go sortRoutes *)
Definition sortRoutes (routes : list RouteBody) : list RouteBody := merge_sort route_le routes.

(** src: control/migration_routes.go applyMigrationRouteOverrides *)
Definition applyMigrationRouteOverrides (routes : list RouteBody) (plans : list MigrationPlanBody)
    : list RouteBody :=
  let out :=
    foldl (fun out plan =>
      foldl (fun out task => if migrationTaskRoutesSource task then overrideRouteRange out task else out)
        out (mp_tasks plan)) routes plans in
  sortRoutes out.
