(* ===== verification/ControlRoutesSpec.v ===== *)
(** * What the route tables promise

    Every slot of every catalogued space has exactly one owner among the healthy
    nodes; the tasks of a plan are exactly the slots whose owner changes; and the
    overrides keep a slot at its source until its task has cut over. *)

From S2P Require Import Prelude.
From S2P Require Import ControlApi.
From S2P Require Import ControlRoutes.

Local Open Scope Z_scope.
Local Open Scope nespa_scope.

(** ** Slots *)

(** The index of the node that owns a slot, among [n]. *)
Definition slotIndex (n slot : Z) : Z := ((slot + 1) * n - 1) / VSlotCount.

Definition is_slot (slot : Z) : Prop := 0 <= slot <= VSlotMax.

Lemma slotIndex_range n slot : 0 < n -> is_slot slot -> 0 <= slotIndex n slot < n.
Proof.
  unfold is_slot, slotIndex, VSlotMax, VSlotCount. intros Hn Hs. split.
  - apply Z.div_pos; nia.
  - apply Z.div_lt_upper_bound; nia.
Qed.

Lemma vslotRange_bounds n i : 0 < n <= VSlotCount -> 0 <= i < n ->
  vslotRange i n = (i * VSlotCount / n, (i + 1) * VSlotCount / n - 1) /\
  0 <= i * VSlotCount / n <= (i + 1) * VSlotCount / n - 1 /\ (i + 1) * VSlotCount / n - 1 <= VSlotMax.
Proof.
  intros Hn Hi. unfold vslotRange, checkedUint64. rewrite !(proj2 (Z.ltb_ge _ _)) by lia.
  assert (0 <= i * VSlotCount / n) as H1 by (apply Z.div_pos; unfold VSlotCount in *; lia).
  assert (i * VSlotCount / n + 1 <= (i + 1) * VSlotCount / n) as H2.
  { rewrite <- Z.div_add by lia. apply Z.div_le_mono; unfold VSlotCount in *; lia. }
  assert ((i + 1) * VSlotCount / n <= VSlotCount) as H3.
  { apply Z.div_le_upper_bound; [lia|]. unfold VSlotCount in *. nia. }
  rewrite (u64_small (i * VSlotCount)), (u64_small ((i + 1) * VSlotCount))
    by (unfold is_u64, VSlotCount in *; nia).
  rewrite u64_small by (unfold is_u64, VSlotCount in *; lia).
  split; [|unfold VSlotMax; lia]. unfold checkedVSlot, VSlotMax.
  rewrite !(proj2 (Z.ltb_ge _ _)) by lia.
  by rewrite !u32_small by (unfold is_u32, VSlotCount in *; lia).
Qed.

(** The ranges of [n] nodes partition the slots. *)
Lemma vslotRange_slotIndex n i slot : 0 < n <= VSlotCount -> 0 <= i < n -> is_slot slot ->
  (vslotRange i n).1 <= slot <= (vslotRange i n).2 <-> i = slotIndex n slot.
Proof.
  intros Hn Hi Hs. destruct (vslotRange_bounds n i Hn Hi) as [-> _]. cbn [fst snd].
  unfold slotIndex, is_slot in *.
  assert (i * VSlotCount / n <= slot <-> i * VSlotCount <= (slot + 1) * n - 1) as ->.
  { split; intros H.
    - destruct (Z.le_gt_cases ((slot + 1) * n) (i * VSlotCount)) as [H'|]; [|lia].
      assert (slot + 1 <= i * VSlotCount / n); [|lia]. apply Z.div_le_lower_bound; lia.
    - assert (i * VSlotCount / n < slot + 1); [|lia]. apply Z.div_lt_upper_bound; lia. }
  assert (slot <= (i + 1) * VSlotCount / n - 1 <-> (slot + 1) * n - 1 < (i + 1) * VSlotCount) as ->.
  { split; intros H.
    - assert (slot + 1 <= (i + 1) * VSlotCount / n) as H' by lia.
      pose proof (Z.mul_div_le ((i + 1) * VSlotCount) n ltac:(lia)). nia.
    - assert (slot + 1 <= (i + 1) * VSlotCount / n); [|lia]. apply Z.div_le_lower_bound; lia. }
  split.
  - intros [H1 H2]. apply (Z.div_unique_pos _ _ _ ((slot + 1) * n - 1 - VSlotCount * i)); unfold VSlotCount in *; lia.
  - intros ->. pose proof (Z.div_mod ((slot + 1) * n - 1) VSlotCount ltac:(done)).
    pose proof (Z.mod_pos_bound ((slot + 1) * n - 1) VSlotCount ltac:(done)). unfold VSlotCount in *. lia.
Qed.

(** ** Owners *)

Definition covers (ns sp : string) (slot : Z) (r : RouteBody) : Prop :=
  rt_namespace r = ns /\ rt_space r = sp /\ rt_start r <= slot <= rt_end r.

#[global] Instance covers_dec ns sp slot r : Decision (covers ns sp slot r).
Proof. unfold covers. apply _. Defined.

(** The node and the address a route leads to. *)
Definition owner_of (r : RouteBody) : string * string := (rt_nodeID r, rt_addr r).

(** The owners of a slot of a space in a table. *)
Definition owners (routes : list RouteBody) (ns sp : string) (slot : Z) : list (string * string) :=
  owner_of <$> filter (covers ns sp slot) routes.

(** A range of slots. *)
Definition route_ok (r : RouteBody) : Prop := 0 <= rt_start r <= rt_end r /\ rt_end r <= VSlotMax.

Lemma owners_app r1 r2 ns sp slot : owners (r1 ++ r2) ns sp slot = owners r1 ns sp slot ++ owners r2 ns sp slot.
Proof. unfold owners. by rewrite filter_app, fmap_app. Qed.

Lemma owners_cons r rs ns sp slot : owners (r :: rs) ns sp slot = owners [r] ns sp slot ++ owners rs ns sp slot.
Proof. apply (owners_app [r] rs). Qed.

Lemma owners_one r ns sp slot : owners [r] ns sp slot = if decide (covers ns sp slot r) then [owner_of r] else [].
Proof. unfold owners. rewrite filter_cons, filter_nil. by case_decide. Qed.

Lemma owners_perm r1 r2 ns sp slot : r1 ≡ₚ r2 -> owners r1 ns sp slot ≡ₚ owners r2 ns sp slot.
Proof. intros Hp. unfold owners. by rewrite Hp. Qed.

(** A filter that holds at one index of a mapped list. *)
Lemma filter_imap_one {A B} (P : B -> Prop) `{!forall b, Decision (P b)} (f : nat -> A -> B) (l : list A) i0 x :
  l !! i0 = Some x -> (forall i y, l !! i = Some y -> P (f i y) <-> i = i0) -> filter P (imap f l) = [f i0 x].
Proof.
  revert f i0. induction l as [|a l IH]; intros f i0 Hx HP; [done|]. rewrite imap_cons, filter_cons.
  destruct i0 as [|i0].
  - injection Hx as ->. rewrite decide_True by (by apply HP). f_equal.
    rewrite filter_none; [done|]. intros b (i & y & -> & Hi)%elem_of_lookup_imap_1. cbn.
    intros Hb. by apply (HP (S i) y) in Hb.
  - rewrite decide_False by (intros Hb; by apply (HP 0%nat a) in Hb).
    apply (IH (f ∘ S)); [done|]. intros i y Hi. rewrite <- Nat.succ_inj_wd. by apply (HP (S i)).
Qed.

(** The owner of a slot when [n] nodes share it. *)
Definition shared_owner (healthy : list NodeBody) (slot : Z) : string * string :=
  let node := nth (Z.to_nat (slotIndex (zlen healthy) slot)) healthy zeroNode in (nb_nodeID node, nb_addr node).

Lemma routesForSpace_owners healthy space slot : 0 < zlen healthy <= VSlotCount -> is_slot slot ->
  owners (routesForSpace healthy space) (sp_namespace space) (sp_space space) slot = [shared_owner healthy slot].
Proof.
  intros Hn Hs. unfold owners, routesForSpace.
  pose proof (slotIndex_range _ _ (proj1 Hn) Hs) as Hi. unfold zlen in Hi.
  destruct (lookup_lt_is_Some_2 healthy (Z.to_nat (slotIndex (zlen healthy) slot))) as [x Hx]; [unfold zlen in *; lia|].
  rewrite (filter_imap_one _ _ _ _ x Hx).
  - rewrite list_fmap_singleton. unfold shared_owner, owner_of. rewrite (nth_lookup_Some _ _ _ _ Hx).
    by destruct (vslotRange _ _).
  - intros i y Hy. apply lookup_lt_Some in Hy.
    pose proof (vslotRange_slotIndex (zlen healthy) (Z.of_nat i) slot Hn ltac:(unfold zlen; lia) Hs) as Hr.
    destruct (vslotRange _ _) as [a b]. unfold covers. cbn in *. unfold zlen in *. naive_solver lia.
Qed.

Lemma routesForSpace_scope healthy space r : r ∈ routesForSpace healthy space ->
  rt_namespace r = sp_namespace space /\ rt_space r = sp_space space.
Proof.
  unfold routesForSpace. intros (i & y & -> & Hi)%elem_of_lookup_imap_1. by destruct (vslotRange _ _).
Qed.

Lemma routesForSpace_ok healthy space r : zlen healthy <= VSlotCount -> r ∈ routesForSpace healthy space -> route_ok r.
Proof.
  unfold routesForSpace. intros Hn (i & y & -> & Hi)%elem_of_lookup_imap_1.
  apply lookup_lt_Some in Hi. unfold zlen in Hn.
  destruct (vslotRange_bounds (Z.of_nat (length healthy)) (Z.of_nat i)) as [E Hb]; [lia|lia|].
  unfold zlen. rewrite E. unfold route_ok. cbn. lia.
Qed.

Lemma owners_other_scope routes ns sp slot :
  (forall r, r ∈ routes -> ~ (rt_namespace r = ns /\ rt_space r = sp)) -> owners routes ns sp slot = [].
Proof.
  intros Hr. unfold owners. rewrite filter_none; [done|]. intros r Hin [H1 [H2 _]]. by apply (Hr r).
Qed.

Definition scope_of (space : SpaceBody) : string * string := (sp_namespace space, sp_space space).

(** The number of healthy nodes is within the slots. *)
Definition nodes_ok (nodes : list NodeBody) : Prop := 0 < zlen (healthyNodes nodes) <= VSlotCount.

Lemma routesForNodes_spaces nodes spaces : nodes_ok nodes -> spaces <> [] ->
  routesForNodes nodes spaces = spaces ≫= routesForSpace (healthyNodes nodes).
Proof.
  intros [Hn _] Hs. unfold routesForNodes. destruct (healthyNodes nodes); [done|]. by destruct spaces.
Qed.

Lemma bind_owners healthy (spaces : list SpaceBody) space slot : 0 < zlen healthy <= VSlotCount -> is_slot slot ->
  NoDup (scope_of <$> spaces) -> space ∈ spaces ->
  owners (spaces ≫= routesForSpace healthy) (sp_namespace space) (sp_space space) slot = [shared_owner healthy slot].
Proof.
  intros Hn Hs. induction spaces as [|x spaces IH]; [by intros _ ?%elem_of_nil|].
  rewrite fmap_cons, NoDup_cons. intros [Hx Hnd] Hin. rewrite bind_cons, owners_app.
  assert (forall y, y ∈ spaces -> scope_of y <> scope_of x) as Hne.
  { intros y Hy E. apply Hx. rewrite <- E. by apply list_elem_of_fmap_2. }
  apply elem_of_cons in Hin as [->|Hin].
  - rewrite routesForSpace_owners by done. rewrite owners_other_scope; [done|].
    intros r (y & Hr & Hy)%list_elem_of_bind [H1' H2'].
    destruct (routesForSpace_scope _ _ _ Hr) as [H3' H4']. apply (Hne y Hy). unfold scope_of. congruence.
  - rewrite (IH Hnd Hin). rewrite owners_other_scope; [done|].
    intros r Hr [H1' H2']. destruct (routesForSpace_scope _ _ _ Hr) as [H3' H4'].
    apply (Hne space Hin). unfold scope_of. congruence.
Qed.

Lemma routesForNodes_owners nodes spaces space slot : nodes_ok nodes -> is_slot slot ->
  NoDup (scope_of <$> spaces) -> space ∈ spaces ->
  owners (routesForNodes nodes spaces) (sp_namespace space) (sp_space space) slot
  = [shared_owner (healthyNodes nodes) slot].
Proof.
  intros Hn Hs Hnd Hin. rewrite routesForNodes_spaces; [by apply bind_owners|done|].
  intros ->. by apply elem_of_nil in Hin.
Qed.

Lemma routesForNodes_ok nodes spaces r : zlen (healthyNodes nodes) <= VSlotCount ->
  r ∈ routesForNodes nodes spaces -> route_ok r.
Proof.
  intros Hn. unfold routesForNodes. destruct (healthyNodes nodes) as [|x l] eqn:E; [by intros ?%elem_of_nil|].
  rewrite <- E in *. destruct spaces as [|s spaces].
  - by apply routesForSpace_ok.
  - intros (y & Hr & _)%list_elem_of_bind. by eapply routesForSpace_ok.
Qed.

(** ** Tasks *)

Definition task_covers (ns sp : string) (slot : Z) (t : MigrationTaskBody) : Prop :=
  mt_namespace t = ns /\ mt_space t = sp /\ mt_start t <= slot <= mt_end t.

#[global] Instance task_covers_dec ns sp slot t : Decision (task_covers ns sp slot t).
Proof. unfold task_covers. apply _. Defined.

Definition source_of (t : MigrationTaskBody) : string * string := (mt_sourceNodeID t, mt_sourceAddr t).
Definition target_of (t : MigrationTaskBody) : string * string := (mt_targetNodeID t, mt_targetAddr t).

(** The moves of a slot a list of tasks holds. *)
Definition moves (tasks : list MigrationTaskBody) (ns sp : string) (slot : Z)
    : list ((string * string) * (string * string)) :=
  (fun t => (source_of t, target_of t)) <$> filter (task_covers ns sp slot) tasks.

Lemma moves_app t1 t2 ns sp slot : moves (t1 ++ t2) ns sp slot = moves t1 ns sp slot ++ moves t2 ns sp slot.
Proof. unfold moves. by rewrite filter_app, fmap_app. Qed.

Lemma minmax a b c d slot : (maxUint32 a b <= slot <= minUint32 c d) <-> (a <= slot <= c /\ b <= slot <= d).
Proof. unfold maxUint32, minUint32. destruct (Z.ltb_spec b a), (Z.ltb_spec c d); lia. Qed.


(** One pair of routes gives a task for exactly the slots both cover, when their
    nodes differ. *)
Lemma pair_moves event p c ns sp slot : (ns, sp) <> ("", "") ->
  moves (match migrationTaskRange p c with
         | (start, stop, true) => [migrationTaskForRoute event p c start stop]
         | (_, _, false) => []
         end) ns sp slot
  = if decide (covers ns sp slot c /\ covers ns sp slot p /\ rt_nodeID p <> rt_nodeID c)
    then [(owner_of p, owner_of c)] else [].
Proof.
  intros Hne. unfold migrationTaskRange.
  destruct (_ || _ || _) eqn:Hskip.
  - rewrite decide_False; [done|]. intros ((Hc1 & Hc2 & _) & (Hp1 & Hp2 & _) & Hn).
    unfold emptyRouteScope, sameRouteScope in Hskip. rewrite Hp1, Hp2, Hc1, Hc2 in Hskip.
    rewrite !(bool_decide_eq_true_2 (ns = ns)), !(bool_decide_eq_true_2 (sp = sp)), (bool_decide_eq_false_2 (rt_nodeID p = _)) in Hskip by done.
    destruct (bool_decide (ns = "")) eqn:E1; [|done]. destruct (bool_decide (sp = "")) eqn:E2; [|done].
    bool_to_prop. by subst.
  - bool_to_prop. unfold routeOverlap.
    match goal with Hsc : sameRouteScope p c = true |- _ => unfold sameRouteScope in Hsc; bool_to_prop end.
    pose proof (minmax (rt_start p) (rt_start c) (rt_end p) (rt_end c) slot) as Hm.
    set (start := maxUint32 _ _) in *. set (stop := minUint32 _ _) in *.
    destruct (Z.leb_spec start stop) as [Hle|Hgt].
    + unfold moves. rewrite filter_cons, filter_nil. unfold task_covers, migrationTaskForRoute, covers. cbn.
      case_decide as H1'; case_decide as H2'; [done| | |done]; exfalso; [apply H2'|apply H1']; naive_solver congruence.
    + rewrite decide_False; [done|]. unfold covers. intros ((_ & _ & ?) & (_ & _ & ?) & _). naive_solver lia.
Qed.

Lemma route_moves event prev c ns sp slot : (ns, sp) <> ("", "") ->
  moves (migrationTasksForRoute event prev c) ns sp slot
  = if decide (covers ns sp slot c)
    then (fun p => (p, owner_of c)) <$> filter (fun p => p.1 <> rt_nodeID c) (owners prev ns sp slot) else [].
Proof.
  intros Hne. unfold migrationTasksForRoute. destruct (emptyRouteScope c) eqn:He.
  { rewrite decide_False; [done|]. intros (H1' & H2' & _). unfold emptyRouteScope in He. bool_to_prop. congruence. }
  induction prev as [|p prev IH]; [by case_decide|].
  rewrite bind_cons, moves_app, IH, pair_moves, owners_cons, owners_one by done. clear IH.
  destruct (decide (covers ns sp slot c)); [|by rewrite decide_False by naive_solver].
  destruct (decide (covers ns sp slot p)); [|by rewrite decide_False by naive_solver].
  cbn [app]. rewrite filter_cons. cbn [owner_of fst]. destruct (decide (rt_nodeID p = rt_nodeID c)).
  - rewrite decide_False by naive_solver. by rewrite decide_False by naive_solver.
  - rewrite decide_True by naive_solver. by rewrite decide_True by naive_solver.
Qed.

Lemma build_moves event prev cur ns sp slot : (ns, sp) <> ("", "") ->
  moves (buildMigrationTasks event prev cur) ns sp slot
  = owners cur ns sp slot ≫= (fun c => (fun p => (p, c)) <$> filter (fun p => p.1 <> c.1) (owners prev ns sp slot)).
Proof.
  intros Hne. unfold buildMigrationTasks. induction cur as [|c cur IH]; [done|].
  rewrite bind_cons, moves_app, IH, route_moves, owners_cons, owners_one, bind_app by done.
  f_equal. case_decide; [|done]. cbn. by rewrite app_nil_r.
Qed.

(** ** Overrides *)

(** A piece of a route list that covers a slot. *)
Lemma segment_owners route start stop ns sp slot : rt_namespace route = ns -> rt_space route = sp ->
  owners (appendRouteSegment [] route start stop) ns sp slot
  = if decide (start <= slot <= stop) then [owner_of route] else [].
Proof.
  intros Hns Hsp. unfold appendRouteSegment. destruct (Z.ltb_spec stop start).
  - by rewrite decide_False by lia.
  - cbn [app]. rewrite owners_one. unfold covers. cbn. repeat case_decide; naive_solver.
Qed.

Lemma appendRouteSegment_app out route start stop :
  appendRouteSegment out route start stop = out ++ appendRouteSegment [] route start stop.
Proof. unfold appendRouteSegment. case_bool; [by rewrite app_nil_r|done]. Qed.

Lemma overrideOne_app task out route : overrideOne task out route = out ++ overrideOne task [] route.
Proof.
  unfold overrideOne, appendRouteSegment. destruct (taskRouteOverlap route task) as [[start stop] [|]]; [|done].
  cbn zeta. repeat case_bool; cbn [app]; rewrite <- ?app_assoc, ?app_nil_r; done.
Qed.

(** The slots of a route cut at [start] and [stop]. *)
Lemma cut_owners task route start stop slot : rt_namespace route = mt_namespace task -> rt_space route = mt_space task ->
  0 <= rt_start route <= start -> start <= stop <= rt_end route -> rt_end route <= VSlotMax ->
  let out := if rt_start route <? start then appendRouteSegment [] route (rt_start route) (u32 (start - 1)) else [] in
  let out := appendRouteSegment out (sourceRouteForTask task) start stop in
  owners (if stop <? rt_end route then appendRouteSegment out route (u32 (stop + 1)) (rt_end route) else out)
    (rt_namespace route) (rt_space route) slot
  = if decide (start <= slot <= stop) then [source_of task]
    else if decide (rt_start route <= slot <= rt_end route) then [owner_of route] else [].
Proof.
  unfold VSlotMax, VSlotCount. intros Hns Hsp H1' H2' H3'. cbn zeta.
  destruct (Z.ltb_spec (rt_start route) start), (Z.ltb_spec stop (rt_end route)).
  all: rewrite ?(u32_small (start - 1)), ?(u32_small (stop + 1)) by (unfold is_u32; lia).
  all: rewrite ?(appendRouteSegment_app (appendRouteSegment _ _ _ _)), ?owners_app.
  all: rewrite ?(appendRouteSegment_app (appendRouteSegment _ _ _ _)), ?owners_app.
  all: rewrite !segment_owners by done.
  all: repeat case_decide; try done; exfalso; lia.
Qed.

(** Overriding one route keeps its slots covered once, by the source where the
    task covers them. *)
Lemma overrideOne_owners task route ns sp slot : route_ok route ->
  owners (overrideOne task [] route) ns sp slot
  = if decide (task_covers ns sp slot task) then (fun _ => source_of task) <$> owners [route] ns sp slot
    else owners [route] ns sp slot.
Proof.
  intros [Hr1 Hr2]. unfold overrideOne, taskRouteOverlap.
  destruct (negb _ || negb _) eqn:Hscope.
  { cbn [app]. destruct (decide (task_covers ns sp slot task)) as [Hc|Hc]; [|done]. rewrite owners_one. rewrite decide_False; [done|].
    intros (H1' & H2' & _). destruct Hc as (H3' & H4' & _).
    rewrite !bool_decide_eq_true_2 in Hscope by congruence. done. }
  bool_to_prop. pose proof (minmax (rt_start route) (mt_start task) (rt_end route) (mt_end task) slot) as Hm.
  assert (rt_start route <= maxUint32 (rt_start route) (mt_start task)) as Hst
    by (unfold maxUint32; case_bool; bool_to_prop; lia).
  assert (minUint32 (rt_end route) (mt_end task) <= rt_end route) as Hsp
    by (unfold minUint32; case_bool; bool_to_prop; lia).
  set (start := maxUint32 _ _) in *. set (stop := minUint32 _ _) in *. clearbody start stop.
  destruct (Z.leb_spec start stop) as [Hle|Hgt].
  2: { cbn [app]. case_decide as Hc; [|done]. rewrite owners_one. rewrite decide_False; [done|].
       intros (_ & _ & H1'). destruct Hc as (_ & _ & H2'). lia. }
  destruct (decide (rt_namespace route = ns /\ rt_space route = sp)) as [[<- <-]|Hno].
  - rewrite cut_owners, owners_one by (done || lia). unfold covers, task_covers.
    repeat case_decide; try done; exfalso; naive_solver lia.
  - rewrite owners_one, (decide_False (P := covers _ _ _ _)) by (unfold covers; naive_solver).
    rewrite owners_other_scope; [by case_decide|]. intros r Hr [H1' H2'].
    apply Hno. unfold appendRouteSegment in Hr.
    repeat match goal with Hr : context [if ?b then _ else _] |- _ => destruct b end;
      set_unfold in Hr; naive_solver congruence.
Qed.

Lemma overrideOne_ok task route r : route_ok route -> r ∈ overrideOne task [] route -> route_ok r.
Proof.
  intros [Hr1 Hr2]. unfold overrideOne, taskRouteOverlap, VSlotMax, VSlotCount in *.
  destruct (negb _ || negb _); [intros ->%list_elem_of_singleton; by split|].
  pose proof (fun slot => minmax (rt_start route) (mt_start task) (rt_end route) (mt_end task) slot) as Hm.
  set (start := maxUint32 _ _) in *. set (stop := minUint32 _ _) in *. clearbody start stop.
  destruct (Z.leb_spec start stop) as [Hle|Hgt]; [|intros ->%list_elem_of_singleton; by split].
  pose proof (proj1 (Hm start) ltac:(lia)). pose proof (proj1 (Hm stop) ltac:(lia)). cbn zeta.
  intros Hr. unfold appendRouteSegment in Hr.
  destruct (Z.ltb_spec (rt_start route) start), (Z.ltb_spec stop (rt_end route)).
  all: rewrite ?(u32_small (start - 1)), ?(u32_small (stop + 1)) in Hr by (unfold is_u32; lia).
  all: rewrite ?(proj2 (Z.ltb_ge _ _)) in Hr by lia.
  all: set_unfold in Hr; unfold route_ok, VSlotMax, VSlotCount.
  all: repeat destruct Hr as [Hr|Hr]; try done; subst r; cbn; lia.
Qed.

Lemma overrideRouteRange_bind task routes : overrideRouteRange routes task = routes ≫= overrideOne task [].
Proof.
  unfold overrideRouteRange. rewrite <- (app_nil_l (routes ≫= _)). generalize (@nil RouteBody) at 1 2.
  induction routes as [|r routes IH]; intros out; [by rewrite app_nil_r|].
  cbn [foldl]. rewrite IH, bind_cons, overrideOne_app, app_assoc. done.
Qed.

Lemma overrideRouteRange_owners task routes ns sp slot : Forall route_ok routes ->
  owners (overrideRouteRange routes task) ns sp slot
  = if decide (task_covers ns sp slot task) then (fun _ => source_of task) <$> owners routes ns sp slot
    else owners routes ns sp slot.
Proof.
  rewrite overrideRouteRange_bind. induction 1 as [|r routes Hr _ IH]; [by case_decide|].
  rewrite bind_cons, owners_app, IH, overrideOne_owners, (owners_cons r routes) by done.
  case_decide; [by rewrite fmap_app|done].
Qed.

Lemma overrideRouteRange_ok task routes : Forall route_ok routes -> Forall route_ok (overrideRouteRange routes task).
Proof.
  rewrite overrideRouteRange_bind, !Forall_forall. intros Hr r (x & Hx & Hin)%list_elem_of_bind.
  by eapply overrideOne_ok; [apply Hr|].
Qed.

(** The tasks of the plans that have not cut over, in order. *)
Definition pending (plans : list MigrationPlanBody) : list MigrationTaskBody :=
  filter (fun t => migrationTaskRoutesSource t = true) (plans ≫= mp_tasks).

(** The source of the last pending task that covers a slot. *)
Definition pending_source (plans : list MigrationPlanBody) (ns sp : string) (slot : Z) : option (string * string) :=
  last (source_of <$> filter (task_covers ns sp slot) (pending plans)).

Lemma overrides_fold plans routes :
  foldl (fun out plan =>
    foldl (fun out task => if migrationTaskRoutesSource task then overrideRouteRange out task else out)
      out (mp_tasks plan)) routes plans
  = foldl overrideRouteRange routes (pending plans).
Proof.
  revert routes. unfold pending. induction plans as [|plan plans IH]; intros routes; [done|].
  cbn [foldl]. rewrite bind_cons, filter_app, foldl_app, IH. f_equal. clear IH.
  revert routes. induction (mp_tasks plan) as [|t tasks IHt]; intros routes; [done|].
  cbn [foldl]. rewrite filter_cons, IHt. by destruct (migrationTaskRoutesSource t).
Qed.

Lemma overrides_owners tasks routes ns sp slot : Forall route_ok routes ->
  owners (foldl overrideRouteRange routes tasks) ns sp slot
  = match last (source_of <$> filter (task_covers ns sp slot) tasks) with
    | Some source => (fun _ => source) <$> owners routes ns sp slot
    | None => owners routes ns sp slot
    end.
Proof.
  revert routes. induction tasks as [|t tasks IH]; intros routes Hr; [done|].
  cbn [foldl]. rewrite IH by (by apply overrideRouteRange_ok). rewrite overrideRouteRange_owners by done.
  rewrite filter_cons. destruct (decide (task_covers ns sp slot t)); [|done].
  rewrite fmap_cons, last_cons. destruct (last _); [|done]. by rewrite <- list_fmap_compose.
Qed.

(** The owners in the effective table: the source of the last pending task that
    covers the slot takes it over from the base owners. *)
Lemma effective_owners routes plans ns sp slot : Forall route_ok routes ->
  owners (applyMigrationRouteOverrides routes plans) ns sp slot
  ≡ₚ match pending_source plans ns sp slot with
     | Some source => (fun _ => source) <$> owners routes ns sp slot
     | None => owners routes ns sp slot
     end.
Proof.
  intros Hr. unfold applyMigrationRouteOverrides, sortRoutes. rewrite overrides_fold.
  rewrite (owners_perm _ _ ns sp slot (merge_sort_Permutation _ _)). by rewrite overrides_owners.
Qed.

(** ** What a table depends on *)

(** What a table reads of a node. *)
Definition node_view (n : NodeBody) : string * string * string := (nb_nodeID n, nb_addr n, nb_state n).

Definition node_address (n : NodeBody) : string * string := (nb_nodeID n, nb_addr n).

Lemma routeReplicas_view h h' i k : node_address <$> h = node_address <$> h' ->
  routeReplicas h i k = routeReplicas h' i k.
Proof.
  intros E. assert (length h = length h') as El by (by rewrite <- (length_fmap node_address h), E, length_fmap).
  unfold routeReplicas, zlen. rewrite El. apply list_fmap_ext. intros j y _. set (x := Z.to_nat _).
  assert (node_address (nth x h zeroNode) = node_address (nth x h' zeroNode)) as Ex.
  { rewrite <- !(map_nth node_address). by rewrite (E : map node_address h = map node_address h'). }
  unfold node_address in Ex. injection Ex as -> ->. done.
Qed.

Lemma routesForSpace_view h h' space space' : node_address <$> h = node_address <$> h' ->
  scope_of space = scope_of space' -> routesForSpace h space = routesForSpace h' space'.
Proof.
  intros E [= Ens Esp]. unfold routesForSpace. rewrite Ens, Esp.
  assert (length h = length h') as El by (by rewrite <- (length_fmap node_address h), E, length_fmap).
  apply list_eq. intros i. rewrite !list_lookup_imap. apply (f_equal (lookup i)) in E as Ei.
  rewrite !list_lookup_fmap in Ei.
  destruct (h !! i) as [n|], (h' !! i) as [n'|]; try done. cbn [fmap option_fmap option_map] in Ei |- *.
  injection Ei as En Ea. unfold zlen. rewrite El, En, Ea. by rewrite (routeReplicas_view h h').
Qed.

Lemma healthyNodes_view nodes nodes' : node_view <$> nodes = node_view <$> nodes' ->
  node_address <$> healthyNodes nodes = node_address <$> healthyNodes nodes'.
Proof.
  revert nodes'. induction nodes as [|n nodes IH]; intros [|n' nodes'] E; try done.
  rewrite !fmap_cons in E. injection E as En Ea Es Et. unfold healthyNodes. rewrite !filter_cons, Es.
  unfold healthyNodes in IH. case_decide; [|by apply IH]. rewrite !fmap_cons. f_equal; [|by apply IH].
  unfold node_address. congruence.
Qed.

(** A table depends on nothing but the identities, addresses and states of the
    nodes and the names of the spaces. *)
Lemma routesForNodes_view nodes nodes' spaces spaces' : node_view <$> nodes = node_view <$> nodes' ->
  scope_of <$> spaces = scope_of <$> spaces' -> routesForNodes nodes spaces = routesForNodes nodes' spaces'.
Proof.
  intros En%healthyNodes_view Es. unfold routesForNodes.
  destruct (healthyNodes nodes) as [|n h] eqn:E, (healthyNodes nodes') as [|n' h'] eqn:E'; try done.
  rewrite <- E, <- E' in *. destruct spaces as [|x spaces], spaces' as [|x' spaces']; try done.
  - by apply routesForSpace_view.
  - revert Es. generalize (x :: spaces) (x' :: spaces'). induction l as [|y l IH]; intros [|y' l'] Es; try done.
    rewrite !fmap_cons in Es. assert (scope_of y = scope_of y' /\ scope_of <$> l = scope_of <$> l') as [H1' H2'] by (split; congruence).
    rewrite !bind_cons. f_equal; [by apply routesForSpace_view|by apply IH].
Qed.

(** ** Theorems *)

(** The routes of a table share the slots evenly. *)
Definition even_share (n : Z) (r : RouteBody) : Prop :=
  VSlotCount / n <= rt_end r - rt_start r + 1 <= VSlotCount / n + 1.

Lemma routesForSpace_even healthy space r : zlen healthy <= VSlotCount ->
  r ∈ routesForSpace healthy space -> even_share (zlen healthy) r.
Proof.
  unfold routesForSpace. intros Hn (i & y & -> & Hi)%elem_of_lookup_imap_1.
  apply lookup_lt_Some in Hi. unfold zlen in *. set (n := Z.of_nat (length healthy)) in *.
  destruct (vslotRange_bounds n (Z.of_nat i)) as [-> _]; [lia|lia|].
  unfold even_share. cbn [rt_start rt_end]. set (k := Z.of_nat i) in *.
  pose proof (Z.div_mod (k * VSlotCount) n ltac:(lia)). pose proof (Z.mod_pos_bound (k * VSlotCount) n ltac:(lia)).
  pose proof (Z.div_mod ((k + 1) * VSlotCount) n ltac:(lia)). pose proof (Z.mod_pos_bound ((k + 1) * VSlotCount) n ltac:(lia)).
  pose proof (Z.div_mod VSlotCount n ltac:(lia)). pose proof (Z.mod_pos_bound VSlotCount n ltac:(lia)).
  set (a := k * VSlotCount / n) in *. set (b := (k + 1) * VSlotCount / n) in *. set (c := VSlotCount / n) in *.
  assert (n * (b - a - c) < 2 * n /\ - n < n * (b - a - c)) as [H1' H2'] by lia. nia.
Qed.

(** C37: the route table of a set of nodes and spaces partitions the slots.  Every
    slot of every catalogued space is covered by exactly one route, which leads
    to a healthy node, and the routes of a space differ by at most one slot in
    length. *)
Theorem route_table_partition (nodes : list NodeBody) (spaces : list SpaceBody) (space : SpaceBody) :
  nodes_ok nodes -> NoDup (scope_of <$> spaces) -> space ∈ spaces ->
  (forall slot, is_slot slot -> exists node, node ∈ nodes /\ nb_state node = nodeStateHealthy /\
     owners (routesForNodes nodes spaces) (sp_namespace space) (sp_space space) slot
     = [(nb_nodeID node, nb_addr node)]) /\
  (forall r, r ∈ routesForNodes nodes spaces -> even_share (zlen (healthyNodes nodes)) r).
Proof.
  intros Hn Hnd Hin. split.
  - intros slot Hs. rewrite routesForNodes_owners by done. unfold shared_owner. set (i := Z.to_nat _).
    destruct (lookup_lt_is_Some_2 (healthyNodes nodes) i) as [x Hx].
    { pose proof (slotIndex_range (zlen (healthyNodes nodes)) slot (proj1 Hn) Hs). unfold i, zlen in *. lia. }
    exists x. rewrite (nth_lookup_Some _ _ _ _ Hx).
    apply list_elem_of_lookup_2 in Hx. unfold healthyNodes in Hx. apply list_elem_of_filter in Hx. naive_solver.
  - intros r. rewrite routesForNodes_spaces by (done || by intros ->; apply elem_of_nil in Hin).
    intros (y & Hr & _)%list_elem_of_bind. apply (routesForSpace_even _ y); [apply Hn|done].
Qed.

(** C38: the tasks between two route tables are exactly the slots whose owner
    changes: such a slot is in one task, from its old to its new owner, and a
    slot that stays with its node is in none. *)
Theorem plan_moves_changed_slots (event : RebalanceEventBody) (nodes nodes' : list NodeBody)
    (spaces spaces' : list SpaceBody) (space : SpaceBody) (slot : Z) :
  nodes_ok nodes -> nodes_ok nodes' -> NoDup (scope_of <$> spaces) -> NoDup (scope_of <$> spaces') ->
  space ∈ spaces -> space ∈ spaces' -> scope_of space <> ("", "") -> is_slot slot ->
  let source := shared_owner (healthyNodes nodes) slot in
  let target := shared_owner (healthyNodes nodes') slot in
  moves (buildMigrationTasks event (routesForNodes nodes spaces) (routesForNodes nodes' spaces'))
    (sp_namespace space) (sp_space space) slot
  = if decide (source.1 = target.1) then [] else [(source, target)].
Proof.
  intros Hn Hn' Hnd Hnd' Hin Hin' Hne Hs source target.
  rewrite build_moves, !routesForNodes_owners by done. cbn [mbind list_bind]. rewrite app_nil_r, filter_cons, filter_nil.
  fold source target. repeat case_decide; naive_solver.
Qed.

(** In the table clients see, every slot of every catalogued space has
    exactly one owner: the source of the last migration task covering the slot
    that has neither cut over nor finished, and the owner in the base table when
    there is none. *)
Theorem effective_route_owner (nodes : list NodeBody) (spaces : list SpaceBody) (plans : list MigrationPlanBody)
    (space : SpaceBody) (slot : Z) :
  nodes_ok nodes -> NoDup (scope_of <$> spaces) -> space ∈ spaces -> is_slot slot ->
  owners (applyMigrationRouteOverrides (routesForNodes nodes spaces) plans) (sp_namespace space) (sp_space space) slot
  = [default (shared_owner (healthyNodes nodes) slot)
       (pending_source plans (sp_namespace space) (sp_space space) slot)].
Proof.
  intros Hn Hnd Hin Hs. apply Permutation_singleton_r.
  rewrite effective_owners by (apply Forall_forall; intros r; apply routesForNodes_ok, Hn).
  rewrite routesForNodes_owners by done. by destruct (pending_source _ _ _ _).
Qed.

(** ** Instances *)

Definition nodesAB : list NodeBody := [mkNode "a" "a:1" "healthy" 5; mkNode "b" "b:1" "healthy" 5].
Definition nodesABC : list NodeBody := nodesAB ++ [mkNode "c" "c:1" "healthy" 9].
Definition cartSpace : SpaceBody := mkSpace "shop" "cart" 1 5.
Definition joinEvent : RebalanceEventBody :=
  mkEvent 2 4 "route_table_changed" "node_registered" "c" "c:1" "healthy" "" "" 3 9.

Lemma route_table_partition_witness :
  owners (routesForNodes nodesABC [cartSpace]) "shop" "cart" 40000 = [("b", "b:1")] /\
  forall r, r ∈ routesForNodes nodesABC [cartSpace] -> even_share 3 r.
Proof.
  destruct (route_table_partition nodesABC [cartSpace] cartSpace) as [_ H];
    [split; vm_compute; [reflexivity|discriminate]|apply NoDup_singleton|by apply list_elem_of_singleton|].
  split; [vm_compute; reflexivity|exact H].
Defined.

Lemma nodesAB_ok : nodes_ok nodesAB.
Proof. split; vm_compute; [reflexivity|discriminate]. Qed.

Lemma nodesABC_ok : nodes_ok nodesABC.
Proof. split; vm_compute; [reflexivity|discriminate]. Qed.

Lemma one_scope : NoDup (scope_of <$> [cartSpace]).
Proof. apply NoDup_singleton. Qed.

Lemma cart_listed : cartSpace ∈ [cartSpace].
Proof. by apply list_elem_of_singleton. Qed.

Lemma slot_30000 : is_slot 30000.
Proof. split; vm_compute; discriminate. Qed.

Lemma plan_moves_changed_slots_witness :
  moves (buildMigrationTasks joinEvent (routesForNodes nodesAB [cartSpace]) (routesForNodes nodesABC [cartSpace]))
    (sp_namespace cartSpace) (sp_space cartSpace) 30000 = [(("a", "a:1"), ("b", "b:1"))].
Proof.
  rewrite (plan_moves_changed_slots joinEvent nodesAB nodesABC [cartSpace] [cartSpace] cartSpace 30000
    nodesAB_ok nodesABC_ok one_scope one_scope cart_listed cart_listed); [|discriminate|apply slot_30000].
  vm_compute. reflexivity.
Defined.

Definition joinPlan : MigrationPlanBody := mkPlan 1 4 "node_registered" "planned" 9
  (buildMigrationTasks joinEvent (routesForNodes nodesAB [cartSpace]) (routesForNodes nodesABC [cartSpace])).

(** The slot stays with [a] while the plan that moves it to [b] is pending. *)
Lemma effective_route_owner_witness :
  owners (applyMigrationRouteOverrides (routesForNodes nodesABC [cartSpace]) [joinPlan])
    (sp_namespace cartSpace) (sp_space cartSpace) 30000 = [("a", "a:1")].
Proof.
  rewrite (effective_route_owner nodesABC [cartSpace] [joinPlan] cartSpace 30000
    nodesABC_ok one_scope cart_listed slot_30000).
  vm_compute. reflexivity.
Defined.
