(* ===== verification/Control.v ===== *)
(** * The control plane (control: catalog.go, catalog_validation.go, node_state.go,
    node_validation.go, rebalance.go, migration_state.go, fsm.go, state.go, snapshot.go)

    The state machine that is replicated by Raft: the catalog of namespaces,
    spaces and entities, the nodes and their liveness, the rebalance events and
    the migration plans.  An operation holds the state's lock, so it is a
    function of the state; [clock i] is the i-th reading of [s.now] during it.
    The maps and lists of the collections library are finite maps, enumerated in
    the order [RangeOrder], and lists. *)

From S2P Require Import Prelude.
From S2P Require Import GoStrings.
From S2P Require Import ControlApi.
From S2P Require Import ControlRoutes.

Local Open Scope Z_scope.
Local Open Scope nespa_scope.

(** ** Errors *)

(** src: control/catalog_validation.go ErrInvalidNamespace 10-16 *)
Inductive controlError :=
| ErrInvalidNamespace
| ErrInvalidSpace
| ErrInvalidEntity
| ErrNamespaceNotFound
| ErrSpaceNotFound
| ErrInvalidNode
| ErrNodeNotFound
| ErrMigrationTaskNotFound
| ErrUnknownCommand.

#[global] Instance controlError_eq_dec : EqDecision controlError.
Proof. solve_decision. Defined.

(** ** Names *)

(** A name is checked rune by rune; a byte of 128 or more is part of a rune that
    is not admitted, so the test is on bytes.
    src: control/catalog_validation.go catalogNameRune *)
Definition catalogNameRune (item : byte) : bool :=
  let c := byte_Z item in
  (97 <=? c) && (c <=? 122) || (65 <=? c) && (c <=? 90) || (48 <=? c) && (c <=? 57)
  || (c =? 45) || (c =? 95) || (c =? 46).

Definition contains_nul (s : string) : bool := existsb (fun b => byte_Z b =? 0) (str_bytes s).

(** src: control/catalog_validation.go validateCatalogName *)
Definition validateCatalogName (name : string) (kind : controlError) : option controlError :=
  if bool_decide (name = "") then Some kind
  else if 128 <? str_len name then Some kind
  else if contains_nul name then Some kind
  else if forallb catalogNameRune (str_bytes name) then None else Some kind.

(** src: control/catalog_validation.go normalizeNamespace *)
Definition normalizeNamespace (namespace : string) : result controlError string :=
  let namespace := TrimSpace namespace in
  match validateCatalogName namespace ErrInvalidNamespace with
  | Some err => Err err
  | None => Ok namespace
  end.

(** src: control/catalog_validation.go normalizeSpaceIdentity *)
Definition normalizeSpaceIdentity (namespace space : string) : result controlError (string * string) :=
  namespace ← normalizeNamespace namespace;
  let space := TrimSpace space in
  match validateCatalogName space ErrInvalidSpace with
  | Some err => Err err
  | None => Ok (namespace, space)
  end.

(** src: control/catalog_validation.go normalizeEntityIdentity *)
Definition normalizeEntityIdentity (namespace space entity : string)
    : result controlError (string * string * string) :=
  '(namespace, space) ← normalizeSpaceIdentity namespace space;
  let entity := TrimSpace entity in
  match validateCatalogName entity ErrInvalidEntity with
  | Some err => Err err
  | None => Ok (namespace, space, entity)
  end.

(** ** Node identities *)

(** [bytealg.IndexByteString] and [LastIndexByteString]. *)
Fixpoint index_byte (c : Z) (s : list byte) : option nat :=
  match s with
  | [] => None
  | b :: rest => if byte_Z b =? c then Some 0%nat else S <$> index_byte c rest
  end.

Fixpoint last_index_byte (c : Z) (s : list byte) : option nat :=
  match s with
  | [] => None
  | b :: rest =>
      match last_index_byte c rest with
      | Some i => Some (S i)
      | None => if byte_Z b =? c then Some 0%nat else None
      end
  end.

Definition has_byte (c : Z) (s : list byte) : bool := bool_decide (is_Some (index_byte c s)).

(** [net.SplitHostPort]: the host and the port, [None] for an address error. *)
Definition SplitHostPort (hostport : list byte) : option (list byte * list byte) :=
  match last_index_byte 58 hostport with
  | None => None
  | Some i =>
      let finish (host : list byte) (j k : nat) :=
        if has_byte 91 (drop j hostport) then None
        else if has_byte 93 (drop k hostport) then None
        else Some (host, drop (i + 1) hostport) in
      if bool_decide (byte_Z <$> head hostport = Some 91) then
        match index_byte 93 hostport with
        | None => None
        | Some stop =>
            if bool_decide (stop + 1 = length hostport)%nat then None
            else if bool_decide (stop + 1 = i)%nat then finish (take (stop - 1) (drop 1 hostport)) 1%nat (stop + 1)%nat
            else None
        end
      else
        let host := take i hostport in
        if has_byte 58 host then None else finish host 0%nat 0%nat
  end.

(** [strings.Contains]. *)
Fixpoint contains (s sub : list byte) : bool :=
  bool_decide (take (length sub) s = sub) ||
  match s with [] => false | _ :: rest => contains rest sub end.

(** src: control/node_validation.go normalizeNodeID *)
Definition normalizeNodeID (nodeID : string) : result controlError string :=
  let nodeID := TrimSpace nodeID in
  if bool_decide (nodeID = "") then Err ErrInvalidNode
  else if contains_nul nodeID then Err ErrInvalidNode
  else Ok nodeID.

(** src: control/node_validation.go validateNodePort *)
Definition validateNodePort (portText : list byte) : option controlError :=
  match ParseInt portText with
  | None => Some ErrInvalidNode
  | Some port => if (port <=? 0) || (65535 <? port) then Some ErrInvalidNode else None
  end.

(** src: control/node_validation.go normalizeNodeAddr *)
Definition normalizeNodeAddr (addr : string) : result controlError string :=
  let addr := TrimSpace addr in
  if bool_decide (addr = "") then Err ErrInvalidNode
  else if contains (str_bytes addr) (str_bytes "://") || contains_nul addr then Err ErrInvalidNode
  else
    match SplitHostPort (str_bytes addr) with
    | None => Err ErrInvalidNode
    | Some (host, portText) =>
        if bool_decide (TrimSpace (bytes_str host) = "") then Err ErrInvalidNode
        else
          match validateNodePort portText with
          | Some err => Err err
          | None => Ok addr
          end
    end.

(** src: control/node_validation.go validateNodeIdentity *)
Definition validateNodeIdentity (nodeID addr : string) : result controlError (string * string) :=
  nodeID ← normalizeNodeID nodeID;
  addr ← normalizeNodeAddr addr;
  Ok (nodeID, addr).

(** src: control/node_validation.go normalizeNodeIdentity *)
Definition normalizeNodeIdentity (nodeID : string) : result controlError string := normalizeNodeID nodeID.

(** ** State *)

(** src: control/catalog.go spaceRef *)
Definition spaceRef : Type := string * string.

(** src: control/catalog.go entityRef *)
Definition entityRef : Type := string * string * string.

(** The event bus and the clock are not part of the state: publishing an event
    does not change it, and the clock is an argument of the operations.
    src: control/state.go ControlState *)
Record ControlState := mkState {
  cs_clusterID : string;
  cs_revision : Z;
  cs_namespaces : gmap string NamespaceBody;
  cs_spaces : gmap spaceRef SpaceBody;
  cs_entities : gmap entityRef EntityBody;
  cs_nodes : gmap string NodeBody;
  cs_events : list RebalanceEventBody;
  cs_plans : list MigrationPlanBody;
  cs_nextEvent : Z;
  cs_nextPlan : Z;
  cs_lastRoutes : list RouteBody
}.

(** src: control/state.go NewControlStateWithClockAndEvents *)
Definition NewControlState (clusterID : string) : ControlState :=
  mkState clusterID 0 ∅ ∅ ∅ ∅ [] [] 0 0 [].

Definition withRevision (r : Z) (s : ControlState) : ControlState :=
  mkState (cs_clusterID s) r (cs_namespaces s) (cs_spaces s) (cs_entities s) (cs_nodes s) (cs_events s)
    (cs_plans s) (cs_nextEvent s) (cs_nextPlan s) (cs_lastRoutes s).

Definition withNamespaces (m : gmap string NamespaceBody) (s : ControlState) : ControlState :=
  mkState (cs_clusterID s) (cs_revision s) m (cs_spaces s) (cs_entities s) (cs_nodes s) (cs_events s)
    (cs_plans s) (cs_nextEvent s) (cs_nextPlan s) (cs_lastRoutes s).

Definition withSpaceMap (m : gmap spaceRef SpaceBody) (s : ControlState) : ControlState :=
  mkState (cs_clusterID s) (cs_revision s) (cs_namespaces s) m (cs_entities s) (cs_nodes s) (cs_events s)
    (cs_plans s) (cs_nextEvent s) (cs_nextPlan s) (cs_lastRoutes s).

Definition withEntities (m : gmap entityRef EntityBody) (s : ControlState) : ControlState :=
  mkState (cs_clusterID s) (cs_revision s) (cs_namespaces s) (cs_spaces s) m (cs_nodes s) (cs_events s)
    (cs_plans s) (cs_nextEvent s) (cs_nextPlan s) (cs_lastRoutes s).

Definition withNodes (m : gmap string NodeBody) (s : ControlState) : ControlState :=
  mkState (cs_clusterID s) (cs_revision s) (cs_namespaces s) (cs_spaces s) (cs_entities s) m (cs_events s)
    (cs_plans s) (cs_nextEvent s) (cs_nextPlan s) (cs_lastRoutes s).

Definition withPlans (l : list MigrationPlanBody) (s : ControlState) : ControlState :=
  mkState (cs_clusterID s) (cs_revision s) (cs_namespaces s) (cs_spaces s) (cs_entities s) (cs_nodes s)
    (cs_events s) l (cs_nextEvent s) (cs_nextPlan s) (cs_lastRoutes s).

Definition bumpRevision (s : ControlState) : ControlState := withRevision (cs_revision s +% 1) s.

(** src: control/state.go maxRebalanceEvents 28-28 *)
Definition maxRebalanceEvents : nat := 128.
(** src: control/state.go maxMigrationPlans 29-29 *)
Definition maxMigrationPlans : nat := 128.

(** [for l.Len() > max { l.RemoveAt(0) }]. *)
Definition keepLast {A} (max : nat) (l : list A) : list A := drop (length l - max) l.

(** ** Sorted views *)

Definition by_key {A} (key : A -> string) (a b : A) : Prop := String.leb (key a) (key b) = true.

#[global] Instance by_key_dec {A} (key : A -> string) a b : Decision (by_key key a b).
Proof. unfold by_key. apply _. Defined.

Definition space_before (a b : SpaceBody) : Prop :=
  (if bool_decide (sp_namespace a = sp_namespace b) then String.leb (sp_space a) (sp_space b)
   else String.leb (sp_namespace a) (sp_namespace b)) = true.

#[global] Instance space_before_dec a b : Decision (space_before a b).
Proof. unfold space_before. apply _. Defined.

Definition entity_before (a b : EntityBody) : Prop :=
  (if negb (bool_decide (en_namespace a = en_namespace b)) then String.leb (en_namespace a) (en_namespace b)
   else if negb (bool_decide (en_space a = en_space b)) then String.leb (en_space a) (en_space b)
   else String.leb (en_entity a) (en_entity b)) = true.

#[global] Instance entity_before_dec a b : Decision (entity_before a b).
Proof. unfold entity_before. apply _. Defined.

Section State.
  Context `{!RangeOrder}.

(** src: control/catalog.go sortedNamespacesLocked *)
Definition sortedNamespaces (s : ControlState) : list NamespaceBody :=
  merge_sort (by_key ns_namespace) (range_order (cs_namespaces s)).*2.

(** src: control/catalog.go sortedSpacesLocked *)
Definition sortedSpaces (s : ControlState) : list SpaceBody :=
  merge_sort space_before (range_order (cs_spaces s)).*2.

(** src: control/catalog.go sortedEntitiesLocked *)
Definition sortedEntities (s : ControlState) : list EntityBody :=
  merge_sort entity_before (range_order (cs_entities s)).*2.

(** src: control/routing.go sortedNodesLocked *)
Definition sortedNodes (s : ControlState) : list NodeBody :=
  merge_sort (by_key nb_nodeID) (range_order (cs_nodes s)).*2.

(** src: control/migration_routes.go effectiveRoutesLocked *)
Definition effectiveRoutes (s : ControlState) : list RouteBody :=
  applyMigrationRouteOverrides (routesForNodes (sortedNodes s) (sortedSpaces s)) (cs_plans s).

(** ** Rebalance events and plans *)

(** src: control/rebalance.go rebalanceEvent *)
Record rebalanceEvent := mkRebalance {
  rb_reason : string;
  rb_node : NodeBody;
  rb_namespace : string;
  rb_space : string
}.

(** [tasks[index].PlanID = s.nextPlan; tasks[index].TaskID = uint64(index + 1)]. *)
Definition numberTask (plan : Z) (index : nat) (t : MigrationTaskBody) : MigrationTaskBody :=
  mkTask plan (u64 (Z.of_nat index + 1)) (mt_revision t) (mt_namespace t) (mt_space t) (mt_start t) (mt_end t)
    (mt_sourceNodeID t) (mt_sourceAddr t) (mt_targetNodeID t) (mt_targetAddr t) (mt_state t)
    (mt_createdAtUnix t) (mt_startedAtUnix t) (mt_cutoverAtUnix t) (mt_finishedAtUnix t)
    (mt_importedEntries t) (mt_deletedEntries t) (mt_attempts t) (mt_nextRetryUnix t) (mt_error t).

(** src: control/rebalance.go recordMigrationPlanLocked *)
Definition recordMigrationPlan (event : RebalanceEventBody) (previousRoutes currentRoutes : list RouteBody)
    (s : ControlState) : ControlState :=
  match buildMigrationTasks event previousRoutes currentRoutes with
  | [] => s
  | tasks =>
      let nextPlan := cs_nextPlan s +% 1 in
      let plan := mkPlan nextPlan (ev_revision event) (ev_reason event) "planned" (ev_createdAtUnix event)
                    (imap (numberTask nextPlan) tasks) in
      mkState (cs_clusterID s) (cs_revision s) (cs_namespaces s) (cs_spaces s) (cs_entities s) (cs_nodes s)
        (cs_events s) (keepLast maxMigrationPlans (cs_plans s ++ [plan])) (cs_nextEvent s) nextPlan
        (cs_lastRoutes s)
  end.

(** src: control/rebalance.go recordRebalanceEventLocked *)
Definition recordRebalanceEvent (event : rebalanceEvent) (now : Time) (s : ControlState) : ControlState :=
  if bool_decide (rb_reason event = "") then s
  else
    let previousRoutes := cs_lastRoutes s in
    let currentRoutes := routesForNodes (sortedNodes s) (sortedSpaces s) in
    let nextEvent := cs_nextEvent s +% 1 in
    let body := mkEvent nextEvent (cs_revision s) "route_table_changed" (rb_reason event)
                  (nb_nodeID (rb_node event)) (nb_addr (rb_node event)) (nb_state (rb_node event))
                  (rb_namespace event) (rb_space event) (zlen currentRoutes) (Unix now) in
    let s := mkState (cs_clusterID s) (cs_revision s) (cs_namespaces s) (cs_spaces s) (cs_entities s)
               (cs_nodes s) (keepLast maxRebalanceEvents (cs_events s ++ [body])) (cs_plans s) nextEvent
               (cs_nextPlan s) (cs_lastRoutes s) in
    let s := recordMigrationPlan body previousRoutes currentRoutes s in
    mkState (cs_clusterID s) (cs_revision s) (cs_namespaces s) (cs_spaces s) (cs_entities s) (cs_nodes s)
      (cs_events s) (cs_plans s) (cs_nextEvent s) (cs_nextPlan s) currentRoutes.

(** ** Catalog *)

(** src: control/catalog.go CreateNamespace *)
Definition CreateNamespace (namespace : string) (clock : nat -> Time) (s : ControlState)
    : ControlState * result controlError (Z * NamespaceBody) :=
  match normalizeNamespace namespace with
  | Err err => (s, Err err)
  | Ok namespace =>
      match cs_namespaces s !! namespace with
      | Some item => (s, Ok (cs_revision s, item))
      | None =>
          let s := bumpRevision s in
          let item := mkNamespace namespace 1 (Unix (clock 0%nat)) in
          let s := withNamespaces (<[namespace := item]> (cs_namespaces s)) s in
          (s, Ok (cs_revision s, item))
      end
  end.

(** src: control/catalog.go CreateSpace *)
Definition CreateSpace (namespace space : string) (clock : nat -> Time) (s : ControlState)
    : ControlState * result controlError (Z * SpaceBody) :=
  match normalizeSpaceIdentity namespace space with
  | Err err => (s, Err err)
  | Ok (namespace, space) =>
      match cs_namespaces s !! namespace with
      | None => (s, Err ErrNamespaceNotFound)
      | Some _ =>
          match cs_spaces s !! (namespace, space) with
          | Some item => (s, Ok (cs_revision s, item))
          | None =>
              let s := bumpRevision s in
              let item := mkSpace namespace space 1 (Unix (clock 0%nat)) in
              let s := withSpaceMap (<[(namespace, space) := item]> (cs_spaces s)) s in
              let s := recordRebalanceEvent (mkRebalance "space_created" zeroNode namespace space) (clock 1%nat) s in
              (s, Ok (cs_revision s, item))
          end
      end
  end.

(** src: control/catalog.go CreateEntity *)
Definition CreateEntity (namespace space entity : string) (clock : nat -> Time) (s : ControlState)
    : ControlState * result controlError (Z * EntityBody) :=
  match normalizeEntityIdentity namespace space entity with
  | Err err => (s, Err err)
  | Ok (namespace, space, entity) =>
      match cs_namespaces s !! namespace with
      | None => (s, Err ErrNamespaceNotFound)
      | Some _ =>
          match cs_spaces s !! (namespace, space) with
          | None => (s, Err ErrSpaceNotFound)
          | Some _ =>
              match cs_entities s !! (namespace, space, entity) with
              | Some item => (s, Ok (cs_revision s, item))
              | None =>
                  let s := bumpRevision s in
                  let item := mkEntity namespace space entity (Unix (clock 0%nat)) in
                  let s := withEntities (<[(namespace, space, entity) := item]> (cs_entities s)) s in
                  (s, Ok (cs_revision s, item))
              end
          end
      end
  end.

(** src: control/catalog.go BumpNamespaceVersion *)
Definition BumpNamespaceVersion (namespace : string) (s : ControlState)
    : ControlState * result controlError (Z * NamespaceBody) :=
  match normalizeNamespace namespace with
  | Err err => (s, Err err)
  | Ok namespace =>
      match cs_namespaces s !! namespace with
      | None => (s, Err ErrNamespaceNotFound)
      | Some item =>
          let item := mkNamespace (ns_namespace item) (ns_version item +% 1) (ns_createdAtUnix item) in
          let s := bumpRevision s in
          let s := withNamespaces (<[namespace := item]> (cs_namespaces s)) s in
          (s, Ok (cs_revision s, item))
      end
  end.

(** src: control/catalog.go BumpSpaceVersion *)
Definition BumpSpaceVersion (namespace space : string) (s : ControlState)
    : ControlState * result controlError (Z * SpaceBody) :=
  match normalizeSpaceIdentity namespace space with
  | Err err => (s, Err err)
  | Ok (namespace, space) =>
      match cs_namespaces s !! namespace with
      | None => (s, Err ErrNamespaceNotFound)
      | Some _ =>
          match cs_spaces s !! (namespace, space) with
          | None => (s, Err ErrSpaceNotFound)
          | Some item =>
              let item := mkSpace (sp_namespace item) (sp_space item) (sp_version item +% 1) (sp_createdAtUnix item) in
              let s := bumpRevision s in
              let s := withSpaceMap (<[(namespace, space) := item]> (cs_spaces s)) s in
              (s, Ok (cs_revision s, item))
          end
      end
  end.

(** ** Nodes *)

(** src: control/rebalance.go nodeRegistrationEventReason *)
Definition nodeRegistrationEventReason (previous : option NodeBody) (next : NodeBody) : string * bool :=
  match previous with
  | None => ("node_registered", true)
  | Some previous =>
      if negb (bool_decide (nb_addr previous = nb_addr next)) then ("node_address_changed", true)
      else if negb (bool_decide (nb_state previous = nb_state next)) then ("node_recovered", true)
      else ("", false)
  end.

(** src: control/node_state.go registerNodeAt *)
Definition registerNodeAt (nodeID addr : string) (now : Time) (clock : nat -> Time) (s : ControlState)
    : ControlState * result controlError (Z * NodeBody) :=
  match validateNodeIdentity nodeID addr with
  | Err err => (s, Err err)
  | Ok (nodeID, addr) =>
      let node := mkNode nodeID addr nodeStateHealthy (Unix now) in
      let '(reason, changed) := nodeRegistrationEventReason (cs_nodes s !! nodeID) node in
      let s := if changed then bumpRevision s else s in
      let s := withNodes (<[nodeID := node]> (cs_nodes s)) s in
      let s := if changed then recordRebalanceEvent (mkRebalance reason node "" "") (clock 0%nat) s else s in
      (s, Ok (cs_revision s, node))
  end.

(** The changes of [heartbeatAt] to the node it found or made: the node, the
    number of revision steps and the last reason.
    src: control/node_state.go heartbeatAt 68-91 *)
Definition heartbeatChanges (found : option NodeBody) (nodeID addr : string) : NodeBody * Z * string :=
  let '(node, steps, reason) :=
    match found with
    | Some node => (node, 0, "")
    | None => (mkNode nodeID addr nodeStateHealthy 0, 1, "node_registered")
    end in
  let '(node, steps, reason) :=
    if negb (bool_decide (nb_addr node = addr))
    then (mkNode (nb_nodeID node) addr (nb_state node) (nb_lastSeenUnix node), steps + 1, "node_address_changed")
    else (node, steps, reason) in
  if negb (bool_decide (nb_state node = nodeStateHealthy))
  then (mkNode (nb_nodeID node) (nb_addr node) nodeStateHealthy (nb_lastSeenUnix node), steps + 1, "node_recovered")
  else (node, steps, reason).

(** src: control/node_state.go heartbeatAt *)
Definition heartbeatAt (nodeID addr : string) (now : Time) (clock : nat -> Time) (s : ControlState)
    : ControlState * result controlError (Z * NodeBody) :=
  match validateNodeIdentity nodeID addr with
  | Err err => (s, Err err)
  | Ok (nodeID, addr) =>
      let '(node, steps, reason) := heartbeatChanges (cs_nodes s !! nodeID) nodeID addr in
      let s := withRevision (cs_revision s +% steps) s in
      let node := mkNode (nb_nodeID node) (nb_addr node) (nb_state node) (Unix now) in
      let s := withNodes (<[nodeID := node]> (cs_nodes s)) s in
      let s := if 0 <? steps then recordRebalanceEvent (mkRebalance reason node "" "") (clock 0%nat) s else s in
      (s, Ok (cs_revision s, node))
  end.

(** src: control/node_state.go removeNode *)
Definition removeNode (nodeID : string) (clock : nat -> Time) (s : ControlState)
    : ControlState * result controlError (Z * NodeBody) :=
  match normalizeNodeIdentity nodeID with
  | Err err => (s, Err err)
  | Ok nodeID =>
      match cs_nodes s !! nodeID with
      | None => (s, Err ErrNodeNotFound)
      | Some node =>
          let s := withNodes (delete nodeID (cs_nodes s)) s in
          let s := bumpRevision s in
          let s := recordRebalanceEvent (mkRebalance "node_removed" node "" "") (clock 0%nat) s in
          (s, Ok (cs_revision s, node))
      end
  end.

(** src: control/rebalance.go livenessRebalanceReason *)
Definition livenessRebalanceReason (state : string) : string :=
  if bool_decide (state = nodeStateSuspect) then "node_suspect"
  else if bool_decide (state = nodeStateDead) then "node_dead"
  else "node_recovered".

(** The state a node's age gives it.
    src: control/node_state.go AdvanceLiveness 144-152 *)
Definition livenessState (node : NodeBody) (now : Time) (suspectAfter deadAfter : Duration) : string :=
  let age := TimeSub now (timeUnix (nb_lastSeenUnix node)) in
  if (0 <? deadAfter) && (deadAfter <=? age) then nodeStateDead
  else if (0 <? suspectAfter) && (suspectAfter <=? age) then nodeStateSuspect
  else nb_state node.

(** The body of the range of [AdvanceLiveness].
    src: control/node_state.go AdvanceLiveness 138-166 *)
Definition livenessStep (now : Time) (suspectAfter deadAfter : Duration) (clock : nat -> Time)
    (acc : ControlState * list NodeBody) (item : string * NodeBody) : ControlState * list NodeBody :=
  let '(s, changed) := acc in
  let '(nodeID, node) := item in
  if nb_lastSeenUnix node <=? 0 then (s, changed)
  else
    let nextState := livenessState node now suspectAfter deadAfter in
    if bool_decide (nb_state node = nextState) then (s, changed)
    else
      let node := mkNode (nb_nodeID node) (nb_addr node) nextState (nb_lastSeenUnix node) in
      let s := withNodes (<[nodeID := node]> (cs_nodes s)) s in
      let s := bumpRevision s in
      let s := recordRebalanceEvent (mkRebalance (livenessRebalanceReason nextState) node "" "")
                 (clock (length changed)) s in
      (s, changed ++ [node]).

(** src: control/node_state.go AdvanceLiveness *)
Definition AdvanceLiveness (now : Time) (suspectAfter deadAfter : Duration) (clock : nat -> Time)
    (s : ControlState) : ControlState * (Z * list NodeBody) :=
  let '(s, changed) :=
    foldl (livenessStep now suspectAfter deadAfter clock) (s, []) (range_order (cs_nodes s)) in
  (s, (cs_revision s, changed)).

(** ** Migration tasks *)

(** src: control/migration_state.go claimableMigrationTask *)
Definition claimableMigrationTask (task : MigrationTaskBody) (now : Time) : bool :=
  if bool_decide (mt_state task = migrationTaskPlanned) || bool_decide (mt_state task = migrationTaskCleanup) then true
  else if bool_decide (mt_state task = migrationTaskFailed) then mt_nextRetryUnix task <=? Unix now
  else false.

(** [task.State, task.Error, ... = ...]: the fields the transitions write. *)
Definition updateTask (state error : string) (started cutover finished imported deleted attempts retry : Z)
    (t : MigrationTaskBody) : MigrationTaskBody :=
  mkTask (mt_planID t) (mt_taskID t) (mt_revision t) (mt_namespace t) (mt_space t) (mt_start t) (mt_end t)
    (mt_sourceNodeID t) (mt_sourceAddr t) (mt_targetNodeID t) (mt_targetAddr t) state
    (mt_createdAtUnix t) started cutover finished imported deleted attempts retry error.

(** src: control/migration_state.go markTaskRunning *)
Definition markTaskRunning (task : MigrationTaskBody) (now : Time) : MigrationTaskBody :=
  updateTask migrationTaskRunning ""
    (if mt_startedAtUnix task =? 0 then Unix now else mt_startedAtUnix task)
    (mt_cutoverAtUnix task) (mt_finishedAtUnix task) (mt_importedEntries task) (mt_deletedEntries task)
    (mt_attempts task) 0 task.

(** The loop of [deriveMigrationPlanState]: a failed task decides.
    src: control/migration_state.go deriveMigrationPlanState *)
Definition deriveMigrationPlanState (tasks : list MigrationTaskBody) : string :=
  if existsb (fun t => bool_decide (mt_state t = migrationTaskFailed)) tasks then migrationTaskFailed
  else if existsb (fun t => bool_decide (mt_state t = migrationTaskCleanup)
                            || bool_decide (mt_state t = migrationTaskRunning)
                            || bool_decide (mt_state t = migrationTaskPlanned)) tasks
  then migrationTaskRunning
  else migrationTaskDone.

(** [plans[planIndex].Tasks[taskIndex] = task; plans[planIndex].State = derive(...)]. *)
Definition withTasks (tasks : list MigrationTaskBody) (p : MigrationPlanBody) : MigrationPlanBody :=
  mkPlan (mp_id p) (mp_revision p) (mp_reason p) (deriveMigrationPlanState tasks) (mp_createdAtUnix p) tasks.

(** src: control/migration_state.go firstClaimableTask *)
Definition firstClaimableTask (tasks : list MigrationTaskBody) (now : Time) : option (nat * MigrationTaskBody) :=
  list_find (fun t => claimableMigrationTask t now = true) tasks.

(** The loop of [ClaimMigrationTask] over the plans.
    src: control/migration_state.go ClaimMigrationTask 33-46 *)
Fixpoint claimInPlans (plans : list MigrationPlanBody) (now : Time)
    : option (list MigrationPlanBody * MigrationTaskBody) :=
  match plans with
  | [] => None
  | plan :: rest =>
      match firstClaimableTask (mp_tasks plan) now with
      | Some (index, task) =>
          let task := markTaskRunning task now in
          Some (withTasks (<[index := task]> (mp_tasks plan)) plan :: rest, task)
      | None =>
          match claimInPlans rest now with
          | Some (rest, task) => Some (plan :: rest, task)
          | None => None
          end
      end
  end.

(** src: control/migration_state.go ClaimMigrationTask *)
Definition ClaimMigrationTask (now : Time) (s : ControlState) : ControlState * option MigrationTaskBody :=
  match claimInPlans (cs_plans s) now with
  | Some (plans, task) => (bumpRevision (withPlans plans s), Some task)
  | None => (s, None)
  end.

(** src: control/migration_state.go timedOutMigrationTask *)
Definition timedOutMigrationTask (task : MigrationTaskBody) (now : Time) (timeout : Duration) : bool :=
  if negb (bool_decide (mt_state task = migrationTaskRunning) || bool_decide (mt_state task = migrationTaskCleanup))
  then false
  else if mt_startedAtUnix task =? 0 then false
  else timeout <=? TimeSub now (timeUnix (mt_startedAtUnix task)).

(** src: control/migration_state.go TimedOutMigrationTasks *)
Definition TimedOutMigrationTasks (now : Time) (timeout : Duration) (s : ControlState) : list MigrationTaskBody :=
  if timeout <=? 0 then []
  else filter (fun t => timedOutMigrationTask t now timeout = true) (cs_plans s ≫= mp_tasks).

(** The loops of [updateMigrationTask]: a plan with the id but without the task
    does not end the search.
    src: control/migration_state.go updateMigrationTask 126-143 *)
Fixpoint updateInPlans (planID taskID : Z) (mutate : MigrationTaskBody -> MigrationTaskBody)
    (plans : list MigrationPlanBody) : option (list MigrationPlanBody * MigrationTaskBody) :=
  match plans with
  | [] => None
  | plan :: rest =>
      let search :=
        match updateInPlans planID taskID mutate rest with
        | Some (rest, task) => Some (plan :: rest, task)
        | None => None
        end in
      if negb (mp_id plan =? planID) then search
      else
        match list_find (fun t => mt_taskID t = taskID) (mp_tasks plan) with
        | Some (index, task) =>
            let task := mutate task in
            Some (withTasks (<[index := task]> (mp_tasks plan)) plan :: rest, task)
        | None => search
        end
  end.

(** src: control/migration_state.go updateMigrationTask *)
Definition updateMigrationTask (planID taskID : Z) (mutate : MigrationTaskBody -> MigrationTaskBody)
    (s : ControlState) : ControlState * result controlError MigrationTaskBody :=
  match updateInPlans planID taskID mutate (cs_plans s) with
  | Some (plans, task) => (bumpRevision (withPlans plans s), Ok task)
  | None => (s, Err ErrMigrationTaskNotFound)
  end.

(** src: control/migration_state.go CompleteMigrationTask *)
Definition CompleteMigrationTask (planID taskID imported deleted : Z) (now : Time) (s : ControlState) :=
  updateMigrationTask planID taskID (fun t =>
    updateTask migrationTaskDone "" (mt_startedAtUnix t) (mt_cutoverAtUnix t) (Unix now) imported deleted
      (mt_attempts t) (mt_nextRetryUnix t) t) s.

(** src: control/migration_state.go CutoverMigrationTask *)
Definition CutoverMigrationTask (planID taskID imported : Z) (now : Time) (s : ControlState) :=
  updateMigrationTask planID taskID (fun t =>
    updateTask migrationTaskCleanup "" (mt_startedAtUnix t) (Unix now) (mt_finishedAtUnix t) imported
      (mt_deletedEntries t) (mt_attempts t) 0 t) s.

(** src: control/migration_state.go migrationTaskNextRetryUnix *)
Definition migrationTaskNextRetryUnix (now : Time) (retryAfter : Duration) : Z :=
  if retryAfter <=? 0 then Unix now
  else if retryAfter <? nsPerSecond then Unix (TimeAdd now nsPerSecond)
  else Unix (TimeAdd now retryAfter).

(** src: control/migration_state.go FailMigrationTask *)
Definition FailMigrationTask (planID taskID : Z) (message : string) (retryAfter : Duration) (now : Time)
    (s : ControlState) :=
  updateMigrationTask planID taskID (fun t =>
    updateTask migrationTaskFailed message (mt_startedAtUnix t) (mt_cutoverAtUnix t) (Unix now)
      (mt_importedEntries t) (mt_deletedEntries t) (mt_attempts t +% 1)
      (migrationTaskNextRetryUnix now retryAfter) t) s.

(** ** The replicated state machine *)

(** src: control/fsm.go CommandType 11-27 *)
Inductive CommandType :=
| CommandCreateNamespace
| CommandCreateSpace
| CommandCreateEntity
| CommandBumpNamespace
| CommandBumpSpace
| CommandRegisterNode
| CommandHeartbeat
| CommandRemoveNode
| CommandAdvanceNodeLiveness
| CommandClaimMigrationTask
| CommandCutoverMigrationTask
| CommandCompleteMigrationTask
| CommandFailMigrationTask
| CommandOther (name : string).

(** src: control/fsm.go Command *)
Record Command := mkCommand {
  cm_type : CommandType;
  cm_namespace : string;
  cm_space : string;
  cm_entity : string;
  cm_nodeID : string;
  cm_addr : string;
  cm_nowUnix : Z;
  cm_suspectAfterMS : Z;
  cm_deadAfterMS : Z;
  cm_planID : Z;
  cm_taskID : Z;
  cm_importedEntries : Z;
  cm_deletedEntries : Z;
  cm_migrationError : string;
  cm_retryAfterMS : Z
}.

(** The field of [ApplyResult] the command sets; the others are zero.
    src: control/fsm.go ApplyResult *)
Inductive ApplyResult :=
| AppliedNamespace (revision : Z) (item : NamespaceBody)
| AppliedSpace (revision : Z) (item : SpaceBody)
| AppliedEntity (revision : Z) (item : EntityBody)
| AppliedNode (revision : Z) (item : NodeBody)
| AppliedLiveness (revision : Z) (changed : list NodeBody)
| AppliedTask (claimed : bool) (task : MigrationTaskBody).

(** [f.state.now()] is the first reading of the clock when it is used.
    src: control/fsm.go commandTime *)
Definition commandTime (c : Command) (clock : nat -> Time) : Time :=
  if 0 <? cm_nowUnix c then timeUnix (cm_nowUnix c) else clock 0%nat.

(** The readings of the clock that are left after [commandTime]. *)
Definition restOfClock (c : Command) (clock : nat -> Time) : nat -> Time :=
  if 0 <? cm_nowUnix c then clock else fun i => clock (S i).

(** [return ApplyResult{...: response}, err]. *)
Definition applied {A} (out : ControlState * result controlError (Z * A)) (k : Z -> A -> ApplyResult)
    : ControlState * result controlError ApplyResult :=
  match out with
  | (s, Ok (revision, item)) => (s, Ok (k revision item))
  | (s, Err err) => (s, Err err)
  end.

(** [MigrationTaskResult{Claimed: task.State != "", Task: task}]. *)
Definition appliedTask (out : ControlState * result controlError MigrationTaskBody)
    : ControlState * result controlError ApplyResult :=
  match out with
  | (s, Ok task) => (s, Ok (AppliedTask (negb (bool_decide (mt_state task = ""))) task))
  | (s, Err err) => (s, Err err)
  end.

(** src: control/fsm.go applyCreateNamespace *)
Definition applyCreateNamespace (c : Command) (clock : nat -> Time) (s : ControlState) :=
  applied (CreateNamespace (cm_namespace c) clock s) AppliedNamespace.

(** src: control/fsm.go applyCreateSpace *)
Definition applyCreateSpace (c : Command) (clock : nat -> Time) (s : ControlState) :=
  applied (CreateSpace (cm_namespace c) (cm_space c) clock s) AppliedSpace.

(** src: control/fsm.go applyCreateEntity *)
Definition applyCreateEntity (c : Command) (clock : nat -> Time) (s : ControlState) :=
  applied (CreateEntity (cm_namespace c) (cm_space c) (cm_entity c) clock s) AppliedEntity.

(** src: control/fsm.go applyBumpNamespace *)
Definition applyBumpNamespace (c : Command) (s : ControlState) :=
  applied (BumpNamespaceVersion (cm_namespace c) s) AppliedNamespace.

(** src: control/fsm.go applyBumpSpace *)
Definition applyBumpSpace (c : Command) (s : ControlState) :=
  applied (BumpSpaceVersion (cm_namespace c) (cm_space c) s) AppliedSpace.

(** src: control/fsm.go applyRegisterNode *)
Definition applyRegisterNode (c : Command) (clock : nat -> Time) (s : ControlState) :=
  applied (registerNodeAt (cm_nodeID c) (cm_addr c) (commandTime c clock) (restOfClock c clock) s) AppliedNode.

(** src: control/fsm.go applyHeartbeat *)
Definition applyHeartbeat (c : Command) (clock : nat -> Time) (s : ControlState) :=
  applied (heartbeatAt (cm_nodeID c) (cm_addr c) (commandTime c clock) (restOfClock c clock) s) AppliedNode.

(** src: control/fsm.go applyRemoveNode *)
Definition applyRemoveNode (c : Command) (clock : nat -> Time) (s : ControlState) :=
  applied (removeNode (cm_nodeID c) clock s) AppliedNode.

(** src: control/fsm.go applyAdvanceNodeLiveness *)
Definition applyAdvanceNodeLiveness (c : Command) (clock : nat -> Time) (s : ControlState)
    : ControlState * result controlError ApplyResult :=
  let '(s, (revision, changed)) :=
    AdvanceLiveness (timeUnix (cm_nowUnix c)) (millis (cm_suspectAfterMS c)) (millis (cm_deadAfterMS c)) clock s in
  (s, Ok (AppliedLiveness revision changed)).

(** src: control/fsm.go applyClaimMigrationTask *)
Definition applyClaimMigrationTask (c : Command) (clock : nat -> Time) (s : ControlState)
    : ControlState * result controlError ApplyResult :=
  match ClaimMigrationTask (commandTime c clock) s with
  | (s, Some task) => (s, Ok (AppliedTask true task))
  | (s, None) => (s, Ok (AppliedTask false zeroTask))
  end.

(** src: control/fsm.go applyCutoverMigrationTask *)
Definition applyCutoverMigrationTask (c : Command) (clock : nat -> Time) (s : ControlState) :=
  appliedTask (CutoverMigrationTask (cm_planID c) (cm_taskID c) (cm_importedEntries c) (commandTime c clock) s).

(** src: control/fsm.go applyCompleteMigrationTask *)
Definition applyCompleteMigrationTask (c : Command) (clock : nat -> Time) (s : ControlState) :=
  appliedTask (CompleteMigrationTask (cm_planID c) (cm_taskID c) (cm_importedEntries c) (cm_deletedEntries c)
    (commandTime c clock) s).

(** src: control/fsm.go applyFailMigrationTask *)
Definition applyFailMigrationTask (c : Command) (clock : nat -> Time) (s : ControlState) :=
  appliedTask (FailMigrationTask (cm_planID c) (cm_taskID c) (cm_migrationError c) (millis (cm_retryAfterMS c))
    (commandTime c clock) s).

(** The dispatch of [Apply] through [commandHandlers].
    src: control/fsm.go Apply 66-94 *)
Definition Apply (c : Command) (clock : nat -> Time) (s : ControlState)
    : ControlState * result controlError ApplyResult :=
  match cm_type c with
  | CommandCreateNamespace => applyCreateNamespace c clock s
  | CommandCreateSpace => applyCreateSpace c clock s
  | CommandCreateEntity => applyCreateEntity c clock s
  | CommandBumpNamespace => applyBumpNamespace c s
  | CommandBumpSpace => applyBumpSpace c s
  | CommandRegisterNode => applyRegisterNode c clock s
  | CommandHeartbeat => applyHeartbeat c clock s
  | CommandRemoveNode => applyRemoveNode c clock s
  | CommandAdvanceNodeLiveness => applyAdvanceNodeLiveness c clock s
  | CommandClaimMigrationTask => applyClaimMigrationTask c clock s
  | CommandCutoverMigrationTask => applyCutoverMigrationTask c clock s
  | CommandCompleteMigrationTask => applyCompleteMigrationTask c clock s
  | CommandFailMigrationTask => applyFailMigrationTask c clock s
  | CommandOther _ => (s, Err ErrUnknownCommand)
  end.

(** ** Snapshots *)

(** src: control/snapshot.go Snapshot *)
Record ControlSnapshot := mkSnapshot {
  sn_clusterID : string;
  sn_revision : Z;
  sn_mode : string;
  sn_namespaces : list NamespaceBody;
  sn_spaces : list SpaceBody;
  sn_entities : list EntityBody;
  sn_nodes : list NodeBody;
  sn_events : list RebalanceEventBody;
  sn_plans : list MigrationPlanBody;
  sn_nextEvent : Z;
  sn_nextPlan : Z
}.

(** src: control/snapshot.go ExportSnapshot *)
Definition ExportSnapshot (s : ControlState) : ControlSnapshot :=
  mkSnapshot (cs_clusterID s) (cs_revision s) "bootstrap" (sortedNamespaces s) (sortedSpaces s)
    (sortedEntities s) (sortedNodes s) (cs_events s) (cs_plans s) (cs_nextEvent s) (cs_nextPlan s).

(** The loops that rebuild a map: [key] normalizes an item's identity. *)
Fixpoint restoreMap {K A} `{Countable K} (key : A -> result controlError K) (items : list A) (m : gmap K A)
    : result controlError (gmap K A) :=
  match items with
  | [] => Ok m
  | item :: rest => k ← key item; restoreMap key rest (<[k := item]> m)
  end.

(** src: control/snapshot.go restoreSpaces *)
Definition restoreSpaces (items : list SpaceBody) : result controlError (gmap spaceRef SpaceBody) :=
  restoreMap (fun item => normalizeSpaceIdentity (sp_namespace item) (sp_space item)) items ∅.

(** src: control/snapshot.go restoreEntities *)
Definition restoreEntities (items : list EntityBody) : result controlError (gmap entityRef EntityBody) :=
  restoreMap (fun item => normalizeEntityIdentity (en_namespace item) (en_space item) (en_entity item)) items ∅.

(** src: control/snapshot.go restoreNodes *)
Definition restoreNodes (items : list NodeBody) : result controlError (gmap string NodeBody) :=
  restoreMap (fun item => fst <$> validateNodeIdentity (nb_nodeID item) (nb_addr item)) items ∅.

(** src: control/snapshot.go maxEventID *)
Definition maxEventID (items : list RebalanceEventBody) (current : Z) : Z :=
  foldl (fun current item => if current <? ev_id item then ev_id item else current) current items.

(** src: control/snapshot.go maxPlanID *)
Definition maxPlanID (items : list MigrationPlanBody) (current : Z) : Z :=
  foldl (fun current item => if current <? mp_id item then mp_id item else current) current items.

(** src: control/snapshot.go RestoreSnapshot *)
Definition RestoreSnapshot (snapshot : ControlSnapshot) (s : ControlState)
    : ControlState * option controlError :=
  let restored :=
    namespaces ← restoreMap (fun item => normalizeNamespace (ns_namespace item)) (sn_namespaces snapshot) ∅;
    spaces ← restoreSpaces (sn_spaces snapshot);
    entities ← restoreEntities (sn_entities snapshot);
    nodes ← restoreNodes (sn_nodes snapshot);
    Ok (mkState (sn_clusterID snapshot) (sn_revision snapshot) namespaces spaces entities nodes
          (sn_events snapshot) (sn_plans snapshot) (maxEventID (sn_events snapshot) (sn_nextEvent snapshot))
          (maxPlanID (sn_plans snapshot) (sn_nextPlan snapshot)) []) in
  match restored with
  | Err err => (s, Some err)
  | Ok t =>
      (mkState (cs_clusterID t) (cs_revision t) (cs_namespaces t) (cs_spaces t) (cs_entities t) (cs_nodes t)
         (cs_events t) (cs_plans t) (cs_nextEvent t) (cs_nextPlan t)
         (routesForNodes (sortedNodes t) (sortedSpaces t)), None)
  end.
End State.
