(* ===== verification/ControlSpec.v ===== *)
(** * Invariants of the control plane

    The catalog is referentially sound, identities are normalized, logs are
    bounded and numbered, and the remembered route table is the one the nodes
    and spaces give, after any sequence of commands. *)

From S2P Require Import Prelude.
From S2P Require Import GoStrings.
From S2P Require Import ControlApi.
From S2P Require Import ControlRoutes.
From S2P Require Import ControlRoutesSpec.
From S2P Require Import Control.

Local Open Scope Z_scope.
Local Open Scope nespa_scope.

(** ** Identities *)

Definition name_ok (name : string) : Prop := validateCatalogName name ErrInvalidNamespace = None.

Lemma validateCatalogName_kind name k : validateCatalogName name k = None <-> name_ok name.
Proof. unfold name_ok, validateCatalogName. repeat case_bool; naive_solver. Qed.

(** An admitted name has nothing to trim. *)
Lemma name_ok_trim name : name_ok name -> TrimSpace name = name.
Proof.
  unfold name_ok, validateCatalogName. do 3 (case_bool; [done|]). case_bool; [|done]. intros _.
  match goal with Hf : forallb _ _ = true |- _ => rewrite forallb_forall in Hf; rename Hf into Hall end.
  assert (forall b, b ∈ str_bytes name -> space_start (byte_Z b) = false /\ space_end (byte_Z b) = false) as Hb.
  { intros b Hb%list_elem_of_In%Hall. clear -Hb. unfold catalogNameRune in Hb. by destruct b. }
  apply TrimSpace_id; intros z Hz.
  - destruct (str_bytes name) as [|b l]; [done|]. injection Hz as <-. apply Hb. set_solver.
  - rewrite fmap_last in Hz. apply fmap_Some in Hz as (b & Hl & ->). apply Hb. apply last_Some in Hl as [l ->]. set_solver.
Qed.

Lemma name_ok_nonempty name : name_ok name -> name <> "".
Proof. unfold name_ok, validateCatalogName. case_bool; [done|]. by bool_to_prop. Qed.

Lemma normalizeNamespace_ok n m : normalizeNamespace n = Ok m -> name_ok m.
Proof.
  unfold normalizeNamespace. destruct (validateCatalogName _ _) eqn:E; [done|]. intros [= <-].
  by eapply validateCatalogName_kind.
Qed.

Lemma normalizeNamespace_id n : name_ok n -> normalizeNamespace n = Ok n.
Proof. intros Hn. unfold normalizeNamespace. rewrite name_ok_trim by done. by rewrite (proj2 (validateCatalogName_kind _ _) Hn). Qed.

Lemma normalizeSpaceIdentity_ok n s a b : normalizeSpaceIdentity n s = Ok (a, b) -> name_ok a /\ name_ok b.
Proof.
  unfold normalizeSpaceIdentity. destruct (normalizeNamespace n) as [m|] eqn:E; [|done]. cbn.
  destruct (validateCatalogName (TrimSpace s) ErrInvalidSpace) eqn:Es; [done|]. intros [= <- <-].
  split; [by eapply normalizeNamespace_ok|exact (proj1 (validateCatalogName_kind _ _) Es)].
Qed.

Lemma normalizeSpaceIdentity_id n s : name_ok n -> name_ok s -> normalizeSpaceIdentity n s = Ok (n, s).
Proof.
  intros Hn Hs. unfold normalizeSpaceIdentity. rewrite normalizeNamespace_id by done. cbn.
  rewrite name_ok_trim by done. by rewrite (proj2 (validateCatalogName_kind _ _) Hs).
Qed.

Lemma normalizeEntityIdentity_ok n s e a b c : normalizeEntityIdentity n s e = Ok (a, b, c) ->
  name_ok a /\ name_ok b /\ name_ok c.
Proof.
  unfold normalizeEntityIdentity. destruct (normalizeSpaceIdentity n s) as [[x y]|] eqn:E; [|done]. cbn.
  destruct (validateCatalogName (TrimSpace e) ErrInvalidEntity) eqn:Es; [done|]. intros [= <- <- <-].
  apply normalizeSpaceIdentity_ok in E as [? ?]. split_and!; [done|done|exact (proj1 (validateCatalogName_kind _ _) Es)].
Qed.

Lemma normalizeEntityIdentity_id n s e : name_ok n -> name_ok s -> name_ok e ->
  normalizeEntityIdentity n s e = Ok (n, s, e).
Proof.
  intros Hn Hs He. unfold normalizeEntityIdentity. rewrite normalizeSpaceIdentity_id by done. cbn.
  rewrite name_ok_trim by done. by rewrite (proj2 (validateCatalogName_kind _ _) He).
Qed.

(** A normalized node identity is its own normal form. *)
Lemma normalizeNodeID_id n m : normalizeNodeID n = Ok m -> normalizeNodeID m = Ok m /\ m <> "".
Proof.
  unfold normalizeNodeID. case_bool; [done|]. case_bool; [done|]. intros [= <-]. rewrite TrimSpace_idem.
  rewrite Heqb, Heqb0. by bool_to_prop.
Qed.

Lemma normalizeNodeAddr_id a b : normalizeNodeAddr a = Ok b -> normalizeNodeAddr b = Ok b /\ b <> "".
Proof.
  intros Hn. assert (b = TrimSpace a /\ TrimSpace a <> "") as [-> Hne].
  { unfold normalizeNodeAddr in Hn. case_bool; [done|]. case_bool; [done|].
    destruct (SplitHostPort _) as [[h p]|]; [|done]. case_bool; [done|]. destruct (validateNodePort p); [done|].
    bool_to_prop. by injection Hn as <-. }
  split; [|done]. unfold normalizeNodeAddr in *. by rewrite TrimSpace_idem.
Qed.

Lemma validateNodeIdentity_id n a m b : validateNodeIdentity n a = Ok (m, b) ->
  validateNodeIdentity m b = Ok (m, b) /\ m <> "" /\ b <> "".
Proof.
  unfold validateNodeIdentity. destruct (normalizeNodeID n) as [x|] eqn:En; [|done]. cbn.
  destruct (normalizeNodeAddr a) as [y|] eqn:Ea; [|done]. cbn. intros [= <- <-].
  apply normalizeNodeID_id in En as [-> ?]. apply normalizeNodeAddr_id in Ea as [Ea ?]. cbn. by rewrite Ea.
Qed.

(** ** Invariant *)

Definition namespaces_inv (m : gmap string NamespaceBody) : Prop :=
  forall k item, m !! k = Some item -> ns_namespace item = k /\ name_ok k.

(** Every space is in a namespace of the catalog, every entity in a space. *)
Definition spaces_inv (ns : gmap string NamespaceBody) (m : gmap spaceRef SpaceBody) : Prop :=
  forall n s item, m !! (n, s) = Some item ->
    sp_namespace item = n /\ sp_space item = s /\ name_ok n /\ name_ok s /\ is_Some (ns !! n).

Definition entities_inv (sp : gmap spaceRef SpaceBody) (m : gmap entityRef EntityBody) : Prop :=
  forall n s e item, m !! (n, s, e) = Some item ->
    en_namespace item = n /\ en_space item = s /\ en_entity item = e /\ name_ok n /\ name_ok s /\ name_ok e /\
    is_Some (sp !! (n, s)).

Definition nodes_inv (m : gmap string NodeBody) : Prop :=
  forall k item, m !! k = Some item ->
    nb_nodeID item = k /\ validateNodeIdentity k (nb_addr item) = Ok (k, nb_addr item) /\
    nb_addr item <> "" /\
    (nb_state item = nodeStateHealthy \/ nb_state item = nodeStateSuspect \/ nb_state item = nodeStateDead).

(** The tasks of a plan are numbered from 1, name their plan and move between
    different nodes, from an address. *)
Definition task_numbered (plan : Z) (i : nat) (t : MigrationTaskBody) : Prop :=
  mt_planID t = plan /\ mt_taskID t = u64 (Z.of_nat i + 1) /\ mt_sourceNodeID t <> mt_targetNodeID t /\
  mt_sourceAddr t <> "".

Definition plan_ok (p : MigrationPlanBody) : Prop :=
  mp_tasks p <> [] /\ forall i t, mp_tasks p !! i = Some t -> task_numbered (mp_id p) i t.

Record logs_inv (s : ControlState) : Prop := {
  li_events : (length (cs_events s) <= maxRebalanceEvents)%nat;
  li_event_ids : Forall (fun e => 0 < ev_id e <= cs_nextEvent s) (cs_events s);
  li_event_order : StronglySorted Z.lt (ev_id <$> cs_events s);
  li_plans : (length (cs_plans s) <= maxMigrationPlans)%nat;
  li_plan_ids : Forall (fun p => 0 < mp_id p <= cs_nextPlan s /\ plan_ok p) (cs_plans s);
  li_plan_order : StronglySorted Z.lt (mp_id <$> cs_plans s);
  li_counters : 0 <= cs_nextPlan s <= cs_nextEvent s
}.

Section Invariant.
  Context `{!RangeOrder}.

(** The table the nodes and the spaces give. *)
Definition base_routes (s : ControlState) : list RouteBody := routesForNodes (sortedNodes s) (sortedSpaces s).

Record data_inv (s : ControlState) : Prop := {
  ci_namespaces : namespaces_inv (cs_namespaces s);
  ci_spaces : spaces_inv (cs_namespaces s) (cs_spaces s);
  ci_entities : entities_inv (cs_spaces s) (cs_entities s);
  ci_nodes : nodes_inv (cs_nodes s);
  ci_logs : logs_inv s;
  ci_addrs : Forall (fun r => rt_addr r <> "") (cs_lastRoutes s)
}.

Record control_inv (s : ControlState) : Prop := {
  ci_data : data_inv s;
  ci_routes : cs_lastRoutes s = base_routes s
}.

(** The counters do not reach the end of their 64 bits during one command. *)
Definition counters_room (s : ControlState) : Prop :=
  cs_nextEvent s + Z.of_nat (size (cs_nodes s)) + 1 < 2 ^ 64.

Lemma NewControlState_inv id : control_inv (NewControlState id).
Proof.
  constructor.
  - constructor; try (by intros ? **); [|constructor]. constructor; cbn; try done; try constructor; lia.
  - unfold base_routes, sortedNodes, sortedSpaces. cbn.
    assert (forall K A `{Countable K}, range_order (∅ : gmap K A) = []) as He.
    { intros K A ? ?. apply Permutation_nil_r. rewrite range_perm. by rewrite map_to_list_empty. }
    by rewrite !He.
Qed.

(** ** The logs *)

Lemma keepLast_length {A} n (l : list A) : (length (keepLast n l) <= n)%nat.
Proof. unfold keepLast. rewrite length_drop. lia. Qed.

Lemma Forall_keepLast {A} (P : A -> Prop) n l : Forall P l -> Forall P (keepLast n l).
Proof. apply Forall_drop. Qed.

Lemma fmap_keepLast {A B} (f : A -> B) n l : f <$> keepLast n l = keepLast n (f <$> l).
Proof. unfold keepLast. by rewrite fmap_drop, length_fmap. Qed.

Lemma sorted_keepLast n (l : list Z) x : StronglySorted Z.lt l -> Forall (fun y => y < x) l ->
  StronglySorted Z.lt (keepLast n (l ++ [x])).
Proof.
  intros Hs Hx. unfold keepLast. generalize (length (l ++ [x]) - n)%nat. intros k.
  assert (StronglySorted Z.lt (l ++ [x])) as Hs'.
  { induction Hs as [|y l Hs IH Hy]; [by repeat constructor|]. apply Forall_cons in Hx as [Hyx Hx].
    cbn. constructor; [by apply IH|]. apply Forall_app. split; [done|by constructor]. }
  rewrite <- (take_drop k (l ++ [x])) in Hs'. revert Hs'. generalize (take k (l ++ [x])) (drop k (l ++ [x])).
  induction l0 as [|y l0 IH]; intros l1; [done|]. cbn. intros Ht. inversion Ht; subst. by apply IH.
Qed.

Lemma build_distinct event prev cur t : Forall (fun r => rt_addr r <> "") prev ->
  t ∈ buildMigrationTasks event prev cur ->
  mt_sourceNodeID t <> mt_targetNodeID t /\ mt_sourceAddr t <> "".
Proof.
  intros Haddr.
  unfold buildMigrationTasks, migrationTasksForRoute. intros (c & Ht & _)%list_elem_of_bind.
  destruct (emptyRouteScope c); [by apply elem_of_nil in Ht|]. apply list_elem_of_bind in Ht as (p & Ht & Hp).
  unfold migrationTaskRange in Ht. destruct (_ || _ || _) eqn:E; [by apply elem_of_nil in Ht|].
  destruct (routeOverlap p c) as [[a b] [|]]; [|by apply elem_of_nil in Ht].
  apply list_elem_of_singleton in Ht as ->. cbn. bool_to_prop. split; [done|].
  rewrite Forall_forall in Haddr. by apply Haddr.
Qed.

(** What recording an event leaves alone. *)
Lemma record_frame event now s : let s' := recordRebalanceEvent event now s in
  cs_clusterID s' = cs_clusterID s /\ cs_revision s' = cs_revision s /\ cs_namespaces s' = cs_namespaces s /\
  cs_spaces s' = cs_spaces s /\ cs_entities s' = cs_entities s /\ cs_nodes s' = cs_nodes s.
Proof.
  cbn zeta. unfold recordRebalanceEvent. case_bool; [done|]. unfold recordMigrationPlan.
  by destruct (buildMigrationTasks _ _ _).
Qed.

(** The event and the plan a change of routes adds. *)
Lemma record_logs event now s : rb_reason event <> "" -> let s' := recordRebalanceEvent event now s in
  cs_lastRoutes s' = base_routes s /\ cs_nextEvent s' = cs_nextEvent s +% 1 /\
  exists body, ev_id body = cs_nextEvent s +% 1 /\ cs_events s' = keepLast maxRebalanceEvents (cs_events s ++ [body]) /\
  match buildMigrationTasks body (cs_lastRoutes s) (base_routes s) with
  | [] => cs_plans s' = cs_plans s /\ cs_nextPlan s' = cs_nextPlan s
  | tasks => cs_nextPlan s' = cs_nextPlan s +% 1 /\
      exists plan, mp_id plan = cs_nextPlan s +% 1 /\ mp_tasks plan = imap (numberTask (cs_nextPlan s +% 1)) tasks /\
        cs_plans s' = keepLast maxMigrationPlans (cs_plans s ++ [plan])
  end.
Proof.
  intros Hr. cbn zeta. unfold recordRebalanceEvent. rewrite bool_decide_eq_false_2 by done. unfold recordMigrationPlan.
  fold (base_routes s). cbn [cs_revision cs_lastRoutes cs_nextEvent cs_nextPlan].
  set (body := mkEvent _ _ _ _ _ _ _ _ _ _ _).
  destruct (buildMigrationTasks body (cs_lastRoutes s) (base_routes s)) as [|t ts] eqn:E.
  - split_and!; [done|done|]. exists body. rewrite E. done.
  - split_and!; [done|done|]. exists body. rewrite E. split_and!; [done|done|done|].
    eexists. split_and!; [| |reflexivity]; reflexivity.
Qed.

(** Routes lead to the addresses of nodes. *)
Lemma routesForSpace_addr healthy space r : Forall (fun n => nb_addr n <> "") healthy ->
  r ∈ routesForSpace healthy space -> rt_addr r <> "".
Proof.
  unfold routesForSpace. rewrite Forall_lookup. intros Ha (i & y & -> & Hi)%elem_of_lookup_imap_1.
  destruct (vslotRange _ _). cbn. by eapply Ha.
Qed.

Lemma base_routes_addr s : nodes_inv (cs_nodes s) -> Forall (fun r => rt_addr r <> "") (base_routes s).
Proof.
  intros Hn. rewrite Forall_forall. unfold base_routes, routesForNodes.
  assert (Forall (fun n => nb_addr n <> "") (healthyNodes (sortedNodes s))) as Ha.
  { rewrite Forall_forall. intros n [_ Hin]%list_elem_of_filter. unfold sortedNodes in Hin.
    rewrite merge_sort_Permutation in Hin. apply list_elem_of_fmap in Hin as ([k x] & -> & Hk).
    apply elem_of_range in Hk. by apply (Hn k x). }
  intros r. destruct (healthyNodes _) as [|x h] eqn:E; [by intros ?%elem_of_nil|]. rewrite <- E in *.
  destruct (sortedSpaces s); [by apply routesForSpace_addr|].
  intros (y & Hr & _)%list_elem_of_bind. by eapply routesForSpace_addr.
Qed.

Lemma record_inv event now s : rb_reason event <> "" -> data_inv s -> cs_nextEvent s + 1 < 2 ^ 64 ->
  control_inv (recordRebalanceEvent event now s).
Proof.
  intros Hr [Hns Hsp Hen Hno [L1 L2 L3 L4 L5 L6 L7] Hra] Hroom.
  pose proof (record_frame event now s) as (_ & _ & En & Es & Ee & Ed).
  pose proof (record_logs event now s Hr) as (El & Ev & body & Eid & Eev & Hp).
  set (s' := recordRebalanceEvent event now s) in *.
  rewrite (u64_small (cs_nextEvent s + 1)) in Ev, Eid by (unfold is_u64; lia).
  constructor.
  2: { rewrite El. unfold base_routes, sortedNodes, sortedSpaces. by rewrite Ed, Es. }
  constructor; rewrite ?En, ?Es, ?Ee, ?Ed; try done; [|rewrite El; by apply base_routes_addr]. constructor.
  - rewrite Eev. apply keepLast_length.
  - rewrite Eev, Ev. apply Forall_keepLast, Forall_app. split; [|repeat constructor; lia].
    eapply Forall_impl; [done|]. cbn. lia.
  - rewrite Eev, fmap_keepLast, fmap_app. apply sorted_keepLast; [done|]. rewrite Eid. apply Forall_fmap.
    eapply Forall_impl; [done|]. cbn. lia.
  - destruct (buildMigrationTasks _ _ _); [destruct Hp as [-> _]; done|].
    destruct Hp as (_ & plan & _ & _ & ->). apply keepLast_length.
  - destruct (buildMigrationTasks body _ _) as [|t ts] eqn:Et; [by destruct Hp as [-> ->]|].
    destruct Hp as (-> & plan & Ep & Etasks & ->). rewrite u64_small in * by (unfold is_u64; lia).
    apply Forall_keepLast, Forall_app. split; [eapply Forall_impl; [done|]; cbn; intros ? [? ?]; split; [lia|done]|].
    apply Forall_singleton. split; [lia|]. split; [by rewrite Etasks|]. intros i x Hx.
    rewrite Etasks in Hx. apply list_lookup_imap_Some in Hx as (y & Hy & ->).
    destruct (build_distinct body (cs_lastRoutes s) (base_routes s) y Hra) as [Hd1 Hd2];
      [rewrite Et; by eapply list_elem_of_lookup_2|]. by split_and!; [rewrite Ep|..].
  - destruct (buildMigrationTasks body _ _); [by destruct Hp as [-> _]|].
    destruct Hp as (_ & plan & Ep & _ & ->). rewrite u64_small in Ep by (unfold is_u64; lia).
    rewrite fmap_keepLast, fmap_app. apply sorted_keepLast; [done|]. rewrite Ep. apply Forall_fmap.
    eapply Forall_impl; [done|]. cbn. lia.
  - destruct (buildMigrationTasks body _ _); [destruct Hp as [_ ->]; lia|].
    destruct Hp as (-> & _). rewrite u64_small by (unfold is_u64; lia). lia.
Qed.

(** ** The sorted views *)

Lemma by_key_total {A} (key : A -> string) : Total (by_key key).
Proof. intros x y. apply String.leb_total. Qed.

Lemma by_key_trans {A} (key : A -> string) : Transitive (by_key key).
Proof. intros x y z. apply leb_trans. Qed.

(** The order of spaces, on their scopes. *)
Definition scope_before (a b : string * string) : Prop :=
  (if bool_decide (a.1 = b.1) then String.leb a.2 b.2 else String.leb a.1 b.1) = true.

Lemma scope_before_trans : Transitive scope_before.
Proof.
  intros [a a'] [b b'] [c c']. unfold scope_before. cbn.
  destruct (decide (a = b)) as [->|Hab], (decide (b = c)) as [->|Hbc].
  - rewrite !(bool_decide_eq_true_2 (c = c)) by done. apply leb_trans.
  - by rewrite (bool_decide_eq_true_2 (b = b)), (bool_decide_eq_false_2 (b = c)) by done.
  - rewrite (bool_decide_eq_true_2 (c = c)) by done. by rewrite (bool_decide_eq_false_2 (a = c)) by done.
  - rewrite (bool_decide_eq_false_2 (a = b)), (bool_decide_eq_false_2 (b = c)) by done. intros H1 H2.
    destruct (decide (a = c)) as [->|Hac]; [destruct Hab; by apply String.leb_antisym|].
    rewrite bool_decide_eq_false_2 by done. by eapply leb_trans.
Qed.

Lemma scope_before_antisym a b : scope_before a b -> scope_before b a -> a = b.
Proof.
  destruct a as [a a'], b as [b b']. unfold scope_before. cbn.
  destruct (decide (a = b)) as [->|Hab].
  - rewrite !(bool_decide_eq_true_2 (b = b)) by done. intros H1 H2. f_equal. by apply String.leb_antisym.
  - rewrite (bool_decide_eq_false_2 (a = b)), (bool_decide_eq_false_2 (b = a)) by done.
    intros H1 H2. destruct Hab. by apply String.leb_antisym.
Qed.

Lemma space_before_total : Total space_before.
Proof.
  intros x y. unfold space_before. destruct (decide (sp_namespace x = sp_namespace y)) as [E|E].
  - rewrite E, !bool_decide_eq_true_2 by done. apply String.leb_total.
  - rewrite !bool_decide_eq_false_2 by done. apply String.leb_total.
Qed.

(** Replacing a value by one with the same view keeps the views. *)
Lemma values_replace {K A B} `{Countable K} (f : A -> B) (m : gmap K A) k old new :
  m !! k = Some old -> f new = f old ->
  f <$> (map_to_list (<[k := new]> m)).*2 ≡ₚ f <$> (map_to_list m).*2.
Proof.
  intros Hk E. rewrite <- (map_to_list_delete m k old Hk), <- insert_delete_eq.
  rewrite map_to_list_insert by apply lookup_delete_eq. cbn. by rewrite E.
Qed.

(** Keys that are part of the values make the values distinct. *)
Lemma values_NoDup {K A} `{Countable K} (key : A -> K) (m : gmap K A) :
  (forall k a, m !! k = Some a -> key a = k) -> NoDup (key <$> (map_to_list m).*2).
Proof.
  intros Hk. rewrite <- list_fmap_compose.
  assert (key ∘ snd <$> map_to_list m = fst <$> map_to_list m) as ->; [|apply NoDup_fst_map_to_list].
  apply list_fmap_ext. intros i [k a] Hi%list_elem_of_lookup_2%elem_of_map_to_list. cbn. by apply Hk.
Qed.

Lemma nodes_NoDup m : nodes_inv m -> NoDup (nb_nodeID <$> (map_to_list m).*2).
Proof. intros Hm. apply values_NoDup. intros k a Ha. by apply Hm. Qed.

Lemma spaces_NoDup ns m : spaces_inv ns m -> NoDup (scope_of <$> (map_to_list m).*2).
Proof.
  intros Hm. apply values_NoDup. intros [n s] a Ha. destruct (Hm n s a Ha) as (<- & <- & _). done.
Qed.

Lemma sortedNodes_view s s' : nodes_inv (cs_nodes s) ->
  node_view <$> (map_to_list (cs_nodes s)).*2 ≡ₚ node_view <$> (map_to_list (cs_nodes s')).*2 ->
  node_view <$> sortedNodes s = node_view <$> sortedNodes s'.
Proof.
  intros Hm Hp. unfold sortedNodes.
  apply (sort_unique (by_key nb_nodeID) (fun a b => String.leb a.1.1 b.1.1 = true) node_view (fun v => v.1.1)).
  - apply by_key_total.
  - intros x y z. apply leb_trans.
  - done.
  - intros x y. apply String.leb_antisym.
  - by rewrite !range_perm.
  - rewrite range_perm, <- list_fmap_compose. by apply nodes_NoDup.
Qed.

Lemma sortedSpaces_view s s' : spaces_inv (cs_namespaces s) (cs_spaces s) ->
  scope_of <$> (map_to_list (cs_spaces s)).*2 ≡ₚ scope_of <$> (map_to_list (cs_spaces s')).*2 ->
  scope_of <$> sortedSpaces s = scope_of <$> sortedSpaces s'.
Proof.
  intros Hm Hp. unfold sortedSpaces.
  apply (sort_unique space_before scope_before scope_of (fun v => v)).
  - apply space_before_total.
  - apply scope_before_trans.
  - done.
  - apply scope_before_antisym.
  - by rewrite !range_perm.
  - rewrite range_perm, list_fmap_id. by eapply spaces_NoDup.
Qed.

Lemma base_routes_view s s' : nodes_inv (cs_nodes s) -> spaces_inv (cs_namespaces s) (cs_spaces s) ->
  node_view <$> (map_to_list (cs_nodes s)).*2 ≡ₚ node_view <$> (map_to_list (cs_nodes s')).*2 ->
  scope_of <$> (map_to_list (cs_spaces s)).*2 ≡ₚ scope_of <$> (map_to_list (cs_spaces s')).*2 ->
  base_routes s = base_routes s'.
Proof.
  intros Hn Hs En Es. apply routesForNodes_view; [by apply sortedNodes_view|by apply sortedSpaces_view].
Qed.

(** ** Every command keeps the invariant *)

Lemma logs_inv_ext s s' : cs_events s' = cs_events s -> cs_plans s' = cs_plans s ->
  cs_nextEvent s' = cs_nextEvent s -> cs_nextPlan s' = cs_nextPlan s -> logs_inv s -> logs_inv s'.
Proof. intros E1 E2 E3 E4 []. constructor; rewrite ?E1, ?E2, ?E3, ?E4; done. Qed.

Lemma CreateNamespace_inv n clock s : control_inv s -> control_inv (CreateNamespace n clock s).1.
Proof.
  intros [[Hn Hs He Hd Hl Hra] Hr]. unfold CreateNamespace. destruct (normalizeNamespace n) as [m|] eqn:En; [|done].
  apply normalizeNamespace_ok in En. destruct (cs_namespaces s !! m) eqn:Em; [done|]. cbn [fst].
  constructor; [|exact Hr]. constructor; cbn.
  - intros k item [[<- <-]|[Hne Hk]]%lookup_insert_Some; [done|by apply Hn].
  - intros a b item Hi. destruct (Hs a b item Hi) as (? & ? & ? & ? & [x Hx]). split_and!; try done.
    destruct (decide (m = a)) as [->|]; [rewrite lookup_insert_eq; eauto|rewrite lookup_insert_ne by done; eauto].
  - exact He.
  - exact Hd.
  - by eapply logs_inv_ext; [..|exact Hl].
  - exact Hra.
Qed.

(** The state with a new space, before the event is recorded. *)
Lemma new_space_data a b item s : data_inv s -> name_ok a -> name_ok b -> is_Some (cs_namespaces s !! a) ->
  sp_namespace item = a -> sp_space item = b ->
  data_inv (withSpaceMap (<[(a, b) := item]> (cs_spaces (bumpRevision s))) (bumpRevision s)).
Proof.
  intros [Hn Hs He Hd Hl Hra] Ha Hb Hm H1' H2'. constructor; cbn.
  - exact Hn.
  - intros x y z [[[= <- <-] <-]|[Hne Hk]]%lookup_insert_Some; [done|by apply Hs].
  - intros x y z w Hi. destruct (He x y z w Hi) as (? & ? & ? & ? & ? & ? & [v Hw]). split_and!; try done.
    destruct (decide ((a, b) = (x, y))) as [->|]; [rewrite lookup_insert_eq; eauto|rewrite lookup_insert_ne by done; eauto].
  - exact Hd.
  - by eapply logs_inv_ext; [..|exact Hl].
  - exact Hra.
Qed.

Lemma CreateSpace_inv n sp clock s : control_inv s -> counters_room s -> control_inv (CreateSpace n sp clock s).1.
Proof.
  intros Hinv Hroom. unfold CreateSpace. destruct (normalizeSpaceIdentity n sp) as [[a b]|] eqn:En; [|done].
  apply normalizeSpaceIdentity_ok in En as [Ha Hb]. destruct (cs_namespaces s !! a) eqn:Em; [|done].
  destruct (cs_spaces s !! (a, b)) eqn:Es; [done|]. cbn [fst]. unfold counters_room in Hroom.
  apply record_inv; [done| |cbn; lia]. apply new_space_data; [apply Hinv|done|done|by rewrite Em|done|done].
Qed.

Lemma CreateEntity_inv n sp e clock s : control_inv s -> control_inv (CreateEntity n sp e clock s).1.
Proof.
  intros [[Hn Hs He Hd Hl Hra] Hr]. unfold CreateEntity.
  destruct (normalizeEntityIdentity n sp e) as [[[a b] c]|] eqn:En; [|done].
  apply normalizeEntityIdentity_ok in En as (Ha & Hb & Hc). destruct (cs_namespaces s !! a) eqn:Em; [|done].
  destruct (cs_spaces s !! (a, b)) eqn:Es; [|done]. destruct (cs_entities s !! (a, b, c)); [done|]. cbn [fst].
  constructor; [|exact Hr]. constructor; cbn; [exact Hn|exact Hs| |exact Hd|by eapply logs_inv_ext; [..|exact Hl]|exact Hra].
  intros x y z item [[[= <- <- <-] <-]|[Hne Hk]]%lookup_insert_Some; [by split_and!; eauto|by apply He].
Qed.

Lemma BumpNamespaceVersion_inv n s : control_inv s -> control_inv (BumpNamespaceVersion n s).1.
Proof.
  intros [[Hn Hs He Hd Hl Hra] Hr]. unfold BumpNamespaceVersion. destruct (normalizeNamespace n) as [m|] eqn:En; [|done].
  destruct (cs_namespaces s !! m) as [item|] eqn:Em; [|done]. cbn [fst].
  destruct (Hn m item Em) as [Hi Hm]. constructor; [|exact Hr]. constructor; cbn; [| |exact He|exact Hd|by eapply logs_inv_ext; [..|exact Hl]|exact Hra].
  - intros k x [[<- <-]|[Hne Hk]]%lookup_insert_Some; [done|by apply Hn].
  - intros a b x Hx. destruct (Hs a b x Hx) as (? & ? & ? & ? & [y Hy]). split_and!; try done.
    destruct (decide (m = a)) as [->|]; [rewrite lookup_insert_eq; eauto|rewrite lookup_insert_ne by done; eauto].
Qed.

Lemma BumpSpaceVersion_inv n sp s : control_inv s -> control_inv (BumpSpaceVersion n sp s).1.
Proof.
  intros [[Hn Hs He Hd Hl Hra] Hr]. unfold BumpSpaceVersion.
  destruct (normalizeSpaceIdentity n sp) as [[a b]|] eqn:En; [|done].
  destruct (cs_namespaces s !! a) eqn:Em; [|done].
  destruct (cs_spaces s !! (a, b)) as [item|] eqn:Es; [|done]. cbn [fst].
  pose proof (Hs a b item Es) as Hitem. constructor.
  - constructor; cbn; [exact Hn| | |exact Hd|by eapply logs_inv_ext; [..|exact Hl]|exact Hra].
    + intros x y z [[[= <- <-] <-]|[Hne Hk]]%lookup_insert_Some; [exact Hitem|by apply Hs].
    + intros x y z w Hw. destruct (He x y z w Hw) as (? & ? & ? & ? & ? & ? & [v Hv]). split_and!; try done.
      destruct (decide ((a, b) = (x, y))) as [->|]; [rewrite lookup_insert_eq; eauto|rewrite lookup_insert_ne by done; eauto].
  - cbn. rewrite Hr. apply base_routes_view; [done|done|done|]. cbn. symmetry. by eapply values_replace.
Qed.

(** A node that is written keeps the invariant; when nothing a route reads has
    changed, the table is the same. *)
Lemma nodes_inv_insert m k node : nodes_inv m -> nb_nodeID node = k ->
  validateNodeIdentity k (nb_addr node) = Ok (k, nb_addr node) -> nb_addr node <> "" ->
  (nb_state node = nodeStateHealthy \/ nb_state node = nodeStateSuspect \/ nb_state node = nodeStateDead) ->
  nodes_inv (<[k := node]> m).
Proof. intros Hm H1 H2 H3 H4 j item [[<- <-]|[Hne Hj]]%lookup_insert_Some; [done|by apply Hm]. Qed.

Lemma withNodes_data m s : data_inv s -> nodes_inv m -> data_inv (withNodes m s).
Proof. intros [Hn Hs He Hd Hl Hra] Hm. constructor; try done. by eapply logs_inv_ext; [..|exact Hl]. Qed.

Lemma withRevision_data r s : data_inv s -> data_inv (withRevision r s).
Proof. intros [Hn Hs He Hd Hl Hra]. constructor; try done. by eapply logs_inv_ext; [..|exact Hl]. Qed.

Lemma refresh_inv k old node s : control_inv s -> cs_nodes s !! k = Some old -> node_view node = node_view old ->
  control_inv (withNodes (<[k := node]> (cs_nodes s)) s).
Proof.
  intros [Hd Hr] Hk Hv. pose proof (ci_nodes s Hd k old Hk) as (Ek & Hi & Ha & Hst).
  injection Hv as E1 E2 E3. constructor.
  - apply withNodes_data; [done|]. apply nodes_inv_insert; [apply Hd|congruence|by rewrite E2|by rewrite E2|by rewrite E3].
  - cbn. rewrite Hr. apply base_routes_view; [apply Hd|apply Hd| |done]. cbn. symmetry.
    eapply values_replace; [done|]. unfold node_view. congruence.
Qed.

Lemma registerNodeAt_inv n a now clock s : control_inv s -> counters_room s ->
  control_inv (registerNodeAt n a now clock s).1.
Proof.
  intros Hinv Hroom. unfold registerNodeAt. destruct (validateNodeIdentity n a) as [[k b]|] eqn:En; [|done].
  apply validateNodeIdentity_id in En as (Hid & Hk & Hb). set (node := mkNode k b nodeStateHealthy _).
  assert (nodes_inv (<[k := node]> (cs_nodes s))) as Hno
    by (apply nodes_inv_insert; [apply Hinv|done|done|done|by left]).
  unfold counters_room in Hroom.
  destruct (nodeRegistrationEventReason (cs_nodes s !! k) node) as [reason [|]] eqn:Er; cbn [fst].
  - apply record_inv; [|apply withNodes_data; [apply withRevision_data, Hinv|exact Hno]|cbn; lia].
    cbn. unfold nodeRegistrationEventReason in Er. destruct (cs_nodes s !! k); repeat case_bool; by simplify_eq.
  - unfold nodeRegistrationEventReason in Er. destruct (cs_nodes s !! k) as [old|] eqn:Eo; [|done].
    repeat case_bool; try done. bool_to_prop. apply (refresh_inv k old); [done|done|].
    unfold node_view. pose proof (ci_nodes s (ci_data s Hinv) k old Eo) as (Ek & _). cbn in *. congruence.
Qed.

Lemma heartbeatChanges_spec found k a node steps reason :
  (forall old, found = Some old -> nb_nodeID old = k) -> heartbeatChanges found k a = (node, steps, reason) ->
  node_view node = (k, a, nodeStateHealthy) /\ 0 <= steps /\ (0 < steps -> reason <> "") /\
  (steps = 0 -> exists old, found = Some old /\ node_view old = (k, a, nodeStateHealthy)).
Proof.
  unfold heartbeatChanges, node_view. intros Hold. destruct found as [old|]; cbn.
  - specialize (Hold old eq_refl). subst k.
    destruct (decide (nb_addr old = a)) as [<-|]; [rewrite bool_decide_eq_true_2 by done|rewrite bool_decide_eq_false_2 by done]; cbn.
    all: destruct (decide (nb_state old = nodeStateHealthy)) as [E|];
      [rewrite bool_decide_eq_true_2 by done|rewrite bool_decide_eq_false_2 by done]; cbn.
    all: intros [= <- <- <-]; cbn; split_and!; try done; try lia; try congruence.
    all: intros _; exists old; split; congruence.
  - rewrite bool_decide_eq_true_2 by done. cbn. intros [= <- <- <-]. done.
Qed.

Lemma heartbeatAt_inv n a now clock s : control_inv s -> counters_room s ->
  control_inv (heartbeatAt n a now clock s).1.
Proof.
  intros Hinv Hroom. unfold heartbeatAt. destruct (validateNodeIdentity n a) as [[k b]|] eqn:En; [|done].
  apply validateNodeIdentity_id in En as (Hid & Hk & Hb).
  destruct (heartbeatChanges (cs_nodes s !! k) k b) as [[node steps] reason] eqn:Eh.
  apply heartbeatChanges_spec in Eh as (Hv & Hst & Hre & Hz);
    [|intros old Ho; by apply (ci_nodes s (ci_data s Hinv) k old)].
  injection Hv as E1 E2 E3. set (node' := mkNode _ _ _ _). unfold counters_room in Hroom. cbn [fst].
  destruct (Z.ltb_spec 0 steps) as [Hpos|Hzero].
  - apply record_inv; [by apply Hre| |cbn; lia].
    apply withNodes_data; [apply withRevision_data, Hinv|].
    apply nodes_inv_insert; [apply Hinv|done|by cbn; rewrite E2|by cbn; rewrite E2|left; exact E3].
  - destruct Hz as (old & Ho & Hvo); [lia|].
    assert (control_inv (withRevision (cs_revision s +% steps) s)) as Hinv'
      by (destruct Hinv as [Hdat Hr]; constructor; [by apply withRevision_data|exact Hr]).
    apply (refresh_inv k old); [exact Hinv'|exact Ho|]. rewrite Hvo. unfold node_view. cbn. congruence.
Qed.

Lemma removeNode_inv n clock s : control_inv s -> counters_room s -> control_inv (removeNode n clock s).1.
Proof.
  intros Hinv Hroom. unfold removeNode. destruct (normalizeNodeIdentity n) as [k|]; [|done].
  destruct (cs_nodes s !! k) as [node|]; [|done]. cbn [fst]. unfold counters_room in Hroom.
  apply record_inv; [done|apply withRevision_data, withNodes_data; [apply Hinv|]|cbn; lia].
  intros j item [_ Hj]%lookup_delete_Some. by apply (ci_nodes s (ci_data s Hinv)).
Qed.

Lemma record_nextEvent event now s : cs_nextEvent s + 1 < 2 ^ 64 -> 0 <= cs_nextEvent s ->
  cs_nextEvent s <= cs_nextEvent (recordRebalanceEvent event now s) <= cs_nextEvent s + 1.
Proof.
  intros H1 H2. destruct (decide (rb_reason event = "")) as [E|E].
  - unfold recordRebalanceEvent. rewrite bool_decide_eq_true_2 by done. lia.
  - pose proof (record_logs event now s E) as (_ & -> & _). rewrite u64_small by (unfold is_u64; lia). lia.
Qed.

Lemma livenessStep_inv now sa da clock s changed k node m : control_inv s -> nodes_inv m -> m !! k = Some node ->
  cs_nextEvent s + 1 < 2 ^ 64 ->
  let '(s', changed') := livenessStep now sa da clock (s, changed) (k, node) in
  control_inv s' /\ cs_nextEvent s' <= cs_nextEvent s + 1.
Proof.
  intros Hinv Hm Hk Hroom. cbn [livenessStep]. case_bool; [split; [done|lia]|]. case_bool; [split; [done|lia]|].
  destruct (Hm k node Hk) as (Ek & Hi & Ha & Hst).
  pose proof (li_counters s (ci_logs s (ci_data s Hinv))) as Hc. split.
  - apply record_inv; [|apply withRevision_data, withNodes_data; [apply Hinv|]|done].
    + cbn. unfold livenessRebalanceReason. by repeat case_bool.
    + apply nodes_inv_insert; [apply Hinv|done|done|done|]. cbn. unfold livenessState. repeat case_bool; auto.
  - match goal with |- cs_nextEvent (recordRebalanceEvent ?ev ?n ?st) <= _ =>
      pose proof (record_nextEvent ev n st ltac:(cbn; lia) ltac:(cbn; lia)) as Hne end.
    cbn [bumpRevision withRevision withNodes cs_nextEvent] in Hne. lia.
Qed.

Lemma AdvanceLiveness_inv now sa da clock s : control_inv s -> counters_room s ->
  control_inv (AdvanceLiveness now sa da clock s).1.
Proof.
  intros Hinv Hroom. unfold AdvanceLiveness.
  set (m := cs_nodes s) in *. assert (nodes_inv m) as Hm by apply Hinv.
  assert (forall l acc, control_inv acc.1 -> (forall k node, (k, node) ∈ l -> m !! k = Some node) ->
    cs_nextEvent acc.1 + Z.of_nat (length l) + 1 < 2 ^ 64 ->
    control_inv (foldl (livenessStep now sa da clock) acc l).1) as Hfold.
  { induction l as [|[k node] l IH]; intros [s0 changed] Hi Hl Hr; [done|].
    cbn [foldl length fst] in *.
    pose proof (livenessStep_inv now sa da clock s0 changed k node m Hi Hm ltac:(apply Hl; set_solver) ltac:(lia)) as Hstep.
    destruct (livenessStep _ _ _ _ _ _) as [s1 changed1]. destruct Hstep as [Hi1 Hn1].
    apply IH; [done|intros; apply Hl; set_solver|cbn; lia]. }
  specialize (Hfold (range_order m) (s, [])). destruct (foldl _ _ _) as [s' changed]. cbn [fst] in *.
  apply Hfold; [done|intros k node; apply elem_of_range|]. rewrite length_range. unfold counters_room in Hroom. fold m in Hroom. lia.
Qed.

(** One task of one plan is rewritten by [f]. *)
Record task_updated (f : MigrationTaskBody -> MigrationTaskBody) (plans plans' : list MigrationPlanBody)
    (i j : nat) (plan : MigrationPlanBody) (t : MigrationTaskBody) : Prop := {
  tu_plan : plans !! i = Some plan;
  tu_task : mp_tasks plan !! j = Some t;
  tu_plans : plans' = <[i := withTasks (<[j := f t]> (mp_tasks plan)) plan]> plans
}.

Lemma updateInPlans_spec planID taskID f plans plans' t' : updateInPlans planID taskID f plans = Some (plans', t') ->
  exists i j plan t, task_updated f plans plans' i j plan t /\ t' = f t /\ mp_id plan = planID /\ mt_taskID t = taskID.
Proof.
  revert plans'. induction plans as [|p plans IH]; intros plans'; [done|]. cbn [updateInPlans].
  set (search := match updateInPlans _ _ _ _ with Some _ => _ | None => _ end).
  assert (search = Some (plans', t') -> exists i j plan t, task_updated f (p :: plans) plans' i j plan t /\
    t' = f t /\ mp_id plan = planID /\ mt_taskID t = taskID) as Hsearch.
  { unfold search. destruct (updateInPlans planID taskID f plans) as [[rest t0]|]; [|done]. intros [= <- <-].
    destruct (IH rest eq_refl) as (i & j & plan & t & [] & ?). exists (S i), j, plan, t.
    split; [|done]. constructor; [done|done|cbn; by f_equal]. }
  case_bool; [done|]. destruct (list_find _ (mp_tasks p)) as [[j t]|] eqn:Ef; [|done]. intros [= <- <-].
  apply list_find_Some in Ef as (Hj & Ht & _). bool_to_prop. exists 0%nat, j, p, t. done.
Qed.

Lemma claimInPlans_spec now plans plans' t' : claimInPlans plans now = Some (plans', t') ->
  exists i j plan t, task_updated (fun t => markTaskRunning t now) plans plans' i j plan t /\ t' = markTaskRunning t now /\
    claimableMigrationTask t now = true /\
    (forall j' t0, (j' < j)%nat -> mp_tasks plan !! j' = Some t0 -> claimableMigrationTask t0 now = false) /\
    (forall i' plan0 t0, (i' < i)%nat -> plans !! i' = Some plan0 -> t0 ∈ mp_tasks plan0 ->
       claimableMigrationTask t0 now = false).
Proof.
  revert plans'. induction plans as [|p plans IH]; intros plans'; [done|]. cbn [claimInPlans].
  unfold firstClaimableTask. destruct (list_find _ (mp_tasks p)) as [[j t]|] eqn:Ef.
  - intros [= <- <-]. apply list_find_Some in Ef as (Hj & Ht & Hmin). exists 0%nat, j, p, t. split_and!; try done.
    + intros j' t0 Hlt Ht0. apply not_true_is_false. intros Hc. by apply (Hmin j' t0 Ht0 Hlt).
    + intros i' plan0 t0 Hlt. lia.
  - apply list_find_None in Ef. destruct (claimInPlans plans now) as [[rest t0]|]; [|done]. intros [= <- <-].
    destruct (IH rest eq_refl) as (i & j & plan & t & [] & -> & Hc & Hj & Hi). exists (S i), j, plan, t.
    split_and!; try done; [constructor; [done|done|cbn; by f_equal]|].
    intros [|i'] plan0 t1 Hlt Hp Ht1; [|by apply (Hi i' plan0); [lia|..]].
    injection Hp as <-. apply not_true_is_false. intros Hcl. rewrite Forall_forall in Ef. by apply (Ef t1).
Qed.

(** Nothing claimable is left when nothing is claimed. *)
Lemma claimInPlans_None now plans : claimInPlans plans now = None ->
  forall plan t, plan ∈ plans -> t ∈ mp_tasks plan -> claimableMigrationTask t now = false.
Proof.
  induction plans as [|p plans IH]; [by intros _ plan t ?%elem_of_nil|]. cbn [claimInPlans].
  unfold firstClaimableTask. destruct (list_find _ (mp_tasks p)) as [[j t]|] eqn:Ef; [done|].
  destruct (claimInPlans plans now) as [[rest t0]|]; [done|]. intros _ plan t [->|Hp]%elem_of_cons Ht; [|by eapply IH].
  apply list_find_None in Ef. rewrite Forall_forall in Ef. apply not_true_is_false. intros Hc. by apply (Ef t).
Qed.

(** What identifies a task and its move. *)
Definition same_task (t t' : MigrationTaskBody) : Prop :=
  mt_planID t' = mt_planID t /\ mt_taskID t' = mt_taskID t /\ mt_namespace t' = mt_namespace t /\
  mt_space t' = mt_space t /\ mt_start t' = mt_start t /\ mt_end t' = mt_end t /\
  source_of t' = source_of t /\ target_of t' = target_of t.

Lemma updated_logs f plans' i j plan t s : (forall t, same_task t (f t)) ->
  task_updated f (cs_plans s) plans' i j plan t -> logs_inv s -> logs_inv (bumpRevision (withPlans plans' s)).
Proof.
  intros Hf [Hp Ht ->] [L1 L2 L3 L4 L5 L6 L7]. rewrite Forall_lookup in L5.
  assert (forall l : list MigrationPlanBody, l !! i = Some plan ->
    mp_id <$> <[i := withTasks (<[j := f t]> (mp_tasks plan)) plan]> l = mp_id <$> l) as Eids.
  { intros l Hl. rewrite list_fmap_insert. apply list_insert_id. rewrite list_lookup_fmap, Hl. done. }
  constructor; cbn; try done.
  - by rewrite length_insert.
  - rewrite Forall_lookup. intros i' p' Hp'. destruct (decide (i' = i)) as [->|Hne].
    + rewrite list_lookup_insert_eq in Hp' by (by eapply lookup_lt_Some). injection Hp' as <-.
      destruct (L5 i plan Hp) as [Hid [Hne Hall]]. split; [done|]. split; cbn.
      * intros E. apply (f_equal length) in E. rewrite length_insert in E. by destruct (mp_tasks plan).
      * intros j' t' Hj'. destruct (decide (j' = j)) as [->|Hnej].
        -- rewrite list_lookup_insert_eq in Hj' by (by eapply lookup_lt_Some). injection Hj' as <-.
           destruct (Hall j t Ht) as (? & ? & ? & ?). unfold task_numbered. destruct (Hf t) as (-> & -> & _ & _ & _ & _ & Es & Et).
           injection Es as -> ->. injection Et as -> _. done.
        -- rewrite list_lookup_insert_ne in Hj' by done. by apply Hall.
    + rewrite list_lookup_insert_ne in Hp' by done. by apply L5 in Hp'.
  - by rewrite Eids.
Qed.

Lemma updated_inv f plans' i j plan t s : (forall t, same_task t (f t)) ->
  task_updated f (cs_plans s) plans' i j plan t -> control_inv s -> control_inv (bumpRevision (withPlans plans' s)).
Proof.
  intros Hf Hu [[Hn Hs He Hd Hl Hra] Hr]. constructor; [constructor; try done|exact Hr]. by eapply updated_logs.
Qed.

Lemma updateMigrationTask_inv planID taskID f s : (forall t, same_task t (f t)) -> control_inv s ->
  control_inv (updateMigrationTask planID taskID f s).1.
Proof.
  intros Hf Hinv. unfold updateMigrationTask. destruct (updateInPlans _ _ _ _) as [[plans' t']|] eqn:E; [|done].
  apply updateInPlans_spec in E as (i & j & plan & t & Hu & _). by eapply updated_inv.
Qed.

Lemma ClaimMigrationTask_inv now s : control_inv s -> control_inv (ClaimMigrationTask now s).1.
Proof.
  intros Hinv. unfold ClaimMigrationTask. destruct (claimInPlans _ _) as [[plans' t']|] eqn:E; [|done].
  apply claimInPlans_spec in E as (i & j & plan & t & Hu & _). by eapply (updated_inv (fun t => markTaskRunning t now)).
Qed.

Lemma applied_fst {A} (out : ControlState * result controlError (Z * A)) k : (applied out k).1 = out.1.
Proof. by destruct out as [s [[]|]]. Qed.

Lemma appliedTask_fst (out : ControlState * result controlError MigrationTaskBody) : (appliedTask out).1 = out.1.
Proof. by destruct out as [s []]. Qed.

Lemma Apply_inv c clock s : control_inv s -> counters_room s -> control_inv (Apply c clock s).1.
Proof.
  intros Hinv Hroom. unfold Apply. destruct (cm_type c); try done.
  - unfold applyCreateNamespace. rewrite applied_fst. by apply CreateNamespace_inv.
  - unfold applyCreateSpace. rewrite applied_fst. by apply CreateSpace_inv.
  - unfold applyCreateEntity. rewrite applied_fst. by apply CreateEntity_inv.
  - unfold applyBumpNamespace. rewrite applied_fst. by apply BumpNamespaceVersion_inv.
  - unfold applyBumpSpace. rewrite applied_fst. by apply BumpSpaceVersion_inv.
  - unfold applyRegisterNode. rewrite applied_fst. by apply registerNodeAt_inv.
  - unfold applyHeartbeat. rewrite applied_fst. by apply heartbeatAt_inv.
  - unfold applyRemoveNode. rewrite applied_fst. by apply removeNode_inv.
  - unfold applyAdvanceNodeLiveness.
    pose proof (AdvanceLiveness_inv (timeUnix (cm_nowUnix c)) (millis (cm_suspectAfterMS c)) (millis (cm_deadAfterMS c)) clock s Hinv Hroom) as Hl.
    by destruct (AdvanceLiveness _ _ _ _ _) as [s' [r ch]].
  - unfold applyClaimMigrationTask. pose proof (ClaimMigrationTask_inv (commandTime c clock) s Hinv) as Hc.
    by destruct (ClaimMigrationTask _ _) as [s' [t|]].
  - unfold applyCutoverMigrationTask. rewrite appliedTask_fst. by apply updateMigrationTask_inv.
  - unfold applyCompleteMigrationTask. rewrite appliedTask_fst. by apply updateMigrationTask_inv.
  - unfold applyFailMigrationTask. rewrite appliedTask_fst. by apply updateMigrationTask_inv.
Qed.

(** The states the replicated state machine can be in. *)
Inductive control_reachable (id : string) : ControlState -> Prop :=
| cr_new : control_reachable id (NewControlState id)
| cr_apply s c clock : control_reachable id s -> counters_room s -> control_reachable id (Apply c clock s).1.

Lemma reachable_inv id s : control_reachable id s -> control_inv s.
Proof. induction 1; [apply NewControlState_inv|by apply Apply_inv]. Qed.
End Invariant.
