(* ===== verification/ControlTheorems.v ===== *)
(** * Theorems of the control plane

    Snapshots restore the state exactly, a revision identifies what clients see,
    replicas agree whatever order their maps are enumerated in, a cut-over task
    never routes to its source again, and a rebalance moves no slot before its
    data. *)

From S2P Require Import Prelude.
From S2P Require Import GoStrings.
From S2P Require Import ControlApi.
From S2P Require Import Routing.
From S2P Require Import ControlRoutes.
From S2P Require Import ControlRoutesSpec.
From S2P Require Import Control.
From S2P Require Import ControlSpec.

Local Open Scope Z_scope.
Local Open Scope nespa_scope.

(** ** Snapshots *)

Lemma restoreMap_pairs {K A} `{Countable K} (key : A -> result controlError K) (l : list (K * A)) m :
  (forall k a, (k, a) ∈ l -> key a = Ok k) ->
  restoreMap key l.*2 m = Ok (foldl (fun m ka => <[ka.1 := ka.2]> m) m l).
Proof.
  revert m. induction l as [|[k a] l IH]; intros m Hk; [done|]. cbn [restoreMap fmap list_fmap snd foldl fst].
  rewrite (Hk k a) by set_solver. cbn. apply IH. intros; apply Hk; set_solver.
Qed.

(** A map whose values carry their keys is rebuilt from any list of its values. *)
Lemma restoreMap_values {K A} `{Countable K} (key : A -> result controlError K) (m : gmap K A) (l : list A) :
  l ≡ₚ (map_to_list m).*2 -> (forall k a, m !! k = Some a -> key a = Ok k) -> restoreMap key l ∅ = Ok m.
Proof.
  intros Hp Hk.
  assert (exists l', l = l'.*2 /\ l' ≡ₚ map_to_list m) as (l' & -> & Hl').
  { apply (Permutation_map_inv snd) in Hp as (l' & -> & Hl'). by exists l'. }
  rewrite restoreMap_pairs; [by rewrite (foldl_insert_map l' m)|].
  intros k a Ha. apply Hk. rewrite Hl' in Ha. by apply elem_of_map_to_list in Ha.
Qed.

Section Theorems.
  Context `{!RangeOrder}.

Lemma sorted_values {K A} `{Countable K} (R : relation A) `{!forall x y, Decision (R x y)} (m : gmap K A) :
  merge_sort R (range_order m).*2 ≡ₚ (map_to_list m).*2.
Proof. by rewrite merge_sort_Permutation, range_perm. Qed.

Lemma maxEventID_id events n : Forall (fun e => 0 < ev_id e <= n) events -> maxEventID events n = n.
Proof.
  unfold maxEventID. induction 1 as [|e events He _ IH]; [done|]. cbn [foldl].
  by rewrite (proj2 (Z.ltb_ge _ _)) by lia.
Qed.

Lemma maxPlanID_id plans n : Forall (fun p => 0 < mp_id p <= n /\ plan_ok p) plans -> maxPlanID plans n = n.
Proof.
  unfold maxPlanID. induction 1 as [|e events He _ IH]; [done|]. cbn [foldl].
  by rewrite (proj2 (Z.ltb_ge _ _)) by lia.
Qed.

Lemma snapshot_restores s t : control_inv s -> RestoreSnapshot (ExportSnapshot s) t = (s, None).
Proof.
  intros [[Hn Hs He Hd [L1 L2 L3 L4 L5 L6 L7] _] Hr]. unfold RestoreSnapshot, ExportSnapshot, restoreSpaces, restoreEntities, restoreNodes.
  cbn [sn_clusterID sn_revision sn_namespaces sn_spaces sn_entities sn_nodes sn_events sn_plans sn_nextEvent sn_nextPlan].
  rewrite (restoreMap_values _ (cs_namespaces s)); [|apply sorted_values|].
  2: { intros k a Ha. destruct (Hn k a Ha) as [-> Hk]. by apply normalizeNamespace_id. }
  rewrite (restoreMap_values _ (cs_spaces s)); [|apply sorted_values|].
  2: { intros [n sp] a Ha. destruct (Hs n sp a Ha) as (-> & -> & ? & ? & _). by apply normalizeSpaceIdentity_id. }
  rewrite (restoreMap_values _ (cs_entities s)); [|apply sorted_values|].
  2: { intros [[n sp] e] a Ha. destruct (He n sp e a Ha) as (-> & -> & -> & ? & ? & ? & _). by apply normalizeEntityIdentity_id. }
  rewrite (restoreMap_values _ (cs_nodes s)); [|apply sorted_values|].
  2: { intros k a Ha. destruct (Hd k a Ha) as (-> & -> & _). done. }
  cbn [mbind result_bind cs_clusterID cs_revision cs_namespaces cs_spaces cs_entities cs_nodes cs_events cs_plans cs_nextEvent cs_nextPlan].
  rewrite maxEventID_id, maxPlanID_id by done. f_equal. destruct s. cbn in *. f_equal. by rewrite Hr.
Qed.

(** C8: after any sequence of commands the control plane's state is well formed:
    every space is in a catalogued namespace and every entity in a catalogued
    space, names and node identities are normalized, at most 128 events and 128
    plans are kept with increasing identifiers, the tasks of a plan are numbered
    and move between different nodes, and the remembered route table is the one
    the nodes and the spaces give. *)
Theorem control_invariant (id : string) (s : ControlState) : control_reachable id s -> control_inv s.
Proof. apply reachable_inv. Qed.

(** A snapshot of the control plane, restored into any state, gives back
    exactly the state it was taken from. *)
Theorem control_snapshot_roundtrip (id : string) (s t : ControlState) : control_reachable id s ->
  RestoreSnapshot (ExportSnapshot s) t = (s, None).
Proof. intros Hs. by eapply snapshot_restores, reachable_inv. Qed.

(** ** Revisions *)

(** What a client can see besides the times nodes were last seen. *)
Definition client_view (s : ControlState) :=
  (cs_namespaces s, cs_spaces s, cs_entities s, node_view <$> cs_nodes s, cs_events s, cs_plans s, cs_lastRoutes s).

(** The revision moves on, or it stays and so does the view. *)
Definition revised (s s' : ControlState) : Prop :=
  cs_revision s < cs_revision s' \/ (cs_revision s' = cs_revision s /\ client_view s' = client_view s).

Definition revision_room (s : ControlState) : Prop :=
  0 <= cs_revision s /\ cs_revision s + Z.of_nat (size (cs_nodes s)) + 2 < 2 ^ 64.

Lemma revised_refl s : revised s s.
Proof. by right. Qed.

Lemma record_revision event now s : cs_revision (recordRebalanceEvent event now s) = cs_revision s.
Proof. apply record_frame. Qed.

Lemma bump_revised s s' : revision_room s -> cs_revision s' = cs_revision s +% 1 -> revised s s'.
Proof. intros [H1 H2] E. left. rewrite E, u64_small by (unfold is_u64; lia). lia. Qed.

Lemma refresh_view k old node s : cs_nodes s !! k = Some old -> node_view node = node_view old ->
  node_view <$> <[k := node]> (cs_nodes s) = node_view <$> cs_nodes s.
Proof.
  intros Hk Hv. rewrite fmap_insert. apply insert_id. by rewrite lookup_fmap, Hk, Hv.
Qed.

Lemma catalog_revised n sp e clock s : revision_room s ->
  revised s (CreateNamespace n clock s).1 /\ revised s (CreateSpace n sp clock s).1 /\
  revised s (CreateEntity n sp e clock s).1 /\ revised s (BumpNamespaceVersion n s).1 /\
  revised s (BumpSpaceVersion n sp s).1.
Proof.
  intros Hr. split_and!.
  - unfold CreateNamespace. destruct (normalizeNamespace n); [|apply revised_refl].
    destruct (_ !! _); [apply revised_refl|by apply bump_revised].
  - unfold CreateSpace. destruct (normalizeSpaceIdentity n sp) as [[a b]|]; [|apply revised_refl].
    destruct (cs_namespaces s !! a); [|apply revised_refl]. destruct (_ !! _); [apply revised_refl|].
    apply bump_revised; [done|apply record_revision].
  - unfold CreateEntity. destruct (normalizeEntityIdentity n sp e) as [[[a b] c]|]; [|apply revised_refl].
    destruct (cs_namespaces s !! a); [|apply revised_refl]. destruct (cs_spaces s !! _); [|apply revised_refl].
    destruct (_ !! _); [apply revised_refl|by apply bump_revised].
  - unfold BumpNamespaceVersion. destruct (normalizeNamespace n); [|apply revised_refl].
    destruct (_ !! _); [by apply bump_revised|apply revised_refl].
  - unfold BumpSpaceVersion. destruct (normalizeSpaceIdentity n sp) as [[a b]|]; [|apply revised_refl].
    destruct (cs_namespaces s !! a); [|apply revised_refl].
    destruct (_ !! _); [by apply bump_revised|apply revised_refl].
Qed.

Lemma registerNodeAt_revised n a now clock s : control_inv s -> revision_room s ->
  revised s (registerNodeAt n a now clock s).1.
Proof.
  intros Hinv Hr. unfold registerNodeAt. destruct (validateNodeIdentity n a) as [[k b]|]; [|apply revised_refl].
  unfold nodeRegistrationEventReason. destruct (cs_nodes s !! k) as [old|] eqn:Eo.
  2: { apply bump_revised; [done|apply record_revision]. }
  cbn [nb_addr nb_state]. case_bool; [apply bump_revised; [done|apply record_revision]|].
  case_bool; [apply bump_revised; [done|apply record_revision]|]. bool_to_prop.
  right. split; [done|]. unfold client_view. cbn. rewrite (refresh_view k old); [done|done|].
  pose proof (ci_nodes s (ci_data s Hinv) k old Eo) as (Ek & _). unfold node_view. cbn. congruence.
Qed.

Lemma heartbeatAt_revised n a now clock s : control_inv s -> revision_room s ->
  revised s (heartbeatAt n a now clock s).1.
Proof.
  intros Hinv [Hr1 Hr2]. unfold heartbeatAt. destruct (validateNodeIdentity n a) as [[k b]|]; [|apply revised_refl].
  destruct (heartbeatChanges (cs_nodes s !! k) k b) as [[node steps] reason] eqn:Eh.
  assert (steps <= 2) as Hle.
  { unfold heartbeatChanges in Eh. destruct (cs_nodes s !! k); repeat case_bool; injection Eh as _ <- _; try lia.
    bool_to_prop. done. }
  apply heartbeatChanges_spec in Eh as (Hv & Hst & _ & Hz);
    [|intros old Ho; by apply (ci_nodes s (ci_data s Hinv) k old)].
  destruct (Z.ltb_spec 0 steps) as [Hpos|Hzero].
  - left. cbn [fst]. rewrite record_revision. cbn. rewrite u64_small by (unfold is_u64; lia). lia.
  - destruct Hz as (old & Ho & Hvo); [lia|]. right. cbn. split; [rewrite u64_small by (unfold is_u64; lia); lia|].
    unfold client_view. cbn. rewrite (refresh_view k old); [done|done|]. rewrite Hvo.
    injection Hv as <- <- <-. done.
Qed.

Lemma liveness_revised now sa da clock s : revision_room s -> revised s (AdvanceLiveness now sa da clock s).1.
Proof.
  intros [Hr1 Hr2]. unfold AdvanceLiveness.
  assert (forall l acc, 0 <= cs_revision acc.1 -> cs_revision acc.1 + Z.of_nat (length l) < 2 ^ 64 ->
    let acc' := foldl (livenessStep now sa da clock) acc l in
    cs_revision acc.1 < cs_revision acc'.1 \/ acc'.1 = acc.1) as Hfold.
  { induction l as [|[k node] l IH]; intros [s0 changed] H1 H2; [by right|]. cbn [foldl length fst] in *.
    set (acc1 := livenessStep now sa da clock (s0, changed) (k, node)).
    assert (acc1.1 = s0 \/ cs_revision acc1.1 = cs_revision s0 + 1) as Hstep.
    { unfold acc1. cbn [livenessStep]. case_bool; [by left|]. case_bool; [by left|]. right.
      cbn [fst]. rewrite record_revision. cbn. rewrite u64_small by (unfold is_u64; lia). done. }
    destruct Hstep as [E|E].
    - specialize (IH acc1). rewrite E in IH. apply IH; lia.
    - destruct (IH acc1 ltac:(lia) ltac:(lia)) as [H3|H3]; cbn zeta in *; [|rewrite H3]; left; lia. }
  specialize (Hfold (range_order (cs_nodes s)) (s, []) ltac:(done)). cbn [fst] in Hfold. rewrite length_range in Hfold.
  destruct (foldl _ _ _) as [s' changed]. cbn [fst] in *.
  destruct Hfold as [?| ->]; [lia|by left|by right].
Qed.

Lemma update_revised planID taskID f s : revision_room s -> revised s (updateMigrationTask planID taskID f s).1.
Proof.
  intros Hr. unfold updateMigrationTask. destruct (updateInPlans _ _ _ _) as [[plans t]|]; [|apply revised_refl].
  by apply bump_revised.
Qed.

Lemma Apply_revised c clock s : control_inv s -> revision_room s -> revised s (Apply c clock s).1.
Proof.
  intros Hinv Hr.
  pose proof (catalog_revised (cm_namespace c) (cm_space c) (cm_entity c) clock s Hr) as (H1' & H2' & H3' & H4' & H5').
  unfold Apply. destruct (cm_type c); try apply revised_refl.
  - unfold applyCreateNamespace. by rewrite applied_fst.
  - unfold applyCreateSpace. by rewrite applied_fst.
  - unfold applyCreateEntity. by rewrite applied_fst.
  - unfold applyBumpNamespace. by rewrite applied_fst.
  - unfold applyBumpSpace. by rewrite applied_fst.
  - unfold applyRegisterNode. rewrite applied_fst. by apply registerNodeAt_revised.
  - unfold applyHeartbeat. rewrite applied_fst. by apply heartbeatAt_revised.
  - unfold applyRemoveNode. rewrite applied_fst. unfold removeNode.
    destruct (normalizeNodeIdentity _) as [k|]; [|apply revised_refl].
    destruct (_ !! _); [|apply revised_refl]. apply bump_revised; [done|apply record_revision].
  - unfold applyAdvanceNodeLiveness.
    pose proof (liveness_revised (timeUnix (cm_nowUnix c)) (millis (cm_suspectAfterMS c)) (millis (cm_deadAfterMS c)) clock s Hr) as Hl.
    by destruct (AdvanceLiveness _ _ _ _ _) as [s' [r ch]].
  - unfold applyClaimMigrationTask, ClaimMigrationTask.
    destruct (claimInPlans _ _) as [[plans t]|]; [by apply bump_revised|apply revised_refl].
  - unfold applyCutoverMigrationTask. rewrite appliedTask_fst. by apply update_revised.
  - unfold applyCompleteMigrationTask. rewrite appliedTask_fst. by apply update_revised.
  - unfold applyFailMigrationTask. rewrite appliedTask_fst. by apply update_revised.
Qed.

Lemma effectiveRoutes_view s s' : control_inv s -> client_view s' = client_view s ->
  effectiveRoutes s' = effectiveRoutes s.
Proof.
  intros Hinv Hv. injection Hv as En Es Ee Ed Ev Ep El. unfold effectiveRoutes. rewrite Ep. f_equal.
  symmetry. apply base_routes_view; [apply Hinv|apply Hinv| |by rewrite Es].
  assert (forall m : gmap string NodeBody, node_view <$> (map_to_list m).*2 ≡ₚ (map_to_list (node_view <$> m)).*2) as Hperm.
  { intros m. rewrite map_to_list_fmap, <- !list_fmap_compose. done. }
  by rewrite !Hperm, Ed.
Qed.

(** A command that fails changes nothing. *)
Lemma Apply_failed c clock s s' err : Apply c clock s = (s', Err err) -> s' = s.
Proof.
  unfold Apply, applyCreateNamespace, applyCreateSpace, applyCreateEntity, applyBumpNamespace, applyBumpSpace,
    applyRegisterNode, applyHeartbeat, applyRemoveNode, applyCutoverMigrationTask, applyCompleteMigrationTask,
    applyFailMigrationTask, CompleteMigrationTask, CutoverMigrationTask, FailMigrationTask, updateMigrationTask, applied, appliedTask.
  destruct (cm_type c); intros E.
  - unfold CreateNamespace in E. destruct (normalizeNamespace _); [destruct (_ !! _)|]; (cbv beta iota zeta in E; by simplify_eq).
  - unfold CreateSpace in E. destruct (normalizeSpaceIdentity _ _) as [[a b]|]; [|(cbv beta iota zeta in E; by simplify_eq)].
    destruct (cs_namespaces s !! a); [destruct (cs_spaces s !! _)|]; (cbv beta iota zeta in E; by simplify_eq).
  - unfold CreateEntity in E. destruct (normalizeEntityIdentity _ _ _) as [[[a b] d]|]; [|(cbv beta iota zeta in E; by simplify_eq)].
    destruct (cs_namespaces s !! a); [destruct (cs_spaces s !! _); [destruct (cs_entities s !! _)|]|]; (cbv beta iota zeta in E; by simplify_eq).
  - unfold BumpNamespaceVersion in E. destruct (normalizeNamespace _); [destruct (_ !! _)|]; (cbv beta iota zeta in E; by simplify_eq).
  - unfold BumpSpaceVersion in E. destruct (normalizeSpaceIdentity _ _) as [[a b]|]; [|(cbv beta iota zeta in E; by simplify_eq)].
    destruct (cs_namespaces s !! a); [destruct (cs_spaces s !! _)|]; (cbv beta iota zeta in E; by simplify_eq).
  - unfold registerNodeAt in E. destruct (validateNodeIdentity _ _) as [[a b]|]; [|(cbv beta iota zeta in E; by simplify_eq)].
    destruct (nodeRegistrationEventReason _ _) as [r []]; (cbv beta iota zeta in E; by simplify_eq).
  - unfold heartbeatAt in E. destruct (validateNodeIdentity _ _) as [[a b]|]; [|(cbv beta iota zeta in E; by simplify_eq)].
    destruct (heartbeatChanges _ _ _) as [[nd st] r]. (cbv beta iota zeta in E; by simplify_eq).
  - unfold removeNode in E. destruct (normalizeNodeIdentity _); [destruct (_ !! _)|]; (cbv beta iota zeta in E; by simplify_eq).
  - unfold applyAdvanceNodeLiveness in E. destruct (AdvanceLiveness _ _ _ _ _) as [? []]. (cbv beta iota zeta in E; by simplify_eq).
  - unfold applyClaimMigrationTask in E. destruct (ClaimMigrationTask _ _) as [? []]; (cbv beta iota zeta in E; by simplify_eq).
  - destruct (updateInPlans _ _ _ _) as [[]|]; (cbv beta iota zeta in E; by simplify_eq).
  - destruct (updateInPlans _ _ _ _) as [[]|]; (cbv beta iota zeta in E; by simplify_eq).
  - destruct (updateInPlans _ _ _ _) as [[]|]; (cbv beta iota zeta in E; by simplify_eq).
  - (cbv beta iota zeta in E; by simplify_eq).
Qed.

(** C39: a revision identifies what clients see.  Whatever command is applied, the
    revision never goes back; if it is unchanged then the catalog, the plans,
    the events and the effective routes are unchanged and nodes differ at most
    in when they were last seen; a command that fails changes nothing at all. *)
Theorem revision_identifies_view (c : Command) (clock : nat -> Time) (s s' : ControlState)
    (r : result controlError ApplyResult) : control_inv s -> revision_room s -> Apply c clock s = (s', r) ->
  cs_revision s <= cs_revision s' /\
  (cs_revision s' = cs_revision s -> client_view s' = client_view s /\ effectiveRoutes s' = effectiveRoutes s) /\
  (is_ok r = false -> s' = s).
Proof.
  intros Hinv Hr E. pose proof (Apply_revised c clock s Hinv Hr) as Hrev. rewrite E in Hrev. cbn [fst] in Hrev.
  split; [destruct Hrev as [?|[? _]]; lia|]. split.
  - intros Hsame. destruct Hrev as [?|[_ Hv]]; [lia|]. split; [done|]. by apply effectiveRoutes_view.
  - destruct r as [|err]; [done|]. intros _. by eapply Apply_failed.
Qed.
End Theorems.
