(* ===== verification/ControlOwners.v ===== *)
(** * Replicas, migration tasks and slot owners

    The sorted views do not depend on the enumeration order of maps, a task that
    has cut over never routes to its source again, a change of nodes or spaces
    moves no slot before its data, and the routing helper finds the owner. *)

From S2P Require Import Prelude.
From S2P Require Import GoStrings.
From S2P Require Import ControlApi.
From S2P Require Import Routing.
From S2P Require Import ControlRoutes.
From S2P Require Import ControlRoutesSpec.
From S2P Require Import Control.
From S2P Require Import ControlSpec.

Local Open Scope Z_scope.
Local Open Scope nespa_scope.

(** ** Independence of the order of maps *)

Section Order.
  Context (o1 o2 : RangeOrder).

Lemma sortedNodes_order s : nodes_inv (cs_nodes s) -> @sortedNodes o1 s = @sortedNodes o2 s.
Proof.
  intros Hn. unfold sortedNodes.
  rewrite <- (list_fmap_id (merge_sort _ (@range_order o1 _ _ _ _ _).*2)),
    <- (list_fmap_id (merge_sort _ (@range_order o2 _ _ _ _ _).*2)).
  apply (sort_unique (by_key nb_nodeID) (by_key nb_nodeID) id nb_nodeID).
  - apply by_key_total.
  - apply by_key_trans.
  - done.
  - intros x y. apply String.leb_antisym.
  - rewrite !list_fmap_id. by rewrite (@range_perm o1), (@range_perm o2).
  - rewrite list_fmap_id, range_perm. by apply nodes_NoDup.
Qed.

Lemma sortedSpaces_order s : spaces_inv (cs_namespaces s) (cs_spaces s) -> @sortedSpaces o1 s = @sortedSpaces o2 s.
Proof.
  intros Hn. unfold sortedSpaces.
  rewrite <- (list_fmap_id (merge_sort _ (@range_order o1 _ _ _ _ _).*2)),
    <- (list_fmap_id (merge_sort _ (@range_order o2 _ _ _ _ _).*2)).
  apply (sort_unique space_before (fun a b => scope_before (scope_of a) (scope_of b)) id scope_of).
  - apply space_before_total.
  - intros x y z. apply scope_before_trans.
  - done.
  - intros x y. apply scope_before_antisym.
  - rewrite !list_fmap_id. by rewrite (@range_perm o1), (@range_perm o2).
  - rewrite list_fmap_id, range_perm. by eapply spaces_NoDup.
Qed.

End Order.

(** ** Tasks over time *)

Section Tasks.
  Context `{!RangeOrder}.

(** A task keeps its move, and its cut-over once it has one. *)
Definition task_step (t t' : MigrationTaskBody) : Prop :=
  same_task t t' /\ (mt_cutoverAtUnix t <> 0 -> mt_cutoverAtUnix t' <> 0).

(** Every plan is new, or comes from a plan with its tasks moved on. *)
Definition plans_from (s s' : ControlState) : Prop :=
  cs_nextPlan s <= cs_nextPlan s' /\
  forall p', p' ∈ cs_plans s' -> cs_nextPlan s < mp_id p' \/
    exists p, p ∈ cs_plans s /\ mp_id p = mp_id p' /\ Forall2 task_step (mp_tasks p) (mp_tasks p').

Lemma task_step_refl t : task_step t t.
Proof. done. Qed.

Lemma task_step_trans t1 t2 t3 : task_step t1 t2 -> task_step t2 t3 -> task_step t1 t3.
Proof.
  intros [(? & ? & ? & ? & ? & ? & ? & ?) Hca] [(? & ? & ? & ? & ? & ? & ? & ?) Hcb]. split; [|by auto].
  split_and!; congruence.
Qed.

Lemma Forall2_refl_tasks l : Forall2 task_step l l.
Proof. induction l; constructor; [apply task_step_refl|done]. Qed.

Lemma Forall2_task_trans l1 l2 l3 : Forall2 task_step l1 l2 -> Forall2 task_step l2 l3 -> Forall2 task_step l1 l3.
Proof.
  intros H12. revert l3. induction H12 as [|x y l1 l2 Hxy _ IH]; intros l3 H23; inversion H23; subst; constructor.
  - by eapply task_step_trans.
  - by apply IH.
Qed.

Lemma plans_from_same s s' : cs_nextPlan s' = cs_nextPlan s -> cs_plans s' = cs_plans s -> plans_from s s'.
Proof.
  intros E1 E2. split; [lia|]. rewrite E2. intros p Hp. right. exists p. split_and!; [done|done|apply Forall2_refl_tasks].
Qed.

Lemma plans_from_trans s1 s2 s3 : plans_from s1 s2 -> plans_from s2 s3 -> plans_from s1 s3.
Proof.
  intros [H1 H2] [H3 H4]. split; [lia|]. intros p3 Hp3. destruct (H4 p3 Hp3) as [?|(p2 & Hp2 & E23 & F23)]; [left; lia|].
  destruct (H2 p2 Hp2) as [?|(p1 & Hp1 & E12 & F12)]; [left; lia|]. right. exists p1. split_and!; [done|lia|].
  by eapply Forall2_task_trans.
Qed.

Lemma keepLast_elem {A} n (l : list A) x : x ∈ keepLast n l -> x ∈ l.
Proof. unfold keepLast. intros Hx. rewrite <- (take_drop (length l - n) l). set_solver. Qed.

Lemma record_plans_from event now s s0 : data_inv s0 -> cs_nextPlan s = cs_nextPlan s0 -> cs_plans s = cs_plans s0 ->
  cs_nextEvent s0 + 1 < 2 ^ 64 -> plans_from s0 (recordRebalanceEvent event now s).
Proof.
  intros Hd En Ep Hroom. destruct (decide (rb_reason event = "")) as [E|E].
  { unfold recordRebalanceEvent. rewrite bool_decide_eq_true_2 by done. by apply plans_from_same. }
  pose proof (record_logs event now s E) as (_ & _ & body & _ & _ & Hp).
  destruct (buildMigrationTasks _ _ _); [destruct Hp as [H1 H2]; apply plans_from_same; congruence|].
  destruct Hp as (En' & plan & Eid & _ & Eps). pose proof (li_counters s0 (ci_logs s0 Hd)) as Hc.
  rewrite En, u64_small in * by (unfold is_u64; lia). split; [lia|]. rewrite Eps. intros p' Hp'%keepLast_elem.
  apply elem_of_app in Hp' as [Hp'|Hp']; [|apply list_elem_of_singleton in Hp' as ->; left; lia].
  right. exists p'. rewrite <- Ep. split_and!; [done|done|apply Forall2_refl_tasks].
Qed.

Lemma updated_plans_from f plans' i j plan t s : (forall t, same_task t (f t)) ->
  (mt_cutoverAtUnix t <> 0 -> mt_cutoverAtUnix (f t) <> 0) ->
  task_updated f (cs_plans s) plans' i j plan t -> plans_from s (bumpRevision (withPlans plans' s)).
Proof.
  intros Hf Hcut [Hp Ht ->]. split; [cbn; lia|]. cbn. intros p' (i' & Hi')%list_elem_of_lookup_1. right.
  destruct (decide (i' = i)) as [->|Hne].
  - rewrite list_lookup_insert_eq in Hi' by (by eapply lookup_lt_Some). injection Hi' as <-.
    exists plan. split_and!; [by eapply list_elem_of_lookup_2|done|]. cbn.
    apply Forall2_same_length_lookup_2; [by rewrite length_insert|]. intros j' x y Hx Hy.
    destruct (decide (j' = j)) as [->|Hnej].
    + rewrite list_lookup_insert_eq in Hy by (by eapply lookup_lt_Some). simplify_eq. split; [apply Hf|done].
    + rewrite list_lookup_insert_ne in Hy by done. simplify_eq. apply task_step_refl.
  - rewrite list_lookup_insert_ne in Hi' by done. exists p'.
    split_and!; [by eapply list_elem_of_lookup_2|done|apply Forall2_refl_tasks].
Qed.

Lemma updateMigrationTask_plans_from planID taskID f s : (forall t, same_task t (f t)) ->
  (forall t, mt_cutoverAtUnix t <> 0 -> mt_cutoverAtUnix (f t) <> 0) ->
  plans_from s (updateMigrationTask planID taskID f s).1.
Proof.
  intros Hf Hcut. unfold updateMigrationTask.
  destruct (updateInPlans _ _ _ _) as [[plans' t']|] eqn:E; [|by apply plans_from_same].
  apply updateInPlans_spec in E as (i & j & plan & t & Hu & _). eapply updated_plans_from; [done|apply Hcut|exact Hu].
Qed.

Lemma liveness_plans_from now sa da clock s : control_inv s -> counters_room s ->
  plans_from s (AdvanceLiveness now sa da clock s).1.
Proof.
  intros Hinv Hroom. unfold AdvanceLiveness. set (m := cs_nodes s) in *.
  assert (nodes_inv m) as Hm by apply Hinv.
  assert (forall l acc, control_inv acc.1 -> (forall k node, (k, node) ∈ l -> m !! k = Some node) ->
    cs_nextEvent acc.1 + Z.of_nat (length l) + 1 < 2 ^ 64 ->
    plans_from acc.1 (foldl (livenessStep now sa da clock) acc l).1) as Hfold.
  { induction l as [|[k node] l IH]; intros [s0 changed] Hi Hl Hr; [by apply plans_from_same|].
    cbn [foldl length fst] in *.
    pose proof (livenessStep_inv now sa da clock s0 changed k node m Hi Hm ltac:(apply Hl; set_solver) ltac:(lia)) as Hstep.
    assert (plans_from s0 (livenessStep now sa da clock (s0, changed) (k, node)).1) as Hone.
    { cbn [livenessStep]. case_bool; [by apply plans_from_same|]. case_bool; [by apply plans_from_same|].
      cbn [fst]. apply record_plans_from; [apply Hi|done|done|lia]. }
    destruct (livenessStep _ _ _ _ _ _) as [s1 changed1]. destruct Hstep as [Hi1 Hn1]. cbn [fst] in Hone.
    eapply plans_from_trans; [exact Hone|]. apply (IH (s1, changed1)); [done|intros; apply Hl; set_solver|cbn; lia]. }
  specialize (Hfold (range_order m) (s, [])). destruct (foldl _ _ _) as [s' changed]. cbn [fst] in *.
  apply Hfold; [done|intros k node; apply elem_of_range|]. rewrite length_range. unfold counters_room in Hroom.
  fold m in Hroom. lia.
Qed.

(** The time of a command is not the epoch itself. *)
Definition timed (c : Command) (clock : nat -> Time) : Prop := Unix (commandTime c clock) <> 0.

Lemma Apply_plans_from c clock s : control_inv s -> counters_room s -> timed c clock ->
  plans_from s (Apply c clock s).1.
Proof.
  intros Hinv Hroom Ht. unfold counters_room in Hroom.
  assert (cs_nextEvent s + 1 < 2 ^ 64) as Hr by lia. pose proof (ci_data s Hinv) as Hd.
  unfold Apply. destruct (cm_type c); try (by apply plans_from_same).
  - unfold applyCreateNamespace. rewrite applied_fst. unfold CreateNamespace.
    destruct (normalizeNamespace _); [destruct (_ !! _)|]; by apply plans_from_same.
  - unfold applyCreateSpace. rewrite applied_fst. unfold CreateSpace.
    destruct (normalizeSpaceIdentity _ _) as [[a b]|]; [|by apply plans_from_same].
    destruct (cs_namespaces s !! a); [|by apply plans_from_same].
    destruct (cs_spaces s !! _); [by apply plans_from_same|]. by apply record_plans_from.
  - unfold applyCreateEntity. rewrite applied_fst. unfold CreateEntity.
    destruct (normalizeEntityIdentity _ _ _) as [[[a b] d]|]; [|by apply plans_from_same].
    destruct (cs_namespaces s !! a); [|by apply plans_from_same].
    destruct (cs_spaces s !! _); [|by apply plans_from_same]. destruct (cs_entities s !! _); by apply plans_from_same.
  - unfold applyBumpNamespace. rewrite applied_fst. unfold BumpNamespaceVersion.
    destruct (normalizeNamespace _); [destruct (_ !! _)|]; by apply plans_from_same.
  - unfold applyBumpSpace. rewrite applied_fst. unfold BumpSpaceVersion.
    destruct (normalizeSpaceIdentity _ _) as [[a b]|]; [|by apply plans_from_same].
    destruct (cs_namespaces s !! a); [|by apply plans_from_same]. destruct (cs_spaces s !! _); by apply plans_from_same.
  - unfold applyRegisterNode. rewrite applied_fst. unfold registerNodeAt.
    destruct (validateNodeIdentity _ _) as [[a b]|]; [|by apply plans_from_same].
    destruct (nodeRegistrationEventReason _ _) as [r [|]]; [by apply record_plans_from|by apply plans_from_same].
  - unfold applyHeartbeat. rewrite applied_fst. unfold heartbeatAt.
    destruct (validateNodeIdentity _ _) as [[a b]|]; [|by apply plans_from_same].
    destruct (heartbeatChanges _ _ _) as [[nd st] r]. cbn [fst].
    destruct (0 <? st); [by apply record_plans_from|by apply plans_from_same].
  - unfold applyRemoveNode. rewrite applied_fst. unfold removeNode.
    destruct (normalizeNodeIdentity _); [|by apply plans_from_same].
    destruct (_ !! _); [by apply record_plans_from|by apply plans_from_same].
  - unfold applyAdvanceNodeLiveness.
    pose proof (liveness_plans_from (timeUnix (cm_nowUnix c)) (millis (cm_suspectAfterMS c)) (millis (cm_deadAfterMS c)) clock s Hinv Hroom) as Hl.
    by destruct (AdvanceLiveness _ _ _ _ _) as [s' [r ch]].
  - unfold applyClaimMigrationTask, ClaimMigrationTask.
    destruct (claimInPlans _ _) as [[plans' t']|] eqn:E; [|by apply plans_from_same].
    apply claimInPlans_spec in E as (i & j & plan & t & Hu & _).
    by eapply (updated_plans_from (fun t => markTaskRunning t _)); [| |exact Hu].
  - unfold applyCutoverMigrationTask. rewrite appliedTask_fst. by apply updateMigrationTask_plans_from.
  - unfold applyCompleteMigrationTask. rewrite appliedTask_fst. by apply updateMigrationTask_plans_from.
  - unfold applyFailMigrationTask. rewrite appliedTask_fst. by apply updateMigrationTask_plans_from.
Qed.

(** Any number of commands. *)
Inductive control_run : ControlState -> ControlState -> Prop :=
| run_nil s : control_run s s
| run_apply s c clock s' : counters_room s -> timed c clock ->
    control_run (Apply c clock s).1 s' -> control_run s s'.

Lemma control_run_inv s s' : control_run s s' -> control_inv s -> control_inv s' /\ plans_from s s'.
Proof.
  induction 1 as [s|s c clock s' Hr Ht _ IH]; intros Hinv; [split; [done|by apply plans_from_same]|].
  destruct (IH (Apply_inv c clock s Hinv Hr)) as [Hinv' Hp]. split; [done|].
  eapply plans_from_trans; [by apply Apply_plans_from|done].
Qed.

(** Plans are identified by their numbers. *)
Lemma plan_id_unique s p q : logs_inv s -> p ∈ cs_plans s -> q ∈ cs_plans s -> mp_id p = mp_id q -> p = q.
Proof.
  intros Hl. pose proof (li_plan_order s Hl) as Hs. clear Hl. induction (cs_plans s) as [|x l IH]; [by intros ?%elem_of_nil|].
  rewrite fmap_cons in Hs. apply StronglySorted_inv in Hs as [Hs Hx]. rewrite Forall_fmap, Forall_forall in Hx.
  intros [->|Hp]%elem_of_cons [->|Hq]%elem_of_cons E; [done| | |by apply IH].
  - specialize (Hx q Hq). cbn in Hx. lia.
  - specialize (Hx p Hp). cbn in Hx. lia.
Qed.

(** C10: a cut-over is final.  Once a migration task has cut over, no later
    command (claims, failures, timeouts, retries, rebalances) makes it route to
    its source again, as long as its plan is kept; and a task never changes the
    slots, the source or the target it was planned with. *)
Theorem cutover_is_final (s s' : ControlState) (p p' : MigrationPlanBody) (j : nat) (t t' : MigrationTaskBody) :
  control_inv s -> control_run s s' ->
  p ∈ cs_plans s -> p' ∈ cs_plans s' -> mp_id p' = mp_id p ->
  mp_tasks p !! j = Some t -> mp_tasks p' !! j = Some t' ->
  same_task t t' /\ (mt_cutoverAtUnix t <> 0 -> migrationTaskRoutesSource t' = false).
Proof.
  intros Hinv Hrun Hp Hp' Eid Ht Ht'. destruct (control_run_inv s s' Hrun Hinv) as [_ [_ Hfrom]].
  pose proof (ci_logs s (ci_data s Hinv)) as Hl.
  destruct (Hfrom p' Hp') as [Hnew|(q & Hq & Eq & HF)].
  - pose proof (li_plan_ids s Hl) as Hids. rewrite Forall_forall in Hids. destruct (Hids p Hp) as [? _]. lia.
  - assert (q = p) as -> by (eapply plan_id_unique; [exact Hl|done|done|lia]).
    destruct (Forall2_lookup_lr _ _ _ _ _ _ HF Ht Ht') as [Hsame Hcut]. split; [done|].
    intros Hc. unfold migrationTaskRoutesSource. by rewrite (proj2 (Z.eqb_neq _ _) (Hcut Hc)).
Qed.
End Tasks.

(** ** Owners over time *)

Section Owners.
  Context `{!RangeOrder}.

(** The owner of a slot when no task is pending on it. *)
Definition base_owner (s : ControlState) (slot : Z) : string * string :=
  shared_owner (healthyNodes (sortedNodes s)) slot.

Lemma base_routes_owners s ns sp slot : data_inv s -> nodes_ok (sortedNodes s) -> is_slot slot ->
  is_Some (cs_spaces s !! (ns, sp)) -> owners (base_routes s) ns sp slot = [base_owner s slot].
Proof.
  intros Hd Hn Hs [item Hi]. destruct (ci_spaces s Hd ns sp item Hi) as (<- & <- & _).
  assert (sortedSpaces s ≡ₚ (map_to_list (cs_spaces s)).*2) as Hp.
  { unfold sortedSpaces. by rewrite merge_sort_Permutation, range_perm. }
  apply routesForNodes_owners; [done|done| |].
  - rewrite Hp. by eapply spaces_NoDup, Hd.
  - rewrite Hp. apply list_elem_of_fmap. exists (sp_namespace item, sp_space item, item).
    split; [done|]. by apply elem_of_map_to_list.
Qed.

Lemma base_routes_ok s : nodes_ok (sortedNodes s) -> Forall route_ok (base_routes s).
Proof. intros Hn. apply Forall_forall. intros r. apply routesForNodes_ok, Hn. Qed.

(** The owner in the table clients see. *)
Lemma effectiveRoutes_owners s ns sp slot : data_inv s -> nodes_ok (sortedNodes s) -> is_slot slot ->
  is_Some (cs_spaces s !! (ns, sp)) ->
  owners (effectiveRoutes s) ns sp slot = [default (base_owner s slot) (pending_source (cs_plans s) ns sp slot)].
Proof.
  intros Hd Hn Hs Hi. apply Permutation_singleton_r. unfold effectiveRoutes. fold (base_routes s).
  rewrite effective_owners by (by apply base_routes_ok). rewrite base_routes_owners by done.
  by destruct (pending_source _ _ _ _).
Qed.

Definition covering (plans : list MigrationPlanBody) (ns sp : string) (slot : Z) : list MigrationTaskBody :=
  filter (task_covers ns sp slot) (pending plans).

Lemma covering_app l1 l2 ns sp slot : covering (l1 ++ l2) ns sp slot = covering l1 ns sp slot ++ covering l2 ns sp slot.
Proof. unfold covering, pending. by rewrite bind_app, !filter_app. Qed.

Lemma pending_source_None plans ns sp slot : pending_source plans ns sp slot = None <-> covering plans ns sp slot = [].
Proof. unfold pending_source, covering. rewrite last_None. split; [apply fmap_nil_inv|by intros ->]. Qed.

(** Adding a plan of planned tasks where nothing was pending. *)
Lemma pending_new plans plan tasks id ns sp slot : covering plans ns sp slot = [] ->
  mp_tasks plan = imap (numberTask id) tasks ->
  Forall (fun t => migrationTaskRoutesSource t = true) tasks ->
  pending_source (keepLast maxMigrationPlans (plans ++ [plan])) ns sp slot
  = last (fst <$> moves tasks ns sp slot).
Proof.
  intros Hc Et Ha. unfold pending_source. fold (covering (keepLast maxMigrationPlans (plans ++ [plan])) ns sp slot).
  assert (covering (keepLast maxMigrationPlans (plans ++ [plan])) ns sp slot = covering [plan] ns sp slot) as ->.
  { unfold keepLast. rewrite length_app, drop_app_le by (cbn; unfold maxMigrationPlans; lia). rewrite covering_app.
    set (k := (_ - _)%nat). rewrite <- (take_drop k plans), covering_app in Hc. apply app_eq_nil in Hc as [_ ->]. done. }
  unfold covering, pending, moves. cbn [mbind list_bind]. rewrite app_nil_r, Et. clear Et Hc.
  f_equal. rewrite <- list_fmap_compose.
  assert (forall f : nat -> MigrationTaskBody -> MigrationTaskBody,
    (forall i t, migrationTaskRoutesSource (f i t) = migrationTaskRoutesSource t /\ source_of (f i t) = source_of t /\
       (task_covers ns sp slot (f i t) <-> task_covers ns sp slot t)) ->
    source_of <$> filter (task_covers ns sp slot) (filter (fun t => migrationTaskRoutesSource t = true) (imap f tasks))
    = source_of <$> filter (task_covers ns sp slot) tasks) as Hgen.
  { induction Ha as [|t tasks Ht _ IH]; intros f Hf; [done|]. rewrite imap_cons, !filter_cons.
    destruct (Hf 0%nat t) as (E1 & E2 & E3). rewrite decide_True by (by rewrite E1). rewrite filter_cons.
    destruct (decide (task_covers ns sp slot t)) as [Hd|Hd].
    - rewrite decide_True by (by apply E3). rewrite !fmap_cons, E2. f_equal. apply IH. intros i u. apply (Hf (S i)).
    - rewrite decide_False by (by rewrite E3). apply IH. intros i u. apply (Hf (S i)). }
  by apply Hgen.
Qed.

(** The tasks of a new plan route to their sources. *)
Lemma built_pending event prev cur : Forall (fun t => migrationTaskRoutesSource t = true) (buildMigrationTasks event prev cur).
Proof.
  apply Forall_forall. unfold buildMigrationTasks, migrationTasksForRoute. intros t (c & Ht & _)%list_elem_of_bind.
  destruct (emptyRouteScope c); [by apply elem_of_nil in Ht|]. apply list_elem_of_bind in Ht as (p & Ht & _).
  destruct (migrationTaskRange p c) as [[a b] [|]]; [|by apply elem_of_nil in Ht].
  by apply list_elem_of_singleton in Ht as ->.
Qed.

(** Recording a change of routes leaves every slot without a pending task at the
    node that had it. *)
Lemma record_keeps_owner event now s mid ns sp slot : rb_reason event <> "" -> control_inv s -> data_inv mid ->
  cs_lastRoutes mid = cs_lastRoutes s -> cs_plans mid = cs_plans s ->
  is_Some (cs_spaces s !! (ns, sp)) -> is_Some (cs_spaces mid !! (ns, sp)) ->
  nodes_ok (sortedNodes s) -> nodes_ok (sortedNodes (recordRebalanceEvent event now mid)) -> is_slot slot ->
  covering (cs_plans s) ns sp slot = [] ->
  (default (base_owner (recordRebalanceEvent event now mid) slot)
     (pending_source (cs_plans (recordRebalanceEvent event now mid)) ns sp slot)).1 = (base_owner s slot).1.
Proof.
  intros Hr Hinv Hd El Ep Hi Hi' Hn Hn' Hs Hc.
  pose proof (record_frame event now mid) as (_ & _ & _ & Es & _ & Ed).
  pose proof (record_logs event now mid Hr) as (_ & _ & body & _ & _ & Hp).
  set (s' := recordRebalanceEvent event now mid) in *.
  assert (sortedNodes s' = sortedNodes mid) as En' by (unfold sortedNodes; by rewrite Ed).
  assert (base_owner s' slot = base_owner mid slot) as -> by (unfold base_owner; by rewrite En').
  assert ((ns, sp) <> ("", "")) as Hne.
  { destruct Hi as [item Hi]. destruct (ci_spaces s (ci_data s Hinv) ns sp item Hi) as (_ & _ & Hok & _).
    intros [= -> _]. by apply (name_ok_nonempty "") in Hok. }
  pose proof (build_moves body (cs_lastRoutes mid) (base_routes mid) ns sp slot Hne) as Hm.
  rewrite El, (ci_routes s Hinv), !base_routes_owners in Hm by (done || apply Hinv || by rewrite En' in Hn').
  cbn [mbind list_bind] in Hm. rewrite app_nil_r, filter_cons, filter_nil in Hm.
  pose proof (built_pending body (base_routes s) (base_routes mid)) as Hb.
  rewrite El, (ci_routes s Hinv) in Hp.
  destruct (buildMigrationTasks body (base_routes s) (base_routes mid)) as [|t tasks] eqn:Et.
  - destruct Hp as [-> _]. rewrite Ep, (proj2 (pending_source_None _ _ _ _) Hc). cbn [default from_option id].
    case_decide as Hdec; [done|]. by symmetry.
  - destruct Hp as (_ & plan & _ & Etasks & ->). rewrite Ep, (pending_new _ plan _ _ _ _ _ Hc Etasks Hb), Hm.
    case_decide as Hdec; [done|]. by symmetry.
Qed.

(** The commands that change nodes or the catalog. *)
Definition rebalances (c : Command) : Prop :=
  match cm_type c with
  | CommandCreateNamespace | CommandCreateSpace | CommandCreateEntity | CommandBumpNamespace | CommandBumpSpace
  | CommandRegisterNode | CommandHeartbeat | CommandRemoveNode => True
  | _ => False
  end.

(** How a command changes the routes: not at all, or by recording the change. *)
Definition rebalanced (s s' : ControlState) : Prop :=
  (forall k, is_Some (cs_spaces s !! k) -> is_Some (cs_spaces s' !! k)) /\
  ((base_routes s' = base_routes s /\ cs_plans s' = cs_plans s) \/
   exists event now mid, s' = recordRebalanceEvent event now mid /\ rb_reason event <> "" /\ data_inv mid /\
     cs_lastRoutes mid = cs_lastRoutes s /\ cs_plans mid = cs_plans s).

Lemma rebalanced_refl s : rebalanced s s.
Proof. split; [done|by left]. Qed.

Lemma rebalanced_record s event now mid : rb_reason event <> "" -> data_inv mid ->
  cs_lastRoutes mid = cs_lastRoutes s -> cs_plans mid = cs_plans s ->
  (forall k, is_Some (cs_spaces s !! k) -> is_Some (cs_spaces mid !! k)) ->
  rebalanced s (recordRebalanceEvent event now mid).
Proof.
  intros Hr Hd El Ep Hs. pose proof (record_frame event now mid) as (_ & _ & _ & Es & _). split.
  - intros k Hk. rewrite Es. by apply Hs.
  - right. by exists event, now, mid.
Qed.

Lemma catalog_rebalanced n sp e clock s : control_inv s ->
  rebalanced s (CreateNamespace n clock s).1 /\ rebalanced s (CreateSpace n sp clock s).1 /\
  rebalanced s (CreateEntity n sp e clock s).1 /\ rebalanced s (BumpNamespaceVersion n s).1 /\
  rebalanced s (BumpSpaceVersion n sp s).1.
Proof.
  intros Hinv. split_and!.
  - unfold CreateNamespace. destruct (normalizeNamespace n); [|apply rebalanced_refl].
    destruct (_ !! _); [apply rebalanced_refl|]. split; [done|by left].
  - unfold CreateSpace. destruct (normalizeSpaceIdentity n sp) as [[a b]|] eqn:En; [|apply rebalanced_refl].
    apply normalizeSpaceIdentity_ok in En as [Ha Hb].
    destruct (cs_namespaces s !! a) eqn:Em; [|apply rebalanced_refl].
    destruct (cs_spaces s !! _); [apply rebalanced_refl|].
    apply rebalanced_record; [done| |done|done|].
    + apply new_space_data; [apply Hinv|done|done|by rewrite Em|done|done].
    + intros k Hk. cbn. destruct (decide ((a, b) = k)) as [<-|]; [by rewrite lookup_insert_eq|by rewrite lookup_insert_ne].
  - unfold CreateEntity. destruct (normalizeEntityIdentity n sp e) as [[[a b] c]|]; [|apply rebalanced_refl].
    destruct (cs_namespaces s !! a); [|apply rebalanced_refl]. destruct (cs_spaces s !! _); [|apply rebalanced_refl].
    destruct (_ !! _); [apply rebalanced_refl|]. split; [done|by left].
  - unfold BumpNamespaceVersion. destruct (normalizeNamespace n); [|apply rebalanced_refl].
    destruct (_ !! _); [|apply rebalanced_refl]. split; [done|by left].
  - pose proof (BumpSpaceVersion_inv n sp s Hinv) as Hinv'. revert Hinv'. unfold BumpSpaceVersion.
    destruct (normalizeSpaceIdentity n sp) as [[a b]|]; [|intros; apply rebalanced_refl].
    destruct (cs_namespaces s !! a); [|intros; apply rebalanced_refl].
    destruct (_ !! _); [|intros; apply rebalanced_refl]. cbn [fst]. intros Hinv'. split.
    + intros k Hk. cbn. destruct (decide ((a, b) = k)) as [<-|]; [by rewrite lookup_insert_eq|by rewrite lookup_insert_ne].
    + left. split; [|done]. rewrite <- (ci_routes _ Hinv'), <- (ci_routes _ Hinv). done.
Qed.

Lemma nodes_rebalanced n a now clock s : control_inv s -> counters_room s ->
  rebalanced s (registerNodeAt n a now clock s).1 /\ rebalanced s (heartbeatAt n a now clock s).1 /\
  rebalanced s (removeNode n clock s).1.
Proof.
  intros Hinv Hroom. pose proof (ci_data s Hinv) as Hd. split_and!.
  - pose proof (registerNodeAt_inv n a now clock s Hinv Hroom) as Hinv'. revert Hinv'. unfold registerNodeAt.
    destruct (validateNodeIdentity n a) as [[k b]|] eqn:En; [|intros; apply rebalanced_refl].
    apply validateNodeIdentity_id in En as (Hid & Hk & Hb).
    destruct (nodeRegistrationEventReason (cs_nodes s !! k) _) as [reason [|]] eqn:Er; cbn [fst]; intros Hinv'.
    + apply rebalanced_record; [|apply withNodes_data; [by apply withRevision_data|]|done|done|done].
      * cbn. unfold nodeRegistrationEventReason in Er. destruct (cs_nodes s !! k); repeat case_bool; by simplify_eq.
      * apply nodes_inv_insert; [apply Hd|done|done|done|by left].
    + split; [done|left; split; [|done]]. by rewrite <- (ci_routes _ Hinv'), <- (ci_routes _ Hinv).
  - pose proof (heartbeatAt_inv n a now clock s Hinv Hroom) as Hinv'. revert Hinv'. unfold heartbeatAt.
    destruct (validateNodeIdentity n a) as [[k b]|] eqn:En; [|intros; apply rebalanced_refl].
    apply validateNodeIdentity_id in En as (Hid & Hk & Hb).
    destruct (heartbeatChanges (cs_nodes s !! k) k b) as [[node steps] reason] eqn:Eh.
    apply heartbeatChanges_spec in Eh as (Hv & Hst & Hre & _); [|intros old Ho; by apply (ci_nodes s Hd k old)].
    injection Hv as E1 E2 E3. cbn [fst]. destruct (Z.ltb_spec 0 steps) as [Hpos|Hzero]; intros Hinv'.
    + apply rebalanced_record; [by apply Hre|apply withNodes_data; [by apply withRevision_data|]|done|done|done].
      apply nodes_inv_insert; [apply Hd|done|by cbn; rewrite E2|by cbn; rewrite E2|left; exact E3].
    + split; [done|left; split; [|done]]. by rewrite <- (ci_routes _ Hinv'), <- (ci_routes _ Hinv).
  - unfold removeNode. destruct (normalizeNodeIdentity n) as [k|]; [|apply rebalanced_refl].
    destruct (cs_nodes s !! k) as [node|]; [|apply rebalanced_refl].
    apply rebalanced_record; [done|apply withRevision_data, withNodes_data; [done|]|done|done|done].
    intros j item [_ Hj]%lookup_delete_Some. by apply (ci_nodes s Hd).
Qed.

Lemma Apply_rebalanced c clock s : control_inv s -> counters_room s -> rebalances c -> rebalanced s (Apply c clock s).1.
Proof.
  intros Hinv Hroom Hc.
  destruct (catalog_rebalanced (cm_namespace c) (cm_space c) (cm_entity c) clock s Hinv) as (H1' & H2' & H3' & H4' & H5').
  destruct (nodes_rebalanced (cm_nodeID c) (cm_addr c) (commandTime c clock) (restOfClock c clock) s Hinv Hroom) as (H6' & H7' & _).
  destruct (nodes_rebalanced (cm_nodeID c) (cm_addr c) (commandTime c clock) clock s Hinv Hroom) as (_ & _ & H8').
  unfold rebalances in Hc. unfold Apply. destruct (cm_type c); try done.
  all: unfold applyCreateNamespace, applyCreateSpace, applyCreateEntity, applyBumpNamespace, applyBumpSpace,
    applyRegisterNode, applyHeartbeat, applyRemoveNode; by rewrite applied_fst.
Qed.

(** C2: a rebalance moves no slot before its data.  When nodes register, change
    address, recover or are removed, or the catalog changes, every slot of every
    catalogued space on which no migration is pending still leads to the node
    that served it: the new plan keeps it there until its task has cut over. *)
Theorem rebalance_keeps_owner (c : Command) (clock : nat -> Time) (s : ControlState) (ns sp : string) (slot : Z) :
  control_inv s -> counters_room s -> rebalances c ->
  is_Some (cs_spaces s !! (ns, sp)) -> is_slot slot -> pending_source (cs_plans s) ns sp slot = None ->
  nodes_ok (sortedNodes s) -> nodes_ok (sortedNodes (Apply c clock s).1) ->
  exists before after, owners (effectiveRoutes s) ns sp slot = [before] /\
    owners (effectiveRoutes (Apply c clock s).1) ns sp slot = [after] /\ after.1 = before.1.
Proof.
  intros Hinv Hroom Hc Hi Hs Hp Hn Hn'. pose proof (Apply_inv c clock s Hinv Hroom) as Hinv'.
  destruct (Apply_rebalanced c clock s Hinv Hroom Hc) as [Hsp Hcase]. set (s' := (Apply c clock s).1) in *.
  exists (base_owner s slot), (default (base_owner s' slot) (pending_source (cs_plans s') ns sp slot)).
  split_and!.
  - rewrite effectiveRoutes_owners by (done || apply Hinv). by rewrite Hp.
  - apply effectiveRoutes_owners; [apply Hinv'|done|done|by apply Hsp].
  - destruct Hcase as [[Er Ep]|(event & now & mid & Es' & Hr & Hd & El & Ep)].
    + rewrite Ep, Hp. cbn [default from_option].
      pose proof (base_routes_owners s' ns sp slot (ci_data _ Hinv') Hn' Hs (Hsp _ Hi)) as E'.
      rewrite Er, base_routes_owners in E' by (done || apply Hinv).
      apply (f_equal (fun l => hd ("", "") l)) in E'. cbn [hd] in E'. by rewrite E'.
    + rewrite Es' in *. apply pending_source_None in Hp.
      apply record_keeps_owner; [done|done|done|done|done|done| |done|done|done|done].
      pose proof (record_frame event now mid) as (_ & _ & _ & Ef & _). rewrite <- Ef. by apply Hsp.
Qed.

(** ** Clients *)

Lemma base_owner_addr s slot : data_inv s -> nodes_ok (sortedNodes s) -> is_slot slot -> (base_owner s slot).2 <> "".
Proof.
  intros Hd Hn Hs. unfold base_owner, shared_owner. set (i := Z.to_nat _).
  destruct (lookup_lt_is_Some_2 (healthyNodes (sortedNodes s)) i) as [x Hx].
  { pose proof (slotIndex_range (zlen (healthyNodes (sortedNodes s))) slot (proj1 Hn) Hs). unfold i, zlen in *. lia. }
  rewrite (nth_lookup_Some _ _ _ _ Hx). cbn. apply list_elem_of_lookup_2 in Hx.
  apply list_elem_of_filter in Hx as [_ Hx]. unfold sortedNodes in Hx. rewrite merge_sort_Permutation in Hx.
  apply list_elem_of_fmap in Hx as ([k y] & -> & Hk). apply elem_of_range in Hk. by apply (ci_nodes s Hd k y).
Qed.

Lemma pending_source_addr s ns sp slot o : data_inv s -> pending_source (cs_plans s) ns sp slot = Some o -> o.2 <> "".
Proof.
  intros Hd Hp. unfold pending_source in Hp. apply last_Some in Hp as [l El].
  assert (o ∈ source_of <$> filter (task_covers ns sp slot) (pending (cs_plans s))) as Hin by (rewrite El; set_solver).
  apply list_elem_of_fmap in Hin as (t & -> & Ht). apply list_elem_of_filter in Ht as [_ Ht].
  apply list_elem_of_filter in Ht as [_ Ht]. apply list_elem_of_bind in Ht as (p & Ht & Hpl).
  pose proof (li_plan_ids s (ci_logs s Hd)) as Hids. rewrite Forall_forall in Hids.
  destruct (Hids p Hpl) as [_ [_ Hall]]. apply list_elem_of_lookup_1 in Ht as [j Hj].
  by destruct (Hall j t Hj) as (_ & _ & _ & Ha).
Qed.

Lemma exact_covers r ns sp slot : ~ (rt_start r = 0 /\ rt_end r = 0) -> rt_addr r <> "" ->
  (selectable r slot && isKind exactRoute r ns sp = true <-> covers ns sp slot r).
Proof.
  intros Hz Ha. unfold selectable, ContainsVSlot, normalizedRange, isKind, routeMatch, covers.
  rewrite (bool_decide_eq_false_2 (rt_addr r = "")) by done.
  destruct ((rt_start r =? 0) && (rt_end r =? 0)) eqn:E; [bool_to_prop; tauto|]. cbn [negb andb].
  destruct (decide (rt_namespace r = ns)) as [E1|E1].
  - rewrite (bool_decide_eq_true_2 (rt_namespace r = ns)) by done. destruct (decide (rt_space r = sp)) as [E2|E2].
    + rewrite (bool_decide_eq_true_2 (rt_space r = sp)) by done. cbn [andb]. rewrite andb_true_r, andb_true_iff, !Z.leb_le. tauto.
    + rewrite (bool_decide_eq_false_2 (rt_space r = sp)) by done. cbn [andb].
      split; [|tauto]. intros H1'. repeat case_bool; bool_to_prop; done.
  - rewrite (bool_decide_eq_false_2 (rt_namespace r = ns)) by done. cbn [andb].
    split; [|tauto]. intros H1'. repeat case_bool; bool_to_prop; done.
Qed.

Lemma select_owner (s : ControlState) (ns sp key : string) :
  control_inv s -> nodes_ok (sortedNodes s) -> is_Some (cs_spaces s !! (ns, sp)) ->
  Forall (fun r => ~ (rt_start r = 0 /\ rt_end r = 0)) (effectiveRoutes s) ->
  exists r, Select (effectiveRoutes s) ns sp key = Some r /\
    owner_of r = default (base_owner s (VSlotFor ns sp key)) (pending_source (cs_plans s) ns sp (VSlotFor ns sp key)).
Proof.
  intros Hinv Hn Hi Hz. set (slot := VSlotFor ns sp key).
  assert (is_slot slot) as Hs by apply VSlotFor_range.
  pose proof (effectiveRoutes_owners s ns sp slot (ci_data s Hinv) Hn Hs Hi) as Ho.
  set (o := default _ _) in *. rewrite Forall_forall in Hz.
  assert (o.2 <> "") as Ha.
  { unfold o. destruct (pending_source (cs_plans s) ns sp slot) eqn:Ep; cbn [default from_option].
    - by eapply pending_source_addr; [apply Hinv|].
    - apply base_owner_addr; [apply Hinv|done|done]. }
  assert (forall r, r ∈ effectiveRoutes s -> covers ns sp slot r -> owner_of r = o) as Huniq.
  { intros r Hr Hc. assert (owner_of r ∈ owners (effectiveRoutes s) ns sp slot) as Hin.
    { apply list_elem_of_fmap_2. by apply list_elem_of_filter. }
    rewrite Ho in Hin. by apply list_elem_of_singleton in Hin. }
  assert (exists r0, r0 ∈ effectiveRoutes s /\ covers ns sp slot r0) as (r0 & Hr0 & Hc0).
  { assert (o ∈ owners (effectiveRoutes s) ns sp slot) as Hin by (rewrite Ho; set_solver).
    apply list_elem_of_fmap in Hin as (r0 & _ & Hf). apply list_elem_of_filter in Hf as [? ?]. eauto. }
  pose proof (selectLoop_spec (effectiveRoutes s) slot ns sp (mkCandidates None None)) as Hloop.
  unfold Select. fold slot. destruct (selectLoop _ _ _ _ _) as [r|c].
  - exists r. split; [done|]. apply firstOfKind_some in Hloop as (Hr & Hsel & Hk). apply Huniq; [done|].
    apply exact_covers; [by apply Hz| |by rewrite Hsel, Hk].
    unfold selectable in Hsel. bool_to_prop. done.
  - exfalso. destruct Hloop as [Hnone _].
    assert (selectable r0 slot && isKind exactRoute r0 ns sp = true) as Hsel.
    { apply exact_covers; [by apply Hz| |done]. specialize (Huniq r0 Hr0 Hc0). by rewrite <- Huniq in Ha. }
    apply andb_prop in Hsel as [H1' H2']. pose proof (firstOfKind_none _ _ _ _ _ Hnone r0 Hr0 H1'). congruence.
Qed.

(** C9: a client that routes a key of a catalogued space with the table the
    control plane publishes always finds a route, and the route leads to the
    key's owner: the source of the last migration still pending on the key's
    slot, or the healthy node the slot is assigned to.  (A route of slot 0 alone
    would be read as covering every slot, so there must be none.) *)
Theorem clients_reach_owner (s : ControlState) (ns sp key : string) :
  control_inv s -> nodes_ok (sortedNodes s) -> is_Some (cs_spaces s !! (ns, sp)) ->
  Forall (fun r => ~ (rt_start r = 0 /\ rt_end r = 0)) (effectiveRoutes s) ->
  exists r, Select (effectiveRoutes s) ns sp key = Some r /\
    owner_of r = default (base_owner s (VSlotFor ns sp key)) (pending_source (cs_plans s) ns sp (VSlotFor ns sp key)).
Proof. apply select_owner. Qed.
End Owners.
