(* ===== verification/ControlReplicas.v ===== *)
(** * Replicas of the control state

    Every replica applies the same log of commands, with its own clock and its
    own enumeration order of maps.  [agree] compares two replicas up to the
    creation stamps, which each takes from its clock; replicas that agree and
    apply the same stamped commands keep agreeing and publish the same route
    table. *)

From S2P Require Import Prelude.
From S2P Require Import GoStrings.
From S2P Require Import ControlApi.
From S2P Require Import Routing.
From S2P Require Import ControlRoutes.
From S2P Require Import ControlRoutesSpec.
From S2P Require Import Control.
From S2P Require Import ControlSpec.
From S2P Require Import ControlOwners.

Local Open Scope Z_scope.
Local Open Scope nespa_scope.

(** ** Records without their creation stamps *)

Definition timelessNamespace (n : NamespaceBody) : NamespaceBody := mkNamespace (ns_namespace n) (ns_version n) 0.
Definition timelessSpace (s : SpaceBody) : SpaceBody := mkSpace (sp_namespace s) (sp_space s) (sp_version s) 0.
Definition timelessEntity (e : EntityBody) : EntityBody := mkEntity (en_namespace e) (en_space e) (en_entity e) 0.

Definition timelessEvent (e : RebalanceEventBody) : RebalanceEventBody :=
  mkEvent (ev_id e) (ev_revision e) (ev_type e) (ev_reason e) (ev_nodeID e) (ev_addr e) (ev_state e)
    (ev_namespace e) (ev_space e) (ev_routeCount e) 0.

Definition timelessTask (t : MigrationTaskBody) : MigrationTaskBody :=
  mkTask (mt_planID t) (mt_taskID t) (mt_revision t) (mt_namespace t) (mt_space t) (mt_start t) (mt_end t)
    (mt_sourceNodeID t) (mt_sourceAddr t) (mt_targetNodeID t) (mt_targetAddr t) (mt_state t) 0
    (mt_startedAtUnix t) (mt_cutoverAtUnix t) (mt_finishedAtUnix t) (mt_importedEntries t)
    (mt_deletedEntries t) (mt_attempts t) (mt_nextRetryUnix t) (mt_error t).

Definition timelessPlan (p : MigrationPlanBody) : MigrationPlanBody :=
  mkPlan (mp_id p) (mp_revision p) (mp_reason p) (mp_state p) 0 (timelessTask <$> mp_tasks p).

Definition timelessResult (r : ApplyResult) : ApplyResult :=
  match r with
  | AppliedNamespace revision item => AppliedNamespace revision (timelessNamespace item)
  | AppliedSpace revision item => AppliedSpace revision (timelessSpace item)
  | AppliedEntity revision item => AppliedEntity revision (timelessEntity item)
  | AppliedTask claimed task => AppliedTask claimed (timelessTask task)
  | AppliedNode _ _ | AppliedLiveness _ _ => r
  end.

Definition timelessOutcome (r : result controlError ApplyResult) : result controlError ApplyResult := timelessResult <$> r.

(** Equality up to the creation stamps. *)
Record agree (s t : ControlState) : Prop := mkAgree {
  ag_clusterID : cs_clusterID s = cs_clusterID t;
  ag_revision : cs_revision s = cs_revision t;
  ag_namespaces : timelessNamespace <$> cs_namespaces s = timelessNamespace <$> cs_namespaces t;
  ag_spaces : timelessSpace <$> cs_spaces s = timelessSpace <$> cs_spaces t;
  ag_entities : timelessEntity <$> cs_entities s = timelessEntity <$> cs_entities t;
  ag_nodes : cs_nodes s = cs_nodes t;
  ag_events : timelessEvent <$> cs_events s = timelessEvent <$> cs_events t;
  ag_plans : timelessPlan <$> cs_plans s = timelessPlan <$> cs_plans t;
  ag_nextEvent : cs_nextEvent s = cs_nextEvent t;
  ag_nextPlan : cs_nextPlan s = cs_nextPlan t;
  ag_lastRoutes : cs_lastRoutes s = cs_lastRoutes t
}.

#[global] Instance agree_equivalence : Equivalence agree.
Proof.
  split.
  - by intros s.
  - intros s t []. by constructor.
  - intros s t u [] []. constructor; by etrans.
Qed.

(** Outcomes that differ in creation stamps only. *)
Definition agreeing {A} (f : A -> A) (x y : ControlState * result controlError A) : Prop :=
  agree x.1 y.1 /\ f <$> x.2 = f <$> y.2.

Lemma lookup_timeless {K A} `{Countable K} (f : A -> A) (m1 m2 : gmap K A) k : f <$> m1 = f <$> m2 ->
  f <$> m1 !! k = f <$> m2 !! k.
Proof. intros E. by rewrite <- !lookup_fmap, E. Qed.

Lemma insert_timeless {K A} `{Countable K} (f : A -> A) (m1 m2 : gmap K A) k x y : f <$> m1 = f <$> m2 ->
  f x = f y -> f <$> <[k := x]> m1 = f <$> <[k := y]> m2.
Proof. intros E Ex. by rewrite !fmap_insert, E, Ex. Qed.

(** ** Plans and tasks *)

Lemma timeless_tasks event prev cur :
  timelessTask <$> buildMigrationTasks event prev cur = buildMigrationTasks (timelessEvent event) prev cur.
Proof.
  unfold buildMigrationTasks, migrationTasksForRoute. induction cur as [|c cur IH]; [done|].
  cbn [mbind list_bind]. rewrite fmap_app, IH. f_equal. clear. destruct (emptyRouteScope c); [done|].
  induction prev as [|p prev IH]; [done|]. cbn [mbind list_bind]. rewrite fmap_app, IH. f_equal.
  by destruct (migrationTaskRange p c) as [[? ?] [|]].
Qed.

Lemma timeless_numbered n ts : timelessTask <$> imap (numberTask n) ts = imap (numberTask n) (timelessTask <$> ts).
Proof. rewrite fmap_imap, imap_fmap. by apply imap_ext. Qed.

Lemma existsb_timeless (f : MigrationTaskBody -> bool) ts : (forall t, f (timelessTask t) = f t) ->
  existsb f (timelessTask <$> ts) = existsb f ts.
Proof. intros Hf. induction ts as [|t ts IH]; [done|]. rewrite fmap_cons. cbn [existsb]. by rewrite IH, Hf. Qed.

Lemma deriveMigrationPlanState_timeless ts : deriveMigrationPlanState (timelessTask <$> ts) = deriveMigrationPlanState ts.
Proof. unfold deriveMigrationPlanState. by rewrite !existsb_timeless. Qed.

Lemma withTasks_timeless ts p : timelessPlan (withTasks ts p) = withTasks (timelessTask <$> ts) (timelessPlan p).
Proof. unfold withTasks, timelessPlan. cbn. by rewrite deriveMigrationPlanState_timeless. Qed.

(** The stamps of a list of plans and a task dropped. *)
Definition timelessFound : list MigrationPlanBody * MigrationTaskBody -> list MigrationPlanBody * MigrationTaskBody :=
  prod_map (fmap timelessPlan) timelessTask.

Lemma updateInPlans_timeless pid tid f plans : (forall t, timelessTask (f t) = f (timelessTask t)) ->
  timelessFound <$> updateInPlans pid tid f plans = updateInPlans pid tid f (timelessPlan <$> plans).
Proof.
  intros Hf. induction plans as [|p plans IH]; [done|]. rewrite fmap_cons. cbn [updateInPlans].
  rewrite <- IH. cbn [timelessPlan mp_id mp_tasks]. rewrite list_find_fmap.
  unfold compose. cbn [timelessTask mt_taskID].
  assert (timelessFound <$> match updateInPlans pid tid f plans with
      Some (rest, task) => Some (p :: rest, task) | None => None end =
    match timelessFound <$> updateInPlans pid tid f plans with
      Some (rest, task) => Some (timelessPlan p :: rest, task) | None => None end) as Hs
    by (by destruct (updateInPlans pid tid f plans) as [[? ?]|]).
  destruct (negb _); [done|]. destruct (list_find _ (mp_tasks p)) as [[i t]|]; [|done]. cbn.
  unfold timelessFound, prod_map. cbn. by rewrite withTasks_timeless, list_fmap_insert, Hf.
Qed.

Lemma markTaskRunning_timeless now t : timelessTask (markTaskRunning t now) = markTaskRunning (timelessTask t) now.
Proof. done. Qed.

Lemma claimInPlans_timeless now plans :
  timelessFound <$> claimInPlans plans now = claimInPlans (timelessPlan <$> plans) now.
Proof.
  induction plans as [|p plans IH]; [done|]. rewrite fmap_cons. cbn [claimInPlans].
  rewrite <- IH. unfold firstClaimableTask. cbn [timelessPlan mp_tasks]. rewrite list_find_fmap.
  unfold compose. change (fun t => claimableMigrationTask (timelessTask t) now = true)
    with (fun t => claimableMigrationTask t now = true).
  destruct (list_find _ (mp_tasks p)) as [[i t]|].
  - cbn. unfold timelessFound, prod_map. cbn. by rewrite withTasks_timeless, list_fmap_insert, markTaskRunning_timeless.
  - by destruct (claimInPlans plans now) as [[? ?]|].
Qed.

(** The routes of pending tasks do not read the stamps. *)
Lemma overrides_timeless routes plans :
  applyMigrationRouteOverrides routes (timelessPlan <$> plans) = applyMigrationRouteOverrides routes plans.
Proof.
  unfold applyMigrationRouteOverrides. f_equal. revert routes. induction plans as [|p plans IH]; intros routes; [done|].
  rewrite fmap_cons. cbn [foldl]. rewrite IH. f_equal. cbn [timelessPlan mp_tasks]. clear IH. revert routes.
  induction (mp_tasks p) as [|t ts IH]; intros routes; [done|]. rewrite fmap_cons. cbn [foldl]. by rewrite IH.
Qed.

(** ** Two replicas *)

Section Replicas.
  Context (o1 o2 : RangeOrder).

Lemma base_routes_agree s t : @data_inv s -> @data_inv t -> agree s t -> @base_routes o1 s = @base_routes o2 t.
Proof.
  intros Hs Ht [_ _ _ Esp _ Eno _ _ _ _ _].
  transitivity (@base_routes o1 t).
  - apply base_routes_view; [apply Hs|apply Hs|by rewrite Eno|].
    assert (forall m : gmap spaceRef SpaceBody, scope_of <$> (map_to_list m).*2 ≡ₚ
      scope_of <$> (map_to_list (timelessSpace <$> m)).*2) as Hm.
    { intros m. rewrite map_to_list_fmap, <- !list_fmap_compose. done. }
    by rewrite (Hm (cs_spaces s)), Esp, <- Hm.
  - unfold base_routes. by rewrite (sortedNodes_order o1 o2), (sortedSpaces_order o1 o2) by apply Ht.
Qed.

(** The fields of a state that has just been built. *)
Ltac fields := cbn [cs_clusterID cs_revision cs_namespaces cs_spaces cs_entities cs_nodes cs_events cs_plans
  cs_nextEvent cs_nextPlan cs_lastRoutes].

(** Recording an event, each replica with its own clock. *)
Lemma record_agree event n1 n2 s t : data_inv s -> data_inv t -> agree s t ->
  agree (@recordRebalanceEvent o1 event n1 s) (@recordRebalanceEvent o2 event n2 t).
Proof.
  intros Hs Ht Ha. pose proof (base_routes_agree s t Hs Ht Ha) as Eb. unfold base_routes in Eb.
  destruct Ha as [E1 E2 E3 E4 E5 E6 E7 E8 E9 E10 E11].
  unfold recordRebalanceEvent. destruct (bool_decide _); [by constructor|]. rewrite Eb.
  set (routes := routesForNodes _ _). unfold recordMigrationPlan. fields.
  set (b1 := mkEvent _ _ _ _ _ _ _ _ _ _ (Unix n1)). set (b2 := mkEvent _ _ _ _ _ _ _ _ _ _ (Unix n2)).
  assert (timelessEvent b1 = timelessEvent b2) as Eb12 by (unfold b1, b2, timelessEvent; cbn; by rewrite E2, E9).
  pose proof (timeless_tasks b1 (cs_lastRoutes s) routes) as T1.
  pose proof (timeless_tasks b2 (cs_lastRoutes t) routes) as T2.
  rewrite Eb12, E11, <- T2 in T1. rewrite E11. clear T2.
  assert (timelessEvent <$> keepLast maxRebalanceEvents (cs_events s ++ [b1]) =
    timelessEvent <$> keepLast maxRebalanceEvents (cs_events t ++ [b2])) as Ee
    by (rewrite !fmap_keepLast, !fmap_app, E7; cbn; by rewrite Eb12).
  destruct (buildMigrationTasks b1 _ _) as [|x1 l1], (buildMigrationTasks b2 _ _) as [|x2 l2]; try discriminate T1.
  - constructor; fields; congruence.
  - constructor; fields; try congruence. rewrite !fmap_keepLast, !fmap_app, E8. do 2 f_equal. rewrite !list_fmap_singleton. f_equal.
    unfold timelessPlan. cbn [mp_id mp_revision mp_reason mp_state mp_tasks].
    rewrite !timeless_numbered, T1. unfold b1, b2. cbn. by rewrite E10, E2.
Qed.

(** The same change of a field on both replicas. *)
Lemma withRevision_agree r s t : agree s t -> agree (withRevision r s) (withRevision r t).
Proof. intros []. by constructor. Qed.

Lemma bumpRevision_agree s t : agree s t -> agree (bumpRevision s) (bumpRevision t).
Proof. intros Ha. unfold bumpRevision. rewrite (ag_revision _ _ Ha). by apply withRevision_agree. Qed.

Lemma withNodes_agree m s t : agree s t -> agree (withNodes m s) (withNodes m t).
Proof. intros []. by constructor. Qed.

Lemma withPlans_agree l1 l2 s t : agree s t -> timelessPlan <$> l1 = timelessPlan <$> l2 ->
  agree (withPlans l1 s) (withPlans l2 t).
Proof. intros [] ?. by constructor. Qed.

Lemma withNamespaces_agree m1 m2 s t : agree s t -> timelessNamespace <$> m1 = timelessNamespace <$> m2 ->
  agree (withNamespaces m1 s) (withNamespaces m2 t).
Proof. intros [] ?. by constructor. Qed.

Lemma withSpaceMap_agree m1 m2 s t : agree s t -> timelessSpace <$> m1 = timelessSpace <$> m2 ->
  agree (withSpaceMap m1 s) (withSpaceMap m2 t).
Proof. intros [] ?. by constructor. Qed.

Lemma withEntities_agree m1 m2 s t : agree s t -> timelessEntity <$> m1 = timelessEntity <$> m2 ->
  agree (withEntities m1 s) (withEntities m2 t).
Proof. intros [] ?. by constructor. Qed.

Lemma record_revision_agree event n1 n2 s t : agree s t ->
  cs_revision (@recordRebalanceEvent o1 event n1 s) = cs_revision (@recordRebalanceEvent o2 event n2 t).
Proof.
  intros Ha. pose proof (@record_frame o1 event n1 s) as (_ & -> & _).
  pose proof (@record_frame o2 event n2 t) as (_ & -> & _). apply Ha.
Qed.

Lemma namespaces_at s t n : agree s t -> timelessNamespace <$> cs_namespaces s !! n = timelessNamespace <$> cs_namespaces t !! n.
Proof. intros Ha. apply (lookup_timeless _ _ _ n), Ha. Qed.

Lemma spaces_at s t n sp : agree s t -> timelessSpace <$> cs_spaces s !! (n, sp) = timelessSpace <$> cs_spaces t !! (n, sp).
Proof. intros Ha. apply (lookup_timeless _ _ _ (n, sp)), Ha. Qed.

Lemma entities_at s t n sp e : agree s t ->
  timelessEntity <$> cs_entities s !! (n, sp, e) = timelessEntity <$> cs_entities t !! (n, sp, e).
Proof. intros Ha. apply (lookup_timeless _ _ _ (n, sp, e)), Ha. Qed.

(** Case analysis on a lookup in both replicas. *)
Ltac both E := let x := fresh "x" in let y := fresh "y" in
  match type of E with _ <$> ?m !! ?k = _ <$> ?n !! ?k =>
    destruct (m !! k) as [x|] eqn:?, (n !! k) as [y|] eqn:?; try discriminate E end.

Definition timelessReply {A} (f : A -> A) : Z * A -> Z * A := prod_map id f.

Lemma CreateNamespace_agree n c1 c2 s t : agree s t ->
  agreeing (timelessReply timelessNamespace) (CreateNamespace n c1 s) (CreateNamespace n c2 t).
Proof.
  intros Ha. unfold CreateNamespace. destruct (normalizeNamespace n) as [k|]; [|by split].
  pose proof (namespaces_at s t k Ha) as E. both E.
  - split; [done|]. cbn. unfold timelessReply, prod_map. cbn in *. by rewrite (ag_revision _ _ Ha), (inj Some _ _ E).
  - split; cbn [fst snd].
    + apply withNamespaces_agree; [by apply bumpRevision_agree|]. apply insert_timeless; [apply Ha|done].
    + cbn. by rewrite (ag_revision _ _ Ha).
Qed.

Lemma CreateEntity_agree n sp e c1 c2 s t : agree s t ->
  agreeing (timelessReply timelessEntity) (CreateEntity n sp e c1 s) (CreateEntity n sp e c2 t).
Proof.
  intros Ha. unfold CreateEntity. destruct (normalizeEntityIdentity n sp e) as [[[a b] k]|]; [|by split].
  pose proof (namespaces_at s t a Ha) as E1. both E1; [|by split].
  pose proof (spaces_at s t a b Ha) as E2. both E2; [|by split].
  pose proof (entities_at s t a b k Ha) as E3. both E3.
  - split; [done|]. cbn. unfold timelessReply, prod_map. cbn in *. by rewrite (ag_revision _ _ Ha), (inj Some _ _ E3).
  - split; cbn [fst snd].
    + apply withEntities_agree; [by apply bumpRevision_agree|]. apply insert_timeless; [apply Ha|done].
    + cbn. by rewrite (ag_revision _ _ Ha).
Qed.

Lemma BumpNamespaceVersion_agree n s t : agree s t ->
  agreeing (timelessReply timelessNamespace) (BumpNamespaceVersion n s) (BumpNamespaceVersion n t).
Proof.
  intros Ha. unfold BumpNamespaceVersion. destruct (normalizeNamespace n) as [k|]; [|by split].
  pose proof (namespaces_at s t k Ha) as E. both E; [|by split].
  cbn in E. injection E as En Ev. split; cbn [fst snd].
  - apply withNamespaces_agree; [by apply bumpRevision_agree|]. apply insert_timeless; [apply Ha|].
    unfold timelessNamespace. cbn. by rewrite En, Ev.
  - cbn. unfold timelessReply, prod_map, timelessNamespace. cbn. by rewrite (ag_revision _ _ Ha), En, Ev.
Qed.

Lemma BumpSpaceVersion_agree n sp s t : agree s t ->
  agreeing (timelessReply timelessSpace) (BumpSpaceVersion n sp s) (BumpSpaceVersion n sp t).
Proof.
  intros Ha. unfold BumpSpaceVersion. destruct (normalizeSpaceIdentity n sp) as [[a b]|]; [|by split].
  pose proof (namespaces_at s t a Ha) as E1. both E1; [|by split].
  pose proof (spaces_at s t a b Ha) as E2. both E2; [|by split].
  cbn in E2. injection E2 as En Es Ev. split; cbn [fst snd].
  - apply withSpaceMap_agree; [by apply bumpRevision_agree|]. apply insert_timeless; [apply Ha|].
    unfold timelessSpace. cbn. by rewrite En, Es, Ev.
  - cbn. unfold timelessReply, prod_map, timelessSpace. cbn. by rewrite (ag_revision _ _ Ha), En, Es, Ev.
Qed.

Lemma CreateSpace_agree n sp c1 c2 s t : data_inv s -> data_inv t -> agree s t ->
  agreeing (timelessReply timelessSpace) (@CreateSpace o1 n sp c1 s) (@CreateSpace o2 n sp c2 t).
Proof.
  intros Hs Ht Ha. unfold CreateSpace. destruct (normalizeSpaceIdentity n sp) as [[a b]|] eqn:En; [|by split].
  apply normalizeSpaceIdentity_ok in En as [Na Nb].
  pose proof (namespaces_at s t a Ha) as E1. both E1; [|by split].
  pose proof (spaces_at s t a b Ha) as E2. both E2.
  - split; [done|]. cbn. unfold timelessReply, prod_map. cbn in *. by rewrite (ag_revision _ _ Ha), (inj Some _ _ E2).
  - set (f := fun clock : nat -> Time => mkSpace a b 1 (Unix (clock 0%nat))).
    assert (agree (withSpaceMap (<[(a, b) := f c1]> (cs_spaces (bumpRevision s))) (bumpRevision s))
      (withSpaceMap (<[(a, b) := f c2]> (cs_spaces (bumpRevision t))) (bumpRevision t))) as Hw.
    { apply withSpaceMap_agree; [by apply bumpRevision_agree|]. apply (insert_timeless timelessSpace); [apply Ha|done]. }
    split; cbn [fst snd].
    + apply record_agree; [apply new_space_data..|done]; eauto.
    + cbn. by rewrite (record_revision_agree _ _ (c2 1%nat) _ _ Hw).
Qed.

(** A node recorded with its event. *)
Lemma record_node_agree k node event n1 n2 r s t : data_inv s -> data_inv t -> agree s t ->
  nodes_inv (<[k := node]> (cs_nodes t)) ->
  agree (@recordRebalanceEvent o1 event n1 (withNodes (<[k := node]> (cs_nodes (withRevision r s))) (withRevision r s)))
    (@recordRebalanceEvent o2 event n2 (withNodes (<[k := node]> (cs_nodes (withRevision r t))) (withRevision r t))).
Proof.
  intros Hs Ht Ha Hn. cbn [withRevision cs_nodes]. rewrite (ag_nodes _ _ Ha). apply record_agree.
  - by apply withNodes_data; [apply withRevision_data|].
  - by apply withNodes_data; [apply withRevision_data|].
  - by apply withNodes_agree, withRevision_agree.
Qed.

Lemma node_reply_agree s t (node : NodeBody) : agree s t ->
  agreeing (timelessReply id) (s, Ok (cs_revision s, node)) (t, Ok (cs_revision t, node)).
Proof. intros Ha. split; [done|]. cbn. by rewrite (ag_revision _ _ Ha). Qed.

Lemma registerNodeAt_agree n a now c1 c2 s t : data_inv s -> data_inv t -> agree s t ->
  agreeing (timelessReply id) (@registerNodeAt o1 n a now c1 s) (@registerNodeAt o2 n a now c2 t).
Proof.
  intros Hs Ht Ha. unfold registerNodeAt. destruct (validateNodeIdentity n a) as [[k b]|] eqn:En; [|by split].
  apply validateNodeIdentity_id in En as (Hid & Hk & Hb). rewrite (ag_nodes _ _ Ha).
  destruct (nodeRegistrationEventReason _ _) as [reason [|]]; apply node_reply_agree.
  - unfold bumpRevision. rewrite (ag_revision _ _ Ha). apply record_node_agree; [done..|].
    apply nodes_inv_insert; [apply Ht|done|done|done|by left].
  - rewrite <- (ag_nodes _ _ Ha) at 1. rewrite (ag_nodes _ _ Ha). by apply withNodes_agree.
Qed.

Lemma heartbeatAt_agree n a now c1 c2 s t : data_inv s -> data_inv t -> agree s t ->
  agreeing (timelessReply id) (@heartbeatAt o1 n a now c1 s) (@heartbeatAt o2 n a now c2 t).
Proof.
  intros Hs Ht Ha. unfold heartbeatAt. destruct (validateNodeIdentity n a) as [[k b]|] eqn:En; [|by split].
  apply validateNodeIdentity_id in En as (Hid & Hk & Hb). rewrite (ag_nodes _ _ Ha).
  destruct (heartbeatChanges (cs_nodes t !! k) k b) as [[node steps] reason] eqn:Eh.
  apply heartbeatChanges_spec in Eh as (Hv & _); [|intros old Ho; by apply (ci_nodes t Ht k old)].
  injection Hv as E1 E2 E3. rewrite (ag_revision _ _ Ha). destruct (0 <? steps); apply node_reply_agree.
  - apply record_node_agree; [done..|].
    apply nodes_inv_insert; [apply Ht|done|by cbn; rewrite E2|by cbn; rewrite E2|left; exact E3].
  - cbn [withRevision cs_nodes]. rewrite (ag_nodes _ _ Ha). by apply withNodes_agree, withRevision_agree.
Qed.

Lemma removeNode_agree n c1 c2 s t : data_inv s -> data_inv t -> agree s t ->
  agreeing (timelessReply id) (@removeNode o1 n c1 s) (@removeNode o2 n c2 t).
Proof.
  intros Hs Ht Ha. unfold removeNode. destruct (normalizeNodeIdentity n) as [k|]; [|by split].
  rewrite (ag_nodes _ _ Ha). destruct (cs_nodes t !! k) as [node|]; [|by split].
  apply node_reply_agree.
  assert (nodes_inv (delete k (cs_nodes t))) as Hd
    by (intros j item [_ Hj]%lookup_delete_Some; by apply (ci_nodes t Ht)).
  apply record_agree; [by apply withRevision_data, withNodes_data..|].
  by apply bumpRevision_agree, withNodes_agree.
Qed.

Lemma updateMigrationTask_agree pid tid f s t : (forall t, timelessTask (f t) = f (timelessTask t)) -> agree s t ->
  agreeing timelessTask (updateMigrationTask pid tid f s) (updateMigrationTask pid tid f t).
Proof.
  intros Hf Ha. unfold updateMigrationTask.
  pose proof (updateInPlans_timeless pid tid f (cs_plans s) Hf) as E.
  rewrite (ag_plans _ _ Ha), <- (updateInPlans_timeless pid tid f (cs_plans t) Hf) in E.
  destruct (updateInPlans pid tid f (cs_plans s)) as [[p1 t1]|], (updateInPlans pid tid f (cs_plans t)) as [[p2 t2]|];
    try discriminate E; [|by split].
  apply (inj Some), pair_equal_spec in E as [Ep Et]. cbn [fst snd] in Ep, Et.
  split; [by apply bumpRevision_agree, withPlans_agree|]. cbn. by rewrite Et.
Qed.

Lemma ClaimMigrationTask_agree now s t : agree s t ->
  agree (ClaimMigrationTask now s).1 (ClaimMigrationTask now t).1 /\
  (timelessTask <$> (ClaimMigrationTask now s).2) = (timelessTask <$> (ClaimMigrationTask now t).2).
Proof.
  intros Ha. unfold ClaimMigrationTask. pose proof (claimInPlans_timeless now (cs_plans s)) as E.
  rewrite (ag_plans _ _ Ha), <- claimInPlans_timeless in E.
  destruct (claimInPlans (cs_plans s) now) as [[p1 t1]|], (claimInPlans (cs_plans t) now) as [[p2 t2]|];
    try discriminate E; [|by split].
  apply (inj Some), pair_equal_spec in E as [Ep Et]. cbn [fst snd] in Ep, Et.
  split; [by apply bumpRevision_agree, withPlans_agree|]. cbn. by rewrite Et.
Qed.

(** ** Sweeps *)

(** A sweep changes the state of this node. *)
Definition swept (now : Time) (sa da : Duration) (item : string * NodeBody) : Prop :=
  0 < nb_lastSeenUnix item.2 /\ nb_state item.2 <> livenessState item.2 now sa da.

#[local] Instance swept_dec now sa da item : Decision (swept now sa da item).
Proof. unfold swept. apply _. Defined.

Lemma livenessStep_idle (o : RangeOrder) now sa da clock acc item : ~ swept now sa da item ->
  @livenessStep o now sa da clock acc item = acc.
Proof.
  destruct acc as [s changed], item as [k node]. unfold swept. cbn. intros Hn.
  destruct (Z.leb_spec (nb_lastSeenUnix node) 0); [done|]. case_bool_decide; [done|]. by destruct Hn.
Qed.

Lemma livenessStep_length (o : RangeOrder) now sa da clock acc item : swept now sa da item ->
  length (@livenessStep o now sa da clock acc item).2 = S (length acc.2).
Proof.
  destruct acc as [s changed], item as [k node]. unfold swept. cbn. intros [Hl Hn].
  destruct (Z.leb_spec (nb_lastSeenUnix node) 0); [lia|]. case_bool_decide; [done|]. cbn. rewrite length_app. cbn. lia.
Qed.

Lemma sweep_filter (o : RangeOrder) now sa da clock l acc :
  foldl (@livenessStep o now sa da clock) acc l = foldl (@livenessStep o now sa da clock) acc (filter (swept now sa da) l) /\
  length (foldl (@livenessStep o now sa da clock) acc l).2 =
    (length acc.2 + length (filter (swept now sa da) l))%nat.
Proof.
  revert acc. induction l as [|item l IH]; intros acc; [cbn; split; [done|lia]|]. cbn [foldl].
  destruct (decide (swept now sa da item)) as [Hm|Hm].
  - rewrite filter_cons_True by done. cbn [foldl length]. destruct (IH (livenessStep now sa da clock acc item)) as [-> ->].
    split; [done|]. rewrite livenessStep_length by done. lia.
  - rewrite filter_cons_False by done. rewrite livenessStep_idle by done. apply IH.
Qed.

Lemma AdvanceLiveness_agree now sa da c1 c2 s t : @control_inv o1 s -> @control_inv o2 t -> agree s t ->
  (length (@AdvanceLiveness o1 now sa da c1 s).2.2 <= 1)%nat ->
  agree (@AdvanceLiveness o1 now sa da c1 s).1 (@AdvanceLiveness o2 now sa da c2 t).1 /\
  (@AdvanceLiveness o1 now sa da c1 s).2 = (@AdvanceLiveness o2 now sa da c2 t).2.
Proof.
  intros Hs Ht Ha. unfold AdvanceLiveness.
  destruct (sweep_filter o1 now sa da c1 (@range_order o1 _ _ _ _ (cs_nodes s)) (s, [])) as [F1 L1].
  destruct (sweep_filter o2 now sa da c2 (@range_order o2 _ _ _ _ (cs_nodes t)) (t, [])) as [F2 _].
  rewrite F1 in *. rewrite F2. clear F1 F2.
  assert (filter (swept now sa da) (@range_order o1 _ _ _ _ (cs_nodes s)) ≡ₚ
    filter (swept now sa da) (@range_order o2 _ _ _ _ (cs_nodes t))) as Hp
    by (by rewrite (@range_perm o1), (@range_perm o2), (ag_nodes _ _ Ha)).
  assert (forall k node, (k, node) ∈ filter (swept now sa da) (@range_order o1 _ _ _ _ (cs_nodes s)) ->
    cs_nodes s !! k = Some node) as Hin by (intros k node [_ Hk]%list_elem_of_filter; by apply elem_of_range in Hk).
  destruct (filter _ (@range_order o1 _ _ _ _ _)) as [|[k node] [|? ?]] eqn:E1; cbn [length] in L1.
  - apply Permutation_nil in Hp as ->. cbn. intros _. split; [done|]. by rewrite (ag_revision _ _ Ha).
  - apply Permutation_singleton_l in Hp as <-. intros _. cbn [foldl livenessStep].
    specialize (Hin k node ltac:(set_solver)). destruct (ci_nodes s (ci_data s Hs) k node Hin) as (Ek & Hi & Had & Hst).
    destruct (Z.leb_spec (nb_lastSeenUnix node) 0); [cbn; split; [done|by rewrite (ag_revision _ _ Ha)]|].
    case_bool_decide; [cbn; split; [done|by rewrite (ag_revision _ _ Ha)]|].
    set (next := mkNode _ _ _ _). set (event := mkRebalance _ _ _ _). cbn [fst snd app length].
    assert (nodes_inv (<[k := next]> (cs_nodes t))) as Hni.
    { apply nodes_inv_insert; [apply Ht|done|done|done|]. cbn. unfold livenessState. repeat case_bool; auto. }
    assert (agree (@recordRebalanceEvent o1 event (c1 0%nat) (bumpRevision (withNodes (<[k := next]> (cs_nodes s)) s)))
      (@recordRebalanceEvent o2 event (c2 0%nat) (bumpRevision (withNodes (<[k := next]> (cs_nodes t)) t)))) as Hr.
    { rewrite (ag_nodes _ _ Ha).
      apply record_agree; [apply withRevision_data, withNodes_data; [apply Hs|done]
        |apply withRevision_data, withNodes_data; [apply Ht|done]|by apply bumpRevision_agree, withNodes_agree]. }
    split; [done|]. by rewrite (ag_revision _ _ Hr).
  - destruct (foldl _ _ _) as [s' changed] eqn:Ef. intros Hl. cbn in L1, Hl. lia.
Qed.
End Replicas.

(** ** The log *)

(** The proposer has put its clock into a command whose effect depends on it. *)
Definition stamped (c : Command) : Prop :=
  match cm_type c with
  | CommandRegisterNode | CommandHeartbeat | CommandClaimMigrationTask | CommandCutoverMigrationTask
  | CommandCompleteMigrationTask | CommandFailMigrationTask => 0 < cm_nowUnix c
  | _ => True
  end.

(** A replica applies a log, reading its own clock at each command. *)
Fixpoint replay `{!RangeOrder} (log : list (Command * (nat -> Time))) (s : ControlState)
    : ControlState * list (result controlError ApplyResult) :=
  match log with
  | [] => (s, [])
  | (c, clock) :: rest =>
      let '(s, reply) := Apply c clock s in
      let '(s, replies) := replay rest s in
      (s, reply :: replies)
  end.

(** Every sweep of the log finds at most one node to change, and the counters
    stay within 64 bits. *)
Fixpoint calm `{!RangeOrder} (log : list (Command * (nat -> Time))) (s : ControlState) : Prop :=
  match log with
  | [] => True
  | (c, clock) :: rest =>
      counters_room s /\
      match Apply c clock s with
      | (s, Ok (AppliedLiveness _ changed)) => (length changed <= 1)%nat /\ calm rest s
      | (s, _) => calm rest s
      end
  end.

Section Logs.
  Context (o1 o2 : RangeOrder).

Lemma applied_agree {A} (f : A -> A) k x y : agreeing (timelessReply f) x y ->
  (forall r a, timelessResult (k r a) = k r (f a)) -> agreeing timelessResult (applied x k) (applied y k).
Proof.
  destruct x as [s [[r a]|e]], y as [t [[r' a']|e']]; intros [Ha E] Hk; cbn in Ha, E; try discriminate E.
  - split; [done|]. cbn. injection E as -> Ea. by rewrite !Hk, Ea.
  - by injection E as ->.
Qed.

Lemma appliedTask_agree x y : agreeing timelessTask x y -> agreeing timelessResult (appliedTask x) (appliedTask y).
Proof.
  destruct x as [s [a|e]], y as [t [a'|e']]; intros [Ha E]; cbn in Ha, E; try discriminate E.
  - split; [done|]. assert (timelessTask a = timelessTask a') as Et by congruence. cbn. rewrite Et.
    by rewrite (f_equal mt_state Et : mt_state a = mt_state a').
  - by injection E as ->.
Qed.

Lemma commandTime_stamped c c1 c2 : 0 < cm_nowUnix c -> commandTime c c1 = commandTime c c2.
Proof. intros Hc. unfold commandTime. by rewrite (proj2 (Z.ltb_lt _ _) Hc). Qed.

Lemma Apply_agree c c1 c2 s t : @control_inv o1 s -> @control_inv o2 t -> agree s t -> stamped c ->
  (forall r changed, (@Apply o1 c c1 s).2 = Ok (AppliedLiveness r changed) -> (length changed <= 1)%nat) ->
  agreeing timelessResult (@Apply o1 c c1 s) (@Apply o2 c c2 t).
Proof.
  intros Hs Ht Ha Hst Hl. pose proof (ci_data s Hs) as Ds. pose proof (ci_data t Ht) as Dt.
  unfold Apply, stamped in *. destruct (cm_type c); try rewrite (commandTime_stamped c c1 c2 Hst) in *.
  - by apply (applied_agree timelessNamespace); [apply CreateNamespace_agree|].
  - by apply (applied_agree timelessSpace); [apply CreateSpace_agree|].
  - by apply (applied_agree timelessEntity); [apply CreateEntity_agree|].
  - by apply (applied_agree timelessNamespace); [apply BumpNamespaceVersion_agree|].
  - by apply (applied_agree timelessSpace); [apply BumpSpaceVersion_agree|].
  - unfold applyRegisterNode. rewrite (commandTime_stamped c c1 c2 Hst).
    by apply (applied_agree id); [apply registerNodeAt_agree|].
  - unfold applyHeartbeat. rewrite (commandTime_stamped c c1 c2 Hst).
    by apply (applied_agree id); [apply heartbeatAt_agree|].
  - by apply (applied_agree id); [apply removeNode_agree|].
  - unfold applyAdvanceNodeLiveness in *.
    pose proof (AdvanceLiveness_agree o1 o2 (timeUnix (cm_nowUnix c)) (millis (cm_suspectAfterMS c))
      (millis (cm_deadAfterMS c)) c1 c2 s t Hs Ht Ha) as Hag.
    destruct (@AdvanceLiveness o1 _ _ _ c1 s) as [s' [r changed]]. cbn [fst snd] in *.
    destruct Hag as [Hag Er]; [by eapply Hl|].
    destruct (@AdvanceLiveness o2 _ _ _ c2 t) as [t' [r' changed']]. cbn in *. by simplify_eq.
  - unfold applyClaimMigrationTask. rewrite (commandTime_stamped c c1 c2 Hst).
    destruct (ClaimMigrationTask_agree (commandTime c c2) s t Ha) as [Hag E].
    destruct (ClaimMigrationTask _ s) as [s' [x|]], (ClaimMigrationTask _ t) as [t' [y|]]; try discriminate E;
      (split; [done|]); [|done]. cbn in *. by rewrite (inj Some _ _ E).
  - unfold applyCutoverMigrationTask. rewrite (commandTime_stamped c c1 c2 Hst).
    by apply appliedTask_agree, updateMigrationTask_agree.
  - unfold applyCompleteMigrationTask. rewrite (commandTime_stamped c c1 c2 Hst).
    by apply appliedTask_agree, updateMigrationTask_agree.
  - unfold applyFailMigrationTask. rewrite (commandTime_stamped c c1 c2 Hst).
    by apply appliedTask_agree, updateMigrationTask_agree.
  - by split.
Qed.

Lemma routes_agree s t : @control_inv o1 s -> @control_inv o2 t -> agree s t ->
  @effectiveRoutes o1 s = @effectiveRoutes o2 t.
Proof.
  intros Hs Ht Ha. unfold effectiveRoutes.
  pose proof (base_routes_agree o1 o2 s t (ci_data s Hs) (ci_data t Ht) Ha) as Eb. unfold base_routes in Eb.
  rewrite Eb, <- (overrides_timeless _ (cs_plans s)), (ag_plans _ _ Ha). apply overrides_timeless.
Qed.

Lemma control_inv_order s : @control_inv o1 s -> @control_inv o2 s.
Proof.
  intros Hs. constructor; [apply Hs|]. rewrite (ci_routes s Hs). by apply base_routes_agree; [apply Hs..|].
Qed.

Lemma agree_room s t : agree s t -> counters_room s -> counters_room t.
Proof. intros [_ _ _ _ _ En _ _ Ee _ _]. unfold counters_room. by rewrite En, Ee. Qed.

(** One step of a calm log. *)
Lemma calm_cons c clock rest s : @calm o1 ((c, clock) :: rest) s -> counters_room s /\
  @calm o1 rest (@Apply o1 c clock s).1 /\
  (forall r changed, (@Apply o1 c clock s).2 = Ok (AppliedLiveness r changed) -> (length changed <= 1)%nat).
Proof.
  cbn. intros [Hr Hc]. split; [done|]. destruct (Apply c clock s) as [s' [[]|]]; cbn; try done.
  destruct Hc as [Hl Hc]. split; [done|]. by intros r changed' [= <- <-].
Qed.

(** C23: replicas agree.  Two replicas that agree up to creation stamps and apply
    the same log of stamped commands, each with its own clock and its own
    enumeration order of maps, agree again, return the same replies up to those
    stamps, and publish the same route table, as long as no liveness sweep
    changes two nodes at once. *)
Theorem replicas_agree (log1 log2 : list (Command * (nat -> Time))) (s t : ControlState) :
  @control_inv o1 s -> @control_inv o2 t -> agree s t ->
  log1.*1 = log2.*1 -> Forall stamped log1.*1 -> @calm o1 log1 s ->
  agree (@replay o1 log1 s).1 (@replay o2 log2 t).1 /\
  (timelessOutcome <$> (@replay o1 log1 s).2) = (timelessOutcome <$> (@replay o2 log2 t).2) /\
  @effectiveRoutes o1 (@replay o1 log1 s).1 = @effectiveRoutes o2 (@replay o2 log2 t).1.
Proof.
  revert log2 s t. induction log1 as [|[c c1] log1 IH]; intros [|[c' c2] log2] s t Hs Ht Ha E Hst Hc; try discriminate E.
  - cbn. split_and!; [done|done|by apply routes_agree].
  - injection E as <- E. apply Forall_cons in Hst as [Hc1 Hst]. apply calm_cons in Hc as (Hr & Hc & Hl).
    destruct (Apply_agree c c1 c2 s t Hs Ht Ha Hc1 Hl) as [Ha' Er].
    pose proof (@Apply_inv o1 c c1 s Hs Hr) as Hs'. pose proof (@Apply_inv o2 c c2 t Ht (agree_room _ _ Ha Hr)) as Ht'.
    cbn [replay]. destruct (@Apply o1 c c1 s) as [s1 r1], (@Apply o2 c c2 t) as [t1 r2]. cbn [fst snd] in *.
    specialize (IH log2 s1 t1 Hs' Ht' Ha' E Hst Hc).
    destruct (@replay o1 log1 s1) as [s2 rs1], (@replay o2 log2 t1) as [t2 rs2]. cbn [fst snd] in *.
    destruct IH as (IH1 & IH2 & IH3). split_and!; [done| |done]. rewrite !fmap_cons, IH2. f_equal. exact Er.
Qed.
End Logs.
