(* ===== verification/ControlExamples.v ===== *)
(** * The control plane's theorems on a concrete cluster

    A cluster of two nodes with one space, to which a third node registers: the
    theorems about the control plane are instantiated there, and two runs show
    where the code departs from what one expects of it. *)

From S2P Require Import Prelude.
From S2P Require Import GoStrings.
From S2P Require Import ControlApi.
From S2P Require Import Routing.
From S2P Require Import ControlRoutes.
From S2P Require Import ControlRoutesSpec.
From S2P Require Import Control.
From S2P Require Import ControlSpec.
From S2P Require Import ControlTheorems.
From S2P Require Import ControlOwners.
From S2P Require Import ControlReplicas.

Local Open Scope Z_scope.

#[local] Existing Instance canonical_order.

(** ** A cluster *)

Definition at5 : nat -> Time := fun i => timeUnix (1700000000 + Z.of_nat i).

Definition command (type : CommandType) (namespace space nodeID addr : string) (nowUnix : Z) : Command :=
  mkCommand type namespace space "" nodeID addr nowUnix 15000 30000 1 1 0 0 "" 0.

Definition run (c : Command) (s : ControlState) : ControlState := (Apply c at5 s).1.

Definition registerA := command CommandRegisterNode "" "" "a" "a:7000" 1700000000.
Definition registerB := command CommandRegisterNode "" "" "b" "b:7000" 1700000000.
Definition registerC := command CommandRegisterNode "" "" "c" "c:7000" 1700000010.
Definition register0 := command CommandRegisterNode "" "" "0" "d:7000" 1700000020.
Definition createShop := command CommandCreateNamespace " shop " "" "" "" 0.
Definition createCart := command CommandCreateSpace "shop" "cart" "" "" 0.

Definition cluster2 : ControlState :=
  run createCart (run createShop (run registerB (run registerA (NewControlState "demo")))).

Definition cluster3 : ControlState := run registerC cluster2.

Lemma cluster2_reachable : control_reachable "demo" cluster2.
Proof. unfold cluster2, run. do 4 (apply cr_apply; [|vm_compute; reflexivity]). apply cr_new. Qed.

Lemma cluster2_room : counters_room cluster2.
Proof. vm_compute. reflexivity. Qed.

Lemma cluster3_reachable : control_reachable "demo" cluster3.
Proof. apply cr_apply; [apply cluster2_reachable|apply cluster2_room]. Qed.

Lemma cluster2_inv : control_inv cluster2.
Proof. exact (reachable_inv _ _ cluster2_reachable). Qed.

Lemma cluster3_inv : control_inv cluster3.
Proof. exact (reachable_inv _ _ cluster3_reachable). Qed.

Lemma control_invariant_witness : control_inv cluster3 /\ cs_revision cluster3 = 5 /\ zlen (cs_plans cluster3) = 1.
Proof. split; [exact (control_invariant "demo" cluster3 cluster3_reachable)|vm_compute; auto]. Defined.

Lemma control_snapshot_roundtrip_witness :
  RestoreSnapshot (ExportSnapshot cluster3) (NewControlState "other") = (cluster3, None).
Proof. exact (control_snapshot_roundtrip "demo" cluster3 (NewControlState "other") cluster3_reachable). Defined.

Lemma cluster2_revision_room : revision_room cluster2.
Proof. vm_compute. split; [discriminate|reflexivity]. Qed.

(** A second registration of the same node changes no revision and no view. *)
Lemma revision_identifies_view_witness :
  client_view (run registerA cluster2) = client_view cluster2 /\
  effectiveRoutes (run registerA cluster2) = effectiveRoutes cluster2.
Proof.
  destruct (revision_identifies_view registerA at5 cluster2 (run registerA cluster2) (Apply registerA at5 cluster2).2
    cluster2_inv cluster2_revision_room (surjective_pairing _)) as (_ & H & _).
  apply H. vm_compute. reflexivity.
Defined.

(** The bindings in the opposite order. *)
Program Definition reverse_order : RangeOrder := {|
  range_order := fun K A _ _ m => reverse (map_to_list m)
|}.
Next Obligation. intros. apply reverse_Permutation. Qed.

(** A replica with a slow clock and another enumeration order. *)
Definition late : nat -> Time := fun i => timeUnix (1700000500 + Z.of_nat i).
Definition sweepLog : list Command :=
  [registerC; command CommandClaimMigrationTask "" "" "" "" 1700000012;
   command CommandHeartbeat "" "" "a" "a:7000" 1700000014; command CommandAdvanceNodeLiveness "" "" "" "" 1700000020].

Lemma replicas_agree_witness :
  @effectiveRoutes canonical_order (@replay canonical_order ((., at5) <$> sweepLog) cluster2).1 =
  @effectiveRoutes reverse_order (@replay reverse_order ((., late) <$> sweepLog) cluster2).1 /\
  cs_events (@replay canonical_order ((., at5) <$> sweepLog) cluster2).1 <>
    cs_events (@replay reverse_order ((., late) <$> sweepLog) cluster2).1.
Proof.
  split; [|vm_compute; discriminate].
  apply (replicas_agree canonical_order reverse_order ((., at5) <$> sweepLog) ((., late) <$> sweepLog) cluster2 cluster2
    cluster2_inv (control_inv_order _ _ _ cluster2_inv) (reflexivity cluster2));
    [reflexivity|repeat (apply List.Forall_cons; [vm_compute; done|]); apply List.Forall_nil|vm_compute; repeat split; try reflexivity; lia].
Defined.

Definition claim := command CommandClaimMigrationTask "" "" "" "" 1700000030.
Definition cutover := command CommandCutoverMigrationTask "" "" "" "" 1700000031.
Definition fail := command CommandFailMigrationTask "" "" "" "" 1700000032.

Definition afterCutover : ControlState := run cutover (run claim cluster3).
Definition afterFailure : ControlState := run fail afterCutover.

Definition firstPlan (s : ControlState) : MigrationPlanBody := hd (mkPlan 0 0 "" "" 0 []) (cs_plans s).
Definition firstTask (s : ControlState) : MigrationTaskBody := hd zeroTask (mp_tasks (firstPlan s)).

Lemma afterCutover_inv : control_inv afterCutover.
Proof.
  apply Apply_inv; [apply Apply_inv; [apply cluster3_inv|vm_compute; reflexivity]|vm_compute; reflexivity].
Qed.

Lemma afterFailure_run : control_run afterCutover afterFailure.
Proof.
  apply (run_apply afterCutover fail at5 afterFailure); [vm_compute; reflexivity|vm_compute; discriminate|].
  apply run_nil.
Qed.

(** A task that fails after its cut-over does not fall back to its source. *)
Lemma cutover_is_final_witness :
  mt_state (firstTask afterFailure) = "failed" /\ migrationTaskRoutesSource (firstTask afterFailure) = false.
Proof.
  destruct (cutover_is_final afterCutover afterFailure (firstPlan afterCutover) (firstPlan afterFailure) 0
    (firstTask afterCutover) (firstTask afterFailure) afterCutover_inv afterFailure_run) as [_ H];
    [apply list_elem_of_lookup_2 with 0%nat; vm_compute; reflexivity
    |apply list_elem_of_lookup_2 with 0%nat; vm_compute; reflexivity
    |vm_compute; reflexivity|vm_compute; reflexivity|vm_compute; reflexivity|].
  split; [vm_compute; reflexivity|]. apply H. vm_compute. discriminate.
Defined.

Lemma cluster_nodes_ok : nodes_ok (sortedNodes cluster2) /\ nodes_ok (sortedNodes cluster3).
Proof. split; split; vm_compute; first [reflexivity|discriminate]. Qed.

Lemma cart_catalogued : is_Some (cs_spaces cluster2 !! ("shop", "cart")) /\ is_Some (cs_spaces cluster3 !! ("shop", "cart")).
Proof. split; eexists; vm_compute; reflexivity. Qed.

(** Slot 23000 is assigned to [b] once the third node is there, and still leads
    to [a], which holds its data. *)
Lemma rebalance_keeps_owner_witness : exists before after,
  owners (effectiveRoutes cluster2) "shop" "cart" 23000 = [before] /\
  owners (effectiveRoutes cluster3) "shop" "cart" 23000 = [after] /\
  after.1 = before.1.
Proof.
  apply (rebalance_keeps_owner registerC at5 cluster2 "shop" "cart" 23000 cluster2_inv cluster2_room I
    (proj1 cart_catalogued)); [split; vm_compute; discriminate|vm_compute; reflexivity
    |apply cluster_nodes_ok|apply cluster_nodes_ok].
Defined.

Lemma clients_reach_owner_witness : exists r,
  Select (effectiveRoutes cluster3) "shop" "cart" "alice" = Some r /\
  owner_of r = default (base_owner cluster3 (VSlotFor "shop" "cart" "alice"))
    (pending_source (cs_plans cluster3) "shop" "cart" (VSlotFor "shop" "cart" "alice")).
Proof.
  apply (clients_reach_owner cluster3 "shop" "cart" "alice" cluster3_inv (proj2 cluster_nodes_ok) (proj2 cart_catalogued)).
  apply (Forall_forall (fun r => ~ (rt_start r = 0 /\ rt_end r = 0))). intros r Hr [H1 H2].
  assert (forallb (fun r => negb ((rt_start r =? 0) && (rt_end r =? 0))) (effectiveRoutes cluster3) = true) as Hb
    by (vm_compute; reflexivity).
  rewrite forallb_forall in Hb. apply list_elem_of_In, Hb in Hr. by rewrite H1, H2 in Hr.
Defined.

(** ** Divergences *)

(** A second rebalance before the first plan has run moves a slot to a node that
    never received its data: the slot leads to [a], which holds its keys; after
    another node registers it leads to [b], although no task has been claimed. *)
Theorem pending_chain_moves_owner :
  owners (effectiveRoutes cluster3) "shop" "cart" 23000 = [("a", "a:7000")] /\
  owners (effectiveRoutes (run register0 cluster3)) "shop" "cart" 23000 = [("b", "b:7000")] /\
  forallb (fun t => bool_decide (mt_state t = "planned")) (cs_plans (run register0 cluster3) ≫= mp_tasks) = true.
Proof. vm_compute. auto. Qed.

(** A liveness sweep that finds two dead nodes leaves a different state on a
    replica that enumerates its nodes in another order. *)
Theorem liveness_depends_on_order :
  let sweep := command CommandAdvanceNodeLiveness "" "" "" "" 1700000100 in
  ev_nodeID <$> cs_events (@Apply canonical_order sweep at5 cluster2).1
  <> ev_nodeID <$> cs_events (@Apply reverse_order sweep at5 cluster2).1.
Proof. vm_compute. discriminate. Qed.
