(* ===== verification/ControlCodec.v ===== *)
(** * The JSON of the control plane

    The struct tags of controlapi/types.go and of the replicated commands, their
    results and their snapshots, as codecs of [GoJson], with the values each
    carries faithfully: strings in UTF-8 and numbers of their width. *)

From S2P Require Import Prelude.
From S2P Require Import GoStrings.
From S2P Require Import GoUnicode.
From S2P Require Import GoJson.
From S2P Require Import GoJsonSpec.
From S2P Require Import GoJsonTypes.
From S2P Require Import ControlApi.
From S2P Require Import Control.

Local Open Scope Z_scope.

(** ** Bodies *)

(** src: controlapi/types.go NodeBody *)
Definition nodeCodec : codec NodeBody :=
  structCodec
    [mkField "node_id" stringCodec never; mkField "addr" stringCodec never; mkField "state" stringCodec never;
     mkField "last_seen_unix" intCodec never]
    (fun n => (nb_nodeID n, (nb_addr n, (nb_state n, (nb_lastSeenUnix n, tt)))))
    (fun '(a, (b, (c, (d, _)))) => mkNode a b c d).

(** src: controlapi/types.go NamespaceBody *)
Definition namespaceCodec : codec NamespaceBody :=
  structCodec
    [mkField "namespace" stringCodec never; mkField "version" uint64Codec never;
     mkField "created_at_unix" intCodec never]
    (fun n => (ns_namespace n, (ns_version n, (ns_createdAtUnix n, tt))))
    (fun '(a, (b, (c, _))) => mkNamespace a b c).

(** src: controlapi/types.go SpaceBody *)
Definition spaceCodec : codec SpaceBody :=
  structCodec
    [mkField "namespace" stringCodec never; mkField "space" stringCodec never;
     mkField "version" uint64Codec never; mkField "created_at_unix" intCodec never]
    (fun s => (sp_namespace s, (sp_space s, (sp_version s, (sp_createdAtUnix s, tt)))))
    (fun '(a, (b, (c, (d, _)))) => mkSpace a b c d).

(** src: controlapi/types.go EntityBody *)
Definition entityCodec : codec EntityBody :=
  structCodec
    [mkField "namespace" stringCodec never; mkField "space" stringCodec never;
     mkField "entity" stringCodec never; mkField "created_at_unix" intCodec never]
    (fun e => (en_namespace e, (en_space e, (en_entity e, (en_createdAtUnix e, tt)))))
    (fun '(a, (b, (c, (d, _)))) => mkEntity a b c d).

(** src: controlapi/types.go RebalanceEventBody *)
Definition eventCodec : codec RebalanceEventBody :=
  structCodec
    [mkField "id" uint64Codec never; mkField "revision" uint64Codec never; mkField "type" stringCodec never;
     mkField "reason" stringCodec never; mkField "node_id" stringCodec emptyString;
     mkField "addr" stringCodec emptyString; mkField "state" stringCodec emptyString;
     mkField "namespace" stringCodec emptyString; mkField "space" stringCodec emptyString;
     mkField "route_count" intCodec never; mkField "created_at_unix" intCodec never]
    (fun e => (ev_id e, (ev_revision e, (ev_type e, (ev_reason e, (ev_nodeID e, (ev_addr e, (ev_state e,
      (ev_namespace e, (ev_space e, (ev_routeCount e, (ev_createdAtUnix e, tt))))))))))))
    (fun '(a, (b, (c, (d, (e, (f, (g, (h, (i, (j, (k, _))))))))))) => mkEvent a b c d e f g h i j k).

(** src: controlapi/types.go MigrationTaskBody *)
Definition taskCodec : codec MigrationTaskBody :=
  structCodec
    [mkField "plan_id" uint64Codec never; mkField "task_id" uint64Codec never;
     mkField "revision" uint64Codec never; mkField "namespace" stringCodec emptyString;
     mkField "space" stringCodec emptyString; mkField "vslot_start" uint32Codec never;
     mkField "vslot_end" uint32Codec never; mkField "source_node_id" stringCodec never;
     mkField "source_addr" stringCodec never; mkField "target_node_id" stringCodec never;
     mkField "target_addr" stringCodec never; mkField "state" stringCodec never;
     mkField "created_at_unix" intCodec never; mkField "started_at_unix" intCodec emptyInt;
     mkField "cutover_at_unix" intCodec emptyInt; mkField "finished_at_unix" intCodec emptyInt;
     mkField "imported_entries" uint64Codec emptyInt; mkField "deleted_entries" uint64Codec emptyInt;
     mkField "attempts" uint64Codec emptyInt; mkField "next_retry_unix" intCodec emptyInt;
     mkField "error" stringCodec emptyString]
    (fun t => (mt_planID t, (mt_taskID t, (mt_revision t, (mt_namespace t, (mt_space t, (mt_start t, (mt_end t,
      (mt_sourceNodeID t, (mt_sourceAddr t, (mt_targetNodeID t, (mt_targetAddr t, (mt_state t,
      (mt_createdAtUnix t, (mt_startedAtUnix t, (mt_cutoverAtUnix t, (mt_finishedAtUnix t,
      (mt_importedEntries t, (mt_deletedEntries t, (mt_attempts t, (mt_nextRetryUnix t, (mt_error t, tt))))))))))))))))))))))
    (fun '(a, (b, (c, (d, (e, (f, (g, (h, (i, (j, (k, (l, (m, (n, (o, (p, (q, (r, (s, (t, (u, _))))))))))))))))))))) =>
      mkTask a b c d e f g h i j k l m n o p q r s t u).

(** src: controlapi/types.go MigrationPlanBody *)
Definition planCodec : codec MigrationPlanBody :=
  structCodec
    [mkField "id" uint64Codec never; mkField "revision" uint64Codec never; mkField "reason" stringCodec never;
     mkField "state" stringCodec never; mkField "created_at_unix" intCodec never;
     mkField "tasks" (sliceCodec taskCodec) never]
    (fun p => (mp_id p, (mp_revision p, (mp_reason p, (mp_state p, (mp_createdAtUnix p, (mp_tasks p, tt)))))))
    (fun '(a, (b, (c, (d, (e, (f, _)))))) => mkPlan a b c d e f).

(** src: control/snapshot.go Snapshot *)
Definition snapshotCodec : codec ControlSnapshot :=
  structCodec
    [mkField "cluster_id" stringCodec never; mkField "revision" uint64Codec never; mkField "mode" stringCodec never;
     mkField "namespaces" (sliceCodec namespaceCodec) emptySlice; mkField "spaces" (sliceCodec spaceCodec) emptySlice;
     mkField "entities" (sliceCodec entityCodec) emptySlice; mkField "nodes" (sliceCodec nodeCodec) emptySlice;
     mkField "events" (sliceCodec eventCodec) emptySlice; mkField "plans" (sliceCodec planCodec) emptySlice;
     mkField "next_event" uint64Codec emptyInt; mkField "next_plan" uint64Codec emptyInt]
    (fun s => (sn_clusterID s, (sn_revision s, (sn_mode s, (sn_namespaces s, (sn_spaces s, (sn_entities s,
      (sn_nodes s, (sn_events s, (sn_plans s, (sn_nextEvent s, (sn_nextPlan s, tt))))))))))))
    (fun '(a, (b, (c, (d, (e, (f, (g, (h, (i, (j, (k, _))))))))))) => mkSnapshot a b c d e f g h i j k).

(** ** Commands *)

(** src: control/fsm.go CommandType 11-27 *)
Definition commandNames : list (CommandType * string) :=
  [(CommandCreateNamespace, "create_namespace"); (CommandCreateSpace, "create_space");
   (CommandCreateEntity, "create_entity"); (CommandBumpNamespace, "bump_namespace");
   (CommandBumpSpace, "bump_space"); (CommandRegisterNode, "register_node"); (CommandHeartbeat, "heartbeat");
   (CommandRemoveNode, "remove_node"); (CommandAdvanceNodeLiveness, "advance_node_liveness");
   (CommandClaimMigrationTask, "claim_migration_task"); (CommandCutoverMigrationTask, "cutover_migration_task");
   (CommandCompleteMigrationTask, "complete_migration_task"); (CommandFailMigrationTask, "fail_migration_task")].

#[global] Instance CommandType_eq_dec : EqDecision CommandType.
Proof. solve_decision. Defined.

(** The text of a command type, and the type of a text. *)
Definition commandName (t : CommandType) : string :=
  match t with
  | CommandOther name => name
  | _ => match list_find (fun p => p.1 = t) commandNames with Some (_, (_, name)) => name | None => "" end
  end.

Definition commandOf (name : string) : CommandType :=
  match list_find (fun p => p.2 = name) commandNames with Some (_, (t, _)) => t | None => CommandOther name end.

Definition commandTypeCodec : codec CommandType :=
  mkCodec (fun t => JString (codes (commandName t)))
    (fun v old => match v with JNull => Some old | JString s => Some (commandOf (uncodes s)) | _ => None end)
    (CommandOther "").

(** src: control/fsm.go Command *)
Definition commandCodec : codec Command :=
  structCodec
    [mkField "type" commandTypeCodec never; mkField "namespace" stringCodec emptyString;
     mkField "space" stringCodec emptyString; mkField "entity" stringCodec emptyString;
     mkField "node_id" stringCodec emptyString; mkField "addr" stringCodec emptyString;
     mkField "now_unix" intCodec emptyInt; mkField "suspect_after_ms" intCodec emptyInt;
     mkField "dead_after_ms" intCodec emptyInt; mkField "plan_id" uint64Codec emptyInt;
     mkField "task_id" uint64Codec emptyInt; mkField "imported_entries" uint64Codec emptyInt;
     mkField "deleted_entries" uint64Codec emptyInt; mkField "migration_error" stringCodec emptyString;
     mkField "retry_after_ms" intCodec emptyInt]
    (fun c => (cm_type c, (cm_namespace c, (cm_space c, (cm_entity c, (cm_nodeID c, (cm_addr c, (cm_nowUnix c,
      (cm_suspectAfterMS c, (cm_deadAfterMS c, (cm_planID c, (cm_taskID c, (cm_importedEntries c,
      (cm_deletedEntries c, (cm_migrationError c, (cm_retryAfterMS c, tt))))))))))))))))
    (fun '(a, (b, (c, (d, (e, (f, (g, (h, (i, (j, (k, (l, (m, (n, (o, _))))))))))))))) =>
      mkCommand a b c d e f g h i j k l m n o).

(** ** Results *)

(** A response: a revision and an item. *)
Definition responseCodec {A} (name : string) (item : codec A) : codec (Z * A) :=
  structCodec [mkField "revision" uint64Codec never; mkField name item never]
    (fun r => (r.1, (r.2, tt))) (fun '(a, (b, _)) => (a, b)).

(** src: control/state.go LivenessResult *)
Definition livenessCodec : codec (Z * list NodeBody) :=
  structCodec [mkField "Revision" uint64Codec never; mkField "Changed" (sliceCodec nodeCodec) never]
    (fun r => (r.1, (r.2, tt))) (fun '(a, (b, _)) => (a, b)).

(** src: control/migration_state.go MigrationTaskResult *)
Definition taskResultCodec : codec (bool * MigrationTaskBody) :=
  structCodec [mkField "claimed" boolCodec never; mkField "task" taskCodec never]
    (fun r => (r.1, (r.2, tt))) (fun '(a, (b, _)) => (a, b)).

(** The struct of all the results, of which a command sets one field.
    src: control/fsm.go ApplyResult *)
Record ApplyFields := mkApplied {
  af_createNamespace : Z * NamespaceBody;
  af_createSpace : Z * SpaceBody;
  af_createEntity : Z * EntityBody;
  af_bumpNamespace : Z * NamespaceBody;
  af_bumpSpace : Z * SpaceBody;
  af_registerNode : Z * NodeBody;
  af_heartbeat : Z * NodeBody;
  af_removeNode : Z * NodeBody;
  af_liveness : Z * list NodeBody;
  af_task : bool * MigrationTaskBody
}.

Definition zeroNamespace : NamespaceBody := mkNamespace "" 0 0.
Definition zeroEntity : EntityBody := mkEntity "" "" "" 0.

Definition zeroApplied : ApplyFields :=
  mkApplied (0, zeroNamespace) (0, zeroSpace) (0, zeroEntity) (0, zeroNamespace) (0, zeroSpace) (0, zeroNode)
    (0, zeroNode) (0, zeroNode) (0, []) (false, zeroTask).

(** src: control/fsm.go ApplyResult *)
Definition appliedCodec : codec ApplyFields :=
  structCodec
    [mkField "create_namespace" (responseCodec "namespace" namespaceCodec) never;
     mkField "create_space" (responseCodec "space" spaceCodec) never;
     mkField "create_entity" (responseCodec "entity" entityCodec) never;
     mkField "bump_namespace" (responseCodec "namespace" namespaceCodec) never;
     mkField "bump_space" (responseCodec "space" spaceCodec) never;
     mkField "register_node" (responseCodec "node" nodeCodec) never;
     mkField "heartbeat" (responseCodec "node" nodeCodec) never;
     mkField "remove_node" (responseCodec "node" nodeCodec) never;
     mkField "liveness" livenessCodec never; mkField "migration_task" taskResultCodec never]
    (fun r => (af_createNamespace r, (af_createSpace r, (af_createEntity r, (af_bumpNamespace r, (af_bumpSpace r,
      (af_registerNode r, (af_heartbeat r, (af_removeNode r, (af_liveness r, (af_task r, tt)))))))))))
    (fun '(a, (b, (c, (d, (e, (f, (g, (h, (i, (j, _)))))))))) => mkApplied a b c d e f g h i j).

(** src: control/dragonboat_state_machine.go dragonboatApplyError *)
Record dragonboatApplyError := mkApplyError { ae_message : string; ae_code : string }.

(** src: control/dragonboat_state_machine.go dragonboatApplyEnvelope *)
Record dragonboatApplyEnvelope := mkEnvelope {
  en_result : ApplyFields;
  en_error : option dragonboatApplyError
}.

(** src: control/dragonboat_state_machine.go dragonboatApplyError *)
Definition applyErrorCodec : codec dragonboatApplyError :=
  structCodec [mkField "message" stringCodec never; mkField "code" stringCodec emptyString]
    (fun e => (ae_message e, (ae_code e, tt))) (fun '(a, (b, _)) => mkApplyError a b).

(** src: control/dragonboat_state_machine.go dragonboatApplyEnvelope *)
Definition envelopeCodec : codec dragonboatApplyEnvelope :=
  structCodec [mkField "result" appliedCodec never; mkField "error" (pointerCodec applyErrorCodec) nilPointer]
    (fun e => (en_result e, (en_error e, tt))) (fun '(a, (b, _)) => mkEnvelope a b).

(** ** The values they carry *)

Definition node_wire (n : NodeBody) : Prop :=
  utf8 (nb_nodeID n) /\ utf8 (nb_addr n) /\ utf8 (nb_state n) /\ is_s64 (nb_lastSeenUnix n).

Definition namespace_wire (n : NamespaceBody) : Prop :=
  utf8 (ns_namespace n) /\ is_u64 (ns_version n) /\ is_s64 (ns_createdAtUnix n).

Definition space_wire (s : SpaceBody) : Prop :=
  utf8 (sp_namespace s) /\ utf8 (sp_space s) /\ is_u64 (sp_version s) /\ is_s64 (sp_createdAtUnix s).

Definition entity_wire (e : EntityBody) : Prop :=
  utf8 (en_namespace e) /\ utf8 (en_space e) /\ utf8 (en_entity e) /\ is_s64 (en_createdAtUnix e).

Definition event_wire (e : RebalanceEventBody) : Prop :=
  is_u64 (ev_id e) /\ is_u64 (ev_revision e) /\ utf8 (ev_type e) /\ utf8 (ev_reason e) /\ utf8 (ev_nodeID e) /\
  utf8 (ev_addr e) /\ utf8 (ev_state e) /\ utf8 (ev_namespace e) /\ utf8 (ev_space e) /\ is_s64 (ev_routeCount e) /\
  is_s64 (ev_createdAtUnix e).

Definition task_wire (t : MigrationTaskBody) : Prop :=
  is_u64 (mt_planID t) /\ is_u64 (mt_taskID t) /\ is_u64 (mt_revision t) /\ utf8 (mt_namespace t) /\ utf8 (mt_space t) /\
  is_u32 (mt_start t) /\ is_u32 (mt_end t) /\ utf8 (mt_sourceNodeID t) /\ utf8 (mt_sourceAddr t) /\
  utf8 (mt_targetNodeID t) /\ utf8 (mt_targetAddr t) /\ utf8 (mt_state t) /\ is_s64 (mt_createdAtUnix t) /\
  is_s64 (mt_startedAtUnix t) /\ is_s64 (mt_cutoverAtUnix t) /\ is_s64 (mt_finishedAtUnix t) /\
  is_u64 (mt_importedEntries t) /\ is_u64 (mt_deletedEntries t) /\ is_u64 (mt_attempts t) /\
  is_s64 (mt_nextRetryUnix t) /\ utf8 (mt_error t).

Definition plan_wire (p : MigrationPlanBody) : Prop :=
  is_u64 (mp_id p) /\ is_u64 (mp_revision p) /\ utf8 (mp_reason p) /\ utf8 (mp_state p) /\ is_s64 (mp_createdAtUnix p) /\
  Forall task_wire (mp_tasks p).

Definition snapshot_wire (s : ControlSnapshot) : Prop :=
  utf8 (sn_clusterID s) /\ is_u64 (sn_revision s) /\ utf8 (sn_mode s) /\ Forall namespace_wire (sn_namespaces s) /\
  Forall space_wire (sn_spaces s) /\ Forall entity_wire (sn_entities s) /\ Forall node_wire (sn_nodes s) /\
  Forall event_wire (sn_events s) /\ Forall plan_wire (sn_plans s) /\ is_u64 (sn_nextEvent s) /\ is_u64 (sn_nextPlan s).

(** A type named by one of the constants. *)
Definition known (t : CommandType) : Prop := match t with CommandOther _ => False | _ => True end.

Definition command_wire (c : Command) : Prop :=
  known (cm_type c) /\ utf8 (cm_namespace c) /\ utf8 (cm_space c) /\ utf8 (cm_entity c) /\ utf8 (cm_nodeID c) /\
  utf8 (cm_addr c) /\ is_s64 (cm_nowUnix c) /\ is_s64 (cm_suspectAfterMS c) /\ is_s64 (cm_deadAfterMS c) /\
  is_u64 (cm_planID c) /\ is_u64 (cm_taskID c) /\ is_u64 (cm_importedEntries c) /\ is_u64 (cm_deletedEntries c) /\
  utf8 (cm_migrationError c) /\ is_s64 (cm_retryAfterMS c).

Definition response_wire {A} (ok : A -> Prop) (r : Z * A) : Prop := is_u64 r.1 /\ ok r.2.

Definition applied_wire (r : ApplyFields) : Prop :=
  response_wire namespace_wire (af_createNamespace r) /\ response_wire space_wire (af_createSpace r) /\
  response_wire entity_wire (af_createEntity r) /\ response_wire namespace_wire (af_bumpNamespace r) /\
  response_wire space_wire (af_bumpSpace r) /\ response_wire node_wire (af_registerNode r) /\
  response_wire node_wire (af_heartbeat r) /\ response_wire node_wire (af_removeNode r) /\
  response_wire (Forall node_wire) (af_liveness r) /\ task_wire (af_task r).2.

Definition envelope_wire (e : dragonboatApplyEnvelope) : Prop :=
  applied_wire (en_result e) /\ match en_error e with Some x => utf8 (ae_message x) /\ utf8 (ae_code x) | None => True end.

(** ** Laws *)

Lemma node_lawful n : lawful nodeCodec (S n) node_wire.
Proof. struct_codec. Qed.

Lemma namespace_lawful n : lawful namespaceCodec (S n) namespace_wire.
Proof. struct_codec. Qed.

Lemma space_lawful n : lawful spaceCodec (S n) space_wire.
Proof. struct_codec. Qed.

Lemma entity_lawful n : lawful entityCodec (S n) entity_wire.
Proof. struct_codec. Qed.

Lemma event_lawful n : lawful eventCodec (S n) event_wire.
Proof. struct_codec. Qed.

Lemma task_lawful n : lawful taskCodec (S n) task_wire.
Proof. struct_codec. Qed.

#[export] Hint Resolve slice_lawful node_lawful namespace_lawful space_lawful entity_lawful event_lawful task_lawful : codec.

Lemma plan_lawful n : lawful planCodec (S (S (S n))) plan_wire.
Proof. struct_codec. Qed.

#[export] Hint Resolve plan_lawful : codec.

Lemma snapshot_lawful n : lawful snapshotCodec (S (S (S (S (S n))))) snapshot_wire.
Proof. struct_codec. Qed.

Lemma commandType_lawful n : lawful commandTypeCodec n known.
Proof. split; intros [] Ht; done. Qed.

Lemma response_lawful {A} name (item : codec A) n ok :
  well_named [mkField "revision" uint64Codec never; mkField name item never] = true ->
  lawful item n ok -> lawful (responseCodec name item) (S n) (response_wire ok).
Proof.
  intros Hn Hi. apply struct_lawful; [exact Hn|by intros (a & b & [])|by intros []|].
  intros r [Hr Ho]. cbn [fields_ok fst snd fd_codec fd_empty].
  repeat (split; [eapply field_ok; [solve [eauto with codec]|eassumption|done]|]). exact I.
Qed.

Lemma liveness_lawful n : lawful livenessCodec (S (S (S n))) (response_wire (Forall node_wire)).
Proof. struct_codec. Qed.

Lemma taskResult_lawful n : lawful taskResultCodec (S (S n)) (fun r => task_wire r.2).
Proof.
  apply struct_lawful; [done|by intros (a & b & [])|by intros []|]. intros r Hr. cbn [fields_ok fst snd fd_codec fd_empty].
  repeat (split; [eapply field_ok; [solve [eauto with codec]|first [eassumption|done]|done]|]). exact I.
Qed.

#[export] Hint Resolve commandType_lawful liveness_lawful taskResult_lawful : codec.
#[export] Hint Extern 2 (lawful (responseCodec _ _) _ _) =>
  eapply response_lawful; [vm_compute; reflexivity|] : codec.

Lemma command_lawful n : lawful commandCodec (S n) command_wire.
Proof. struct_codec. Qed.

Lemma applied_lawful n : lawful appliedCodec (S (S (S (S n)))) applied_wire.
Proof. struct_codec. Qed.

Lemma applyError_lawful n : lawful applyErrorCodec (S n) (fun x => utf8 (ae_message x) /\ utf8 (ae_code x)).
Proof. struct_codec. Qed.

Lemma error_pointer_lawful n : lawful (pointerCodec applyErrorCodec) (S n)
  (fun p => match p with Some x => utf8 (ae_message x) /\ utf8 (ae_code x) | None => True end).
Proof. apply pointer_lawful; [apply applyError_lawful|done]. Qed.

#[export] Hint Resolve applied_lawful error_pointer_lawful : codec.

Lemma envelope_lawful n : lawful envelopeCodec (S (S (S (S (S n))))) envelope_wire.
Proof. struct_codec. Qed.

(** ** Round trips *)

Lemma command_roundtrip c : command_wire c -> Unmarshal commandCodec (Marshal commandCodec c) = Some c.
Proof.
  apply Unmarshal_Marshal. eapply (lawful_le _ 1); [apply nesting_room; lia|]. apply command_lawful.
Qed.

Lemma envelope_roundtrip e : envelope_wire e -> Unmarshal envelopeCodec (Marshal envelopeCodec e) = Some e.
Proof.
  apply Unmarshal_Marshal. eapply (lawful_le _ 5); [apply nesting_room; lia|]. apply envelope_lawful.
Qed.

Lemma snapshot_roundtrip s : snapshot_wire s ->
  Unmarshal snapshotCodec (MarshalIndent snapshotCodec s) = Some s /\ Decode snapshotCodec (Encode snapshotCodec s) = Some s.
Proof.
  assert (lawful snapshotCodec maxNestingDepth snapshot_wire) as Hl
    by (eapply (lawful_le _ 5); [apply nesting_room; lia|]; apply snapshot_lawful).
  intros Hs. split; [by eapply Unmarshal_MarshalIndent|by eapply Decode_Encode].
Qed.
