(* ===== verification/ControlWire.v ===== *)
(** * What the control state may hold is what JSON carries

    [state_wire]: the strings of a state are UTF-8 and its numbers have their
    width.  Every command that came through JSON keeps it, so the texts of
    snapshots and replies are read back exactly. *)

From S2P Require Import Prelude.
From S2P Require Import GoStrings.
From S2P Require Import GoUnicode.
From S2P Require Import GoJson.
From S2P Require Import GoJsonSpec.
From S2P Require Import ControlApi.
From S2P Require Import ControlRoutes.
From S2P Require Import ControlRoutesSpec.
From S2P Require Import Control.
From S2P Require Import ControlSpec.
From S2P Require Import ControlCodec.

Local Open Scope Z_scope.
Local Open Scope nespa_scope.

(** ** Trimmed strings *)

(** A byte that starts a rune. *)
Definition starts_rune (b : Z) : Prop := ~ (0x80 <= b <= 0xBF).

Lemma decodeRune_continues b rest r more : decodeRune b rest = (r, S more) ->
  Forall (fun c => 0x80 <= c <= 0xBF) (take (S more) rest).
Proof.
  unfold decodeRune, inRange, continuation. destruct (b <? 0x80) eqn:Eb; [done|].
  assert (0x80 <= (secondByte b).1 /\ (secondByte b).2 <= 0xBF) as Hsb by (unfold secondByte; repeat case_bool; cbn; lia).
  destruct (secondByte b) as [low high]. cbn in Hsb.
  destruct rest as [|c [|d [|e rest]]];
    repeat match goal with
    | |- (if ?x then _ else _) = _ -> _ => destruct x eqn:?
    | |- (_, _) = (_, _) -> _ => intros [= <- <-]
    end; try done; unfold inRange in *; bool_to_prop; cbn [take];
    repeat (apply List.Forall_cons; [lia|]); apply List.Forall_nil.
Qed.

(** A valid text cut before a byte that starts a rune is valid. *)
Lemma utf8Valid_before a x e : starts_rune x -> utf8Valid 0 (a ++ x :: e) = true -> utf8Valid 0 a = true.
Proof.
  intros Hx. remember (length a) as n eqn:En. revert a En. induction (lt_wf n) as [n _ IH].
  intros [|b rest] -> Hv; [done|]. cbn [app utf8Valid] in *. destruct (b <? 0x80) eqn:Eb.
  - apply andb_true_iff in Hv as [-> Hv]. eapply (IH (length rest)); [cbn; lia|done|exact Hv].
  - destruct (decodeRune b (rest ++ x :: e)) as [r [|more]] eqn:Ed; [done|].
    pose proof (decodeRune_continues _ _ _ _ Ed) as Hc. destruct (decodeRune_long _ _ _ _ Ed) as [_ Hd].
    assert (S more <= length rest)%nat as Hl.
    { destruct (Nat.le_gt_cases (S more) (length rest)) as [|Hgt]; [done|]. exfalso. apply Hx.
      rewrite Forall_lookup in Hc. apply (Hc (length rest)). rewrite lookup_take_lt by lia.
      rewrite lookup_app_r, Nat.sub_diag by lia. done. }
    rewrite take_app_le in Hd by lia. specialize (Hd (drop (S more) rest)). rewrite take_drop in Hd. rewrite Hd.
    assert (utf8Valid 0 (drop (S more) rest ++ x :: e) = true) as Hv' by
      (rewrite <- drop_app_le by lia; by apply utf8Valid_drop).
    assert (utf8Valid 0 (drop (S more) rest) = true) as Hrest
      by (apply (IH (length (drop (S more) rest))); [rewrite length_drop; cbn; lia|done|done]).
    clear -Hrest. revert Hrest. generalize (S more). induction rest as [|c rest IH]; intros [|k]; try done. cbn. apply IH.
Qed.

Lemma strip_prefix_eq p s r : strip_prefix p s = Some r -> s = p ++ r.
Proof.
  revert s. induction p as [|a p IH]; intros s H; cbn in H; [by injection H as ->|].
  destruct s as [|b s]; [done|]. destruct (a =? b) eqn:E; [|done]. apply Z.eqb_eq in E as ->. by rewrite (IH s H).
Qed.

Lemma strip_space_enc encs s r : strip_space encs s = Some r -> exists enc, enc ∈ encs /\ s = enc ++ r.
Proof.
  induction encs as [|enc encs IH]; cbn; [done|]. destruct (strip_prefix enc s) eqn:E.
  - intros [= <-]. exists enc. split; [set_solver|by apply strip_prefix_eq].
  - intros H. destruct (IH H) as (enc' & Hin & ->). exists enc'. split; [set_solver|done].
Qed.

Lemma trim_left_valid fuel s : utf8Valid 0 s = true -> utf8Valid 0 (trim_left fuel space_encodings s) = true.
Proof.
  revert s. induction fuel as [|fuel IH]; intros s Hv; cbn [trim_left]; [done|].
  destruct (strip_space _ s) as [r|] eqn:E; [|done]. apply IH. apply strip_space_enc in E as (enc & Hin & ->).
  clear -Hin Hv. cbn in Hin. repeat (apply elem_of_cons in Hin as [->|Hin]; [exact Hv|]). by apply elem_of_nil in Hin.
Qed.

Lemma space_starts enc : enc ∈ space_encodings -> exists x e, enc = x :: e /\ starts_rune x.
Proof.
  intros Hin. cbn in Hin.
  repeat (apply elem_of_cons in Hin as [->|Hin]; [eexists _, _; split; [reflexivity|unfold starts_rune; lia]|]).
  by apply elem_of_nil in Hin.
Qed.

Lemma trim_right_valid fuel s : utf8Valid 0 s = true ->
  utf8Valid 0 (reverse (trim_left fuel (reverse <$> space_encodings) (reverse s))) = true.
Proof.
  revert s. induction fuel as [|fuel IH]; intros s Hv; cbn [trim_left]; [by rewrite reverse_involutive|].
  destruct (strip_space _ (reverse s)) as [r|] eqn:E; [|by rewrite reverse_involutive].
  apply strip_space_enc in E as (enc & Hin & E). apply list_elem_of_fmap in Hin as (enc' & -> & Hin).
  rewrite <- (reverse_involutive r). apply IH. destruct (space_starts enc' Hin) as (x & e & -> & Hx).
  apply (utf8Valid_before _ x e Hx). rewrite <- (reverse_involutive s), E in Hv. by rewrite reverse_app, reverse_involutive in Hv.
Qed.

Lemma trim_bytes_valid s : utf8Valid 0 s = true -> utf8Valid 0 (trim_bytes s) = true.
Proof. intros Hv. apply trim_right_valid. by apply trim_left_valid. Qed.

(** ** Strings the control state makes *)

Lemma utf8_TrimSpace s : utf8 s -> utf8 (TrimSpace s).
Proof.
  unfold utf8, TrimSpace, codes. intros Hv. apply trim_bytes_valid in Hv. rewrite str_bytes_str.
  rewrite octets_bytes; [done|]. by apply utf8_octets.
Qed.

Lemma utf8_ascii s : is_ascii (str_bytes s) -> utf8 s.
Proof.
  unfold utf8, codes, is_ascii. induction 1 as [|b l Hb _ IH]; [done|]. rewrite fmap_cons. cbn [utf8Valid].
  rewrite (proj2 (Z.ltb_lt _ _)) by exact Hb. pose proof (byte_Z_range b).
  rewrite (proj2 (Z.leb_le _ _)) by lia. exact IH.
Qed.

Lemma utf8_name name : name_ok name -> utf8 name.
Proof.
  intros Hn. apply utf8_ascii. unfold name_ok, validateCatalogName in Hn. unfold is_ascii. apply Forall_forall.
  intros b Hb. destruct (forallb catalogNameRune _) eqn:E; [|by repeat case_bool].
  rewrite forallb_forall in E. specialize (E b (proj1 (list_elem_of_In _ _) Hb)).
  unfold catalogNameRune in E. bool_to_prop. lia.
Qed.

Lemma utf8_nodeID n m : utf8 n -> normalizeNodeID n = Ok m -> utf8 m.
Proof. unfold normalizeNodeID. intros Hn. repeat case_bool; intros [= <-]. by apply utf8_TrimSpace. Qed.

Lemma utf8_nodeAddr a b : utf8 a -> normalizeNodeAddr a = Ok b -> utf8 b.
Proof.
  unfold normalizeNodeAddr. intros Ha. repeat case_bool; try done. destruct (SplitHostPort _) as [[host port]|]; [|done].
  case_bool; [done|]. destruct (validateNodePort port); [done|]. intros [= <-]. by apply utf8_TrimSpace.
Qed.

Lemma utf8_nodeIdentity n a m b : utf8 n -> utf8 a -> validateNodeIdentity n a = Ok (m, b) -> utf8 m /\ utf8 b.
Proof.
  unfold validateNodeIdentity. intros Hn Ha. destruct (normalizeNodeID n) as [m'|] eqn:E1; [|discriminate]. cbn.
  destruct (normalizeNodeAddr a) as [b'|] eqn:E2; [|discriminate]. cbn. intros [= <- <-]. split; [exact (utf8_nodeID _ _ Hn E1)|exact (utf8_nodeAddr _ _ Ha E2)].
Qed.

(** ** The invariant *)

Definition route_wire (r : RouteBody) : Prop :=
  utf8 (rt_namespace r) /\ utf8 (rt_space r) /\ is_u32 (rt_start r) /\ is_u32 (rt_end r) /\ utf8 (rt_nodeID r) /\
  utf8 (rt_addr r).

Record state_wire (s : ControlState) : Prop := mkStateWire {
  sw_clusterID : utf8 (cs_clusterID s);
  sw_revision : is_u64 (cs_revision s);
  sw_namespaces : map_Forall (fun _ => namespace_wire) (cs_namespaces s);
  sw_spaces : map_Forall (fun _ => space_wire) (cs_spaces s);
  sw_entities : map_Forall (fun _ => entity_wire) (cs_entities s);
  sw_nodes : map_Forall (fun _ => node_wire) (cs_nodes s);
  sw_events : Forall event_wire (cs_events s);
  sw_plans : Forall plan_wire (cs_plans s);
  sw_nextEvent : is_u64 (cs_nextEvent s);
  sw_nextPlan : is_u64 (cs_nextPlan s);
  sw_routes : Forall route_wire (cs_lastRoutes s)
}.

(** A clock whose seconds fit 64 bits. *)
Definition clock_wire (clock : nat -> Time) : Prop := forall i, is_s64 (Unix (clock i)).

(** A command from JSON, with a time that is not at the end of its range; a failure
    carries its time. *)
Definition command_sane (c : Command) : Prop :=
  command_wire c /\ - 2 ^ 62 <= cm_nowUnix c <= 2 ^ 62 /\
  (cm_type c = CommandFailMigrationTask -> 0 < cm_nowUnix c).

(** The number of routes fits an [int], before and after one more node or space. *)
Definition routes_room (s : ControlState) : Prop :=
  (Z.of_nat (size (cs_nodes s)) + 1) * (Z.of_nat (size (cs_spaces s)) + 2) < 2 ^ 63.

Section Wire.
  Context `{!RangeOrder}.

Lemma NewControlState_wire id : utf8 id -> state_wire (NewControlState id).
Proof. intros Hid. constructor; cbn; try apply map_Forall_empty; try constructor; done. Qed.

Lemma sorted_wire {K A} `{Countable K} (P : A -> Prop) (R : relation A) `{!forall x y, Decision (R x y)} (m : gmap K A) :
  map_Forall (fun _ => P) m -> Forall P (merge_sort R (range_order m).*2).
Proof.
  intros HP. rewrite (merge_sort_Permutation R), range_perm. apply Forall_fmap, Forall_forall.
  intros [k x] Hkx%elem_of_map_to_list. by apply (HP k x).
Qed.

(** The texts of a state that is on the wire. *)
Lemma state_snapshot_wire s : state_wire s -> snapshot_wire (ExportSnapshot s).
Proof.
  intros [? ? Hns Hsp Hen Hno ? ? ? ? _]. unfold snapshot_wire, ExportSnapshot. cbn.
  split_and!; try done; by apply sorted_wire.
Qed.

Lemma checkedVSlot_u32 v : is_u32 (checkedVSlot v).
Proof. unfold checkedVSlot. case_bool; [by vm_compute|apply u32_range]. Qed.

Lemma routesForSpace_wire healthy space : Forall node_wire healthy -> utf8 (sp_namespace space) -> utf8 (sp_space space) ->
  Forall route_wire (routesForSpace healthy space).
Proof.
  intros Hh H3 H4. apply Forall_forall. unfold routesForSpace. intros r (i & n & -> & Hi)%elem_of_lookup_imap_1.
  rewrite Forall_lookup in Hh. destruct (Hh i n Hi) as (H1 & H2 & _). unfold vslotRange, route_wire. cbn.
  split_and!; first [done|apply checkedVSlot_u32].
Qed.

Lemma base_routes_wire s : map_Forall (fun _ => node_wire) (cs_nodes s) -> map_Forall (fun _ => space_wire) (cs_spaces s) ->
  Forall route_wire (routesForNodes (sortedNodes s) (sortedSpaces s)).
Proof.
  intros Hn Hs. apply (sorted_wire _ (by_key nb_nodeID)) in Hn. apply (sorted_wire _ space_before) in Hs.
  fold (sortedNodes s) in Hn. fold (sortedSpaces s) in Hs. unfold routesForNodes.
  assert (Forall node_wire (healthyNodes (sortedNodes s))) as Hh.
  { rewrite Forall_forall in *. intros n [_ Hin]%list_elem_of_filter. by apply Hn. }
  destruct (healthyNodes _) as [|x h] eqn:E; [constructor|]. rewrite <- E in *.
  destruct (sortedSpaces s) as [|sp sps]; [by apply routesForSpace_wire|].
  apply Forall_forall. intros r (y & Hr & Hy)%list_elem_of_bind. rewrite Forall_forall in Hs.
  destruct (Hs y Hy) as (? & ? & _). pose proof (routesForSpace_wire _ y Hh) as Hw. rewrite Forall_forall in Hw. by apply Hw.
Qed.

(** How many routes there are. *)
Lemma base_routes_length s : (length (routesForNodes (sortedNodes s) (sortedSpaces s)) <= size (cs_nodes s) * (size (cs_spaces s) + 1))%nat.
Proof.
  assert (length (sortedNodes s) = size (cs_nodes s)) as En.
  { unfold sortedNodes. by rewrite merge_sort_Permutation, length_fmap, length_range. }
  assert (length (sortedSpaces s) = size (cs_spaces s)) as Es.
  { unfold sortedSpaces. by rewrite merge_sort_Permutation, length_fmap, length_range. }
  rewrite <- En, <- Es. clear En Es. unfold routesForNodes.
  assert (length (healthyNodes (sortedNodes s)) <= length (sortedNodes s))%nat as Hh by apply length_filter.
  assert (forall sp, length (routesForSpace (healthyNodes (sortedNodes s)) sp) = length (healthyNodes (sortedNodes s))) as Hl
    by (intros; unfold routesForSpace; by rewrite length_imap).
  destruct (healthyNodes (sortedNodes s)) as [|x h] eqn:E; [cbn; lia|]. rewrite <- E in *.
  destruct (sortedSpaces s) as [|sp sps]; [rewrite Hl; cbn; lia|].
  assert (length ((sp :: sps) ≫= routesForSpace (healthyNodes (sortedNodes s))) =
    length (sp :: sps) * length (healthyNodes (sortedNodes s)))%nat as ->.
  { induction (sp :: sps) as [|y l IH]; [done|]. cbn [mbind list_bind length]. rewrite length_app, Hl, IH. lia. }
  nia.
Qed.

Lemma routes_int s n k : (size (cs_nodes s) <= n)%nat -> (size (cs_spaces s) <= k)%nat ->
  Z.of_nat n * (Z.of_nat k + 1) < 2 ^ 63 -> is_s64 (zlen (routesForNodes (sortedNodes s) (sortedSpaces s))).
Proof. intros Hn Hk Hb. pose proof (base_routes_length s). unfold is_s64, zlen. nia. Qed.

Lemma size_insert_le {K A} `{Countable K} (m : gmap K A) k x : (size (<[k := x]> m) <= S (size m))%nat.
Proof. rewrite map_size_insert. destruct (m !! k); cbn; lia. Qed.

(** ** Recording an event *)

Lemma built_wire event prev cur : is_u64 (ev_revision event) -> is_s64 (ev_createdAtUnix event) -> Forall route_wire prev ->
  Forall route_wire cur -> Forall task_wire (buildMigrationTasks event prev cur).
Proof.
  intros He Hc Hp Hr. apply Forall_forall. unfold buildMigrationTasks, migrationTasksForRoute.
  intros t (c & Ht & Hcur)%list_elem_of_bind. case_bool; [by apply elem_of_nil in Ht|].
  apply list_elem_of_bind in Ht as (p & Ht & Hprev). rewrite Forall_forall in Hp, Hr.
  destruct (Hp p Hprev) as (P1 & P2 & P3 & P4 & P5 & P6), (Hr c Hcur) as (C1 & C2 & C3 & C4 & C5 & C6).
  unfold migrationTaskRange, routeOverlap in Ht. case_bool; [by apply elem_of_nil in Ht|].
  case_bool; [|by apply elem_of_nil in Ht]. apply list_elem_of_singleton in Ht as ->.
  unfold task_wire, migrationTaskForRoute, maxUint32, minUint32. cbn.
  split_and!; try done; repeat case_bool; done.
Qed.

Lemma numbered_wire plan i t : is_u64 plan -> task_wire t -> task_wire (numberTask plan i t).
Proof.
  unfold task_wire, numberTask. cbn. intros Hp Ht. destruct_and! Ht. split_and!; try done. apply u64_range.
Qed.

Lemma record_wire event now s : state_wire s -> is_s64 (Unix now) ->
  is_s64 (zlen (routesForNodes (sortedNodes s) (sortedSpaces s))) ->
  utf8 (rb_reason event) -> utf8 (nb_nodeID (rb_node event)) -> utf8 (nb_addr (rb_node event)) ->
  utf8 (nb_state (rb_node event)) -> utf8 (rb_namespace event) -> utf8 (rb_space event) ->
  state_wire (recordRebalanceEvent event now s).
Proof.
  intros [S1 S2 S3 S4 S5 S6 S7 S8 S9 S10 S11] Hnow Hint R1 R2 R3 R4 R5 R6.
  pose proof (base_routes_wire s S6 S4) as Hb. unfold recordRebalanceEvent. case_bool; [done|].
  set (routes := routesForNodes _ _) in *. set (body := mkEvent _ _ _ _ _ _ _ _ _ _ _).
  assert (event_wire body) as He by (unfold event_wire, body; cbn; split_and!; first [done|apply u64_range|by vm_compute]).
  assert (Forall event_wire (keepLast maxRebalanceEvents (cs_events s ++ [body]))) as Hev
    by (apply Forall_keepLast, Forall_app; split; [done|by apply Forall_singleton]).
  assert (Forall task_wire (buildMigrationTasks body (cs_lastRoutes s) routes)) as Ht by (by apply built_wire).
  unfold recordMigrationPlan. cbn [cs_lastRoutes cs_nextPlan]. destruct (buildMigrationTasks _ _ _) as [|t ts] eqn:Eb.
  - constructor; cbn; try done. apply u64_range.
  - constructor; cbn [cs_clusterID cs_revision cs_namespaces cs_spaces cs_entities cs_nodes cs_events cs_plans cs_nextEvent
      cs_nextPlan cs_lastRoutes]; try done; try apply u64_range.
    apply Forall_keepLast, Forall_app. split; [done|]. apply Forall_singleton.
    unfold plan_wire. cbn [mp_id mp_revision mp_reason mp_state mp_createdAtUnix mp_tasks].
    split_and!; try done; [apply u64_range|]. apply Forall_lookup. intros i x (y & Hy & ->)%list_lookup_imap_Some.
    apply numbered_wire; [apply u64_range|]. rewrite Forall_lookup in Ht. by apply (Ht i).
Qed.

(** ** The commands *)

Definition result_wire (r : ApplyResult) : Prop :=
  match r with
  | AppliedNamespace v x => is_u64 v /\ namespace_wire x
  | AppliedSpace v x => is_u64 v /\ space_wire x
  | AppliedEntity v x => is_u64 v /\ entity_wire x
  | AppliedNode v x => is_u64 v /\ node_wire x
  | AppliedLiveness v l => is_u64 v /\ Forall node_wire l
  | AppliedTask _ t => task_wire t
  end.

(** The state and the reply of a call. *)
Definition out_wire {A} (P : A -> Prop) (out : ControlState * result controlError A) : Prop :=
  state_wire out.1 /\ match out.2 with Ok a => P a | Err _ => True end.

Lemma withRevision_wire r s : is_u64 r -> state_wire s -> state_wire (withRevision r s).
Proof. intros Hr []. by constructor. Qed.

Lemma bumpRevision_wire s : state_wire s -> state_wire (bumpRevision s).
Proof. apply withRevision_wire, u64_range. Qed.

Lemma withNodes_wire m s : map_Forall (fun _ => node_wire) m -> state_wire s -> state_wire (withNodes m s).
Proof. intros Hm []. by constructor. Qed.

Lemma CreateNamespace_wire n clock s : state_wire s -> clock_wire clock ->
  out_wire (response_wire namespace_wire) (CreateNamespace n clock s).
Proof.
  intros Hs Hc. unfold CreateNamespace. destruct (normalizeNamespace n) as [k|] eqn:En; [|by split].
  apply normalizeNamespace_ok, utf8_name in En. destruct (cs_namespaces s !! k) as [item|] eqn:Ek.
  - split; [done|]. split; [apply Hs|]. by apply (sw_namespaces s Hs k).
  - assert (namespace_wire (mkNamespace k 1 (Unix (clock 0%nat)))) as Hn by (split_and!; [done|by vm_compute|apply Hc]).
    split; [|split; [apply u64_range|done]]. destruct (bumpRevision_wire s Hs). constructor; try done.
    by apply map_Forall_insert_2.
Qed.

Lemma CreateEntity_wire n sp e clock s : state_wire s -> clock_wire clock ->
  out_wire (response_wire entity_wire) (CreateEntity n sp e clock s).
Proof.
  intros Hs Hc. unfold CreateEntity. destruct (normalizeEntityIdentity n sp e) as [[[a b] k]|] eqn:En; [|by split].
  apply normalizeEntityIdentity_ok in En as (N1%utf8_name & N2%utf8_name & N3%utf8_name).
  destruct (cs_namespaces s !! a); [|by split]. destruct (cs_spaces s !! (a, b)); [|by split].
  destruct (cs_entities s !! (a, b, k)) as [item|] eqn:Ek.
  - split; [done|]. split; [apply Hs|]. by apply (sw_entities s Hs (a, b, k)).
  - assert (entity_wire (mkEntity a b k (Unix (clock 0%nat)))) as Hn by (split_and!; [done..|apply Hc]).
    split; [|split; [apply u64_range|done]]. destruct (bumpRevision_wire s Hs). constructor; try done.
    by apply map_Forall_insert_2.
Qed.

Lemma BumpNamespaceVersion_wire n s : state_wire s -> out_wire (response_wire namespace_wire) (BumpNamespaceVersion n s).
Proof.
  intros Hs. unfold BumpNamespaceVersion. destruct (normalizeNamespace n) as [k|]; [|by split].
  destruct (cs_namespaces s !! k) as [item|] eqn:Ek; [|by split].
  destruct (sw_namespaces s Hs k item Ek) as (H1' & H2' & H3').
  assert (namespace_wire (mkNamespace (ns_namespace item) (ns_version item +% 1) (ns_createdAtUnix item))) as Hn
    by (split_and!; [done|apply u64_range|done]).
  split; [|split; [apply u64_range|done]]. destruct (bumpRevision_wire s Hs). constructor; try done.
  by apply map_Forall_insert_2.
Qed.

Lemma BumpSpaceVersion_wire n sp s : state_wire s -> out_wire (response_wire space_wire) (BumpSpaceVersion n sp s).
Proof.
  intros Hs. unfold BumpSpaceVersion. destruct (normalizeSpaceIdentity n sp) as [[a b]|]; [|by split].
  destruct (cs_namespaces s !! a); [|by split]. destruct (cs_spaces s !! (a, b)) as [item|] eqn:Ek; [|by split].
  destruct (sw_spaces s Hs (a, b) item Ek) as (H1' & H2' & H3' & H4').
  assert (space_wire (mkSpace (sp_namespace item) (sp_space item) (sp_version item +% 1) (sp_createdAtUnix item))) as Hn
    by (split_and!; [done|done|apply u64_range|done]).
  split; [|split; [apply u64_range|done]]. destruct (bumpRevision_wire s Hs). constructor; try done.
  by apply map_Forall_insert_2.
Qed.

(** The revision a recorded event leaves. *)
Lemma recorded_reply {A} (P : A -> Prop) event now s (a : A) : state_wire (recordRebalanceEvent event now s) -> P a ->
  out_wire (response_wire P) (recordRebalanceEvent event now s, Ok (cs_revision (recordRebalanceEvent event now s), a)).
Proof. intros Hs Ha. split; [done|]. split; [apply Hs|done]. Qed.

Lemma CreateSpace_wire n sp clock s : state_wire s -> clock_wire clock -> routes_room s ->
  out_wire (response_wire space_wire) (CreateSpace n sp clock s).
Proof.
  intros Hs Hc Hr. unfold CreateSpace. destruct (normalizeSpaceIdentity n sp) as [[a b]|] eqn:En; [|by split].
  apply normalizeSpaceIdentity_ok in En as [N1%utf8_name N2%utf8_name].
  destruct (cs_namespaces s !! a); [|by split]. destruct (cs_spaces s !! (a, b)) as [item|] eqn:Ek.
  - split; [done|]. split; [apply Hs|]. by apply (sw_spaces s Hs (a, b)).
  - assert (space_wire (mkSpace a b 1 (Unix (clock 0%nat)))) as Hn by (split_and!; [done|done|by vm_compute|apply Hc]).
    apply recorded_reply; [|done]. apply record_wire; try done; [|].
    + destruct (bumpRevision_wire s Hs). constructor; try done. by apply map_Forall_insert_2.
    + apply (routes_int _ (size (cs_nodes s)) (S (size (cs_spaces s)))); [done| |unfold routes_room in Hr; nia].
      apply (size_insert_le (cs_spaces s)).
Qed.

(** A node that is recorded with its event. *)
Lemma record_node_wire k node event now r s : state_wire s -> is_s64 (Unix now) -> routes_room s -> is_u64 r ->
  node_wire node -> utf8 (rb_reason event) -> node_wire (rb_node event) -> utf8 (rb_namespace event) -> utf8 (rb_space event) ->
  out_wire (response_wire node_wire)
    (recordRebalanceEvent event now (withNodes (<[k := node]> (cs_nodes (withRevision r s))) (withRevision r s)),
     Ok (cs_revision (recordRebalanceEvent event now (withNodes (<[k := node]> (cs_nodes (withRevision r s))) (withRevision r s))), node)).
Proof.
  intros Hs Hnow Hroom Hr Hn R1 (R2 & R3 & R4 & _) R5 R6. apply recorded_reply; [|done]. apply record_wire; try done.
  - apply withNodes_wire; [|by apply withRevision_wire]. apply map_Forall_insert_2; [done|]. apply Hs.
  - apply (routes_int _ (S (size (cs_nodes s))) (size (cs_spaces s))); [|done|unfold routes_room in Hroom; nia].
    apply (size_insert_le (cs_nodes s)).
Qed.

Lemma registerNodeAt_wire n a now clock s : state_wire s -> clock_wire clock -> routes_room s -> is_s64 (Unix now) ->
  utf8 n -> utf8 a -> out_wire (response_wire node_wire) (registerNodeAt n a now clock s).
Proof.
  intros Hs Hc Hr Hnow Hn Ha. unfold registerNodeAt. destruct (validateNodeIdentity n a) as [[k b]|] eqn:En; [|by split].
  apply utf8_nodeIdentity in En as [Hk Hb]; [|done|done].
  assert (node_wire (mkNode k b nodeStateHealthy (Unix now))) as Hw by (split_and!; done).
  destruct (nodeRegistrationEventReason _ _) as [reason changed] eqn:Ereason. destruct changed.
  - apply record_node_wire; try done; [apply u64_range|]. cbn. unfold nodeRegistrationEventReason in Ereason.
    destruct (cs_nodes s !! k); [|by injection Ereason as <-]. repeat case_bool; by injection Ereason as <-.
  - split; [|split; [apply Hs|done]]. apply withNodes_wire; [|done]. apply map_Forall_insert_2; [done|]. apply Hs.
Qed.

Lemma heartbeatChanges_wire found k a node steps reason : (forall n, found = Some n -> node_wire n) -> utf8 k -> utf8 a ->
  heartbeatChanges found k a = (node, steps, reason) -> node_wire node /\ utf8 reason.
Proof.
  intros Hf Hk Ha. unfold heartbeatChanges. destruct found as [n|].
  - destruct (Hf n eq_refl) as (F1 & F2 & F3 & F4). repeat case_bool; intros [= <- <- <-]; (split; [split_and!; done|done]).
  - repeat case_bool; intros [= <- <- <-]; (split; [split_and!; done|done]).
Qed.

Lemma heartbeatAt_wire n a now clock s : state_wire s -> clock_wire clock -> routes_room s -> is_s64 (Unix now) ->
  utf8 n -> utf8 a -> out_wire (response_wire node_wire) (heartbeatAt n a now clock s).
Proof.
  intros Hs Hc Hr Hnow Hn Ha. unfold heartbeatAt. destruct (validateNodeIdentity n a) as [[k b]|] eqn:En; [|by split].
  apply utf8_nodeIdentity in En as [Hk Hb]; [|done|done].
  destruct (heartbeatChanges (cs_nodes s !! k) k b) as [[node steps] reason] eqn:Eh.
  apply heartbeatChanges_wire in Eh as [(W1 & W2 & W3 & _) Hreason]; [|intros x Hx; by apply (sw_nodes s Hs k)|done|done].
  assert (node_wire (mkNode (nb_nodeID node) (nb_addr node) (nb_state node) (Unix now))) as Hw by (split_and!; done).
  destruct (0 <? steps).
  - apply record_node_wire; try done. apply u64_range.
  - split; [|split; [apply u64_range|done]]. apply withNodes_wire; [|apply withRevision_wire; [apply u64_range|done]].
    apply map_Forall_insert_2; [done|]. apply Hs.
Qed.

Lemma removeNode_wire n clock s : state_wire s -> clock_wire clock -> routes_room s ->
  out_wire (response_wire node_wire) (removeNode n clock s).
Proof.
  intros Hs Hc Hr. unfold removeNode. destruct (normalizeNodeIdentity n) as [k|]; [|by split].
  destruct (cs_nodes s !! k) as [node|] eqn:Ek; [|by split].
  destruct (sw_nodes s Hs k node Ek) as (W1 & W2 & W3 & W4). apply recorded_reply; [|by split_and!].
  apply record_wire; try done.
  - apply bumpRevision_wire, withNodes_wire; [|done]. apply map_Forall_delete, Hs.
  - apply (routes_int _ (size (cs_nodes s)) (size (cs_spaces s))); [|done|unfold routes_room in Hr; nia].
    cbn. rewrite map_size_delete, Ek. cbn. lia.
Qed.

Lemma livenessStep_wire now sa da clock s changed k node : state_wire s -> clock_wire clock -> routes_room s ->
  cs_nodes s !! k <> None -> node_wire node -> Forall node_wire changed ->
  let '(s', changed') := livenessStep now sa da clock (s, changed) (k, node) in
  state_wire s' /\ Forall node_wire changed' /\ routes_room s' /\ (forall j, cs_nodes s !! j <> None -> cs_nodes s' !! j <> None).
Proof.
  intros Hs Hc Hr Hk (W1 & W2 & W3 & W4) Hch. cbn [livenessStep]. case_bool; [done|]. case_bool_decide; [done|].
  set (next := mkNode _ _ _ _).
  assert (node_wire next) as Hw.
  { unfold next. split_and!; try done. cbn. unfold livenessState. by repeat case_bool. }
  assert (size (<[k := next]> (cs_nodes s)) = size (cs_nodes s)) as Esz.
  { rewrite map_size_insert. by destruct (cs_nodes s !! k). }
  match goal with |- context[recordRebalanceEvent ?ev ?n ?st] => pose proof (record_frame ev n st) as (_ & _ & _ & Fs & _ & Fn) end.
  split_and!.
  - destruct Hw as (N1 & N2 & N3 & N4). apply record_wire; try done.
    + apply bumpRevision_wire, withNodes_wire; [|done]. apply map_Forall_insert_2; [by split_and!|]. apply Hs.
    + apply (routes_int _ (size (cs_nodes s)) (size (cs_spaces s))); [cbn; lia|done|unfold routes_room in Hr; nia].
    + cbn. unfold livenessRebalanceReason. by repeat case_bool.
  - apply Forall_app. split; [done|]. by apply Forall_singleton.
  - unfold routes_room in *. rewrite Fn, Fs. cbn [bumpRevision withRevision withNodes cs_nodes cs_spaces]. by rewrite Esz.
  - intros j Hj. rewrite Fn. cbn. destruct (decide (j = k)) as [->|Hne]; [by rewrite lookup_insert_eq|].
    by rewrite lookup_insert_ne.
Qed.

Lemma AdvanceLiveness_wire now sa da clock s : state_wire s -> clock_wire clock -> routes_room s ->
  state_wire (AdvanceLiveness now sa da clock s).1 /\
  response_wire (Forall node_wire) (AdvanceLiveness now sa da clock s).2.
Proof.
  intros Hs Hc Hr. unfold AdvanceLiveness. set (m := cs_nodes s).
  assert (forall l acc, (forall k node, (k, node) ∈ l -> m !! k = Some node) -> state_wire acc.1 -> routes_room acc.1 ->
    Forall node_wire acc.2 -> (forall j, m !! j <> None -> cs_nodes acc.1 !! j <> None) ->
    state_wire (foldl (livenessStep now sa da clock) acc l).1 /\
    Forall node_wire (foldl (livenessStep now sa da clock) acc l).2) as Hfold.
  { induction l as [|[k node] l IH]; intros [s0 changed] Hl H1' H2' H3' H4'; [done|]. cbn [foldl fst snd] in *.
    assert (m !! k = Some node) as Hk by (apply Hl; set_solver).
    pose proof (livenessStep_wire now sa da clock s0 changed k node H1' Hc H2' ltac:(apply H4'; by rewrite Hk)
      (sw_nodes s Hs k node Hk) H3') as Hstep.
    destruct (livenessStep _ _ _ _ _ _) as [s1 changed1]. destruct Hstep as (A1 & A2 & A3 & A4).
    apply IH; [intros; apply Hl; set_solver|done|done|done|]. cbn. eauto. }
  specialize (Hfold (range_order m) (s, [])). destruct (foldl _ _ _) as [s' changed]. cbn [fst snd] in *.
  destruct Hfold as [F1 F2]; [intros k node; apply elem_of_range|done|done|constructor|done|].
  split; [done|]. split; [apply F1|done].
Qed.

Lemma withTasks_wire p i t : plan_wire p -> task_wire t -> plan_wire (withTasks (<[i := t]> (mp_tasks p)) p).
Proof.
  intros (P1 & P2 & P3 & P4 & P5 & P6) Ht. unfold plan_wire, withTasks. cbn. split_and!; try done.
  - unfold deriveMigrationPlanState. by repeat case_bool.
  - by apply Forall_insert.
Qed.

Lemma updateMigrationTask_wire pid tid f s : (forall t, task_wire t -> task_wire (f t)) -> state_wire s ->
  out_wire task_wire (updateMigrationTask pid tid f s).
Proof.
  intros Hf Hs. unfold updateMigrationTask. destruct (updateInPlans pid tid f (cs_plans s)) as [[plans t]|] eqn:E; [|by split].
  apply updateInPlans_spec in E as (i & j & plan & t0 & [Hp Ht ->] & -> & _).
  pose proof (sw_plans s Hs) as Hw. rewrite Forall_lookup in Hw. pose proof (Hw i plan Hp) as Hplan.
  assert (task_wire t0) as Ht0 by (destruct Hplan as (_ & _ & _ & _ & _ & Hts); rewrite Forall_lookup in Hts; by apply (Hts j)).
  split; [|by apply Hf]. apply bumpRevision_wire. destruct Hs. constructor; try done. cbn.
  apply Forall_insert; [done|]. apply withTasks_wire; [done|by apply Hf].
Qed.

Lemma ClaimMigrationTask_wire now s : is_s64 (Unix now) -> state_wire s ->
  state_wire (ClaimMigrationTask now s).1 /\ match (ClaimMigrationTask now s).2 with Some t => task_wire t | None => True end.
Proof.
  intros Hnow Hs. unfold ClaimMigrationTask. destruct (claimInPlans (cs_plans s) now) as [[plans t]|] eqn:E; [|by split].
  apply claimInPlans_spec in E as (i & j & plan & t0 & [Hp Ht ->] & -> & _).
  pose proof (sw_plans s Hs) as Hw. rewrite Forall_lookup in Hw. pose proof (Hw i plan Hp) as Hplan.
  assert (task_wire t0) as Ht0 by (destruct Hplan as (_ & _ & _ & _ & _ & Hts); rewrite Forall_lookup in Hts; by apply (Hts j)).
  assert (task_wire (markTaskRunning t0 now)) as Hm.
  { unfold task_wire in *. destruct_and! Ht0. unfold markTaskRunning, updateTask. cbn. split_and!; try done. by case_bool. }
  split; [|done]. apply bumpRevision_wire. destruct Hs. constructor; try done. cbn.
  apply Forall_insert; [done|]. by apply withTasks_wire.
Qed.

Lemma applied_out {A} (P : A -> Prop) (k : Z -> A -> ApplyResult) out : out_wire (response_wire P) out ->
  (forall v a, is_u64 v -> P a -> result_wire (k v a)) -> out_wire result_wire (applied out k).
Proof. destruct out as [s [[v a]|e]]; intros [Hs Ho] Hk; split; try done. apply Hk; apply Ho. Qed.

Lemma appliedTask_out out : out_wire task_wire out -> out_wire result_wire (appliedTask out).
Proof. by destruct out as [s [t|e]]. Qed.

Lemma commandTime_wire c clock : command_sane c -> clock_wire clock ->
  is_s64 (Unix (commandTime c clock)) /\
  (0 < cm_nowUnix c -> Unix (commandTime c clock) = cm_nowUnix c) /\ clock_wire (restOfClock c clock).
Proof.
  intros (_ & Hb & _) Hc. unfold commandTime, restOfClock. destruct (Z.ltb_spec 0 (cm_nowUnix c)).
  - assert (Unix (timeUnix (cm_nowUnix c)) = cm_nowUnix c) as -> by
      (unfold Unix, timeUnix; rewrite Z.div_mul by (unfold nsPerSecond; lia); lia).
    split_and!; [unfold is_s64; lia|done|done].
  - split_and!; [apply Hc|lia|intros i; apply Hc].
Qed.

Lemma nextRetry_wire c clock : command_sane c -> 0 < cm_nowUnix c ->
  is_s64 (migrationTaskNextRetryUnix (commandTime c clock) (millis (cm_retryAfterMS c))).
Proof.
  intros (_ & Hb & _) Hn. unfold commandTime. rewrite (proj2 (Z.ltb_lt _ _) Hn).
  pose proof (s64_range (cm_retryAfterMS c * 1000000)) as Hr. fold (millis (cm_retryAfterMS c)) in Hr.
  assert (forall d, - 2 ^ 63 <= d < 2 ^ 63 -> is_s64 (Unix (TimeAdd (timeUnix (cm_nowUnix c)) d))) as Hadd.
  { intros d Hd. unfold Unix, TimeAdd, timeUnix. rewrite Z.div_add_l by (unfold nsPerSecond; lia).
    assert (- 2 ^ 63 <= d / nsPerSecond < 2 ^ 62).
    { unfold nsPerSecond. split; [apply Z.div_le_lower_bound; lia|apply Z.div_lt_upper_bound; lia]. }
    assert (- 2 ^ 60 <= d / nsPerSecond) by (unfold nsPerSecond; apply Z.div_le_lower_bound; lia).
    unfold is_s64. lia. }
  unfold migrationTaskNextRetryUnix. repeat case_bool.
  - specialize (Hadd 0 ltac:(lia)). unfold TimeAdd in Hadd. by rewrite Z.add_0_r in Hadd.
  - apply Hadd. unfold nsPerSecond. lia.
  - apply Hadd. unfold is_s64 in Hr. lia.
Qed.

(** Every sane command keeps the state and its replies on the wire. *)
Lemma Apply_wire c clock s : state_wire s -> command_sane c -> clock_wire clock -> routes_room s ->
  out_wire result_wire (Apply c clock s).
Proof.
  intros Hs Hc Hk Hr. destruct (commandTime_wire c clock Hc Hk) as (Ht & _ & Hrest). pose proof Hc as [Hw Hsane].
  unfold command_wire in Hw. destruct Hw as (Wt & W1 & W2 & W3 & W4 & W5 & W6 & W7 & W8 & W9 & W10 & W11 & W12 & W13 & W14).
  unfold Apply. destruct (cm_type c) eqn:Etype.
  - apply (applied_out namespace_wire); [by apply CreateNamespace_wire|done].
  - apply (applied_out space_wire); [by apply CreateSpace_wire|done].
  - apply (applied_out entity_wire); [by apply CreateEntity_wire|done].
  - apply (applied_out namespace_wire); [by apply BumpNamespaceVersion_wire|done].
  - apply (applied_out space_wire); [by apply BumpSpaceVersion_wire|done].
  - apply (applied_out node_wire); [by apply registerNodeAt_wire|done].
  - apply (applied_out node_wire); [by apply heartbeatAt_wire|done].
  - apply (applied_out node_wire); [by apply removeNode_wire|done].
  - unfold applyAdvanceNodeLiveness.
    pose proof (AdvanceLiveness_wire (timeUnix (cm_nowUnix c)) (millis (cm_suspectAfterMS c)) (millis (cm_deadAfterMS c))
      clock s Hs Hk Hr) as Ha. by destruct (AdvanceLiveness _ _ _ _ _) as [s' [v l]].
  - unfold applyClaimMigrationTask. pose proof (ClaimMigrationTask_wire (commandTime c clock) s Ht Hs) as Ha.
    destruct (ClaimMigrationTask _ s) as [s' [t|]]; [done|]. split; [apply Ha|]. vm_compute. by repeat split.
  - apply appliedTask_out, updateMigrationTask_wire; [|done]. unfold task_wire. intros t Hw. destruct_and! Hw.
    cbn. by split_and!.
  - apply appliedTask_out, updateMigrationTask_wire; [|done]. unfold task_wire. intros t Hw. destruct_and! Hw.
    cbn. by split_and!.
  - apply appliedTask_out, updateMigrationTask_wire; [|done]. unfold task_wire. intros t Hw. destruct_and! Hw.
    cbn. split_and!; try done; [apply u64_range|]. apply nextRetry_wire; [done|by apply Hsane].
  - by split.
Qed.
End Wire.

(** A state reached from a new one by such commands. *)
Inductive wire_reachable `{!RangeOrder} (id : string) : ControlState -> Prop :=
| wr_new : wire_reachable id (NewControlState id)
| wr_apply s c clock : wire_reachable id s -> counters_room s -> routes_room s -> command_sane c -> clock_wire clock ->
    wire_reachable id (Apply c clock s).1.

Lemma wire_reachable_wire `{!RangeOrder} id s : utf8 id -> wire_reachable id s -> control_inv s /\ state_wire s.
Proof.
  intros Hid. induction 1 as [|s c clock _ [IH1 IH2] H1' H2' H3' H4']; [split; [apply NewControlState_inv|by apply NewControlState_wire]|].
  split; [by apply Apply_inv|]. by apply Apply_wire.
Qed.
