(* ===== verification/ControlRaft.v ===== *)
(** * The control plane on raft (control/dragonboat*.go)

    The replicated state machine a NodeHost drives, the retry loop around its
    calls, proposals and membership changes, and the normalization of the raft
    configuration.  The NodeHost itself is not part of the sources: what its calls
    do and how long they take are the outcome arguments [attempt] and [changeFate],
    which keep the library's contract that an answered proposal has been applied
    to this replica and returns what [Update] returned. *)

From S2P Require Import Prelude.
From S2P Require Import GoStrings.
From S2P Require Import GoJson.
From S2P Require Import ControlApi.
From S2P Require Import Control.
From S2P Require Import ControlCodec.

Local Open Scope Z_scope.
Local Open Scope nespa_scope.

(** ** Configuration *)

(** src: control/dragonboat.go RaftMember *)
Record RaftMember := mkMember { rm_nodeID : Z; rm_addr : string }.

(** src: control/dragonboat.go RaftConfig *)
Record RaftConfig := mkRaftConfig {
  rc_nodeHostDir : string;
  rc_addr : string;
  rc_clusterID : Z;
  rc_nodeID : Z;
  rc_join : bool;
  rc_members : list RaftMember;
  rc_proposalTimeout : Duration;
  rc_snapshotEntries : Z;
  rc_compactionOverhead : Z
}.

(** src: control/dragonboat.go defaultControlRaftAddr 20-20 *)
Definition defaultControlRaftAddr : string := "127.0.0.1:7601".
(** src: control/dragonboat.go defaultControlRaftClusterID 21-21 *)
Definition defaultControlRaftClusterID : Z := 1.
(** src: control/dragonboat.go defaultControlRaftNodeID 22-22 *)
Definition defaultControlRaftNodeID : Z := 1.
(** src: control/dragonboat.go defaultControlProposalWait 24-24 *)
Definition defaultControlProposalWait : Duration := 5 * nsPerSecond.
(** src: control/dragonboat.go defaultControlSnapshotEntries 25-25 *)
Definition defaultControlSnapshotEntries : Z := 1024.
(** src: control/dragonboat.go defaultControlCompactionOverhead 26-26 *)
Definition defaultControlCompactionOverhead : Z := 128.

(** The errors of this part, with the codes of what they wrap. *)
Inductive raftError :=
| ErrRaftInvalidNodeID
| ErrRaftInvalidAddr (cause : controlError)
| ErrRaftInvalidMember (cause : option controlError)
| ErrRaftMemberInvalid (cause : controlError)
| ErrRaftNodeInvalid
| ErrRaftNotAvailable
| ErrRaftOperation
| ErrRaftPropose
| ErrRaftResultDecode
| ErrRaftCommand (code message : string)
| ErrState (cause : controlError).

(** src: control/dragonboat_config.go applyRaftConfigDefaults *)
Definition applyRaftConfigDefaults (cfg : RaftConfig) : RaftConfig :=
  let addr := TrimSpace (rc_addr cfg) in
  mkRaftConfig (rc_nodeHostDir cfg)
    (if bool_decide (addr = "") then defaultControlRaftAddr else addr)
    (if rc_clusterID cfg =? 0 then defaultControlRaftClusterID else rc_clusterID cfg)
    (if rc_nodeID cfg =? 0 then defaultControlRaftNodeID else rc_nodeID cfg)
    (rc_join cfg) (rc_members cfg)
    (if rc_proposalTimeout cfg <=? 0 then defaultControlProposalWait else rc_proposalTimeout cfg)
    (if rc_snapshotEntries cfg =? 0 then defaultControlSnapshotEntries else rc_snapshotEntries cfg)
    (if rc_compactionOverhead cfg =? 0 then defaultControlCompactionOverhead else rc_compactionOverhead cfg).

(** src: control/dragonboat_config.go validateRaftSelfConfig *)
Definition validateRaftSelfConfig (cfg : RaftConfig) : option raftError :=
  if rc_nodeID cfg =? 0 then Some ErrRaftInvalidNodeID
  else match normalizeNodeAddr (rc_addr cfg) with
       | Err e => Some (ErrRaftInvalidAddr e)
       | Ok _ => None
       end.

(** The loop writes the trimmed addresses into the slice it was given, up to the
    member it refuses.
    src: control/dragonboat_config.go normalizeRaftMembers *)
Fixpoint normalizeRaftMembers (members : list RaftMember) : list RaftMember * option raftError :=
  match members with
  | [] => ([], None)
  | m :: rest =>
      let m := mkMember (rm_nodeID m) (TrimSpace (rm_addr m)) in
      if rm_nodeID m =? 0 then (m :: rest, Some (ErrRaftInvalidMember None))
      else match normalizeNodeAddr (rm_addr m) with
           | Err e => (m :: rest, Some (ErrRaftInvalidMember (Some e)))
           | Ok _ => let '(rest, err) := normalizeRaftMembers rest in (m :: rest, err)
           end
  end.

Definition withMembers (members : list RaftMember) (cfg : RaftConfig) : RaftConfig :=
  mkRaftConfig (rc_nodeHostDir cfg) (rc_addr cfg) (rc_clusterID cfg) (rc_nodeID cfg) (rc_join cfg) members
    (rc_proposalTimeout cfg) (rc_snapshotEntries cfg) (rc_compactionOverhead cfg).

(** src: control/dragonboat_config.go normalizeRaftConfig *)
Definition normalizeRaftConfig (cfg : RaftConfig) : result raftError RaftConfig :=
  let cfg := applyRaftConfigDefaults cfg in
  match validateRaftSelfConfig cfg with
  | Some err => Err err
  | None =>
      match normalizeRaftMembers (rc_members cfg) with
      | (_, Some err) => Err err
      | (members, None) => Ok (withMembers members cfg)
      end
  end.

(** src: control/dragonboat_config.go resolveRaftInitialMembers *)
Definition resolveRaftInitialMembers (cfg : RaftConfig) (hasData : bool) : gmap Z string :=
  if hasData || rc_join cfg then ∅
  else
    let members := foldl (fun m member => <[rm_nodeID member := rm_addr member]> m) ∅ (rc_members cfg) in
    <[rc_nodeID cfg := rc_addr cfg]> members.

(** ** The retry loop *)

(** src: control/dragonboat.go minDuration *)
Definition minDuration (left right : Duration) : Duration := if left <? right then left else right.

(** An error of a NodeHost call, as [dragonboat.IsTempError] sees it, or the end
    of the caller's context. *)
Inductive rawError := TempError | FinalError | ErrTimeout | ContextDone.

(** [dragonboat.IsTempError]: a timeout is one, like a busy system or a cluster
    that is not ready. *)
Definition IsTempError (e : rawError) : bool :=
  match e with TempError | ErrTimeout => true | FinalError | ContextDone => false end.

(** How long a trial takes, how long the timer after it really runs and whether
    the caller's context ends during that wait. *)
Record trial := mkTrial { tr_took : Duration; tr_slept : Duration; tr_cancelled : bool }.

(** src: control/dragonboat_retry.go waitDragonboatRetry *)
Definition waitDragonboatRetry (t : trial) (deadline now : Time) (lastErr : rawError) : result rawError Time :=
  let wait := minDuration (TimeSub deadline now) (25 * 1000000) in
  if wait <=? 0 then Err lastErr
  else if tr_cancelled t then Err ContextDone
  else Ok (TimeAdd now (Z.max wait (tr_slept t))).

Section Retry.
  Context {W T : Type} (operation : nat -> W -> W * result rawError T) (trials : nat -> trial).

(** The loop from trial [i] on; [None] when the fuel ends first.  The error is
    always wrapped as an operation that failed.
    src: control/dragonboat_retry.go dragonboatRetry 35-60 *)
Fixpoint dragonboatLoop (fuel i : nat) (deadline now : Time) (w : W) : option (W * result rawError T) :=
  match fuel with
  | O => None
  | S fuel =>
      if TimeSub deadline now <=? 0 then Some (w, Err ErrTimeout)
      else
        let '(w, r) := operation i w in
        let now := TimeAdd now (tr_took (trials i)) in
        match r with
        | Ok x => Some (w, Ok x)
        | Err raw =>
            if negb (IsTempError raw) then Some (w, Err raw)
            else match waitDragonboatRetry (trials i) deadline now raw with
                 | Err e => Some (w, Err e)
                 | Ok now => dragonboatLoop fuel (S i) deadline now w
                 end
        end
  end.

(** Enough turns: every turn but the last waits 25 ms. *)
Definition retryFuel (timeout : Duration) : nat := Z.to_nat (Z.max 0 (timeout / 25000000) + 3).

(** src: control/dragonboat_retry.go dragonboatRetry *)
Definition dragonboatRetry (timeout : Duration) (start : Time) (w : W) : option (W * result rawError T) :=
  dragonboatLoop (retryFuel timeout) 0 (TimeAdd start timeout) start w.
End Retry.

(** ** The state machine *)

(** The field of the result struct that the handler of a command sets.
    src: control/fsm.go handleCreateNamespaceCommand 96-146 *)
Definition fieldsOf (t : CommandType) (r : ApplyResult) : ApplyFields :=
  let z := zeroApplied in
  match t, r with
  | CommandCreateNamespace, AppliedNamespace v x =>
      mkApplied (v, x) (af_createSpace z) (af_createEntity z) (af_bumpNamespace z) (af_bumpSpace z)
        (af_registerNode z) (af_heartbeat z) (af_removeNode z) (af_liveness z) (af_task z)
  | CommandCreateSpace, AppliedSpace v x =>
      mkApplied (af_createNamespace z) (v, x) (af_createEntity z) (af_bumpNamespace z) (af_bumpSpace z)
        (af_registerNode z) (af_heartbeat z) (af_removeNode z) (af_liveness z) (af_task z)
  | CommandCreateEntity, AppliedEntity v x =>
      mkApplied (af_createNamespace z) (af_createSpace z) (v, x) (af_bumpNamespace z) (af_bumpSpace z)
        (af_registerNode z) (af_heartbeat z) (af_removeNode z) (af_liveness z) (af_task z)
  | CommandBumpNamespace, AppliedNamespace v x =>
      mkApplied (af_createNamespace z) (af_createSpace z) (af_createEntity z) (v, x) (af_bumpSpace z)
        (af_registerNode z) (af_heartbeat z) (af_removeNode z) (af_liveness z) (af_task z)
  | CommandBumpSpace, AppliedSpace v x =>
      mkApplied (af_createNamespace z) (af_createSpace z) (af_createEntity z) (af_bumpNamespace z) (v, x)
        (af_registerNode z) (af_heartbeat z) (af_removeNode z) (af_liveness z) (af_task z)
  | CommandRegisterNode, AppliedNode v x =>
      mkApplied (af_createNamespace z) (af_createSpace z) (af_createEntity z) (af_bumpNamespace z) (af_bumpSpace z)
        (v, x) (af_heartbeat z) (af_removeNode z) (af_liveness z) (af_task z)
  | CommandHeartbeat, AppliedNode v x =>
      mkApplied (af_createNamespace z) (af_createSpace z) (af_createEntity z) (af_bumpNamespace z) (af_bumpSpace z)
        (af_registerNode z) (v, x) (af_removeNode z) (af_liveness z) (af_task z)
  | CommandRemoveNode, AppliedNode v x =>
      mkApplied (af_createNamespace z) (af_createSpace z) (af_createEntity z) (af_bumpNamespace z) (af_bumpSpace z)
        (af_registerNode z) (af_heartbeat z) (v, x) (af_liveness z) (af_task z)
  | CommandAdvanceNodeLiveness, AppliedLiveness v x =>
      mkApplied (af_createNamespace z) (af_createSpace z) (af_createEntity z) (af_bumpNamespace z) (af_bumpSpace z)
        (af_registerNode z) (af_heartbeat z) (af_removeNode z) (v, x) (af_task z)
  | _, AppliedTask b x =>
      mkApplied (af_createNamespace z) (af_createSpace z) (af_createEntity z) (af_bumpNamespace z) (af_bumpSpace z)
        (af_registerNode z) (af_heartbeat z) (af_removeNode z) (af_liveness z) (b, x)
  | _, _ => z
  end.

(** The code of an error of the control state.
    src: control/catalog_validation.go ErrInvalidNamespace 10-16 *)
Definition controlErrorCode (e : controlError) : string :=
  match e with
  | ErrInvalidNamespace => "invalid_namespace"
  | ErrInvalidSpace => "invalid_space"
  | ErrInvalidEntity => "invalid_entity"
  | ErrNamespaceNotFound => "namespace_not_found"
  | ErrSpaceNotFound => "space_not_found"
  | ErrInvalidNode => "invalid_node"
  | ErrNodeNotFound => "node_not_found"
  | ErrMigrationTaskNotFound => "migration_task_not_found"
  | ErrUnknownCommand => ""
  end.

(** [dragonstatemachine.Result]. *)
Record smResult := mkSmResult { sm_value : Z; sm_data : list byte }.

Section StateMachine.
  Context `{!RangeOrder} (errorText : controlError -> string).

(** src: control/dragonboat_state_machine.go newDragonboatApplyError *)
Definition newDragonboatApplyError (e : controlError) : dragonboatApplyError :=
  mkApplyError (errorText e) (controlErrorCode e).

(** src: control/dragonboat_state_machine.go toError *)
Definition toError (e : dragonboatApplyError) : raftError :=
  if bool_decide (ae_code e = "") then ErrRaftCommand "control_raft_command_failed" (ae_message e)
  else ErrRaftCommand (ae_code e) (ae_message e).

(** The envelope of what a command returned. *)
Definition envelopeOf (c : Command) (r : result controlError ApplyResult) : dragonboatApplyEnvelope :=
  match r with
  | Ok r => mkEnvelope (fieldsOf (cm_type c) r) None
  | Err e => mkEnvelope zeroApplied (Some (newDragonboatApplyError e))
  end.

(** [None] when the entry is not a command: an error the NodeHost does not
    survive.
    src: control/dragonboat_state_machine.go Update *)
Definition Update (raw : list byte) (clock : nat -> Time) (s : ControlState) : ControlState * option smResult :=
  match Unmarshal commandCodec raw with
  | None => (s, None)
  | Some command =>
      let '(s, r) := Apply command clock s in
      (s, Some (mkSmResult (cs_revision s) (Marshal envelopeCodec (envelopeOf command r))))
  end.

(** src: control/dragonboat_state_machine.go Lookup *)
Definition Lookup (s : ControlState) : ControlSnapshot := ExportSnapshot s.

(** [None] when the snapshot is stopped.
    src: control/dragonboat_state_machine.go SaveSnapshot *)
Definition saveRaftSnapshot (stopped : bool) (s : ControlState) : option (list byte) :=
  if stopped then None else Some (Encode snapshotCodec (ExportSnapshot s)).

(** src: control/dragonboat_state_machine.go RecoverFromSnapshot *)
Definition RecoverFromSnapshot (stopped : bool) (reader : list byte) (s : ControlState) : ControlState * bool :=
  if stopped then (s, false)
  else
    match Decode snapshotCodec reader with
    | None => (s, false)
    | Some snapshot =>
        match RestoreSnapshot snapshot s with
        | (s, None) => (s, true)
        | (s, Some _) => (s, false)
        end
    end.

(** src: control/dragonboat_state_machine.go decodeDragonboatApplyEnvelope *)
Definition decodeDragonboatApplyEnvelope (raw : list byte) : result raftError dragonboatApplyEnvelope :=
  match raw with
  | [] => Ok (cd_zero envelopeCodec)
  | _ =>
      match Unmarshal envelopeCodec raw with
      | Some envelope => Ok envelope
      | None => Err ErrRaftResultDecode
      end
  end.

(** ** Proposals *)

(** An entry of the log with the readings of this replica's clock while it is
    applied. *)
Definition entry : Type := list byte * (nat -> Time).

(** The entries the NodeHost hands to the state machine. *)
Definition applyEntries (entries : list entry) (s : ControlState) : ControlState :=
  foldl (fun s e => (Update e.1 e.2 s).1) s entries.

(** What a proposal meets: the entries of others applied before it, and then its
    own fate: applied and answered, or not answered although [applied] says that
    it was applied. *)
Inductive proposeFate :=
| Replied (clock : nat -> Time)
| NoReply (applied : option (nat -> Time)) (e : rawError).

Record attempt := mkAttempt { at_before : list entry; at_fate : proposeFate }.

(** [nodeHost.SyncPropose]. *)
Definition SyncPropose (raw : list byte) (a : attempt) (s : ControlState) : ControlState * result rawError smResult :=
  let s := applyEntries (at_before a) s in
  match at_fate a with
  | Replied clock =>
      match Update raw clock s with
      | (s, Some result) => (s, Ok result)
      | (s, None) => (s, Err FinalError)
      end
  | NoReply (Some clock) e => ((Update raw clock s).1, Err e)
  | NoReply None e => (s, Err e)
  end.

(** The environment of a call: when it starts, how its trials go and what their
    proposals meet. *)
Record raftEnv := mkRaftEnv { re_start : Time; re_trials : nat -> trial; re_attempts : nat -> attempt }.

(** src: control/dragonboat_retry.go syncPropose *)
Definition syncPropose (timeout : Duration) (env : raftEnv) (raw : list byte) (s : ControlState)
    : option (ControlState * result rawError smResult) :=
  dragonboatRetry (fun i => SyncPropose raw (re_attempts env i)) (re_trials env) timeout (re_start env) s.

(** [json.Marshal] of a [Command] does not fail.
    src: control/dragonboat.go Propose *)
Definition Propose (timeout : Duration) (env : raftEnv) (command : Command) (s : ControlState)
    : option (ControlState * result raftError ApplyFields) :=
  match syncPropose timeout env (Marshal commandCodec command) s with
  | None => None
  | Some (s, Err _) => Some (s, Err ErrRaftPropose)
  | Some (s, Ok result) =>
      match decodeDragonboatApplyEnvelope (sm_data result) with
      | Err err => Some (s, Err err)
      | Ok envelope =>
          match en_error envelope with
          | Some e => Some (s, Err (toError e))
          | None => Some (s, Ok (en_result envelope))
          end
      end
  end.
End StateMachine.

(** * Properties of the raft runtime *)

From S2P Require Import GoJsonSpec.
From S2P Require Import ControlSpec.
From S2P Require Import ControlWire.

(** ** The retry loop *)

Lemma TimeSub_pos t u : (TimeSub t u <=? 0) = (t <=? u).
Proof. unfold TimeSub, minInt64, maxInt64, Time in *. apply eq_true_iff_eq. rewrite !Z.leb_le. lia. Qed.

(** A wait ends 25 ms later, or the deadline has passed. *)
Lemma wait_advances t deadline now e now' : waitDragonboatRetry t deadline now e = Ok now' ->
  now + 25000000 <= now' \/ deadline <= now'.
Proof.
  unfold waitDragonboatRetry, minDuration, TimeSub, TimeAdd, minInt64, maxInt64, Time in *. repeat case_bool; intros [= <-]; lia.
Qed.

Section Retry.
  Context {W T : Type} (operation : nat -> W -> W * result rawError T) (trials : nat -> trial).
  Context (Htook : forall i, 0 <= tr_took (trials i)).

Lemma dragonboatLoop_ends fuel : forall i deadline now w, (1 <= fuel)%nat -> deadline - now <= (Z.of_nat fuel - 1) * 25000000 ->
  is_Some (dragonboatLoop operation trials fuel i deadline now w).
Proof.
  induction fuel as [|fuel IH]; intros i deadline now w Hf Hd; [lia|]. cbn [dragonboatLoop]. rewrite TimeSub_pos.
  destruct (Z.leb_spec deadline now); [done|]. destruct (operation i w) as [w' [x|raw]]; [done|].
  destruct (negb _); [done|].
  destruct (waitDragonboatRetry _ _ _ _) as [now'|e] eqn:Ew; [|done]. apply wait_advances in Ew.
  specialize (Htook i). unfold TimeAdd in Ew. apply IH; [lia|]. destruct Ew; lia.
Qed.

Lemma dragonboatRetry_ends timeout start w : is_Some (dragonboatRetry operation trials timeout start w).
Proof.
  apply dragonboatLoop_ends; unfold retryFuel, TimeAdd; [lia|]. rewrite Z2Nat.id by lia.
  pose proof (Z.mod_pos_bound timeout 25000000 ltac:(lia)). pose proof (Z.div_mod timeout 25000000 ltac:(lia)). lia.
Qed.

(** What the trials keep and what the last one gives. *)
Lemma dragonboatLoop_rule (I : nat -> W -> Prop) (Q : W -> T -> Prop) :
  (forall i w w' e, I i w -> operation i w = (w', Err e) -> I (S i) w') ->
  (forall i w w' x, I i w -> operation i w = (w', Ok x) -> Q w' x) ->
  forall fuel i deadline now w w' r, I i w -> dragonboatLoop operation trials fuel i deadline now w = Some (w', r) ->
  match r with Ok x => Q w' x | Err _ => exists n, I n w' end.
Proof.
  intros HI HQ. induction fuel as [|fuel IH]; intros i deadline now w w' r Hi; [done|]. cbn [dragonboatLoop].
  case_bool; [intros [= <- <-]; by eexists|]. destruct (operation i w) as [w1 [x|raw]] eqn:Eo.
  - intros [= <- <-]. by eapply HQ.
  - apply (HI i) in Eo; [|done]. case_bool; [intros [= <- <-]; by eexists|].
    destruct (waitDragonboatRetry _ _ _ _); [|intros [= <- <-]; by eexists]. by apply IH.
Qed.
End Retry.

(** ** Proposals *)

Section Propose.
  Context `{!RangeOrder} (errorText : controlError -> string).

(** The entries of others that the first [n] attempts met. *)
Definition entriesBefore (env : raftEnv) (n : nat) : list entry :=
  concat ((fun i => at_before (re_attempts env i)) <$> seq 0 n).

Lemma applyEntries_app l1 l2 s :
  applyEntries errorText (l1 ++ l2) s = applyEntries errorText l2 (applyEntries errorText l1 s).
Proof. unfold applyEntries. by rewrite foldl_app. Qed.

Lemma entriesBefore_S env n : entriesBefore env (S n) = entriesBefore env n ++ at_before (re_attempts env n).
Proof. unfold entriesBefore. rewrite seq_S, fmap_app, concat_app. cbn. by rewrite app_nil_r. Qed.

(** No attempt whose answer was lost has been applied. *)
Definition nothing_lost (env : raftEnv) : Prop :=
  forall i applied e, at_fate (re_attempts env i) = NoReply applied e -> applied = None.

(** The reply of a command as the caller of a proposal sees it. *)
Definition replyOf (c : Command) (r : result controlError ApplyResult) : result raftError ApplyFields :=
  match r with
  | Ok r => Ok (fieldsOf (cm_type c) r)
  | Err e => Err (toError (newDragonboatApplyError errorText e))
  end.

Lemma Marshal_nonempty {A} (c : codec A) a : print compact 0 (cd_write c a) <> [] -> Marshal c a <> [].
Proof. unfold Marshal. by destruct (print _ _ _). Qed.

(** The answer of the state machine, decoded. *)
Lemma decode_envelope c r : envelope_wire (envelopeOf errorText c r) ->
  decodeDragonboatApplyEnvelope (Marshal envelopeCodec (envelopeOf errorText c r)) = Ok (envelopeOf errorText c r).
Proof.
  intros Hw. unfold decodeDragonboatApplyEnvelope. rewrite envelope_roundtrip by done.
  destruct (Marshal envelopeCodec _) eqn:E; [|done]. by apply Marshal_nonempty in E.
Qed.

(** What [Propose] makes of an envelope. *)
Definition openEnvelope (en : dragonboatApplyEnvelope) : result raftError ApplyFields :=
  match en_error en with Some e => Err (toError e) | None => Ok (en_result en) end.

Lemma openEnvelope_of c r : openEnvelope (envelopeOf errorText c r) = replyOf c r.
Proof. by destruct r. Qed.

Lemma Update_command c clock s : command_wire c ->
  Update errorText (Marshal commandCodec c) clock s =
  ((Apply c clock s).1, Some (mkSmResult (cs_revision (Apply c clock s).1)
     (Marshal envelopeCodec (envelopeOf errorText c (Apply c clock s).2)))).
Proof. intros Hc. unfold Update. rewrite command_roundtrip by done. by destruct (Apply c clock s). Qed.

(** What a call of [Propose] may come to: refused with the command not applied, or
    applied once, after the entries of others. *)
Definition proposed (c : Command) (env : raftEnv) (s s' : ControlState) (r : result raftError ApplyFields) : Prop :=
  (exists n, s' = applyEntries errorText (entriesBefore env n) s /\ r = Err ErrRaftPropose) \/
  (exists n clock, at_fate (re_attempts env n) = Replied clock /\
     let before := applyEntries errorText (entriesBefore env (S n)) s in
     s' = (Apply c clock before).1 /\
     (state_wire before -> clock_wire clock -> routes_room before -> r = replyOf c (Apply c clock before).2)).

Lemma zero_wire : utf8 "" /\ is_u64 0 /\ is_u32 0 /\ is_s64 0.
Proof. split_and!; [reflexivity|unfold is_u64; lia|unfold is_u32; lia|unfold is_s64; lia]. Qed.

Lemma zeroApplied_wire : applied_wire zeroApplied.
Proof.
  destruct zero_wire as (U & U64 & U32 & S64).
  unfold applied_wire, response_wire, namespace_wire, space_wire, entity_wire, node_wire, task_wire, zeroApplied, zeroNamespace,
    zeroSpace, zeroEntity, zeroNode, zeroTask.
  cbn [af_createNamespace af_createSpace af_createEntity af_bumpNamespace af_bumpSpace af_registerNode af_heartbeat
    af_removeNode af_liveness af_task fst snd]. 
  repeat match goal with |- _ /\ _ => split end; first [assumption|apply List.Forall_nil].
Qed.

(** The zero fields and the field a command sets. *)
Lemma fieldsOf_wire t r : result_wire r -> applied_wire (fieldsOf t r).
Proof.
  pose proof zeroApplied_wire as Hz. pose proof Hz as (Z1 & Z2 & Z3 & Z4 & Z5 & Z6 & Z7 & Z8 & Z9 & Z10).
  intros Hr. destruct t, r; try exact Hz;
    (split_and!; first [assumption|exact Hr]).
Qed.

Lemma envelopeOf_wire c r : (forall e, utf8 (errorText e)) -> match r with Ok r => result_wire r | Err _ => True end ->
  envelope_wire (envelopeOf errorText c r).
Proof.
  intros He Hr. destruct r as [r|e].
  - split; [by apply fieldsOf_wire|exact I].
  - split; [exact zeroApplied_wire|]. split; [apply He|]. destruct e; reflexivity.
Qed.

Lemma Propose_once timeout env c s : (forall e, utf8 (errorText e)) -> (forall i, 0 <= tr_took (re_trials env i)) ->
  command_sane c -> nothing_lost env ->
  exists s' r, Propose errorText timeout env c s = Some (s', r) /\ proposed c env s s' r.
Proof.
  intros He Ht Hsane Hl. pose proof (proj1 Hsane) as Hc. unfold Propose, syncPropose.
  set (op := fun i => SyncPropose errorText (Marshal commandCodec c) (re_attempts env i)).
  destruct (dragonboatRetry_ends op (re_trials env) Ht timeout (re_start env) s) as [[s' r] E].
  rewrite E. unfold dragonboatRetry in E.
  apply (dragonboatLoop_rule op (re_trials env) (fun n w => w = applyEntries errorText (entriesBefore env n) s)
    (fun w x => exists n clock, at_fate (re_attempts env n) = Replied clock /\
       let before := applyEntries errorText (entriesBefore env (S n)) s in
       w = (Apply c clock before).1 /\ sm_data x = Marshal envelopeCodec (envelopeOf errorText c (Apply c clock before).2)))
    in E; [| | |done].
  - destruct r as [x|e]; [|destruct E as [n ->]; eexists _, _; split; [done|left; by eexists]].
    destruct E as (n & clock & Hn & -> & Hd). rewrite Hd.
    set (before := applyEntries errorText (entriesBefore env (S n)) s).
    assert (state_wire before -> clock_wire clock -> routes_room before ->
      envelope_wire (envelopeOf errorText c (Apply c clock before).2)) as Hwire
      by (intros; apply envelopeOf_wire; [exact He|by apply Apply_wire]).
    destruct (decodeDragonboatApplyEnvelope _) as [en|err] eqn:Ed.
    + assert (envelope_wire (envelopeOf errorText c (Apply c clock before).2) -> en = envelopeOf errorText c (Apply c clock before).2)
        as Hen by (intros Hw; rewrite decode_envelope in Ed by done; by injection Ed).
      exists (Apply c clock before).1, (openEnvelope en). split; [clear; unfold openEnvelope; by destruct (en_error en)|].
      right. exists n, clock. split; [exact Hn|]. split; [reflexivity|]. intros Hb Hk Hroom. rewrite (Hen (Hwire Hb Hk Hroom)).
      apply openEnvelope_of.
    + eexists _, _. split; [done|]. right. exists n, clock. split; [done|]. split; [done|].
      intros Hb Hk Hroom. by rewrite (decode_envelope _ _ (Hwire Hb Hk Hroom)) in Ed.
  - intros i w w' e -> Eo. rewrite entriesBefore_S, applyEntries_app. unfold op, SyncPropose in Eo.
    destruct (at_fate (re_attempts env i)) as [clock|applied e'] eqn:Ef; [by rewrite Update_command in Eo|].
    rewrite (Hl i applied e' Ef) in Eo. by injection Eo as <- _.
  - intros i w w' x -> Eo. exists i. unfold op, SyncPropose in Eo.
    destruct (at_fate (re_attempts env i)) as [clock|[clock|] e'] eqn:Ef; [|done|done].
    exists clock. split; [done|]. rewrite <- applyEntries_app, <- entriesBefore_S in Eo.
    rewrite Update_command in Eo by done. by injection Eo as <- <-.
Qed.
End Propose.
