(* ===== verification/GoFloat.v ===== *)
(** * Go's math.Float64bits and math.Float64frombits

    A [float64] is a [spec_float] (SpecFloat); its bits are the IEEE 754 binary64
    interchange format: a sign bit, eleven exponent bits and fifty-two fraction
    bits.  The model has one not-a-number, the one of Go's [math.NaN]. *)

From S2P Require Import Prelude.
From Stdlib Require Export SpecFloat.

Local Open Scope Z_scope.

Definition signBit (s : bool) : Z := if s then 2 ^ 63 else 0.

(** [math.Float64bits]. *)
Definition Float64bits (f : spec_float) : Z :=
  match f with
  | S754_zero s => signBit s
  | S754_infinity s => signBit s + 2047 * 2 ^ 52
  | S754_nan => 0x7FF8000000000001
  | S754_finite s m e =>
      if Zpos m <? 2 ^ 52 then signBit s + Zpos m
      else signBit s + (e + 1075) * 2 ^ 52 + (Zpos m - 2 ^ 52)
  end.

(** [math.Float64frombits]. *)
Definition Float64frombits (b : Z) : spec_float :=
  let s := Z.testbit b 63 in
  let exponent := (b / 2 ^ 52) mod 2 ^ 11 in
  let fraction := b mod 2 ^ 52 in
  if exponent =? 2047 then if fraction =? 0 then S754_infinity s else S754_nan
  else if exponent =? 0 then
    if fraction =? 0 then S754_zero s else S754_finite s (Z.to_pos fraction) (-1074)
  else S754_finite s (Z.to_pos (fraction + 2 ^ 52)) (exponent - 1075).

(** The [float64] values: a finite number has at most 53 significant bits, all
    of them unless it is subnormal. *)
Definition is_float64 (f : spec_float) : Prop :=
  match f with
  | S754_finite _ m e =>
      (2 ^ 52 <= Zpos m < 2 ^ 53 /\ -1074 <= e <= 971) \/ (Zpos m < 2 ^ 52 /\ e = -1074)
  | _ => True
  end.

#[global] Instance is_float64_dec f : Decision (is_float64 f).
Proof. destruct f; cbn; apply _. Defined.

Lemma split_bits s x f : 0 <= x < 2 ^ 11 -> 0 <= f < 2 ^ 52 ->
  let b := signBit s + x * 2 ^ 52 + f in
  Z.testbit b 63 = s /\ (b / 2 ^ 52) mod 2 ^ 11 = x /\ b mod 2 ^ 52 = f.
Proof.
  intros Hx Hf b.
  assert (b = signBit s / 2 ^ 52 * 2 ^ 52 + x * 2 ^ 52 + f) as Hb
    by (unfold b; destruct s; cbn [signBit]; reflexivity || lia).
  split_and!.
  - destruct s; unfold b, signBit; rewrite Z.testbit_odd, Z.shiftr_div_pow2 by lia.
    + replace (2 ^ 63 + x * 2 ^ 52 + f) with (x * 2 ^ 52 + f + 1 * 2 ^ 63) by lia.
      rewrite Z.div_add, Z.div_small by lia. done.
    + rewrite Z.div_small by lia. done.
  - replace b with (f + (signBit s / 2 ^ 52 + x) * 2 ^ 52) by lia.
    rewrite Z.div_add, Z.div_small by lia. rewrite Z.add_0_l.
    destruct s; cbn [signBit].
    + replace (2 ^ 63 / 2 ^ 52 + x) with (x + 1 * 2 ^ 11) by (change (2 ^ 63 / 2 ^ 52) with (2 ^ 11); lia).
      rewrite Z.mod_add, Z.mod_small by lia. done.
    + change (0 / 2 ^ 52) with 0. rewrite Z.mod_small; lia.
  - replace b with (f + (signBit s / 2 ^ 52 + x) * 2 ^ 52) by lia.
    rewrite Z.mod_add, Z.mod_small by lia. done.
Qed.

Lemma Float64frombits_split s x f : 0 <= x < 2 ^ 11 -> 0 <= f < 2 ^ 52 ->
  Float64frombits (signBit s + x * 2 ^ 52 + f) =
    if x =? 2047 then if f =? 0 then S754_infinity s else S754_nan
    else if x =? 0 then if f =? 0 then S754_zero s else S754_finite s (Z.to_pos f) (-1074)
    else S754_finite s (Z.to_pos (f + 2 ^ 52)) (x - 1075).
Proof.
  intros Hx Hf. destruct (split_bits s x f Hx Hf) as (E1 & E2 & E3).
  unfold Float64frombits. by rewrite E1, E2, E3.
Qed.

(** Bits and back. *)
Lemma Float64frombits_bits f : is_float64 f -> Float64frombits (Float64bits f) = f.
Proof.
  destruct f as [s|s| |s m e]; cbn [is_float64 Float64bits]; intros Hf.
  - pose proof (Float64frombits_split s 0 0 ltac:(lia) ltac:(lia)) as E. cbn in E. by destruct s.
  - pose proof (Float64frombits_split s 2047 0 ltac:(lia) ltac:(lia)) as E. by rewrite Z.add_0_r in E.
  - done.
  - destruct (Z.ltb_spec (Zpos m) (2 ^ 52)).
    + assert (e = -1074) as -> by lia.
      pose proof (Float64frombits_split s 0 (Zpos m) ltac:(lia) ltac:(lia)) as E.
      rewrite Z.mul_0_l, Z.add_0_r in E. exact E.
    + rewrite Float64frombits_split by lia.
      rewrite (proj2 (Z.eqb_neq _ 2047)), (proj2 (Z.eqb_neq _ 0)) by lia.
      f_equal; [|lia]. replace (Zpos m - 2 ^ 52 + 2 ^ 52) with (Zpos m) by lia. done.
Qed.

Lemma Float64bits_range f : is_float64 f -> is_u64 (Float64bits f).
Proof.
  unfold is_u64. destruct f as [s|s| |s m e]; cbn [is_float64 Float64bits]; [destruct s; cbn; lia..|lia|].
  destruct s; cbn [signBit]; case_match; lia.
Qed.
