(* ===== verification/WireTypes.v ===== *)
(** * Wire data (cachewire: types.go, migration_types.go, primitive_types.go)

    The requests and responses of the cache TCP protocol.  The types keep the
    names of the package; clients of this file that also use the engine's types
    name them with the file first ([WireTypes.Key], [EngineTypes.Key]), as the Go
    code does with the package.  An embedded [Key] is a field. *)

From S2P Require Import Prelude.
From Stdlib Require Export SpecFloat.

Local Open Scope Z_scope.

Abbreviation float64 := spec_float.

(** src: cachewire/types.go Key *)
Record Key := mkKey {
  wk_namespace : string;
  wk_space : string;
  wk_entity : string;
  wk_key : string
}.

#[global] Instance Key_eq_dec : EqDecision Key.
Proof. solve_decision. Defined.

Definition zeroKey : Key := mkKey "" "" "" "".

(** ** Single requests *)

(** src: cachewire/types.go SetRequest *)
Record SetRequest := mkSetRequest {
  ws_key : Key;
  ws_value : list byte;
  ws_routeEpoch : Z;
  ws_ttlMillis : Z;
  ws_namespaceVersion : Z;
  ws_spaceVersion : Z;
  ws_expectedVersion : Z;
  ws_payloadOffset : Z;
  ws_payloadSize : Z
}.

(** src: cachewire/types.go GetRequest *)
Record GetRequest := mkGetRequest {
  wg_key : Key;
  wg_routeEpoch : Z;
  wg_namespaceVersion : Z;
  wg_spaceVersion : Z
}.

(** src: cachewire/types.go DeleteRequest *)
Record DeleteRequest := mkDeleteRequest {
  wd_key : Key;
  wd_routeEpoch : Z;
  wd_expectedVersion : Z
}.

(** src: cachewire/types.go ExistsRequest *)
Record ExistsRequest := mkExistsRequest {
  we_key : Key;
  we_routeEpoch : Z;
  we_namespaceVersion : Z;
  we_spaceVersion : Z
}.

(** src: cachewire/types.go TouchRequest *)
Record TouchRequest := mkTouchRequest {
  wt_key : Key;
  wt_routeEpoch : Z;
  wt_ttlMillis : Z;
  wt_namespaceVersion : Z;
  wt_spaceVersion : Z;
  wt_expectedVersion : Z
}.

(** src: cachewire/types.go AdjustRequest *)
Record AdjustRequest := mkAdjustRequest {
  wa_key : Key;
  wa_routeEpoch : Z;
  wa_ttlMillis : Z;
  wa_initialValue : Z;
  wa_delta : Z;
  wa_namespaceVersion : Z;
  wa_spaceVersion : Z;
  wa_expectedVersion : Z
}.

(** ** Batches *)

(** src: cachewire/types.go BatchSetRequest *)
Record BatchSetRequest := mkBatchSetRequest { bs_routeEpoch : Z; bs_items : list SetRequest }.

(** src: cachewire/types.go BatchGetRequest *)
Record BatchGetRequest := mkBatchGetRequest { bg_routeEpoch : Z; bg_items : list GetRequest }.

(** src: cachewire/types.go BatchDeleteRequest *)
Record BatchDeleteRequest := mkBatchDeleteRequest { bd_routeEpoch : Z; bd_items : list DeleteRequest }.

(** src: cachewire/types.go BatchExistsRequest *)
Record BatchExistsRequest := mkBatchExistsRequest { be_routeEpoch : Z; be_items : list ExistsRequest }.

(** src: cachewire/types.go BatchTouchRequest *)
Record BatchTouchRequest := mkBatchTouchRequest { bt_routeEpoch : Z; bt_items : list TouchRequest }.

(** ** Responses *)

(** The struct [Record] of types.go.
    src: cachewire/types.go Record *)
Record WireRecord := mkRecord {
  wr_found : bool;
  wr_namespace : string;
  wr_space : string;
  wr_entity : string;
  wr_key : string;
  wr_value : list byte;
  wr_version : Z;
  wr_namespaceVersion : Z;
  wr_spaceVersion : Z;
  wr_expireAtUnixMs : Z;
  wr_payloadOffset : Z;
  wr_payloadSize : Z
}.

(** [Record{Found: false}]. *)
Definition missingRecord : WireRecord := mkRecord false "" "" "" "" [] 0 0 0 0 0 0.

(** src: cachewire/types.go DeleteResponse *)
Record DeleteResponse := mkDeleteResponse { dresp_deleted : bool }.

(** src: cachewire/types.go ExistsResponse *)
Record ExistsResponse := mkExistsResponse { eresp_exists : bool }.

(** src: cachewire/types.go TouchResponse *)
Record TouchResponse := mkTouchResponse { tresp_touched : bool }.

(** src: cachewire/types.go BatchSetResponse *)
Record BatchSetResponse := mkBatchSetResponse { bsr_records : list WireRecord }.

(** src: cachewire/types.go BatchGetResponse *)
Record BatchGetResponse := mkBatchGetResponse { bgr_records : list WireRecord }.

(** src: cachewire/types.go BatchDeleteResponse *)
Record BatchDeleteResponse := mkBatchDeleteResponse { bdr_results : list DeleteResponse }.

(** src: cachewire/types.go BatchExistsResponse *)
Record BatchExistsResponse := mkBatchExistsResponse { ber_results : list ExistsResponse }.

(** src: cachewire/types.go BatchTouchResponse *)
Record BatchTouchResponse := mkBatchTouchResponse { btr_results : list TouchResponse }.

(** ** Migration *)

(** src: cachewire/migration_types.go MigrationRangeRequest *)
Record MigrationRangeRequest := mkMigrationRangeRequest {
  mrq_namespace : string;
  mrq_space : string;
  mrq_vslotStart : Z;
  mrq_vslotEnd : Z;
  mrq_routeEpoch : Z
}.

(** src: cachewire/migration_types.go MigrationSnapshotEntry *)
Record MigrationSnapshotEntry := mkMigrationSnapshotEntry {
  me_key : Key;
  me_value : list byte;
  me_version : Z;
  me_namespaceVersion : Z;
  me_spaceVersion : Z;
  me_expireAtUnixMs : Z;
  me_createdAtUnixMs : Z;
  me_updatedAtUnixMs : Z;
  me_lastAccessAtUnixMs : Z;
  me_accessCount : Z;
  me_payloadOffset : Z;
  me_payloadSize : Z
}.

(** src: cachewire/migration_types.go MigrationSnapshot *)
Record MigrationSnapshot := mkMigrationSnapshot { ms_entries : list MigrationSnapshotEntry }.

(** src: cachewire/migration_types.go MigrationImportResponse *)
Record MigrationImportResponse := mkMigrationImportResponse { mir_imported : Z }.

(** src: cachewire/migration_types.go MigrationDeleteRangeResponse *)
Record MigrationDeleteRangeResponse := mkMigrationDeleteRangeResponse { mdr_deleted : Z }.

(** src: cachewire/migration_types.go MigrationFenceResponse *)
Record MigrationFenceResponse := mkMigrationFenceResponse { mfr_applied : bool }.

(** ** Primitives *)

(** A [PrimitiveKind] is a [uint8]; the codec does not restrict it.
    src: cachewire/primitive_types.go PrimitiveKind *)
Definition PrimitiveKind := Z.

(** src: cachewire/primitive_types.go PrimitiveRequest *)
Record PrimitiveRequest := mkPrimitiveRequest {
  wp_key : Key;
  wp_routeEpoch : Z;
  wp_kind : PrimitiveKind;
  wp_ttlMillis : Z;
  wp_namespaceVersion : Z;
  wp_spaceVersion : Z;
  wp_expectedVersion : Z;
  wp_field : string;
  wp_member : string;
  wp_value : list byte;
  wp_delta : Z;
  wp_initialValue : Z;
  wp_score : float64;
  wp_minScore : float64;
  wp_maxScore : float64;
  wp_hasMinScore : bool;
  wp_hasMaxScore : bool;
  wp_limit : Z;
  wp_start : Z;
  wp_reverse : bool;
  wp_payloadOffset : Z;
  wp_payloadSize : Z
}.

(** src: cachewire/primitive_types.go MapField *)
Record MapField := mkMapField {
  wmf_field : string;
  wmf_value : list byte;
  wmf_payloadOffset : Z;
  wmf_payloadSize : Z
}.

(** src: cachewire/primitive_types.go ScoredMember *)
Record ScoredMember := mkScoredMember { wsm_member : string; wsm_score : float64 }.

(** src: cachewire/primitive_types.go ListValue *)
Record ListValue := mkListValue {
  wlv_value : list byte;
  wlv_payloadOffset : Z;
  wlv_payloadSize : Z
}.

(** src: cachewire/primitive_types.go PrimitiveResult *)
Record PrimitiveResult := mkPrimitiveResult {
  wpr_record : WireRecord;
  wpr_found : bool;
  wpr_applied : bool;
  wpr_value : list byte;
  wpr_bool : bool;
  wpr_count : Z;
  wpr_fields : list MapField;
  wpr_members : list string;
  wpr_scoredMembers : list ScoredMember;
  wpr_values : list ListValue;
  wpr_payloadOffset : Z;
  wpr_payloadSize : Z
}.

(** src: cachewire/primitive_types.go BatchPrimitiveRequest *)
Record BatchPrimitiveRequest := mkBatchPrimitiveRequest { bp_routeEpoch : Z; bp_items : list PrimitiveRequest }.

(** src: cachewire/primitive_types.go BatchPrimitiveResponse *)
Record BatchPrimitiveResponse := mkBatchPrimitiveResponse { bpr_results : list PrimitiveResult }.
