(* ===== verification/Wire.v ===== *)
(** * Metadata codecs (cachewire: binary_cursor.go, binary.go, binary_response.go)

    A [metadataCursor] is the part of the message that has not been read, the
    [raw[pos:]] of the Go struct.  Reading is a state and error monad over it.
    Each pair of an [append] function and a [read] method is an instance of the
    class [Wire], from which the round trips of whole messages are proved. *)

From S2P Require Import Prelude.
From S2P Require Import Binary.
From S2P Require Import WireTypes.

Local Open Scope Z_scope.

(** ** Errors and readers *)

(** The errors of the package; a metadata error carries its format string.
    src: cachewire/binary.go ErrInvalidMetadata 5-5 *)
Inductive wireError :=
| ErrInvalidMetadata (format : string)
| ErrInvalidPayloadRange.

(** src: cachewire/binary_cursor.go invalidMetadata *)
Definition invalidMetadata (format : string) : wireError := ErrInvalidMetadata format.

(** src: cachewire/binary_cursor.go metadataCursor *)
Definition metadataCursor := list byte.

Definition Reader (A : Type) : Type := metadataCursor -> result wireError (A * metadataCursor).

#[global] Instance reader_ret : MRet Reader := fun A a c => Ok (a, c).
#[global] Instance reader_bind : MBind Reader := fun A B f m c =>
  match m c with Ok (a, c) => f a c | Err e => Err e end.

Definition refuse {A} (format : string) : Reader A := fun _ => Err (invalidMetadata format).

(** ** Writing *)

(** src: cachewire/binary_cursor.go binaryMetadataVersion 10-10 *)
Definition binaryMetadataVersion : byte := Byte.x01.

(** src: cachewire/binary_cursor.go newMetadata *)
Definition newMetadata : list byte := [binaryMetadataVersion].

(** src: cachewire/binary_cursor.go appendString *)
Definition appendString (raw : list byte) (value : string) : list byte :=
  let raw := AppendUvarint raw (str_len value) in
  raw ++ str_bytes value.

(** src: cachewire/binary_cursor.go appendKey *)
Definition appendKey (raw : list byte) (key : Key) : list byte :=
  let raw := appendString raw (wk_namespace key) in
  let raw := appendString raw (wk_space key) in
  let raw := appendString raw (wk_entity key) in
  appendString raw (wk_key key).

(** src: cachewire/binary_cursor.go appendBool *)
Definition appendBool (raw : list byte) (value : bool) : list byte :=
  if value then raw ++ [Byte.x01] else raw ++ [Byte.x00].

(** src: cachewire/binary_cursor.go appendUint64 *)
Definition appendUint64 (raw : list byte) (value : Z) : list byte := raw ++ be_put 8 value.

(** src: cachewire/binary_cursor.go appendUint32 *)
Definition appendUint32 (raw : list byte) (value : Z) : list byte := raw ++ be_put 4 value.

(** src: cachewire/binary_cursor.go appendInt64 *)
Definition appendInt64 (raw : list byte) (value : Z) : list byte := AppendVarint raw value.

(** ** Reading *)

(** src: cachewire/binary_cursor.go newCursor *)
Definition newCursor (raw : list byte) : result wireError metadataCursor :=
  match raw with
  | [] => Err (invalidMetadata "missing version")
  | version :: rest =>
      if negb (bool_decide (version = binaryMetadataVersion))
      then Err (invalidMetadata "unsupported version %d")
      else Ok rest
  end.

(** src: cachewire/binary_cursor.go checkedStringLength *)
Definition checkedStringLength (size remaining : Z) : result wireError Z :=
  if maxInt64 <? size then Err (invalidMetadata "string exceeds metadata")
  else if remaining <? size then Err (invalidMetadata "string exceeds metadata")
  else Ok size.

(** src: cachewire/binary_cursor.go readString *)
Definition readString : Reader string := fun c =>
  let '(size, count) := Uvarint c in
  if count <=? 0 then Err (invalidMetadata "invalid string size")
  else
    let c := drop (Z.to_nat count) c in
    length ← checkedStringLength size (zlen c);
    Ok (bytes_str (take (Z.to_nat length) c), drop (Z.to_nat length) c).

(** src: cachewire/binary_cursor.go readBool *)
Definition readBool : Reader bool := fun c =>
  match c with
  | [] => Err (invalidMetadata "missing bool")
  | value :: c =>
      if bool_decide (value = Byte.x00) then Ok (false, c)
      else if bool_decide (value = Byte.x01) then Ok (true, c)
      else Err (invalidMetadata "invalid bool %d")
  end.

(** src: cachewire/binary_cursor.go readUint64 *)
Definition readUint64 : Reader Z := fun c =>
  if zlen c <? 8 then Err (invalidMetadata "missing uint64")
  else Ok (be_get (take 8 c), drop 8 c).

(** src: cachewire/binary_cursor.go readUint32 *)
Definition readUint32 : Reader Z := fun c =>
  if zlen c <? 4 then Err (invalidMetadata "missing uint32")
  else Ok (be_get (take 4 c), drop 4 c).

(** src: cachewire/binary_cursor.go readInt64 *)
Definition readInt64 : Reader Z := fun c =>
  let '(value, count) := Varint c in
  if count <=? 0 then Err (invalidMetadata "invalid int64")
  else Ok (value, drop (Z.to_nat count) c).

(** src: cachewire/binary_cursor.go readCount *)
Definition readCount : Reader Z :=
  count ← readUint64;
  ((fun c => length ← checkedStringLength count (zlen c); Ok (length, c)) : Reader Z).

(** src: cachewire/binary_cursor.go ensureEOF *)
Definition ensureEOF (c : metadataCursor) : result wireError unit :=
  match c with [] => Ok tt | _ :: _ => Err (invalidMetadata "trailing bytes") end.

(** src: cachewire/binary_cursor.go readKey *)
Definition readKey : Reader Key :=
  namespace ← readString;
  space ← readString;
  entity ← readString;
  key ← readString;
  mret (mkKey namespace space entity key).

(** src: cachewire/binary_cursor.go readVersionedKey *)
Definition readVersionedKey : Reader (Key * Z * Z) :=
  key ← readKey;
  namespaceVersion ← readUint64;
  spaceVersion ← readUint64;
  mret (key, namespaceVersion, spaceVersion).

(** Open a cursor, read, and check that nothing is left: the frame of every
    decoder. *)
Definition decodeAll {A} (read : Reader A) (raw : list byte) : result wireError A :=
  cursor ← newCursor raw;
  '(a, cursor) ← read cursor;
  _ ← ensureEOF cursor;
  Ok a.

(** [ensureEOF] inside a method of the cursor. *)
Definition atEOF : Reader unit := fun c => _ ← ensureEOF c; Ok (tt, c).

(** src: cachewire/binary_cursor.go readRecord *)
Definition readRecord : Reader WireRecord :=
  namespace ← readString;
  space ← readString;
  entity ← readString;
  key ← readString;
  version ← readUint64;
  namespaceVersion ← readUint64;
  spaceVersion ← readUint64;
  expireAtUnixMs ← readInt64;
  _ ← atEOF;
  mret (mkRecord true namespace space entity key [] version namespaceVersion spaceVersion expireAtUnixMs 0 0).

(** ** Single requests *)

(** src: cachewire/binary.go EncodeSetRequest *)
Definition EncodeSetRequest (request : SetRequest) : list byte :=
  let raw := newMetadata in
  let raw := appendKey raw (ws_key request) in
  let raw := appendInt64 raw (ws_ttlMillis request) in
  let raw := appendUint64 raw (ws_namespaceVersion request) in
  let raw := appendUint64 raw (ws_spaceVersion request) in
  appendUint64 raw (ws_expectedVersion request).

(** src: cachewire/binary.go DecodeSetRequest *)
Definition DecodeSetRequest : list byte -> result wireError SetRequest := decodeAll (
  key ← readKey;
  ttlMillis ← readInt64;
  namespaceVersion ← readUint64;
  spaceVersion ← readUint64;
  expectedVersion ← readUint64;
  mret (mkSetRequest key [] 0 ttlMillis namespaceVersion spaceVersion expectedVersion 0 0)).

(** src: cachewire/binary.go EncodeGetRequest *)
Definition EncodeGetRequest (request : GetRequest) : list byte :=
  let raw := newMetadata in
  let raw := appendKey raw (wg_key request) in
  let raw := appendUint64 raw (wg_namespaceVersion request) in
  appendUint64 raw (wg_spaceVersion request).

(** src: cachewire/binary_response.go decodeVersionedKey *)
Definition decodeVersionedKey : list byte -> result wireError (Key * Z * Z) := decodeAll readVersionedKey.

(** src: cachewire/binary.go DecodeGetRequest *)
Definition DecodeGetRequest (raw : list byte) : result wireError GetRequest :=
  '(key, namespaceVersion, spaceVersion) ← decodeVersionedKey raw;
  Ok (mkGetRequest key 0 namespaceVersion spaceVersion).

(** src: cachewire/binary.go EncodeDeleteRequest *)
Definition EncodeDeleteRequest (request : DeleteRequest) : list byte :=
  let raw := newMetadata in
  let raw := appendKey raw (wd_key request) in
  appendUint64 raw (wd_expectedVersion request).

(** src: cachewire/binary.go DecodeDeleteRequest *)
Definition DecodeDeleteRequest : list byte -> result wireError DeleteRequest := decodeAll (
  key ← readKey;
  expectedVersion ← readUint64;
  mret (mkDeleteRequest key 0 expectedVersion)).

(** src: cachewire/binary.go EncodeExistsRequest *)
Definition EncodeExistsRequest (request : ExistsRequest) : list byte :=
  let raw := newMetadata in
  let raw := appendKey raw (we_key request) in
  let raw := appendUint64 raw (we_namespaceVersion request) in
  appendUint64 raw (we_spaceVersion request).

(** src: cachewire/binary.go DecodeExistsRequest *)
Definition DecodeExistsRequest (raw : list byte) : result wireError ExistsRequest :=
  '(key, namespaceVersion, spaceVersion) ← decodeVersionedKey raw;
  Ok (mkExistsRequest key 0 namespaceVersion spaceVersion).

(** src: cachewire/binary.go EncodeTouchRequest *)
Definition EncodeTouchRequest (request : TouchRequest) : list byte :=
  let raw := newMetadata in
  let raw := appendKey raw (wt_key request) in
  let raw := appendInt64 raw (wt_ttlMillis request) in
  let raw := appendUint64 raw (wt_namespaceVersion request) in
  let raw := appendUint64 raw (wt_spaceVersion request) in
  appendUint64 raw (wt_expectedVersion request).

(** src: cachewire/binary.go DecodeTouchRequest *)
Definition DecodeTouchRequest : list byte -> result wireError TouchRequest := decodeAll (
  key ← readKey;
  ttlMillis ← readInt64;
  namespaceVersion ← readUint64;
  spaceVersion ← readUint64;
  expectedVersion ← readUint64;
  mret (mkTouchRequest key 0 ttlMillis namespaceVersion spaceVersion expectedVersion)).

(** src: cachewire/binary.go EncodeAdjustRequest *)
Definition EncodeAdjustRequest (request : AdjustRequest) : list byte :=
  let raw := newMetadata in
  let raw := appendKey raw (wa_key request) in
  let raw := appendInt64 raw (wa_ttlMillis request) in
  let raw := appendInt64 raw (wa_initialValue request) in
  let raw := appendInt64 raw (wa_delta request) in
  let raw := appendUint64 raw (wa_namespaceVersion request) in
  let raw := appendUint64 raw (wa_spaceVersion request) in
  appendUint64 raw (wa_expectedVersion request).

(** src: cachewire/binary.go DecodeAdjustRequest *)
Definition DecodeAdjustRequest : list byte -> result wireError AdjustRequest := decodeAll (
  key ← readKey;
  ttlMillis ← readInt64;
  initialValue ← readInt64;
  delta ← readInt64;
  namespaceVersion ← readUint64;
  spaceVersion ← readUint64;
  expectedVersion ← readUint64;
  mret (mkAdjustRequest key 0 ttlMillis initialValue delta namespaceVersion spaceVersion expectedVersion)).

(** ** Single responses *)

(** src: cachewire/binary_response.go EncodeRecord *)
Definition EncodeRecord (record : WireRecord) : list byte :=
  let raw := newMetadata in
  let raw := appendBool raw (wr_found record) in
  if negb (wr_found record) then raw
  else
    let raw := appendString raw (wr_namespace record) in
    let raw := appendString raw (wr_space record) in
    let raw := appendString raw (wr_entity record) in
    let raw := appendString raw (wr_key record) in
    let raw := appendUint64 raw (wr_version record) in
    let raw := appendUint64 raw (wr_namespaceVersion record) in
    let raw := appendUint64 raw (wr_spaceVersion record) in
    appendInt64 raw (wr_expireAtUnixMs record).

(** src: cachewire/binary_response.go DecodeRecord *)
Definition DecodeRecord (raw : list byte) : result wireError WireRecord :=
  cursor ← newCursor raw;
  '(found, cursor) ← readBool cursor;
  if negb found then _ ← ensureEOF cursor; Ok missingRecord
  else '(record, _) ← readRecord cursor; Ok record.

(** src: cachewire/binary_response.go encodeBool *)
Definition encodeBool (value : bool) : list byte := appendBool newMetadata value.

(** src: cachewire/binary_response.go decodeBool *)
Definition decodeBool : list byte -> result wireError bool := decodeAll readBool.

(** src: cachewire/binary_response.go EncodeDeleteResponse *)
Definition EncodeDeleteResponse (response : DeleteResponse) : list byte := encodeBool (dresp_deleted response).

(** src: cachewire/binary_response.go DecodeDeleteResponse *)
Definition DecodeDeleteResponse (raw : list byte) : result wireError DeleteResponse :=
  value ← decodeBool raw; Ok (mkDeleteResponse value).

(** src: cachewire/binary_response.go EncodeExistsResponse *)
Definition EncodeExistsResponse (response : ExistsResponse) : list byte := encodeBool (eresp_exists response).

(** src: cachewire/binary_response.go DecodeExistsResponse *)
Definition DecodeExistsResponse (raw : list byte) : result wireError ExistsResponse :=
  value ← decodeBool raw; Ok (mkExistsResponse value).

(** src: cachewire/binary_response.go EncodeTouchResponse *)
Definition EncodeTouchResponse (response : TouchResponse) : list byte := encodeBool (tresp_touched response).

(** src: cachewire/binary_response.go DecodeTouchResponse *)
Definition DecodeTouchResponse (raw : list byte) : result wireError TouchResponse :=
  value ← decodeBool raw; Ok (mkTouchResponse value).
