(* ===== verification/WireBatch.v ===== *)
(** * Batch and migration codecs (cachewire: types.go, binary_batch.go,
    binary_batch_cursor.go, binary_batch_more.go, binary_batch_more_helpers.go,
    binary_migration.go, binary_migration_append.go, binary_migration_cursor.go,
    binary_migration_cursor_more.go, migration_payload.go)

    A batch is a count followed by its items; the values of its items are
    concatenated in the frame's payload, where each item holds the offset and
    the size of its own. *)

From S2P Require Import Prelude.
From S2P Require Import Binary.
From S2P Require Import WireTypes.
From S2P Require Import Wire.

Local Open Scope Z_scope.

(** ** Payload ranges *)

(** src: cachewire/types.go checkedPayloadRange *)
Definition checkedPayloadRange (offset size : Z) : result wireError (Z * Z) :=
  if (offset <? 0) || (2 ^ 32 - 1 <? offset) then Err ErrInvalidPayloadRange
  else if (size <? 0) || (2 ^ 32 - 1 <? size) then Err ErrInvalidPayloadRange
  else Ok (u32 offset, u32 size).

(** src: cachewire/types.go SlicePayload *)
Definition SlicePayload (payload : list byte) (offset size : Z) : result wireError (list byte) :=
  let start := offset in
  let stop := s64 (start + size) in
  if (start <? 0) || (stop <? start) || (zlen payload <? stop) then Err ErrInvalidPayloadRange
  else Ok (take (Z.to_nat (stop - start)) (drop (Z.to_nat start) payload)).

(** ** Loops *)

(** Pack the items in order, threading the payload: the loop of every packing
    function. *)
Fixpoint packAll {A} (pack : A -> list byte -> result wireError (A * list byte)) (items : list A)
    (payload : list byte) : result wireError (list A * list byte) :=
  match items with
  | [] => Ok ([], payload)
  | item :: rest =>
      '(item, payload) ← pack item payload;
      '(rest, payload) ← packAll pack rest payload;
      Ok (item :: rest, payload)
  end.

(** Unpack the items in order: the loop of every unpacking function. *)
Fixpoint unpackAll {A} (unpack : A -> list byte -> result wireError A) (items : list A)
    (payload : list byte) : result wireError (list A) :=
  match items with
  | [] => Ok []
  | item :: rest =>
      item ← unpack item payload;
      rest ← unpackAll unpack rest payload;
      Ok (item :: rest)
  end.

(** [for range count { item, err := read(cursor); ... }]. *)
Fixpoint readN {A} (read : Reader A) (count : nat) : Reader (list A) :=
  match count with
  | O => mret []
  | S n => item ← read; rest ← readN read n; mret (item :: rest)
  end.

(** The count and the items: the loop of every batch reader. *)
Definition readItems {A} (read : Reader A) : Reader (list A) :=
  count ← readCount; readN read (Z.to_nat count).

(** [for index := range items { raw = append...(raw, items[index]) }]. *)
Definition appendAll {A} (append : list byte -> A -> list byte) (raw : list byte) (items : list A) : list byte :=
  foldl append raw items.

(** src: cachewire/binary_batch.go appendCount *)
Definition appendCount (raw : list byte) (count : Z) : list byte := appendUint64 raw count.

(** The counting loop of [itemCount] and of the count functions of every item
    type.
    src: cachewire/binary_batch_more_helpers.go itemCount *)
Definition itemCount {A} (items : list A) : Z := foldl (fun count _ => u64 (count + 1)) 0 items.

(** ** Sets *)

(** [item.PayloadOffset = offset; item.PayloadSize = size; item.Value = value]. *)
Definition placeSet (item : SetRequest) (value : list byte) (offset size : Z) : SetRequest :=
  mkSetRequest (ws_key item) value (ws_routeEpoch item) (ws_ttlMillis item) (ws_namespaceVersion item)
    (ws_spaceVersion item) (ws_expectedVersion item) offset size.

(** The body of the loop of [PackBatchSet].
    src: cachewire/types.go PackBatchSet 160-171 *)
Definition packSet (item : SetRequest) (payload : list byte) : result wireError (SetRequest * list byte) :=
  '(offset, size) ← checkedPayloadRange (zlen payload) (zlen (ws_value item));
  Ok (placeSet item [] offset size, payload ++ ws_value item).

(** src: cachewire/types.go PackBatchSet *)
Definition PackBatchSet (request : BatchSetRequest) : result wireError (BatchSetRequest * list byte) :=
  '(items, payload) ← packAll packSet (bs_items request) [];
  Ok (mkBatchSetRequest (bs_routeEpoch request) items, payload).

(** The body of the loop of [UnpackBatchSet].
    src: cachewire/types.go UnpackBatchSet 177-185 *)
Definition unpackSet (item : SetRequest) (payload : list byte) : result wireError SetRequest :=
  value ← SlicePayload payload (ws_payloadOffset item) (ws_payloadSize item);
  Ok (placeSet item value (ws_payloadOffset item) (ws_payloadSize item)).

(** src: cachewire/types.go UnpackBatchSet *)
Definition UnpackBatchSet (request : BatchSetRequest) (payload : list byte) : result wireError (list SetRequest) :=
  unpackAll unpackSet (bs_items request) payload.

(** src: cachewire/binary_batch.go appendBatchSetItem *)
Definition appendBatchSetItem (raw : list byte) (item : SetRequest) : list byte :=
  let raw := appendKey raw (ws_key item) in
  let raw := appendInt64 raw (ws_ttlMillis item) in
  let raw := appendUint64 raw (ws_namespaceVersion item) in
  let raw := appendUint64 raw (ws_spaceVersion item) in
  let raw := appendUint64 raw (ws_expectedVersion item) in
  let raw := appendUint32 raw (ws_payloadOffset item) in
  appendUint32 raw (ws_payloadSize item).

(** src: cachewire/binary_batch_cursor.go readBatchSetItem *)
Definition readBatchSetItem : Reader SetRequest :=
  key ← readKey;
  ttlMillis ← readInt64;
  namespaceVersion ← readUint64;
  spaceVersion ← readUint64;
  expectedVersion ← readUint64;
  payloadOffset ← readUint32;
  payloadSize ← readUint32;
  mret (mkSetRequest key [] 0 ttlMillis namespaceVersion spaceVersion expectedVersion payloadOffset payloadSize).

(** src: cachewire/binary_batch.go setRequestCount *)
Definition setRequestCount (items : list SetRequest) : Z := itemCount items.

(** src: cachewire/binary_batch.go EncodeBatchSetRequest *)
Definition EncodeBatchSetRequest (request : BatchSetRequest) : result wireError (list byte * list byte) :=
  '(packed, payload) ← PackBatchSet request;
  let raw := newMetadata in
  let raw := appendCount raw (setRequestCount (bs_items packed)) in
  Ok (appendAll appendBatchSetItem raw (bs_items packed), payload).

(** src: cachewire/binary_batch.go DecodeBatchSetRequest *)
Definition DecodeBatchSetRequest (raw payload : list byte) : result wireError BatchSetRequest :=
  items ← decodeAll (readItems readBatchSetItem) raw;
  items ← UnpackBatchSet (mkBatchSetRequest 0 items) payload;
  Ok (mkBatchSetRequest 0 items).

(** ** Gets *)

(** src: cachewire/binary_batch.go appendBatchGetItem *)
Definition appendBatchGetItem (raw : list byte) (item : GetRequest) : list byte :=
  let raw := appendKey raw (wg_key item) in
  let raw := appendUint64 raw (wg_namespaceVersion item) in
  appendUint64 raw (wg_spaceVersion item).

(** src: cachewire/binary_batch_cursor.go readBatchGetItem *)
Definition readBatchGetItem : Reader GetRequest :=
  key ← readKey;
  namespaceVersion ← readUint64;
  spaceVersion ← readUint64;
  mret (mkGetRequest key 0 namespaceVersion spaceVersion).

(** src: cachewire/binary_batch.go getRequestCount *)
Definition getRequestCount (items : list GetRequest) : Z := itemCount items.

(** src: cachewire/binary_batch.go EncodeBatchGetRequest *)
Definition EncodeBatchGetRequest (request : BatchGetRequest) : list byte :=
  let raw := newMetadata in
  let raw := appendCount raw (getRequestCount (bg_items request)) in
  appendAll appendBatchGetItem raw (bg_items request).

(** src: cachewire/binary_batch.go DecodeBatchGetRequest *)
Definition DecodeBatchGetRequest (raw : list byte) : result wireError BatchGetRequest :=
  items ← decodeAll (readItems readBatchGetItem) raw;
  Ok (mkBatchGetRequest 0 items).

(** ** Records *)

(** [record.PayloadOffset = offset; record.PayloadSize = size; record.Value = value]. *)
Definition placeRecord (r : WireRecord) (value : list byte) (offset size : Z) : WireRecord :=
  mkRecord (wr_found r) (wr_namespace r) (wr_space r) (wr_entity r) (wr_key r) value (wr_version r)
    (wr_namespaceVersion r) (wr_spaceVersion r) (wr_expireAtUnixMs r) offset size.

(** The body of the loop of [PackRecords].
    src: cachewire/types.go PackRecords 192-205 *)
Definition packRecord (record : WireRecord) (payload : list byte) : result wireError (WireRecord * list byte) :=
  if wr_found record then
    '(offset, size) ← checkedPayloadRange (zlen payload) (zlen (wr_value record));
    Ok (placeRecord record [] offset size, payload ++ wr_value record)
  else Ok (placeRecord record [] (wr_payloadOffset record) (wr_payloadSize record), payload).

(** src: cachewire/types.go PackRecords *)
Definition PackRecords (records : list WireRecord) : result wireError (BatchGetResponse * list byte) :=
  '(items, payload) ← packAll packRecord records [];
  Ok (mkBatchGetResponse items, payload).

(** The body of the loop of [UnpackRecords].
    src: cachewire/types.go UnpackRecords 211-221 *)
Definition unpackRecord (record : WireRecord) (payload : list byte) : result wireError WireRecord :=
  if wr_found record then
    value ← SlicePayload payload (wr_payloadOffset record) (wr_payloadSize record);
    Ok (placeRecord record value (wr_payloadOffset record) (wr_payloadSize record))
  else Ok record.

(** src: cachewire/types.go UnpackRecords *)
Definition UnpackRecords (response : BatchGetResponse) (payload : list byte) : result wireError (list WireRecord) :=
  unpackAll unpackRecord (bgr_records response) payload.

(** src: cachewire/binary_batch.go appendBatchRecord *)
Definition appendBatchRecord (raw : list byte) (record : WireRecord) : list byte :=
  let raw := appendBool raw (wr_found record) in
  if negb (wr_found record) then raw
  else
    let raw := appendString raw (wr_namespace record) in
    let raw := appendString raw (wr_space record) in
    let raw := appendString raw (wr_entity record) in
    let raw := appendString raw (wr_key record) in
    let raw := appendUint64 raw (wr_version record) in
    let raw := appendUint64 raw (wr_namespaceVersion record) in
    let raw := appendUint64 raw (wr_spaceVersion record) in
    let raw := appendInt64 raw (wr_expireAtUnixMs record) in
    let raw := appendUint32 raw (wr_payloadOffset record) in
    appendUint32 raw (wr_payloadSize record).

(** src: cachewire/binary_batch_cursor.go readBatchRecordNumbers *)
Definition readBatchRecordNumbers (namespace space entity key : string) : Reader WireRecord :=
  version ← readUint64;
  namespaceVersion ← readUint64;
  spaceVersion ← readUint64;
  expireAtUnixMs ← readInt64;
  payloadOffset ← readUint32;
  payloadSize ← readUint32;
  mret (mkRecord true namespace space entity key [] version namespaceVersion spaceVersion expireAtUnixMs
          payloadOffset payloadSize).

(** src: cachewire/binary_batch_cursor.go readBatchRecordFields *)
Definition readBatchRecordFields : Reader WireRecord :=
  namespace ← readString;
  space ← readString;
  entity ← readString;
  key ← readString;
  readBatchRecordNumbers namespace space entity key.

(** src: cachewire/binary_batch_cursor.go readBatchRecord *)
Definition readBatchRecord : Reader WireRecord :=
  found ← readBool;
  if negb found then mret missingRecord else readBatchRecordFields.

(** src: cachewire/binary_batch.go recordCount *)
Definition recordCount (records : list WireRecord) : Z := itemCount records.

(** src: cachewire/binary_batch.go EncodeBatchSetResponse *)
Definition EncodeBatchSetResponse (response : BatchSetResponse) : list byte :=
  let raw := newMetadata in
  let raw := appendCount raw (recordCount (bsr_records response)) in
  appendAll appendBatchRecord raw (bsr_records response).

(** src: cachewire/binary_batch.go decodeBatchRecords *)
Definition decodeBatchRecords : list byte -> result wireError (list WireRecord) :=
  decodeAll (readItems readBatchRecord).

(** src: cachewire/binary_batch.go DecodeBatchSetResponse *)
Definition DecodeBatchSetResponse (raw : list byte) : result wireError BatchSetResponse :=
  records ← decodeBatchRecords raw; Ok (mkBatchSetResponse records).

(** src: cachewire/binary_batch.go EncodeBatchGetResponse *)
Definition EncodeBatchGetResponse (response : BatchGetResponse) : result wireError (list byte * list byte) :=
  '(packed, payload) ← PackRecords (bgr_records response);
  let raw := newMetadata in
  let raw := appendCount raw (recordCount (bgr_records packed)) in
  Ok (appendAll appendBatchRecord raw (bgr_records packed), payload).

(** src: cachewire/binary_batch.go DecodeBatchGetResponse *)
Definition DecodeBatchGetResponse (raw payload : list byte) : result wireError BatchGetResponse :=
  records ← decodeBatchRecords raw;
  records ← UnpackRecords (mkBatchGetResponse records) payload;
  Ok (mkBatchGetResponse records).

(** ** Deletes, existence checks and touches *)

(** src: cachewire/binary_batch_more_helpers.go appendBatchDeleteItem *)
Definition appendBatchDeleteItem (raw : list byte) (item : DeleteRequest) : list byte :=
  let raw := appendKey raw (wd_key item) in
  appendUint64 raw (wd_expectedVersion item).

(** src: cachewire/binary_batch_cursor.go readBatchDeleteItem *)
Definition readBatchDeleteItem : Reader DeleteRequest :=
  key ← readKey;
  expectedVersion ← readUint64;
  mret (mkDeleteRequest key 0 expectedVersion).

(** src: cachewire/binary_batch_more_helpers.go appendBatchExistsItem *)
Definition appendBatchExistsItem (raw : list byte) (item : ExistsRequest) : list byte :=
  let raw := appendKey raw (we_key item) in
  let raw := appendUint64 raw (we_namespaceVersion item) in
  appendUint64 raw (we_spaceVersion item).

(** src: cachewire/binary_batch_cursor.go readBatchExistsItem *)
Definition readBatchExistsItem : Reader ExistsRequest :=
  '(key, namespaceVersion, spaceVersion) ← readVersionedKey;
  mret (mkExistsRequest key 0 namespaceVersion spaceVersion).

(** src: cachewire/binary_batch_more_helpers.go appendBatchTouchItem *)
Definition appendBatchTouchItem (raw : list byte) (item : TouchRequest) : list byte :=
  let raw := appendKey raw (wt_key item) in
  let raw := appendInt64 raw (wt_ttlMillis item) in
  let raw := appendUint64 raw (wt_namespaceVersion item) in
  let raw := appendUint64 raw (wt_spaceVersion item) in
  appendUint64 raw (wt_expectedVersion item).

(** src: cachewire/binary_batch_cursor.go readBatchTouchItem *)
Definition readBatchTouchItem : Reader TouchRequest :=
  key ← readKey;
  ttlMillis ← readInt64;
  namespaceVersion ← readUint64;
  spaceVersion ← readUint64;
  expectedVersion ← readUint64;
  mret (mkTouchRequest key 0 ttlMillis namespaceVersion spaceVersion expectedVersion).

(** src: cachewire/binary_batch_more_helpers.go decodeBatchItems *)
Definition decodeBatchItems {A} (raw : list byte) (read : Reader A) : result wireError (list A) :=
  decodeAll (readItems read) raw.

(** src: cachewire/binary_batch_more.go EncodeBatchDeleteRequest *)
Definition EncodeBatchDeleteRequest (request : BatchDeleteRequest) : list byte :=
  let raw := newMetadata in
  let raw := appendCount raw (itemCount (bd_items request)) in
  appendAll appendBatchDeleteItem raw (bd_items request).

(** src: cachewire/binary_batch_more.go DecodeBatchDeleteRequest *)
Definition DecodeBatchDeleteRequest (raw : list byte) : result wireError BatchDeleteRequest :=
  items ← decodeBatchItems raw readBatchDeleteItem; Ok (mkBatchDeleteRequest 0 items).

(** src: cachewire/binary_batch_more.go EncodeBatchExistsRequest *)
Definition EncodeBatchExistsRequest (request : BatchExistsRequest) : list byte :=
  let raw := newMetadata in
  let raw := appendCount raw (itemCount (be_items request)) in
  appendAll appendBatchExistsItem raw (be_items request).

(** src: cachewire/binary_batch_more.go DecodeBatchExistsRequest *)
Definition DecodeBatchExistsRequest (raw : list byte) : result wireError BatchExistsRequest :=
  items ← decodeBatchItems raw readBatchExistsItem; Ok (mkBatchExistsRequest 0 items).

(** src: cachewire/binary_batch_more.go EncodeBatchTouchRequest *)
Definition EncodeBatchTouchRequest (request : BatchTouchRequest) : list byte :=
  let raw := newMetadata in
  let raw := appendCount raw (itemCount (bt_items request)) in
  appendAll appendBatchTouchItem raw (bt_items request).

(** src: cachewire/binary_batch_more.go DecodeBatchTouchRequest *)
Definition DecodeBatchTouchRequest (raw : list byte) : result wireError BatchTouchRequest :=
  items ← decodeBatchItems raw readBatchTouchItem; Ok (mkBatchTouchRequest 0 items).

(** src: cachewire/binary_batch_more_helpers.go encodeBatchBoolResponses *)
Definition encodeBatchBoolResponses {A} (items : list A) (value : A -> bool) : list byte :=
  let raw := newMetadata in
  let raw := appendCount raw (itemCount items) in
  appendAll (fun raw item => appendBool raw (value item)) raw items.

(** src: cachewire/binary_batch_more_helpers.go decodeBatchBoolResponses *)
Definition decodeBatchBoolResponses : list byte -> result wireError (list bool) := decodeAll (readItems readBool).

(** src: cachewire/binary_batch_more.go EncodeBatchDeleteResponse *)
Definition EncodeBatchDeleteResponse (response : BatchDeleteResponse) : list byte :=
  encodeBatchBoolResponses (bdr_results response) dresp_deleted.

(** src: cachewire/binary_batch_more.go DecodeBatchDeleteResponse *)
Definition DecodeBatchDeleteResponse (raw : list byte) : result wireError BatchDeleteResponse :=
  values ← decodeBatchBoolResponses raw; Ok (mkBatchDeleteResponse (mkDeleteResponse <$> values)).

(** src: cachewire/binary_batch_more.go EncodeBatchExistsResponse *)
Definition EncodeBatchExistsResponse (response : BatchExistsResponse) : list byte :=
  encodeBatchBoolResponses (ber_results response) eresp_exists.

(** src: cachewire/binary_batch_more.go DecodeBatchExistsResponse *)
Definition DecodeBatchExistsResponse (raw : list byte) : result wireError BatchExistsResponse :=
  values ← decodeBatchBoolResponses raw; Ok (mkBatchExistsResponse (mkExistsResponse <$> values)).

(** src: cachewire/binary_batch_more.go EncodeBatchTouchResponse *)
Definition EncodeBatchTouchResponse (response : BatchTouchResponse) : list byte :=
  encodeBatchBoolResponses (btr_results response) tresp_touched.

(** src: cachewire/binary_batch_more.go DecodeBatchTouchResponse *)
Definition DecodeBatchTouchResponse (raw : list byte) : result wireError BatchTouchResponse :=
  values ← decodeBatchBoolResponses raw; Ok (mkBatchTouchResponse (mkTouchResponse <$> values)).

(** ** Migration *)

(** src: cachewire/binary_migration.go EncodeMigrationRangeRequest *)
Definition EncodeMigrationRangeRequest (request : MigrationRangeRequest) : list byte :=
  let raw := newMetadata in
  let raw := appendString raw (mrq_namespace request) in
  let raw := appendString raw (mrq_space request) in
  let raw := appendUint32 raw (mrq_vslotStart request) in
  appendUint32 raw (mrq_vslotEnd request).

(** src: cachewire/binary_migration_cursor.go readMigrationRangeRequest *)
Definition readMigrationRangeRequest : Reader MigrationRangeRequest :=
  namespace ← readString;
  space ← readString;
  start ← readUint32;
  stop ← readUint32;
  mret (mkMigrationRangeRequest namespace space start stop 0).

(** src: cachewire/binary_migration.go DecodeMigrationRangeRequest *)
Definition DecodeMigrationRangeRequest : list byte -> result wireError MigrationRangeRequest :=
  decodeAll readMigrationRangeRequest.

(** [entry.PayloadOffset = offset; entry.PayloadSize = size; entry.Value = value]. *)
Definition placeEntry (x : MigrationSnapshotEntry) (value : list byte) (offset size : Z) : MigrationSnapshotEntry :=
  mkMigrationSnapshotEntry (me_key x) value (me_version x) (me_namespaceVersion x) (me_spaceVersion x)
    (me_expireAtUnixMs x) (me_createdAtUnixMs x) (me_updatedAtUnixMs x) (me_lastAccessAtUnixMs x)
    (me_accessCount x) offset size.

(** The body of the loop of [PackMigrationSnapshot].
    src: cachewire/migration_payload.go PackMigrationSnapshot 6-16 *)
Definition packEntry (x : MigrationSnapshotEntry) (payload : list byte)
    : result wireError (MigrationSnapshotEntry * list byte) :=
  '(offset, size) ← checkedPayloadRange (zlen payload) (zlen (me_value x));
  Ok (placeEntry x [] offset size, payload ++ me_value x).

(** src: cachewire/migration_payload.go PackMigrationSnapshot *)
Definition PackMigrationSnapshot (snapshot : MigrationSnapshot) : result wireError (MigrationSnapshot * list byte) :=
  '(entries, payload) ← packAll packEntry (ms_entries snapshot) [];
  Ok (mkMigrationSnapshot entries, payload).

(** The body of the loop of [UnpackMigrationSnapshot].
    src: cachewire/migration_payload.go UnpackMigrationSnapshot 23-31 *)
Definition unpackEntry (x : MigrationSnapshotEntry) (payload : list byte) : result wireError MigrationSnapshotEntry :=
  value ← SlicePayload payload (me_payloadOffset x) (me_payloadSize x);
  Ok (placeEntry x value (me_payloadOffset x) (me_payloadSize x)).

(** src: cachewire/migration_payload.go UnpackMigrationSnapshot *)
Definition UnpackMigrationSnapshot (snapshot : MigrationSnapshot) (payload : list byte)
    : result wireError MigrationSnapshot :=
  entries ← unpackAll unpackEntry (ms_entries snapshot) payload;
  Ok (mkMigrationSnapshot entries).

(** src: cachewire/binary_migration_append.go appendMigrationSnapshotEntry *)
Definition appendMigrationSnapshotEntry (raw : list byte) (x : MigrationSnapshotEntry) : list byte :=
  let raw := appendKey raw (me_key x) in
  let raw := appendUint64 raw (me_version x) in
  let raw := appendUint64 raw (me_namespaceVersion x) in
  let raw := appendUint64 raw (me_spaceVersion x) in
  let raw := appendInt64 raw (me_expireAtUnixMs x) in
  let raw := appendInt64 raw (me_createdAtUnixMs x) in
  let raw := appendInt64 raw (me_updatedAtUnixMs x) in
  let raw := appendInt64 raw (me_lastAccessAtUnixMs x) in
  let raw := appendUint64 raw (me_accessCount x) in
  let raw := appendUint32 raw (me_payloadOffset x) in
  appendUint32 raw (me_payloadSize x).

(** src: cachewire/binary_migration_cursor_more.go readMigrationSnapshotVersions *)
Definition readMigrationSnapshotVersions : Reader (Z * Z) :=
  namespace ← readUint64;
  space ← readUint64;
  mret (namespace, space).

(** src: cachewire/binary_migration_cursor_more.go readMigrationSnapshotTimes *)
Definition readMigrationSnapshotTimes : Reader (Z * Z * Z * Z) :=
  expire ← readInt64;
  created ← readInt64;
  updated ← readInt64;
  lastAccess ← readInt64;
  mret (expire, created, updated, lastAccess).

(** src: cachewire/binary_migration_cursor_more.go readMigrationSnapshotTail *)
Definition readMigrationSnapshotTail (key : Key) (version : Z) (versions : Z * Z) (times : Z * Z * Z * Z)
    : Reader MigrationSnapshotEntry :=
  let '(namespace, space) := versions in
  let '(expire, created, updated, lastAccess) := times in
  accessCount ← readUint64;
  payloadOffset ← readUint32;
  payloadSize ← readUint32;
  mret (mkMigrationSnapshotEntry key [] version namespace space expire created updated lastAccess accessCount
          payloadOffset payloadSize).

(** src: cachewire/binary_migration_cursor.go readMigrationSnapshotEntryBody *)
Definition readMigrationSnapshotEntryBody (key : Key) : Reader MigrationSnapshotEntry :=
  version ← readUint64;
  versions ← readMigrationSnapshotVersions;
  times ← readMigrationSnapshotTimes;
  readMigrationSnapshotTail key version versions times.

(** src: cachewire/binary_migration_cursor.go readMigrationSnapshotEntry *)
Definition readMigrationSnapshotEntry : Reader MigrationSnapshotEntry :=
  key ← readKey;
  readMigrationSnapshotEntryBody key.

(** src: cachewire/binary_migration_cursor.go readMigrationSnapshotEntries *)
Definition readMigrationSnapshotEntries (count : Z) : Reader (list MigrationSnapshotEntry) :=
  readN readMigrationSnapshotEntry (Z.to_nat count).

(** src: cachewire/migration_payload.go migrationSnapshotEntryCount *)
Definition migrationSnapshotEntryCount (entries : list MigrationSnapshotEntry) : Z := itemCount entries.

(** src: cachewire/binary_migration.go EncodeMigrationSnapshot *)
Definition EncodeMigrationSnapshot (snapshot : MigrationSnapshot) : result wireError (list byte * list byte) :=
  '(packed, payload) ← PackMigrationSnapshot snapshot;
  let raw := newMetadata in
  let raw := appendCount raw (migrationSnapshotEntryCount (ms_entries packed)) in
  Ok (appendAll appendMigrationSnapshotEntry raw (ms_entries packed), payload).

(** src: cachewire/binary_migration.go DecodeMigrationSnapshot *)
Definition DecodeMigrationSnapshot (raw payload : list byte) : result wireError MigrationSnapshot :=
  entries ← decodeAll (count ← readCount; readMigrationSnapshotEntries count) raw;
  UnpackMigrationSnapshot (mkMigrationSnapshot entries) payload.

(** src: cachewire/binary_migration.go decodeUint64Response *)
Definition decodeUint64Response : list byte -> result wireError Z := decodeAll readUint64.

(** src: cachewire/binary_migration.go EncodeMigrationImportResponse *)
Definition EncodeMigrationImportResponse (response : MigrationImportResponse) : list byte :=
  appendUint64 newMetadata (mir_imported response).

(** src: cachewire/binary_migration.go DecodeMigrationImportResponse *)
Definition DecodeMigrationImportResponse (raw : list byte) : result wireError MigrationImportResponse :=
  value ← decodeUint64Response raw; Ok (mkMigrationImportResponse value).

(** src: cachewire/binary_migration.go EncodeMigrationDeleteRangeResponse *)
Definition EncodeMigrationDeleteRangeResponse (response : MigrationDeleteRangeResponse) : list byte :=
  appendUint64 newMetadata (mdr_deleted response).

(** src: cachewire/binary_migration.go DecodeMigrationDeleteRangeResponse *)
Definition DecodeMigrationDeleteRangeResponse (raw : list byte) : result wireError MigrationDeleteRangeResponse :=
  value ← decodeUint64Response raw; Ok (mkMigrationDeleteRangeResponse value).

(** src: cachewire/binary_migration.go EncodeMigrationFenceResponse *)
Definition EncodeMigrationFenceResponse (response : MigrationFenceResponse) : list byte :=
  encodeBool (mfr_applied response).

(** src: cachewire/binary_migration.go DecodeMigrationFenceResponse *)
Definition DecodeMigrationFenceResponse (raw : list byte) : result wireError MigrationFenceResponse :=
  value ← decodeBool raw; Ok (mkMigrationFenceResponse value).
