(* ===== verification/WirePrimitive.v ===== *)
(** * Primitive codecs (cachewire: binary_primitive.go, binary_primitive_batch.go,
    binary_primitive_cursor.go, binary_primitive_members.go,
    binary_primitive_read.go, binary_primitive_result_cursor.go,
    primitive_payload.go, primitive_result_payload.go)

    Requests and results of the data-structure operations.  A result has several
    values (its own, those of its map fields and of its list values), packed one
    after the other in the payload. *)

From S2P Require Import Prelude.
From S2P Require Import Binary.
From S2P Require Import GoFloat.
From S2P Require Import WireTypes.
From S2P Require Import Wire.
From S2P Require Import WireBatch.

Local Open Scope Z_scope.

(** ** Basic fields *)

(** src: cachewire/binary_primitive_cursor.go appendFloat64 *)
Definition appendFloat64 (raw : list byte) (value : float64) : list byte := raw ++ be_put 8 (Float64bits value).

(** src: cachewire/binary_primitive_read.go readFloat64 *)
Definition readFloat64 : Reader float64 := fun c =>
  if zlen c <? 8 then Err (invalidMetadata "missing float64")
  else Ok (Float64frombits (be_get (take 8 c)), drop 8 c).

(** src: cachewire/binary_primitive_read.go readByte *)
Definition readByte : Reader byte := fun c =>
  match c with
  | [] => Err (invalidMetadata "missing byte")
  | value :: c => Ok (value, c)
  end.

(** src: cachewire/binary_primitive_read.go readPrimitiveKind *)
Definition readPrimitiveKind : Reader PrimitiveKind :=
  value ← readByte; mret (byte_Z value).

(** src: cachewire/binary_primitive_read.go readPrimitiveNames *)
Definition readPrimitiveNames : Reader (string * string) :=
  field ← readString;
  member ← readString;
  mret (field, member).

(** src: cachewire/binary_primitive_read.go readPayloadRange *)
Definition readPayloadRange : Reader (Z * Z) :=
  offset ← readUint32;
  size ← readUint32;
  mret (offset, size).

(** ** Requests *)

(** src: cachewire/binary_primitive_cursor.go primitiveOptions *)
Record primitiveOptions := mkPrimitiveOptions {
  opt_ttlMillis : Z;
  opt_namespaceVersion : Z;
  opt_spaceVersion : Z;
  opt_expectedVersion : Z
}.

(** src: cachewire/binary_primitive_cursor.go primitiveNumbers *)
Record primitiveNumbers := mkPrimitiveNumbers {
  num_delta : Z;
  num_initialValue : Z;
  num_score : float64;
  num_minScore : float64;
  num_maxScore : float64;
  num_limit : Z;
  num_start : Z
}.

(** src: cachewire/binary_primitive_cursor.go appendPrimitiveOptions *)
Definition appendPrimitiveOptions (raw : list byte) (item : PrimitiveRequest) : list byte :=
  let raw := appendInt64 raw (wp_ttlMillis item) in
  let raw := appendUint64 raw (wp_namespaceVersion item) in
  let raw := appendUint64 raw (wp_spaceVersion item) in
  appendUint64 raw (wp_expectedVersion item).

(** src: cachewire/binary_primitive_cursor.go appendPrimitiveNumbers *)
Definition appendPrimitiveNumbers (raw : list byte) (item : PrimitiveRequest) : list byte :=
  let raw := appendInt64 raw (wp_delta item) in
  let raw := appendInt64 raw (wp_initialValue item) in
  let raw := appendFloat64 raw (wp_score item) in
  let raw := appendFloat64 raw (wp_minScore item) in
  let raw := appendFloat64 raw (wp_maxScore item) in
  let raw := appendUint64 raw (wp_limit item) in
  appendInt64 raw (wp_start item).

(** src: cachewire/binary_primitive_cursor.go appendPrimitiveRequest *)
Definition appendPrimitiveRequest (raw : list byte) (item : PrimitiveRequest) : list byte :=
  let raw := raw ++ [byte_of_Z (wp_kind item)] in
  let raw := appendKey raw (wp_key item) in
  let raw := appendPrimitiveOptions raw item in
  let raw := appendString raw (wp_field item) in
  let raw := appendString raw (wp_member item) in
  let raw := appendPrimitiveNumbers raw item in
  let raw := appendBool raw (wp_hasMinScore item) in
  let raw := appendBool raw (wp_hasMaxScore item) in
  let raw := appendBool raw (wp_reverse item) in
  let raw := appendUint32 raw (wp_payloadOffset item) in
  appendUint32 raw (wp_payloadSize item).

(** src: cachewire/binary_primitive_cursor.go readVersionTriplet *)
Definition readVersionTriplet : Reader (Z * Z * Z) :=
  namespaceVersion ← readUint64;
  spaceVersion ← readUint64;
  expectedVersion ← readUint64;
  mret (namespaceVersion, spaceVersion, expectedVersion).

(** src: cachewire/binary_primitive_cursor.go readPrimitiveOptions *)
Definition readPrimitiveOptions : Reader primitiveOptions :=
  ttlMillis ← readInt64;
  '(namespaceVersion, spaceVersion, expectedVersion) ← readVersionTriplet;
  mret (mkPrimitiveOptions ttlMillis namespaceVersion spaceVersion expectedVersion).

(** src: cachewire/binary_primitive_read.go readPrimitiveIntPair *)
Definition readPrimitiveIntPair : Reader (Z * Z) :=
  delta ← readInt64;
  initialValue ← readInt64;
  mret (delta, initialValue).

(** src: cachewire/binary_primitive_read.go readPrimitiveScores *)
Definition readPrimitiveScores : Reader (float64 * float64 * float64) :=
  score ← readFloat64;
  minScore ← readFloat64;
  maxScore ← readFloat64;
  mret (score, minScore, maxScore).

(** src: cachewire/binary_primitive_read.go readPrimitiveNumbers *)
Definition readPrimitiveNumbers : Reader primitiveNumbers :=
  '(delta, initialValue) ← readPrimitiveIntPair;
  '(score, minScore, maxScore) ← readPrimitiveScores;
  limit ← readUint64;
  start ← readInt64;
  mret (mkPrimitiveNumbers delta initialValue score minScore maxScore limit start).

(** src: cachewire/binary_primitive_read.go readPrimitiveFlags *)
Definition readPrimitiveFlags : Reader (bool * bool * bool) :=
  hasMin ← readBool;
  hasMax ← readBool;
  reverse ← readBool;
  mret (hasMin, hasMax, reverse).

(** src: cachewire/binary_primitive_cursor.go buildPrimitiveRequest *)
Definition buildPrimitiveRequest (kind : PrimitiveKind) (key : Key) (opts : primitiveOptions)
    (field member : string) (numbers : primitiveNumbers) (hasMin hasMax reverse : bool) (valueRange : Z * Z)
    : PrimitiveRequest :=
  mkPrimitiveRequest key 0 kind (opt_ttlMillis opts) (opt_namespaceVersion opts) (opt_spaceVersion opts)
    (opt_expectedVersion opts) field member [] (num_delta numbers) (num_initialValue numbers)
    (num_score numbers) (num_minScore numbers) (num_maxScore numbers) hasMin hasMax (num_limit numbers)
    (num_start numbers) reverse valueRange.1 valueRange.2.

(** src: cachewire/binary_primitive_cursor.go readPrimitiveRequestTail *)
Definition readPrimitiveRequestTail (kind : PrimitiveKind) (key : Key) (opts : primitiveOptions)
    (field member : string) : Reader PrimitiveRequest :=
  numbers ← readPrimitiveNumbers;
  '(hasMin, hasMax, reverse) ← readPrimitiveFlags;
  valueRange ← readPayloadRange;
  mret (buildPrimitiveRequest kind key opts field member numbers hasMin hasMax reverse valueRange).

(** src: cachewire/binary_primitive_cursor.go readPrimitiveRequestBody *)
Definition readPrimitiveRequestBody (kind : PrimitiveKind) (key : Key) : Reader PrimitiveRequest :=
  opts ← readPrimitiveOptions;
  '(field, member) ← readPrimitiveNames;
  readPrimitiveRequestTail kind key opts field member.

(** src: cachewire/binary_primitive_cursor.go readPrimitiveRequest *)
Definition readPrimitiveRequest : Reader PrimitiveRequest :=
  kind ← readPrimitiveKind;
  key ← readKey;
  readPrimitiveRequestBody kind key.

(** [request.PayloadOffset = offset; request.PayloadSize = size; request.Value = value]. *)
Definition placePrimitive (r : PrimitiveRequest) (value : list byte) (offset size : Z) : PrimitiveRequest :=
  mkPrimitiveRequest (wp_key r) (wp_routeEpoch r) (wp_kind r) (wp_ttlMillis r) (wp_namespaceVersion r)
    (wp_spaceVersion r) (wp_expectedVersion r) (wp_field r) (wp_member r) value (wp_delta r) (wp_initialValue r)
    (wp_score r) (wp_minScore r) (wp_maxScore r) (wp_hasMinScore r) (wp_hasMaxScore r) (wp_limit r) (wp_start r)
    (wp_reverse r) offset size.

(** src: cachewire/primitive_payload.go packPrimitiveRequest *)
Definition packPrimitiveRequest (request : PrimitiveRequest) : result wireError (PrimitiveRequest * list byte) :=
  let payload := wp_value request in
  '(offset, size) ← checkedPayloadRange 0 (zlen payload);
  Ok (placePrimitive request [] offset size, payload).

(** src: cachewire/primitive_payload.go appendPrimitiveRequestPayload *)
Definition appendPrimitiveRequestPayload (request : PrimitiveRequest) (payload : list byte)
    : result wireError (PrimitiveRequest * list byte) :=
  '(offset, size) ← checkedPayloadRange (zlen payload) (zlen (wp_value request));
  Ok (placePrimitive request [] offset size, payload ++ wp_value request).

(** src: cachewire/primitive_payload.go packPrimitiveRequests *)
Definition packPrimitiveRequests (items : list PrimitiveRequest)
    : result wireError (list PrimitiveRequest * list byte) :=
  packAll appendPrimitiveRequestPayload items [].

(** src: cachewire/primitive_payload.go unpackPrimitiveRequest *)
Definition unpackPrimitiveRequest (request : PrimitiveRequest) (payload : list byte)
    : result wireError PrimitiveRequest :=
  value ← SlicePayload payload (wp_payloadOffset request) (wp_payloadSize request);
  Ok (placePrimitive request value (wp_payloadOffset request) (wp_payloadSize request)).

(** src: cachewire/primitive_payload.go unpackPrimitiveRequests *)
Definition unpackPrimitiveRequests (items : list PrimitiveRequest) (payload : list byte)
    : result wireError (list PrimitiveRequest) :=
  unpackAll unpackPrimitiveRequest items payload.

(** src: cachewire/binary_primitive.go EncodePrimitiveRequest *)
Definition EncodePrimitiveRequest (request : PrimitiveRequest) : result wireError (list byte * list byte) :=
  '(packed, payload) ← packPrimitiveRequest request;
  Ok (appendPrimitiveRequest newMetadata packed, payload).

(** src: cachewire/binary_primitive.go DecodePrimitiveRequest *)
Definition DecodePrimitiveRequest (raw payload : list byte) : result wireError PrimitiveRequest :=
  request ← decodeAll readPrimitiveRequest raw;
  unpackPrimitiveRequest request payload.

(** src: cachewire/binary_primitive_batch.go EncodeBatchPrimitiveRequest *)
Definition EncodeBatchPrimitiveRequest (request : BatchPrimitiveRequest) : result wireError (list byte * list byte) :=
  '(packed, payload) ← packPrimitiveRequests (bp_items request);
  let raw := newMetadata in
  let raw := appendCount raw (itemCount packed) in
  Ok (appendAll appendPrimitiveRequest raw packed, payload).

(** src: cachewire/binary_primitive_batch.go readPrimitiveRequests *)
Definition readPrimitiveRequests : Reader (list PrimitiveRequest) := readItems readPrimitiveRequest.

(** src: cachewire/binary_primitive_batch.go DecodeBatchPrimitiveRequest *)
Definition DecodeBatchPrimitiveRequest (raw payload : list byte) : result wireError BatchPrimitiveRequest :=
  items ← decodeAll readPrimitiveRequests raw;
  items ← unpackPrimitiveRequests items payload;
  Ok (mkBatchPrimitiveRequest 0 items).

(** ** Parts of a result *)

(** src: cachewire/binary_primitive_members.go appendMembers *)
Definition appendMembers (raw : list byte) (members : list string) : list byte :=
  let raw := appendCount raw (itemCount members) in
  appendAll appendString raw members.

(** src: cachewire/binary_primitive_members.go readMembers *)
Definition readMembers : Reader (list string) := readItems readString.

(** The body of the loop of [appendScoredMembers].
    src: cachewire/binary_primitive_members.go appendScoredMembers 30-33 *)
Definition appendScoredMember (raw : list byte) (member : ScoredMember) : list byte :=
  let raw := appendString raw (wsm_member member) in
  appendFloat64 raw (wsm_score member).

(** src: cachewire/binary_primitive_members.go appendScoredMembers *)
Definition appendScoredMembers (raw : list byte) (members : list ScoredMember) : list byte :=
  let raw := appendCount raw (itemCount members) in
  appendAll appendScoredMember raw members.

(** src: cachewire/binary_primitive_members.go readScoredMember *)
Definition readScoredMember : Reader ScoredMember :=
  member ← readString;
  score ← readFloat64;
  mret (mkScoredMember member score).

(** src: cachewire/binary_primitive_members.go readScoredMembers *)
Definition readScoredMembers : Reader (list ScoredMember) := readItems readScoredMember.

(** The body of the loop of [appendMapFields].
    src: cachewire/binary_primitive_result_cursor.go appendMapFields 101-105 *)
Definition appendMapField (raw : list byte) (field : MapField) : list byte :=
  let raw := appendString raw (wmf_field field) in
  let raw := appendUint32 raw (wmf_payloadOffset field) in
  appendUint32 raw (wmf_payloadSize field).

(** src: cachewire/binary_primitive_result_cursor.go appendMapFields *)
Definition appendMapFields (raw : list byte) (fields : list MapField) : list byte :=
  let raw := appendCount raw (itemCount fields) in
  appendAll appendMapField raw fields.

(** src: cachewire/binary_primitive_result_cursor.go readMapField *)
Definition readMapField : Reader MapField :=
  field ← readString;
  '(offset, size) ← readPayloadRange;
  mret (mkMapField field [] offset size).

(** src: cachewire/binary_primitive_result_cursor.go readMapFields *)
Definition readMapFields : Reader (list MapField) := readItems readMapField.

(** The body of the loop of [appendListValues].
    src: cachewire/binary_primitive_result_cursor.go appendListValues 138-141 *)
Definition appendListValue (raw : list byte) (value : ListValue) : list byte :=
  let raw := appendUint32 raw (wlv_payloadOffset value) in
  appendUint32 raw (wlv_payloadSize value).

(** src: cachewire/binary_primitive_result_cursor.go appendListValues *)
Definition appendListValues (raw : list byte) (values : list ListValue) : list byte :=
  let raw := appendCount raw (itemCount values) in
  appendAll appendListValue raw values.

(** The body of the loop of [readListValues].
    src: cachewire/binary_primitive_result_cursor.go readListValues 151-160 *)
Definition readListValue : Reader ListValue :=
  '(offset, size) ← readPayloadRange;
  mret (mkListValue [] offset size).

(** src: cachewire/binary_primitive_result_cursor.go readListValues *)
Definition readListValues : Reader (list ListValue) := readItems readListValue.

(** ** Packing a result *)

(** src: cachewire/primitive_result_payload.go appendMapFieldPayload *)
Definition appendMapFieldPayload (field : MapField) (payload : list byte) : result wireError (MapField * list byte) :=
  '(offset, size) ← checkedPayloadRange (zlen payload) (zlen (wmf_value field));
  Ok (mkMapField (wmf_field field) [] offset size, payload ++ wmf_value field).

(** src: cachewire/primitive_result_payload.go appendMapFieldsPayload *)
Definition appendMapFieldsPayload : list MapField -> list byte -> result wireError (list MapField * list byte) :=
  packAll appendMapFieldPayload.

(** The body of the loop of [unpackMapFields].
    src: cachewire/primitive_result_payload.go unpackMapFields 117-125 *)
Definition unpackMapField (field : MapField) (payload : list byte) : result wireError MapField :=
  value ← SlicePayload payload (wmf_payloadOffset field) (wmf_payloadSize field);
  Ok (mkMapField (wmf_field field) value (wmf_payloadOffset field) (wmf_payloadSize field)).

(** src: cachewire/primitive_result_payload.go unpackMapFields *)
Definition unpackMapFields : list MapField -> list byte -> result wireError (list MapField) :=
  unpackAll unpackMapField.

(** src: cachewire/primitive_result_payload.go appendListValuePayload *)
Definition appendListValuePayload (value : ListValue) (payload : list byte) : result wireError (ListValue * list byte) :=
  '(offset, size) ← checkedPayloadRange (zlen payload) (zlen (wlv_value value));
  Ok (mkListValue [] offset size, payload ++ wlv_value value).

(** src: cachewire/primitive_result_payload.go appendListValuesPayload *)
Definition appendListValuesPayload : list ListValue -> list byte -> result wireError (list ListValue * list byte) :=
  packAll appendListValuePayload.

(** The body of the loop of [unpackListValues].
    src: cachewire/primitive_result_payload.go unpackListValues 149-156 *)
Definition unpackListValue (value : ListValue) (payload : list byte) : result wireError ListValue :=
  v ← SlicePayload payload (wlv_payloadOffset value) (wlv_payloadSize value);
  Ok (mkListValue v (wlv_payloadOffset value) (wlv_payloadSize value)).

(** src: cachewire/primitive_result_payload.go unpackListValues *)
Definition unpackListValues : list ListValue -> list byte -> result wireError (list ListValue) :=
  unpackAll unpackListValue.

(** The fields of a result that packing changes. *)
Definition withValues (r : PrimitiveResult) (value : list byte) (fields : list MapField) (values : list ListValue)
    (offset size : Z) : PrimitiveResult :=
  mkPrimitiveResult (wpr_record r) (wpr_found r) (wpr_applied r) value (wpr_bool r) (wpr_count r) fields
    (wpr_members r) (wpr_scoredMembers r) values offset size.

(** src: cachewire/primitive_result_payload.go appendPrimitiveValuePayload *)
Definition appendPrimitiveValuePayload (result : PrimitiveResult) (payload : list byte)
    : Prelude.result wireError (PrimitiveResult * list byte) :=
  '(offset, size) ← checkedPayloadRange (zlen payload) (zlen (wpr_value result));
  Ok (withValues result [] (wpr_fields result) (wpr_values result) offset size, payload ++ wpr_value result).

(** src: cachewire/primitive_result_payload.go appendPrimitiveResultPayload *)
Definition appendPrimitiveResultPayload (result : PrimitiveResult) (payload : list byte)
    : Prelude.result wireError (PrimitiveResult * list byte) :=
  '(r, payload) ← appendPrimitiveValuePayload result payload;
  '(fields, payload) ← appendMapFieldsPayload (wpr_fields r) payload;
  let r := withValues r (wpr_value r) fields (wpr_values r) (wpr_payloadOffset r) (wpr_payloadSize r) in
  '(values, payload) ← appendListValuesPayload (wpr_values r) payload;
  Ok (withValues r (wpr_value r) (wpr_fields r) values (wpr_payloadOffset r) (wpr_payloadSize r), payload).

(** src: cachewire/primitive_result_payload.go packPrimitiveResult *)
Definition packPrimitiveResult (result : PrimitiveResult) := appendPrimitiveResultPayload result [].

(** src: cachewire/primitive_result_payload.go packPrimitiveResults *)
Definition packPrimitiveResults (items : list PrimitiveResult) := packAll appendPrimitiveResultPayload items [].

(** src: cachewire/primitive_result_payload.go unpackPrimitiveResult *)
Definition unpackPrimitiveResult (r : PrimitiveResult) (payload : list byte) : result wireError PrimitiveResult :=
  value ← SlicePayload payload (wpr_payloadOffset r) (wpr_payloadSize r);
  fields ← unpackMapFields (wpr_fields r) payload;
  values ← unpackListValues (wpr_values r) payload;
  Ok (withValues r value fields values (wpr_payloadOffset r) (wpr_payloadSize r)).

(** src: cachewire/primitive_result_payload.go unpackPrimitiveResults *)
Definition unpackPrimitiveResults : list PrimitiveResult -> list byte -> result wireError (list PrimitiveResult) :=
  unpackAll unpackPrimitiveResult.

(** ** Results *)

(** src: cachewire/binary_primitive_result_cursor.go appendPrimitiveResult *)
Definition appendPrimitiveResult (raw : list byte) (r : PrimitiveResult) : list byte :=
  let raw := appendBool raw (wpr_found r) in
  let raw := appendBool raw (wpr_applied r) in
  let raw := appendBatchRecord raw (wpr_record r) in
  let raw := appendBool raw (wpr_bool r) in
  let raw := appendUint64 raw (wpr_count r) in
  let raw := appendUint32 raw (wpr_payloadOffset r) in
  let raw := appendUint32 raw (wpr_payloadSize r) in
  let raw := appendMapFields raw (wpr_fields r) in
  let raw := appendMembers raw (wpr_members r) in
  let raw := appendScoredMembers raw (wpr_scoredMembers r) in
  appendListValues raw (wpr_values r).

(** src: cachewire/binary_primitive_result_cursor.go readResultState *)
Definition readResultState : Reader (bool * bool) :=
  found ← readBool;
  applied ← readBool;
  mret (found, applied).

(** src: cachewire/binary_primitive_result_cursor.go readResultNumbers *)
Definition readResultNumbers : Reader (bool * Z * (Z * Z)) :=
  boolValue ← readBool;
  count ← readUint64;
  valueRange ← readPayloadRange;
  mret (boolValue, count, valueRange).

(** src: cachewire/binary_primitive_result_cursor.go readPrimitiveResultBody *)
Definition readPrimitiveResultBody (found applied : bool) (record : WireRecord) : Reader PrimitiveResult :=
  '(boolValue, count, valueRange) ← readResultNumbers;
  fields ← readMapFields;
  members ← readMembers;
  scored ← readScoredMembers;
  values ← readListValues;
  mret (mkPrimitiveResult record found applied [] boolValue count fields members scored values
          valueRange.1 valueRange.2).

(** src: cachewire/binary_primitive_result_cursor.go readPrimitiveResult *)
Definition readPrimitiveResult : Reader PrimitiveResult :=
  '(found, applied) ← readResultState;
  record ← readBatchRecord;
  readPrimitiveResultBody found applied record.

(** src: cachewire/binary_primitive_batch.go readPrimitiveResults *)
Definition readPrimitiveResults : Reader (list PrimitiveResult) := readItems readPrimitiveResult.

(** src: cachewire/binary_primitive.go EncodePrimitiveResponse *)
Definition EncodePrimitiveResponse (r : PrimitiveResult) : result wireError (list byte * list byte) :=
  '(packed, payload) ← packPrimitiveResult r;
  Ok (appendPrimitiveResult newMetadata packed, payload).

(** src: cachewire/binary_primitive.go DecodePrimitiveResponse *)
Definition DecodePrimitiveResponse (raw payload : list byte) : result wireError PrimitiveResult :=
  r ← decodeAll readPrimitiveResult raw;
  unpackPrimitiveResult r payload.

(** src: cachewire/binary_primitive_batch.go EncodeBatchPrimitiveResponse *)
Definition EncodeBatchPrimitiveResponse (response : BatchPrimitiveResponse)
    : result wireError (list byte * list byte) :=
  '(packed, payload) ← packPrimitiveResults (bpr_results response);
  let raw := newMetadata in
  let raw := appendCount raw (itemCount packed) in
  Ok (appendAll appendPrimitiveResult raw packed, payload).

(** src: cachewire/binary_primitive_batch.go DecodeBatchPrimitiveResponse *)
Definition DecodeBatchPrimitiveResponse (raw payload : list byte) : result wireError BatchPrimitiveResponse :=
  results ← decodeAll readPrimitiveResults raw;
  results ← unpackPrimitiveResults results payload;
  Ok (mkBatchPrimitiveResponse results).
