(* ===== verification/WireSpec.v ===== *)
(** * Round trips of the wire format

    The laws of the basic fields, of lists and of payloads, and from them the
    round trip of every message of the cache protocol. *)

From S2P Require Import Prelude.
From S2P Require Import Binary.
From S2P Require Import GoFloat.
From S2P Require Import WireTypes.
From S2P Require Import Wire.
From S2P Require Import WireBatch.
From S2P Require Import WirePrimitive.

Local Open Scope Z_scope.

(** ** Basic fields *)

(** The lengths of Go strings are [int]s. *)
Definition str_ok (s : string) : Prop := str_len s < 2 ^ 63.

#[global] Instance str_ok_dec s : Decision (str_ok s).
Proof. unfold str_ok. apply _. Defined.

(** The bytes of a string field. *)
Definition str_field (s : string) : list byte := put_uvarint 9 (str_len s) ++ str_bytes s.

Lemma appendString_eq raw s : appendString raw s = raw ++ str_field s.
Proof. unfold appendString, AppendUvarint, str_field. by rewrite app_assoc. Qed.

Lemma appendInt64_eq raw v : appendInt64 raw v = raw ++ put_uvarint 9 (zigzag v).
Proof. done. Qed.

Lemma appendUint64_eq raw v : appendUint64 raw v = raw ++ be_put 8 v.
Proof. done. Qed.

Lemma appendUint32_eq raw v : appendUint32 raw v = raw ++ be_put 4 v.
Proof. done. Qed.

Lemma appendFloat64_eq raw f : appendFloat64 raw f = raw ++ be_put 8 (Float64bits f).
Proof. done. Qed.

Lemma appendBool_eq raw b : appendBool raw b = raw ++ [if b then Byte.x01 else Byte.x00].
Proof. by destruct b. Qed.

Lemma appendKey_eq raw k : appendKey raw k =
  raw ++ str_field (wk_namespace k) ++ str_field (wk_space k) ++ str_field (wk_entity k) ++ str_field (wk_key k).
Proof. unfold appendKey. by rewrite !appendString_eq, <- !app_assoc. Qed.

Create Rewrite HintDb wire_put.
#[export] Hint Rewrite appendString_eq appendInt64_eq appendUint64_eq appendUint32_eq appendFloat64_eq
  appendBool_eq appendKey_eq : wire_put.

Lemma take_zlen_app {A} (l k : list A) : take (Z.to_nat (zlen l)) (l ++ k) = l.
Proof. unfold zlen. by rewrite Nat2Z.id, take_app_length. Qed.

Lemma drop_zlen_app {A} (l k : list A) : drop (Z.to_nat (zlen l)) (l ++ k) = k.
Proof. unfold zlen. by rewrite Nat2Z.id, drop_app_length. Qed.

(** ** Reading what was written

    Each law is about a field read first and a continuation, so that rewriting
    with them runs a decoder on an encoded message. *)

Section Reading.
  Context {A : Type}.

Lemma reader_bind_assoc {B C} (m : Reader B) (g : B -> Reader C) (f : C -> Reader A) c :
  ((m ≫= g) ≫= f) c = (m ≫= (fun x => g x ≫= f)) c.
Proof. unfold mbind, reader_bind. by destruct (m c) as [[]|]. Qed.

Lemma reader_bind_ret {B} (b : B) (f : B -> Reader A) c : (mret b ≫= f) c = f b c.
Proof. done. Qed.

Lemma readString_put s (f : string -> Reader A) rest : str_ok s ->
  (readString ≫= f) (str_field s ++ rest) = f s rest.
Proof.
  intros Hs. unfold mbind, reader_bind, readString, str_field. rewrite <- app_assoc.
  pose proof (str_len_nonneg s). rewrite Uvarint_put by (unfold is_u64, str_ok in *; lia).
  pose proof (zlen_put_uvarint_pos 9 (str_len s)).
  rewrite (proj2 (Z.leb_gt _ 0)) by lia. rewrite drop_zlen_app. unfold checkedStringLength.
  rewrite (proj2 (Z.ltb_ge maxInt64 _)) by (unfold maxInt64, str_ok in *; lia).
  rewrite str_len_bytes, zlen_app. rewrite (proj2 (Z.ltb_ge _ _)) by (pose proof (zlen_nonneg rest); lia).
  unfold mbind, result_bind. by rewrite take_zlen_app, drop_zlen_app, bytes_str_bytes.
Qed.

Lemma readBool_put (b : bool) (f : bool -> Reader A) rest :
  (readBool ≫= f) ([if b then Byte.x01 else Byte.x00] ++ rest) = f b rest.
Proof. by destruct b. Qed.

Lemma readUint64_put v (f : Z -> Reader A) rest : is_u64 v -> (readUint64 ≫= f) (be_put 8 v ++ rest) = f v rest.
Proof.
  intros Hv. unfold mbind, reader_bind, readUint64. rewrite zlen_app.
  assert (zlen (be_put 8 v) = 8) as E by (unfold zlen; by rewrite length_be_put).
  rewrite (proj2 (Z.ltb_ge _ 8)) by (pose proof (zlen_nonneg rest); lia).
  rewrite take_app_length', drop_app_length' by (by rewrite length_be_put). by rewrite be_get_put_small.
Qed.

Lemma readUint32_put v (f : Z -> Reader A) rest : is_u32 v -> (readUint32 ≫= f) (be_put 4 v ++ rest) = f v rest.
Proof.
  intros Hv. unfold mbind, reader_bind, readUint32. rewrite zlen_app.
  assert (zlen (be_put 4 v) = 4) as E by (unfold zlen; by rewrite length_be_put).
  rewrite (proj2 (Z.ltb_ge _ 4)) by (pose proof (zlen_nonneg rest); lia).
  rewrite take_app_length', drop_app_length' by (by rewrite length_be_put). by rewrite be_get_put_small.
Qed.

Lemma readFloat64_put v (f : float64 -> Reader A) rest : is_float64 v ->
  (readFloat64 ≫= f) (be_put 8 (Float64bits v) ++ rest) = f v rest.
Proof.
  intros Hv. unfold mbind, reader_bind, readFloat64. rewrite zlen_app.
  assert (zlen (be_put 8 (Float64bits v)) = 8) as E by (unfold zlen; by rewrite length_be_put).
  rewrite (proj2 (Z.ltb_ge _ 8)) by (pose proof (zlen_nonneg rest); lia).
  rewrite take_app_length', drop_app_length' by (by rewrite length_be_put).
  by rewrite be_get_put_small, Float64frombits_bits by (try apply Float64bits_range; done).
Qed.

Lemma readInt64_put v (f : Z -> Reader A) rest : is_s64 v ->
  (readInt64 ≫= f) (put_uvarint 9 (zigzag v) ++ rest) = f v rest.
Proof.
  intros Hv. unfold mbind, reader_bind, readInt64. rewrite Varint_put by done.
  pose proof (zlen_put_uvarint_pos 9 (zigzag v)).
  rewrite (proj2 (Z.leb_gt _ 0)) by lia. by rewrite drop_zlen_app.
Qed.

(** A wire key is four strings. *)
Definition wire_key_ok (k : Key) : Prop :=
  str_ok (wk_namespace k) /\ str_ok (wk_space k) /\ str_ok (wk_entity k) /\ str_ok (wk_key k).

Lemma readKey_put k (f : Key -> Reader A) rest : wire_key_ok k ->
  (readKey ≫= f) (str_field (wk_namespace k) ++ str_field (wk_space k) ++ str_field (wk_entity k)
                    ++ str_field (wk_key k) ++ rest) = f k rest.
Proof.
  intros (H1 & H2 & H3 & H4). unfold readKey.
  repeat (rewrite ?reader_bind_assoc, readString_put by done). rewrite reader_bind_ret. by destruct k.
Qed.
End Reading.

#[global] Instance wire_key_ok_dec k : Decision (wire_key_ok k).
Proof. unfold wire_key_ok. apply _. Defined.

Create Rewrite HintDb wire_read.
#[export] Hint Rewrite @reader_bind_assoc @reader_bind_ret @readBool_put : wire_read.
#[export] Hint Rewrite @readString_put @readUint64_put @readUint32_put @readFloat64_put @readInt64_put
  @readKey_put using (done || tauto) : wire_read.

(** Lay an encoded message out as its fields, and run a decoder on it. *)
Ltac wire_layout := autorewrite with wire_put; rewrite <- ?app_assoc.
Ltac wire_run := repeat (autorewrite with wire_read; cbv beta iota).

Lemma decodeAll_ok {A} (read : Reader A) (a : A) body :
  read (body ++ []) = Ok (a, []) -> decodeAll read (newMetadata ++ body) = Ok a.
Proof.
  intros H. unfold decodeAll. rewrite app_nil_r in H.
  change (newCursor (newMetadata ++ body)) with (Ok (E:=wireError) body). unfold mbind, result_bind.
  by rewrite H.
Qed.


Ltac wire_roundtrip := wire_layout; apply decodeAll_ok; rewrite <- ?app_assoc; wire_run; try done.

(** ** Items and lists *)

(** An [append] function and a [read] method that agree: what [append] writes,
    [read] sees as [seen a], whatever follows. *)
Class Wire {A} (append : list byte -> A -> list byte) (read : Reader A) (seen : A -> A) (ok : A -> Prop)
    : Prop := {
  wire_append raw a : append raw a = raw ++ append [] a;
  wire_read {B} a (f : A -> Reader B) rest : ok a -> (read ≫= f) (append [] a ++ rest) = f (seen a) rest;
  wire_nonempty a : append [] a <> []
}.

Section Lists.
  Context {A : Type} (append : list byte -> A -> list byte) (read : Reader A) (seen : A -> A) (ok : A -> Prop).
  Context `{!Wire append read seen ok}.

(** The bytes of the items of a list. *)
Definition item_bytes (l : list A) : list byte := l ≫= append [].

Lemma appendAll_eq raw l : appendAll append raw l = raw ++ item_bytes l.
Proof.
  unfold appendAll, item_bytes. revert raw; induction l as [|a l IH]; intros raw.
  - cbn. by rewrite app_nil_r.
  - rewrite bind_cons. cbn [foldl]. by rewrite IH, (wire_append (append:=append) raw a), <- app_assoc.
Qed.

Lemma item_bytes_length l : zlen l <= zlen (item_bytes l).
Proof.
  unfold item_bytes. induction l as [|a l IH]; [done|]. rewrite bind_cons, zlen_cons, zlen_app.
  pose proof (wire_nonempty (append:=append) a). destruct (append [] a) eqn:?; [done|]. rewrite zlen_cons.
  pose proof (zlen_nonneg l0). lia.
Qed.

Lemma readN_put {B} l (f : list A -> Reader B) rest : Forall ok l ->
  (readN read (length l) ≫= f) (item_bytes l ++ rest) = f (seen <$> l) rest.
Proof.
  intros H. revert f. induction H as [|a l Ha H IH]; intros f; [done|].
  unfold item_bytes. rewrite bind_cons. cbn [length readN]. rewrite <- app_assoc.
  rewrite reader_bind_assoc, (wire_read (append:=append)) by done. rewrite reader_bind_assoc. fold (item_bytes l). by rewrite IH.
Qed.

Lemma itemCount_eq (l : list A) : zlen l < 2 ^ 63 -> itemCount l = zlen l.
Proof.
  unfold itemCount. intros H.
  enough (forall n, 0 <= n -> n + zlen l < 2 ^ 64 ->
    foldl (fun count (_ : A) => u64 (count + 1)) n l = n + zlen l) as E by (rewrite E; lia).
  clear H. induction l as [|a l IH]; intros n Hn Hl; cbn [foldl]; [unfold zlen; cbn; lia|].
  rewrite zlen_cons in *. pose proof (zlen_nonneg l). rewrite u64_small by (unfold is_u64; lia).
  rewrite IH; lia.
Qed.

Lemma readItems_put {B} l (f : list A -> Reader B) rest : Forall ok l -> zlen l < 2 ^ 63 ->
  (readItems read ≫= f) (be_put 8 (itemCount l) ++ item_bytes l ++ rest) = f (seen <$> l) rest.
Proof.
  intros H Hl. pose proof (zlen_nonneg l). unfold readItems, readCount. rewrite itemCount_eq by done.
  rewrite !reader_bind_assoc, readUint64_put by (unfold is_u64; lia).
  pose proof (item_bytes_length l). pose proof (zlen_nonneg rest).
  unfold mbind at 1, reader_bind at 1. unfold checkedStringLength.
  rewrite (proj2 (Z.ltb_ge maxInt64 _)) by (unfold maxInt64; lia).
  rewrite (proj2 (Z.ltb_ge _ (zlen l))) by (rewrite zlen_app; lia).
  unfold mbind at 1, result_bind at 1. unfold zlen. rewrite Nat2Z.id. by apply readN_put.
Qed.

(** A batch is never decoded into more items than the message has bytes. *)
Lemma readN_length n c l c' : readN read n c = Ok (l, c') -> length l = n.
Proof.
  revert c l c'; induction n as [|n IH]; intros c l c'; cbn [readN].
  - unfold mret, reader_ret. by intros [= <- _].
  - unfold mbind, reader_bind. destruct (read c) as [[a c1]|]; [|done].
    destruct (readN read n c1) as [[l1 c2]|] eqn:E; [|done]. unfold mret, reader_ret.
    intros [= <- _]. cbn. f_equal. by eapply IH.
Qed.
End Lists.

Lemma decode_items_bound {A} (read : Reader A) raw l : decodeAll (readItems read) raw = Ok l ->
  zlen l + 9 <= zlen raw.
Proof.
  unfold decodeAll, readItems, readCount, readUint64. destruct raw as [|v c]; [done|]. cbn [newCursor].
  destruct (negb _); [done|]. unfold mbind, result_bind, reader_bind. destruct (Z.ltb_spec (zlen c) 8); [done|].
  unfold checkedStringLength. destruct (maxInt64 <? _); [done|].
  destruct (Z.ltb_spec (zlen (drop 8 c)) (be_get (take 8 c))) as [|Hle]; [done|].
  destruct (readN _ _ _) as [[l' c']|] eqn:E; [|done]. destruct (ensureEOF c'); [|done]. intros [= ->].
  apply readN_length in E. pose proof (be_get_range (take 8 c)).
  unfold zlen in *. rewrite length_drop in Hle. cbn [length]. lia.
Qed.

(** ** Payloads *)

Lemma checked_range (payload value : list byte) o n : checkedPayloadRange (zlen payload) (zlen value) = Ok (o, n) ->
  o = zlen payload /\ n = zlen value /\ is_u32 o /\ is_u32 n.
Proof.
  unfold checkedPayloadRange. pose proof (zlen_nonneg payload). pose proof (zlen_nonneg value).
  destruct ((zlen payload <? 0) || _) eqn:E1; [done|]. destruct ((zlen value <? 0) || _) eqn:E2; [done|].
  bool_to_prop. intros [= <- <-]. unfold is_u32. rewrite !u32_small by (unfold is_u32; lia). lia.
Qed.

Lemma checked_range_ok (payload value : list byte) : zlen payload + zlen value < 2 ^ 32 ->
  checkedPayloadRange (zlen payload) (zlen value) = Ok (zlen payload, zlen value).
Proof.
  intros H. unfold checkedPayloadRange. pose proof (zlen_nonneg payload). pose proof (zlen_nonneg value).
  rewrite !(proj2 (Z.ltb_ge _ _)) by lia. cbn [orb]. by rewrite !u32_small by (unfold is_u32; lia).
Qed.

Lemma slice_packed (payload value more : list byte) : is_u32 (zlen payload) -> is_u32 (zlen value) ->
  SlicePayload ((payload ++ value) ++ more) (zlen payload) (zlen value) = Ok value.
Proof.
  unfold is_u32, SlicePayload. intros H1 H2. rewrite s64_small by (unfold is_s64; lia). rewrite !zlen_app.
  pose proof (zlen_nonneg more). rewrite !(proj2 (Z.ltb_ge _ _)) by lia. cbn [orb].
  rewrite <- app_assoc, drop_zlen_app. replace (zlen payload + zlen value - zlen payload) with (zlen value) by lia.
  by rewrite take_zlen_app.
Qed.

(** A packing function and the unpacking function on the other side: the values
    go through the payload, whatever the codec does not carry is forgotten by
    [strip], and [size] bytes of payload are needed. *)
Class Packs {A} (pack : A -> list byte -> result wireError (A * list byte))
    (unpack : A -> list byte -> result wireError A) (seen strip : A -> A) (size : A -> Z) (ok packed : A -> Prop)
    : Prop := {
  pack_total a payload : zlen payload + size a < 2 ^ 32 -> exists b added, pack a payload = Ok (b, payload ++ added) /\
    zlen added = size a;
  pack_unpack a payload b payload' : pack a payload = Ok (b, payload') -> ok a -> packed b /\
    exists added, payload' = payload ++ added /\
      forall more, exists c, unpack (seen b) (payload' ++ more) = Ok c /\ strip c = strip a;
  pack_size a : 0 <= size a
}.

Section Pack.
  Context {A : Type} (pack : A -> list byte -> result wireError (A * list byte))
    (unpack : A -> list byte -> result wireError A) (seen strip : A -> A) (size : A -> Z) (ok packed : A -> Prop).
  Context `{!Packs pack unpack seen strip size ok packed}.

Lemma packAll_total l payload : zlen payload + lsum size l < 2 ^ 32 ->
  exists l' added, packAll pack l payload = Ok (l', payload ++ added) /\ zlen added = lsum size l.
Proof.
  revert payload; induction l as [|a l IH]; intros payload Hs; cbn [packAll].
  - exists [], []. by rewrite app_nil_r.
  - rewrite lsum_cons in Hs. assert (0 <= lsum size l) by (apply lsum_nonneg; intros; apply pack_size).
    destruct (pack_total a payload) as (b & added & Hp & Hz); [lia|]. rewrite Hp. unfold mbind, result_bind.
    destruct (IH (payload ++ added)) as (l' & added' & Hl & Hz'); [rewrite zlen_app; lia|].
    rewrite Hl. exists (b :: l'), (added ++ added'). rewrite app_assoc, zlen_app, lsum_cons. split; [done|lia].
Qed.

Lemma packAll_unpack l payload l' payload' : packAll pack l payload = Ok (l', payload') -> Forall ok l ->
  Forall packed l' /\ length l' = length l /\ exists added, payload' = payload ++ added /\
    forall more, exists k, unpackAll unpack (seen <$> l') (payload' ++ more) = Ok k /\ strip <$> k = strip <$> l.
Proof.
  revert payload l' payload'; induction l as [|a l IH]; intros payload l' payload'; cbn [packAll].
  - intros [= <- <-] _. split_and!; [done|done|]. exists []. rewrite app_nil_r. split; [done|].
    intros more. by exists [].
  - unfold mbind, result_bind. destruct (pack a payload) as [[b p1]|] eqn:Ha; [|done].
    destruct (packAll pack l p1) as [[l1 p2]|] eqn:El; [|done]. intros [= <- <-] [Hok Hl]%Forall_cons.
    destruct (pack_unpack a payload b p1 Ha Hok) as (Hb & ad1 & -> & Hun).
    destruct (IH _ _ _ El Hl) as (Hl1 & Hlen & ad2 & -> & Huns).
    split_and!; [by constructor|by cbn; rewrite Hlen|]. exists (ad1 ++ ad2). rewrite app_assoc. split; [done|].
    intros more. destruct (Hun (ad2 ++ more)) as (c & Hc & Hs). destruct (Huns more) as (k & Hk & Hks).
    exists (c :: k). rewrite !fmap_cons. cbn [unpackAll]. rewrite <- (app_assoc (payload ++ ad1)), Hc.
    rewrite app_assoc. unfold mbind, result_bind. by rewrite Hk, Hs, Hks.
Qed.
End Pack.
