(* ===== verification/WireMessages.v ===== *)
(** * The messages of the wire format

    An instance of [Wire] for every item, of [Packs] for every item with a value
    in the payload, and the round trip of every message: what one side encodes,
    the other decodes, up to the fields the format does not carry (the route
    epoch, which travels in the frame's header, and the place of a value in the
    payload). *)

From S2P Require Import Prelude.
From S2P Require Import Binary.
From S2P Require Import GoFloat.
From S2P Require Import WireTypes.
From S2P Require Import Wire.
From S2P Require Import WireBatch.
From S2P Require Import WirePrimitive.
From S2P Require Import WireSpec.

Local Open Scope Z_scope.

(** ** Automation *)

Lemma app_ne {A} (l k : list A) : l <> [] -> l ++ k <> [].
Proof. by destruct l. Qed.

Lemma str_field_ne s : str_field s <> [].
Proof.
  unfold str_field. apply app_ne. intros E. pose proof (zlen_put_uvarint_pos 9 (str_len s)) as H.
  rewrite E in H. done.
Qed.

Lemma be_put_ne n v : be_put (S n) v <> [].
Proof. done. Qed.

Lemma uvarint_ne v : put_uvarint 9 v <> [].
Proof. intros E. pose proof (zlen_put_uvarint_pos 9 v) as H. rewrite E in H. done. Qed.

Create HintDb wire discriminated.
#[export] Hint Resolve app_ne str_field_ne be_put_ne uvarint_ne : wire.
#[export] Hint Extern 1 (_ :: _ <> []) => discriminate : wire.

(** Prove an instance of [Wire] for a plain sequence of fields. *)
Ltac wire_instance app rd ok :=
  constructor;
  [ intros raw a; unfold app; wire_layout; by rewrite ?app_nil_l
  | intros B a f rest Hok; unfold ok in Hok; unfold app, rd; wire_layout; rewrite ?app_nil_l; wire_run; try done
  | intros a; unfold app; wire_layout; rewrite ?app_nil_l; auto with wire ].

(** ** Single requests *)

Definition set_ok (r : SetRequest) : Prop :=
  wire_key_ok (ws_key r) /\ is_s64 (ws_ttlMillis r) /\ is_u64 (ws_namespaceVersion r) /\
  is_u64 (ws_spaceVersion r) /\ is_u64 (ws_expectedVersion r).

Definition set_seen (r : SetRequest) : SetRequest :=
  mkSetRequest (ws_key r) [] 0 (ws_ttlMillis r) (ws_namespaceVersion r) (ws_spaceVersion r)
    (ws_expectedVersion r) 0 0.

Lemma set_roundtrip r : set_ok r -> DecodeSetRequest (EncodeSetRequest r) = Ok (set_seen r).
Proof. unfold set_ok. intros H. unfold DecodeSetRequest, EncodeSetRequest. wire_roundtrip. Qed.

Definition get_ok (r : GetRequest) : Prop :=
  wire_key_ok (wg_key r) /\ is_u64 (wg_namespaceVersion r) /\ is_u64 (wg_spaceVersion r).

Definition get_seen (r : GetRequest) : GetRequest :=
  mkGetRequest (wg_key r) 0 (wg_namespaceVersion r) (wg_spaceVersion r).

Lemma versioned_roundtrip k n s : wire_key_ok k -> is_u64 n -> is_u64 s ->
  decodeVersionedKey (appendUint64 (appendUint64 (appendKey newMetadata k) n) s) = Ok (k, n, s).
Proof. intros Hk Hn Hs. unfold decodeVersionedKey, readVersionedKey. wire_roundtrip. Qed.

Lemma get_roundtrip r : get_ok r -> DecodeGetRequest (EncodeGetRequest r) = Ok (get_seen r).
Proof. intros (? & ? & ?). unfold DecodeGetRequest, EncodeGetRequest. by rewrite versioned_roundtrip. Qed.

Definition exists_ok (r : ExistsRequest) : Prop :=
  wire_key_ok (we_key r) /\ is_u64 (we_namespaceVersion r) /\ is_u64 (we_spaceVersion r).

Definition exists_seen (r : ExistsRequest) : ExistsRequest :=
  mkExistsRequest (we_key r) 0 (we_namespaceVersion r) (we_spaceVersion r).

Lemma exists_roundtrip r : exists_ok r -> DecodeExistsRequest (EncodeExistsRequest r) = Ok (exists_seen r).
Proof. intros (? & ? & ?). unfold DecodeExistsRequest, EncodeExistsRequest. by rewrite versioned_roundtrip. Qed.

Definition delete_ok (r : DeleteRequest) : Prop := wire_key_ok (wd_key r) /\ is_u64 (wd_expectedVersion r).

Definition delete_seen (r : DeleteRequest) : DeleteRequest := mkDeleteRequest (wd_key r) 0 (wd_expectedVersion r).

Lemma delete_roundtrip r : delete_ok r -> DecodeDeleteRequest (EncodeDeleteRequest r) = Ok (delete_seen r).
Proof. unfold delete_ok. intros H. unfold DecodeDeleteRequest, EncodeDeleteRequest. wire_roundtrip. Qed.

Definition touch_ok (r : TouchRequest) : Prop :=
  wire_key_ok (wt_key r) /\ is_s64 (wt_ttlMillis r) /\ is_u64 (wt_namespaceVersion r) /\
  is_u64 (wt_spaceVersion r) /\ is_u64 (wt_expectedVersion r).

Definition touch_seen (r : TouchRequest) : TouchRequest :=
  mkTouchRequest (wt_key r) 0 (wt_ttlMillis r) (wt_namespaceVersion r) (wt_spaceVersion r) (wt_expectedVersion r).

Lemma touch_roundtrip r : touch_ok r -> DecodeTouchRequest (EncodeTouchRequest r) = Ok (touch_seen r).
Proof. unfold touch_ok. intros H. unfold DecodeTouchRequest, EncodeTouchRequest. wire_roundtrip. Qed.

Definition adjust_ok (r : AdjustRequest) : Prop :=
  wire_key_ok (wa_key r) /\ is_s64 (wa_ttlMillis r) /\ is_s64 (wa_initialValue r) /\ is_s64 (wa_delta r) /\
  is_u64 (wa_namespaceVersion r) /\ is_u64 (wa_spaceVersion r) /\ is_u64 (wa_expectedVersion r).

Definition adjust_seen (r : AdjustRequest) : AdjustRequest :=
  mkAdjustRequest (wa_key r) 0 (wa_ttlMillis r) (wa_initialValue r) (wa_delta r) (wa_namespaceVersion r)
    (wa_spaceVersion r) (wa_expectedVersion r).

Lemma adjust_roundtrip r : adjust_ok r -> DecodeAdjustRequest (EncodeAdjustRequest r) = Ok (adjust_seen r).
Proof. unfold adjust_ok. intros H. unfold DecodeAdjustRequest, EncodeAdjustRequest. wire_roundtrip. Qed.

(** ** Single responses *)

Definition record_ok (r : WireRecord) : Prop :=
  str_ok (wr_namespace r) /\ str_ok (wr_space r) /\ str_ok (wr_entity r) /\ str_ok (wr_key r) /\
  is_u64 (wr_version r) /\ is_u64 (wr_namespaceVersion r) /\ is_u64 (wr_spaceVersion r) /\
  is_s64 (wr_expireAtUnixMs r).

(** What a record looks like on the other side; its value travels apart. *)
Definition record_seen (r : WireRecord) : WireRecord :=
  if wr_found r then placeRecord r [] 0 0 else missingRecord.

Lemma record_roundtrip r : record_ok r -> DecodeRecord (EncodeRecord r) = Ok (record_seen r).
Proof.
  unfold record_ok. intros H. unfold EncodeRecord, record_seen. destruct (wr_found r) eqn:Hf; cbn [negb]; [|done].
  wire_layout. unfold DecodeRecord. unfold newMetadata. cbn [app].
  unfold newCursor. rewrite bool_decide_eq_true_2 by done. cbn [negb]. unfold mbind at 1, result_bind at 1.
  unfold readBool. rewrite bool_decide_eq_false_2, bool_decide_eq_true_2 by done.
  unfold mbind at 1, result_bind at 1. cbn [negb].
  rewrite <- (app_nil_r (put_uvarint 9 (zigzag (wr_expireAtUnixMs r)))). unfold readRecord.
  wire_run. unfold placeRecord. by rewrite Hf.
Qed.

Lemma bool_roundtrip b : decodeBool (encodeBool b) = Ok b.
Proof. by destruct b. Qed.

Lemma uint64_roundtrip v : is_u64 v -> decodeUint64Response (appendUint64 newMetadata v) = Ok v.
Proof.
  intros Hv. unfold decodeUint64Response. wire_layout. apply decodeAll_ok.
  pose proof (readUint64_put (A:=Z) v mret [] Hv) as E. unfold mbind, reader_bind in E.
  destruct (readUint64 (be_put 8 v ++ [])) as [[]|]; [|done]. by injection E as -> ->.
Qed.

(** ** Items *)

Definition set_item_ok (r : SetRequest) : Prop :=
  set_ok r /\ is_u32 (ws_payloadOffset r) /\ is_u32 (ws_payloadSize r).

Definition set_item_seen (r : SetRequest) : SetRequest :=
  placeSet (set_seen r) [] (ws_payloadOffset r) (ws_payloadSize r).

#[export] Instance wire_set : Wire appendBatchSetItem readBatchSetItem set_item_seen set_item_ok.
Proof. unfold set_item_ok. wire_instance appendBatchSetItem readBatchSetItem set_ok. Qed.

#[export] Instance wire_get : Wire appendBatchGetItem readBatchGetItem get_seen get_ok.
Proof. wire_instance appendBatchGetItem readBatchGetItem get_ok. Qed.

#[export] Instance wire_delete : Wire appendBatchDeleteItem readBatchDeleteItem delete_seen delete_ok.
Proof. wire_instance appendBatchDeleteItem readBatchDeleteItem delete_ok. Qed.

#[export] Instance wire_touch : Wire appendBatchTouchItem readBatchTouchItem touch_seen touch_ok.
Proof. wire_instance appendBatchTouchItem readBatchTouchItem touch_ok. Qed.

#[export] Instance wire_exists : Wire appendBatchExistsItem readBatchExistsItem exists_seen exists_ok.
Proof. unfold readBatchExistsItem. wire_instance appendBatchExistsItem readVersionedKey exists_ok. Qed.

#[export] Instance wire_bool : Wire appendBool readBool id (fun _ => True).
Proof.
  constructor; [by intros raw []| |by intros []]. intros B a f rest _. rewrite appendBool_eq. apply readBool_put.
Qed.

#[export] Instance wire_string : Wire appendString readString id str_ok.
Proof.
  constructor.
  - intros raw a. by rewrite !appendString_eq.
  - intros B a f rest Ha. rewrite appendString_eq. by apply readString_put.
  - intros a. rewrite appendString_eq. apply str_field_ne.
Qed.

Definition place_ok (offset size : Z) : Prop := is_u32 offset /\ is_u32 size.

Definition record_item_ok (r : WireRecord) : Prop :=
  wr_found r = true -> record_ok r /\ place_ok (wr_payloadOffset r) (wr_payloadSize r).

Definition record_item_seen (r : WireRecord) : WireRecord :=
  if wr_found r then placeRecord r [] (wr_payloadOffset r) (wr_payloadSize r) else missingRecord.

#[export] Instance wire_record : Wire appendBatchRecord readBatchRecord record_item_seen record_item_ok.
Proof.
  constructor.
  - intros raw r. unfold appendBatchRecord. destruct (wr_found r); cbn [negb]; wire_layout; by rewrite ?app_nil_l.
  - intros B r f rest Hok. unfold record_item_ok, record_ok, place_ok in Hok.
    unfold appendBatchRecord, record_item_seen, readBatchRecord. destruct (wr_found r) eqn:Hf; cbn [negb].
    + specialize (Hok eq_refl). wire_layout. rewrite app_nil_l, reader_bind_assoc, (readBool_put true). cbn [negb].
      unfold readBatchRecordFields, readBatchRecordNumbers. wire_run. unfold placeRecord. by rewrite Hf.
    + wire_layout. rewrite app_nil_l, reader_bind_assoc, (readBool_put false). done.
  - intros r. unfold appendBatchRecord. destruct (wr_found r); cbn [negb]; wire_layout; rewrite app_nil_l; auto with wire.
Qed.

Definition entry_ok (x : MigrationSnapshotEntry) : Prop :=
  wire_key_ok (me_key x) /\ is_u64 (me_version x) /\ is_u64 (me_namespaceVersion x) /\ is_u64 (me_spaceVersion x) /\
  is_s64 (me_expireAtUnixMs x) /\ is_s64 (me_createdAtUnixMs x) /\ is_s64 (me_updatedAtUnixMs x) /\
  is_s64 (me_lastAccessAtUnixMs x) /\ is_u64 (me_accessCount x).

Definition entry_item_ok (x : MigrationSnapshotEntry) : Prop :=
  entry_ok x /\ is_u32 (me_payloadOffset x) /\ is_u32 (me_payloadSize x).

Definition entry_item_seen (x : MigrationSnapshotEntry) : MigrationSnapshotEntry :=
  placeEntry x [] (me_payloadOffset x) (me_payloadSize x).

#[export] Instance wire_entry :
  Wire appendMigrationSnapshotEntry readMigrationSnapshotEntry entry_item_seen entry_item_ok.
Proof.
  unfold entry_item_ok, readMigrationSnapshotEntry, readMigrationSnapshotEntryBody, readMigrationSnapshotVersions,
    readMigrationSnapshotTimes, readMigrationSnapshotTail.
  wire_instance appendMigrationSnapshotEntry readMigrationSnapshotEntry entry_ok.
Qed.

Definition primitive_ok (r : PrimitiveRequest) : Prop :=
  0 <= wp_kind r < 256 /\ wire_key_ok (wp_key r) /\ is_s64 (wp_ttlMillis r) /\ is_u64 (wp_namespaceVersion r) /\
  is_u64 (wp_spaceVersion r) /\ is_u64 (wp_expectedVersion r) /\ str_ok (wp_field r) /\ str_ok (wp_member r) /\
  is_s64 (wp_delta r) /\ is_s64 (wp_initialValue r) /\ is_float64 (wp_score r) /\ is_float64 (wp_minScore r) /\
  is_float64 (wp_maxScore r) /\ is_u64 (wp_limit r) /\ is_s64 (wp_start r).

Definition primitive_item_ok (r : PrimitiveRequest) : Prop :=
  primitive_ok r /\ is_u32 (wp_payloadOffset r) /\ is_u32 (wp_payloadSize r).

(** [RouteEpoch] and [Value] are not in the metadata. *)
Definition primitive_item_seen (r : PrimitiveRequest) : PrimitiveRequest :=
  mkPrimitiveRequest (wp_key r) 0 (wp_kind r) (wp_ttlMillis r) (wp_namespaceVersion r)
    (wp_spaceVersion r) (wp_expectedVersion r) (wp_field r) (wp_member r) [] (wp_delta r) (wp_initialValue r)
    (wp_score r) (wp_minScore r) (wp_maxScore r) (wp_hasMinScore r) (wp_hasMaxScore r) (wp_limit r) (wp_start r)
    (wp_reverse r) (wp_payloadOffset r) (wp_payloadSize r).

Lemma readPrimitiveKind_put {A} k (f : PrimitiveKind -> Reader A) rest : 0 <= k < 256 ->
  (readPrimitiveKind ≫= f) ([byte_of_Z k] ++ rest) = f k rest.
Proof.
  intros Hk. unfold readPrimitiveKind, mbind, reader_bind. cbn [app readByte]. unfold mret, reader_ret.
  by rewrite byte_Z_of_Z, Z.mod_small.
Qed.

#[export] Instance wire_primitive : Wire appendPrimitiveRequest readPrimitiveRequest primitive_item_seen primitive_item_ok.
Proof.
  unfold primitive_item_ok, readPrimitiveRequest, readPrimitiveRequestBody, readPrimitiveRequestTail,
    readPrimitiveOptions, readVersionTriplet, readPrimitiveNames, readPrimitiveNumbers, readPrimitiveIntPair,
    readPrimitiveScores, readPrimitiveFlags, readPayloadRange.
  constructor.
  - intros raw a. unfold appendPrimitiveRequest, appendPrimitiveOptions, appendPrimitiveNumbers. wire_layout.
    by rewrite app_nil_l.
  - intros B a f rest Hok. unfold primitive_ok in Hok.
    unfold appendPrimitiveRequest, appendPrimitiveOptions, appendPrimitiveNumbers. wire_layout. rewrite app_nil_l.
    rewrite reader_bind_assoc, readPrimitiveKind_put by tauto. wire_run. done.
  - intros a. unfold appendPrimitiveRequest, appendPrimitiveOptions, appendPrimitiveNumbers. wire_layout.
    rewrite app_nil_l. auto with wire.
Qed.

Definition field_ok (f : MapField) : Prop := str_ok (wmf_field f).

Definition field_item_ok (f : MapField) : Prop :=
  field_ok f /\ is_u32 (wmf_payloadOffset f) /\ is_u32 (wmf_payloadSize f).

Definition field_seen (f : MapField) : MapField :=
  mkMapField (wmf_field f) [] (wmf_payloadOffset f) (wmf_payloadSize f).

#[export] Instance wire_field : Wire appendMapField readMapField field_seen field_item_ok.
Proof. unfold field_item_ok, readMapField, readPayloadRange. wire_instance appendMapField readMapField field_ok. Qed.

Definition value_item_ok (v : ListValue) : Prop := is_u32 (wlv_payloadOffset v) /\ is_u32 (wlv_payloadSize v).

Definition value_seen (v : ListValue) : ListValue := mkListValue [] (wlv_payloadOffset v) (wlv_payloadSize v).

#[export] Instance wire_value : Wire appendListValue readListValue value_seen value_item_ok.
Proof. unfold readListValue, readPayloadRange. wire_instance appendListValue readListValue value_item_ok. Qed.

Definition scored_ok (m : ScoredMember) : Prop := str_ok (wsm_member m) /\ is_float64 (wsm_score m).

#[export] Instance wire_scored : Wire appendScoredMember readScoredMember id scored_ok.
Proof.
  wire_instance appendScoredMember readScoredMember scored_ok. by destruct a.
Qed.

(** ** Results *)

Lemma list_layout {A} (append : list byte -> A -> list byte) read seen ok `{!Wire append read seen ok} raw l :
  appendAll append (appendCount raw (itemCount l)) l = raw ++ be_put 8 (itemCount l) ++ item_bytes append l.
Proof.
  rewrite (appendAll_eq append read seen ok). unfold appendCount. by rewrite appendUint64_eq, <- app_assoc.
Qed.

Lemma appendMapFields_eq raw l :
  appendMapFields raw l = raw ++ be_put 8 (itemCount l) ++ item_bytes appendMapField l.
Proof. eapply list_layout, _. Qed.

Lemma appendMembers_eq raw l :
  appendMembers raw l = raw ++ be_put 8 (itemCount l) ++ item_bytes appendString l.
Proof. eapply list_layout, _. Qed.

Lemma appendScoredMembers_eq raw l :
  appendScoredMembers raw l = raw ++ be_put 8 (itemCount l) ++ item_bytes appendScoredMember l.
Proof. eapply list_layout, _. Qed.

Lemma appendListValues_eq raw l :
  appendListValues raw l = raw ++ be_put 8 (itemCount l) ++ item_bytes appendListValue l.
Proof. eapply list_layout, _. Qed.

Lemma appendBatchRecord_eq raw r : appendBatchRecord raw r = raw ++ appendBatchRecord [] r.
Proof. apply wire_append. Qed.

Definition short {A} (l : list A) : Prop := zlen l < 2 ^ 63.

Definition result_ok (r : PrimitiveResult) : Prop :=
  record_item_ok (wpr_record r) /\ is_u64 (wpr_count r) /\
  (Forall field_ok (wpr_fields r) /\ short (wpr_fields r)) /\
  (Forall str_ok (wpr_members r) /\ short (wpr_members r)) /\
  (Forall scored_ok (wpr_scoredMembers r) /\ short (wpr_scoredMembers r)) /\ short (wpr_values r).

Definition result_item_ok (r : PrimitiveResult) : Prop :=
  result_ok r /\ Forall field_item_ok (wpr_fields r) /\ Forall value_item_ok (wpr_values r) /\
  is_u32 (wpr_payloadOffset r) /\ is_u32 (wpr_payloadSize r).

Definition result_item_seen (r : PrimitiveResult) : PrimitiveResult :=
  mkPrimitiveResult (record_item_seen (wpr_record r)) (wpr_found r) (wpr_applied r) [] (wpr_bool r) (wpr_count r)
    (field_seen <$> wpr_fields r) (wpr_members r) (wpr_scoredMembers r) (value_seen <$> wpr_values r)
    (wpr_payloadOffset r) (wpr_payloadSize r).

#[local] Hint Rewrite appendMapFields_eq appendMembers_eq appendScoredMembers_eq appendListValues_eq : wire_put.

#[export] Instance wire_result : Wire appendPrimitiveResult readPrimitiveResult result_item_seen result_item_ok.
Proof.
  constructor.
  - intros raw r. unfold appendPrimitiveResult. rewrite (appendBatchRecord_eq (appendBool (appendBool raw _) _)).
    rewrite (appendBatchRecord_eq (appendBool (appendBool [] _) _)). wire_layout. by rewrite app_nil_l.
  - intros B r f rest Hok.
    destruct Hok as ((Hrec & Hcount & [_ Hfl] & [Hm Hml] & [Hs Hsl] & Hvl) & Hf & Hv & Ho & Hn).
    unfold appendPrimitiveResult. rewrite appendBatchRecord_eq. wire_layout. rewrite app_nil_l.
    unfold readPrimitiveResult, readPrimitiveResultBody, readResultState, readResultNumbers, readPayloadRange,
      readMapFields, readMembers, readScoredMembers, readListValues. wire_run.
    rewrite (wire_read (append:=appendBatchRecord)) by done. wire_run.
    rewrite (readItems_put appendMapField _ field_seen field_item_ok) by done. wire_run.
    rewrite (readItems_put appendString _ id str_ok) by done. wire_run.
    rewrite (readItems_put appendScoredMember _ id scored_ok) by done. wire_run.
    rewrite (readItems_put appendListValue _ value_seen value_item_ok) by done. wire_run.
    by rewrite !list_fmap_id.
  - intros r. unfold appendPrimitiveResult. rewrite appendBatchRecord_eq. wire_layout. rewrite app_nil_l. auto with wire.
Qed.

(** ** Values in the payload *)

(** The same request with nothing but what the receiver acts on. *)
Definition set_strip (r : SetRequest) : SetRequest :=
  placeSet (set_seen r) (ws_value r) 0 0.

(** Prove an instance of [Packs] for an item with one value. *)
Ltac packs_instance value :=
  constructor;
  [ intros a payload Hs; pose proof (zlen_nonneg payload);
    rewrite checked_range_ok by done; eexists _, (value a); split; [reflexivity|done]
  | intros a payload b payload';
    destruct (checkedPayloadRange (zlen payload) (zlen (value a))) as [[o n]|] eqn:E; [|done];
    apply checked_range in E as (-> & -> & Ho & Hn); intros [= <- <-] Hok; split; [done|];
    exists (value a); split; [done|]; intros more; eexists; split;
    [by cbn -[SlicePayload zlen]; rewrite slice_packed by done | by destruct a]
  | intros a; apply zlen_nonneg ].

#[export] Instance packs_set :
  Packs packSet unpackSet set_item_seen set_strip (fun r => zlen (ws_value r)) set_ok set_item_ok.
Proof. unfold packSet, unpackSet. packs_instance ws_value. Qed.

Definition record_strip (r : WireRecord) : WireRecord :=
  if wr_found r then placeRecord r (wr_value r) 0 0 else missingRecord.

Definition found_ok (r : WireRecord) : Prop := wr_found r = true -> record_ok r.

#[export] Instance packs_record :
  Packs packRecord unpackRecord record_item_seen record_strip
    (fun r => if wr_found r then zlen (wr_value r) else 0) found_ok record_item_ok.
Proof.
  unfold packRecord, unpackRecord. constructor.
  - intros r payload Hs. destruct (wr_found r).
    + rewrite checked_range_ok by done. eexists _, (wr_value r). split; reflexivity.
    + eexists _, []. rewrite app_nil_r. split; reflexivity.
  - intros r payload b payload'. destruct (wr_found r) eqn:Hf.
    + destruct (checkedPayloadRange (zlen payload) (zlen (wr_value r))) as [[o n]|] eqn:E; [|done].
      apply checked_range in E as (-> & -> & Ho & Hn). intros [= <- <-] Hok. split.
      { intros _. split; [by apply Hok|done]. }
      exists (wr_value r). split; [done|]. intros more. unfold record_item_seen. cbn [wr_found placeRecord]. rewrite Hf.
      cbn [wr_found placeRecord]. rewrite Hf. eexists. split; [by cbn -[SlicePayload zlen]; rewrite slice_packed|].
      unfold record_strip. cbn [wr_found placeRecord]. by rewrite Hf.
    + intros [= <- <-] _. split; [by intros Hd; cbn in Hd; congruence|]. exists []. rewrite app_nil_r. split; [done|].
      intros more. unfold record_item_seen. cbn [wr_found placeRecord]. rewrite Hf. eexists. split; [done|].
      unfold record_strip. by rewrite Hf.
  - intros r. destruct (wr_found r); [apply zlen_nonneg|done].
Qed.

Definition entry_strip (x : MigrationSnapshotEntry) : MigrationSnapshotEntry := placeEntry x (me_value x) 0 0.

#[export] Instance packs_entry :
  Packs packEntry unpackEntry entry_item_seen entry_strip (fun x => zlen (me_value x)) entry_ok entry_item_ok.
Proof. unfold packEntry, unpackEntry. packs_instance me_value. Qed.

Definition primitive_strip (r : PrimitiveRequest) : PrimitiveRequest :=
  placePrimitive (primitive_item_seen r) (wp_value r) 0 0.

#[export] Instance packs_primitive :
  Packs appendPrimitiveRequestPayload unpackPrimitiveRequest primitive_item_seen primitive_strip
    (fun r => zlen (wp_value r)) primitive_ok primitive_item_ok.
Proof. unfold appendPrimitiveRequestPayload, unpackPrimitiveRequest. packs_instance wp_value. Qed.

Definition field_strip (f : MapField) : MapField := mkMapField (wmf_field f) (wmf_value f) 0 0.

#[export] Instance packs_field :
  Packs appendMapFieldPayload unpackMapField field_seen field_strip (fun f => zlen (wmf_value f)) field_ok field_item_ok.
Proof. unfold appendMapFieldPayload, unpackMapField. packs_instance wmf_value. Qed.

Definition value_strip (v : ListValue) : ListValue := mkListValue (wlv_value v) 0 0.

#[export] Instance packs_value :
  Packs appendListValuePayload unpackListValue value_seen value_strip (fun v => zlen (wlv_value v)) (fun _ => True)
    value_item_ok.
Proof. unfold appendListValuePayload, unpackListValue. packs_instance wlv_value. Qed.

(** A result has a value, the values of its fields and its list values; the value
    of its record is not sent. *)
Definition result_strip (r : PrimitiveResult) : PrimitiveResult :=
  mkPrimitiveResult (record_item_seen (wpr_record r)) (wpr_found r) (wpr_applied r) (wpr_value r) (wpr_bool r)
    (wpr_count r) (field_strip <$> wpr_fields r) (wpr_members r) (wpr_scoredMembers r)
    (value_strip <$> wpr_values r) 0 0.

Definition result_size (r : PrimitiveResult) : Z :=
  zlen (wpr_value r) + lsum (fun f => zlen (wmf_value f)) (wpr_fields r)
  + lsum (fun v => zlen (wlv_value v)) (wpr_values r).

Lemma record_item_seen_idem r : record_item_seen (record_item_seen r) = record_item_seen r.
Proof.
  unfold record_item_seen. destruct (wr_found r) eqn:Hf; [|done]. cbn [wr_found placeRecord]. by rewrite Hf.
Qed.

Lemma result_pack_total r payload : zlen payload + result_size r < 2 ^ 32 ->
  exists b added, appendPrimitiveResultPayload r payload = Ok (b, payload ++ added) /\ zlen added = result_size r.
Proof.
  unfold result_size. intros Hs.
  assert (0 <= lsum (fun f => zlen (wmf_value f)) (wpr_fields r)) by (apply lsum_nonneg; intros; apply zlen_nonneg).
  assert (0 <= lsum (fun v => zlen (wlv_value v)) (wpr_values r)) by (apply lsum_nonneg; intros; apply zlen_nonneg).
  unfold appendPrimitiveResultPayload, appendPrimitiveValuePayload. rewrite checked_range_ok by lia.
  unfold mbind, result_bind. cbn [wpr_fields wpr_values withValues].
  destruct (packAll_total appendMapFieldPayload unpackMapField field_seen field_strip
    (fun f => zlen (wmf_value f)) field_ok field_item_ok (wpr_fields r) (payload ++ wpr_value r))
    as (fs & a1 & E1 & Z1); [rewrite zlen_app; lia|].
  unfold appendMapFieldsPayload. rewrite E1. cbn [wpr_values withValues].
  destruct (packAll_total appendListValuePayload unpackListValue value_seen value_strip
    (fun v => zlen (wlv_value v)) (fun _ => True) value_item_ok (wpr_values r) ((payload ++ wpr_value r) ++ a1))
    as (vs & a2 & E2 & Z2); [rewrite !zlen_app; lia|].
  unfold appendListValuesPayload. rewrite E2. eexists _, (wpr_value r ++ a1 ++ a2).
  rewrite !app_assoc. split; [done|]. rewrite !zlen_app. lia.
Qed.

Lemma result_pack_unpack r payload b payload' : appendPrimitiveResultPayload r payload = Ok (b, payload') ->
  result_ok r -> result_item_ok b /\ exists added, payload' = payload ++ added /\
    forall more, exists c, unpackPrimitiveResult (result_item_seen b) (payload' ++ more) = Ok c /\
      result_strip c = result_strip r.
Proof.
  unfold appendPrimitiveResultPayload, appendPrimitiveValuePayload, appendMapFieldsPayload, appendListValuesPayload.
  destruct (checkedPayloadRange _ _) as [[o n]|] eqn:E; [|done]. apply checked_range in E as (-> & -> & Ho & Hn).
  unfold mbind, result_bind. cbn [wpr_fields wpr_values withValues].
  destruct (packAll appendMapFieldPayload _ _) as [[fs p1]|] eqn:E1; [|done]. cbn [wpr_values withValues].
  destruct (packAll appendListValuePayload _ _) as [[vs p2]|] eqn:E2; [|done]. intros [= <- <-] Hok.
  destruct Hok as (Hrec & Hc & [Hf Hfl] & Hm & Hs & Hvl).
  apply (packAll_unpack _ unpackMapField field_seen field_strip _ field_ok field_item_ok) in E1
    as (Hpf & Hlf & a1 & -> & Hun1); [|done].
  apply (packAll_unpack _ unpackListValue value_seen value_strip _ (fun _ => True) value_item_ok) in E2
    as (Hpv & Hlv & a2 & -> & Hun2); [|by apply Forall_true].
  split.
  { unfold result_item_ok, result_ok, short, zlen in *. cbn. rewrite Hlf, Hlv.
    split_and!; try done; [..|by apply Hm|by apply Hm|by apply Hs|by apply Hs].
    eapply Forall_impl; [exact Hpf|]. by intros f [? _]. }
  exists (wpr_value r ++ a1 ++ a2). rewrite !app_assoc. split; [done|]. intros more.
  destruct (Hun1 (a2 ++ more)) as (k1 & K1 & S1). destruct (Hun2 more) as (k2 & K2 & S2).
  eexists. unfold unpackPrimitiveResult, unpackMapFields, unpackListValues, mbind, result_bind.
  cbn [result_item_seen wpr_payloadOffset wpr_payloadSize wpr_fields wpr_values withValues].
  rewrite <- (app_assoc (payload ++ wpr_value r)), <- (app_assoc (payload ++ wpr_value r)), slice_packed by done.
  replace ((payload ++ wpr_value r) ++ (a1 ++ a2) ++ more) with (((payload ++ wpr_value r) ++ a1) ++ a2 ++ more)
    by (by rewrite <- !app_assoc).
  rewrite K1, (app_assoc _ a2), K2. split; [done|].
  unfold result_strip. cbn. by rewrite S1, S2, record_item_seen_idem.
Qed.

#[export] Instance packs_result :
  Packs appendPrimitiveResultPayload unpackPrimitiveResult result_item_seen result_strip result_size result_ok
    result_item_ok.
Proof.
  constructor; [apply result_pack_total|apply result_pack_unpack|].
  intros r. unfold result_size. pose proof (zlen_nonneg (wpr_value r)).
  assert (0 <= lsum (fun f => zlen (wmf_value f)) (wpr_fields r)) by (apply lsum_nonneg; intros; apply zlen_nonneg).
  assert (0 <= lsum (fun v => zlen (wlv_value v)) (wpr_values r)) by (apply lsum_nonneg; intros; apply zlen_nonneg).
  lia.
Qed.

(** ** Batches *)

Lemma items_roundtrip {A} (append : list byte -> A -> list byte) (read : Reader A) (seen : A -> A) (ok : A -> Prop)
    `{!Wire append read seen ok} l : Forall ok l -> short l ->
  decodeAll (readItems read) (appendAll append (appendCount newMetadata (itemCount l)) l) = Ok (seen <$> l).
Proof.
  intros Hl Hs. rewrite (list_layout append read seen ok). apply decodeAll_ok. rewrite <- app_assoc.
  pose proof (readItems_put append read seen ok (B:=list A) l mret [] Hl Hs) as E. unfold mbind, reader_bind in E.
  destruct (readItems read _) as [[]|]; [|done]. by injection E as -> ->.
Qed.

Section Packed.
  Context {A : Type} (append : list byte -> A -> list byte) (read : Reader A)
    (pack : A -> list byte -> result wireError (A * list byte)) (unpack : A -> list byte -> result wireError A)
    (seen strip : A -> A) (size : A -> Z) (ok packed : A -> Prop).
  Context `{!Wire append read seen packed} `{!Packs pack unpack seen strip size ok packed}.

Lemma packed_roundtrip l : Forall ok l -> short l -> lsum size l < 2 ^ 32 ->
  exists l' payload k, packAll pack l [] = Ok (l', payload) /\
    decodeAll (readItems read) (appendAll append (appendCount newMetadata (itemCount l')) l') = Ok (seen <$> l') /\
    unpackAll unpack (seen <$> l') payload = Ok k /\ strip <$> k = strip <$> l.
Proof.
  intros Hl Hs Hsz.
  destruct (packAll_total pack unpack seen strip size ok packed l []) as (l' & payload & Hp & _); [done|].
  destruct (packAll_unpack pack unpack seen strip size ok packed l [] l' payload Hp Hl) as (Hl' & Hlen & ad & -> & Hun).
  destruct (Hun []) as (k & Hk & Hstrip). rewrite app_nil_r in Hk. exists l', ad, k. split_and!; [done| |done|done].
  apply (items_roundtrip append read seen packed); [done|]. unfold short, zlen in *. by rewrite Hlen.
Qed.
End Packed.

Lemma batch_set_roundtrip r : Forall set_ok (bs_items r) -> short (bs_items r) ->
  lsum (fun x => zlen (ws_value x)) (bs_items r) < 2 ^ 32 ->
  exists raw payload items, EncodeBatchSetRequest r = Ok (raw, payload) /\
    DecodeBatchSetRequest raw payload = Ok (mkBatchSetRequest 0 items) /\
    set_strip <$> items = set_strip <$> bs_items r.
Proof.
  intros Hl Hs Hsz.
  destruct (packed_roundtrip appendBatchSetItem readBatchSetItem packSet unpackSet set_item_seen set_strip _
    set_ok set_item_ok (bs_items r) Hl Hs Hsz) as (l' & payload & k & Hp & Hd & Hu & Hk).
  unfold EncodeBatchSetRequest, PackBatchSet. rewrite Hp. unfold mbind, result_bind. cbn [bs_items].
  eexists _, payload, k. split; [done|]. split; [|done].
  unfold DecodeBatchSetRequest, setRequestCount, mbind, result_bind. rewrite Hd. unfold UnpackBatchSet. cbn [bs_items].
  by rewrite Hu.
Qed.

Lemma batch_get_roundtrip r : Forall get_ok (bg_items r) -> short (bg_items r) ->
  DecodeBatchGetRequest (EncodeBatchGetRequest r) = Ok (mkBatchGetRequest 0 (get_seen <$> bg_items r)).
Proof.
  intros Hl Hs. unfold DecodeBatchGetRequest, EncodeBatchGetRequest, getRequestCount.
  by rewrite (items_roundtrip appendBatchGetItem _ get_seen get_ok).
Qed.

Lemma batch_delete_roundtrip r : Forall delete_ok (bd_items r) -> short (bd_items r) ->
  DecodeBatchDeleteRequest (EncodeBatchDeleteRequest r) = Ok (mkBatchDeleteRequest 0 (delete_seen <$> bd_items r)).
Proof.
  intros Hl Hs. unfold DecodeBatchDeleteRequest, EncodeBatchDeleteRequest, decodeBatchItems.
  by rewrite (items_roundtrip appendBatchDeleteItem _ delete_seen delete_ok).
Qed.

Lemma batch_exists_roundtrip r : Forall exists_ok (be_items r) -> short (be_items r) ->
  DecodeBatchExistsRequest (EncodeBatchExistsRequest r) = Ok (mkBatchExistsRequest 0 (exists_seen <$> be_items r)).
Proof.
  intros Hl Hs. unfold DecodeBatchExistsRequest, EncodeBatchExistsRequest, decodeBatchItems.
  by rewrite (items_roundtrip appendBatchExistsItem _ exists_seen exists_ok).
Qed.

Lemma batch_touch_roundtrip r : Forall touch_ok (bt_items r) -> short (bt_items r) ->
  DecodeBatchTouchRequest (EncodeBatchTouchRequest r) = Ok (mkBatchTouchRequest 0 (touch_seen <$> bt_items r)).
Proof.
  intros Hl Hs. unfold DecodeBatchTouchRequest, EncodeBatchTouchRequest, decodeBatchItems.
  by rewrite (items_roundtrip appendBatchTouchItem _ touch_seen touch_ok).
Qed.

Lemma batch_set_response_roundtrip r : Forall record_item_ok (bsr_records r) -> short (bsr_records r) ->
  DecodeBatchSetResponse (EncodeBatchSetResponse r) = Ok (mkBatchSetResponse (record_item_seen <$> bsr_records r)).
Proof.
  intros Hl Hs. unfold DecodeBatchSetResponse, EncodeBatchSetResponse, recordCount, decodeBatchRecords.
  by rewrite (items_roundtrip appendBatchRecord _ record_item_seen record_item_ok).
Qed.

Lemma batch_get_response_roundtrip r : Forall found_ok (bgr_records r) -> short (bgr_records r) ->
  lsum (fun x => if wr_found x then zlen (wr_value x) else 0) (bgr_records r) < 2 ^ 32 ->
  exists raw payload records, EncodeBatchGetResponse r = Ok (raw, payload) /\
    DecodeBatchGetResponse raw payload = Ok (mkBatchGetResponse records) /\
    record_strip <$> records = record_strip <$> bgr_records r.
Proof.
  intros Hl Hs Hsz.
  destruct (packed_roundtrip appendBatchRecord readBatchRecord packRecord unpackRecord record_item_seen record_strip _
    found_ok record_item_ok (bgr_records r) Hl Hs Hsz) as (l' & payload & k & Hp & Hd & Hu & Hk).
  unfold EncodeBatchGetResponse, PackRecords. rewrite Hp. unfold mbind, result_bind. cbn [bgr_records].
  eexists _, payload, k. split; [done|]. split; [|done].
  unfold DecodeBatchGetResponse, decodeBatchRecords, recordCount, mbind, result_bind. rewrite Hd.
  unfold UnpackRecords. cbn [bgr_records]. by rewrite Hu.
Qed.

Lemma bool_items_roundtrip {A} (value : A -> bool) (l : list A) : short l ->
  decodeBatchBoolResponses (encodeBatchBoolResponses l value) = Ok (value <$> l).
Proof.
  intros Hs. unfold decodeBatchBoolResponses, encodeBatchBoolResponses, appendAll.
  assert (itemCount (value <$> l) = itemCount l) as <-.
  { rewrite !itemCount_eq by (unfold short, zlen in *; rewrite ?length_fmap; done). unfold zlen. by rewrite length_fmap. }
  replace (foldl (fun raw item => appendBool raw (value item)) (appendCount newMetadata (itemCount (value <$> l))) l)
    with (appendAll appendBool (appendCount newMetadata (itemCount (value <$> l))) (value <$> l)).
  2:{ unfold appendAll. generalize (appendCount newMetadata (itemCount (value <$> l))). clear Hs.
      induction l as [|a l IH]; intros raw; [done|]. rewrite fmap_cons. cbn [foldl]. apply IH. }
  rewrite (items_roundtrip appendBool _ id (fun _ => True)).
  - by rewrite list_fmap_id.
  - by apply Forall_true.
  - unfold short, zlen in *. by rewrite length_fmap.
Qed.

Lemma migration_range_roundtrip r : str_ok (mrq_namespace r) -> str_ok (mrq_space r) ->
  is_u32 (mrq_vslotStart r) -> is_u32 (mrq_vslotEnd r) ->
  DecodeMigrationRangeRequest (EncodeMigrationRangeRequest r) =
    Ok (mkMigrationRangeRequest (mrq_namespace r) (mrq_space r) (mrq_vslotStart r) (mrq_vslotEnd r) 0).
Proof.
  intros H1 H2 H3 H4. unfold DecodeMigrationRangeRequest, EncodeMigrationRangeRequest, readMigrationRangeRequest.
  wire_roundtrip.
Qed.

Lemma migration_snapshot_roundtrip s : Forall entry_ok (ms_entries s) -> short (ms_entries s) ->
  lsum (fun x => zlen (me_value x)) (ms_entries s) < 2 ^ 32 ->
  exists raw payload out, EncodeMigrationSnapshot s = Ok (raw, payload) /\
    DecodeMigrationSnapshot raw payload = Ok out /\ entry_strip <$> ms_entries out = entry_strip <$> ms_entries s.
Proof.
  intros Hl Hs Hsz.
  destruct (packed_roundtrip appendMigrationSnapshotEntry readMigrationSnapshotEntry packEntry unpackEntry
    entry_item_seen entry_strip _ entry_ok entry_item_ok (ms_entries s) Hl Hs Hsz) as (l' & payload & k & Hp & Hd & Hu & Hk).
  unfold EncodeMigrationSnapshot, PackMigrationSnapshot. rewrite Hp. unfold mbind, result_bind. cbn [ms_entries].
  eexists _, payload, (mkMigrationSnapshot k). split; [done|]. split; [|done].
  unfold DecodeMigrationSnapshot, migrationSnapshotEntryCount.
  change (decodeAll (count ← readCount; readMigrationSnapshotEntries count))
    with (decodeAll (readItems readMigrationSnapshotEntry)).
  unfold mbind, result_bind. rewrite Hd. unfold UnpackMigrationSnapshot, mbind, result_bind. cbn [ms_entries]. by rewrite Hu.
Qed.

(** ** Primitives *)

Lemma primitive_request_roundtrip r : primitive_ok r -> zlen (wp_value r) < 2 ^ 32 ->
  exists raw payload out, EncodePrimitiveRequest r = Ok (raw, payload) /\
    DecodePrimitiveRequest raw payload = Ok out /\ primitive_strip out = primitive_strip r.
Proof.
  intros Hr Hs. destruct (pack_total r []) as (b & added & Hp & _); [exact Hs|].
  destruct (pack_unpack r [] b _ Hp Hr) as (Hb & ad & E & Hun). cbn [app] in E. subst ad.
  destruct (Hun []) as (c & Hc & Hst). rewrite app_nil_r in Hc.
  assert (packPrimitiveRequest r = Ok (b, added)) as Hpack by exact Hp.
  unfold EncodePrimitiveRequest. rewrite Hpack. eexists _, added, c. split; [done|]. split; [|done].
  unfold DecodePrimitiveRequest. rewrite (wire_append newMetadata b).
  rewrite (decodeAll_ok _ (primitive_item_seen b)); [done|].
  pose proof (wire_read (B:=PrimitiveRequest) b mret [] Hb) as E. unfold mbind, reader_bind in E.
  destruct (readPrimitiveRequest _) as [[]|]; [|done]. by injection E as -> ->.
Qed.

Lemma primitive_response_roundtrip r : result_ok r -> result_size r < 2 ^ 32 ->
  exists raw payload out, EncodePrimitiveResponse r = Ok (raw, payload) /\
    DecodePrimitiveResponse raw payload = Ok out /\ result_strip out = result_strip r.
Proof.
  intros Hr Hs. destruct (pack_total r []) as (b & added & Hp & _); [exact Hs|].
  destruct (pack_unpack r [] b _ Hp Hr) as (Hb & ad & E & Hun). cbn [app] in E. subst ad.
  destruct (Hun []) as (c & Hc & Hst). rewrite app_nil_r in Hc.
  unfold EncodePrimitiveResponse, packPrimitiveResult. rewrite Hp. eexists _, added, c. split; [done|]. split; [|done].
  unfold DecodePrimitiveResponse. rewrite (wire_append newMetadata b).
  rewrite (decodeAll_ok _ (result_item_seen b)); [done|].
  pose proof (wire_read (B:=PrimitiveResult) b mret [] Hb) as E. unfold mbind, reader_bind in E.
  destruct (readPrimitiveResult _) as [[]|]; [|done]. by injection E as -> ->.
Qed.

Lemma batch_primitive_roundtrip r : Forall primitive_ok (bp_items r) -> short (bp_items r) ->
  lsum (fun x => zlen (wp_value x)) (bp_items r) < 2 ^ 32 ->
  exists raw payload items, EncodeBatchPrimitiveRequest r = Ok (raw, payload) /\
    DecodeBatchPrimitiveRequest raw payload = Ok (mkBatchPrimitiveRequest 0 items) /\
    primitive_strip <$> items = primitive_strip <$> bp_items r.
Proof.
  intros Hl Hs Hsz.
  destruct (packed_roundtrip appendPrimitiveRequest readPrimitiveRequest appendPrimitiveRequestPayload
    unpackPrimitiveRequest primitive_item_seen primitive_strip _ primitive_ok primitive_item_ok (bp_items r) Hl Hs Hsz)
    as (l' & payload & k & Hp & Hd & Hu & Hk).
  unfold EncodeBatchPrimitiveRequest, packPrimitiveRequests. rewrite Hp. unfold mbind, result_bind.
  eexists _, payload, k. split; [done|]. split; [|done].
  unfold DecodeBatchPrimitiveRequest, readPrimitiveRequests, unpackPrimitiveRequests, mbind, result_bind.
  by rewrite Hd, Hu.
Qed.

(** The response to a batch of primitives, each with its record, its value, its
    fields, members, scored members and list values, the values of all of them
    packed one after the other into one payload of less than four gigabytes, is
    read back as it was written; only the value of a record is not sent. *)
Theorem batch_primitive_response_roundtrip r : Forall result_ok (bpr_results r) -> short (bpr_results r) ->
  lsum result_size (bpr_results r) < 2 ^ 32 ->
  exists raw payload out, EncodeBatchPrimitiveResponse r = Ok (raw, payload) /\
    DecodeBatchPrimitiveResponse raw payload = Ok out /\
    result_strip <$> bpr_results out = result_strip <$> bpr_results r.
Proof.
  intros Hl Hs Hsz.
  destruct (packed_roundtrip appendPrimitiveResult readPrimitiveResult appendPrimitiveResultPayload
    unpackPrimitiveResult result_item_seen result_strip _ result_ok result_item_ok (bpr_results r) Hl Hs Hsz)
    as (l' & payload & k & Hp & Hd & Hu & Hk).
  unfold EncodeBatchPrimitiveResponse, packPrimitiveResults. rewrite Hp. unfold mbind, result_bind.
  eexists _, payload, (mkBatchPrimitiveResponse k). split; [done|]. split; [|done].
  unfold DecodeBatchPrimitiveResponse, readPrimitiveResults, unpackPrimitiveResults, mbind, result_bind.
  by rewrite Hd, Hu.
Qed.

(** ** An example *)

Definition sample_result (value : string) (fields values : list string) : PrimitiveResult :=
  mkPrimitiveResult (mkRecord true "shop" "cart" "" "alice" [] 3 0 0 0 0 0) true true (str_bytes value) false
    (zlen fields) ((fun f => mkMapField f (str_bytes f) 0 0) <$> fields) fields
    [mkScoredMember "kiwi" (S754_zero false)] ((fun v => mkListValue (str_bytes v) 0 0) <$> values) 0 0.

Definition sample_response : BatchPrimitiveResponse :=
  mkBatchPrimitiveResponse [sample_result "x" ["apples"; "pears"] []; sample_result "" [] ["a"; "bc"]].

Lemma batch_primitive_response_roundtrip_witness : exists raw payload out,
  EncodeBatchPrimitiveResponse sample_response = Ok (raw, payload) /\
  payload = str_bytes "xapplespearsabc" /\
  DecodeBatchPrimitiveResponse raw payload = Ok out /\
  result_strip <$> bpr_results out = result_strip <$> bpr_results sample_response.
Proof.
  destruct (batch_primitive_response_roundtrip sample_response) as (raw & payload & out & H1 & H2 & H3).
  - apply Forall_cons_2; [|apply Forall_singleton];
      (split; [by vm_compute|]); (split; [by vm_compute|]); (split; [split; [|by vm_compute]|]);
      try (split; [split; [|by vm_compute]|split; [split; [|by vm_compute]|by vm_compute]]);
      repeat (apply Forall_cons_2; [by vm_compute|]); apply Forall_nil_2.
  - by vm_compute.
  - by vm_compute.
  - exists raw, payload, out. split; [exact H1|]. split; [|split; [exact H2|exact H3]].
    assert (EncodeBatchPrimitiveResponse sample_response = Ok (raw, payload)) as E by exact H1.
    apply (f_equal (fun r => match r with Ok (_, p) => p | Err _ => [] end)) in E. rewrite <- E. vm_compute. reflexivity.
Defined.
