(* ===== verification/Replication.v ===== *)
(** * Replication to other nodes (transport/tcp: server_replication.go,
    server_replication_command*.go, server_replication_queue.go,
    server_replication_outbox.go, server_replication_ack.go,
    server_replication_replay.go, server_replication_stats.go)

    Applied mutations are sent to the replicas of their key.  A command gets a
    sequence number, is appended to the outbox file and put in a bounded queue; a
    worker sends the queued commands one after the other, retrying each until it
    succeeds, and records the highest acknowledged sequence per target.  Entries
    of the outbox above the acknowledged and the queued sequences are put in the
    queue again when the outbox is opened and at every tick.

    Here the outbox file is the list of its entries and the acknowledgement file the
    map it holds; ReplicationFiles has their bytes.  Whether a write
    reaches the disk, and whether an attempt to send succeeds, are arguments.
    The steps of [Enqueue] are locked one by one, so that calls of two connections can
    cross; the runs of ReplicationSpec take its calls one at a time, and a run of the
    steps of two calls shows what crossing can do ([crossed_enqueues_lose]).  The texts
    and the times of the last errors in the statistics are not modelled. *)

From S2P Require Import Prelude.
From S2P Require Import Binary.
From S2P Require Import GoStrings.
From S2P Require Import Frame.
From S2P Require Import WireTypes.
From S2P Require Import Wire.
From S2P Require Import WireBatch.
From S2P Require Import WirePrimitive.

Local Open Scope Z_scope.
Local Open Scope nespa_scope.

(** ** Commands *)

(** The struct is a tagged union: [kind] says which field is set.  [NoCommand] is
    its zero value.
    src: transport/tcp/server_replication_command.go replicationCommand *)
Inductive replicationCommand :=
| NoCommand
| CommandSet (r : SetRequest)
| CommandDelete (r : DeleteRequest)
| CommandTouch (r : TouchRequest)
| CommandAdjust (r : AdjustRequest)
| CommandPrimitive (r : PrimitiveRequest)
| CommandBatchSet (r : BatchSetRequest)
| CommandBatchDelete (r : BatchDeleteRequest)
| CommandBatchTouch (r : BatchTouchRequest)
| CommandBatchPrimitive (r : BatchPrimitiveRequest).

(** The [kind] of a command, a [uint8].
    src: transport/tcp/server_replication_command.go replicationCommandKind 11-23 *)
Definition commandKindOf (c : replicationCommand) : Z :=
  match c with
  | NoCommand => 0
  | CommandSet _ => 1
  | CommandDelete _ => 2
  | CommandTouch _ => 3
  | CommandAdjust _ => 4
  | CommandPrimitive _ => 5
  | CommandBatchSet _ => 6
  | CommandBatchDelete _ => 7
  | CommandBatchTouch _ => 8
  | CommandBatchPrimitive _ => 9
  end.

(** src: transport/tcp/server_replication.go replicaSetRequest *)
Definition replicaSetRequest (r : SetRequest) : SetRequest :=
  mkSetRequest (ws_key r) (ws_value r) 0 (ws_ttlMillis r) (ws_namespaceVersion r) (ws_spaceVersion r) 0
    (ws_payloadOffset r) (ws_payloadSize r).

(** src: transport/tcp/server_replication.go replicaDeleteRequest *)
Definition replicaDeleteRequest (r : DeleteRequest) : DeleteRequest := mkDeleteRequest (wd_key r) 0 0.

(** src: transport/tcp/server_replication.go replicaTouchRequest *)
Definition replicaTouchRequest (r : TouchRequest) : TouchRequest :=
  mkTouchRequest (wt_key r) 0 (wt_ttlMillis r) (wt_namespaceVersion r) (wt_spaceVersion r) 0.

(** [request.RouteEpoch = 0; request.ExpectedVersion = 0] of an adjustment. *)
Definition replicaAdjustRequest (r : AdjustRequest) : AdjustRequest :=
  mkAdjustRequest (wa_key r) 0 (wa_ttlMillis r) (wa_initialValue r) (wa_delta r) (wa_namespaceVersion r)
    (wa_spaceVersion r) 0.

(** src: transport/tcp/server_replication.go replicaPrimitiveRequest *)
Definition replicaPrimitiveRequest (r : PrimitiveRequest) : PrimitiveRequest :=
  mkPrimitiveRequest (wp_key r) 0 (wp_kind r) (wp_ttlMillis r) (wp_namespaceVersion r)
    (wp_spaceVersion r) 0 (wp_field r) (wp_member r) (wp_value r) (wp_delta r) (wp_initialValue r)
    (wp_score r) (wp_minScore r) (wp_maxScore r) (wp_hasMinScore r) (wp_hasMaxScore r) (wp_limit r) (wp_start r)
    (wp_reverse r) (wp_payloadOffset r) (wp_payloadSize r).

(** src: transport/tcp/server_replication_command_decode.go cloneReplicaSetRequests *)
Definition cloneReplicaSetRequests (items : list SetRequest) : list SetRequest := replicaSetRequest <$> items.

(** src: transport/tcp/server_replication_command_decode.go cloneReplicaDeleteRequests *)
Definition cloneReplicaDeleteRequests (items : list DeleteRequest) : list DeleteRequest :=
  replicaDeleteRequest <$> items.

(** src: transport/tcp/server_replication_command_decode.go cloneReplicaTouchRequests *)
Definition cloneReplicaTouchRequests (items : list TouchRequest) : list TouchRequest := replicaTouchRequest <$> items.

(** src: transport/tcp/server_replication_command_decode.go cloneReplicaPrimitiveRequests *)
Definition cloneReplicaPrimitiveRequests (items : list PrimitiveRequest) : list PrimitiveRequest :=
  replicaPrimitiveRequest <$> items.

(** src: transport/tcp/server_replication_command.go newSetReplicationCommand *)
Definition newSetReplicationCommand (r : SetRequest) := CommandSet (replicaSetRequest r).

(** src: transport/tcp/server_replication_command.go newDeleteReplicationCommand *)
Definition newDeleteReplicationCommand (r : DeleteRequest) := CommandDelete (replicaDeleteRequest r).

(** src: transport/tcp/server_replication_command.go newTouchReplicationCommand *)
Definition newTouchReplicationCommand (r : TouchRequest) := CommandTouch (replicaTouchRequest r).

(** src: transport/tcp/server_replication_command.go newAdjustReplicationCommand *)
Definition newAdjustReplicationCommand (r : AdjustRequest) := CommandAdjust (replicaAdjustRequest r).

(** src: transport/tcp/server_replication_command.go newPrimitiveReplicationCommand *)
Definition newPrimitiveReplicationCommand (r : PrimitiveRequest) := CommandPrimitive (replicaPrimitiveRequest r).

(** src: transport/tcp/server_replication_command.go newBatchSetReplicationCommand *)
Definition newBatchSetReplicationCommand (r : BatchSetRequest) :=
  CommandBatchSet (mkBatchSetRequest 0 (cloneReplicaSetRequests (bs_items r))).

(** src: transport/tcp/server_replication_command.go newBatchDeleteReplicationCommand *)
Definition newBatchDeleteReplicationCommand (r : BatchDeleteRequest) :=
  CommandBatchDelete (mkBatchDeleteRequest 0 (cloneReplicaDeleteRequests (bd_items r))).

(** src: transport/tcp/server_replication_command.go newBatchTouchReplicationCommand *)
Definition newBatchTouchReplicationCommand (r : BatchTouchRequest) :=
  CommandBatchTouch (mkBatchTouchRequest 0 (cloneReplicaTouchRequests (bt_items r))).

(** src: transport/tcp/server_replication_command.go newBatchPrimitiveReplicationCommand *)
Definition newBatchPrimitiveReplicationCommand (r : BatchPrimitiveRequest) :=
  CommandBatchPrimitive (mkBatchPrimitiveRequest 0 (cloneReplicaPrimitiveRequests (bp_items r))).

(** src: transport/tcp/server_replication_command.go valid *)
Definition valid (c : replicationCommand) : bool := negb (commandKindOf c =? 0).

(** ** Commands in the outbox *)

Inductive replicationError :=
| UnknownCommand
| CommandCodec (e : wireError).

(** src: transport/tcp/server_replication_command_encode.go replicationCommandFrame *)
Record replicationCommandFrame := mkCommandFrame {
  cf_op : Op;
  cf_metadata : list byte;
  cf_payload : list byte
}.

(** The table of encoders and the encoders.
    src: transport/tcp/server_replication_command_encode.go encodeFrame 31-107 *)
Definition encodeFrame (c : replicationCommand) : result replicationError replicationCommandFrame :=
  let packed op r := match r with
    | Ok (metadata, payload) => Ok (mkCommandFrame op metadata payload)
    | Err e => Err (CommandCodec e)
    end in
  match c with
  | NoCommand => Err UnknownCommand
  | CommandSet r => Ok (mkCommandFrame OpCacheSet (EncodeSetRequest r) (ws_value r))
  | CommandDelete r => Ok (mkCommandFrame OpCacheDelete (EncodeDeleteRequest r) [])
  | CommandTouch r => Ok (mkCommandFrame OpCacheTouch (EncodeTouchRequest r) [])
  | CommandAdjust r => Ok (mkCommandFrame OpCacheAdjust (EncodeAdjustRequest r) [])
  | CommandPrimitive r => packed OpCachePrimitive (EncodePrimitiveRequest r)
  | CommandBatchSet r => packed OpCacheBatchSet (EncodeBatchSetRequest r)
  | CommandBatchDelete r => Ok (mkCommandFrame OpCacheBatchDelete (EncodeBatchDeleteRequest r) [])
  | CommandBatchTouch r => Ok (mkCommandFrame OpCacheBatchTouch (EncodeBatchTouchRequest r) [])
  | CommandBatchPrimitive r => packed OpCacheBatchPrimitive (EncodeBatchPrimitiveRequest r)
  end.

(** src: transport/tcp/server_replication_outbox.go replicationOutboxEntry *)
Record replicationOutboxEntry := mkOutboxEntry {
  oe_sequence : Z;
  oe_target : string;
  oe_kind : Z;
  oe_op : Op;
  oe_metadata : list byte;
  oe_payload : list byte;
  oe_createdUnix : Z
}.

(** src: transport/tcp/server_replication_outbox.go newReplicationOutboxEntry *)
Definition newReplicationOutboxEntry (sequence : Z) (target : string) (command : replicationCommand)
    (nowUnixMs : Z) : result replicationError replicationOutboxEntry :=
  frame ← encodeFrame command;
  Ok (mkOutboxEntry sequence target (commandKindOf command) (cf_op frame) (cf_metadata frame) (cf_payload frame)
        nowUnixMs).

(** [request.Value = value] of a decoded set. *)
Definition withSetValue (r : SetRequest) (value : list byte) : SetRequest :=
  mkSetRequest (ws_key r) value (ws_routeEpoch r) (ws_ttlMillis r) (ws_namespaceVersion r) (ws_spaceVersion r)
    (ws_expectedVersion r) (ws_payloadOffset r) (ws_payloadSize r).

(** The table of decoders and the decoders.
    src: transport/tcp/server_replication_command_decode.go replicationCommandFromOutboxEntry 24-136 *)
Definition replicationCommandFromOutboxEntry (entry : replicationOutboxEntry)
    : result replicationError replicationCommand :=
  let metadata := oe_metadata entry in
  let payload := oe_payload entry in
  let wrap := fun A (r : result wireError A) => map_err CommandCodec r in
  match oe_kind entry with
  | 1 => r ← wrap _ (DecodeSetRequest metadata); Ok (CommandSet (withSetValue (replicaSetRequest r) payload))
  | 2 => r ← wrap _ (DecodeDeleteRequest metadata); Ok (CommandDelete (replicaDeleteRequest r))
  | 3 => r ← wrap _ (DecodeTouchRequest metadata); Ok (CommandTouch (replicaTouchRequest r))
  | 4 => r ← wrap _ (DecodeAdjustRequest metadata); Ok (CommandAdjust (replicaAdjustRequest r))
  | 5 => r ← wrap _ (DecodePrimitiveRequest metadata payload); Ok (CommandPrimitive (replicaPrimitiveRequest r))
  | 6 => r ← wrap _ (DecodeBatchSetRequest metadata payload);
         Ok (CommandBatchSet (mkBatchSetRequest 0 (cloneReplicaSetRequests (bs_items r))))
  | 7 => r ← wrap _ (DecodeBatchDeleteRequest metadata);
         Ok (CommandBatchDelete (mkBatchDeleteRequest 0 (cloneReplicaDeleteRequests (bd_items r))))
  | 8 => r ← wrap _ (DecodeBatchTouchRequest metadata);
         Ok (CommandBatchTouch (mkBatchTouchRequest 0 (cloneReplicaTouchRequests (bt_items r))))
  | 9 => r ← wrap _ (DecodeBatchPrimitiveRequest metadata payload);
         Ok (CommandBatchPrimitive (mkBatchPrimitiveRequest 0 (cloneReplicaPrimitiveRequests (bp_items r))))
  | _ => Err UnknownCommand
  end.

(** ** State *)

(** src: transport/tcp/server_replication_queue.go replicationJob *)
Record replicationJob := mkJob {
  job_sequence : Z;
  job_target : string;
  job_command : replicationCommand
}.

(** src: transport/tcp/server_replication_queue.go ReplicationStats *)
Record ReplicationStats := mkStats {
  rs_queueDepth : Z;
  rs_queueCapacity : Z;
  rs_enqueued : Z;
  rs_dropped : Z;
  rs_attempts : Z;
  rs_successes : Z;
  rs_failures : Z;
  rs_outboxEntries : Z;
  rs_outboxFailures : Z;
  rs_ackTargets : Z;
  rs_ackFailures : Z;
  rs_lastQueuedSequence : Z;
  rs_lastAttemptSequence : Z;
  rs_lastSuccessSequence : Z;
  rs_lastFailureSequence : Z;
  rs_lastDroppedSequence : Z;
  rs_lastOutboxSequence : Z;
  rs_lastAckSequence : Z;
  rs_retrying : bool;
  rs_activeTarget : string;
  rs_lastAckTarget : string
}.

Definition zeroReplicationStats : ReplicationStats :=
  mkStats 0 0 0 0 0 0 0 0 0 0 0 0 0 0 0 0 0 0 false "" "".

(** src: transport/tcp/server_replication_ack.go replicationAckSnapshot *)
Record replicationAckSnapshot := mkAckSnapshot { as_targets : Z; as_maxSequence : Z }.

(** The dispatcher: [rd_jobs] is the buffer of its channel, [rd_stopped] whether
    [done] is closed, [rd_outbox] the entries of its outbox file and [rd_acks] the
    offsets of its acknowledgement store, when it has them.
    src: transport/tcp/server_replication_queue.go replicationDispatcher *)
Record replicationDispatcher := mkDispatcher {
  rd_jobs : list replicationJob;
  rd_capacity : Z;
  rd_stopped : bool;
  rd_stats : ReplicationStats;
  rd_nextSequence : Z;
  rd_outbox : option (list replicationOutboxEntry);
  rd_acks : option (gmap string Z);
  rd_queued : gmap string Z
}.

Definition withJobs (v : list replicationJob) (d : replicationDispatcher) : replicationDispatcher :=
  mkDispatcher v (rd_capacity d) (rd_stopped d) (rd_stats d) (rd_nextSequence d) (rd_outbox d) (rd_acks d) (rd_queued d).
Definition withStats (v : ReplicationStats) (d : replicationDispatcher) : replicationDispatcher :=
  mkDispatcher (rd_jobs d) (rd_capacity d) (rd_stopped d) v (rd_nextSequence d) (rd_outbox d) (rd_acks d) (rd_queued d).
Definition withSequence (v : Z) (d : replicationDispatcher) : replicationDispatcher :=
  mkDispatcher (rd_jobs d) (rd_capacity d) (rd_stopped d) (rd_stats d) v (rd_outbox d) (rd_acks d) (rd_queued d).
Definition withOutbox (v : option (list replicationOutboxEntry)) (d : replicationDispatcher) : replicationDispatcher :=
  mkDispatcher (rd_jobs d) (rd_capacity d) (rd_stopped d) (rd_stats d) (rd_nextSequence d) v (rd_acks d) (rd_queued d).
Definition withAcks (v : option (gmap string Z)) (d : replicationDispatcher) : replicationDispatcher :=
  mkDispatcher (rd_jobs d) (rd_capacity d) (rd_stopped d) (rd_stats d) (rd_nextSequence d) (rd_outbox d) v (rd_queued d).
Definition withQueued (v : gmap string Z) (d : replicationDispatcher) : replicationDispatcher :=
  mkDispatcher (rd_jobs d) (rd_capacity d) (rd_stopped d) (rd_stats d) (rd_nextSequence d) (rd_outbox d) (rd_acks d) v.

(** src: transport/tcp/server_replication_queue.go defaultReplicationQueueSize 11-11 *)
Definition defaultReplicationQueueSize : Z := 1024.

(** src: transport/tcp/server_replication_queue.go newReplicationDispatcher *)
Definition newReplicationDispatcher (queueSize : Z) : replicationDispatcher :=
  let queueSize := if queueSize <=? 0 then defaultReplicationQueueSize else queueSize in
  mkDispatcher [] queueSize false zeroReplicationStats 0 None None ∅.

(** ** Statistics *)

(** src: transport/tcp/server_replication_stats.go recordEnqueued *)
Definition recordEnqueued (sequence : Z) (s : ReplicationStats) : ReplicationStats :=
  mkStats (rs_queueDepth s) (rs_queueCapacity s) (rs_enqueued s +% 1) (rs_dropped s) (rs_attempts s)
    (rs_successes s) (rs_failures s) (rs_outboxEntries s) (rs_outboxFailures s) (rs_ackTargets s)
    (rs_ackFailures s) sequence (rs_lastAttemptSequence s) (rs_lastSuccessSequence s) (rs_lastFailureSequence
    s) (rs_lastDroppedSequence s) (rs_lastOutboxSequence s) (rs_lastAckSequence s) (rs_retrying s)
    (rs_activeTarget s) (rs_lastAckTarget s).

(** src: transport/tcp/server_replication_stats.go recordDropped *)
Definition recordDropped (sequence : Z) (s : ReplicationStats) : ReplicationStats :=
  mkStats (rs_queueDepth s) (rs_queueCapacity s) (rs_enqueued s) (rs_dropped s +% 1) (rs_attempts s)
    (rs_successes s) (rs_failures s) (rs_outboxEntries s) (rs_outboxFailures s) (rs_ackTargets s)
    (rs_ackFailures s) (rs_lastQueuedSequence s) (rs_lastAttemptSequence s) (rs_lastSuccessSequence s)
    (rs_lastFailureSequence s) sequence (rs_lastOutboxSequence s) (rs_lastAckSequence s) (rs_retrying s)
    (rs_activeTarget s) (rs_lastAckTarget s).

(** src: transport/tcp/server_replication_stats.go recordAttempt *)
Definition recordAttempt (job : replicationJob) (s : ReplicationStats) : ReplicationStats :=
  mkStats (rs_queueDepth s) (rs_queueCapacity s) (rs_enqueued s) (rs_dropped s) (rs_attempts s +% 1)
    (rs_successes s) (rs_failures s) (rs_outboxEntries s) (rs_outboxFailures s) (rs_ackTargets s)
    (rs_ackFailures s) (rs_lastQueuedSequence s) (job_sequence job) (rs_lastSuccessSequence s)
    (rs_lastFailureSequence s) (rs_lastDroppedSequence s) (rs_lastOutboxSequence s) (rs_lastAckSequence s)
    (rs_retrying s) (job_target job) (rs_lastAckTarget s).

(** src: transport/tcp/server_replication_stats.go recordSuccess *)
Definition recordSuccess (job : replicationJob) (s : ReplicationStats) : ReplicationStats :=
  mkStats (rs_queueDepth s) (rs_queueCapacity s) (rs_enqueued s) (rs_dropped s) (rs_attempts s) (rs_successes
    s +% 1) (rs_failures s) (rs_outboxEntries s) (rs_outboxFailures s) (rs_ackTargets s) (rs_ackFailures s)
    (rs_lastQueuedSequence s) (rs_lastAttemptSequence s) (job_sequence job) (rs_lastFailureSequence s)
    (rs_lastDroppedSequence s) (rs_lastOutboxSequence s) (rs_lastAckSequence s) false "" (rs_lastAckTarget s).

(** src: transport/tcp/server_replication_stats.go recordFailure *)
Definition recordFailure (job : replicationJob) (s : ReplicationStats) : ReplicationStats :=
  mkStats (rs_queueDepth s) (rs_queueCapacity s) (rs_enqueued s) (rs_dropped s) (rs_attempts s) (rs_successes
    s) (rs_failures s +% 1) (rs_outboxEntries s) (rs_outboxFailures s) (rs_ackTargets s) (rs_ackFailures s)
    (rs_lastQueuedSequence s) (rs_lastAttemptSequence s) (rs_lastSuccessSequence s) (job_sequence job)
    (rs_lastDroppedSequence s) (rs_lastOutboxSequence s) (rs_lastAckSequence s) true (job_target job)
    (rs_lastAckTarget s).

(** src: transport/tcp/server_replication_stats.go recordOutboxAppended *)
Definition recordOutboxAppended (sequence : Z) (s : ReplicationStats) : ReplicationStats :=
  mkStats (rs_queueDepth s) (rs_queueCapacity s) (rs_enqueued s) (rs_dropped s) (rs_attempts s) (rs_successes
    s) (rs_failures s) (rs_outboxEntries s +% 1) (rs_outboxFailures s) (rs_ackTargets s) (rs_ackFailures s)
    (rs_lastQueuedSequence s) (rs_lastAttemptSequence s) (rs_lastSuccessSequence s) (rs_lastFailureSequence s)
    (rs_lastDroppedSequence s) sequence (rs_lastAckSequence s) (rs_retrying s) (rs_activeTarget s)
    (rs_lastAckTarget s).

(** src: transport/tcp/server_replication_stats.go recordOutboxFailure *)
Definition recordOutboxFailure (sequence : Z) (s : ReplicationStats) : ReplicationStats :=
  mkStats (rs_queueDepth s) (rs_queueCapacity s) (rs_enqueued s) (rs_dropped s) (rs_attempts s) (rs_successes
    s) (rs_failures s) (rs_outboxEntries s) (rs_outboxFailures s +% 1) (rs_ackTargets s) (rs_ackFailures s)
    (rs_lastQueuedSequence s) (rs_lastAttemptSequence s) (rs_lastSuccessSequence s) (rs_lastFailureSequence s)
    (rs_lastDroppedSequence s) sequence (rs_lastAckSequence s) (rs_retrying s) (rs_activeTarget s)
    (rs_lastAckTarget s).

(** src: transport/tcp/server_replication_stats.go restoreAckSnapshotLocked *)
Definition restoreAckSnapshotLocked (snapshot : replicationAckSnapshot) (s : ReplicationStats) : ReplicationStats :=
  mkStats (rs_queueDepth s) (rs_queueCapacity s) (rs_enqueued s) (rs_dropped s) (rs_attempts s) (rs_successes
    s) (rs_failures s) (rs_outboxEntries s) (rs_outboxFailures s) (as_targets snapshot) (rs_ackFailures s)
    (rs_lastQueuedSequence s) (rs_lastAttemptSequence s) (rs_lastSuccessSequence s) (rs_lastFailureSequence s)
    (rs_lastDroppedSequence s) (rs_lastOutboxSequence s) (if rs_lastAckSequence s <? as_maxSequence snapshot
    then as_maxSequence snapshot else rs_lastAckSequence s) (rs_retrying s) (rs_activeTarget s)
    (rs_lastAckTarget s).

(** src: transport/tcp/server_replication_stats.go recordAckFailure *)
Definition recordAckFailure (job : replicationJob) (s : ReplicationStats) : ReplicationStats :=
  mkStats (rs_queueDepth s) (rs_queueCapacity s) (rs_enqueued s) (rs_dropped s) (rs_attempts s) (rs_successes
    s) (rs_failures s) (rs_outboxEntries s) (rs_outboxFailures s) (rs_ackTargets s) (rs_ackFailures s +% 1)
    (rs_lastQueuedSequence s) (rs_lastAttemptSequence s) (rs_lastSuccessSequence s) (rs_lastFailureSequence s)
    (rs_lastDroppedSequence s) (rs_lastOutboxSequence s) (job_sequence job) (rs_retrying s) (rs_activeTarget
    s) (job_target job).

(** [d.stats.LastAckTarget = ...; d.stats.LastAckSequence = ...]. *)
Definition ackedStats (job : replicationJob) (s : ReplicationStats) : ReplicationStats :=
  mkStats (rs_queueDepth s) (rs_queueCapacity s) (rs_enqueued s) (rs_dropped s) (rs_attempts s) (rs_successes
    s) (rs_failures s) (rs_outboxEntries s) (rs_outboxFailures s) (rs_ackTargets s) (rs_ackFailures s)
    (rs_lastQueuedSequence s) (rs_lastAttemptSequence s) (rs_lastSuccessSequence s) (rs_lastFailureSequence s)
    (rs_lastDroppedSequence s) (rs_lastOutboxSequence s) (job_sequence job) (rs_retrying s) (rs_activeTarget
    s) (job_target job).

(** [d.stats.OutboxEntries = ...; d.stats.LastOutboxSequence = ...]. *)
Definition restoreOutboxStats (entries maxSequence : Z) (s : ReplicationStats) : ReplicationStats :=
  mkStats (rs_queueDepth s) (rs_queueCapacity s) (rs_enqueued s) (rs_dropped s) (rs_attempts s) (rs_successes
    s) (rs_failures s) entries (rs_outboxFailures s) (rs_ackTargets s) (rs_ackFailures s)
    (rs_lastQueuedSequence s) (rs_lastAttemptSequence s) (rs_lastSuccessSequence s) (rs_lastFailureSequence s)
    (rs_lastDroppedSequence s) maxSequence (rs_lastAckSequence s) (rs_retrying s) (rs_activeTarget s)
    (rs_lastAckTarget s).

(** [stats.QueueDepth = ...; stats.QueueCapacity = ...]. *)
Definition withQueue (depth capacity : Z) (s : ReplicationStats) : ReplicationStats :=
  mkStats depth capacity (rs_enqueued s) (rs_dropped s) (rs_attempts s) (rs_successes s) (rs_failures s)
    (rs_outboxEntries s) (rs_outboxFailures s) (rs_ackTargets s) (rs_ackFailures s) (rs_lastQueuedSequence s)
    (rs_lastAttemptSequence s) (rs_lastSuccessSequence s) (rs_lastFailureSequence s) (rs_lastDroppedSequence
    s) (rs_lastOutboxSequence s) (rs_lastAckSequence s) (rs_retrying s) (rs_activeTarget s) (rs_lastAckTarget
    s).

(** src: transport/tcp/server_replication_stats.go Stats *)
Definition Stats (d : replicationDispatcher) : ReplicationStats :=
  withQueue (zlen (rd_jobs d)) (rd_capacity d) (rd_stats d).

(** ** Enqueueing *)

(** src: transport/tcp/server_replication_stats.go nextReplicationSequence *)
Definition nextReplicationSequence (d : replicationDispatcher) : replicationDispatcher * Z :=
  let next := rd_nextSequence d +% 1 in (withSequence next d, next).

(** What happened to a write of the outbox: nothing was written, the entry was
    written but not synchronised, or both. *)
Inductive diskWrite := WriteFailed | SyncFailed | Written.

(** The outbox after the write and whether it succeeded.
    src: transport/tcp/server_replication_outbox.go Append *)
Definition Append (entries : list replicationOutboxEntry) (entry : replicationOutboxEntry) (disk : diskWrite)
    : list replicationOutboxEntry * bool :=
  match disk with
  | WriteFailed => (entries, false)
  | SyncFailed => (entries ++ [entry], false)
  | Written => (entries ++ [entry], true)
  end.

(** src: transport/tcp/server_replication_stats.go appendOutbox *)
Definition appendOutbox (sequence : Z) (target : string) (command : replicationCommand) (nowUnixMs : Z)
    (disk : diskWrite) (d : replicationDispatcher) : replicationDispatcher :=
  match rd_outbox d with
  | None => d
  | Some entries =>
      match newReplicationOutboxEntry sequence target command nowUnixMs with
      | Err _ => withStats (recordOutboxFailure sequence (rd_stats d)) d
      | Ok entry =>
          let '(entries, ok) := Append entries entry disk in
          let d := withOutbox (Some entries) d in
          if (ok : bool) then withStats (recordOutboxAppended sequence (rd_stats d)) d
          else withStats (recordOutboxFailure sequence (rd_stats d)) d
      end
  end.

(** src: transport/tcp/server_replication_replay.go recordQueued *)
Definition recordQueued (sequence : Z) (target : string) (d : replicationDispatcher) : replicationDispatcher :=
  if bool_decide (target = "") || (sequence =? 0) then d
  else match rd_queued d !! target with
       | Some current => if current <? sequence then withQueued (<[target := sequence]> (rd_queued d)) d else d
       | None => withQueued (<[target := sequence]> (rd_queued d)) d
       end.

(** src: transport/tcp/server_replication_queue.go enqueueReplicationJob *)
Definition enqueueReplicationJob (job : replicationJob) (d : replicationDispatcher) : replicationDispatcher :=
  if rd_stopped d then d
  else if zlen (rd_jobs d) <? rd_capacity d then
    let d := withJobs (rd_jobs d ++ [job]) d in
    let d := withStats (recordEnqueued (job_sequence job) (rd_stats d)) d in
    recordQueued (job_sequence job) (job_target job) d
  else withStats (recordDropped (job_sequence job) (rd_stats d)) d.

(** A call with no step of another call between its own.
    src: transport/tcp/server_replication_queue.go Enqueue *)
Definition Enqueue (target : string) (command : replicationCommand) (nowUnixMs : Z) (disk : diskWrite)
    (d : replicationDispatcher) : replicationDispatcher :=
  if bool_decide (target = "") || negb (valid command) then d
  else
    let '(d, sequence) := nextReplicationSequence d in
    let d := appendOutbox sequence target command nowUnixMs disk d in
    enqueueReplicationJob (mkJob sequence target command) d.

(** ** Acknowledgements *)

(** The offsets and whether they were saved.
    src: transport/tcp/server_replication_ack.go Ack *)
Definition Ack (target : string) (sequence : Z) (saved : bool) (offsets : gmap string Z) : gmap string Z * bool :=
  if bool_decide (TrimSpace target = "") || (sequence =? 0) then (offsets, true)
  else match offsets !! target with
       | Some current =>
           if sequence <=? current then (offsets, true) else (<[target := sequence]> offsets, saved)
       | None => (<[target := sequence]> offsets, saved)
       end.

(** src: transport/tcp/server_replication_ack.go Snapshot *)
Definition ackSnapshot (offsets : gmap string Z) : replicationAckSnapshot :=
  mkAckSnapshot (u64 (Z.of_nat (size offsets)))
    (map_fold (fun _ sequence acc => if acc <? sequence then sequence else acc) 0 offsets).

(** src: transport/tcp/server_replication_stats.go recordAckSuccess *)
Definition recordAckSuccess (job : replicationJob) (snapshot : replicationAckSnapshot) (s : ReplicationStats)
    : ReplicationStats :=
  restoreAckSnapshotLocked snapshot (ackedStats job s).

(** src: transport/tcp/server_replication_stats.go ackSuccess *)
Definition ackSuccess (job : replicationJob) (saved : bool) (d : replicationDispatcher) : replicationDispatcher :=
  match rd_acks d with
  | None => d
  | Some offsets =>
      let '(offsets, ok) := Ack (job_target job) (job_sequence job) saved offsets in
      let d := withAcks (Some offsets) d in
      if (ok : bool) then withStats (recordAckSuccess job (ackSnapshot offsets) (rd_stats d)) d
      else withStats (recordAckFailure job (rd_stats d)) d
  end.

(** ** Sending *)

(** src: transport/tcp/server_replication_queue.go nextReplicationRetryDelay *)
Definition nextReplicationRetryDelay (current maxDelay : Duration) : Duration :=
  if current <=? 0 then maxDelay
  else
    let next := s64 (current * 2) in
    if maxDelay <? next then maxDelay else next.

(** src: transport/tcp/server_replication_queue.go defaultReplicationRetryInitialDelay 13-13 *)
Definition retryInitialDelay : Duration := millis 25.

(** src: transport/tcp/server_replication_queue.go defaultReplicationRetryMaxDelay 14-14 *)
Definition retryMaxDelay : Duration := millis 500.

(** The outcome of an attempt: the target took the command; it failed and the
    worker waits for the retry; it failed and the dispatcher stopped meanwhile. *)
Inductive attempt := Delivered | Retry | Stopped.

(** The loop of [send] over the outcomes of its attempts: the dispatcher, the
    delays it waited and whether the target took the command.  An empty list of
    outcomes is a loop that is still running.
    src: transport/tcp/server_replication_queue.go send *)
Fixpoint sendLoop (job : replicationJob) (saved : bool) (outcomes : list attempt) (delay : Duration)
    (d : replicationDispatcher) : replicationDispatcher * list Duration * option bool :=
  match outcomes with
  | [] => (d, [], None)
  | outcome :: rest =>
      let d := withStats (recordAttempt job (rd_stats d)) d in
      match outcome with
      | Delivered =>
          let d := withStats (recordSuccess job (rd_stats d)) d in
          (ackSuccess job saved d, [], Some true)
      | Stopped => (withStats (recordFailure job (rd_stats d)) d, [delay], Some false)
      | Retry =>
          let d := withStats (recordFailure job (rd_stats d)) d in
          let '(d, delays, r) := sendLoop job saved rest (nextReplicationRetryDelay delay retryMaxDelay) d in
          (d, delay :: delays, r)
      end
  end.

Definition send (job : replicationJob) (saved : bool) (outcomes : list attempt) (d : replicationDispatcher) :=
  sendLoop job saved outcomes retryInitialDelay d.

(** ** Replaying *)

(** src: transport/tcp/server_replication_replay.go queuedTargetHighWater *)
Definition queuedTargetHighWater (target : string) (d : replicationDispatcher) : option Z :=
  if bool_decide (target = "") then None else rd_queued d !! target.

(** src: transport/tcp/server_replication_replay.go shouldReplay *)
Definition shouldReplay (entry : replicationOutboxEntry) (offsets : gmap string Z) (d : replicationDispatcher) : bool :=
  let below high := match high with Some n => oe_sequence entry <=? n | None => false end in
  if (oe_sequence entry =? 0) || bool_decide (oe_target entry = "") then false
  else if below (offsets !! oe_target entry) then false
  else if below (queuedTargetHighWater (oe_target entry) d) then false
  else true.

(** src: transport/tcp/server_replication_replay.go enqueueReplayEntry *)
Definition enqueueReplayEntry (entry : replicationOutboxEntry) (d : replicationDispatcher) : replicationDispatcher :=
  match replicationCommandFromOutboxEntry entry with
  | Err _ => d
  | Ok command => enqueueReplicationJob (mkJob (oe_sequence entry) (oe_target entry) command) d
  end.

(** src: transport/tcp/server_replication_replay.go replayOutbox *)
Definition replayOutbox (entries : list replicationOutboxEntry) (d : replicationDispatcher) : replicationDispatcher :=
  match rd_acks d with
  | None => d
  | Some offsets =>
      foldl (fun d entry => if shouldReplay entry offsets d then enqueueReplayEntry entry d else d) d entries
  end.

(** src: transport/tcp/server_replication_replay.go replayOutboxFromDisk *)
Definition replayOutboxFromDisk (d : replicationDispatcher) : replicationDispatcher :=
  match rd_outbox d, rd_acks d with
  | Some entries, Some _ => replayOutbox entries d
  | _, _ => d
  end.

(** The number of entries and the highest sequence.
    src: transport/tcp/server_replication_outbox.go replayableReplicationOutboxSnapshot *)
Definition replayableReplicationOutboxSnapshot (entries : list replicationOutboxEntry) : Z * Z :=
  foldl (fun '(n, high) entry =>
    (n +% 1, if high <? oe_sequence entry then oe_sequence entry else high)) (0, 0) entries.

(** src: transport/tcp/server_replication_stats.go restoreOutboxSnapshot *)
Definition restoreOutboxSnapshot (snapshot : Z * Z) (d : replicationDispatcher) : replicationDispatcher :=
  let '(entries, maxSequence) := snapshot in
  let d := withStats (restoreOutboxStats entries maxSequence (rd_stats d)) d in
  if rd_nextSequence d <? maxSequence then withSequence maxSequence d else d.

(** src: transport/tcp/server_replication_stats.go restoreAckSnapshot *)
Definition restoreAckSnapshot (snapshot : replicationAckSnapshot) (d : replicationDispatcher) : replicationDispatcher :=
  withStats (restoreAckSnapshotLocked snapshot (rd_stats d)) d.

(** [OpenOutbox] on a path with an outbox file and an acknowledgement file that
    can be read.
    src: transport/tcp/server_replication_replay.go OpenOutbox *)
Definition OpenOutbox (entries : list replicationOutboxEntry) (offsets : gmap string Z) (d : replicationDispatcher)
    : replicationDispatcher :=
  let snapshot := replayableReplicationOutboxSnapshot entries in
  let d := withOutbox (Some entries) d in
  let d := withAcks (Some offsets) d in
  let d := restoreOutboxSnapshot snapshot d in
  let d := restoreAckSnapshot (ackSnapshot offsets) d in
  replayOutbox entries d.
