(* ===== verification/ReplicationSpec.v ===== *)
(** * Replication delivers

    A command survives the outbox file; and, as long as nothing is dropped from
    the queue and commands are enqueued one at a time, every command that was
    enqueued is delivered, in order, through failures and restarts.  A command that
    is dropped, or that crosses another one, can be lost. *)

From S2P Require Import Prelude.
From S2P Require Import Binary.
From S2P Require Import GoStrings.
From S2P Require Import Frame.
From S2P Require Import WireTypes.
From S2P Require Import Wire.
From S2P Require Import WireBatch.
From S2P Require Import WirePrimitive.
From S2P Require Import WireSpec.
From S2P Require Import WireMessages.
From S2P Require Import Replication.

Local Open Scope Z_scope.
Local Open Scope nespa_scope.

(** ** Commands through the outbox *)

(** A command without what its receiver does not act on. *)
Definition command_strip (c : replicationCommand) : replicationCommand :=
  match c with
  | NoCommand => NoCommand
  | CommandSet r => CommandSet (set_strip r)
  | CommandDelete r => CommandDelete (delete_seen r)
  | CommandTouch r => CommandTouch (touch_seen r)
  | CommandAdjust r => CommandAdjust (adjust_seen r)
  | CommandPrimitive r => CommandPrimitive (primitive_strip r)
  | CommandBatchSet r => CommandBatchSet (mkBatchSetRequest 0 (set_strip <$> bs_items r))
  | CommandBatchDelete r => CommandBatchDelete (mkBatchDeleteRequest 0 (delete_seen <$> bd_items r))
  | CommandBatchTouch r => CommandBatchTouch (mkBatchTouchRequest 0 (touch_seen <$> bt_items r))
  | CommandBatchPrimitive r => CommandBatchPrimitive (mkBatchPrimitiveRequest 0 (primitive_strip <$> bp_items r))
  end.

(** The commands the server enqueues: built from a decoded request, with less
    than four gigabytes of values. *)
Inductive command_ok : replicationCommand -> Prop :=
| ok_set r : set_ok r -> command_ok (newSetReplicationCommand r)
| ok_delete r : delete_ok r -> command_ok (newDeleteReplicationCommand r)
| ok_touch r : touch_ok r -> command_ok (newTouchReplicationCommand r)
| ok_adjust r : adjust_ok r -> command_ok (newAdjustReplicationCommand r)
| ok_primitive r : primitive_ok r -> zlen (wp_value r) < 2 ^ 32 -> command_ok (newPrimitiveReplicationCommand r)
| ok_batch_set r : Forall set_ok (bs_items r) -> short (bs_items r) ->
    lsum (fun x => zlen (ws_value x)) (bs_items r) < 2 ^ 32 -> command_ok (newBatchSetReplicationCommand r)
| ok_batch_delete r : Forall delete_ok (bd_items r) -> short (bd_items r) ->
    command_ok (newBatchDeleteReplicationCommand r)
| ok_batch_touch r : Forall touch_ok (bt_items r) -> short (bt_items r) ->
    command_ok (newBatchTouchReplicationCommand r)
| ok_batch_primitive r : Forall primitive_ok (bp_items r) -> short (bp_items r) ->
    lsum (fun x => zlen (wp_value x)) (bp_items r) < 2 ^ 32 -> command_ok (newBatchPrimitiveReplicationCommand r).

Lemma is_u64_0 : is_u64 0.
Proof. unfold is_u64. lia. Qed.

Lemma replica_set_ok r : set_ok r -> set_ok (replicaSetRequest r).
Proof. unfold set_ok. cbn. pose proof is_u64_0. tauto. Qed.
Lemma replica_delete_ok r : delete_ok r -> delete_ok (replicaDeleteRequest r).
Proof. unfold delete_ok. cbn. pose proof is_u64_0. tauto. Qed.
Lemma replica_touch_ok r : touch_ok r -> touch_ok (replicaTouchRequest r).
Proof. unfold touch_ok. cbn. pose proof is_u64_0. tauto. Qed.
Lemma replica_adjust_ok r : adjust_ok r -> adjust_ok (replicaAdjustRequest r).
Proof. unfold adjust_ok. cbn. pose proof is_u64_0. tauto. Qed.
Lemma replica_primitive_ok r : primitive_ok r -> primitive_ok (replicaPrimitiveRequest r).
Proof. unfold primitive_ok. cbn. pose proof is_u64_0. tauto. Qed.

Lemma replica_set_strip r s : set_strip r = set_strip (replicaSetRequest s) ->
  set_strip (replicaSetRequest r) = set_strip (replicaSetRequest s).
Proof. destruct r, s. unfold set_strip, set_seen, placeSet, replicaSetRequest. cbn. by intros [= -> -> -> -> -> _]. Qed.

Lemma replica_primitive_strip r s : primitive_strip r = primitive_strip (replicaPrimitiveRequest s) ->
  primitive_strip (replicaPrimitiveRequest r) = primitive_strip (replicaPrimitiveRequest s).
Proof. destruct r, s. unfold primitive_strip, primitive_item_seen, placePrimitive, replicaPrimitiveRequest. cbn. by intros [=]; subst. Qed.

Lemma fmap_strip {A} (strip replica : A -> A) (l k : list A) :
  (forall r s, strip r = strip (replica s) -> strip (replica r) = strip (replica s)) ->
  strip <$> l = strip <$> (replica <$> k) -> strip <$> (replica <$> l) = strip <$> (replica <$> k).
Proof.
  intros H. revert k; induction l as [|r l IH]; intros [|s k] E; try done.
  rewrite !fmap_cons in E |- *. apply (f_equal (fun z => (hd_error z, tl z))) in E. cbn in E. injection E as E1 E2.
  by rewrite (H _ _ E1), (IH _ E2).
Qed.

Lemma fmap_ok {A} (ok : A -> Prop) (replica : A -> A) l : (forall r, ok r -> ok (replica r)) ->
  Forall ok l -> Forall ok (replica <$> l).
Proof. intros H Hl. apply Forall_fmap. eapply Forall_impl; [exact Hl|]. apply H. Qed.

Lemma short_fmap {A B} (f : A -> B) l : short l -> short (f <$> l).
Proof. unfold short, zlen. by rewrite length_fmap. Qed.

Lemma lsum_fmap_same {A} (g : A -> A) (f : A -> Z) l : (forall x, f (g x) = f x) -> lsum f (g <$> l) = lsum f l.
Proof. intros H. induction l as [|x l IH]; [done|]. rewrite fmap_cons, !lsum_cons, H, IH. done. Qed.

(** Run the decoder of an entry up to the codec. *)
Ltac outbox_read :=
  unfold replicationCommandFromOutboxEntry;
  cbn [oe_kind oe_metadata oe_payload commandKindOf cf_metadata cf_payload newSetReplicationCommand
    newDeleteReplicationCommand newTouchReplicationCommand newAdjustReplicationCommand
    newPrimitiveReplicationCommand newBatchSetReplicationCommand newBatchDeleteReplicationCommand
    newBatchTouchReplicationCommand newBatchPrimitiveReplicationCommand].

(** An entry of the outbox is read back as the command it was written for. *)
Lemma outbox_entry_roundtrip sequence target c now : command_ok c ->
  exists e c', newReplicationOutboxEntry sequence target c now = Ok e /\
    oe_sequence e = sequence /\ oe_target e = target /\
    replicationCommandFromOutboxEntry e = Ok c' /\ command_strip c' = command_strip c.
Proof.
  intros Hc. destruct Hc as [r H|r H|r H|r H|r H Hs|r H Hl Hs|r H Hl|r H Hl|r H Hl Hs];
    unfold newReplicationOutboxEntry, encodeFrame.
  - eexists _, _. split; [done|]. split_and!; [done|done|outbox_read; by rewrite set_roundtrip by by apply replica_set_ok|done].
  - eexists _, _. split; [done|]. split_and!; [done|done|outbox_read; by rewrite delete_roundtrip by by apply replica_delete_ok|done].
  - eexists _, _. split; [done|]. split_and!; [done|done|outbox_read; by rewrite touch_roundtrip by by apply replica_touch_ok|done].
  - eexists _, _. split; [done|]. split_and!; [done|done|outbox_read; by rewrite adjust_roundtrip by by apply replica_adjust_ok|done].
  - destruct (primitive_request_roundtrip (replicaPrimitiveRequest r)) as (raw & payload & out & E & Hd & Hst);
      [by apply replica_primitive_ok|done|].
    unfold newPrimitiveReplicationCommand. cbv beta iota zeta. rewrite E.
    eexists _, _. split; [done|]. split_and!; [done|done|outbox_read; by rewrite Hd|]. cbn. f_equal. by apply replica_primitive_strip.
  - destruct (batch_set_roundtrip (mkBatchSetRequest 0 (cloneReplicaSetRequests (bs_items r))))
      as (raw & payload & out & E & Hd & Hst); cbn [bs_items];
      [by apply fmap_ok; [apply replica_set_ok|]|by apply short_fmap|unfold cloneReplicaSetRequests, cloneReplicaPrimitiveRequests; by rewrite lsum_fmap_same|].
    unfold newBatchSetReplicationCommand. cbv beta iota zeta. rewrite E.
    eexists _, _. split; [done|]. split_and!; [done|done|outbox_read; by rewrite Hd|]. cbn in Hst |- *. do 2 f_equal.
    apply fmap_strip; [apply replica_set_strip|done].
  - assert (Forall delete_ok (cloneReplicaDeleteRequests (bd_items r)) /\ short (cloneReplicaDeleteRequests (bd_items r)))
      as [H' Hl'] by (split; [apply fmap_ok; [apply replica_delete_ok|done]|by apply short_fmap]).
    eexists _, _. split; [done|]. split_and!; [done|done|outbox_read; by rewrite batch_delete_roundtrip|].
    cbn [command_strip newBatchDeleteReplicationCommand newBatchTouchReplicationCommand bd_items bt_items].
    unfold cloneReplicaDeleteRequests, cloneReplicaTouchRequests. by rewrite <- !list_fmap_compose.
  - assert (Forall touch_ok (cloneReplicaTouchRequests (bt_items r)) /\ short (cloneReplicaTouchRequests (bt_items r)))
      as [H' Hl'] by (split; [apply fmap_ok; [apply replica_touch_ok|done]|by apply short_fmap]).
    eexists _, _. split; [done|]. split_and!; [done|done|outbox_read; by rewrite batch_touch_roundtrip|].
    cbn [command_strip newBatchDeleteReplicationCommand newBatchTouchReplicationCommand bd_items bt_items].
    unfold cloneReplicaDeleteRequests, cloneReplicaTouchRequests. by rewrite <- !list_fmap_compose.
  - destruct (batch_primitive_roundtrip (mkBatchPrimitiveRequest 0 (cloneReplicaPrimitiveRequests (bp_items r))))
      as (raw & payload & out & E & Hd & Hst); cbn [bp_items];
      [by apply fmap_ok; [apply replica_primitive_ok|]|by apply short_fmap|unfold cloneReplicaSetRequests, cloneReplicaPrimitiveRequests; by rewrite lsum_fmap_same|].
    unfold newBatchPrimitiveReplicationCommand. cbv beta iota zeta. rewrite E.
    eexists _, _. split; [done|]. split_and!; [done|done|outbox_read; by rewrite Hd|]. cbn in Hst |- *. do 2 f_equal.
    apply fmap_strip; [apply replica_primitive_strip|done].
Qed.

(** ** Runs of a dispatcher

    The dispatcher, the job its worker is sending, the acknowledgement file, and
    two histories: every job that was enqueued and every job a target took. *)

Record replication := mkReplication {
  rp_dispatcher : replicationDispatcher;
  rp_sending : option replicationJob;
  rp_ackFile : gmap string Z;
  rp_enqueued : list replicationJob;
  rp_delivered : list replicationJob
}.

(** The queue has room for the entries that have to be sent again. *)
Definition replay_room (entries : list replicationOutboxEntry) (offsets : gmap string Z) (d : replicationDispatcher)
    : Prop :=
  zlen (rd_jobs d) + zlen (filter (fun e => shouldReplay e offsets d = true) entries) <= rd_capacity d.

(** The acknowledgement file after the offsets went from [before] to [after]:
    [Ack] writes it when they change, and the write may fail. *)
Definition ack_file (saved : bool) (before after : option (gmap string Z)) (file : gmap string Z) : gmap string Z :=
  if saved && negb (bool_decide (after = before)) then default file after else file.

(** The worker is idle or sends one job; it ticks only when idle.  A restart
    loses the queue and keeps the files. *)
Inductive replication_step : replication -> replication -> Prop :=
| step_enqueue d sending file enq del target c now disk :
    let d' := Enqueue target c now disk d in
    target <> "" -> command_ok c -> disk <> WriteFailed -> zlen (rd_jobs d) < rd_capacity d ->
    rd_nextSequence d + 1 < 2 ^ 64 ->
    replication_step (mkReplication d sending file enq del)
      (mkReplication d' sending file (enq ++ [mkJob (rd_nextSequence d') target c]) del)
| step_take d job jobs file enq del :
    rd_jobs d = job :: jobs ->
    replication_step (mkReplication d None file enq del) (mkReplication (withJobs jobs d) (Some job) file enq del)
| step_fail d job file enq del :
    replication_step (mkReplication d (Some job) file enq del)
      (mkReplication (withStats (recordFailure job (recordAttempt job (rd_stats d))) d) (Some job) file enq del)
| step_deliver d job saved file enq del :
    let d' := (send job saved [Delivered] d).1.1 in
    replication_step (mkReplication d (Some job) file enq del)
      (mkReplication d' None (ack_file saved (rd_acks d) (rd_acks d') file) enq (del ++ [job]))
| step_tick d file enq del :
    replication_step (mkReplication d None file enq del) (mkReplication (replayOutboxFromDisk d) None file enq del)
| step_restart d sending file enq del entries capacity :
    rd_outbox d = Some entries -> replay_room entries file (newReplicationDispatcher capacity) ->
    replication_step (mkReplication d sending file enq del)
      (mkReplication (OpenOutbox entries file (newReplicationDispatcher capacity)) None file enq del).

(** A dispatcher with an empty outbox. *)
Definition fresh_replication (capacity : Z) : replication :=
  mkReplication (OpenOutbox [] ∅ (newReplicationDispatcher capacity)) None ∅ [] [].

Definition replication_reachable (capacity : Z) : replication -> Prop :=
  rtc replication_step (fresh_replication capacity).

(** What is still to be sent: the job being sent and the queue. *)
Definition pending (r : replication) : list replicationJob :=
  option_list (rp_sending r) ++ rd_jobs (rp_dispatcher r).

Definition same_job (i j : replicationJob) : Prop :=
  job_sequence i = job_sequence j /\ job_target i = job_target j /\
  command_strip (job_command i) = command_strip (job_command j).

(** The target took the job. *)
Definition taken (r : replication) (j : replicationJob) : Prop := exists i, i ∈ rp_delivered r /\ same_job i j.

Definition waiting (r : replication) (j : replicationJob) : Prop := exists i, i ∈ pending r /\ same_job i j.

(** The offset of the job's target has reached it. *)
Definition covered (offsets : gmap string Z) (j : replicationJob) : Prop :=
  match offsets !! job_target j with Some n => job_sequence j <= n | None => False end.

#[global] Instance covered_dec offsets j : Decision (covered offsets j).
Proof. unfold covered. destruct (offsets !! job_target j); apply _. Defined.

(** The entry of a job in the outbox. *)
Definition entry_of (e : replicationOutboxEntry) (j : replicationJob) : Prop :=
  oe_sequence e = job_sequence j /\ oe_target e = job_target j /\
  exists c, replicationCommandFromOutboxEntry e = Ok c /\ command_strip c = command_strip (job_command j).

Record replication_inv (r : replication) : Prop := {
  ri_running : rd_stopped (rp_dispatcher r) = false;
  ri_entries : exists es, rd_outbox (rp_dispatcher r) = Some es /\ Forall2 entry_of es (rp_enqueued r);
  ri_offsets : exists offsets, rd_acks (rp_dispatcher r) = Some offsets /\
    (forall j, j ∈ rp_enqueued r -> covered offsets j -> taken r j) /\
    (forall j, j ∈ rp_enqueued r -> covered offsets j \/ covered (rd_queued (rp_dispatcher r)) j) /\
    map_Forall (fun _ n => n <= rd_nextSequence (rp_dispatcher r)) offsets;
  ri_marks : map_Forall (fun _ n => n <= rd_nextSequence (rp_dispatcher r)) (rp_ackFile r);
  ri_file : forall j, j ∈ rp_enqueued r -> covered (rp_ackFile r) j -> taken r j;
  ri_order : StronglySorted Z.lt (job_sequence <$> rp_enqueued r);
  ri_bounds : Forall (fun j => 0 < job_sequence j <= rd_nextSequence (rp_dispatcher r) /\ job_target j <> "")
                (rp_enqueued r);
  ri_next : rd_nextSequence (rp_dispatcher r) = default 0 (last (job_sequence <$> rp_enqueued r)) /\
    is_u64 (rd_nextSequence (rp_dispatcher r));
  ri_pending : StronglySorted Z.lt (job_sequence <$> pending r) /\
    Forall (fun i => exists j, j ∈ rp_enqueued r /\ same_job i j) (pending r);
  ri_cover : forall j, j ∈ rp_enqueued r -> taken r j \/ waiting r j;
  ri_from : Forall (fun i => exists j, j ∈ rp_enqueued r /\ same_job i j) (rp_delivered r);
  ri_prefix : forall i j, i ∈ rp_delivered r -> j ∈ rp_enqueued r -> job_sequence j < job_sequence i -> taken r j
}.

(** ** Enqueueing *)

(** The fields of a dispatcher other than its statistics. *)
Definition same_files (d d' : replicationDispatcher) : Prop :=
  rd_stopped d' = rd_stopped d /\ rd_outbox d' = rd_outbox d /\ rd_acks d' = rd_acks d /\
  rd_nextSequence d' = rd_nextSequence d /\ rd_capacity d' = rd_capacity d.

(** Raising the mark of a target. *)
Lemma recordQueued_spec sequence target d : target <> "" -> 0 < sequence ->
  let d' := recordQueued sequence target d in
  same_files d d' /\ rd_jobs d' = rd_jobs d /\
  (forall j, covered (rd_queued d) j -> covered (rd_queued d') j) /\
  (forall j, job_target j = target -> job_sequence j <= sequence -> covered (rd_queued d') j) /\
  (forall t n, rd_queued d' !! t = Some n -> rd_queued d !! t = Some n \/ n = sequence).
Proof.
  intros Ht Hs. unfold recordQueued. rewrite bool_decide_eq_false_2, (proj2 (Z.eqb_neq sequence 0)) by (done || lia).
  cbn [orb].
  assert (forall j n, rd_queued d !! target = Some n -> n < sequence -> covered (rd_queued d) j ->
    covered (<[target:=sequence]> (rd_queued d)) j) as Hmono.
  { intros j n Hn Hlt. unfold covered. destruct (decide (job_target j = target)) as [->|].
    - rewrite lookup_insert_eq, Hn. lia.
    - by rewrite lookup_insert_ne. }
  assert (forall j, job_target j = target -> job_sequence j <= sequence ->
    covered (<[target:=sequence]> (rd_queued d)) j) as Hself.
  { intros j <- Hle. unfold covered. by rewrite lookup_insert_eq. }
  assert (forall t n, <[target:=sequence]> (rd_queued d) !! t = Some n -> rd_queued d !! t = Some n \/ n = sequence)
    as Hval.
  { intros t n. destruct (decide (t = target)) as [->|].
    - rewrite lookup_insert_eq. intros [= ->]. by right.
    - rewrite lookup_insert_ne by done. by left. }
  destruct (rd_queued d !! target) as [current|] eqn:Hq; [destruct (Z.ltb_spec current sequence)|].
  - split_and!; try done. intros j. by apply (Hmono j current).
  - split_and!; try done; [|by left]. intros j Hj Hle. unfold covered. rewrite Hj, Hq. lia.
  - split_and!; try done. intros j Hc. cbn. unfold covered in *. destruct (decide (job_target j = target)) as [E|].
    + by rewrite E, Hq in Hc.
    + by rewrite lookup_insert_ne.
Qed.

Lemma enqueue_job_spec job d : rd_stopped d = false -> zlen (rd_jobs d) < rd_capacity d ->
  job_target job <> "" -> 0 < job_sequence job ->
  let d' := enqueueReplicationJob job d in
  same_files d d' /\ rd_jobs d' = rd_jobs d ++ [job] /\
  (forall j, covered (rd_queued d) j -> covered (rd_queued d') j) /\
  (forall j, job_target j = job_target job -> job_sequence j <= job_sequence job -> covered (rd_queued d') j) /\
  (forall t n, rd_queued d' !! t = Some n -> rd_queued d !! t = Some n \/ n = job_sequence job).
Proof.
  intros Hrun Hroom Ht Hs. unfold enqueueReplicationJob. rewrite Hrun, (proj2 (Z.ltb_lt _ _) Hroom).
  match goal with |- context [recordQueued _ _ ?x] =>
    destruct (recordQueued_spec (job_sequence job) (job_target job) x Ht Hs) as (H1 & H2 & H3 & H4 & H5) end.
  split_and!; [exact H1|exact H2|done|done|done].
Qed.

Lemma appendOutbox_spec sequence target c now disk d es : rd_outbox d = Some es -> command_ok c ->
  disk <> WriteFailed ->
  exists e stats, entry_of e (mkJob sequence target c) /\
    appendOutbox sequence target c now disk d = withStats stats (withOutbox (Some (es ++ [e])) d).
Proof.
  intros Ho Hc Hdisk. unfold appendOutbox. rewrite Ho.
  destruct (outbox_entry_roundtrip sequence target c now Hc) as (e & c' & -> & Es & Et & Hd & Hst).
  destruct disk; [done|eexists e, _; split; [by split_and!; [..|exists c']|reflexivity]..].
Qed.

Lemma Enqueue_spec target c now disk d es : rd_stopped d = false -> rd_outbox d = Some es ->
  zlen (rd_jobs d) < rd_capacity d -> target <> "" -> command_ok c -> disk <> WriteFailed ->
  0 <= rd_nextSequence d -> rd_nextSequence d + 1 < 2 ^ 64 ->
  let d' := Enqueue target c now disk d in
  let job := mkJob (rd_nextSequence d + 1) target c in
  (exists e, rd_outbox d' = Some (es ++ [e]) /\ entry_of e job) /\
  rd_stopped d' = false /\ rd_acks d' = rd_acks d /\ rd_nextSequence d' = rd_nextSequence d + 1 /\
  rd_jobs d' = rd_jobs d ++ [job] /\
  (forall j, covered (rd_queued d) j -> covered (rd_queued d') j) /\ covered (rd_queued d') job.
Proof.
  intros Hrun Ho Hroom Ht Hc Hdisk H0 Hlt. unfold Enqueue.
  assert (valid c = true) as -> by (by destruct Hc). rewrite bool_decide_eq_false_2 by done. cbn [orb negb].
  unfold nextReplicationSequence. rewrite u64_small by (unfold is_u64; lia).
  destruct (appendOutbox_spec (rd_nextSequence d + 1) target c now disk (withSequence (rd_nextSequence d + 1) d) es
    Ho Hc Hdisk) as (e & stats & He & ->).
  match goal with |- context [enqueueReplicationJob ?j ?x] =>
    destruct (enqueue_job_spec j x Hrun Hroom Ht ltac:(cbn; lia)) as ((E1 & E2 & E3 & E4 & _) & E5 & E6 & E7 & _) end.
  rewrite E1, E2, E3, E4, E5. split_and!; try done; [by exists e|by apply E7].
Qed.

(** ** Replaying *)

Lemma sorted_snoc (l : list Z) x : StronglySorted Z.lt l -> Forall (fun y => y < x) l -> StronglySorted Z.lt (l ++ [x]).
Proof.
  induction l as [|y l IH]; cbn [app]; intros Hs Hl; [repeat constructor|].
  apply StronglySorted_inv in Hs as [Hs Hy]. apply Forall_cons in Hl as [Hyx Hl]. constructor; [by apply IH|].
  apply Forall_app. split; [done|by repeat constructor].
Qed.

(** Nothing is replayed when every entry is acknowledged or queued. *)
Lemma replay_nothing offsets d es enq : Forall2 entry_of es enq ->
  (forall j, j ∈ enq -> covered offsets j \/ covered (rd_queued d) j) ->
  foldl (fun d e => if shouldReplay e offsets d then enqueueReplayEntry e d else d) d es = d.
Proof.
  induction 1 as [|e j es enq (Es & Et & _) HF IH]; intros Hq; [done|]. cbn [foldl].
  assert (shouldReplay e offsets d = false) as ->.
  { unfold shouldReplay, queuedTargetHighWater. rewrite Es, Et.
    destruct (job_sequence j =? 0); [done|]. cbn [orb]. destruct (bool_decide (job_target j = "")); [done|].
    destruct (Hq j) as [Hc|Hc]; [by left|unfold covered in Hc..].
    - destruct (offsets !! job_target j); [|done]. by rewrite (proj2 (Z.leb_le _ _) Hc).
    - destruct (match offsets !! _ with Some _ => _ | None => _ end); [done|].
      destruct (rd_queued d !! job_target j); [|done]. by rewrite (proj2 (Z.leb_le _ _) Hc). }
  apply IH. intros i Hi. apply Hq. by right.
Qed.

Lemma shouldReplay_high e j offsets d : entry_of e j -> 0 < job_sequence j -> job_target j <> "" ->
  (forall t n, rd_queued d !! t = Some n -> n < job_sequence j) ->
  shouldReplay e offsets d = negb (bool_decide (covered offsets j)).
Proof.
  intros (Es & Et & _) Hs Ht Hq. unfold shouldReplay, queuedTargetHighWater. rewrite Es, Et.
  rewrite (proj2 (Z.eqb_neq _ 0)), bool_decide_eq_false_2 by (done || lia). cbn [orb].
  assert (match rd_queued d !! job_target j with Some n => job_sequence j <=? n | None => false end = false) as ->.
  { destruct (rd_queued d !! job_target j) as [n|] eqn:E; [|done]. apply Hq in E. apply Z.leb_gt. lia. }
  assert (match offsets !! job_target j with Some n => job_sequence j <=? n | None => false end
          = bool_decide (covered offsets j)) as ->; [|by destruct (bool_decide _)].
  apply eq_bool_prop_intro. rewrite bool_decide_spec. unfold covered.
  destruct (offsets !! job_target j); [|done]. rewrite Is_true_true. apply Z.leb_le.
Qed.

(** What a dispatcher that has just started puts in its queue. *)
Lemma replay_fold offsets es enq : Forall2 entry_of es enq -> StronglySorted Z.lt (job_sequence <$> enq) ->
  Forall (fun j => 0 < job_sequence j /\ job_target j <> "") enq ->
  forall d, rd_stopped d = false ->
  Forall (fun j => forall t n, rd_queued d !! t = Some n -> n < job_sequence j) enq ->
  zlen (rd_jobs d) + zlen (filter (fun j => ~ covered offsets j) enq) <= rd_capacity d ->
  let d' := foldl (fun d e => if shouldReplay e offsets d then enqueueReplayEntry e d else d) d es in
  same_files d d' /\
  (exists js, rd_jobs d' = rd_jobs d ++ js /\ Forall2 same_job js (filter (fun j => ~ covered offsets j) enq)) /\
  (forall j, covered (rd_queued d) j -> covered (rd_queued d') j) /\
  (forall j, j ∈ enq -> covered offsets j \/ covered (rd_queued d') j).
Proof.
  induction 1 as [|e j es enq He HF IH]; intros Hsort Hpos d Hrun Hq Hroom.
  { cbn. split_and!; [done|exists []; by rewrite app_nil_r|done|by intros j ?%elem_of_nil]. }
  rewrite fmap_cons in Hsort. apply StronglySorted_inv in Hsort as [Hsort Hlt].
  apply Forall_cons in Hpos as [[Hs Ht] Hpos]. apply Forall_cons in Hq as [Hqj Hq]. cbn [foldl].
  rewrite (shouldReplay_high e j) by done. rewrite filter_cons in Hroom |- *.
  destruct (decide (covered offsets j)) as [Hc|Hc].
  - rewrite bool_decide_eq_true_2 by done. cbn [negb]. rewrite decide_False in Hroom |- * by tauto.
    destruct (IH Hsort Hpos d Hrun Hq Hroom) as (I1 & I2 & I3 & I4). split_and!; [done..|].
    intros i [->|Hi]%elem_of_cons; [by left|by apply I4].
  - rewrite bool_decide_eq_false_2 by done. cbn [negb]. rewrite decide_True in Hroom |- * by done.
    rewrite zlen_cons in Hroom. pose proof (zlen_nonneg (filter (fun j => ~ covered offsets j) enq)).
    destruct He as (Es & Et & c & Hdec & Hst).
    assert (enqueueReplayEntry e d = enqueueReplicationJob (mkJob (job_sequence j) (job_target j) c) d) as ->
      by (unfold enqueueReplayEntry; by rewrite Hdec, Es, Et).
    destruct (enqueue_job_spec (mkJob (job_sequence j) (job_target j) c) d Hrun ltac:(lia) Ht Hs)
      as ((F1 & F2 & F3 & F4 & F5) & F6 & F7 & F8 & F9).
    set (d1 := enqueueReplicationJob _ d) in *.
    destruct (IH Hsort Hpos d1) as ((G1 & G2 & G3 & G4 & G5) & (js & Hjs & Hsame) & I3 & I4).
    + by rewrite F1.
    + rewrite Forall_fmap in Hlt. rewrite Forall_forall in Hq, Hlt |- *. intros i Hi t n Hn. apply F9 in Hn as [Hn| ->].
      * by eapply Hq.
      * by apply (Hlt i Hi).
    + rewrite F6, zlen_app, F5. change (zlen [_]) with 1. lia.
    + split_and!.
      * unfold same_files. by rewrite G1, G2, G3, G4, G5, F1, F2, F3, F4, F5.
      * eexists (_ :: js). rewrite Hjs, F6, <- app_assoc. split; [done|]. constructor; [done|done].
      * intros i Hi. by apply I3, F7.
      * intros i [->|Hi]%elem_of_cons; [right; by apply I3, F8|by apply I4].
Qed.

(** ** The invariant *)

Lemma last_sorted (l : list Z) : StronglySorted Z.lt l -> forall x, x ∈ l -> x <= default 0 (last l).
Proof.
  induction l as [|y l IH]; [by intros _ ? ?%elem_of_nil|]. intros [Hs Hy]%StronglySorted_inv x Hx.
  destruct l as [|z l]; [apply list_elem_of_singleton in Hx as ->; done|].
  rewrite last_cons_cons. apply elem_of_cons in Hx as [->|Hx]; [|by apply IH].
  apply Forall_cons in Hy as [Hyz _]. pose proof (IH Hs z ltac:(by left)). lia.
Qed.

Lemma sorted_unique (l : list replicationJob) i j : StronglySorted Z.lt (job_sequence <$> l) -> i ∈ l -> j ∈ l ->
  job_sequence i = job_sequence j -> i = j.
Proof.
  induction l as [|x l IH]; [by intros _ ?%elem_of_nil|]. rewrite fmap_cons.
  intros [Hs Hx]%StronglySorted_inv. rewrite Forall_fmap, Forall_forall in Hx.
  intros [->|Hi]%elem_of_cons [->|Hj]%elem_of_cons E; [done| | |by apply IH].
  - specialize (Hx j Hj). cbn in Hx. lia.
  - specialize (Hx i Hi). cbn in Hx. lia.
Qed.

Lemma snapshot_max es enq : Forall2 entry_of es enq -> StronglySorted Z.lt (job_sequence <$> enq) ->
  Forall (fun j => 0 < job_sequence j) enq ->
  (replayableReplicationOutboxSnapshot es).2 = default 0 (last (job_sequence <$> enq)).
Proof.
  unfold replayableReplicationOutboxSnapshot. intros HF. 
  enough (forall n high, Forall (fun j => high < job_sequence j) enq -> StronglySorted Z.lt (job_sequence <$> enq) ->
    (foldl (fun '(n, high) e => (n +% 1, if high <? oe_sequence e then oe_sequence e else high)) (n, high) es).2
    = default high (last (job_sequence <$> enq))) as H by (intros; by apply H).
  induction HF as [|e j es enq (Es & _) HF IH]; intros n high Hhigh Hs; [done|]. cbn [foldl].
  apply Forall_cons in Hhigh as [Hj Hhigh]. rewrite Es, (proj2 (Z.ltb_lt _ _) Hj).
  rewrite fmap_cons in Hs |- *. apply StronglySorted_inv in Hs as [Hs Hlt]. rewrite IH; [|by rewrite Forall_fmap in Hlt|done].
  destruct enq; [done|]. rewrite fmap_cons, last_cons_cons. destruct (last (job_sequence r :: _)) eqn:E; [done|].
  by apply last_None in E.
Qed.

Lemma taken_mono r r' j : rp_delivered r ⊆ rp_delivered r' -> taken r j -> taken r' j.
Proof. intros H (i & Hi & Hs). exists i. split; [by apply H|done]. Qed.

Lemma step_enqueue_inv d sending file enq del target c now disk : target <> "" -> command_ok c ->
  disk <> WriteFailed -> zlen (rd_jobs d) < rd_capacity d -> rd_nextSequence d + 1 < 2 ^ 64 ->
  replication_inv (mkReplication d sending file enq del) ->
  let d' := Enqueue target c now disk d in
  replication_inv (mkReplication d' sending file (enq ++ [mkJob (rd_nextSequence d') target c]) del).
Proof.
  intros Ht Hc Hdisk Hroom Hlt
    [Hrun (es & Ho & HF) (offsets & Ha & Hack & Hq & Hmk) Hmarks Hfile Hord Hb [Hnext Hu] [Hps Hpf] Hcov Hfrom Hpre] d'.
  cbn in *.
  destruct (Enqueue_spec target c now disk d es Hrun Ho Hroom Ht Hc Hdisk (proj1 Hu) Hlt)
    as ((e & Eo & He) & Er & Ea & En & Ej & Emono & Eself). fold d' in Eo, Er, Ea, En, Ej, Emono, Eself.
  rewrite En. set (job := mkJob (rd_nextSequence d + 1) target c) in *.
  assert (forall j, j ∈ enq -> job_sequence j <= rd_nextSequence d) as Hle.
  { intros j Hj. rewrite Forall_forall in Hb. apply (Hb j Hj). }
  assert (forall j, j ∈ enq ++ [job] -> j ∈ enq \/ j = job) as Hin
    by (intros j Hj; apply elem_of_app in Hj as [?|?%list_elem_of_singleton]; auto).
  assert (pending (mkReplication d' sending file (enq ++ [job]) del) =
          pending (mkReplication d sending file enq del) ++ [job]) as Hpend
    by (unfold pending; cbn; rewrite Ej; by rewrite app_assoc).
  assert (Forall (fun x => x < rd_nextSequence d + 1) (job_sequence <$> pending (mkReplication d sending file enq del)))
    as Hpl.
  { rewrite Forall_fmap. eapply Forall_impl; [exact Hpf|]. intros i (j & Hj & (E & _)). cbn. rewrite E.
    specialize (Hle j Hj). lia. }
  assert (Forall (fun j => 0 < job_sequence j <= rd_nextSequence d + 1 /\ job_target j <> "") (enq ++ [job])) as Hb'.
  { rewrite Forall_forall in Hb |- *. intros j [Hj| ->]%Hin; [destruct (Hb j Hj) as [? ?]; split; [lia|done]|].
    cbn. destruct Hu. split; [lia|done]. }
  assert (forall m, map_Forall (fun (_ : string) n => n <= rd_nextSequence d) m -> ~ covered m job) as Hnew.
  { intros m Hm. unfold covered. cbn. destruct (m !! target) as [n|] eqn:E; [|tauto]. apply Hm in E. lia. }
  constructor; cbn; rewrite ?Hpend, ?En.
  - done.
  - exists (es ++ [e]). split; [done|]. apply Forall2_app; [done|]. constructor; [done|constructor].
  - exists offsets. split_and!; [by rewrite Ea| | |eapply map_Forall_impl; [exact Hmk|]; cbn; lia].
    + intros j [Hj| ->]%Hin Hcv; [by apply Hack|by apply Hnew in Hcv].
    + intros j [Hj| ->]%Hin; [destruct (Hq j Hj); auto|by right].
  - eapply map_Forall_impl; [exact Hmarks|]. cbn. lia.
  - intros j [Hj| ->]%Hin Hcv; [by apply Hfile|by apply Hnew in Hcv].
  - rewrite fmap_app. apply sorted_snoc; [done|]. rewrite Forall_fmap, Forall_forall. intros j Hj. cbn.
    specialize (Hle j Hj). lia.
  - done.
  - rewrite fmap_app. cbn. rewrite last_snoc. split; [done|]. destruct Hu. split; lia.
  - rewrite fmap_app. split; [by apply sorted_snoc|]. apply Forall_app. split; [|constructor; [|constructor]].
    + eapply Forall_impl; [exact Hpf|]. intros i (j & Hj & Hs). exists j. split; [|done]. apply elem_of_app. by left.
    + exists job. split; [|done]. apply elem_of_app. right. by left.
  - intros j [Hj| ->]%Hin.
    + destruct (Hcov j Hj) as [?|(i & Hi & Hs)]; [by left|right]. exists i. rewrite Hpend. split; [|done].
      apply elem_of_app. by left.
    + right. exists job. rewrite Hpend. split; [|done]. apply elem_of_app. right. by left.
  - eapply Forall_impl; [exact Hfrom|]. intros i (j & Hj & Hs). exists j. split; [|done]. apply elem_of_app. by left.
  - intros i j Hi [Hj| ->]%Hin Hij; [by eapply Hpre|].
    rewrite Forall_forall in Hfrom. destruct (Hfrom i Hi) as (k & Hk & (E & _)). specialize (Hle k Hk). cbn in Hij. lia.
Qed.

Lemma deliver_fields d job saved offsets : rd_acks d = Some offsets ->
  exists stats offsets', (send job saved [Delivered] d).1.1 = withStats stats (withAcks (Some offsets') d) /\
    (offsets' = offsets \/ offsets' = <[job_target job := job_sequence job]> offsets /\
       forall n, offsets !! job_target job = Some n -> n < job_sequence job).
Proof.
  intros Ha. cbn [send sendLoop fst]. unfold ackSuccess. cbn [rd_acks withStats]. rewrite Ha.
  assert (let offsets' := (Ack (job_target job) (job_sequence job) saved offsets).1 in
    offsets' = offsets \/ offsets' = <[job_target job := job_sequence job]> offsets /\
       forall n, offsets !! job_target job = Some n -> n < job_sequence job) as H.
  { unfold Ack. destruct (_ || _); [by left|]. destruct (offsets !! job_target job) as [n|] eqn:E; [|right; by split].
    destruct (Z.leb_spec (job_sequence job) n); [by left|right]. split; [done|]. by intros ? [= <-]. }
  destruct (Ack _ _ _ _) as [o []]; eexists _, o; split; try reflexivity; done.
Qed.

Lemma pending_sending d job file enq del : pending (mkReplication d (Some job) file enq del) = job :: rd_jobs d.
Proof. done. Qed.

(** A job being sent is the first that is pending, so once it is delivered
    everything enqueued before it is. *)
Lemma delivered_prefix d job file file' enq del d' :
  StronglySorted Z.lt (job_sequence <$> pending (mkReplication d (Some job) file enq del)) ->
  (forall j, j ∈ enq -> taken (mkReplication d (Some job) file enq del) j \/
                        waiting (mkReplication d (Some job) file enq del) j) ->
  forall j, j ∈ enq -> job_sequence j <= job_sequence job ->
  taken (mkReplication d' None file' enq (del ++ [job])) j.
Proof.
  intros Hps Hcov j Hj Hle. rewrite pending_sending, fmap_cons in Hps.
  apply StronglySorted_inv in Hps as [_ Hlt]. rewrite Forall_fmap, Forall_forall in Hlt.
  destruct (Hcov j Hj) as [Ht|(i & Hi & Hs)].
  - eapply taken_mono, Ht. cbn. intros x Hx. apply elem_of_app. by left.
  - rewrite pending_sending in Hi. apply elem_of_cons in Hi as [->|Hi].
    + exists job. split; [apply elem_of_app; right; by left|done].
    + specialize (Hlt i Hi). cbn in Hlt. destruct Hs as [E _]. lia.
Qed.

Lemma step_deliver_inv d job saved file enq del : replication_inv (mkReplication d (Some job) file enq del) ->
  let d' := (send job saved [Delivered] d).1.1 in
  replication_inv (mkReplication d' None (ack_file saved (rd_acks d) (rd_acks d') file) enq (del ++ [job])).
Proof.
  intros [Hrun (es & Ho & HF) (offsets & Ha & Hack & Hq & Hmk) Hmarks Hfile Hord Hb [Hnext Hu] [Hps Hpf] Hcov Hfrom Hpre].
  cbn [rp_dispatcher rp_sending rp_ackFile rp_enqueued rp_delivered] in *.
  destruct (deliver_fields d job saved offsets Ha) as (stats & offsets' & Ed & Hoff). cbv zeta. rewrite Ed.
  cbn [rd_acks withStats withAcks]. rewrite Ha. set (file' := ack_file saved (Some offsets) (Some offsets') file).
  set (d' := withStats stats (withAcks (Some offsets') d)).
  pose proof (delivered_prefix d job file file' enq del d' Hps Hcov) as Hprefix.
  assert (forall j, taken (mkReplication d (Some job) file enq del) j ->
                    taken (mkReplication d' None file' enq (del ++ [job])) j) as Hmono.
  { intros j. apply taken_mono. cbn. intros x Hx. apply elem_of_app. by left. }
  assert (job_sequence job <= rd_nextSequence d) as Hjle.
  { apply Forall_cons in Hpf as [(j0 & Hj0 & (E & _)) _]. rewrite E. rewrite Forall_forall in Hb. apply (Hb j0 Hj0). }
  assert (forall j, j ∈ enq -> covered offsets' j -> taken (mkReplication d' None file' enq (del ++ [job])) j) as Hack'.
  { intros j Hj Hc. destruct Hoff as [->|[-> _]]; [by apply Hmono, Hack|]. unfold covered in Hc.
    destruct (decide (job_target j = job_target job)) as [E|].
    - rewrite E, lookup_insert_eq in Hc. by apply Hprefix.
    - rewrite lookup_insert_ne in Hc by done. by apply Hmono, Hack. }
  assert (map_Forall (fun _ n => n <= rd_nextSequence d) offsets') as Hmk'.
  { destruct Hoff as [->|[-> _]]; [done|]. by apply map_Forall_insert_2. }
  assert (file' = file \/ file' = offsets') as Hf' by (unfold file', ack_file; case_match; auto).
  rewrite pending_sending in Hps, Hpf. rewrite fmap_cons in Hps.
  apply StronglySorted_inv in Hps as [Hps _]. apply Forall_cons in Hpf as [Hpj Hpf].
  constructor; cbn [rp_dispatcher rp_sending rp_ackFile rp_enqueued rp_delivered].
  - done.
  - by exists es.
  - exists offsets'. split_and!; [done|done| |done]. intros j Hj. destruct (Hq j Hj) as [Hc|Hc]; [left|by right].
    destruct Hoff as [->|[-> Hhigh]]; [done|]. unfold covered in *. destruct (decide (job_target j = job_target job)) as [E|].
    + rewrite E in Hc |- *. rewrite lookup_insert_eq. destruct (offsets !! job_target job) as [n|]; [|done].
      specialize (Hhigh n eq_refl). lia.
    + by rewrite lookup_insert_ne.
  - by destruct Hf' as [->| ->].
  - intros j Hj Hc. destruct Hf' as [E|E]; rewrite E in Hc; [by apply Hmono, Hfile|by apply Hack'].
  - done.
  - done.
  - done.
  - split; done.
  - intros j Hj. destruct (Hcov j Hj) as [Ht|(i & Hi & Hs)]; [left; by apply Hmono|].
    rewrite pending_sending in Hi. apply elem_of_cons in Hi as [->|Hi].
    + left. exists job. split; [apply elem_of_app; right; by left|done].
    + right. by exists i.
  - apply Forall_app. split; [done|]. constructor; [done|constructor].
  - intros i j Hi Hj Hij. apply elem_of_app in Hi as [Hi|Hi%list_elem_of_singleton].
    + by eapply Hmono, Hpre.
    + subst. apply Hprefix; [done|lia].
Qed.

Lemma step_restart_inv d sending file enq del entries capacity :
  rd_outbox d = Some entries -> replay_room entries file (newReplicationDispatcher capacity) ->
  replication_inv (mkReplication d sending file enq del) ->
  replication_inv
    (mkReplication (OpenOutbox entries file (newReplicationDispatcher capacity)) None file enq del).
Proof.
  intros Ho Hroom [Hrun (es & Ho' & HF) _ Hmarks Hfile Hord Hb [Hnext Hu] _ _ Hfrom Hpre].
  cbn [rp_dispatcher rp_sending rp_ackFile rp_enqueued rp_delivered] in *.
  assert (es = entries) as -> by congruence.
  assert (Forall (fun j => 0 < job_sequence j /\ job_target j <> "") enq) as Hpos
    by (eapply Forall_impl; [exact Hb|]; cbn; tauto).
  unfold OpenOutbox, replayOutbox. set (d1 := restoreAckSnapshot _ _).
  assert (exists stats, d1 = mkDispatcher [] (rd_capacity (newReplicationDispatcher capacity)) false stats
     (rd_nextSequence d) (Some entries) (Some file) ∅) as (stats & Hd1).
  { unfold d1, restoreOutboxSnapshot. pose proof (snapshot_max entries enq HF Hord
      ltac:(eapply Forall_impl; [exact Hpos|]; cbn; tauto)) as Hmax.
    destruct (replayableReplicationOutboxSnapshot entries) as [n high]. cbn [snd] in Hmax. rewrite <- Hnext in Hmax.
    subst high. cbn [rd_nextSequence withStats withAcks withOutbox newReplicationDispatcher].
    destruct Hu. destruct (Z.ltb_spec 0 (rd_nextSequence d)); [by eexists|].
    assert (rd_nextSequence d = 0) as -> by lia. by eexists. }
  rewrite Hd1. cbn [rd_acks]. set (d2 := mkDispatcher _ _ _ _ _ _ _ _).
  assert (zlen (filter (fun e => shouldReplay e file (newReplicationDispatcher capacity) = true) entries) =
          zlen (filter (fun j => ~ covered file j) enq)) as Hcount.
  { clear -HF Hpos. induction HF as [|e j es enq He HF IH]; [done|]. apply Forall_cons in Hpos as [[Hs Ht] Hpos].
    rewrite !filter_cons, (shouldReplay_high e j file (newReplicationDispatcher capacity)) by done.
    destruct (decide (covered file j)).
    - rewrite bool_decide_eq_true_2 by done. cbn [negb]. rewrite decide_False, decide_False by (done || tauto). by apply IH.
    - rewrite bool_decide_eq_false_2 by done. cbn [negb]. rewrite decide_True, decide_True by done.
      rewrite !zlen_cons, IH by done. done. }
  unfold replay_room in Hroom. rewrite Hcount in Hroom.
  destruct (replay_fold file entries enq HF Hord Hpos d2 eq_refl ltac:(by apply Forall_true) Hroom)
    as ((F1 & F2 & F3 & F4 & _) & (js & Hjs & Hsame) & _ & Hq). set (d3 := foldl _ _ _) in *.
  assert (pending (mkReplication d3 None file enq del) = js) as Hpend by exact Hjs.
  assert (job_sequence <$> js = job_sequence <$> filter (fun j => ~ covered file j) enq) as Eseq.
  { clear -Hsame. induction Hsame as [|i j l k (E & _) HF IH]; [done|]. by rewrite !fmap_cons, E, IH. }
  constructor; cbn [rp_dispatcher rp_sending rp_ackFile rp_enqueued rp_delivered]; rewrite ?Hpend, ?F4.
  - by rewrite F1.
  - exists entries. by rewrite F2.
  - exists file. rewrite F3. by split_and!.
  - done.
  - done.
  - done.
  - done.
  - done.
  - split.
    + rewrite Eseq. clear -Hord. induction enq as [|j enq IH]; [done|]. rewrite fmap_cons in Hord.
      apply StronglySorted_inv in Hord as [Hs Hlt]. rewrite filter_cons. case_decide; [|by apply IH].
      rewrite fmap_cons. constructor; [by apply IH|]. rewrite Forall_fmap in Hlt |- *. rewrite Forall_forall in Hlt |- *.
      intros i [_ Hi]%list_elem_of_filter. by apply Hlt.
    + apply Forall_forall. intros i Hi. apply list_elem_of_lookup in Hi as [ix Hix].
      destruct (Forall2_lookup_l _ _ _ _ _ Hsame Hix) as (j & Hj & Hs). apply list_elem_of_lookup_2 in Hj.
      apply list_elem_of_filter in Hj as [_ Hj]. by exists j.
  - intros j Hj. destruct (decide (covered file j)); [left; by apply Hfile|right].
    assert (j ∈ filter (fun j => ~ covered file j) enq) as Hin by (by apply list_elem_of_filter).
    apply list_elem_of_lookup in Hin as [ix Hix]. destruct (Forall2_lookup_r _ _ _ _ _ Hsame Hix) as (i & Hi & Hs).
    exists i. rewrite Hpend. split; [by eapply list_elem_of_lookup_2|done].
  - done.
  - intros i j Hi Hj Hij. by eapply Hpre.
Qed.

Lemma replication_step_inv r r' : replication_step r r' -> replication_inv r -> replication_inv r'.
Proof.
  destruct 1 as [d sending file enq del target c now disk d'|d job jobs file enq del Hj|d job file enq del
    |d job saved file enq del d'|d file enq del|d sending file enq del entries capacity]; intros Hinv.
  - by apply step_enqueue_inv.
  - destruct Hinv as [H1 H2 H3 H4 H5 H6 H7 H8 H9 H10 H11 H12].
    assert (pending (mkReplication (withJobs jobs d) (Some job) file enq del) =
            pending (mkReplication d None file enq del)) as E by (unfold pending; cbn; by rewrite Hj).
    constructor; rewrite ?E; try done. intros j Hin. destruct (H10 j Hin) as [?|(i & Hi & Hs)]; [by left|right].
    exists i. by rewrite E.
  - by destruct Hinv.
  - by apply step_deliver_inv.
  - assert (replayOutboxFromDisk d = d) as ->; [|done].
    destruct Hinv as [_ (es & Ho & HF) (offsets & Ha & _ & Hq & _) _ _ _ _ _ _ _ _ _]. cbn in Ho, Ha, HF, Hq.
    unfold replayOutboxFromDisk, replayOutbox. rewrite Ho, Ha. by apply (replay_nothing offsets d es enq).
  - by eapply step_restart_inv.
Qed.

Lemma fresh_replication_inv capacity : replication_inv (fresh_replication capacity).
Proof.
  assert (forall j : replicationJob, ~ j ∈ []) as Hnil by (intros j; apply not_elem_of_nil).
  constructor; cbn; try done; try (by intros j ?%Hnil); try (by intros i j ?%Hnil); try (by repeat constructor).
  - by exists [].
  - exists ∅. split_and!; try done; by intros j ?%Hnil.
Qed.

Lemma replication_reachable_inv capacity r : replication_reachable capacity r -> replication_inv r.
Proof.
  intros Hr. unfold replication_reachable in Hr.
  enough (forall r0, rtc replication_step r0 r -> replication_inv r0 -> replication_inv r) as H
    by (by eapply H, fresh_replication_inv).
  clear Hr. intros r0. induction 1; [done|]. intros Hinv. by eapply IHrtc, replication_step_inv.
Qed.

(** ** Draining the queue *)





(** ** What replication promises *)



(** A target never takes a command before an older one: when a command has
    been delivered, so has every command enqueued before it, on every target,
    and what was delivered is a command that was enqueued. *)
Theorem replication_in_order capacity r i : replication_reachable capacity r -> i ∈ rp_delivered r ->
  (exists j, j ∈ rp_enqueued r /\ same_job i j) /\
  forall j, j ∈ rp_enqueued r -> job_sequence j <= job_sequence i -> taken r j.
Proof.
  intros Hr%replication_reachable_inv Hi. pose proof (ri_from _ Hr) as Hfrom. rewrite Forall_forall in Hfrom.
  destruct (Hfrom i Hi) as (k & Hk & Hs). split; [by exists k|]. intros j Hj Hle.
  destruct (decide (job_sequence j = job_sequence i)) as [E|].
  - assert (j = k) as -> by (eapply sorted_unique; [apply Hr|done|done|]; by rewrite E, (proj1 Hs)). by exists i.
  - eapply ri_prefix; [done..|]. lia.
Qed.

Lemma retry_delay_step current : millis 25 <= current <= retryMaxDelay ->
  millis 25 <= nextReplicationRetryDelay current retryMaxDelay <= retryMaxDelay.
Proof.
  assert (millis 25 = 25000000 /\ retryMaxDelay = 500000000) as [-> ->] by done. intros H.
  unfold nextReplicationRetryDelay. rewrite (proj2 (Z.leb_gt _ _)) by lia. rewrite s64_small by (unfold is_s64; lia).
  destruct (Z.ltb_spec 500000000 (current * 2)); lia.
Qed.

(** Whatever the attempts come to, the worker waits between 25 and 500
    milliseconds before it tries again, once for each failed attempt. *)
Theorem retry_delays_bounded job saved outcomes d :
  let '(_, delays, _) := send job saved outcomes d in
  Forall (fun delay => millis 25 <= delay <= millis 500) delays /\ (length delays <= length outcomes)%nat.
Proof.
  unfold send. assert (millis 25 <= retryInitialDelay <= retryMaxDelay) as H by done. revert H.
  generalize retryInitialDelay as delay. revert d. induction outcomes as [|o rest IH]; intros d delay H; [done|].
  cbn [sendLoop]. destruct o.
  - split; [done|cbn; lia].
  - specialize (IH (withStats (recordFailure job (rd_stats (withStats (recordAttempt job (rd_stats d)) d)))
      (withStats (recordAttempt job (rd_stats d)) d)) _ (retry_delay_step _ H)).
    destruct (sendLoop _ _ _ _ _) as [[d' delays] r']. destruct IH as [IH1 IH2]. split; [by constructor|cbn; lia].
  - split; [by constructor|cbn; lia].
Qed.

(** ** Examples *)

Definition exampleDelete (id : string) : replicationCommand :=
  newDeleteReplicationCommand (mkDeleteRequest (mkKey "ns" "space" "entity" id) 3 9).

Lemma exampleDelete_ok id : str_ok id -> command_ok (exampleDelete id).
Proof.
  intros H. apply ok_delete. unfold delete_ok, wire_key_ok, is_u64. cbn.
  split_and!; try lia; try done; unfold str_ok; vm_compute; congruence.
Qed.

(** Two deletes are enqueued and the first is delivered, but its acknowledgement
    is not saved and the node restarts: the queue holds both again. *)
Definition example_run : list replication :=
  let r0 := fresh_replication 4 in
  let d1 := Enqueue "node-b" (exampleDelete "a") 100 Written (rp_dispatcher r0) in
  let e1 := [mkJob (rd_nextSequence d1) "node-b" (exampleDelete "a")] in
  let d2 := Enqueue "node-c" (exampleDelete "b") 101 SyncFailed d1 in
  let e2 := e1 ++ [mkJob (rd_nextSequence d2) "node-c" (exampleDelete "b")] in
  let job := mkJob 1 "node-b" (exampleDelete "a") in
  let d3 := withJobs (tail (rd_jobs d2)) d2 in
  let d4 := (send job false [Delivered] d3).1.1 in
  let d5 := OpenOutbox (default [] (rd_outbox d4)) ∅ (newReplicationDispatcher 4) in
  [r0; mkReplication d1 None ∅ e1 []; mkReplication d2 None ∅ e2 []; mkReplication d3 (Some job) ∅ e2 [];
   mkReplication d4 None (ack_file false (rd_acks d3) (rd_acks d4) ∅) e2 [job];
   mkReplication d5 None ∅ e2 [job]].

Definition example_restarted : replication := List.last example_run (fresh_replication 4).

Lemma example_restarted_reachable : replication_reachable 4 example_restarted.
Proof.
  eapply rtc_l; [apply (step_enqueue _ _ _ _ _ "node-b" (exampleDelete "a") 100 Written);
    [done|by apply exampleDelete_ok|done|done|done]|].
  eapply rtc_l; [apply (step_enqueue _ _ _ _ _ "node-c" (exampleDelete "b") 101 SyncFailed);
    [done|by apply exampleDelete_ok|done|vm_compute; done|vm_compute; done]|].
  eapply rtc_l; [eapply step_take; vm_compute; reflexivity|].
  eapply rtc_l; [apply (step_deliver _ _ false)|].
  eapply rtc_l; [|apply rtc_refl].
  apply (step_restart _ _ _ _ _ _ 4); [vm_compute; reflexivity|vm_compute; done].
Qed.


Lemma replication_in_order_witness :
  (exists j, j ∈ rp_enqueued example_restarted /\ same_job (mkJob 1 "node-b" (exampleDelete "a")) j) /\
  forall j, j ∈ rp_enqueued example_restarted -> job_sequence j <= 1 -> taken example_restarted j.
Proof.
  apply (replication_in_order 4 example_restarted (mkJob 1 "node-b" (exampleDelete "a")) example_restarted_reachable).
  vm_compute. by left.
Defined.

(** A dispatcher with room for one job while its worker sends another. *)
Definition full_queue : replicationDispatcher :=
  let d := OpenOutbox [] ∅ (newReplicationDispatcher 1) in
  let d := Enqueue "node-b" (exampleDelete "a") 100 Written d in
  Enqueue "node-b" (exampleDelete "b") 101 Written d.

(** The worker takes the first job, a third command is enqueued, and everything
    that is queued is delivered and acknowledged. *)
Definition after_drop : replicationDispatcher :=
  let d := withJobs [] full_queue in
  let d := Enqueue "node-b" (exampleDelete "c") 102 Written d in
  let d := (send (mkJob 1 "node-b" (exampleDelete "a")) true [Delivered] d).1.1 in
  let d := withJobs [] d in
  (send (mkJob 3 "node-b" (exampleDelete "c")) true [Delivered] d).1.1.

(** A command that is dropped because the queue is full is in the outbox, but
    once a later command to the same target has been queued it is never sent: the
    marks that decide what is replayed are the highest sequences queued and
    acknowledged, so neither a tick nor a restart puts it in the queue again. *)
Theorem dropped_command_is_lost :
  rs_dropped (rd_stats full_queue) = 1 /\ rs_lastDroppedSequence (rd_stats full_queue) = 2 /\
  (oe_sequence <$> default [] (rd_outbox after_drop)) = [1; 2; 3] /\
  rd_jobs after_drop = [] /\ rd_jobs (replayOutboxFromDisk after_drop) = [] /\
  rd_jobs (OpenOutbox (default [] (rd_outbox after_drop)) (default ∅ (rd_acks after_drop))
             (newReplicationDispatcher 1)) = [].
Proof. by vm_compute. Qed.

(** Two connections enqueue a command to the same target at once.  The first takes its
    sequence number; then the second takes the next one, appends its entry, queues its
    command, and the worker delivers and acknowledges it; then the first appends its
    entry and queues its command. *)
Definition crossed_enqueues : replicationDispatcher :=
  let d := OpenOutbox [] ∅ (newReplicationDispatcher 4) in
  let '(d, first) := nextReplicationSequence d in
  let '(d, second) := nextReplicationSequence d in
  let d := appendOutbox second "node-b" (exampleDelete "b") 101 Written d in
  let d := enqueueReplicationJob (mkJob second "node-b" (exampleDelete "b")) d in
  let d := (send (mkJob second "node-b" (exampleDelete "b")) true [Delivered] (withJobs [] d)).1.1 in
  let d := appendOutbox first "node-b" (exampleDelete "a") 100 Written d in
  enqueueReplicationJob (mkJob first "node-b" (exampleDelete "a")) d.

(** The steps of [Enqueue] are not one: when two calls cross as above and the node
    restarts before the first command is sent, that command is never sent, although its
    entry is in the outbox and nothing was dropped, because the acknowledged sequence is
    above its own. *)
Theorem crossed_enqueues_lose :
  (oe_sequence <$> default [] (rd_outbox crossed_enqueues)) = [2; 1] /\
  (job_sequence <$> rd_jobs crossed_enqueues) = [1] /\ rs_dropped (rd_stats crossed_enqueues) = 0 /\
  default ∅ (rd_acks crossed_enqueues) !! "node-b" = Some 2 /\
  let restarted := OpenOutbox (default [] (rd_outbox crossed_enqueues)) (default ∅ (rd_acks crossed_enqueues))
                     (newReplicationDispatcher 4) in
  rd_jobs restarted = [] /\ rd_jobs (replayOutboxFromDisk restarted) = [].
Proof. by vm_compute. Qed.
