(* ===== verification/ReplicationFiles.v ===== *)
(** * The files of the replication dispatcher

    transport/tcp/server_replication_outbox.go, server_replication_ack.go and
    server_replication_replay.go: the outbox is a file of JSON values, one per
    line, with byte slices in base64; the acknowledgements are one JSON object
    that is replaced by a rename.  [ReplicationSpec] keeps the outbox as a list of
    entries and the acknowledgements as a map; here they are bytes, and every run
    of the dispatcher on the files is a run on the list and the map. *)

From S2P Require Import Prelude.
From S2P Require Import GoStrings.
From S2P Require Import GoJson.
From S2P Require Import GoJsonSpec.
From S2P Require Import GoJsonTypes.
From S2P Require Import WireTypes.
From S2P Require Import WireSpec.
From S2P Require Import Replication.
From S2P Require Import ReplicationSpec.

Local Open Scope Z_scope.
Local Open Scope nespa_scope.

(** ** Formats *)

(** src: transport/tcp/server_replication_outbox.go replicationOutboxEntry *)
Definition outboxEntryCodec : codec replicationOutboxEntry :=
  structCodec
    [mkField "sequence" uint64Codec never; mkField "target" stringCodec never; mkField "kind" uint8Codec never;
     mkField "op" uint16Codec never; mkField "metadata" bytesCodec never; mkField "payload" bytesCodec emptySlice;
     mkField "created_unix_ms" intCodec never]
    (fun e => (oe_sequence e, (oe_target e, (oe_kind e, (oe_op e, (oe_metadata e, (oe_payload e, (oe_createdUnix e, tt))))))))
    (fun '(a, (b, (c, (d, (e, (f, (g, _))))))) => mkOutboxEntry a b c d e f g).

(** The one field of the struct is a map.
    src: transport/tcp/server_replication_ack.go replicationAckState *)
Definition ackStateCodec : codec (gmap string Z) :=
  structCodec [mkField "offsets" (mapCodec uint64Codec) never] (fun m => (m, tt)) fst.

(** ** Files *)

(** A file that is not there, cannot be read, or has a content. *)
Inductive fileState := NoFile | Unreadable | Content (raw : list byte).

Inductive filesError := ScanOpenFailed | ScanDecodeFailed | OutboxOpenFailed | AcksReadFailed | AcksDecodeFailed.

(** src: transport/tcp/server_replication_outbox.go readReplicationOutboxEntries *)
Definition readReplicationOutboxEntries (reader : list byte) : option (list replicationOutboxEntry) :=
  DecodeAll outboxEntryCodec reader.

(** src: transport/tcp/server_replication_outbox.go scanReplicationOutboxEntries *)
Definition scanReplicationOutboxEntries (file : fileState) : result filesError (list replicationOutboxEntry) :=
  match file with
  | NoFile => Ok []
  | Unreadable => Err ScanOpenFailed
  | Content raw =>
      match readReplicationOutboxEntries raw with
      | Some entries => Ok entries
      | None => Err ScanDecodeFailed
      end
  end.

(** The file is created when it is not there.
    src: transport/tcp/server_replication_outbox.go openReplicationOutbox *)
Definition openReplicationOutbox (opens : bool) (file : fileState) : result filesError fileState :=
  if negb opens then Err OutboxOpenFailed
  else Ok (match file with NoFile => Content [] | _ => file end).

(** How much of a line reaches the file: [None] for all of it. *)
Definition appendLine (torn : option nat) (entry : replicationOutboxEntry) (raw : list byte) : list byte :=
  let line := GoJson.Encode outboxEntryCodec entry in
  raw ++ match torn with None => line | Some n => take n line end.

(** src: transport/tcp/server_replication_outbox.go Append *)
Definition appendFile (torn : option nat) (synced : bool) (entry : replicationOutboxEntry) (raw : list byte) : list byte * bool :=
  (appendLine torn entry raw, match torn with None => synced | Some _ => false end).

(** src: transport/tcp/server_replication_ack.go load *)
Definition loadAcks (file : fileState) : result filesError (gmap string Z) :=
  match file with
  | NoFile => Ok ∅
  | Unreadable => Err AcksReadFailed
  | Content raw =>
      match Unmarshal ackStateCodec raw with
      | Some offsets => Ok offsets
      | None => Err AcksDecodeFailed
      end
  end.

(** The file is replaced by a rename, or left as it was.
    src: transport/tcp/server_replication_ack.go saveLocked *)
Definition saveAcks (saved : bool) (offsets : gmap string Z) (file : fileState) : fileState :=
  if saved then Content (MarshalIndent ackStateCodec offsets) else file.

(** Acknowledging writes the file when the offset grows.
    src: transport/tcp/server_replication_ack.go Ack *)
Definition ackFile (target : string) (sequence : Z) (saved : bool) (offsets : gmap string Z) (file : fileState) : fileState :=
  if bool_decide (TrimSpace target = "") || (sequence =? 0) then file
  else match offsets !! target with
       | Some current => if sequence <=? current then file else saveAcks saved (<[target := sequence]> offsets) file
       | None => saveAcks saved (<[target := sequence]> offsets) file
       end.

Record diskFiles := mkFiles { df_outbox : fileState; df_acks : fileState }.

(** src: transport/tcp/server_replication_outbox.go replicationOutboxEnabled *)
Definition replicationOutboxEnabled (path : string) : bool := negb (bool_decide (TrimSpace path = "")).

(** The dispatcher and the files; on an error the dispatcher has no outbox.
    src: transport/tcp/server_replication_replay.go OpenOutbox *)
Definition OpenOutboxFiles (path : string) (opens : bool) (files : diskFiles) (d : replicationDispatcher)
    : diskFiles * result filesError replicationDispatcher :=
  if negb (replicationOutboxEnabled path) then (files, Ok d)
  else
    match scanReplicationOutboxEntries (df_outbox files) with
    | Err e => (files, Err e)
    | Ok entries =>
        match openReplicationOutbox opens (df_outbox files) with
        | Err e => (files, Err e)
        | Ok outbox =>
            let files := mkFiles outbox (df_acks files) in
            match loadAcks (df_acks files) with
            | Err e => (files, Err e)
            | Ok offsets => (files, Ok (OpenOutbox entries offsets d))
            end
        end
    end.

(** What enqueueing does to the outbox file.
    src: transport/tcp/server_replication_stats.go appendOutbox *)
Definition enqueueFile (target : string) (command : replicationCommand) (nowUnixMs : Z) (torn : option nat) (synced : bool)
    (d : replicationDispatcher) (file : fileState) : fileState :=
  if bool_decide (target = "") || negb (valid command) then file
  else
    match newReplicationOutboxEntry (nextReplicationSequence d).2 target command nowUnixMs, file with
    | Ok entry, Content raw => Content (appendFile torn synced entry raw).1
    | _, _ => file
    end.

(** A tick reads the file again.
    src: transport/tcp/server_replication_replay.go replayOutboxFromDisk *)
Definition replayFromFile (file : fileState) (d : replicationDispatcher) : replicationDispatcher :=
  match rd_outbox d, rd_acks d with
  | Some _, Some _ =>
      match scanReplicationOutboxEntries file with
      | Ok entries => replayOutbox entries d
      | Err _ => d
      end
  | _, _ => d
  end.

(** ** What a file carries *)

Definition entry_wire (e : replicationOutboxEntry) : Prop :=
  is_u64 (oe_sequence e) /\ utf8 (oe_target e) /\ 0 <= oe_kind e < 2 ^ 8 /\ 0 <= oe_op e < 2 ^ 16 /\ is_s64 (oe_createdUnix e).

Definition acks_wire (m : gmap string Z) : Prop := map_Forall (fun k n => utf8 k /\ is_u64 n) m.

Lemma uint16_lawful n : lawful uint16Codec n (fun z => 0 <= z < 2 ^ 16).
Proof. by apply uint_lawful. Qed.
Lemma uint8_lawful n : lawful uint8Codec n (fun z => 0 <= z < 2 ^ 8).
Proof. by apply uint_lawful. Qed.
#[local] Hint Resolve uint16_lawful uint8_lawful : codec.

Lemma outboxEntry_lawful n : lawful outboxEntryCodec (S n) entry_wire.
Proof. struct_codec. Qed.

Lemma ackState_lawful n : lawful ackStateCodec (S (S n)) acks_wire.
Proof.
  apply struct_lawful; [vm_compute; reflexivity|by intros [m []]|done|].
  intros m Hm. split; [|done]. eapply field_ok; [apply map_lawful, uint64_lawful|exact Hm|done].
Qed.

Lemma outbox_read entries : Forall entry_wire entries ->
  readReplicationOutboxEntries (concat (GoJson.Encode outboxEntryCodec <$> entries)) = Some entries.
Proof.
  apply DecodeAll_Encode. eapply (lawful_le _ 1); [apply nesting_room; lia|]. apply outboxEntry_lawful.
Qed.

Lemma acks_read m : acks_wire m -> loadAcks (Content (MarshalIndent ackStateCodec m)) = Ok m.
Proof.
  intros Hm. unfold loadAcks. rewrite (Unmarshal_MarshalIndent _ acks_wire); [done| |done].
  eapply (lawful_le _ 2); [apply nesting_room; lia|]. apply ackState_lawful.
Qed.


(** ** Runs on the files

    The steps of [replication_step], with files in place of the list and the map:
    a tick and a restart decode what the files hold. *)

Record filed := mkFiled {
  fl_dispatcher : replicationDispatcher;
  fl_sending : option replicationJob;
  fl_files : diskFiles;
  fl_enqueued : list replicationJob;
  fl_delivered : list replicationJob
}.

Definition onOutbox (f : fileState -> fileState) (files : diskFiles) : diskFiles := mkFiles (f (df_outbox files)) (df_acks files).
Definition onAcks (f : fileState -> fileState) (files : diskFiles) : diskFiles := mkFiles (df_outbox files) (f (df_acks files)).

Definition ackedOffsets (d : replicationDispatcher) : gmap string Z := default ∅ (rd_acks d).

Section runs.
Context (path : string).

Inductive filed_step : filed -> filed -> Prop :=
| filed_enqueue d sending files enq del target c now (synced : bool) :
    let d' := Enqueue target c now (if synced then Written else SyncFailed) d in
    target <> "" -> utf8 target -> command_ok c -> is_s64 now -> zlen (rd_jobs d) < rd_capacity d ->
    rd_nextSequence d + 1 < 2 ^ 64 ->
    filed_step (mkFiled d sending files enq del)
      (mkFiled d' sending (onOutbox (enqueueFile target c now None synced d) files)
         (enq ++ [mkJob (rd_nextSequence d') target c]) del)
| filed_take d job jobs files enq del :
    rd_jobs d = job :: jobs ->
    filed_step (mkFiled d None files enq del) (mkFiled (withJobs jobs d) (Some job) files enq del)
| filed_fail d job files enq del :
    filed_step (mkFiled d (Some job) files enq del)
      (mkFiled (withStats (recordFailure job (recordAttempt job (rd_stats d))) d) (Some job) files enq del)
| filed_deliver d job saved files enq del :
    filed_step (mkFiled d (Some job) files enq del)
      (mkFiled (send job saved [Delivered] d).1.1 None
         (onAcks (ackFile (job_target job) (job_sequence job) saved (ackedOffsets d)) files) enq (del ++ [job]))
| filed_tick d files enq del :
    filed_step (mkFiled d None files enq del) (mkFiled (replayFromFile (df_outbox files) d) None files enq del)
| filed_restart d sending files enq del entries offsets capacity files' d' :
    scanReplicationOutboxEntries (df_outbox files) = Ok entries -> loadAcks (df_acks files) = Ok offsets ->
    replay_room entries offsets (newReplicationDispatcher capacity) ->
    OpenOutboxFiles path true files (newReplicationDispatcher capacity) = (files', Ok d') ->
    filed_step (mkFiled d sending files enq del) (mkFiled d' None files' enq del).

(** A node that starts with no files. *)
Inductive filed_reachable (capacity : Z) (f : filed) : Prop :=
| filed_run files d : OpenOutboxFiles path true (mkFiles NoFile NoFile) (newReplicationDispatcher capacity) = (files, Ok d) ->
    rtc filed_step (mkFiled d None files [] []) f -> filed_reachable capacity f.

(** The run on lists and maps that a run on files stands for. *)
Definition abstract (f : filed) (file : gmap string Z) : replication :=
  mkReplication (fl_dispatcher f) (fl_sending f) file (fl_enqueued f) (fl_delivered f).

(** The files hold [entries] and [file]. *)
Record files_hold (files : diskFiles) (entries : list replicationOutboxEntry) (file : gmap string Z) : Prop := {
  fh_outbox : df_outbox files = Content (concat (GoJson.Encode outboxEntryCodec <$> entries));
  fh_entries : Forall entry_wire entries;
  fh_acks : loadAcks (df_acks files) = Ok file;
  fh_file : acks_wire file
}.

Record filed_inv (f : filed) (file : gmap string Z) : Prop := {
  fi_abstract : replication_inv (abstract f file);
  fi_files : exists entries, rd_outbox (fl_dispatcher f) = Some entries /\ files_hold (fl_files f) entries file;
  fi_offsets : acks_wire (ackedOffsets (fl_dispatcher f));
  fi_targets : Forall (fun j => utf8 (job_target j)) (fl_enqueued f)
}.

Lemma files_scan files entries file : files_hold files entries file ->
  scanReplicationOutboxEntries (df_outbox files) = Ok entries.
Proof. intros [-> He _ _]. unfold scanReplicationOutboxEntries. by rewrite outbox_read. Qed.

Lemma encodeFrame_op c f : encodeFrame c = Ok f -> 0 <= cf_op f < 2 ^ 16.
Proof.
  destruct c; cbn [encodeFrame]; try case_match; try case_match; intros Hf; try discriminate Hf; injection Hf as <-; done.
Qed.

Lemma entry_is_wire sequence target c now e : newReplicationOutboxEntry sequence target c now = Ok e ->
  is_u64 sequence -> utf8 target -> is_s64 now -> entry_wire e.
Proof.
  unfold newReplicationOutboxEntry. intros He Hs Ht Hn. destruct (encodeFrame c) as [f|] eqn:Hf; [|done].
  cbn in He. injection He as <-. pose proof (encodeFrame_op c f Hf) as Hop. unfold entry_wire.
  cbn [oe_sequence oe_target oe_kind oe_op oe_createdUnix]. split_and!; try done; try tauto; by destruct c.
Qed.

Lemma encode_snoc entries e : concat (GoJson.Encode outboxEntryCodec <$> (entries ++ [e])) =
  concat (GoJson.Encode outboxEntryCodec <$> entries) ++ GoJson.Encode outboxEntryCodec e.
Proof. rewrite fmap_app, concat_app. cbn. by rewrite app_nil_r. Qed.

Lemma acks_wire_insert t n m : utf8 t -> is_u64 n -> acks_wire m -> acks_wire (<[t := n]> m).
Proof. intros. by apply map_Forall_insert_2. Qed.

Lemma enqueue_outbox target c now disk d es : rd_stopped d = false -> rd_outbox d = Some es ->
  zlen (rd_jobs d) < rd_capacity d -> target <> "" -> command_ok c -> disk <> WriteFailed ->
  0 <= rd_nextSequence d -> rd_nextSequence d + 1 < 2 ^ 64 ->
  exists e, newReplicationOutboxEntry (rd_nextSequence d + 1) target c now = Ok e /\
    rd_outbox (Enqueue target c now disk d) = Some (es ++ [e]).
Proof.
  intros Hrun Ho Hroom Ht Hc Hdisk K0 Hlt.
  destruct (outbox_entry_roundtrip (rd_nextSequence d + 1) target c now Hc) as (e & c' & He & _). exists e. split; [done|].
  unfold Enqueue. assert (valid c = true) as -> by (by destruct Hc). rewrite bool_decide_eq_false_2 by done.
  cbn [orb negb]. unfold nextReplicationSequence. rewrite u64_small by (unfold is_u64; lia).
  unfold appendOutbox. cbn [rd_outbox withSequence]. rewrite Ho, He. cbn [Append].
  destruct disk; [done|..]; cbn [Append];
    match goal with |- context [enqueueReplicationJob ?j ?x] =>
      destruct (enqueue_job_spec j x Hrun Hroom Ht ltac:(cbn; lia)) as ((_ & -> & _) & _) end; done.
Qed.

Lemma enqueue_keeps f file target c now synced (d := fl_dispatcher f) (disk := if synced : bool then Written else SyncFailed) :
  filed_inv f file -> target <> "" -> utf8 target -> command_ok c -> is_s64 now -> zlen (rd_jobs d) < rd_capacity d ->
  rd_nextSequence d + 1 < 2 ^ 64 ->
  let d' := Enqueue target c now disk d in
  let f' := mkFiled d' (fl_sending f) (onOutbox (enqueueFile target c now None synced d) (fl_files f))
         (fl_enqueued f ++ [mkJob (rd_nextSequence d') target c]) (fl_delivered f) in
  replication_step (abstract f file) (abstract f' file) /\ filed_inv f' file.
Proof.
  intros [Ha (es & Ho & Hf) Hoff Htg] Ht Hu Hc Hn Hroom Hlt d' f'.
  assert (disk <> WriteFailed) as Hdisk by (by subst disk; destruct synced).
  pose proof (ri_running _ Ha) as Hrun. pose proof (proj2 (ri_next _ Ha)) as [Hpos _]. cbn in Hrun, Hpos. fold d in Hrun, Hpos.
  assert (replication_step (abstract f file) (abstract f' file)) as Hstep by (by apply step_enqueue).
  split; [done|]. destruct (Enqueue_spec target c now disk d es) as (_ & _ & Hacks & Hseq & _); try done.
  destruct (enqueue_outbox target c now disk d es) as (e & He & Ho'); try done.
  split; [by eapply replication_step_inv| | |].
  - exists (es ++ [e]). split; [done|]. destruct Hf as [Hb Hw Hl Hfile].
    assert (entry_wire e) by (eapply entry_is_wire; [done|unfold is_u64; lia|done|done]).
    constructor; [|by apply Forall_app_2; [|apply Forall_singleton]|done|done]. cbn [f' fl_files onOutbox df_outbox]. unfold enqueueFile.
    assert (valid c = true) as -> by (by destruct Hc). rewrite bool_decide_eq_false_2 by done. cbn [orb negb].
    unfold nextReplicationSequence. cbn [snd]. rewrite u64_small by (unfold is_u64; lia).
    by rewrite He, Hb, encode_snoc.
  - unfold ackedOffsets. change (rd_acks (fl_dispatcher f')) with (rd_acks (Enqueue target c now disk d)). by rewrite Hacks.
  - apply Forall_app_2; [done|by apply Forall_singleton].
Qed.

Lemma insert_grows (offsets : gmap string Z) t n : (forall m, offsets !! t = Some m -> m < n) ->
  bool_decide (Some (<[t := n]> offsets) = Some offsets) = false.
Proof.
  intros Hm. apply bool_decide_eq_false_2. intros [= E'].
  assert (offsets !! t = Some n) as El by (rewrite <- E'; apply lookup_insert_eq). specialize (Hm n El). lia.
Qed.

(** The acknowledgement file after a command was taken. *)
Lemma ack_saved job saved offsets file disk : utf8 (job_target job) -> is_u64 (job_sequence job) -> acks_wire offsets ->
  loadAcks disk = Ok file -> acks_wire file ->
  let file' := ack_file saved (Some offsets) (Some (Ack (job_target job) (job_sequence job) saved offsets).1) file in
  loadAcks (ackFile (job_target job) (job_sequence job) saved offsets disk) = Ok file' /\ acks_wire file'.
Proof.
  intros Hu Hs Hoff Hl Hfile. pose proof (acks_wire_insert _ _ _ Hu Hs Hoff) as Hins.
  unfold ack_file, ackFile, Ack. destruct (_ || _); cbn [fst]; [by rewrite bool_decide_eq_true_2, andb_false_r by done|].
  assert ((forall m, offsets !! job_target job = Some m -> m < job_sequence job) ->
    let file' := (if saved && negb (bool_decide (Some (<[job_target job := job_sequence job]> offsets) = Some offsets))
      then default file (Some (<[job_target job := job_sequence job]> offsets)) else file) in
    loadAcks (saveAcks saved (<[job_target job := job_sequence job]> offsets) disk) = Ok file' /\ acks_wire file') as K.
  { intros Hm. rewrite insert_grows by done. destruct saved; cbn [negb andb saveAcks default from_option id]; [|done].
    split; [by apply acks_read|done]. }
  destruct (offsets !! job_target job) as [n|]; [|by apply K].
  destruct (Z.leb_spec (job_sequence job) n); cbn [fst]; [by rewrite bool_decide_eq_true_2, andb_false_r by done|].
  apply K. by intros m [= <-].
Qed.

Lemma deliver_keeps f file job saved (d := fl_dispatcher f) (d' := (send job saved [Delivered] d).1.1) :
  filed_inv f file -> fl_sending f = Some job ->
  let f' := mkFiled d' None (onAcks (ackFile (job_target job) (job_sequence job) saved (ackedOffsets d)) (fl_files f))
         (fl_enqueued f) (fl_delivered f ++ [job]) in
  let file' := ack_file saved (rd_acks d) (rd_acks d') file in
  replication_step (abstract f file) (abstract f' file') /\ filed_inv f' file'.
Proof.
  intros [Ha (es & Ho & Hf) Hoff Htg] Hj f' file'.
  assert (replication_step (abstract f file) (abstract f' file')) as Hstep.
  { unfold abstract at 1. rewrite Hj. apply step_deliver. }
  split; [done|]. pose proof (replication_step_inv _ _ Hstep Ha) as Ha'.
  destruct (ri_offsets _ Ha) as (offsets & Eo & _). cbn in Eo.
  assert (utf8 (job_target job) /\ is_u64 (job_sequence job)) as [Hu Hs].
  { pose proof (proj2 (ri_pending _ Ha)) as Hp. unfold pending, abstract in Hp. cbn in Hp. rewrite Hj in Hp.
    apply Forall_inv in Hp as (j & Hin & E1 & E2 & _). rewrite E1, E2. split; [by eapply Forall_forall in Htg|].
    pose proof (ri_bounds _ Ha) as Hb. eapply Forall_forall in Hb; [|done]. pose proof (proj2 (ri_next _ Ha)) as Hn.
    unfold is_u64 in *. cbn in Hb, Hn. lia. }
  assert (rd_outbox d' = rd_outbox d) as Hout.
  { subst d'. destruct (deliver_fields d job saved offsets Eo) as (? & ? & -> & _). done. }
  assert (rd_acks d' = Some (Ack (job_target job) (job_sequence job) saved offsets).1) as Eo'.
  { subst d'. cbn [send sendLoop fst]. unfold ackSuccess. cbn [rd_acks withStats]. fold d in Eo. rewrite Eo.
    by destruct (Ack _ _ _ _) as [? []]. }
  unfold ackedOffsets in Hoff. fold d in Hoff, Eo. rewrite Eo in Hoff. cbn in Hoff.
  pose proof (acks_wire_insert _ _ _ Hu Hs Hoff) as Hins.
  split; [done| | |done].
  - exists es. cbn [f' fl_dispatcher]. rewrite Hout. split; [done|]. destruct Hf as [Hb Hw Hl Hfile].
    destruct (ack_saved job saved offsets file (df_acks (fl_files f))) as [K1 K2]; [done..|].
    rewrite <- Eo, <- Eo' in K1, K2. fold file' in K1, K2.
    constructor; [exact Hb|exact Hw| |exact K2]. cbn [f' fl_files onAcks df_acks]. unfold ackedOffsets. rewrite Eo. exact K1.
  - cbn [f' fl_dispatcher]. unfold ackedOffsets. rewrite Eo'. cbn [default from_option id].
    unfold Ack. repeat case_match; done.
Qed.

Lemma open_files files entries file capacity files' d' : files_hold files entries file ->
  OpenOutboxFiles path true files (newReplicationDispatcher capacity) = (files', Ok d') ->
  replicationOutboxEnabled path = true ->
  d' = OpenOutbox entries file (newReplicationDispatcher capacity) /\ files_hold files' entries file.
Proof.
  intros Hf Hopen Hp. pose proof (files_scan _ _ _ Hf) as Hs. destruct Hf as [Hb Hw Hl Hfile].
  unfold OpenOutboxFiles in Hopen. rewrite Hp, Hs, Hb in Hopen. cbn [negb openReplicationOutbox df_acks] in Hopen.
  rewrite Hl in Hopen. injection Hopen as <- <-. by split.
Qed.

Lemma enqueue_job_files job d : rd_outbox (enqueueReplicationJob job d) = rd_outbox d /\
  rd_acks (enqueueReplicationJob job d) = rd_acks d.
Proof. unfold enqueueReplicationJob, recordQueued. repeat case_match; done. Qed.

Lemma replay_files entries d : rd_outbox (replayOutbox entries d) = rd_outbox d /\ rd_acks (replayOutbox entries d) = rd_acks d.
Proof.
  unfold replayOutbox. destruct (rd_acks d) as [offsets|] eqn:Ea; [|done]. rewrite <- Ea. clear Ea.
  revert d. induction entries as [|e entries IH]; intros d; [done|]. cbn [foldl].
  destruct (IH (if shouldReplay e offsets d then enqueueReplayEntry e d else d)) as [-> ->].
  destruct (shouldReplay e offsets d); [|done]. unfold enqueueReplayEntry.
  destruct (replicationCommandFromOutboxEntry e); [|done]. apply enqueue_job_files.
Qed.

Lemma opened_files entries file d :
  rd_outbox (OpenOutbox entries file d) = Some entries /\ rd_acks (OpenOutbox entries file d) = Some file.
Proof.
  unfold OpenOutbox. destruct (replay_files entries (restoreAckSnapshot (ackSnapshot file) (restoreOutboxSnapshot
    (replayableReplicationOutboxSnapshot entries) (withAcks (Some file) (withOutbox (Some entries) d))))) as [-> ->].
  unfold restoreAckSnapshot, restoreOutboxSnapshot. destruct (replayableReplicationOutboxSnapshot entries).
  by destruct (_ <? _).
Qed.

Lemma restart_keeps f file entries capacity files' d' : filed_inv f file ->
  scanReplicationOutboxEntries (df_outbox (fl_files f)) = Ok entries -> replicationOutboxEnabled path = true ->
  replay_room entries file (newReplicationDispatcher capacity) ->
  OpenOutboxFiles path true (fl_files f) (newReplicationDispatcher capacity) = (files', Ok d') ->
  let f' := mkFiled d' None files' (fl_enqueued f) (fl_delivered f) in
  replication_step (abstract f file) (abstract f' file) /\ filed_inv f' file.
Proof.
  intros [Ha (es & Ho & Hf) Hoff Htg] Hs Hp Hroom Hopen f'. rewrite (files_scan _ _ _ Hf) in Hs. injection Hs as ->.
  destruct (open_files _ _ _ _ _ _ Hf Hopen Hp) as [-> Hf'].
  assert (replication_step (abstract f file) (abstract f' file)) as Hstep by (by apply step_restart).
  split; [done|]. destruct (opened_files entries file (newReplicationDispatcher capacity)) as [Eo Ea].
  split; [by eapply replication_step_inv|by exists entries| |done].
  cbn [f' fl_dispatcher]. unfold ackedOffsets. rewrite Ea. by destruct Hf.
Qed.

Lemma filed_step_keeps f f' file : replicationOutboxEnabled path = true -> filed_step f f' -> filed_inv f file ->
  exists file', rtc replication_step (abstract f file) (abstract f' file') /\ filed_inv f' file'.
Proof.
  intros Hp Hstep Hf.
  enough (exists file', replication_step (abstract f file) (abstract f' file') /\ filed_inv f' file') as (file' & K1 & K2)
    by (exists file'; split; [by apply rtc_once|done]).
  destruct Hstep as [d sending files enq del target c now synced d'|d job jobs files enq del Hj|d job files enq del
    |d job saved files enq del|d files enq del|d sending files enq del entries offsets capacity files' d' Hs Hl Hroom Hopen].
  - exists file. by apply (enqueue_keeps (mkFiled d sending files enq del)).
  - exists file. assert (replication_step (abstract (mkFiled d None files enq del) file)
      (abstract (mkFiled (withJobs jobs d) (Some job) files enq del) file)) as K by by apply step_take.
    split; [done|]. destruct Hf. split; [by eapply replication_step_inv|done..].
  - exists file. match goal with |- ?P /\ _ => assert P as K by apply step_fail end.
    split; [done|]. destruct Hf. split; [by eapply replication_step_inv|done..].
  - eexists. by apply (deliver_keeps (mkFiled d (Some job) files enq del)).
  - exists file. assert (replayFromFile (df_outbox files) d = replayOutboxFromDisk d) as E.
    { destruct Hf as [_ (es & Ho & Hf) _ _]. cbn in Ho, Hf. unfold replayFromFile, replayOutboxFromDisk.
      by rewrite Ho, (files_scan _ _ _ Hf). }
    rewrite E. match goal with |- ?P /\ _ => assert P as K by apply step_tick end.
    split; [done|]. destruct Hf as [Ha (es & Ho & Hf) Hoff Htg]. cbn in Ho, Hoff.
    assert (rd_outbox (replayOutboxFromDisk d) = rd_outbox d /\ rd_acks (replayOutboxFromDisk d) = rd_acks d) as [Eo Ea].
    { unfold replayOutboxFromDisk. rewrite Ho. destruct (rd_acks d) eqn:Ea; [|done]. rewrite <- Ho, <- Ea. apply replay_files. }
    split; [by eapply replication_step_inv|exists es; cbn; by rewrite Eo| |done].
    cbn [fl_dispatcher]. unfold ackedOffsets. by rewrite Ea.
  - exists file. assert (offsets = file) as ->.
    { destruct Hf as [_ (es & Ho & Hf) _ _]. destruct Hf as [_ _ Hl' _]. cbn in Hl'. congruence. }
    by apply (restart_keeps (mkFiled d sending files enq del) file entries capacity).
Qed.

Lemma fresh_files capacity files d : replicationOutboxEnabled path = true ->
  OpenOutboxFiles path true (mkFiles NoFile NoFile) (newReplicationDispatcher capacity) = (files, Ok d) ->
  abstract (mkFiled d None files [] []) ∅ = fresh_replication capacity /\ filed_inv (mkFiled d None files [] []) ∅.
Proof.
  intros Hp Hopen. unfold OpenOutboxFiles in Hopen. rewrite Hp in Hopen. injection Hopen as <- <-.
  destruct (opened_files [] ∅ (newReplicationDispatcher capacity)) as [Eo Ea]. split; [done|].
  split; [apply fresh_replication_inv|exists []; by split| |done].
  cbn [fl_dispatcher]. unfold ackedOffsets. by rewrite Ea.
Qed.

Lemma filed_reachable_inv capacity f : replicationOutboxEnabled path = true -> filed_reachable capacity f ->
  exists file, replication_reachable capacity (abstract f file) /\ filed_inv f file.
Proof.
  intros Hp [files d Hopen Hsteps]. destruct (fresh_files capacity files d Hp Hopen) as [Hfresh Hinv].
  unfold replication_reachable. rewrite <- Hfresh. clear Hfresh Hopen. revert Hinv. generalize (∅ : gmap string Z) as file.
  induction Hsteps as [f|f1 f2 f3 Hstep _ IH]; intros file Hinv; [by exists file|].
  destruct (filed_step_keeps _ _ _ Hp Hstep Hinv) as (file2 & K1 & Hinv2).
  destruct (IH _ Hinv2) as (file3 & K2 & Hinv3). exists file3. split; [by etrans|done].
Qed.

(** C21: what the dispatcher keeps on disk is enough to go on from: after every run
    of enqueueing commands one after the other, sending, lost acknowledgements, ticks and
    restarts on the outbox file and the acknowledgement file, in which an append writes
    the whole line (synchronised or not), the queue has room and targets are in UTF-8,
    the bytes of the two files decode, to one entry for each command ever enqueued, in
    their order and with the same meaning, and to offsets that reach no command its
    target has not taken; and the run is a run of the dispatcher on the list of entries
    and the map of offsets that the files hold.  (A line that was cut short stops the
    next start: [torn_outbox_stops_start].) *)
Theorem files_refine_outbox capacity f : replicationOutboxEnabled path = true -> filed_reachable capacity f ->
  exists entries file,
    scanReplicationOutboxEntries (df_outbox (fl_files f)) = Ok entries /\ loadAcks (df_acks (fl_files f)) = Ok file /\
    rd_outbox (fl_dispatcher f) = Some entries /\ Forall2 entry_of entries (fl_enqueued f) /\
    (forall j, j ∈ fl_enqueued f -> covered file j -> taken (abstract f file) j) /\
    replication_reachable capacity (abstract f file).
Proof.
  intros Hp Hr. destruct (filed_reachable_inv capacity f Hp Hr) as (file & Hreach & [Ha (es & Ho & Hf) _ _]).
  exists es, file. destruct (ri_entries _ Ha) as (es' & Ho' & HF). cbn in Ho', HF. rewrite Ho in Ho'. injection Ho' as <-.
  split_and!; [by eapply files_scan|by destruct Hf|done|done|apply (ri_file _ Ha)|done].
Qed.

End runs.
(** ** Examples *)

(** The outbox of the examples is opened on a node without files; a delete is
    enqueued and taken by its target, another one is enqueued, and the node
    restarts. *)
Definition example_path : string := "data/outbox.jsonl".

Definition openedExample : diskFiles * replicationDispatcher :=
  match OpenOutboxFiles example_path true (mkFiles NoFile NoFile) (newReplicationDispatcher 4) with
  | (files, Ok d) => (files, d)
  | (files, Err _) => (files, newReplicationDispatcher 4)
  end.

Definition enqueueExample (id : string) (now : Z) (f : filed) : filed :=
  let d := fl_dispatcher f in
  let d' := Enqueue "node-b" (exampleDelete id) now Written d in
  mkFiled d' (fl_sending f) (onOutbox (enqueueFile "node-b" (exampleDelete id) now None true d) (fl_files f))
    (fl_enqueued f ++ [mkJob (rd_nextSequence d') "node-b" (exampleDelete id)]) (fl_delivered f).

Definition takeExample (f : filed) : filed :=
  mkFiled (withJobs (tail (rd_jobs (fl_dispatcher f))) (fl_dispatcher f)) (head (rd_jobs (fl_dispatcher f))) (fl_files f)
    (fl_enqueued f) (fl_delivered f).

Definition deliverExample (f : filed) : filed :=
  match fl_sending f with
  | None => f
  | Some job =>
      mkFiled (send job true [Delivered] (fl_dispatcher f)).1.1 None
        (onAcks (ackFile (job_target job) (job_sequence job) true (ackedOffsets (fl_dispatcher f))) (fl_files f))
        (fl_enqueued f) (fl_delivered f ++ [job])
  end.

Definition restartExample (f : filed) : filed :=
  match OpenOutboxFiles example_path true (fl_files f) (newReplicationDispatcher 4) with
  | (files, Ok d) => mkFiled d None files (fl_enqueued f) (fl_delivered f)
  | (_, Err _) => f
  end.

Definition opened_filed : filed := mkFiled openedExample.2 None openedExample.1 [] [].
Definition stopped_example : filed :=
  enqueueExample "b" 101 (deliverExample (takeExample (enqueueExample "a" 100 opened_filed))).
Definition filed_example : filed := restartExample stopped_example.

Section example_steps.
Context (f : filed).

Lemma enqueueExample_step id now : str_ok id -> is_s64 now ->
  zlen (rd_jobs (fl_dispatcher f)) < rd_capacity (fl_dispatcher f) ->
  rd_nextSequence (fl_dispatcher f) + 1 < 2 ^ 64 -> filed_step example_path f (enqueueExample id now f).
Proof.
  intros Hid Hnow Hroom Hseq. destruct f. apply (filed_enqueue _ _ _ _ _ _ "node-b" (exampleDelete id) now true);
    [done|vm_compute; reflexivity|by apply exampleDelete_ok|done|done|done].
Qed.

Lemma takeExample_step : fl_sending f = None -> rd_jobs (fl_dispatcher f) <> [] -> filed_step example_path f (takeExample f).
Proof.
  destruct f as [d sending files enq del]. cbn. intros -> Hj. unfold takeExample. cbn.
  destruct (rd_jobs d) as [|job jobs] eqn:E; [done|]. by apply filed_take.
Qed.

Lemma deliverExample_step : fl_sending f <> None -> filed_step example_path f (deliverExample f).
Proof. destruct f as [d [job|] files enq del]; cbn; intros Hs; [|done]. apply (filed_deliver _ _ _ true). Qed.

Lemma restartExample_step entries offsets : scanReplicationOutboxEntries (df_outbox (fl_files f)) = Ok entries ->
  loadAcks (df_acks (fl_files f)) = Ok offsets -> replay_room entries offsets (newReplicationDispatcher 4) ->
  filed_step example_path f (restartExample f).
Proof.
  intros Hs Hl Hroom. unfold restartExample. destruct (OpenOutboxFiles _ _ _ _) as [files [d|e]] eqn:E.
  - destruct f. by eapply filed_restart.
  - exfalso. unfold OpenOutboxFiles in E. replace (replicationOutboxEnabled example_path) with true in E by reflexivity.
    rewrite Hs in E. cbn [negb openReplicationOutbox df_acks] in E. by rewrite Hl in E.
Qed.

End example_steps.

Definition example_entries : list replicationOutboxEntry :=
  match scanReplicationOutboxEntries (df_outbox (fl_files stopped_example)) with Ok entries => entries | Err _ => [] end.

Lemma filed_example_reachable : filed_reachable example_path 4 filed_example.
Proof.
  eapply (filed_run _ _ _ openedExample.1 openedExample.2); [vm_compute; reflexivity|].
  eapply rtc_l; [apply (enqueueExample_step opened_filed "a" 100); by vm_compute|].
  eapply rtc_l; [apply takeExample_step; by vm_compute|].
  eapply rtc_l; [apply deliverExample_step; by vm_compute|].
  eapply rtc_l; [apply (enqueueExample_step _ "b" 101); by vm_compute|].
  apply rtc_once, (restartExample_step stopped_example example_entries {["node-b" := 1]}); by vm_compute.
Qed.

Lemma files_refine_outbox_witness : replicationOutboxEnabled example_path = true /\
  filed_reachable example_path 4 filed_example /\
  (job_sequence <$> rd_jobs (fl_dispatcher filed_example)) = [2] /\
  exists entries file,
    scanReplicationOutboxEntries (df_outbox (fl_files filed_example)) = Ok entries /\
    loadAcks (df_acks (fl_files filed_example)) = Ok file /\
    rd_outbox (fl_dispatcher filed_example) = Some entries /\ Forall2 entry_of entries (fl_enqueued filed_example) /\
    (forall j, j ∈ fl_enqueued filed_example -> covered file j -> taken (abstract filed_example file) j) /\
    replication_reachable 4 (abstract filed_example file).
Proof.
  split; [vm_compute; reflexivity|]. split; [exact filed_example_reachable|]. split; [vm_compute; reflexivity|].
  apply (files_refine_outbox example_path 4 filed_example); [vm_compute; reflexivity|exact filed_example_reachable].
Defined.

(** The outbox file after a second append that only [n] bytes of reached the disk. *)
Definition torn_file (n : nat) : fileState :=
  let f := enqueueExample "a" 100 opened_filed in
  enqueueFile "node-b" (exampleDelete "b") 101 (Some n) true (fl_dispatcher f) (df_outbox (fl_files f)).

Definition torn_line : list byte :=
  match newReplicationOutboxEntry 2 "node-b" (exampleDelete "b") 101 with
  | Ok entry => GoJson.Encode outboxEntryCodec entry
  | Err _ => []
  end.

Definition start_fails (n : nat) : bool :=
  match (OpenOutboxFiles example_path true (mkFiles (torn_file n) NoFile) (newReplicationDispatcher 4)).2 with
  | Err ScanDecodeFailed => true
  | _ => false
  end.

(** A crash or a full disk in the middle of an append leaves a part of a line at the
    end of the outbox: whatever part it is, short of the closing brace, the outbox
    no longer decodes, opening it fails, and with it the start of the TCP server. *)
Theorem torn_outbox_stops_start n : (0 < n < length torn_line - 1)%nat -> start_fails n = true.
Proof.
  assert (forallb start_fails (seq 1 (length torn_line - 2)) = true) as Hall by (vm_compute; reflexivity).
  intros Hn. rewrite forallb_forall in Hall. apply Hall, in_seq. lia.
Qed.
