(* ===== verification/TcpWire.v ===== *)
(** * Frames and values of the TCP transport (transport/tcp: wire.go, wire_batch.go,
    wire_migration.go, wire_primitive.go, server_response.go)

    Conversions between the wire's and the cache's data, and the frames of
    responses.  The body of an error frame is the JSON text of [cachewire.Error];
    the texts of errors and the JSON codec are the class [ErrorBody]. *)

From S2P Require Import Prelude.
From S2P Require Import Binary.
From S2P Require Import GoStrings.
From S2P Require Import Frame.
From S2P Require Import EngineTypes.
From S2P Require Import Shard.
From S2P Require Import Primitives.
From S2P Require Import MemoryEngine.
From S2P Require Import Service.
From S2P Require Import WireTypes.
From S2P Require Import Wire.

Local Open Scope Z_scope.
Local Open Scope nespa_scope.

(** ** Flags and error codes *)

(** src: protocol/frame.go FlagResponse 71-71 *)
Definition FlagResponse : Z := 1.
(** src: protocol/frame.go FlagError 72-72 *)
Definition FlagError : Z := 2.

(** src: protocol/frame.go ErrorCode 28-40 *)
Definition ErrorCode := Z.
Definition ErrorUnknown : ErrorCode := 1.
Definition ErrorBadFrame : ErrorCode := 2.
Definition ErrorTooLarge : ErrorCode := 4.
Definition ErrorNoRoute : ErrorCode := 5.
Definition ErrorTimeout : ErrorCode := 6.
Definition ErrorUnavailable : ErrorCode := 7.
Definition ErrorInternal : ErrorCode := 8.
Definition ErrorInvalidArgument : ErrorCode := 9.

(** What a handler reports: the errors it makes itself, those of the codec and
    those of the service. *)
Inductive tcpError :=
| StaleRouteEpoch (routeEpoch current : Z)
| FencedRange (op : Op)
| UnsupportedOp (op : Op)
| BadMetadata (e : wireError)
| CacheFailed (e : serviceError).

(** src: cachewire/types.go Error 145-148 *)
Record Error := mkError { err_code : ErrorCode; err_message : string }.

(** [err.Error()], and [json.Marshal] and [json.Unmarshal] of a [cachewire.Error]:
    the code of a marshalled error is read back, its message up to the
    replacement of bytes that are not UTF-8. *)
Class ErrorBody := {
  error_text : tcpError -> string;
  marshalError : Error -> list byte;
  unmarshalError : list byte -> option Error;
  marshal_code : forall e, 0 <= err_code e < 2 ^ 16 ->
    exists m, unmarshalError (marshalError e) = Some (mkError (err_code e) m)
}.

(** ** Response frames *)

(** src: transport/tcp/wire.go metadataFrame *)
Definition metadataFrame (request : Frame) (metadata payload : list byte) : Frame :=
  mkFrame FlagResponse (FrameOp request) (RequestID request) (RouteEpoch request) metadata payload.

(** src: transport/tcp/wire.go errorFrame *)
Definition errorFrame `{!ErrorBody} (request : Frame) (code : ErrorCode) (err : tcpError) : Frame :=
  mkFrame (Z.lor FlagResponse FlagError) (FrameOp request) (RequestID request) (RouteEpoch request)
    (marshalError (mkError code (error_text err))) [].

(** The codes of the errors the engine and the service make; the errors of a
    counter, [invalid_counter], [invalid_counter_value] and [counter_overflow],
    are one constructor of the engine's errors. *)
Definition oopsCode (err : serviceError) : string :=
  match err with
  | ErrQuotaExceeded => "quota_exceeded"
  | ErrNestedTransactionUnsupported => "nested_transaction_unsupported"
  | EngineFailed e =>
      match e with
      | ErrInvalidKey => "invalid_key"
      | ErrNotFound => "not_found"
      | ErrClosed => "closed"
      | ErrNilContext => "nil_context"
      | ErrInvalidCounter => "invalid_counter"
      | ErrInvalidPrimitive => "invalid_primitive"
      | ErrInvalidCollection => "invalid_collection"
      | ErrUnknownShardCommand => "unknown_shard_command"
      end
  end.

(** An error made by the service wraps one error that has a code.
    src: transport/tcp/wire.go hasOopsCode *)
Definition hasOopsCode (err : serviceError) (codes : list string) : bool := bool_decide (oopsCode err ∈ codes).

(** src: transport/tcp/wire.go invalidArgumentOopsCodes *)
Definition invalidArgumentOopsCodes : list string :=
  ["invalid_counter"; "invalid_counter_value"; "invalid_primitive"; "invalid_collection"; "counter_overflow"].

(** The code of [cacheErrorFrame].  A call of the model has a live context, so
    that the branches for a context that was cancelled do not occur. *)
Definition cacheErrorCode (err : serviceError) : ErrorCode :=
  if hasOopsCode err ["invalid_key"] then ErrorBadFrame
  else if hasOopsCode err invalidArgumentOopsCodes then ErrorInvalidArgument
  else if hasOopsCode err ["quota_exceeded"] then ErrorTooLarge
  else ErrorInternal.

(** src: transport/tcp/wire.go cacheErrorFrame *)
Definition cacheErrorFrame `{!ErrorBody} (request : Frame) (err : serviceError) : Frame :=
  errorFrame request (cacheErrorCode err) (CacheFailed err).

(** ** Times *)

(** [Time.UnixMilli], at [int64] width. *)
Definition UnixMilli (t : Time) : Z := s64 (t / 1000000 - unixToInternal * 1000).

(** [time.UnixMilli]. *)
Definition timeUnixMilli (ms : Z) : Time := (ms + unixToInternal * 1000) * 1000000.

(** src: transport/tcp/wire_migration.go timeToUnixMilli *)
Definition timeToUnixMilli (value : Time) : Z := if IsZero value then 0 else UnixMilli value.

(** src: transport/tcp/wire_migration.go timeFromUnixMilli *)
Definition timeFromUnixMilli (value : Z) : Time := if value =? 0 then zeroTime else timeUnixMilli value.

(** src: transport/tcp/wire.go ttlFromMillis *)
Definition ttlFromMillis (ms : Z) : Duration := if ms <=? 0 then 0 else millis ms.

(** ** Requests *)

(** src: transport/tcp/wire.go keyFromWire *)
Definition keyFromWire (key : WireTypes.Key) : EngineTypes.Key :=
  EngineTypes.mkKey (wk_namespace key) (wk_space key) (wk_entity key) (wk_key key).

(** The options [handleSet] and [batchSetRequests] build. *)
Definition setOptionsFromWire (item : WireTypes.SetRequest) : SetOptions :=
  mkSetOptions (ttlFromMillis (ws_ttlMillis item)) (ws_namespaceVersion item) (ws_spaceVersion item)
    (ws_expectedVersion item).

(** src: transport/tcp/wire.go batchSetRequests *)
Definition batchSetRequests (items : list WireTypes.SetRequest) : list Service.SetRequest :=
  (fun item => Service.mkSetRequest (keyFromWire (ws_key item)) (ws_value item) (setOptionsFromWire item)) <$> items.

(** The options [handleGet] and [batchGetRequests] build. *)
Definition getOptionsFromWire (item : WireTypes.GetRequest) : GetOptions :=
  mkGetOptions (wg_namespaceVersion item) (wg_spaceVersion item).

(** src: transport/tcp/wire.go batchGetRequests *)
Definition batchGetRequests (items : list WireTypes.GetRequest) : list Service.GetRequest :=
  (fun item => Service.mkGetRequest (keyFromWire (wg_key item)) (getOptionsFromWire item)) <$> items.

(** src: transport/tcp/wire.go getOptionsFromExists *)
Definition getOptionsFromExists (request : ExistsRequest) : GetOptions :=
  mkGetOptions (we_namespaceVersion request) (we_spaceVersion request).

(** src: transport/tcp/wire.go touchOptionsFromWire *)
Definition touchOptionsFromWire (request : WireTypes.TouchRequest) : TouchOptions :=
  mkTouchOptions (ttlFromMillis (wt_ttlMillis request)) (wt_namespaceVersion request) (wt_spaceVersion request)
    (wt_expectedVersion request).

(** src: transport/tcp/wire.go adjustOptionsFromWire *)
Definition adjustOptionsFromWire (request : AdjustRequest) : AdjustOptions :=
  mkAdjustOptions (wa_delta request) (wa_initialValue request) (ttlFromMillis (wa_ttlMillis request))
    (wa_namespaceVersion request) (wa_spaceVersion request) (wa_expectedVersion request).

(** src: transport/tcp/wire_batch.go batchDeleteRequests *)
Definition batchDeleteRequests (items : list WireTypes.DeleteRequest) : list Service.DeleteRequest :=
  (fun item => Service.mkDeleteRequest (keyFromWire (wd_key item)) (wd_expectedVersion item)) <$> items.

(** src: transport/tcp/wire_batch.go batchExistsRequests *)
Definition batchExistsRequests (items : list ExistsRequest) : list Service.GetRequest :=
  (fun item => Service.mkGetRequest (keyFromWire (WireTypes.we_key item)) (getOptionsFromExists item)) <$> items.

(** src: transport/tcp/wire_batch.go batchTouchRequests *)
Definition batchTouchRequests (items : list WireTypes.TouchRequest) : list Service.TouchRequest :=
  (fun item => Service.mkTouchRequest (keyFromWire (wt_key item)) (touchOptionsFromWire item)) <$> items.

(** The constants of [PrimitiveKind], from 1. *)
Definition primitiveKinds : list EngineTypes.PrimitiveKind :=
  [PrimitiveCounterAdjust; PrimitiveMapSet; PrimitiveMapGet; PrimitiveMapDelete; PrimitiveMapGetAll;
   PrimitiveSetAdd; PrimitiveSetRemove; PrimitiveSetContains; PrimitiveSetMembers; PrimitiveScoredSetPut;
   PrimitiveScoredSetRemove; PrimitiveScoredSetRange; PrimitiveListPushFront; PrimitiveListPushBack;
   PrimitiveListPopFront; PrimitiveListPopBack; PrimitiveListRange; PrimitiveBitmapSetBit;
   PrimitiveBitmapGetBit; PrimitiveBitmapBitCount; PrimitiveHLLAdd; PrimitiveHLLCount; PrimitiveHLLMerge;
   PrimitiveHLLMembers; PrimitiveGeoAdd; PrimitiveGeoDist; PrimitiveGeoRadius].

(** [cache.PrimitiveKind(request.Kind)]: both types are [uint8] with the same
    constants.
    src: cachewire/primitive_types.go PrimitiveCounterAdjust 5-33 *)
Definition primitiveKindFromWire (kind : Z) : EngineTypes.PrimitiveKind :=
  if kind <? 1 then PrimitiveUnknown kind
  else default (PrimitiveUnknown kind) (primitiveKinds !! Z.to_nat (kind - 1)).

(** src: transport/tcp/wire_primitive.go primitiveOptionsFromWire *)
Definition primitiveOptionsFromWire (request : WireTypes.PrimitiveRequest) : PrimitiveOptions :=
  mkPrimitiveOptions (ttlFromMillis (wp_ttlMillis request)) (wp_namespaceVersion request) (wp_spaceVersion request)
    (wp_expectedVersion request).

(** src: transport/tcp/wire_primitive.go primitiveRequestFromWire *)
Definition primitiveRequestFromWire (r : WireTypes.PrimitiveRequest) : EngineTypes.PrimitiveRequest :=
  EngineTypes.mkPrimitiveRequest (primitiveKindFromWire (wp_kind r)) (keyFromWire (wp_key r))
    (primitiveOptionsFromWire r) (wp_field r) (wp_member r) (wp_value r) (wp_delta r) (wp_initialValue r)
    (wp_score r) (wp_minScore r) (wp_maxScore r) (wp_hasMinScore r) (wp_hasMaxScore r) (wp_limit r) (wp_start r)
    (wp_reverse r).

(** src: transport/tcp/wire_primitive.go primitiveRequestsFromWire *)
Definition primitiveRequestsFromWire (items : list WireTypes.PrimitiveRequest) : list EngineTypes.PrimitiveRequest :=
  primitiveRequestFromWire <$> items.

(** src: transport/tcp/wire_migration.go rangeFromWire *)
Definition rangeFromWire (request : MigrationRangeRequest) : RangeOptions :=
  mkRangeOptions (mrq_namespace request) (mrq_space request) (mrq_vslotStart request) (mrq_vslotEnd request) zeroTime.

(** ** Results *)

(** src: transport/tcp/wire.go recordFromCache *)
Definition recordFromCache (rec : CacheRecord) (found : bool) : WireRecord :=
  if negb found then missingRecord
  else
    WireTypes.mkRecord true (k_namespace (r_key rec)) (k_space (r_key rec)) (k_entity (r_key rec))
      (k_key (r_key rec)) (r_value rec) (r_version rec) (r_namespaceVersion rec) (r_spaceVersion rec)
      (if IsZero (r_expireAt rec) then 0 else UnixMilli (r_expireAt rec)) 0 0.

(** src: transport/tcp/wire.go recordsFromResults *)
Definition recordsFromResults (results : list GetResult) : list WireRecord :=
  (fun result => recordFromCache (gr_record result) (gr_found result)) <$> results.

(** src: transport/tcp/wire.go recordsFromSetResults *)
Definition recordsFromSetResults (results : list SetResult) : list WireRecord :=
  (fun result => recordFromCache (sr_record result) (sr_found result)) <$> results.

(** src: transport/tcp/wire_batch.go deleteResultsFromCache *)
Definition deleteResultsFromCache (results : list DeleteResult) : list DeleteResponse :=
  (fun result => mkDeleteResponse (dl_deleted result)) <$> results.

(** src: transport/tcp/wire_batch.go existsResultsFromCache *)
Definition existsResultsFromCache (results : list bool) : list ExistsResponse := mkExistsResponse <$> results.

(** src: transport/tcp/wire_batch.go touchResultsFromCache *)
Definition touchResultsFromCache (results : list bool) : list TouchResponse := mkTouchResponse <$> results.

(** src: transport/tcp/wire_primitive.go mapFieldsFromCache *)
Definition mapFieldsFromCache (items : list EngineTypes.MapField) : list WireTypes.MapField :=
  (fun item => WireTypes.mkMapField (mf_field item) (mf_value item) 0 0) <$> items.

(** src: transport/tcp/wire_primitive.go scoredMembersFromCache *)
Definition scoredMembersFromCache (items : list EngineTypes.ScoredMember) : list WireTypes.ScoredMember :=
  (fun item => WireTypes.mkScoredMember (sm_member item) (sm_score item)) <$> items.

(** src: transport/tcp/wire_primitive.go listValuesFromCache *)
Definition listValuesFromCache (items : list (list byte)) : list ListValue :=
  (fun value => mkListValue value 0 0) <$> items.

(** src: transport/tcp/wire_primitive.go primitiveResultFromCache *)
Definition primitiveResultFromCache (r : EngineTypes.PrimitiveResult) : WireTypes.PrimitiveResult :=
  WireTypes.mkPrimitiveResult (recordFromCache (pres_record r) (0 <? r_version (pres_record r))) (pres_found r)
    (pres_applied r) (pres_value r) (pres_bool r) (pres_count r) (mapFieldsFromCache (pres_fields r))
    (pres_members r) (scoredMembersFromCache (pres_scoredMembers r)) (listValuesFromCache (pres_values r)) 0 0.

(** src: transport/tcp/wire_primitive.go primitiveResultsFromCache *)
Definition primitiveResultsFromCache (items : list EngineTypes.PrimitiveResult) : list WireTypes.PrimitiveResult :=
  primitiveResultFromCache <$> items.

(** src: transport/tcp/server_response.go recordFrame *)
Definition recordFrame (frame : Frame) (rec : CacheRecord) (found : bool) : Frame :=
  if negb found then metadataFrame frame (EncodeRecord missingRecord) []
  else metadataFrame frame (EncodeRecord (recordFromCache rec true)) (r_value rec).

(** ** Snapshots of a range *)

(** src: transport/tcp/wire_migration.go snapshotEntryToWire *)
Definition snapshotEntryToWire (entry : SnapshotEntry) : MigrationSnapshotEntry :=
  mkMigrationSnapshotEntry
    (WireTypes.mkKey (k_namespace (se_key entry)) (k_space (se_key entry)) (k_entity (se_key entry))
       (k_key (se_key entry)))
    (se_value entry) (se_version entry) (se_namespaceVersion entry) (se_spaceVersion entry)
    (timeToUnixMilli (se_expireAt entry)) (timeToUnixMilli (se_createdAt entry))
    (timeToUnixMilli (se_updatedAt entry)) (timeToUnixMilli (se_lastAccessAt entry)) (se_accessCount entry) 0 0.

(** src: transport/tcp/wire_migration.go snapshotEntryFromWire *)
Definition snapshotEntryFromWire (entry : MigrationSnapshotEntry) : SnapshotEntry :=
  mkSnapshotEntry (keyFromWire (me_key entry)) (me_value entry) (me_version entry) (me_namespaceVersion entry)
    (me_spaceVersion entry) (timeFromUnixMilli (me_expireAtUnixMs entry))
    (timeFromUnixMilli (me_createdAtUnixMs entry)) (timeFromUnixMilli (me_updatedAtUnixMs entry))
    (timeFromUnixMilli (me_lastAccessAtUnixMs entry)) (me_accessCount entry).

(** src: transport/tcp/wire_migration.go snapshotToWire *)
Definition snapshotToWire (entries : list SnapshotEntry) : MigrationSnapshot :=
  mkMigrationSnapshot (snapshotEntryToWire <$> entries).

(** src: transport/tcp/wire_migration.go snapshotFromWire *)
Definition snapshotFromWire (snapshot : MigrationSnapshot) : list SnapshotEntry :=
  snapshotEntryFromWire <$> ms_entries snapshot.
