(* ===== verification/TcpServer.v ===== *)
(** * The cache TCP server (transport/tcp: server.go, server_batch.go,
    server_primitive.go, server_migration.go, server_fence.go,
    server_fence_batch.go, server_replication.go, server_config.go, range_fence.go)

    A server is the cache service it fronts, the fences of ranges that are being
    migrated and the replication dispatcher.  A request is handled by a function
    of the server and the frame; requests are handled one at a time.  What a call
    reads from its surroundings, the clock of the engine, the clock of the outbox
    and the outcome of the writes of the outbox, is the record [callEnv].

    Listening, accepting and closing connections are not modelled; a connection
    is the bytes that arrive on it and the bytes written to it. *)

From S2P Require Import Prelude.
From S2P Require Import Binary.
From S2P Require Import GoStrings.
From S2P Require Import Frame.
From S2P Require Import Routing.
From S2P Require Import EngineTypes.
From S2P Require Import Shard.
From S2P Require Import Primitives.
From S2P Require Import MemoryEngine.
From S2P Require Import Service.
From S2P Require Import WireTypes.
From S2P Require Import Wire.
From S2P Require Import WireBatch.
From S2P Require Import WirePrimitive.
From S2P Require Import Replication.
From S2P Require Import TcpWire.

Local Open Scope Z_scope.
Local Open Scope nespa_scope.

(** ** Fences *)

(** src: transport/tcp/range_fence.go rangeFence *)
Record rangeFence := mkRangeFence {
  rf_namespace : string;
  rf_space : string;
  rf_start : Z;
  rf_end : Z
}.

(** src: transport/tcp/range_fence.go rangeFenceSet *)
Definition rangeFenceSet := list rangeFence.

(** src: transport/tcp/range_fence.go newRangeFenceSet *)
Definition newRangeFenceSet : rangeFenceSet := [].

(** src: transport/tcp/range_fence.go rangeFenceFromWire *)
Definition rangeFenceFromWire (request : MigrationRangeRequest) : rangeFence :=
  mkRangeFence (mrq_namespace request) (mrq_space request) (mrq_vslotStart request) (mrq_vslotEnd request).

(** src: transport/tcp/range_fence.go sameRangeFence *)
Definition sameRangeFence (left right : rangeFence) : bool :=
  bool_decide (rf_namespace left = rf_namespace right) && bool_decide (rf_space left = rf_space right)
  && (rf_start left =? rf_start right) && (rf_end left =? rf_end right).

(** src: transport/tcp/range_fence.go add *)
Definition addFence (fence : rangeFence) (ranges : rangeFenceSet) : rangeFenceSet :=
  if existsb (fun r => sameRangeFence r fence) ranges then ranges else ranges ++ [fence].

(** src: transport/tcp/range_fence.go remove *)
Definition removeFence (fence : rangeFence) (ranges : rangeFenceSet) : rangeFenceSet :=
  List.filter (fun r => negb (sameRangeFence r fence)) ranges.

(** src: transport/tcp/range_fence.go keyInRangeFence *)
Definition keyInRangeFence (key : WireTypes.Key) (fence : rangeFence) : bool :=
  if negb (bool_decide (wk_namespace key = rf_namespace fence)) || negb (bool_decide (wk_space key = rf_space fence))
  then false
  else
    let slot := VSlotFor (wk_namespace key) (wk_space key) (wk_key key) in
    (rf_start fence <=? slot) && (slot <=? rf_end fence).

(** src: transport/tcp/range_fence.go containsKey *)
Definition containsKey (ranges : rangeFenceSet) (key : WireTypes.Key) : bool := existsb (keyInRangeFence key) ranges.

(** src: transport/tcp/range_fence.go empty *)
Definition fencesEmpty (ranges : rangeFenceSet) : bool := zlen ranges =? 0.

(** ** Keys of a mutation *)

(** src: transport/tcp/server_fence.go mutatingCacheOps 22-32 *)
Definition mutatingCacheOps : list Op :=
  [OpCacheSet; OpCacheDelete; OpCacheTouch; OpCacheAdjust; OpCachePrimitive; OpCacheBatchSet; OpCacheBatchDelete;
   OpCacheBatchTouch; OpCacheBatchPrimitive].

(** src: transport/tcp/server_fence.go cacheOpCanMutate *)
Definition cacheOpCanMutate (op : Op) : bool := bool_decide (op ∈ mutatingCacheOps).

(** src: transport/tcp/server_fence_batch.go mutatingPrimitiveKinds 77-89 *)
Definition mutatingPrimitiveKinds : list Z := [1; 2; 4; 6; 7; 10; 11; 13; 14; 15; 16].

(** src: transport/tcp/server_fence_batch.go primitiveWireKindMutates *)
Definition primitiveWireKindMutates (kind : Z) : bool := bool_decide (kind ∈ mutatingPrimitiveKinds).

(** src: transport/tcp/server_fence.go singleMutationKey *)
Definition singleMutationKey {A} (key : A -> WireTypes.Key) (r : result wireError A)
    : result wireError (list WireTypes.Key) :=
  request ← r; Ok [key request].

(** src: transport/tcp/server_fence.go keyFromSetFrame *)
Definition keyFromSetFrame (frame : Frame) := singleMutationKey ws_key (DecodeSetRequest (Metadata frame)).

(** src: transport/tcp/server_fence.go keyFromDeleteFrame *)
Definition keyFromDeleteFrame (frame : Frame) := singleMutationKey wd_key (DecodeDeleteRequest (Metadata frame)).

(** src: transport/tcp/server_fence.go keyFromTouchFrame *)
Definition keyFromTouchFrame (frame : Frame) := singleMutationKey wt_key (DecodeTouchRequest (Metadata frame)).

(** src: transport/tcp/server_fence.go keyFromAdjustFrame *)
Definition keyFromAdjustFrame (frame : Frame) := singleMutationKey wa_key (DecodeAdjustRequest (Metadata frame)).

(** src: transport/tcp/server_fence_batch.go keysFromPrimitiveFrame *)
Definition keysFromPrimitiveFrame (frame : Frame) : result wireError (list WireTypes.Key) :=
  request ← DecodePrimitiveRequest (Metadata frame) (Payload frame);
  if negb (primitiveWireKindMutates (wp_kind request)) then Ok [] else Ok [wp_key request].

(** src: transport/tcp/server_fence_batch.go keysFromBatchSetFrame *)
Definition keysFromBatchSetFrame (frame : Frame) : result wireError (list WireTypes.Key) :=
  request ← DecodeBatchSetRequest (Metadata frame) (Payload frame); Ok (ws_key <$> bs_items request).

(** src: transport/tcp/server_fence_batch.go keysFromBatchDeleteFrame *)
Definition keysFromBatchDeleteFrame (frame : Frame) : result wireError (list WireTypes.Key) :=
  request ← DecodeBatchDeleteRequest (Metadata frame); Ok (wd_key <$> bd_items request).

(** src: transport/tcp/server_fence_batch.go keysFromBatchTouchFrame *)
Definition keysFromBatchTouchFrame (frame : Frame) : result wireError (list WireTypes.Key) :=
  request ← DecodeBatchTouchRequest (Metadata frame); Ok (wt_key <$> bt_items request).

(** src: transport/tcp/server_fence_batch.go keysFromBatchPrimitiveFrame *)
Definition keysFromBatchPrimitiveFrame (frame : Frame) : result wireError (list WireTypes.Key) :=
  request ← DecodeBatchPrimitiveRequest (Metadata frame) (Payload frame);
  Ok (wp_key <$> List.filter (fun item => primitiveWireKindMutates (wp_kind item)) (bp_items request)).

(** The table [mutationKeyDecoders]; a nil entry and a missing one decode nothing.
    src: transport/tcp/server_fence.go mutationKeys 38-68 *)
Definition mutationKeys (frame : Frame) : result wireError (list WireTypes.Key) :=
  let op := FrameOp frame in
  if op =? OpCacheSet then keyFromSetFrame frame
  else if op =? OpCacheDelete then keyFromDeleteFrame frame
  else if op =? OpCacheTouch then keyFromTouchFrame frame
  else if op =? OpCacheAdjust then keyFromAdjustFrame frame
  else if op =? OpCachePrimitive then keysFromPrimitiveFrame frame
  else if op =? OpCacheBatchSet then keysFromBatchSetFrame frame
  else if op =? OpCacheBatchDelete then keysFromBatchDeleteFrame frame
  else if op =? OpCacheBatchTouch then keysFromBatchTouchFrame frame
  else if op =? OpCacheBatchPrimitive then keysFromBatchPrimitiveFrame frame
  else Ok [].

(** src: transport/tcp/server_fence.go fencedMutation *)
Definition fencedMutation (fences : rangeFenceSet) (frame : Frame) : result wireError bool :=
  if fencesEmpty fences || negb (cacheOpCanMutate (FrameOp frame)) then Ok false
  else keys ← mutationKeys frame; Ok (existsb (containsKey fences) keys).

(** ** State *)

(** The readings of the engine's clock during the call, per item of a batch, and
    for each command it enqueues the clock and the write of the outbox. *)
Record callEnv := mkCallEnv {
  ce_clock : nat -> nat -> Time;
  ce_outboxNow : nat -> Z;
  ce_disk : nat -> diskWrite
}.

(** [srv_currentRouteEpoch] and [srv_replicaTargets] are [None] when the functions
    are nil.
    src: transport/tcp/server.go Server *)
Record Server (E : Type) := mkServer {
  srv_service : EngineService E;
  srv_codec : Frame.Codec;
  srv_currentRouteEpoch : option Z;
  srv_replicaTargets : option (WireTypes.Key -> list string);
  srv_replication : replicationDispatcher;
  srv_fences : rangeFenceSet
}.
Arguments mkServer {E} _ _ _ _ _ _.
Arguments srv_service {E} _.
Arguments srv_codec {E} _.
Arguments srv_currentRouteEpoch {E} _.
Arguments srv_replicaTargets {E} _.
Arguments srv_replication {E} _.
Arguments srv_fences {E} _.

(** src: transport/tcp/server_config.go ServerConfig *)
Record ServerConfig := mkServerConfig {
  cfg_currentRouteEpoch : option Z;
  cfg_replicaTargets : option (WireTypes.Key -> list string);
  cfg_replicationQueueSize : Z
}.

(** src: transport/tcp/server_config.go NewServer *)
Definition NewServer {E} (cfg : ServerConfig) (service : EngineService E) : Server E :=
  let queueSize := if 0 <? cfg_replicationQueueSize cfg then cfg_replicationQueueSize cfg
                   else defaultReplicationQueueSize in
  mkServer service (NewCodec []) (cfg_currentRouteEpoch cfg) (cfg_replicaTargets cfg)
    (newReplicationDispatcher queueSize) newRangeFenceSet.

Definition withService {E} (v : EngineService E) (s : Server E) : Server E :=
  mkServer v (srv_codec s) (srv_currentRouteEpoch s) (srv_replicaTargets s) (srv_replication s) (srv_fences s).
Definition withReplication {E} (v : replicationDispatcher) (s : Server E) : Server E :=
  mkServer (srv_service s) (srv_codec s) (srv_currentRouteEpoch s) (srv_replicaTargets s) v (srv_fences s).
Definition withFences {E} (v : rangeFenceSet) (s : Server E) : Server E :=
  mkServer (srv_service s) (srv_codec s) (srv_currentRouteEpoch s) (srv_replicaTargets s) (srv_replication s) v.

(** ** Replicating what a request changed *)

(** [s.replicateX] in the handlers: the commands it enqueues, with the targets. *)
Definition enqueueAll {E} (env : callEnv) (commands : list (string * replicationCommand)) (s : Server E) : Server E :=
  withReplication
    (foldl (fun d '(i, (target, command)) => Enqueue target command (ce_outboxNow env i) (ce_disk env i) d)
       (srv_replication s) (imap pair commands)) s.

(** src: transport/tcp/server_replication.go replicate *)
Definition replicate {E} (env : callEnv) (key : WireTypes.Key) (command : replicationCommand) (s : Server E)
    : Server E :=
  match srv_replicaTargets s with
  | None => s
  | Some targets => enqueueAll env ((fun target => (target, command)) <$> targets key) s
  end.

(** src: transport/tcp/server_replication.go replicateSet *)
Definition replicateSet {E} env (r : WireTypes.SetRequest) (s : Server E) : Server E :=
  replicate env (ws_key r) (newSetReplicationCommand r) s.

(** src: transport/tcp/server_replication.go replicateDelete *)
Definition replicateDelete {E} env (r : WireTypes.DeleteRequest) (s : Server E) : Server E :=
  replicate env (wd_key r) (newDeleteReplicationCommand r) s.

(** src: transport/tcp/server_replication.go replicateTouch *)
Definition replicateTouch {E} env (r : WireTypes.TouchRequest) (s : Server E) : Server E :=
  replicate env (wt_key r) (newTouchReplicationCommand r) s.

(** src: transport/tcp/server_replication.go replicateAdjust *)
Definition replicateAdjust {E} env (r : AdjustRequest) (s : Server E) : Server E :=
  replicate env (wa_key r) (newAdjustReplicationCommand r) s.

(** src: transport/tcp/server_replication.go replicatePrimitive *)
Definition replicatePrimitive {E} env (r : WireTypes.PrimitiveRequest) (s : Server E) : Server E :=
  replicate env (wp_key r) (newPrimitiveReplicationCommand r) s.

(** [batches[target] = append(batches[target], item)]. *)
Definition appendTo {T} (item : T) (batches : gmap string (list T)) (target : string) : gmap string (list T) :=
  if bool_decide (target = "") then batches
  else <[target := default [] (batches !! target) ++ [item]]> batches.

(** src: transport/tcp/server_replication.go addReplicaBatchItem *)
Definition addReplicaBatchItem {E T} (s : Server E) (batches : gmap string (list T)) (key : WireTypes.Key) (item : T)
    : gmap string (list T) :=
  match srv_replicaTargets s with
  | None => batches
  | Some targets => foldl (appendTo item) batches (targets key)
  end.

(** The loop over the items and their results, up to the shorter of both. *)
Definition collectReplicas {E T R} (s : Server E) (key : T -> WireTypes.Key) (applied : T -> R -> bool)
    (items : list T) (results : list R) : gmap string (list T) :=
  foldl (fun batches '(item, r) =>
    if negb (applied item r) then batches else addReplicaBatchItem s batches (key item) item)
    ∅ (zip items results).

Section Replicate.
  Context `{!RangeOrder} {E : Type}.

(** src: transport/tcp/server_replication.go replicateBatchSet *)
Definition replicateBatchSet env (r : BatchSetRequest) (results : list SetResult) (s : Server E) : Server E :=
  let batches := collectReplicas s ws_key (fun _ x => sr_found x) (bs_items r) results in
  enqueueAll env ((fun '(target, items) => (target, newBatchSetReplicationCommand (mkBatchSetRequest 0 items)))
    <$> range_order batches) s.

(** src: transport/tcp/server_replication.go replicateBatchDelete *)
Definition replicateBatchDelete env (r : BatchDeleteRequest) (results : list DeleteResult) (s : Server E)
    : Server E :=
  let batches := collectReplicas s wd_key (fun _ x => dl_deleted x) (bd_items r) results in
  enqueueAll env ((fun '(target, items) => (target, newBatchDeleteReplicationCommand (mkBatchDeleteRequest 0 items)))
    <$> range_order batches) s.

(** src: transport/tcp/server_replication.go replicateBatchTouch *)
Definition replicateBatchTouch env (r : BatchTouchRequest) (results : list bool) (s : Server E) : Server E :=
  let batches := collectReplicas s wt_key (fun _ (touched : bool) => touched) (bt_items r) results in
  enqueueAll env ((fun '(target, items) => (target, newBatchTouchReplicationCommand (mkBatchTouchRequest 0 items)))
    <$> range_order batches) s.

(** src: transport/tcp/server_replication.go replicateBatchPrimitive *)
Definition replicateBatchPrimitive env (r : BatchPrimitiveRequest) (results : list EngineTypes.PrimitiveResult)
    (s : Server E) : Server E :=
  let batches := collectReplicas s wp_key
    (fun item x => pres_applied x && Mutates (primitiveKindFromWire (wp_kind item))) (bp_items r) results in
  enqueueAll env
    ((fun '(target, items) => (target, newBatchPrimitiveReplicationCommand (mkBatchPrimitiveRequest 0 items)))
    <$> range_order batches) s.
End Replicate.

Section Handlers.
  Context `{!RangeOrder, !ErrorBody} {E : Type} `{!Engine E}.

(** [if err != nil { return errorFrame(frame, protocol.ErrorBadFrame, err) }]. *)
Definition decoded {A} (s : Server E) (frame : Frame) (r : result wireError A) (k : A -> Server E * Frame)
    : Server E * Frame :=
  match r with
  | Err e => (s, errorFrame frame ErrorBadFrame (BadMetadata e))
  | Ok request => k request
  end.

(** [if err != nil { return cacheErrorFrame(frame, err) }]. *)
Definition served {A} (s : Server E) (frame : Frame) (out : EngineService E * result serviceError A)
    (k : Server E -> A -> Server E * Frame) : Server E * Frame :=
  match out with
  | (svc, Err e) => (withService svc s, cacheErrorFrame frame e)
  | (svc, Ok a) => k (withService svc s) a
  end.

(** ** Single requests *)

(** src: transport/tcp/server.go handleSet *)
Definition handleSet (env : callEnv) (s : Server E) (frame : Frame) : Server E * Frame :=
  decoded s frame (DecodeSetRequest (Metadata frame)) (fun request =>
    let value := Payload frame in
    served s frame (setLocked (srv_service s) (keyFromWire (ws_key request)) value (setOptionsFromWire request)
                      (ce_clock env 0%nat)) (fun s result =>
      let s := if sr_found result then replicateSet env (withSetValue request value) s else s in
      (s, recordFrame frame (sr_record result) (sr_found result)))).

(** src: transport/tcp/server.go handleGet *)
Definition handleGet (env : callEnv) (s : Server E) (frame : Frame) : Server E * Frame :=
  decoded s frame (DecodeGetRequest (Metadata frame)) (fun request =>
    served s frame (getLocked (srv_service s) (keyFromWire (wg_key request)) (getOptionsFromWire request)
                      (ce_clock env 0%nat 0%nat)) (fun s '(rec, found) =>
      (s, recordFrame frame rec found))).

(** src: transport/tcp/server.go handleDelete *)
Definition handleDelete (env : callEnv) (s : Server E) (frame : Frame) : Server E * Frame :=
  decoded s frame (DecodeDeleteRequest (Metadata frame)) (fun request =>
    served s frame (deleteLocked (srv_service s) (keyFromWire (wd_key request))
                      (mkDeleteOptions (wd_expectedVersion request))) (fun s '(deleted, applied) =>
      let s := if deleted && applied then replicateDelete env request s else s in
      (s, metadataFrame frame (EncodeDeleteResponse (mkDeleteResponse (deleted && applied))) []))).

(** src: transport/tcp/server.go handleExists *)
Definition handleExists (env : callEnv) (s : Server E) (frame : Frame) : Server E * Frame :=
  decoded s frame (DecodeExistsRequest (Metadata frame)) (fun request =>
    served s frame (existsLocked (srv_service s) (keyFromWire (WireTypes.we_key request))
                      (getOptionsFromExists request) (ce_clock env 0%nat 0%nat)) (fun s exists_ =>
      (s, metadataFrame frame (EncodeExistsResponse (mkExistsResponse exists_)) []))).

(** src: transport/tcp/server.go handleTouch *)
Definition handleTouch (env : callEnv) (s : Server E) (frame : Frame) : Server E * Frame :=
  decoded s frame (DecodeTouchRequest (Metadata frame)) (fun request =>
    served s frame (touchLocked (srv_service s) (keyFromWire (wt_key request)) (touchOptionsFromWire request)
                      (ce_clock env 0%nat 0%nat)) (fun s (touched : bool) =>
      let s := if touched then replicateTouch env request s else s in
      (s, metadataFrame frame (EncodeTouchResponse (mkTouchResponse touched)) []))).

(** src: transport/tcp/server.go handleAdjust *)
Definition handleAdjust (env : callEnv) (s : Server E) (frame : Frame) : Server E * Frame :=
  decoded s frame (DecodeAdjustRequest (Metadata frame)) (fun request =>
    served s frame (adjustLocked (srv_service s) (keyFromWire (wa_key request)) (adjustOptionsFromWire request)
                      (ce_clock env 0%nat)) (fun s result =>
      let s := if sr_found result then replicateAdjust env request s else s in
      (s, recordFrame frame (sr_record result) (sr_found result)))).

(** src: transport/tcp/server_primitive.go handlePrimitive *)
Definition handlePrimitive (env : callEnv) (s : Server E) (frame : Frame) : Server E * Frame :=
  decoded s frame (DecodePrimitiveRequest (Metadata frame) (Payload frame)) (fun request =>
    served s frame (primitiveLocked (srv_service s) (primitiveRequestFromWire request) (ce_clock env 0%nat))
      (fun s result =>
      let s := if pres_applied result && Mutates (primitiveKindFromWire (wp_kind request))
               then replicatePrimitive env request s else s in
      match EncodePrimitiveResponse (primitiveResultFromCache result) with
      | Err e => (s, errorFrame frame ErrorInternal (BadMetadata e))
      | Ok (metadata, payload) => (s, metadataFrame frame metadata payload)
      end)).

(** ** Batches *)

(** A batch that fails has served its first requests: they are replicated too. *)
Definition servedBatch {R} (s : Server E) (frame : Frame) (out : EngineService E * (list R * option serviceError))
    (replicated : list R -> Server E -> Server E) (reply : list R -> Frame) : Server E * Frame :=
  let '(svc, (results, err)) := out in
  let s := replicated results (withService svc s) in
  match err with
  | Some e => (s, cacheErrorFrame frame e)
  | None => (s, reply results)
  end.

(** [metadata, payload, err := Encode(...)], an internal error when it fails. *)
Definition packedFrame (frame : Frame) (r : result wireError (list byte * list byte)) : Frame :=
  match r with
  | Err e => errorFrame frame ErrorInternal (BadMetadata e)
  | Ok (metadata, payload) => metadataFrame frame metadata payload
  end.

(** src: transport/tcp/server_batch.go handleBatchSet *)
Definition handleBatchSet (env : callEnv) (s : Server E) (frame : Frame) : Server E * Frame :=
  decoded s frame (DecodeBatchSetRequest (Metadata frame) (Payload frame)) (fun request =>
    servedBatch s frame (batchSetLocked (srv_service s) (batchSetRequests (bs_items request)) (ce_clock env))
      (replicateBatchSet env request) (fun records =>
      metadataFrame frame (EncodeBatchSetResponse (mkBatchSetResponse (recordsFromSetResults records))) [])).

(** src: transport/tcp/server_batch.go handleBatchGet *)
Definition handleBatchGet (env : callEnv) (s : Server E) (frame : Frame) : Server E * Frame :=
  decoded s frame (DecodeBatchGetRequest (Metadata frame)) (fun request =>
    servedBatch s frame (batchGetLocked (srv_service s) (batchGetRequests (bg_items request))
                           (fun i => ce_clock env i 0%nat))
      (fun _ s => s) (fun results =>
      packedFrame frame (EncodeBatchGetResponse (mkBatchGetResponse (recordsFromResults results))))).

(** src: transport/tcp/server_batch.go handleBatchDelete *)
Definition handleBatchDelete (env : callEnv) (s : Server E) (frame : Frame) : Server E * Frame :=
  decoded s frame (DecodeBatchDeleteRequest (Metadata frame)) (fun request =>
    servedBatch s frame (batchDeleteLocked (srv_service s) (batchDeleteRequests (bd_items request)))
      (replicateBatchDelete env request) (fun results =>
      metadataFrame frame (EncodeBatchDeleteResponse (mkBatchDeleteResponse (deleteResultsFromCache results))) [])).

(** src: transport/tcp/server_batch.go handleBatchExists *)
Definition handleBatchExists (env : callEnv) (s : Server E) (frame : Frame) : Server E * Frame :=
  decoded s frame (DecodeBatchExistsRequest (Metadata frame)) (fun request =>
    servedBatch s frame (batchExistsLocked (srv_service s) (batchExistsRequests (be_items request))
                           (fun i => ce_clock env i 0%nat))
      (fun _ s => s) (fun results =>
      metadataFrame frame (EncodeBatchExistsResponse (mkBatchExistsResponse (existsResultsFromCache results))) [])).

(** src: transport/tcp/server_batch.go handleBatchTouch *)
Definition handleBatchTouch (env : callEnv) (s : Server E) (frame : Frame) : Server E * Frame :=
  decoded s frame (DecodeBatchTouchRequest (Metadata frame)) (fun request =>
    servedBatch s frame (batchTouchLocked (srv_service s) (batchTouchRequests (bt_items request))
                           (fun i => ce_clock env i 0%nat))
      (replicateBatchTouch env request) (fun results =>
      metadataFrame frame (EncodeBatchTouchResponse (mkBatchTouchResponse (touchResultsFromCache results))) [])).

(** src: transport/tcp/server_primitive.go handleBatchPrimitive *)
Definition handleBatchPrimitive (env : callEnv) (s : Server E) (frame : Frame) : Server E * Frame :=
  decoded s frame (DecodeBatchPrimitiveRequest (Metadata frame) (Payload frame)) (fun request =>
    servedBatch s frame (batchPrimitiveLocked (srv_service s) (primitiveRequestsFromWire (bp_items request))
                           (ce_clock env))
      (replicateBatchPrimitive env request) (fun results =>
      packedFrame frame
        (EncodeBatchPrimitiveResponse (mkBatchPrimitiveResponse (primitiveResultsFromCache results))))).

(** ** Migration *)

(** src: transport/tcp/server_migration.go handleExportRange *)
Definition handleExportRange (env : callEnv) (s : Server E) (frame : Frame) : Server E * Frame :=
  decoded s frame (DecodeMigrationRangeRequest (Metadata frame)) (fun request =>
    served s frame (exportLocked (srv_service s) (rangeFromWire request) (ce_clock env 0%nat 0%nat))
      (fun s snapshot => (s, packedFrame frame (EncodeMigrationSnapshot (snapshotToWire snapshot))))).

(** src: transport/tcp/server_migration.go handleImportSnapshot *)
Definition handleImportSnapshot (env : callEnv) (s : Server E) (frame : Frame) : Server E * Frame :=
  decoded s frame (DecodeMigrationSnapshot (Metadata frame) (Payload frame)) (fun snapshot =>
    served s frame (importLocked (srv_service s) (snapshotFromWire snapshot)) (fun s result =>
      (s, metadataFrame frame
            (EncodeMigrationImportResponse (mkMigrationImportResponse (ir_imported result))) []))).

(** src: transport/tcp/server_migration.go handleDeleteRange *)
Definition handleDeleteRange (env : callEnv) (s : Server E) (frame : Frame) : Server E * Frame :=
  decoded s frame (DecodeMigrationRangeRequest (Metadata frame)) (fun request =>
    served s frame (deleteRangeLocked (srv_service s) (rangeFromWire request)) (fun s result =>
      (s, metadataFrame frame
            (EncodeMigrationDeleteRangeResponse (mkMigrationDeleteRangeResponse (dr_deleted result))) []))).

(** src: transport/tcp/server_migration.go handleFenceRange *)
Definition handleFenceRange (env : callEnv) (s : Server E) (frame : Frame) : Server E * Frame :=
  decoded s frame (DecodeMigrationRangeRequest (Metadata frame)) (fun request =>
    (withFences (addFence (rangeFenceFromWire request) (srv_fences s)) s,
     metadataFrame frame (EncodeMigrationFenceResponse (mkMigrationFenceResponse true)) [])).

(** src: transport/tcp/server_migration.go handleUnfenceRange *)
Definition handleUnfenceRange (env : callEnv) (s : Server E) (frame : Frame) : Server E * Frame :=
  decoded s frame (DecodeMigrationRangeRequest (Metadata frame)) (fun request =>
    (withFences (removeFence (rangeFenceFromWire request) (srv_fences s)) s,
     metadataFrame frame (EncodeMigrationFenceResponse (mkMigrationFenceResponse true)) [])).

(** ** Dispatch *)

(** src: transport/tcp/server.go handleUnsupportedFrame *)
Definition handleUnsupportedFrame (env : callEnv) (s : Server E) (frame : Frame) : Server E * Frame :=
  (s, errorFrame frame ErrorBadFrame (UnsupportedOp (FrameOp frame))).

Definition frameHandler := callEnv -> Server E -> Frame -> Server E * Frame.

(** src: transport/tcp/server.go cacheHandlers *)
Definition cacheHandlers : list (Op * frameHandler) :=
  [(OpCacheSet, handleSet); (OpCacheGet, handleGet); (OpCacheDelete, handleDelete); (OpCacheExists, handleExists);
   (OpCacheTouch, handleTouch); (OpCacheAdjust, handleAdjust); (OpCachePrimitive, handlePrimitive);
   (OpCacheBatchSet, handleBatchSet); (OpCacheBatchGet, handleBatchGet);
   (OpCacheBatchPrimitive, handleBatchPrimitive); (OpCacheBatchDelete, handleBatchDelete);
   (OpCacheBatchExists, handleBatchExists); (OpCacheBatchTouch, handleBatchTouch);
   (OpNodeHeartbeat, handleUnsupportedFrame); (OpNodeExportRange, handleExportRange);
   (OpNodeImportSnapshot, handleImportSnapshot); (OpNodeDeleteRange, handleDeleteRange);
   (OpNodeFenceRange, handleFenceRange); (OpNodeUnfenceRange, handleUnfenceRange);
   (OpControlSnapshot, handleUnsupportedFrame); (OpControlWatch, handleUnsupportedFrame)].

(** src: transport/tcp/server.go dispatchFrame *)
Definition dispatchFrame (env : callEnv) (s : Server E) (frame : Frame) : Server E * Frame :=
  match List.find (fun '(op, _) => op =? FrameOp frame) cacheHandlers with
  | None => (s, errorFrame frame ErrorBadFrame (UnsupportedOp (FrameOp frame)))
  | Some (_, handler) => handler env s frame
  end.

(** src: transport/tcp/server.go staleRoute *)
Definition staleRoute (s : Server E) (routeEpoch : Z) : bool * Z :=
  if routeEpoch =? 0 then (false, 0)
  else match srv_currentRouteEpoch s with
       | None => (false, 0)
       | Some current => ((0 <? current) && (routeEpoch <? current), current)
       end.

(** src: transport/tcp/server.go handleFrame *)
Definition handleFrame (env : callEnv) (s : Server E) (frame : Frame) : Server E * Frame :=
  let '(stale, current) := staleRoute s (RouteEpoch frame) in
  if (stale : bool) then (s, errorFrame frame ErrorNoRoute (StaleRouteEpoch (RouteEpoch frame) current))
  else match fencedMutation (srv_fences s) frame with
       | Err e => (s, errorFrame frame ErrorBadFrame (BadMetadata e))
       | Ok true => (s, errorFrame frame ErrorNoRoute (FencedRange (FrameOp frame)))
       | Ok false => dispatchFrame env s frame
       end.

(** The loop of [serveConn] on a connection on which [input] arrives before it is
    closed: the server and what it wrote.  [env i] surrounds the i-th request.
    The fuel bounds the number of turns of the loop; without it there is no result.
    src: transport/tcp/server.go serveConn *)
Fixpoint serveConn (fuel : nat) (env : nat -> callEnv) (s : Server E) (input output : list byte)
    : option (Server E * list byte) :=
  match fuel with
  | O => None
  | S fuel =>
      match Decode (srv_codec s) input with
      | (Err _, _) => Some (s, output)
      | (Ok frame, rest) =>
          let '(s, response) := handleFrame (env 0%nat) s frame in
          match Encode bufWrite (srv_codec s) output response with
          | (output, Err _) => Some (s, output)
          | (output, Ok _) => serveConn fuel (fun i => env (S i)) s rest output
          end
      end
  end.
End Handlers.
