(* ===== verification/TcpClient.v ===== *)
(** * The cache TCP client (transport/tcp: client.go, client_batch.go,
    client_batch_more.go, client_migration.go, client_pipeline.go)

    A call opens a connection, writes one frame and reads one frame.  Its peer is
    the server that was dialled, or nothing when dialling fails; the connection
    carries the bytes unchanged and the server's [serveConn] answers them.  The
    address and the timeouts are not modelled. *)

From S2P Require Import Prelude.
From S2P Require Import Binary.
From S2P Require Import GoStrings.
From S2P Require Import Frame.
From S2P Require Import EngineTypes.
From S2P Require Import Service.
From S2P Require Import WireTypes.
From S2P Require Import Wire.
From S2P Require Import WireBatch.
From S2P Require Import WirePrimitive.
From S2P Require Import TcpWire.
From S2P Require Import TcpServer.

Local Open Scope Z_scope.
Local Open Scope nespa_scope.

(** What a call of the client returns instead of a response. *)
Inductive clientError :=
| DialFailed
| EncodeFailed (e : wireError)
| WriteFrameFailed (e : frameError)
| ReadFrameFailed (e : frameError)
| RequestIDMismatch (got want : Z)
| RemoteError (e : Error)
| UnreadableError
| DecodeFailed (e : wireError)
| DuplicateRequestID (id : Z)
| UnknownResponseID (id : Z)
| DuplicateResponseID (id : Z).

(** src: transport/tcp/client.go Client *)
Record Client := mkClient { cl_codec : Frame.Codec; cl_nextID : Z }.

(** src: transport/tcp/client.go NewClient *)
Definition NewClient : Client := mkClient (NewCodec []) 0.

(** src: transport/tcp/client.go decodeError *)
Definition decodeError `{!ErrorBody} (frame : Frame) : clientError :=
  match unmarshalError (Metadata frame) with
  | None => UnreadableError
  | Some body => RemoteError body
  end.

(** [out.Value = append(out.Value[:0], frame.Payload...)]. *)
Definition withRecordValue (r : WireRecord) (value : list byte) : WireRecord :=
  WireTypes.mkRecord (wr_found r) (wr_namespace r) (wr_space r) (wr_entity r) (wr_key r) value (wr_version r)
    (wr_namespaceVersion r) (wr_spaceVersion r) (wr_expireAtUnixMs r) (wr_payloadOffset r) (wr_payloadSize r).

(** src: transport/tcp/client.go decodeRecord *)
Definition decodeRecord (frame : Frame) : result clientError WireRecord :=
  out ← map_err DecodeFailed (DecodeRecord (Metadata frame));
  if 0 <? zlen (Payload frame) then Ok (withRecordValue out (Payload frame)) else Ok out.

Section Client.
  Context `{!RangeOrder, !ErrorBody} {E : Type} `{!Engine E}.

(** The client and the peer after a call, and what it returned. *)
Definition called (A : Type) : Type := Client * option (Server E) * result clientError A.

(** The bytes the server writes on a connection on which [input] arrives.  The fuel is
    enough ([serve_returns]), so that the case without a result does not arise. *)
Definition serve (env : nat -> callEnv) (s : Server E) (input : list byte) : Server E * list byte :=
  default (s, []) (serveConn (S (length input)) env s input []).

(** [routeEpoch] and [op] are those of the frame.
    src: transport/tcp/client.go do *)
Definition do (env : callEnv) (c : Client) (peer : option (Server E)) (op : Op) (routeEpoch : Z)
    (metadata payload : list byte) : called Frame :=
  match peer with
  | None => (c, None, Err DialFailed)
  | Some srv =>
      let requestID := cl_nextID c +% 1 in
      let c := mkClient (cl_codec c) requestID in
      let '(sent, written) := Encode bufWrite (cl_codec c) [] (mkFrame 0 op requestID routeEpoch metadata payload) in
      let '(srv, received) := serve (fun _ => env) srv sent in
      (c, Some srv,
       match written with
       | Err e => Err (WriteFrameFailed e)
       | Ok _ =>
           match (Decode (cl_codec c) received).1 with
           | Err e => Err (ReadFrameFailed e)
           | Ok frame =>
               if negb (RequestID frame =? requestID) then Err (RequestIDMismatch (RequestID frame) requestID)
               else if negb (Z.land (Flags frame) FlagError =? 0) then Err (decodeError frame)
               else Ok frame
           end
       end)
  end.

(** The rest of a call: [if err != nil { return ..., err }], then the decoder. *)
Definition thenDecode {A B} (out : called A) (decode : A -> result clientError B) : called B :=
  let '(c, peer, r) := out in (c, peer, r ≫= decode).

(** A call whose request cannot be encoded sends nothing. *)
Definition encoded {A} (c : Client) (peer : option (Server E)) (r : result wireError (list byte * list byte))
    (k : list byte -> list byte -> called A) : called A :=
  match r with
  | Err e => (c, peer, Err (EncodeFailed e))
  | Ok (metadata, payload) => k metadata payload
  end.

Definition decodeMetadata {A} (decode : list byte -> result wireError A) (frame : Frame) : result clientError A :=
  map_err DecodeFailed (decode (Metadata frame)).

(** src: transport/tcp/client.go Set *)
Definition clientSet env c peer (request : WireTypes.SetRequest) : called WireRecord :=
  thenDecode (do env c peer OpCacheSet (ws_routeEpoch request) (EncodeSetRequest request) (ws_value request))
    decodeRecord.

(** src: transport/tcp/client.go Get *)
Definition clientGet env c peer (request : WireTypes.GetRequest) : called WireRecord :=
  thenDecode (do env c peer OpCacheGet (wg_routeEpoch request) (EncodeGetRequest request) []) decodeRecord.

(** src: transport/tcp/client.go Delete *)
Definition clientDelete env c peer (request : WireTypes.DeleteRequest) : called DeleteResponse :=
  thenDecode (do env c peer OpCacheDelete (wd_routeEpoch request) (EncodeDeleteRequest request) [])
    (decodeMetadata DecodeDeleteResponse).

(** src: transport/tcp/client.go Exists *)
Definition clientExists env c peer (request : ExistsRequest) : called ExistsResponse :=
  thenDecode (do env c peer OpCacheExists (we_routeEpoch request) (EncodeExistsRequest request) [])
    (decodeMetadata DecodeExistsResponse).

(** src: transport/tcp/client.go Touch *)
Definition clientTouch env c peer (request : WireTypes.TouchRequest) : called TouchResponse :=
  thenDecode (do env c peer OpCacheTouch (wt_routeEpoch request) (EncodeTouchRequest request) [])
    (decodeMetadata DecodeTouchResponse).

(** src: transport/tcp/client.go Adjust *)
Definition clientAdjust env c peer (request : AdjustRequest) : called WireRecord :=
  thenDecode (do env c peer OpCacheAdjust (wa_routeEpoch request) (EncodeAdjustRequest request) []) decodeRecord.

(** src: transport/tcp/client.go Primitive *)
Definition clientPrimitive env c peer (request : WireTypes.PrimitiveRequest) : called WireTypes.PrimitiveResult :=
  encoded c peer (EncodePrimitiveRequest request) (fun metadata payload =>
    thenDecode (do env c peer OpCachePrimitive (wp_routeEpoch request) metadata payload) (fun frame =>
      map_err DecodeFailed (DecodePrimitiveResponse (Metadata frame) (Payload frame)))).

(** ** Batches *)

(** src: transport/tcp/client_batch.go BatchSet *)
Definition clientBatchSet env c peer (request : BatchSetRequest) : called BatchSetResponse :=
  encoded c peer (EncodeBatchSetRequest request) (fun metadata payload =>
    thenDecode (do env c peer OpCacheBatchSet (bs_routeEpoch request) metadata payload)
      (decodeMetadata DecodeBatchSetResponse)).

(** src: transport/tcp/client_batch.go BatchGet *)
Definition clientBatchGet env c peer (request : BatchGetRequest) : called BatchGetResponse :=
  thenDecode (do env c peer OpCacheBatchGet (bg_routeEpoch request) (EncodeBatchGetRequest request) [])
    (fun frame => map_err DecodeFailed (DecodeBatchGetResponse (Metadata frame) (Payload frame))).

(** src: transport/tcp/client_batch.go BatchDelete *)
Definition clientBatchDelete env c peer (request : BatchDeleteRequest) : called BatchDeleteResponse :=
  thenDecode (do env c peer OpCacheBatchDelete (bd_routeEpoch request) (EncodeBatchDeleteRequest request) [])
    (decodeMetadata DecodeBatchDeleteResponse).

(** src: transport/tcp/client_batch.go BatchExists *)
Definition clientBatchExists env c peer (request : BatchExistsRequest) : called BatchExistsResponse :=
  thenDecode (do env c peer OpCacheBatchExists (be_routeEpoch request) (EncodeBatchExistsRequest request) [])
    (decodeMetadata DecodeBatchExistsResponse).

(** src: transport/tcp/client_batch_more.go BatchTouch *)
Definition clientBatchTouch env c peer (request : BatchTouchRequest) : called BatchTouchResponse :=
  thenDecode (do env c peer OpCacheBatchTouch (bt_routeEpoch request) (EncodeBatchTouchRequest request) [])
    (decodeMetadata DecodeBatchTouchResponse).

(** src: transport/tcp/client_batch_more.go BatchPrimitive *)
Definition clientBatchPrimitive env c peer (request : BatchPrimitiveRequest) : called BatchPrimitiveResponse :=
  encoded c peer (EncodeBatchPrimitiveRequest request) (fun metadata payload =>
    thenDecode (do env c peer OpCacheBatchPrimitive (bp_routeEpoch request) metadata payload) (fun frame =>
      map_err DecodeFailed (DecodeBatchPrimitiveResponse (Metadata frame) (Payload frame)))).

(** ** Migration *)

(** src: transport/tcp/client_migration.go ExportRange *)
Definition clientExportRange env c peer (request : MigrationRangeRequest) : called MigrationSnapshot :=
  thenDecode (do env c peer OpNodeExportRange (mrq_routeEpoch request) (EncodeMigrationRangeRequest request) [])
    (fun frame => map_err DecodeFailed (DecodeMigrationSnapshot (Metadata frame) (Payload frame))).

(** src: transport/tcp/client_migration.go ImportSnapshot *)
Definition clientImportSnapshot env c peer (snapshot : MigrationSnapshot) : called MigrationImportResponse :=
  encoded c peer (EncodeMigrationSnapshot snapshot) (fun metadata payload =>
    thenDecode (do env c peer OpNodeImportSnapshot 0 metadata payload)
      (decodeMetadata DecodeMigrationImportResponse)).

(** src: transport/tcp/client_migration.go DeleteRange *)
Definition clientDeleteRange env c peer (request : MigrationRangeRequest) : called MigrationDeleteRangeResponse :=
  thenDecode (do env c peer OpNodeDeleteRange (mrq_routeEpoch request) (EncodeMigrationRangeRequest request) [])
    (decodeMetadata DecodeMigrationDeleteRangeResponse).

(** src: transport/tcp/client_migration.go rangeFenceCommand *)
Definition rangeFenceCommand env c peer (op : Op) (request : MigrationRangeRequest) : called MigrationFenceResponse :=
  thenDecode (do env c peer op (mrq_routeEpoch request) (EncodeMigrationRangeRequest request) [])
    (decodeMetadata DecodeMigrationFenceResponse).

(** src: transport/tcp/client_migration.go FenceRange *)
Definition clientFenceRange env c peer request := rangeFenceCommand env c peer OpNodeFenceRange request.

(** src: transport/tcp/client_migration.go UnfenceRange *)
Definition clientUnfenceRange env c peer request := rangeFenceCommand env c peer OpNodeUnfenceRange request.
End Client.

(** ** Pipelines *)

(** src: transport/tcp/client_pipeline.go NewPipelineSetFrame *)
Definition NewPipelineSetFrame (c : Client) (request : WireTypes.SetRequest) : Client * Frame :=
  let id := cl_nextID c +% 1 in
  (mkClient (cl_codec c) id,
   mkFrame 0 OpCacheSet id (ws_routeEpoch request) (EncodeSetRequest request) (ws_value request)).

(** src: transport/tcp/client_pipeline.go NewPipelineGetFrame *)
Definition NewPipelineGetFrame (c : Client) (request : WireTypes.GetRequest) : Client * Frame :=
  let id := cl_nextID c +% 1 in
  (mkClient (cl_codec c) id, mkFrame 0 OpCacheGet id (wg_routeEpoch request) (EncodeGetRequest request) []).

(** The loop of [pipelineFramePositions] from [index].
    src: transport/tcp/client_pipeline.go pipelineFramePositions *)
Fixpoint pipelineFramePositions (frames : list Frame) (index : nat) (positions : gmap Z nat)
    : result clientError (gmap Z nat) :=
  match frames with
  | [] => Ok positions
  | frame :: rest =>
      match positions !! RequestID frame with
      | Some _ => Err (DuplicateRequestID (RequestID frame))
      | None => pipelineFramePositions rest (S index) (<[RequestID frame := index]> positions)
      end
  end.

(** src: transport/tcp/client_pipeline.go writePipelineFrames *)
Fixpoint writePipelineFrames (codec : Frame.Codec) (conn : list byte) (frames : list Frame)
    : list byte * result clientError unit :=
  match frames with
  | [] => (conn, Ok tt)
  | frame :: rest =>
      match Encode bufWrite codec conn frame with
      | (conn, Err e) => (conn, Err (WriteFrameFailed e))
      | (conn, Ok _) => writePipelineFrames codec conn rest
      end
  end.

(** src: transport/tcp/client_pipeline.go recordPipelineResponse *)
Definition recordPipelineResponse (responses : list Frame) (seen : gset Z) (positions : gmap Z nat) (response : Frame)
    : result clientError (list Frame * gset Z) :=
  match positions !! RequestID response with
  | None => Err (UnknownResponseID (RequestID response))
  | Some index =>
      if bool_decide (RequestID response ∈ seen) then Err (DuplicateResponseID (RequestID response))
      else Ok (<[index := response]> responses, {[RequestID response]} ∪ seen)
  end.

(** The loop of [readPipelineResponses] over the frames still to be read.
    src: transport/tcp/client_pipeline.go readPipelineResponses *)
Fixpoint readResponses (codec : Frame.Codec) (positions : gmap Z nat) (count : nat) (stream : list byte)
    (responses : list Frame) (seen : gset Z) : result clientError (list Frame) :=
  match count with
  | O => Ok responses
  | S count =>
      match Decode codec stream with
      | (Err e, _) => Err (ReadFrameFailed e)
      | (Ok response, stream) =>
          '(responses, seen) ← recordPipelineResponse responses seen positions response;
          readResponses codec positions count stream responses seen
      end
  end.

(** [protocol.Frame{}]. *)
Definition zeroFrame : Frame := mkFrame 0 0 0 0 [] [].

Definition readPipelineResponses (codec : Frame.Codec) (positions : gmap Z nat) (count : nat) (stream : list byte)
    : result clientError (list Frame) :=
  readResponses codec positions count stream (List.repeat zeroFrame count) ∅.

(** [RoundTrip] on a connection whose peer answers the bytes [sent] with the bytes
    [answer sent].  The connection takes all of [sent] before a response is read: with a
    batch larger than the buffers of the two sockets, the client and a server that waits
    for room for its responses would wait for each other.
    src: transport/tcp/client_pipeline.go RoundTrip *)
Definition RoundTrip (codec : Frame.Codec) (answer : list byte -> list byte) (frames : list Frame)
    : result clientError (list Frame) :=
  match frames with
  | [] => Ok []
  | _ =>
      positions ← pipelineFramePositions frames 0 ∅;
      let '(sent, written) := writePipelineFrames codec [] frames in
      _ ← written;
      readPipelineResponses codec positions (length frames) (answer sent)
  end.
