(* ===== verification/TcpSpec.v ===== *)
(** * Connections, fences and remote calls

    What a connection answers, which requests the server refuses, and that a call
    of the client is a call of the service behind the server. *)

From S2P Require Import Prelude.
From S2P Require Import Binary.
From S2P Require Import GoStrings.
From S2P Require Import Frame.
From S2P Require Import Routing.
From S2P Require Import EngineTypes.
From S2P Require Import Shard.
From S2P Require Import Primitives.
From S2P Require Import MemoryEngine.
From S2P Require Import Service.
From S2P Require Import WireTypes.
From S2P Require Import Wire.
From S2P Require Import WireBatch.
From S2P Require Import WirePrimitive.
From S2P Require Import WireSpec.
From S2P Require Import WireMessages.
From S2P Require Import Replication.
From S2P Require Import TcpWire.
From S2P Require Import TcpServer.
From S2P Require Import TcpClient.

Local Open Scope Z_scope.
Local Open Scope nespa_scope.

Create HintDb tcp.

Section Spec.
  Context `{!RangeOrder, !ErrorBody} {E : Type} `{!Engine E}.
  Implicit Types (s : Server E) (f : Frame) (env : callEnv).

(** ** Responses *)

(** A response carries the op, the identifier and the epoch of its request. *)
Definition answers (f response : Frame) : Prop :=
  FrameOp response = FrameOp f /\ RequestID response = RequestID f /\ RouteEpoch response = RouteEpoch f /\
  (Flags response = 1 \/ Flags response = 3).

(** What no request changes. *)
Definition same_config s s' : Prop :=
  srv_codec s' = srv_codec s /\ srv_currentRouteEpoch s' = srv_currentRouteEpoch s /\
  srv_replicaTargets s' = srv_replicaTargets s.

Definition handled s f (out : Server E * Frame) : Prop := same_config s out.1 /\ answers f out.2.

Lemma answers_metadata f m p : answers f (metadataFrame f m p).
Proof. unfold answers. auto. Qed.
Lemma answers_error f code err : answers f (errorFrame f code err).
Proof. unfold answers. auto. Qed.
Lemma answers_record f rec found : answers f (recordFrame f rec found).
Proof. unfold recordFrame. destruct found; apply answers_metadata. Qed.
Lemma answers_packed f r : answers f (packedFrame f r).
Proof. destruct r as [[]|]; [apply answers_metadata|apply answers_error]. Qed.

Lemma same_config_refl s : same_config s s.
Proof. done. Qed.
Lemma same_config_trans s s' s'' : same_config s s' -> same_config s' s'' -> same_config s s''.
Proof. unfold same_config. intros (? & ? & ?) (-> & -> & ->). done. Qed.
Lemma replicate_config env key c s : same_config s (replicate env key c s).
Proof. unfold replicate. by destruct (srv_replicaTargets s). Qed.

Lemma decoded_handled {A} s f (r : result wireError A) k : (forall a, handled s f (k a)) -> handled s f (decoded s f r k).
Proof. intros Hk. destruct r; [apply Hk|]. split; [apply same_config_refl|apply answers_error]. Qed.

Lemma served_handled {A} s f (out : EngineService E * result serviceError A) k :
  (forall svc a, handled (withService svc s) f (k (withService svc s) a)) -> handled s f (served s f out k).
Proof.
  intros Hk. destruct out as [svc [a|e]]; [|split; [done|apply answers_error]].
  destruct (Hk svc a) as [Hc Ha]. split; [|done]. by eapply same_config_trans.
Qed.

Lemma servedBatch_handled {R} s f (out : EngineService E * (list R * option serviceError)) rep reply :
  (forall results s', same_config s' (rep results s')) -> (forall results, answers f (reply results)) ->
  handled s f (servedBatch s f out rep reply).
Proof.
  intros Hrep Hreply. destruct out as [svc [results [e|]]]; cbn.
  - split; [apply (same_config_trans s (withService svc s)); [done|apply Hrep]|apply answers_error].
  - split; [apply (same_config_trans s (withService svc s)); [done|apply Hrep]|apply Hreply].
Qed.

Hint Resolve answers_metadata answers_error answers_record answers_packed same_config_refl replicate_config : tcp.

(** The handlers, by the shape of their bodies. *)
Ltac handler :=
  intros; apply decoded_handled; intros;
  first [ apply servedBatch_handled; [by intros|intros; auto with tcp]
        | apply served_handled; intros; repeat case_match; split; cbn [fst snd]; auto with tcp
        | split; cbn [fst snd]; auto with tcp; done ].

Lemma dispatchFrame_handled env s f : handled s f (dispatchFrame env s f).
Proof.
  unfold dispatchFrame. destruct (List.find (fun '(op, _) => op =? FrameOp f) cacheHandlers) as [[op h]|] eqn:Hf.
  - apply List.find_some in Hf as [Hin _].
    assert (Forall (fun '(_, h) => forall env s f, handled s f (h env s f)) (cacheHandlers (E := E))) as Hall.
    { unfold cacheHandlers. repeat apply Forall_cons_2; [..|apply Forall_nil_2].
      all: try (intros; split; [apply same_config_refl|apply answers_error]).
      all: handler. all: apply replicate_config. }
    rewrite Forall_forall in Hall. apply (Hall (op, h)). by apply list_elem_of_In.
  - split; [apply same_config_refl|apply answers_error].
Qed.

Lemma handleFrame_handled env s f : handled s f (handleFrame env s f).
Proof.
  unfold handleFrame. destruct (staleRoute s _) as [[] current]; [split; [done|apply answers_error]|].
  destruct (fencedMutation _ f) as [[]|]; [split; [done|apply answers_error]|apply dispatchFrame_handled|].
  split; [done|apply answers_error].
Qed.

(** C36: whatever a request asks for, its response is a well typed frame with the op,
    the identifier and the route epoch of the request, flagged as a response, and
    the server keeps its limits, its route epoch and its replicas. *)
Theorem response_typed env s f : frame_typed f ->
  let '(s', response) := handleFrame env s f in
  frame_typed response /\ answers f response /\ same_config s s'.
Proof.
  intros (H1 & H2 & H3 & H4). pose proof (handleFrame_handled env s f) as [Hc (E1 & E2 & E3 & E4)].
  destruct (handleFrame env s f) as [s' response]. cbn [fst snd] in *. split_and!; [|done..].
  unfold frame_typed. rewrite E1, E2, E3. split_and!; try done; destruct E4 as [E4|E4]; rewrite ?E4; lia.
Qed.

(** ** Connections *)

(** The requests of a connection one after the other. *)
Fixpoint handleAll (env : nat -> callEnv) s (frames : list Frame) : Server E * list Frame :=
  match frames with
  | [] => (s, [])
  | f :: rest =>
      let '(s, response) := handleFrame (env 0%nat) s f in
      let '(s, responses) := handleAll (fun i => env (S i)) s rest in
      (s, response :: responses)
  end.

(** The bytes of frames on a connection. *)
Definition stream (frames : list Frame) : list byte := frames ≫= frame_bytes.

Definition sendable c f : Prop := frame_typed f /\ frame_admissible c f.

Lemma frame_bytes_length f : (32 <= length (frame_bytes f))%nat.
Proof. unfold frame_bytes. rewrite length_app, length_header. lia. Qed.

Lemma stream_cons f frames : stream (f :: frames) = frame_bytes f ++ stream frames.
Proof. done. Qed.

Lemma answers_sendable c f response : frame_typed f -> frame_admissible c f -> answers f response ->
  zlen (Metadata response) <= (limits c).1 -> zlen (Payload response) <= (limits c).2 -> sendable c response.
Proof.
  intros (H1 & H2 & H3 & H4) (H5 & _) (E1 & E2 & E3 & E4) Hm Hp.
  unfold sendable, frame_typed, frame_admissible. rewrite E1, E2, E3.
  split_and!; try done; try lia; destruct E4 as [-> | ->]; lia.
Qed.

(** What a connection does: it answers the frames that arrive until one cannot be read or
    the response to one cannot be written. *)
Inductive conn_served : (nat -> callEnv) -> Server E -> list byte -> list byte -> Server E -> list byte -> Prop :=
| served_end (env : nat -> callEnv) s (input output : list byte) e rest :
    Decode (srv_codec s) input = (Err e, rest) -> conn_served env s input output s output
| served_lost (env : nat -> callEnv) s input output f rest s' response written e :
    Decode (srv_codec s) input = (Ok f, rest) -> handleFrame (env 0%nat) s f = (s', response) ->
    Encode bufWrite (srv_codec s') output response = (written, Err e) -> conn_served env s input output s' written
| served_next (env : nat -> callEnv) s input output f rest s' response written u s'' out :
    Decode (srv_codec s) input = (Ok f, rest) -> handleFrame (env 0%nat) s f = (s', response) ->
    Encode bufWrite (srv_codec s') output response = (written, Ok u) ->
    conn_served (fun i => env (S i)) s' rest written s'' out -> conn_served env s input output s'' out.

Lemma serveConn_returns (env : nat -> callEnv) s input output : codec_typed (srv_codec s) ->
  exists s' out, conn_served env s input output s' out /\
    forall fuel, (length input < fuel)%nat -> serveConn fuel env s input output = Some (s', out).
Proof.
  remember (length input) as n eqn:Hn. revert env s input output Hn.
  induction n as [n IH] using lt_wf_ind; intros env s input output -> Hc.
  destruct (Decode (srv_codec s) input) as [[f|e] rest] eqn:Hd.
  2:{ exists s, output. split; [by eapply served_end|]. intros [|fuel] Hf; [lia|]. cbn [serveConn]. by rewrite Hd. }
  destruct (handleFrame (env 0%nat) s f) as [s1 response] eqn:Hh.
  destruct (Encode bufWrite (srv_codec s1) output response) as [written [u|e]] eqn:He.
  2:{ exists s1, written. split; [by eapply served_lost|]. intros [|fuel] Hf; [lia|]. cbn [serveConn]. by rewrite Hd, Hh, He. }
  pose proof (handleFrame_handled (env 0%nat) s f) as [(Hcodec & _ & _) _]. rewrite Hh in Hcodec. cbn [fst] in Hcodec.
  pose proof Hd as (_ & _ & Hin)%Decode_inv; [|done]. pose proof (frame_bytes_length f) as Hlen.
  assert (length rest < length input)%nat as Hlt by (rewrite Hin, length_app; lia).
  destruct (IH (length rest) Hlt (fun i => env (S i)) s1 rest written eq_refl) as (s' & out & Hs & Hr); [by rewrite Hcodec|].
  exists s', out. split; [by eapply served_next|]. intros [|fuel] Hf; [lia|]. cbn [serveConn]. rewrite Hd, Hh, He. apply Hr. lia.
Qed.

(** The fuel of [serve] is enough. *)
Lemma serve_returns (env : nat -> callEnv) s input : codec_typed (srv_codec s) ->
  serveConn (S (length input)) env s input [] = Some (serve env s input).
Proof.
  intros Hc. destruct (serveConn_returns env s input [] Hc) as (s' & out & _ & Hr). unfold serve. by rewrite Hr by lia.
Qed.

(** C35: the loop of a connection ends: each turn takes at least the bytes of a header from
    the input, so that with more fuel than there are bytes it returns, with what the
    connection does: the answers to the frames that arrive, until one cannot be read or
    a response cannot be written. *)
Theorem connection_terminates (env : nat -> callEnv) s input output : codec_typed (srv_codec s) ->
  exists s' out, conn_served env s input output s' out /\
    forall fuel, (length input < fuel)%nat -> serveConn fuel env s input output = Some (s', out).
Proof. apply serveConn_returns. Qed.

(** Frames that arrive one after the other are answered one after the other. *)
Lemma serveConn_stream (env : nat -> callEnv) s frames rest output fuel : codec_typed (srv_codec s) ->
  Forall (sendable (srv_codec s)) frames -> Forall (sendable (srv_codec s)) (handleAll env s frames).2 ->
  (length (stream frames ++ rest) < fuel)%nat ->
  exists fuel', (length rest < fuel')%nat /\
  serveConn fuel env s (stream frames ++ rest) output =
  serveConn fuel' (fun i => env (length frames + i)%nat) (handleAll env s frames).1 rest
    (output ++ stream (handleAll env s frames).2).
Proof.
  revert env s output fuel. induction frames as [|f frames IH]; intros env s output fuel Hc Hf Hr Hfuel.
  { exists fuel. split; [done|]. by rewrite app_nil_r. }
  apply Forall_cons in Hf as [[Ht Ha] Hf]. destruct fuel as [|fuel]; [lia|]. cbn [serveConn handleAll] in Hr |- *.
  rewrite stream_cons, <- app_assoc in Hfuel |- *. rewrite Decode_bytes by done.
  pose proof (handleFrame_handled (env 0%nat) s f) as [(Hcodec & _ & _) _].
  destruct (handleFrame (env 0%nat) s f) as [s' response]. cbn [fst] in Hcodec.
  destruct (handleAll (fun i => env (S i)) s' frames) as [s'' responses] eqn:Hall. cbn [fst snd] in Hr |- *.
  apply Forall_cons in Hr as [[_ Hresp] Hr]. rewrite Hcodec, Encode_buf by done.
  pose proof (frame_bytes_length f). rewrite length_app in Hfuel.
  destruct (IH (fun i => env (S i)) s' (output ++ frame_bytes response) fuel) as (fuel' & Hl & E1);
    [by rewrite Hcodec|by rewrite Hcodec|by rewrite Hall, Hcodec|lia|].
  rewrite Hall in E1. exists fuel'. split; [done|]. rewrite E1, stream_cons, app_assoc. done.
Qed.

Lemma serve_stream (env : nat -> callEnv) s frames : codec_typed (srv_codec s) ->
  Forall (sendable (srv_codec s)) frames -> Forall (sendable (srv_codec s)) (handleAll env s frames).2 ->
  serve env s (stream frames) = ((handleAll env s frames).1, stream (handleAll env s frames).2).
Proof.
  intros Hc Hf Hr. unfold serve. rewrite <- (app_nil_r (stream frames)) at 2.
  destruct (serveConn_stream env s frames [] [] (S (length (stream frames))) Hc Hf Hr) as (fuel & Hl & ->).
  { rewrite app_nil_r. lia. }
  destruct fuel as [|fuel]; [cbn in Hl; lia|]. cbn [serveConn app]. done.
Qed.

(** ** One call *)

(** A response that fits in a frame. *)
Definition fits (c : Frame.Codec) (f : Frame) : Prop :=
  zlen (Metadata f) <= (limits c).1 /\ zlen (Payload f) <= (limits c).2.

#[global] Instance fits_dec c f : Decision (fits c f).
Proof. unfold fits. apply _. Defined.

(** The frame the client sends. *)
Definition requestFrame (c : Client) (op : Op) (routeEpoch : Z) (metadata payload : list byte) : Frame :=
  mkFrame 0 op (cl_nextID c +% 1) routeEpoch metadata payload.

Definition isError (f : Frame) : bool := negb (Z.land (Flags f) FlagError =? 0).

(** The client after a call. *)
Definition nextClient (c : Client) : Client := mkClient (cl_codec c) (cl_nextID c +% 1).

Lemma do_ok env (c : Client) s op routeEpoch metadata payload s' response :
  handleFrame env s (requestFrame c op routeEpoch metadata payload) = (s', response) ->
  codec_typed (srv_codec s) -> cl_codec c = srv_codec s -> 0 < op < 2 ^ 16 -> is_u64 routeEpoch ->
  fits (srv_codec s) (requestFrame c op routeEpoch metadata payload) -> fits (srv_codec s) response ->
  do env c (Some s) op routeEpoch metadata payload =
  (nextClient c, Some s', if isError response then Err (decodeError response) else Ok response).
Proof.
  set (f := requestFrame c op routeEpoch metadata payload). intros Hh.
  pose proof (handleFrame_handled env s f) as [_ Hans]. rewrite Hh in Hans. cbn [snd] in Hans. intros Hc Hcodec Hop Hepoch [Hm Hp] [Hrm Hrp].
  assert (sendable (srv_codec s) f) as Hsend.
  { split; [|split_and!; [cbn; lia|done|done]]. unfold frame_typed. cbn. split_and!; try lia; try done; apply u64_range. }
  pose proof Hsend as [Ht Ha].
  pose proof (answers_sendable _ _ _ Ht Ha Hans Hrm Hrp) as Hresp. pose proof Hresp as [Hrt Hra].
  unfold do. fold (nextClient c). cbn [cl_codec nextClient]. rewrite Hcodec.
  change (mkFrame 0 op (cl_nextID c +% 1) routeEpoch metadata payload) with f. rewrite Encode_buf by done.
  replace ([] ++ frame_bytes f) with (stream [f]) by (rewrite stream_cons; apply app_nil_r).
  assert (handleAll (fun _ => env) s [f] = (s', [response])) as Hall by (cbn [handleAll]; by rewrite Hh).
  rewrite serve_stream; [|done|by apply Forall_singleton|rewrite Hall; by apply Forall_singleton]. rewrite Hall.
  cbn [fst snd]. rewrite stream_cons, Decode_bytes by done. cbn [fst].
  destruct Hans as (_ & -> & _). unfold f. cbn [RequestID requestFrame].
  rewrite Z.eqb_refl. cbn [negb]. unfold isError. unfold nextClient. by rewrite Hcodec.
Qed.

(** The server closes the connection. *)
Lemma do_oversized env (c : Client) s op routeEpoch metadata payload :
  let f := requestFrame c op routeEpoch metadata payload in
  codec_typed (srv_codec s) -> cl_codec c = srv_codec s -> 0 < op < 2 ^ 16 -> is_u64 routeEpoch ->
  fits (srv_codec s) f -> ~ fits (srv_codec s) (handleFrame env s f).2 ->
  do env c (Some s) op routeEpoch metadata payload =
  (nextClient c, Some (handleFrame env s f).1, Err (ReadFrameFailed ErrEOF)).
Proof.
  intros f Hc Hcodec Hop Hepoch [Hm Hp] Hbig.
  assert (frame_typed f /\ frame_admissible (srv_codec s) f) as [Ht Ha].
  { split; [|split_and!; [cbn; lia|done|done]]. unfold frame_typed. cbn. split_and!; try lia; try done; apply u64_range. }
  unfold do. fold (nextClient c). cbn [cl_codec nextClient]. rewrite Hcodec.
  change (mkFrame 0 op (cl_nextID c +% 1) routeEpoch metadata payload) with f. rewrite Encode_buf by done.
  unfold serve. cbn [app serveConn]. pose proof (Decode_bytes (srv_codec s) f [] Hc Ht Ha) as Hd.
  rewrite app_nil_r in Hd. rewrite Hd.
  pose proof (handleFrame_handled env s f) as [(Hsame & _ & _) _].
  destruct (handleFrame env s f) as [s' response]. cbn [fst snd] in Hsame, Hbig |- *. rewrite Hsame.
  destruct (frame_encode_rejects bufWrite (srv_codec s) [] response Hc) as [->| ->];
    [intros (_ & ? & ?); by apply Hbig| |]; unfold nextClient; by rewrite Hcodec.
Qed.

(** A request whose response is too large for a frame takes effect and is not
    answered: the server closes the connection, and the client reports the end of
    the stream although the service has changed. *)
Theorem oversized_response_is_lost env (c : Client) s op routeEpoch metadata payload :
  let f := requestFrame c op routeEpoch metadata payload in
  codec_typed (srv_codec s) -> cl_codec c = srv_codec s -> 0 < op < 2 ^ 16 -> is_u64 routeEpoch ->
  fits (srv_codec s) f -> ~ fits (srv_codec s) (handleFrame env s f).2 ->
  do env c (Some s) op routeEpoch metadata payload =
  (nextClient c, Some (handleFrame env s f).1, Err (ReadFrameFailed ErrEOF)).
Proof. apply do_oversized. Qed.

(** A call leaves the server as it was or as the request made it, and what it
    returns, when it returns a frame, is the answer to the request. *)
Lemma do_cases env (c : Client) s op routeEpoch metadata payload :
  let f := requestFrame c op routeEpoch metadata payload in
  codec_typed (srv_codec s) -> cl_codec c = srv_codec s -> 0 < op < 2 ^ 16 -> is_u64 routeEpoch ->
  exists s' r, do env c (Some s) op routeEpoch metadata payload = (nextClient c, Some s', r) /\
  ((s' = s /\ exists e, r = Err e) \/
   (s' = (handleFrame env s f).1 /\ forall g, r = Ok g -> g = (handleFrame env s f).2 /\ isError g = false /\
    fits (srv_codec s) f /\ fits (srv_codec s) g)).
Proof.
  intros f Hc Hcodec Hop Hepoch. destruct (decide (fits (srv_codec s) f)) as [Hf|Hf].
  - destruct (handleFrame env s f) as [s' response] eqn:Hh.
    destruct (decide (fits (srv_codec s) response)) as [Hr|Hr].
    + rewrite (do_ok env c s op routeEpoch metadata payload s' response) by done. eexists _, _. split; [done|].
      right. split; [done|]. intros g. destruct (isError response) eqn:He; [done|]. by intros [= <-].
    + rewrite do_oversized by (try done; fold f; by rewrite Hh). fold f. rewrite Hh. eexists _, _.
      split; [done|]. right. split; [done|]. by intros g.
  - unfold do. fold (nextClient c). cbn [cl_codec nextClient]. rewrite Hcodec.
    change (mkFrame 0 op (cl_nextID c +% 1) routeEpoch metadata payload) with f.
    exists s. destruct (frame_encode_rejects bufWrite (srv_codec s) [] f Hc) as [->| ->];
      [intros (_ & ? & ?); by apply Hf| |]; (eexists; split; [unfold nextClient; rewrite Hcodec; reflexivity|]; left; eauto).
Qed.

(** ** Fences *)

Definition keeps_fences s (out : Server E * Frame) : Prop := srv_fences out.1 = srv_fences s.

Lemma replicate_fences env key c s : srv_fences (replicate env key c s) = srv_fences s.
Proof. unfold replicate. by destruct (srv_replicaTargets s). Qed.

Lemma decoded_fences {A} s f (r : result wireError A) k : (forall a, keeps_fences s (k a)) ->
  keeps_fences s (decoded s f r k).
Proof. intros Hk. destruct r; [apply Hk|done]. Qed.

Lemma served_fences {A} s f (out : EngineService E * result serviceError A) k :
  (forall svc a, keeps_fences (withService svc s) (k (withService svc s) a)) -> keeps_fences s (served s f out k).
Proof. intros Hk. destruct out as [svc [a|e]]; [apply Hk|done]. Qed.

Lemma servedBatch_fences {R} s f (out : EngineService E * (list R * option serviceError)) rep reply :
  (forall results s', srv_fences (rep results s') = srv_fences s') -> keeps_fences s (servedBatch s f out rep reply).
Proof. intros Hrep. destruct out as [svc [results [e|]]]; unfold keeps_fences; cbn; by rewrite Hrep. Qed.

(** Only the handlers of fences change fences. *)
Lemma dispatchFrame_fences env s f : FrameOp f <> OpNodeFenceRange -> FrameOp f <> OpNodeUnfenceRange ->
  keeps_fences s (dispatchFrame env s f).
Proof.
  intros Hf Hu. unfold dispatchFrame.
  destruct (List.find (fun '(op, _) => op =? FrameOp f) cacheHandlers) as [[op h]|] eqn:Hfind; [|done].
  apply List.find_some in Hfind as [Hin Hop%Z.eqb_eq].
  assert (Forall (fun '(op, h) => op <> OpNodeFenceRange -> op <> OpNodeUnfenceRange ->
    forall env s f, keeps_fences s (h env s f)) (cacheHandlers (E := E))) as Hall.
  { unfold cacheHandlers. repeat apply Forall_cons_2; [..|apply Forall_nil_2]; intros Hf' Hu'; try done; intros;
      try done; apply decoded_fences; intros;
      first [ by apply servedBatch_fences
            | apply served_fences; intros; unfold keeps_fences; repeat case_match; cbn [fst]; try done;
              unfold replicateSet, replicateDelete, replicateTouch, replicateAdjust, replicatePrimitive;
              by rewrite replicate_fences ]. }
  rewrite Forall_forall in Hall. apply (Hall (op, h)); [by apply list_elem_of_In|congruence|congruence].
Qed.

(** A frame that lifts a fence. *)
Definition lifts (fence : rangeFence) f : Prop :=
  FrameOp f = OpNodeUnfenceRange /\ exists r, DecodeMigrationRangeRequest (Metadata f) = Ok r /\
  sameRangeFence fence (rangeFenceFromWire r) = true.

Lemma addFence_keeps fence new fences : fence ∈ fences -> fence ∈ addFence new fences.
Proof. intros Hin. unfold addFence. destruct (existsb _ _); [done|]. apply elem_of_app. by left. Qed.

Lemma handleFrame_fence fence env s f : fence ∈ srv_fences s -> ~ lifts fence f ->
  fence ∈ srv_fences (handleFrame env s f).1.
Proof.
  intros Hin Hlift. unfold handleFrame. destruct (staleRoute s _) as [[] current]; [done|].
  destruct (fencedMutation _ f) as [[]|]; [done| |done].
  destruct (decide (FrameOp f = OpNodeFenceRange)) as [Ef|Ef]; [|destruct (decide (FrameOp f = OpNodeUnfenceRange)) as [Eu|Eu]].
  - unfold dispatchFrame. rewrite Ef. cbn. unfold handleFenceRange.
    destruct (DecodeMigrationRangeRequest (Metadata f)); [|done]. by apply addFence_keeps.
  - unfold dispatchFrame. rewrite Eu. cbn. unfold handleUnfenceRange.
    destruct (DecodeMigrationRangeRequest (Metadata f)) as [r|] eqn:Er; [|done]. cbn. unfold removeFence.
    apply list_elem_of_In, List.filter_In. split; [by apply list_elem_of_In|].
    destruct (sameRangeFence fence (rangeFenceFromWire r)) eqn:Es; [|done]. destruct Hlift. split; [done|]. by exists r.
  - by rewrite (dispatchFrame_fences env s f Ef Eu).
Qed.

Lemma handleAll_fence fence (env : nat -> callEnv) s frames : fence ∈ srv_fences s -> Forall (fun f => ~ lifts fence f) frames ->
  fence ∈ srv_fences (handleAll env s frames).1.
Proof.
  revert env s. induction frames as [|f frames IH]; intros env s Hin Hall; [done|].
  apply Forall_cons in Hall as [Hf Hall]. cbn [handleAll].
  pose proof (handleFrame_fence fence (env 0%nat) s f Hin Hf) as Hin'.
  destruct (handleFrame (env 0%nat) s f) as [s' response]. cbn [fst] in Hin'.
  specialize (IH (fun i => env (S i)) s' Hin' Hall). by destruct (handleAll _ s' frames).
Qed.

(** A mutation of a fenced key is refused and changes nothing. *)
Lemma fenced_refused env s f keys key fence : fence ∈ srv_fences s -> cacheOpCanMutate (FrameOp f) = true ->
  mutationKeys f = Ok keys -> key ∈ keys -> keyInRangeFence key fence = true ->
  exists err, handleFrame env s f = (s, errorFrame f ErrorNoRoute err).
Proof.
  intros Hin Hop Hkeys Hkey Hk. unfold handleFrame. destruct (staleRoute s _) as [[] current]; [by eexists|].
  assert (fencedMutation (srv_fences s) f = Ok true) as ->; [|by eexists].
  unfold fencedMutation. rewrite Hop, Hkeys.
  assert (fencesEmpty (srv_fences s) = false) as ->.
  { unfold fencesEmpty. apply Z.eqb_neq. destruct (srv_fences s) as [|x l]; [by apply elem_of_nil in Hin|].
    rewrite zlen_cons. pose proof (zlen_nonneg l). lia. }
  cbn [orb negb]. unfold mbind, result_bind. f_equal. apply existsb_exists. exists key.
  split; [by apply list_elem_of_In|]. apply existsb_exists. exists fence. split; [by apply list_elem_of_In|done].
Qed.
End Spec.
