(* ===== verification/TcpCalls.v ===== *)
(** * Remote calls are local calls

    The six single calls of the client, the same calls on the service behind a
    server, and that the first are the second as long as request and response fit
    in a frame and the server neither has a newer route nor a fence for the key. *)

From S2P Require Import Prelude.
From S2P Require Import Binary.
From S2P Require Import GoStrings.
From S2P Require Import Frame.
From S2P Require Import Routing.
From S2P Require Import EngineTypes.
From S2P Require Import Service.
From S2P Require Import WireTypes.
From S2P Require Import Wire.
From S2P Require Import WireBatch.
From S2P Require Import WirePrimitive.
From S2P Require Import WireSpec.
From S2P Require Import WireMessages.
From S2P Require Import Replication.
From S2P Require Import TcpWire.
From S2P Require Import TcpServer.
From S2P Require Import TcpClient.
From S2P Require Import TcpSpec.

Local Open Scope Z_scope.
Local Open Scope nespa_scope.

Inductive cacheCall :=
| CallSet (r : WireTypes.SetRequest)
| CallGet (r : WireTypes.GetRequest)
| CallDelete (r : WireTypes.DeleteRequest)
| CallExists (r : ExistsRequest)
| CallTouch (r : WireTypes.TouchRequest)
| CallAdjust (r : AdjustRequest).

Inductive cacheReply :=
| ReplyRecord (r : WireRecord)
| ReplyDeleted (r : DeleteResponse)
| ReplyExists (r : ExistsResponse)
| ReplyTouched (r : TouchResponse).

(** The fields of the Go structs are in range and the epoch is one. *)
Definition call_ok (call : cacheCall) : Prop :=
  match call with
  | CallSet r => set_ok r /\ is_u64 (ws_routeEpoch r)
  | CallGet r => get_ok r /\ is_u64 (wg_routeEpoch r)
  | CallDelete r => delete_ok r /\ is_u64 (wd_routeEpoch r)
  | CallExists r => exists_ok r /\ is_u64 (we_routeEpoch r)
  | CallTouch r => touch_ok r /\ is_u64 (wt_routeEpoch r)
  | CallAdjust r => adjust_ok r /\ is_u64 (wa_routeEpoch r)
  end.

Definition call_frame (c : Client) (call : cacheCall) : Frame :=
  match call with
  | CallSet r => requestFrame c OpCacheSet (ws_routeEpoch r) (EncodeSetRequest r) (ws_value r)
  | CallGet r => requestFrame c OpCacheGet (wg_routeEpoch r) (EncodeGetRequest r) []
  | CallDelete r => requestFrame c OpCacheDelete (wd_routeEpoch r) (EncodeDeleteRequest r) []
  | CallExists r => requestFrame c OpCacheExists (we_routeEpoch r) (EncodeExistsRequest r) []
  | CallTouch r => requestFrame c OpCacheTouch (wt_routeEpoch r) (EncodeTouchRequest r) []
  | CallAdjust r => requestFrame c OpCacheAdjust (wa_routeEpoch r) (EncodeAdjustRequest r) []
  end.

(** The key the call changes. *)
Definition call_changes (call : cacheCall) : option WireTypes.Key :=
  match call with
  | CallSet r => Some (ws_key r)
  | CallDelete r => Some (wd_key r)
  | CallTouch r => Some (wt_key r)
  | CallAdjust r => Some (wa_key r)
  | CallGet _ | CallExists _ => None
  end.

(** The fields of a record the service returned are in range. *)
Definition reply_ok (reply : cacheReply) : Prop :=
  match reply with ReplyRecord r => record_ok r | _ => True end.

Section Calls.
  Context `{!RangeOrder, !ErrorBody} {E : Type} `{!Engine E}.
  Implicit Types (s : Server E) (f : Frame) (env : callEnv).

Definition replied {A} (reply : A -> cacheReply) (out : called (E := E) A) : called (E := E) cacheReply :=
  let '(c, peer, r) := out in (c, peer, reply <$> r).

(** The calls of the client. *)
Definition remoteCall env (c : Client) (peer : option (Server E)) (call : cacheCall) : called cacheReply :=
  match call with
  | CallSet r => replied ReplyRecord (clientSet env c peer r)
  | CallGet r => replied ReplyRecord (clientGet env c peer r)
  | CallDelete r => replied ReplyDeleted (clientDelete env c peer r)
  | CallExists r => replied ReplyExists (clientExists env c peer r)
  | CallTouch r => replied ReplyTouched (clientTouch env c peer r)
  | CallAdjust r => replied ReplyRecord (clientAdjust env c peer r)
  end.

(** What a call on the service comes to: its error code, or its reply after the
    change was handed to the replicas. *)
Definition onService {A} s (out : EngineService E * result serviceError A)
    (k : A -> (Server E -> Server E) * cacheReply) : Server E * result ErrorCode cacheReply :=
  match out with
  | (svc, Err e) => (withService svc s, Err (cacheErrorCode e))
  | (svc, Ok a) => let '(change, reply) := k a in (change (withService svc s), Ok reply)
  end.

(** The same calls on the service itself. *)
Definition localCall env s (call : cacheCall) : Server E * result ErrorCode cacheReply :=
  match call with
  | CallSet r =>
      onService s (setLocked (srv_service s) (keyFromWire (ws_key r)) (ws_value r) (setOptionsFromWire r)
                     (ce_clock env 0%nat)) (fun result =>
        (if sr_found result then replicateSet env (set_strip r) else id,
         ReplyRecord (recordFromCache (sr_record result) (sr_found result))))
  | CallGet r =>
      onService s (getLocked (srv_service s) (keyFromWire (wg_key r)) (getOptionsFromWire r)
                     (ce_clock env 0%nat 0%nat)) (fun '(rec, found) => (id, ReplyRecord (recordFromCache rec found)))
  | CallDelete r =>
      onService s (deleteLocked (srv_service s) (keyFromWire (wd_key r)) (mkDeleteOptions (wd_expectedVersion r)))
        (fun '(deleted, applied) =>
        (if deleted && applied then replicateDelete env r else id,
         ReplyDeleted (mkDeleteResponse (deleted && applied))))
  | CallExists r =>
      onService s (existsLocked (srv_service s) (keyFromWire (WireTypes.we_key r)) (getOptionsFromExists r)
                     (ce_clock env 0%nat 0%nat)) (fun b => (id, ReplyExists (mkExistsResponse b)))
  | CallTouch r =>
      onService s (touchLocked (srv_service s) (keyFromWire (wt_key r)) (touchOptionsFromWire r)
                     (ce_clock env 0%nat 0%nat)) (fun (b : bool) =>
        (if b then replicateTouch env r else id, ReplyTouched (mkTouchResponse b)))
  | CallAdjust r =>
      onService s (adjustLocked (srv_service s) (keyFromWire (wa_key r)) (adjustOptionsFromWire r)
                     (ce_clock env 0%nat)) (fun result =>
        (if sr_found result then replicateAdjust env r else id,
         ReplyRecord (recordFromCache (sr_record result) (sr_found result))))
  end.

(** The server takes the request: its route is current and its key not fenced. *)
Definition accepts s (c : Client) (call : cacheCall) : Prop :=
  (staleRoute s (RouteEpoch (call_frame c call))).1 = false /\
  match call_changes call with Some key => containsKey (srv_fences s) key = false | None => True end.

(** The frame of a reply. *)
Definition reply_frame f (reply : cacheReply) : Frame :=
  match reply with
  | ReplyRecord r => metadataFrame f (EncodeRecord r) (wr_value r)
  | ReplyDeleted r => metadataFrame f (EncodeDeleteResponse r) []
  | ReplyExists r => metadataFrame f (EncodeExistsResponse r) []
  | ReplyTouched r => metadataFrame f (EncodeTouchResponse r) []
  end.

Lemma call_keys (c : Client) call : call_ok call ->
  mutationKeys (call_frame c call) = Ok (option_list (call_changes call)).
Proof.
  destruct call as [r|r|r|r|r|r]; intros [Hok _]; [|done| |done| |].
  - change (keyFromSetFrame (call_frame c (CallSet r)) = Ok [ws_key r]).
    unfold keyFromSetFrame. cbn [call_frame requestFrame Metadata]. by rewrite set_roundtrip.
  - change (keyFromDeleteFrame (call_frame c (CallDelete r)) = Ok [wd_key r]).
    unfold keyFromDeleteFrame. cbn [call_frame requestFrame Metadata]. by rewrite delete_roundtrip.
  - change (keyFromTouchFrame (call_frame c (CallTouch r)) = Ok [wt_key r]).
    unfold keyFromTouchFrame. cbn [call_frame requestFrame Metadata]. by rewrite touch_roundtrip.
  - change (keyFromAdjustFrame (call_frame c (CallAdjust r)) = Ok [wa_key r]).
    unfold keyFromAdjustFrame. cbn [call_frame requestFrame Metadata]. by rewrite adjust_roundtrip.
Qed.

Lemma call_not_fenced s (c : Client) call : call_ok call -> accepts s c call ->
  fencedMutation (srv_fences s) (call_frame c call) = Ok false.
Proof.
  intros Hok [_ Hfence]. unfold fencedMutation. destruct (_ || _); [done|]. rewrite call_keys by done.
  unfold mbind, result_bind. destruct (call_changes call); [|done]. cbn. by rewrite Hfence.
Qed.

(** Find the handler [h] of a call's frame. *)
Ltac dispatch_to h :=
  match goal with |- context [dispatchFrame ?env ?s ?f] => change (dispatchFrame env s f) with (h env s f) end.

(** Run a handler on the frame of a call. *)
Ltac run_handler rt :=
  cbn [call_frame requestFrame Metadata Payload]; rewrite rt by done; cbn [decoded];
  unfold localCall, onService, served.

(** What the handlers make of a call. *)
Lemma handle_call env s (c : Client) call : call_ok call -> accepts s c call ->
  exists response, handleFrame env s (call_frame c call) = ((localCall env s call).1, response) /\
  match (localCall env s call).2 with
  | Ok reply => response = reply_frame (call_frame c call) reply
  | Err code => exists err, response = errorFrame (call_frame c call) code err
  end.
Proof.
  intros Hok Hacc. pose proof (call_not_fenced s c call Hok Hacc) as Hfence. destruct Hacc as [Hstale _].
  unfold handleFrame. destruct (staleRoute s _) as [[] current]; [done|]. rewrite Hfence.
  destruct call as [r|r|r|r|r|r]; destruct Hok as [Hok _].
  - dispatch_to (handleSet (E := E)). unfold handleSet. run_handler set_roundtrip.
    change (setOptionsFromWire (set_seen r)) with (setOptionsFromWire r). cbn [set_seen ws_key].
    destruct (setLocked _ _ _ _ _) as [svc [result|e]]; eexists; split; try done; [|by eexists].
    by destruct (sr_found result).
  - dispatch_to (handleGet (E := E)). unfold handleGet. run_handler get_roundtrip.
    change (getOptionsFromWire (get_seen r)) with (getOptionsFromWire r). cbn [get_seen wg_key].
    destruct (getLocked _ _ _ _) as [svc [[rec found]|e]]; eexists; split; try done; [|by eexists].
    by destruct found.
  - dispatch_to (handleDelete (E := E)). unfold handleDelete. run_handler delete_roundtrip. cbn [delete_seen wd_key wd_expectedVersion].
    destruct (deleteLocked _ _ _) as [svc [[deleted applied]|e]]; eexists; split; try done; [|by eexists].
    by destruct (deleted && applied).
  - dispatch_to (handleExists (E := E)). unfold handleExists. run_handler exists_roundtrip.
    change (getOptionsFromExists (exists_seen r)) with (getOptionsFromExists r). cbn [exists_seen we_key].
    destruct (existsLocked _ _ _ _) as [svc [b|e]]; eexists; split; try done. by eexists.
  - dispatch_to (handleTouch (E := E)). unfold handleTouch. run_handler touch_roundtrip.
    change (touchOptionsFromWire (touch_seen r)) with (touchOptionsFromWire r). cbn [touch_seen wt_key].
    destruct (touchLocked _ _ _ _) as [svc [b|e]]; eexists; split; try done; [|by eexists]. by destruct b.
  - dispatch_to (handleAdjust (E := E)). unfold handleAdjust. run_handler adjust_roundtrip.
    change (adjustOptionsFromWire (adjust_seen r)) with (adjustOptionsFromWire r). cbn [adjust_seen wa_key].
    destruct (adjustLocked _ _ _ _) as [svc [result|e]]; eexists; split; try done; [|by eexists].
    by destruct (sr_found result).
Qed.

(** What the client reads from the frame of a reply. *)
Definition read_reply (call : cacheCall) (frame : Frame) : result clientError cacheReply :=
  match call with
  | CallSet _ | CallGet _ | CallAdjust _ => ReplyRecord <$> decodeRecord frame
  | CallDelete _ => ReplyDeleted <$> decodeMetadata DecodeDeleteResponse frame
  | CallExists _ => ReplyExists <$> decodeMetadata DecodeExistsResponse frame
  | CallTouch _ => ReplyTouched <$> decodeMetadata DecodeTouchResponse frame
  end.

(** A reply of the kind the call has. *)
Definition reply_of (call : cacheCall) (reply : cacheReply) : Prop :=
  match call, reply with
  | (CallSet _ | CallGet _ | CallAdjust _), ReplyRecord r => r = record_strip r
  | CallDelete _, ReplyDeleted _ | CallExists _, ReplyExists _ | CallTouch _, ReplyTouched _ => True
  | _, _ => False
  end.

Lemma recordFromCache_strip rec found : recordFromCache rec found = record_strip (recordFromCache rec found).
Proof. by destruct found. Qed.

Lemma local_reply env s call reply : (localCall env s call).2 = Ok reply -> reply_of call reply.
Proof.
  destruct call as [r|r|r|r|r|r]; unfold localCall, onService.
  - destruct (setLocked _ _ _ _ _) as [svc [result|e]]; [|done]. intros [= <-]. apply recordFromCache_strip.
  - destruct (getLocked _ _ _ _) as [svc [[rec found]|e]]; [|done]. intros [= <-]. apply recordFromCache_strip.
  - destruct (deleteLocked _ _ _) as [svc [[deleted applied]|e]]; [|done]. by intros [= <-].
  - destruct (existsLocked _ _ _ _) as [svc [b|e]]; [|done]. by intros [= <-].
  - destruct (touchLocked _ _ _ _) as [svc [b|e]]; [|done]. by intros [= <-].
  - destruct (adjustLocked _ _ _ _) as [svc [result|e]]; [|done]. intros [= <-]. apply recordFromCache_strip.
Qed.

Lemma decodeRecord_reply f r : record_ok r -> r = record_strip r ->
  decodeRecord (metadataFrame f (EncodeRecord r) (wr_value r)) = Ok r.
Proof.
  intros Hok Hr. unfold decodeRecord. cbn [Metadata Payload metadataFrame]. rewrite record_roundtrip by done.
  cbn [map_err]. unfold mbind, result_bind, record_seen, record_strip in *.
  destruct (wr_found r) eqn:Hf.
  - destruct r as [fd a b c d v n1 n2 n3 n4 o z]. cbn in *. unfold placeRecord in *. cbn in *. injection Hr as -> ->.
    destruct v as [|x v]; [done|]. rewrite (proj2 (Z.ltb_lt _ _)); [done|]. rewrite zlen_cons.
    pose proof (zlen_nonneg v). lia.
  - rewrite Hr. done.
Qed.

Lemma read_reply_ok call f reply : reply_of call reply -> reply_ok reply ->
  read_reply call (reply_frame f reply) = Ok reply.
Proof.
  destruct call as [q|q|q|q|q|q], reply as [r|[b]|[b]|[b]]; try done; cbn [reply_of reply_ok read_reply reply_frame]; intros Hr Hok;
    try (by rewrite decodeRecord_reply); by destruct b.
Qed.

Lemma remoteCall_do env (c : Client) peer call : remoteCall env c peer call =
  thenDecode (do env c peer (FrameOp (call_frame c call)) (RouteEpoch (call_frame c call))
    (Metadata (call_frame c call)) (Payload (call_frame c call))) (read_reply call).
Proof.
  assert (forall A B (out : called (E := E) A) (decode : A -> result clientError B) (reply : B -> cacheReply),
    replied reply (thenDecode out decode) = thenDecode out (fun a => reply <$> decode a)) as Hmove.
  { intros A B [[c' peer'] [a|e]] decode reply; done. }
  destruct call; cbn [remoteCall read_reply call_frame requestFrame FrameOp RouteEpoch Metadata Payload];
    unfold clientSet, clientGet, clientDelete, clientExists, clientTouch, clientAdjust; by rewrite Hmove.
Qed.

Lemma cacheErrorCode_range e : 0 <= cacheErrorCode e < 2 ^ 16.
Proof. unfold cacheErrorCode. repeat case_match; done. Qed.

Lemma local_error env s call code : (localCall env s call).2 = Err code -> 0 <= code < 2 ^ 16.
Proof.
  destruct call as [r|r|r|r|r|r]; unfold localCall, onService;
    match goal with |- context [match ?x with _ => _ end] => destruct x as [svc [a|e]] end;
    try (by repeat case_match); intros [= <-]; apply cacheErrorCode_range.
Qed.

(** A call of the client, once it is delivered. *)
Lemma call_is_local env (c : Client) s call : codec_typed (srv_codec s) -> cl_codec c = srv_codec s ->
  call_ok call -> accepts s c call -> fits (srv_codec s) (call_frame c call) ->
  fits (srv_codec s) (handleFrame env s (call_frame c call)).2 ->
  match localCall env s call with
  | (s', Ok reply) => reply_ok reply -> remoteCall env c (Some s) call = (nextClient c, Some s', Ok reply)
  | (s', Err code) =>
      exists message, remoteCall env c (Some s) call = (nextClient c, Some s', Err (RemoteError (mkError code message)))
  end.
Proof.
  intros Hc Hcodec Hok Hacc Hfit Hrfit.
  destruct (handle_call env s c call Hok Hacc) as (response & Hh & Hresp).
  rewrite remoteCall_do.
  rewrite (do_ok env c s _ _ _ _ (localCall env s call).1 response);
    [|by destruct call|done|done|by destruct call|destruct call; apply Hok|by destruct call|by rewrite Hh in Hrfit].
  destruct (localCall env s call) as [s' [reply|code]] eqn:El; cbn [fst snd] in Hresp |- *.
  - intros Hrok. subst response. cbn [thenDecode].
    replace (isError (reply_frame (call_frame c call) reply)) with false by (by destruct reply).
    unfold mbind, result_bind. rewrite read_reply_ok; [done| |done].
    apply (local_reply env s). by rewrite El.
  - destruct Hresp as [err ->]. change (isError (errorFrame _ _ _)) with true. cbn [thenDecode].
    unfold decodeError. cbn [Metadata errorFrame].
    destruct (marshal_code (mkError code (error_text err))) as (m & ->).
    { cbn. apply (local_error env s call). by rewrite El. }
    by exists m.
Qed.

(** C11: a call of the client is the call on the service behind the server: the
    service is left in the same state, the same changes are handed to the replicas
    and the client returns what the service returned, the record with its value
    and deadline or the code of its error, as long as the fields are in the range
    of their Go types, request and response fit in a frame, the request's route is
    not older than the server's and its key is not in a fenced range. *)
Theorem remote_call_is_local env (c : Client) s call : codec_typed (srv_codec s) -> cl_codec c = srv_codec s ->
  call_ok call -> accepts s c call -> fits (srv_codec s) (call_frame c call) ->
  fits (srv_codec s) (handleFrame env s (call_frame c call)).2 ->
  match localCall env s call with
  | (s', Ok reply) => reply_ok reply -> remoteCall env c (Some s) call = (nextClient c, Some s', Ok reply)
  | (s', Err code) =>
      exists message, remoteCall env c (Some s) call = (nextClient c, Some s', Err (RemoteError (mkError code message)))
  end.
Proof. apply call_is_local. Qed.

(** C13: a fence holds until it is lifted: whatever requests are handled after a
    range was fenced, as long as none unfences that range, a call of a client that
    would change a key of the range is refused with the code of a missing route,
    the service, the replicas and the fences are left as they were, and the client
    is told so. *)
Theorem fence_refuses_writes (envs : nat -> callEnv) env (c : Client) s frames fence call key :
  let s' := (handleAll envs s frames).1 in
  fence ∈ srv_fences s -> Forall (fun f => ~ lifts fence f) frames ->
  call_ok call -> call_changes call = Some key -> keyInRangeFence key fence = true ->
  codec_typed (srv_codec s') -> cl_codec c = srv_codec s' -> fits (srv_codec s') (call_frame c call) ->
  fits (srv_codec s') (handleFrame env s' (call_frame c call)).2 ->
  exists message,
    remoteCall env c (Some s') call = (nextClient c, Some s', Err (RemoteError (mkError ErrorNoRoute message))).
Proof.
  intros s' Hin Hlift Hok Hkey Hk Hc Hcodec Hfit Hrfit.
  pose proof (handleAll_fence fence envs s frames Hin Hlift) as Hin'. fold s' in Hin'.
  destruct (fenced_refused env s' (call_frame c call) [key] key fence) as [err Hh]; [done| | |by left|done|].
  { destruct call; try done; cbn in Hkey; congruence. }
  { rewrite call_keys by done. by rewrite Hkey. }
  rewrite remoteCall_do.
  rewrite (do_ok env c s' _ _ _ _ s' (errorFrame (call_frame c call) ErrorNoRoute err));
    [|by destruct call|done|done|by destruct call|destruct call; apply Hok|by destruct call|by rewrite Hh in Hrfit].
  change (isError (errorFrame _ _ _)) with true. cbn [thenDecode]. unfold decodeError. cbn [Metadata errorFrame].
  destruct (marshal_code (mkError ErrorNoRoute (error_text err))) as (m & ->); [done|]. by exists m.
Qed.
End Calls.
