(* ===== verification/TcpMigration.v ===== *)
(** * Moving a range between nodes over the wire

    The executor of a migration exports a range from one node and imports it into
    another through the TCP client.  Times travel as milliseconds. *)

From S2P Require Import Prelude.
From S2P Require Import Binary.
From S2P Require Import GoStrings.
From S2P Require Import Frame.
From S2P Require Import Routing.
From S2P Require Import EngineTypes.
From S2P Require Import MemoryEngine.
From S2P Require Import Service.
From S2P Require Import WireTypes.
From S2P Require Import Wire.
From S2P Require Import WireBatch.
From S2P Require Import WirePrimitive.
From S2P Require Import WireSpec.
From S2P Require Import WireMessages.
From S2P Require Import TcpWire.
From S2P Require Import TcpServer.
From S2P Require Import TcpClient.
From S2P Require Import TcpSpec.

Local Open Scope Z_scope.
Local Open Scope nespa_scope.

(** ** Times *)

(** A time the wire can carry: it is not set, or its milliseconds are an [int64]
    other than zero. *)
Definition wire_time (t : Time) : Prop :=
  t = zeroTime \/ is_s64 (t / 1000000 - unixToInternal * 1000) /\ t / 1000000 <> unixToInternal * 1000 /\ t <> zeroTime.

(** The time to the millisecond. *)
Definition to_millis (t : Time) : Time := t - t mod 1000000.

Lemma time_over_wire t : wire_time t -> timeFromUnixMilli (timeToUnixMilli t) = to_millis t.
Proof.
  intros [->|(Hr & Hne & Hnz)]; [done|]. unfold timeToUnixMilli, timeFromUnixMilli, UnixMilli, IsZero.
  rewrite (proj2 (Z.eqb_neq t zeroTime)) by done. rewrite s64_small by done.
  rewrite (proj2 (Z.eqb_neq _ 0)) by lia. unfold timeUnixMilli, to_millis.
  pose proof (Z.div_mod t 1000000). lia.
Qed.

Lemma wire_time_s64 t : wire_time t -> is_s64 (timeToUnixMilli t).
Proof.
  intros [->|(Hr & _ & Hnz)]; [done|]. unfold timeToUnixMilli, UnixMilli, IsZero.
  rewrite (proj2 (Z.eqb_neq t zeroTime)) by done. by rewrite s64_small.
Qed.

(** ** Entries *)

Definition wire_entry_ok (x : SnapshotEntry) : Prop :=
  (str_ok (k_namespace (se_key x)) /\ str_ok (k_space (se_key x)) /\ str_ok (k_entity (se_key x)) /\
   str_ok (k_key (se_key x))) /\
  is_u64 (se_version x) /\ is_u64 (se_namespaceVersion x) /\ is_u64 (se_spaceVersion x) /\
  wire_time (se_expireAt x) /\ wire_time (se_createdAt x) /\ wire_time (se_updatedAt x) /\
  wire_time (se_lastAccessAt x) /\ is_u64 (se_accessCount x).

(** The entry with its times to the millisecond. *)
Definition millis_entry (x : SnapshotEntry) : SnapshotEntry :=
  mkSnapshotEntry (se_key x) (se_value x) (se_version x) (se_namespaceVersion x) (se_spaceVersion x)
    (to_millis (se_expireAt x)) (to_millis (se_createdAt x)) (to_millis (se_updatedAt x))
    (to_millis (se_lastAccessAt x)) (se_accessCount x).

Lemma entry_to_wire_ok x : wire_entry_ok x -> entry_ok (snapshotEntryToWire x).
Proof.
  intros (Hk & ? & ? & ? & ? & ? & ? & ? & ?). unfold entry_ok, snapshotEntryToWire, wire_key_ok. cbn.
  split_and!; try done; try apply Hk; by apply wire_time_s64.
Qed.

Lemma entry_over_wire x : wire_entry_ok x -> snapshotEntryFromWire (snapshotEntryToWire x) = millis_entry x.
Proof.
  intros (_ & _ & _ & _ & ? & ? & ? & ? & _). unfold snapshotEntryFromWire, snapshotEntryToWire, millis_entry. cbn.
  rewrite !time_over_wire by done. by destruct (se_key x).
Qed.

(** What the receiver makes of an entry does not depend on where its value was. *)
Lemma entry_from_strip x y : entry_strip x = entry_strip y -> snapshotEntryFromWire x = snapshotEntryFromWire y.
Proof. destruct x, y. unfold entry_strip, placeEntry, snapshotEntryFromWire. cbn. by intros [=]; subst. Qed.

Lemma entry_ok_strip x y : entry_strip x = entry_strip y -> entry_ok x -> entry_ok y.
Proof. destruct x, y. unfold entry_strip, placeEntry, entry_ok. cbn. by intros [=]; subst. Qed.

Lemma entry_value_strip x y : entry_strip x = entry_strip y -> zlen (me_value x) = zlen (me_value y).
Proof. destruct x, y. unfold entry_strip, placeEntry. cbn. by intros [=]; subst. Qed.

Lemma cons_inv {A} (x y : A) l k : x :: l = y :: k -> x = y /\ l = k.
Proof. by intros [= -> ->]. Qed.

Lemma strip_induct (P : list MigrationSnapshotEntry -> list MigrationSnapshotEntry -> Prop) :
  P [] [] -> (forall x y l k, entry_strip x = entry_strip y -> P l k -> P (x :: l) (y :: k)) ->
  forall l k, entry_strip <$> l = entry_strip <$> k -> P l k.
Proof.
  intros Hn Hc l. induction l as [|x l IH]; intros [|y k] E; try done.
  rewrite !fmap_cons in E. apply cons_inv in E as [E1 E2]. apply Hc; [done|]. by apply IH.
Qed.

Lemma strip_from_wire (l k : list MigrationSnapshotEntry) : entry_strip <$> l = entry_strip <$> k ->
  snapshotEntryFromWire <$> l = snapshotEntryFromWire <$> k.
Proof.
  apply (strip_induct (fun l k => snapshotEntryFromWire <$> l = snapshotEntryFromWire <$> k)); [done|].
  intros x y l' k' E IH. by rewrite !fmap_cons, IH, (entry_from_strip x y).
Qed.

Lemma strip_ok (l k : list MigrationSnapshotEntry) : entry_strip <$> l = entry_strip <$> k -> Forall entry_ok l ->
  Forall entry_ok k /\ lsum (fun x => zlen (me_value x)) k = lsum (fun x => zlen (me_value x)) l /\ length k = length l.
Proof.
  apply (strip_induct (fun l k => Forall entry_ok l -> Forall entry_ok k /\
    lsum (fun x => zlen (me_value x)) k = lsum (fun x => zlen (me_value x)) l /\ length k = length l)); [done|].
  intros x y l' k' E IH [Hx Hl]%Forall_cons. destruct (IH Hl) as (H1 & H2 & H3). split_and!.
  - constructor; [by eapply entry_ok_strip|done].
  - rewrite !lsum_cons, H2. by rewrite (entry_value_strip x y).
  - cbn. by rewrite H3.
Qed.

Lemma snapshot_to_wire_ok entries : Forall wire_entry_ok entries -> short entries ->
  lsum (fun x => zlen (se_value x)) entries < 2 ^ 32 ->
  let s := snapshotToWire entries in
  Forall entry_ok (ms_entries s) /\ short (ms_entries s) /\ lsum (fun x => zlen (me_value x)) (ms_entries s) < 2 ^ 32.
Proof.
  intros Hok Hs Hsz s. unfold s, snapshotToWire. cbn [ms_entries]. split_and!.
  - rewrite Forall_fmap. eapply Forall_impl; [exact Hok|]. apply entry_to_wire_ok.
  - unfold short, zlen in *. by rewrite length_fmap.
  - enough (lsum (fun x => zlen (me_value x)) (snapshotEntryToWire <$> entries) =
            lsum (fun x => zlen (se_value x)) entries) as -> by done.
    clear. induction entries as [|x l IH]; [done|]. by rewrite fmap_cons, !lsum_cons, IH.
Qed.

Lemma from_to_wire entries : Forall wire_entry_ok entries ->
  snapshotEntryFromWire <$> (snapshotEntryToWire <$> entries) = millis_entry <$> entries.
Proof. induction 1 as [|x l Hx Hl IH]; [done|]. by rewrite !fmap_cons, IH, entry_over_wire. Qed.

(** A snapshot that is sent and received is the snapshot to the millisecond. *)
Lemma snapshot_over_wire entries : Forall wire_entry_ok entries -> short entries ->
  lsum (fun x => zlen (se_value x)) entries < 2 ^ 32 ->
  exists raw payload out, EncodeMigrationSnapshot (snapshotToWire entries) = Ok (raw, payload) /\
    DecodeMigrationSnapshot raw payload = Ok out /\ snapshotFromWire out = millis_entry <$> entries /\
    Forall entry_ok (ms_entries out) /\ short (ms_entries out) /\
    lsum (fun x => zlen (me_value x)) (ms_entries out) < 2 ^ 32.
Proof.
  intros Hok Hs Hsz. destruct (snapshot_to_wire_ok entries Hok Hs Hsz) as (H1 & H2 & H3).
  destruct (migration_snapshot_roundtrip (snapshotToWire entries) H1 H2 H3) as (raw & payload & out & He & Hd & Hst).
  exists raw, payload, out. destruct (strip_ok (ms_entries (snapshotToWire entries)) (ms_entries out)) as (G1 & G2 & G3); [by rewrite Hst|done|].
  split_and!; [done|done| |done| |by rewrite G2].
  - unfold snapshotFromWire. rewrite <- from_to_wire by done. by apply strip_from_wire.
  - unfold short, zlen in *. by rewrite G3.
Qed.

(** ** The calls *)

Lemma packAll_strip l k payload : entry_strip <$> l = entry_strip <$> k ->
  packAll packEntry l payload = packAll packEntry k payload.
Proof.
  intros E. revert payload. apply (strip_induct (fun l k => forall payload,
    packAll packEntry l payload = packAll packEntry k payload)) with (l := l) (k := k); [done| |done].
  intros x y l' k' Exy IH payload. cbn [packAll].
  assert (packEntry x payload = packEntry y payload) as ->.
  { destruct x, y. unfold entry_strip, placeEntry in Exy. cbn in Exy. injection Exy as -> -> -> -> -> -> -> -> -> ->.
    done. }
  destruct (packEntry y payload) as [[z p]|]; [|done]. unfold mbind, result_bind. by rewrite IH.
Qed.

Lemma encode_strip s s' : entry_strip <$> ms_entries s = entry_strip <$> ms_entries s' ->
  EncodeMigrationSnapshot s = EncodeMigrationSnapshot s'.
Proof. intros E. unfold EncodeMigrationSnapshot, PackMigrationSnapshot. by rewrite (packAll_strip _ _ [] E). Qed.

Definition range_ok (r : MigrationRangeRequest) : Prop :=
  str_ok (mrq_namespace r) /\ str_ok (mrq_space r) /\ is_u32 (mrq_vslotStart r) /\ is_u32 (mrq_vslotEnd r) /\
  is_u64 (mrq_routeEpoch r).

Definition range_frame (c : Client) (op : Op) (r : MigrationRangeRequest) : Frame :=
  requestFrame c op (mrq_routeEpoch r) (EncodeMigrationRangeRequest r) [].

Lemma new_codec_typed : codec_typed (NewCodec []).
Proof. vm_compute. repeat split; congruence. Qed.

Section Migration.
  Context `{!RangeOrder, !ErrorBody} {E : Type} `{!Engine E}.
  Implicit Types (s : Server E) (f : Frame) (env : callEnv).

(** A request that is not a mutation is never fenced. *)
Lemma not_fenced s f : cacheOpCanMutate (FrameOp f) = false -> fencedMutation (srv_fences s) f = Ok false.
Proof. intros Hop. unfold fencedMutation. rewrite Hop. cbn. by rewrite orb_true_r. Qed.

Lemma handle_export env s (c : Client) r svc entries raw payload : range_ok r ->
  (staleRoute s (mrq_routeEpoch r)).1 = false ->
  exportLocked (srv_service s) (rangeFromWire r) (ce_clock env 0%nat 0%nat) = (svc, Ok entries) ->
  EncodeMigrationSnapshot (snapshotToWire entries) = Ok (raw, payload) ->
  handleFrame env s (range_frame c OpNodeExportRange r) =
  (withService svc s, metadataFrame (range_frame c OpNodeExportRange r) raw payload).
Proof.
  intros (H1 & H2 & H3 & H4 & _) Hstale He Henc. unfold handleFrame. cbn [RouteEpoch range_frame requestFrame].
  destruct (staleRoute s _) as [[] current]; [done|]. rewrite not_fenced by done.
  change (dispatchFrame env s ?f) with (handleExportRange env s f). unfold handleExportRange.
  cbn [Metadata range_frame requestFrame]. rewrite migration_range_roundtrip by done. cbn [decoded].
  change (rangeFromWire (mkMigrationRangeRequest _ _ _ _ 0)) with (rangeFromWire r).
  unfold served. rewrite He. unfold packedFrame. by rewrite Henc.
Qed.

Lemma handle_import env s f raw payload out svc imported : FrameOp f = OpNodeImportSnapshot -> RouteEpoch f = 0 ->
  Metadata f = raw -> Payload f = payload -> DecodeMigrationSnapshot raw payload = Ok out ->
  importLocked (srv_service s) (snapshotFromWire out) = (svc, Ok (mkImportResult imported)) ->
  handleFrame env s f = (withService svc s,
    metadataFrame f (EncodeMigrationImportResponse (mkMigrationImportResponse imported)) []).
Proof.
  intros Hop Hepoch Hm Hp Hd Hi. unfold handleFrame. rewrite Hepoch. cbn [staleRoute Z.eqb].
  rewrite not_fenced by (by rewrite Hop). unfold dispatchFrame. rewrite Hop.
  change (List.find (fun '(op, _) => op =? OpNodeImportSnapshot) cacheHandlers)
    with (Some (OpNodeImportSnapshot, handleImportSnapshot (E := E))).
  unfold handleImportSnapshot. rewrite Hm, Hp, Hd. cbn [decoded]. unfold served. by rewrite Hi.
Qed.

(** Exporting a range of one node and importing it into another through the
    client hands the second service exactly the entries the first exported, keys,
    values, versions and counts unchanged and times to the millisecond, and the
    client learns how many were imported; entries must have times the wire can
    carry and the snapshot must fit in a frame. *)
Theorem range_moves_over_wire envA envB (c : Client) (a b : Server E) request entries svcA svcB imported :
  srv_codec a = NewCodec [] -> srv_codec b = NewCodec [] -> cl_codec c = NewCodec [] ->
  range_ok request -> (staleRoute a (mrq_routeEpoch request)).1 = false ->
  exportLocked (srv_service a) (rangeFromWire request) (ce_clock envA 0%nat 0%nat) = (svcA, Ok entries) ->
  Forall wire_entry_ok entries -> short entries -> lsum (fun x => zlen (se_value x)) entries < 2 ^ 32 ->
  importLocked (srv_service b) (millis_entry <$> entries) = (svcB, Ok (mkImportResult imported)) ->
  is_u64 imported -> fits (NewCodec []) (range_frame c OpNodeExportRange request) ->
  fits (NewCodec []) (handleFrame envA a (range_frame c OpNodeExportRange request)).2 ->
  exists snapshot,
    clientExportRange envA c (Some a) request = (nextClient c, Some (withService svcA a), Ok snapshot) /\
    clientImportSnapshot envB (nextClient c) (Some b) snapshot =
      (nextClient (nextClient c), Some (withService svcB b), Ok (mkMigrationImportResponse imported)).
Proof.
  intros Ha Hb Hcl Hr Hstale He Hok Hs Hsz Hi Himp Hfit Hrfit.
  destruct (snapshot_to_wire_ok entries Hok Hs Hsz) as (H1 & H2 & H3).
  destruct (migration_snapshot_roundtrip _ H1 H2 H3) as (raw & payload & out & Henc & Hdec & Hstrip).
  assert (snapshotFromWire out = millis_entry <$> entries) as Hout.
  { unfold snapshotFromWire. rewrite <- from_to_wire by done. by apply strip_from_wire. }
  pose proof (handle_export envA a c request svcA entries raw payload Hr Hstale He Henc) as Hh.
  rewrite Hh in Hrfit. destruct Hrfit as [Hrm Hrp]. cbn [snd Metadata Payload metadataFrame] in Hrm, Hrp.
  exists out. split.
  - unfold clientExportRange. rewrite (do_ok envA c a _ _ _ _ _ _ Hh);
      [|by rewrite Ha; apply new_codec_typed|congruence|done|apply Hr|by rewrite Ha|by rewrite Ha].
    cbn [thenDecode isError]. unfold mbind, result_bind. change (isError (metadataFrame _ _ _)) with false.
    cbn [Metadata Payload metadataFrame]. by rewrite Hdec.
  - unfold clientImportSnapshot. rewrite (encode_strip out (snapshotToWire entries)), Henc by done. cbn [encoded].
    set (f := requestFrame (nextClient c) OpNodeImportSnapshot 0 raw payload).
    pose proof (handle_import envB b f raw payload out svcB imported eq_refl eq_refl eq_refl eq_refl Hdec) as Hh2.
    rewrite Hout in Hh2. specialize (Hh2 Hi).
    rewrite (do_ok envB (nextClient c) b _ _ _ _ _ _ Hh2);
      [|by rewrite Hb; apply new_codec_typed|by rewrite Hb|done|done|by rewrite Hb|by rewrite Hb; vm_compute].
    cbn [thenDecode]. unfold mbind, result_bind. change (isError (metadataFrame _ _ _)) with false.
    unfold decodeMetadata. cbn [Metadata metadataFrame]. unfold DecodeMigrationImportResponse, EncodeMigrationImportResponse.
    rewrite uint64_roundtrip by done. done.
Qed.
End Migration.
