(* ===== verification/TcpPipeline.v ===== *)
(** * Pipelined requests

    Frames sent together on one connection and the responses read back: each
    response is at the position of its request, whatever order the peer answers
    in, and a server answers them as it would one by one. *)

From S2P Require Import Prelude.
From S2P Require Import Frame.
From S2P Require Import EngineTypes.
From S2P Require Import Service.
From S2P Require Import TcpWire.
From S2P Require Import TcpServer.
From S2P Require Import TcpClient.
From S2P Require Import TcpSpec.

Local Open Scope Z_scope.
Local Open Scope nespa_scope.

Definition ids (frames : list Frame) : list Z := RequestID <$> frames.

(** ** Positions *)

Lemma positions_inv frames index m p : pipelineFramePositions frames index m = Ok p ->
  NoDup (ids frames) /\ Forall (fun id => id ∉ dom m) (ids frames) /\
  (forall id, id ∈ dom m -> p !! id = m !! id) /\
  (forall k f, frames !! k = Some f -> p !! RequestID f = Some (index + k)%nat) /\
  dom p = dom m ∪ list_to_set (ids frames).
Proof.
  revert index m. induction frames as [|f frames IH]; intros index m; cbn [pipelineFramePositions].
  { intros [= <-]. split_and!; [constructor|constructor|done|done|set_solver]. }
  destruct (m !! RequestID f) eqn:Hm; [done|]. intros (H1 & H2 & H3 & H4 & H5)%IH.
  apply not_elem_of_dom in Hm. rewrite Forall_forall in H2. unfold ids in *. rewrite fmap_cons.
  assert (RequestID f ∉ RequestID <$> frames) as Hnew by (intros Hin%H2; set_solver).
  split_and!.
  - by constructor.
  - constructor; [done|]. rewrite Forall_forall. intros id Hid%H2. set_solver.
  - intros id Hid. rewrite H3 by set_solver. apply lookup_insert_ne. by intros <-.
  - intros [|k] g Hg; cbn in Hg.
    + injection Hg as <-. rewrite H3 by set_solver. rewrite lookup_insert_eq. f_equal. lia.
    + rewrite (H4 k g Hg). f_equal. lia.
  - rewrite H5. cbn. set_solver.
Qed.

Lemma positions_total frames index m : NoDup (ids frames) -> Forall (fun id => id ∉ dom m) (ids frames) ->
  is_ok (pipelineFramePositions frames index m) = true.
Proof.
  revert index m. induction frames as [|f frames IH]; intros index m Hnd Hm; [done|]. cbn [pipelineFramePositions].
  unfold ids in *. rewrite fmap_cons in Hnd, Hm. apply NoDup_cons in Hnd as [Hf Hnd]. apply Forall_cons in Hm as [Hfm Hm].
  rewrite (proj1 (not_elem_of_dom _ _) Hfm). apply IH; [done|]. rewrite Forall_forall in Hm |- *.
  intros id Hid. specialize (Hm id Hid). rewrite dom_insert. intros [->%elem_of_singleton|]%elem_of_union; [done|done].
Qed.

(** ** Responses *)

Lemma readResponses_pairs c (p : gmap Z nat) n : forall count stream responses seen out,
  (forall id k, p !! id = Some k -> (k < n)%nat) -> (forall i j k, p !! i = Some k -> p !! j = Some k -> i = j) ->
  length responses = n -> seen ⊆ dom p -> (size seen + count = size (dom p))%nat ->
  (forall id k, id ∈ seen -> p !! id = Some k -> exists r, responses !! k = Some r /\ RequestID r = id) ->
  readResponses c p count stream responses seen = Ok out ->
  length out = n /\ forall id k, p !! id = Some k -> exists r, out !! k = Some r /\ RequestID r = id.
Proof.
  intros count. induction count as [|count IH]; intros stream responses seen out Hbound Hinj Hlen Hseen Hcount Hfill;
    cbn [readResponses].
  { intros [= <-]. split; [done|]. intros id k Hk. apply Hfill; [|done].
    assert (seen ≡ dom p) as Heq by (apply set_subseteq_size_equiv; [done|lia]). rewrite Heq. by eapply elem_of_dom_2. }
  destruct (Decode c stream) as [[r|e] rest]; [|done]. unfold recordPipelineResponse.
  destruct (p !! RequestID r) as [index|] eqn:Hp; [|done]. destruct (decide (RequestID r ∈ seen)) as [|Hnew].
  { by rewrite bool_decide_eq_true_2. }
  rewrite bool_decide_eq_false_2 by done. unfold mbind, result_bind. apply IH; [done|done| | | |].
  - by rewrite length_insert.
  - apply elem_of_dom_2 in Hp. set_solver.
  - rewrite size_union, size_singleton by set_solver. lia.
  - intros id k [->%elem_of_singleton|Hid]%elem_of_union Hk.
    + rewrite Hp in Hk. injection Hk as <-. exists r. split; [|done]. apply list_lookup_insert_eq. rewrite Hlen. by eapply Hbound.
    + destruct (Hfill id k Hid Hk) as (q & Hq & Hqid). exists q. split; [|done]. rewrite list_lookup_insert_ne; [done|].
      intros <-. apply Hnew. by rewrite (Hinj _ _ _ Hp Hk).
Qed.

(** Whatever the peer answers and in whatever order, a pipelined round trip
    that succeeds returns one response for each frame, at its position and with
    its request identifier; frames that share an identifier, a response to no
    frame of the batch and a second response to a frame are errors. *)
Theorem pipeline_pairs c answer frames out : RoundTrip c answer frames = Ok out ->
  NoDup (ids frames) /\ ids out = ids frames.
Proof.
  unfold RoundTrip. destruct frames as [|f0 frames0]; [intros [= <-]; split; [constructor|done]|].
  set (frames := f0 :: frames0).
  destruct (pipelineFramePositions frames 0 ∅) as [p|] eqn:Hp; [|done]. unfold mbind at 1, result_bind at 1.
  destruct (writePipelineFrames c [] frames) as [sent [[]|]]; [|done]. unfold mbind, result_bind.
  apply positions_inv in Hp as (Hnd & _ & _ & Hpos & Hdom). rewrite dom_empty_L, (left_id_L ∅ (∪)) in Hdom.
  assert (forall id k, p !! id = Some k -> exists f, frames !! k = Some f /\ RequestID f = id) as Hback.
  { intros id k Hk. apply elem_of_dom_2 in Hk as Hin. rewrite Hdom in Hin. apply elem_of_list_to_set in Hin.
    apply list_elem_of_fmap in Hin as (f & -> & Hf). apply list_elem_of_lookup in Hf as [i Hi].
    pose proof (Hpos i f Hi) as Hi'. rewrite Hk in Hi'. injection Hi' as ->. by exists f. }
  unfold readPipelineResponses. intros Hread.
  eapply (readResponses_pairs c p (length frames)) in Hread as [Hlen Hout].
  - split; [done|]. apply list_eq_same_length with (length frames); unfold ids; rewrite ?length_fmap; [done|done|].
    intros k x y Hk. rewrite !list_lookup_fmap. intros (r & Hr & ->)%fmap_Some (f & Hf & ->)%fmap_Some.
    destruct (Hout (RequestID f) k (Hpos k f Hf)) as (r' & Hr' & <-). congruence.
  - intros id k (f & Hf & _)%Hback. by eapply lookup_lt_Some.
  - intros i j k (f & Hf & <-)%Hback (g & Hg & <-)%Hback. congruence.
  - by rewrite List.repeat_length.
  - set_solver.
  - rewrite size_empty, Hdom, size_list_to_set by done. unfold ids. rewrite length_fmap. lia.
  - set_solver.
Qed.

Lemma written_stream c frames conn : codec_typed c -> Forall (sendable c) frames ->
  writePipelineFrames c conn frames = (conn ++ stream frames, Ok tt).
Proof.
  intros Hc Hf. revert conn. induction Hf as [|f frames [_ Ha] Hf IH]; intros conn; cbn [writePipelineFrames].
  { by rewrite app_nil_r. }
  rewrite Encode_buf by done. rewrite IH. by rewrite stream_cons, app_assoc.
Qed.

Lemma readResponses_in_order c (p : gmap Z nat) : codec_typed c -> forall rs acc seen,
  Forall (sendable c) rs -> NoDup (ids rs) -> Forall (fun id => id ∉ seen) (ids rs) ->
  (forall k r, rs !! k = Some r -> p !! RequestID r = Some (length acc + k)%nat) ->
  readResponses c p (length rs) (stream rs) (acc ++ List.repeat zeroFrame (length rs)) seen = Ok (acc ++ rs).
Proof.
  intros Hc. induction rs as [|r rs IH]; intros acc seen Hs Hnd Hseen Hp; [done|]. cbn [length readResponses].
  apply Forall_cons in Hs as [[Ht Ha] Hs]. unfold ids in *. rewrite fmap_cons in Hnd, Hseen.
  apply NoDup_cons in Hnd as [Hr Hnd]. apply Forall_cons in Hseen as [Hrs Hseen].
  rewrite stream_cons, Decode_bytes by done. unfold recordPipelineResponse.
  rewrite (Hp 0%nat r eq_refl), bool_decide_eq_false_2 by done. unfold mbind at 1, result_bind at 1.
  replace (<[(length acc + 0)%nat := r]> (acc ++ List.repeat zeroFrame (S (length rs))))
    with ((acc ++ [r]) ++ List.repeat zeroFrame (length rs)).
  2:{ rewrite Nat.add_0_r, insert_app_r_alt, Nat.sub_diag by lia. cbn. by rewrite <- app_assoc. }
  rewrite (IH (acc ++ [r]) _); [by rewrite <- app_assoc|done|done| |].
  - rewrite Forall_forall in Hseen |- *. intros id Hid. specialize (Hseen id Hid). set_solver.
  - intros k q Hq. rewrite (Hp (S k) q Hq), length_app. cbn. f_equal. lia.
Qed.

Section Pipeline.
  Context `{!RangeOrder, !ErrorBody} {E : Type} `{!Engine E}.

Lemma handleAll_ids (env : nat -> callEnv) (s : Server E) frames :
  ids (handleAll env s frames).2 = ids frames /\ length (handleAll env s frames).2 = length frames.
Proof.
  revert env s. induction frames as [|f frames IH]; intros env s; [done|]. cbn [handleAll].
  pose proof (handleFrame_handled (env 0%nat) s f) as [_ (_ & Hid & _)].
  destruct (handleFrame (env 0%nat) s f) as [s' response]. specialize (IH (fun i => env (S i)) s').
  destruct (handleAll _ s' frames) as [s'' responses]. cbn [fst snd] in *. destruct IH as [IH1 IH2].
  unfold ids in *. rewrite !fmap_cons, IH1, Hid. cbn. by rewrite IH2.
Qed.

(** C32: a batch of frames with distinct identifiers that is written before any
    response is read gets from a server the responses it would have given to the
    requests one by one, in the order of the requests, as long as frames and
    responses fit the limits of the codec and the connection takes the whole batch
    before the first response is read. *)
Theorem pipeline_round_trip (env : nat -> callEnv) (s : Server E) frames : codec_typed (srv_codec s) ->
  NoDup (ids frames) -> Forall (sendable (srv_codec s)) frames ->
  Forall (sendable (srv_codec s)) (handleAll env s frames).2 ->
  RoundTrip (srv_codec s) (fun sent => (serve env s sent).2) frames = Ok (handleAll env s frames).2.
Proof.
  intros Hc Hnd Hf Hr. unfold RoundTrip. destruct frames as [|f0 frames0]; [done|]. set (frames := f0 :: frames0) in *.
  assert (is_ok (pipelineFramePositions frames 0 ∅) = true) as Hok.
  { apply positions_total; [done|]. apply Forall_forall. intros id _. rewrite dom_empty_L. set_solver. }
  destruct (pipelineFramePositions frames 0 ∅) as [p|] eqn:Hp; [|done]. clear Hok.
  apply positions_inv in Hp as (_ & _ & _ & Hpos & _). unfold mbind at 1, result_bind at 1.
  rewrite written_stream by done. unfold mbind, result_bind. cbn [app].
  rewrite serve_stream by done. cbn [snd]. unfold readPipelineResponses.
  destruct (handleAll_ids env s frames) as [Hids Hlen]. rewrite <- Hlen.
  apply (readResponses_in_order (srv_codec s) p Hc _ [] ∅).
  - done.
  - by rewrite Hids.
  - apply Forall_forall. intros id _. set_solver.
  - intros k r Hk. assert (ids (handleAll env s frames).2 !! k = Some (RequestID r)) as Hk'
      by (unfold ids; by rewrite list_lookup_fmap, Hk).
    rewrite Hids in Hk'. unfold ids in Hk'. rewrite list_lookup_fmap in Hk'.
    apply fmap_Some in Hk' as (f & Hf' & ->). by rewrite (Hpos k f Hf').
Qed.
End Pipeline.

(** * Examples over TCP *)

From S2P Require Import Binary.
From S2P Require Import GoStrings.
From S2P Require Import ControlApi.
From S2P Require Import Routing.
From S2P Require Import Shard.
From S2P Require Import Primitives.
From S2P Require Import Instances.
From S2P Require Import MemoryEngine.
From S2P Require Import EngineExamples.
From S2P Require Import WireTypes.
From S2P Require Import Wire.
From S2P Require Import WireBatch.
From S2P Require Import WirePrimitive.
From S2P Require Import WireSpec.
From S2P Require Import WireMessages.
From S2P Require Import Replication.
From S2P Require Import TcpCalls.
From S2P Require Import TcpMigration.

#[local] Existing Instance sample_codecs.
#[local] Existing Instance sample_math.
#[local] Existing Instance canonical_order.

(** Error bodies with the code in two bytes. *)
Definition sampleMarshal (e : Error) : list byte := be_put 2 (err_code e) ++ str_bytes (err_message e).

Definition sampleUnmarshal (bs : list byte) : option Error :=
  Some (mkError (be_get (take 2 bs)) (bytes_str (drop 2 bs))).

Lemma sample_marshal_code e : 0 <= err_code e < 2 ^ 16 ->
  exists m, sampleUnmarshal (sampleMarshal e) = Some (mkError (err_code e) m).
Proof.
  intros He. unfold sampleUnmarshal, sampleMarshal.
  assert (take 2 (be_put 2 (err_code e) ++ str_bytes (err_message e)) = be_put 2 (err_code e)) as -> by done.
  rewrite be_get_put_small by (cbn; lia). by eexists.
Qed.

Definition sample_errors : ErrorBody := {|
  error_text := fun err => match err with FencedRange _ => "fenced" | _ => "failed" end;
  marshalError := sampleMarshal;
  unmarshalError := sampleUnmarshal;
  marshal_code := sample_marshal_code
|}.

#[local] Existing Instance sample_errors.

(** One replica, the current route epoch is 7. *)
Definition sample_server : Server MemoryEngine :=
  NewServer (mkServerConfig (Some 7) (Some (fun _ => ["node-b"])) 16) (mkService engine2 (mkQuota 0 0 ∅ ∅)).

Definition sample_env : callEnv := mkCallEnv (fun i j => 300 + Z.of_nat (i + j)) (fun _ => 1000) (fun _ => Written).

Definition alice : WireTypes.Key := WireTypes.mkKey "shop" "cart" "" "alice".

Definition sample_set : WireTypes.SetRequest := WireTypes.mkSetRequest alice (str_bytes "cherries") 7 60000 0 0 0 0 0.

Lemma alice_ok : wire_key_ok alice.
Proof. by vm_compute. Qed.

Lemma sample_set_ok : call_ok (CallSet sample_set).
Proof. split; [split; [apply alice_ok|]|]; vm_compute; repeat split; congruence. Qed.

Lemma sample_codec : codec_typed (srv_codec sample_server).
Proof. apply new_codec_typed. Qed.

Definition cherries : WireRecord :=
  WireTypes.mkRecord true "shop" "cart" "" "alice" (str_bytes "cherries") 2 0 0 (-62135596740000) 0 0.

(** The set is applied, replicated to the one replica and answered with the
    record. *)
Lemma remote_call_is_local_witness : exists s',
  remoteCall sample_env NewClient (Some sample_server) (CallSet sample_set) =
    (nextClient NewClient, Some s', Ok (ReplyRecord cherries)) /\
  length (rd_jobs (srv_replication s')) = 1%nat.
Proof.
  pose proof (remote_call_is_local sample_env NewClient sample_server (CallSet sample_set) sample_codec eq_refl
    sample_set_ok ltac:(split; vm_compute; reflexivity) ltac:(split; vm_compute; discriminate)
    ltac:(split; vm_compute; discriminate)) as H.
  assert ((localCall sample_env sample_server (CallSet sample_set)).2 = Ok (ReplyRecord cherries)) as E
    by (vm_compute; reflexivity).
  assert (length (rd_jobs (srv_replication (localCall sample_env sample_server (CallSet sample_set)).1)) = 1%nat) as J
    by (vm_compute; reflexivity).
  destruct (localCall sample_env sample_server (CallSet sample_set)) as [s' r]. cbn [fst snd] in E, J. subst r.
  exists s'. split; [|exact J]. apply H. vm_compute. repeat split; congruence.
Defined.

(** ** Fences *)

(** The whole cart space. *)
Definition cart_range : MigrationRangeRequest := mkMigrationRangeRequest "shop" "cart" 0 VSlotMax 0.

(** The server after a client fenced the space. *)
Definition fenced_server : Server MemoryEngine :=
  default sample_server (clientFenceRange sample_env NewClient (Some sample_server) cart_range).1.2.

Definition cart_fence : rangeFence := rangeFenceFromWire cart_range.

(** A get and a set were handled in between; the set of alice's cart is refused. *)
Lemma fence_refuses_writes_witness : exists message,
  let frames := [call_frame NewClient (CallGet (WireTypes.mkGetRequest alice 7 0 0));
                 call_frame NewClient (CallSet sample_set)] in
  let s' := (handleAll (fun _ => sample_env) fenced_server frames).1 in
  remoteCall sample_env NewClient (Some s') (CallSet sample_set) =
  (nextClient NewClient, Some s', Err (RemoteError (mkError ErrorNoRoute message))).
Proof.
  apply (fence_refuses_writes (fun _ => sample_env) sample_env NewClient fenced_server
    [call_frame NewClient (CallGet (WireTypes.mkGetRequest alice 7 0 0)); call_frame NewClient (CallSet sample_set)]
    cart_fence (CallSet sample_set) alice).
  - vm_compute. by left.
  - apply Forall_cons_2; [intros [H _]; discriminate H|]. apply Forall_singleton. intros [H _]; discriminate H.
  - exact sample_set_ok.
  - reflexivity.
  - vm_compute. reflexivity.
  - exact sample_codec.
  - reflexivity.
  - split; vm_compute; discriminate.
  - split; vm_compute; discriminate.
Defined.

(** The fence does not cover every mutation: the kinds it checks omit those
    that set a bit, add to or merge a sketch and add a point, so such a request to
    a fenced key is applied and changes the stored entry while its range is being
    moved. *)
Theorem fence_misses_bitmap :
  let request := WireTypes.mkPrimitiveRequest (WireTypes.mkKey "shop" "cart" "" "seen") 0 18 0 0 0 0 "" "" []
    5 1 (S754_zero false) (S754_zero false) (S754_zero false) false false 0 0 false 0 0 in
  keyInRangeFence (wp_key request) cart_fence = true /\ cart_fence ∈ srv_fences fenced_server /\
  Mutates (primitiveKindFromWire (wp_kind request)) = true /\
  match clientPrimitive sample_env NewClient (Some fenced_server) request with
  | (_, Some s', Ok result) =>
      wpr_applied result = true /\ st_objects <$> (eng_Stats (svc_engine (srv_service fenced_server))).2 = Ok 2 /\
      st_objects <$> (eng_Stats (svc_engine (srv_service s'))).2 = Ok 3
  | _ => False
  end.
Proof. vm_compute. split; [done|]. split; [by left|done]. Qed.

(** ** Moving a range *)

Definition export_request : MigrationRangeRequest := mkMigrationRangeRequest "shop" "cart" 0 VSlotMax 7.

(** A node with an empty engine of another number of shards. *)
Definition empty_server : Server MemoryEngine :=
  NewServer (mkServerConfig (Some 7) None 16) (mkService (NewMemory 5) (mkQuota 0 0 ∅ ∅)).

Definition exported : list SnapshotEntry := Eval vm_compute in
  match (exportLocked (srv_service sample_server) (rangeFromWire export_request) 300).2 with
  | Ok entries => entries
  | Err _ => []
  end.

Lemma exported_ok : Forall wire_entry_ok exported.
Proof.
  assert (forall t, 0 <= t < 1000000 -> wire_time t) as Ht.
  { intros t Ht. destruct (decide (t = zeroTime)) as [|Hne]; [by left|right].
    rewrite Z.div_small by done. split_and!; [vm_compute; split; congruence|done|done]. }
  assert (forall k v n t1 t2 t3, wire_key_ok (WireTypes.mkKey "shop" "cart" "" k) -> is_u64 n ->
    0 <= t1 < 1000000 -> 0 <= t2 < 1000000 -> 0 <= t3 < 1000000 ->
    wire_entry_ok (mkSnapshotEntry (EngineTypes.mkKey "shop" "cart" "" k) v n 0 0 0 t1 t2 t3 1)) as Hx.
  { intros k v n t1 t2 t3 Hk Hn H1 H2 H3. assert (is_u64 0 /\ is_u64 1) as [Z0 Z1] by (unfold is_u64; lia).
    exact (conj Hk (conj Hn (conj Z0 (conj Z0 (conj (or_introl eq_refl)
      (conj (Ht t1 H1) (conj (Ht t2 H2) (conj (Ht t3 H3) Z1)))))))). }
  apply Forall_cons_2; [|apply Forall_singleton]; apply Hx; by vm_compute.
Qed.

Lemma range_moves_over_wire_witness : exists snapshot s',
  clientExportRange sample_env NewClient (Some sample_server) export_request =
    (nextClient NewClient, Some sample_server, Ok snapshot) /\
  clientImportSnapshot sample_env (nextClient NewClient) (Some empty_server) snapshot =
    (nextClient (nextClient NewClient), Some s', Ok (mkMigrationImportResponse 2)) /\
  length exported = 2%nat.
Proof.
  assert (exportLocked (srv_service sample_server) (rangeFromWire export_request) (ce_clock sample_env 0%nat 0%nat) =
    (srv_service sample_server, Ok exported)) as He by (vm_compute; reflexivity).
  destruct (importLocked (srv_service empty_server) (millis_entry <$> exported)) as [svc r] eqn:Ei.
  assert (r = Ok (mkImportResult 2)) as -> by (change (r = (svc, Ok (mkImportResult 2)).2); apply (f_equal snd) in Ei;
    cbn [snd] in Ei; rewrite <- Ei; vm_compute; reflexivity).
  destruct (range_moves_over_wire sample_env sample_env NewClient sample_server empty_server export_request exported
    (srv_service sample_server) svc 2) as (snapshot & H1 & H2).
  - reflexivity.
  - reflexivity.
  - reflexivity.
  - vm_compute. repeat split; congruence.
  - vm_compute. reflexivity.
  - exact He.
  - exact exported_ok.
  - vm_compute. reflexivity.
  - vm_compute. reflexivity.
  - exact Ei.
  - vm_compute. split; congruence.
  - split; vm_compute; discriminate.
  - split; vm_compute; discriminate.
  - exists snapshot, (withService svc empty_server).
    split; [exact H1|]. split; [exact H2|vm_compute; reflexivity].
Defined.

(** ** Pipelines *)

Definition pipeline : list Frame := Eval vm_compute in
  let '(c, f1) := NewPipelineSetFrame NewClient sample_set in
  let '(c, f2) := NewPipelineGetFrame c (WireTypes.mkGetRequest alice 7 0 0) in
  [f1; f2].

Definition pipeline_responses : list Frame := Eval vm_compute in
  (handleAll (fun _ => sample_env) sample_server pipeline).2.

Lemma pipeline_round_trip_witness :
  RoundTrip (srv_codec sample_server) (fun sent => (serve (fun _ => sample_env) sample_server sent).2) pipeline =
    Ok pipeline_responses /\ ids pipeline_responses = [1; 2].
Proof.
  assert ((handleAll (fun _ => sample_env) sample_server pipeline).2 = pipeline_responses) as E
    by (vm_compute; reflexivity).
  split; [|vm_compute; reflexivity]. rewrite <- E. apply pipeline_round_trip; rewrite ?E.
  - exact sample_codec.
  - apply (bool_decide_eq_true_1 (NoDup (ids pipeline))). vm_compute. reflexivity.
  - apply Forall_cons_2; [|apply Forall_singleton]; split; vm_compute; repeat split; congruence.
  - apply Forall_cons_2; [|apply Forall_singleton]; split; vm_compute; repeat split; congruence.
Defined.

(** The peer answers in the opposite order. *)
Definition reversed (sent : list byte) : list byte :=
  match (serve (fun _ => sample_env) sample_server sent).2 with
  | answered =>
      match Decode (NewCodec []) answered with
      | (Ok first, rest) => rest ++ frame_bytes first
      | _ => []
      end
  end.

Lemma pipeline_pairs_witness : exists out,
  RoundTrip (NewCodec []) reversed pipeline = Ok out /\ NoDup (ids pipeline) /\ ids out = ids pipeline.
Proof.
  destruct (RoundTrip (NewCodec []) reversed pipeline) as [out|e] eqn:E.
  - exists out. split; [reflexivity|]. exact (pipeline_pairs (NewCodec []) reversed pipeline out E).
  - exfalso. apply (f_equal is_ok) in E. vm_compute in E. discriminate E.
Defined.

(** ** Connections *)

Lemma connection_terminates_witness : exists s' out,
  serveConn 500 (fun _ => sample_env) sample_server (stream pipeline) [] = Some (s', out) /\
  conn_served (fun _ => sample_env) sample_server (stream pipeline) [] s' out.
Proof.
  destruct (connection_terminates (fun _ => sample_env) sample_server (stream pipeline) [] sample_codec) as (s' & out & Hs & Hr).
  exists s', out. split; [|exact Hs]. apply Hr. apply (Nat.ltb_lt (length (stream pipeline)) 500). vm_compute. reflexivity.
Defined.

Lemma response_typed_witness :
  let '(s', response) := handleFrame sample_env sample_server (call_frame NewClient (CallSet sample_set)) in
  frame_typed response /\ answers (call_frame NewClient (CallSet sample_set)) response /\
  same_config sample_server s'.
Proof. apply response_typed. vm_compute. repeat split; congruence. Defined.

(** Limits between the sizes of the request and of its response. *)
Definition tight_server : Server MemoryEngine :=
  mkServer (srv_service sample_server) (mkCodec 46 64) None None (srv_replication sample_server) [].

(** The value is stored, the client sees the connection end. *)
Lemma oversized_response_is_lost_witness : exists s',
  do sample_env (mkClient (mkCodec 46 64) 0) (Some tight_server) OpCacheSet 7 (EncodeSetRequest sample_set)
     (str_bytes "cherries") = (mkClient (mkCodec 46 64) 1, Some s', Err (ReadFrameFailed ErrEOF)) /\
  (eng_Get (svc_engine (srv_service s')) k1 (mkGetOptions 0 0) 400).2.1.2 = true.
Proof.
  eexists. split.
  - apply (oversized_response_is_lost sample_env (mkClient (mkCodec 46 64) 0) tight_server OpCacheSet 7
      (EncodeSetRequest sample_set) (str_bytes "cherries")).
    + vm_compute. repeat split; congruence.
    + reflexivity.
    + done.
    + done.
    + split; vm_compute; discriminate.
    + intros [H _]. vm_compute in H. by apply H.
  - vm_compute. reflexivity.
Defined.
