(* ===== verification/Executor.v ===== *)
(** * The migration executor (control: migration_executor.go, migration_executor_batch.go,
    migration_service.go; service.go: apply)

    The control node claims the tasks of the migration plans and moves their
    ranges with the TCP client: fence the source, export, import into the target,
    cut over, delete from the source, lift the fence.  The cluster is the control
    state, the nodes by address and the client.

    What happens to a call and to a proposal is an argument: a call may not reach
    the node, or reach it without its answer being received; a proposal may be
    applied, refused, or applied without the executor learning of it.  The time
    limits of a task are such outcomes.  The tasks of a wave, which the code runs
    at the same time on different nodes, run one after the other.  The texts of
    errors are the parameter [message]; logging is not modelled. *)

From S2P Require Import Prelude.
From S2P Require Import Binary.
From S2P Require Import GoStrings.
From S2P Require Import ControlApi.
From S2P Require Import Control.
From S2P Require Import Frame.
From S2P Require Import Service.
From S2P Require Import WireTypes.
From S2P Require Import TcpWire.
From S2P Require Import TcpServer.
From S2P Require Import TcpClient.

Local Open Scope Z_scope.
Local Open Scope nespa_scope.

(** ** Configuration *)

(** src: control/migration_executor.go MigrationConfig *)
Record MigrationConfig := mkMigrationConfig {
  mc_enabled : bool;
  mc_sweepInterval : Duration;
  mc_taskTimeout : Duration;
  mc_retryBackoff : Duration;
  mc_maxParallelTasks : Z
}.

(** src: control/migration_executor.go defaultMigrationSweepInterval 15-20 *)
Definition defaultMigrationConfig : MigrationConfig :=
  mkMigrationConfig false nsPerSecond (10 * nsPerSecond) (2 * nsPerSecond) 1.

(** src: control/migration_executor.go normalizeMigrationConfig *)
Definition normalizeMigrationConfig (cfg : MigrationConfig) : MigrationConfig :=
  let or_default (v d : Z) := if v <=? 0 then d else v in
  mkMigrationConfig (mc_enabled cfg)
    (or_default (mc_sweepInterval cfg) (mc_sweepInterval defaultMigrationConfig))
    (or_default (mc_taskTimeout cfg) (mc_taskTimeout defaultMigrationConfig))
    (or_default (mc_retryBackoff cfg) (mc_retryBackoff defaultMigrationConfig))
    (or_default (mc_maxParallelTasks cfg) (mc_maxParallelTasks defaultMigrationConfig)).

(** src: control/migration_executor_batch.go migrationTaskConcurrency *)
Definition migrationTaskConcurrency (cfg : MigrationConfig) : Z :=
  if mc_maxParallelTasks cfg <=? 0 then 1 else mc_maxParallelTasks cfg.

(** The loop of [retryDelay]. *)
Fixpoint retryLoop (attempts : nat) (delay taskTimeout : Duration) : Duration :=
  match attempts with
  | O => delay
  | S attempts =>
      let delay := s64 (delay * 2) in
      if taskTimeout <=? delay then taskTimeout else retryLoop attempts delay taskTimeout
  end.

(** src: control/migration_executor.go retryDelay *)
Definition retryDelay (task : MigrationTaskBody) (cfg : MigrationConfig) : Duration :=
  retryLoop (Z.to_nat (mt_attempts task)) (mc_retryBackoff cfg) (mc_taskTimeout cfg).

(** src: control/migration_executor.go migrationRangeRequest *)
Definition migrationRangeRequest (task : MigrationTaskBody) : MigrationRangeRequest :=
  mkMigrationRangeRequest (mt_namespace task) (mt_space task) (mt_start task) (mt_end task) (mt_revision task).

(** ** Waves of tasks *)

(** src: control/migration_executor_batch.go appendMigrationTaskNodeKey *)
Definition migrationTaskNodeKey (nodeID addr role : string) : string :=
  if negb (bool_decide (nodeID = "")) then ("node:" +:+ nodeID)%string
  else if negb (bool_decide (addr = "")) then ("addr:" +:+ addr)%string
  else ("unknown:" +:+ role)%string.

(** src: control/migration_executor_batch.go migrationTaskNodeKeys *)
Definition migrationTaskNodeKeys (task : MigrationTaskBody) : list string :=
  [migrationTaskNodeKey (mt_sourceNodeID task) (mt_sourceAddr task) "source";
   migrationTaskNodeKey (mt_targetNodeID task) (mt_targetAddr task) "target"].

(** src: control/migration_executor_batch.go migrationTaskNodeConflict *)
Definition migrationTaskNodeConflict (used : gset string) (task : MigrationTaskBody) : bool :=
  existsb (fun node => bool_decide (node ∈ used)) (migrationTaskNodeKeys task).

(** src: control/migration_executor_batch.go recordMigrationTaskNodes *)
Definition recordMigrationTaskNodes (used : gset string) (task : MigrationTaskBody) : gset string :=
  foldl (fun used node => {[node]} ∪ used) used (migrationTaskNodeKeys task).

(** A wave and the nodes it uses.  A task goes to the first wave without a
    conflict, or to a new one at the end.
    src: control/migration_executor_batch.go migrationTaskWaveIndex *)
Fixpoint placeTask (waves : list (list MigrationTaskBody * gset string)) (task : MigrationTaskBody)
    : list (list MigrationTaskBody * gset string) :=
  match waves with
  | [] => [([task], recordMigrationTaskNodes ∅ task)]
  | (wave, used) :: rest =>
      if migrationTaskNodeConflict used task then (wave, used) :: placeTask rest task
      else (wave ++ [task], recordMigrationTaskNodes used task) :: rest
  end.

(** src: control/migration_executor_batch.go migrationTaskWaves *)
Definition migrationTaskWaves (tasks : list MigrationTaskBody) : list (list MigrationTaskBody) :=
  (foldl placeTask [] tasks).*1.

(** ** Outcomes *)

(** What happens to a call: it is answered, does not reach the node, or reaches it
    and its answer is lost. *)
Inductive callFate :=
| Answered (env : callEnv)
| Unreachable
| AnswerLost (env : callEnv).

(** What happens to a proposal. *)
Inductive proposalFate := Accepted | Refused | AcceptedUnseen.

(** The time the service reads and the clock of the state machine. *)
Record proposal := mkProposal { pp_fate : proposalFate; pp_now : Time; pp_clock : nat -> Time }.

Inductive proposeError := RaftFailed | CommandFailed (e : controlError).

(** The outcomes of one execution of a task. *)
Record taskFates := mkTaskFates {
  tf_fence : callFate;
  tf_export : callFate;
  tf_import : callFate;
  tf_cutover : proposal;
  tf_delete : callFate;
  tf_unfence : callFate;
  tf_finish : proposal
}.

Inductive migrationError :=
| FenceFailed (e : clientError)
| ExportFailed (e : clientError)
| ImportFailed (e : clientError)
| CutoverFailed (e : proposeError)
| DeleteFailed (e : clientError)
| UnfenceFailed (e : clientError)
| CleanupFailed (delete unfence : clientError)
| TaskTimedOut.

(** ** Proposals *)

Definition zeroCommand (type : CommandType) (planID taskID imported deleted : Z) (message : string)
    (retryAfterMS nowUnix : Z) : Command :=
  mkCommand type "" "" "" "" "" nowUnix 0 0 planID taskID imported deleted message retryAfterMS.

(** src: control/service.go apply *)
Definition applyCommand `{!RangeOrder} (p : proposal) (c : Command) (s : ControlState)
    : ControlState * result proposeError ApplyResult :=
  match pp_fate p with
  | Refused => (s, Err RaftFailed)
  | AcceptedUnseen => ((Apply c (pp_clock p) s).1, Err RaftFailed)
  | Accepted => let '(s, r) := Apply c (pp_clock p) s in (s, map_err CommandFailed r)
  end.

(** src: control/migration_service.go claimMigrationTask *)
Definition claimMigrationTask `{!RangeOrder} (p : proposal) (s : ControlState) : ControlState * result proposeError (option MigrationTaskBody) :=
  let '(s, r) := applyCommand p (zeroCommand CommandClaimMigrationTask 0 0 0 0 "" 0 (Unix (pp_now p))) s in
  (s, match r with
      | Err e => Err e
      | Ok (AppliedTask true task) => Ok (Some task)
      | Ok _ => Ok None
      end).

(** src: control/migration_service.go completeMigrationTask *)
Definition completeMigrationTask `{!RangeOrder} (p : proposal) (task : MigrationTaskBody) (imported deleted : Z) (s : ControlState) :=
  applyCommand p (zeroCommand CommandCompleteMigrationTask (mt_planID task) (mt_taskID task) imported deleted "" 0
                    (Unix (pp_now p))) s.

(** src: control/migration_service.go failMigrationTask *)
Definition failMigrationTask `{!RangeOrder} (p : proposal) (task : MigrationTaskBody) (retryAfter : Duration) (cause : string)
    (s : ControlState) :=
  applyCommand p (zeroCommand CommandFailMigrationTask (mt_planID task) (mt_taskID task) 0 0 cause
                    (Z.quot retryAfter 1000000) (Unix (pp_now p))) s.

(** src: control/migration_service.go cutoverMigrationTask *)
Definition cutoverMigrationTask `{!RangeOrder} (p : proposal) (task : MigrationTaskBody) (imported : Z) (s : ControlState) :=
  applyCommand p (zeroCommand CommandCutoverMigrationTask (mt_planID task) (mt_taskID task) imported 0 "" 0
                    (Unix (pp_now p))) s.

(** ** Moving a range *)

(** The cluster: the control state, the nodes by address and the executor's
    client. *)
Record cluster (E : Type) := mkCluster {
  cu_control : ControlState;
  cu_nodes : gmap string (Server E);
  cu_client : Client
}.
Arguments mkCluster {E} _ _ _.
Arguments cu_control {E} _.
Arguments cu_nodes {E} _.
Arguments cu_client {E} _.

Definition withControl {E} (v : ControlState) (w : cluster E) : cluster E :=
  mkCluster v (cu_nodes w) (cu_client w).

Section Executor.
  Context `{!RangeOrder, !ErrorBody} {E : Type} `{!Engine E}.
  Context (message : migrationError -> string).

(** A call of the client to the node at [addr]. *)
Definition callNode {A} (fate : callFate) (addr : string)
    (call : callEnv -> Client -> option (Server E) -> called (E := E) A) (w : cluster E)
    : cluster E * result clientError A :=
  let run env :=
    let '(c, peer, r) := call env (cu_client w) (cu_nodes w !! addr) in
    (mkCluster (cu_control w) (match peer with Some s => <[addr := s]> (cu_nodes w) | None => cu_nodes w end) c, r) in
  match fate with
  | Unreachable => (w, Err DialFailed)
  | Answered env => run env
  | AnswerLost env => ((run env).1, Err (ReadFrameFailed ErrUnexpectedEOF))
  end.

(** src: control/migration_executor.go deleteMigrationSource *)
Definition deleteMigrationSource (fate : callFate) (task : MigrationTaskBody) (request : MigrationRangeRequest)
    (w : cluster E) : cluster E * result clientError Z :=
  let '(w, r) := callNode fate (mt_sourceAddr task) (fun env c peer => clientDeleteRange env c peer request) w in
  (w, mdr_deleted <$> r).

(** src: control/migration_executor.go unfenceMigrationSource *)
Definition unfenceMigrationSource (fate : callFate) (task : MigrationTaskBody) (request : MigrationRangeRequest)
    (w : cluster E) : cluster E * result clientError unit :=
  let '(w, r) := callNode fate (mt_sourceAddr task) (fun env c peer => clientUnfenceRange env c peer request) w in
  (w, (fun _ => tt) <$> r).

(** src: control/migration_executor.go migrationCleanupResult *)
Definition migrationCleanupResult (imported : Z) (deleted : result clientError Z) (unfenced : result clientError unit)
    : result migrationError (Z * Z) :=
  match deleted, unfenced with
  | Err d, Err u => Err (CleanupFailed d u)
  | Err d, Ok _ => Err (DeleteFailed d)
  | Ok _, Err u => Err (UnfenceFailed u)
  | Ok deleted, Ok _ => Ok (imported, deleted)
  end.

(** src: control/migration_executor.go cleanupMigratedRange *)
Definition cleanupMigratedRange (fates : taskFates) (task : MigrationTaskBody) (request : MigrationRangeRequest)
    (w : cluster E) : cluster E * result migrationError (Z * Z) :=
  let '(w, deleted) := deleteMigrationSource (tf_delete fates) task request w in
  let '(w, unfenced) := unfenceMigrationSource (tf_unfence fates) task request w in
  (w, migrationCleanupResult (mt_importedEntries task) deleted unfenced).

(** src: control/migration_executor.go migrateRangeToTarget *)
Definition migrateRangeToTarget (fates : taskFates) (task : MigrationTaskBody) (request : MigrationRangeRequest)
    (w : cluster E) : cluster E * result migrationError (Z * Z) :=
  match callNode (tf_fence fates) (mt_sourceAddr task) (fun env c peer => clientFenceRange env c peer request) w with
  | (w, Err e) => (w, Err (FenceFailed e))
  | (w, Ok _) =>
  match callNode (tf_export fates) (mt_sourceAddr task) (fun env c peer => clientExportRange env c peer request) w with
  | (w, Err e) => (w, Err (ExportFailed e))
  | (w, Ok snapshot) =>
  match callNode (tf_import fates) (mt_targetAddr task) (fun env c peer => clientImportSnapshot env c peer snapshot) w with
  | (w, Err e) => (w, Err (ImportFailed e))
  | (w, Ok imported) =>
  match cutoverMigrationTask (tf_cutover fates) task (mir_imported imported) (cu_control w) with
  | (s, Err e) => (withControl s w, Err (CutoverFailed e))
  | (s, Ok _) =>
  match deleteMigrationSource (tf_delete fates) task request (withControl s w) with
  | (w, Err e) => (w, Err (DeleteFailed e))
  | (w, Ok deleted) =>
  match unfenceMigrationSource (tf_unfence fates) task request w with
  | (w, Err e) => (w, Err (UnfenceFailed e))
  | (w, Ok _) => (w, Ok (mir_imported imported, deleted))
  end end end end end end.

(** src: control/migration_executor.go migrateRange *)
Definition migrateRange (fates : taskFates) (task : MigrationTaskBody) (w : cluster E)
    : cluster E * result migrationError (Z * Z) :=
  let request := migrationRangeRequest task in
  if 0 <? mt_cutoverAtUnix task then cleanupMigratedRange fates task request w
  else migrateRangeToTarget fates task request w.

(** src: control/migration_executor.go executeClaimedMigrationTask *)
Definition executeClaimedMigrationTask (cfg : MigrationConfig) (fates : taskFates) (task : MigrationTaskBody)
    (w : cluster E) : cluster E :=
  match migrateRange fates task w with
  | (w, Err e) =>
      withControl (failMigrationTask (tf_finish fates) task (retryDelay task cfg) (message e) (cu_control w)).1 w
  | (w, Ok (imported, deleted)) =>
      withControl (completeMigrationTask (tf_finish fates) task imported deleted (cu_control w)).1 w
  end.

(** ** Sweeps *)

(** src: control/migration_executor.go reapTimedOutMigrationTasks *)
Definition reapTimedOutMigrationTasks (cfg : MigrationConfig) (now : Time) (proposals : nat -> proposal)
    (s : ControlState) : ControlState :=
  foldl (fun s '(i, task) =>
    (failMigrationTask (proposals i) task (retryDelay task cfg) (message TaskTimedOut) s).1)
    s (imap pair (TimedOutMigrationTasks now (mc_taskTimeout cfg) s)).

(** The loop of [claimMigrationTaskBatch]: the tasks claimed and whether to keep
    claiming.
    src: control/migration_executor_batch.go claimMigrationTaskBatch *)
Fixpoint claimMigrationTaskBatch (limit : nat) (proposals : nat -> proposal) (s : ControlState)
    (tasks : list MigrationTaskBody) : ControlState * (list MigrationTaskBody * bool) :=
  match limit with
  | O => (s, (tasks, true))
  | S limit =>
      match claimMigrationTask (proposals 0%nat) s with
      | (s, Err _) => (s, (tasks, false))
      | (s, Ok None) => (s, (tasks, true))
      | (s, Ok (Some task)) => claimMigrationTaskBatch limit (fun i => proposals (S i)) s (tasks ++ [task])
      end
  end.

(** The waves one after the other.
    src: control/migration_executor_batch.go executeClaimedMigrationTaskBatch *)
Definition executeClaimedMigrationTaskBatch (cfg : MigrationConfig) (fates : nat -> taskFates)
    (tasks : list MigrationTaskBody) (w : cluster E) : cluster E :=
  foldl (fun w '(i, task) => executeClaimedMigrationTask cfg (fates i) task w) w
    (imap pair (mjoin (migrationTaskWaves tasks))).

(** The outcomes of the n-th round of a sweep. *)
Record roundFates := mkRoundFates { rf_claims : nat -> proposal; rf_tasks : nat -> taskFates }.

(** The loop of [executePendingMigrationTasks], for at most [fuel] rounds. *)
Fixpoint executeRounds (fuel : nat) (cfg : MigrationConfig) (rounds : nat -> roundFates) (w : cluster E) : cluster E :=
  match fuel with
  | O => w
  | S fuel =>
      let limit := migrationTaskConcurrency cfg in
      let '(s, (tasks, keepClaiming)) :=
        claimMigrationTaskBatch (Z.to_nat limit) (rf_claims (rounds 0%nat)) (cu_control w) [] in
      let w := withControl s w in
      if bool_decide (tasks = []) then w
      else
        let w := executeClaimedMigrationTaskBatch cfg (rf_tasks (rounds 0%nat)) tasks w in
        if negb keepClaiming || (zlen tasks <? limit) then w
        else executeRounds fuel cfg (fun i => rounds (S i)) w
  end.

(** src: control/migration_executor.go executePendingMigrationTasks *)
Definition executePendingMigrationTasks (fuel : nat) (cfg : MigrationConfig) (now : Time)
    (reaps : nat -> proposal) (rounds : nat -> roundFates) (w : cluster E) : cluster E :=
  let w := withControl (reapTimedOutMigrationTasks cfg now reaps (cu_control w)) w in
  executeRounds fuel cfg rounds w.
End Executor.
