(* ===== verification/ControlService.v ===== *)
(** * The control plane service

    control/service.go, service_raft.go, liveness.go, dragonboat_membership.go,
    the parts of dragonboat.go that start and stop raft, the snapshot file of
    control/snapshot.go and the HTTP handlers of control/endpoints.go.

    A service is its configuration, the control state of this replica and, once
    started, its raft runtime.  What the NodeHost and the file system do is an
    argument: [raftEnv] for proposals, [memberTrial] for membership calls,
    [startEnv] for the start, [fileFate] for writes. *)

From S2P Require Import Prelude.
From S2P Require Import GoStrings.
From S2P Require Import GoJson.
From S2P Require Import ControlApi.
From S2P Require Import ControlRoutes.
From S2P Require Import Control.
From S2P Require Import ControlCodec.
From S2P Require Import ControlRaft.
From S2P Require Import Executor.

Local Open Scope Z_scope.
Local Open Scope nespa_scope.

(** ** Configuration *)

(** src: control/service.go LivenessConfig *)
Record LivenessConfig := mkLiveness {
  lc_sweepInterval : Duration;
  lc_suspectAfter : Duration;
  lc_deadAfter : Duration
}.

(** src: controlapi/types.go RegisterNodeBody *)
Record RegisterNodeBody := mkRegister { rn_nodeID : string; rn_addr : string }.

(** [cf_snapshotPath] is the one field of [PersistenceConfig].
    src: control/service.go Config *)
Record Config := mkConfig {
  cf_addr : string;
  cf_clusterID : string;
  cf_bootstrapNodes : list RegisterNodeBody;
  cf_liveness : LivenessConfig;
  cf_migration : MigrationConfig;
  cf_snapshotPath : string;
  cf_raft : RaftConfig
}.

(** src: control/liveness.go normalizeLivenessConfig *)
Definition normalizeLivenessConfig (cfg : LivenessConfig) : LivenessConfig :=
  let sweep := if lc_sweepInterval cfg <=? 0 then 5 * nsPerSecond else lc_sweepInterval cfg in
  let suspect := if lc_suspectAfter cfg <=? 0 then 15 * nsPerSecond else lc_suspectAfter cfg in
  let dead := if lc_deadAfter cfg <=? 0 then 30 * nsPerSecond else lc_deadAfter cfg in
  mkLiveness sweep suspect (if dead <? suspect then suspect else dead).

(** src: control/dragonboat.go DragonboatRuntime *)
Record DragonboatRuntime := mkRuntime {
  dr_clusterID : Z;
  dr_nodeID : Z;
  dr_addr : string;
  dr_nodeHostDir : string;
  dr_tempNodeHostDir : string;
  dr_proposalTimeout : Duration
}.

#[global] Instance DragonboatRuntime_eq_dec : EqDecision DragonboatRuntime.
Proof. solve_decision. Defined.

(** src: control/service.go ServiceRuntime *)
Record ServiceRuntime := mkService {
  sv_cfg : Config;
  sv_state : ControlState;
  sv_liveness : LivenessConfig;
  sv_migration : MigrationConfig;
  sv_raft : option DragonboatRuntime
}.

(** src: control/service.go NewServiceRuntimeWithEvents *)
Definition NewServiceRuntime (cfg : Config) : ServiceRuntime :=
  mkService cfg (NewControlState (cf_clusterID cfg)) (normalizeLivenessConfig (cf_liveness cfg)) (cf_migration cfg) None.

Definition withState (s : ControlState) (svc : ServiceRuntime) : ServiceRuntime :=
  mkService (sv_cfg svc) s (sv_liveness svc) (sv_migration svc) (sv_raft svc).

(** src: control/service.go setDragonboatRuntime *)
Definition setDragonboatRuntime (raft : DragonboatRuntime) (svc : ServiceRuntime) : ServiceRuntime :=
  mkService (sv_cfg svc) (sv_state svc) (sv_liveness svc) (sv_migration svc) (Some raft).

(** src: control/service.go clearDragonboatRuntime *)
Definition clearDragonboatRuntime (raft : DragonboatRuntime) (svc : ServiceRuntime) : ServiceRuntime :=
  if bool_decide (sv_raft svc = Some raft)
  then mkService (sv_cfg svc) (sv_state svc) (sv_liveness svc) (sv_migration svc) None
  else svc.

(** ** Errors and HTTP statuses *)

(** The codes an error carries, its own first and then what it wraps. *)
Definition oopsCodes (err : raftError) : list string :=
  match err with
  | ErrRaftInvalidNodeID => ["control_raft_invalid_node_id"]
  | ErrRaftInvalidAddr cause => ["control_raft_invalid_addr"; controlErrorCode cause]
  | ErrRaftInvalidMember None => ["control_raft_invalid_member"]
  | ErrRaftInvalidMember (Some cause) => ["control_raft_invalid_member"; controlErrorCode cause]
  | ErrRaftMemberInvalid cause => ["control_raft_member_invalid"; controlErrorCode cause]
  | ErrRaftNodeInvalid => ["control_raft_node_invalid"]
  | ErrRaftNotAvailable => ["control_raft_not_available"]
  | ErrRaftOperation => ["control_raft_operation_failed"]
  | ErrRaftPropose => ["control_raft_propose_failed"; "control_raft_operation_failed"]
  | ErrRaftResultDecode => ["control_raft_result_decode_failed"]
  | ErrRaftCommand code _ => [code]
  | ErrState ErrUnknownCommand => []
  | ErrState cause => [controlErrorCode cause]
  end.

(** Package oops: [Code] of an error that wraps others is the code of the deepest
    one that has a code. *)
Class OopsLibrary := {
  oops_code : list string -> string;
  oops_deepest : forall codes code, code <> "" -> oops_code (codes ++ [code]) = code
}.

Section Service.
  Context `{!RangeOrder, !OopsLibrary} (errorText : controlError -> string).

(** src: control/service.go controlOopsCode *)
Definition controlOopsCode (err : raftError) : option string :=
  match oopsCodes err with [] => None | codes => Some (oops_code codes) end.

(** src: control/service.go hasControlOopsCode *)
Definition hasControlOopsCode (err : raftError) (codes : list string) : bool :=
  match controlOopsCode err with Some code => bool_decide (code ∈ codes) | None => false end.

(** The status of the error that is returned.
    src: control/service.go controlStateError *)
Definition controlStateError (err : raftError) : Z :=
  if hasControlOopsCode err ["namespace_not_found"; "space_not_found"] then 404
  else if hasControlOopsCode err ["control_raft_not_available"; "control_raft_operation_failed"] then 503
  else if hasControlOopsCode err
            ["invalid_node"; "invalid_namespace"; "invalid_space"; "invalid_entity"; "control_raft_node_invalid";
             "control_raft_member_invalid"; "control_raft_invalid_member"; "control_raft_invalid_addr"] then 400
  else if hasControlOopsCode err ["node_not_found"] then 404
  else 500.

(** ** Commands *)

(** The clock of the service, the readings of the state machine's clock when there
    is no raft, and what a proposal meets. *)
Record serviceEnv := mkServiceEnv { se_now : Time; se_clock : nat -> Time; se_raft : raftEnv }.

(** src: control/service.go nowUnix *)
Definition nowUnix (env : serviceEnv) : Z := Unix (se_now env).

(** src: control/service.go apply *)
Definition svcApply (env : serviceEnv) (command : Command) (svc : ServiceRuntime)
    : option (ServiceRuntime * result raftError ApplyFields) :=
  match sv_raft svc with
  | Some raft =>
      match Propose errorText (dr_proposalTimeout raft) (se_raft env) command (sv_state svc) with
      | Some (s, r) => Some (withState s svc, r)
      | None => None
      end
  | None =>
      let '(s, r) := Apply command (se_clock env) (sv_state svc) in
      Some (withState s svc, match r with Ok r => Ok (fieldsOf (cm_type command) r) | Err e => Err (ErrState e) end)
  end.

(** A field of the result. *)
Definition selectField {A} (f : ApplyFields -> A) (out : option (ServiceRuntime * result raftError ApplyFields))
    : option (ServiceRuntime * result raftError A) :=
  match out with Some (svc, r) => Some (svc, f <$> r) | None => None end.

Definition catalogCommand (type : CommandType) (namespace space entity : string) : Command :=
  mkCommand type namespace space entity "" "" 0 0 0 0 0 0 0 "" 0.

Definition nodeCommand (type : CommandType) (nodeID addr : string) (now : Z) : Command :=
  mkCommand type "" "" "" nodeID addr now 0 0 0 0 0 0 "" 0.

(** src: control/service.go CreateNamespace *)
Definition svcCreateNamespace (env : serviceEnv) (namespace : string) (svc : ServiceRuntime) :=
  selectField af_createNamespace (svcApply env (catalogCommand CommandCreateNamespace namespace "" "") svc).

(** src: control/service.go CreateSpace *)
Definition svcCreateSpace (env : serviceEnv) (namespace space : string) (svc : ServiceRuntime) :=
  selectField af_createSpace (svcApply env (catalogCommand CommandCreateSpace namespace space "") svc).

(** src: control/service.go CreateEntity *)
Definition svcCreateEntity (env : serviceEnv) (namespace space entity : string) (svc : ServiceRuntime) :=
  selectField af_createEntity (svcApply env (catalogCommand CommandCreateEntity namespace space entity) svc).

(** src: control/service.go BumpNamespaceVersion *)
Definition svcBumpNamespaceVersion (env : serviceEnv) (namespace : string) (svc : ServiceRuntime) :=
  selectField af_bumpNamespace (svcApply env (catalogCommand CommandBumpNamespace namespace "" "") svc).

(** src: control/service.go BumpSpaceVersion *)
Definition svcBumpSpaceVersion (env : serviceEnv) (namespace space : string) (svc : ServiceRuntime) :=
  selectField af_bumpSpace (svcApply env (catalogCommand CommandBumpSpace namespace space "") svc).

(** src: control/service.go RegisterNode *)
Definition svcRegisterNode (env : serviceEnv) (nodeID addr : string) (svc : ServiceRuntime) :=
  selectField af_registerNode (svcApply env (nodeCommand CommandRegisterNode nodeID addr (nowUnix env)) svc).

(** src: control/service.go Heartbeat *)
Definition svcHeartbeat (env : serviceEnv) (nodeID addr : string) (svc : ServiceRuntime) :=
  selectField af_heartbeat (svcApply env (nodeCommand CommandHeartbeat nodeID addr (nowUnix env)) svc).

(** src: control/service.go RemoveNode *)
Definition svcRemoveNode (env : serviceEnv) (nodeID : string) (svc : ServiceRuntime) :=
  selectField af_removeNode (svcApply env (nodeCommand CommandRemoveNode nodeID "" 0) svc).

(** src: control/liveness.go advanceLiveness *)
Definition advanceLiveness (env : serviceEnv) (now : Time) (suspectAfter deadAfter : Duration) (svc : ServiceRuntime) :=
  selectField af_liveness (svcApply env
    (mkCommand CommandAdvanceNodeLiveness "" "" "" "" "" (Unix now) (Z.quot suspectAfter 1000000)
       (Z.quot deadAfter 1000000) 0 0 0 0 "" 0) svc).

(** The turns of [runLivenessSweep]: an error is logged and the sweep goes on.
    src: control/liveness.go runLivenessSweep *)
Fixpoint runLivenessSweep (ticks : list (Time * serviceEnv)) (svc : ServiceRuntime) : option ServiceRuntime :=
  match ticks with
  | [] => Some svc
  | (now, env) :: ticks =>
      let cfg := sv_liveness svc in
      match advanceLiveness env now (lc_suspectAfter cfg) (lc_deadAfter cfg) svc with
      | Some (svc, _) => runLivenessSweep ticks svc
      | None => None
      end
  end.

(** ** Membership *)

(** The membership of the raft cluster. *)
Record membership := mkMembership {
  mb_changeID : Z;
  mb_nodes : gmap Z string;
  mb_observers : gmap Z string;
  mb_witnesses : gmap Z string
}.

(** What the calls of one trial do: reading the membership may fail, and so may
    the request, whether or not it took effect. *)
Record memberTrial := mkMemberTrial {
  mt_read : option rawError;
  mt_request : option (bool * rawError)
}.

Record memberEnv := mkMemberEnv { me_start : Time; me_trials : nat -> trial; me_calls : nat -> memberTrial }.

(** src: control/dragonboat_membership.go configChangeIndex *)
Definition configChangeIndex (t : memberTrial) (m : membership) : result rawError Z :=
  match mt_read t with Some e => Err e | None => Ok (mb_changeID m) end.

(** A request of the NodeHost that changes the membership to [change m].  The
    index of the last change is only compared when ordered changes are
    configured, which they are not here. *)
Definition requestChange (change : membership -> membership) (t : memberTrial) (index : Z) (m : membership)
    : membership * result rawError unit :=
  match mt_request t with
  | None => (change m, Ok tt)
  | Some (applied, e) => (if applied then change m else m, Err e)
  end.

(** The trial of a change: read the index, then request. *)
Definition changeTrial (change : membership -> membership) (t : memberTrial) (m : membership)
    : membership * result rawError unit :=
  match configChangeIndex t m with
  | Err e => (m, Err e)
  | Ok index => requestChange change t index m
  end.

Definition addMember (nodeID : Z) (addr : string) (m : membership) : membership :=
  mkMembership (mb_changeID m + 1) (<[nodeID := addr]> (mb_nodes m)) (mb_observers m) (mb_witnesses m).

Definition deleteMember (nodeID : Z) (m : membership) : membership :=
  mkMembership (mb_changeID m + 1) (delete nodeID (mb_nodes m)) (delete nodeID (mb_observers m))
    (delete nodeID (mb_witnesses m)).

(** The result of a retried call. *)
Definition operationResult {W A} (out : option (W * result rawError A)) : option (W * result raftError A) :=
  match out with
  | Some (w, Ok a) => Some (w, Ok a)
  | Some (w, Err _) => Some (w, Err ErrRaftOperation)
  | None => None
  end.

(** src: control/dragonboat_membership.go AddRaftNode *)
Definition raftAddNode (timeout : Duration) (env : memberEnv) (nodeID : Z) (addr : string) (m : membership)
    : option (membership * result raftError unit) :=
  let addr := TrimSpace addr in
  if nodeID =? 0 then Some (m, Err ErrRaftNodeInvalid)
  else match normalizeNodeAddr addr with
       | Err e => Some (m, Err (ErrRaftMemberInvalid e))
       | Ok _ =>
           operationResult (dragonboatRetry (fun i => changeTrial (addMember nodeID addr) (me_calls env i))
             (me_trials env) timeout (me_start env) m)
       end.

(** src: control/dragonboat_membership.go RemoveRaftNode *)
Definition raftRemoveNode (timeout : Duration) (env : memberEnv) (nodeID : Z) (m : membership)
    : option (membership * result raftError unit) :=
  if nodeID =? 0 then Some (m, Err ErrRaftNodeInvalid)
  else operationResult (dragonboatRetry (fun i => changeTrial (deleteMember nodeID) (me_calls env i))
         (me_trials env) timeout (me_start env) m).

(** The later copies overwrite the earlier ones.
    src: control/dragonboat_membership.go RaftMembers *)
Definition raftMembers (timeout : Duration) (env : memberEnv) (m : membership)
    : option (membership * result raftError (gmap Z string)) :=
  operationResult (dragonboatRetry (fun i m =>
    match mt_read (me_calls env i) with
    | Some e => (m, Err e)
    | None => (m, Ok (mb_witnesses m ∪ (mb_observers m ∪ mb_nodes m)))
    end) (me_trials env) timeout (me_start env) m).

(** src: control/service_raft.go AddRaftNode *)
Definition AddRaftNode (env : memberEnv) (nodeID : Z) (addr : string) (svc : ServiceRuntime) (m : membership) :=
  match sv_raft svc with
  | None => Some (m, Err ErrRaftNotAvailable)
  | Some raft => raftAddNode (dr_proposalTimeout raft) env nodeID addr m
  end.

(** src: control/service_raft.go RemoveRaftNode *)
Definition RemoveRaftNode (env : memberEnv) (nodeID : Z) (svc : ServiceRuntime) (m : membership) :=
  match sv_raft svc with
  | None => Some (m, Err ErrRaftNotAvailable)
  | Some raft => raftRemoveNode (dr_proposalTimeout raft) env nodeID m
  end.

(** src: control/service_raft.go RaftMembers *)
Definition RaftMembers (env : memberEnv) (svc : ServiceRuntime) (m : membership) :=
  match sv_raft svc with
  | None => Some (m, Err ErrRaftNotAvailable)
  | Some raft => raftMembers (dr_proposalTimeout raft) env m
  end.

(** ** Starting and stopping *)

(** Why [StartDragonboat] fails. *)
Inductive startError :=
| StartConfig (e : raftError)
| StartTempDir
| StartReadDir
| StartNodeHost
| StartMembers
| StartCluster
| StartNotReady
| StartBootstrap (e : raftError).

(** What the start meets: the directory [os.MkdirTemp] makes, the entries of the
    raft directory, whether the NodeHost and the cluster start, the entries the
    log replays into the state machine, the read that waits for readiness and the
    proposals of the bootstrap nodes. *)
Record startEnv := mkStartEnv {
  st_mkdirTemp : option string;
  st_readDir : option bool;
  st_newNodeHost : bool;
  st_startCluster : bool;
  st_replayed : list entry;
  st_ready : memberEnv;
  st_bootstrap : list serviceEnv
}.

(** The directory and the temporary directory; [filepath.Clean] keeps what the
    path names.
    src: control/dragonboat.go resolveNodeHostDir *)
Definition resolveNodeHostDir (env : startEnv) (path : string) : result startError (string * string) :=
  let path := TrimSpace path in
  if negb (bool_decide (path = "")) then Ok (path, "")
  else match st_mkdirTemp env with
       | Some dir => Ok (dir, dir)
       | None => Err StartTempDir
       end.

(** A directory that is not there has no data.
    src: control/dragonboat.go hasExistingDragonboatData *)
Definition hasExistingDragonboatData (env : startEnv) : result startError bool :=
  match st_readDir env with Some b => Ok b | None => Err StartReadDir end.

(** The members the cluster starts with, and the state machine after the replay.
    src: control/dragonboat.go newDragonboatRuntime *)
Definition newDragonboatRuntime (env : startEnv) (cfg : RaftConfig) (s : ControlState)
    : ControlState * result startError (DragonboatRuntime * gmap Z string * bool) :=
  match normalizeRaftConfig cfg with
  | Err e => (s, Err (StartConfig e))
  | Ok cfg =>
      match resolveNodeHostDir env (rc_nodeHostDir cfg) with
      | Err e => (s, Err e)
      | Ok (nodeHostDir, tempNodeHostDir) =>
          match hasExistingDragonboatData env with
          | Err e => (s, Err e)
          | Ok hasData =>
              if negb (st_newNodeHost env) then (s, Err StartNodeHost)
              else
                let initialMembers := resolveRaftInitialMembers cfg hasData in
                let join := rc_join cfg && negb hasData in
                if negb hasData && negb join && bool_decide (initialMembers = ∅) then (s, Err StartMembers)
                else if negb (st_startCluster env) then (s, Err StartCluster)
                else
                  (applyEntries errorText (st_replayed env) s,
                   Ok (mkRuntime (rc_clusterID cfg) (rc_nodeID cfg) (rc_addr cfg) nodeHostDir tempNodeHostDir
                         (rc_proposalTimeout cfg), initialMembers, join))
          end
      end
  end.

(** src: control/dragonboat.go WaitReady *)
Definition WaitReady (raft : DragonboatRuntime) (env : memberEnv) (s : ControlState) : option (result raftError unit) :=
  match dragonboatRetry (fun i (_ : unit) =>
          match mt_read (me_calls env i) with Some e => (tt, Err e) | None => (tt, Ok (Lookup s)) end)
          (me_trials env) (dr_proposalTimeout raft) (me_start env) tt with
  | Some (_, Ok _) => Some (Ok tt)
  | Some (_, Err _) => Some (Err ErrRaftOperation)
  | None => None
  end.

(** src: control/dragonboat.go proposeBootstrapNodes *)
Fixpoint proposeBootstrapNodes (nodes : list RegisterNodeBody) (envs : list serviceEnv) (svc : ServiceRuntime)
    : option (ServiceRuntime * option startError) :=
  match nodes, envs with
  | node :: nodes, env :: envs =>
      match svcRegisterNode env (rn_nodeID node) (rn_addr node) svc with
      | None => None
      | Some (svc, Ok _) => proposeBootstrapNodes nodes envs svc
      | Some (svc, Err e) => Some (svc, Some (StartBootstrap e))
      end
  | [], _ => Some (svc, None)
  | _ :: _, [] => None
  end.

(** [running] tells whether a NodeHost runs after the call.
    src: control/dragonboat.go StartDragonboat *)
Definition StartDragonboat (env : startEnv) (svc : ServiceRuntime) : option (ServiceRuntime * bool * option startError) :=
  match sv_raft svc with
  | Some _ => Some (svc, true, None)
  | None =>
      match newDragonboatRuntime env (cf_raft (sv_cfg svc)) (sv_state svc) with
      | (s, Err e) => Some (withState s svc, false, Some e)
      | (s, Ok (runtime, _, _)) =>
          match WaitReady runtime (st_ready env) s with
          | None => None
          | Some (Err _) => Some (withState s svc, false, Some StartNotReady)
          | Some (Ok _) =>
              let svc := setDragonboatRuntime runtime (withState s svc) in
              match proposeBootstrapNodes (cf_bootstrapNodes (sv_cfg svc)) (st_bootstrap env) svc with
              | None => None
              | Some (svc, Some e) => Some (clearDragonboatRuntime runtime svc, false, Some e)
              | Some (svc, None) => Some (svc, true, None)
              end
          end
      end
  end.

(** src: control/dragonboat.go StopDragonboat *)
Definition StopDragonboat (svc : ServiceRuntime) : ServiceRuntime :=
  match sv_raft svc with
  | None => svc
  | Some runtime => clearDragonboatRuntime runtime svc
  end.

(** ** The snapshot file *)

(** How the steps of a write end: the directory, the temporary file, its content,
    its close and the rename. *)
Inductive fileFate := Written | MkdirFails | TempFails | WriteFails | CloseFails | RenameFails.

(** The file is replaced by a rename or left as it was.
    src: control/snapshot.go SaveSnapshotFile *)
Definition SaveSnapshotFile (fate : fileFate) (snapshot : ControlSnapshot) (file : option (list byte))
    : option (list byte) * bool :=
  let raw := MarshalIndent snapshotCodec snapshot in
  match fate with
  | Written => (Some raw, true)
  | MkdirFails | TempFails | WriteFails | CloseFails | RenameFails => (file, false)
  end.

Inductive loadError := LoadNotExist | LoadFailed | LoadDecode.

(** [readable] is false when the file is there and cannot be read.
    src: control/snapshot.go LoadSnapshotFile *)
Definition LoadSnapshotFile (readable : bool) (file : option (list byte)) : result loadError ControlSnapshot :=
  match file with
  | None => Err LoadNotExist
  | Some raw =>
      if negb readable then Err LoadFailed
      else match Unmarshal snapshotCodec raw with
           | Some snapshot => Ok snapshot
           | None => Err LoadDecode
           end
  end.

Inductive restoreError := RestoreReadDir | RestoreLoad (e : loadError) | RestoreState (e : controlError).

(** [hasData] is the content of the raft directory, if one is configured.
    src: control/service.go RestoreSnapshot *)
Definition svcRestoreSnapshot (hasData : option bool) (readable : bool) (file : option (list byte)) (svc : ServiceRuntime)
    : ServiceRuntime * option restoreError :=
  if bool_decide (TrimSpace (cf_snapshotPath (sv_cfg svc)) = "") then (svc, None)
  else
    let load :=
      match LoadSnapshotFile readable file with
      | Err LoadNotExist => (svc, None)
      | Err e => (svc, Some (RestoreLoad e))
      | Ok snapshot =>
          match RestoreSnapshot snapshot (sv_state svc) with
          | (s, Some e) => (withState s svc, Some (RestoreState e))
          | (s, None) => (withState s svc, None)
          end
      end in
    if bool_decide (TrimSpace (rc_nodeHostDir (cf_raft (sv_cfg svc))) = "") then load
    else match hasData with
         | None => (svc, Some RestoreReadDir)
         | Some true => (svc, None)
         | Some false => load
         end.

(** src: control/service.go SaveSnapshot *)
Definition svcSaveSnapshot (fate : fileFate) (svc : ServiceRuntime) (file : option (list byte)) : option (list byte) * bool :=
  if bool_decide (TrimSpace (cf_snapshotPath (sv_cfg svc)) = "") then (file, true)
  else SaveSnapshotFile fate (ExportSnapshot (sv_state svc)) file.
End Service.
