(* ===== verification/ExecutorSafety.v ===== *)
(** * Moving a range keeps its entries

    The executor moves a range between nodes that store in memory.  Any of its
    calls may fail before or after it took effect, and so may the cut-over; an
    entry of the source stays there unless the cut-over was applied, and then the
    target has it. *)

From S2P Require Import Prelude.
From S2P Require Import Binary.
From S2P Require Import GoStrings.
From S2P Require Import ControlApi.
From S2P Require Import Control.
From S2P Require Import Frame.
From S2P Require Import Routing.
From S2P Require Import EngineTypes.
From S2P Require Import Shard.
From S2P Require Import ShardInv.
From S2P Require Import ShardOps.
From S2P Require Import Primitives.
From S2P Require Import MemoryEngine.
From S2P Require Import EngineSpec.
From S2P Require Import Service.
From S2P Require Import WireTypes.
From S2P Require Import Wire.
From S2P Require Import WireBatch.
From S2P Require Import WireSpec.
From S2P Require Import WireMessages.
From S2P Require Import TcpWire.
From S2P Require Import TcpServer.
From S2P Require Import TcpClient.
From S2P Require Import TcpSpec.
From S2P Require Import TcpMigration.
From S2P Require Import Executor.

Local Open Scope Z_scope.
Local Open Scope nespa_scope.

(** ** Sizes of snapshots *)

Lemma packEntries_size l payload l' payload' : packAll packEntry l payload = Ok (l', payload') ->
  zlen payload' = zlen payload + lsum (fun x => zlen (me_value x)) l.
Proof.
  revert payload l' payload'. induction l as [|x l IH]; intros payload l' payload'; cbn [packAll].
  { intros [= <- <-]. cbn. lia. }
  destruct (packEntry x payload) as [[y q]|] eqn:Ex; [|done]. unfold mbind, result_bind.
  destruct (packAll packEntry l q) as [[k q']|] eqn:El; [|done]. intros [= <- <-]. apply IH in El.
  unfold packEntry, mbind, result_bind in Ex. destruct (checkedPayloadRange _ _) as [[]|]; [|done].
  injection Ex as _ <-. rewrite El, zlen_app, lsum_cons. lia.
Qed.

Lemma snapshot_payload_size entries raw payload : EncodeMigrationSnapshot (snapshotToWire entries) = Ok (raw, payload) ->
  zlen payload = lsum (fun x => zlen (se_value x)) entries.
Proof.
  unfold EncodeMigrationSnapshot, PackMigrationSnapshot, mbind, result_bind.
  destruct (packAll packEntry (ms_entries (snapshotToWire entries)) []) as [[k q]|] eqn:E; [|done]. cbn. intros [= _ <-]. apply packEntries_size in E.
  rewrite E. cbn [snapshotToWire ms_entries]. change (zlen (@nil byte)) with 0. clear.
  induction entries as [|x l IH]; [done|]. rewrite fmap_cons, !lsum_cons. cbn [snapshotEntryToWire me_value]. lia.
Qed.

(** The snapshot a client received, sent on, is the one it received. *)
Lemma snapshot_resent entries raw payload snapshot : Forall wire_entry_ok entries -> short entries ->
  EncodeMigrationSnapshot (snapshotToWire entries) = Ok (raw, payload) -> zlen payload < 2 ^ 32 ->
  DecodeMigrationSnapshot raw payload = Ok snapshot ->
  snapshotFromWire snapshot = millis_entry <$> entries /\ EncodeMigrationSnapshot snapshot = Ok (raw, payload).
Proof.
  intros Hw Hs Henc Hsz Hdec. rewrite (snapshot_payload_size _ _ _ Henc) in Hsz.
  destruct (snapshot_to_wire_ok entries Hw Hs Hsz) as (G1 & G2 & G3).
  destruct (migration_snapshot_roundtrip _ G1 G2 G3) as (raw' & payload' & out & F1 & F2 & F3).
  rewrite Henc in F1. injection F1 as <- <-. rewrite Hdec in F2. injection F2 as <-. split.
  - unfold snapshotFromWire. rewrite <- from_to_wire by done. by apply strip_from_wire.
  - by rewrite (encode_strip snapshot (snapshotToWire entries)).
Qed.

(** ** Counts *)

Section Counts.
  Context `{!Codecs, !GoMath, !RangeOrder}.

Lemma forWorkers_acc {A} (P : A -> Prop) indices body (e : MemoryEngine) (acc : A) : P acc ->
  (forall e i acc, P acc -> match (body e i acc).2 with Next acc' => P acc' | Return acc' _ => P acc' end) ->
  P (forWorkers indices body e acc).2.1.
Proof.
  intros Hacc Hbody. revert e acc Hacc. induction indices as [|i indices IH]; intros e acc Hacc; [done|].
  cbn [forWorkers]. specialize (Hbody e i acc Hacc). destruct (body e i acc) as [e' [acc'|acc' err]]; [by apply IH|done].
Qed.

Lemma onReply_acc {A} (P : A -> Prop) (out : MemoryEngine * result engineError shardResult) failed k :
  P failed -> (forall r, P (k r)) ->
  match (onReply out failed k).2 with Next acc => P acc | Return acc _ => P acc end.
Proof. intros Hf Hk. destruct out as [e [r|err]]; [|done]. cbn. destruct (res_err r); [done|apply Hk]. Qed.

Lemma imported_u64 (e : MemoryEngine) l : is_u64 (ir_imported (Import' LiveContext e l).2.1).
Proof.
  apply (forWorkers_acc (fun n => is_u64 (ir_imported n))); [done|]. intros e' i acc Hacc.
  apply (onReply_acc (fun n => is_u64 (ir_imported n))); [done|]. intros r. apply u64_range.
Qed.

Lemma deleted_u64 (e : MemoryEngine) opts : is_u64 (dr_deleted (DeleteRange LiveContext e opts).2.1).
Proof.
  unfold DeleteRange. destruct (validateRangeOptions opts); [done|].
  apply (forWorkers_acc (fun n => is_u64 (dr_deleted n))); [done|]. intros e' i acc Hacc.
  apply (onReply_acc (fun n => is_u64 (dr_deleted n))); [done|]. intros r. apply u64_range.
Qed.
End Counts.

(** ** Calls *)

Section Calls.
  Context `{!RangeOrder, !ErrorBody} {E : Type} `{!Engine E}.
  Implicit Types (s : Server E) (w : cluster E) (env : callEnv).

(** The call reached the node. *)
Definition reached (fate : callFate) env : Prop := fate = Answered env \/ fate = AnswerLost env.

(** What a call of the executor does: it does not change the node, or the node
    handles the request; a result is what the answer decodes to. *)
Definition call_outcome {A} fate addr (w w' : cluster E) s (f : Frame) (decode : Frame -> result clientError A)
    (r : result clientError A) : Prop :=
  cu_control w' = cu_control w /\ cl_codec (cu_client w') = cl_codec (cu_client w) /\
  ((cu_nodes w' = cu_nodes w /\ exists e, r = Err e) \/
   exists env, reached fate env /\ cu_nodes w' = <[addr := (handleFrame env s f).1]> (cu_nodes w) /\
     forall x, r = Ok x -> fate = Answered env /\ isError (handleFrame env s f).2 = false /\
       fits (srv_codec s) (handleFrame env s f).2 /\ decode (handleFrame env s f).2 = Ok x).

Lemma callNode_do {A} fate addr op epoch metadata payload (decode : Frame -> result clientError A) w s :
  cu_nodes w !! addr = Some s -> codec_typed (srv_codec s) -> cl_codec (cu_client w) = srv_codec s ->
  0 < op < 2 ^ 16 -> is_u64 epoch ->
  let '(w', r) := callNode fate addr (fun env c peer => thenDecode (do env c peer op epoch metadata payload) decode) w in
  call_outcome fate addr w w' s (requestFrame (cu_client w) op epoch metadata payload) decode r.
Proof.
  intros Hs Hc Hcodec Hop Hepoch. unfold callNode, call_outcome.
  set (f := requestFrame _ _ _ _ _).
  assert (<[addr := s]> (cu_nodes w) = cu_nodes w) as Hid by (by apply insert_id).
  destruct fate as [env| |env]; [|split_and!; eauto|]; rewrite Hs;
    destruct (do_cases env (cu_client w) s op epoch metadata payload Hc Hcodec Hop Hepoch)
      as (s' & r & -> & [[-> [e ->]]|[-> Hr]]); cbn [thenDecode fst snd cu_control cu_nodes cu_client cl_codec nextClient];
    (split_and!; [done|done|]).
  - left. rewrite Hid. split; [done|]. by exists e.
  - right. exists env. split_and!; [by left|done|]. intros x Hx. destruct r as [g|]; [|done].
    destruct (Hr g eq_refl) as (-> & ? & _ & ?). by split_and!.
  - left. rewrite Hid. eauto.
  - right. exists env. split_and!; [by right|done|]. by intros x.
Qed.

(** A request for a range is refused or handled. *)
Lemma handleFrame_plain env s f : cacheOpCanMutate (FrameOp f) = false ->
  (handleFrame env s f).1 = s /\ isError (handleFrame env s f).2 = true \/ handleFrame env s f = dispatchFrame env s f.
Proof.
  intros Hop. unfold handleFrame. destruct (staleRoute s _) as [[] current]; [by left|].
  rewrite not_fenced by done. by right.
Qed.

Lemma fence_effect env s c r op : op = OpNodeFenceRange \/ op = OpNodeUnfenceRange ->
  srv_service (handleFrame env s (range_frame c op r)).1 = srv_service s.
Proof.
  intros Hop. destruct (handleFrame_plain env s (range_frame c op r)) as [[-> _]| ->];
    [by destruct Hop as [-> | ->]|done|].
  destruct Hop as [-> | ->]; unfold dispatchFrame; cbn [FrameOp range_frame requestFrame].
  - change (List.find (fun '(op, _) => op =? OpNodeFenceRange) cacheHandlers)
      with (Some (OpNodeFenceRange, handleFenceRange (E := E))). unfold handleFenceRange, decoded. by case_match.
  - change (List.find (fun '(op, _) => op =? OpNodeUnfenceRange) cacheHandlers)
      with (Some (OpNodeUnfenceRange, handleUnfenceRange (E := E))). unfold handleUnfenceRange, decoded. by case_match.
Qed.
End Calls.

(** ** Requests on a node that stores in memory *)

Section Memory.
  Context `{!Codecs, !GoMath, !RangeOrder, !ErrorBody}.
  Implicit Types (s a b : Server MemoryEngine) (w : cluster MemoryEngine) (env : callEnv) (p : string) (ent : entry).

Definition engine_of s : MemoryEngine := svc_engine (srv_service s).

(** A node in service, with the default limits of frames. *)
Record node_ok s : Prop := mkNodeOk {
  no_codec : srv_codec s = NewCodec [];
  no_inv : engine_inv (engine_of s);
  no_open : me_closed (engine_of s) = false
}.

(** What an export of the range answers. *)
Definition exported env s (r : MigrationRangeRequest) : list SnapshotEntry :=
  sortSnapshotEntries (collected (moved (withRangeNow (ce_clock env 0%nat 0%nat) (rangeFromWire r)))
    (me_shards (engine_of s))).

Lemma export_effect env s c r : range_ok r -> node_ok s ->
  let '(s', response) := handleFrame env s (range_frame c OpNodeExportRange r) in
  engine_of s' = engine_of s /\
  (isError response = false ->
   EncodeMigrationSnapshot (snapshotToWire (exported env s r)) = Ok (Metadata response, Payload response)).
Proof.
  intros (Hr1 & Hr2 & Hr3 & Hr4 & _) [_ _ Hc].
  destruct (handleFrame_plain env s (range_frame c OpNodeExportRange r)) as [Hp|Hp]; [done| |].
  { destruct (handleFrame env s _) as [s' response]. cbn [fst snd] in Hp. destruct Hp as [-> ->]. done. }
  rewrite Hp. change (dispatchFrame env s ?f) with (handleExportRange env s f). unfold handleExportRange.
  cbn [Metadata range_frame requestFrame]. rewrite migration_range_roundtrip by done. cbn [decoded].
  change (rangeFromWire (mkMigrationRangeRequest _ _ _ _ 0)) with (rangeFromWire r).
  unfold exportLocked. change (eng_Export (svc_engine (srv_service s)) ?opts ?now) with (Export' LiveContext (engine_of s) opts now).
  destruct (validateRangeOptions (rangeFromWire r)) as [err|] eqn:Hv.
  { unfold Export'. rewrite Hv. done. }
  rewrite Export_collected by done. change (IsZero (ro_now (rangeFromWire r))) with true. cbn [served].
  fold (exported env s r). split; [done|]. unfold packedFrame.
  destruct (EncodeMigrationSnapshot (snapshotToWire (exported env s r))) as [[raw payload]|]; [|done]. done.
Qed.

(** The answer to an import. *)
Definition import_answer (f response : Frame) : Prop :=
  exists n, is_u64 n /\
    response = metadataFrame f (EncodeMigrationImportResponse (mkMigrationImportResponse n)) [].

(** An import takes effect whatever becomes of its answer. *)
Lemma import_effect env s f out : FrameOp f = OpNodeImportSnapshot -> RouteEpoch f = 0 ->
  DecodeMigrationSnapshot (Metadata f) (Payload f) = Ok out -> node_ok s ->
  Forall snap_ok (snapshotFromWire out) -> NoDup (snap_keys (snapshotFromWire out)) ->
  (forall i t, me_shards (engine_of s) !! i = Some t -> room (snapshotFromWire out) (sw_entries t)) ->
  let s' := (handleFrame env s f).1 in
  node_ok s' /\ import_answer f (handleFrame env s f).2 /\
  (forall x, x ∈ snapshotFromWire out -> engine_entry (engine_of s') (physicalKey (se_key x))
     = Some (merged (engine_entry (engine_of s) (physicalKey (se_key x))) (stored x))) /\
  (forall p, p ∉ snap_keys (snapshotFromWire out) -> engine_entry (engine_of s') p = engine_entry (engine_of s) p).
Proof.
  intros Hop Hepoch Hd [Hcodec Hi Hc] Hok Hnd Hroom.
  destruct (Import_spec (engine_of s) _ Hi Hc Hok Hnd Hroom) as (e' & n & HI & Hi' & Hc' & Hin & Hout).
  pose proof (imported_u64 (engine_of s) (snapshotFromWire out)) as Hn. rewrite HI in Hn. cbn [fst snd] in Hn.
  destruct n as [n]. rewrite (handle_import env s f _ _ out (withEngine e' (srv_service s)) n) by
    (try done; unfold importLocked, onEngine; change (eng_Import (svc_engine (srv_service s)) ?l)
      with (Import' LiveContext (engine_of s) l); by rewrite HI).
  split; [by split|]. split; [by exists n|done].
Qed.

Lemma delete_effect env s c r : range_ok r -> node_ok s ->
  let s' := (handleFrame env s (range_frame c OpNodeDeleteRange r)).1 in
  node_ok s' /\ forall p ent, engine_entry (engine_of s) p = Some ent ->
    engine_entry (engine_of s') p = Some ent \/ entryInRange (e_key ent) (rangeFromWire r) = true.
Proof.
  intros (Hr1 & Hr2 & Hr3 & Hr4 & _) Hok. pose proof Hok as [Hcodec Hi Hc].
  destruct (handleFrame_plain env s (range_frame c OpNodeDeleteRange r)) as [[Hp _]|Hp]; [done| |].
  { rewrite Hp. split; [done|]. by left. }
  rewrite Hp. change (dispatchFrame env s ?f) with (handleDeleteRange env s f). unfold handleDeleteRange.
  cbn [Metadata range_frame requestFrame]. rewrite migration_range_roundtrip by done. cbn [decoded].
  change (rangeFromWire (mkMigrationRangeRequest _ _ _ _ 0)) with (rangeFromWire r).
  unfold deleteRangeLocked, onEngine.
  change (eng_DeleteRange (svc_engine (srv_service s)) ?opts) with (DeleteRange LiveContext (engine_of s) opts).
  destruct (validateRangeOptions (rangeFromWire r)) as [err|] eqn:Hv.
  { unfold DeleteRange. rewrite Hv. split; [by split|]. by left. }
  destruct (DeleteRange_spec (engine_of s) (rangeFromWire r) Hi Hc Hv) as (e' & n & -> & Hc' & Hi' & Hall).
  split; [by split|]. intros p ent He. cbn. specialize (Hall p). rewrite He in Hall.
  destruct (entryInRange _ _); [by right|by left].
Qed.

(** ** A move *)

(** What arrives of an entry: its times are to the millisecond. *)
Definition arrival ent : entry := stored (millis_entry (snapshotEntryFromEntry ent)).

(** [b'] is [b] after the entries of the range that [a] holds at [now] were imported. *)
Definition received (now : Time) (r : MigrationRangeRequest) a b b' : Prop :=
  forall p, engine_entry (engine_of b') p =
    match engine_entry (engine_of a) p with
    | Some ent =>
        if moved (withRangeNow now (rangeFromWire r)) ent
        then Some (merged (engine_entry (engine_of b) p) (arrival ent)) else engine_entry (engine_of b) p
    | None => engine_entry (engine_of b) p
    end.

(** The sizes and times of the nodes are within what a snapshot can carry. *)
Record carried a b : Prop := mkCarried {
  ca_wire : forall p ent, engine_entry (engine_of a) p = Some ent -> wire_entry_ok (snapshotEntryFromEntry ent);
  ca_objects : engine_objects (engine_of a) + engine_objects (engine_of b) < 2 ^ 63;
  ca_cost : engine_cost (engine_of a) + engine_cost (engine_of b) < 2 ^ 64
}.

Lemma collected_wire a P : node_ok a ->
  (forall p ent, engine_entry (engine_of a) p = Some ent -> wire_entry_ok (snapshotEntryFromEntry ent)) ->
  Forall wire_entry_ok (collected P (me_shards (engine_of a))).
Proof.
  intros [_ Hi _] Hw. apply Forall_forall. intros x (ent & He & -> & _)%elem_of_collected; [|done]. by apply (Hw _ ent He).
Qed.

Lemma millis_keys l : snap_keys (millis_entry <$> l) = snap_keys l.
Proof. unfold snap_keys. rewrite <- list_fmap_compose. done. Qed.

Lemma millis_cost l : snap_cost (millis_entry <$> l) = snap_cost l.
Proof. unfold snap_cost. induction l as [|x l IH]; [done|]. rewrite fmap_cons, !lsum_cons, IH. done. Qed.

(** What is exported can be sent. *)
Lemma exported_sendable env a b r : node_ok a -> carried a b ->
  Forall wire_entry_ok (exported env a r) /\ short (exported env a r).
Proof.
  intros Ha [Hw Ho _]. unfold exported. set (snap := collected _ _). pose proof (sortSnapshotEntries_perm snap) as Hp.
  split; [rewrite Hp; by apply collected_wire|]. unfold short, zlen. rewrite Hp.
  destruct (collected_size (moved (withRangeNow (ce_clock env 0%nat 0%nat) (rangeFromWire r))) _ (no_inv a Ha)) as [Hz _].
  fold snap in Hz. unfold zlen in Hz. assert (0 <= engine_objects (engine_of b)); [|lia].
  apply lsum_nonneg. intros. lia.
Qed.

(** The export of [a], sent to [b], is received by [b]. *)
Lemma exported_received env env' a b r snapshot raw payload f :
  node_ok a -> node_ok b -> carried a b ->
  EncodeMigrationSnapshot (snapshotToWire (exported env a r)) = Ok (raw, payload) -> zlen payload < 2 ^ 32 ->
  DecodeMigrationSnapshot raw payload = Ok snapshot ->
  EncodeMigrationSnapshot snapshot = Ok (Metadata f, Payload f) ->
  FrameOp f = OpNodeImportSnapshot -> RouteEpoch f = 0 ->
  (node_ok (handleFrame env' b f).1 /\ received (ce_clock env 0%nat 0%nat) r a b (handleFrame env' b f).1) /\
  import_answer f (handleFrame env' b f).2.
Proof.
  intros Ha Hb [Hw Ho Hm] Henc Hsz Hdec Henc' Hop Hepoch.
  destruct (exported_sendable env a b r Ha (mkCarried a b Hw Ho Hm)) as [Hwire Hshort].
  unfold exported in Henc, Hwire, Hshort. unfold received.
  set (o := withRangeNow _ _) in *. set (snap := collected (moved o) (me_shards (engine_of a))) in *.
  pose proof (sortSnapshotEntries_perm snap) as Hp. destruct Ha as [_ Hai _].
  destruct (collected_size (moved o) _ Hai) as [Hz Hs]. fold snap in Hz, Hs.
  set (entries := sortSnapshotEntries snap) in *.
  destruct (snapshot_resent entries raw payload snapshot Hwire Hshort) as [Hout E3]; [done..|].
  rewrite Henc' in E3. injection E3 as E3 E4.
  destruct (import_effect env' b f snapshot) as (Hok' & Hans & Hin & Hrest); [done|done|by rewrite E3, E4|done|..].
  - rewrite Hout. apply Forall_fmap. apply (Forall_impl snap_ok); [rewrite Hp; by apply collected_ok|done].
  - rewrite Hout, millis_keys. unfold snap_keys. rewrite Hp. by apply collected_NoDup.
  - intros i t Ht. destruct (shard_sizes_le _ i t (no_inv b Hb) Ht). rewrite Hout. unfold room.
    rewrite millis_cost. unfold zlen in *. rewrite length_fmap.
    rewrite (lsum_perm _ _ _ Hp : snap_cost entries = snap_cost snap), (Permutation_length Hp). lia.
  - split; [split; [done|]|done]. intros q. rewrite Hout in Hin, Hrest. rewrite millis_keys in Hrest.
    destruct (decide (q ∈ snap_keys snap)) as [Hk|Hk].
    + pose proof Hk as (ent & He & Hmv)%collected_keys; [|done]. rewrite He, Hmv.
      apply list_elem_of_fmap in Hk as (x & -> & Hx). unfold compose in *.
      apply elem_of_collected in Hx as (ent' & He' & Ex & _); [|done].
      assert (ent' = ent) as -> by congruence. subst x.
      apply (Hin (millis_entry (snapshotEntryFromEntry ent))). apply list_elem_of_fmap_2. rewrite Hp.
      apply elem_of_collected; [done|]. eauto.
    + rewrite Hrest by (unfold snap_keys; by rewrite Hp). destruct (engine_entry (engine_of a) q) as [ent|] eqn:He; [|done].
      case_bool; [|done]. exfalso. apply Hk, collected_keys; [done|]. eauto.
Qed.

(** The source and the target of a task in the cluster. *)
Record stage (task : MigrationTaskBody) w a b : Prop := mkStage {
  st_source : cu_nodes w !! mt_sourceAddr task = Some a;
  st_target : cu_nodes w !! mt_targetAddr task = Some b;
  st_sourceOk : node_ok a;
  st_targetOk : node_ok b;
  st_client : cl_codec (cu_client w) = NewCodec []
}.

Lemma node_ok_same env s f : node_ok s -> engine_of (handleFrame env s f).1 = engine_of s ->
  node_ok (handleFrame env s f).1.
Proof.
  intros [Hc Hi Ho] He. destruct (handleFrame_handled env s f) as [(Hc' & _ & _) _].
  split; rewrite ?He; congruence.
Qed.

(** A request to the source that does not touch its engine. *)
Lemma source_step {A} fate task op w a b (decode : Frame -> result clientError A) :
  stage task w a b -> mt_sourceAddr task <> mt_targetAddr task -> range_ok (migrationRangeRequest task) ->
  0 < op < 2 ^ 16 ->
  (forall env c, engine_of (handleFrame env a (range_frame c op (migrationRangeRequest task))).1 = engine_of a) ->
  let request := migrationRangeRequest task in
  let '(w', r) := callNode fate (mt_sourceAddr task) (fun env c peer =>
    thenDecode (do env c peer op (mrq_routeEpoch request) (EncodeMigrationRangeRequest request) []) decode) w in
  cu_control w' = cu_control w /\
  (exists a', stage task w' a' b /\ engine_of a' = engine_of a) /\
  forall x, r = Ok x -> exists env, fate = Answered env /\
    let response := (handleFrame env a (range_frame (cu_client w) op request)).2 in
    isError response = false /\ fits (NewCodec []) response /\ decode response = Ok x.
Proof.
  intros [Hs Ht Ha Hb Hcl] Hne (_ & _ & _ & _ & Hepoch) Hop Hsame request.
  pose proof (callNode_do fate (mt_sourceAddr task) op (mrq_routeEpoch request) (EncodeMigrationRangeRequest request) []
    decode w a Hs) as Hcall.
  destruct (callNode fate _ _ w) as [w' r].
  destruct Hcall as (Hctl & Hcl' & Hcases); [by rewrite (no_codec a Ha); apply new_codec_typed|by rewrite (no_codec a Ha)|done|done|].
  split; [done|]. destruct Hcases as [[Hn [e ->]]|(env & Hre & Hn & Hr)].
  - split; [|done]. exists a. split; [|done]. by split; rewrite ?Hn, ?Hcl'.
  - split.
    + exists (handleFrame env a (range_frame (cu_client w) op request)).1. split; [|apply Hsame].
      split; rewrite ?Hn, ?Hcl'; [by rewrite lookup_insert_eq|by rewrite lookup_insert_ne|by apply node_ok_same|done|done].
    + intros x Hx. exists env. destruct (Hr x Hx) as (? & ? & ? & ?). rewrite (no_codec a Ha) in *. done.
Qed.

(** What an execution may leave of an entry: it is where it was, or the task has
    cut over, and the entry, unless it had expired, is on the target. *)
Definition kept (fates : taskFates) task w a b w' p ent : Prop :=
  exists a' b', cu_nodes w' !! mt_sourceAddr task = Some a' /\ cu_nodes w' !! mt_targetAddr task = Some b' /\
  (engine_entry (engine_of a') p = Some ent \/
   entryInRange (e_key ent) (rangeFromWire (migrationRangeRequest task)) = true /\
   (exists imported result,
      cutoverMigrationTask (tf_cutover fates) task imported (cu_control w) = (cu_control w', Ok result)) /\
   exists env, tf_export fates = Answered env /\
     (expired ent (ce_clock env 0%nat 0%nat) = true \/
      engine_entry (engine_of b') p = Some (merged (engine_entry (engine_of b) p) (arrival ent)))).

Lemma kept_still fates task w a b w' a' b' p ent : engine_entry (engine_of a) p = Some ent ->
  engine_of a' = engine_of a -> cu_nodes w' !! mt_sourceAddr task = Some a' ->
  cu_nodes w' !! mt_targetAddr task = Some b' -> kept fates task w a b w' p ent.
Proof. intros He Hsame Hs Ht. exists a', b'. rewrite Hsame. auto. Qed.

Lemma kept_moved fates task w a b w' a' b' env imported result p ent : engine_entry (engine_of a) p = Some ent ->
  cutoverMigrationTask (tf_cutover fates) task imported (cu_control w) = (cu_control w', Ok result) ->
  tf_export fates = Answered env ->
  received (ce_clock env 0%nat 0%nat) (migrationRangeRequest task) a b b' ->
  cu_nodes w' !! mt_sourceAddr task = Some a' -> cu_nodes w' !! mt_targetAddr task = Some b' ->
  engine_entry (engine_of a') p = Some ent \/
    entryInRange (e_key ent) (rangeFromWire (migrationRangeRequest task)) = true ->
  kept fates task w a b w' p ent.
Proof.
  intros He Hcut Hfate Hrec Hs Ht [Hstill|Hin]; exists a', b'; (split_and!; [done|done|]); [by left|right].
  split_and!; [done|by eauto|]. exists env. split; [done|].
  destruct (expired ent (ce_clock env 0%nat 0%nat)) eqn:Hex; [by left|right].
  specialize (Hrec p). rewrite He in Hrec. unfold moved in Hrec.
  change (entryInRange (e_key ent) (withRangeNow ?now ?o)) with (entryInRange (e_key ent) o) in Hrec.
  by rewrite Hin in Hrec; cbn [ro_now withRangeNow] in Hrec; rewrite Hex in Hrec.
Qed.

(** The snapshot of the source is sent to the target. *)
Lemma target_step fate task w a b now snapshot :
  stage task w a b -> mt_sourceAddr task <> mt_targetAddr task ->
  (forall env f, EncodeMigrationSnapshot snapshot = Ok (Metadata f, Payload f) ->
     FrameOp f = OpNodeImportSnapshot -> RouteEpoch f = 0 ->
     node_ok (handleFrame env b f).1 /\ received now (migrationRangeRequest task) a b (handleFrame env b f).1) ->
  let '(w', r) := callNode fate (mt_targetAddr task) (fun env c peer => clientImportSnapshot env c peer snapshot) w in
  cu_control w' = cu_control w /\
  exists b', cu_nodes w' !! mt_sourceAddr task = Some a /\ cu_nodes w' !! mt_targetAddr task = Some b' /\
  forall x, r = Ok x -> stage task w' a b' /\ received now (migrationRangeRequest task) a b b'.
Proof.
  intros [Hs Ht Ha Hb Hcl] Hne Himp. unfold clientImportSnapshot.
  destruct (EncodeMigrationSnapshot snapshot) as [[raw payload]|e] eqn:Henc.
  - pose proof (callNode_do fate (mt_targetAddr task) OpNodeImportSnapshot 0 raw payload
      (decodeMetadata DecodeMigrationImportResponse) w b Ht) as Hcall. cbn [encoded].
    destruct (callNode fate _ _ w) as [w' r].
    destruct Hcall as (Hctl & Hcl' & Hcases);
      [by rewrite (no_codec b Hb); apply new_codec_typed|by rewrite (no_codec b Hb)|done|done|].
    split; [done|]. destruct Hcases as [[Hn [e ->]]|(env & Hre & Hn & Hr)].
    + exists b. rewrite Hn. by split_and!.
    + eexists. rewrite Hn, lookup_insert_ne, lookup_insert_eq by done. split_and!; [done|done|]. intros x Hx.
      destruct (Himp env (requestFrame (cu_client w) OpNodeImportSnapshot 0 raw payload)) as [Hok Hrec]; [done..|].
      split; [|done]. split; rewrite ?Hn, ?Hcl', ?lookup_insert_eq; rewrite ?lookup_insert_ne by done; done.
  - assert (<[mt_targetAddr task := b]> (cu_nodes w) = cu_nodes w) as Hid by (by apply insert_id).
    unfold callNode. rewrite Ht. cbn [encoded]. destruct fate; cbn [fst]; (split; [done|]; exists b; cbn [cu_nodes];
      rewrite ?Hid; by split_and!).
Qed.

Lemma fence_step fate task op w a b : op = OpNodeFenceRange \/ op = OpNodeUnfenceRange ->
  stage task w a b -> mt_sourceAddr task <> mt_targetAddr task -> range_ok (migrationRangeRequest task) ->
  let '(w', r) := callNode fate (mt_sourceAddr task) (fun env c peer =>
    rangeFenceCommand env c peer op (migrationRangeRequest task)) w in
  cu_control w' = cu_control w /\ exists a', stage task w' a' b /\ engine_of a' = engine_of a.
Proof.
  intros Hop Hst Hne Hr.
  pose proof (source_step fate task op w a b (decodeMetadata DecodeMigrationFenceResponse) Hst Hne Hr
    ltac:(by destruct Hop as [-> | ->]) (fun env c => f_equal svc_engine (fence_effect env a c _ _ Hop))) as Hstep.
  unfold rangeFenceCommand. cbn zeta in Hstep. destruct (callNode fate _ _ w) as [w' r].
  by destruct Hstep as (? & ? & _).
Qed.

Lemma export_step fate task w a b :
  stage task w a b -> mt_sourceAddr task <> mt_targetAddr task -> range_ok (migrationRangeRequest task) -> carried a b ->
  let '(w', r) := callNode fate (mt_sourceAddr task) (fun env c peer =>
    clientExportRange env c peer (migrationRangeRequest task)) w in
  cu_control w' = cu_control w /\ exists a', stage task w' a' b /\ engine_of a' = engine_of a /\
  forall snapshot, r = Ok snapshot -> exists env, fate = Answered env /\
  forall env' f, EncodeMigrationSnapshot snapshot = Ok (Metadata f, Payload f) ->
    FrameOp f = OpNodeImportSnapshot -> RouteEpoch f = 0 ->
    node_ok (handleFrame env' b f).1 /\
    received (ce_clock env 0%nat 0%nat) (migrationRangeRequest task) a b (handleFrame env' b f).1.
Proof.
  intros Hst Hne Hr Hca. set (request := migrationRangeRequest task) in *.
  assert (forall env c, engine_of (handleFrame env a (range_frame c OpNodeExportRange request)).1 = engine_of a) as Hsame.
  { intros env c. pose proof (export_effect env a c request Hr (st_sourceOk _ _ _ _ Hst)) as Hx.
    destruct (handleFrame env a _). apply Hx. }
  pose proof (source_step fate task OpNodeExportRange w a b
    (fun frame => map_err DecodeFailed (DecodeMigrationSnapshot (Metadata frame) (Payload frame))) Hst Hne Hr
    ltac:(done) Hsame) as Hstep.
  unfold clientExportRange. cbn zeta in Hstep. fold request in Hstep. destruct (callNode fate _ _ w) as [w' r].
  destruct Hstep as (Hc & (a' & Hst' & Ha') & Hok). split; [done|]. exists a'. split_and!; [done|done|].
  intros snapshot Hx. destruct (Hok snapshot Hx) as (env & -> & Hne' & [_ Hfit] & Hdec). exists env. split; [done|].
  intros env' f Henc Hop Hepoch. pose proof (export_effect env a (cu_client w) request Hr (st_sourceOk _ _ _ _ Hst)) as Hx'.
  destruct (handleFrame env a _) as [a2 response]. cbn [snd] in *. destruct Hx' as [_ Hencoded].
  destruct (DecodeMigrationSnapshot (Metadata response) (Payload response)) as [out|] eqn:Hd; [|done].
  injection Hdec as ->.
  apply (exported_received env env' a b request snapshot (Metadata response) (Payload response) f);
    [apply Hst|apply Hst|done|by apply Hencoded| |done..].
  eapply Z.le_lt_trans; [exact Hfit|by vm_compute].
Qed.

Lemma delete_step fate task w a b :
  stage task w a b -> mt_sourceAddr task <> mt_targetAddr task -> range_ok (migrationRangeRequest task) ->
  let '(w', r) := deleteMigrationSource fate task (migrationRangeRequest task) w in
  cu_control w' = cu_control w /\ exists a', stage task w' a' b /\
  forall p ent, engine_entry (engine_of a) p = Some ent -> engine_entry (engine_of a') p = Some ent \/
    entryInRange (e_key ent) (rangeFromWire (migrationRangeRequest task)) = true.
Proof.
  intros [Hs Ht Ha Hb Hcl] Hne Hr. set (request := migrationRangeRequest task) in *. unfold deleteMigrationSource.
  unfold clientDeleteRange. pose proof (callNode_do fate (mt_sourceAddr task) OpNodeDeleteRange (mrq_routeEpoch request)
    (EncodeMigrationRangeRequest request) [] (decodeMetadata DecodeMigrationDeleteRangeResponse) w a Hs) as Hcall.
  destruct (callNode fate _ _ w) as [w' r].
  destruct Hcall as (Hctl & Hcl' & Hcases);
    [by rewrite (no_codec a Ha); apply new_codec_typed|by rewrite (no_codec a Ha)|done|apply Hr|].
  split; [done|]. destruct Hcases as [[Hn _]|(env & _ & Hn & _)].
  - exists a. split; [by split; rewrite ?Hn, ?Hcl'|]. by left.
  - destruct (delete_effect env a (cu_client w) request Hr Ha) as [Hok Hall].
    exists (handleFrame env a (range_frame (cu_client w) OpNodeDeleteRange request)).1. split; [|done].
    split; rewrite ?Hn, ?Hcl', ?lookup_insert_eq; rewrite ?lookup_insert_ne by done; done.
Qed.

(** C14: however the calls of an execution end, and whether or not the proposals are
    applied, no entry of the source is lost to an older one: it is still on the source,
    or the task has been cut over, the entry was in the range, and the target has it,
    with times to the millisecond, or keeps an entry of the same key it held before that is
    at least as new (a higher version, or the same one updated no earlier), unless the
    entry had expired at the time of the export.
    The nodes store in memory, their entries have times and sizes that the wire can
    carry, and the task has not been cut over before. *)
Theorem migration_loses_nothing fates task w a b p ent :
  stage task w a b -> mt_sourceAddr task <> mt_targetAddr task -> range_ok (migrationRangeRequest task) ->
  carried a b -> mt_cutoverAtUnix task <= 0 -> engine_entry (engine_of a) p = Some ent ->
  kept fates task w a b (migrateRange fates task w).1 p ent.
Proof.
  intros Hst Hne Hr Hca Hcut He. unfold migrateRange. rewrite (proj2 (Z.ltb_ge _ _) Hcut).
  unfold migrateRangeToTarget.
  pose proof (fence_step (tf_fence fates) task _ w a b (or_introl eq_refl) Hst Hne Hr) as S1.
  unfold clientFenceRange. destruct (callNode (tf_fence fates) _ _ w) as [w1 [fenced|err]];
    destruct S1 as (C1 & a1 & Hst1 & Ea1); [|by apply (kept_still _ _ _ _ _ _ a1 b); [done|done|apply Hst1..]].
  assert (carried a1 b) as Hca1 by (destruct Hca; split; by rewrite Ea1).
  pose proof (export_step (tf_export fates) task w1 a1 b Hst1 Hne Hr Hca1) as S2.
  destruct (callNode (tf_export fates) _ _ w1) as [w2 [snapshot|err]]; destruct S2 as (C2 & a2 & Hst2 & Ea2 & Hsnap);
    [|by apply (kept_still _ _ _ _ _ _ a2 b); [done|congruence|apply Hst2..]].
  destruct (Hsnap snapshot eq_refl) as (env & Hfate & Himp).
  assert (received (ce_clock env 0%nat 0%nat) (migrationRangeRequest task) a1 = 
          received (ce_clock env 0%nat 0%nat) (migrationRangeRequest task) a2) as Erec by (unfold received; by rewrite Ea2).
  rewrite Erec in Himp.
  pose proof (target_step (tf_import fates) task w2 a2 b _ snapshot Hst2 Hne Himp) as S3.
  destruct (callNode (tf_import fates) _ _ w2) as [w3 [imported|err]]; destruct S3 as (C3 & b3 & Hs3 & Ht3 & Hok3);
    [|by apply (kept_still _ _ _ _ _ _ a2 b3); [done|congruence|..]].
  destruct (Hok3 imported eq_refl) as [Hst3 Hrec]. rewrite C3, C2, C1.
  destruct (cutoverMigrationTask _ _ _ (cu_control w)) as [cs [result|err]] eqn:Hcutover;
    [|by apply (kept_still _ _ _ _ _ _ a2 b3); [done|congruence|..]].
  pose proof (delete_step (tf_delete fates) task (withControl cs w3) a2 b3) as S4.
  destruct (deleteMigrationSource _ _ _ _) as [w4 deleted].
  destruct S4 as (C4 & a4 & Hst4 & Hdel); [by destruct Hst3|done|done|].
  assert (forall w' a', stage task w' a' b3 -> engine_of a' = engine_of a4 -> cu_control w' = cs ->
    kept fates task w a b w' p ent) as Hkept.
  { intros w' a' Hst' Ea' C'.
    apply (kept_moved _ _ _ _ _ _ a' b3 env (mir_imported imported) result); [done|by rewrite C'|done| |apply Hst'..|].
    - unfold received in *. by rewrite Ea2, Ea1 in Hrec.
    - rewrite Ea'. apply Hdel. by rewrite Ea2, Ea1. }
  destruct deleted as [deleted|err]; [|by apply (Hkept w4 a4)]. unfold unfenceMigrationSource, clientUnfenceRange.
  pose proof (fence_step (tf_unfence fates) task _ w4 a4 b3 (or_intror eq_refl) Hst4 Hne Hr) as S5.
  destruct (callNode (tf_unfence fates) _ _ w4) as [w5 [unfenced|err]]; destruct S5 as (C5 & a5 & Hst5 & Ea5);
    (apply (Hkept w5 a5); [done|done|by rewrite C5]).
Qed.
End Memory.
