(* ===== verification/ExecutorMoves.v ===== *)
(** * When nothing fails the range moves

    The counterpart of the safety of a move: when every call is answered and the
    cut-over is applied, the target has the entries of the range, the source has
    none of them and is fenced no more. *)

From S2P Require Import Prelude.
From S2P Require Import Binary.
From S2P Require Import GoStrings.
From S2P Require Import ControlApi.
From S2P Require Import Control.
From S2P Require Import Frame.
From S2P Require Import Routing.
From S2P Require Import EngineTypes.
From S2P Require Import Shard.
From S2P Require Import ShardInv.
From S2P Require Import ShardOps.
From S2P Require Import Primitives.
From S2P Require Import MemoryEngine.
From S2P Require Import EngineSpec.
From S2P Require Import Service.
From S2P Require Import WireTypes.
From S2P Require Import Wire.
From S2P Require Import WireBatch.
From S2P Require Import WireSpec.
From S2P Require Import WireMessages.
From S2P Require Import TcpWire.
From S2P Require Import TcpServer.
From S2P Require Import TcpClient.
From S2P Require Import TcpSpec.
From S2P Require Import TcpMigration.
From S2P Require Import Executor.
From S2P Require Import ExecutorSafety.

Local Open Scope Z_scope.
Local Open Scope nespa_scope.

Section Calls.
  Context `{!RangeOrder, !ErrorBody} {E : Type} `{!Engine E}.
  Implicit Types (s : Server E) (w : cluster E) (env : callEnv).

(** A call whose request and answer fit in a frame. *)
Lemma callNode_answered {A} env addr op epoch metadata payload (decode : Frame -> result clientError A) w s s' response x :
  cu_nodes w !! addr = Some s -> codec_typed (srv_codec s) -> cl_codec (cu_client w) = srv_codec s ->
  0 < op < 2 ^ 16 -> is_u64 epoch ->
  handleFrame env s (requestFrame (cu_client w) op epoch metadata payload) = (s', response) ->
  fits (srv_codec s) (requestFrame (cu_client w) op epoch metadata payload) -> fits (srv_codec s) response ->
  isError response = false -> decode response = Ok x ->
  callNode (Answered env) addr (fun env c peer => thenDecode (do env c peer op epoch metadata payload) decode) w =
  (mkCluster (cu_control w) (<[addr := s']> (cu_nodes w)) (nextClient (cu_client w)), Ok x).
Proof.
  intros Hs Hc Hcodec Hop Hepoch Hh Hf Hr He Hd. unfold callNode. rewrite Hs.
  rewrite (do_ok env _ s _ _ _ _ s' response) by done. rewrite He. cbn [thenDecode]. unfold mbind, result_bind.
  by rewrite Hd.
Qed.

(** A request for a range that is not stale reaches its handler. *)
Lemma handle_range env s c op r h : (staleRoute s (mrq_routeEpoch r)).1 = false -> cacheOpCanMutate op = false ->
  List.find (fun '(o, _) => o =? op) cacheHandlers = Some (op, h) ->
  handleFrame env s (range_frame c op r) = h env s (range_frame c op r).
Proof.
  intros Hstale Hop Hh. unfold handleFrame. cbn [RouteEpoch range_frame requestFrame].
  destruct (staleRoute s _) as [[] current]; [done|]. rewrite not_fenced by done. unfold dispatchFrame.
  cbn [FrameOp range_frame requestFrame]. by rewrite Hh.
Qed.

(** What the server decodes of a request for a range. *)
Definition sent_range (r : MigrationRangeRequest) : MigrationRangeRequest :=
  mkMigrationRangeRequest (mrq_namespace r) (mrq_space r) (mrq_vslotStart r) (mrq_vslotEnd r) 0.

Lemma decode_range c op r : range_ok r ->
  DecodeMigrationRangeRequest (Metadata (range_frame c op r)) = Ok (sent_range r).
Proof. intros (Hr1 & Hr2 & Hr3 & Hr4 & _). by apply migration_range_roundtrip. Qed.

Lemma handle_fence env s c r : range_ok r -> (staleRoute s (mrq_routeEpoch r)).1 = false ->
  handleFrame env s (range_frame c OpNodeFenceRange r) =
  (withFences (addFence (rangeFenceFromWire r) (srv_fences s)) s,
   metadataFrame (range_frame c OpNodeFenceRange r) (EncodeMigrationFenceResponse (mkMigrationFenceResponse true)) []).
Proof.
  intros Hr Hstale. rewrite (handle_range env s c OpNodeFenceRange r handleFenceRange) by done.
  unfold handleFenceRange. by rewrite decode_range.
Qed.

Lemma handle_unfence env s c r : range_ok r -> (staleRoute s (mrq_routeEpoch r)).1 = false ->
  handleFrame env s (range_frame c OpNodeUnfenceRange r) =
  (withFences (removeFence (rangeFenceFromWire r) (srv_fences s)) s,
   metadataFrame (range_frame c OpNodeUnfenceRange r) (EncodeMigrationFenceResponse (mkMigrationFenceResponse true)) []).
Proof.
  intros Hr Hstale. rewrite (handle_range env s c OpNodeUnfenceRange r handleUnfenceRange) by done.
  unfold handleUnfenceRange. by rewrite decode_range.
Qed.

Lemma handle_delete env s c r svc n : range_ok r -> (staleRoute s (mrq_routeEpoch r)).1 = false ->
  deleteRangeLocked (srv_service s) (rangeFromWire r) = (svc, Ok (mkDeleteRangeResult n)) ->
  handleFrame env s (range_frame c OpNodeDeleteRange r) =
  (withService svc s,
   metadataFrame (range_frame c OpNodeDeleteRange r)
     (EncodeMigrationDeleteRangeResponse (mkMigrationDeleteRangeResponse n)) []).
Proof.
  intros Hr Hstale Hd. rewrite (handle_range env s c OpNodeDeleteRange r handleDeleteRange) by done.
  unfold handleDeleteRange. rewrite decode_range by done. cbn [decoded].
  change (rangeFromWire (sent_range r)) with (rangeFromWire r). by rewrite Hd.
Qed.

(** The fences of other ranges are kept. *)
Lemma sameRangeFence_refl fence : sameRangeFence fence fence = true.
Proof. unfold sameRangeFence. rewrite !bool_decide_eq_true_2, !Z.eqb_refl by done. done. Qed.

Lemma removed_fence fence fences : fence ∉ removeFence fence fences.
Proof.
  unfold removeFence. intros Hin%list_elem_of_In%List.filter_In. destruct Hin as [_ Hin].
  by rewrite sameRangeFence_refl in Hin.
Qed.
End Calls.

(** ** A move *)

Section Memory.
  Context `{!Codecs, !GoMath, !RangeOrder, !ErrorBody}.
  Implicit Types (s a b : Server MemoryEngine) (w : cluster MemoryEngine) (env : callEnv) (p : string) (ent : entry).

(** Every call is answered, the cut-over is applied, the source has not seen a
    newer revision than the task's, and what is sent fits in a frame. *)
Record smooth (fates : taskFates) task w a env : Prop := mkSmooth {
  sm_fence : exists env, tf_fence fates = Answered env;
  sm_export : tf_export fates = Answered env;
  sm_import : exists env, tf_import fates = Answered env;
  sm_delete : exists env, tf_delete fates = Answered env;
  sm_unfence : exists env, tf_unfence fates = Answered env;
  sm_cutover : forall n, exists cs result,
    cutoverMigrationTask (tf_cutover fates) task n (cu_control w) = (cs, Ok result);
  sm_fresh : (staleRoute a (mt_revision task)).1 = false;
  sm_valid : validateRangeOptions (rangeFromWire (migrationRangeRequest task)) = None;
  sm_request : zlen (EncodeMigrationRangeRequest (migrationRangeRequest task)) <= DefaultMaxMetadataBytes;
  sm_snapshot : exists raw payload,
    EncodeMigrationSnapshot (snapshotToWire (exported env a (migrationRangeRequest task))) = Ok (raw, payload) /\
    zlen raw <= DefaultMaxMetadataBytes /\ zlen payload <= DefaultMaxPayloadBytes
}.

Lemma range_frame_fits c op r : zlen (EncodeMigrationRangeRequest r) <= DefaultMaxMetadataBytes ->
  fits (NewCodec []) (range_frame c op r).
Proof. intros Hr. split; [exact Hr|]. by vm_compute. Qed.

(** A request for a range, answered. *)
Lemma range_answered {A} env task op w s s' metadata payload (decode : Frame -> result clientError A) x :
  let request := migrationRangeRequest task in
  cu_nodes w !! mt_sourceAddr task = Some s -> node_ok s -> cl_codec (cu_client w) = NewCodec [] ->
  range_ok request -> zlen (EncodeMigrationRangeRequest request) <= DefaultMaxMetadataBytes ->
  0 < op < 2 ^ 16 ->
  handleFrame env s (range_frame (cu_client w) op request) =
    (s', metadataFrame (range_frame (cu_client w) op request) metadata payload) ->
  zlen metadata <= DefaultMaxMetadataBytes -> zlen payload <= DefaultMaxPayloadBytes ->
  decode (metadataFrame (range_frame (cu_client w) op request) metadata payload) = Ok x ->
  callNode (Answered env) (mt_sourceAddr task) (fun env c peer =>
    thenDecode (do env c peer op (mrq_routeEpoch request) (EncodeMigrationRangeRequest request) []) decode) w =
  (mkCluster (cu_control w) (<[mt_sourceAddr task := s']> (cu_nodes w)) (nextClient (cu_client w)), Ok x).
Proof.
  intros request Hs Hok Hcl Hr Hreq Hop Hh Hm Hp Hd.
  apply (callNode_answered env (mt_sourceAddr task) op (mrq_routeEpoch request) (EncodeMigrationRangeRequest request) []
    decode w s s' (metadataFrame (range_frame (cu_client w) op request) metadata payload) x Hs); rewrite ?(no_codec s Hok); try done; apply Hr.
Qed.

(** The entries of the range are gone from the source. *)
Definition emptied (r : MigrationRangeRequest) a a' : Prop :=
  forall p, engine_entry (engine_of a') p =
    match engine_entry (engine_of a) p with
    | Some ent => if entryInRange (e_key ent) (rangeFromWire r) then None else Some ent
    | None => None
    end.

Lemma fence_answered env task op w s fences : let request := migrationRangeRequest task in
  cu_nodes w !! mt_sourceAddr task = Some s -> node_ok s -> cl_codec (cu_client w) = NewCodec [] ->
  range_ok request -> zlen (EncodeMigrationRangeRequest request) <= DefaultMaxMetadataBytes -> 0 < op < 2 ^ 16 ->
  (forall c, handleFrame env s (range_frame c op request) =
    (withFences fences s, metadataFrame (range_frame c op request)
       (EncodeMigrationFenceResponse (mkMigrationFenceResponse true)) [])) ->
  callNode (Answered env) (mt_sourceAddr task) (fun env c peer => rangeFenceCommand env c peer op request) w =
  (mkCluster (cu_control w) (<[mt_sourceAddr task := withFences fences s]> (cu_nodes w)) (nextClient (cu_client w)),
   Ok (mkMigrationFenceResponse true)).
Proof.
  intros request Hs Hok Hcl Hr Hreq Hop Hh. unfold rangeFenceCommand.
  by apply (range_answered env task op w s (withFences fences s)
    (EncodeMigrationFenceResponse (mkMigrationFenceResponse true)) []).
Qed.

Lemma delete_answered env task w s : let request := migrationRangeRequest task in
  cu_nodes w !! mt_sourceAddr task = Some s -> node_ok s -> cl_codec (cu_client w) = NewCodec [] ->
  range_ok request -> zlen (EncodeMigrationRangeRequest request) <= DefaultMaxMetadataBytes ->
  (staleRoute s (mrq_routeEpoch request)).1 = false -> validateRangeOptions (rangeFromWire request) = None ->
  exists svc n, node_ok (withService svc s) /\ emptied request s (withService svc s) /\
  deleteMigrationSource (Answered env) task request w =
  (mkCluster (cu_control w) (<[mt_sourceAddr task := withService svc s]> (cu_nodes w)) (nextClient (cu_client w)), Ok n).
Proof.
  intros request Hs Hok Hcl Hr Hreq Hstale Hv. pose proof Hok as [Hcodec Hi Hc].
  destruct (DeleteRange_spec (engine_of s) (rangeFromWire request) Hi Hc Hv) as (e' & [n] & HD & Hc' & Hi' & Hall).
  assert (is_u64 n) as Hn by (pose proof (deleted_u64 (engine_of s) (rangeFromWire request)) as Hu; by rewrite HD in Hu).
  exists (withEngine e' (srv_service s)), n. split; [by split|]. split; [done|].
  unfold deleteMigrationSource, clientDeleteRange. subst request.
  rewrite (range_answered env task OpNodeDeleteRange w s (withService (withEngine e' (srv_service s)) s)
    (EncodeMigrationDeleteRangeResponse (mkMigrationDeleteRangeResponse n)) []
    (decodeMetadata DecodeMigrationDeleteRangeResponse) (mkMigrationDeleteRangeResponse n)); try done.
  - apply handle_delete; [done|done|]. unfold deleteRangeLocked, onEngine.
    change (eng_DeleteRange (svc_engine (srv_service s)) ?o) with (DeleteRange LiveContext (engine_of s) o). by rewrite HD.
  - unfold decodeMetadata, DecodeMigrationDeleteRangeResponse, EncodeMigrationDeleteRangeResponse.
    cbn [Metadata metadataFrame]. by rewrite uint64_roundtrip.
Qed.

Lemma export_answered env task w s b raw payload : let request := migrationRangeRequest task in
  cu_nodes w !! mt_sourceAddr task = Some s -> node_ok s -> carried s b -> cl_codec (cu_client w) = NewCodec [] ->
  range_ok request -> zlen (EncodeMigrationRangeRequest request) <= DefaultMaxMetadataBytes ->
  (staleRoute s (mrq_routeEpoch request)).1 = false -> validateRangeOptions (rangeFromWire request) = None ->
  EncodeMigrationSnapshot (snapshotToWire (exported env s request)) = Ok (raw, payload) ->
  zlen raw <= DefaultMaxMetadataBytes -> zlen payload <= DefaultMaxPayloadBytes ->
  exists svc snapshot, svc_engine svc = engine_of s /\ DecodeMigrationSnapshot raw payload = Ok snapshot /\
  EncodeMigrationSnapshot snapshot = Ok (raw, payload) /\
  callNode (Answered env) (mt_sourceAddr task) (fun env c peer => clientExportRange env c peer request) w =
  (mkCluster (cu_control w) (<[mt_sourceAddr task := withService svc s]> (cu_nodes w)) (nextClient (cu_client w)),
   Ok snapshot).
Proof.
  intros request Hs Hok Hca Hcl Hr Hreq Hstale Hv Henc Hm Hp.
  destruct (exported_sendable env s b request Hok Hca) as [Hwire Hshort].
  assert (zlen payload < 2 ^ 32) as Hsz by (eapply Z.le_lt_trans; [exact Hp|by vm_compute]).
  destruct (snapshot_over_wire (exported env s request)) as (raw' & payload' & out & E1 & Hdec & _);
    [done|done|by rewrite <- (snapshot_payload_size _ _ _ Henc)|].
  rewrite Henc in E1. injection E1 as <- <-.
  destruct (snapshot_resent _ raw payload out Hwire Hshort Henc Hsz Hdec) as [_ Henc'].
  exists (withEngine (engine_of s) (srv_service s)), out. split_and!; [done|done|done|].
  unfold clientExportRange. subst request.
  apply (range_answered env task OpNodeExportRange w s _ raw payload); try done.
  - apply (handle_export env s _ _ _ (exported env s (migrationRangeRequest task))); [done|done| |done].
    unfold exportLocked. change (eng_Export (svc_engine (srv_service s)) ?o ?now) with (Export' LiveContext (engine_of s) o now).
    rewrite Export_collected by (done || apply (no_open s Hok)). done.
  - cbn [Metadata Payload metadataFrame]. by rewrite Hdec.
Qed.

Lemma import_answered env task w a b now raw payload snapshot :
  cu_nodes w !! mt_targetAddr task = Some b -> node_ok b -> cl_codec (cu_client w) = NewCodec [] ->
  EncodeMigrationSnapshot snapshot = Ok (raw, payload) ->
  zlen raw <= DefaultMaxMetadataBytes -> zlen payload <= DefaultMaxPayloadBytes ->
  (forall f, Metadata f = raw -> Payload f = payload -> FrameOp f = OpNodeImportSnapshot -> RouteEpoch f = 0 ->
     (node_ok (handleFrame env b f).1 /\ received now (migrationRangeRequest task) a b (handleFrame env b f).1) /\
     import_answer f (handleFrame env b f).2) ->
  exists b' n, node_ok b' /\ received now (migrationRangeRequest task) a b b' /\
  callNode (Answered env) (mt_targetAddr task) (fun env c peer => clientImportSnapshot env c peer snapshot) w =
  (mkCluster (cu_control w) (<[mt_targetAddr task := b']> (cu_nodes w)) (nextClient (cu_client w)),
   Ok (mkMigrationImportResponse n)).
Proof.
  intros Ht Hok Hcl Henc Hm Hp Hf. unfold clientImportSnapshot. rewrite Henc. cbn [encoded].
  set (f := requestFrame (cu_client w) OpNodeImportSnapshot 0 raw payload).
  destruct (Hf f) as [[Hok' Hrec] (n & Hn & Hresp)]; [done..|].
  exists (handleFrame env b f).1, n. split_and!; [done|done|].
  apply (callNode_answered env (mt_targetAddr task) OpNodeImportSnapshot 0 raw payload
    (decodeMetadata DecodeMigrationImportResponse) w b _ (handleFrame env b f).2); rewrite ?(no_codec b Hok); try done.
  - apply surjective_pairing.
  - rewrite Hresp. split; by vm_compute.
  - by rewrite Hresp.
  - rewrite Hresp. unfold decodeMetadata, DecodeMigrationImportResponse, EncodeMigrationImportResponse.
    cbn [Metadata metadataFrame]. by rewrite uint64_roundtrip.
Qed.

(** C15: when every call is answered, the cut-over is applied, the source has seen no
    newer revision than the task's and the snapshot fits in a frame, the range moves:
    each of its entries that had not expired is merged into the target, which takes it
    unless it holds an entry of the key that is at least as new (a higher version, or the
    same one updated no earlier), and then keeps its own; the target's other entries stay; the source has no entry of the range
    left, expired or not, and keeps all others; the fence is lifted, and no other node
    changes.  The nodes store in memory, their entries have times and sizes that the
    wire can carry, and the task has not been cut over before. *)
Theorem migration_moves_range fates task w a b env :
  stage task w a b -> mt_sourceAddr task <> mt_targetAddr task -> range_ok (migrationRangeRequest task) ->
  carried a b -> mt_cutoverAtUnix task <= 0 -> smooth fates task w a env ->
  let '(w', r) := migrateRange fates task w in
  exists imported deleted a' b', r = Ok (imported, deleted) /\
    cu_nodes w' = <[mt_sourceAddr task := a']> (<[mt_targetAddr task := b']> (cu_nodes w)) /\
    received (ce_clock env 0%nat 0%nat) (migrationRangeRequest task) a b b' /\
    emptied (migrationRangeRequest task) a a' /\
    rangeFenceFromWire (migrationRangeRequest task) ∉ srv_fences a'.
Proof.
  intros [Hs Ht Ha Hb Hcl] Hne Hr Hca Hcut.
  intros [[e1 F1] F2 [e3 F3] [e4 F4] [e5 F5] Hcutover Hfresh Hv Hreq (raw & payload & Henc & Hm & Hp)].
  unfold migrateRange. rewrite (proj2 (Z.ltb_ge _ _) Hcut). unfold migrateRangeToTarget. rewrite F1, F2, F3, F4, F5.
  set (fences := addFence (rangeFenceFromWire (migrationRangeRequest task)) (srv_fences a)). unfold clientFenceRange.
  rewrite (fence_answered e1 task OpNodeFenceRange w a fences) by (try done; intros c; by apply handle_fence).
  set (w1 := mkCluster _ _ _). set (a1 := withFences fences a) in *.
  assert (node_ok a1) as Ha1 by (by destruct Ha).
  destruct (export_answered env task w1 a1 b raw payload) as (svc & snapshot & Esvc & Hdec & Henc' & ->);
    try done; [apply lookup_insert_eq|by destruct Hca|].
  set (w2 := mkCluster _ _ _). set (a2 := withService svc a1) in *.
  assert (engine_of a2 = engine_of a) as Ea2 by done.
  assert (node_ok a2) as Ha2 by (destruct Ha as [Hac Hai Hao]; split; [done|by rewrite Ea2|by rewrite Ea2]).
  destruct (import_answered e3 task w2 a b (ce_clock env 0%nat 0%nat) raw payload snapshot)
    as (b' & n & Hb' & Hrec & ->); try done.
  { unfold w2, w1. cbn [cu_nodes]. by rewrite !lookup_insert_ne. }
  { intros f Hfm Hfp Hop Hepoch. apply (exported_received env e3 a b _ snapshot raw payload f); try done.
    - eapply Z.le_lt_trans; [exact Hp|by vm_compute].
    - by rewrite Hfm, Hfp. }
  destruct (Hcutover n) as (cs & result & Hcs). cbn [mir_imported cu_control].
  change (cu_control w2) with (cu_control w). rewrite Hcs. set (w3 := withControl _ _).
  destruct (delete_answered e4 task w3 a2) as (svc4 & deleted & Ha4 & Hempty & ->); try done.
  { unfold w3, w2. cbn [cu_nodes withControl]. by rewrite lookup_insert_ne, lookup_insert_eq. }
  set (w4 := mkCluster _ _ _). set (a4 := withService svc4 a2) in *. unfold unfenceMigrationSource, clientUnfenceRange.
  rewrite (fence_answered e5 task OpNodeUnfenceRange w4 a4
    (removeFence (rangeFenceFromWire (migrationRangeRequest task)) (srv_fences a4)));
    [|apply lookup_insert_eq|done|done|done|done|done|intros c; by apply handle_unfence].
  exists n, deleted. eexists _, b'. split; [done|]. split.
  - unfold w4, w3, w2, w1. cbn [cu_nodes withControl].
    by rewrite !insert_insert_eq, (insert_insert_ne _ (mt_targetAddr task)), insert_insert_eq by done.
  - split_and!; [done|by unfold emptied in *; rewrite Ea2 in Hempty|apply removed_fence].
Qed.
End Memory.
