(* ===== verification/ExecutorLimits.v ===== *)
(** * What a migration cannot do

    A source that has seen a newer revision than a task's refuses every call of
    the task, and a range whose snapshot does not fit in a frame is never moved. *)

From S2P Require Import Prelude.
From S2P Require Import Binary.
From S2P Require Import GoStrings.
From S2P Require Import ControlApi.
From S2P Require Import Control.
From S2P Require Import Frame.
From S2P Require Import EngineTypes.
From S2P Require Import Shard.
From S2P Require Import Primitives.
From S2P Require Import MemoryEngine.
From S2P Require Import EngineSpec.
From S2P Require Import Service.
From S2P Require Import WireTypes.
From S2P Require Import Wire.
From S2P Require Import WireBatch.
From S2P Require Import WireSpec.
From S2P Require Import TcpWire.
From S2P Require Import TcpServer.
From S2P Require Import TcpClient.
From S2P Require Import TcpSpec.
From S2P Require Import TcpMigration.
From S2P Require Import Executor.
From S2P Require Import ExecutorSafety.

Local Open Scope Z_scope.
Local Open Scope nespa_scope.

(** ** Tasks of an old revision *)

Section Stale.
  Context `{!RangeOrder, !ErrorBody} {E : Type} `{!Engine E}.
  Implicit Types (s : Server E) (w : cluster E) (env : callEnv).

(** A cluster in which nothing has happened to the nodes. *)
Definition untouched w w' : Prop :=
  cu_nodes w' = cu_nodes w /\ cl_codec (cu_client w') = cl_codec (cu_client w).

Lemma stale_call {A} fate task op w s (decode : Frame -> result clientError A) :
  let request := migrationRangeRequest task in
  cu_nodes w !! mt_sourceAddr task = Some s -> srv_codec s = NewCodec [] -> cl_codec (cu_client w) = NewCodec [] ->
  range_ok request -> (staleRoute s (mt_revision task)).1 = true -> 0 < op < 2 ^ 16 ->
  let '(w', r) := callNode fate (mt_sourceAddr task) (fun env c peer =>
    thenDecode (do env c peer op (mrq_routeEpoch request) (EncodeMigrationRangeRequest request) []) decode) w in
  untouched w w' /\ exists e, r = Err e.
Proof.
  intros request Hs Hcodec Hcl (_ & _ & _ & _ & Hepoch) Hstale Hop.
  pose proof (callNode_do fate (mt_sourceAddr task) op (mrq_routeEpoch request) (EncodeMigrationRangeRequest request) []
    decode w s Hs) as Hcall.
  destruct (callNode fate _ _ w) as [w' r].
  destruct Hcall as (_ & Hcl' & Hcases); [rewrite Hcodec; apply new_codec_typed|congruence|done|done|].
  assert (forall env f, RouteEpoch f = mt_revision task ->
    (handleFrame env s f).1 = s /\ isError (handleFrame env s f).2 = true) as Hrefused.
  { intros env f Hf. unfold handleFrame. rewrite Hf. by destruct (staleRoute s (mt_revision task)) as [[] current]. }
  destruct Hcases as [[Hn He]|(env & _ & Hn & Hr)]; [done|].
  destruct (Hrefused env (requestFrame (cu_client w) op (mrq_routeEpoch request) (EncodeMigrationRangeRequest request) []))
    as [E1 E2]; [done|]. rewrite E1, (insert_id _ _ _ Hs) in Hn. split; [done|].
  destruct r as [x|e]; [|by exists e]. destruct (Hr x eq_refl) as (_ & ? & _). congruence.
Qed.

(** C33: a source that has seen a newer revision of the cluster than the one its
    task was planned at refuses the task for good: whatever happens to the calls,
    the execution fails and no node changes, whether the range was still to be
    moved or only to be removed from the source. *)
Theorem stale_task_never_moves fates task w s :
  cu_nodes w !! mt_sourceAddr task = Some s -> srv_codec s = NewCodec [] -> cl_codec (cu_client w) = NewCodec [] ->
  range_ok (migrationRangeRequest task) -> (staleRoute s (mt_revision task)).1 = true ->
  let '(w', r) := migrateRange fates task w in
  cu_nodes w' = cu_nodes w /\ exists e, r = Err e.
Proof.
  intros Hs Hcodec Hcl Hr Hstale. unfold migrateRange, cleanupMigratedRange, migrateRangeToTarget.
  destruct (0 <? mt_cutoverAtUnix task).
  - unfold deleteMigrationSource, unfenceMigrationSource, clientDeleteRange, clientUnfenceRange, rangeFenceCommand.
    pose proof (stale_call (tf_delete fates) task OpNodeDeleteRange w s
      (decodeMetadata DecodeMigrationDeleteRangeResponse) Hs Hcodec Hcl Hr Hstale ltac:(done)) as S1. cbn zeta in S1.
    destruct (callNode (tf_delete fates) _ _ w) as [w1 r1]. destruct S1 as [[Hn1 Hcl1] [e1 ->]].
    pose proof (stale_call (tf_unfence fates) task OpNodeUnfenceRange w1 s
      (decodeMetadata DecodeMigrationFenceResponse) ltac:(by rewrite Hn1) Hcodec ltac:(by rewrite Hcl1) Hr Hstale
      ltac:(done)) as S2. cbn zeta in S2.
    destruct (callNode (tf_unfence fates) _ _ w1) as [w2 r2]. destruct S2 as [[Hn2 _] [e2 ->]].
    split; [congruence|by eexists].
  - unfold clientFenceRange, rangeFenceCommand.
    pose proof (stale_call (tf_fence fates) task OpNodeFenceRange w s
      (decodeMetadata DecodeMigrationFenceResponse) Hs Hcodec Hcl Hr Hstale ltac:(done)) as S1. cbn zeta in S1.
    destruct (callNode (tf_fence fates) _ _ w) as [w1 r1]. destruct S1 as [[Hn1 _] [e1 ->]]. split; [done|by eexists].
Qed.
End Stale.

(** ** Ranges too large for a frame *)

(** The fields of a fixed width of an entry take 40 bytes. *)
Lemma entry_bytes raw x : zlen raw + 40 <= zlen (appendMigrationSnapshotEntry raw x).
Proof.
  unfold appendMigrationSnapshotEntry. rewrite !appendInt64_eq, !appendUint64_eq, !appendUint32_eq, appendKey_eq.
  rewrite !zlen_app. unfold zlen. rewrite !length_be_put. lia.
Qed.

Lemma entries_bytes l raw : zlen raw + 40 * zlen l <= zlen (appendAll appendMigrationSnapshotEntry raw l).
Proof.
  revert raw. induction l as [|x l IH]; intros raw; cbn [appendAll foldl]; [change (zlen (@nil MigrationSnapshotEntry)) with 0; lia|].
  specialize (IH (appendMigrationSnapshotEntry raw x)). pose proof (entry_bytes raw x). rewrite zlen_cons.
  unfold appendAll in IH. lia.
Qed.

Lemma packAll_length {A} (pack : A -> list byte -> result wireError (A * list byte)) l payload l' payload' :
  packAll pack l payload = Ok (l', payload') -> length l' = length l.
Proof.
  revert payload l' payload'. induction l as [|x l IH]; intros payload l' payload'; cbn [packAll]; [by intros [= <- _]|].
  destruct (pack x payload) as [[y q]|]; [|done]. unfold mbind, result_bind.
  destruct (packAll pack l q) as [[k q']|] eqn:El; [|done]. intros [= <- _]. apply IH in El. cbn. by rewrite El.
Qed.

Lemma snapshot_bytes entries raw payload : EncodeMigrationSnapshot (snapshotToWire entries) = Ok (raw, payload) ->
  40 * zlen entries < zlen raw.
Proof.
  unfold EncodeMigrationSnapshot, PackMigrationSnapshot, mbind, result_bind.
  destruct (packAll packEntry (ms_entries (snapshotToWire entries)) []) as [[k q]|] eqn:E; [|done]. intros [= <- _].
  cbn [ms_entries]. apply packAll_length in E. cbn [snapshotToWire ms_entries] in E. rewrite length_fmap in E.
  pose proof (entries_bytes k (appendCount newMetadata (itemCount k))) as Hb. unfold zlen in Hb at 2. rewrite E in Hb.
  assert (zlen (appendCount newMetadata (itemCount k)) = 9) as H9.
  { unfold appendCount. rewrite appendUint64_eq, zlen_app. unfold zlen. by rewrite length_be_put. }
  unfold migrationSnapshotEntryCount. unfold zlen at 1. lia.
Qed.

Section Large.
  Context `{!Codecs, !GoMath, !RangeOrder, !ErrorBody}.
  Implicit Types (s a b : Server MemoryEngine) (w : cluster MemoryEngine).

(** C34: a range is exported in one frame, and the metadata of a frame are limited to
    1 MiB: a range that holds more than 26214 live entries is never moved,
    whatever happens to the calls; the engines and the control state stay as they
    are. *)
Theorem large_range_never_moves fates task w a b :
  stage task w a b -> mt_sourceAddr task <> mt_targetAddr task -> range_ok (migrationRangeRequest task) ->
  mt_cutoverAtUnix task <= 0 ->
  (forall env, tf_export fates = Answered env -> 26214 < zlen (exported env a (migrationRangeRequest task))) ->
  let '(w', r) := migrateRange fates task w in
  (exists e, r = Err e) /\ cu_control w' = cu_control w /\
  exists a', stage task w' a' b /\ engine_of a' = engine_of a.
Proof.
  intros Hst Hne Hr Hcut Hlarge. unfold migrateRange. rewrite (proj2 (Z.ltb_ge _ _) Hcut).
  unfold migrateRangeToTarget, clientFenceRange.
  pose proof (fence_step (tf_fence fates) task _ w a b (or_introl eq_refl) Hst Hne Hr) as S1.
  destruct (callNode (tf_fence fates) _ _ w) as [w1 [fenced|err]]; destruct S1 as (C1 & a1 & Hst1 & Ea1);
    [|split_and!; eauto].
  pose proof (st_sourceOk _ _ _ _ Hst1) as Ha1.
  assert (forall env c, engine_of (handleFrame env a1 (range_frame c OpNodeExportRange (migrationRangeRequest task))).1
    = engine_of a1) as Hsame.
  { intros env c. pose proof (export_effect env a1 c _ Hr Ha1) as Hx. destruct (handleFrame env a1 _). apply Hx. }
  pose proof (source_step (tf_export fates) task OpNodeExportRange w1 a1 b
    (fun frame => map_err DecodeFailed (DecodeMigrationSnapshot (Metadata frame) (Payload frame))) Hst1 Hne Hr
    ltac:(done) Hsame) as S2. unfold clientExportRange. cbn zeta in S2.
  destruct (callNode (tf_export fates) _ _ w1) as [w2 [snapshot|err]]; destruct S2 as (C2 & (a2 & Hst2 & Ea2) & Hok).
  - exfalso. destruct (Hok snapshot eq_refl) as (env & Hfate & Hnerr & [Hfit _] & _).
    pose proof (export_effect env a1 (cu_client w1) _ Hr Ha1) as Hx. destruct (handleFrame env a1 _) as [a3 response].
    cbn [snd] in *. destruct Hx as [_ Henc]. specialize (Henc Hnerr). apply snapshot_bytes in Henc.
    specialize (Hlarge env Hfate). change (limits (NewCodec [])).1 with (2 ^ 20) in Hfit.
    assert (exported env a1 (migrationRangeRequest task) = exported env a (migrationRangeRequest task)) as Ex
      by (unfold exported; by rewrite Ea1). rewrite Ex in Henc. lia.
  - split_and!; [by eexists|congruence|]. exists a2. split; [done|congruence].
Qed.
End Large.

(** * Waves of tasks *)

From S2P Require Import Routing.
From S2P Require Import ShardInv.
From S2P Require Import ShardOps.
From S2P Require Import WireMessages.

(** ** Waves *)

(** Two tasks on different nodes. *)
Definition apart (a b : MigrationTaskBody) : Prop :=
  forall node, node ∈ migrationTaskNodeKeys a -> node ∉ migrationTaskNodeKeys b.

(** A wave with the nodes it uses. *)
Definition wave_ok (w : list MigrationTaskBody * gset string) : Prop :=
  StronglySorted apart w.1 /\ forall node, node ∈ w.2 <-> exists t, t ∈ w.1 /\ node ∈ migrationTaskNodeKeys t.

Lemma recorded_nodes used task node :
  node ∈ recordMigrationTaskNodes used task <-> node ∈ used \/ node ∈ migrationTaskNodeKeys task.
Proof.
  unfold recordMigrationTaskNodes. generalize (migrationTaskNodeKeys task) as keys. intros keys. revert used.
  induction keys as [|k keys IH]; intros used; cbn [foldl]; [set_solver|]. rewrite IH. set_solver.
Qed.

Lemma conflict_spec used task : migrationTaskNodeConflict used task = false ->
  forall node, node ∈ migrationTaskNodeKeys task -> node ∉ used.
Proof.
  unfold migrationTaskNodeConflict. intros Hc node Hin Hused.
  assert (existsb (fun node => bool_decide (node ∈ used)) (migrationTaskNodeKeys task) = true); [|congruence].
  apply existsb_exists. exists node. split; [by apply list_elem_of_In|]. by apply bool_decide_eq_true_2.
Qed.

Lemma sorted_apart_snoc wave task : StronglySorted apart wave -> (forall t, t ∈ wave -> apart t task) ->
  StronglySorted apart (wave ++ [task]).
Proof.
  induction 1 as [|t wave Hs IH Ht]; intros Ha; cbn [app]; [by repeat constructor|]. constructor.
  - apply IH. intros u Hu. apply Ha. by right.
  - apply Forall_app. split; [done|]. apply Forall_singleton, Ha. by left.
Qed.

Lemma placeTask_ok waves task : Forall wave_ok waves ->
  Forall wave_ok (placeTask waves task) /\ mjoin (placeTask waves task).*1 ≡ₚ mjoin waves.*1 ++ [task].
Proof.
  induction 1 as [|[wave used] waves [Hs Hu] Hw IH]; cbn [placeTask].
  { split; [|done]. apply Forall_singleton. split; [by repeat constructor|]. intros node. cbn [snd fst].
    rewrite recorded_nodes. set_solver. }
  destruct (migrationTaskNodeConflict used task) eqn:Hc.
  - destruct IH as [IH1 IH2]. split; [constructor; [done|done]|].
    rewrite !fmap_cons. cbn [fst mjoin list_join]. rewrite IH2. by rewrite app_assoc.
  - split; [constructor; [|done]|].
    + split; cbn [fst snd] in *.
      * apply sorted_apart_snoc; [done|]. intros t Ht node Hn Hn'. eapply conflict_spec; [exact Hc|exact Hn'|].
        apply Hu. by exists t.
      * intros node. rewrite recorded_nodes, Hu. setoid_rewrite elem_of_app. setoid_rewrite list_elem_of_singleton. split.
        -- intros [(t & Ht & Hn)|Hn]; [by exists t; auto|by exists task; auto].
        -- intros (t & [Ht| ->] & Hn); [left; by exists t|by right].
    + rewrite !fmap_cons. cbn [fst mjoin list_join]. rewrite <- !app_assoc. f_equiv. apply Permutation_app_comm.
Qed.

(** The tasks that were claimed are run in waves: every task is in exactly one
    wave, and no two tasks of a wave use the same node as source or target, so
    that the tasks of a wave can run at the same time. *)
Theorem migration_waves_disjoint tasks :
  mjoin (migrationTaskWaves tasks) ≡ₚ tasks /\ Forall (StronglySorted apart) (migrationTaskWaves tasks).
Proof.
  unfold migrationTaskWaves.
  assert (forall waves, Forall wave_ok waves ->
    Forall wave_ok (foldl placeTask waves tasks) /\ mjoin (foldl placeTask waves tasks).*1 ≡ₚ mjoin waves.*1 ++ tasks)
    as Hall.
  { induction tasks as [|t tasks IH]; intros waves Hw; cbn [foldl]; [by rewrite app_nil_r|].
    destruct (placeTask_ok waves t Hw) as [H1 H2]. destruct (IH _ H1) as [H3 H4]. split; [done|].
    rewrite H4, H2. by rewrite <- app_assoc. }
  destruct (Hall [] (Forall_nil_2 _)) as [H1 H2]. split; [done|]. rewrite Forall_fmap.
  eapply Forall_impl; [exact H1|]. by intros w [Hw _].
Qed.

(** * Migrations, run *)

From S2P Require Import ControlExamples.
From S2P Require Import Instances.
From S2P Require Import EngineExamples.
From S2P Require Import TcpPipeline.
From S2P Require Import ExecutorMoves.

#[local] Existing Instance sample_codecs.
#[local] Existing Instance sample_math.
#[local] Existing Instance canonical_order.
#[local] Existing Instance sample_errors.

(** ** A move that succeeds *)

Definition accepted (unix : Z) : proposal := mkProposal Accepted (timeUnix unix) (fun _ => timeUnix unix).

(** A node whose routes are of revision [epoch]. *)
Definition node (epoch : Z) (e : MemoryEngine) : Server MemoryEngine :=
  NewServer (mkServerConfig (Some epoch) None 16) (mkService e (mkQuota 0 0 ∅ ∅)).

Definition nodeA : Server MemoryEngine := node 5 engine2.
Definition nodeB : Server MemoryEngine := node 5 (NewMemory 5).
Definition nodeC : Server MemoryEngine := node 5 (NewMemory 1).

Definition claimedState : ControlState := (claimMigrationTask (accepted 1700000030) cluster3).1.
Definition claimedTask : MigrationTaskBody := Eval vm_compute in firstTask claimedState.

Definition threeNodes : cluster MemoryEngine :=
  mkCluster claimedState {[ "a:7000" := nodeA; "b:7000" := nodeB; "c:7000" := nodeC ]} NewClient.

Definition allAnswered : taskFates :=
  mkTaskFates (Answered sample_env) (Answered sample_env) (Answered sample_env) (accepted 1700000031)
    (Answered sample_env) (Answered sample_env) (accepted 1700000032).

Definition allEntries : list SnapshotEntry := Eval vm_compute in collected (fun _ => true) (me_shards engine2).

(** An engine whose entries, listed, can all be carried. *)
Lemma listed_wire (e : MemoryEngine) p ent : engine_inv e -> Forall wire_entry_ok (collected (fun _ => true) (me_shards e)) ->
  engine_entry e p = Some ent -> wire_entry_ok (snapshotEntryFromEntry ent).
Proof.
  intros Hi Hall He.
  assert (p ∈ snap_keys (collected (fun _ => true) (me_shards e))) as (x & -> & Hx)%list_elem_of_fmap
    by (apply collected_keys; [done|by exists ent]).
  pose proof Hx as (ent' & He' & Hx' & _)%elem_of_collected; [|done]. unfold compose in He.
  assert (ent' = ent) as -> by congruence. rewrite <- Hx'. by apply (proj1 (Forall_forall _ _) Hall).
Qed.

Lemma engine2_wire p ent : engine_entry engine2 p = Some ent -> wire_entry_ok (snapshotEntryFromEntry ent).
Proof.
  apply listed_wire; [exact engine2_inv|].
  assert (collected (fun _ => true) (me_shards engine2) = allEntries) as -> by (vm_compute; reflexivity).
  assert (allEntries ≡ₚ TcpPipeline.exported) as -> by (first [reflexivity|apply Permutation_swap]). exact exported_ok.
Qed.

Lemma nodes_in_service : node_ok nodeA /\ node_ok nodeB.
Proof.
  split; split; [reflexivity|exact engine2_inv|vm_compute; reflexivity
                |reflexivity|exact (NewMemory_inv 5)|vm_compute; reflexivity].
Qed.

Lemma nodes_carried : carried nodeA nodeB.
Proof. split; [exact engine2_wire|vm_compute; reflexivity|vm_compute; reflexivity]. Qed.

Lemma threeNodes_stage : stage claimedTask threeNodes nodeA nodeB.
Proof. split; [vm_compute; reflexivity|vm_compute; reflexivity|apply nodes_in_service|apply nodes_in_service|reflexivity]. Qed.

Definition cherries : entry := Eval vm_compute in default (stored (mkSnapshotEntry k1 [] 0 0 0 0 0 0 0 0))
  (engine_entry engine2 (physicalKey k1)).

(** The entry moves from [a] to [b]. *)
Lemma migration_loses_nothing_witness :
  kept allAnswered claimedTask threeNodes nodeA nodeB (migrateRange allAnswered claimedTask threeNodes).1
    (physicalKey k1) cherries /\
  (migrateRange allAnswered claimedTask threeNodes).2 = Ok (1, 1).
Proof.
  split; [|vm_compute; reflexivity]. apply migration_loses_nothing.
  - exact threeNodes_stage.
  - discriminate.
  - vm_compute. repeat split; congruence.
  - exact nodes_carried.
  - vm_compute. discriminate.
  - vm_compute. reflexivity.
Defined.

(** What travels. *)
Definition snapshotBytes : list byte * list byte := Eval vm_compute in
  match EncodeMigrationSnapshot (snapshotToWire (ExecutorSafety.exported sample_env nodeA (migrationRangeRequest claimedTask))) with
  | Ok b => b
  | Err _ => ([], [])
  end.
Definition snapshotRaw : list byte := snapshotBytes.1.
Definition snapshotPayload : list byte := snapshotBytes.2.

Lemma migration_moves_range_witness : exists imported deleted a' b',
  (migrateRange allAnswered claimedTask threeNodes).2 = Ok (imported, deleted) /\
  received 300 (migrationRangeRequest claimedTask) nodeA nodeB b' /\ emptied (migrationRangeRequest claimedTask) nodeA a'.
Proof.
  pose proof (migration_moves_range allAnswered claimedTask threeNodes nodeA nodeB sample_env) as H.
  destruct (migrateRange allAnswered claimedTask threeNodes) as [w' r].
  destruct H as (imported & deleted & a' & b' & H1 & _ & H2 & H3 & _);
    [exact threeNodes_stage|discriminate|vm_compute; repeat split; congruence|exact nodes_carried|vm_compute; discriminate
    | |exists imported, deleted, a', b'; split; [exact H1|split; [exact H2|exact H3]]].
  split.
  - exists sample_env. reflexivity.
  - reflexivity.
  - exists sample_env. reflexivity.
  - exists sample_env. reflexivity.
  - exists sample_env. reflexivity.
  - intros n. eexists _, _. vm_compute. reflexivity.
  - vm_compute. reflexivity.
  - vm_compute. reflexivity.
  - vm_compute. discriminate.
  - exists snapshotRaw, snapshotPayload. split; [vm_compute; reflexivity|]. split; vm_compute; discriminate.
Defined.

(** ** Moves that do not happen *)

(** The cluster after the nodes learnt that the task was claimed. *)
Definition informedNodes : cluster MemoryEngine :=
  mkCluster claimedState
    (node (cs_revision claimedState) <$> ({[ "a:7000" := engine2; "b:7000" := NewMemory 5 ]} : gmap string MemoryEngine))
    NewClient.

(** The claim of the task raised the revision of the cluster past the task's. *)
Lemma stale_task_never_moves_witness : cs_revision claimedState = 6 /\ mt_revision claimedTask = 5 /\
  let '(w', r) := migrateRange allAnswered claimedTask informedNodes in
  cu_nodes w' = cu_nodes informedNodes /\ exists e, r = Err e.
Proof.
  split; [vm_compute; reflexivity|]. split; [reflexivity|].
  apply (stale_task_never_moves allAnswered claimedTask informedNodes (node (cs_revision claimedState) engine2)).
  - reflexivity.
  - reflexivity.
  - reflexivity.
  - vm_compute. repeat split; congruence.
  - vm_compute. reflexivity.
Defined.

Definition importLost : taskFates :=
  mkTaskFates (Answered sample_env) (Answered sample_env) Unreachable (accepted 1700000031)
    (Answered sample_env) (Answered sample_env) (accepted 1700000032).

(** An execution that fails after the fence leaves the source fenced: the task
    has failed, the routes still lead to the source, and the source refuses to set
    a key of the range. *)
Theorem failed_move_leaves_fence :
  (migrateRange importLost claimedTask threeNodes).2 = Err (ImportFailed DialFailed) /\
  match cu_nodes (migrateRange importLost claimedTask threeNodes).1 !! "a:7000" with
  | Some a => srv_fences a = [rangeFenceFromWire (migrationRangeRequest claimedTask)] /\
              (clientSet sample_env NewClient (Some a) sample_set).2 = Err (RemoteError (mkError ErrorNoRoute "fenced"))
  | None => False
  end.
Proof. vm_compute. auto. Qed.

(** ** A crowded node *)

Definition crowdKey (i : nat) : EngineTypes.Key :=
  EngineTypes.mkKey "shop" "cart" "" (bytes_str (be_put 4 (Z.of_nat i))).

Definition crowdEntry (i : nat) : SnapshotEntry := mkSnapshotEntry (crowdKey i) [] 1 0 0 zeroTime 0 0 0 0.

Definition crowd (n : nat) : list SnapshotEntry := crowdEntry <$> seq 0 n.

(** An engine with [n] entries. *)
Definition crowded (n : nat) : MemoryEngine := (Restore LiveContext (NewMemory 1) (crowd n)).1.

Lemma crowdKey_len i : str_len (k_key (crowdKey i)) = 4.
Proof. cbn [crowdKey k_key]. rewrite str_len_bytes, str_bytes_str. unfold zlen. by rewrite length_be_put. Qed.

Lemma crowdKey_ok i : key_ok (crowdKey i).
Proof.
  pose proof (crowdKey_len i) as Hl. split.
  - unfold validateKey. cbn [crowdKey k_namespace k_space].
    rewrite !bool_decide_eq_false_2; [done| |done|done]. intros Hk. change (k_key (crowdKey i) = "") in Hk.
    rewrite Hk in Hl. discriminate.
  - unfold key_typed. rewrite Hl. by vm_compute.
Qed.

Lemma crowdKey_inj i j : Z.of_nat i < 2 ^ 32 -> Z.of_nat j < 2 ^ 32 -> physicalKey (crowdKey i) = physicalKey (crowdKey j) -> i = j.
Proof.
  intros Hi Hj Hk. apply physicalKey_inj in Hk; [|apply crowdKey_ok..]. apply (f_equal k_key), bytes_str_inj in Hk.
  apply (f_equal be_get) in Hk. rewrite !be_get_put_small in Hk by (change (256 ^ Z.of_nat 4) with (2 ^ 32); lia). lia.
Qed.

Lemma crowd_keys n : Z.of_nat n < 2 ^ 32 -> NoDup (snap_keys (crowd n)).
Proof.
  intros Hn. unfold snap_keys, crowd. rewrite <- list_fmap_compose. apply NoDup_fmap_2_strong; [|apply NoDup_seq].
  intros i j Hi%elem_of_seq Hj%elem_of_seq Hk. apply crowdKey_inj; [lia|lia|exact Hk].
Qed.

Lemma crowd_cost n : snap_cost (crowd n) = 12 * Z.of_nat n.
Proof.
  unfold snap_cost, crowd. generalize 0%nat as start. induction n as [|n IH]; intros start; [done|].
  cbn [seq]. rewrite fmap_cons, lsum_cons, IH. cbn [crowdEntry se_key se_value]. unfold costOf. rewrite crowdKey_len.
  change (u64 _) with 12. lia.
Qed.

Lemma crowded_spec n : Z.of_nat n < 2 ^ 32 -> me_closed (crowded n) = false /\ engine_inv (crowded n) /\
  forall x, x ∈ crowd n -> engine_entry (crowded n) (physicalKey (se_key x)) = Some (stored x).
Proof.
  intros Hn. unfold crowded.
  destruct (Restore_spec (NewMemory 1) (crowd n)) as (e & -> & Hc & Hi & Hin & _).
  - apply NewMemory_inv.
  - reflexivity.
  - apply Forall_fmap, Forall_forall. intros i _. apply crowdKey_ok.
  - by apply crowd_keys.
  - unfold room. rewrite map_size_empty, crowd_cost. change (total_cost ∅) with 0. unfold crowd, zlen.
    rewrite length_fmap, length_seq. lia.
  - done.
Qed.

(** All slots of the space. *)
Definition wholeSpace : MigrationTaskBody :=
  mkTask 1 1 5 "shop" "cart" 0 VSlotMax "a" "a:7000" "b" "b:7000" "running" 0 0 0 0 0 0 0 0 "".

Lemma crowd_exported env n : Z.of_nat n < 2 ^ 32 ->
  Z.of_nat n <= zlen (ExecutorSafety.exported env (node 5 (crowded n)) (migrationRangeRequest wholeSpace)).
Proof.
  intros Hn. destruct (crowded_spec n Hn) as (_ & Hi & Hin). unfold ExecutorSafety.exported.
  set (o := withRangeNow _ _). set (snap := collected (moved o) _). unfold zlen. rewrite sortSnapshotEntries_perm.
  assert (length (snap_keys (crowd n)) <= length (snap_keys snap))%nat as Hlen.
  { apply submseteq_length, NoDup_submseteq; [by apply crowd_keys|].
    intros p (x & -> & Hx)%list_elem_of_fmap. apply collected_keys; [done|]. exists (stored x). split; [by apply Hin|].
    apply list_elem_of_fmap in Hx as (i & -> & _). unfold moved, entryInRange, stored.
    cbn [e_key crowdEntry se_key crowdKey k_namespace k_space k_key]. 
    pose proof (VSlotFor_range "shop" "cart" (bytes_str (be_put 4 (Z.of_nat i)))) as [H1 H2].
    apply andb_true_iff. split; [done|]. cbn [ro_namespace ro_space ro_vslotStart ro_vslotEnd].
    rewrite !bool_decide_eq_true_2 by done. cbn [negb orb]. apply andb_true_iff. split; by apply Z.leb_le. }
  unfold snap_keys, crowd in Hlen. rewrite !length_fmap, length_seq in Hlen. lia.
Qed.

Definition crowdSize : nat := Z.to_nat 26215.

Definition crowdedNodes : cluster MemoryEngine :=
  mkCluster claimedState {[ "a:7000" := node 5 (crowded crowdSize); "b:7000" := nodeB ]} NewClient.

Lemma large_range_never_moves_witness :
  let '(w', r) := migrateRange allAnswered wholeSpace crowdedNodes in
  (exists e, r = Err e) /\ cu_control w' = claimedState.
Proof.
  assert (Z.of_nat crowdSize = 26215) as Hsize by (unfold crowdSize; rewrite Z2Nat.id; [reflexivity|discriminate]).
  assert (Z.of_nat crowdSize < 2 ^ 32) as Hn by (rewrite Hsize; reflexivity). destruct (crowded_spec crowdSize Hn) as (Hc & Hi & _).
  pose proof (large_range_never_moves allAnswered wholeSpace crowdedNodes (node 5 (crowded crowdSize)) nodeB) as H.
  destruct (migrateRange allAnswered wholeSpace crowdedNodes) as [w' r].
  destruct H as (H1 & H2 & _).
  - split; [reflexivity|reflexivity| |apply nodes_in_service|reflexivity]. split; [reflexivity|exact Hi|exact Hc].
  - discriminate.
  - vm_compute. repeat split; congruence.
  - vm_compute. discriminate.
  - intros env _. eapply Z.lt_le_trans; [|exact (crowd_exported env crowdSize Hn)]. rewrite Hsize. reflexivity.
  - split; [exact H1|exact H2].
Defined.
