(* ===== verification/NodeAgent.v ===== *)
(** * The node agent (node: service.go; control: state.go Snapshot)

    A node keeps the control plane's snapshot of the cluster: its revision is the
    route epoch below which the node's server refuses requests, its routes say
    which nodes the changes of a key are replicated to.  The answers of the control
    plane to a registration, a heartbeat and a request for the snapshot are
    arguments (ControlHttp has the calls over HTTP); the ticker and logging are not
    modelled. *)

From S2P Require Import Prelude.
From S2P Require Import ControlApi.
From S2P Require Import Routing.
From S2P Require Import ControlRoutes.
From S2P Require Import Control.
From S2P Require Import WireTypes.

Local Open Scope Z_scope.

(** ** Snapshots *)

(** src: controlapi/types.go SnapshotBody *)
Record SnapshotBody := mkSnapshotBody {
  sb_clusterID : string;
  sb_revision : Z;
  sb_mode : string;
  sb_namespaces : list NamespaceBody;
  sb_spaces : list SpaceBody;
  sb_entities : list EntityBody;
  sb_nodes : list NodeBody;
  sb_routes : list RouteBody
}.

Definition zeroSnapshot : SnapshotBody := mkSnapshotBody "" 0 "" [] [] [] [] [].

(** src: control/state.go Snapshot *)
Definition SnapshotOf `{!RangeOrder} (s : ControlState) : SnapshotBody :=
  mkSnapshotBody (cs_clusterID s) (cs_revision s) "bootstrap" (sortedNamespaces s) (sortedSpaces s) (sortedEntities s)
    (sortedNodes s) (effectiveRoutes s).

(** ** The runtime of a node *)

(** The fields of [Config] the agent reads.
    src: node/service.go Config *)
Record NodeConfig := mkNodeConfig {
  nc_addr : string;
  nc_nodeID : string;
  nc_heartbeatInterval : Z
}.

(** src: node/service.go ServiceRuntime *)
Record ServiceRuntime := mkServiceRuntime {
  sr_cfg : NodeConfig;
  sr_heartbeatInterval : Z;
  sr_routeEpoch : Z;
  sr_snapshot : SnapshotBody
}.

(** src: node/service.go NewServiceRuntime *)
Definition NewServiceRuntime (cfg : NodeConfig) : ServiceRuntime :=
  let heartbeatInterval := if nc_heartbeatInterval cfg <=? 0 then 5 * nsPerSecond else nc_heartbeatInterval cfg in
  mkServiceRuntime cfg heartbeatInterval 0 zeroSnapshot.

(** src: node/service.go RouteEpoch *)
Definition NodeRouteEpoch (s : ServiceRuntime) : Z := sr_routeEpoch s.

(** src: node/service.go primaryForRoute *)
Definition primaryForRoute (s : ServiceRuntime) (route : RouteBody) : bool :=
  (negb (bool_decide (rt_nodeID route = "")) && bool_decide (rt_nodeID route = nc_nodeID (sr_cfg s)))
  || (negb (bool_decide (rt_addr route = "")) && bool_decide (rt_addr route = nc_addr (sr_cfg s))).

(** src: node/service.go replicaAddrs *)
Definition replicaAddrs (replicas : list RouteReplicaBody) (cfg : NodeConfig) : list string :=
  rr_addr <$> List.filter (fun replica =>
    negb (bool_decide (rr_addr replica = "") || bool_decide (rr_addr replica = nc_addr cfg)
          || bool_decide (rr_nodeID replica = nc_nodeID cfg))) replicas.

(** src: node/service.go ReplicationTargets *)
Definition ReplicationTargets (s : ServiceRuntime) (key : WireTypes.Key) : list string :=
  match Select (sb_routes (sr_snapshot s)) (wk_namespace key) (wk_space key) (wk_key key) with
  | None => []
  | Some route => if primaryForRoute s route then replicaAddrs (rt_replicas route) (sr_cfg s) else []
  end.

(** The loop retries until the exchange succeeds; with one caller at a time it
    does at once.
    src: node/service.go observeRevision *)
Definition observeRevision (revision : Z) (s : ServiceRuntime) : ServiceRuntime :=
  if revision <=? sr_routeEpoch s then s
  else mkServiceRuntime (sr_cfg s) (sr_heartbeatInterval s) revision (sr_snapshot s).

(** src: node/service.go observeSnapshot *)
Definition observeSnapshot (snapshot : SnapshotBody) (s : ServiceRuntime) : ServiceRuntime :=
  observeRevision (sb_revision snapshot)
    (mkServiceRuntime (sr_cfg s) (sr_heartbeatInterval s) (sr_routeEpoch s) snapshot).

(** [fetched] is what the control plane answers to the request for its snapshot.
    src: node/service.go refreshControlSnapshot *)
Definition refreshControlSnapshot (fetched : option SnapshotBody) (revision : Z) (s : ServiceRuntime) : ServiceRuntime :=
  if revision <=? NodeRouteEpoch s then s
  else match fetched with
       | None => observeRevision revision s
       | Some snapshot => observeSnapshot snapshot s
       end.

(** A registration or a heartbeat: the revision the control plane answered, or
    nothing when the request failed.
    src: node/service.go registerWithControl *)
Definition registerWithControl (answer : option Z) (fetched : option SnapshotBody) (s : ServiceRuntime) : ServiceRuntime :=
  match answer with
  | None => s
  | Some revision => refreshControlSnapshot fetched revision s
  end.

(** One turn of the loop of [runControlHeartbeat]; the same as a registration.
    src: node/service.go runControlHeartbeat *)
Definition heartbeatTurn (answer : option Z) (fetched : option SnapshotBody) (s : ServiceRuntime) : ServiceRuntime :=
  registerWithControl answer fetched s.

(** ** Properties *)

(** The state of a node after it registered and sent heartbeats. *)
Definition nodeRun (turns : list (option Z * option SnapshotBody)) (s : ServiceRuntime) : ServiceRuntime :=
  foldl (fun s '(answer, fetched) => heartbeatTurn answer fetched s) s turns.

Lemma observeRevision_epoch revision s :
  sr_routeEpoch (observeRevision revision s) = Z.max (sr_routeEpoch s) revision.
Proof. unfold observeRevision. case_bool; bool_to_prop; cbn; lia. Qed.

Lemma observeRevision_rest revision s : sr_cfg (observeRevision revision s) = sr_cfg s /\
  sr_snapshot (observeRevision revision s) = sr_snapshot s.
Proof. unfold observeRevision. by case_bool. Qed.

Lemma heartbeatTurn_epoch answer fetched s : sr_routeEpoch s <= sr_routeEpoch (heartbeatTurn answer fetched s) /\
  sr_cfg (heartbeatTurn answer fetched s) = sr_cfg s.
Proof.
  unfold heartbeatTurn, registerWithControl, refreshControlSnapshot, observeSnapshot. destruct answer as [revision|]; [|done].
  case_bool; [done|]. destruct fetched as [snapshot|].
  - rewrite observeRevision_epoch. split; [cbn; lia|by rewrite (proj1 (observeRevision_rest _ _))].
  - rewrite observeRevision_epoch. split; [lia|apply observeRevision_rest].
Qed.

(** A node is asked to replicate a key only when the routes it knows make it the
    key's primary, never to itself and never to an empty address; and the epoch it
    enforces only grows. *)
Lemma replication_targets_others turns cfg key addr :
  let s := nodeRun turns (NewServiceRuntime cfg) in
  addr ∈ ReplicationTargets s key -> addr <> "" /\ addr <> nc_addr cfg /\
  exists route, Select (sb_routes (sr_snapshot s)) (wk_namespace key) (wk_space key) (wk_key key) = Some route /\
    (rt_nodeID route = nc_nodeID cfg \/ rt_addr route = nc_addr cfg).
Proof.
  intros s. assert (sr_cfg s = cfg) as Hcfg.
  { unfold s, nodeRun. generalize (NewServiceRuntime cfg) (eq_refl : sr_cfg (NewServiceRuntime cfg) = cfg).
    induction turns as [|[answer fetched] turns IH]; intros r Hr; [done|]. cbn [foldl]. apply IH.
    by rewrite (proj2 (heartbeatTurn_epoch answer fetched r)). }
  unfold ReplicationTargets. destruct (Select _ _ _ _) as [route|]; [|by intros H%elem_of_nil].
  destruct (primaryForRoute s route) eqn:Hp; [|by intros H%elem_of_nil].
  unfold replicaAddrs. rewrite Hcfg. intros (replica & -> & Hin)%list_elem_of_fmap.
  apply list_elem_of_In, List.filter_In in Hin as [_ Hf]. unfold primaryForRoute in Hp. rewrite Hcfg in Hp.
  apply negb_true_iff, orb_false_iff in Hf as [Hf _]. apply orb_false_iff in Hf as [H1 H2].
  apply bool_decide_eq_false in H1, H2. split_and!; [done|done|]. exists route. split; [done|].
  apply orb_true_iff in Hp as [Hp|Hp]; apply andb_true_iff in Hp as [_ Hp]; apply bool_decide_eq_true in Hp; auto.
Qed.

(** A node that learns of a revision and cannot fetch the snapshot keeps its old
    routes and does not ask again until the revision changes. *)
Lemma missed_snapshot_stays_missed s revision fetches : sr_routeEpoch s < revision ->
  sr_snapshot (nodeRun ((fun fetched => (Some revision, fetched)) <$> fetches)
    (heartbeatTurn (Some revision) None s)) = sr_snapshot s.
Proof.
  intros Hr. set (s' := heartbeatTurn (Some revision) None s).
  assert (sr_routeEpoch s' = revision /\ sr_snapshot s' = sr_snapshot s) as [He Hs].
  { unfold s', heartbeatTurn, registerWithControl, refreshControlSnapshot, NodeRouteEpoch.
    rewrite (proj2 (Z.leb_gt _ _) Hr), observeRevision_epoch. split; [lia|apply observeRevision_rest]. }
  clearbody s'. induction fetches as [|fetched fetches IH]; [done|]. cbn [fmap list_fmap nodeRun foldl].
  assert (heartbeatTurn (Some revision) fetched s' = s') as E.
  { unfold heartbeatTurn, registerWithControl, refreshControlSnapshot, NodeRouteEpoch.
    by rewrite (proj2 (Z.leb_le revision (sr_routeEpoch s'))) by lia. }
  rewrite E. exact IH.
Qed.
