(* ===== verification/ControlEndpoints.v ===== *)
(** * The HTTP interface of the control plane (control/endpoints.go)

    A request is one of the registered routes with its decoded body; a handler
    calls the service and answers with a body or with the status of an error.  The
    routes the endpoints register, with the JSON of the bodies, are tables of
    ControlHttp. *)

From S2P Require Import Prelude.
From S2P Require Import GoStrings.
From S2P Require Import ControlApi.
From S2P Require Import ControlRoutes.
From S2P Require Import Control.
From S2P Require Import ControlCodec.
From S2P Require Import ControlRaft.
From S2P Require Import ControlService.
From S2P Require Import NodeAgent.

Local Open Scope Z_scope.
Local Open Scope nespa_scope.

(** ** Bodies *)

(** src: controlapi/types.go StateBody *)
Record StateBody := mkStateBody { sb_clusterID : string; sb_revision : Z; sb_mode : string }.

(** src: controlapi/types.go RaftMemberBody *)
Record RaftMemberBody := mkMemberBody { rmb_nodeID : Z; rmb_addr : string }.

(** The routes of each endpoint, with the fields of the bodies they take. *)
Inductive readRequest := GetState | GetSnapshot | GetRebalanceEvents | GetMigrationPlans.

Inductive catalogRequest :=
| GetNamespaces
| PostNamespace (namespace : string)
| PostNamespaceBump (namespace : string)
| GetSpaces
| PostSpace (namespace space : string)
| PostSpaceBump (namespace space : string)
| GetEntities
| PostEntity (namespace space entity : string).

Inductive nodeRequest :=
| GetNodes
| PostNode (nodeID addr : string)
| PostNodeRemove (nodeID : string)
| PutHeartbeat (nodeID addr : string).

Inductive raftRequest :=
| GetRaftMembers
| PostRaftAdd (nodeID : Z) (addr : string)
| PostRaftRemove (nodeID : Z).

Inductive controlRequest :=
| ToRead (request : readRequest)
| ToCatalog (request : catalogRequest)
| ToNode (request : nodeRequest)
| ToRaft (request : raftRequest).

(** Lists come with the revision they were read at. *)
Inductive controlResponse :=
| StateReply (body : StateBody)
| SnapshotReply (body : SnapshotBody)
| EventsReply (revision : Z) (events : list RebalanceEventBody)
| PlansReply (revision : Z) (plans : list MigrationPlanBody)
| NamespacesReply (revision : Z) (namespaces : list NamespaceBody)
| NamespaceReply (revision : Z) (namespace : NamespaceBody)
| SpacesReply (revision : Z) (spaces : list SpaceBody)
| SpaceReply (revision : Z) (space : SpaceBody)
| EntitiesReply (revision : Z) (entities : list EntityBody)
| EntityReply (revision : Z) (entity : EntityBody)
| NodesReply (revision : Z) (nodes : list NodeBody)
| NodeReply (revision : Z) (node : NodeBody)
| MembersReply (members : list RaftMemberBody)
| MemberAddedReply (member : RaftMemberBody) (members : list RaftMemberBody)
| MemberRemovedReply (nodeID : Z) (members : list RaftMemberBody).

(** ** Members *)

Definition member_before (a b : RaftMemberBody) : Prop := rmb_nodeID a <= rmb_nodeID b.

#[global] Instance member_before_dec a b : Decision (member_before a b).
Proof. unfold member_before. apply _. Defined.

Section Endpoints.
  Context `{!RangeOrder, !OopsLibrary} (errorText : controlError -> string).

(** src: control/endpoints.go raftMemberBodies *)
Definition raftMemberBodies (members : gmap Z string) : list RaftMemberBody :=
  merge_sort member_before ((fun p => mkMemberBody p.1 p.2) <$> range_order members).

(** ** Reading *)

(** src: control/state.go State *)
Definition StateOf (s : ControlState) : StateBody := mkStateBody (cs_clusterID s) (cs_revision s) "bootstrap".

(** src: control/state.go RebalanceEvents *)
Definition RebalanceEvents (s : ControlState) : controlResponse := EventsReply (cs_revision s) (cs_events s).

(** src: control/state.go MigrationPlans *)
Definition MigrationPlans (s : ControlState) : controlResponse := PlansReply (cs_revision s) (cs_plans s).

(** src: control/state.go Nodes *)
Definition Nodes (s : ControlState) : controlResponse := NodesReply (cs_revision s) (sortedNodes s).

(** src: control/catalog.go Namespaces *)
Definition Namespaces (s : ControlState) : controlResponse := NamespacesReply (cs_revision s) (sortedNamespaces s).

(** src: control/catalog.go Spaces *)
Definition Spaces (s : ControlState) : controlResponse := SpacesReply (cs_revision s) (sortedSpaces s).

(** src: control/catalog.go Entities *)
Definition Entities (s : ControlState) : controlResponse := EntitiesReply (cs_revision s) (sortedEntities s).

(** src: control/state.go RouteCount *)
Definition RouteCount (s : ControlState) : Z := checkedUint64 (zlen (effectiveRoutes s)).

(** ** Handlers *)

(** What a request meets: the environment of its command, and of the calls of a
    membership change and of the read that follows it. *)
Record requestEnv := mkRequestEnv { rq_call : serviceEnv; rq_change : memberEnv; rq_read : memberEnv }.

(** The service and the membership of its raft cluster. *)
Record control := mkControl { ct_service : ControlService.ServiceRuntime; ct_members : membership }.

Definition handled : Type := control * result Z controlResponse.

(** [response, err := ...; if err != nil { return nil, controlStateError(...) }]. *)
Definition answer {A} (reply : A -> controlResponse) (m : membership)
    (out : option (ControlService.ServiceRuntime * result raftError A)) : option handled :=
  match out with
  | None => None
  | Some (svc, Ok a) => Some (mkControl svc m, Ok (reply a))
  | Some (svc, Err e) => Some (mkControl svc m, Err (controlStateError e))
  end.

(** The handlers of [readEndpoint].
    src: control/endpoints.go State 63-77 *)
Definition handleRead (request : readRequest) (s : ControlState) : controlResponse :=
  match request with
  | GetState => StateReply (StateOf s)
  | GetSnapshot => SnapshotReply (SnapshotOf s)
  | GetRebalanceEvents => RebalanceEvents s
  | GetMigrationPlans => MigrationPlans s
  end.

(** The handlers of [catalogEndpoint].
    src: control/endpoints.go Namespaces 97-162 *)
Definition handleCatalog (env : serviceEnv) (request : catalogRequest) (c : control) : option handled :=
  let svc := ct_service c in
  let m := ct_members c in
  match request with
  | GetNamespaces => Some (c, Ok (Namespaces (sv_state svc)))
  | PostNamespace n => answer (fun r => NamespaceReply r.1 r.2) m (svcCreateNamespace errorText env n svc)
  | PostNamespaceBump n => answer (fun r => NamespaceReply r.1 r.2) m (svcBumpNamespaceVersion errorText env n svc)
  | GetSpaces => Some (c, Ok (Spaces (sv_state svc)))
  | PostSpace n sp => answer (fun r => SpaceReply r.1 r.2) m (svcCreateSpace errorText env n sp svc)
  | PostSpaceBump n sp => answer (fun r => SpaceReply r.1 r.2) m (svcBumpSpaceVersion errorText env n sp svc)
  | GetEntities => Some (c, Ok (Entities (sv_state svc)))
  | PostEntity n sp e => answer (fun r => EntityReply r.1 r.2) m (svcCreateEntity errorText env n sp e svc)
  end.

(** The handlers of [nodeEndpoint].
    src: control/endpoints.go Nodes 178-213 *)
Definition handleNode (env : serviceEnv) (request : nodeRequest) (c : control) : option handled :=
  let svc := ct_service c in
  let m := ct_members c in
  match request with
  | GetNodes => Some (c, Ok (Nodes (sv_state svc)))
  | PostNode id addr => answer (fun r => NodeReply r.1 r.2) m (svcRegisterNode errorText env id addr svc)
  | PostNodeRemove id => answer (fun r => NodeReply r.1 r.2) m (svcRemoveNode errorText env id svc)
  | PutHeartbeat id addr => answer (fun r => NodeReply r.1 r.2) m (svcHeartbeat errorText env id addr svc)
  end.

(** The members, once a change has succeeded. *)
Definition answerMembers (reply : list RaftMemberBody -> controlResponse) (env : memberEnv) (svc : ControlService.ServiceRuntime)
    (changed : option (membership * result raftError unit)) : option handled :=
  match changed with
  | None => None
  | Some (m, Err e) => Some (mkControl svc m, Err (controlStateError e))
  | Some (m, Ok _) =>
      match RaftMembers env svc m with
      | None => None
      | Some (m, Err e) => Some (mkControl svc m, Err (controlStateError e))
      | Some (m, Ok members) => Some (mkControl svc m, Ok (reply (raftMemberBodies members)))
      end
  end.

(** The handlers of [raftEndpoint]; the reply to an addition repeats the address
    of the request.
    src: control/endpoints.go RaftMembers 228-274 *)
Definition handleRaft (change read : memberEnv) (request : raftRequest) (c : control) : option handled :=
  let svc := ct_service c in
  let m := ct_members c in
  match request with
  | GetRaftMembers => answerMembers MembersReply read svc (Some (m, Ok tt))
  | PostRaftAdd id addr =>
      answerMembers (MemberAddedReply (mkMemberBody id addr)) read svc (AddRaftNode change id addr svc m)
  | PostRaftRemove id => answerMembers (MemberRemovedReply id) read svc (RemoveRaftNode change id svc m)
  end.

Definition handleControl (env : requestEnv) (request : controlRequest) (c : control) : option handled :=
  match request with
  | ToRead r => Some (c, Ok (handleRead r (sv_state (ct_service c))))
  | ToCatalog r => handleCatalog (rq_call env) r c
  | ToNode r => handleNode (rq_call env) r c
  | ToRaft r => handleRaft (rq_change env) (rq_read env) r c
  end.
End Endpoints.
