(* ===== verification/ControlServiceSpec.v ===== *)
(** * The control plane service

    A retried call ends and its calls are bounded by the timeout, a proposal is
    applied once or not at all, a start leaves a runtime or nothing, snapshots in
    a file and on raft restore the state they were taken from, and a failed
    request changes nothing and says why. *)

From S2P Require Import Prelude.
From S2P Require Import GoStrings.
From S2P Require Import GoJson.
From S2P Require Import GoJsonSpec.
From S2P Require Import ControlApi.
From S2P Require Import ControlRoutes.
From S2P Require Import Control.
From S2P Require Import ControlSpec.
From S2P Require Import ControlTheorems.
From S2P Require Import ControlCodec.
From S2P Require Import ControlWire.
From S2P Require Import ControlRaft.
From S2P Require Import Executor.
From S2P Require Import ControlService.
From S2P Require Import NodeAgent.
From S2P Require Import ControlEndpoints.

Local Open Scope Z_scope.
Local Open Scope nespa_scope.

(** ** Bounded retries *)

Section Retry.
  Context {W T : Type} (operation : nat -> W -> W * result rawError T) (trials : nat -> trial).
  Context (Htook : forall i, 0 <= tr_took (trials i)).

(** An operation that counts its calls. *)
Definition counted (i : nat) (w : W * nat) : (W * nat) * result rawError T :=
  let '(w', r) := operation i w.1 in ((w', S w.2), r).

Lemma dragonboatLoop_counts fuel : forall i deadline now w n w' n' r,
  dragonboatLoop counted trials fuel i deadline now (w, n) = Some ((w', n'), r) ->
  n' = n \/ ((n < n')%nat /\ (Z.of_nat n' - Z.of_nat n - 1) * 25000000 < deadline - now).
Proof.
  induction fuel as [|fuel IH]; intros i deadline now w n w' n' r; [done|]. cbn [dragonboatLoop]. rewrite TimeSub_pos.
  destruct (Z.leb_spec deadline now); [intros [= <- <- <-]; by left|]. unfold counted at 1. cbn [fst snd].
  destruct (operation i w) as [w1 [x|raw]]; [intros [= <- <- <-]; right; lia|].
  destruct (negb _); [intros [= <- <- <-]; right; lia|].
  destruct (waitDragonboatRetry _ _ _ _) as [now'|e] eqn:Ew; [|intros [= <- <- <-]; right; lia].
  apply wait_advances in Ew. specialize (Htook i). unfold TimeAdd, Time in *. intros [-> |[Hlt Hb]]%IH; right; [lia|].
  split; [lia|]. destruct Ew; lia.
Qed.
End Retry.

(** A retried raft call ends whatever its trials do, and calls the library at
    most once per started 25 ms of its timeout. *)
Theorem retries_bounded {W T : Type} (operation : nat -> W -> W * result rawError T) (trials : nat -> trial)
    (timeout : Duration) (start : Time) (w : W) :
  (forall i, 0 <= tr_took (trials i)) -> 0 < timeout ->
  exists w' calls r, dragonboatRetry (counted operation) trials timeout start (w, 0%nat) = Some ((w', calls), r) /\
    (Z.of_nat calls - 1) * 25000000 < timeout.
Proof.
  intros Ht Hp. destruct (dragonboatRetry_ends (counted operation) trials Ht timeout start (w, 0%nat)) as [[[w' n] r] E].
  exists w', n, r. split; [exact E|].
  destruct (dragonboatLoop_counts operation trials Ht _ _ _ _ _ _ _ _ _ E) as [-> |[_ Hb]]; unfold TimeAdd, Time in *; lia.
Qed.

(** ** Proposals of the service *)

Section Service.
  Context `{!RangeOrder, !OopsLibrary} (errorText : controlError -> string).
  Context (Htext : forall e, utf8 (errorText e)).

(** C22: a command of a service on raft is applied once or not at all.  When no
    attempt whose answer was lost has been applied, the call returns, and either
    it reports a failure and the replica has applied the entries of others only,
    or the command has been applied exactly once, after the entries of others,
    and the reply is that of the control state. *)
Theorem proposal_applied_once (env : serviceEnv) (c : Command) (svc : ControlService.ServiceRuntime) (raft : DragonboatRuntime) :
  sv_raft svc = Some raft -> command_sane c -> nothing_lost (se_raft env) ->
  (forall i, 0 <= tr_took (re_trials (se_raft env) i)) ->
  exists svc' r, svcApply errorText env c svc = Some (svc', r) /\ sv_raft svc' = Some raft /\
  ((exists n, sv_state svc' = applyEntries errorText (entriesBefore (se_raft env) n) (sv_state svc) /\ r = Err ErrRaftPropose) \/
   (exists n clock, at_fate (re_attempts (se_raft env) n) = Replied clock /\
      let before := applyEntries errorText (entriesBefore (se_raft env) (S n)) (sv_state svc) in
      sv_state svc' = (Apply c clock before).1 /\
      (state_wire before -> clock_wire clock -> routes_room before -> r = replyOf errorText c (Apply c clock before).2))).
Proof.
  intros Hr Hc Hl Ht. unfold svcApply. rewrite Hr.
  destruct (Propose_once errorText (dr_proposalTimeout raft) (se_raft env) c (sv_state svc) Htext Ht Hc Hl) as (s' & r & -> & Hp).
  exists (withState s' svc), r. split_and!; [done|done|exact Hp].
Qed.

(** ** Statuses *)





Ltac oops_status codes code :=
  unfold controlStateError, hasControlOopsCode, controlOopsCode; cbn [oopsCodes]; by rewrite (oops_deepest codes code).

Lemma notAvailableStatus : controlStateError ErrRaftNotAvailable = 503.
Proof. oops_status (@nil string) "control_raft_not_available". Qed.


Lemma operationStatus : controlStateError ErrRaftOperation = 503.
Proof. oops_status (@nil string) "control_raft_operation_failed". Qed.

Lemma nodeInvalidStatus : controlStateError ErrRaftNodeInvalid = 400.
Proof. oops_status (@nil string) "control_raft_node_invalid". Qed.

Lemma memberInvalidStatus : controlStateError (ErrRaftMemberInvalid ErrInvalidNode) = 400.
Proof. oops_status ["control_raft_member_invalid"] "invalid_node". Qed.

(** ** Failed requests *)







Lemma normalizeNodeAddr_kind a e : normalizeNodeAddr a = Err e -> e = ErrInvalidNode.
Proof.
  unfold normalizeNodeAddr, validateNodePort. repeat case_bool; try congruence.
  destruct (SplitHostPort _) as [[h port]|]; [|congruence]. repeat case_bool; try congruence.
  destruct (ParseInt port); [|congruence]. case_bool; congruence.
Qed.













(** ** Members of the raft cluster *)

(** A retried change has taken effect when it is answered, and may have taken
    effect when it is not. *)
Lemma change_retried change timeout env m : (forall i, 0 <= tr_took (me_trials env i)) ->
  exists m' r, operationResult (dragonboatRetry (fun i => changeTrial change (me_calls env i)) (me_trials env) timeout
    (me_start env) m) = Some (m', r) /\
  match r with
  | Ok _ => exists k, m' = change (Nat.iter k change m)
  | Err e => e = ErrRaftOperation /\ exists k, m' = Nat.iter k change m
  end.
Proof.
  intros Ht. set (op := fun i => changeTrial change (me_calls env i)).
  destruct (dragonboatRetry_ends op (me_trials env) Ht timeout (me_start env) m) as [[m' r] E]. rewrite E.
  unfold dragonboatRetry in E.
  apply (dragonboatLoop_rule op (me_trials env) (fun _ w => exists k, w = Nat.iter k change m)
    (fun w _ => exists k, w = change (Nat.iter k change m))) in E; [| | |by exists 0%nat].
  - destruct r as [[]|e]; eexists _, _; (split; [done|]); [done|]. destruct E as [_ E]. by split.
  - intros i w w' e [k ->]. unfold op, changeTrial, configChangeIndex, requestChange.
    destruct (mt_read _); [intros [= <- _]; by exists k|]. destruct (mt_request _) as [[[] e']|]; intros [= <- _]; [by exists (S k)|by exists k].
  - intros i w w' [] [k ->]. unfold op, changeTrial, configChangeIndex, requestChange.
    destruct (mt_read _); [done|]. destruct (mt_request _) as [[[] e']|]; intros [= <-]; by exists k.
Qed.

(** Everything the cluster lists. *)
Definition listed (m : membership) : gmap Z string := mb_witnesses m ∪ (mb_observers m ∪ mb_nodes m).

Lemma members_read timeout env m : (forall i, 0 <= tr_took (me_trials env i)) ->
  exists r, raftMembers timeout env m = Some (m, r) /\ match r with Ok l => l = listed m | Err e => e = ErrRaftOperation end.
Proof.
  intros Ht. unfold raftMembers. set (op := fun i m => match mt_read (me_calls env i) with Some e => (m, Err e) | None => _ end).
  destruct (dragonboatRetry_ends op (me_trials env) Ht timeout (me_start env) m) as [[m' r] E]. rewrite E.
  unfold dragonboatRetry in E.
  apply (dragonboatLoop_rule op (me_trials env) (fun _ w => w = m) (fun w l => w = m /\ l = listed m)) in E; [| | |done].
  - destruct r as [l|e]; [destruct E as [-> ->]|destruct E as [_ ->]]; by eexists.
  - intros i w w' e ->. unfold op. destruct (mt_read _); by intros [= <- _].
  - intros i w w' l ->. unfold op. destruct (mt_read _); by intros [= <- <-].
Qed.

(** A listing in the order of the node identifiers. *)
Definition lists_members (bodies : list RaftMemberBody) (m : membership) : Prop :=
  Sorted member_before bodies /\ NoDup (rmb_nodeID <$> bodies) /\
  forall id addr, mkMemberBody id addr ∈ bodies <-> listed m !! id = Some addr.

Lemma raftMemberBodies_lists m : lists_members (raftMemberBodies (listed m)) m.
Proof.
  unfold raftMemberBodies. set (l := (fun p => mkMemberBody p.1 p.2) <$> range_order (listed m)).
  pose proof (merge_sort_Permutation member_before l) as Hp. split_and!.
  - apply Sorted_merge_sort. intros x y. unfold member_before. lia.
  - rewrite Hp. subst l. rewrite <- list_fmap_compose. rewrite (range_perm (listed m)). apply NoDup_fst_map_to_list.
  - intros id addr. rewrite Hp. subst l. rewrite list_elem_of_fmap. split.
    + intros ([k a] & [= -> ->] & Hin). by rewrite (range_perm (listed m)), elem_of_map_to_list in Hin.
    + intros Hm. exists (id, addr). by rewrite (range_perm (listed m)), elem_of_map_to_list.
Qed.

(** What a successful request to the members promises. *)
Definition members_promise (request : raftRequest) (reply : controlResponse) (m : membership) : Prop :=
  match request, reply with
  | GetRaftMembers, MembersReply bodies => lists_members bodies m
  | PostRaftAdd id addr, MemberAddedReply member bodies =>
      rmb_nodeID member = id /\ lists_members bodies m /\ mb_nodes m !! id = Some (TrimSpace addr)
  | PostRaftRemove id, MemberRemovedReply id' bodies =>
      id' = id /\ lists_members bodies m /\ listed m !! id = None
  | _, _ => False
  end.

Lemma answerMembers_read reply env svc raft m : sv_raft svc = Some raft -> (forall i, 0 <= tr_took (me_trials env i)) ->
  exists r, answerMembers reply env svc (Some (m, Ok tt)) = Some (mkControl svc m, r) /\
  (r = Ok (reply (raftMemberBodies (listed m))) \/ r = Err 503).
Proof.
  intros Hr Ht. unfold answerMembers, RaftMembers. rewrite Hr. destruct (members_read (dr_proposalTimeout raft) env m Ht) as ([l|e] & -> & ->).
  - eexists. split; [done|by left].
  - eexists. split; [done|]. right. by rewrite operationStatus.
Qed.

Lemma answerMembers_error reply env svc m e : answerMembers reply env svc (Some (m, Err e)) =
  Some (mkControl svc m, Err (controlStateError e)).
Proof. done. Qed.

(** A change of the members, then the listing. *)
Lemma answerMembers_changed reply env change svc raft timeout f m (P : membership -> Prop) : sv_raft svc = Some raft ->
  (forall i, 0 <= tr_took (me_trials env i)) -> (forall i, 0 <= tr_took (me_trials change i)) -> (forall m, P (f m)) ->
  exists m' r, answerMembers reply env svc (operationResult (dragonboatRetry (fun i => changeTrial f (me_calls change i))
      (me_trials change) timeout (me_start change) m)) = Some (mkControl svc m', r) /\
  (r = Ok (reply (raftMemberBodies (listed m'))) /\ P m' \/ r = Err 503).
Proof.
  intros Hr Ht Hc HP. destruct (change_retried f timeout change m Hc) as (m' & r & -> & E). exists m'.
  destruct r as [[]|e].
  - destruct (answerMembers_read reply env svc raft m' Hr Ht) as (r & -> & [-> | ->]); eexists; (split; [done|]); [left|by right].
    destruct E as [k ->]. split; [done|apply HP].
  - destruct E as [-> _]. rewrite answerMembers_error, operationStatus. eexists. split; [done|by right].
Qed.

(** Requests to the members of the raft cluster.  Without raft they get 503.
    With raft they are answered: a request with the node 0 or a bad address gets
    400 and changes nothing; a success lists the members of the cluster, sorted
    and each once, among them the added one with its trimmed address, or without
    the removed one; any other failure is 503. *)
Theorem membership_requests (env : requestEnv) (request : raftRequest) (c : control) :
  (forall i, 0 <= tr_took (me_trials (rq_change env) i)) -> (forall i, 0 <= tr_took (me_trials (rq_read env) i)) ->
  exists c' r, handleControl errorText env (ToRaft request) c = Some (c', r) /\ ct_service c' = ct_service c /\
  match r with
  | Ok reply => is_Some (sv_raft (ct_service c)) /\ members_promise request reply (ct_members c')
  | Err status => status = 503 \/ status = 400 /\ c' = c
  end /\
  (sv_raft (ct_service c) = None -> c' = c /\ r = Err 503).
Proof.
  intros Hc Hr. destruct c as [svc m]. destruct (sv_raft svc) as [raft|] eqn:Er; cbn [ct_service ct_members]; rewrite ?Er.
  - enough (exists c' r, handleControl errorText env (ToRaft request) (mkControl svc m) = Some (c', r) /\ ct_service c' = svc /\
      match r with Ok reply => members_promise request reply (ct_members c') | Err status => status = 503 \/ status = 400 /\ c' = mkControl svc m end)
      as (c' & r & -> & Hs & H') by (exists c', r; split_and!; [done|done|destruct r; by split_and?|done]).
    destruct request as [|id addr|id]; cbn [handleControl handleRaft ct_service ct_members]; unfold AddRaftNode, RemoveRaftNode; rewrite ?Er.
    + destruct (answerMembers_read MembersReply (rq_read env) svc raft m Er Hr) as (r & -> & [-> | ->]);
        eexists _, _; split_and!; try done; [apply raftMemberBodies_lists|by left].
    + unfold raftAddNode. destruct (Z.eqb_spec id 0).
      { rewrite answerMembers_error, nodeInvalidStatus. eexists _, _. split_and!; [done|done|by right]. }
      destruct (normalizeNodeAddr (TrimSpace addr)) as [a|e] eqn:Ea.
      2: { rewrite answerMembers_error, (normalizeNodeAddr_kind _ _ Ea), memberInvalidStatus. eexists _, _. split_and!; [done|done|by right]. }
      destruct (answerMembers_changed (MemberAddedReply (mkMemberBody id addr)) (rq_read env) (rq_change env) svc raft
        (dr_proposalTimeout raft) (addMember id (TrimSpace addr)) m (fun m => mb_nodes m !! id = Some (TrimSpace addr)) Er Hr Hc)
        as (m' & r & -> & [[-> Hp]| ->]); [intros m'; apply lookup_insert_eq| |]; eexists _, _; (split_and!; [done|done|]);
        [by split_and!; [|apply raftMemberBodies_lists|]|by left].
    + unfold raftRemoveNode. destruct (Z.eqb_spec id 0).
      { rewrite answerMembers_error, nodeInvalidStatus. eexists _, _. split_and!; [done|done|by right]. }
      destruct (answerMembers_changed (MemberRemovedReply id) (rq_read env) (rq_change env) svc raft
        (dr_proposalTimeout raft) (deleteMember id) m (fun m => listed m !! id = None) Er Hr Hc)
        as (m' & r & -> & [[-> Hp]| ->]); [intros m'; unfold listed, deleteMember; cbn [mb_nodes mb_observers mb_witnesses]; rewrite !lookup_union, !lookup_delete_eq; done| |];
        eexists _, _; (split_and!; [done|done|]); [by split_and!; [|apply raftMemberBodies_lists|]|by left].
  - exists (mkControl svc m), (Err 503). split_and!; [|done|by left|done].
    destruct request; cbn [handleControl handleRaft ct_service ct_members]; unfold AddRaftNode, RemoveRaftNode, answerMembers, RaftMembers;
      by rewrite Er, notAvailableStatus.
Qed.

(** ** Starting and stopping *)

(** A configuration a replica can run with. *)
Record raft_complete (cfg : RaftConfig) : Prop := {
  rc_has_node : rc_nodeID cfg <> 0;
  rc_has_cluster : rc_clusterID cfg <> 0;
  rc_has_addr : normalizeNodeAddr (rc_addr cfg) = Ok (rc_addr cfg);
  rc_has_timeout : 0 < rc_proposalTimeout cfg;
  rc_has_snapshots : rc_snapshotEntries cfg <> 0 /\ rc_compactionOverhead cfg <> 0;
  rc_has_members : Forall (fun m => rm_nodeID m <> 0 /\ normalizeNodeAddr (rm_addr m) = Ok (rm_addr m)) (rc_members cfg)
}.

Lemma normalizeNodeAddr_trim a b : normalizeNodeAddr a = Ok b -> b = TrimSpace a.
Proof.
  unfold normalizeNodeAddr. repeat case_bool; try done. destruct (SplitHostPort _) as [[h port]|]; [|done].
  case_bool; [done|]. destruct (validateNodePort port); [done|]. by intros [= <-].
Qed.

Lemma normalizeNodeAddr_trimmed a b : normalizeNodeAddr (TrimSpace a) = Ok b -> normalizeNodeAddr (TrimSpace a) = Ok (TrimSpace a).
Proof. intros E. rewrite E. apply normalizeNodeAddr_trim in E. by rewrite E, TrimSpace_idem. Qed.

Lemma normalizeRaftMembers_ok l l' : normalizeRaftMembers l = (l', None) ->
  Forall (fun m => rm_nodeID m <> 0 /\ normalizeNodeAddr (rm_addr m) = Ok (rm_addr m)) l'.
Proof.
  revert l'. induction l as [|[id addr] l IH]; intros l'; cbn [normalizeRaftMembers rm_nodeID rm_addr]; [intros [= <-]; constructor|].
  destruct (Z.eqb_spec id 0); [done|]. destruct (normalizeNodeAddr (TrimSpace addr)) as [a|e] eqn:Ea; [|done].
  destruct (normalizeRaftMembers l) as [l1 err]. intros [= <- ->]. constructor; [|by apply IH]. cbn [rm_nodeID rm_addr].
  split; [done|]. by eapply normalizeNodeAddr_trimmed.
Qed.

Lemma normalizeRaftConfig_complete cfg cfg' : normalizeRaftConfig cfg = Ok cfg' -> raft_complete cfg'.
Proof.
  unfold normalizeRaftConfig, validateRaftSelfConfig. destruct (Z.eqb_spec (rc_nodeID (applyRaftConfigDefaults cfg)) 0); [done|].
  destruct (normalizeNodeAddr _) as [a|e] eqn:Ea; [|done].
  destruct (normalizeRaftMembers _) as [l [err|]] eqn:El; [done|]. intros [= <-].
  unfold applyRaftConfigDefaults in *. cbn [rc_addr rc_nodeID rc_members] in *.
  constructor; cbn [withMembers rc_nodeID rc_clusterID rc_addr rc_proposalTimeout rc_snapshotEntries rc_compactionOverhead rc_members].
  - done.
  - unfold defaultControlRaftClusterID. case_bool; lia.
  - case_bool; [reflexivity|]. by eapply normalizeNodeAddr_trimmed.
  - unfold defaultControlProposalWait, nsPerSecond. destruct (Z.leb_spec (rc_proposalTimeout cfg) 0); lia.
  - unfold defaultControlSnapshotEntries, defaultControlCompactionOverhead. split; case_bool; lia.
  - by eapply normalizeRaftMembers_ok.
Qed.

(** A new cluster has its founder among its members. *)
Lemma initialMembers_self cfg : rc_join cfg = false -> resolveRaftInitialMembers cfg false !! rc_nodeID cfg = Some (rc_addr cfg).
Proof. intros Hj. unfold resolveRaftInitialMembers. rewrite Hj. apply lookup_insert_eq. Qed.

Lemma clear_runtime svc raft : sv_raft svc = Some raft -> sv_raft (clearDragonboatRuntime raft svc) = None.
Proof. intros E. unfold clearDragonboatRuntime. by rewrite bool_decide_eq_true_2. Qed.

Lemma svcApply_raft env cmd svc svc' r : svcApply errorText env cmd svc = Some (svc', r) -> sv_raft svc' = sv_raft svc /\ sv_cfg svc' = sv_cfg svc.
Proof.
  unfold svcApply. destruct (sv_raft svc) as [raft|] eqn:Er.
  - destruct (Propose _ _ _ _ _) as [[s r']|]; [|done]. by intros [= <- <-].
  - destruct (Apply _ _ _) as [s r']. by intros [= <- <-].
Qed.

Lemma proposeBootstrapNodes_raft nodes : forall envs svc svc' err,
  proposeBootstrapNodes errorText nodes envs svc = Some (svc', err) -> sv_raft svc' = sv_raft svc.
Proof.
  induction nodes as [|node nodes IH]; intros [|env envs] svc svc' err; cbn [proposeBootstrapNodes]; try by intros [= <- <-].
  unfold svcRegisterNode, selectField. destruct (svcApply errorText env _ svc) as [[svc1 [r|e]]|] eqn:E; [| |done]; apply svcApply_raft in E as [E _].
  - cbn [fmap result_fmap]. intros Hp. rewrite <- E. by eapply IH.
  - by intros [= <- <-].
Qed.

Lemma proposeBootstrapNodes_error nodes : forall envs svc svc' e,
  proposeBootstrapNodes errorText nodes envs svc = Some (svc', Some e) -> e <> StartMembers.
Proof.
  induction nodes as [|node nodes IH]; intros [|env envs] svc svc' e; cbn [proposeBootstrapNodes]; try done.
  destruct (svcRegisterNode _ _ _ _ _) as [[svc1 [r|e']]|]; [by apply IH| |done]. by intros [= _ <-].
Qed.

(** Time passes forwards in the calls of an environment. *)
Definition raft_time (env : serviceEnv) : Prop := forall i, 0 <= tr_took (re_trials (se_raft env) i).

Lemma svcApply_ends env cmd svc : raft_time env -> is_Some (svcApply errorText env cmd svc).
Proof.
  intros Ht. unfold svcApply. destruct (sv_raft svc) as [raft|]; [|by destruct (Apply _ _ _)].
  unfold Propose, syncPropose.
  destruct (dragonboatRetry_ends (fun i => SyncPropose errorText (Marshal commandCodec cmd) (re_attempts (se_raft env) i))
    (re_trials (se_raft env)) Ht (dr_proposalTimeout raft) (re_start (se_raft env)) (sv_state svc)) as [[s [x|e]] ->]; [|done].
  destruct (decodeDragonboatApplyEnvelope _) as [en|]; [|done]. by destruct (en_error en).
Qed.

Lemma proposeBootstrapNodes_ends nodes : forall envs svc, (length nodes <= length envs)%nat -> Forall raft_time envs ->
  is_Some (proposeBootstrapNodes errorText nodes envs svc).
Proof.
  induction nodes as [|node nodes IH]; intros envs svc Hl Ht; [by destruct envs|]. destruct envs as [|env envs]; [cbn in Hl; lia|].
  apply Forall_cons in Ht as [Ht Hts]. cbn [proposeBootstrapNodes]. unfold svcRegisterNode, selectField.
  destruct (svcApply_ends env (nodeCommand CommandRegisterNode (rn_nodeID node) (rn_addr node) (nowUnix env)) svc Ht) as [[svc1 [r|e]] ->];
    [|done]. apply IH; [cbn in Hl; lia|done].
Qed.

Lemma WaitReady_ends raft env s : (forall i, 0 <= tr_took (me_trials env i)) -> is_Some (WaitReady raft env s).
Proof.
  intros Ht. unfold WaitReady.
  set (op := fun i (_ : unit) => match mt_read (me_calls env i) with Some e => (tt, Err e) | None => _ end).
  destruct (dragonboatRetry_ends op (me_trials env) Ht (dr_proposalTimeout raft) (me_start env) tt) as [[[] [x|e]] ->]; done.
Qed.

(** Why a new runtime fails, and what it is otherwise. *)
Lemma newDragonboatRuntime_cases env cfg s :
  match newDragonboatRuntime errorText env cfg s with
  | (s', Err e) => s' = s /\ e <> StartMembers
  | (s', Ok (raft, members, join)) => exists cfg', normalizeRaftConfig cfg = Ok cfg' /\
      dr_nodeID raft = rc_nodeID cfg' /\ dr_addr raft = rc_addr cfg' /\ dr_proposalTimeout raft = rc_proposalTimeout cfg' /\
      (members !! rc_nodeID cfg' = Some (rc_addr cfg') \/ join = true \/ st_readDir env = Some true)
  end.
Proof.
  unfold newDragonboatRuntime, resolveNodeHostDir, hasExistingDragonboatData.
  destruct (normalizeRaftConfig cfg) as [cfg'|e] eqn:En; [|by split].
  assert (forall dir : string, let hasData := st_readDir env in
    match hasData with
    | None => True
    | Some hasData => (negb hasData && negb (rc_join cfg' && negb hasData) && bool_decide (resolveRaftInitialMembers cfg' hasData = ∅) = false) /\
       (resolveRaftInitialMembers cfg' hasData !! rc_nodeID cfg' = Some (rc_addr cfg') \/ rc_join cfg' && negb hasData = true \/ hasData = true)
    end) as Hm.
  { intros _. cbn zeta. destruct (st_readDir env) as [[]|]; [split; [done|by do 2 right]| |done].
    destruct (rc_join cfg') eqn:Ej; [split; [done|by right; left]|]. pose proof (initialMembers_self cfg' Ej) as Hs.
    split; [|by left]. cbn. apply bool_decide_eq_false_2. intros E0. by rewrite E0 in Hs. }
  specialize (Hm ""). cbn zeta in Hm.
  destruct (if negb _ then _ else _) as [[dir tmp]|e] eqn:Ed.
  2: { split; [done|]. case_bool; [done|]. destruct (st_mkdirTemp env); congruence. }
  destruct (st_readDir env) as [hasData|]; [|done]. destruct (negb (st_newNodeHost env)); [done|].
  destruct Hm as [-> Hm]. destruct (negb (st_startCluster env)); [done|]. exists cfg'. split_and!; try done.
  destruct Hm as [?|[?| ->]]; [by left|by right; left|by do 2 right].
Qed.

(** C26: a start leaves a running replica or nothing.  Starting a service returns,
    and afterwards the service has a raft runtime exactly when a NodeHost runs and
    no error is reported; the runtime has a node identifier, a valid address and
    a positive timeout; initial members are never missing; a second start does
    nothing and a stop leaves no runtime. *)
Theorem start_leaves_runtime_or_nothing (env : startEnv) (svc : ControlService.ServiceRuntime) :
  sv_raft svc = None -> (forall i, 0 <= tr_took (me_trials (st_ready env) i)) -> Forall raft_time (st_bootstrap env) ->
  (length (cf_bootstrapNodes (sv_cfg svc)) <= length (st_bootstrap env))%nat ->
  exists svc' running err, StartDragonboat errorText env svc = Some (svc', running, err) /\
  match err with
  | None => running = true /\ (exists raft, sv_raft svc' = Some raft /\ dr_nodeID raft <> 0 /\ 0 < dr_proposalTimeout raft /\
        normalizeNodeAddr (dr_addr raft) = Ok (dr_addr raft)) /\
      (forall again, StartDragonboat errorText again svc' = Some (svc', true, None)) /\ sv_raft (StopDragonboat svc') = None
  | Some e => running = false /\ sv_raft svc' = None /\ e <> StartMembers
  end.
Proof.
  intros Hr Ht Htb Hlen. unfold StartDragonboat at 1. rewrite Hr. pose proof (newDragonboatRuntime_cases env (cf_raft (sv_cfg svc)) (sv_state svc)) as Hn.
  destruct (newDragonboatRuntime _ _ _ _) as [s [[[raft members] join]|e]].
  2: { destruct Hn as [-> He]. eexists _, _, _. by split_and!. }
  destruct Hn as (cfg & Hcfg%normalizeRaftConfig_complete & Hid & Haddr & Htime & _).
  destruct (WaitReady_ends raft (st_ready env) s Ht) as [[[]|e] ->]; [|eexists _, _, _; by split_and!].
  destruct (proposeBootstrapNodes_ends (cf_bootstrapNodes (sv_cfg svc)) (st_bootstrap env)
    (setDragonboatRuntime raft (withState s svc)) Hlen Htb) as [[svc' [e|]] Eb]; cbn [sv_cfg setDragonboatRuntime withState] in Eb |- *;
    rewrite Eb; pose proof (proposeBootstrapNodes_raft _ _ _ _ _ Eb) as Hraft; cbn [sv_raft setDragonboatRuntime withState] in Hraft.
  - eexists _, _, _. split; [done|]. split_and!; [done|by apply clear_runtime|by eapply proposeBootstrapNodes_error].
  - eexists _, _, _. split; [done|]. split_and!; [done| | |].
    + exists raft. destruct Hcfg. rewrite Hid, Haddr, Htime. by split_and!.
    + intros again. unfold StartDragonboat. by rewrite Hraft.
    + unfold StopDragonboat. rewrite Hraft. by apply clear_runtime.
Qed.

(** ** Liveness *)

Lemma normalizeLivenessConfig_ordered cfg : let cfg' := normalizeLivenessConfig cfg in
  0 < lc_sweepInterval cfg' /\ 0 < lc_suspectAfter cfg' <= lc_deadAfter cfg'.
Proof. unfold normalizeLivenessConfig, nsPerSecond, Duration in *. cbn. repeat case_bool; lia. Qed.

(** ** Snapshots *)

(** C24: a snapshot brings the state back.  For a state reached by commands, the file
    a service saves restores that very state into any service with the same
    configuration and an empty raft directory, and the stream a replica sends
    restores it into any other replica; a save that fails leaves the file it
    found, a missing file restores nothing, and raft data take precedence over
    the file. *)
Theorem snapshot_brings_state_back (id : string) (svc fresh : ControlService.ServiceRuntime) (file : option (list byte)) (t : ControlState) :
  utf8 id -> wire_reachable id (sv_state svc) -> sv_cfg fresh = sv_cfg svc -> TrimSpace (cf_snapshotPath (sv_cfg svc)) <> "" ->
  (exists raw, svcSaveSnapshot Written svc file = (Some raw, true) /\
     svcRestoreSnapshot (Some false) true (Some raw) fresh = (withState (sv_state svc) fresh, None)) /\
  (exists raw, saveRaftSnapshot false (sv_state svc) = Some raw /\ RecoverFromSnapshot false raw t = (sv_state svc, true)) /\
  (forall fate, fate <> Written -> svcSaveSnapshot fate svc file = (file, false)) /\
  (forall hasData, svcRestoreSnapshot (Some hasData) true None fresh = (fresh, None)) /\
  (TrimSpace (rc_nodeHostDir (cf_raft (sv_cfg svc))) <> "" -> forall readable, svcRestoreSnapshot (Some true) readable file fresh = (fresh, None)).
Proof.
  intros Hid Hreach Hcfg Hpath. destruct (wire_reachable_wire _ _ Hid Hreach) as [Hinv Hwire].
  destruct (snapshot_roundtrip _ (state_snapshot_wire _ Hwire)) as [Hfile Hraft].
  assert (bool_decide (TrimSpace (cf_snapshotPath (sv_cfg fresh)) = "") = false) as Hp by (rewrite Hcfg; by apply bool_decide_eq_false_2).
  unfold svcSaveSnapshot, svcRestoreSnapshot, saveRaftSnapshot, RecoverFromSnapshot. rewrite Hp, <- Hcfg, Hp. split_and!.
  - eexists. split; [done|]. unfold LoadSnapshotFile. cbn [negb]. rewrite Hfile, snapshot_restores by done. by case_bool.
  - eexists. split; [done|]. by rewrite Hraft, snapshot_restores.
  - by intros [].
  - intros []; by case_bool.
  - intros Hdir readable. by rewrite bool_decide_eq_false_2.
Qed.
End Service.

(** * Requests, run *)

From S2P Require Import ControlExamples.

#[local] Existing Instance canonical_order.

(** The last code, as the library documents it. *)
#[local] Program Instance last_code : OopsLibrary := {| oops_code := fun codes => List.last codes "" |}.
Next Obligation. intros codes code _. apply last_last. Qed.

Definition texts (e : controlError) : string := controlErrorCode e.

Lemma texts_utf8 e : utf8 (texts e).
Proof. destruct e; reflexivity. Qed.

(** ** A service *)

Definition trial1 : trial := mkTrial 1000000 25000000 false.

Definition raft0 : RaftConfig := mkRaftConfig "" " 10.0.0.1:7601 " 0 0 false [mkMember 2 "10.0.0.2:7601"] 0 0 0.

Definition config0 : Config :=
  mkConfig ":7700" "demo" [mkRegister "a" "a:7000"] (mkLiveness 0 0 0) (mkMigrationConfig false 0 0 0 0) "control.json" raft0.

Definition service0 : ControlService.ServiceRuntime := ControlService.NewServiceRuntime config0.

Definition runtime0 : DragonboatRuntime := mkRuntime 1 1 "10.0.0.1:7601" "/tmp/raft" "/tmp/raft" (5 * nsPerSecond).

Definition replica0 : ControlService.ServiceRuntime := setDragonboatRuntime runtime0 service0.

Definition noon : nat -> Time := fun _ => timeUnix 1700000000.

(** Every attempt is answered; or the first is not. *)
Definition answered : raftEnv := mkRaftEnv (timeUnix 1700000000) (fun _ => trial1) (fun _ => mkAttempt [] (Replied noon)).

Definition firstSilent (applied : option (nat -> Time)) : raftEnv :=
  mkRaftEnv (timeUnix 1700000000) (fun _ => trial1)
    (fun i => mkAttempt [] (match i with O => NoReply applied ErrTimeout | S _ => Replied noon end)).

Definition calling (env : raftEnv) : serviceEnv := mkServiceEnv (timeUnix 1700000000) noon env.

Lemma trial1_took i : 0 <= tr_took ((fun _ : nat => trial1) i).
Proof. discriminate. Qed.

(** ** Witnesses *)

Lemma retries_bounded_witness : exists w calls r,
  dragonboatRetry (counted (fun _ (w : unit) => (w, Err (A := unit) TempError))) (fun _ => trial1) 100000000 (timeUnix 0) (tt, 0%nat)
    = Some ((w, calls), r) /\ (Z.of_nat calls - 1) * 25000000 < 100000000.
Proof.
  apply (retries_bounded (fun _ (w : unit) => (w, Err (A := unit) TempError)) (fun _ => trial1) 100000000 (timeUnix 0) tt);
    [exact trial1_took|reflexivity].
Defined.

Definition createShop0 : Command := catalogCommand CommandCreateNamespace "shop" "" "".

Lemma createShop0_sane : command_sane createShop0.
Proof.
  unfold command_sane, command_wire. cbn. unfold is_s64, is_u64. split_and!; try lia; try reflexivity. discriminate.
Qed.

Lemma firstSilent_calm : nothing_lost (firstSilent None).
Proof. intros [|i] applied e; cbn; [by intros [= <- _]|done]. Qed.

Lemma proposal_applied_once_witness : exists svc' r,
  svcApply texts (calling (firstSilent None)) createShop0 replica0 = Some (svc', r) /\ sv_raft svc' = Some runtime0.
Proof.
  destruct (proposal_applied_once texts texts_utf8 (calling (firstSilent None)) createShop0 replica0 runtime0 eq_refl
    createShop0_sane firstSilent_calm trial1_took) as (svc' & r & E & Hr & _). exists svc', r. split; [exact E|exact Hr].
Defined.



Lemma noon_wire : clock_wire noon.
Proof. intros i. vm_compute. by split. Qed.

Lemma demo_wire : state_wire (NewControlState "demo") /\ routes_room (NewControlState "demo").
Proof. split; [by apply NewControlState_wire|vm_compute; reflexivity]. Qed.


Definition members0 : membership := mkMembership 1 {[1 := "10.0.0.1:7601"; 2 := "10.0.0.2:7601"]} ∅ ∅.

(** The first request for a change is not answered, the second is. *)
Definition memberCalls : memberEnv :=
  mkMemberEnv (timeUnix 1700000000) (fun _ => trial1)
    (fun i => mkMemberTrial None (match i with O => Some (true, ErrTimeout) | S _ => None end)).

Definition request0 : requestEnv := mkRequestEnv (calling answered) memberCalls memberCalls.



Lemma membership_requests_witness : exists c' r,
  handleControl texts request0 (ToRaft (PostRaftAdd 3 " 10.0.0.3:7601")) (mkControl replica0 members0) = Some (c', Ok r) /\
  members_promise (PostRaftAdd 3 " 10.0.0.3:7601") r (ct_members c').
Proof.
  destruct (membership_requests texts request0 (PostRaftAdd 3 " 10.0.0.3:7601") (mkControl replica0 members0) trial1_took trial1_took)
    as (c' & r & E & _ & Hr & _).
  assert (is_ok <$> (snd <$> handleControl texts request0 (ToRaft (PostRaftAdd 3 " 10.0.0.3:7601")) (mkControl replica0 members0)) = Some true)
    as Hok by (vm_compute; reflexivity).
  rewrite E in Hok. destruct r as [r|]; [|discriminate Hok]. exists c', r. split; [exact E|apply Hr].
Defined.

Definition starting : startEnv := mkStartEnv (Some "/tmp/raft") (Some false) true true [] memberCalls [calling answered].

Lemma start_leaves_runtime_or_nothing_witness : exists svc' raft,
  StartDragonboat texts starting service0 = Some (svc', true, None) /\ sv_raft svc' = Some raft /\
  dr_addr raft = "10.0.0.1:7601" /\ nb_addr <$> cs_nodes (sv_state svc') !! "a" = Some "a:7000".
Proof.
  destruct (start_leaves_runtime_or_nothing texts starting service0 eq_refl trial1_took) as (svc' & running & err & E & He).
  - repeat constructor. exact trial1_took.
  - cbn. lia.
  - assert ((fun x => (x.1.2, x.2, dr_addr <$> sv_raft x.1.1, nb_addr <$> cs_nodes (sv_state x.1.1) !! "a")) <$>
      StartDragonboat texts starting service0 = Some (true, None, Some "10.0.0.1:7601", Some "a:7000")) as Hc
      by (vm_compute; reflexivity).
    rewrite E in Hc. cbn in Hc. injection Hc as -> -> Hc Hn. destruct He as (_ & (raft & Hr & _) & _).
    exists svc', raft. split_and!; [exact E|exact Hr| |exact Hn]. rewrite Hr in Hc. by injection Hc.
Defined.

Definition after0 : ControlService.ServiceRuntime := withState (Apply createShop0 noon (NewControlState "demo")).1 service0.

Lemma after0_reachable : wire_reachable "demo" (sv_state after0).
Proof.
  apply (wr_apply "demo" (NewControlState "demo") createShop0 noon); [apply wr_new|by vm_compute|apply demo_wire|apply createShop0_sane|apply noon_wire].
Qed.

Lemma snapshot_brings_state_back_witness : exists raw,
  svcSaveSnapshot Written after0 None = (Some raw, true) /\
  svcRestoreSnapshot (Some false) true (Some raw) service0 = (withState (sv_state after0) service0, None).
Proof.
  apply (snapshot_brings_state_back "demo" after0 service0 None (NewControlState "x")); [reflexivity|exact after0_reachable|reflexivity|].
  vm_compute. discriminate.
Defined.

(** ** Findings *)

Definition versionOf (svc : ControlService.ServiceRuntime) : option Z := ns_version <$> cs_namespaces (sv_state svc) !! "shop".

Definition shopReplica : ControlService.ServiceRuntime := withState (sv_state after0) replica0.

(** A proposal whose first attempt is applied and times out is proposed again
    under the same session, which does not detect the repetition: one request bumps
    the version of a namespace twice. *)
Theorem lost_answer_applies_twice :
  (fun x => (versionOf x.1, is_ok x.2)) <$> svcBumpNamespaceVersion texts (calling (firstSilent None)) "shop" shopReplica = Some (Some 2, true) /\
  (fun x => (versionOf x.1, is_ok x.2)) <$> svcBumpNamespaceVersion texts (calling (firstSilent (Some noon))) "shop" shopReplica = Some (Some 3, true).
Proof. vm_compute. by split. Qed.

(** A sweep sends its thresholds in milliseconds: half a millisecond, which the
    configuration accepts, becomes zero, and a threshold of zero is not applied;
    a node that has been silent for a day stays healthy. *)
Theorem short_thresholds_are_lost :
  let cfg := normalizeLivenessConfig (mkLiveness 1000000 500000 500000) in
  let svc := withState (Apply (nodeCommand CommandRegisterNode "a" "a:7000" 1700000000) noon (NewControlState "demo")).1 service0 in
  lc_suspectAfter cfg = 500000 /\ lc_deadAfter cfg = 500000 /\
  (fun x => nb_state <$> cs_nodes (sv_state x.1) !! "a") <$>
    advanceLiveness texts (calling answered) (timeUnix 1700086400) (lc_suspectAfter cfg) (lc_deadAfter cfg) svc = Some (Some "healthy").
Proof. vm_compute. by split_and!. Qed.
