(* ===== verification/ControlHttp.v ===== *)
(** * Calls to the control plane over HTTP

    The JSON bodies of controlapi/types.go that the clients use, and the clients:
    node/control_client.go, client/control.go and frontend/control_client.go.  A
    request is a method, a target and a text; the exchange answers it, or does not.

    The server is the tables of routes the endpoints register, each with the handler's
    request and the JSON of its body.  Finding an entry of a table of routes, reading a
    body and writing one are the HTTP library's, for any table and any struct: the class
    [HttpLibrary] states what is relied on, and an instance that searches the table and
    uses encoding/json shows that it can hold.  Which handler a request of a client
    reaches, and with which values, follows from the tables and the codecs
    ([control_call_is_local]). *)

From S2P Require Import Prelude.
From S2P Require Import GoStrings.
From S2P Require Import GoJson.
From S2P Require Import GoJsonSpec.
From S2P Require Import GoJsonTypes.
From S2P Require Import ControlApi.
From S2P Require Import ControlRoutes.
From S2P Require Import Control.
From S2P Require Import ControlCodec.
From S2P Require Import ControlWire.
From S2P Require Import ControlRaft.
From S2P Require Import ControlService.
From S2P Require Import NodeAgent.
From S2P Require Import ControlEndpoints.

Local Open Scope Z_scope.
Local Open Scope nespa_scope.

(** ** Bodies *)

(** src: controlapi/types.go RouteReplicaBody *)
Definition replicaCodec : codec RouteReplicaBody :=
  structCodec
    [mkField "node_id" stringCodec never; mkField "addr" stringCodec never; mkField "weight" uint32Codec never]
    (fun r => (rr_nodeID r, (rr_addr r, (rr_weight r, tt))))
    (fun '(a, (b, (c, _))) => mkReplica a b c).

(** src: controlapi/types.go RouteBody *)
Definition routeCodec : codec RouteBody :=
  structCodec
    [mkField "namespace" stringCodec emptyString; mkField "space" stringCodec emptyString;
     mkField "vslot_start" uint32Codec never; mkField "vslot_end" uint32Codec never; mkField "node_id" stringCodec never;
     mkField "addr" stringCodec never; mkField "weight" uint32Codec never;
     mkField "replicas" (sliceCodec replicaCodec) emptySlice]
    (fun r => (rt_namespace r, (rt_space r, (rt_start r, (rt_end r, (rt_nodeID r, (rt_addr r, (rt_weight r,
       (rt_replicas r, tt)))))))))
    (fun '(a, (b, (c, (d, (e, (f, (g, (h, _)))))))) => mkRoute a b c d e f g h).

(** src: controlapi/types.go SnapshotBody *)
Definition snapshotBodyCodec : codec SnapshotBody :=
  structCodec
    [mkField "cluster_id" stringCodec never; mkField "revision" uint64Codec never; mkField "mode" stringCodec never;
     mkField "namespaces" (sliceCodec namespaceCodec) emptySlice; mkField "spaces" (sliceCodec spaceCodec) emptySlice;
     mkField "entities" (sliceCodec entityCodec) emptySlice; mkField "nodes" (sliceCodec nodeCodec) never;
     mkField "routes" (sliceCodec routeCodec) never]
    (fun s => (NodeAgent.sb_clusterID s, (NodeAgent.sb_revision s, (NodeAgent.sb_mode s, (sb_namespaces s, (sb_spaces s,
       (sb_entities s, (sb_nodes s, (sb_routes s, tt)))))))))
    (fun '(a, (b, (c, (d, (e, (f, (g, (h, _)))))))) => mkSnapshotBody a b c d e f g h).

(** The node's identity in the body of a request; [HeartbeatBody] is the same struct.
    src: controlapi/types.go RegisterNodeBody *)
Definition registerBodyCodec : codec (string * string) :=
  structCodec [mkField "node_id" stringCodec never; mkField "addr" stringCodec never]
    (fun b => (b.1, (b.2, tt))) (fun '(a, (b, _)) => (a, b)).

(** The revision and the node; [HeartbeatResponse] is the same struct.
    src: controlapi/types.go RegisterNodeResponse *)
Definition registerResponseCodec : codec (Z * NodeBody) :=
  structCodec [mkField "revision" uint64Codec never; mkField "node" nodeCodec never]
    (fun b => (b.1, (b.2, tt))) (fun '(a, (b, _)) => (a, b)).

(** [BumpNamespaceVersionBody] is the same struct.
    src: controlapi/types.go CreateNamespaceBody *)
Definition namespaceBodyCodec : codec string :=
  structCodec [mkField "namespace" stringCodec never] (fun n => (n, tt)) (fun '(n, _) => n).

(** [BumpSpaceVersionBody] is the same struct.
    src: controlapi/types.go CreateSpaceBody *)
Definition spaceBodyCodec : codec (string * string) :=
  structCodec [mkField "namespace" stringCodec never; mkField "space" stringCodec never]
    (fun b => (b.1, (b.2, tt))) (fun '(a, (b, _)) => (a, b)).

(** src: controlapi/types.go CreateEntityBody *)
Definition entityBodyCodec : codec (string * string * string) :=
  structCodec [mkField "namespace" stringCodec never; mkField "space" stringCodec never; mkField "entity" stringCodec never]
    (fun b => (b.1.1, (b.1.2, (b.2, tt)))) (fun '(a, (b, (c, _))) => (a, b, c)).

(** src: controlapi/types.go RemoveNodeBody *)
Definition removeNodeBodyCodec : codec string :=
  structCodec [mkField "node_id" stringCodec never] (fun n => (n, tt)) (fun '(n, _) => n).

(** [AddRaftMemberBody] is the same struct.
    src: controlapi/types.go RaftMemberBody *)
Definition memberCodec : codec RaftMemberBody :=
  structCodec [mkField "node_id" uint64Codec never; mkField "addr" stringCodec never]
    (fun m => (rmb_nodeID m, (rmb_addr m, tt))) (fun '(a, (b, _)) => mkMemberBody a b).

(** src: controlapi/types.go RemoveRaftMemberBody *)
Definition removeMemberBodyCodec : codec Z :=
  structCodec [mkField "node_id" uint64Codec never] (fun n => (n, tt)) (fun '(n, _) => n).

(** src: controlapi/types.go StateBody *)
Definition stateCodec : codec StateBody :=
  structCodec [mkField "cluster_id" stringCodec never; mkField "revision" uint64Codec never; mkField "mode" stringCodec never]
    (fun s => (sb_clusterID s, (sb_revision s, (sb_mode s, tt)))) (fun '(a, (b, (c, _))) => mkStateBody a b c).

(** src: controlapi/types.go RaftMembersBody *)
Definition membersCodec : codec (list RaftMemberBody) :=
  structCodec [mkField "members" (sliceCodec memberCodec) never] (fun m => (m, tt)) (fun '(m, _) => m).

(** src: controlapi/types.go AddRaftMemberResponse *)
Definition memberAddedCodec : codec (RaftMemberBody * list RaftMemberBody) :=
  structCodec [mkField "member" memberCodec never; mkField "members" (sliceCodec memberCodec) never]
    (fun b => (b.1, (b.2, tt))) (fun '(a, (b, _)) => (a, b)).

(** src: controlapi/types.go RemoveRaftMemberResponse *)
Definition memberRemovedCodec : codec (Z * list RaftMemberBody) :=
  structCodec [mkField "node_id" uint64Codec never; mkField "members" (sliceCodec memberCodec) never]
    (fun b => (b.1, (b.2, tt))) (fun '(a, (b, _)) => (a, b)).

(** ** Routes *)

(** What a handler reads from its request: nothing ([runtime.EmptyInput]), or a body. *)
Inductive routeInput :=
| EmptyInput (request : controlRequest)
| BodyInput {A : Type} (c : codec A) (request : A -> controlRequest).

Record httpRoute := mkHttpRoute { hr_method : string; hr_path : string; hr_input : routeInput }.

(** [httpx.MustGroupGet], [MustGroupPost] and [MustGroupPut]. *)
Definition MustGroupGet (path : string) (request : controlRequest) : httpRoute := mkHttpRoute "GET" path (EmptyInput request).
Definition MustGroupPost {A} (path : string) (c : codec A) (request : A -> controlRequest) : httpRoute :=
  mkHttpRoute "POST" path (BodyInput c request).
Definition MustGroupPut {A} (path : string) (c : codec A) (request : A -> controlRequest) : httpRoute :=
  mkHttpRoute "PUT" path (BodyInput c request).

(** src: control/endpoints.go Register 55-61 *)
Definition readRoutes : list httpRoute :=
  [MustGroupGet "/state" (ToRead GetState);
   MustGroupGet "/snapshot" (ToRead GetSnapshot);
   MustGroupGet "/rebalance/events" (ToRead GetRebalanceEvents);
   MustGroupGet "/rebalance/plans" (ToRead GetMigrationPlans)].

(** src: control/endpoints.go Register 85-95 *)
Definition catalogRoutes : list httpRoute :=
  [MustGroupGet "/namespaces" (ToCatalog GetNamespaces);
   MustGroupPost "/namespaces" namespaceBodyCodec (fun n => ToCatalog (PostNamespace n));
   MustGroupPost "/namespaces/version-bump" namespaceBodyCodec (fun n => ToCatalog (PostNamespaceBump n));
   MustGroupGet "/spaces" (ToCatalog GetSpaces);
   MustGroupPost "/spaces" spaceBodyCodec (fun b => ToCatalog (PostSpace b.1 b.2));
   MustGroupPost "/spaces/version-bump" spaceBodyCodec (fun b => ToCatalog (PostSpaceBump b.1 b.2));
   MustGroupGet "/entities" (ToCatalog GetEntities);
   MustGroupPost "/entities" entityBodyCodec (fun b => ToCatalog (PostEntity b.1.1 b.1.2 b.2))].

(** src: control/endpoints.go Register 170-176 *)
Definition nodeRoutes : list httpRoute :=
  [MustGroupGet "/nodes" (ToNode GetNodes);
   MustGroupPost "/nodes" registerBodyCodec (fun b => ToNode (PostNode b.1 b.2));
   MustGroupPost "/nodes/remove" removeNodeBodyCodec (fun n => ToNode (PostNodeRemove n));
   MustGroupPut "/nodes/heartbeat" registerBodyCodec (fun b => ToNode (PutHeartbeat b.1 b.2))].

(** src: control/endpoints.go Register 221-226 *)
Definition raftRoutes : list httpRoute :=
  [MustGroupGet "/raft/members" (ToRaft GetRaftMembers);
   MustGroupPost "/raft/members/add" memberCodec (fun b => ToRaft (PostRaftAdd (rmb_nodeID b) (rmb_addr b)));
   MustGroupPost "/raft/members/remove" removeMemberBodyCodec (fun n => ToRaft (PostRaftRemove n))].

(** src: control/endpoints.go controlEndpointSpec *)
Definition controlPrefix : string := "/v1/control".

(** The routes of a scope are registered below its prefix. *)
Definition scoped (prefix : string) (route : httpRoute) : httpRoute :=
  mkHttpRoute (hr_method route) (prefix +:+ hr_path route) (hr_input route).

(** The four endpoints, each with the prefix of its [EndpointSpec]. *)
Definition controlRoutes : list httpRoute :=
  scoped controlPrefix <$> (readRoutes ++ catalogRoutes ++ nodeRoutes ++ raftRoutes).

(** What a route is found by. *)
Definition routeKey (route : httpRoute) : string * string := (hr_method route, hr_path route).

(** ** Addresses *)

(** [strings.Contains]. *)
Fixpoint containsBytes (sub s : list byte) : bool :=
  bool_decide (take (length sub) s = sub) ||
  match s with [] => false | _ :: rest => containsBytes sub rest end.
Definition Contains (s sub : string) : bool := containsBytes (str_bytes sub) (str_bytes s).

(** [strings.TrimRight] with a cutset of one byte. *)
Definition trimRightByte (c : byte) (s : list byte) : list byte :=
  foldr (fun b rest => match rest with [] => if bool_decide (b = c) then [] else [b] | _ => b :: rest end) [] s.

(** The three clients have the same function.
    src: node/control_client.go normalizeBaseURL *)
Definition normalizeBaseURL (addr : string) : string :=
  let addr := TrimSpace addr in
  if bool_decide (addr = "") then ""
  else
    let addr := if negb (Contains addr "://") then "http://" +:+ addr else addr in
    bytes_str (trimRightByte (byte_of_Z 47) (str_bytes addr)).

(** src: client/control.go normalizeControlBaseURL *)
Definition normalizeControlBaseURL (addr : string) : string := normalizeBaseURL addr.

(** src: frontend/address.go normalizeBaseURL *)
Definition frontendBaseURL (addr : string) : string := normalizeBaseURL addr.

(** src: frontend/control_client.go hasAddress *)
Definition hasAddress (addr : string) : bool := negb (bool_decide (TrimSpace addr = "")).

(** ** Exchanges *)

(** An answer: reading its body or closing it may fail. *)
Record httpResponse := mkResponse { hr_status : Z; hr_body : list byte; hr_readable : bool; hr_closes : bool }.

(** A request that cannot be built, one that is not answered, and one that is. *)
Inductive httpFate := InvalidTarget | NotAnswered | Responded (response : httpResponse).

(** [httpx.NewError] with its status. *)
Inductive httpError :=
| InvalidRequest
| RequestFailed
| StatusRefused (status : Z) (text : string)
| StatusUnread (status : Z)
| ResponseUndecoded
| CloseFailed.

(** src: node/control_client.go closeResponseBody *)
Definition closeResponseBody {A} (closes : bool) (r : result httpError A) : result httpError A :=
  match r with
  | Ok a => if closes then Ok a else Err CloseFailed
  | Err e => Err e
  end.

Definition success (status : Z) : bool := (200 <=? status) && (status <? 300).

Section Decode.
  Context {A : Type} (c : codec A).

(** The part both calls of the node's client share.
    src: node/control_client.go controlGetJSON *)
Definition readJSON (fate : httpFate) : result httpError A :=
  match fate with
  | InvalidTarget => Err InvalidRequest
  | NotAnswered => Err RequestFailed
  | Responded r =>
      closeResponseBody (hr_closes r)
        (if negb (success (hr_status r)) then
           if hr_readable r then Err (StatusRefused (hr_status r) (TrimSpace (bytes_str (take 4096 (hr_body r)))))
           else Err (StatusUnread (hr_status r))
         else if negb (hr_readable r) then Err ResponseUndecoded
         else match GoJson.Decode c (hr_body r) with Some a => Ok a | None => Err ResponseUndecoded end)
  end.

(** A client that does not read the text of a refusal.
    src: frontend/control_client.go Snapshot *)
Definition readSnapshot (fate : httpFate) : result httpError A :=
  match fate with
  | InvalidTarget => Err InvalidRequest
  | NotAnswered => Err RequestFailed
  | Responded r =>
      closeResponseBody (hr_closes r)
        (if negb (success (hr_status r)) then Err (StatusRefused (hr_status r) "")
         else if negb (hr_readable r) then Err ResponseUndecoded
         else match GoJson.Decode c (hr_body r) with Some a => Ok a | None => Err ResponseUndecoded end)
  end.
End Decode.

(** The world a request goes to. *)
Definition exchange (W : Type) : Type := string -> string -> list byte -> W -> W * httpFate.

Section Clients.
  Context {W : Type} (ex : exchange W).

(** src: node/control_client.go controlDoJSON *)
Definition controlDoJSON {A B} (ca : codec A) (cb : codec B) (method target : string) (body : B) (w : W) : W * result httpError A :=
  let '(w, fate) := ex method target (Marshal cb body) w in (w, readJSON ca fate).

Definition controlGetJSON {A} (ca : codec A) (target : string) (w : W) : W * result httpError A :=
  let '(w, fate) := ex "GET" target [] w in (w, readJSON ca fate).

(** src: node/control_client.go RegisterNode *)
Definition clientRegisterNode (addr : string) (body : string * string) (w : W) : W * result httpError (Z * NodeBody) :=
  controlDoJSON registerResponseCodec registerBodyCodec "POST" (normalizeBaseURL addr +:+ "/v1/control/nodes") body w.

(** src: node/control_client.go Heartbeat *)
Definition clientHeartbeat (addr : string) (body : string * string) (w : W) : W * result httpError (Z * NodeBody) :=
  controlDoJSON registerResponseCodec registerBodyCodec "PUT" (normalizeBaseURL addr +:+ "/v1/control/nodes/heartbeat") body w.

(** src: node/control_client.go Snapshot *)
Definition nodeSnapshot (addr : string) (w : W) : W * result httpError SnapshotBody :=
  controlGetJSON snapshotBodyCodec (normalizeBaseURL addr +:+ "/v1/control/snapshot") w.

(** A client without an address is not made.
    src: client/control.go newControlSnapshotClient *)
Definition newControlSnapshotClient (addr : string) : option string :=
  let baseURL := normalizeControlBaseURL addr in
  if bool_decide (baseURL = "") then None else Some baseURL.

(** src: client/control.go Snapshot *)
Definition routedSnapshot (baseURL : string) (w : W) : W * result httpError SnapshotBody :=
  let '(w, fate) := ex "GET" (baseURL +:+ "/v1/control/snapshot") [] w in (w, readSnapshot snapshotBodyCodec fate).

(** src: frontend/control_client.go Snapshot *)
Definition frontendSnapshot (addr : string) (w : W) : W * result httpError SnapshotBody :=
  let '(w, fate) := ex "GET" (frontendBaseURL addr +:+ "/v1/control/snapshot") [] w in (w, readSnapshot snapshotBodyCodec fate).
End Clients.

(** ** What a snapshot carries *)

Definition replica_wire (r : RouteReplicaBody) : Prop := utf8 (rr_nodeID r) /\ utf8 (rr_addr r) /\ is_u32 (rr_weight r).

Definition routeBody_wire (r : RouteBody) : Prop :=
  utf8 (rt_namespace r) /\ utf8 (rt_space r) /\ is_u32 (rt_start r) /\ is_u32 (rt_end r) /\ utf8 (rt_nodeID r) /\
  utf8 (rt_addr r) /\ is_u32 (rt_weight r) /\ Forall replica_wire (rt_replicas r).

Definition snapshotBody_wire (s : SnapshotBody) : Prop :=
  utf8 (NodeAgent.sb_clusterID s) /\ is_u64 (NodeAgent.sb_revision s) /\ utf8 (NodeAgent.sb_mode s) /\
  Forall namespace_wire (sb_namespaces s) /\ Forall space_wire (sb_spaces s) /\ Forall entity_wire (sb_entities s) /\
  Forall node_wire (sb_nodes s) /\ Forall routeBody_wire (sb_routes s).

Lemma replica_lawful n : lawful replicaCodec (S n) replica_wire.
Proof. struct_codec. Qed.
#[local] Hint Resolve replica_lawful : codec.

Lemma route_lawful n : lawful routeCodec (S (S (S n))) routeBody_wire.
Proof. struct_codec. Qed.
#[local] Hint Resolve route_lawful : codec.

Lemma snapshotBody_lawful n : lawful snapshotBodyCodec (S (S (S (S (S n))))) snapshotBody_wire.
Proof. struct_codec. Qed.

Definition pair_wire (b : string * string) : Prop := utf8 b.1 /\ utf8 b.2.

Lemma registerBody_lawful n : lawful registerBodyCodec (S n) pair_wire.
Proof. struct_codec. Qed.

Definition reply_wire (r : Z * NodeBody) : Prop := is_u64 r.1 /\ node_wire r.2.

Lemma registerResponse_lawful n : lawful registerResponseCodec (S (S n)) reply_wire.
Proof. struct_codec. Qed.

(** A codec whose values nest as little as the bodies do. *)
Lemma body_decodes {A} (c : codec A) n ok a : lawful c n ok -> (n <= 10)%nat -> ok a -> GoJson.Decode c (GoJson.Encode c a) = Some a.
Proof. intros Hc Hn. apply Decode_Encode, (lawful_le _ n); [by apply nesting_room|done]. Qed.

Lemma body_unmarshals {A} (c : codec A) n ok a : lawful c n ok -> (n <= 10)%nat -> ok a -> Unmarshal c (Marshal c a) = Some a.
Proof. intros Hc Hn. apply Unmarshal_Marshal, (lawful_le _ n); [by apply nesting_room|done]. Qed.

(** *** Routes *)

Lemma nth_wire (P : NodeBody -> Prop) nodes i : Forall P nodes -> P zeroNode -> P (nth i nodes zeroNode).
Proof. intros HP Hz. revert i. induction HP as [|n nodes Hn _ IH]; intros [|i]; cbn; auto. Qed.

Lemma routesForSpace_body healthy space : Forall node_wire healthy -> utf8 (sp_namespace space) -> utf8 (sp_space space) ->
  Forall routeBody_wire (routesForSpace healthy space).
Proof.
  intros Hh H3 H4. apply Forall_forall. unfold routesForSpace. intros r (i & n & -> & Hi)%elem_of_lookup_imap_1.
  pose proof (proj1 (Forall_lookup _ _) Hh i n Hi) as (H1 & H2 & _). unfold vslotRange, routeBody_wire. cbn.
  split_and!; try done; try apply checkedVSlot_u32. unfold routeReplicas. apply Forall_fmap, Forall_true. intros offset.
  unfold compose, replica_wire. cbn [rr_nodeID rr_addr rr_weight].
  destruct (nth_wire node_wire healthy (Z.to_nat ((Z.of_nat i + Z.of_nat offset) mod zlen healthy)) Hh) as (? & ? & _); done.
Qed.

Section Routes.
  Context `{!RangeOrder}.

Lemma base_routes_body s : state_wire s -> Forall routeBody_wire (routesForNodes (sortedNodes s) (sortedSpaces s)).
Proof.
  intros Hs. pose proof (sw_nodes s Hs) as Hn. pose proof (sw_spaces s Hs) as Hp.
  apply (sorted_wire _ (by_key nb_nodeID)) in Hn. apply (sorted_wire _ space_before) in Hp.
  fold (sortedNodes s) in Hn. fold (sortedSpaces s) in Hp. unfold routesForNodes.
  assert (Forall node_wire (healthyNodes (sortedNodes s))) as Hh.
  { rewrite Forall_forall in *. intros n [_ Hin]%list_elem_of_filter. by apply Hn. }
  destruct (healthyNodes _) as [|x h] eqn:E; [constructor|]. rewrite <- E in *.
  destruct (sortedSpaces s) as [|sp sps]; [by apply routesForSpace_body|].
  apply Forall_forall. intros r (y & Hr & Hy)%list_elem_of_bind. rewrite Forall_forall in Hp.
  destruct (Hp y Hy) as (? & ? & _). pose proof (routesForSpace_body _ y Hh) as Hw. rewrite Forall_forall in Hw. by apply Hw.
Qed.

Lemma segment_body routes route start stop : Forall routeBody_wire routes -> routeBody_wire route -> is_u32 start -> is_u32 stop ->
  Forall routeBody_wire (appendRouteSegment routes route start stop).
Proof.
  intros Hr (H1 & H2 & H3 & H4 & H5 & H6 & H7 & H8) Hs Ht. unfold appendRouteSegment. case_bool; [done|].
  apply Forall_app_2; [done|]. apply Forall_singleton. by split_and!.
Qed.

Lemma override_body routes task : Forall routeBody_wire routes -> task_wire task -> Forall routeBody_wire (overrideRouteRange routes task).
Proof.
  intros Hr Ht. unfold overrideRouteRange. assert (Forall routeBody_wire []) as Hout by constructor. revert Hout.
  generalize (@nil RouteBody) as out. induction Hr as [|route routes Hroute _ IH]; intros out Hout; [done|]. cbn [foldl]. apply IH.
  destruct Ht as (_ & _ & _ & T1 & T2 & T3 & T4 & T5 & T6 & _). pose proof Hroute as (R1 & R2 & R3 & R4 & _).
  assert (routeBody_wire (sourceRouteForTask task)) as Hsource by (by split_and!).
  assert (is_u32 (maxUint32 (rt_start route) (mt_start task)) /\ is_u32 (minUint32 (rt_end route) (mt_end task))) as [Hmax Hmin]
    by (unfold maxUint32, minUint32; split; by case_bool).
  unfold overrideOne, taskRouteOverlap. case_bool; [apply Forall_app_2; [done|by apply Forall_singleton]|].
  case_bool; [|apply Forall_app_2; [done|by apply Forall_singleton]].
  repeat case_bool; repeat apply segment_body; try done; apply u32_range.
Qed.

Lemma effectiveRoutes_body s : state_wire s -> Forall routeBody_wire (effectiveRoutes s).
Proof.
  intros Hs. unfold effectiveRoutes, applyMigrationRouteOverrides, sortRoutes. rewrite merge_sort_Permutation.
  pose proof (base_routes_body s Hs) as Hr. revert Hr. generalize (routesForNodes (sortedNodes s) (sortedSpaces s)) as routes.
  induction (sw_plans s Hs) as [|plan plans (_ & _ & _ & _ & _ & Hplan) _ IH]; intros routes Hr; [done|]. cbn [foldl]. apply IH.
  revert routes Hr. induction Hplan as [|task tasks Ht _ IHt]; intros routes Hr; [done|]. cbn [foldl]. apply IHt.
  case_bool; [by apply override_body|done].
Qed.

Lemma snapshot_body_wire s : state_wire s -> snapshotBody_wire (SnapshotOf s).
Proof.
  intros Hs. unfold snapshotBody_wire, SnapshotOf. cbn. split_and!; try apply Hs; try done; try apply effectiveRoutes_body; try done.
  - apply sorted_wire, Hs.
  - apply sorted_wire, Hs.
  - apply sorted_wire, Hs.
  - apply sorted_wire, Hs.
Qed.
End Routes.

(** ** The HTTP library *)

(** A path of letters, digits, dashes and slashes: it has no parameters. *)
Definition plainByte (b : byte) : bool :=
  let z := byte_Z b in
  ((97 <=? z) && (z <=? 122)) || ((65 <=? z) && (z <=? 90)) || ((48 <=? z) && (z <=? 57)) || (z =? 45) || (z =? 47).
Definition plainPath (path : string) : bool := forallb plainByte (str_bytes path).

(** What httpx does with a table of routes, a body and an answer: the position of the
    route of a method and a path, or the status of the refusal; the value of a body of a
    struct, or the status of the refusal; the text of a struct; and the text that goes
    with an error status. *)
Class HttpLibrary := {
  hl_dispatch : list (string * string) -> string -> string -> result Z nat;
  hl_read : forall {A}, codec A -> list byte -> result Z A;
  hl_write : forall {A}, codec A -> A -> list byte;
  hl_refusal : Z -> list byte
}.

(** A request whose method and path are registered, once, in a table of plain paths goes
    to that entry.  The text encoding/json writes for a value that survives it is read as
    that value; and a value that survives encoding/json survives the library's writer (it
    may add fields of its own or escape less). *)
Class HttpLaws `{!HttpLibrary} := {
  hl_dispatch_registered (routes : list (string * string)) i method path :
    NoDup routes -> forallb (fun r => plainPath r.2) routes = true -> routes !! i = Some (method, path) ->
    hl_dispatch routes method path = Ok i;
  hl_read_json {A} (c : codec A) a : Unmarshal c (Marshal c a) = Some a -> hl_read c (Marshal c a) = Ok a;
  hl_write_json {A} (c : codec A) a :
    GoJson.Decode c (GoJson.Encode c a) = Some a -> GoJson.Decode c (hl_write c a) = Some a
}.

Section Server.
  Context `{!RangeOrder, !OopsLibrary, !HttpLibrary} (errorText : controlError -> string).

(** The request a handler is called with: the entry of the table, and its body. *)
Definition receive (routes : list httpRoute) (method path : string) (body : list byte) : result Z controlRequest :=
  match hl_dispatch (routeKey <$> routes) method path with
  | Err status => Err status
  | Ok i =>
      match hr_input <$> routes !! i with
      | None => Err 404
      | Some (EmptyInput request) => Ok request
      | Some (BodyInput c request) => match hl_read c body with Ok a => Ok (request a) | Err status => Err status end
      end
  end.

(** [runtime.JSON] of the struct each handler answers with. *)
Definition writeReply (reply : controlResponse) : list byte :=
  match reply with
  | StateReply body => hl_write stateCodec body
  | SnapshotReply body => hl_write snapshotBodyCodec body
  | EventsReply revision events => hl_write (responseCodec "events" (sliceCodec eventCodec)) (revision, events)
  | PlansReply revision plans => hl_write (responseCodec "plans" (sliceCodec planCodec)) (revision, plans)
  | NamespacesReply revision l => hl_write (responseCodec "namespaces" (sliceCodec namespaceCodec)) (revision, l)
  | NamespaceReply revision n => hl_write (responseCodec "namespace" namespaceCodec) (revision, n)
  | SpacesReply revision l => hl_write (responseCodec "spaces" (sliceCodec spaceCodec)) (revision, l)
  | SpaceReply revision sp => hl_write (responseCodec "space" spaceCodec) (revision, sp)
  | EntitiesReply revision l => hl_write (responseCodec "entities" (sliceCodec entityCodec)) (revision, l)
  | EntityReply revision e => hl_write (responseCodec "entity" entityCodec) (revision, e)
  | NodesReply revision l => hl_write (responseCodec "nodes" (sliceCodec nodeCodec)) (revision, l)
  | NodeReply revision node => hl_write registerResponseCodec (revision, node)
  | MembersReply members => hl_write membersCodec members
  | MemberAddedReply member members => hl_write memberAddedCodec (member, members)
  | MemberRemovedReply nodeID members => hl_write memberRemovedCodec (nodeID, members)
  end.

(** The path of a target below the address of the server. *)
Definition pathAt (base target : string) : option string :=
  let b := str_bytes base in
  let t := str_bytes target in
  if bool_decide (take (length b) t = b) then Some (bytes_str (drop (length b) t)) else None.

(** The server at [base]: a handled request is answered and the answer arrives. *)
Definition serveHttp (env : requestEnv) (base : string) : exchange control := fun method target body c =>
  match pathAt base target with
  | None => (c, NotAnswered)
  | Some path =>
      match receive controlRoutes method path body with
      | Err status => (c, Responded (mkResponse status (hl_refusal status) true true))
      | Ok request =>
          match handleControl errorText env request c with
          | None => (c, NotAnswered)
          | Some (c, Ok reply) => (c, Responded (mkResponse 200 (writeReply reply) true true))
          | Some (c, Err status) => (c, Responded (mkResponse status (hl_refusal status) true true))
          end
      end
  end.

(** Registering with the control plane and fetching the routes when they are newer.
    src: node/service.go registerWithControl *)
Definition registerOverHttp {W} (ex : exchange W) (addr : string) (s : NodeAgent.ServiceRuntime) (w : W)
    : W * NodeAgent.ServiceRuntime :=
  match clientRegisterNode ex addr (nc_nodeID (sr_cfg s), nc_addr (sr_cfg s)) w with
  | (w, Err _) => (w, registerWithControl None None s)
  | (w, Ok (revision, _)) =>
      if revision <=? NodeRouteEpoch s then (w, registerWithControl (Some revision) None s)
      else
        match nodeSnapshot ex addr w with
        | (w, Ok snapshot) => (w, registerWithControl (Some revision) (Some snapshot) s)
        | (w, Err _) => (w, registerWithControl (Some revision) None s)
        end
  end.

(** What a client makes of the answer of a handler. *)
Definition remoteReply (r : result Z controlResponse) : result httpError (Z * NodeBody) :=
  match r with
  | Ok (NodeReply revision node) => Ok (revision, node)
  | Ok _ => Err ResponseUndecoded
  | Err status => Err (StatusRefused status (TrimSpace (bytes_str (take 4096 (hl_refusal status)))))
  end.

(** Answers of the node handlers: a reply that JSON carries, or an error status. *)
Definition node_answer (r : result Z controlResponse) : Prop :=
  match r with
  | Ok (NodeReply revision node) => reply_wire (revision, node)
  | Ok _ => False
  | Err status => success status = false
  end.

Context `{!HttpLaws}.

Lemma controlRoutes_distinct : NoDup (routeKey <$> controlRoutes).
Proof. apply (bool_decide_unpack _). vm_compute. exact I. Qed.

Lemma registered_at i route : controlRoutes !! i = Some route -> In route controlRoutes.
Proof. intros Hi. apply list_elem_of_In. by eapply list_elem_of_lookup_2. Qed.

(** A request that a client sends to a registered route reaches its handler. *)
Lemma receive_empty method path request body :
  In (mkHttpRoute method path (EmptyInput request)) controlRoutes -> receive controlRoutes method path body = Ok request.
Proof.
  intros (i & Hi)%list_elem_of_In%list_elem_of_lookup. unfold receive.
  rewrite (hl_dispatch_registered _ i); [by rewrite Hi|apply controlRoutes_distinct|done|by rewrite list_lookup_fmap, Hi].
Qed.

Lemma receive_body {A} method path (c : codec A) request a :
  In (mkHttpRoute method path (BodyInput c request)) controlRoutes -> Unmarshal c (Marshal c a) = Some a ->
  receive controlRoutes method path (Marshal c a) = Ok (request a).
Proof.
  intros (i & Hi)%list_elem_of_In%list_elem_of_lookup Hu. unfold receive.
  rewrite (hl_dispatch_registered _ i); [|apply controlRoutes_distinct|done|by rewrite list_lookup_fmap, Hi].
  rewrite Hi. cbn. by rewrite hl_read_json.
Qed.

Lemma str_bytes_app s t : str_bytes (s +:+ t) = str_bytes s ++ str_bytes t.
Proof.
  induction s as [|a s IH]; [done|].
  change (str_bytes (String a s +:+ t)) with (Ascii.byte_of_ascii a :: str_bytes (s +:+ t)). by rewrite IH.
Qed.

Lemma pathAt_app base path : pathAt base (base +:+ path) = Some path.
Proof.
  unfold pathAt. rewrite str_bytes_app, take_app_length, drop_app_length, bool_decide_eq_true_2 by done.
  by rewrite bytes_str_bytes.
Qed.

Lemma node_text revision node : reply_wire (revision, node) ->
  GoJson.Decode registerResponseCodec (writeReply (NodeReply revision node)) = Some (revision, node).
Proof. intros Hb. apply hl_write_json, (body_decodes _ 2 reply_wire); [apply registerResponse_lawful|lia|done]. Qed.

Lemma snapshot_text body : snapshotBody_wire body ->
  GoJson.Decode snapshotBodyCodec (writeReply (SnapshotReply body)) = Some body.
Proof. intros Hb. apply hl_write_json, (body_decodes _ 5 snapshotBody_wire); [apply snapshotBody_lawful|lia|done]. Qed.

(** What the client of the node makes of an answer of the node handlers. *)
Lemma answer_read c r : node_answer r ->
  (c, readJSON registerResponseCodec
    (match r with
     | Ok reply => Responded (mkResponse 200 (writeReply reply) true true)
     | Err status => Responded (mkResponse status (hl_refusal status) true true)
     end)) = (c : control, remoteReply r).
Proof.
  destruct r as [[]|status]; try done; cbn [node_answer]; intros Hr.
  - cbn -[writeReply]. by rewrite node_text.
  - cbn [readJSON hr_status hr_closes]. by rewrite Hr.
Qed.

(** A body of two strings sent to a route of the table, answered by a node handler. *)
Lemma node_call env addr method path (request : string * string -> nodeRequest) b c c' r :
  In (mkHttpRoute method path (BodyInput registerBodyCodec (fun b => ToNode (request b)))) controlRoutes ->
  pair_wire b -> handleNode errorText (rq_call env) (request b) c = Some (c', r) -> node_answer r ->
  controlDoJSON (serveHttp env (normalizeBaseURL addr)) registerResponseCodec registerBodyCodec method
    (normalizeBaseURL addr +:+ path) b c = (c', remoteReply r).
Proof.
  intros Hin Hw Hh Hr. unfold controlDoJSON, serveHttp. rewrite pathAt_app, (receive_body _ _ _ _ _ Hin).
  - cbn [handleControl]. rewrite Hh. rewrite <- (answer_read c' r Hr). by destruct r.
  - apply (body_unmarshals _ 1 pair_wire); [apply registerBody_lawful|lia|done].
Qed.

Lemma register_call env addr id a c c' r : pair_wire (id, a) ->
  handleNode errorText (rq_call env) (PostNode id a) c = Some (c', r) -> node_answer r ->
  clientRegisterNode (serveHttp env (normalizeBaseURL addr)) addr (id, a) c = (c', remoteReply r).
Proof. intros. apply (node_call _ _ _ _ (fun b => PostNode b.1 b.2)); [by apply (registered_at 13)|done..]. Qed.

Lemma heartbeat_call env addr id a c c' r : pair_wire (id, a) ->
  handleNode errorText (rq_call env) (PutHeartbeat id a) c = Some (c', r) -> node_answer r ->
  clientHeartbeat (serveHttp env (normalizeBaseURL addr)) addr (id, a) c = (c', remoteReply r).
Proof. intros. apply (node_call _ _ _ _ (fun b => PutHeartbeat b.1 b.2)); [by apply (registered_at 15)|done..]. Qed.

(** The three clients of the snapshot read the state's snapshot. *)
Lemma snapshot_calls env addr c (s := sv_state (ct_service c)) : state_wire s ->
  let ex := serveHttp env (normalizeBaseURL addr) in
  nodeSnapshot ex addr c = (c, Ok (SnapshotOf s)) /\ frontendSnapshot ex addr c = (c, Ok (SnapshotOf s)) /\
  (forall base, newControlSnapshotClient addr = Some base -> routedSnapshot ex base c = (c, Ok (SnapshotOf s))).
Proof.
  intros Hs ex.
  assert (ex "GET" (normalizeBaseURL addr +:+ "/v1/control/snapshot") [] c =
    (c, Responded (mkResponse 200 (writeReply (SnapshotReply (SnapshotOf s))) true true))) as E.
  { unfold ex, serveHttp. rewrite pathAt_app, (receive_empty _ _ (ToRead GetSnapshot)); [done|]. by apply (registered_at 1). }
  pose proof (snapshot_text _ (snapshot_body_wire s Hs)) as Hd. split_and!.
  - unfold nodeSnapshot, controlGetJSON. rewrite E. cbn -[writeReply]. by rewrite Hd.
  - unfold frontendSnapshot. change (frontendBaseURL addr) with (normalizeBaseURL addr). rewrite E. cbn -[writeReply]. by rewrite Hd.
  - intros base Hb. assert (base = normalizeBaseURL addr) as ->.
    { unfold newControlSnapshotClient in Hb. case_bool; [done|]. by injection Hb as <-. }
    unfold routedSnapshot. rewrite E. cbn -[writeReply]. by rewrite Hd.
Qed.

(** C27: a call over HTTP is a call of the handler: registering a node and sending its
    heartbeat reach the handlers that the endpoints register under their method and path,
    with the values of the body, change the control plane as those handlers do and return
    their revision and node, or their status; and a node that registers and learns of
    newer routes ends with exactly the snapshot of the control plane's state after the
    registration and enforces its revision, while one that is refused keeps what it had.
    The answer arrives, and the identity of the node, the reply and the state are values
    that JSON carries (strings in UTF-8, numbers of their width). *)
Theorem control_call_is_local env addr (s : NodeAgent.ServiceRuntime) c c' r (cfg := sr_cfg s) :
  pair_wire (nc_nodeID cfg, nc_addr cfg) -> node_answer r -> state_wire (sv_state (ct_service c')) ->
  let ex := serveHttp env (normalizeBaseURL addr) in
  (handleNode errorText (rq_call env) (PutHeartbeat (nc_nodeID cfg) (nc_addr cfg)) c = Some (c', r) ->
   clientHeartbeat ex addr (nc_nodeID cfg, nc_addr cfg) c = (c', remoteReply r)) /\
  (handleNode errorText (rq_call env) (PostNode (nc_nodeID cfg) (nc_addr cfg)) c = Some (c', r) ->
   clientRegisterNode ex addr (nc_nodeID cfg, nc_addr cfg) c = (c', remoteReply r) /\
   exists s', registerOverHttp ex addr s c = (c', s') /\
     match r with
     | Ok (NodeReply revision _) =>
         if revision <=? sr_routeEpoch s then s' = s
         else sr_snapshot s' = SnapshotOf (sv_state (ct_service c')) /\
              sr_routeEpoch s' = Z.max (sr_routeEpoch s) (cs_revision (sv_state (ct_service c')))
     | _ => s' = s
     end).
Proof.
  intros Hw Hr Hs ex. split; [intros Hh; by apply heartbeat_call|]. intros Hh.
  pose proof (register_call env addr _ _ c c' r Hw Hh Hr) as Ec. split; [exact Ec|].
  unfold registerOverHttp. fold cfg. fold ex in Ec. rewrite Ec. destruct r as [[]|status]; try done; cbn [remoteReply]; [|by exists s].
  unfold NodeRouteEpoch. destruct (revision <=? sr_routeEpoch s) eqn:El.
  - exists s. split; [|done]. unfold registerWithControl, refreshControlSnapshot, NodeRouteEpoch. by rewrite El.
  - destruct (snapshot_calls env addr c' Hs) as (Esnap & _). fold ex in Esnap. rewrite Esnap.
    eexists. split; [reflexivity|]. unfold registerWithControl, refreshControlSnapshot, NodeRouteEpoch. rewrite El.
    unfold observeSnapshot. rewrite observeRevision_epoch. split; [by rewrite (proj2 (observeRevision_rest _ _))|done].
Qed.

End Server.

(** ** Calls, run *)

From S2P Require Import ControlServiceSpec.

#[local] Existing Instance canonical_order.
#[local] Existing Instance last_code.

(** A search of the table, and encoding/json. *)
#[local] Instance json_http : HttpLibrary := {|
  hl_dispatch routes method path :=
    match list_find (fun r => r = (method, path)) routes with Some (i, _) => Ok i | None => Err 404 end;
  hl_read A c body := match Unmarshal c body with Some a => Ok a | None => Err 400 end;
  hl_write A c a := GoJson.Encode c a;
  hl_refusal _ := str_bytes "refused"
|}.

#[local] Instance json_http_laws : HttpLaws.
Proof.
  split; intros; cbn [hl_dispatch hl_read hl_write json_http]; [|by case_match; simplify_eq|done].
  rewrite (proj2 (list_find_Some _ _ i (method, path))); [done|]. split_and!; [done..|].
  intros j y Hj Hlt ->. assert (j = i) by (by eapply NoDup_lookup). lia.
Qed.

(** A node that registers with a new cluster. *)
Definition node0 : NodeAgent.ServiceRuntime := NodeAgent.NewServiceRuntime (mkNodeConfig "b:7000" "b" 0).
Definition control0 : control := mkControl replica0 members0.
Definition request1 : requestEnv := mkRequestEnv (calling answered) memberCalls memberCalls.
Definition registered : control :=
  match handleNode texts (rq_call request1) (PostNode "b" "b:7000") control0 with Some (c, _) => c | None => control0 end.
Definition registration : result Z controlResponse :=
  match handleNode texts (rq_call request1) (PostNode "b" "b:7000") control0 with Some (_, r) => r | None => Err 0 end.

Lemma registered_wire : state_wire (sv_state (ct_service registered)).
Proof.
  assert (sv_state (ct_service registered) =
    (Apply (nodeCommand CommandRegisterNode "b" "b:7000" 1700000000) noon (NewControlState "demo")).1) as -> by (vm_compute; reflexivity).
  apply Apply_wire; [apply demo_wire| |exact noon_wire|apply demo_wire].
  unfold command_sane, command_wire. cbn. unfold is_s64, is_u64. split_and!; try lia; try reflexivity.
Qed.

Lemma registration_reply : registration = Ok (NodeReply 1 (mkNode "b" "b:7000" "healthy" 1700000000)).
Proof. vm_compute. reflexivity. Qed.

Lemma handled_registration : handleNode texts (rq_call request1) (PostNode "b" "b:7000") control0 = Some (registered, registration).
Proof. vm_compute. reflexivity. Qed.

Lemma registered_revision : cs_revision (sv_state (ct_service registered)) = 1.
Proof. vm_compute. reflexivity. Qed.

Lemma control_call_is_local_witness : exists s',
  clientRegisterNode (serveHttp texts request1 (normalizeBaseURL "10.0.0.1:7700/")) "10.0.0.1:7700/" ("b", "b:7000") control0 =
    (registered, remoteReply registration) /\
  registerOverHttp (serveHttp texts request1 (normalizeBaseURL "10.0.0.1:7700/")) "10.0.0.1:7700/" node0 control0 = (registered, s') /\
  sr_snapshot s' = SnapshotOf (sv_state (ct_service registered)) /\ sr_routeEpoch s' = 1.
Proof.
  destruct (control_call_is_local texts request1 "10.0.0.1:7700/" node0 control0 registered registration) as [_ Hr].
  { split; vm_compute; reflexivity. }
  { rewrite registration_reply. repeat split; vm_compute; first [reflexivity|discriminate]. }
  { exact registered_wire. }
  destruct (Hr handled_registration) as (Ec & s' & Es & Hs). exists s'. split; [exact Ec|]. split; [exact Es|].
  rewrite registration_reply in Hs. destruct Hs as [H1 H2]. split; [exact H1|]. rewrite H2, registered_revision. reflexivity.
Defined.
