(* ===== verification/Frontend.v ===== *)
(** * The web front end (frontend: routes.go, service.go, web.go)

    The front end keeps a copy of the control plane's routes for its pages and for
    looking up the node of a key.  It fetches a snapshot every two seconds
    (ControlHttp); a fetch that fails leaves the copy.  Rendering pages is the web
    library's.

    What the copy shows is the route table of the last snapshot that was fetched, and a
    lookup in it is a lookup in that table ([frontend_resolves_like_control]). *)

From S2P Require Import Prelude.
From S2P Require Import GoStrings.
From S2P Require Import ControlApi.
From S2P Require Import Routing.
From S2P Require Import ControlRoutes.
From S2P Require Import Control.
From S2P Require Import ControlSpec.
From S2P Require Import ControlTheorems.
From S2P Require Import ControlExamples.
From S2P Require Import NodeAgent.
From S2P Require Import ControlHttp.

Local Open Scope Z_scope.
Local Open Scope nespa_scope.

(** ** Routes *)

(** src: frontend/routes.go RouteReplica *)
Record RouteReplica := mkRouteReplica { fp_nodeID : string; fp_addr : string; fp_weight : Z }.

(** src: frontend/routes.go Route *)
Record Route := mkFrontRoute {
  fr_namespace : string;
  fr_space : string;
  fr_start : Z;
  fr_end : Z;
  fr_role : string;
  fr_nodeID : string;
  fr_addr : string;
  fr_weight : Z;
  fr_replicas : list RouteReplica
}.

(** src: frontend/routes.go RoutesBody *)
Record RoutesBody := mkRoutesBody { rb_routeEpoch : Z; rb_source : string; rb_routes : list Route }.

(** src: frontend/routes.go RouteCache *)
Record RouteCache := mkRouteCache { rc_epoch : Z; rc_source : string; rc_routes : list Route }.

(** A copy of a value is the value.
    src: frontend/routes.go cloneRouteReplicas *)
Definition cloneRouteReplicas (replicas : list RouteReplica) : list RouteReplica := replicas.

Definition withReplicas (replicas : list RouteReplica) (r : Route) : Route :=
  mkFrontRoute (fr_namespace r) (fr_space r) (fr_start r) (fr_end r) (fr_role r) (fr_nodeID r) (fr_addr r) (fr_weight r) replicas.

(** src: frontend/routes.go cloneRoutes *)
Definition cloneRoutes (routes : list Route) : list Route :=
  (fun r => withReplicas (cloneRouteReplicas (fr_replicas r)) r) <$> routes.

(** src: frontend/routes.go normalizeRoutes *)
Definition normalizeRoutes (routes : list Route) : list Route :=
  (fun r => if (fr_start r =? 0) && (fr_end r =? 0)
            then mkFrontRoute (fr_namespace r) (fr_space r) (fr_start r) VSlotMax (fr_role r) (fr_nodeID r) (fr_addr r) (fr_weight r)
                   (fr_replicas r)
            else r) <$> cloneRoutes routes.

(** src: frontend/routes.go routeReplicasFromControl *)
Definition routeReplicasFromControl (replicas : list RouteReplicaBody) : list RouteReplica :=
  (fun r => mkRouteReplica (rr_nodeID r) (rr_addr r) (rr_weight r)) <$> replicas.

(** The literal of the loop.
    src: frontend/routes.go UpdateFromSnapshot 59-69 *)
Definition routeFromControl (route : RouteBody) : Route :=
  mkFrontRoute (rt_namespace route) (rt_space route) (rt_start route) (rt_end route) "data-node" (rt_nodeID route) (rt_addr route)
    (rt_weight route) (routeReplicasFromControl (rt_replicas route)).

(** src: frontend/routes.go NewRouteCache *)
Definition NewRouteCache (source : string) (routes : list Route) : RouteCache := mkRouteCache 0 source (normalizeRoutes routes).

(** src: frontend/routes.go UpdateFromSnapshot *)
Definition UpdateFromSnapshot (snapshot : SnapshotBody) (source : string) (c : RouteCache) : RouteCache * bool :=
  if (sb_revision snapshot =? 0) || (rc_epoch c =? sb_revision snapshot) then (c, false)
  else (mkRouteCache (sb_revision snapshot) source (normalizeRoutes (routeFromControl <$> sb_routes snapshot)), true).

(** src: frontend/routes.go Snapshot *)
Definition cacheSnapshot (c : RouteCache) : RoutesBody := mkRoutesBody (rc_epoch c) (rc_source c) (cloneRoutes (rc_routes c)).

(** ** Looking up a key *)

(** src: frontend/routes.go VSlotFor *)
Definition frontVSlotFor (namespace space key : string) : Z := VSlotFor namespace space key.

(** src: frontend/routes.go ContainsVSlot *)
Definition frontContainsVSlot (r : Route) (vslot : Z) : bool :=
  ContainsVSlot (mkRoute "" "" (fr_start r) (fr_end r) "" "" 0 []) vslot.

(** src: frontend/routes.go selectMatch *)
Definition selectMatch (r : Route) (namespace space : string) (vslot : Z) : matchKind :=
  if negb (bool_decide (fr_role r = "data-node")) || bool_decide (fr_addr r = "") then noRoute
  else if negb (frontContainsVSlot r vslot) then noRoute
  else if bool_decide (fr_namespace r = namespace) && bool_decide (fr_space r = space) then exactRoute
  else if bool_decide (fr_namespace r = namespace) && bool_decide (fr_space r = "") then namespaceRoute
  else if bool_decide (fr_namespace r = "") && bool_decide (fr_space r = "") then wildcardRoute
  else noRoute.

(** src: frontend/routes.go firstRoute *)
Fixpoint frontFirstRoute (routes : list (option Route)) : option Route :=
  match routes with
  | [] => None
  | None :: rest => frontFirstRoute rest
  | Some r :: _ => Some r
  end.

(** The loop of [SelectKey] with the candidates found so far.
    src: frontend/routes.go SelectKey 99-114 *)
Fixpoint selectKeyLoop (routes : list Route) (vslot : Z) (namespace space : string) (namespaceMatch wildcard : option Route)
    : option Route :=
  match routes with
  | [] => frontFirstRoute [namespaceMatch; wildcard]
  | r :: rest =>
      match selectMatch r namespace space vslot with
      | exactRoute => Some r
      | namespaceRoute =>
          selectKeyLoop rest vslot namespace space (match namespaceMatch with None => Some r | Some _ => namespaceMatch end) wildcard
      | wildcardRoute =>
          selectKeyLoop rest vslot namespace space namespaceMatch (match wildcard with None => Some r | Some _ => wildcard end)
      | noRoute => selectKeyLoop rest vslot namespace space namespaceMatch wildcard
      end
  end.

(** src: frontend/routes.go SelectKey *)
Definition SelectKey (c : RouteCache) (namespace space key : string) : option Route :=
  selectKeyLoop (rc_routes c) (frontVSlotFor namespace space key) namespace space None None.

(** src: frontend/routes.go Select *)
Definition cacheSelect (c : RouteCache) (namespace space : string) : option Route := SelectKey c namespace space "".

(** ** The service *)

(** src: frontend/service.go Config *)
Record FrontendConfig := mkFrontendConfig { fc_addr : string; fc_controlAddr : string }.

(** The client's base URL is a function of the configuration.
    src: frontend/service.go ServiceRuntime *)
Record FrontendRuntime := mkFrontend { fs_cfg : FrontendConfig; fs_cache : RouteCache }.

(** src: frontend/service.go NewServiceRuntime *)
Definition newFrontend (cfg : FrontendConfig) : FrontendRuntime := mkFrontend cfg (NewRouteCache (fc_controlAddr cfg) []).

(** [fetched] is what the client's [Snapshot] returns.
    src: frontend/service.go refreshRoutes *)
Definition refreshRoutes (fetched : result httpError SnapshotBody) (source : string) (c : RouteCache) : RouteCache :=
  match fetched with
  | Err _ => c
  | Ok snapshot => (UpdateFromSnapshot snapshot source c).1
  end.

(** The first refresh and one for each tick; without an address nothing is fetched.
    src: frontend/service.go StartRouteRefresh *)
Definition runRouteRefresh {W} (ex : exchange W) (between : nat -> W -> W) (ticks : nat) (svc : FrontendRuntime) (w : W)
    : W * FrontendRuntime :=
  let addr := fc_controlAddr (fs_cfg svc) in
  if negb (hasAddress addr) then (w, svc)
  else
    foldl (fun '(w, svc) tick =>
      let '(w, fetched) := frontendSnapshot ex addr (between tick w) in
      (w, mkFrontend (fs_cfg svc) (refreshRoutes fetched addr (fs_cache svc)))) (w, svc) (seq 0 (S ticks)).

(** src: frontend/service.go Routes *)
Definition Routes (svc : FrontendRuntime) : RoutesBody := cacheSnapshot (fs_cache svc).

(** What the index page shows. *)
Record indexView := mkIndexView {
  iv_title : string;
  iv_controlAddr : string;
  iv_routeEpoch : Z;
  iv_routeSource : string;
  iv_routes : list Route
}.

(** src: frontend/web.go indexView *)
Definition indexViewOf (svc : FrontendRuntime) : indexView :=
  let snapshot := Routes svc in
  mkIndexView "Nespa" (fc_controlAddr (fs_cfg svc)) (rb_routeEpoch snapshot) (rb_source snapshot) (rb_routes snapshot).

(** ** Lookups agree *)

(** A route as the cache stores it. *)
Definition shown (route : RouteBody) : Route :=
  let '(_, stop) := normalizedRange route in
  mkFrontRoute (rt_namespace route) (rt_space route) (rt_start route) stop "data-node" (rt_nodeID route) (rt_addr route)
    (rt_weight route) (routeReplicasFromControl (rt_replicas route)).

Lemma normalized_shown routes : normalizeRoutes (routeFromControl <$> routes) = shown <$> routes.
Proof.
  unfold normalizeRoutes, cloneRoutes. rewrite <- !list_fmap_compose. apply list_fmap_ext. intros _ r _. unfold compose, shown, normalizedRange.
  cbn. by destruct (_ && _).
Qed.

Lemma shown_slot route vslot : frontContainsVSlot (shown route) vslot = ContainsVSlot route vslot.
Proof.
  unfold frontContainsVSlot, shown, ContainsVSlot, normalizedRange. destruct ((rt_start route =? 0) && (rt_end route =? 0)) eqn:E; cbn.
  - bool_to_prop. rewrite H. done.
  - by rewrite E.
Qed.

Lemma shown_match route namespace space vslot :
  selectMatch (shown route) namespace space vslot =
    if selectable route vslot then routeMatch route namespace space else noRoute.
Proof.
  unfold selectMatch, selectable. rewrite shown_slot. unfold shown. destruct (normalizedRange route). cbn.
  destruct (bool_decide (rt_addr route = "")); [done|]. by destruct (ContainsVSlot route vslot).
Qed.

Lemma selectKeyLoop_shown routes vslot namespace space n w :
  selectKeyLoop (shown <$> routes) vslot namespace space (shown <$> n) (shown <$> w) =
    shown <$> match selectLoop routes vslot namespace space (mkCandidates n w) with
              | inl route => Some route
              | inr c => firstRoute [namespaceMatch c; wildcard c]
              end.
Proof.
  revert n w. induction routes as [|r routes IH]; intros n w; [by destruct n, w|].
  rewrite fmap_cons. cbn [selectKeyLoop selectLoop]. rewrite shown_match. destruct (selectable r vslot); cbn [negb]; [|apply IH].
  destruct (routeMatch r namespace space); cbn [add]; [apply IH|done| |].
  - destruct n as [x|]; [exact (IH (Some x) w)|exact (IH (Some r) w)].
  - destruct w as [x|]; [exact (IH n (Some x))|exact (IH n (Some r))].
Qed.

Lemma SelectKey_shown routes namespace space key epoch source :
  SelectKey (mkRouteCache epoch source (shown <$> routes)) namespace space key = shown <$> Select routes namespace space key.
Proof. unfold SelectKey, Select, frontVSlotFor. apply (selectKeyLoop_shown routes _ _ _ None None). Qed.

(** ** A front end beside a control plane

    Commands change the control plane; the front end fetches its snapshot or fails
    to.  [wt_fetched] is the state of the last fetch that succeeded. *)
Record watch := mkWatch { wt_state : ControlState; wt_front : FrontendRuntime; wt_fetched : option ControlState }.

Section Watching.
  Context `{!RangeOrder}.

Definition refreshed (fetched : result httpError SnapshotBody) (f : FrontendRuntime) : FrontendRuntime :=
  mkFrontend (fs_cfg f) (refreshRoutes fetched (fc_controlAddr (fs_cfg f)) (fs_cache f)).

Inductive watch_step : watch -> watch -> Prop :=
| watch_apply s f l c clock : counters_room s -> revision_room s -> watch_step (mkWatch s f l) (mkWatch (Apply c clock s).1 f l)
| watch_fetch s f l : watch_step (mkWatch s f l) (mkWatch s (refreshed (Ok (SnapshotOf s)) f) (Some s))
| watch_miss s f l e : watch_step (mkWatch s f l) (mkWatch s (refreshed (Err e) f) l).

(** The cache shows the routes of [l], which the state has or has gone past. *)
Record shows (s l : ControlState) (c : RouteCache) : Prop := {
  sh_past : 0 <= cs_revision l <= cs_revision s;
  sh_same : cs_revision l = cs_revision s -> effectiveRoutes l = effectiveRoutes s;
  sh_epoch : rc_epoch c = cs_revision l;
  sh_routes : cs_revision l <> 0 -> rc_routes c = shown <$> effectiveRoutes l
}.

Definition watch_inv (w : watch) : Prop :=
  control_inv (wt_state w) /\ 0 <= cs_revision (wt_state w) /\
  match wt_fetched w with
  | Some l => shows (wt_state w) l (fs_cache (wt_front w))
  | None => rc_epoch (fs_cache (wt_front w)) = 0
  end.

Lemma watch_step_inv w w' : watch_step w w' -> watch_inv w -> watch_inv w'.
Proof.
  destruct 1 as [s f l c clock Hroom Hrev|s f l|s f l e]; intros (Hi & Hn & Hl); [| |done].
  - cbn in Hi, Hn, Hl. pose proof (Apply_revised c clock s Hi Hrev) as Hr.
    assert (cs_revision s <= cs_revision (Apply c clock s).1) as Hle by (destruct Hr as [?|[? _]]; lia).
    split; [by apply Apply_inv|]. split; [cbn; lia|]. cbn. destruct l as [l|]; [|done].
    destruct Hl as [H1 H2 H3 H4]. split; [lia| |done|done]. intros E. destruct Hr as [?|[_ Hv]]; [lia|].
    rewrite H2 by lia. symmetry. by apply effectiveRoutes_view.
  - cbn in Hi, Hn, Hl. split; [done|]. split; [done|]. cbn. unfold UpdateFromSnapshot. cbn [SnapshotOf sb_revision sb_routes].
    destruct (Z.eqb_spec (cs_revision s) 0) as [E0|E0]; cbn [orb].
    + split; [lia|done| |done]. cbn. destruct l as [l|]; [|lia]. destruct Hl. lia.
    + destruct (Z.eqb_spec (rc_epoch (fs_cache f)) (cs_revision s)) as [E|E]; cbn.
      * destruct l as [l|]; [|lia]. destruct Hl as [H1 H2 H3 H4]. split; [lia|done|done|]. intros _.
        rewrite H4 by lia. by rewrite H2 by lia.
      * split; [lia|done|done|]. intros _. apply normalized_shown.
Qed.

(** C19: the front end resolves keys as the control plane does.  After any history of
    commands, fetches and failed fetches it shows the revision of the state whose snapshot
    it fetched last, which the control plane has or has gone past, and looks every key
    up to the node that the published routes of that state give it; when it shows the
    current revision, to the node of the current routes. *)
Theorem frontend_resolves_like_control cfg s0 w l : control_inv s0 -> 0 <= cs_revision s0 ->
  rtc watch_step (mkWatch s0 (newFrontend cfg) None) w -> wt_fetched w = Some l -> cs_revision l <> 0 ->
  rb_routeEpoch (Routes (wt_front w)) = cs_revision l /\ cs_revision l <= cs_revision (wt_state w) /\
  (forall namespace space key,
     SelectKey (fs_cache (wt_front w)) namespace space key = shown <$> Select (effectiveRoutes l) namespace space key) /\
  (cs_revision l = cs_revision (wt_state w) -> forall namespace space key,
     SelectKey (fs_cache (wt_front w)) namespace space key =
     shown <$> Select (effectiveRoutes (wt_state w)) namespace space key).
Proof.
  intros Hi Hn Hsteps Hl Hne. assert (watch_inv w) as (_ & _ & Hw).
  { assert (watch_inv (mkWatch s0 (newFrontend cfg) None)) as H0 by done. revert H0.
    clear Hl. induction Hsteps as [w|w1 w2 w3 Hs _ IH]; [done|]. intros H0. by eapply IH, watch_step_inv. }
  rewrite Hl in Hw. destruct Hw as [H1 H2 H3 H4]. specialize (H4 Hne).
  assert (forall namespace space key,
    SelectKey (fs_cache (wt_front w)) namespace space key = shown <$> Select (effectiveRoutes l) namespace space key) as Hsel.
  { destruct (fs_cache (wt_front w)) as [epoch source routes]. cbn in H4. subst routes. intros. apply SelectKey_shown. }
  split_and!; [done|lia|done|]. intros E. by rewrite <- H2.
Qed.

End Watching.

(** ** Example *)

#[local] Existing Instance canonical_order.

(** The front end fetches the routes of two nodes, misses a fetch, and a third node
    registers. *)
Definition front0 : FrontendRuntime := newFrontend (mkFrontendConfig ":7402" "127.0.0.1:7401").
Definition watched : watch :=
  mkWatch cluster3 (refreshed (Err RequestFailed) (refreshed (Ok (SnapshotOf cluster2)) front0)) (Some cluster2).

Lemma watched_run : rtc watch_step (mkWatch cluster2 front0 None) watched.
Proof.
  eapply rtc_l; [apply watch_fetch|]. eapply rtc_l; [apply (watch_miss _ _ _ RequestFailed)|].
  eapply rtc_l; [apply (watch_apply _ _ _ registerC at5); [apply cluster2_room|apply cluster2_revision_room]|]. apply rtc_refl.
Qed.

Lemma frontend_resolves_like_control_witness :
  rb_routeEpoch (Routes (wt_front watched)) = cs_revision cluster2 /\
  (forall namespace space key,
     SelectKey (fs_cache (wt_front watched)) namespace space key = shown <$> Select (effectiveRoutes cluster2) namespace space key) /\
  (fr_addr <$> SelectKey (fs_cache (wt_front watched)) "shop" "cart" "alice") =
    (rt_addr <$> Select (effectiveRoutes cluster2) "shop" "cart" "alice").
Proof.
  destruct (frontend_resolves_like_control (mkFrontendConfig ":7402" "127.0.0.1:7401") cluster2 watched cluster2 cluster2_inv)
    as (H1 & _ & H2 & _); [vm_compute; discriminate|exact watched_run|reflexivity|vm_compute; discriminate|].
  split; [exact H1|]. split; [exact H2|]. vm_compute. reflexivity.
Defined.
