(* ===== verification/Wiring.v ===== *)
(** * Commands and wiring (cmd: config.go, config_types.go, main.go; runtime: service.go;
    admin: service.go, endpoints.go; frontend/web.go; transport/tcp/server.go and
    transport/redis/server.go: Start and Stop)

    The configuration of the server, its validation and what it is turned into for each
    service; the life of an HTTP service, of the TCP and of the Redis server; the hooks of
    the application with the order they declare; and the summary of the admin API.
    Reading flags and the environment into the configuration (configx, pflag), running the
    hooks (dix) and the HTTP server (httpx) are libraries; structs with one field are
    written as the field. *)

From S2P Require Import Prelude.
From S2P Require Import GoStrings.
From S2P Require Import GoUnicode.
From S2P Require Import EngineTypes.
From S2P Require Import Shard.
From S2P Require Import Primitives.
From S2P Require Import Instances.
From S2P Require Import MemoryEngine.
From S2P Require Import EngineSpec.
From S2P Require Import EngineExamples.
From S2P Require Import Service.
From S2P Require Import Replication.
From S2P Require Import ControlApi.
From S2P Require Import ControlRoutes.
From S2P Require Import Control.
From S2P Require Import ControlRaft.
From S2P Require Import Executor.
From S2P Require Import ControlService.
From S2P Require Import NodeAgent.
From S2P Require Import ControlEndpoints.
From S2P Require Import Frontend.
From S2P Require Import ControlExamples.

Local Open Scope Z_scope.
Local Open Scope nespa_scope.

(** ** Configuration *)

(** src: cmd/config_types.go endpointConfig *)
Record endpointConfig := mkEndpointConfig { ep_enabled : bool; ep_addr : string }.

(** src: cmd/config_types.go controlRaftConfig *)
Record controlRaftConfig := mkControlRaft {
  cr_dir : string;
  cr_addr : string;
  cr_clusterID : Z;
  cr_nodeID : Z;
  cr_join : bool;
  cr_members : list string;
  cr_proposalTimeout : Duration
}.

(** src: cmd/config_types.go controlLivenessConfig *)
Record controlLivenessConfig := mkControlLiveness { cl_sweep : Duration; cl_suspectAfter : Duration; cl_deadAfter : Duration }.

(** src: cmd/config_types.go controlMigrationConfig *)
Record controlMigrationConfig := mkControlMigration {
  cm_enabled : bool;
  cm_sweep : Duration;
  cm_taskTimeout : Duration;
  cm_retry : Duration;
  cm_maxParallel : Z
}.

(** src: cmd/config_types.go controlConfig *)
Record controlConfig := mkControlConfig {
  cc_enabled : bool;
  cc_addr : string;
  cc_clusterID : string;
  cc_snapshotPath : string;
  cc_raft : controlRaftConfig;
  cc_liveness : controlLivenessConfig;
  cc_migration : controlMigrationConfig
}.

(** src: cmd/config_types.go nodeConfig *)
Record nodeConfig := mkNodeSettings {
  nd_enabled : bool;
  nd_addr : string;
  nd_id : string;
  nd_heartbeat : Duration;
  nd_snapshotPath : string;
  nd_snapshotInterval : Duration;
  nd_outboxPath : string;
  nd_quotaNamespace : Z;
  nd_quotaSpace : Z
}.

(** src: cmd/config_types.go redisConfig *)
Record redisConfig := mkRedisConfig { rd_enabled : bool; rd_addr : string; rd_users : list string }.

(** src: cmd/config_types.go serverConfig *)
Record serverConfig := mkServerConfig {
  sc_control : controlConfig;
  sc_frontend : endpointConfig;
  sc_redis : redisConfig;
  sc_node : nodeConfig;
  sc_admin : endpointConfig
}.

(** src: cmd/config.go serverDefaults *)
Definition serverDefaults : serverConfig :=
  let s := nsPerSecond in
  mkServerConfig
    (mkControlConfig true "127.0.0.1:7401" "local" ""
       (mkControlRaft "" "127.0.0.1:7601" 1 1 false [] (5 * s))
       (mkControlLiveness (5 * s) (15 * s) (30 * s))
       (mkControlMigration true s (10 * s) (2 * s) 1))
    (mkEndpointConfig false "127.0.0.1:7402")
    (mkRedisConfig false "127.0.0.1:6379" [])
    (mkNodeSettings true "127.0.0.1:7403" "node-1" (5 * s) "" 0 "" 0 0)
    (mkEndpointConfig true "127.0.0.1:7404").

(** *** Raft members *)

Inductive memberError := MemberSyntax (item : string) | MemberID (item : string) | MemberAddr (item : string).

(** src: cmd/config.go parseRaftMemberNodeID *)
Definition parseRaftMemberNodeID (item : string) (rawNodeID : list byte) : result memberError Z :=
  match parse_uint (str_bytes (TrimSpace (bytes_str rawNodeID))) with
  | None => Err (MemberID item)
  | Some nodeID => if negb (nodeID <? 2 ^ 64) || (nodeID =? 0) then Err (MemberID item) else Ok nodeID
  end.

(** [strings.SplitN(item, "=", 2)]: the parts around the first equals sign. *)
Fixpoint splitEquals (s : list byte) : option (list byte * list byte) :=
  match s with
  | [] => None
  | b :: rest =>
      if byte_Z b =? 61 then Some ([], rest)
      else match splitEquals rest with Some (k, v) => Some (b :: k, v) | None => None end
  end.

(** [Ok None] for an item that is skipped.
    src: cmd/config.go parseRaftMember *)
Definition parseRaftMember (raw : string) : result memberError (option RaftMember) :=
  let item := TrimSpace raw in
  if bool_decide (item = "") then Ok None
  else
    match splitEquals (str_bytes item) with
    | None => Err (MemberSyntax item)
    | Some (rawNodeID, rawAddr) =>
        match parseRaftMemberNodeID item rawNodeID with
        | Err e => Err e
        | Ok nodeID =>
            let addr := TrimSpace (bytes_str rawAddr) in
            if bool_decide (addr = "") then Err (MemberAddr item) else Ok (Some (mkMember nodeID addr))
        end
    end.

(** src: cmd/config.go parseRaftMembers *)
Fixpoint parseRaftMembers (raw : list string) : result memberError (list RaftMember) :=
  match raw with
  | [] => Ok []
  | item :: raw =>
      match parseRaftMember item with
      | Err e => Err e
      | Ok None => parseRaftMembers raw
      | Ok (Some member) =>
          match parseRaftMembers raw with
          | Err e => Err e
          | Ok members => Ok (member :: members)
          end
      end
  end.

(** *** The configurations of the services *)

(** src: cmd/config.go controlConfigFrom *)
Definition controlConfigFrom (cfg : serverConfig) : result memberError Config :=
  let c := sc_control cfg in
  match parseRaftMembers (cr_members (cc_raft c)) with
  | Err e => Err e
  | Ok members =>
      Ok (mkConfig (cc_addr c) (cc_clusterID c) []
            (mkLiveness (cl_sweep (cc_liveness c)) (cl_suspectAfter (cc_liveness c)) (cl_deadAfter (cc_liveness c)))
            (mkMigrationConfig (cm_enabled (cc_migration c)) (cm_sweep (cc_migration c)) (cm_taskTimeout (cc_migration c))
               (cm_retry (cc_migration c)) (cm_maxParallel (cc_migration c)))
            (cc_snapshotPath c)
            (mkRaftConfig (cr_dir (cc_raft c)) (cr_addr (cc_raft c)) (cr_clusterID (cc_raft c)) (cr_nodeID (cc_raft c))
               (cr_join (cc_raft c)) members (cr_proposalTimeout (cc_raft c)) 0 0))
  end.

(** src: cmd/config.go frontendConfigFrom *)
Definition frontendConfigFrom (cfg : serverConfig) : FrontendConfig :=
  mkFrontendConfig (ep_addr (sc_frontend cfg)) (cc_addr (sc_control cfg)).

(** The address and the users.
    src: cmd/config.go redisConfigFrom *)
Definition redisConfigFrom (cfg : serverConfig) : string * list string := (rd_addr (sc_redis cfg), rd_users (sc_redis cfg)).

(** src: node/service.go Config *)
Record NodeServiceConfig := mkNodeServiceConfig {
  nsc_agent : NodeConfig;
  nsc_controlAddr : string;
  nsc_snapshotPath : string;
  nsc_snapshotInterval : Duration;
  nsc_outboxPath : string;
  nsc_namespaceBytes : Z;
  nsc_spaceBytes : Z
}.

(** src: cmd/config.go nodeConfigFrom *)
Definition nodeConfigFrom (cfg : serverConfig) : NodeServiceConfig :=
  let n := sc_node cfg in
  mkNodeServiceConfig (mkNodeConfig (nd_addr n) (nd_id n) (nd_heartbeat n)) (cc_addr (sc_control cfg)) (nd_snapshotPath n)
    (nd_snapshotInterval n) (nd_outboxPath n) (nd_quotaNamespace n) (nd_quotaSpace n).

(** The engine and the cache service of a node.
    src: cmd/modules.go nodeModule 139-150 *)
Definition nodeServices (cfg : NodeServiceConfig) : MemoryEngine * QuotaConfig :=
  (NewMemory 16, mkQuota (nsc_namespaceBytes cfg) (nsc_spaceBytes cfg) ∅ ∅).

(** src: admin/service.go Config *)
Record AdminConfig := mkAdminConfig { ac_addr : string; ac_controlAddr : string }.

(** src: cmd/config.go adminConfigFrom *)
Definition adminConfigFrom (cfg : serverConfig) : AdminConfig := mkAdminConfig (ep_addr (sc_admin cfg)) (cc_addr (sc_control cfg)).

(** *** Validation *)

Inductive configError := NothingEnabled | AdminAlone | RedisWithoutNode | RedisWithoutUsers.

(** src: cmd/main.go validateAdminConfig *)
Definition validateAdminConfig (cfg : serverConfig) : option configError :=
  if ep_enabled (sc_admin cfg) && (negb (cc_enabled (sc_control cfg)) || negb (nd_enabled (sc_node cfg)))
  then Some AdminAlone else None.

(** src: cmd/main.go validateRedisConfig *)
Definition validateRedisConfig (cfg : serverConfig) : option configError :=
  if rd_enabled (sc_redis cfg) && negb (nd_enabled (sc_node cfg)) then Some RedisWithoutNode
  else if rd_enabled (sc_redis cfg) && bool_decide (rd_users (sc_redis cfg) = []) then Some RedisWithoutUsers
  else None.

(** src: cmd/main.go validateServerConfig *)
Definition validateServerConfig (cfg : serverConfig) : option configError :=
  if negb (cc_enabled (sc_control cfg)) && negb (nd_enabled (sc_node cfg)) && negb (ep_enabled (sc_frontend cfg)) &&
     negb (rd_enabled (sc_redis cfg)) && negb (ep_enabled (sc_admin cfg)) then Some NothingEnabled
  else
    match validateAdminConfig cfg with
    | Some e => Some e
    | None => validateRedisConfig cfg
    end.

(** src: cmd/config_types.go endpointInfo *)
Record endpointInfo := mkEndpointInfo { ei_name : string; ei_scheme : string; ei_addr : string }.

(** src: cmd/main.go addEndpoint *)
Definition addEndpoint (items : list endpointInfo) (enabled : bool) (name scheme addr : string) : list endpointInfo :=
  if enabled && negb (bool_decide (addr = "")) then items ++ [mkEndpointInfo name scheme addr] else items.

(** src: cmd/main.go endpoints *)
Definition endpoints (cfg : serverConfig) : list endpointInfo :=
  let items := addEndpoint [] (cc_enabled (sc_control cfg)) "control" "http" (cc_addr (sc_control cfg)) in
  let items := addEndpoint items (nd_enabled (sc_node cfg)) "node" "tcp" (nd_addr (sc_node cfg)) in
  let items := addEndpoint items (ep_enabled (sc_frontend cfg)) "frontend" "http" (ep_addr (sc_frontend cfg)) in
  let items := addEndpoint items (rd_enabled (sc_redis cfg)) "redis" "redis" (rd_addr (sc_redis cfg)) in
  addEndpoint items (ep_enabled (sc_admin cfg)) "admin" "http" (ep_addr (sc_admin cfg)).

(** ** HTTP services *)

(** The routes, the endpoints and the adapter of the configuration are values of the
    HTTP library.
    src: runtime/service.go HTTPConfig 17-20 *)
Record HTTPConfig := mkHTTPConfig { hc_name : string; hc_addr : string; hc_metadata : gmap string string }.

(** src: runtime/service.go ServiceEvent *)
Record ServiceEvent := mkServiceEvent { se_service : string; se_addr : string; se_state : string }.

(** src: runtime/service.go Name 171-173 *)
Definition eventName (e : ServiceEvent) : string := "nespa.service." +:+ se_state e.

(** A service and what it has set in motion: [hs_server] is the server it keeps, by the
    number of its creation, [hs_created] the number of servers made, [hs_serving] those
    whose goroutine has not returned from [ListenAndServeContext], and [hs_published] the
    events given to the bus.
    src: runtime/service.go HTTPService 26-37 *)
Record HTTPService := mkHTTPService {
  hs_config : HTTPConfig;
  hs_server : option nat;
  hs_created : nat;
  hs_serving : gset nat;
  hs_published : list ServiceEvent
}.

(** src: runtime/service.go NewHTTPService *)
Definition NewHTTPService (cfg : HTTPConfig) : HTTPService := mkHTTPService cfg None 0 ∅ [].

(** The event of a change of state. *)
Definition serviceEvent (s : HTTPService) (state : string) : ServiceEvent :=
  mkServiceEvent (hc_name (hs_config s)) (hc_addr (hs_config s)) state.

Inductive lifeError := ServeFailed (service : string) | StartCanceled (service : string)
| ShutdownFailed (service : string) | StopCanceled (service : string).

(** What a start sees first: the goroutine returned, 150 ms have passed, or the context
    is done. *)
Inductive startOutcome := ServeReturned | StartTimer | StartDone.

(** src: runtime/service.go Start *)
Definition Start (outcome : startOutcome) (s : HTTPService) : HTTPService * option lifeError :=
  match hs_server s with
  | Some _ => (s, None)
  | None =>
      let id := hs_created s in
      let published := hs_published s ++ [serviceEvent s "starting"] in
      match outcome with
      | ServeReturned =>
          (mkHTTPService (hs_config s) None (S id) (hs_serving s) published, Some (ServeFailed (hc_name (hs_config s))))
      | StartTimer => (mkHTTPService (hs_config s) (Some id) (S id) ({[id]} ∪ hs_serving s) published, None)
      | StartDone =>
          (mkHTTPService (hs_config s) None (S id) ({[id]} ∪ hs_serving s) published,
           Some (StartCanceled (hc_name (hs_config s))))
      end
  end.

(** What a stop sees: the shutdown fails, the goroutine has returned, or the context is
    done first. *)
Inductive stopOutcome := ShutdownError | ServeEnded | StopDone.

(** src: runtime/service.go Stop *)
Definition Stop (outcome : stopOutcome) (s : HTTPService) : HTTPService * option lifeError :=
  match hs_server s with
  | None => (s, None)
  | Some id =>
      match outcome with
      | ShutdownError =>
          (mkHTTPService (hs_config s) None (hs_created s) (hs_serving s) (hs_published s),
           Some (ShutdownFailed (hc_name (hs_config s))))
      | ServeEnded =>
          (mkHTTPService (hs_config s) None (hs_created s) (hs_serving s ∖ {[id]})
             (hs_published s ++ [serviceEvent s "stopped"]), None)
      | StopDone =>
          (mkHTTPService (hs_config s) None (hs_created s) (hs_serving s) (hs_published s),
           Some (StopCanceled (hc_name (hs_config s))))
      end
  end.

(** The life of a service: calls of [Start] and [Stop] that meet no cancelled context and
    no failing shutdown, and goroutines that return by themselves. *)
Inductive cleanStep : HTTPService -> HTTPService -> Prop :=
| clean_start outcome s : outcome <> StartDone -> cleanStep s (Start outcome s).1
| clean_stop s : cleanStep s (Stop ServeEnded s).1
| clean_return id s : id ∈ hs_serving s ->
    cleanStep s (mkHTTPService (hs_config s) (hs_server s) (hs_created s) (hs_serving s ∖ {[id]}) (hs_published s)).

Inductive baseBody :=
| HealthBody (status service : string)
| VersionBody (service version : string)
| ConfigBody (service addr : string) (metadata : gmap string string).

(** The routes every service has.
    src: runtime/service.go registerBaseRoutes *)
Definition baseRoute (s : HTTPService) (path : string) : option baseBody :=
  let name := hc_name (hs_config s) in
  if bool_decide (path = "/healthz") then Some (HealthBody "ok" name)
  else if bool_decide (path = "/readyz") then Some (HealthBody "ready" name)
  else if bool_decide (path = "/version") then Some (VersionBody name "dev")
  else if bool_decide (path = "/debug/config")
  then Some (ConfigBody name (hc_addr (hs_config s)) (hc_metadata (hs_config s)))
  else None.

(** src: admin/service.go HTTPConfig *)
Definition adminHTTPConfig (cfg : AdminConfig) : HTTPConfig :=
  mkHTTPConfig "admin" (ac_addr cfg) (<["control_addr" := ac_controlAddr cfg]> {["role" := "admin-api"]}).

(** src: frontend/web.go Start *)
Definition webStart (outcome : startOutcome) : option lifeError :=
  match outcome with
  | ServeReturned => Some (ServeFailed "frontend")
  | StartTimer | StartDone => None
  end.

(** [shutdown] is the result of the library's shutdown, when it comes before the context
    is done.
    src: frontend/web.go Stop *)
Definition webStop (shutdown : option bool) : option lifeError :=
  match shutdown with
  | Some true => None
  | Some false => Some (ShutdownFailed "frontend")
  | None => Some (StopCanceled "frontend")
  end.

(** ** The TCP and Redis servers *)

(** A server that listens: its current listener, the accept loops that run, by the number
    of their listener, the connections that are served, and whether the dispatcher of its
    replication runs.
    src: transport/tcp/server.go Server 27-29 *)
Record ServerLife := mkServerLife {
  sl_created : nat;
  sl_listener : option nat;
  sl_loops : gset nat;
  sl_conns : gset nat;
  sl_replicating : bool
}.

Definition newServerLife : ServerLife := mkServerLife 0 None ∅ ∅ true.

Inductive serverError := OutboxFailed | ListenFailed | NoUsers | CloseFailed | StopTimedOut.

(** A listener is opened and its accept loop started. *)
Definition listenOn (s : ServerLife) : ServerLife :=
  let id := sl_created s in mkServerLife (S id) (Some id) ({[id]} ∪ sl_loops s) (sl_conns s) (sl_replicating s).

(** src: transport/tcp/server.go Start *)
Definition tcpStart (outboxOpens listens : bool) (s : ServerLife) : ServerLife * option serverError :=
  if negb outboxOpens then (s, Some OutboxFailed)
  else if negb listens then (s, Some ListenFailed)
  else (listenOn s, None).

(** src: transport/redis/server.go Start *)
Definition redisStart (credentials : gmap string string) (listens : bool) (s : ServerLife) : ServerLife * option serverError :=
  if bool_decide (credentials = ∅) then (s, Some NoUsers)
  else if negb listens then (s, Some ListenFailed)
  else (listenOn s, None).

(** A connection is accepted by a loop that runs.
    src: transport/tcp/server.go acceptLoop *)
Definition acceptConn (loop conn : nat) (s : ServerLife) : ServerLife :=
  if bool_decide (loop ∈ sl_loops s)
  then mkServerLife (sl_created s) (sl_listener s) (sl_loops s) ({[conn]} ∪ sl_conns s) (sl_replicating s)
  else s.

(** The end of a connection: its peer has closed it, or a frame could not be read or written. *)
Definition endConn (conn : nat) (s : ServerLife) : ServerLife :=
  mkServerLife (sl_created s) (sl_listener s) (sl_loops s) (sl_conns s ∖ {[conn]}) (sl_replicating s).

(** Closing the listener, which ends its loop, and waiting for the loops and connections:
    [leaving] are the connections that end before the context is done.  The result is whether
    nothing is left to wait for. *)
Definition closeAndWait (closes : bool) (leaving : gset nat) (s : ServerLife) : ServerLife * result serverError bool :=
  let waits s :=
    let s := mkServerLife (sl_created s) None (sl_loops s) (sl_conns s ∖ leaving) (sl_replicating s) in
    (s, Ok (bool_decide (sl_loops s = ∅ /\ sl_conns s = ∅))) in
  match sl_listener s with
  | None => waits s
  | Some id =>
      if negb closes then (mkServerLife (sl_created s) None (sl_loops s) (sl_conns s) (sl_replicating s), Err CloseFailed)
      else waits (mkServerLife (sl_created s) None (sl_loops s ∖ {[id]}) (sl_conns s) (sl_replicating s))
  end.

(** The dispatcher stops when it is told to.
    src: transport/tcp/server.go Stop *)
Definition tcpStop (closes : bool) (leaving : gset nat) (s : ServerLife) : ServerLife * option serverError :=
  match closeAndWait closes leaving s with
  | (s, Err e) => (s, Some e)
  | (s, Ok false) => (s, Some StopTimedOut)
  | (s, Ok true) => (mkServerLife (sl_created s) (sl_listener s) (sl_loops s) (sl_conns s) false, None)
  end.

(** src: transport/redis/server.go Stop *)
Definition redisStop (closes : bool) (leaving : gset nat) (s : ServerLife) : ServerLife * option serverError :=
  match closeAndWait closes leaving s with
  | (s, Err e) => (s, Some e)
  | (s, Ok false) => (s, Some StopTimedOut)
  | (s, Ok true) => (s, None)
  end.

(** What a stop of the dispatcher of a server leaves: it is told to stop whatever happens,
    and its outbox is closed when its worker has ended before the context is done.
    src: transport/tcp/server_replication_queue.go Stop *)
Definition dispatcherStop (workerEnds closes : bool) (d : replicationDispatcher) : replicationDispatcher * bool :=
  (mkDispatcher (rd_jobs d) (rd_capacity d) true (rd_stats d) (rd_nextSequence d) (rd_outbox d) (rd_acks d) (rd_queued d),
   workerEnds && closes).

(** ** The summary of the admin API *)

(** The texts and the times of the last errors are not modelled.
    src: admin/service.go ReplicationBody 34-55 *)
Record ReplicationBody := mkReplicationBody {
  rb_queueDepth : Z;
  rb_queueCapacity : Z;
  rb_enqueued : Z;
  rb_dropped : Z;
  rb_attempts : Z;
  rb_successes : Z;
  rb_failures : Z;
  rb_outboxEntries : Z;
  rb_outboxFailures : Z;
  rb_ackTargets : Z;
  rb_ackFailures : Z;
  rb_lastQueuedSequence : Z;
  rb_lastAttemptSequence : Z;
  rb_lastSuccessSequence : Z;
  rb_lastFailureSequence : Z;
  rb_lastDroppedSequence : Z;
  rb_lastOutboxSequence : Z;
  rb_lastAckSequence : Z;
  rb_retrying : bool;
  rb_activeTarget : string;
  rb_lastAckTarget : string
}.

(** src: admin/endpoints.go replicationBodyFromStats 115-137 *)
Definition replicationBodyFromStats (stats : ReplicationStats) : ReplicationBody :=
  mkReplicationBody (rs_queueDepth stats) (rs_queueCapacity stats) (rs_enqueued stats) (rs_dropped stats) (rs_attempts stats)
    (rs_successes stats) (rs_failures stats) (rs_outboxEntries stats) (rs_outboxFailures stats) (rs_ackTargets
    stats) (rs_ackFailures stats) (rs_lastQueuedSequence stats) (rs_lastAttemptSequence stats)
    (rs_lastSuccessSequence stats) (rs_lastFailureSequence stats) (rs_lastDroppedSequence stats)
    (rs_lastOutboxSequence stats) (rs_lastAckSequence stats) (rs_retrying stats) (rs_activeTarget stats)
    (rs_lastAckTarget stats).

Definition zeroReplicationBody : ReplicationBody := replicationBodyFromStats zeroReplicationStats.

(** src: transport/tcp/server_config.go ReplicationStats *)
Definition serverReplicationStats (replication : option replicationDispatcher) : ReplicationStats :=
  match replication with
  | None => zeroReplicationStats
  | Some d => Replication.Stats d
  end.

(** src: admin/service.go SummaryBody *)
Record SummaryBody := mkSummary {
  sb_controlAddr : string;
  sb_namespaces : Z;
  sb_spaces : Z;
  sb_nodes : Z;
  sb_controlRevision : Z;
  sb_routeCount : Z;
  sb_nodeRouteEpoch : Z;
  sb_cacheMemory : Z;
  sb_cacheObjects : Z;
  sb_cacheGetRequests : Z;
  sb_cacheGetHits : Z;
  sb_cacheGetMisses : Z;
  sb_cacheGetExpired : Z;
  sb_cacheTouchRequests : Z;
  sb_cacheTouchHits : Z;
  sb_cacheTouchMisses : Z;
  sb_cacheEvictions : Z;
  sb_replication : ReplicationBody
}.

Section Summary.
  Context `{!RangeOrder} {E : Type} `{!Engine E}.

(** The services of a summary; a node and a replicating server may be missing.
    src: admin/endpoints.go summaryEndpoint *)
Record summaryEndpoint := mkSummaryEndpoint {
  su_config : AdminConfig;
  su_control : ControlState;
  su_node : option ServiceRuntime;
  su_replication : option (option replicationDispatcher)
}.

(** src: admin/endpoints.go Summary *)
Definition Summary (e : summaryEndpoint) (cacheSvc : EngineService E)
    : EngineService E * result serviceError SummaryBody :=
  match statsLocked cacheSvc with
  | (cacheSvc, Err err) => (cacheSvc, Err err)
  | (cacheSvc, Ok stats) =>
      let control := su_control e in
      let nodeRouteEpoch := match su_node e with Some node => NodeRouteEpoch node | None => 0 end in
      let replication :=
        match su_replication e with
        | Some server => replicationBodyFromStats (serverReplicationStats server)
        | None => zeroReplicationBody
        end in
      (cacheSvc,
       Ok (mkSummary (ac_controlAddr (su_config e)) (zlen (sortedNamespaces control)) (zlen (sortedSpaces control))
             (zlen (sortedNodes control)) (cs_revision control) (RouteCount control) nodeRouteEpoch
             (st_memoryBytes stats) (st_objects stats) (st_getRequests stats) (st_getHits stats) (st_getMisses stats)
             (st_getExpired stats) (st_touchRequests stats) (st_touchHits stats) (st_touchMisses stats)
             (st_evictions stats) replication))
  end.
End Summary.

(** While no context is done and no shutdown fails, the only server that can be serving is
    the one the service keeps: a second start makes no second server, and a stopped service
    serves nothing. *)
Lemma one_server cfg s : rtc cleanStep (NewHTTPService cfg) s ->
  hs_serving s ⊆ from_option singleton ∅ (hs_server s).
Proof.
  revert s. apply rtc_ind_r; [done|]. intros s s' _ Hs IH. destruct Hs as [o s Ho|s|id s Hid].
  - unfold Start. destruct (hs_server s) eqn:E; [cbn in *; by rewrite E|]. destruct o; cbn in *; set_solver.
  - unfold Stop. destruct (hs_server s) eqn:E; cbn in *; [set_solver|by rewrite E].
  - cbn. set_solver.
Qed.

(** A stop whose shutdown fails leaves its server serving, and the service has forgotten
    it: no later stop reaches it. *)
Lemma failed_stop_forgets cfg :
  let started := (Start StartTimer (NewHTTPService cfg)).1 in
  let failed := Stop ShutdownError started in
  failed.2 = Some (ShutdownFailed (hc_name cfg)) /\ hs_serving failed.1 = {[0%nat]} /\
  forall outcome, Stop outcome failed.1 = (failed.1, None).
Proof. split_and!; [done|cbn; set_solver|done]. Qed.

(** ** The order of the hooks *)

(** A hook of the life of the application, with the hooks it is declared to run before
    and after. *)
Record hook := mkHook { hk_name : string; hk_before : list string; hk_after : list string }.

(** src: cmd/modules.go configuredHTTPModule 65-67 *)
Definition httpStart (name : string) : hook := mkHook (name +:+ ".http.start") [] [].

(** src: cmd/modules.go configuredHTTPModule 68-70 *)
Definition httpStop (name : string) : hook := mkHook (name +:+ ".http.stop") [] [].

(** src: cmd/modules.go controlModule 98-106 *)
Definition controlStartHooks : list hook :=
  [httpStart "control";
   mkHook "control.rebalance.subscribe" ["control.http.start"] [];
   mkHook "control.snapshot.restore" ["control.dragonboat.start"] [];
   mkHook "control.dragonboat.start" ["control.http.start"] [];
   mkHook "control.migration.start" [] ["control.http.start"];
   mkHook "control.liveness.start" [] ["control.http.start"]].

(** src: cmd/modules.go controlModule 107-108 *)
Definition controlStopHooks : list hook :=
  [httpStop "control"; mkHook "control.snapshot.save" [] []; mkHook "control.dragonboat.stop" [] ["control.http.stop"]].

(** src: cmd/modules.go frontendModule 121-124 *)
Definition frontendStartHooks : list hook :=
  [mkHook "frontend.routes.refresh" ["frontend.web.start"] []; mkHook "frontend.web.start" [] []].

(** src: cmd/modules.go nodeModule 165-169 *)
Definition nodeStartHooks : list hook :=
  [mkHook "node.tcp.start" [] []; mkHook "node.control.register" [] ["node.tcp.start"]].

(** src: cmd/modules.go engineModule 231-245 *)
Definition engineStartHooks : list hook :=
  [mkHook "node.engine.snapshot.restore" ["node.tcp.start"] [];
   mkHook "node.engine.snapshot.schedule" [] ["node.engine.snapshot.restore"];
   mkHook "node.engine.sweeper.start" [] []].

(** src: cmd/modules.go nodeModule 170-172 *)
Definition nodeStopHooks : list hook := [mkHook "node.tcp.stop" [] []; mkHook "node.engine.stop" [] []].

(** src: cmd/modules.go redisModule 184-186 *)
Definition redisStartHooks : list hook := [mkHook "redis.resp.start" [] ["node.tcp.start"]].

(** src: cmd/modules.go redisModule 187-189 *)
Definition redisStopHooks : list hook := [mkHook "redis.resp.stop" ["node.tcp.stop"] []].

Definition whenEnabled (enabled : bool) (hooks : list hook) : list hook := if enabled then hooks else [].

(** The hooks of an application, by the modules that are not disabled.
    src: cmd/main.go runDixApp 135-144 *)
Definition startHooks (cfg : serverConfig) : list hook :=
  mkHook "server.banner.print" [] [] ::
  whenEnabled (cc_enabled (sc_control cfg)) controlStartHooks ++
  whenEnabled (nd_enabled (sc_node cfg)) (engineStartHooks ++ nodeStartHooks) ++
  whenEnabled (ep_enabled (sc_frontend cfg)) frontendStartHooks ++
  whenEnabled (rd_enabled (sc_redis cfg)) redisStartHooks ++
  whenEnabled (ep_enabled (sc_admin cfg)) [httpStart "admin"].

(** src: cmd/main.go runDixApp 135-144 *)
Definition stopHooks (cfg : serverConfig) : list hook :=
  mkHook "foundation.eventbus.stop" [] [] ::
  whenEnabled (cc_enabled (sc_control cfg)) controlStopHooks ++
  whenEnabled (nd_enabled (sc_node cfg)) nodeStopHooks ++
  whenEnabled (ep_enabled (sc_frontend cfg)) [mkHook "frontend.web.stop" [] []] ++
  whenEnabled (rd_enabled (sc_redis cfg)) redisStopHooks ++
  whenEnabled (ep_enabled (sc_admin cfg)) [httpStop "admin"].

(** One hook is declared to run before another. *)
Definition mustPrecede (a b : hook) : bool :=
  bool_decide (hk_name b ∈ hk_before a) || bool_decide (hk_name a ∈ hk_after b).

(** No hook runs before one it must follow. *)
Fixpoint hooksOrdered (order : list hook) : bool :=
  match order with
  | [] => true
  | a :: order => forallb (fun b => negb (mustPrecede b a)) order && hooksOrdered order
  end.

(** The first hook runs before the second. *)
Definition runsBefore (order : list hook) (a b : string) : Prop :=
  exists l1 l2, hk_name <$> order = l1 ++ l2 /\ a ∈ l1 /\ b ∈ l2.

Lemma ordered_app l1 l2 : hooksOrdered (l1 ++ l2) = true ->
  hooksOrdered l1 = true /\ hooksOrdered l2 = true /\ (forall a b, a ∈ l1 -> b ∈ l2 -> mustPrecede b a = false).
Proof.
  induction l1 as [|x l1 IH]; cbn [app hooksOrdered]; [intros; split_and!; [done|done|set_solver]|].
  rewrite andb_true_iff, forallb_app, andb_true_iff. intros [[H1 H2] H3]. destruct (IH H3) as (A & B & C).
  split_and!; [by rewrite H1, A|done|]. intros a b [->|Ha]%elem_of_cons Hb; [|by apply C].
  rewrite forallb_forall in H2. apply negb_true_iff, H2. by apply list_elem_of_In.
Qed.

Lemma precede_runs order a b : hooksOrdered order = true -> a ∈ order -> b ∈ order -> a <> b -> mustPrecede a b = true ->
  runsBefore order (hk_name a) (hk_name b).
Proof.
  intros Ho Ha Hb Hne Hp. apply list_elem_of_split in Hb as (l1 & l2 & ->).
  destruct (ordered_app _ _ Ho) as (_ & H2 & _). cbn [hooksOrdered] in H2. apply andb_true_iff in H2 as [H2 _].
  apply elem_of_app in Ha as [Ha|[Ha|Ha]%elem_of_cons]; [|done|].
  - exists (hk_name <$> l1), (hk_name <$> b :: l2). rewrite fmap_app. split_and!; [done|by apply list_elem_of_fmap_2|].
    apply list_elem_of_fmap_2. set_solver.
  - rewrite forallb_forall in H2. specialize (H2 a ltac:(by apply list_elem_of_In)). by rewrite Hp in H2.
Qed.

Lemma startHooks_control cfg h : cc_enabled (sc_control cfg) = true -> h ∈ controlStartHooks -> h ∈ startHooks cfg.
Proof. intros E Hh. unfold startHooks. rewrite E. set_solver. Qed.

Lemma startHooks_node cfg h : nd_enabled (sc_node cfg) = true -> h ∈ engineStartHooks ++ nodeStartHooks -> h ∈ startHooks cfg.
Proof. intros E Hh. unfold startHooks. rewrite E. set_solver. Qed.

Lemma startHooks_redis cfg h : rd_enabled (sc_redis cfg) = true -> h ∈ redisStartHooks -> h ∈ startHooks cfg.
Proof. intros E Hh. unfold startHooks. rewrite E. set_solver. Qed.

Lemma startHooks_frontend cfg h : ep_enabled (sc_frontend cfg) = true -> h ∈ frontendStartHooks -> h ∈ startHooks cfg.
Proof. intros E Hh. unfold startHooks. rewrite E. set_solver. Qed.

Lemma ordered_run cfg order (i j : nat) (hooks : list hook) (a b : hook) :
  order ≡ₚ startHooks cfg -> hooksOrdered order = true -> (forall h, h ∈ hooks -> h ∈ startHooks cfg) ->
  hooks !! i = Some a -> hooks !! j = Some b -> mustPrecede a b = true -> mustPrecede a a = false ->
  runsBefore order (hk_name a) (hk_name b).
Proof.
  intros Hp Ho Hin Ha%list_elem_of_lookup_2 Hb%list_elem_of_lookup_2 Hm Hs. apply precede_runs; [done| | | |done].
  - rewrite Hp. by apply Hin.
  - rewrite Hp. by apply Hin.
  - intros ->. congruence.
Qed.

(** An order of the start hooks that keeps the declarations. *)
Definition keptOrder (cfg : serverConfig) : list hook :=
  mkHook "server.banner.print" [] [] ::
  whenEnabled (cc_enabled (sc_control cfg))
    (take 3 (drop 1 controlStartHooks) ++ [httpStart "control"] ++ drop 4 controlStartHooks) ++
  whenEnabled (nd_enabled (sc_node cfg)) (engineStartHooks ++ nodeStartHooks) ++
  whenEnabled (ep_enabled (sc_frontend cfg)) frontendStartHooks ++
  whenEnabled (rd_enabled (sc_redis cfg)) redisStartHooks ++
  whenEnabled (ep_enabled (sc_admin cfg)) [httpStart "admin"].

Lemma keptOrder_ok cfg : keptOrder cfg ≡ₚ startHooks cfg /\ hooksOrdered (keptOrder cfg) = true.
Proof.
  unfold keptOrder, startHooks. split.
  - apply Permutation_skip, Permutation_app_tail. destruct (cc_enabled _); cbn [whenEnabled]; [|done].
    symmetry. apply (Permutation_middle (take 3 (drop 1 controlStartHooks)) (drop 4 controlStartHooks)).
  - by destruct (cc_enabled _), (nd_enabled _), (ep_enabled (sc_frontend cfg)), (rd_enabled _), (ep_enabled (sc_admin cfg)).
Qed.

(** The declared order of the start hooks can be kept, whatever is enabled, and every
    order that keeps it restores the control state before raft starts, starts raft before
    the HTTP service and the sweeps after it, restores the engine before the node accepts
    connections, and registers the node and starts the Redis server after that. *)
Theorem startup_order cfg :
  (exists order, order ≡ₚ startHooks cfg /\ hooksOrdered order = true) /\
  forall order, order ≡ₚ startHooks cfg -> hooksOrdered order = true ->
    (cc_enabled (sc_control cfg) = true ->
       runsBefore order "control.snapshot.restore" "control.dragonboat.start" /\
       runsBefore order "control.dragonboat.start" "control.http.start" /\
       runsBefore order "control.http.start" "control.liveness.start" /\
       runsBefore order "control.http.start" "control.migration.start") /\
    (nd_enabled (sc_node cfg) = true ->
       runsBefore order "node.engine.snapshot.restore" "node.tcp.start" /\
       runsBefore order "node.tcp.start" "node.control.register") /\
    (nd_enabled (sc_node cfg) = true -> rd_enabled (sc_redis cfg) = true ->
       runsBefore order "node.tcp.start" "redis.resp.start").
Proof.
  split.
  - exists (keptOrder cfg). apply keptOrder_ok.
  - intros order Hp Ho. split_and!.
    + intros E. assert (Hin := fun h => startHooks_control cfg h E).
      split_and!; [exact (ordered_run cfg order 2 3 _ _ _ Hp Ho Hin eq_refl eq_refl eq_refl eq_refl)
                  |exact (ordered_run cfg order 3 0 _ _ _ Hp Ho Hin eq_refl eq_refl eq_refl eq_refl)
                  |exact (ordered_run cfg order 0 5 _ _ _ Hp Ho Hin eq_refl eq_refl eq_refl eq_refl)
                  |exact (ordered_run cfg order 0 4 _ _ _ Hp Ho Hin eq_refl eq_refl eq_refl eq_refl)].
    + intros E. assert (Hin := fun h => startHooks_node cfg h E).
      split_and!; [exact (ordered_run cfg order 0 3 _ _ _ Hp Ho Hin eq_refl eq_refl eq_refl eq_refl)
                  |exact (ordered_run cfg order 3 4 _ _ _ Hp Ho Hin eq_refl eq_refl eq_refl eq_refl)].
    + intros E E'. refine (ordered_run cfg order 3 5 ((engineStartHooks ++ nodeStartHooks) ++ redisStartHooks)
        _ _ Hp Ho _ eq_refl eq_refl eq_refl eq_refl).
      intros h [Hh|Hh]%elem_of_app; [by apply startHooks_node|by apply startHooks_redis].
Qed.

(** Nothing declared keeps the engine of a node open until its server has stopped, nor the
    control state unsaved until its HTTP service has. *)
Lemma shutdown_unordered : exists order, order ≡ₚ stopHooks serverDefaults /\ hooksOrdered order = true /\
  runsBefore order "node.engine.stop" "node.tcp.stop" /\ runsBefore order "control.snapshot.save" "control.http.stop".
Proof.
  exists [mkHook "foundation.eventbus.stop" [] []; mkHook "control.snapshot.save" [] []; httpStop "control";
    mkHook "control.dragonboat.stop" [] ["control.http.stop"]; mkHook "node.engine.stop" [] []; mkHook "node.tcp.stop" [] [];
    httpStop "admin"]. split_and!; [|reflexivity| |].
  - apply Permutation_skip. etrans; [apply Permutation_swap|]. do 3 apply Permutation_skip. apply Permutation_swap.
  - eexists (_ :: _ :: _ :: _ :: _ :: []), _. split; [reflexivity|]. set_solver.
  - eexists (_ :: _ :: []), _. split; [reflexivity|]. set_solver.
Qed.

(** ** The member flags *)

(** A member as it is written on the command line. *)
Definition memberFlag (m : RaftMember) : string :=
  bytes_str (format_uint 20 (rm_nodeID m) [] ++ byte_of_Z 61 :: str_bytes (rm_addr m)).

(** An address without spaces at its ends. *)
Record flag_addr (addr : string) : Prop := {
  fa_set : addr <> "";
  fa_head : forall z, head (byte_Z <$> str_bytes addr) = Some z -> space_start z = false;
  fa_last : forall z, last (byte_Z <$> str_bytes addr) = Some z -> space_end z = false
}.

Lemma splitEquals_digits l rest : Forall (fun b => is_digit b = true) l ->
  splitEquals (l ++ byte_of_Z 61 :: rest) = Some (l, rest).
Proof.
  induction 1 as [|b l Hb _ IH]; [done|]. cbn [app splitEquals]. unfold is_digit in Hb. bool_to_prop.
  rewrite (proj2 (Z.eqb_neq (byte_Z b) 61)) by lia. by rewrite IH.
Qed.

(** A member written as a flag is read back. *)
Lemma member_flag_roundtrip m : 0 < rm_nodeID m < 2 ^ 64 -> flag_addr (rm_addr m) ->
  parseRaftMember (memberFlag m) = Ok (Some m).
Proof.
  destruct m as [id addr]. cbn [rm_nodeID rm_addr]. intros Hid Ha.
  pose proof (format_uint_digits 20 id [] ltac:(lia) ltac:(constructor)) as Hd.
  assert (format_uint 20 id [] = FormatInt id) as Ef by (unfold FormatInt; by rewrite (proj2 (Z.ltb_ge id 0)) by lia).
  assert (str_bytes addr <> []) as Hne.
  { intros E. apply (fa_set addr Ha). by rewrite <- (bytes_str_bytes addr), E. }
  unfold memberFlag, parseRaftMember. cbn [rm_nodeID rm_addr].
  set (digits := format_uint 20 id []) in *.
  assert (TrimSpace (bytes_str (digits ++ byte_of_Z 61 :: str_bytes addr)) = bytes_str (digits ++ byte_of_Z 61 :: str_bytes addr)) as ->.
  { apply TrimSpace_id; rewrite str_bytes_str; intros z Hz.
    - destruct digits as [|b digits'] eqn:E; [by apply format_uint_nonempty in E|].
      cbn in Hz. simplify_eq. inversion Hd as [|? ? Hb _]; subst. unfold is_digit in Hb. bool_to_prop. by apply digit_not_space.
    - apply (fa_last addr Ha). rewrite fmap_app, fmap_cons in Hz.
      destruct (str_bytes addr) as [|b l]; [done|]. rewrite last_app in Hz. cbn [fmap list_fmap] in *.
      rewrite last_cons in Hz. destruct (last (byte_Z b :: (byte_Z <$> l))) eqn:El; [by cbn in Hz|].
      by apply last_None in El. }
  case_bool_decide as E; [exfalso|].
  { apply (f_equal str_bytes) in E. rewrite str_bytes_str in E. by destruct digits. }
  rewrite str_bytes_str, splitEquals_digits by done. unfold parseRaftMemberNodeID.
  rewrite Ef, TrimSpace_FormatInt, str_bytes_str, <- Ef. unfold digits. rewrite parse_uint_format by lia.
  rewrite (proj2 (Z.ltb_lt id _)), (proj2 (Z.eqb_neq id 0)) by lia. cbn [negb orb].
  rewrite bytes_str_bytes, (TrimSpace_id addr) by apply Ha. by rewrite bool_decide_eq_false_2 by apply Ha.
Qed.

Lemma member_flags_roundtrip members :
  Forall (fun m => 0 < rm_nodeID m < 2 ^ 64 /\ flag_addr (rm_addr m)) members ->
  parseRaftMembers (memberFlag <$> members) = Ok members.
Proof.
  induction 1 as [|m members [Hid Ha] _ IH]; [done|]. rewrite fmap_cons. cbn [parseRaftMembers].
  by rewrite member_flag_roundtrip, IH.
Qed.

(** The members a command line gives all have an id, so normalizing never refuses one for
    it. *)
Lemma parsed_members_set raw members : parseRaftMembers raw = Ok members -> Forall (fun m => rm_nodeID m <> 0 /\ rm_addr m <> "") members.
Proof.
  revert members. induction raw as [|item raw IH]; intros members; cbn [parseRaftMembers]; [by intros [= <-]|].
  destruct (parseRaftMember item) as [[m|]|e] eqn:E; [|apply IH|done].
  destruct (parseRaftMembers raw) as [l|]; [|done]. intros [= <-]. constructor; [|by apply IH].
  unfold parseRaftMember in E. case_bool_decide; [done|]. destruct (splitEquals _) as [[k v]|]; [|done].
  destruct (parseRaftMemberNodeID _ _) as [id|] eqn:Ei; [|done]. case_bool_decide; [done|]. simplify_eq. split; [|done].
  unfold parseRaftMemberNodeID in Ei. destruct (parse_uint _); [|done]. destruct (_ || _) eqn:Eb; [done|]. simplify_eq.
  apply orb_false_elim in Eb as [_ Eb]. cbn. by apply Z.eqb_neq.
Qed.

(** ** The summary is exact *)

Section SummarySpec.
  Context `{!Codecs, !GoMath, !RangeOrder}.

Lemma sorted_length {K A} `{Countable K} (m : gmap K A) (R : relation A) `{forall x y, Decision (R x y)} :
  zlen (merge_sort R (range_order m).*2) = Z.of_nat (size m).
Proof.
  unfold zlen. f_equal. rewrite merge_sort_Permutation, length_fmap, range_perm. by rewrite length_map_to_list.
Qed.

(** A summary of a service whose engine is open and holds less than the counters can
    count: the numbers of the catalog, the nodes and the stored entries and bytes are
    exact, and reading them changes nothing. *)
Lemma summary_exact (e : summaryEndpoint) (svc : EngineService MemoryEngine) :
  engine_inv (svc_engine svc) -> me_closed (svc_engine svc) = false ->
  engine_objects (svc_engine svc) < 2 ^ 64 -> engine_cost (svc_engine svc) < 2 ^ 64 ->
  exists body, Summary e svc = (svc, Ok body) /\
    sb_namespaces body = Z.of_nat (size (cs_namespaces (su_control e))) /\
    sb_spaces body = Z.of_nat (size (cs_spaces (su_control e))) /\
    sb_nodes body = Z.of_nat (size (cs_nodes (su_control e))) /\
    sb_routeCount body = zlen (effectiveRoutes (su_control e)) /\
    sb_cacheObjects body = engine_objects (svc_engine svc) /\
    sb_cacheMemory body = engine_cost (svc_engine svc).
Proof.
  intros Hi Hc Ho Hm. destruct (Stats_run (svc_engine svc) Hi Hc Ho Hm) as (st & Hst & Hob & Hby & _).
  assert (statsLocked svc = (svc, Ok st)) as Hs.
  { unfold statsLocked. cbn [eng_Stats memory_engine]. rewrite Hst. by destruct svc. }
  unfold Summary. rewrite Hs. eexists. split; [reflexivity|]. cbn.
  split_and!; [apply sorted_length..| |done|done].
  unfold RouteCount, checkedUint64. rewrite (proj2 (Z.ltb_ge _ _)); [done|]. unfold zlen. lia.
Qed.
End SummarySpec.

(** ** Validation *)

(** A configuration is accepted when something is enabled, the admin service has its
    control and node services beside it, and the Redis server a node and a user. *)
Lemma valid_config cfg : validateServerConfig cfg = None <->
  (cc_enabled (sc_control cfg) || nd_enabled (sc_node cfg) || ep_enabled (sc_frontend cfg) ||
   rd_enabled (sc_redis cfg) || ep_enabled (sc_admin cfg)) = true /\
  (ep_enabled (sc_admin cfg) = true -> cc_enabled (sc_control cfg) = true /\ nd_enabled (sc_node cfg) = true) /\
  (rd_enabled (sc_redis cfg) = true -> nd_enabled (sc_node cfg) = true /\ rd_users (sc_redis cfg) <> []).
Proof.
  unfold validateServerConfig, validateAdminConfig, validateRedisConfig.
  destruct (cc_enabled _), (nd_enabled _), (ep_enabled (sc_frontend cfg)), (rd_enabled _), (ep_enabled (sc_admin cfg));
    cbn; repeat case_bool_decide; naive_solver.
Qed.

(** The defaults are accepted, and configure a control service. *)
Lemma defaults_valid : validateServerConfig serverDefaults = None /\ exists cfg, controlConfigFrom serverDefaults = Ok cfg.
Proof. split; [reflexivity|by eexists]. Qed.

(** ** Stopping a server *)

(** A server that was started once stops, and its replication with it, exactly when its
    listener closes and every connection is ended by its peer. *)
Lemma stop_needs_peers conns closes leaving (s : ServerLife) :
  s = foldr (acceptConn 0) (tcpStart true true newServerLife).1 conns ->
  let '(s', err) := tcpStop closes leaving s in
  (err = None <-> closes = true /\ list_to_set conns ⊆ leaving) /\
  (err = None <-> sl_replicating s' = false).
Proof.
  assert (foldr (acceptConn 0) (tcpStart true true newServerLife).1 conns =
    mkServerLife 1 (Some 0%nat) {[0%nat]} (list_to_set conns) true) as ->.
  { induction conns as [|c conns IH]; [cbn; f_equal; set_solver|]. cbn [foldr]. rewrite IH. unfold acceptConn. cbn.
    rewrite bool_decide_eq_true_2 by set_solver. done. }
  intros ->. unfold tcpStop, closeAndWait. cbn. destruct closes; cbn; [|naive_solver].
  case_bool_decide as E; cbn.
  - destruct E as [_ E]. split; [|done]. split; [|done]. intros _. split; [done|]. set_solver.
  - split; [|done]. split; [done|]. intros [_ Hl]. destruct E. set_solver.
Qed.

(** One idle client keeps a server from stopping: the stop fails, and the replication goes on
    although nothing listens any more. *)
Lemma idle_connection_blocks_stop :
  let s := acceptConn 0 7 (tcpStart true true newServerLife).1 in
  let '(s', err) := tcpStop true ∅ s in
  err = Some StopTimedOut /\ sl_replicating s' = true /\ sl_listener s' = None /\ sl_conns s' = {[7%nat]}.
Proof. vm_compute. split_and!; reflexivity. Qed.
