(* ===== verification/Routed.v ===== *)
(** * The routed client (client: tcp.go, counter.go, routed.go, routed_batch.go, routed_batch_more.go,
    routed_batch_more_helpers.go, routed_primitive.go, routed_primitive_batch.go)

    The routed client keeps a snapshot of the control plane and sends each request
    to the node the snapshot's routes lead to, with the snapshot's revision and the
    catalog versions of the key's namespace and space.  When a call fails in a way
    that a newer snapshot may cure it refreshes the snapshot and tries once more.

    The client's transport and the nodes are the [cluster] of the executor; what
    becomes of a call and of a request for a snapshot are arguments.  The lists and
    maps of the collection library are lists and finite maps.  What that library
    does when a nil list is ranged over is not known here: it is the parameter
    [NilLists]. *)

From S2P Require Import Prelude.
From S2P Require Import Binary.
From S2P Require Import GoStrings.
From S2P Require Import ControlApi.
From S2P Require Import Routing.
From S2P Require Import ControlRoutes.
From S2P Require Import Control.
From S2P Require Import Frame.
From S2P Require Import Service.
From S2P Require Import WireTypes.
From S2P Require Import TcpWire.
From S2P Require Import TcpServer.
From S2P Require Import TcpClient.
From S2P Require Import Executor.
From S2P Require Import NodeAgent.

Local Open Scope Z_scope.
Local Open Scope nespa_scope.

(** ** Errors and outcomes *)

(** What a call of the routed client returns as its error.  [ContextEnded] stands
    for an error that is [context.Canceled] or [context.DeadlineExceeded];
    [Panicked] for a panic. *)
Inductive routedError :=
| CallFailed (e : clientError)
| FetchFailed
| ContextEnded
| RouteRefreshFailed
| RouteSnapshotReadFailed
| ErrNoRoute
| ErrCatalogVersion
| Panicked.

(** What becomes of a call: as in the executor, or the context ends during it. *)
Inductive sendFate := Proceeds (fate : callFate) | Ends (fate : callFate).

(** What becomes of a request for the snapshot. *)
Inductive fetchFate := Fetched (snapshot : SnapshotBody) | NotFetched | FetchEnds.

Class NilLists := { nil_range_panics : bool }.

(** ** Decisions *)

(** src: client/routed.go routeDecision *)
Record routeDecision := mkDecision {
  rd_addr : string;
  rd_routeEpoch : Z;
  rd_namespaceVersion : Z;
  rd_spaceVersion : Z
}.

(** src: client/routed.go sameRouteDecision *)
Definition sameRouteDecision (left right : routeDecision) : bool :=
  bool_decide (rd_addr left = rd_addr right) && (rd_routeEpoch left =? rd_routeEpoch right)
  && (rd_namespaceVersion left =? rd_namespaceVersion right) && (rd_spaceVersion left =? rd_spaceVersion right).

(** src: client/routed.go resolveSnapshot *)
Definition resolveSnapshot (snapshot : SnapshotBody) (key : WireTypes.Key) : result routedError routeDecision :=
  match Select (sb_routes snapshot) (wk_namespace key) (wk_space key) (wk_key key) with
  | None => Err ErrNoRoute
  | Some route =>
      match NamespaceVersion (sb_namespaces snapshot) (wk_namespace key) with
      | None => Err ErrCatalogVersion
      | Some namespaceVersion =>
          match SpaceVersion (sb_spaces snapshot) (wk_namespace key) (wk_space key) with
          | None => Err ErrCatalogVersion
          | Some spaceVersion => Ok (mkDecision (rt_addr route) (sb_revision snapshot) namespaceVersion spaceVersion)
          end
      end
  end.

(** Whether to refresh the snapshot, and whether to try again only when the
    decision changes.
    src: client/routed.go shouldRefreshRoute *)
Definition shouldRefreshRoute (err : routedError) : bool * bool :=
  match err with
  | ContextEnded => (false, false)
  | CallFailed (RemoteError body) =>
      if err_code body =? ErrorNoRoute then (true, false)
      else if (err_code body =? ErrorTimeout) || (err_code body =? ErrorUnavailable) then (true, true)
      else (false, false)
  | _ => (true, true)
  end.

(** ** Requests *)

(** A request with a key, which a decision is stamped on. *)
Class Routable (T : Type) := { keyOf : T -> WireTypes.Key; stamp : routeDecision -> T -> T }.

(** src: client/routed.go stampSetRequest *)
#[export] Instance stampSetRequest : Routable WireTypes.SetRequest := {|
  keyOf := ws_key;
  stamp d r := WireTypes.mkSetRequest (ws_key r) (ws_value r) (rd_routeEpoch d) (ws_ttlMillis r) (rd_namespaceVersion d)
    (rd_spaceVersion d) (ws_expectedVersion r) (ws_payloadOffset r) (ws_payloadSize r)
|}.

(** src: client/routed.go stampGetRequest *)
#[export] Instance stampGetRequest : Routable WireTypes.GetRequest := {|
  keyOf := wg_key;
  stamp d r := WireTypes.mkGetRequest (wg_key r) (rd_routeEpoch d) (rd_namespaceVersion d) (rd_spaceVersion d)
|}.

(** A delete carries no versions of the catalog.
    src: client/routed_batch_more_helpers.go stampDeleteRequest *)
#[export] Instance stampDeleteRequest : Routable WireTypes.DeleteRequest := {|
  keyOf := wd_key;
  stamp d r := WireTypes.mkDeleteRequest (wd_key r) (rd_routeEpoch d) (wd_expectedVersion r)
|}.

(** src: client/routed.go stampExistsRequest *)
#[export] Instance stampExistsRequest : Routable ExistsRequest := {|
  keyOf := we_key;
  stamp d r := mkExistsRequest (we_key r) (rd_routeEpoch d) (rd_namespaceVersion d) (rd_spaceVersion d)
|}.

(** src: client/routed.go stampTouchRequest *)
#[export] Instance stampTouchRequest : Routable WireTypes.TouchRequest := {|
  keyOf := wt_key;
  stamp d r := WireTypes.mkTouchRequest (wt_key r) (rd_routeEpoch d) (wt_ttlMillis r) (rd_namespaceVersion d)
    (rd_spaceVersion d) (wt_expectedVersion r)
|}.

(** src: client/routed.go stampAdjustRequest *)
#[export] Instance stampAdjustRequest : Routable AdjustRequest := {|
  keyOf := wa_key;
  stamp d r := mkAdjustRequest (wa_key r) (rd_routeEpoch d) (wa_ttlMillis r) (wa_initialValue r) (wa_delta r)
    (rd_namespaceVersion d) (rd_spaceVersion d) (wa_expectedVersion r)
|}.

(** src: client/routed_primitive.go stampPrimitiveRequest *)
#[export] Instance stampPrimitiveRequest : Routable WireTypes.PrimitiveRequest := {|
  keyOf := wp_key;
  stamp d r := WireTypes.mkPrimitiveRequest (wp_key r) (rd_routeEpoch d) (wp_kind r) (wp_ttlMillis r)
    (rd_namespaceVersion d) (rd_spaceVersion d) (wp_expectedVersion r) (wp_field r) (wp_member r) (wp_value r)
    (wp_delta r) (wp_initialValue r) (wp_score r) (wp_minScore r) (wp_maxScore r) (wp_hasMinScore r) (wp_hasMaxScore r)
    (wp_limit r) (wp_start r) (wp_reverse r) (wp_payloadOffset r) (wp_payloadSize r)
|}.

(** ** State *)

(** The client's snapshot, its transport and the nodes.
    src: client/routed.go RoutedTCPClient *)
Record routed (E : Type) := mkRouted { ro_world : cluster E; ro_snapshot : SnapshotBody }.
Arguments mkRouted {E} _ _.
Arguments ro_world {E} _.
Arguments ro_snapshot {E} _.

(** src: client/routed.go Refresh *)
Definition Refresh {E} (fate : fetchFate) (s : routed E) : routed E * result routedError unit :=
  match fate with
  | Fetched snapshot => (mkRouted (ro_world s) snapshot, Ok tt)
  | NotFetched => (s, Err FetchFailed)
  | FetchEnds => (s, Err ContextEnded)
  end.

(** src: client/routed.go currentSnapshot *)
Definition currentSnapshot {E} (fate : fetchFate) (s : routed E) : routed E * result routedError SnapshotBody :=
  if negb (sb_revision (ro_snapshot s) =? 0) then (s, Ok (ro_snapshot s))
  else
    match Refresh fate s with
    | (s, Err e) => (s, Err e)
    | (s, Ok _) => (s, Ok (ro_snapshot s))
    end.

(** src: client/routed.go resolve *)
Definition resolve {E} (fate : fetchFate) (key : WireTypes.Key) (s : routed E)
    : routed E * result routedError routeDecision :=
  match currentSnapshot fate s with
  | (s, Err e) => (s, Err e)
  | (s, Ok snapshot) => (s, resolveSnapshot snapshot key)
  end.

(** The outcomes of one call: the first look at the snapshot, the first send, the
    refresh, the second look and the second send. *)
Record routeFates := mkRouteFates {
  ra_fetch : fetchFate;
  ra_send : sendFate;
  ra_refresh : fetchFate;
  ra_refetch : fetchFate;
  ra_resend : sendFate
}.

(** ** Single calls *)

(** [err] is assigned by the second [resolve], so that an unchanged decision
    returns the response of the failed call without an error.  That response is the
    zero value of its struct whatever failed: the transport gives its error before
    anything is decoded, and the decoders of the responses return a zero value with
    their errors.
    src: client/routed.go sendWithRouteRetry *)
Definition sendWithRouteRetry {E T} (zero : T) (fates : routeFates) (key : WireTypes.Key)
    (send : sendFate -> routeDecision -> routed E -> routed E * result routedError T) (s : routed E)
    : routed E * result routedError T :=
  match resolve (ra_fetch fates) key s with
  | (s, Err e) => (s, Err e)
  | (s, Ok decision) =>
  match send (ra_send fates) decision s with
  | (s, Ok response) => (s, Ok response)
  | (s, Err e) =>
      let '(refresh, requireChange) := shouldRefreshRoute e in
      if negb refresh then (s, Err e)
      else
        match Refresh (ra_refresh fates) s with
        | (s, Err _) => (s, Err RouteRefreshFailed)
        | (s, Ok _) =>
        match resolve (ra_refetch fates) key s with
        | (s, Err e) => (s, Err e)
        | (s, Ok next) =>
            if (requireChange : bool) && sameRouteDecision decision next then (s, Ok zero)
            else send (ra_resend fates) next s
        end end
  end end.

Section Client.
  Context `{!RangeOrder, !ErrorBody, !NilLists} {E : Type} `{!Engine E}.

(** A call of the transport to the node at [addr]. *)
Definition callAt {A} (fate : sendFate) (addr : string)
    (call : callEnv -> Client -> option (Server E) -> called (E := E) A) (s : routed E)
    : routed E * result routedError A :=
  match fate with
  | Proceeds fate =>
      let '(w, r) := callNode fate addr call (ro_world s) in (mkRouted w (ro_snapshot s), map_err CallFailed r)
  | Ends fate => (mkRouted (callNode fate addr call (ro_world s)).1 (ro_snapshot s), Err ContextEnded)
  end.

(** A single call: the request is stamped with each decision it is sent with. *)
Definition routedCall {Req Res} `{!Routable Req} (zero : Res) (fates : routeFates) (request : Req)
    (call : callEnv -> Client -> option (Server E) -> Req -> called (E := E) Res) (s : routed E)
    : routed E * result routedError Res :=
  sendWithRouteRetry zero fates (keyOf request) (fun fate decision =>
    callAt fate (rd_addr decision) (fun env c peer => call env c peer (stamp decision request))) s.

(** src: client/routed.go Set *)
Definition routedSet fates (request : WireTypes.SetRequest) s := routedCall missingRecord fates request clientSet s.
(** src: client/routed.go Get *)
Definition routedGet fates (request : WireTypes.GetRequest) s := routedCall missingRecord fates request clientGet s.
(** src: client/routed.go Delete *)
Definition routedDelete fates (request : WireTypes.DeleteRequest) s :=
  routedCall (mkDeleteResponse false) fates request clientDelete s.
(** src: client/routed.go Exists *)
Definition routedExists fates (request : ExistsRequest) s :=
  routedCall (mkExistsResponse false) fates request clientExists s.
(** src: client/routed.go Touch *)
Definition routedTouch fates (request : WireTypes.TouchRequest) s :=
  routedCall (mkTouchResponse false) fates request clientTouch s.
(** src: client/routed.go Adjust *)
Definition routedAdjust fates (request : AdjustRequest) s := routedCall missingRecord fates request clientAdjust s.

(** The zero value of the struct. *)
Definition zeroPrimitive : WireTypes.PrimitiveResult :=
  WireTypes.mkPrimitiveResult missingRecord false false [] false 0 [] [] [] [] 0 0.

(** src: client/routed_primitive.go Primitive *)
Definition routedPrimitive fates (request : WireTypes.PrimitiveRequest) s :=
  routedCall zeroPrimitive fates request clientPrimitive s.

(** ** Batches *)

(** The requests of a batch with their positions.
    src: client/routed_batch_more_helpers.go indexBatchItems *)
Definition indexBatchItems {T} (items : list T) : list (nat * T) := imap pair items.

(** src: client/routed_batch.go indexSetRequests *)
Definition indexSetRequests (items : list WireTypes.SetRequest) := indexBatchItems items.
(** src: client/routed_batch.go indexGetRequests *)
Definition indexGetRequests (items : list WireTypes.GetRequest) := indexBatchItems items.
(** src: client/routed_primitive_batch.go indexPrimitiveRequests *)
Definition indexPrimitiveRequests (items : list WireTypes.PrimitiveRequest) := indexBatchItems items.

(** src: client/routed_batch.go addBatchGroup *)
Definition addBatchGroup {T} (groups : gmap string (list T)) (addr : string) (item : T) : gmap string (list T) :=
  <[addr := default [] (groups !! addr) ++ [item]]> groups.

(** src: client/routed_batch.go orderedBatchGroups *)
Definition orderedBatchGroups {T} (groups : gmap string (list T)) : list (string * list T) :=
  let addrs := merge_sort (by_key id) (range_order groups).*1 in
  (fun addr => (addr, default [] (groups !! addr))) <$> addrs.

(** The loop over the items: the groups so far, or the first error. *)
Fixpoint groupItems {T} `{!Routable T} (snapshot : SnapshotBody) (items : list (nat * T))
    (groups : gmap string (list (nat * T))) : result routedError (gmap string (list (nat * T))) :=
  match items with
  | [] => Ok groups
  | (index, request) :: rest =>
      match resolveSnapshot snapshot (keyOf request) with
      | Err e => Err e
      | Ok decision =>
          groupItems snapshot rest (addBatchGroup groups (rd_addr decision) (index, stamp decision request))
      end
  end.

(** src: client/routed_batch_more_helpers.go groupRoutedWireRequests *)
Definition groupRoutedWireRequests {T} `{!Routable T} (snapshot : SnapshotBody) (items : list (nat * T))
    : result routedError (list (string * list (nat * T))) :=
  groups ← groupItems snapshot items ∅; Ok (orderedBatchGroups groups).

(** src: client/routed_batch.go groupSetRequests *)
Definition groupSetRequests := groupRoutedWireRequests (T := WireTypes.SetRequest).
(** src: client/routed_batch.go groupGetRequests *)
Definition groupGetRequests := groupRoutedWireRequests (T := WireTypes.GetRequest).
(** src: client/routed_batch_more.go groupDeleteRequests *)
Definition groupDeleteRequests := groupRoutedWireRequests (T := WireTypes.DeleteRequest).
(** src: client/routed_batch_more.go groupExistsRequests *)
Definition groupExistsRequests := groupRoutedWireRequests (T := ExistsRequest).
(** src: client/routed_batch_more.go groupTouchRequests *)
Definition groupTouchRequests := groupRoutedWireRequests (T := WireTypes.TouchRequest).
(** src: client/routed_primitive_batch.go groupPrimitiveRequests *)
Definition groupPrimitiveRequests := groupRoutedWireRequests (T := WireTypes.PrimitiveRequest).

(** A nil list stands for [None].
    src: client/routed_batch.go flattenBatchGroups *)
Definition flattenBatchGroups {T} (groups : option (list (string * list T))) : result routedError (list T) :=
  match groups with
  | None => if nil_range_panics then Err Panicked else Ok []
  | Some groups => Ok (mjoin groups.*2)
  end.

(** src: client/routed_batch_more_helpers.go batchItems *)
Definition batchItems {T} (group : list (nat * T)) : list T := group.*2.

(** src: client/routed_batch.go setItems *)
Definition setItems (group : list (nat * WireTypes.SetRequest)) := batchItems group.
(** src: client/routed_batch.go getItems *)
Definition getItems (group : list (nat * WireTypes.GetRequest)) := batchItems group.
(** src: client/routed_primitive_batch.go primitiveItems *)
Definition primitiveItems (group : list (nat * WireTypes.PrimitiveRequest)) := batchItems group.

(** Responses beyond the group are dropped.
    src: client/routed_batch_more_helpers.go copyBatchResults *)
Definition copyBatchResults {R T} (results : list R) (group : list (nat * T)) (response : list R) : list R :=
  foldl (fun results '(item, r) => <[item.1 := r]> results) results (zip group response).

(** src: client/routed_batch.go copySetRecords *)
Definition copySetRecords (records : list WireRecord) (group : list (nat * WireTypes.SetRequest)) response :=
  copyBatchResults records group response.
(** src: client/routed_batch.go copyGetRecords *)
Definition copyGetRecords (records : list WireRecord) (group : list (nat * WireTypes.GetRequest)) response :=
  copyBatchResults records group response.
(** src: client/routed_primitive_batch.go copyPrimitiveResults *)
Definition copyPrimitiveResults (results : list WireTypes.PrimitiveResult)
    (group : list (nat * WireTypes.PrimitiveRequest)) response := copyBatchResults results group response.

(** The outcomes of a batch: those of a single call, with a send for each group. *)
Record batchFates := mkBatchFates {
  ba_fetch : fetchFate;
  ba_sends : nat -> sendFate;
  ba_refresh : fetchFate;
  ba_refetch : fetchFate;
  ba_resends : nat -> sendFate
}.

(** How a group is sent: its epoch, address and items. *)
Definition sender (T R : Type) : Type :=
  sendFate -> Z -> string -> list (nat * T) -> routed E -> routed E * result routedError (list R).

(** The loop over the groups: the records, the groups that are left when a send
    fails, and the error. *)
Fixpoint runGroups {T R} (sends : nat -> sendFate) (epoch : Z) (groups : list (string * list (nat * T)))
    (records : list R) (send : sender T R) (s : routed E)
    : routed E * (list R * option (list (string * list (nat * T))) * option routedError) :=
  match groups with
  | [] => (s, (records, None, None))
  | (addr, items) :: rest =>
      match send (sends 0%nat) epoch addr items s with
      | (s, Err e) => (s, (records, Some groups, Some e))
      | (s, Ok response) =>
          runGroups (fun i => sends (S i)) epoch rest (copyBatchResults records items response) send s
      end
  end.

(** src: client/routed_batch.go runRoutedBatch *)
Definition runRoutedBatch {T R} (zero : R) (sends : nat -> sendFate) (count : nat) (epoch : Z)
    (groups : list (string * list (nat * T))) (records : list R) (send : sender T R) (s : routed E) :=
  let records := if bool_decide (length records = count) then records else List.repeat zero count in
  runGroups sends epoch groups records send s.

(** src: client/routed_batch.go runRoutedBatchWithCurrentSnapshot *)
Definition runRoutedBatchWithCurrentSnapshot {T R} `{!Routable T} (zero : R) (fates : batchFates) (count : nat)
    (items : list (nat * T)) (send : sender T R) (s : routed E)
    : routed E * (list R * option (list (string * list (nat * T))) * option routedError) :=
  match currentSnapshot (ba_fetch fates) s with
  | (s, Err e) => (s, ([], None, Some e))
  | (s, Ok snapshot) =>
      match groupRoutedWireRequests snapshot items with
      | Err e => (s, ([], None, Some e))
      | Ok groups =>
          runRoutedBatch zero (ba_sends fates) count (sb_revision snapshot) groups (List.repeat zero count) send s
      end
  end.

(** The records and the error.
    src: client/routed_batch.go routedBatch *)
Definition routedBatch {T R} `{!Routable T} (zero : R) (fates : batchFates) (count : nat) (items : list (nat * T))
    (send : sender T R) (s : routed E) : routed E * (list R * option routedError) :=
  if bool_decide (count = 0%nat) then (s, ([], None))
  else
    match runRoutedBatchWithCurrentSnapshot zero fates count items send s with
    | (s, (records, _, None)) => (s, (records, None))
    | (s, (records, remaining, Some err)) =>
        if negb (shouldRefreshRoute err).1 then (s, (records, Some err))
        else
          match Refresh (ba_refresh fates) s with
          | (s, Err _) => (s, ([], Some RouteRefreshFailed))
          | (s, Ok _) =>
          match currentSnapshot (ba_refetch fates) s with
          | (s, Err _) => (s, ([], Some RouteSnapshotReadFailed))
          | (s, Ok snapshot) =>
          match flattenBatchGroups remaining with
          | Err e => (s, ([], Some e))
          | Ok retryItems =>
          match groupRoutedWireRequests snapshot retryItems with
          | Err e => (s, (records, Some e))
          | Ok groups =>
              let '(s, (records, _, err)) :=
                runRoutedBatch zero (ba_resends fates) count (sb_revision snapshot) groups records send s in
              (s, (records, err))
          end end end end
    end.

(** A group is one batch call of the transport. *)
Definition sendGroup {T B R' R} (request : Z -> list T -> B)
    (call : callEnv -> Client -> option (Server E) -> B -> called (E := E) R') (results : R' -> list R) : sender T R :=
  fun fate epoch addr group s =>
    let '(s, r) := callAt fate addr (fun env c peer => call env c peer (request epoch (batchItems group))) s in
    (s, results <$> r).

(** src: client/routed_batch.go BatchSet *)
Definition routedBatchSet fates (request : BatchSetRequest) s : routed E * result routedError BatchSetResponse :=
  let '(s, (records, err)) :=
    routedBatch missingRecord fates (length (bs_items request)) (indexSetRequests (bs_items request))
      (sendGroup mkBatchSetRequest clientBatchSet bsr_records) s in
  (s, match err with Some e => Err e | None => Ok (mkBatchSetResponse records) end).

(** src: client/routed_batch.go BatchGet *)
Definition routedBatchGet fates (request : BatchGetRequest) s : routed E * result routedError BatchGetResponse :=
  let '(s, (records, err)) :=
    routedBatch missingRecord fates (length (bg_items request)) (indexGetRequests (bg_items request))
      (sendGroup mkBatchGetRequest clientBatchGet bgr_records) s in
  (s, match err with Some e => Err e | None => Ok (mkBatchGetResponse records) end).

(** src: client/routed_batch_more.go sendDeleteBatch *)
Definition sendDeleteBatch := sendGroup mkBatchDeleteRequest clientBatchDelete bdr_results.
(** src: client/routed_batch_more.go sendExistsBatch *)
Definition sendExistsBatch := sendGroup mkBatchExistsRequest clientBatchExists ber_results.
(** src: client/routed_batch_more.go sendTouchBatch *)
Definition sendTouchBatch := sendGroup mkBatchTouchRequest clientBatchTouch btr_results.
(** src: client/routed_primitive_batch.go sendPrimitiveBatch *)
Definition sendPrimitiveBatch := sendGroup mkBatchPrimitiveRequest clientBatchPrimitive bpr_results.

(** The results are returned with the error.
    src: client/routed_batch_more.go BatchDelete *)
Definition routedBatchDelete fates (request : BatchDeleteRequest) s
    : routed E * (BatchDeleteResponse * option routedError) :=
  let '(s, (results, err)) :=
    routedBatch (mkDeleteResponse false) fates (length (bd_items request)) (indexBatchItems (bd_items request))
      sendDeleteBatch s in
  (s, (mkBatchDeleteResponse results, err)).

(** src: client/routed_batch_more.go BatchExists *)
Definition routedBatchExists fates (request : BatchExistsRequest) s
    : routed E * (BatchExistsResponse * option routedError) :=
  let '(s, (results, err)) :=
    routedBatch (mkExistsResponse false) fates (length (be_items request)) (indexBatchItems (be_items request))
      sendExistsBatch s in
  (s, (mkBatchExistsResponse results, err)).

(** src: client/routed_batch_more.go BatchTouch *)
Definition routedBatchTouch fates (request : BatchTouchRequest) s
    : routed E * (BatchTouchResponse * option routedError) :=
  let '(s, (results, err)) :=
    routedBatch (mkTouchResponse false) fates (length (bt_items request)) (indexBatchItems (bt_items request))
      sendTouchBatch s in
  (s, (mkBatchTouchResponse results, err)).

(** src: client/routed_primitive_batch.go batchPrimitive *)
Definition routedBatchPrimitive fates (request : BatchPrimitiveRequest) s
    : routed E * (BatchPrimitiveResponse * option routedError) :=
  let '(s, (results, err)) :=
    routedBatch zeroPrimitive fates (length (bp_items request)) (indexPrimitiveRequests (bp_items request))
      sendPrimitiveBatch s in
  (s, (mkBatchPrimitiveResponse results, err)).
End Client.

(** ** Counters (counter.go) *)

(** src: client/counter.go CounterRequest *)
Record CounterRequest := mkCounterRequest {
  co_key : WireTypes.Key;
  co_delta : Z;
  co_initialValue : Z;
  co_ttlMillis : Z;
  co_namespaceVersion : Z;
  co_spaceVersion : Z;
  co_maxRetries : Z
}.

(** src: client/counter.go CounterResult *)
Record CounterResult := mkCounterResult { cr_record : WireRecord; cr_value : Z }.

Inductive counterError (CallErr : Type) :=
| CounterCall (e : CallErr)
| InvalidCounterValue
| CounterOverflow (base delta : Z)
| CounterRetriesExhausted (maxRetries : Z).
Arguments CounterCall {CallErr} e.
Arguments InvalidCounterValue {CallErr}.
Arguments CounterOverflow {CallErr} base delta.
Arguments CounterRetriesExhausted {CallErr} maxRetries.

(** The sum, or nothing when it overflows.
    src: client/counter.go safeAdd *)
Definition safeAdd (base delta : Z) : option Z :=
  if (0 <? delta) && (s64 (2 ^ 63 - 1 - delta) <? base) then None
  else if (delta <? 0) && (base <? s64 (- 2 ^ 63 - delta)) then None
  else Some (s64 (base + delta)).

(** src: client/counter.go recordTTLMillis *)
Definition recordTTLMillis (expireAtUnixMs : Z) (now : Time) : Z :=
  if expireAtUnixMs <=? 0 then 0
  else
    let remaining := s64 (expireAtUnixMs - UnixMilli now) in
    if remaining <=? 0 then 0 else remaining.

(** src: client/counter.go parseInt64 *)
Definition parseInt64 (raw : list byte) : option Z := ParseInt (str_bytes (TrimSpace (bytes_str raw))).

(** src: client/counter.go currentCounterResult *)
Record currentCounterResult := mkCurrentCounter {
  cc_next : Z;
  cc_version : Z;
  cc_ttlMillis : Z;
  cc_namespaceVersion : Z;
  cc_spaceVersion : Z
}.

Section Counter.
  Context {St CallErr : Type}.
  (** The reads and the writes of the i-th attempt. *)
  Context (get : nat -> WireTypes.GetRequest -> St -> St * result CallErr WireRecord).
  Context (set : nat -> WireTypes.SetRequest -> St -> St * result CallErr WireRecord).
  Context (now : nat -> Time).

(** src: client/counter.go currentCounter *)
Definition currentCounter (attempt : nat) (request : CounterRequest) (s : St)
      : St * result (counterError CallErr) currentCounterResult :=
  match get attempt (WireTypes.mkGetRequest (co_key request) 0 (co_namespaceVersion request) (co_spaceVersion request)) s with
  | (s, Err e) => (s, Err (CounterCall e))
  | (s, Ok record) =>
      (s, if negb (wr_found record) then
            match safeAdd (co_initialValue request) (co_delta request) with
            | None => Err (CounterOverflow (co_initialValue request) (co_delta request))
            | Some next => Ok (mkCurrentCounter next 0 (co_ttlMillis request) (co_namespaceVersion request)
                                 (co_spaceVersion request))
            end
          else
            match parseInt64 (wr_value record) with
            | None => Err InvalidCounterValue
            | Some decoded =>
                match safeAdd decoded (co_delta request) with
                | None => Err (CounterOverflow decoded (co_delta request))
                | Some next => Ok (mkCurrentCounter next (wr_version record)
                                     (recordTTLMillis (wr_expireAtUnixMs record) (now attempt))
                                     (wr_namespaceVersion record) (wr_spaceVersion record))
                end
            end)
  end.

(** The loop from the attempt [attempt], with [todo] attempts to go. *)
Fixpoint counterLoop (todo attempt : nat) (maxRetries : Z) (request : CounterRequest) (s : St)
      : St * result (counterError CallErr) CounterResult :=
  match todo with
  | O => (s, Err (CounterRetriesExhausted maxRetries))
  | S todo =>
      match currentCounter attempt request s with
      | (s, Err e) => (s, Err e)
      | (s, Ok current) =>
          let setReq := WireTypes.mkSetRequest (co_key request) (FormatInt (cc_next current)) 0 (cc_ttlMillis current)
            (cc_namespaceVersion current) (cc_spaceVersion current) (cc_version current) 0 0 in
          match set attempt setReq s with
          | (s, Err e) => (s, Err (CounterCall e))
          | (s, Ok response) =>
              if wr_found response then (s, Ok (mkCounterResult response (cc_next current)))
              else counterLoop todo (S attempt) maxRetries request s
          end
      end
  end.

(** src: client/counter.go applyCounter *)
Definition applyCounter (request : CounterRequest) (s : St)   : St * result (counterError CallErr) CounterResult :=
  let maxRetries := if co_maxRetries request <=? 0 then 8 else co_maxRetries request in
  counterLoop (Z.to_nat maxRetries) 0 maxRetries request s.
End Counter.

Section RoutedCounter.
  Context `{!RangeOrder, !ErrorBody} {E : Type} `{!Engine E}.

(** The outcomes of an attempt of a counter. *)
Record counterFates := mkCounterFates { cf_get : routeFates; cf_set : routeFates; cf_now : Time }.

(** src: client/counter.go Counter 57-69 *)
Definition routedCounter (fates : nat -> counterFates) (request : CounterRequest) (s : routed E) :=
  applyCounter
    (fun i (r : WireTypes.GetRequest) => routedGet (cf_get (fates i))
       (WireTypes.mkGetRequest (co_key request) (wg_routeEpoch r) (wg_namespaceVersion r) (wg_spaceVersion r)))
    (fun i (r : WireTypes.SetRequest) => routedSet (cf_set (fates i)) r)
    (fun i => cf_now (fates i)) request s.

(** What becomes of the calls of a direct client. *)
Record directFates := mkDirectFates { df_get : callFate; df_set : callFate; df_now : Time }.

(** The direct client sends every request to one address.
    src: client/counter.go Counter 41-55 *)
Definition directCounter (fates : nat -> directFates) (addr : string) (request : CounterRequest) (w : cluster E) :=
  applyCounter
    (fun i (_ : WireTypes.GetRequest) => callNode (df_get (fates i)) addr (fun env c peer =>
       clientGet env c peer (WireTypes.mkGetRequest (co_key request) 0 (co_namespaceVersion request) (co_spaceVersion request))))
    (fun i (r : WireTypes.SetRequest) => callNode (df_set (fates i)) addr (fun env c peer =>
       clientSet env c peer (WireTypes.mkSetRequest (co_key request) (ws_value r) (ws_routeEpoch r) (ws_ttlMillis r)
         (co_namespaceVersion request) (co_spaceVersion request) (ws_expectedVersion r) 0 0)))
    (fun i => df_now (fates i)) request w.
End RoutedCounter.

(** ** The direct client (tcp.go) *)

(** The transport of the client is the one of the cluster.
    src: client/tcp.go TCPClient *)
Record TCPClient := mkTCPClient { tc_addr : string }.

(** [None] stands for [ErrInvalidConfig].
    src: client/tcp.go NewTCP *)
Definition NewTCP (cfgAddr : string) : option TCPClient :=
  let addr := TrimSpace cfgAddr in
  if bool_decide (addr = "") then None else Some (mkTCPClient addr).

Section Direct.
  Context `{!RangeOrder, !ErrorBody} {E : Type} `{!Engine E}.
  Implicit Types (fate : callFate) (t : TCPClient) (w : cluster E).

(** src: client/tcp.go Set *)
Definition tcpSet fate t (request : WireTypes.SetRequest) w :=
  callNode fate (tc_addr t) (fun env c peer => clientSet env c peer request) w.
(** src: client/tcp.go Get *)
Definition tcpGet fate t (request : WireTypes.GetRequest) w :=
  callNode fate (tc_addr t) (fun env c peer => clientGet env c peer request) w.
(** src: client/tcp.go Delete *)
Definition tcpDelete fate t (request : WireTypes.DeleteRequest) w :=
  callNode fate (tc_addr t) (fun env c peer => clientDelete env c peer request) w.
(** src: client/tcp.go Exists *)
Definition tcpExists fate t (request : ExistsRequest) w :=
  callNode fate (tc_addr t) (fun env c peer => clientExists env c peer request) w.
(** src: client/tcp.go Touch *)
Definition tcpTouch fate t (request : WireTypes.TouchRequest) w :=
  callNode fate (tc_addr t) (fun env c peer => clientTouch env c peer request) w.
(** src: client/tcp.go Adjust *)
Definition tcpAdjust fate t (request : AdjustRequest) w :=
  callNode fate (tc_addr t) (fun env c peer => clientAdjust env c peer request) w.
(** src: client/tcp.go Primitive *)
Definition tcpPrimitive fate t (request : WireTypes.PrimitiveRequest) w :=
  callNode fate (tc_addr t) (fun env c peer => clientPrimitive env c peer request) w.
(** src: client/tcp.go BatchSet *)
Definition tcpBatchSet fate t (request : BatchSetRequest) w :=
  callNode fate (tc_addr t) (fun env c peer => clientBatchSet env c peer request) w.
(** src: client/tcp.go BatchPrimitive *)
Definition tcpBatchPrimitive fate t (request : BatchPrimitiveRequest) w :=
  callNode fate (tc_addr t) (fun env c peer => clientBatchPrimitive env c peer request) w.
(** src: client/tcp.go BatchGet *)
Definition tcpBatchGet fate t (request : BatchGetRequest) w :=
  callNode fate (tc_addr t) (fun env c peer => clientBatchGet env c peer request) w.
(** src: client/tcp.go BatchDelete *)
Definition tcpBatchDelete fate t (request : BatchDeleteRequest) w :=
  callNode fate (tc_addr t) (fun env c peer => clientBatchDelete env c peer request) w.
(** src: client/tcp.go BatchExists *)
Definition tcpBatchExists fate t (request : BatchExistsRequest) w :=
  callNode fate (tc_addr t) (fun env c peer => clientBatchExists env c peer request) w.
(** src: client/tcp.go BatchTouch *)
Definition tcpBatchTouch fate t (request : BatchTouchRequest) w :=
  callNode fate (tc_addr t) (fun env c peer => clientBatchTouch env c peer request) w.
End Direct.
