(* ===== verification/RoutedSpec.v ===== *)
(** * The routed client reaches the owners of keys

    With the snapshot the control plane publishes, a call goes to the owner of its
    key; a client with an old snapshot is refused by the node, refreshes and then
    reaches the new owner; a batch gives each request the answer its owner gave.
    An unchanged route after a failed call hides the failure. *)

From S2P Require Import Prelude.
From S2P Require Import Binary.
From S2P Require Import GoStrings.
From S2P Require Import ControlApi.
From S2P Require Import Routing.
From S2P Require Import ControlRoutes.
From S2P Require Import ControlRoutesSpec.
From S2P Require Import Control.
From S2P Require Import ControlSpec.
From S2P Require Import ControlOwners.
From S2P Require Import Frame.
From S2P Require Import Service.
From S2P Require Import WireTypes.
From S2P Require Import TcpWire.
From S2P Require Import TcpServer.
From S2P Require Import TcpClient.
From S2P Require Import TcpSpec.
From S2P Require Import Executor.
From S2P Require Import NodeAgent.
From S2P Require Import Routed.

Local Open Scope Z_scope.
Local Open Scope nespa_scope.

(** ** Decisions *)

Section Decisions.
  Context `{!RangeOrder}.

(** The owner of a key: the source of the last migration pending on its slot, or
    the healthy node the slot is assigned to. *)
Definition key_owner (cs : ControlState) (key : WireTypes.Key) : string * string :=
  let slot := VSlotFor (wk_namespace key) (wk_space key) (wk_key key) in
  default (base_owner cs slot) (pending_source (cs_plans cs) (wk_namespace key) (wk_space key) slot).

(** The control plane is in order and knows the space of the key. *)
Record catalogued (cs : ControlState) (key : WireTypes.Key) (nb : NamespaceBody) (sb : SpaceBody) : Prop := mkCatalogued {
  ca_inv : control_inv cs;
  ca_nodes : nodes_ok (sortedNodes cs);
  ca_namespace : cs_namespaces cs !! wk_namespace key = Some nb;
  ca_space : cs_spaces cs !! (wk_namespace key, wk_space key) = Some sb;
  ca_routes : Forall (fun r => ~ (rt_start r = 0 /\ rt_end r = 0)) (effectiveRoutes cs)
}.

(** Looking an item up by name in the sorted list of a catalog. *)
Lemma list_find_unique {A} (P : A -> Prop) `{!forall x, Decision (P x)} (l : list A) x : x ∈ l -> P x ->
  (forall y, y ∈ l -> P y -> y = x) -> exists i, list_find P l = Some (i, x).
Proof.
  intros Hx HP Huniq. destruct (list_find P l) as [[i y]|] eqn:E.
  - apply list_find_Some in E as (Hy & HPy & _). exists i. do 2 f_equal. apply Huniq; [|done]. by eapply list_elem_of_lookup_2.
  - apply list_find_None in E. rewrite Forall_forall in E. by destruct (E x Hx).
Qed.

Lemma elem_of_sorted_values {K A} `{!EqDecision K, !Countable K} (R : A -> A -> Prop) `{!RelDecision R} (m : gmap K A) x :
  x ∈ merge_sort R (range_order m).*2 <-> exists k, m !! k = Some x.
Proof.
  rewrite merge_sort_Permutation, list_elem_of_fmap. split.
  - intros ([k y] & -> & Hin). exists k. by apply elem_of_range in Hin.
  - intros [k Hk]. exists (k, x). split; [done|]. by apply elem_of_range.
Qed.

Lemma NamespaceVersion_sorted cs ns nb : namespaces_inv (cs_namespaces cs) -> cs_namespaces cs !! ns = Some nb ->
  NamespaceVersion (sortedNamespaces cs) ns = Some (ns_version nb).
Proof.
  intros Hinv Hns. assert (nb ∈ sortedNamespaces cs) as Hnb by (apply elem_of_sorted_values; eauto).
  destruct (list_find_unique (fun item => ns_namespace item = ns) (sortedNamespaces cs) nb) as [i Hi]; [done| | |].
  - apply (Hinv _ _ Hns).
  - intros y [k Hk]%elem_of_sorted_values Hy. pose proof (Hinv _ _ Hk) as [Hy' _]. congruence.
  - unfold NamespaceVersion. rewrite Hi. by destruct (sortedNamespaces cs); [apply elem_of_nil in Hnb|].
Qed.

Lemma SpaceVersion_sorted cs ns sp sb : spaces_inv (cs_namespaces cs) (cs_spaces cs) ->
  cs_spaces cs !! (ns, sp) = Some sb -> SpaceVersion (sortedSpaces cs) ns sp = Some (sp_version sb).
Proof.
  intros Hinv Hsp. assert (sb ∈ sortedSpaces cs) as Hsb by (apply elem_of_sorted_values; eauto).
  destruct (list_find_unique (fun item => sp_namespace item = ns /\ sp_space item = sp) (sortedSpaces cs) sb)
    as [i Hi]; [done| | |].
  - by destruct (Hinv _ _ _ Hsp) as (? & ? & _).
  - intros y [[n s] Hk]%elem_of_sorted_values [<- <-]. destruct (Hinv _ _ _ Hk) as (En & Es & _).
    rewrite En, Es in Hsp. apply (inj Some). by etrans; [symmetry; exact Hk|exact Hsp].
  - unfold SpaceVersion. rewrite Hi. by destruct (sortedSpaces cs); [apply elem_of_nil in Hsb|].
Qed.

Lemma resolve_owner cs key nb sb : catalogued cs key nb sb ->
  resolveSnapshot (SnapshotOf cs) key =
  Ok (mkDecision (key_owner cs key).2 (cs_revision cs) (ns_version nb) (sp_version sb)).
Proof.
  intros [Hinv Hn Hns Hsp Hz]. unfold resolveSnapshot. cbn [SnapshotOf sb_routes sb_namespaces sb_spaces sb_revision].
  destruct (select_owner cs (wk_namespace key) (wk_space key) (wk_key key) Hinv Hn (ex_intro _ sb Hsp) Hz) as (r & -> & Ho).
  rewrite (NamespaceVersion_sorted cs _ nb (ci_namespaces cs (ci_data cs Hinv)) Hns).
  rewrite (SpaceVersion_sorted cs _ _ sb (ci_spaces cs (ci_data cs Hinv)) Hsp).
  unfold key_owner. by rewrite <- Ho.
Qed.
End Decisions.

(** ** Single calls *)

Section Calls.
  Context `{!RangeOrder, !ErrorBody} {E : Type} `{!Engine E}.
  Implicit Types (s : routed E) (w : cluster E).

(** What a decision for a key of the cluster is. *)
Definition decision_for (cs : ControlState) (key : WireTypes.Key) (nb : NamespaceBody) (sb : SpaceBody) : routeDecision :=
  mkDecision (key_owner cs key).2 (cs_revision cs) (ns_version nb) (sp_version sb).

Lemma resolve_published fate cs key nb sb s : ro_snapshot s = SnapshotOf cs -> cs_revision cs <> 0 ->
  catalogued cs key nb sb -> resolve fate key s = (s, Ok (decision_for cs key nb sb)).
Proof.
  intros Hs Hr Hc. unfold resolve, currentSnapshot. rewrite Hs. cbn [SnapshotOf sb_revision].
  rewrite (proj2 (Z.eqb_neq _ _) Hr). cbn [negb]. by rewrite (resolve_owner cs key nb sb Hc).
Qed.


Lemma sameRouteDecision_refl d : sameRouteDecision d d = true.
Proof. unfold sameRouteDecision. by rewrite bool_decide_eq_true_2, !Z.eqb_refl by done. Qed.


(** C17: a client whose snapshot is out of date recovers: the node its old route leads
    to refuses the call for want of a route, the client fetches the current
    snapshot and sends the call to the owner of the key, and what the owner
    answers is what the call returns. *)
Theorem stale_client_recovers {Req Res} `{!Routable Req} (zero : Res) fates fate (request : Req) call cs nb sb s old
    w1 body w2 response fate1 :
  sb_revision (ro_snapshot s) <> 0 -> resolveSnapshot (ro_snapshot s) (keyOf request) = Ok old ->
  ra_send fates = Proceeds fate1 ->
  callNode fate1 (rd_addr old) (fun env c peer => call env c peer (stamp old request)) (ro_world s) =
    (w1, Err (RemoteError body)) -> err_code body = ErrorNoRoute ->
  ra_refresh fates = Fetched (SnapshotOf cs) -> cs_revision cs <> 0 -> catalogued cs (keyOf request) nb sb ->
  ra_resend fates = Proceeds fate ->
  callNode fate (key_owner cs (keyOf request)).2 (fun env c peer =>
    call env c peer (stamp (decision_for cs (keyOf request) nb sb) request)) w1 = (w2, Ok response) ->
  routedCall zero fates request call s = (mkRouted w2 (SnapshotOf cs), Ok response).
Proof.
  intros Hrev Hold Hf1 H1' Hcode Hrefresh Hr Hc Hf2 H2'. unfold routedCall, sendWithRouteRetry.
  unfold resolve at 1. unfold currentSnapshot. rewrite (proj2 (Z.eqb_neq _ _) Hrev). cbn [negb]. rewrite Hold, Hf1.
  unfold callAt at 1. rewrite H1'. cbn [map_err shouldRefreshRoute]. rewrite Hcode. cbn [Z.eqb negb].
  change (ErrorNoRoute =? ErrorNoRoute) with true. cbn [negb]. rewrite Hrefresh. cbn [Refresh].
  rewrite (resolve_published _ cs _ nb sb) by done. rewrite Hf2. cbn [andb]. unfold callAt.
  cbn [decision_for rd_addr ro_world ro_snapshot]. rewrite H2'. done.
Qed.

(** A call that fails on the way to its node, or whose answer is lost, is
    reported as a success when the refreshed snapshot leads to the same node: the
    client returns the zero response, a missing record for a get, without an
    error, and does not try again. *)
Theorem unreachable_call_reports_success {Req Res} `{!Routable Req} (zero : Res) fates (request : Req) call s d :
  sb_revision (ro_snapshot s) <> 0 -> resolveSnapshot (ro_snapshot s) (keyOf request) = Ok d ->
  ra_send fates = Proceeds Unreachable -> ra_refresh fates = Fetched (ro_snapshot s) ->
  routedCall zero fates request call s = (s, Ok zero).
Proof.
  intros Hrev Hd Hsend Hrefresh. unfold routedCall, sendWithRouteRetry.
  assert (forall fate, resolve fate (keyOf request) s = (s, Ok d)) as Hres.
  { intros fate. unfold resolve, currentSnapshot. rewrite (proj2 (Z.eqb_neq _ _) Hrev). cbn [negb]. by rewrite Hd. }
  rewrite Hres, Hsend. cbn [callAt callNode map_err shouldRefreshRoute negb]. rewrite Hrefresh. cbn [Refresh ro_snapshot ro_world].
  destruct s as [w snap]. cbn [ro_world ro_snapshot] in *. by rewrite Hres, sameRouteDecision_refl.
Qed.
End Calls.

(** ** Batches *)

Lemma keyed_unique {A B} (f : A -> B) l x y : NoDup (f <$> l) -> x ∈ l -> y ∈ l -> f x = f y -> x = y.
Proof.
  induction l as [|z l IH]; intros Hnd Hx Hy Exy; [by apply elem_of_nil in Hx|].
  rewrite fmap_cons in Hnd. apply NoDup_cons in Hnd as [Hz Hnd].
  apply elem_of_cons in Hx as [->|Hx], Hy as [->|Hy]; [done| | |by apply IH].
  - destruct Hz. rewrite Exy. by apply list_elem_of_fmap_2.
  - destruct Hz. rewrite <- Exy. by apply list_elem_of_fmap_2.
Qed.

Section Batches.
  Context `{!RangeOrder, !ErrorBody, !NilLists} {E : Type} `{!Engine E} {T R : Type} `{!Routable T}.
  Implicit Types (s : routed E) (items group : list (nat * T)) (results response : list R).

(** The groups of the items that were decided. *)
Definition decided (snapshot : SnapshotBody) (d : T -> routeDecision) items : Prop :=
  forall i r, (i, r) ∈ items -> resolveSnapshot snapshot (keyOf r) = Ok (d r).

Definition stamped (d : T -> routeDecision) (item : nat * T) : nat * T := (item.1, stamp (d item.2) item.2).

Definition to_addr (d : T -> routeDecision) (addr : string) (item : nat * T) : Prop := rd_addr (d item.2) = addr.

#[local] Instance to_addr_dec d addr item : Decision (to_addr d addr item).
Proof. unfold to_addr. apply _. Defined.

Lemma groupItems_spec snapshot d items groups : decided snapshot d items ->
  exists groups', groupItems snapshot items groups = Ok groups' /\
  (forall addr, default [] (groups' !! addr) = default [] (groups !! addr) ++ (stamped d <$> filter (to_addr d addr) items)) /\
  forall addr, is_Some (groups' !! addr) <-> is_Some (groups !! addr) \/ exists item, item ∈ items /\ to_addr d addr item.
Proof.
  revert groups. induction items as [|[i r] items IH]; intros groups Hd.
  { exists groups. split_and!; [done|intros; by rewrite app_nil_r|]. intros addr. split; [by left|].
    intros [?|(item & Hin & _)]; [done|by apply elem_of_nil in Hin]. }
  cbn [groupItems]. rewrite (Hd i r) by (by left).
  destruct (IH (addBatchGroup groups (rd_addr (d r)) (i, stamp (d r) r))) as (groups' & -> & Hg & Hk);
    [intros j q Hq; apply (Hd j); by right|].
  exists groups'. split_and!; [done| |].
  - intros addr. rewrite Hg. unfold addBatchGroup. destruct (decide (rd_addr (d r) = addr)) as [<-|Hne].
    + rewrite lookup_insert_eq. cbn [default from_option id]. rewrite filter_cons_True by done.
      rewrite fmap_cons, <- app_assoc. done.
    + rewrite lookup_insert_ne by done. by rewrite filter_cons_False.
  - intros addr. rewrite Hk. unfold addBatchGroup. destruct (decide (rd_addr (d r) = addr)) as [<-|Hne].
    + rewrite lookup_insert_eq. split; [intros _; right|intros _; left; by eexists].
      exists (i, r). split; [by left|done].
    + rewrite lookup_insert_ne by done. split; (intros [?|(item & Hin & Ha)]; [by left|right]).
      * exists item. split; [by right|done].
      * apply elem_of_cons in Hin as [->|Hin]; [done|]. by exists item.
Qed.

(** What grouping gives: one group per address, with the items of that address in
    the order of the batch. *)
Lemma groups_spec snapshot d items : decided snapshot d items ->
  exists groups, groupRoutedWireRequests snapshot items = Ok groups /\ NoDup groups.*1 /\
  (forall addr group, (addr, group) ∈ groups -> group = stamped d <$> filter (to_addr d addr) items) /\
  forall item, item ∈ items -> rd_addr (d item.2) ∈ groups.*1.
Proof.
  intros Hd. destruct (groupItems_spec snapshot d items ∅ Hd) as (m & Hm & Hg & Hk).
  unfold groupRoutedWireRequests. rewrite Hm. unfold mbind, result_bind. eexists. split; [done|].
  unfold orderedBatchGroups. set (addrs := merge_sort (by_key id) (range_order m).*1).
  assert (addrs ≡ₚ (range_order m).*1) as Hp by apply merge_sort_Permutation.
  assert (((fun addr => (addr, default [] (m !! addr))) <$> addrs).*1 = addrs) as E1.
  { rewrite <- list_fmap_compose. unfold compose. cbn. apply list_fmap_id. }
  rewrite E1. split_and!.
  - rewrite Hp. apply (NoDup_Permutation_proper _ _ (fmap_Permutation fst _ _ (range_perm m))), NoDup_fst_map_to_list.
  - intros addr group (a & [= -> ->] & _)%list_elem_of_fmap. by rewrite Hg, lookup_empty.
  - intros item Hin. rewrite Hp. destruct (proj2 (Hk (rd_addr (d item.2)))) as [group Hgr]; [right; by exists item|].
    apply list_elem_of_fmap. exists (rd_addr (d item.2), group). split; [done|]. by apply elem_of_range.
Qed.

(** The answer of a group is copied to the positions of its items. *)
Lemma copy_spec group response results : NoDup group.*1 -> length response = length group ->
  (forall item, item ∈ group -> (item.1 < length results)%nat) ->
  length (copyBatchResults results group response) = length results /\
  (forall j item r, group !! j = Some item -> response !! j = Some r ->
     copyBatchResults results group response !! item.1 = Some r) /\
  (forall i, i ∉ group.*1 -> copyBatchResults results group response !! i = results !! i).
Proof.
  unfold copyBatchResults. revert response results.
  induction group as [|[i t] group IH]; intros [|r response] results Hnd Hlen Hin; try done.
  rewrite fmap_cons in Hnd. apply NoDup_cons in Hnd as [Hni Hnd]. cbn [zip zip_with foldl fst].
  destruct (IH response (<[i := r]> results) Hnd) as (H1' & H2' & H3');
    [by injection Hlen|intros item Hitem; rewrite length_insert; apply Hin; by right|].
  rewrite length_insert in H1'. split_and!; [done| |].
  - intros [|j] item q; cbn [lookup list_lookup]; [|by apply H2'].
    intros [= <-] [= <-]. rewrite H3' by done. apply list_lookup_insert_eq. apply (Hin (i, t)). by left.
  - intros k Hk. rewrite fmap_cons, not_elem_of_cons in Hk. destruct Hk as [Hne Hk].
    rewrite H3' by done. by apply list_lookup_insert_ne.
Qed.

(** Every group was sent and answered. *)
Inductive sent (send : sender (E := E) T R) : (nat -> sendFate) -> Z -> list (string * list (nat * T)) -> list (list R) ->
    routed E -> routed E -> Prop :=
| sent_nil sends epoch s : sent send sends epoch [] [] s s
| sent_cons sends epoch addr group groups response responses s s1 s2 :
    send (sends 0%nat) epoch addr group s = (s1, Ok response) ->
    sent send (fun i => sends (S i)) epoch groups responses s1 s2 ->
    sent send sends epoch ((addr, group) :: groups) (response :: responses) s s2.

(** Where the answers of the groups are in the results. *)
Definition placed (groups : list (string * list (nat * T))) (responses : list (list R)) results : Prop :=
  forall k addr group response j item r, groups !! k = Some (addr, group) -> responses !! k = Some response ->
    group !! j = Some item -> response !! j = Some r -> results !! item.1 = Some r.

Lemma run_sent send sends epoch groups responses s s' results : sent send sends epoch groups responses s s' ->
  Forall2 (fun g response => length response = length g.2) groups responses ->
  NoDup (mjoin groups.*2).*1 -> (forall item, item ∈ mjoin groups.*2 -> (item.1 < length results)%nat) ->
  exists results', runGroups sends epoch groups results send s = (s', (results', None, None)) /\
  length results' = length results /\ placed groups responses results' /\
  (forall i, i ∉ (mjoin groups.*2).*1 -> results' !! i = results !! i).
Proof.
  intros Hs. revert results. induction Hs as [sends epoch s|sends epoch addr group groups response responses s s1 s2 Hsend Hs IH];
    intros results Hlen Hnd Hin.
  { exists results. split_and!; [done|done|by intros [] ?|done]. }
  apply Forall2_cons in Hlen as [Hl Hlen]. cbn [mjoin list_join fmap list_fmap snd] in Hnd, Hin. cbn [snd] in Hl.
  rewrite fmap_app in Hnd. apply NoDup_app in Hnd as (Hnd1 & Hdis & Hnd2).
  destruct (copy_spec group response results Hnd1 Hl) as (C1 & C2 & C3); [intros item Hi; apply Hin; set_solver|].
  destruct (IH (copyBatchResults results group response) Hlen Hnd2) as (results' & Hrun & Hl' & Hp & Hrest).
  { intros item Hi. rewrite C1. apply Hin. set_solver. }
  exists results'. cbn [runGroups]. rewrite Hsend. split_and!; [done|congruence| |].
  - intros [|k] a g q j item r; cbn [lookup list_lookup]; [|by apply Hp].
    intros [= <- <-] [= <-] Hg Hr. rewrite Hrest; [by apply (C2 j)|]. apply Hdis.
    apply list_elem_of_fmap_2. by eapply list_elem_of_lookup_2.
  - intros i Hi. cbn [mjoin list_join fmap list_fmap snd] in Hi. rewrite fmap_app, not_elem_of_app in Hi.
    destruct Hi as [Hi1 Hi2]. rewrite Hrest by done. by apply C3.
Qed.

Lemma stamped_index d l : (stamped d <$> l).*1 = l.*1.
Proof. by rewrite <- list_fmap_compose. Qed.

(** No position of the batch is in two groups. *)
Lemma grouped_positions d items (groups : list (string * list (nat * T))) : NoDup items.*1 -> NoDup groups.*1 ->
  (forall addr group, (addr, group) ∈ groups -> group = stamped d <$> filter (to_addr d addr) items) ->
  NoDup (mjoin groups.*2).*1 /\
  forall i, i ∈ (mjoin groups.*2).*1 -> exists item, item ∈ items /\ item.1 = i /\ rd_addr (d item.2) ∈ groups.*1.
Proof.
  intros Hitems. induction groups as [|[addr group] groups IH]; intros Hnd Hg; [split; [constructor|set_solver]|].
  rewrite fmap_cons in Hnd. apply NoDup_cons in Hnd as [Hni Hnd].
  destruct IH as [IH1 IH2]; [done|intros a g Ha; apply Hg; by right|].
  rewrite (Hg addr group) by (by left). cbn [mjoin list_join fmap list_fmap snd fst]. rewrite fmap_app.
  fold (stamped d <$> filter (to_addr d addr) items). rewrite stamped_index.
  assert (forall i, i ∈ (filter (to_addr d addr) items).*1 ->
    exists item, item ∈ items /\ item.1 = i /\ rd_addr (d item.2) = addr) as Hhead.
  { intros i (item & -> & [Ha Hin]%list_elem_of_filter)%list_elem_of_fmap. by exists item. }
  split.
  - apply NoDup_app. split_and!; [|intros i Hi Hi'|done].
    + eapply sublist_NoDup; [exact Hitems|]. apply fmap_sublist, sublist_filter.
    + destruct (Hhead i Hi) as (x & Hx & <- & Hax). destruct (IH2 _ Hi') as (y & Hy & Exy & Hay).
      assert (x = y) as -> by (by apply (keyed_unique fst items)). by rewrite Hax in Hay.
  - intros i [Hi|Hi]%elem_of_app.
    + destruct (Hhead i Hi) as (x & Hx & <- & Hax). exists x. split_and!; [done|done|]. rewrite Hax. by left.
    + destruct (IH2 i Hi) as (x & Hx & <- & Hax). exists x. split_and!; [done|done|]. by right.
Qed.

Lemma indexed_positions (requests : list T) : (indexBatchItems requests).*1 = seq 0 (length requests).
Proof. unfold indexBatchItems. rewrite fmap_imap. unfold compose. cbn.
  etrans; [exact (imap_seq_0 requests (fun n => n))|apply list_fmap_id].
Qed.

Lemma elem_of_indexed (requests : list T) i r : (i, r) ∈ indexBatchItems requests <-> requests !! i = Some r.
Proof.
  unfold indexBatchItems. rewrite elem_of_lookup_imap. split; [by intros (j & x & [= <- <-] & ?)|]. intros Hr. by exists i, r.
Qed.

(** C18: a batch whose groups are all answered returns, at the position of each
    request, what the node the request was routed to answered for it: every request
    is sent once, stamped with its decision, in one call per node. *)
Theorem routed_batch_positions (zero : R) fates (requests : list T) send s s' d groups responses :
  requests <> [] -> sb_revision (ro_snapshot s) <> 0 -> decided (ro_snapshot s) d (indexBatchItems requests) ->
  groupRoutedWireRequests (ro_snapshot s) (indexBatchItems requests) = Ok groups ->
  sent send (ba_sends fates) (sb_revision (ro_snapshot s)) groups responses s s' ->
  Forall2 (fun g response => length response = length g.2) groups responses ->
  exists results, routedBatch zero fates (length requests) (indexBatchItems requests) send s = (s', (results, None)) /\
  length results = length requests /\ NoDup groups.*1 /\
  forall i r, requests !! i = Some r -> exists k group response j, groups !! k = Some (rd_addr (d r), group) /\
    responses !! k = Some response /\ group !! j = Some (i, stamp (d r) r) /\ results !! i = response !! j.
Proof.
  intros Hne Hrev Hd Hgroups Hsent Hlen.
  destruct (groups_spec _ d _ Hd) as (groups' & Eg & Hnd & Hg & Hall). rewrite Hgroups in Eg. injection Eg as <-.
  assert (NoDup (indexBatchItems requests).*1) as Hidx by (rewrite indexed_positions; apply NoDup_seq).
  destruct (grouped_positions d _ groups Hidx Hnd Hg) as [Hpos Hfrom].
  destruct (run_sent send (ba_sends fates) (sb_revision (ro_snapshot s)) groups responses s s'
    (List.repeat zero (length requests)) Hsent Hlen Hpos) as (results & Hrun & Hl & Hplaced & _).
  { intros item Hi. destruct (Hfrom item.1) as ([i r] & Hx & <- & _); [by apply list_elem_of_fmap_2|].
    rewrite repeat_length. apply elem_of_indexed in Hx. by apply lookup_lt_Some in Hx. }
  rewrite repeat_length in Hl. exists results. split_and!; [|done|done|].
  - unfold routedBatch. rewrite bool_decide_eq_false_2 by (by destruct requests).
    unfold runRoutedBatchWithCurrentSnapshot, currentSnapshot. rewrite (proj2 (Z.eqb_neq _ _) Hrev). cbn [negb].
    rewrite Hgroups. unfold runRoutedBatch. rewrite bool_decide_eq_true_2 by apply repeat_length. by rewrite Hrun.
  - intros i r Hr. apply elem_of_indexed in Hr. pose proof (Hall (i, r) Hr) as Haddr. cbn [snd] in Haddr.
    apply list_elem_of_fmap in Haddr as ([addr group] & Ea & Hin). cbn [fst] in Ea. subst addr.
    pose proof (Hg _ _ Hin) as Egroup. apply list_elem_of_lookup in Hin as [k Hk].
    destruct (Forall2_lookup_l _ _ _ _ _ Hlen Hk) as (response & Hresp & Hlr). cbn [snd] in Hlr.
    assert ((i, stamp (d r) r) ∈ group) as [j Hj]%list_elem_of_lookup.
    { rewrite Egroup. apply list_elem_of_fmap. exists (i, r). split; [done|]. by apply list_elem_of_filter. }
    exists k, group, response, j. split_and!; [done|done|done|].
    destruct (lookup_lt_is_Some_2 response j) as [q Hq]; [rewrite Hlr; by eapply lookup_lt_Some|].
    rewrite Hq. exact (Hplaced _ _ _ _ _ _ _ Hk Hresp Hj Hq).
Qed.

(** A batch with a request that cannot be routed sends nothing; after a refresh it
    is reported as done with zero results, unless ranging over a nil list
    panics. *)
Lemma unroutable_batch_sends_nothing (zero : R) fates (requests : list T) send s e snapshot :
  requests <> [] -> sb_revision (ro_snapshot s) <> 0 ->
  groupRoutedWireRequests (ro_snapshot s) (indexBatchItems requests) = Err e ->
  ba_refresh fates = Fetched snapshot -> sb_revision snapshot <> 0 ->
  routedBatch zero fates (length requests) (indexBatchItems requests) send s =
  (mkRouted (ro_world s) snapshot,
   if nil_range_panics then ([], Some Panicked) else (List.repeat zero (length requests), None)).
Proof.
  intros Hne Hrev Hg Hf Hrev'.
  assert (e = ErrNoRoute \/ e = ErrCatalogVersion) as He.
  { revert Hg. unfold groupRoutedWireRequests, mbind, result_bind. generalize (∅ : gmap string (list (nat * T))).
    induction (indexBatchItems requests) as [|[i r] items IH]; intros m; [done|]. cbn [groupItems].
    destruct (resolveSnapshot (ro_snapshot s) (keyOf r)) as [d|e'] eqn:Hd; [apply IH|]. intros [= ->].
    unfold resolveSnapshot in Hd. repeat case_match; simplify_eq; auto. }
  unfold routedBatch. rewrite bool_decide_eq_false_2 by (by destruct requests).
  unfold runRoutedBatchWithCurrentSnapshot. unfold currentSnapshot at 1. rewrite (proj2 (Z.eqb_neq _ _) Hrev).
  cbn [negb]. rewrite Hg. assert ((shouldRefreshRoute e).1 = true) as -> by (by destruct He as [-> | ->]). cbn [negb].
  rewrite Hf. cbn [Refresh]. unfold currentSnapshot. cbn [ro_snapshot]. rewrite (proj2 (Z.eqb_neq _ _) Hrev'). cbn [negb].
  unfold flattenBatchGroups. destruct nil_range_panics; [done|]. cbn [groupRoutedWireRequests groupItems].
  unfold groupRoutedWireRequests, mbind, result_bind. cbn [groupItems]. unfold orderedBatchGroups.
  assert ((range_order (∅ : gmap string (list (nat * T)))) = []) as ->
    by (apply Permutation_nil_r; rewrite range_perm; by rewrite map_to_list_empty).
  cbn. unfold runRoutedBatch. cbn [runGroups]. rewrite bool_decide_eq_false_2; [done|]. by destruct requests.
Qed.
End Batches.

(** ** Counters *)

Lemma safeAdd_exact base delta : is_s64 base -> is_s64 delta ->
  safeAdd base delta = if decide (is_s64 (base + delta)) then Some (base + delta) else None.
Proof.
  intros Hb Hd. unfold safeAdd, is_s64 in *. destruct (decide _) as [Hs|Hs].
  - rewrite !(s64_small (_ + _)) by done. repeat case_bool; bool_to_prop; try done; exfalso.
    + rewrite s64_small in * by (unfold is_s64; lia). lia.
    + rewrite s64_small in * by (unfold is_s64; lia). lia.
  - repeat case_bool; bool_to_prop; try done. exfalso. destruct (Z.lt_trichotomy delta 0) as [Hn|[->|Hn]].
    + rewrite (s64_small (- 2 ^ 63 - delta)) in * by (unfold is_s64; lia). lia.
    + lia.
    + rewrite (s64_small (2 ^ 63 - 1 - delta)) in * by (unfold is_s64; lia). lia.
Qed.

Section Counters.
  Context {St CallErr : Type}.
  Context (get : nat -> WireTypes.GetRequest -> St -> St * result CallErr WireRecord).
  Context (set : nat -> WireTypes.SetRequest -> St -> St * result CallErr WireRecord).
  Context (now : nat -> Time).

(** The value a counter had according to the record that was read. *)
Definition counted (request : CounterRequest) (record : WireRecord) : option Z :=
  if wr_found record then parseInt64 (wr_value record) else Some (co_initialValue request).

(** A counter that reports a value wrote it as the sum of the value it read last
    and the delta, without overflow, in a write that is conditional on the version
    it read when there was a record. *)
Lemma counter_adds request s s' result :
  (forall record v, counted request record = Some v -> is_s64 v) -> is_s64 (co_delta request) ->
  applyCounter get set now request s = (s', Ok result) ->
  exists i record s1 s2 req v,
    get i (WireTypes.mkGetRequest (co_key request) 0 (co_namespaceVersion request) (co_spaceVersion request)) s1 = (s2, Ok record) /\
    set i req s2 = (s', Ok (cr_record result)) /\ wr_found (cr_record result) = true /\
    counted request record = Some v /\ cr_value result = v + co_delta request /\ is_s64 (cr_value result) /\
    ws_key req = co_key request /\ ws_value req = FormatInt (cr_value result) /\
    ws_expectedVersion req = (if wr_found record then wr_version record else 0).
Proof.
  intros Hv Hd. unfold applyCounter. set (maxRetries := if _ <=? 0 then 8 else _). generalize (Z.to_nat maxRetries) as todo.
  generalize 0%nat as attempt. intros attempt todo. revert attempt s.
  induction todo as [|todo IH]; intros attempt s; cbn [counterLoop]; [done|]. unfold currentCounter.
  destruct (get attempt _ s) as [s1 [record|e]] eqn:Hget; [|done].
  destruct (counted request record) as [v|] eqn:Hc;
    [|unfold counted in Hc; destruct (wr_found record); [cbn [negb]; rewrite Hc; done|done]].
  pose proof (Hv record v Hc) as Hs. pose proof (safeAdd_exact v (co_delta request) Hs Hd) as Hsum.
  unfold counted in Hc. destruct (wr_found record) eqn:Hfound; cbn [negb].
  - rewrite Hc, Hsum. destruct (decide _) as [Hr|]; [|done].
    destruct (set attempt _ s1) as [s2 [response|e]] eqn:Hset; [|done].
    destruct (wr_found response) eqn:Hf; [|apply IH]. intros [= <- <-].
    eexists attempt, record, s, s1, _, v.
    split; [exact Hget|]. split; [exact Hset|]. unfold counted. rewrite Hfound. by split_and!.
  - injection Hc as Hc. rewrite Hc, Hsum. destruct (decide _) as [Hr|]; [|done].
    destruct (set attempt _ s1) as [s2 [response|e]] eqn:Hset; [|done].
    destruct (wr_found response) eqn:Hf; [|apply IH]. intros [= <- <-].
    eexists attempt, record, s, s1, _, v.
    split; [exact Hget|]. split; [exact Hset|]. unfold counted. rewrite Hfound, Hc. by split_and!.
Qed.
End Counters.

(** * Routed calls, run *)

From S2P Require Import ControlExamples.
From S2P Require Import EngineTypes.
From S2P Require Import Shard.
From S2P Require Import Primitives.
From S2P Require Import Instances.
From S2P Require Import MemoryEngine.
From S2P Require Import EngineExamples.
From S2P Require Import TcpPipeline.
From S2P Require Import ExecutorLimits.

#[local] Existing Instance sample_codecs.
#[local] Existing Instance sample_math.
#[local] Existing Instance canonical_order.
#[local] Existing Instance sample_errors.

(** Ranging over a nil list does nothing. *)
#[local] Instance nil_lists : NilLists := {| nil_range_panics := false |}.

Definition getAlice : WireTypes.GetRequest := WireTypes.mkGetRequest alice 0 0 0.

(** A client with the snapshot of a control state, on nodes of its revision. *)
Definition clientOf (cs : ControlState) (nodes : gmap string (Server MemoryEngine)) : routed MemoryEngine :=
  mkRouted (mkCluster cs nodes NewClient) (SnapshotOf cs).

Definition answered : sendFate := Proceeds (Answered sample_env).


Definition freshClient : routed MemoryEngine :=
  clientOf cluster3 {[ "a:7000" := nodeA; "b:7000" := nodeB; "c:7000" := nodeC ]}.

Lemma no_slot_zero cs : forallb (fun r => negb ((rt_start r =? 0) && (rt_end r =? 0))) (effectiveRoutes cs) = true ->
  Forall (fun r => ~ (rt_start r = 0 /\ rt_end r = 0)) (effectiveRoutes cs).
Proof.
  intros Hb. apply Forall_forall. intros r Hr [H1 H2]. rewrite forallb_forall in Hb.
  apply list_elem_of_In, Hb in Hr. by rewrite H1, H2 in Hr.
Qed.

Lemma pair_snd {A B} (p : A * B) b : p.2 = b -> p = (p.1, b).
Proof. by destruct p; intros [= ->]. Qed.

Definition shopBody : NamespaceBody := Eval vm_compute in default (mkNamespace "" 0 0) (cs_namespaces cluster3 !! "shop").
Definition cartBody : SpaceBody := Eval vm_compute in default (mkSpace "" "" 0 0) (cs_spaces cluster3 !! ("shop", "cart")).


Definition setAlice : WireTypes.SetRequest := WireTypes.mkSetRequest alice (str_bytes "cherries") 0 60000 0 0 0 0 0.




(** ** An old snapshot *)

(** Nodes that know of the cut-over of [alice] to node [b]. *)
Definition cutoverNodes : gmap string (Server MemoryEngine) :=
  {[ "a:7000" := node 7 (NewMemory 1); "b:7000" := node 7 engine2 ]}.

(** A client that has not heard of the third node. *)
Definition oldClient : routed MemoryEngine := mkRouted (mkCluster afterCutover cutoverNodes NewClient) (SnapshotOf cluster2).

Definition recoverFates : routeFates :=
  mkRouteFates NotFetched answered (Fetched (SnapshotOf afterCutover)) NotFetched answered.

Definition oldDecision : routeDecision := Eval vm_compute in
  match resolveSnapshot (SnapshotOf cluster2) alice with Ok d => d | Err _ => mkDecision "" 0 0 0 end.

Lemma alice_moved : catalogued afterCutover alice shopBody cartBody.
Proof.
  split; [exact afterCutover_inv|split; vm_compute; first [reflexivity|discriminate]|vm_compute; reflexivity|vm_compute; reflexivity|].
  apply no_slot_zero. vm_compute. reflexivity.
Qed.

Definition refused : cluster MemoryEngine * result clientError WireRecord :=
  callNode (Answered sample_env) "a:7000" (fun env c peer => clientSet env c peer (stamp oldDecision setAlice)) (ro_world oldClient).

Definition retried : cluster MemoryEngine * result clientError WireRecord :=
  callNode (Answered sample_env) "b:7000" (fun env c peer =>
    clientSet env c peer (stamp (decision_for afterCutover alice shopBody cartBody) setAlice)) refused.1.

Definition retriedRecord : WireRecord := Eval vm_compute in match retried.2 with Ok r => r | Err _ => missingRecord end.

Lemma stale_client_recovers_witness :
  routedSet recoverFates setAlice oldClient = (mkRouted retried.1 (SnapshotOf afterCutover), Ok retriedRecord) /\
  wr_found retriedRecord = true /\ refused.2 = Err (RemoteError (mkError ErrorNoRoute "failed")).
Proof.
  assert (refused.2 = Err (RemoteError (mkError ErrorNoRoute "failed"))) as Hrefused by (vm_compute; reflexivity).
  split; [|split; [reflexivity|exact Hrefused]]. unfold routedSet.
  apply (stale_client_recovers missingRecord recoverFates (Answered sample_env) setAlice clientSet afterCutover shopBody cartBody
    oldClient oldDecision refused.1 (mkError ErrorNoRoute "failed") retried.1 retriedRecord (Answered sample_env)).
  - vm_compute. discriminate.
  - vm_compute. reflexivity.
  - reflexivity.
  - change (callNode (Answered sample_env) (rd_addr oldDecision) _ (ro_world oldClient)) with refused.
    apply pair_snd. exact Hrefused.
  - reflexivity.
  - reflexivity.
  - vm_compute. discriminate.
  - exact alice_moved.
  - reflexivity.
  - replace (key_owner afterCutover (keyOf setAlice)).2 with "b:7000" by (vm_compute; reflexivity).
    change (callNode (Answered sample_env) "b:7000" _ refused.1) with retried.
    apply pair_snd. vm_compute. reflexivity.
Defined.

(** ** A node that cannot be reached *)

Definition lostFates : routeFates :=
  mkRouteFates NotFetched (Proceeds Unreachable) (Fetched (SnapshotOf cluster3)) NotFetched answered.

(** A key that exists is reported as missing. *)
Lemma unreachable_call_reports_success_witness :
  routedGet lostFates getAlice freshClient = (freshClient, Ok missingRecord).
Proof.
  apply (unreachable_call_reports_success missingRecord lostFates getAlice clientGet freshClient
    (decision_for cluster3 alice shopBody cartBody)).
  - vm_compute. discriminate.
  - vm_compute. reflexivity.
  - reflexivity.
  - reflexivity.
Defined.

(** ** Batches *)

Definition carol : WireTypes.Key := WireTypes.mkKey "shop" "cart" "" "carol".

Definition twoSets : list WireTypes.SetRequest :=
  [WireTypes.mkSetRequest carol (str_bytes "plums") 0 0 0 0 0 0 0; setAlice].

Definition twoDecisions (r : WireTypes.SetRequest) : routeDecision :=
  match resolveSnapshot (SnapshotOf cluster3) (ws_key r) with Ok d => d | Err _ => mkDecision "" 0 0 0 end.

Definition setGroups : list (string * list (nat * WireTypes.SetRequest)) := Eval vm_compute in
  match groupRoutedWireRequests (SnapshotOf cluster3) (indexBatchItems twoSets) with Ok g => g | Err _ => [] end.

Definition batchPlain : batchFates :=
  mkBatchFates NotFetched (fun _ => answered) NotFetched NotFetched (fun _ => answered).

Definition sendSets : sender WireTypes.SetRequest WireRecord := sendGroup mkBatchSetRequest clientBatchSet bsr_records.

(** The group of node [a], then the group of node [b]. *)
Definition sentA := sendSets answered 5 "a:7000" [(1%nat, stamp (twoDecisions setAlice) setAlice)] freshClient.
Definition sentB := sendSets answered 5 "b:7000" [(0%nat, stamp (twoDecisions (hd setAlice twoSets)) (hd setAlice twoSets))] sentA.1.

Definition answerOf (r : result routedError (list WireRecord)) : list WireRecord := match r with Ok l => l | Err _ => [] end.
Definition answerA : list WireRecord := Eval vm_compute in answerOf sentA.2.
Definition answerB : list WireRecord := Eval vm_compute in answerOf sentB.2.

Lemma routed_batch_positions_witness : setGroups.*1 = ["a:7000"; "b:7000"] /\
  exists results, routedBatch missingRecord batchPlain 2 (indexBatchItems twoSets) sendSets freshClient =
    (sentB.1, (results, None)) /\ length results = 2%nat.
Proof.
  split; [reflexivity|].
  destruct (routed_batch_positions missingRecord batchPlain twoSets sendSets freshClient sentB.1 twoDecisions setGroups
    [answerA; answerB]) as (results & H1 & H2 & _ & _).
  - discriminate.
  - vm_compute. discriminate.
  - intros i r Hin. apply elem_of_indexed in Hin. destruct i as [|[|i]]; [| |discriminate]; injection Hin as <-; vm_compute; reflexivity.
  - vm_compute. reflexivity.
  - apply (sent_cons sendSets (fun _ => answered) 5 "a:7000" _ _ answerA [answerB] freshClient sentA.1).
    + change (sendSets answered 5 "a:7000" _ freshClient) with sentA. apply pair_snd. vm_compute. reflexivity.
    + apply (sent_cons sendSets _ 5 "b:7000" _ _ answerB [] sentA.1 sentB.1); [|apply sent_nil].
      change (sendSets answered 5 "b:7000" _ sentA.1) with sentB. apply pair_snd. vm_compute. reflexivity.
  - constructor; [reflexivity|]. constructor; [reflexivity|constructor].
  - exists results. split; [exact H1|exact H2].
Defined.

(** A batch with a key of an unknown space is not sent and reported as done. *)
Theorem unroutable_batch_reports_success :
  let lost := WireTypes.mkSetRequest (WireTypes.mkKey "shop" "nowhere" "" "k") (str_bytes "v") 0 0 0 0 0 0 0 in
  let fates := mkBatchFates NotFetched (fun _ => answered) (Fetched (SnapshotOf cluster3)) NotFetched (fun _ => answered) in
  routedBatchSet fates (mkBatchSetRequest 0 (lost :: twoSets)) freshClient =
    (freshClient, Ok (mkBatchSetResponse [missingRecord; missingRecord; missingRecord])).
Proof.
  cbn zeta. unfold routedBatchSet.
  set (fates := mkBatchFates NotFetched (fun _ => answered) (Fetched (SnapshotOf cluster3)) NotFetched (fun _ => answered)).
  set (requests := _ :: twoSets).
  change (routedBatch missingRecord fates (length (bs_items (mkBatchSetRequest 0 requests)))
    (indexSetRequests (bs_items (mkBatchSetRequest 0 requests))))
    with (routedBatch (E := MemoryEngine) (T := WireTypes.SetRequest) missingRecord fates (length requests) (indexBatchItems requests)).
  rewrite (unroutable_batch_sends_nothing missingRecord fates requests _ freshClient ErrNoRoute (SnapshotOf cluster3));
    [reflexivity|discriminate|vm_compute; discriminate|vm_compute; reflexivity|reflexivity|vm_compute; discriminate].
Qed.

(** ** Counters *)

Definition visits : CounterRequest := mkCounterRequest (WireTypes.mkKey "shop" "cart" "" "visits") 1 0 0 0 0 0.

Definition countOnce (w : cluster MemoryEngine) :=
  directCounter (fun _ => mkDirectFates (Answered sample_env) (Answered sample_env) 300) "a:7000" visits w.

(** Another client counts between the read and the write of the first attempt. *)
Definition countTwice (w : cluster MemoryEngine) :=
  applyCounter
    (fun _ r => callNode (Answered sample_env) "a:7000" (fun env c peer => clientGet env c peer r))
    (fun i r w => callNode (Answered sample_env) "a:7000" (fun env c peer => clientSet env c peer r)
       (if (i =? 0)%nat then (countOnce w).1 else w))
    (fun _ => 300) visits w.

(** Two clients that count a counter into existence at the same time both report
    1, and 1 is what it is: the first write is not conditional.  Once the counter
    exists both counts are kept. *)
Theorem first_counts_are_lost :
  let w := ro_world freshClient in
  cr_value <$> (countOnce w).2 = Ok 1 /\ cr_value <$> (countTwice w).2 = Ok 1 /\
  cr_value <$> (countTwice (countOnce w).1).2 = Ok 3.
Proof. vm_compute. auto. Qed.
