(* ===== verification/Sdk.v ===== *)
(** * The Go SDK (sdk/go: types.go, client.go, primitive.go, direct_tcp.go)

    The public client: its types, their translation to the wire types, and calls
    on a backend.  A backend is anything with the operations of [rawClient]: the
    client of one address, which has its own connection code, or the routed client.
    The class [rawClient] is the interface the calls are written against; what the
    nodes and connections do is a part of the instance. *)

From S2P Require Import Prelude.
From S2P Require Import GoStrings.
From S2P Require Import GoFloat.
From S2P Require Import Frame.
From S2P Require Import ControlApi.
From S2P Require Import Service.
From S2P Require Import WireTypes.
From S2P Require Import Wire.
From S2P Require Import WireBatch.
From S2P Require Import WirePrimitive.
From S2P Require Import TcpWire.
From S2P Require Import TcpServer.
From S2P Require Import TcpClient.
From S2P Require Import Executor.
From S2P Require Import NodeAgent.
From S2P Require Import Routed.

Local Open Scope Z_scope.
Local Open Scope nespa_scope.

(** ** Types *)

(** src: sdk/go/types.go Key *)
Record SdkKey := mkSdkKey { sk_namespace : string; sk_space : string; sk_entity : string; sk_key : string }.

(** src: sdk/go/types.go SetOptions *)
Record SdkSetOptions := mkSdkSet {
  kso_ttl : Duration; kso_namespaceVersion : Z; kso_spaceVersion : Z; kso_expectedVersion : Z
}.

(** src: sdk/go/types.go GetOptions *)
Record SdkGetOptions := mkSdkGet { kgo_namespaceVersion : Z; kgo_spaceVersion : Z }.

(** src: sdk/go/types.go DeleteOptions *)
Record SdkDeleteOptions := mkSdkDelete { kdo_expectedVersion : Z }.

(** src: sdk/go/types.go TouchOptions *)
Record SdkTouchOptions := mkSdkTouch {
  kto_ttl : Duration; kto_namespaceVersion : Z; kto_spaceVersion : Z; kto_expectedVersion : Z
}.

(** src: sdk/go/types.go AdjustOptions *)
Record SdkAdjustOptions := mkSdkAdjust {
  kao_delta : Z; kao_initialValue : Z; kao_ttl : Duration;
  kao_namespaceVersion : Z; kao_spaceVersion : Z; kao_expectedVersion : Z
}.

(** src: sdk/go/types.go Record *)
Record SdkRecord := mkSdkRecord {
  kr_found : bool; kr_key : SdkKey; kr_value : list byte; kr_version : Z;
  kr_namespaceVersion : Z; kr_spaceVersion : Z; kr_expireAt : Time
}.

(** src: sdk/go/types.go SetItem *)
Record SdkSetItem := mkSdkSetItem { ksi_key : SdkKey; ksi_value : list byte; ksi_options : SdkSetOptions }.
(** src: sdk/go/types.go GetItem *)
Record SdkGetItem := mkSdkGetItem { kgi_key : SdkKey; kgi_options : SdkGetOptions }.
(** src: sdk/go/types.go DeleteItem *)
Record SdkDeleteItem := mkSdkDeleteItem { kdi_key : SdkKey; kdi_options : SdkDeleteOptions }.
(** src: sdk/go/types.go TouchItem *)
Record SdkTouchItem := mkSdkTouchItem { kti_key : SdkKey; kti_options : SdkTouchOptions }.

(** src: sdk/go/primitive_types.go PrimitiveOptions *)
Record SdkPrimitiveOptions := mkSdkPrimitiveOptions {
  kpo_ttl : Duration; kpo_namespaceVersion : Z; kpo_spaceVersion : Z; kpo_expectedVersion : Z
}.

(** src: sdk/go/primitive_types.go PrimitiveRequest *)
Record SdkPrimitiveRequest := mkSdkPrimitive {
  kp_kind : WireTypes.PrimitiveKind; kp_key : SdkKey; kp_options : SdkPrimitiveOptions; kp_field : string; kp_member : string;
  kp_value : list byte; kp_delta : Z; kp_initialValue : Z; kp_score : float64; kp_minScore : float64; kp_maxScore : float64;
  kp_hasMinScore : bool; kp_hasMaxScore : bool; kp_limit : Z; kp_start : Z; kp_reverse : bool
}.

(** src: sdk/go/primitive_types.go MapField *)
Record SdkMapField := mkSdkMapField { kmf_field : string; kmf_value : list byte }.
(** src: sdk/go/primitive_types.go ScoredMember *)
Record SdkScoredMember := mkSdkScoredMember { ksm_member : string; ksm_score : float64 }.

(** src: sdk/go/primitive_types.go PrimitiveResult *)
Record SdkPrimitiveResult := mkSdkPrimitiveResult {
  kpr_record : SdkRecord; kpr_found : bool; kpr_applied : bool; kpr_value : list byte; kpr_bool : bool; kpr_count : Z;
  kpr_fields : list SdkMapField; kpr_members : list string; kpr_scoredMembers : list SdkScoredMember;
  kpr_values : list (list byte)
}.

(** ** Translation *)

(** src: sdk/go/types.go wireKey *)
Definition wireKey (key : SdkKey) : WireTypes.Key :=
  WireTypes.mkKey (sk_namespace key) (sk_space key) (sk_entity key) (sk_key key).

(** [Milliseconds] divides towards zero.
    src: sdk/go/types.go ttlMillis *)
Definition ttlMillis (ttl : Duration) : Z := if ttl <=? 0 then 0 else Z.quot ttl 1000000.

(** src: sdk/go/types.go recordFromWire *)
Definition recordFromWire (rec : WireRecord) : SdkRecord :=
  mkSdkRecord (wr_found rec) (mkSdkKey (wr_namespace rec) (wr_space rec) (wr_entity rec) (wr_key rec)) (wr_value rec)
    (wr_version rec) (wr_namespaceVersion rec) (wr_spaceVersion rec)
    (if 0 <? wr_expireAtUnixMs rec then timeUnixMilli (wr_expireAtUnixMs rec) else zeroTime).

(** src: sdk/go/client.go recordsFromWire *)
Definition recordsFromWire (records : list WireRecord) : list SdkRecord := recordFromWire <$> records.
(** src: sdk/go/client.go deleteResultsFromWire *)
Definition deleteResultsFromWire (results : list DeleteResponse) : list bool := dresp_deleted <$> results.
(** src: sdk/go/client.go existsResultsFromWire *)
Definition existsResultsFromWire (results : list ExistsResponse) : list bool := eresp_exists <$> results.
(** src: sdk/go/client.go touchResultsFromWire *)
Definition touchResultsFromWire (results : list TouchResponse) : list bool := tresp_touched <$> results.

(** src: sdk/go/primitive.go wirePrimitiveRequest *)
Definition wirePrimitiveRequest (r : SdkPrimitiveRequest) : WireTypes.PrimitiveRequest :=
  let o := kp_options r in
  WireTypes.mkPrimitiveRequest (wireKey (kp_key r)) 0 (kp_kind r) (ttlMillis (kpo_ttl o)) (kpo_namespaceVersion o)
    (kpo_spaceVersion o) (kpo_expectedVersion o) (kp_field r) (kp_member r) (kp_value r) (kp_delta r) (kp_initialValue r)
    (kp_score r) (kp_minScore r) (kp_maxScore r) (kp_hasMinScore r) (kp_hasMaxScore r) (kp_limit r) (kp_start r)
    (kp_reverse r) 0 0.

(** src: sdk/go/primitive.go wirePrimitiveRequests *)
Definition wirePrimitiveRequests (requests : list SdkPrimitiveRequest) := wirePrimitiveRequest <$> requests.

(** src: sdk/go/primitive.go mapFieldsFromWire *)
Definition mapFieldsFromWire (fields : list WireTypes.MapField) : list SdkMapField :=
  (fun f => mkSdkMapField (wmf_field f) (wmf_value f)) <$> fields.
(** src: sdk/go/primitive.go scoredMembersFromWire *)
Definition scoredMembersFromWire (members : list WireTypes.ScoredMember) : list SdkScoredMember :=
  (fun m => mkSdkScoredMember (wsm_member m) (wsm_score m)) <$> members.
(** src: sdk/go/primitive.go listValuesFromWire *)
Definition listValuesFromWire (values : list ListValue) : list (list byte) := wlv_value <$> values.

(** src: sdk/go/primitive.go primitiveResultFromWire *)
Definition primitiveResultFromWire (r : WireTypes.PrimitiveResult) : SdkPrimitiveResult :=
  mkSdkPrimitiveResult (recordFromWire (wpr_record r)) (wpr_found r) (wpr_applied r) (wpr_value r) (wpr_bool r) (wpr_count r)
    (mapFieldsFromWire (wpr_fields r)) (wpr_members r) (scoredMembersFromWire (wpr_scoredMembers r))
    (listValuesFromWire (wpr_values r)).

(** src: sdk/go/primitive.go primitiveResultsFromWire *)
Definition primitiveResultsFromWire (results : list WireTypes.PrimitiveResult) := primitiveResultFromWire <$> results.

(** ** Calls on a backend *)

(** The state of a backend is [St] and its errors are [Err]; [rc_code] finds the
    code of a [cachewire.Error] in the chain of an error.
    src: sdk/go/client.go rawClient *)
Class rawClient (St Er : Type) := {
  rc_set : WireTypes.SetRequest -> St -> St * result Er WireRecord;
  rc_get : WireTypes.GetRequest -> St -> St * result Er WireRecord;
  rc_delete : WireTypes.DeleteRequest -> St -> St * result Er DeleteResponse;
  rc_exists : ExistsRequest -> St -> St * result Er ExistsResponse;
  rc_touch : WireTypes.TouchRequest -> St -> St * result Er TouchResponse;
  rc_adjust : AdjustRequest -> St -> St * result Er WireRecord;
  rc_primitive : WireTypes.PrimitiveRequest -> St -> St * result Er WireTypes.PrimitiveResult;
  rc_batchSet : BatchSetRequest -> St -> St * result Er BatchSetResponse;
  rc_batchGet : BatchGetRequest -> St -> St * result Er BatchGetResponse;
  rc_batchDelete : BatchDeleteRequest -> St -> St * result Er BatchDeleteResponse;
  rc_batchExists : BatchExistsRequest -> St -> St * result Er BatchExistsResponse;
  rc_batchTouch : BatchTouchRequest -> St -> St * result Er BatchTouchResponse;
  rc_batchPrimitive : BatchPrimitiveRequest -> St -> St * result Er BatchPrimitiveResponse;
  rc_code : Er -> option ErrorCode
}.

Section Calls.
  Context {St Er : Type} `{!rawClient St Er}.

(** The translation of what a backend returned. *)
Definition translated {A B} (f : A -> B) (out : St * result Er A) : St * result Er B :=
  let '(s, r) := out in (s, f <$> r).

(** The value is copied.
    src: sdk/go/client.go Set *)
Definition sdkSet (key : SdkKey) (value : list byte) (opts : SdkSetOptions) (s : St) : St * result Er SdkRecord :=
  translated recordFromWire (rc_set (WireTypes.mkSetRequest (wireKey key) value 0 (ttlMillis (kso_ttl opts))
    (kso_namespaceVersion opts) (kso_spaceVersion opts) (kso_expectedVersion opts) 0 0) s).

(** src: sdk/go/client.go Get *)
Definition sdkGet (key : SdkKey) (opts : SdkGetOptions) (s : St) : St * result Er SdkRecord :=
  translated recordFromWire
    (rc_get (WireTypes.mkGetRequest (wireKey key) 0 (kgo_namespaceVersion opts) (kgo_spaceVersion opts)) s).

(** src: sdk/go/client.go Delete *)
Definition sdkDelete (key : SdkKey) (opts : SdkDeleteOptions) (s : St) : St * result Er bool :=
  translated dresp_deleted (rc_delete (WireTypes.mkDeleteRequest (wireKey key) 0 (kdo_expectedVersion opts)) s).

(** src: sdk/go/client.go Exists *)
Definition sdkExists (key : SdkKey) (opts : SdkGetOptions) (s : St) : St * result Er bool :=
  translated eresp_exists
    (rc_exists (mkExistsRequest (wireKey key) 0 (kgo_namespaceVersion opts) (kgo_spaceVersion opts)) s).

(** src: sdk/go/client.go Touch *)
Definition sdkTouch (key : SdkKey) (opts : SdkTouchOptions) (s : St) : St * result Er bool :=
  translated tresp_touched (rc_touch (WireTypes.mkTouchRequest (wireKey key) 0 (ttlMillis (kto_ttl opts))
    (kto_namespaceVersion opts) (kto_spaceVersion opts) (kto_expectedVersion opts)) s).

(** src: sdk/go/client.go Adjust *)
Definition sdkAdjust (key : SdkKey) (opts : SdkAdjustOptions) (s : St) : St * result Er SdkRecord :=
  translated recordFromWire (rc_adjust (mkAdjustRequest (wireKey key) 0 (ttlMillis (kao_ttl opts)) (kao_initialValue opts)
    (kao_delta opts) (kao_namespaceVersion opts) (kao_spaceVersion opts) (kao_expectedVersion opts)) s).

(** src: sdk/go/primitive.go Primitive *)
Definition sdkPrimitive (request : SdkPrimitiveRequest) (s : St) : St * result Er SdkPrimitiveResult :=
  translated primitiveResultFromWire (rc_primitive (wirePrimitiveRequest request) s).

(** src: sdk/go/client.go BatchSet *)
Definition sdkBatchSet (items : list SdkSetItem) (s : St) : St * result Er (list SdkRecord) :=
  translated (fun r => recordsFromWire (bsr_records r)) (rc_batchSet (mkBatchSetRequest 0
    ((fun i => WireTypes.mkSetRequest (wireKey (ksi_key i)) (ksi_value i) 0 (ttlMillis (kso_ttl (ksi_options i)))
       (kso_namespaceVersion (ksi_options i)) (kso_spaceVersion (ksi_options i)) (kso_expectedVersion (ksi_options i)) 0 0)
     <$> items)) s).

(** src: sdk/go/client.go BatchGet *)
Definition sdkBatchGet (items : list SdkGetItem) (s : St) : St * result Er (list SdkRecord) :=
  translated (fun r => recordsFromWire (bgr_records r)) (rc_batchGet (mkBatchGetRequest 0
    ((fun i => WireTypes.mkGetRequest (wireKey (kgi_key i)) 0 (kgo_namespaceVersion (kgi_options i))
       (kgo_spaceVersion (kgi_options i))) <$> items)) s).

(** src: sdk/go/client.go BatchDelete *)
Definition sdkBatchDelete (items : list SdkDeleteItem) (s : St) : St * result Er (list bool) :=
  translated (fun r => deleteResultsFromWire (bdr_results r)) (rc_batchDelete (mkBatchDeleteRequest 0
    ((fun i => WireTypes.mkDeleteRequest (wireKey (kdi_key i)) 0 (kdo_expectedVersion (kdi_options i))) <$> items)) s).

(** src: sdk/go/client.go BatchExists *)
Definition sdkBatchExists (items : list SdkGetItem) (s : St) : St * result Er (list bool) :=
  translated (fun r => existsResultsFromWire (ber_results r)) (rc_batchExists (mkBatchExistsRequest 0
    ((fun i => mkExistsRequest (wireKey (kgi_key i)) 0 (kgo_namespaceVersion (kgi_options i))
       (kgo_spaceVersion (kgi_options i))) <$> items)) s).

(** src: sdk/go/client.go BatchTouch *)
Definition sdkBatchTouch (items : list SdkTouchItem) (s : St) : St * result Er (list bool) :=
  translated (fun r => touchResultsFromWire (btr_results r)) (rc_batchTouch (mkBatchTouchRequest 0
    ((fun i => WireTypes.mkTouchRequest (wireKey (kti_key i)) 0 (ttlMillis (kto_ttl (kti_options i)))
       (kto_namespaceVersion (kti_options i)) (kto_spaceVersion (kti_options i)) (kto_expectedVersion (kti_options i)))
     <$> items)) s).

(** src: sdk/go/primitive.go BatchPrimitive *)
Definition sdkBatchPrimitive (requests : list SdkPrimitiveRequest) (s : St) : St * result Er (list SdkPrimitiveResult) :=
  translated (fun r => primitiveResultsFromWire (bpr_results r))
    (rc_batchPrimitive (mkBatchPrimitiveRequest 0 (wirePrimitiveRequests requests)) s).

(** src: sdk/go/client.go ErrorCodeOf *)
Definition ErrorCodeOf {A} (r : result Er A) : option ErrorCode :=
  match r with Ok _ => None | Err e => rc_code e end.
End Calls.

(** ** The direct client *)

(** src: sdk/go/direct_tcp.go decodeDirectError *)
Definition decodeDirectError `{!ErrorBody} (frame : Frame) : clientError :=
  match unmarshalError (Metadata frame) with
  | None => UnreadableError
  | Some body => RemoteError body
  end.

(** src: sdk/go/direct_tcp.go decodeDirectRecord *)
Definition decodeDirectRecord (frame : Frame) : result clientError WireRecord :=
  match DecodeRecord (Metadata frame) with
  | Err e => Err (DecodeFailed e)
  | Ok out => Ok (if 0 <? zlen (Payload frame) then withRecordValue out (Payload frame) else out)
  end.

(** src: sdk/go/direct_tcp.go decodeDirectPrimitiveResult *)
Definition decodeDirectPrimitiveResult (frame : Frame) : result clientError WireTypes.PrimitiveResult :=
  match DecodePrimitiveResponse (Metadata frame) (Payload frame) with
  | Err e => Err (DecodeFailed e)
  | Ok out => Ok out
  end.

Section Direct.
  Context `{!RangeOrder, !ErrorBody} {E : Type} `{!Engine E}.
  Implicit Types (env : callEnv) (c : Client) (peer : option (Server E)).

(** The identifier is taken after dialling.  [directTCPClient] has the fields of
    the transport's client.
    src: sdk/go/direct_tcp.go do *)
Definition directDo env c peer (op : Op) (routeEpoch : Z) (metadata payload : list byte) : called (E := E) Frame :=
  match peer with
  | None => (c, None, Err DialFailed)
  | Some srv =>
      let requestID := cl_nextID c +% 1 in
      let c := mkClient (cl_codec c) requestID in
      match Encode bufWrite (cl_codec c) [] (mkFrame 0 op requestID routeEpoch metadata payload) with
      | (sent, Err e) => (c, Some (serve (fun _ => env) srv sent).1, Err (WriteFrameFailed e))
      | (sent, Ok _) =>
          let '(srv, received) := serve (fun _ => env) srv sent in
          (c, Some srv,
           match (Decode (cl_codec c) received).1 with
           | Err e => Err (ReadFrameFailed e)
           | Ok frame =>
               if negb (RequestID frame =? requestID) then Err (RequestIDMismatch (RequestID frame) requestID)
               else if negb (Z.land (Flags frame) FlagError =? 0) then Err (decodeDirectError frame)
               else Ok frame
           end)
      end
  end.

(** src: sdk/go/direct_tcp.go Set *)
Definition directSet env c peer (request : WireTypes.SetRequest) : called WireRecord :=
  thenDecode (directDo env c peer OpCacheSet (ws_routeEpoch request) (EncodeSetRequest request) (ws_value request))
    decodeDirectRecord.
(** src: sdk/go/direct_tcp.go Get *)
Definition directGet env c peer (request : WireTypes.GetRequest) : called WireRecord :=
  thenDecode (directDo env c peer OpCacheGet (wg_routeEpoch request) (EncodeGetRequest request) []) decodeDirectRecord.
(** src: sdk/go/direct_tcp.go Delete *)
Definition directDelete env c peer (request : WireTypes.DeleteRequest) : called DeleteResponse :=
  thenDecode (directDo env c peer OpCacheDelete (wd_routeEpoch request) (EncodeDeleteRequest request) [])
    (decodeMetadata DecodeDeleteResponse).
(** src: sdk/go/direct_tcp.go Exists *)
Definition directExists env c peer (request : ExistsRequest) : called ExistsResponse :=
  thenDecode (directDo env c peer OpCacheExists (we_routeEpoch request) (EncodeExistsRequest request) [])
    (decodeMetadata DecodeExistsResponse).
(** src: sdk/go/direct_tcp.go Touch *)
Definition directTouch env c peer (request : WireTypes.TouchRequest) : called TouchResponse :=
  thenDecode (directDo env c peer OpCacheTouch (wt_routeEpoch request) (EncodeTouchRequest request) [])
    (decodeMetadata DecodeTouchResponse).
(** src: sdk/go/direct_tcp.go Adjust *)
Definition directAdjust env c peer (request : AdjustRequest) : called WireRecord :=
  thenDecode (directDo env c peer OpCacheAdjust (wa_routeEpoch request) (EncodeAdjustRequest request) []) decodeDirectRecord.
(** src: sdk/go/direct_tcp.go Primitive *)
Definition directPrimitive env c peer (request : WireTypes.PrimitiveRequest) : called WireTypes.PrimitiveResult :=
  encoded c peer (EncodePrimitiveRequest request) (fun metadata payload =>
    thenDecode (directDo env c peer OpCachePrimitive (wp_routeEpoch request) metadata payload) decodeDirectPrimitiveResult).
(** src: sdk/go/direct_tcp.go BatchSet *)
Definition directBatchSet env c peer (request : BatchSetRequest) : called BatchSetResponse :=
  encoded c peer (EncodeBatchSetRequest request) (fun metadata payload =>
    thenDecode (directDo env c peer OpCacheBatchSet (bs_routeEpoch request) metadata payload)
      (decodeMetadata DecodeBatchSetResponse)).
(** src: sdk/go/direct_tcp.go BatchGet *)
Definition directBatchGet env c peer (request : BatchGetRequest) : called BatchGetResponse :=
  thenDecode (directDo env c peer OpCacheBatchGet (bg_routeEpoch request) (EncodeBatchGetRequest request) [])
    (fun frame => map_err DecodeFailed (DecodeBatchGetResponse (Metadata frame) (Payload frame))).
(** src: sdk/go/direct_tcp.go BatchDelete *)
Definition directBatchDelete env c peer (request : BatchDeleteRequest) : called BatchDeleteResponse :=
  thenDecode (directDo env c peer OpCacheBatchDelete (bd_routeEpoch request) (EncodeBatchDeleteRequest request) [])
    (decodeMetadata DecodeBatchDeleteResponse).
(** src: sdk/go/direct_tcp.go BatchExists *)
Definition directBatchExists env c peer (request : BatchExistsRequest) : called BatchExistsResponse :=
  thenDecode (directDo env c peer OpCacheBatchExists (be_routeEpoch request) (EncodeBatchExistsRequest request) [])
    (decodeMetadata DecodeBatchExistsResponse).
(** src: sdk/go/direct_tcp.go BatchTouch *)
Definition directBatchTouch env c peer (request : BatchTouchRequest) : called BatchTouchResponse :=
  thenDecode (directDo env c peer OpCacheBatchTouch (bt_routeEpoch request) (EncodeBatchTouchRequest request) [])
    (decodeMetadata DecodeBatchTouchResponse).
(** src: sdk/go/direct_tcp.go BatchPrimitive *)
Definition directBatchPrimitive env c peer (request : BatchPrimitiveRequest) : called BatchPrimitiveResponse :=
  encoded c peer (EncodeBatchPrimitiveRequest request) (fun metadata payload =>
    thenDecode (directDo env c peer OpCacheBatchPrimitive (bp_routeEpoch request) metadata payload) (fun frame =>
      map_err DecodeFailed (DecodeBatchPrimitiveResponse (Metadata frame) (Payload frame)))).

(** ** Instances *)

Definition clientCode (e : clientError) : option ErrorCode :=
  match e with RemoteError body => Some (err_code body) | _ => None end.

(** The nodes, with the client of one address; the fate is that of the call. *)
Definition directBackend (fate : callFate) (addr : string) : rawClient (cluster E) clientError := {|
  rc_set r := callNode fate addr (fun env c peer => directSet env c peer r);
  rc_get r := callNode fate addr (fun env c peer => directGet env c peer r);
  rc_delete r := callNode fate addr (fun env c peer => directDelete env c peer r);
  rc_exists r := callNode fate addr (fun env c peer => directExists env c peer r);
  rc_touch r := callNode fate addr (fun env c peer => directTouch env c peer r);
  rc_adjust r := callNode fate addr (fun env c peer => directAdjust env c peer r);
  rc_primitive r := callNode fate addr (fun env c peer => directPrimitive env c peer r);
  rc_batchSet r := callNode fate addr (fun env c peer => directBatchSet env c peer r);
  rc_batchGet r := callNode fate addr (fun env c peer => directBatchGet env c peer r);
  rc_batchDelete r := callNode fate addr (fun env c peer => directBatchDelete env c peer r);
  rc_batchExists r := callNode fate addr (fun env c peer => directBatchExists env c peer r);
  rc_batchTouch r := callNode fate addr (fun env c peer => directBatchTouch env c peer r);
  rc_batchPrimitive r := callNode fate addr (fun env c peer => directBatchPrimitive env c peer r);
  rc_code := clientCode
|}.

Context `{!NilLists}.

Definition routedCode (e : routedError) : option ErrorCode :=
  match e with CallFailed e => clientCode e | _ => None end.

(** The result that comes with an error is dropped. *)
Definition orError {A} (out : routed E * (A * option routedError)) : routed E * result routedError A :=
  let '(s, (a, err)) := out in (s, match err with Some e => Err e | None => Ok a end).

(** The routed client; the fates are those of the call. *)
Definition routedBackend (fates : routeFates) (batch : batchFates) : rawClient (routed E) routedError := {|
  rc_set r := routedSet fates r;
  rc_get r := routedGet fates r;
  rc_delete r := routedDelete fates r;
  rc_exists r := routedExists fates r;
  rc_touch r := routedTouch fates r;
  rc_adjust r := routedAdjust fates r;
  rc_primitive r := routedPrimitive fates r;
  rc_batchSet r := routedBatchSet batch r;
  rc_batchGet r := routedBatchGet batch r;
  rc_batchDelete r s := orError (routedBatchDelete batch r s);
  rc_batchExists r s := orError (routedBatchExists batch r s);
  rc_batchTouch r s := orError (routedBatchTouch batch r s);
  rc_batchPrimitive r s := orError (routedBatchPrimitive batch r s);
  rc_code := routedCode
|}.
End Direct.

(** A direct client has nothing to refresh.
    src: sdk/go/client.go Refresh *)
Definition sdkRefresh {E} (backend : cluster E + routed E) (fate : fetchFate) : (cluster E + routed E) * result routedError unit :=
  match backend with
  | inl w => (inl w, Ok tt)
  | inr s => let '(s, r) := Refresh fate s in (inr s, r)
  end.
