(* ===== verification/SdkSpec.v ===== *)
(** * The SDK's calls

    The SDK's own connection code is the transport's client; its calls come to the
    same calls of the service behind a server; and what an SDK client sets, an SDK
    client reads back, through the wire format, the server, the service and the
    engine. *)

From S2P Require Import Prelude.
From S2P Require Import Binary.
From S2P Require Import GoStrings.
From S2P Require Import Frame.
From S2P Require Import EngineTypes.
From S2P Require Import Shard.
From S2P Require Import ShardInv.
From S2P Require Import Primitives.
From S2P Require Import Worker.
From S2P Require Import KvSpec.
From S2P Require Import MemoryEngine.
From S2P Require Import EngineSpec.
From S2P Require Import Service.
From S2P Require Import WireTypes.
From S2P Require Import Wire.
From S2P Require Import WireMessages.
From S2P Require Import TcpWire.
From S2P Require Import TcpServer.
From S2P Require Import TcpClient.
From S2P Require Import TcpSpec.
From S2P Require Import TcpCalls.
From S2P Require Import Executor.
From S2P Require Import Routed.
From S2P Require Import Sdk.

Local Open Scope Z_scope.
Local Open Scope nespa_scope.

(** ** The two clients *)

Section Direct.
  Context `{!RangeOrder, !ErrorBody} {E : Type} `{!Engine E}.

Lemma directDo_do env c (peer : option (Server E)) op epoch metadata payload :
  directDo env c peer op epoch metadata payload = do env c peer op epoch metadata payload.
Proof.
  unfold directDo, do. destruct peer as [srv|]; [|done].
  destruct (Encode _ _ _ _) as [sent [u|e]]; [done|]. by destruct (serve _ _ _).
Qed.

Lemma decodeDirectRecord_eq frame : decodeDirectRecord frame = decodeRecord frame.
Proof. unfold decodeDirectRecord, decodeRecord. destruct (DecodeRecord _); [|done]. cbn. by case_bool. Qed.

Lemma thenDecode_ext {A B} (out : called (E := E) A) (f g : A -> result clientError B) : (forall a, f a = g a) ->
  thenDecode out f = thenDecode out g.
Proof. intros Hf. destruct out as [[c peer] [a|e]]; [|done]. cbn. by rewrite Hf. Qed.

(** The single calls of the SDK's direct client. *)
Definition directCall env (c : Client) (peer : option (Server E)) (call : cacheCall) : called cacheReply :=
  match call with
  | CallSet r => replied ReplyRecord (directSet env c peer r)
  | CallGet r => replied ReplyRecord (directGet env c peer r)
  | CallDelete r => replied ReplyDeleted (directDelete env c peer r)
  | CallExists r => replied ReplyExists (directExists env c peer r)
  | CallTouch r => replied ReplyTouched (directTouch env c peer r)
  | CallAdjust r => replied ReplyRecord (directAdjust env c peer r)
  end.

Lemma directCall_remote env c peer call : directCall env c peer call = remoteCall env c peer call.
Proof.
  destruct call; cbn [directCall remoteCall]; f_equal;
    unfold directSet, directGet, directDelete, directExists, directTouch, directAdjust,
      clientSet, clientGet, clientDelete, clientExists, clientTouch, clientAdjust;
    rewrite directDo_do; try done; apply thenDecode_ext; apply decodeDirectRecord_eq.
Qed.

(** What has to hold for a call to get through: the fields are in the range of
    their types, the frames fit, the route is not stale, the key is not fenced. *)
Record delivered (env : callEnv) (c : Client) (s : Server E) (call : cacheCall) : Prop := {
  dl_codec : codec_typed (srv_codec s);
  dl_same : cl_codec c = srv_codec s;
  dl_call : call_ok call;
  dl_accepted : accepts s c call;
  dl_request : fits (srv_codec s) (call_frame c call);
  dl_response : fits (srv_codec s) (handleFrame env s (call_frame c call)).2;
  dl_reply : forall reply, (localCall env s call).2 = Ok reply -> reply_ok reply
}.

Lemma directCall_local env c s call : delivered env c s call ->
  exists r, directCall env c (Some s) call = (nextClient c, Some (localCall env s call).1, r) /\
  match (localCall env s call).2, r with
  | Ok reply, Ok reply' => reply' = reply
  | Err code, Err e => clientCode e = Some code
  | _, _ => False
  end.
Proof.
  intros []. rewrite directCall_remote. pose proof (call_is_local env c s call) as Hl.
  destruct (localCall env s call) as [s' [reply|code]]; cbn [fst snd] in *.
  - exists (Ok reply). split; [|done]. by apply Hl; auto.
  - destruct Hl as [m Hm]; try done. eexists. split; [exact Hm|done].
Qed.
End Direct.

(** ** Reading what was written *)

Section Memory.
  Context `{!Codecs, !GoMath, !RangeOrder, !ErrorBody}.

(** A deadline that has not passed. *)
Definition pending (deadline now : Time) : Prop := deadline = zeroTime \/ now < deadline.

Lemma applySet_found s cmd t r : applySet s cmd = (t, r) -> res_found r = true ->
  exists ent, sw_entries t !! c_physical cmd = Some ent /\ r = resRecord (record ent) /\ e_value ent = c_value cmd /\
    e_namespaceVersion ent = so_namespaceVersion (c_setOpts cmd) /\ e_spaceVersion ent = so_spaceVersion (c_setOpts cmd) /\
    e_expireAt ent = (if 0 <? so_ttl (c_setOpts cmd) then TimeAdd (c_now cmd) (so_ttl (c_setOpts cmd)) else zeroTime).
Proof.
  unfold applySet. case_bool; [by intros [= <- <-]|]. destruct (sw_entries s !! c_physical cmd) as [old|].
  - unfold replaceEntry. intros [= <- <-] _. eexists. split; [apply lookup_insert_eq|done].
  - intros [= <- <-] _. eexists. unfold addEntry. rewrite addSpaceUsage_entries. cbn [sw_entries set_memoryBytes set_objects set_entries].
    split; [apply lookup_insert_eq|done].
Qed.

(** The entry an engine stores under a key. *)
Definition entryOf (e : MemoryEngine) (key : EngineTypes.Key) : option entry :=
  me_shards e !! shardFor e (physicalKey key) ≫= fun s => sw_entries s !! physicalKey key.

(** An engine that is open and still stores what another one stores under a key. *)
Definition keeps (key : EngineTypes.Key) (e e' : MemoryEngine) : Prop := me_closed e' = false /\ entryOf e' key = entryOf e key.

(** What a set of the engine stores. *)
Lemma Set_stored e key value opts now e' r : Set' LiveContext e key value opts now = (e', (r, true, None)) ->
  validateKey key = None /\
  exists ent, entryOf e' key = Some ent /\ r = record ent /\ e_value ent = value /\
    e_namespaceVersion ent = so_namespaceVersion opts /\ e_spaceVersion ent = so_spaceVersion opts.
Proof.
  unfold Set'. destruct (validateKey key); [done|]. unfold execute, executeOn, recordReply.
  destruct (me_closed e); [done|]. set (cmd := setCommand key value opts now).
  destruct (me_shards e !! shardFor e (c_physical cmd)) as [s|] eqn:Es; [|done].
  change (apply 0 s cmd) with (applySet s cmd). destruct (applySet s cmd) as [t res] eqn:Ea. intros [= <- <- Hf _]. split; [done|].
  destruct (applySet_found _ _ _ _ Ea Hf) as (ent & Ht & -> & Hval & Hn & Hsp & _). exists ent. split; [|done].
  unfold entryOf. cbn [me_shards]. set (e1 := mkEngine _ _).
  rewrite (shardFor_length e1 e) by (cbn; apply length_insert).
  change (c_physical cmd) with (physicalKey key) in *. rewrite list_lookup_insert_eq by (by apply lookup_lt_Some in Es). exact Ht.
Qed.

(** A get of a stored entry that has not expired and has the versions asked for. *)
Lemma Get_stored e key ent gopts now : me_closed e = false -> validateKey key = None -> entryOf e key = Some ent ->
  pending (e_expireAt ent) now -> version_ok (go_namespaceVersion gopts) (e_namespaceVersion ent) = true ->
  version_ok (go_spaceVersion gopts) (e_spaceVersion ent) = true ->
  exists e' r, Get LiveContext e key gopts now = (e', (r, true, None)) /\ r_value r = e_value ent /\
    r_key r = r_key (record ent) /\ r_version r = r_version (record ent) /\ r_expireAt r = r_expireAt (record ent).
Proof.
  intros Hopen Hk Hent Hp Hv1 Hv2. unfold Get. rewrite Hk. unfold execute, executeOn, recordReply. rewrite Hopen.
  set (rd := getCommand key gopts now). change (c_physical rd) with (physicalKey key). unfold entryOf in Hent.
  destruct (me_shards e !! shardFor e (physicalKey key)) as [s|]; [|done]. cbn [mbind option_bind] in Hent.
  change (apply 0 s rd) with (applyGet s rd). unfold applyGet. cbn [sw_entries set_gets].
  change (c_physical rd) with (physicalKey key). rewrite Hent.
  assert (expired ent (c_now rd) = false) as ->.
  { unfold expired, After, IsZero. change (c_now rd) with now. destruct Hp as [-> |Hlt]; [done|].
    apply andb_false_iff. right. apply negb_false_iff, Z.ltb_lt. exact Hlt. }
  assert (visible ent (c_getOpts rd) = true) as ->.
  { rewrite visible_versions. cbn [c_getOpts rd getCommand]. by rewrite Hv1, Hv2. }
  cbn [negb]. eexists _, _. split; [reflexivity|]. by split_and!.
Qed.

(** A set of the engine, and a get of an engine that keeps what it stored. *)
Lemma Set_then_Get e key value opts now e' r e1 gopts now' :
  Set' LiveContext e key value opts now = (e', (r, true, None)) -> keeps key e' e1 ->
  pending (r_expireAt r) now' -> version_ok (go_namespaceVersion gopts) (so_namespaceVersion opts) = true ->
  version_ok (go_spaceVersion gopts) (so_spaceVersion opts) = true ->
  exists e2 r', Get LiveContext e1 key gopts now' = (e2, (r', true, None)) /\ r_value r' = value /\
    r_key r' = r_key r /\ r_version r' = r_version r /\ r_expireAt r' = r_expireAt r.
Proof.
  intros Hset [Hopen Hkept] Hp Hv1 Hv2. destruct (Set_stored _ _ _ _ _ _ _ Hset) as (Hk & ent & Hent & -> & <- & Hn & Hs).
  apply Get_stored; [done|done|by rewrite Hkept|done|by rewrite Hn|by rewrite Hs].
Qed.

Lemma Set_deadline e key value opts now e' r : Set' LiveContext e key value opts now = (e', (r, true, None)) ->
  r_expireAt r = if 0 <? so_ttl opts then TimeAdd now (so_ttl opts) else zeroTime.
Proof.
  unfold Set'. destruct (validateKey key); [done|]. unfold execute, executeOn, recordReply. destruct (me_closed e); [done|].
  set (cmd := setCommand key value opts now). destruct (me_shards e !! _) as [s|]; [|done].
  change (apply 0 s cmd) with (applySet s cmd). destruct (applySet s cmd) as [t res] eqn:Ea. intros [= _ <- Hf _].
  by destruct (applySet_found _ _ _ _ Ea Hf) as (ent & _ & -> & _ & _ & _ & Hx).
Qed.

Lemma replicateSet_service {E} env r (s : Server E) : srv_service (replicateSet env r s) = srv_service s.
Proof.
  unfold replicateSet, replicate. by destruct (srv_replicaTargets s).
Qed.

(** The requests of a set and of a get. *)
Definition setOf (key : SdkKey) (value : list byte) (opts : SdkSetOptions) : WireTypes.SetRequest :=
  WireTypes.mkSetRequest (wireKey key) value 0 (ttlMillis (kso_ttl opts)) (kso_namespaceVersion opts)
    (kso_spaceVersion opts) (kso_expectedVersion opts) 0 0.

Definition getOf (key : SdkKey) (opts : SdkGetOptions) : WireTypes.GetRequest :=
  WireTypes.mkGetRequest (wireKey key) 0 (kgo_namespaceVersion opts) (kgo_spaceVersion opts).

(** The cluster after a call that the node at [addr] answered. *)
Definition answeredBy {E} (addr : string) (c : Client) (s : Server E) (w : cluster E) : cluster E :=
  mkCluster (cu_control w) (<[addr := s]> (cu_nodes w)) c.

Lemma directNode_answered {E} `{!Engine E} {A} env addr (call : callEnv -> Client -> option (Server E) -> called (E := E) A) w srv c s r :
  cu_nodes w !! addr = Some srv -> call env (cu_client w) (Some srv) = (c, Some s, r) ->
  callNode (Answered env) addr call w = (answeredBy addr c s w, r).
Proof. intros Hs Hc. unfold callNode. by rewrite Hs, Hc. Qed.

(** The SDK's set and get at a node that receives them. *)
Lemma sdkSet_local {E} `{!Engine E} addr env key value opts (w : cluster E) srv :
  cu_nodes w !! addr = Some srv -> delivered env (cu_client w) srv (CallSet (setOf key value opts)) ->
  exists r, sdkSet (rawClient0 := directBackend (Answered env) addr) key value opts w =
    (answeredBy addr (nextClient (cu_client w)) (localCall env srv (CallSet (setOf key value opts))).1 w, r) /\
  match (localCall env srv (CallSet (setOf key value opts))).2, r with
  | Ok reply, Ok rec => exists wr, reply = ReplyRecord wr /\ rec = recordFromWire wr
  | Err code, Err e => clientCode e = Some code
  | _, _ => False
  end.
Proof.
  intros Hs Hd. destruct (directCall_local _ _ _ _ Hd) as (r & Hc & Hr). cbn [directCall] in Hc.
  unfold sdkSet, translated. cbn [rc_set directBackend]. fold (setOf key value opts).
  destruct (directSet env (cu_client w) (Some srv) (setOf key value opts)) as [[c' peer'] q] eqn:Eq. cbn [replied] in Hc.
  injection Hc as -> -> Hq. rewrite (directNode_answered env addr _ w srv _ _ _ Hs Eq).
  eexists. split; [reflexivity|]. destruct (localCall _ _ _).2 as [reply|code], q as [wr|e]; cbn in *; subst r; try done. by exists wr.
Qed.

Lemma sdkGet_local {E} `{!Engine E} addr env key opts (w : cluster E) srv :
  cu_nodes w !! addr = Some srv -> delivered env (cu_client w) srv (CallGet (getOf key opts)) ->
  exists r, sdkGet (rawClient0 := directBackend (Answered env) addr) key opts w =
    (answeredBy addr (nextClient (cu_client w)) (localCall env srv (CallGet (getOf key opts))).1 w, r) /\
  match (localCall env srv (CallGet (getOf key opts))).2, r with
  | Ok reply, Ok rec => exists wr, reply = ReplyRecord wr /\ rec = recordFromWire wr
  | Err code, Err e => clientCode e = Some code
  | _, _ => False
  end.
Proof.
  intros Hs Hd. destruct (directCall_local _ _ _ _ Hd) as (r & Hc & Hr). cbn [directCall] in Hc.
  unfold sdkGet, translated. cbn [rc_get directBackend]. fold (getOf key opts).
  destruct (directGet env (cu_client w) (Some srv) (getOf key opts)) as [[c' peer'] q] eqn:Eq. cbn [replied] in Hc.
  injection Hc as -> -> Hq. rewrite (directNode_answered env addr _ w srv _ _ _ Hs Eq).
  eexists. split; [reflexivity|]. destruct (localCall _ _ _).2 as [reply|code], q as [wr|e]; cbn in *; subst r; try done. by exists wr.
Qed.

(** The set of a service that reports a record, and the engine it leaves. *)
Lemma setLocked_found (svc : EngineService MemoryEngine) key value opts clock svc' out :
  setLocked svc key value opts clock = (svc', Ok out) ->
  exists e, Set' LiveContext e key value opts (clock 2%nat) = (svc_engine svc', (sr_record out, sr_found out, None)).
Proof.
  unfold setLocked. destruct (admitSet svc key value opts clock) as [svc1 [err|]]; [done|]. cbn [eng_Set memory_engine]. unfold onEngine.
  destruct (Set' LiveContext (svc_engine svc1) key value opts (clock 2%nat)) as [e' [[r found] [err|]]] eqn:E; [done|].
  intros [= <- <-]. exists (svc_engine svc1). exact E.
Qed.

Lemma localSet env (srv srv' : Server MemoryEngine) r reply : localCall env srv (CallSet r) = (srv', Ok reply) ->
  exists out, reply = ReplyRecord (recordFromCache (sr_record out) (sr_found out)) /\
  (sr_found out = true -> exists e, Set' LiveContext e (keyFromWire (ws_key r)) (ws_value r) (setOptionsFromWire r)
     (ce_clock env 0%nat 2%nat) = (svc_engine (srv_service srv'), (sr_record out, true, None))).
Proof.
  cbn [localCall]. unfold onService.
  destruct (setLocked _ _ _ _ _) as [svc' [out|err]] eqn:El; [|done]. intros [= <- <-]. exists out. split; [done|]. intros Ho.
  destruct (setLocked_found _ _ _ _ _ _ _ El) as (e & Ee). rewrite Ho in Ee |- *. exists e. by rewrite replicateSet_service.
Qed.

(** C20: what an SDK client sets it reads back.  After a set that the node answers
    with a record, in any later state in which the node's engine is open and still
    stores the entry as the set left it (directly after the set, or after calls on
    other keys that evicted nothing of it), before the item's deadline, a get through
    the direct client that reaches the node and asks for no other versions returns
    the value that was set, with the key, version and deadline of the set's record:
    through the SDK's translation, the wire format, the frames, the server, the
    service with its quotas and evictions, and the engine with its shards. *)
Theorem sdk_reads_its_writes addr env env' (w w1 w' : cluster MemoryEngine) srv srv' key value opts gopts rec :
  cu_nodes w !! addr = Some srv -> delivered env (cu_client w) srv (CallSet (setOf key value opts)) ->
  sdkSet (rawClient0 := directBackend (Answered env) addr) key value opts w = (w1, Ok rec) -> kr_found rec = true ->
  cu_nodes w' !! addr = Some srv' -> delivered env' (cu_client w') srv' (CallGet (getOf key gopts)) ->
  (forall srv1, cu_nodes w1 !! addr = Some srv1 ->
     keeps (keyFromWire (wireKey key)) (svc_engine (srv_service srv1)) (svc_engine (srv_service srv'))) ->
  (let ttl := ttlFromMillis (ttlMillis (kso_ttl opts)) in ttl <= 0 \/ ce_clock env' 0%nat 0%nat < TimeAdd (ce_clock env 0%nat 2%nat) ttl) ->
  version_ok (kgo_namespaceVersion gopts) (kso_namespaceVersion opts) = true ->
  version_ok (kgo_spaceVersion gopts) (kso_spaceVersion opts) = true ->
  exists w2 rec', sdkGet (rawClient0 := directBackend (Answered env') addr) key gopts w' = (w2, Ok rec') /\
    kr_found rec' = true /\ kr_value rec' = value /\ kr_key rec' = kr_key rec /\ kr_version rec' = kr_version rec /\
    kr_expireAt rec' = kr_expireAt rec.
Proof.
  intros Hs Hd Hset Hfound Hs' Hd' Hkeep Hlive Hv1 Hv2.
  destruct (sdkSet_local addr env key value opts w srv Hs Hd) as (r & E & Hr). rewrite E in Hset. apply pair_equal_spec in Hset as [<- ->].
  revert Hr Hkeep E. destruct (localCall env srv (CallSet (setOf key value opts))) as [srv1 [reply|code]] eqn:El; [|done].
  cbn [fst snd]. intros Hr Hkeep E.
  destruct Hr as (wr & -> & ->). destruct (localSet _ _ _ _ _ El) as (out & [= ->] & Hout).
  assert (sr_found out = true) as Ho by (by cbn in Hfound; unfold recordFromCache in Hfound; destruct (sr_found out)).
  destruct (Hout Ho) as (e & Ee). specialize (Hkeep srv1 (lookup_insert_eq _ _ _)).
  destruct (sdkGet_local addr env' key gopts w' srv' Hs' Hd') as (r & Eg & Hr).
  destruct (Set_then_Get e _ _ _ _ _ _ _ (getOptionsFromWire (getOf key gopts)) (ce_clock env' 0%nat 0%nat) Ee Hkeep)
    as (e'' & r' & Eget & Hval & Hk & Hver & Hx); [|done|done|].
  { pose proof (Set_deadline _ _ _ _ _ _ _ Ee) as ->. cbn [setOf setOptionsFromWire so_ttl ws_ttlMillis]. cbn zeta in Hlive.
    destruct (Z.ltb_spec 0 (ttlFromMillis (ttlMillis (kso_ttl opts)))); [|by left]. destruct Hlive as [?|?]; [lia|by right]. }
  cbn [localCall] in Hr. unfold onService, getLocked in Hr. cbn [eng_Get memory_engine wg_key getOf] in Hr.
  cbn [ws_key setOf] in Eget. rewrite Eget in Hr. cbn [onEngine snd fst] in Hr.
  destruct r as [rec'|e1]; [|done]. destruct Hr as (wr & [= <-] & ->). rewrite Eg. eexists _, _. split; [reflexivity|].
  rewrite Ho. unfold recordFromCache. cbn. rewrite Hk, Hver, Hx. by split_and!.
Qed.
End Memory.

(** * The SDK, run *)

From S2P Require Import Instances.
From S2P Require Import EngineExamples.
From S2P Require Import Control.
From S2P Require Import TcpPipeline.

#[local] Existing Instance sample_codecs.
#[local] Existing Instance sample_math.
#[local] Existing Instance canonical_order.
#[local] Existing Instance sample_errors.

Definition bob : SdkKey := mkSdkKey "shop" "cart" "" "bob".

Definition oneNode : cluster MemoryEngine := mkCluster (NewControlState "demo") {["a:7000" := sample_server]} NewClient.

Definition bobSet : SdkSetOptions := mkSdkSet 60000000000 0 0 0.

Definition bobCall : cacheCall := CallSet (setOf bob (str_bytes "pears") bobSet).

Definition later : callEnv := mkCallEnv (fun _ _ => 30000000000) (fun _ => 2000) (fun _ => Replication.Written).

(** Goals about ranges and frames of closed terms. *)
Ltac closed := vm_compute; repeat split; congruence.

Lemma bob_delivered : delivered sample_env NewClient sample_server bobCall.
Proof.
  split; [apply sample_codec|reflexivity|closed|split; vm_compute; reflexivity|split; vm_compute; discriminate|split; vm_compute; discriminate|].
  assert (is_ok (localCall sample_env sample_server bobCall).2 = true) as Hok by (vm_compute; reflexivity).
  assert (match (localCall sample_env sample_server bobCall).2 with Ok r => reply_ok r | Err _ => True end) as H by closed.
  intros reply E. by rewrite E in H.
Qed.

Definition afterBob : cluster MemoryEngine :=
  (sdkSet (rawClient0 := directBackend (Answered sample_env) "a:7000") bob (str_bytes "pears") bobSet oneNode).1.

(** Another key is set after it. *)
Definition afterCarol : cluster MemoryEngine :=
  (sdkSet (rawClient0 := directBackend (Answered sample_env) "a:7000") (mkSdkKey "shop" "cart" "" "carol") (str_bytes "plums")
    bobSet afterBob).1.

(** The node in a state of the cluster. *)
Definition nodeIn (w : cluster MemoryEngine) : Server MemoryEngine := default sample_server (cu_nodes w !! "a:7000").

Lemma got_delivered : delivered later (cu_client afterCarol) (nodeIn afterCarol) (CallGet (getOf bob (mkSdkGet 0 0))).
Proof.
  split; [apply sample_codec|reflexivity|closed|split; vm_compute; reflexivity|split; vm_compute; discriminate|split; vm_compute; discriminate|].
  assert (match (localCall later (nodeIn afterCarol) (CallGet (getOf bob (mkSdkGet 0 0)))).2 with
    Ok r => reply_ok r | Err _ => True end) as H by closed.
  intros reply E. by rewrite E in H.
Qed.

Lemma bob_kept srv1 : cu_nodes afterBob !! "a:7000" = Some srv1 ->
  keeps (keyFromWire (wireKey bob)) (svc_engine (srv_service srv1)) (svc_engine (srv_service (nodeIn afterCarol))).
Proof.
  intros E. assert (srv1 = nodeIn afterBob) as -> by (unfold nodeIn; by rewrite E). split; vm_compute; reflexivity.
Qed.

Lemma sdk_reads_its_writes_witness : exists w2 rec,
  sdkGet (rawClient0 := directBackend (Answered later) "a:7000") bob (mkSdkGet 0 0) afterCarol = (w2, Ok rec) /\
  kr_value rec = str_bytes "pears".
Proof.
  assert (exists rec, (sdkSet (rawClient0 := directBackend (Answered sample_env) "a:7000") bob (str_bytes "pears") bobSet oneNode).2 = Ok rec /\
    kr_found rec = true) as (rec & E & Hf) by (eexists; split; vm_compute; reflexivity).
  destruct (sdk_reads_its_writes "a:7000" sample_env later oneNode afterBob afterCarol sample_server (nodeIn afterCarol) bob
    (str_bytes "pears") bobSet (mkSdkGet 0 0) rec) as (w2 & rec' & E' & _ & Hv & _).
  - vm_compute. reflexivity.
  - exact bob_delivered.
  - unfold afterBob. rewrite <- E. apply surjective_pairing.
  - exact Hf.
  - vm_compute. reflexivity.
  - exact got_delivered.
  - exact bob_kept.
  - right. vm_compute. reflexivity.
  - reflexivity.
  - reflexivity.
  - exists w2, rec'. split; [exact E'|exact Hv].
Defined.

(** A time to live of half a millisecond becomes zero milliseconds on the wire,
    which stands for no deadline: the record never expires. *)
Theorem short_ttl_never_expires :
  kr_expireAt <$> (sdkSet (rawClient0 := directBackend (Answered sample_env) "a:7000") bob (str_bytes "pears")
    (mkSdkSet 500000 0 0 0) oneNode).2 = Ok zeroTime /\
  ttlMillis 500000 = 0.
Proof. vm_compute. by split. Qed.
