(* ===== verification/Resp.v ===== *)
(** * The RESP codec (transport/redis: resp.go, range.go)

    The Redis front end reads commands from a buffered reader and writes replies to
    a buffered writer.  A reader is the bytes that arrive before the connection is
    closed; what is written is a list of bytes and writing does not fail.  A slice
    that is larger than the address space makes the program panic. *)

From S2P Require Import Prelude.
From S2P Require Import GoStrings.

Local Open Scope Z_scope.
Local Open Scope nespa_scope.

(** ** Reading *)

(** [RespEOF] stands for every error of the reader; [RespPanics] for a panic. *)
Inductive respError := RespEOF | ErrRESPProtocol | RespPanics.

(** A read: what it gives and what is left. *)
Definition respRead (A : Type) : Type := list byte -> result respError A * list byte.

Definition CR : byte := byte_of_Z 13.
Definition LF : byte := byte_of_Z 10.
Definition CRLF : list byte := [CR; LF].

Definition isByte (b c : byte) : bool := byte_Z b =? byte_Z c.

(** The line up to and with its first line feed, and the rest. *)
Fixpoint splitLine (input : list byte) : option (list byte * list byte) :=
  match input with
  | [] => None
  | b :: rest =>
      if isByte b LF then Some ([b], rest)
      else match splitLine rest with Some (line, rest) => Some (b :: line, rest) | None => None end
  end.

(** src: transport/redis/resp.go readLineSuffix *)
Definition readLineSuffix : respRead (list byte) := fun input =>
  match splitLine input with
  | None => (Err RespEOF, [])
  | Some (line, rest) =>
      if (zlen line <? 2) || negb (match line !! (length line - 2)%nat with Some b => isByte b CR | None => false end)
      then (Err ErrRESPProtocol, rest)
      else (Ok (take (length line - 2) line), rest)
  end.

(** [strconv.Atoi] of a 64-bit [int].
    src: transport/redis/resp.go readRESPInt *)
Definition readRESPInt : respRead Z := fun input =>
  match readLineSuffix input with
  | (Err e, rest) => (Err e, rest)
  | (Ok line, rest) => (match ParseInt line with Some v => Ok v | None => Err ErrRESPProtocol end, rest)
  end.

(** [make] panics when the memory would exceed the address space. *)
Definition maxAlloc : Z := 2 ^ 48.

(** A null argument is the nil slice, read as an empty one.
    src: transport/redis/resp.go readRESPBulkArg *)
Definition readRESPBulkArg : respRead (list byte) := fun input =>
  match readRESPInt input with
  | (Err e, rest) => (Err e, rest)
  | (Ok size, rest) =>
      if size <? 0 then (Ok [], rest)
      else
        let total := s64 (size + 2) in
        if (total <? 0) || (maxAlloc <? total) then (Err RespPanics, rest)
        else if zlen rest <? total then (Err RespEOF, [])
        else
          let n := Z.to_nat size in
          let rest' := drop (n + 2) rest in
          match rest !! n, rest !! (n + 1)%nat with
          | Some c, Some l => if isByte c CR && isByte l LF then (Ok (take n rest), rest') else (Err ErrRESPProtocol, rest')
          | _, _ => (Err ErrRESPProtocol, rest')
          end
  end.

(** src: transport/redis/resp.go readRESPArg *)
Definition readRESPArg : respRead (list byte) := fun input =>
  match input with
  | [] => (Err RespEOF, [])
  | prefix :: rest =>
      if byte_Z prefix =? 36 then readRESPBulkArg rest
      else if (byte_Z prefix =? 43) || (byte_Z prefix =? 58) then readLineSuffix rest
      else (Err ErrRESPProtocol, rest)
  end.

(** The loop over the arguments. *)
Fixpoint readArgs (count : nat) (args : list (list byte)) (input : list byte)
    : result respError (list (list byte)) * list byte :=
  match count with
  | O => (Ok args, input)
  | S count =>
      match readRESPArg input with
      | (Err e, rest) => (Err e, rest)
      | (Ok arg, rest) => readArgs count (args ++ [arg]) rest
      end
  end.

(** The slice of the arguments, of 24 bytes each, is allocated first.
    src: transport/redis/resp.go readRESPArrayCommand *)
Definition readRESPArrayCommand : respRead (list (list byte)) := fun input =>
  match readRESPInt input with
  | (Err e, rest) => (Err e, rest)
  | (Ok count, rest) =>
      if count <=? 0 then (Err ErrRESPProtocol, rest)
      else if maxAlloc <? 24 * count then (Err RespPanics, rest)
      else readArgs (Z.to_nat count) [] rest
  end.

(** [strings.Fields]: the parts between the spaces; [current] is the part before
    [s], and each step takes at least one byte. *)
Fixpoint fieldsLoop (fuel : nat) (s current : list byte) (parts : list (list byte)) : list (list byte) :=
  let flush := if bool_decide (current = []) then parts else parts ++ [current] in
  match fuel, s with
  | O, _ | _, [] => flush
  | S fuel, b :: rest =>
      match strip_space space_encodings (byte_Z <$> s) with
      | Some others => fieldsLoop fuel (byte_of_Z <$> others) [] flush
      | None => fieldsLoop fuel rest (current ++ [b]) parts
      end
  end.

Definition Fields (s : list byte) : list (list byte) := fieldsLoop (S (length s)) s [] [].

(** src: transport/redis/resp.go inlineCommand *)
Definition inlineCommand (line : list byte) : list (list byte) := Fields line.

(** src: transport/redis/resp.go readRESPCommand *)
Definition readRESPCommand : respRead (list (list byte)) := fun input =>
  match input with
  | [] => (Err RespEOF, [])
  | prefix :: rest =>
      if byte_Z prefix =? 42 then readRESPArrayCommand rest
      else if (byte_Z prefix =? 13) || (byte_Z prefix =? 10) then (Err ErrRESPProtocol, rest)
      else match readLineSuffix rest with
           | (Err e, rest) => (Err e, rest)
           | (Ok line, rest) => (Ok (inlineCommand (prefix :: line)), rest)
           end
  end.

(** ** Writing *)

(** The kinds of [respKind]; a value of no kind is never made.
    src: transport/redis/resp.go respValue *)
Inductive respValue :=
| RespSimpleString (text : list byte)
| RespErrorString (text : list byte)
| RespInteger (number : Z)
| RespBulkString (bytes : list byte)
| RespNullBulkString
| RespArray (items : list respValue)
| RespMap (fields : list (respValue * respValue)).

(** src: transport/redis/resp.go writeRESPTextLine *)
Definition writeRESPTextLine (prefix : Z) (text : list byte) : list byte := byte_of_Z prefix :: text ++ CRLF.

(** src: transport/redis/resp.go encodeRESPBulk *)
Definition encodeRESPBulk (value : list byte) : list byte :=
  writeRESPTextLine 36 (FormatInt (zlen value)) ++ value ++ CRLF.

(** src: transport/redis/resp.go encodeRESP *)
Fixpoint encodeRESP (value : respValue) : list byte :=
  match value with
  | RespSimpleString text => writeRESPTextLine 43 text
  | RespErrorString text => writeRESPTextLine 45 text
  | RespInteger number => writeRESPTextLine 58 (FormatInt number)
  | RespBulkString bytes => encodeRESPBulk bytes
  | RespNullBulkString => str_bytes "$-1" ++ CRLF
  | RespArray items => writeRESPTextLine 42 (FormatInt (zlen items)) ++ concat (List.map encodeRESP items)
  | RespMap fields =>
      writeRESPTextLine 37 (FormatInt (zlen fields)) ++
      concat (List.map (fun field => encodeRESP (fst field) ++ encodeRESP (snd field)) fields)
  end.

(** ** Ranges of a list *)

(** src: transport/redis/range.go sliceRedisRange *)
Definition sliceRedisRange {T} (values : list T) (start stop : Z) : list T :=
  let length := zlen values in
  if length =? 0 then []
  else
    let start := if start <? 0 then s64 (length + start) else start in
    let stop := if stop <? 0 then s64 (length + stop) else stop in
    let start := if start <? 0 then 0 else start in
    let stop := if length <=? stop then length - 1 else stop in
    if (stop <? start) || (length <=? start) then []
    else take (Z.to_nat (stop + 1 - start)) (drop (Z.to_nat start) values).

(** * Properties of RESP *)

(** ** Lines *)

(** A text without a line feed. *)
Definition one_line (text : list byte) : Prop := Forall (fun b => byte_Z b <> 10) text.

Lemma isByte_refl b : isByte b b = true.
Proof. apply Z.eqb_refl. Qed.

Lemma splitLine_text text rest : one_line text -> splitLine (text ++ CRLF ++ rest) = Some (text ++ CRLF, rest).
Proof.
  induction 1 as [|b text Hb _ IH]; [done|]. cbn [app splitLine]. unfold isByte at 1.
  change (byte_Z LF) with 10. rewrite (proj2 (Z.eqb_neq _ _) Hb). by rewrite IH.
Qed.

Lemma readLine_text text rest : one_line text -> readLineSuffix (text ++ CRLF ++ rest) = (Ok text, rest).
Proof.
  intros Ht. unfold readLineSuffix. rewrite splitLine_text by done.
  assert (length (text ++ CRLF) - 2 = length text)%nat as El by (rewrite length_app; cbn; lia).
  rewrite El, take_app_length, lookup_app_r, Nat.sub_diag by lia. cbn [CRLF lookup list_lookup].
  rewrite isByte_refl. unfold zlen. rewrite length_app. cbn [length CRLF].
  rewrite (proj2 (Z.ltb_ge _ _)) by lia. done.
Qed.

Lemma formatted_line z : one_line (FormatInt z).
Proof. eapply Forall_impl; [apply FormatInt_bytes|]. intros b [Hb|Hb]; lia. Qed.

Lemma readInt_formatted z rest : is_s64 z -> readRESPInt (FormatInt z ++ CRLF ++ rest) = (Ok z, rest).
Proof.
  intros Hz. unfold readRESPInt. rewrite readLine_text by apply formatted_line. by rewrite ParseInt_FormatInt.
Qed.

Lemma readBulk_encoded value rest : zlen value + 2 <= maxAlloc ->
  readRESPBulkArg (FormatInt (zlen value) ++ CRLF ++ value ++ CRLF ++ rest) = (Ok value, rest).
Proof.
  intros Hv. pose proof (zlen_nonneg value). unfold maxAlloc in Hv. unfold readRESPBulkArg.
  rewrite readInt_formatted by (unfold is_s64; lia).
  rewrite (proj2 (Z.ltb_ge _ _)) by lia. rewrite s64_small by (unfold is_s64; lia). unfold maxAlloc.
  assert ((zlen (value ++ CRLF ++ rest) <? zlen value + 2) = false) as Hlong
    by (apply Z.ltb_ge; rewrite !zlen_app; pose proof (zlen_nonneg rest); change (zlen CRLF) with 2; lia).
  rewrite Hlong, !(proj2 (Z.ltb_ge _ _)) by lia. cbn [orb]. unfold zlen. rewrite Nat2Z.id.
  assert ((value ++ CRLF ++ rest) !! length value = Some CR) as -> by (by rewrite lookup_app_r, Nat.sub_diag by lia).
  assert ((value ++ CRLF ++ rest) !! (length value + 1)%nat = Some LF) as ->
    by (rewrite lookup_app_r by lia; by replace (length value + 1 - length value)%nat with 1%nat by lia).
  rewrite !isByte_refl. cbn [andb]. rewrite take_app_length.
  replace (length value + 2)%nat with (length (value ++ [CR; LF]))%nat by (rewrite length_app; cbn; lia).
  change CRLF with [CR; LF]. by rewrite app_assoc, drop_app_length.
Qed.

(** ** Commands *)

(** A command as a client writes it. *)
Definition commandValue (args : list (list byte)) : respValue := RespArray (RespBulkString <$> args).

Lemma readArgs_encoded args acc rest : Forall (fun arg => zlen arg + 2 <= maxAlloc) args ->
  readArgs (length args) acc (concat (List.map encodeRESP (RespBulkString <$> args)) ++ rest) = (Ok (acc ++ args), rest).
Proof.
  intros Ha. revert acc. induction Ha as [|arg args Harg _ IH]; intros acc; [by rewrite app_nil_r|].
  cbn [length readArgs fmap list_fmap List.map concat encodeRESP]. unfold encodeRESPBulk, writeRESPTextLine.
  rewrite <- !app_assoc. cbn [app readRESPArg]. change (byte_Z (byte_of_Z 36) =? 36) with true. cbn [negb].
  rewrite <- !app_assoc. rewrite readBulk_encoded by done. rewrite IH. by rewrite <- app_assoc.
Qed.

Lemma readCommand_encoded args rest : args <> [] -> 24 * zlen args <= maxAlloc ->
  Forall (fun arg => zlen arg + 2 <= maxAlloc) args ->
  readRESPCommand (encodeRESP (commandValue args) ++ rest) = (Ok args, rest).
Proof.
  intros Hne Hn Ha. unfold commandValue. cbn [encodeRESP]. unfold writeRESPTextLine. rewrite <- app_assoc.
  cbn [app readRESPCommand]. change (byte_Z (byte_of_Z 42) =? 42) with true. cbn [negb]. rewrite <- !app_assoc.
  assert (zlen (RespBulkString <$> args) = zlen args) as El by (unfold zlen; by rewrite length_fmap).
  assert (0 < zlen args) as Hpos by (destruct args; [done|rewrite zlen_cons; pose proof (zlen_nonneg args); lia]).
  unfold readRESPArrayCommand. rewrite El, readInt_formatted by (unfold is_s64, maxAlloc in *; lia).
  rewrite (proj2 (Z.leb_gt _ _)) by lia. rewrite (proj2 (Z.ltb_ge _ _)) by lia.
  unfold zlen at 1. rewrite Nat2Z.id. by rewrite readArgs_encoded.
Qed.

(** A command written as an array of bulk strings, whatever bytes they hold, is
    read as the command it is, and the bytes that follow are left for the next. *)
Theorem resp_command_roundtrip args rest : args <> [] -> 24 * zlen args <= maxAlloc ->
  Forall (fun arg => zlen arg + 2 <= maxAlloc) args ->
  readRESPCommand (encodeRESP (commandValue args) ++ rest) = (Ok args, rest).
Proof. apply readCommand_encoded. Qed.

(** ** Replies *)

(** A reader of replies, as a client has it: [fuel] bounds the values it reads. *)
Fixpoint readReplies (readReply : respRead respValue) (count : nat) : respRead (list respValue) := fun input =>
  match count with
  | O => (Ok [], input)
  | S count =>
      match readReply input with
      | (Err e, rest) => (Err e, rest)
      | (Ok value, rest) =>
          match readReplies readReply count rest with
          | (Err e, rest) => (Err e, rest)
          | (Ok values, rest) => (Ok (value :: values), rest)
          end
      end
  end.

(** The values of a map come in pairs. *)
Fixpoint pairReplies (values : list respValue) : list (respValue * respValue) :=
  match values with
  | k :: v :: values => (k, v) :: pairReplies values
  | _ => []
  end.

Definition overReply {A B} (f : A -> B) (r : result respError A * list byte) : result respError B * list byte :=
  match r with (Err e, rest) => (Err e, rest) | (Ok a, rest) => (Ok (f a), rest) end.

(** One reply, nested at most [fuel] deep. *)
Fixpoint readReply (fuel : nat) : respRead respValue := fun input =>
  match fuel, input with
  | O, _ | _, [] => (Err RespEOF, input)
  | S fuel, prefix :: rest =>
      let kind := byte_Z prefix in
      if kind =? 43 then overReply RespSimpleString (readLineSuffix rest)
      else if kind =? 45 then overReply RespErrorString (readLineSuffix rest)
      else if kind =? 58 then overReply RespInteger (readRESPInt rest)
      else if kind =? 36 then
        match readRESPInt rest with
        | (Ok size, rest') =>
            if size <? 0 then (Ok RespNullBulkString, rest') else overReply RespBulkString (readRESPBulkArg rest)
        | (Err e, rest') => (Err e, rest')
        end
      else match readRESPInt rest with
           | (Err e, rest) => (Err e, rest)
           | (Ok count, rest) =>
               if kind =? 42 then overReply RespArray (readReplies (readReply fuel) (Z.to_nat count) rest)
               else if kind =? 37 then
                 overReply (RespMap ∘ pairReplies) (readReplies (readReply fuel) (Z.to_nat (2 * count)) rest)
               else (Err ErrRESPProtocol, rest)
           end
  end.

(** The values a map is written from, in order. *)
Definition fieldValues (fields : list (respValue * respValue)) : list respValue :=
  concat (List.map (fun field => [fst field; snd field]) fields).

(** How deep a reply is nested. *)
Fixpoint depth (value : respValue) : nat :=
  match value with
  | RespArray items => S (list_max (List.map depth items))
  | RespMap fields => S (list_max (List.map (fun field => Nat.max (depth (fst field)) (depth (snd field))) fields))
  | _ => 1
  end.

(** A reply that can be told apart on the wire: its texts are lines, its numbers and
    lengths 64-bit, its bulk strings fit in memory. *)
Inductive wireable : respValue -> Prop :=
| wire_simple text : one_line text -> wireable (RespSimpleString text)
| wire_error text : one_line text -> wireable (RespErrorString text)
| wire_integer number : is_s64 number -> wireable (RespInteger number)
| wire_bulk bytes : zlen bytes + 2 <= maxAlloc -> wireable (RespBulkString bytes)
| wire_null : wireable RespNullBulkString
| wire_array items : is_s64 (zlen items) -> Forall wireable items -> wireable (RespArray items)
| wire_map fields : is_s64 (zlen fields) -> Forall (fun field => wireable (fst field) /\ wireable (snd field)) fields ->
    wireable (RespMap fields).

(** What is read of a value that was just written. *)
Definition reads_back (fuel : nat) (value : respValue) : Prop :=
  forall rest, readReply fuel (encodeRESP value ++ rest) = (Ok value, rest).

Lemma readReplies_encoded fuel values rest : Forall (reads_back fuel) values ->
  readReplies (readReply fuel) (length values) (concat (List.map encodeRESP values) ++ rest) = (Ok values, rest).
Proof.
  intros Hv. revert rest. induction Hv as [|value values Hvalue _ IH]; intros rest; [done|].
  cbn [length readReplies List.map concat]. rewrite <- app_assoc, Hvalue, IH. done.
Qed.

Lemma pairReplies_fields fields : pairReplies (fieldValues fields) = fields.
Proof. induction fields as [|[k v] fields IH]; [done|]. cbn. f_equal. exact IH. Qed.

Lemma fieldValues_length fields : length (fieldValues fields) = (2 * length fields)%nat.
Proof. unfold fieldValues. induction fields as [|[k v] fields IH]; [done|]. cbn in *. lia. Qed.

Lemma fieldValues_encoded fields :
  concat (List.map (fun field => encodeRESP (fst field) ++ encodeRESP (snd field)) fields)
  = concat (List.map encodeRESP (fieldValues fields)).
Proof. unfold fieldValues. induction fields as [|[k v] fields IH]; [done|]. cbn in *. by rewrite IH, <- app_assoc. Qed.

Lemma fieldValues_Forall (P : respValue -> Prop) fields :
  Forall (fun field => P (fst field) /\ P (snd field)) fields -> Forall P (fieldValues fields).
Proof. induction 1 as [|[k v] fields [Hk Hv] _ IH]; cbn; auto. Qed.

(** A reply of one line. *)
Lemma writeLine_app prefix text rest :
  writeRESPTextLine prefix text ++ rest = byte_of_Z prefix :: text ++ CRLF ++ rest.
Proof. unfold writeRESPTextLine. cbn [app]. by rewrite <- app_assoc. Qed.

Lemma list_max_each (f : respValue -> nat) items fuel : (list_max (List.map f items) <= fuel)%nat ->
  Forall (fun item => (f item <= fuel)%nat) items.
Proof. intros Hm. by apply list_max_le, Forall_map in Hm. Qed.

(** The reader is at a reply that starts with the given byte. *)
Ltac reply_kind kind := cbn [readReply]; change (byte_Z (byte_of_Z kind)) with kind; cbn [Z.eqb Pos.eqb].

Lemma array_reads_back fuel items : is_s64 (zlen items) -> Forall (reads_back fuel) items ->
  reads_back (S fuel) (RespArray items).
Proof.
  intros Hlen Hitems rest. cbn [encodeRESP]. rewrite <- app_assoc, writeLine_app. reply_kind 42. rewrite readInt_formatted by done.
  unfold zlen. rewrite Nat2Z.id. by rewrite readReplies_encoded.
Qed.

Lemma map_reads_back fuel fields : is_s64 (zlen fields) -> Forall (reads_back fuel) (fieldValues fields) ->
  reads_back (S fuel) (RespMap fields).
Proof.
  intros Hlen Hitems rest. cbn [encodeRESP]. rewrite <- app_assoc, writeLine_app. reply_kind 37. rewrite readInt_formatted by done.
  replace (Z.to_nat (2 * zlen fields)) with (length (fieldValues fields)) by (rewrite fieldValues_length; unfold zlen; lia).
  rewrite fieldValues_encoded, readReplies_encoded by done. cbn [overReply]. unfold compose. by rewrite pairReplies_fields.
Qed.

Lemma bulk_reads_back fuel bytes : zlen bytes + 2 <= maxAlloc -> reads_back (S fuel) (RespBulkString bytes).
Proof.
  intros Hb rest. pose proof (zlen_nonneg bytes). cbn [encodeRESP]. unfold encodeRESPBulk.
  rewrite <- !app_assoc, writeLine_app. reply_kind 36.
  rewrite readInt_formatted by (unfold is_s64, maxAlloc in *; lia). rewrite (proj2 (Z.ltb_ge _ _)) by lia.
  by rewrite readBulk_encoded.
Qed.

Lemma wireable_reads_back fuel value : wireable value -> (depth value <= fuel)%nat -> reads_back fuel value.
Proof.
  revert value. induction fuel as [|fuel IH]; intros value Hw Hd; [destruct value; cbn in Hd; lia|].
  destruct Hw as [text Ht|text Ht|number Hn|bytes Hb| |items Hl Hitems|fields Hl Hfields].
  - intros rest. cbn [encodeRESP]. rewrite writeLine_app. reply_kind 43. by rewrite readLine_text.
  - intros rest. cbn [encodeRESP]. rewrite writeLine_app. reply_kind 45. by rewrite readLine_text.
  - intros rest. cbn [encodeRESP]. rewrite writeLine_app. reply_kind 58. by rewrite readInt_formatted.
  - by apply bulk_reads_back.
  - intros rest. done.
  - apply array_reads_back; [done|]. cbn in Hd. apply le_S_n, list_max_each in Hd.
    eapply Forall_impl; [apply Forall_and; split; [exact Hitems|exact Hd]|]. intros item [? ?]. by apply IH.
  - apply map_reads_back; [done|]. cbn in Hd. apply le_S_n, list_max_le, Forall_map in Hd.
    apply fieldValues_Forall. eapply Forall_impl; [apply Forall_and; split; [exact Hfields|exact Hd]|].
    intros [k v] [[? ?] ?]. cbn in *. split; apply IH; auto; lia.
Qed.

(** A reply whose texts are single lines is read back as the reply it is by a
    reader that allows for its nesting, and what follows it is left for the next
    reply. *)
Theorem resp_reply_roundtrip value rest : wireable value ->
  readReply (depth value) (encodeRESP value ++ rest) = (Ok value, rest).
Proof. intros Hw. by apply wireable_reads_back. Qed.

(** Three replies, one of them a map, are read one after the other. *)
Lemma resp_reply_roundtrip_witness : let value := RespArray
    [RespMap [(RespBulkString (str_bytes "a"), RespInteger (-7))]; RespErrorString (str_bytes "ERR no"); RespNullBulkString] in
  wireable value /\ readReply (depth value) (encodeRESP value ++ str_bytes "+OK") = (Ok value, str_bytes "+OK").
Proof.
  cbv zeta. assert (wireable (RespArray
    [RespMap [(RespBulkString (str_bytes "a"), RespInteger (-7))]; RespErrorString (str_bytes "ERR no"); RespNullBulkString])) as Hw.
  - repeat constructor; vm_compute; intros; discriminate.
  - split; [exact Hw|]. apply (resp_reply_roundtrip _ (str_bytes "+OK") Hw).
Defined.

(** A set with a value that holds a line break, and the command behind it. *)
Lemma resp_command_roundtrip_witness : let args := [str_bytes "SET"; str_bytes "k"; CRLF] in
  args <> [] /\ 24 * zlen args <= maxAlloc /\ Forall (fun arg => zlen arg + 2 <= maxAlloc) args /\
  readRESPCommand (encodeRESP (commandValue args) ++ str_bytes "*1") = (Ok args, str_bytes "*1").
Proof.
  cbv zeta. split_and!; [done|by vm_compute|by repeat constructor|].
  apply (resp_command_roundtrip [str_bytes "SET"; str_bytes "k"; CRLF] (str_bytes "*1")); [done|by vm_compute|by repeat constructor].
Defined.

(** ** Ranges *)

(** The index a position of a range stands for, the end of the list counted from -1. *)
Definition range_index (length position : Z) : Z := if position <? 0 then length + position else position.

(** The elements between the two ends, both included and cut to the list. *)
Lemma sliceRedisRange_spec {T} (values : list T) start stop : is_s64 start -> is_s64 stop -> zlen values < 2 ^ 62 ->
  sliceRedisRange values start stop
  = take (Z.to_nat (Z.min (range_index (zlen values) stop + 1) (zlen values) - Z.max 0 (range_index (zlen values) start)))
      (drop (Z.to_nat (Z.max 0 (range_index (zlen values) start))) values).
Proof.
  intros Hs Ht Hl. pose proof (zlen_nonneg values). unfold sliceRedisRange, range_index.
  destruct (Z.eqb_spec (zlen values) 0) as [Ez|Ez].
  { destruct values; [by rewrite drop_nil, take_nil|done]. }
  assert (forall p, is_s64 p -> p < 0 -> s64 (zlen values + p) = zlen values + p) as Hw
    by (intros p Hp Hn; apply s64_small; unfold is_s64 in *; lia).
  assert ((if start <? 0 then s64 (zlen values + start) else start) = range_index (zlen values) start) as ->
    by (unfold range_index; destruct (Z.ltb_spec start 0); auto).
  assert ((if stop <? 0 then s64 (zlen values + stop) else stop) = range_index (zlen values) stop) as ->
    by (unfold range_index; destruct (Z.ltb_spec stop 0); auto).
  fold (range_index (zlen values) start) (range_index (zlen values) stop).
  generalize (range_index (zlen values) start) as a, (range_index (zlen values) stop) as b. intros a b.
  replace (if a <? 0 then 0 else a) with (Z.max 0 a) by (destruct (Z.ltb_spec a 0); lia).
  replace (if zlen values <=? b then zlen values - 1 else b) with (Z.min (b + 1) (zlen values) - 1)
    by (destruct (Z.leb_spec (zlen values) b); lia).
  destruct (Z.ltb_spec (Z.min (b + 1) (zlen values) - 1) (Z.max 0 a)) as [He|He]; cbn [orb].
  { by replace (Z.to_nat (Z.min (b + 1) (zlen values) - Z.max 0 a)) with 0%nat by lia. }
  destruct (Z.leb_spec (zlen values) (Z.max 0 a)) as [Hf|Hf]; [lia|]. f_equal. lia.
Qed.
