(* ===== verification/GoSha1.v ===== *)
(** * Go's crypto/sha1

    The digest that names a script. *)

From S2P Require Import Prelude.

Local Open Scope Z_scope.

Definition word (z : Z) : Z := z mod 2 ^ 32.

Definition rotl (n x : Z) : Z := word (Z.lor (Z.shiftl x n) (Z.shiftr x (32 - n))).

(** The [n] low bytes of [z], most significant first. *)
Fixpoint bigEndian (n : nat) (z : Z) : list Z :=
  match n with O => [] | S n => bigEndian n (z / 256) ++ [z mod 256] end.

Definition wordOf (bytes : list Z) : Z := foldl (fun acc b => acc * 256 + b) 0 bytes.

(** A one bit, zeros up to eight bytes before the end of a block, and the length in
    bits. *)
Definition padded (message : list Z) : list Z :=
  let n := zlen message in
  message ++ [0x80] ++ replicate (Z.to_nat ((55 - n) mod 64)) 0 ++ bigEndian 8 (8 * n).

(** The list cut in parts of [size]. *)
Fixpoint chunks (count size : nat) (l : list Z) : list (list Z) :=
  match count with O => [] | S count => take size l :: chunks count size (drop size l) end.

(** The words of the schedule, the latest first: sixteen of the block, the others
    from four earlier ones. *)
Definition schedule (block : list Z) : list Z :=
  let first := reverse (wordOf <$> chunks 16 4 block) in
  let at_ l i := nth i l 0 in
  reverse (Nat.iter 64 (fun w => rotl 1 (Z.lxor (Z.lxor (at_ w 2%nat) (at_ w 7%nat)) (Z.lxor (at_ w 13%nat) (at_ w 15%nat))) :: w) first).

Definition roundWord (t : nat) (b c d : Z) : Z * Z :=
  if (t <? 20)%nat then (Z.lor (Z.land b c) (Z.land (2 ^ 32 - 1 - b) d), 0x5A827999)
  else if (t <? 40)%nat then (Z.lxor (Z.lxor b c) d, 0x6ED9EBA1)
  else if (t <? 60)%nat then (Z.lor (Z.lor (Z.land b c) (Z.land b d)) (Z.land c d), 0x8F1BBCDC)
  else (Z.lxor (Z.lxor b c) d, 0xCA62C1D6).

Definition shaState : Type := Z * Z * Z * Z * Z.

Definition shaRound (s : shaState) (tw : nat * Z) : shaState :=
  let '(a, b, c, d, e) := s in
  let '(f, k) := roundWord tw.1 b c d in
  (word (rotl 5 a + f + e + k + tw.2), a, rotl 30 b, c, d).

Definition shaBlock (s : shaState) (block : list Z) : shaState :=
  let '(a, b, c, d, e) := s in
  let '(a', b', c', d', e') := foldl shaRound s (imap (fun t w => (t, w)) (schedule block)) in
  (word (a + a'), word (b + b'), word (c + c'), word (d + d'), word (e + e')).

(** [sha1.Sum]. *)
Definition sha1Sum (message : list byte) : list byte :=
  let data := padded (byte_Z <$> message) in
  let '(a, b, c, d, e) := foldl shaBlock (0x67452301, 0xEFCDAB89, 0x98BADCFE, 0x10325476, 0xC3D2E1F0)
    (chunks (length data / 64) 64 data) in
  byte_of_Z <$> ([a; b; c; d; e] ≫= bigEndian 4).

(** The digest of one block and of two. *)
Example sha1_abc : wordOf (byte_Z <$> sha1Sum (str_bytes "abc")) = 0xa9993e364706816aba3e25717850c26c9cd0d89d.
Proof. vm_compute. reflexivity. Qed.

Example sha1_two_blocks : wordOf (byte_Z <$> sha1Sum (str_bytes "abcdbcdecdefdefgefghfghighijhijkijkljklmklmnlmnomnopnopq"))
  = 0x84983e441c3bd26ebaae4aa1f95129e5e54670f1.
Proof. vm_compute. reflexivity. Qed.
