(* ===== verification/Redis.v ===== *)
(** * Sessions of the Redis front end (transport/redis: server.go, response.go, key.go)

    A connection has a session; its commands run one after the other on the service
    they share with the other connections.  A command is a computation on the world
    of its connection, whose early returns are replies.  Outside a transaction the
    other connections may use the service before each call; inside one the service
    is locked.  Listening, accepting and stopping are in Wiring. *)

From S2P Require Import Prelude.
From S2P Require Import GoStrings.
From S2P Require Import GoUnicode.
From S2P Require Import GoFloat.
From S2P Require Import EngineTypes.
From S2P Require Import Service.
From S2P Require Import Resp.

Local Open Scope Z_scope.
Local Open Scope nespa_scope.

(** ** Sessions *)

(** src: transport/redis/resp.go respArg 14-14 *)
Definition respArg := list byte.

(** src: transport/redis/server.go queuedCommand 52-52 *)
Definition queuedCommand := list respArg.

(** [ses_inTx] tells whether [txService] is set.
    src: transport/redis/server.go session *)
Record session := mkSession {
  ses_authenticated : bool;
  ses_namespace : string;
  ses_db : Z;
  ses_protocol : Z;
  ses_close : bool;
  ses_inTransaction : bool;
  ses_queued : list queuedCommand;
  ses_inTx : bool
}.

(** The session of a new connection.
    src: transport/redis/server.go serveConn *)
Definition newSession : session := mkSession false "" 0 2 false false [] false.

Definition withAuth (user : string) (s : session) : session :=
  mkSession true user (ses_db s) (ses_protocol s) (ses_close s) (ses_inTransaction s) (ses_queued s) (ses_inTx s).
Definition withDb (db : Z) (s : session) : session :=
  mkSession (ses_authenticated s) (ses_namespace s) db (ses_protocol s) (ses_close s) (ses_inTransaction s) (ses_queued s) (ses_inTx s).
Definition withProtocol (version : Z) (s : session) : session :=
  mkSession (ses_authenticated s) (ses_namespace s) (ses_db s) version (ses_close s) (ses_inTransaction s) (ses_queued s) (ses_inTx s).
Definition withClose (s : session) : session :=
  mkSession (ses_authenticated s) (ses_namespace s) (ses_db s) (ses_protocol s) true (ses_inTransaction s) (ses_queued s) (ses_inTx s).
Definition withQueue (inTransaction : bool) (queued : list queuedCommand) (s : session) : session :=
  mkSession (ses_authenticated s) (ses_namespace s) (ses_db s) (ses_protocol s) (ses_close s) inTransaction queued (ses_inTx s).
Definition withTx (inTx : bool) (s : session) : session :=
  mkSession (ses_authenticated s) (ses_namespace s) (ses_db s) (ses_protocol s) (ses_close s) (ses_inTransaction s) (ses_queued s) inTx.

(** ** The world of a connection *)

(** What a connection does not decide, by the number of the call: the readings of
    the engine's clock, the time of [time.Until], the text of an error, what the
    other connections do before it, after how many of its stretches between calls a
    script meets its deadline; and by the number of the command, whether more input is buffered after
    it and how many bytes stay in the write buffer when the reply overflows it. *)
Record redisEnv (E : Type) := mkRedisEnv {
  re_clock : nat -> nat -> Time;
  re_now : nat -> Time;
  re_errorText : nat -> serviceError -> string;
  re_others : nat -> EngineService E -> EngineService E;
  re_otherScripts : nat -> gmap string respArg -> gmap string respArg;
  re_deadline : nat -> nat;
  re_buffered : nat -> bool;
  re_kept : nat -> nat;
  re_credentials : gmap string string
}.
Arguments re_clock {E} _ _ _.
Arguments re_now {E} _ _.
Arguments re_errorText {E} _ _ _.
Arguments re_others {E} _ _ _.
Arguments re_otherScripts {E} _ _ _.
Arguments re_deadline {E} _ _.
Arguments re_buffered {E} _ _.
Arguments re_kept {E} _ _.
Arguments re_credentials {E} _.

(** The service and the scripts of the server, which the connections share, the
    session, and the number of calls made.
    src: transport/redis/server.go Server *)
Record world (E : Type) := mkWorld {
  w_service : EngineService E;
  w_scripts : gmap string respArg;
  w_session : session;
  w_calls : nat
}.
Arguments mkWorld {E} _ _ _ _.
Arguments w_service {E} _.
Arguments w_scripts {E} _.
Arguments w_session {E} _.
Arguments w_calls {E} _.

Definition onSession {E} (f : session -> session) (w : world E) : world E :=
  mkWorld (w_service w) (w_scripts w) (f (w_session w)) (w_calls w).

(** ** Replies (response.go) *)

(** src: transport/redis/resp.go errorString *)
Definition errorString (text : string) : respValue := RespErrorString (str_bytes text).

(** src: transport/redis/resp.go simpleString *)
Definition simpleString (text : string) : respValue := RespSimpleString (str_bytes text).

(** src: transport/redis/resp.go bulkText *)
Definition bulkText (text : string) : respValue := RespBulkString (str_bytes text).

(** src: transport/redis/resp.go mapField *)
Definition mapField (key value : string) : respValue * respValue := (bulkText key, bulkText value).

(** src: transport/redis/response.go helloArray *)
Definition helloArray : respValue := RespArray
  [bulkText "server"; bulkText "nespa"; bulkText "version"; bulkText "dev"; bulkText "proto"; RespInteger 2;
   bulkText "mode"; bulkText "standalone"; bulkText "role"; bulkText "master"; bulkText "modules"; RespArray []].

(** src: transport/redis/response.go helloMap *)
Definition helloMap : respValue := RespMap
  [mapField "server" "nespa"; mapField "version" "dev"; (bulkText "proto", RespInteger 3);
   mapField "mode" "standalone"; mapField "role" "master"; (bulkText "modules", RespArray [])].

(** src: transport/redis/response.go noAuth *)
Definition noAuth : respValue := errorString "NOAUTH Authentication required.".

(** src: transport/redis/response.go wrongPass *)
Definition wrongPass : respValue := errorString "WRONGPASS invalid username-password pair or user is disabled.".

(** src: transport/redis/response.go wrongType *)
Definition wrongType : respValue := errorString "WRONGTYPE Operation against a key holding the wrong kind of value".

(** src: transport/redis/response.go syntaxError *)
Definition syntaxError : respValue := errorString "ERR syntax error".

(** src: transport/redis/response.go integerError *)
Definition integerError : respValue := errorString "ERR value is not an integer or out of range".

(** src: transport/redis/response.go invalidExpireTime *)
Definition invalidExpireTime : respValue := errorString "ERR invalid expire time in set".

(** src: transport/redis/response.go integerCount *)
Definition integerCount (count : Z) : respValue :=
  if 2 ^ 63 - 1 <? count then errorString "ERR integer overflow" else RespInteger count.

(** An error of a call and the text of its whole chain. *)
Record callError := mkCallError { ce_error : serviceError; ce_text : string }.

(** src: transport/redis/response.go serviceError *)
Definition serviceErrorReply (err : callError) : respValue :=
  match ce_error err with
  | EngineFailed ErrInvalidKey => errorString "ERR invalid key"
  | _ => errorString ("ERR " +:+ TrimSpace (ce_text err))
  end.

(** ** Commands *)

Declare Scope redis_scope.
Delimit Scope redis_scope with redis.
Open Scope redis_scope.

Section Session.
  Context `{!Unicode} {E : Type} `{!Engine E} (env : redisEnv E).

(** A computation of a command: the reply of an early return, or a value. *)
Definition cmd (A : Type) : Type := world E -> world E * result respValue A.

Definition ret {A} (a : A) : cmd A := fun w => (w, Ok a).

(** The rest of a command, unless it has returned. *)
Definition thenDo {A B} (m : cmd A) (f : A -> cmd B) : cmd B := fun w =>
  match m w with
  | (w, Ok a) => f a w
  | (w, Err reply) => (w, Err reply)
  end.

Local Notation "x ← m ; k" := (thenDo m (fun x => k)) (at level 20, m at level 100, k at level 200, only parsing) : redis_scope.

(** [return reply]. *)
Definition reply {A} (r : respValue) : cmd A := fun w => (w, Err r).

(** [if b { return r }]. *)
Definition guard (b : bool) (r : respValue) : cmd unit := if b then reply r else ret tt.

(** The session. *)
Definition getSession : cmd session := fun w => (w, Ok (w_session w)).
Definition setSession (f : session -> session) : cmd unit := fun w => (onSession f w, Ok tt).

(** The service of [activeService] and its next call: the other connections come
    first unless a transaction holds the lock.
    src: transport/redis/server.go activeService *)
Definition call {A} (op : (nat -> Time) -> EngineService E -> EngineService E * result serviceError A)
    : cmd (result callError A) := fun w =>
  let n := w_calls w in
  let before := if ses_inTx (w_session w) then w_service w else re_others env n (w_service w) in
  let '(service, out) := op (re_clock env n) before in
  (mkWorld service (w_scripts w) (w_session w) (S n),
   Ok (match out with Ok a => Ok a | Err e => Err (mkCallError e (re_errorText env n e)) end)).

(** [if err != nil { return serviceError(err) }]. *)
Definition orFail {A} (m : cmd (result callError A)) : cmd A :=
  out ← m;
  match out with Ok a => ret a | Err err => reply (serviceErrorReply err) end.

Definition Get (key : Key) : cmd (result callError (CacheRecord * bool)) :=
  call (fun clock s => getLocked s key (mkGetOptions 0 0) (clock 0%nat)).
Definition SetCall (key : Key) (value : list byte) (opts : SetOptions) : cmd (result callError SetResult) :=
  call (fun clock s => setLocked s key value opts clock).
Definition Delete (key : Key) : cmd (result callError (bool * bool)) :=
  call (fun _ s => deleteLocked s key (mkDeleteOptions 0)).
Definition Touch (key : Key) (ttl : Duration) : cmd (result callError bool) :=
  call (fun clock s => touchLocked s key (mkTouchOptions ttl 0 0 0) (clock 0%nat)).
Definition Adjust (key : Key) (delta : Z) : cmd (result callError SetResult) :=
  call (fun clock s => adjustLocked s key (mkAdjustOptions delta 0 0 0 0 0) clock).
Definition Primitive (request : PrimitiveRequest) : cmd (result callError PrimitiveResult) :=
  call (fun clock s => primitiveLocked s request clock).

(** The loops over the arguments. *)
Fixpoint forEach {A} (items : list A) (body : A -> cmd unit) : cmd unit :=
  match items with
  | [] => ret tt
  | item :: items => _ ← body item; forEach items body
  end.

(** How many of the items the body says yes to. *)
Fixpoint countEach {A} (items : list A) (body : A -> cmd bool) (count : Z) : cmd Z :=
  match items with
  | [] => ret count
  | item :: items => yes ← body item; countEach items body (count + Z.b2z yes)
  end.

Fixpoint mapEach {A B} (items : list A) (body : A -> cmd B) : cmd (list B) :=
  match items with
  | [] => ret []
  | item :: items => b ← body item; rest ← mapEach items body; ret (b :: rest)
  end.

(** ** Keys and their types (key.go) *)

(** src: transport/redis/server.go spaceName *)
Definition spaceName (db : Z) : string := bytes_str (FormatInt db) +:+ "-space".

(** src: transport/redis/key.go key *)
Definition keyOf (s : session) (entity key : string) : Key := mkKey (ses_namespace s) (spaceName (ses_db s)) entity key.

Definition sessionKey (entity key : string) : cmd Key := s ← getSession; ret (keyOf s entity key).

(** src: transport/redis/command.go redisType *)
Record redisType := mkRedisType { rt_name : string; rt_entity : string }.

(** src: transport/redis/command.go entityString 10-19 *)
Definition entityString : string := "redis:string".
Definition entityHash : string := "redis:hash".
Definition entitySet : string := "redis:set".
Definition entityList : string := "redis:list".
Definition entityScoredSet : string := "redis:zset".
Definition entityBitmap : string := "redis:bitmap".
Definition entityHLL : string := "redis:hll".
Definition entityGeo : string := "redis:geo".

(** src: transport/redis/command.go redisEntities 21-30 *)
Definition redisEntities : list redisType :=
  [mkRedisType "string" entityString; mkRedisType "hash" entityHash; mkRedisType "set" entitySet;
   mkRedisType "list" entityList; mkRedisType "zset" entityScoredSet; mkRedisType "bitmap" entityBitmap;
   mkRedisType "hll" entityHLL; mkRedisType "geo" entityGeo].

Fixpoint typeOfLoop (types : list redisType) (key : string) : cmd (option redisType) :=
  match types with
  | [] => ret None
  | typ :: types =>
      k ← sessionKey (rt_entity typ) key;
      out ← Get k;
      match out with
      | Ok (_, true) => ret (Some typ)
      | _ => typeOfLoop types key
      end
  end.

(** src: transport/redis/key.go typeOf *)
Definition typeOf (key : string) : cmd (option redisType) := typeOfLoop redisEntities key.

(** src: transport/redis/key.go existsAny *)
Definition existsAny (key : string) : cmd bool := typ ← typeOf key; ret (bool_decide (is_Some typ)).

(** [removed, _, err := Delete(...)]: whether the entity was there. *)
Definition deleteEntity (key entity : string) : cmd bool :=
  k ← sessionKey entity key;
  out ← Delete k;
  ret (match out with Ok (removed, _) => removed | Err _ => false end).

Fixpoint deleteAnyLoop (types : list redisType) (key : string) (deleted : bool) : cmd bool :=
  match types with
  | [] => ret deleted
  | typ :: types => removed ← deleteEntity key (rt_entity typ); deleteAnyLoop types key (removed || deleted)
  end.

(** src: transport/redis/key.go deleteAny *)
Definition deleteAny (key : string) : cmd bool := deleteAnyLoop redisEntities key false.

(** src: transport/redis/key.go deleteNonStringTypes *)
Definition deleteNonStringTypes (key : string) : cmd unit :=
  forEach (filter (fun typ => rt_entity typ <> entityString) redisEntities) (fun typ =>
    _ ← deleteEntity key (rt_entity typ); ret tt).

(** Whether [wrongTypeFor] returns a reply.
    src: transport/redis/key.go wrongTypeFor *)
Definition hasWrongType (key expectedEntity : string) : cmd bool :=
  typ ← typeOf key;
  ret (match typ with
        | None => false
        | Some typ => negb (bool_decide (rt_entity typ = expectedEntity))
        end).

(** [if wrong := s.wrongTypeFor(...); wrong != nil { return *wrong }]. *)
Definition wrongTypeFor (key expectedEntity : string) : cmd unit :=
  wrong ← hasWrongType key expectedEntity;
  guard wrong wrongType.

(** src: transport/redis/key.go parsePositiveInt64 *)
Definition parsePositiveInt64 (raw : respArg) : option Z :=
  match ParseInt raw with Some value => if 0 <? value then Some value else None | None => None end.

(** ** Credentials (server.go) *)

(** src: transport/redis/server.go validUsername *)
Definition validUsername (user : string) : bool :=
  negb (bool_decide (user = "")) &&
  forallb (fun r => rune_IsLetter r || rune_IsDigit r || (r =? 46) || (r =? 95) || (r =? 45)) (runes (str_bytes user)).

(** src: transport/redis/server.go authenticate *)
Definition authenticate (user password : string) : bool := bool_decide (re_credentials env !! user = Some password).

(** [strings.SplitN(raw, "=", 2)]: the parts around the first equals sign. *)
Fixpoint cutEquals (s : list byte) : option (list byte * list byte) :=
  match s with
  | [] => None
  | b :: rest =>
      if byte_Z b =? 61 then Some ([], rest)
      else match cutEquals rest with Some (user, password) => Some (b :: user, password) | None => None end
  end.

(** src: transport/redis/server.go parseCredentials *)
Definition parseCredentials (items : list string) : gmap string string :=
  foldl (fun out item =>
    match cutEquals (str_bytes (TrimSpace item)) with
    | None => out
    | Some (user, password) =>
        let user := TrimSpace (bytes_str user) in
        let password := bytes_str password in
        if validUsername user && negb (bool_decide (password = "")) then <[user := password]> out else out
    end) ∅ items.
End Session.

Arguments cmd E A : clear implicits.

Notation "x ← m ; k" := (thenDo m (fun x => k)) (at level 20, m at level 100, k at level 200, only parsing) : redis_scope.
