(* ===== verification/RedisCommands.v ===== *)
(** * The data commands of the Redis front end (transport/redis: string.go, hash.go,
    list.go, set.go, zset.go, bitmap.go, hll.go, geo.go)

    Every handler checks its arguments, the type of its key and then calls the
    service.  [strconv.ParseFloat] and [strconv.FormatFloat] are the class
    [FloatText]. *)

From S2P Require Import Prelude.
From S2P Require Import GoStrings.
From S2P Require Import GoUnicode.
From S2P Require Import GoFloat.
From S2P Require Import EngineTypes.
From S2P Require Import Primitives.
From S2P Require Import Service.
From S2P Require Import Resp.
From S2P Require Import Redis.

Local Open Scope Z_scope.
Local Open Scope nespa_scope.

(** [FormatShortest] is the format ['f'] with precision -1, [FormatFour] with
    precision 4. *)
Class FloatText := {
  ParseFloat : respArg -> option float64;
  FormatShortest : float64 -> string;
  FormatFour : float64 -> string
}.

(** ** float64 and time.Duration *)

Definition floatOfZ (z : Z) : float64 := binary_normalize 53 1024 z 0 false.

(** [Duration.Seconds]. *)
Definition DurationSeconds (d : Duration) : float64 :=
  fadd (floatOfZ (Z.quot d nsPerSecond)) (fdiv (floatOfZ (Z.rem d nsPerSecond)) (floatOfZ 1000000000)).

(** [int64(math.Ceil(f))] of a number in range. *)
Definition ceilInt (f : float64) : Z :=
  match f with
  | S754_finite s m e =>
      let v := if s then - Zpos m else Zpos m in
      if 0 <=? e then v * 2 ^ e else - ((- v) / 2 ^ (- e))
  | _ => 0
  end.

Definition millisecond : Duration := 1000000.

Definition text (arg : respArg) : string := bytes_str arg.

(** The arguments two by two and three by three; the handlers check the number. *)
Fixpoint pairs {A} (l : list A) : list (A * A) :=
  match l with a :: b :: l => (a, b) :: pairs l | _ => [] end.

Fixpoint triples {A} (l : list A) : list (A * A * A) :=
  match l with a :: b :: c :: l => (a, b, c) :: triples l | _ => [] end.

(** A request with the fields that are not given left at their zero values. *)
Definition keyRequest (kind : PrimitiveKind) (key : Key) : PrimitiveRequest :=
  mkPrimitiveRequest kind key (mkPrimitiveOptions 0 0 0 0) "" "" [] 0 0 (S754_zero false) (S754_zero false)
    (S754_zero false) false false 0 0 false.

Definition fieldRequest (kind : PrimitiveKind) (key : Key) (field member : string) (value : list byte) : PrimitiveRequest :=
  mkPrimitiveRequest kind key (mkPrimitiveOptions 0 0 0 0) field member value 0 0 (S754_zero false) (S754_zero false)
    (S754_zero false) false false 0 0 false.

Definition scoreRequest (kind : PrimitiveKind) (key : Key) (member : string) (score minScore maxScore : float64) (limit : Z)
    : PrimitiveRequest :=
  mkPrimitiveRequest kind key (mkPrimitiveOptions 0 0 0 0) "" member [] 0 0 score minScore maxScore false false limit 0 false.

Definition bitRequest (kind : PrimitiveKind) (key : Key) (delta initialValue limit start : Z) : PrimitiveRequest :=
  mkPrimitiveRequest kind key (mkPrimitiveOptions 0 0 0 0) "" "" [] delta initialValue (S754_zero false) (S754_zero false)
    (S754_zero false) false false limit start false.

Definition bulkBytes (value : list byte) : respValue := RespBulkString value.

Definition yesNo (b : bool) : respValue := RespInteger (if b then 1 else 0).

Section Commands.
  Context `{!Unicode, !FloatText, !RangeOrder} {E : Type} `{!Engine E} (env : redisEnv E).

Definition handler := list respArg -> cmd E respValue.

Definition intArg (raw : respArg) : cmd E Z :=
  match ParseInt raw with Some value => ret value | None => reply integerError end.

(** ** string.go *)

(** src: transport/redis/string.go handleGet *)
Definition handleGet : handler := fun args =>
  match args with
  | [_; key] =>
      let key := text key in
      _ ← wrongTypeFor env key entityString;
      k ← sessionKey entityString key;
      out ← orFail (Get env k);
      let '(record, found) := out in
      ret (if found then bulkBytes (r_value record) else RespNullBulkString)
  | _ => reply syntaxError
  end.

(** src: transport/redis/command.go setOptions *)
Record setOptions := mkSetOpts { opt_ttl : Duration; opt_nx : bool; opt_xx : bool }.

(** [int64] of the value times the unit, which wraps around.
    src: transport/redis/string.go applySetTTL *)
Definition applySetTTL (rest : list respArg) (unit : Duration) (out : setOptions)
    : result respValue (setOptions * list respArg) :=
  match rest with
  | [] => Err syntaxError
  | value :: rest =>
      match parsePositiveInt64 value with
      | None => Err invalidExpireTime
      | Some value => Ok (mkSetOpts (s64 (value * unit)) (opt_nx out) (opt_xx out), rest)
      end
  end.

(** [rest] are the arguments after the option.
    src: transport/redis/string.go applySetOption *)
Definition applySetOption (option : respArg) (rest : list respArg) (out : setOptions)
    : result respValue (setOptions * list respArg) :=
  let option := text (ToUpper option) in
  if bool_decide (option = "EX") then applySetTTL rest nsPerSecond out
  else if bool_decide (option = "PX") then applySetTTL rest millisecond out
  else if bool_decide (option = "NX") then Ok (mkSetOpts (opt_ttl out) true (opt_xx out), rest)
  else if bool_decide (option = "XX") then Ok (mkSetOpts (opt_ttl out) (opt_nx out) true, rest)
  else Err syntaxError.

(** The loop over the options; every option takes an argument off. *)
Fixpoint setOptionsLoop (fuel : nat) (args : list respArg) (out : setOptions) : result respValue setOptions :=
  match fuel, args with
  | _, [] => Ok out
  | O, _ => Err syntaxError
  | S fuel, option :: rest =>
      match applySetOption option rest out with
      | Err e => Err e
      | Ok (out, rest) => setOptionsLoop fuel rest out
      end
  end.

(** src: transport/redis/string.go parseSetOptions *)
Definition parseSetOptions (args : list respArg) : result respValue setOptions :=
  match setOptionsLoop (length args) args (mkSetOpts 0 false false) with
  | Err e => Err e
  | Ok out => if opt_nx out && opt_xx out then Err syntaxError else Ok out
  end.

(** src: transport/redis/string.go handleSet *)
Definition handleSet : handler := fun args =>
  match args with
  | _ :: key :: value :: rest =>
      let key := text key in
      match parseSetOptions rest with
      | Err e => reply e
      | Ok options =>
          k ← sessionKey entityString key;
          out ← orFail (Get env k);
          let '(existing, found) := out in
          _ ← (if opt_nx options then exists_ ← existsAny env key; guard exists_ RespNullBulkString else ret tt);
          _ ← guard (opt_xx options && negb found) RespNullBulkString;
          _ ← deleteNonStringTypes env key;
          let expected := if opt_xx options then r_version existing else 0 in
          _ ← orFail (SetCall env k value (mkSetOptions (opt_ttl options) 0 0 expected));
          ret (simpleString "OK")
      end
  | _ => reply syntaxError
  end.

(** src: transport/redis/string.go handleDel *)
Definition handleDel : handler := fun args =>
  match args with
  | _ :: ((_ :: _) as keys) => deleted ← countEach keys (fun key => deleteAny env (text key)) 0; ret (RespInteger deleted)
  | _ => reply syntaxError
  end.

(** src: transport/redis/string.go handleExists *)
Definition handleExists : handler := fun args =>
  match args with
  | _ :: ((_ :: _) as keys) => count ← countEach keys (fun key => existsAny env (text key)) 0; ret (RespInteger count)
  | _ => reply syntaxError
  end.

(** src: transport/redis/string.go handleExpire *)
Definition handleExpire : handler := fun args =>
  match args with
  | [_; key; seconds] =>
      match parsePositiveInt64 seconds with
      | None => reply invalidExpireTime
      | Some seconds =>
          typ ← typeOf env (text key);
          match typ with
          | None => ret (RespInteger 0)
          | Some typ =>
              k ← sessionKey (rt_entity typ) (text key);
              touched ← orFail (Touch env k (s64 (seconds * nsPerSecond)));
              ret (yesNo touched)
          end
      end
  | _ => reply syntaxError
  end.

(** src: transport/redis/string.go ttlResponse *)
Definition ttlResponse (record : CacheRecord) (now : Time) : respValue :=
  if IsZero (r_expireAt record) then RespInteger (-1)
  else
    let ttl := TimeSub (r_expireAt record) now in
    if ttl <=? 0 then RespInteger (-2) else RespInteger (ceilInt (DurationSeconds ttl)).

(** The reading of [time.Until]. *)
Definition untilNow : cmd E Time := fun w => (w, Ok (re_now env (w_calls w))).

(** src: transport/redis/string.go handleTTL *)
Definition handleTTL : handler := fun args =>
  match args with
  | [_; key] =>
      typ ← typeOf env (text key);
      match typ with
      | None => ret (RespInteger (-2))
      | Some typ =>
          k ← sessionKey (rt_entity typ) (text key);
          out ← orFail (Get env k);
          now ← untilNow;
          let '(record, found) := out in
          ret (if found then ttlResponse record now else RespInteger (-2))
      end
  | _ => reply syntaxError
  end.

(** src: transport/redis/string.go increment *)
Definition increment (key : string) (delta : Z) : cmd E respValue :=
  _ ← wrongTypeFor env key entityString;
  k ← sessionKey entityString key;
  out ← Adjust env k delta;
  match out with
  | Err err =>
      match ce_error err with
      | EngineFailed ErrInvalidCounter => reply integerError
      | _ => reply (serviceErrorReply err)
      end
  | Ok result =>
      match ParseInt (r_value (sr_record result)) with
      | None => reply integerError
      | Some value => ret (RespInteger value)
      end
  end.

(** src: transport/redis/string.go handleIncrement *)
Definition handleIncrement (delta : Z) : handler := fun args =>
  match args with
  | [_; key] => increment (text key) delta
  | _ => reply syntaxError
  end.

(** src: transport/redis/string.go handleIncrementBy *)
Definition handleIncrementBy : handler := fun args =>
  match args with
  | [_; key; delta] => delta ← intArg delta; increment (text key) delta
  | _ => reply syntaxError
  end.

(** src: transport/redis/string.go handleDecrementBy *)
Definition handleDecrementBy : handler := fun args =>
  match args with
  | [_; key; delta] =>
      delta ← intArg delta;
      _ ← guard (delta =? - 2 ^ 63) integerError;
      increment (text key) (- delta)
  | _ => reply syntaxError
  end.

(** src: transport/redis/string.go mgetItem *)
Definition mgetItem (key : string) : cmd E respValue :=
  wrong ← hasWrongType env key entityString;
  if wrong : bool then ret RespNullBulkString
  else
    k ← sessionKey entityString key;
    out ← Get env k;
    ret (match out with Ok (record, true) => bulkBytes (r_value record) | _ => RespNullBulkString end).

(** src: transport/redis/string.go handleMGet *)
Definition handleMGet : handler := fun args =>
  match args with
  | _ :: ((_ :: _) as keys) => items ← mapEach keys (fun key => mgetItem (text key)); ret (RespArray items)
  | _ => reply syntaxError
  end.

(** src: transport/redis/string.go handleMSet *)
Definition handleMSet : handler := fun args =>
  if (zlen args <? 3) || Z.even (zlen args) then reply syntaxError
  else
    _ ← forEach (pairs (tail args)) (fun '(key, value) =>
      _ ← deleteNonStringTypes env (text key);
      k ← sessionKey entityString (text key);
      _ ← orFail (SetCall env k value (mkSetOptions 0 0 0 0));
      ret tt);
    ret (simpleString "OK").

(** src: transport/redis/string.go handleType *)
Definition handleType : handler := fun args =>
  match args with
  | [_; key] =>
      typ ← typeOf env (text key);
      ret (match typ with None => simpleString "none" | Some typ => simpleString (rt_name typ) end)
  | _ => reply syntaxError
  end.

(** ** hash.go *)

Definition primitive (entity key : string) (request : Key -> PrimitiveRequest) : cmd E (result callError PrimitiveResult) :=
  k ← sessionKey entity key;
  Primitive env (request k).

(** src: transport/redis/hash.go mapSet *)
Definition mapSet (key field : string) (value : list byte) : cmd E unit :=
  _ ← orFail (primitive entityHash key (fun k => fieldRequest PrimitiveMapSet k field "" value));
  ret tt.

(** src: transport/redis/hash.go mapFields *)
Definition mapFields (key : string) : cmd E (result callError PrimitiveResult) :=
  primitive entityHash key (keyRequest PrimitiveMapGetAll).

(** src: transport/redis/hash.go hashFieldExists *)
Definition hashFieldExists (key field : string) : cmd E bool :=
  out ← primitive entityHash key (fun k => fieldRequest PrimitiveMapGet k field "" []);
  ret (match out with Ok result => pres_found result | Err _ => false end).

(** src: transport/redis/hash.go handleHSet *)
Definition handleHSet : handler := fun args =>
  match args with
  | _ :: key :: rest =>
      if (zlen args <? 4) || Z.odd (zlen args) then reply syntaxError
      else
        let key := text key in
        _ ← wrongTypeFor env key entityHash;
        added ← countEach (pairs rest) (fun '(field, value) =>
          existed ← hashFieldExists key (text field);
          _ ← mapSet key (text field) value;
          ret (negb existed)) 0;
        ret (RespInteger added)
  | _ => reply syntaxError
  end.

(** src: transport/redis/hash.go handleHGet *)
Definition handleHGet : handler := fun args =>
  match args with
  | [_; key; field] =>
      let key := text key in
      _ ← wrongTypeFor env key entityHash;
      result ← orFail (primitive entityHash key (fun k => fieldRequest PrimitiveMapGet k (text field) "" []));
      ret (if pres_found result then bulkBytes (pres_value result) else RespNullBulkString)
  | _ => reply syntaxError
  end.

(** The commands that remove or add each of their arguments and count.  *)
Definition countMembers (entity : string) (request : string -> Key -> PrimitiveRequest) : handler := fun args =>
  match args with
  | _ :: key :: ((_ :: _) as members) =>
      let key := text key in
      _ ← wrongTypeFor env key entity;
      count ← countEach members (fun member =>
        result ← orFail (primitive entity key (request (text member)));
        ret (pres_bool result)) 0;
      ret (RespInteger count)
  | _ => reply syntaxError
  end.

(** src: transport/redis/hash.go handleHDel *)
Definition handleHDel : handler :=
  countMembers entityHash (fun field k => fieldRequest PrimitiveMapDelete k field "" []).

(** The commands of one key that read a collection and reply. *)
Definition readCollection (entity : string) (read : string -> cmd E (result callError PrimitiveResult)) (respond : PrimitiveResult -> respValue)
    : handler := fun args =>
  match args with
  | [_; key] =>
      let key := text key in
      _ ← wrongTypeFor env key entity;
      result ← orFail (read key);
      ret (respond result)
  | _ => reply syntaxError
  end.

(** src: transport/redis/hash.go handleHGetAll *)
Definition handleHGetAll : handler := readCollection entityHash mapFields (fun result =>
  RespArray (pres_fields result ≫= fun f => [bulkText (mf_field f); bulkBytes (mf_value f)])).

(** src: transport/redis/hash.go handleHExists *)
Definition handleHExists : handler := fun args =>
  match args with
  | [_; key; field] =>
      let key := text key in
      _ ← wrongTypeFor env key entityHash;
      found ← hashFieldExists key (text field);
      ret (yesNo found)
  | _ => reply syntaxError
  end.

(** src: transport/redis/hash.go handleHLen *)
Definition handleHLen : handler :=
  readCollection entityHash mapFields (fun result => integerCount (pres_count result)).

(** ** list.go *)

Fixpoint pushLoop (key : string) (kind : PrimitiveKind) (values : list respArg) (result : PrimitiveResult)
    : cmd E PrimitiveResult :=
  match values with
  | [] => ret result
  | value :: values =>
      next ← orFail (primitive entityList key (fun k => fieldRequest kind k "" "" value));
      pushLoop key kind values next
  end.

(** src: transport/redis/list.go pushList *)
Definition pushList (kind : PrimitiveKind) : handler := fun args =>
  match args with
  | _ :: key :: ((_ :: _) as values) =>
      let key := text key in
      _ ← wrongTypeFor env key entityList;
      result ← pushLoop key kind values zeroPrimitiveResult;
      ret (integerCount (pres_count result))
  | _ => reply syntaxError
  end.

(** src: transport/redis/list.go handleLPush *)
Definition handleLPush : handler := pushList PrimitiveListPushFront.

(** src: transport/redis/list.go handleRPush *)
Definition handleRPush : handler := pushList PrimitiveListPushBack.

(** src: transport/redis/list.go popList *)
Definition popList (kind : PrimitiveKind) : handler :=
  readCollection entityList (fun key => primitive entityList key (keyRequest kind)) (fun result =>
    if negb (pres_found result) || bool_decide (pres_value result = []) then RespNullBulkString
    else bulkBytes (pres_value result)).

(** src: transport/redis/list.go handleLPop *)
Definition handleLPop : handler := popList PrimitiveListPopFront.

(** src: transport/redis/list.go handleRPop *)
Definition handleRPop : handler := popList PrimitiveListPopBack.

(** src: transport/redis/list.go listValues *)
Definition listValues (key : string) : cmd E (result callError PrimitiveResult) :=
  primitive entityList key (keyRequest PrimitiveListRange).

(** src: transport/redis/list.go handleLRange *)
Definition handleLRange : handler := fun args =>
  match args with
  | [_; key; start; stop] =>
      let key := text key in
      _ ← wrongTypeFor env key entityList;
      start ← intArg start;
      stop ← intArg stop;
      result ← orFail (listValues key);
      ret (RespArray (bulkBytes <$> sliceRedisRange (pres_values result) start stop))
  | _ => reply syntaxError
  end.

(** src: transport/redis/list.go handleLLen *)
Definition handleLLen : handler :=
  readCollection entityList listValues (fun result => integerCount (pres_count result)).

(** ** set.go *)

(** src: transport/redis/set.go handleSAdd *)
Definition handleSAdd : handler := countMembers entitySet (fun member k => fieldRequest PrimitiveSetAdd k "" member []).

(** src: transport/redis/set.go handleSRem *)
Definition handleSRem : handler := countMembers entitySet (fun member k => fieldRequest PrimitiveSetRemove k "" member []).

(** src: transport/redis/set.go handleSIsMember *)
Definition handleSIsMember : handler := fun args =>
  match args with
  | [_; key; member] =>
      let key := text key in
      _ ← wrongTypeFor env key entitySet;
      result ← orFail (primitive entitySet key (fun k => fieldRequest PrimitiveSetContains k "" (text member) []));
      ret (yesNo (pres_bool result))
  | _ => reply syntaxError
  end.

(** src: transport/redis/set.go setMembers *)
Definition setMembers (key : string) : cmd E (result callError PrimitiveResult) :=
  primitive entitySet key (keyRequest PrimitiveSetMembers).

(** src: transport/redis/set.go handleSMembers *)
Definition handleSMembers : handler :=
  readCollection entitySet setMembers (fun result => RespArray (bulkText <$> pres_members result)).

(** src: transport/redis/set.go handleSCard *)
Definition handleSCard : handler :=
  readCollection entitySet setMembers (fun result => integerCount (pres_count result)).

(** ** zset.go *)

(** src: transport/redis/zset.go handleZAdd *)
Definition handleZAdd : handler := fun args =>
  match args with
  | _ :: key :: rest =>
      if (zlen args <? 4) || Z.odd (zlen args) then reply syntaxError
      else
        let key := text key in
        _ ← wrongTypeFor env key entityScoredSet;
        added ← countEach (pairs rest) (fun '(score, member) =>
          match ParseFloat score with
          | None => reply (errorString "ERR value is not a valid float")
          | Some score =>
              result ← orFail (primitive entityScoredSet key (fun k =>
                scoreRequest PrimitiveScoredSetPut k (text member) score (S754_zero false) (S754_zero false) 0));
              ret (pres_bool result)
          end) 0;
        ret (RespInteger added)
  | _ => reply syntaxError
  end.

(** src: transport/redis/zset.go handleZRem *)
Definition handleZRem : handler :=
  countMembers entityScoredSet (fun member k => fieldRequest PrimitiveScoredSetRemove k "" member []).

(** src: transport/redis/zset.go parseZRangeArgs *)
Definition parseZRangeArgs (args : list respArg) : cmd E (string * Z * Z * bool) :=
  match args with
  | _ :: key :: start :: stop :: rest =>
      if 5 <? zlen args then reply syntaxError
      else
        start ← intArg start;
        stop ← intArg stop;
        match rest with
        | [] => ret (text key, start, stop, false)
        | option :: _ =>
            _ ← guard (negb (EqualFold option (str_bytes "WITHSCORES"))) syntaxError;
            ret (text key, start, stop, true)
        end
  | _ => reply syntaxError
  end.

(** src: transport/redis/zset.go zrangeResponse *)
Definition zrangeResponse (result : PrimitiveResult) (start stop : Z) (withScores : bool) : respValue :=
  RespArray (sliceRedisRange (pres_scoredMembers result) start stop ≫= fun m =>
    bulkText (sm_member m) :: (if withScores then [bulkText (FormatShortest (sm_score m))] else [])).

(** src: transport/redis/zset.go scoredValues *)
Definition scoredValues (key : string) : cmd E (result callError PrimitiveResult) :=
  primitive entityScoredSet key (keyRequest PrimitiveScoredSetRange).

(** src: transport/redis/zset.go handleZRange *)
Definition handleZRange : handler := fun args =>
  parsed ← parseZRangeArgs args;
  let '(key, start, stop, withScores) := parsed in
  _ ← wrongTypeFor env key entityScoredSet;
  result ← orFail (scoredValues key);
  ret (zrangeResponse result start stop withScores).

(** src: transport/redis/zset.go handleZCard *)
Definition handleZCard : handler :=
  readCollection entityScoredSet scoredValues (fun result => integerCount (pres_count result)).

(** ** bitmap.go *)

(** src: transport/redis/bitmap.go parseBit *)
Definition parseBit (raw : respArg) : option Z :=
  match ParseInt raw with Some value => if (value =? 0) || (value =? 1) then Some value else None | None => None end.

(** src: transport/redis/bitmap.go parseNonNegativeInt64 *)
Definition parseNonNegativeInt64 (raw : respArg) : option Z :=
  match ParseInt raw with Some value => if 0 <=? value then Some value else None | None => None end.

(** src: transport/redis/bitmap.go checkedRedisUint64 *)
Definition checkedRedisUint64 (value : Z) : Z := if value <? 0 then 0 else value.

(** src: transport/redis/bitmap.go parseBitCountRange *)
Definition parseBitCountRange (startRaw endRaw : respArg) : option (Z * Z) :=
  match parseNonNegativeInt64 startRaw with
  | None => None
  | Some start =>
      match parseNonNegativeInt64 endRaw with
      | None => None
      | Some stop =>
          if stop <? start then None
          else Some (s64 (start * 8), u64 (checkedRedisUint64 (s64 (stop - start + 1)) * 8))
      end
  end.

Definition orInteger (parsed : option Z) : cmd E Z :=
  match parsed with Some value => ret value | None => reply integerError end.

(** src: transport/redis/bitmap.go handleSetBit *)
Definition handleSetBit : handler := fun args =>
  match args with
  | [_; key; offset; bit] =>
      let key := text key in
      _ ← wrongTypeFor env key entityBitmap;
      offset ← orInteger (parseNonNegativeInt64 offset);
      bit ← orInteger (parseBit bit);
      result ← orFail (primitive entityBitmap key (fun k => bitRequest PrimitiveBitmapSetBit k offset bit 0 0));
      ret (yesNo (pres_bool result))
  | _ => reply syntaxError
  end.

(** src: transport/redis/bitmap.go handleGetBit *)
Definition handleGetBit : handler := fun args =>
  match args with
  | [_; key; offset] =>
      let key := text key in
      _ ← wrongTypeFor env key entityBitmap;
      offset ← orInteger (parseNonNegativeInt64 offset);
      result ← orFail (primitive entityBitmap key (fun k => bitRequest PrimitiveBitmapGetBit k offset 0 0 0));
      ret (yesNo (pres_bool result))
  | _ => reply syntaxError
  end.

(** src: transport/redis/bitmap.go handleBitCount *)
Definition handleBitCount : handler := fun args =>
  match args with
  | _ :: key :: rest =>
      if negb (bool_decide (length rest = 0%nat \/ length rest = 2%nat)) then reply syntaxError
      else
        let key := text key in
        _ ← wrongTypeFor env key entityBitmap;
        range ← match rest with
                | [start; stop] =>
                    match parseBitCountRange start stop with Some range => ret range | None => reply integerError end
                | _ => ret (0, 0)
                end;
        result ← orFail (primitive entityBitmap key (fun k => bitRequest PrimitiveBitmapBitCount k 0 0 (snd range) (fst range)));
        ret (integerCount (pres_count result))
  | _ => reply syntaxError
  end.

(** ** hll.go *)

(** src: transport/redis/hll.go hllMembers *)
Definition hllMembers (key : string) : cmd E (result callError PrimitiveResult) :=
  primitive entityHLL key (keyRequest PrimitiveHLLMembers).

(** The loop of [PFADD]; it replies 1 when a member changed the sketch.
    src: transport/redis/hll.go handlePFAdd *)
Definition handlePFAdd : handler := fun args =>
  match args with
  | _ :: key :: ((_ :: _) as members) =>
      let key := text key in
      _ ← wrongTypeFor env key entityHLL;
      changed ← countEach members (fun member =>
        result ← orFail (primitive entityHLL key (fun k => fieldRequest PrimitiveHLLAdd k "" (text member) []));
        ret (pres_bool result)) 0;
      ret (yesNo (0 <? changed))
  | _ => reply syntaxError
  end.

(** The set of hashes is unordered. *)
Fixpoint hllUnionLoop (keys : list respArg) (hashes : gmap string unit) : cmd E (gmap string unit) :=
  match keys with
  | [] => ret hashes
  | key :: keys =>
      let key := text key in
      _ ← wrongTypeFor env key entityHLL;
      result ← orFail (hllMembers key);
      hllUnionLoop keys (foldl (fun hashes member => <[member := tt]> hashes) hashes (pres_members result))
  end.

(** src: transport/redis/hll.go hllUnion *)
Definition hllUnion (keys : list respArg) : cmd E (gmap string unit) := hllUnionLoop keys ∅.

(** src: transport/redis/hll.go handlePFCount *)
Definition handlePFCount : handler := fun args =>
  match args with
  | [_; key] =>
      let key := text key in
      _ ← wrongTypeFor env key entityHLL;
      result ← orFail (hllMembers key);
      ret (integerCount (pres_count result))
  | _ :: ((_ :: _) as keys) =>
      hashes ← hllUnion keys;
      ret (integerCount (Z.of_nat (size hashes)))
  | _ => reply syntaxError
  end.

(** [bytes.Join] with a zero byte between the values.
    src: transport/redis/hll.go encodeHLLHashValues *)
Fixpoint encodeHLLHashValues (values : list string) : list byte :=
  match values with
  | [] => []
  | [value] => str_bytes value
  | value :: values => str_bytes value ++ byte_of_Z 0 :: encodeHLLHashValues values
  end.

(** src: transport/redis/hll.go handlePFMerge *)
Definition handlePFMerge : handler := fun args =>
  match args with
  | _ :: dest :: keys =>
      let dest := text dest in
      _ ← wrongTypeFor env dest entityHLL;
      hashes ← hllUnion keys;
      _ ← orFail (primitive entityHLL dest (fun k =>
        fieldRequest PrimitiveHLLMerge k "" "" (encodeHLLHashValues ((range_order hashes).*1))));
      ret (simpleString "OK")
  | _ => reply syntaxError
  end.

(** ** geo.go *)

(** src: transport/redis/geo.go parseGeoPoint *)
Definition parseGeoPoint (longitudeRaw latitudeRaw : respArg) : cmd E (float64 * float64) :=
  match ParseFloat longitudeRaw with
  | None => reply (errorString "ERR longitude is not a valid float")
  | Some longitude =>
      match ParseFloat latitudeRaw with
      | None => reply (errorString "ERR latitude is not a valid float")
      | Some latitude => ret (longitude, latitude)
      end
  end.

(** The numbers 1, 1000, 1609.344 and 0.3048.
    src: transport/redis/geo.go geoUnitMultiplier *)
Definition geoUnitMultiplier (unit : string) : option float64 :=
  if bool_decide (unit = "m") then Some f1
  else if bool_decide (unit = "km") then Some (S754_finite false 8796093022208000 (-43))
  else if bool_decide (unit = "mi") then Some (S754_finite false 7077969764366156 (-42))
  else if bool_decide (unit = "ft") then Some (S754_finite false 5490788665690109 (-54))
  else None.

(** src: transport/redis/geo.go geoUnit *)
Definition geoUnit (unit : option respArg) : option string :=
  match unit with
  | None => Some "m"
  | Some unit =>
      let unit := text (ToLower unit) in
      match geoUnitMultiplier unit with Some _ => Some unit | None => None end
  end.

(** src: transport/redis/geo.go formatGeoDistance *)
Definition formatGeoDistance (meters : float64) (unit : string) : string :=
  FormatFour (fdiv meters (default f1 (geoUnitMultiplier unit))).

(** src: transport/redis/geo.go handleGeoAdd *)
Definition handleGeoAdd : handler := fun args =>
  match args with
  | _ :: key :: rest =>
      if (zlen args <? 5) || negb ((zlen args - 2) mod 3 =? 0) then reply syntaxError
      else
        let key := text key in
        _ ← wrongTypeFor env key entityGeo;
        added ← countEach (triples rest) (fun '(longitude, latitude, member) =>
          point ← parseGeoPoint longitude latitude;
          result ← orFail (primitive entityGeo key (fun k =>
            scoreRequest PrimitiveGeoAdd k (text member) (fst point) (snd point) (S754_zero false) 0));
          ret (pres_bool result)) 0;
        ret (RespInteger added)
  | _ => reply syntaxError
  end.

(** src: transport/redis/geo.go handleGeoDist *)
Definition handleGeoDist : handler := fun args =>
  match args with
  | _ :: key :: first :: second :: rest =>
      if 5 <? zlen args then reply syntaxError
      else
        match geoUnit (head rest) with
        | None => reply (errorString "ERR unsupported unit provided")
        | Some unit =>
            let key := text key in
            _ ← wrongTypeFor env key entityGeo;
            result ← orFail (primitive entityGeo key (fun k => fieldRequest PrimitiveGeoDist k (text second) (text first) []));
            ret (match pres_scoredMembers result with
                 | [] => RespNullBulkString
                 | m :: _ => bulkText (formatGeoDistance (sm_score m) unit)
                 end)
        end
  | _ => reply syntaxError
  end.

(** src: transport/redis/geo.go geoRadiusRequest *)
Record geoRadiusRequest := mkGeoRadius {
  gr_key : string;
  gr_longitude : float64;
  gr_latitude : float64;
  gr_radiusMeters : float64;
  gr_unit : string;
  gr_limit : Z
}.

(** The limit and whether distances are wanted.
    src: transport/redis/geo.go applyGeoRadiusOptions *)
Fixpoint applyGeoRadiusOptions (args : list respArg) (limit : Z) (withDist : bool) : cmd E (Z * bool) :=
  match args with
  | [] => ret (limit, withDist)
  | option :: rest =>
      let option := text (ToUpper option) in
      if bool_decide (option = "WITHDIST") then applyGeoRadiusOptions rest limit true
      else if bool_decide (option = "COUNT") then
        match rest with
        | [] => reply syntaxError
        | count :: rest =>
            limit ← orInteger (parseNonNegativeInt64 count);
            applyGeoRadiusOptions rest (checkedRedisUint64 limit) withDist
        end
      else reply syntaxError
  end.

(** src: transport/redis/geo.go parseGeoRadius *)
Definition parseGeoRadius (args : list respArg) : cmd E (geoRadiusRequest * bool) :=
  match args with
  | _ :: key :: longitude :: latitude :: radius :: unit :: options =>
      point ← parseGeoPoint longitude latitude;
      radius ← match ParseFloat radius with
               | Some radius =>
                   if SFltb radius (S754_zero false) then reply (errorString "ERR radius is not a valid float") else ret radius
               | None => reply (errorString "ERR radius is not a valid float")
               end;
      let unit := text (ToLower unit) in
      match geoUnitMultiplier unit with
      | None => reply (errorString "ERR unsupported unit provided")
      | Some multiplier =>
          opts ← applyGeoRadiusOptions options 0 false;
          ret (mkGeoRadius (text key) (fst point) (snd point) (fmul radius multiplier) unit (fst opts), snd opts)
      end
  | _ => reply syntaxError
  end.

(** src: transport/redis/geo.go geoRadiusResponse *)
Definition geoRadiusResponse (members : list ScoredMember) (unit : string) (withDist : bool) : respValue :=
  RespArray ((fun m =>
    if withDist then RespArray [bulkText (sm_member m); bulkText (formatGeoDistance (sm_score m) unit)]
    else bulkText (sm_member m)) <$> members).

(** src: transport/redis/geo.go handleGeoRadius *)
Definition handleGeoRadius : handler := fun args =>
  parsed ← parseGeoRadius args;
  let '(request, withDist) := parsed in
  _ ← wrongTypeFor env (gr_key request) entityGeo;
  result ← orFail (primitive entityGeo (gr_key request) (fun k =>
    scoreRequest PrimitiveGeoRadius k "" (gr_longitude request) (gr_latitude request) (gr_radiusMeters request) (gr_limit request)));
  ret (geoRadiusResponse (pres_scoredMembers result) (gr_unit request) withDist).
End Commands.

Arguments handler E : clear implicits.
