(* ===== verification/RedisServer.v ===== *)
(** * Commands, transactions and scripts of the Redis front end (transport/redis:
    command.go, transaction.go, script.go, script_cache.go, script_lua.go,
    script_response.go, server.go)

    A command may run others: [EXEC] runs the queued ones and a script calls some.
    [handleCommand] is bounded by the depth of this nesting.  The Lua interpreter is
    the class [Lua]: what a script does next given the answers to its calls. *)

From S2P Require Import Prelude.
From S2P Require Import GoStrings.
From S2P Require Import GoUnicode.
From S2P Require Import GoSha1.
From S2P Require Import GoFloat.
From S2P Require Import EngineTypes.
From S2P Require Import Primitives.
From S2P Require Import Service.
From S2P Require Import Resp.
From S2P Require Import Redis.
From S2P Require Import RedisCommands.

Local Open Scope Z_scope.
Local Open Scope nespa_scope.

(** ** Lua values *)

(** A table is its fields "ok" and "err" and its array part. *)
Inductive luaValue :=
| LNil
| LBool (b : bool)
| LNumber (f : float64)
| LString (s : list byte)
| LTable (ok err : luaValue) (items : list luaValue)
| LOther.

(** What a script does next, and how a call was answered. *)
Inductive luaAction :=
| LuaCall (protected : bool) (args : list luaValue)
| LuaReturn (value : luaValue)
| LuaRaise (message : string).

Inductive luaAnswer :=
| LuaRaised (message : string)
| LuaPushed (value : luaValue).

(** [lua_compile] is the error of a script that does not compile, [lua_String] the
    text of a value. *)
Class Lua := {
  lua_compile : respArg -> option string;
  lua_next : respArg -> list respArg -> list respArg -> list luaAnswer -> luaAction;
  lua_String : luaValue -> string
}.

(** src: transport/redis/script_lua.go luaStatusTable *)
Definition luaStatusTable (message : list byte) : luaValue := LTable (LString message) LNil [].

(** src: transport/redis/script_lua.go luaErrorTable *)
Definition luaErrorTable (message : list byte) : luaValue := LTable LNil (LString message) [].

(** src: transport/redis/script_lua.go respToLuaValue *)
Fixpoint respToLuaValue (value : respValue) : luaValue :=
  match value with
  | RespSimpleString text => luaStatusTable text
  | RespErrorString text => luaErrorTable text
  | RespInteger number => LNumber (floatOfZ number)
  | RespBulkString bytes => LString bytes
  | RespNullBulkString => LBool false
  | RespArray items => LTable LNil LNil (List.map respToLuaValue items)
  | RespMap _ => LNil
  end.

(** [int64(f)]: a number that does not fit is the least one. *)
Definition truncInt (f : float64) : Z :=
  match f with
  | S754_zero _ => 0
  | S754_finite s m e =>
      let v := (if 0 <=? e then Zpos m * 2 ^ e else Zpos m / 2 ^ (- e)) in
      let v := if s then - v else v in
      if (- 2 ^ 63 <=? v) && (v <? 2 ^ 63) then v else - 2 ^ 63
  | _ => - 2 ^ 63
  end.

Section Server.
  Context `{!Unicode, !FloatText, !RangeOrder, !Lua} {E : Type} `{!Engine E} (env : redisEnv E).

(** src: transport/redis/script_response.go luaValueToRESP *)
Fixpoint luaValueToRESP (value : luaValue) : respValue :=
  match value with
  | LNil | LOther => RespNullBulkString
  | LBool b => if b then RespInteger 1 else RespNullBulkString
  | LNumber f => RespInteger (truncInt f)
  | LString s => RespBulkString s
  | LTable ok err items =>
      match ok, err with
      | LNil, LNil => RespArray (List.map luaValueToRESP items)
      | LNil, _ => errorString (lua_String err)
      | _, _ => simpleString (lua_String ok)
      end
  end.

(** src: transport/redis/script.go luaValueToArg *)
Definition luaValueToArg (value : luaValue) : option respArg :=
  match value with
  | LString s => Some s
  | LNumber f => Some (str_bytes (FormatShortest f))
  | LBool b => Some (str_bytes (if b then "1" else "0"))
  | _ => None
  end.

(** ** Scripts kept by their digest (script_cache.go) *)

(** src: transport/redis/script_cache.go scriptSHA *)
Definition scriptSHA (script : respArg) : string := hexEncode (sha1Sum script).

(** The scripts as the other connections have left them. *)
Definition onScripts {A} (f : gmap string respArg -> gmap string respArg * A) : cmd E A := fun w =>
  let n := w_calls w in
  let '(scripts, a) := f (re_otherScripts env n (w_scripts w)) in
  (mkWorld (w_service w) scripts (w_session w) (S n), Ok a).

(** src: transport/redis/script_cache.go storeScript *)
Definition storeScript (sha : string) (script : respArg) : cmd E unit := onScripts (fun m => (<[sha := script]> m, tt)).

(** src: transport/redis/script_cache.go scriptForSHA *)
Definition scriptForSHA (sha : string) : cmd E (option respArg) := onScripts (fun m => (m, m !! sha)).

(** src: transport/redis/script_cache.go flushScripts *)
Definition flushScripts : cmd E unit := onScripts (fun _ => (∅, tt)).

(** src: transport/redis/script.go handleScriptLoad *)
Definition handleScriptLoad : handler E := fun args =>
  match args with
  | [_; _; script] => _ ← storeScript (scriptSHA script) script; ret (bulkText (scriptSHA script))
  | _ => reply syntaxError
  end.

(** src: transport/redis/script.go scriptExistsResponse *)
Definition scriptExistsResponse (sha : string) : cmd E respValue :=
  script ← scriptForSHA sha;
  ret (yesNo (bool_decide (is_Some script))).

(** src: transport/redis/script.go handleScriptExists *)
Definition handleScriptExists : handler E := fun args =>
  match args with
  | _ :: _ :: ((_ :: _) as shas) => items ← mapEach shas (fun sha => scriptExistsResponse (text sha)); ret (RespArray items)
  | _ => reply syntaxError
  end.

(** src: transport/redis/script.go handleScriptFlush *)
Definition handleScriptFlush : handler E := fun args =>
  match args with
  | [_; _] => _ ← flushScripts; ret (simpleString "OK")
  | _ => reply syntaxError
  end.

(** src: transport/redis/script.go handleScript *)
Definition handleScript : handler E := fun args =>
  match args with
  | _ :: sub :: _ =>
      let sub := text (ToUpper sub) in
      if bool_decide (sub = "LOAD") then handleScriptLoad args
      else if bool_decide (sub = "EXISTS") then handleScriptExists args
      else if bool_decide (sub = "FLUSH") then handleScriptFlush args
      else reply syntaxError
  | _ => reply syntaxError
  end.

(** ** Connection commands (command.go) *)

(** The user of a successful authentication.
    src: transport/redis/command.go handleAuth *)
Definition handleAuth : handler E := fun args =>
  match args with
  | [_; user; password] =>
      if negb (validUsername (text user)) || negb (authenticate env (text user) (text password)) then reply wrongPass
      else
        _ ← setSession (withAuth (text user));
        ret (simpleString "OK")
  | _ => reply (errorString "ERR AUTH requires username and password")
  end.

(** src: transport/redis/command.go applyHelloAuth *)
Definition applyHelloAuth (rest : list respArg) : cmd E (list respArg) :=
  match rest with
  | user :: password :: rest =>
      if negb (validUsername (text user)) || negb (authenticate env (text user) (text password)) then reply wrongPass
      else
        _ ← setSession (withAuth (text user));
        ret rest
  | _ => reply syntaxError
  end.

(** src: transport/redis/command.go applyHelloOption *)
Definition applyHelloOption (option : respArg) (rest : list respArg) : cmd E (list respArg) :=
  let option := text (ToUpper option) in
  if bool_decide (option = "AUTH") then applyHelloAuth rest
  else if bool_decide (option = "SETNAME") then
    match rest with
    | [] => reply syntaxError
    | _ :: rest => ret rest
    end
  else reply syntaxError.

(** The loop over the options; every option takes an argument off.
    src: transport/redis/command.go applyHelloOptions *)
Fixpoint applyHelloOptions (fuel : nat) (args : list respArg) : cmd E unit :=
  match fuel, args with
  | _, [] => ret tt
  | O, _ => reply syntaxError
  | S fuel, option :: rest =>
      rest ← applyHelloOption option rest;
      applyHelloOptions fuel rest
  end.

(** src: transport/redis/command.go handleHello *)
Definition handleHello : handler E := fun args =>
  match args with
  | _ :: version :: options =>
      match ParseInt version with
      | Some version =>
          if (version <? 2) || (3 <? version) then reply (errorString "NOPROTO unsupported protocol version")
          else
            _ ← applyHelloOptions (length options) options;
            s ← getSession;
            _ ← guard (negb (ses_authenticated s)) noAuth;
            _ ← setSession (withProtocol version);
            ret (if version =? 3 then helloMap else helloArray)
      | None => reply (errorString "NOPROTO unsupported protocol version")
      end
  | _ => reply syntaxError
  end.

(** src: transport/redis/command.go handlePing *)
Definition handlePing : handler E := fun args =>
  match args with
  | [_] => ret (simpleString "PONG")
  | [_; message] => ret (bulkBytes message)
  | _ => reply syntaxError
  end.

(** src: transport/redis/command.go handleQuit *)
Definition handleQuit : handler E := fun _ => _ ← setSession withClose; ret (simpleString "OK").

(** src: transport/redis/command.go handleSelect *)
Definition handleSelect : handler E := fun args =>
  match args with
  | [_; db] =>
      match ParseInt db with
      | Some db =>
          if db <? 0 then reply (errorString "ERR invalid DB index")
          else
            _ ← setSession (withDb db);
            ret (simpleString "OK")
      | None => reply (errorString "ERR invalid DB index")
      end
  | _ => reply syntaxError
  end.

(** src: transport/redis/command.go handleClient *)
Definition handleClient : handler E := fun args =>
  match args with
  | _ :: sub :: _ =>
      let sub := text (ToUpper sub) in
      ret (if bool_decide (sub = "GETNAME") then RespNullBulkString
           else if bool_decide (sub = "ID") then RespInteger 0
           else simpleString "OK")
  | _ => reply syntaxError
  end.

(** src: transport/redis/command.go commandAllowedBeforeAuth *)
Definition commandAllowedBeforeAuth (command : string) : bool :=
  bool_decide (command ∈ ["AUTH"; "HELLO"; "PING"; "QUIT"]).

(** src: transport/redis/script.go scriptCommandAllowed *)
Definition scriptCommandAllowed (command : string) : bool :=
  negb (bool_decide (command ∈ ["AUTH"; "HELLO"; "QUIT"; "SELECT"; "CLIENT"; "COMMAND";
                                "MULTI"; "EXEC"; "DISCARD"; "EVAL"; "EVALSHA"; "SCRIPT"])).

(** ** Transactions (transaction.go) *)

(** src: transport/redis/transaction.go handleMulti *)
Definition handleMulti : handler E := fun args =>
  match args with
  | [_] =>
      s ← getSession;
      if ses_inTransaction s then reply (errorString "ERR MULTI calls can not be nested")
      else
        _ ← setSession (withQueue true []);
        ret (simpleString "OK")
  | _ => reply syntaxError
  end.

(** src: transport/redis/transaction.go handleDiscard *)
Definition handleDiscard : handler E := fun args =>
  match args with
  | [_] =>
      s ← getSession;
      if negb (ses_inTransaction s) then reply (errorString "ERR DISCARD without MULTI")
      else
        _ ← setSession (withQueue false []);
        ret (simpleString "OK")
  | _ => reply syntaxError
  end.

(** The service's [Transaction] around [body]: the lock is taken after the other
    connections, and the service it hands out has no transactions of its own. *)
Definition lockedService {A} (body : cmd E A) : cmd E A := fun w =>
  let n := w_calls w in
  if ses_inTx (w_session w)
  then (mkWorld (w_service w) (w_scripts w) (w_session w) (S n),
        Err (serviceErrorReply (mkCallError ErrNestedTransactionUnsupported
               (re_errorText env n ErrNestedTransactionUnsupported))))
  else
    let '(w, out) := body (mkWorld (re_others env n (w_service w)) (w_scripts w) (withTx true (w_session w)) (S n)) in
    (onSession (withTx false) w, out).

(** [run] runs a command inside another one and always has a reply. *)
Definition runner := list respArg -> cmd E respValue.

(** src: transport/redis/transaction.go handleExec *)
Definition handleExec (run : runner) : handler E := fun args =>
  match args with
  | [_] =>
      s ← getSession;
      if negb (ses_inTransaction s) then reply (errorString "ERR EXEC without MULTI")
      else
        _ ← setSession (withQueue false []);
        responses ← lockedService (mapEach (ses_queued s) run);
        ret (RespArray responses)
  | _ => reply syntaxError
  end.

(** ** Scripts (script.go) *)

Definition defaultScriptMaxCalls : nat := 1000.

(** The reply of a call, or the text of its error.
    src: transport/redis/script.go callRedis *)
Definition callRedis (run : runner) (callCount : nat) (values : list luaValue) : cmd E (result string respValue) :=
  if (defaultScriptMaxCalls <? callCount)%nat then ret (Err "ERR Lua redis.call limit exceeded")
  else match mapM luaValueToArg values with
       | None => ret (Err "ERR Lua redis command arguments must be strings or integers")
       | Some [] => ret (Err "ERR redis.call requires a command")
       | Some (command :: rest) =>
           if negb (scriptCommandAllowed (text (ToUpper command))) then ret (Err "ERR command is not allowed from Lua script")
           else r ← run (command :: rest); ret (Ok r)
       end.

(** [redis.call] raises an error, [redis.pcall] hands it over.
    src: transport/redis/script.go call *)
Definition luaAnswerOf (protected : bool) (out : result string respValue) : luaAnswer :=
  match out with
  | Err e => if protected then LuaPushed (luaErrorTable (str_bytes e)) else LuaRaised e
  | Ok (RespErrorString e) => if protected then LuaPushed (luaErrorTable e) else LuaRaised (bytes_str e)
  | Ok r => LuaPushed (respToLuaValue r)
  end.

(** The script between its calls.  The deadline passes after [fuel] of its stretches: the
    interpreter ends the script there, whether it was about to call or to return. *)
Fixpoint luaLoop (run : runner) (fuel : nat) (script : respArg) (keys argv : list respArg) (answers : list luaAnswer)
    : cmd E respValue :=
  match fuel with
  | O => ret (errorString "BUSY Redis Lua script timed out")
  | S fuel =>
      match lua_next script keys argv answers with
      | LuaReturn value => ret (luaValueToRESP value)
      | LuaRaise message => ret (errorString ("ERR Error running script: " +:+ message))
      | LuaCall protected values =>
          out ← callRedis run (S (length answers)) values;
          luaLoop run fuel script keys argv (answers ++ [luaAnswerOf protected out])
      end
  end.

(** src: transport/redis/script.go runLuaScript *)
Definition runLuaScript (run : runner) (script : respArg) (keys argv : list respArg) : cmd E respValue := fun w =>
  match lua_compile script with
  | Some message => (w, Ok (errorString ("ERR Error compiling script: " +:+ message)))
  | None => luaLoop run (re_deadline env (w_calls w)) script keys argv [] w
  end.

(** src: transport/redis/script.go parseScriptKeyCount *)
Definition parseScriptKeyCount (args : list respArg) : cmd E (nat * list respArg) :=
  match args with
  | [] => reply syntaxError
  | count :: rest =>
      let tooMany := errorString "ERR Number of keys can't be greater than number of args" in
      match ParseInt count with
      | Some numKeys => if (numKeys <? 0) || (zlen rest <? numKeys) then reply tooMany else ret (Z.to_nat numKeys, rest)
      | None => reply tooMany
      end
  end.

(** src: transport/redis/script.go runScriptAtomically *)
Definition runScriptAtomically {A} (body : cmd E A) : cmd E A := fun w =>
  if ses_inTx (w_session w) then body w else lockedService body w.

(** A reply that is an error aborts the transaction, which undoes nothing, and is
    the reply all the same.
    src: transport/redis/script.go evalScript *)
Definition evalScript (run : runner) (script : respArg) (keySpec : list respArg) : cmd E respValue :=
  parsed ← parseScriptKeyCount keySpec;
  let '(numKeys, rest) := parsed in
  _ ← storeScript (scriptSHA script) script;
  runScriptAtomically (runLuaScript run script (take numKeys rest) (drop numKeys rest)).

(** src: transport/redis/script.go handleEval *)
Definition handleEval (run : runner) : handler E := fun args =>
  match args with
  | _ :: script :: ((_ :: _) as keySpec) => evalScript run script keySpec
  | _ => reply syntaxError
  end.

(** src: transport/redis/script.go handleEvalSHA *)
Definition handleEvalSHA (run : runner) : handler E := fun args =>
  match args with
  | _ :: sha :: ((_ :: _) as keySpec) =>
      script ← scriptForSHA (text sha);
      match script with
      | None => reply (errorString "NOSCRIPT No matching script. Please use EVAL.")
      | Some script => evalScript run script keySpec
      end
  | _ => reply syntaxError
  end.

(** ** Dispatch (command.go) *)

(** src: transport/redis/command.go commandHandlers *)
Definition commandHandlers (run : runner) : list (string * handler E) :=
  [("AUTH", handleAuth); ("HELLO", handleHello); ("PING", handlePing); ("QUIT", handleQuit);
   ("SELECT", handleSelect); ("CLIENT", handleClient); ("COMMAND", fun _ => ret (RespArray []));
   ("MULTI", handleMulti); ("EXEC", handleExec run); ("DISCARD", handleDiscard);
   ("EVAL", handleEval run); ("EVALSHA", handleEvalSHA run); ("SCRIPT", handleScript);
   ("GET", handleGet env); ("SET", handleSet env); ("DEL", handleDel env); ("EXISTS", handleExists env);
   ("EXPIRE", handleExpire env); ("TTL", handleTTL env); ("INCR", handleIncrement env 1);
   ("DECR", handleIncrement env (-1)); ("INCRBY", handleIncrementBy env); ("DECRBY", handleDecrementBy env);
   ("MGET", handleMGet env); ("MSET", handleMSet env); ("TYPE", handleType env);
   ("HSET", handleHSet env); ("HGET", handleHGet env); ("HDEL", handleHDel env); ("HGETALL", handleHGetAll env);
   ("HEXISTS", handleHExists env); ("HLEN", handleHLen env);
   ("SADD", handleSAdd env); ("SREM", handleSRem env); ("SISMEMBER", handleSIsMember env);
   ("SMEMBERS", handleSMembers env); ("SCARD", handleSCard env);
   ("LPUSH", handleLPush env); ("RPUSH", handleRPush env); ("LPOP", handleLPop env); ("RPOP", handleRPop env);
   ("LRANGE", handleLRange env); ("LLEN", handleLLen env);
   ("ZADD", handleZAdd env); ("ZREM", handleZRem env); ("ZRANGE", handleZRange env); ("ZCARD", handleZCard env);
   ("SETBIT", handleSetBit env); ("GETBIT", handleGetBit env); ("BITCOUNT", handleBitCount env);
   ("PFADD", handlePFAdd env); ("PFCOUNT", handlePFCount env); ("PFMERGE", handlePFMerge env);
   ("GEOADD", handleGeoAdd env); ("GEODIST", handleGeoDist env); ("GEORADIUS", handleGeoRadius env)].

(** A lookup in the map of handlers. *)
Fixpoint findHandler (command : string) (handlers : list (string * handler E)) : option (handler E) :=
  match handlers with
  | [] => None
  | (name, h) :: handlers => if bool_decide (name = command) then Some h else findHandler command handlers
  end.

Definition unknownCommand (command : respArg) : respValue :=
  RespErrorString (str_bytes "ERR unknown command '" ++ ToLower command ++ str_bytes "'").

(** src: transport/redis/transaction.go handleQueuedCommand *)
Definition handleQueuedCommand (run : runner) (command : respArg) : handler E := fun args =>
  let name := text command in
  if bool_decide (name = "EXEC") then handleExec run args
  else if bool_decide (name = "DISCARD") then handleDiscard args
  else if bool_decide (name = "MULTI") then reply (errorString "ERR MULTI calls can not be nested")
  else match findHandler name (commandHandlers run) with
       | None => reply (unknownCommand command)
       | Some _ =>
           s ← getSession;
           _ ← setSession (withQueue (ses_inTransaction s) (ses_queued s ++ [args]));
           ret (simpleString "QUEUED")
       end.

(** A command with the commands it runs.
    src: transport/redis/command.go handleCommand *)
Definition dispatch (run : runner) : handler E := fun args =>
  let command := ToUpper (default [] (head args)) in
  s ← getSession;
  if negb (ses_authenticated s) && negb (commandAllowedBeforeAuth (text command)) then reply noAuth
  else if ses_inTransaction s then handleQueuedCommand run command args
  else match findHandler (text command) (commandHandlers run) with
       | None => reply (unknownCommand command)
       | Some h => h args
       end.

(** An early return is the reply of the command. *)
Definition settle (m : cmd E respValue) : cmd E respValue := fun w =>
  match m w with
  | (w, Ok r) => (w, Ok r)
  | (w, Err r) => (w, Ok r)
  end.

(** Commands nested at most [depth] deep. *)
Fixpoint handleCommand (depth : nat) : runner := fun args =>
  match depth with
  | O => ret RespNullBulkString
  | S depth => settle (dispatch (handleCommand depth) args)
  end.

(** A command of a client runs others at most twice over: [EXEC] a script, and the
    script a command. *)
Definition commandDepth : nat := 3.

(** src: transport/redis/server.go responseForCommand *)
Definition responseForCommand (args : list respArg) (w : world E) : world E * respValue :=
  match args with
  | [] => (w, errorString "ERR empty command")
  | _ => match handleCommand commandDepth args w with
         | (w, Ok r) => (w, r)
         | (w, Err r) => (w, r)
         end
  end.

(** ** The loop of a connection (server.go) *)

(** The bytes that were sent, the bytes in the write buffer, and whether the process
    has panicked. *)
Record wire := mkWireOut { out_sent : list byte; out_pending : list byte; out_panicked : bool }.

Definition writeBufferSize : Z := 4096.

(** [bufio.Writer]: when the reply overflows the buffer some of its bytes are sent. *)
Definition writeOut (kept : nat) (bytes : list byte) (o : wire) : wire :=
  let pending := out_pending o ++ bytes in
  if zlen pending <=? writeBufferSize then mkWireOut (out_sent o) pending (out_panicked o)
  else
    let spill := (length pending - Nat.min kept (Z.to_nat writeBufferSize))%nat in
    mkWireOut (out_sent o ++ take spill pending) (drop spill pending) (out_panicked o).

(** src: transport/redis/resp.go flushRESP *)
Definition flushRESP (o : wire) : wire := mkWireOut (out_sent o ++ out_pending o) [] (out_panicked o).

(** The reply to a command and whether the session ends; [rest] is what the client
    sends after it.
    src: transport/redis/server.go writeCommandResponse *)
Definition writeCommandResponse (index : nat) (rest : list byte) (args : list respArg) (w : world E) (o : wire)
    : world E * wire * bool :=
  let '(w, response) := responseForCommand args w in
  let o := writeOut (re_kept env index) (encodeRESP response) o in
  let more := negb (bool_decide (rest = [])) && re_buffered env index in
  if more && negb (ses_close (w_session w)) then (w, o, false)
  else (w, flushRESP o, ses_close (w_session w)).

(** [fuel] bounds the commands; each takes at least a byte of the input.
    src: transport/redis/server.go runSession *)
Fixpoint runSession (fuel index : nat) (input : list byte) (w : world E) (o : wire) : world E * wire :=
  match fuel with
  | O => (w, o)
  | S fuel =>
      match readRESPCommand input with
      | (Err RespPanics, _) => (w, mkWireOut (out_sent o) (out_pending o) true)
      | (Err _, _) => (w, o)
      | (Ok args, rest) =>
          let '(w, o, stop) := writeCommandResponse index rest args w o in
          if stop then (w, o) else runSession fuel (S index) rest w o
      end
  end.

(** A connection from its first byte to its end.
    src: transport/redis/server.go serveConn *)
Definition serveConn (input : list byte) (service : EngineService E) (scripts : gmap string respArg) : world E * wire :=
  runSession (S (length input)) 0 input (mkWorld service scripts newSession 0) (mkWireOut [] [] false).
End Server.
