(* ===== verification/RedisSpec.v ===== *)
(** * What a connection of the Redis front end can touch

    A property of the service that the calls on the keys of some namespaces keep is
    kept by every connection whose users own those namespaces, whatever bytes it
    sends and whatever the scripts do.  A connection that never authenticates calls
    nothing. *)

From S2P Require Import Prelude.
From S2P Require Import GoStrings.
From S2P Require Import GoUnicode.
From S2P Require Import EngineTypes.
From S2P Require Import Service.
From S2P Require Import Resp.
From S2P Require Import Redis.
From S2P Require Import RedisCommands.
From S2P Require Import RedisServer.

Local Open Scope Z_scope.

(** ** Computations that keep a property of the world *)

Section Keeps.
  Context {E : Type} (P : world E -> Prop).

Definition keeps {A} (m : cmd E A) : Prop := forall w, P w -> P (m w).1.

Lemma keeps_ret {A} (a : A) : keeps (ret a).
Proof. by intros w. Qed.

Lemma keeps_reply {A} r : keeps (reply (A := A) r).
Proof. by intros w. Qed.

Lemma keeps_then {A B} (m : cmd E A) (f : A -> cmd E B) : keeps m -> (forall a, keeps (f a)) -> keeps (thenDo m f).
Proof.
  intros Hm Hf w Hw. unfold thenDo. specialize (Hm w Hw). destruct (m w) as [w' [a|r]]; [by apply Hf|done].
Qed.

Lemma keeps_guard b r : keeps (guard b r).
Proof. destruct b; [apply keeps_reply|apply keeps_ret]. Qed.

Lemma keeps_getSession : keeps getSession.
Proof. by intros w. Qed.

Lemma keeps_setSession f : (forall w, P w -> P (onSession f w)) -> keeps (setSession f).
Proof. intros Hf w Hw. by apply Hf. Qed.

Lemma keeps_forEach {A} (items : list A) body : (forall a, keeps (body a)) -> keeps (forEach items body).
Proof.
  intros Hb. induction items as [|a items IH]; [apply keeps_ret|].
  cbn [forEach]. apply keeps_then; [apply Hb|]. intros []. exact IH.
Qed.

Lemma keeps_countEach {A} (items : list A) body count : (forall a, keeps (body a)) -> keeps (countEach items body count).
Proof.
  intros Hb. revert count. induction items as [|a items IH]; intros count; [apply keeps_ret|].
  cbn [countEach]. apply keeps_then; [apply Hb|]. intros yes. apply IH.
Qed.

Lemma keeps_mapEach {A B} (items : list A) (body : A -> cmd E B) : (forall a, keeps (body a)) -> keeps (mapEach items body).
Proof.
  intros Hb. induction items as [|a items IH]; [apply keeps_ret|].
  cbn [mapEach]. apply keeps_then; [apply Hb|]. intros b. apply keeps_then; [exact IH|]. intros rest. apply keeps_ret.
Qed.

Lemma keeps_orFail {A} (m : cmd E (result callError A)) : keeps m -> keeps (orFail m).
Proof. intros Hm. apply keeps_then; [exact Hm|]. intros [a|e]; [apply keeps_ret|apply keeps_reply]. Qed.

Lemma keeps_intArg raw : keeps (intArg raw).
Proof. unfold intArg. case_match; [apply keeps_ret|apply keeps_reply]. Qed.

Lemma keeps_orInteger parsed : keeps (orInteger parsed).
Proof. destruct parsed; [apply keeps_ret|apply keeps_reply]. Qed.

Lemma keeps_settle m : keeps m -> keeps (settle m).
Proof. intros Hm w Hw. specialize (Hm w Hw). unfold settle. by destruct (m w) as [w' []]. Qed.
End Keeps.

(** One step through a computation: its cases, its loops, its calls. *)
Ltac keep_step :=
  lazymatch goal with
  | |- forall _, _ => intros
  | |- keeps _ (ret _) => apply keeps_ret
  | |- keeps _ (reply _) => apply keeps_reply
  | |- keeps _ (guard _ _) => apply keeps_guard
  | |- keeps _ getSession => apply keeps_getSession
  | |- keeps _ (orFail _) => apply keeps_orFail
  | |- keeps _ (intArg _) => apply keeps_intArg
  | |- keeps _ (orInteger _) => apply keeps_orInteger
  | |- keeps _ (forEach _ _) => apply keeps_forEach
  | |- keeps _ (countEach _ _ _) => apply keeps_countEach
  | |- keeps _ (mapEach _ _) => apply keeps_mapEach
  | |- keeps _ (match ?x with _ => _ end) => destruct x
  end.

(** ** The interface of a service and a set of namespaces *)

(** A property of the service that the calls on keys of the allowed namespaces, and
    the other connections, keep. *)
Class Confined {E} `{!Engine E} (env : redisEnv E) (allowed : string -> Prop) (ok : EngineService E -> Prop) : Prop := {
  confined_get s key now : allowed (k_namespace key) -> ok s -> ok (getLocked s key (mkGetOptions 0 0) now).1;
  confined_set s key value opts clock : allowed (k_namespace key) -> ok s -> ok (setLocked s key value opts clock).1;
  confined_delete s key opts : allowed (k_namespace key) -> ok s -> ok (deleteLocked s key opts).1;
  confined_touch s key opts now : allowed (k_namespace key) -> ok s -> ok (touchLocked s key opts now).1;
  confined_adjust s key opts clock : allowed (k_namespace key) -> ok s -> ok (adjustLocked s key opts clock).1;
  confined_primitive s request clock : allowed (k_namespace (pr_key request)) -> ok s -> ok (primitiveLocked s request clock).1;
  confined_others n s : ok s -> ok (re_others env n s);
  confined_users user password : re_credentials env !! user = Some password -> allowed user
}.

Section Touch.
  Context `{!Unicode, !FloatText, !RangeOrder, !Lua} {E : Type} `{!Engine E}.
  Context (env : redisEnv E) (allowed : string -> Prop) (ok : EngineService E -> Prop) `{!Confined env allowed ok}.

(** The session has no user that is not allowed; a [strict] one has a user. *)
Definition inside (strict : bool) (w : world E) : Prop :=
  ok (w_service w) /\ (strict = true -> ses_authenticated (w_session w) = true) /\
  (ses_authenticated (w_session w) = true -> allowed (ses_namespace (w_session w))).

Lemma keeps_call {A} (op : (nat -> Time) -> EngineService E -> EngineService E * result serviceError A) :
  (forall clock s, ok s -> ok (op clock s).1) -> keeps (inside true) (call env op).
Proof.
  intros Hop w (Hok & Ha & Hn). unfold call. set (before := if ses_inTx _ then _ else _).
  assert (ok before) as Hb by (subst before; case_match; [done|by eapply confined_others]).
  specialize (Hop (re_clock env (w_calls w)) before Hb). by destruct (op _ before).
Qed.

Lemma keeps_keyed {A} entity key (f : Key -> cmd E A) :
  (forall k, allowed (k_namespace k) -> keeps (inside true) (f k)) -> keeps (inside true) (thenDo (sessionKey entity key) f).
Proof. intros Hf w Hw. apply Hf; [by apply Hw, Hw|done]. Qed.

Lemma keeps_Get k : allowed (k_namespace k) -> keeps (inside true) (Get env k).
Proof. intros Hk. apply keeps_call. intros. by eapply confined_get. Qed.

Lemma keeps_SetCall k value opts : allowed (k_namespace k) -> keeps (inside true) (SetCall env k value opts).
Proof. intros Hk. apply keeps_call. intros. by eapply confined_set. Qed.

Lemma keeps_Delete k : allowed (k_namespace k) -> keeps (inside true) (Delete env k).
Proof. intros Hk. apply keeps_call. intros. by eapply confined_delete. Qed.

Lemma keeps_Touch k ttl : allowed (k_namespace k) -> keeps (inside true) (Touch env k ttl).
Proof. intros Hk. apply keeps_call. intros. by eapply confined_touch. Qed.

Lemma keeps_Adjust k delta : allowed (k_namespace k) -> keeps (inside true) (Adjust env k delta).
Proof. intros Hk. apply keeps_call. intros. by eapply confined_adjust. Qed.

Lemma keeps_Primitive request : allowed (k_namespace (pr_key request)) -> keeps (inside true) (Primitive env request).
Proof. intros Hk. apply keeps_call. intros. by eapply confined_primitive. Qed.
End Touch.

Create HintDb keeps discriminated.
#[export] Hint Resolve keeps_Get keeps_SetCall keeps_Delete keeps_Touch keeps_Adjust : keeps.

Ltac keep :=
  repeat first
    [ keep_step
    | solve [eauto with keeps]
    | apply keeps_Primitive; assumption
    | lazymatch goal with
      | |- keeps _ (primitive _ _ _ _) => unfold primitive
      | |- keeps _ (thenDo (sessionKey _ _) _) => apply keeps_keyed; intros ? ?
      | |- keeps _ (thenDo _ _) => apply keeps_then
      end ].

Section Handlers.
  Context `{!Unicode, !FloatText, !RangeOrder, !Lua} {E : Type} `{!Engine E}.
  Context (env : redisEnv E) (allowed : string -> Prop) (ok : EngineService E -> Prop) `{!Confined env allowed ok}.
  Local Abbreviation inside := (inside allowed ok true).

Lemma keeps_typeOf key : keeps inside (typeOf env key).
Proof. unfold typeOf. induction redisEntities as [|typ types IH]; cbn [typeOfLoop]; keep. Qed.

Lemma keeps_hasWrongType key entity : keeps inside (hasWrongType env key entity).
Proof. unfold hasWrongType. apply keeps_then; [apply keeps_typeOf|]. intros. apply keeps_ret. Qed.

Lemma keeps_wrongTypeFor key entity : keeps inside (wrongTypeFor env key entity).
Proof. unfold wrongTypeFor. apply keeps_then; [apply keeps_hasWrongType|]. intros. apply keeps_guard. Qed.

Lemma keeps_existsAny key : keeps inside (existsAny env key).
Proof. unfold existsAny. apply keeps_then; [apply keeps_typeOf|]. intros. apply keeps_ret. Qed.

Lemma keeps_deleteEntity key entity : keeps inside (deleteEntity env key entity).
Proof. unfold deleteEntity. keep. Qed.
End Handlers.

#[export] Hint Resolve keeps_typeOf keeps_hasWrongType keeps_wrongTypeFor keeps_existsAny keeps_deleteEntity : keeps.

Section Commands.
  Context `{!Unicode, !FloatText, !RangeOrder, !Lua} {E : Type} `{!Engine E}.
  Context (env : redisEnv E) (allowed : string -> Prop) (ok : EngineService E -> Prop) `{!Confined env allowed ok}.
  Local Abbreviation inside := (inside allowed ok true).

Lemma keeps_deleteAny key : keeps inside (deleteAny env key).
Proof. unfold deleteAny. generalize false. induction redisEntities as [|typ types IH]; intros b; cbn [deleteAnyLoop]; keep. Qed.

Lemma keeps_deleteNonStringTypes key : keeps inside (deleteNonStringTypes env key).
Proof. unfold deleteNonStringTypes. keep. Qed.

Lemma keeps_increment key delta : keeps inside (increment env key delta).
Proof. unfold increment. keep. Qed.

Lemma keeps_untilNow : keeps inside (untilNow env).
Proof. by intros w. Qed.

Lemma keeps_mgetItem key : keeps inside (mgetItem env key).
Proof. unfold mgetItem. keep. Qed.

Lemma keeps_mapSet key field value : keeps inside (mapSet env key field value).
Proof. unfold mapSet. keep. Qed.

Lemma keeps_hashFieldExists key field : keeps inside (hashFieldExists env key field).
Proof. unfold hashFieldExists. keep. Qed.

Lemma keeps_countMembers entity request args : (forall member k, pr_key (request member k) = k) ->
  keeps inside (countMembers env entity request args).
Proof.
  intros Hr. unfold countMembers. keep.
  apply (keeps_Primitive env allowed ok). by rewrite Hr.
Qed.

Lemma keeps_readCollection entity read respond args : (forall key, keeps inside (read key)) ->
  keeps inside (readCollection env entity read respond args).
Proof. intros Hr. unfold readCollection. keep. Qed.

Lemma keeps_pushLoop key kind values result : keeps inside (pushLoop env key kind values result).
Proof. revert result. induction values as [|v values IH]; intros result; cbn [pushLoop]; keep. Qed.

Lemma keeps_hllUnion keys : keeps inside (hllUnion env keys).
Proof. unfold hllUnion. generalize (∅ : gmap string unit). induction keys as [|k keys IH]; intros m; cbn [hllUnionLoop]; unfold hllMembers; keep. Qed.

Lemma keeps_parseZRangeArgs args : keeps inside (parseZRangeArgs args).
Proof. unfold parseZRangeArgs. keep. Qed.

Lemma keeps_parseGeoPoint a b : keeps inside (parseGeoPoint a b).
Proof. unfold parseGeoPoint. keep. Qed.

Lemma keeps_geoOptions args limit withDist : keeps inside (applyGeoRadiusOptions args limit withDist).
Proof.
  remember (length args) as n eqn:Hn. revert args Hn limit withDist.
  induction (lt_wf n) as [n _ IH]. intros [|option rest] -> limit withDist; cbn [applyGeoRadiusOptions]; [apply keeps_ret|].
  case_match; [by eapply IH; [|reflexivity]; cbn; lia|]. case_match; [|apply keeps_reply].
  destruct rest as [|count rest]; [apply keeps_reply|]. apply keeps_then; [apply keeps_orInteger|].
  intros. eapply IH; [|reflexivity]. cbn. lia.
Qed.
End Commands.

#[export] Hint Resolve keeps_deleteAny keeps_deleteNonStringTypes keeps_increment keeps_untilNow keeps_mgetItem keeps_mapSet
  keeps_hashFieldExists keeps_pushLoop keeps_hllUnion keeps_parseZRangeArgs keeps_parseGeoPoint keeps_geoOptions : keeps.

Section Dispatch.
  Context `{!Unicode, !FloatText, !RangeOrder, !Lua} {E : Type} `{!Engine E}.
  Context (env : redisEnv E) (allowed : string -> Prop) (ok : EngineService E -> Prop) `{!Confined env allowed ok}.
  Local Abbreviation admitted strict := (inside allowed ok strict).
  Local Abbreviation inside := (inside allowed ok true).

(** The session may change in every way but losing its user. *)
Lemma inside_session strict f (w : world E) :
  (forall s, ses_authenticated (f s) = ses_authenticated s /\ ses_namespace (f s) = ses_namespace s) ->
  admitted strict w -> admitted strict (onSession f w).
Proof. intros Hf (Hok & Ha & Hn). destruct (Hf (w_session w)) as [E1 E2]. split; [done|]. cbn. by rewrite E1, E2. Qed.

Lemma keeps_session strict f : (forall s, ses_authenticated (f s) = ses_authenticated s /\ ses_namespace (f s) = ses_namespace s) ->
  keeps (admitted strict) (setSession f).
Proof. intros Hf. apply keeps_setSession. intros w. by apply inside_session. Qed.

(** A user with a password is allowed. *)
Lemma keeps_auth strict user password : authenticate env user password = true -> keeps (admitted strict) (setSession (withAuth user)).
Proof.
  intros Ha%bool_decide_eq_true_1. apply keeps_setSession. intros w (Hok & _ & _). split; [done|]. split; [done|].
  intros _. by eapply confined_users.
Qed.

(** The two checks of a password. *)
Lemma keeps_login {A} strict valid user password (m : cmd E A) :
  (authenticate env user password = true -> keeps (admitted strict) m) ->
  keeps (admitted strict) (if negb valid || negb (authenticate env user password) then reply wrongPass else m).
Proof. intros Hm. destruct valid, (authenticate env user password); cbn; try apply keeps_reply. by apply Hm. Qed.

Lemma keeps_onScripts {A} (f : gmap string respArg -> gmap string respArg * A) : keeps inside (onScripts env f).
Proof. intros w Hw. unfold onScripts. by destruct (f _). Qed.

Lemma keeps_lockedService {A} (body : cmd E A) : keeps inside body -> keeps inside (lockedService env body).
Proof.
  intros Hb w (Hok & Ha & Hn). unfold lockedService. case_match; [done|].
  set (w0 := mkWorld _ _ _ _). assert (inside w0) as Hw0 by (split; [by eapply confined_others|done]).
  specialize (Hb w0 Hw0). destruct (body w0) as [w' out]. by apply (inside_session true (withTx false)).
Qed.

Lemma keeps_luaLoop run fuel script keys argv answers : (forall args, keeps inside (run args)) ->
  keeps inside (luaLoop run fuel script keys argv answers).
Proof.
  intros Hrun. revert answers. induction fuel as [|fuel IH]; intros answers; cbn [luaLoop].
  - apply keeps_ret.
  - destruct (lua_next _ _ _ _); [|apply keeps_ret..]. apply keeps_then; [|intros; apply IH].
    unfold callRedis. keep.
Qed.

Lemma keeps_evalScript run script keySpec : (forall args, keeps inside (run args)) ->
  keeps inside (evalScript env run script keySpec).
Proof.
  intros Hrun. unfold evalScript. apply keeps_then; [unfold parseScriptKeyCount; keep|]. intros [n rest].
  apply keeps_then; [apply keeps_onScripts|]. intros _ w Hw. unfold runScriptAtomically.
  assert (keeps inside (runLuaScript env run script (take n rest) (drop n rest))) as Hl.
  { intros w' Hw'. unfold runLuaScript. case_match; [done|]. by apply keeps_luaLoop. }
  case_match; [by apply Hl|by apply keeps_lockedService].
Qed.

Lemma keeps_helloOptions strict fuel args : keeps (admitted strict) (applyHelloOptions env fuel args).
Proof.
  revert args. induction fuel as [|fuel IH]; intros [|option rest]; cbn [applyHelloOptions]; [keep..|].
  apply keeps_then; [|intros; apply IH]. unfold applyHelloOption. case_match; [|keep].
  destruct rest as [|user [|password rest]]; [apply keeps_reply..|]. cbn [applyHelloAuth].
  apply keeps_login. intros Ha. apply keeps_then; [by eapply keeps_auth|keep].
Qed.

Lemma keeps_handleAuth strict args : keeps (admitted strict) (handleAuth env args).
Proof.
  destruct args as [|? [|user [|password [|? ?]]]]; try apply keeps_reply. cbn [handleAuth].
  apply keeps_login. intros Ha. apply keeps_then; [by eapply keeps_auth|keep].
Qed.

Lemma keeps_handleHello strict args : keeps (admitted strict) (handleHello env args).
Proof.
  destruct args as [|? [|version options]]; [apply keeps_reply..|]. cbn [handleHello].
  destruct (ParseInt version); [|apply keeps_reply]. case_match; [apply keeps_reply|].
  apply keeps_then; [apply keeps_helloOptions|]. intros _. keep. by apply keeps_session.
Qed.

Lemma keeps_handleExec run args : (forall args, keeps inside (run args)) -> keeps inside (handleExec env run args).
Proof.
  intros Hrun. unfold handleExec. keep; [by apply keeps_session|]. apply keeps_lockedService. by apply keeps_mapEach.
Qed.

Lemma keeps_handleScript args : keeps inside (handleScript env args).
Proof.
  unfold handleScript, handleScriptLoad, handleScriptExists, handleScriptFlush, scriptExistsResponse.
  keep; apply keeps_onScripts.
Qed.

Lemma connection_handlers (run : runner) : (forall args, keeps inside (run args)) ->
  Forall (fun entry => forall args, keeps inside (snd entry args)) (take 13 (commandHandlers env run)).
Proof.
  intros Hrun. cbn [take commandHandlers]. repeat apply Forall_cons_2; [..|apply Forall_nil_2]; cbn [snd]; intros args.
  - apply keeps_handleAuth.
  - apply keeps_handleHello.
  - unfold handlePing. keep.
  - unfold handleQuit. keep. by apply keeps_session.
  - unfold handleSelect. keep. by apply keeps_session.
  - unfold handleClient. keep.
  - apply keeps_ret.
  - unfold handleMulti. keep. by apply keeps_session.
  - by apply keeps_handleExec.
  - unfold handleDiscard. keep. by apply keeps_session.
  - unfold handleEval. keep. by apply keeps_evalScript.
  - unfold handleEvalSHA, scriptForSHA. keep; [apply keeps_onScripts|by apply keeps_evalScript].
  - apply keeps_handleScript.
Qed.

Lemma string_handlers (run : runner) :
  Forall (fun entry => forall args, keeps inside (snd entry args)) (take 13 (drop 13 (commandHandlers env run))).
Proof.
  cbn [take drop commandHandlers]. repeat apply Forall_cons_2; [..|apply Forall_nil_2]; cbn [snd]; intros args.
  - unfold handleGet. keep.
  - unfold handleSet. keep.
  - unfold handleDel. keep.
  - unfold handleExists. keep.
  - unfold handleExpire. keep.
  - unfold handleTTL. keep.
  - unfold handleIncrement. keep.
  - unfold handleIncrement. keep.
  - unfold handleIncrementBy. keep.
  - unfold handleDecrementBy. keep.
  - unfold handleMGet. keep.
  - unfold handleMSet. keep.
  - unfold handleType. keep.
Qed.

Lemma hash_set_handlers (run : runner) :
  Forall (fun entry => forall args, keeps inside (snd entry args)) (take 11 (drop 26 (commandHandlers env run))).
Proof.
  cbn [take drop commandHandlers]. repeat apply Forall_cons_2; [..|apply Forall_nil_2]; cbn [snd]; intros args.
  - unfold handleHSet. keep.
  - unfold handleHGet. keep.
  - by apply (keeps_countMembers env allowed ok).
  - apply (keeps_readCollection env allowed ok). unfold mapFields. keep.
  - unfold handleHExists. keep.
  - apply (keeps_readCollection env allowed ok). unfold mapFields. keep.
  - by apply (keeps_countMembers env allowed ok).
  - by apply (keeps_countMembers env allowed ok).
  - unfold handleSIsMember. keep.
  - apply (keeps_readCollection env allowed ok). unfold setMembers. keep.
  - apply (keeps_readCollection env allowed ok). unfold setMembers. keep.
Qed.

Lemma list_zset_handlers (run : runner) :
  Forall (fun entry => forall args, keeps inside (snd entry args)) (take 10 (drop 37 (commandHandlers env run))).
Proof.
  cbn [take drop commandHandlers]. repeat apply Forall_cons_2; [..|apply Forall_nil_2]; cbn [snd]; intros args.
  - unfold handleLPush, pushList. keep.
  - unfold handleRPush, pushList. keep.
  - apply (keeps_readCollection env allowed ok). keep.
  - apply (keeps_readCollection env allowed ok). keep.
  - unfold handleLRange, listValues. keep.
  - apply (keeps_readCollection env allowed ok). unfold listValues. keep.
  - unfold handleZAdd. keep.
  - by apply (keeps_countMembers env allowed ok).
  - unfold handleZRange, scoredValues. keep.
  - apply (keeps_readCollection env allowed ok). unfold scoredValues. keep.
Qed.

Lemma sketch_handlers (run : runner) :
  Forall (fun entry => forall args, keeps inside (snd entry args)) (drop 47 (commandHandlers env run)).
Proof.
  cbn [take drop commandHandlers]. repeat apply Forall_cons_2; [..|apply Forall_nil_2]; cbn [snd]; intros args.
  - unfold handleSetBit. keep.
  - unfold handleGetBit. keep.
  - unfold handleBitCount. keep.
  - unfold handlePFAdd. keep.
  - unfold handlePFCount, hllMembers. keep.
  - unfold handlePFMerge. keep.
  - unfold handleGeoAdd. keep.
  - unfold handleGeoDist. keep.
  - unfold handleGeoRadius, parseGeoRadius. keep.
Qed.

Lemma handlers_inside (run : runner) : (forall args, keeps inside (run args)) ->
  Forall (fun entry => forall args, keeps inside (snd entry args)) (commandHandlers env run).
Proof.
  intros Hrun. rewrite <- (take_drop 13 (commandHandlers env run)).
  rewrite <- (take_drop 13 (drop 13 _)), <- (take_drop 11 (drop 13 (drop 13 _))), <- (take_drop 10 (drop 11 _)), !drop_drop.
  repeat apply Forall_app_2; [by apply connection_handlers|apply string_handlers|apply hash_set_handlers|
    apply list_zset_handlers|apply sketch_handlers].
Qed.

Lemma findHandler_elem name (handlers : list (string * handler E)) h :
  findHandler name handlers = Some h -> (name, h) ∈ handlers.
Proof.
  induction handlers as [|[n g] handlers IH]; [done|]. cbn [findHandler]. case_bool_decide as Hn.
  - intros [= ->]. subst n. by left.
  - intros Hf. right. by apply IH.
Qed.

Lemma keeps_queued strict (run : runner) command args :
  (text command = "EXEC" -> keeps (admitted strict) (handleExec env run args)) ->
  keeps (admitted strict) (handleQueuedCommand env run command args).
Proof.
  intros Hexec. unfold handleQueuedCommand. case_bool_decide; [by apply Hexec|].
  unfold handleDiscard. keep; by apply keeps_session.
Qed.

Lemma dispatch_inside (run : runner) args : (forall args, keeps inside (run args)) -> keeps inside (dispatch env run args).
Proof.
  intros Hrun. unfold dispatch. apply keeps_then; [apply keeps_getSession|]. intros s. case_match; [apply keeps_reply|].
  case_match; [apply keeps_queued; intros; by apply keeps_handleExec|].
  destruct (findHandler _ _) as [h|] eqn:Hh; [|apply keeps_reply]. apply findHandler_elem in Hh.
  exact (proj1 (Forall_forall _ _) (handlers_inside run Hrun) _ Hh args).
Qed.

(** The commands of a session without a user. *)
Lemma allowed_handlers (run : runner) name h : commandAllowedBeforeAuth name = true ->
  findHandler name (commandHandlers env run) = Some h -> forall args, keeps (admitted false) (h args).
Proof.
  intros Hc%bool_decide_eq_true_1 Hf args.
  apply elem_of_cons in Hc as [->|Hc]; [injection Hf as <-; apply keeps_handleAuth|].
  apply elem_of_cons in Hc as [->|Hc]; [injection Hf as <-; apply keeps_handleHello|].
  apply elem_of_cons in Hc as [->|Hc]; [injection Hf as <-; unfold handlePing; keep|].
  apply list_elem_of_singleton in Hc as ->. injection Hf as <-. unfold handleQuit. keep. by apply keeps_session.
Qed.

Lemma not_exec name : commandAllowedBeforeAuth name = true -> name <> "EXEC".
Proof. by intros Hc ->. Qed.

Lemma inside_admitted w : inside w -> admitted false w.
Proof. intros (? & ? & ?). by split_and!. Qed.

Lemma dispatch_admitted (run : runner) args : (forall args, keeps inside (run args)) ->
  keeps (admitted false) (dispatch env run args).
Proof.
  intros Hrun w (Hok & _ & Hn). destruct (ses_authenticated (w_session w)) eqn:Ha.
  { apply inside_admitted, dispatch_inside; [done|]. split_and!; [done|done|]. intros _. by apply Hn. }
  assert (admitted false w) as Hw by (split_and!; [done|done|by rewrite Ha]).
  unfold dispatch, thenDo. cbn [getSession]. rewrite Ha. cbn [negb andb].
  destruct (commandAllowedBeforeAuth _) eqn:Hc; cbn [negb]; [|done].
  case_match; [apply keeps_queued; [by intros ?%not_exec|done]|].
  destruct (findHandler _ _) as [h|] eqn:Hh; [by eapply allowed_handlers|done].
Qed.

Lemma command_inside depth args : keeps inside (handleCommand env depth args).
Proof.
  revert args. induction depth as [|depth IH]; intros args; cbn [handleCommand]; [apply keeps_ret|].
  by apply keeps_settle, dispatch_inside.
Qed.

Lemma command_admitted depth args : keeps (admitted false) (handleCommand env depth args).
Proof.
  destruct depth as [|depth]; cbn [handleCommand]; [apply keeps_ret|].
  apply keeps_settle, dispatch_admitted. intros. apply command_inside.
Qed.

Lemma response_admitted args w : admitted false w -> admitted false (responseForCommand env args w).1.
Proof.
  intros Hw. unfold responseForCommand. destruct args as [|arg args]; [done|].
  pose proof (command_admitted commandDepth (arg :: args) w Hw) as Hc. by destruct (handleCommand _ _ _ w) as [w' []].
Qed.

Lemma session_admitted fuel index input w o : admitted false w -> admitted false (runSession env fuel index input w o).1.
Proof.
  revert index input w o. induction fuel as [|fuel IH]; intros index input w o Hw; [done|]. cbn [runSession].
  destruct (readRESPCommand input) as [[args|[]] rest]; try done. unfold writeCommandResponse.
  pose proof (response_admitted args w Hw) as Hr. destruct (responseForCommand env args w) as [w' response]. cbn [fst] in Hr.
  case_match eqn:Hm; repeat case_match; simplify_eq; by try apply IH.
Qed.

(** A property of the service that the calls on keys of the namespaces of the
    configured users keep, and the other connections, is kept by a connection
    whatever bytes it sends and whatever its scripts do. *)
Lemma connection_confined input service scripts : ok service -> ok (w_service (serveConn env input service scripts).1).
Proof. intros Hok. by apply session_admitted. Qed.
End Dispatch.

(** ** Connections without a user *)

Section Unauthenticated.
  Context `{!Unicode, !FloatText, !RangeOrder, !Lua} {E : Type} `{!Engine E} (env : redisEnv E).

(** Nothing is asked of the service: what is left is that a user is not lost. *)
Lemma all_confined : Confined env (fun _ => True) (fun _ => True).
Proof. by constructor. Qed.

Lemma stays_authenticated (run : runner) args w : (forall args, keeps (inside (fun _ => True) (fun _ => True) true) (run args)) ->
  ses_authenticated (w_session w) = true -> ses_authenticated (w_session (dispatch env run args w).1) = true.
Proof. intros Hrun Ha. by apply (dispatch_inside env _ _ (Confined0 := all_confined) run args). Qed.

Context (service : EngineService E) (scripts : gmap string respArg).

(** The service and the scripts have not been called. *)
Definition untouched (w : world E) : Prop := w_service w = service /\ w_scripts w = scripts /\ w_calls w = 0%nat.

Definition inert (w : world E) : Prop := ses_authenticated (w_session w) = false -> untouched w.

Lemma untouched_session f : keeps untouched (setSession f).
Proof. by intros w. Qed.

Lemma untouched_helloOptions fuel args : keeps untouched (applyHelloOptions env fuel args).
Proof.
  revert args. induction fuel as [|fuel IH]; intros [|option rest]; cbn [applyHelloOptions]; [keep..|].
  apply keeps_then; [|intros; apply IH]. unfold applyHelloOption, applyHelloAuth. keep. apply untouched_session.
Qed.

Lemma untouched_handlers (run : runner) name h : commandAllowedBeforeAuth name = true ->
  findHandler name (commandHandlers env run) = Some h -> forall args, keeps untouched (h args).
Proof.
  intros Hc%bool_decide_eq_true_1 Hf args.
  apply elem_of_cons in Hc as [->|Hc]; [injection Hf as <-; unfold handleAuth; keep; apply untouched_session|].
  apply elem_of_cons in Hc as [->|Hc]; [injection Hf as <-; unfold handleHello; keep|].
  { apply untouched_helloOptions. }
  { apply untouched_session. }
  apply elem_of_cons in Hc as [->|Hc]; [injection Hf as <-; unfold handlePing; keep|].
  apply list_elem_of_singleton in Hc as ->. injection Hf as <-. unfold handleQuit. keep. apply untouched_session.
Qed.

Lemma untouched_queued (run : runner) command args : text command <> "EXEC" ->
  keeps untouched (handleQueuedCommand env run command args).
Proof.
  intros Hne. unfold handleQueuedCommand. rewrite bool_decide_eq_false_2 by done.
  unfold handleDiscard. keep; apply untouched_session.
Qed.

Lemma dispatch_inert (run : runner) args : (forall args, keeps (inside (fun _ => True) (fun _ => True) true) (run args)) ->
  keeps inert (dispatch env run args).
Proof.
  intros Hrun w Hw Hafter. destruct (ses_authenticated (w_session w)) eqn:Ha.
  { by rewrite (stays_authenticated run args w Hrun Ha) in Hafter. }
  clear Hafter. specialize (Hw Ha). unfold dispatch, thenDo. cbn [getSession]. rewrite Ha. cbn [negb andb].
  destruct (commandAllowedBeforeAuth _) eqn:Hc; cbn [negb]; [|done].
  case_match; [|destruct (findHandler _ _) as [h|] eqn:Hh; [by eapply untouched_handlers|done]].
  by apply untouched_queued; [apply not_exec|].
Qed.

Lemma command_inert depth args : keeps inert (handleCommand env depth args).
Proof.
  destruct depth as [|depth]; cbn [handleCommand]; [apply keeps_ret|].
  apply keeps_settle, dispatch_inert. intros. apply (command_inside env _ _ (Confined0 := all_confined)).
Qed.

Lemma session_inert fuel index input w o : inert w -> inert (runSession env fuel index input w o).1.
Proof.
  revert index input w o. induction fuel as [|fuel IH]; intros index input w o Hw; [done|]. cbn [runSession].
  destruct (readRESPCommand input) as [[args|[]] rest]; try done. unfold writeCommandResponse.
  assert (inert (responseForCommand env args w).1) as Hr.
  { unfold responseForCommand. destruct args as [|arg args]; [done|].
    pose proof (command_inert commandDepth (arg :: args) w Hw) as Hc. by destruct (handleCommand _ _ _ w) as [w' []]. }
  destruct (responseForCommand env args w) as [w' response]. cbn [fst] in Hr.
  case_match eqn:Hm; repeat case_match; simplify_eq; by try apply IH.
Qed.
End Unauthenticated.

(** C30: a connection that has not authenticated when it ends has called nothing: the
    service and the stored scripts are as it found them, whatever bytes it sent. *)
Theorem unauthenticated_connection_inert `{!Unicode, !FloatText, !RangeOrder, !Lua, !Engine E} (env : redisEnv E)
    input service scripts :
  ses_authenticated (w_session (serveConn env input service scripts).1) = false ->
  w_service (serveConn env input service scripts).1 = service /\
  w_scripts (serveConn env input service scripts).1 = scripts.
Proof.
  intros Ha. destruct (session_inert env service scripts _ 0 input (mkWorld service scripts newSession 0)
    (mkWireOut [] [] false) (fun _ => conj eq_refl (conj eq_refl eq_refl)) Ha) as (? & ? & _). by split.
Qed.
