(* ===== verification/EngineFrame.v ===== *)
(** * What a call on a key leaves alone

    A call of the service on a key of some namespace leaves every entry stored under
    a physical key of no such namespace as it was, also when it has to evict to make
    room. *)

From S2P Require Import Prelude.
From S2P Require Import GoStrings.
From S2P Require Import Binary.
From S2P Require Import EngineTypes.
From S2P Require Import Shard.
From S2P Require Import ShardInv.
From S2P Require Import ShardOps.
From S2P Require Import Primitives.
From S2P Require Import Worker.
From S2P Require Import MemoryEngine.
From S2P Require Import EngineSpec.
From S2P Require Import Service.

Local Open Scope Z_scope.

(** ** Shards *)

(** Only the entry at [p] may differ. *)
Definition local_at (p : string) (s t : shardWorker) : Prop :=
  forall q, q <> p -> sw_entries t !! q = sw_entries s !! q.

Lemma local_refl p s : local_at p s s.
Proof. done. Qed.

Lemma local_trans p s t u : local_at p s t -> local_at p t u -> local_at p s u.
Proof. intros H1 H2 q Hq. by rewrite H2, H1. Qed.

Lemma local_delete p e s : local_at p s (deleteEntry p e s).
Proof. intros q Hq. by rewrite deleteEntry_entries, lookup_delete_ne. Qed.

Lemma local_store p e s : local_at p s (storeEntry p e s).
Proof. intros q Hq. by apply lookup_insert_ne. Qed.

Lemma local_add p e s : local_at p s (addEntry p e s).
Proof. intros q Hq. unfold addEntry. rewrite addSpaceUsage_entries. by apply lookup_insert_ne. Qed.

(** A change of the counters only. *)
Lemma local_counters p s t u : sw_entries u = sw_entries t -> local_at p s t -> local_at p s u.
Proof. intros E H q Hq. by rewrite E, H. Qed.

#[export] Hint Resolve local_refl local_delete local_store local_add : nespa.

Section Apply.
  Context `{!Codecs, !GoMath, !RangeOrder}.
  Implicit Types (s : shardWorker) (cmd : shardCommand).

Lemma applySet_local s cmd : local_at (c_physical cmd) s (applySet s cmd).1.
Proof.
  unfold applySet. case_match; [done|]. destruct (sw_entries s !! c_physical cmd) as [e|]; [|apply local_add].
  intros q Hq. cbn. by rewrite lookup_insert_ne, replaceEntryCost_entries.
Qed.

Lemma applyGet_local s cmd : local_at (c_physical cmd) s (applyGet s cmd).1.
Proof.
  unfold applyGet. repeat case_match; try done; [apply (local_counters _ _ (deleteEntry (c_physical cmd) e s))|
    apply (local_counters _ _ (storeEntry (c_physical cmd) (touchAccess e (c_now cmd)) s))]; auto with nespa;
    cbn; by rewrite ?deleteEntry_entries.
Qed.

Lemma applyDelete_local s cmd : local_at (c_physical cmd) s (applyDelete s cmd).1.
Proof. unfold applyDelete. repeat case_match; cbn [fst]; auto with nespa. Qed.

Lemma applyTouch_local s cmd : local_at (c_physical cmd) s (applyTouch s cmd).1.
Proof.
  unfold applyTouch. destruct (sw_entries _ !! c_physical cmd) as [e|]; [|done].
  case_match; [done|]. case_match.
  - apply (local_counters _ _ (deleteEntry (c_physical cmd) e s)); auto with nespa. cbn. by rewrite !deleteEntry_entries.
  - do 2 (case_match; [done|]). intros q Hq. by apply lookup_insert_ne.
Qed.

Lemma prepareCounter_local s cmd : local_at (c_physical cmd) s (prepareCounterAdjustment s cmd).1.
Proof. unfold prepareCounterAdjustment. repeat case_match; cbn [fst]; auto with nespa. Qed.

Lemma applyAdjust_local s cmd : local_at (c_physical cmd) s (applyAdjust s cmd).1.
Proof.
  unfold applyAdjust. pose proof (prepareCounter_local s cmd) as Hp.
  destruct (prepareCounterAdjustment s cmd) as [t [[a|]|e]]; [|exact Hp..]. cbn [fst] in Hp.
  destruct (ca_existing a) as [e|]; eapply local_trans; try exact Hp; [|apply local_add].
  intros q Hq. cbn. rewrite replaceEntryCost_entries. by apply lookup_insert_ne.
Qed.

Lemma readPrimitive_local s cmd : local_at (c_physical cmd) s (readPrimitiveEntry s cmd).1.
Proof. unfold readPrimitiveEntry. repeat case_match; cbn [fst]; auto with nespa. Qed.

Lemma mutablePrimitive_local s cmd : local_at (c_physical cmd) s (mutablePrimitiveEntry s cmd).1.
Proof. unfold mutablePrimitiveEntry. repeat case_match; cbn [fst]; auto with nespa. Qed.

Lemma mutableCollection_local {C} (decode : list byte -> result engineError C) empty s cmd :
  local_at (c_physical cmd) s (mutableCollection decode empty s cmd).1.
Proof.
  pose proof (mutablePrimitive_local s cmd) as Hp. unfold mutableCollection.
  destruct (mutablePrimitiveEntry s cmd) as [t [[ent|]|]]; [|exact Hp..]. by case_match.
Qed.

Lemma writeCollection_local {C} encode (count : C -> Z) s cmd ent c :
  local_at (c_physical cmd) s (writeCollection encode count s cmd ent c).1.
Proof.
  unfold writeCollection. case_match; [|done]. destruct ent as [e|]; [|apply local_add].
  unfold writePrimitiveEntry. case_bool; [done|]. intros q Hq. cbn. rewrite replaceEntryCost_entries. by apply lookup_insert_ne.
Qed.

Lemma onOpened_local {C} (decode : list byte -> result engineError C) empty s cmd k :
  (forall t ent c, local_at (c_physical cmd) t (k t ent c).1) ->
  local_at (c_physical cmd) s (onOpened (mutableCollection decode empty s cmd) k).1.
Proof.
  intros Hk. pose proof (mutableCollection_local decode empty s cmd) as Hm.
  destruct (mutableCollection decode empty s cmd) as [t []]; cbn [onOpened fst] in *; try exact Hm;
    by eapply local_trans; [exact Hm|].
Qed.

Lemma onRead_local {C} (decode : list byte -> result engineError C) s cmd k :
  local_at (c_physical cmd) s (onRead (readCollection decode s cmd) k).1.
Proof.
  pose proof (readPrimitive_local s cmd) as Hp. unfold readCollection.
  destruct (readPrimitiveEntry s cmd) as [t [ent|]]; [|exact Hp]. by case_match.
Qed.

Lemma onEstimate_local {C} (decode : list byte -> result engineError C) empty s cmd k :
  local_at (c_physical cmd) s (onEstimate cmd (mutableCollection decode empty s cmd) k).1.
Proof.
  pose proof (mutableCollection_local decode empty s cmd) as Hm.
  by destruct (mutableCollection decode empty s cmd) as [t []].
Qed.

Ltac local_handler :=
  intros ? ent ?; destruct ent; cbn beta iota zeta; repeat (first [rewrite onPrimitive_state | case_match]);
  try apply local_refl; apply writeCollection_local.

Lemma applyPrimitive_local s cmd : local_at (c_physical cmd) s (applyPrimitive s cmd).1.
Proof.
  unfold applyPrimitive. destruct (pr_kind (c_primitive cmd));
    try (apply onRead_local); try (apply onOpened_local; local_handler); try done.
  unfold applyCounterPrimitive. pose proof (applyAdjust_local s (counterCommand cmd)) as Ha.
  destruct (applyAdjust s (counterCommand cmd)) as [t r]. by case_match.
Qed.

Lemma applyPrimitiveEstimate_local s cmd : local_at (c_physical cmd) s (applyPrimitiveEstimate s cmd).1.
Proof.
  unfold applyPrimitiveEstimate. case_match; [done|].
  destruct (pr_kind (c_primitive cmd)); try done; try apply onEstimate_local.
  unfold estimateCounterPrimitive. pose proof (prepareCounter_local s (counterCommand cmd)) as Ha.
  by destruct (prepareCounterAdjustment s (counterCommand cmd)) as [t [[a|]|e]].
Qed.

(** The commands of one key. *)
Definition one_key (kind : commandKind) : bool :=
  match kind with
  | commandSet | commandGet | commandDelete | commandTouch | commandAdjust | commandAdjustEstimate
  | commandPrimitive | commandPrimitiveEstimate | commandStats => true
  | _ => false
  end.

Lemma apply_local s cmd : one_key (c_kind cmd) = true -> local_at (c_physical cmd) s (apply 0 s cmd).1.
Proof.
  unfold apply. destruct (c_kind cmd); try done; intros _;
    auto using applySet_local, applyGet_local, applyDelete_local, applyTouch_local, applyAdjust_local,
      applyPrimitive_local, applyPrimitiveEstimate_local.
  rewrite applyAdjustEstimate_state. apply prepareCounter_local.
Qed.
End Apply.

(** ** The engine *)

Section Frame.
  Context `{!Codecs, !GoMath, !RangeOrder} (allowed : string -> Prop).

(** A physical key of no key of an allowed namespace. *)
Definition foreign (p : string) : Prop := forall key, allowed (k_namespace key) -> physicalKey key <> p.

(** The entries under such physical keys are those of [e0]. *)
Definition framed (e0 e : MemoryEngine) : Prop := forall p, foreign p -> engine_entry e p = engine_entry e0 p.

(** They are of no allowed namespace. *)
Definition settled (e : MemoryEngine) : Prop :=
  forall p ent, foreign p -> engine_entry e p = Some ent -> ~ allowed (k_namespace (e_key ent)).

Lemma settled_framed e0 e : settled e0 -> framed e0 e -> settled e.
Proof. intros Hs Hf p ent Hp. rewrite (Hf p Hp). by apply Hs. Qed.

(** Entries are stored under the physical keys of their keys. *)
Lemma settled_inv e : engine_inv e -> settled e.
Proof.
  intros Hi p ent Hp He Ha. unfold engine_entry in He.
  destruct (me_shards e !! shardFor e p) as [s|] eqn:Hs; [|done].
  destruct (inv_entries s (ei_shard e Hi _ _ Hs) _ _ He) as (Ep & _). by apply (Hp (e_key ent) Ha).
Qed.

(** A command to a shard that keeps the foreign entries of that shard. *)
Lemma executeOn_framed e index cmd :
  (forall s p, me_shards e !! index = Some s -> shardFor e p = index -> foreign p ->
     sw_entries (apply 0 s cmd).1 !! p = sw_entries s !! p) ->
  framed e (executeOn LiveContext e index cmd).1.
Proof.
  intros Ha p Hp. unfold executeOn. destruct (me_closed e); [done|].
  destruct (me_shards e !! index) as [s|] eqn:Hs; [|done].
  specialize (Ha s p eq_refl). destruct (apply 0 s cmd) as [t r]. cbn [fst] in *.
  unfold engine_entry. erewrite (shardFor_length _ e p) by apply length_insert. cbn [me_shards].
  destruct (decide (shardFor e p = index)) as [Hix|Hix].
  - rewrite Hix, list_lookup_insert_eq by (by eapply lookup_lt_Some). rewrite Hs. by apply Ha.
  - by rewrite list_lookup_insert_ne.
Qed.

Lemma execute_framed e cmd key : one_key (c_kind cmd) = true -> c_physical cmd = physicalKey key ->
  allowed (k_namespace key) -> framed e (execute LiveContext e cmd).1.
Proof.
  intros Hk Hc Ha. apply executeOn_framed. intros s p _ _ Hp. apply apply_local; [done|].
  rewrite Hc. intros E. by apply (Hp key).
Qed.

(** An eviction from an allowed namespace. *)
Lemma evict_framed opts s p : allowed (eo_namespace opts) -> foreign p ->
  (forall ent, sw_entries s !! p = Some ent -> ~ allowed (k_namespace (e_key ent))) ->
  sw_entries (evict opts s).1 !! p = sw_entries s !! p.
Proof.
  intros Ha Hp Hs. unfold evict, collectEvictionCandidates. rewrite collect_fold. cbn zeta. rewrite !app_nil_l.
  set (live := filter (fun i => _ && negb _ = true) _). set (dead := filter _ _). unfold evictCandidates.
  destruct (evictLoop_spec (merge_sort evict_le live.*2) (eo_targetBytes opts)
    (counted (mkEvictResult (eo_targetBytes opts) 0 0) dead.*2) (deleteExpired dead s)) as (taken & rest & Ht & -> & _ & _).
  assert (sw_entries (deleteExpired (at_key <$> taken) (deleteExpired dead s)) !! p = sw_entries s !! p) as Hd.
  { rewrite !deleteExpired_lookup, !bool_decide_eq_false_2; [done| |].
    - intros ([q ent] & -> & Hq)%list_elem_of_fmap. apply list_elem_of_filter in Hq as [Hc Hq]. cbn in Hc.
      rewrite range_perm, elem_of_map_to_list in Hq. apply (Hs ent Hq).
      apply andb_prop in Hc as [Hc _]. unfold evictionCandidate in Hc. case_match; [done|].
      apply andb_prop in Hc as [Hc%bool_decide_eq_true_1 _]. by rewrite Hc.
    - intros ([q ent] & -> & Hq)%list_elem_of_fmap. apply list_elem_of_fmap in Hq as (ent' & [= -> ->] & Hq).
      assert (ent' ∈ live.*2) as Hl.
      { rewrite <- (merge_sort_Permutation evict_le live.*2), Ht. by apply elem_of_app; left. }
      apply list_elem_of_fmap in Hl as ([q ent] & -> & Hl). apply list_elem_of_filter in Hl as [Hc _]. cbn in Hc.
      apply andb_prop in Hc as [Hc _]. unfold evictionCandidate in Hc. case_match; [done|].
      apply andb_prop in Hc as [Hc%bool_decide_eq_true_1 _]. apply (Hp (e_key ent)); [by rewrite Hc|done]. }
  by case_match.
Qed.

Lemma forWorkers_keeps {A} (P : MemoryEngine -> Prop) indices body (e : MemoryEngine) (acc : A) :
  (forall e i a, P e -> P (body e i a).1) -> P e -> P (forWorkers indices body e acc).1.
Proof.
  intros Hb. revert e acc. induction indices as [|i indices IH]; intros e acc He; [done|].
  cbn [forWorkers]. specialize (Hb e i acc He). destruct (body e i acc) as [e' []]; [by apply IH|done].
Qed.

Lemma onReply_state {A} (out : MemoryEngine * result engineError shardResult) (failed : A) k :
  (onReply out failed k).1 = out.1.
Proof. unfold onReply. destruct out as [e [r|]]; [by case_match|done]. Qed.

Lemma framed_trans e0 e e' : framed e0 e -> framed e e' -> framed e0 e'.
Proof. intros Hx Hy p Hp. by rewrite Hy, Hx. Qed.

Lemma Evict_framed e opts now : settled e -> allowed (eo_namespace opts) -> framed e (Evict LiveContext e opts now).1.
Proof.
  intros Hs Ha. unfold Evict. case_match; [done|]. case_match; [done|].
  set (opts' := if IsZero (eo_now opts) then withNow now opts else opts).
  assert (allowed (eo_namespace opts')) as Ha' by (unfold opts'; by case_match).
  unfold evictFromShards, eachShard. apply (forWorkers_keeps (framed e)); [|done].
  intros e' i total He. case_match; [done|]. rewrite onReply_state.
  eapply framed_trans; [exact He|]. apply executeOn_framed. intros s p Hsh Hix Hp. cbn [apply evictCommand c_kind c_evict].
  pose proof (evict_framed (withTarget (eo_targetBytes opts' -% er_freedBytes total)%nespa opts') s p Ha' Hp) as Hev.
  unfold apply. cbn [evictCommand c_kind c_evict]. destruct (evict _ s) as [t r]. apply Hev.
  intros ent Hent. apply (settled_framed e e' Hs He p ent Hp). unfold engine_entry. by rewrite Hix, Hsh.
Qed.

Lemma Stats_framed e : framed e (EngineStats LiveContext e).1.
Proof.
  unfold EngineStats, eachShard.
  pose proof (forWorkers_keeps (framed e) (seq 0 (length (me_shards e))) (fun e index acc =>
      onReply (executeOn LiveContext e index (zeroCommand commandStats)) acc (fun r =>
        (appendShard (res_stats r) (addShardStats acc.1 (res_stats r)), addSpaceStats acc.2 (res_spaces r)))) e (zeroStats, ∅)) as Hf.
  destruct (forWorkers _ _ e _) as [e' [acc err]]. destruct err; apply Hf; try done;
    intros e1 i a He; rewrite onReply_state; (eapply framed_trans; [exact He|]); by apply executeOn_framed.
Qed.

(** ** The service *)

Definition service_framed (e0 : MemoryEngine) (s : EngineService MemoryEngine) : Prop := framed e0 (svc_engine s).

Lemma onEngine_framed {A B} e0 s (out : MemoryEngine * (A * option engineError)) (k : A -> B) :
  framed e0 out.1 -> service_framed e0 (onEngine s out k).1.
Proof. destruct out as [e [a [err|]]]; done. Qed.

(** The calls of one key. *)
Ltac framed_call :=
  repeat (case_match; [done|]);
  match goal with |- context [execute LiveContext ?e ?cmd] => 
    let H := fresh in
    assert (framed e (execute LiveContext e cmd).1) as H by (by eapply execute_framed);
    destruct (execute LiveContext e cmd) as [? []]; exact H
  end.

Lemma Set_framed e key value opts now : allowed (k_namespace key) -> framed e (Set' LiveContext e key value opts now).1.
Proof. intros Ha. unfold Set', recordReply. framed_call. Qed.

Lemma Get_framed e key opts now : allowed (k_namespace key) -> framed e (Get LiveContext e key opts now).1.
Proof. intros Ha. unfold Get, recordReply. framed_call. Qed.

Lemma Delete_framed e key opts : allowed (k_namespace key) -> framed e (Delete LiveContext e key opts).1.
Proof. intros Ha. unfold Delete. framed_call. Qed.

Lemma Touch_framed e key opts now : allowed (k_namespace key) -> framed e (Touch LiveContext e key opts now).1.
Proof. intros Ha. unfold Touch. framed_call. Qed.

Lemma Adjust_framed e key opts now : allowed (k_namespace key) -> framed e (Adjust LiveContext e key opts now).1.
Proof. intros Ha. unfold Adjust, recordReply. framed_call. Qed.

Lemma EstimateAdjust_framed e key opts now : allowed (k_namespace key) ->
  framed e (EstimateAdjust LiveContext e key opts now).1.
Proof. intros Ha. unfold EstimateAdjust. framed_call. Qed.

Lemma Primitive_framed e r now : allowed (k_namespace (pr_key r)) -> framed e (Primitive LiveContext e r now).1.
Proof. intros Ha. unfold Primitive. framed_call. Qed.

Lemma EstimatePrimitive_framed e r now : allowed (k_namespace (pr_key r)) ->
  framed e (EstimatePrimitive LiveContext e r now).1.
Proof. intros Ha. unfold EstimatePrimitive. framed_call. Qed.

Section Calls.
  Context (e0 : MemoryEngine) (Hsettled : settled e0).
  Implicit Types s : EngineService MemoryEngine.

Lemma ensureSpaceQuota_framed s key ns sp delta now : allowed (k_namespace key) -> service_framed e0 s ->
  service_framed e0 (ensureSpaceQuota s key ns sp delta now).1.
Proof.
  intros Ha Hs. unfold ensureSpaceQuota. case_match; [done|].
  assert (forall target, service_framed e0 (evictLocked s (mkEvictRequest (k_namespace key) (k_space key) target key) now).1) as Hev.
  { intros target. apply onEngine_framed. eapply framed_trans; [exact Hs|]. apply Evict_framed; [by eapply settled_framed|done]. }
  match goal with |- context [mkEvictRequest _ _ ?t _] => specialize (Hev t) end.
  destruct (evictLocked _ _ _) as [t [r|]]; [by case_match|done].
Qed.

Lemma admitCostGrowth_framed s key old next now : allowed (k_namespace key) -> service_framed e0 s ->
  service_framed e0 (admitCostGrowth s key old next now).1.
Proof.
  intros Ha Hs. unfold admitCostGrowth. case_match; [done|].
  pose proof (framed_trans _ _ _ Hs (Stats_framed (svc_engine s))) as Hst. cbn [eng_Stats memory_engine].
  destruct (EngineStats LiveContext (svc_engine s)) as [e [st|]]; [|done]. cbn [fst] in Hst.
  destruct (usageFor st _ _) as [ns sp].
  pose proof (ensureSpaceQuota_framed (withEngine e s) key ns sp (next -% old)%nespa now Ha Hst) as Hq.
  by destruct (ensureSpaceQuota _ _ _ _ _ _) as [t [[]|]].
Qed.

Lemma setLocked_framed s key value opts clock : allowed (k_namespace key) -> service_framed e0 s ->
  service_framed e0 (setLocked s key value opts clock).1.
Proof.
  intros Ha Hs. unfold setLocked.
  assert (service_framed e0 (admitSet s key value opts clock).1) as Hadm.
  { unfold admitSet. case_match; [done|].
    assert (service_framed e0 (currentRecord s key (clock 0%nat)).1) as Hc
      by (apply onEngine_framed; eapply framed_trans; [exact Hs|by apply Get_framed]).
    destruct (currentRecord _ _ _) as [t [[r found]|]]; [|done]. case_match; [done|]. by apply admitCostGrowth_framed. }
  destruct (admitSet _ _ _ _ _) as [t [e|]]; [done|].
  apply onEngine_framed. eapply framed_trans; [exact Hadm|by apply Set_framed].
Qed.

Lemma getLocked_framed s key opts now : allowed (k_namespace key) -> service_framed e0 s ->
  service_framed e0 (getLocked s key opts now).1.
Proof. intros Ha Hs. apply onEngine_framed. eapply framed_trans; [exact Hs|by apply Get_framed]. Qed.

Lemma deleteLocked_framed s key opts : allowed (k_namespace key) -> service_framed e0 s ->
  service_framed e0 (deleteLocked s key opts).1.
Proof. intros Ha Hs. apply onEngine_framed. eapply framed_trans; [exact Hs|by apply Delete_framed]. Qed.

Lemma touchLocked_framed s key opts now : allowed (k_namespace key) -> service_framed e0 s ->
  service_framed e0 (touchLocked s key opts now).1.
Proof. intros Ha Hs. apply onEngine_framed. eapply framed_trans; [exact Hs|by apply Touch_framed]. Qed.

Lemma adjustLocked_framed s key opts clock : allowed (k_namespace key) -> service_framed e0 s ->
  service_framed e0 (adjustLocked s key opts clock).1.
Proof.
  intros Ha Hs. unfold adjustLocked.
  assert (service_framed e0 (admitAdjust s key opts clock).1) as Hadm.
  { unfold admitAdjust. case_match; [done|].
    pose proof (framed_trans _ _ _ Hs (EstimateAdjust_framed (svc_engine s) key opts (clock 0%nat) Ha)) as He.
    cbn [eng_EstimateAdjust memory_engine]. destruct (EstimateAdjust _ _ _ _ _) as [e [est [err|]]]; [done|].
    case_match; [done|]. by apply admitCostGrowth_framed. }
  destruct (admitAdjust _ _ _ _) as [t [e|]]; [done|].
  apply onEngine_framed. eapply framed_trans; [exact Hadm|by apply Adjust_framed].
Qed.

Lemma primitiveLocked_framed s r clock : allowed (k_namespace (pr_key r)) -> service_framed e0 s ->
  service_framed e0 (primitiveLocked s r clock).1.
Proof.
  intros Ha Hs. unfold primitiveLocked.
  assert (service_framed e0 (admitPrimitive s r clock).1) as Hadm.
  { unfold admitPrimitive. case_match; [done|].
    pose proof (framed_trans _ _ _ Hs (EstimatePrimitive_framed (svc_engine s) r (clock 0%nat) Ha)) as He.
    cbn [eng_EstimatePrimitive memory_engine]. destruct (EstimatePrimitive _ _ _ _) as [e [est [err|]]]; [done|].
    case_match; [done|]. by apply admitCostGrowth_framed. }
  destruct (admitPrimitive _ _ _) as [t [e|]]; [done|].
  apply onEngine_framed. eapply framed_trans; [exact Hadm|by apply Primitive_framed].
Qed.
End Calls.
End Frame.

(** A key whose namespace is not among the allowed ones is foreign: the physical key
    starts with the namespace and its length. *)
Lemma other_namespace_foreign (allowed : string -> Prop) key : is_u64 (str_len (k_namespace key)) ->
  (forall user, allowed user -> is_u64 (str_len user)) -> ~ allowed (k_namespace key) -> foreign allowed (physicalKey key).
Proof.
  intros Hk Hu Hn key' Ha. rewrite !physicalKey_unfold. intros E%bytes_str_inj.
  apply part_inj in E as [E1 _]; [|by apply Hu|done]. by rewrite E1 in Ha.
Qed.
