(* ===== verification/RedisAtomic.v ===== *)
(** * Transactions of the Redis front end are atomic

    While a connection holds the lock of the service what the other connections
    would do does not matter, and the depth of nested commands is bounded. *)

From S2P Require Import Prelude.
From S2P Require Import GoStrings.
From S2P Require Import GoUnicode.
From S2P Require Import EngineTypes.
From S2P Require Import Service.
From S2P Require Import Resp.
From S2P Require Import Redis.
From S2P Require Import RedisCommands.
From S2P Require Import RedisServer.
From S2P Require Import RedisSpec.

Local Open Scope Z_scope.

(** ** Computations that agree under the lock *)

Section Locks.
  Context {E : Type}.

Definition locked (w : world E) : Prop := ses_inTx (w_session w) = true.

(** The same from every locked world, which stays locked. *)
Definition locks {A} (m m' : cmd E A) : Prop := forall w, locked w -> m w = m' w /\ locked (m w).1.

Lemma locks_ret {A} (a : A) : locks (ret a) (ret a).
Proof. by intros w. Qed.

Lemma locks_reply {A} r : locks (reply (A := A) r) (reply r).
Proof. by intros w. Qed.

Lemma locks_then {A B} (m m' : cmd E A) (f f' : A -> cmd E B) : locks m m' -> (forall a, locks (f a) (f' a)) ->
  locks (thenDo m f) (thenDo m' f').
Proof.
  intros Hm Hf w Hw. unfold thenDo. destruct (Hm w Hw) as [<- Hl]. destruct (m w) as [w' [a|r]]; [by apply Hf|done].
Qed.

Lemma locks_guard b r : locks (guard b r) (guard b r).
Proof. destruct b; [apply locks_reply|apply locks_ret]. Qed.

Lemma locks_getSession : locks getSession getSession.
Proof. by intros w. Qed.

Lemma locks_setSession f : (forall s, ses_inTx (f s) = ses_inTx s) -> locks (setSession f) (setSession f).
Proof. intros Hf w Hw. split; [done|]. unfold locked. cbn. by rewrite Hf. Qed.

Lemma locks_sessionKey entity key : locks (sessionKey entity key) (sessionKey entity key).
Proof. by intros w. Qed.

Lemma locks_forEach {A} (items : list A) body body' : (forall a, locks (body a) (body' a)) ->
  locks (forEach items body) (forEach items body').
Proof.
  intros Hb. induction items as [|a items IH]; [apply locks_ret|].
  cbn [forEach]. apply locks_then; [apply Hb|]. intros []. exact IH.
Qed.

Lemma locks_countEach {A} (items : list A) body body' count : (forall a, locks (body a) (body' a)) ->
  locks (countEach items body count) (countEach items body' count).
Proof.
  intros Hb. revert count. induction items as [|a items IH]; intros count; [apply locks_ret|].
  cbn [countEach]. apply locks_then; [apply Hb|]. intros yes. apply IH.
Qed.

Lemma locks_mapEach {A B} (items : list A) (body body' : A -> cmd E B) : (forall a, locks (body a) (body' a)) ->
  locks (mapEach items body) (mapEach items body').
Proof.
  intros Hb. induction items as [|a items IH]; [apply locks_ret|].
  cbn [mapEach]. apply locks_then; [apply Hb|]. intros b. apply locks_then; [exact IH|]. intros rest. apply locks_ret.
Qed.

Lemma locks_orFail {A} (m m' : cmd E (result callError A)) : locks m m' -> locks (orFail m) (orFail m').
Proof. intros Hm. apply locks_then; [exact Hm|]. intros [a|e]; [apply locks_ret|apply locks_reply]. Qed.

Lemma locks_intArg raw : locks (intArg raw) (intArg raw).
Proof. unfold intArg. case_match; [apply locks_ret|apply locks_reply]. Qed.

Lemma locks_orInteger parsed : locks (orInteger parsed) (orInteger parsed).
Proof. destruct parsed; [apply locks_ret|apply locks_reply]. Qed.

Lemma locks_settle m m' : locks m m' -> locks (settle m) (settle m').
Proof. intros Hm w Hw. unfold settle. destruct (Hm w Hw) as [<- Hl]. by destruct (m w) as [w' []]. Qed.

(** The environment without the other connections. *)
Definition quiet (env : redisEnv E) : redisEnv E :=
  mkRedisEnv E (re_clock env) (re_now env) (re_errorText env) (fun _ s => s) (re_otherScripts env) (re_deadline env)
    (re_buffered env) (re_kept env) (re_credentials env).

Lemma locks_call env {A} (op : (nat -> Time) -> EngineService E -> EngineService E * result serviceError A) :
  locks (call env op) (call (quiet env) op).
Proof.
  intros w Hw. unfold call. unfold locked in Hw. rewrite Hw. cbn [quiet re_clock re_errorText].
  by destruct (op _ (w_service w)).
Qed.
End Locks.

Create HintDb locks discriminated.

Ltac lock_step :=
  lazymatch goal with
  | |- forall _, _ => intros
  | |- locks (ret _) _ => apply locks_ret
  | |- locks (reply _) _ => apply locks_reply
  | |- locks (guard _ _) _ => apply locks_guard
  | |- locks getSession _ => apply locks_getSession
  | |- locks (sessionKey _ _) _ => apply locks_sessionKey
  | |- locks (orFail _) _ => apply locks_orFail
  | |- locks (intArg _) _ => apply locks_intArg
  | |- locks (orInteger _) _ => apply locks_orInteger
  | |- locks (forEach _ _) _ => apply locks_forEach
  | |- locks (countEach _ _ _) _ => apply locks_countEach
  | |- locks (mapEach _ _) _ => apply locks_mapEach
  | |- locks (call _ _) _ => apply locks_call
  | |- locks (Get _ _) _ => apply locks_call
  | |- locks (SetCall _ _ _ _) _ => apply locks_call
  | |- locks (Delete _ _) _ => apply locks_call
  | |- locks (Touch _ _ _) _ => apply locks_call
  | |- locks (Adjust _ _ _) _ => apply locks_call
  | |- locks (Primitive _ _) _ => apply locks_call
  | |- locks (primitive _ _ _ _) _ => unfold primitive
  | |- locks (thenDo _ _) _ => apply locks_then
  | |- locks (match ?x with _ => _ end) _ => destruct x
  end.

Ltac lock := repeat first [lock_step | solve [eauto with locks]].

Section Handlers.
  Context `{!Unicode, !FloatText, !RangeOrder} {E : Type} `{!Engine E} (env : redisEnv E).

Lemma locks_typeOf key : locks (typeOf env key) (typeOf (quiet env) key).
Proof. unfold typeOf. induction redisEntities as [|typ types IH]; cbn [typeOfLoop]; lock. Qed.

Lemma locks_hasWrongType key entity : locks (hasWrongType env key entity) (hasWrongType (quiet env) key entity).
Proof. unfold hasWrongType. apply locks_then; [apply locks_typeOf|]. lock. Qed.

Lemma locks_wrongTypeFor key entity : locks (wrongTypeFor env key entity) (wrongTypeFor (quiet env) key entity).
Proof. unfold wrongTypeFor. apply locks_then; [apply locks_hasWrongType|]. lock. Qed.

Lemma locks_existsAny key : locks (existsAny env key) (existsAny (quiet env) key).
Proof. unfold existsAny. apply locks_then; [apply locks_typeOf|]. lock. Qed.

Lemma locks_deleteEntity key entity : locks (deleteEntity env key entity) (deleteEntity (quiet env) key entity).
Proof. unfold deleteEntity. lock. Qed.

Lemma locks_deleteAny key : locks (deleteAny env key) (deleteAny (quiet env) key).
Proof.
  unfold deleteAny. generalize false. induction redisEntities as [|typ types IH]; intros b; cbn [deleteAnyLoop]; [lock|].
  apply locks_then; [apply locks_deleteEntity|]. lock.
Qed.

Lemma locks_deleteNonStringTypes key : locks (deleteNonStringTypes env key) (deleteNonStringTypes (quiet env) key).
Proof. unfold deleteNonStringTypes. lock. apply locks_deleteEntity. Qed.

Lemma locks_untilNow : locks (untilNow env) (untilNow (quiet env)).
Proof. by intros w. Qed.
End Handlers.

#[export] Hint Resolve locks_typeOf locks_hasWrongType locks_wrongTypeFor locks_existsAny locks_deleteEntity locks_deleteAny
  locks_deleteNonStringTypes locks_untilNow : locks.

Section Commands.
  Context `{!Unicode, !FloatText, !RangeOrder} {E : Type} `{!Engine E} (env : redisEnv E).

Lemma locks_increment key delta : locks (increment env key delta) (increment (quiet env) key delta).
Proof. unfold increment. lock. Qed.

Lemma locks_mgetItem key : locks (mgetItem env key) (mgetItem (quiet env) key).
Proof. unfold mgetItem. lock. Qed.

Lemma locks_mapSet key field value : locks (mapSet env key field value) (mapSet (quiet env) key field value).
Proof. unfold mapSet. lock. Qed.

Lemma locks_hashFieldExists key field : locks (hashFieldExists env key field) (hashFieldExists (quiet env) key field).
Proof. unfold hashFieldExists. lock. Qed.

Lemma locks_countMembers entity request args :
  locks (countMembers env entity request args) (countMembers (quiet env) entity request args).
Proof. unfold countMembers. lock. Qed.

Lemma locks_readCollection entity (read read' : string -> cmd E (result callError PrimitiveResult)) respond args :
  (forall key, locks (read key) (read' key)) ->
  locks (readCollection env entity read respond args) (readCollection (quiet env) entity read' respond args).
Proof. intros Hr. unfold readCollection. lock. Qed.

Lemma locks_pushLoop key kind values result : locks (pushLoop env key kind values result) (pushLoop (quiet env) key kind values result).
Proof. revert result. induction values as [|v values IH]; intros result; cbn [pushLoop]; lock. Qed.

Lemma locks_hllUnion keys : locks (hllUnion env keys) (hllUnion (quiet env) keys).
Proof.
  unfold hllUnion. generalize (∅ : gmap string unit).
  induction keys as [|k keys IH]; intros m; cbn [hllUnionLoop]; unfold hllMembers; lock.
Qed.

Lemma locks_parseZRangeArgs args : locks (E := E) (parseZRangeArgs args) (parseZRangeArgs args).
Proof. unfold parseZRangeArgs. lock. Qed.

Lemma locks_parseGeoPoint a b : locks (E := E) (parseGeoPoint a b) (parseGeoPoint a b).
Proof. unfold parseGeoPoint. lock. Qed.

Lemma locks_geoOptions args limit withDist :
  locks (E := E) (applyGeoRadiusOptions args limit withDist) (applyGeoRadiusOptions args limit withDist).
Proof.
  remember (length args) as n eqn:Hn. revert args Hn limit withDist.
  induction (lt_wf n) as [n _ IH]. intros [|option rest] -> limit withDist; cbn [applyGeoRadiusOptions]; [apply locks_ret|].
  case_match; [by eapply IH; [|reflexivity]; cbn; lia|]. case_match; [|apply locks_reply].
  destruct rest as [|count rest]; [apply locks_reply|]. apply locks_then; [apply locks_orInteger|].
  intros. eapply IH; [|reflexivity]. cbn. lia.
Qed.
End Commands.

#[export] Hint Resolve locks_increment locks_mgetItem locks_mapSet locks_hashFieldExists locks_pushLoop locks_hllUnion
  locks_parseZRangeArgs locks_parseGeoPoint locks_geoOptions : locks.

(** ** The table of handlers *)

Section Dispatch.
  Context `{!Unicode, !FloatText, !RangeOrder, !Lua} {E : Type} `{!Engine E} (env : redisEnv E).

(** Runners that agree on what a script may call. *)
Definition scripts_agree (run run' : runner (E := E)) : Prop :=
  forall command rest, scriptCommandAllowed (text (ToUpper command)) = true ->
    locks (run (command :: rest)) (run' (command :: rest)).

Lemma locks_onScripts {A} (f : gmap string respArg -> gmap string respArg * A) :
  locks (onScripts env f) (onScripts (quiet env) f).
Proof. intros w Hw. unfold onScripts. cbn [quiet re_otherScripts]. by destruct (f _). Qed.

(** Under the lock there are no further transactions. *)
Lemma locks_lockedService {A} (body body' : cmd E A) : locks (lockedService env body) (lockedService (quiet env) body').
Proof. intros w Hw. unfold lockedService. unfold locked in Hw. by rewrite Hw. Qed.

Lemma locks_luaLoop run run' fuel script keys argv answers : scripts_agree run run' ->
  locks (luaLoop run fuel script keys argv answers) (luaLoop run' fuel script keys argv answers).
Proof.
  intros Hrun. revert answers. induction fuel as [|fuel IH]; intros answers; cbn [luaLoop].
  - apply locks_ret.
  - destruct (lua_next _ _ _ _); [|apply locks_ret..]. apply locks_then; [|intros; apply IH].
    unfold callRedis. case_match; [apply locks_ret|]. destruct (mapM _ _) as [[|command rest]|]; [apply locks_ret| |apply locks_ret].
    destruct (scriptCommandAllowed _) eqn:Hc; cbn [negb]; [|apply locks_ret].
    apply locks_then; [by apply Hrun|]. intros. apply locks_ret.
Qed.

Lemma locks_evalScript run run' script keySpec : scripts_agree run run' ->
  locks (evalScript env run script keySpec) (evalScript (quiet env) run' script keySpec).
Proof.
  intros Hrun. unfold evalScript. apply locks_then; [unfold parseScriptKeyCount; lock|]. intros [n rest].
  apply locks_then; [apply locks_onScripts|]. intros _ w Hw. unfold runScriptAtomically. unfold locked in Hw. rewrite Hw.
  unfold runLuaScript. cbn [quiet re_deadline]. case_match; [done|]. by apply locks_luaLoop.
Qed.

Lemma locks_helloOptions fuel args : locks (applyHelloOptions env fuel args) (applyHelloOptions (quiet env) fuel args).
Proof.
  revert args. induction fuel as [|fuel IH]; intros [|option rest]; cbn [applyHelloOptions]; [lock..|].
  apply locks_then; [|intros; apply IH]. unfold applyHelloOption, applyHelloAuth, authenticate. cbn [quiet re_credentials]. lock. by apply locks_setSession.
Qed.

(** Handlers under the same name that agree. *)
Definition handlers_agree (l l' : list (string * handler E)) : Prop :=
  Forall2 (fun entry entry' => fst entry = fst entry' /\ forall args, locks (snd entry args) (snd entry' args)) l l'.

Lemma connection_agree run run' : scripts_agree run run' ->
  handlers_agree (take 13 (commandHandlers env run)) (take 13 (commandHandlers (quiet env) run')).
Proof.
  intros Hrun. unfold handlers_agree. cbn [take commandHandlers].
  repeat (apply Forall2_cons_2; [split; [reflexivity|cbn [snd]; intros args]|]); [..|apply Forall2_nil_2].
  - unfold handleAuth, authenticate. cbn [quiet re_credentials]. lock. by apply locks_setSession.
  - unfold handleHello. lock; [apply locks_helloOptions|by apply locks_setSession].
  - unfold handlePing. lock.
  - unfold handleQuit. lock. by apply locks_setSession.
  - unfold handleSelect. lock. by apply locks_setSession.
  - unfold handleClient. lock.
  - apply locks_ret.
  - unfold handleMulti. lock. by apply locks_setSession.
  - unfold handleExec. lock; [by apply locks_setSession|apply locks_lockedService].
  - unfold handleDiscard. lock. by apply locks_setSession.
  - unfold handleEval. lock. by apply locks_evalScript.
  - unfold handleEvalSHA, scriptForSHA. lock; [apply locks_onScripts|by apply locks_evalScript].
  - unfold handleScript, handleScriptLoad, handleScriptExists, handleScriptFlush, scriptExistsResponse.
    lock; apply locks_onScripts.
Qed.

Lemma string_agree run run' :
  handlers_agree (take 13 (drop 13 (commandHandlers env run))) (take 13 (drop 13 (commandHandlers (quiet env) run'))).
Proof.
  unfold handlers_agree. cbn [take drop commandHandlers].
  repeat (apply Forall2_cons_2; [split; [reflexivity|cbn [snd]; intros args]|]); [..|apply Forall2_nil_2].
  - unfold handleGet. lock.
  - unfold handleSet. lock.
  - unfold handleDel. lock.
  - unfold handleExists. lock.
  - unfold handleExpire. lock.
  - unfold handleTTL. lock.
  - unfold handleIncrement. lock.
  - unfold handleIncrement. lock.
  - unfold handleIncrementBy. lock.
  - unfold handleDecrementBy. lock.
  - unfold handleMGet. lock.
  - unfold handleMSet. lock.
  - unfold handleType. lock.
Qed.

Lemma hash_set_agree run run' :
  handlers_agree (take 11 (drop 26 (commandHandlers env run))) (take 11 (drop 26 (commandHandlers (quiet env) run'))).
Proof.
  unfold handlers_agree. cbn [take drop commandHandlers].
  repeat (apply Forall2_cons_2; [split; [reflexivity|cbn [snd]; intros args]|]); [..|apply Forall2_nil_2].
  - unfold handleHSet. lock.
  - unfold handleHGet. lock.
  - apply locks_countMembers.
  - apply locks_readCollection. unfold mapFields. lock.
  - unfold handleHExists. lock.
  - apply locks_readCollection. unfold mapFields. lock.
  - apply locks_countMembers.
  - apply locks_countMembers.
  - unfold handleSIsMember. lock.
  - apply locks_readCollection. unfold setMembers. lock.
  - apply locks_readCollection. unfold setMembers. lock.
Qed.

Lemma list_zset_agree run run' :
  handlers_agree (take 10 (drop 37 (commandHandlers env run))) (take 10 (drop 37 (commandHandlers (quiet env) run'))).
Proof.
  unfold handlers_agree. cbn [take drop commandHandlers].
  repeat (apply Forall2_cons_2; [split; [reflexivity|cbn [snd]; intros args]|]); [..|apply Forall2_nil_2].
  - unfold handleLPush, pushList. lock.
  - unfold handleRPush, pushList. lock.
  - apply locks_readCollection. lock.
  - apply locks_readCollection. lock.
  - unfold handleLRange, listValues. lock.
  - apply locks_readCollection. unfold listValues. lock.
  - unfold handleZAdd. lock.
  - apply locks_countMembers.
  - unfold handleZRange, scoredValues. lock.
  - apply locks_readCollection. unfold scoredValues. lock.
Qed.

Lemma sketch_agree run run' :
  handlers_agree (drop 47 (commandHandlers env run)) (drop 47 (commandHandlers (quiet env) run')).
Proof.
  unfold handlers_agree. cbn [take drop commandHandlers].
  repeat (apply Forall2_cons_2; [split; [reflexivity|cbn [snd]; intros args]|]); [..|apply Forall2_nil_2].
  - unfold handleSetBit. lock.
  - unfold handleGetBit. lock.
  - unfold handleBitCount. lock.
  - unfold handlePFAdd. lock.
  - unfold handlePFCount, hllMembers. lock.
  - unfold handlePFMerge. lock.
  - unfold handleGeoAdd. lock.
  - unfold handleGeoDist. lock.
  - unfold handleGeoRadius, parseGeoRadius. lock.
Qed.

Lemma drop_part {A} (l : list A) a b : take b (drop a l) ++ drop (a + b) l = drop a l.
Proof. by rewrite <- drop_drop, take_drop. Qed.

(** The table in its five parts. *)
Lemma table_parts (l : list (string * handler E)) :
  l = take 13 l ++ take 13 (drop 13 l) ++ take 11 (drop 26 l) ++ take 10 (drop 37 l) ++ drop 47 l.
Proof.
  rewrite (drop_part l 37 10 : take 10 (drop 37 l) ++ drop 47 l = _).
  rewrite (drop_part l 26 11 : take 11 (drop 26 l) ++ drop 37 l = _).
  rewrite (drop_part l 13 13 : take 13 (drop 13 l) ++ drop 26 l = _). by rewrite take_drop.
Qed.

Lemma table_agree run run' : scripts_agree run run' ->
  handlers_agree (commandHandlers env run) (commandHandlers (quiet env) run').
Proof.
  intros Hrun. unfold handlers_agree. rewrite (table_parts (commandHandlers env run)), (table_parts (commandHandlers (quiet env) run')).
  repeat apply Forall2_app; [by apply connection_agree|apply string_agree|apply hash_set_agree|apply list_zset_agree|apply sketch_agree].
Qed.

Lemma findHandler_agree name l l' : handlers_agree l l' ->
  match findHandler name l, findHandler name l' with
  | Some h, Some h' => forall args, locks (h args) (h' args)
  | None, None => True
  | _, _ => False
  end.
Proof.
  induction 1 as [|[n h] [n' h'] l l' [Hn Hh] _ IH]; [done|]. cbn [findHandler fst] in *. subst n'.
  by case_bool_decide.
Qed.

(** A command agrees when its handlers do. *)
Lemma dispatch_locks run run' args :
  (let name := text (ToUpper (default [] (head args))) in
   match findHandler name (commandHandlers env run), findHandler name (commandHandlers (quiet env) run') with
   | Some h, Some h' => locks (h args) (h' args)
   | None, None => True
   | _, _ => False
   end) -> locks (dispatch env run args) (dispatch (quiet env) run' args).
Proof.
  cbn zeta. intros Hh. unfold dispatch. apply locks_then; [apply locks_getSession|]. intros s.
  destruct (negb (ses_authenticated s) && _); [apply locks_reply|]. destruct (ses_inTransaction s).
  - unfold handleQueuedCommand. case_bool_decide.
    { unfold handleExec. lock; [by apply locks_setSession|apply locks_lockedService]. }
    case_bool_decide; [unfold handleDiscard; lock; by apply locks_setSession|]. case_bool_decide; [lock|].
    destruct (findHandler _ (commandHandlers env run)), (findHandler _ (commandHandlers (quiet env) run')); try done; lock.
  - destruct (findHandler _ (commandHandlers env run)), (findHandler _ (commandHandlers (quiet env) run')); by try apply locks_reply.
Qed.

(** ** The depth of nested commands *)

(** The handlers that run other commands. *)
Definition running : list string := ["EXEC"; "EVAL"; "EVALSHA"].

Lemma findHandler_free (env' : redisEnv E) run run' name : name ∉ running ->
  findHandler name (commandHandlers env' run) = findHandler name (commandHandlers env' run').
Proof.
  intros Hn. unfold running in Hn. rewrite !not_elem_of_cons in Hn. destruct Hn as (H3' & H4' & H5' & _).
  unfold commandHandlers, findHandler. repeat (case_bool_decide; [congruence|]). done.
Qed.

Lemma allowed_free name : scriptCommandAllowed name = true -> name ∉ running.
Proof.
  unfold scriptCommandAllowed, running. rewrite negb_true_iff, bool_decide_eq_false. intros Hn Hr. apply Hn.
  revert Hr. clear. set_solver.
Qed.

(** Commands a script may call run no others. *)
Lemma allowed_agree depth depth' : scripts_agree (handleCommand env (S depth)) (handleCommand (quiet env) (S depth')).
Proof.
  intros command rest Hc. cbn [handleCommand]. apply locks_settle, dispatch_locks. cbn [head default from_option id]. cbn zeta.
  rewrite (findHandler_free env _ (fun _ => ret RespNullBulkString)) by (by apply allowed_free).
  rewrite (findHandler_free (quiet env) _ (fun _ => ret RespNullBulkString)) by (by apply allowed_free).
  pose proof (findHandler_agree (text (ToUpper command)) _ _ (table_agree (fun _ => ret RespNullBulkString)
    (fun _ => ret RespNullBulkString) (fun _ _ _ => locks_ret RespNullBulkString))) as Hf.
  change (default [] (Some command)) with command in *.
  destruct (findHandler _ (commandHandlers env _)), (findHandler _ (commandHandlers (quiet env) _)); by try apply Hf.
Qed.

Lemma locked_command depth depth' args :
  locks (handleCommand env (S (S depth)) args) (handleCommand (quiet env) (S (S depth')) args).
Proof.
  cbn [handleCommand]. apply locks_settle, dispatch_locks. cbn zeta.
  pose proof (findHandler_agree (text (ToUpper (default [] (head args)))) _ _ (table_agree _ _ (allowed_agree depth depth'))) as Hf.
  cbn [handleCommand] in Hf.
  destruct (findHandler _ (commandHandlers env _)), (findHandler _ (commandHandlers (quiet env) _)); by try apply Hf.
Qed.

Lemma locked_depth depth depth' args :
  locks (handleCommand env (S (S depth)) args) (handleCommand env (S (S depth')) args).
Proof.
  intros w Hw. destruct (locked_command depth 0 args w Hw) as [E1 Hl]. destruct (locked_command depth' 0 args w Hw) as [E2 _].
  split; [exact (eq_trans E1 (eq_sym E2))|exact Hl].
Qed.

(** A transaction runs its body under the lock only. *)
Lemma lockedService_same {A} (body body' : cmd E A) w : locks body body' -> lockedService env body w = lockedService env body' w.
Proof. intros Hb. unfold lockedService. case_match; [done|]. by destruct (Hb (mkWorld (re_others env (w_calls w) (w_service w))
  (w_scripts w) (withTx true (w_session w)) (S (w_calls w))) eq_refl) as [<- _]. Qed.

Lemma handleExec_same (run run' : runner) args w : (forall args, locks (run args) (run' args)) ->
  handleExec env run args w = handleExec env run' args w.
Proof.
  intros Hrun. unfold handleExec. destruct args as [|a [|b args]]; [done| |done].
  unfold thenDo. cbn [getSession]. destruct (negb _); [done|]. cbn [setSession].
  by rewrite (lockedService_same _ _ _ (locks_mapEach _ _ _ Hrun)).
Qed.

Lemma evalScript_same (run run' : runner) script keySpec w : (forall args, locks (run args) (run' args)) ->
  evalScript env run script keySpec w = evalScript env run' script keySpec w.
Proof.
  intros Hrun. unfold evalScript, thenDo.
  destruct (parseScriptKeyCount keySpec w) as [w1 [[n rest]|r]]; [|done].
  destruct (storeScript env _ _ w1) as [w2 [[]|r]]; [|done]. unfold runScriptAtomically.
  assert (locks (runLuaScript env run script (take n rest) (drop n rest)) (runLuaScript env run' script (take n rest) (drop n rest))) as Hl.
  { intros w3 Hw. unfold runLuaScript. case_match; [done|]. apply locks_luaLoop; [|done]. intros command args _. apply Hrun. }
  destruct (ses_inTx (w_session w2)) eqn:Ht; [by apply Hl|by apply lockedService_same].
Qed.

Lemma dispatch_same (run run' : runner) args w : (forall args, locks (run args) (run' args)) ->
  dispatch env run args w = dispatch env run' args w.
Proof.
  intros Hrun. unfold dispatch. unfold thenDo. cbn [getSession]. case_match; [done|].
  set (command := ToUpper _).
  assert (match findHandler (text command) (commandHandlers env run), findHandler (text command) (commandHandlers env run') with
          | Some h, Some h' => h args w = h' args w | None, None => True | _, _ => False end) as Hf.
  { destruct (decide (text command ∈ running)) as [Hr|Hr].
    - apply elem_of_cons in Hr as [->|Hr]; [by apply handleExec_same|].
      apply elem_of_cons in Hr as [->|Hr].
      + change (handleEval env run args w = handleEval env run' args w). unfold handleEval.
        repeat case_match; try done. by apply evalScript_same.
      + apply list_elem_of_singleton in Hr as ->.
        change (handleEvalSHA env run args w = handleEvalSHA env run' args w). unfold handleEvalSHA.
        destruct args as [|a [|sha [|b args]]]; try done. unfold thenDo.
        destruct (scriptForSHA env _ w) as [w1 [[script|]|r]]; try done. by apply evalScript_same.
    - rewrite (findHandler_free env run' run) by done. by destruct (findHandler _ _). }
  destruct (ses_inTransaction (w_session w)).
  - unfold handleQueuedCommand. case_bool_decide; [by apply handleExec_same|]. do 2 (case_bool_decide; [done|]).
    by destruct (findHandler _ (commandHandlers env run)), (findHandler _ (commandHandlers env run')).
  - by destruct (findHandler _ (commandHandlers env run)), (findHandler _ (commandHandlers env run')).
Qed.

(** Three levels of nested commands are all there are: a bound above
    [commandDepth] gives every command the same reply and the same world, whatever
    is queued and whatever its scripts do. *)
Theorem command_depth_enough depth args w :
  handleCommand env (commandDepth + depth) args w = handleCommand env commandDepth args w.
Proof.
  change (settle (dispatch env (handleCommand env (S (S depth))) args) w = settle (dispatch env (handleCommand env 2) args) w).
  unfold settle at 1. unfold settle at 1.
  by rewrite (dispatch_same (handleCommand env (S (S depth))) (handleCommand env 2) args w (fun args => locked_depth depth 0 args)).
Qed.

(** ** A transaction from MULTI to EXEC *)

Definition commandName (args : list respArg) : string := text (ToUpper (default [] (head args))).

(** A command that is queued while a transaction is open. *)
Definition queueable (args : list respArg) : Prop :=
  is_Some (findHandler (commandName args) (commandHandlers env (fun _ => ret RespNullBulkString))) /\
  commandName args ∉ ["EXEC"; "DISCARD"; "MULTI"].

(** Which commands there are does not depend on what they run. *)
Lemma findHandler_some run run' name : is_Some (findHandler name (commandHandlers env run)) ->
  is_Some (findHandler name (commandHandlers env run')).
Proof.
  destruct (decide (name ∈ running)) as [Hr|Hr]; [|by rewrite (findHandler_free env run run') by done].
  unfold running in Hr. rewrite !elem_of_cons in Hr. destruct Hr as [->|[->|[->|Hr]]]; [by eexists..|]. by apply elem_of_nil in Hr.
Qed.

Lemma name_of s : is_ascii (str_bytes s) ->
  commandName [str_bytes s] = text ((fun b => byte_of_Z (asciiUpper (byte_Z b))) <$> str_bytes s).
Proof. intros Hs. unfold commandName. cbn [head default]. by rewrite (ToUpper_ascii (str_bytes s)). Qed.

Lemma multi_name : commandName [str_bytes "MULTI"] = "MULTI".
Proof. rewrite name_of; [done|by apply (bool_decide_unpack _)]. Qed.

Lemma exec_name : commandName [str_bytes "EXEC"] = "EXEC".
Proof. rewrite name_of; [done|by apply (bool_decide_unpack _)]. Qed.

(** Each step of a transaction. *)
Lemma multi_step depth w : ses_authenticated (w_session w) = true -> ses_inTransaction (w_session w) = false ->
  handleCommand env (S depth) [str_bytes "MULTI"] w = (onSession (withQueue true []) w, Ok (simpleString "OK")).
Proof.
  intros Ha Ht. cbn [handleCommand]. unfold settle, dispatch, thenDo. cbn [getSession]. rewrite Ha, Ht. cbn [negb andb].
  pose proof multi_name as Hn. unfold commandName in Hn. rewrite Hn.
  change (findHandler "MULTI" (commandHandlers env (handleCommand env depth))) with (Some (handleMulti (E := E))). cbn beta iota.
  unfold handleMulti, thenDo. cbn [getSession]. rewrite Ht. done.
Qed.

Lemma queue_step depth args w : ses_authenticated (w_session w) = true -> ses_inTransaction (w_session w) = true ->
  queueable args ->
  handleCommand env (S depth) args w
  = (onSession (withQueue true (ses_queued (w_session w) ++ [args])) w, Ok (simpleString "QUEUED")).
Proof.
  intros Ha Ht [Hf Hn]. cbn [handleCommand]. unfold settle, dispatch, thenDo. cbn [getSession]. rewrite Ha, Ht. cbn [negb andb].
  unfold handleQueuedCommand. fold (commandName args). rewrite !not_elem_of_cons in Hn. destruct Hn as (Hn1 & Hn2 & Hn3 & _).
  rewrite !bool_decide_eq_false_2 by done. apply (findHandler_some _ (handleCommand env depth)) in Hf as [h ->].
  unfold thenDo. cbn [getSession setSession]. by rewrite Ht.
Qed.

Lemma exec_step depth w : ses_authenticated (w_session w) = true -> ses_inTransaction (w_session w) = true ->
  handleCommand env (S depth) [str_bytes "EXEC"] w
  = settle (thenDo (lockedService env (mapEach (ses_queued (w_session w)) (handleCommand env depth)))
      (fun responses => ret (RespArray responses))) (onSession (withQueue false []) w).
Proof.
  intros Ha Ht. cbn [handleCommand]. unfold settle, dispatch, thenDo at 1. cbn [getSession]. rewrite Ha, Ht. cbn [negb andb].
  pose proof exec_name as Hn. unfold commandName in Hn. unfold handleQueuedCommand. rewrite Hn, bool_decide_eq_true_2 by done.
  unfold handleExec, thenDo. cbn [getSession]. by rewrite Ht.
Qed.

Lemma mapEach_app {A B} (body : A -> cmd E B) l k w w1 w2 a b :
  mapEach l body w = (w1, Ok a) -> mapEach k body w1 = (w2, Ok b) -> mapEach (l ++ k) body w = (w2, Ok (a ++ b)).
Proof.
  revert w a. induction l as [|x l IH]; intros w a; cbn [mapEach app]; [by intros [= <- <-]|].
  unfold thenDo. destruct (body x w) as [w' [y|r]]; [|done].
  destruct (mapEach l body w') as [w'' [ys|r]] eqn:El; [|done]. intros [= -> <-] Hk.
  by rewrite (IH w' ys El Hk).
Qed.

(** Commands always have replies. *)
Lemma command_replies (env' : redisEnv E) depth args w : exists w' r, handleCommand env' (S depth) args w = (w', Ok r).
Proof. cbn [handleCommand]. unfold settle. destruct (dispatch _ _ _ _) as [w' [r|r]]; by exists w', r. Qed.

Lemma commands_reply (env' : redisEnv E) depth cmds w : exists w' replies,
  mapEach cmds (handleCommand env' (S depth)) w = (w', Ok replies) /\ length replies = length cmds.
Proof.
  revert w. induction cmds as [|args cmds IH]; intros w; [by exists w, []|]. cbn [mapEach]. unfold thenDo.
  destruct (command_replies env' depth args w) as (w1 & r & ->). destruct (IH w1) as (w2 & rs & -> & Hl).
  exists w2, (r :: rs). split; [done|]. cbn. by rewrite Hl.
Qed.

Lemma queue_all depth cmds w : ses_authenticated (w_session w) = true -> ses_inTransaction (w_session w) = true ->
  Forall queueable cmds ->
  mapEach cmds (handleCommand env (S depth)) w
  = (onSession (withQueue true (ses_queued (w_session w) ++ cmds)) w, Ok (replicate (length cmds) (simpleString "QUEUED"))).
Proof.
  intros Ha Ht Hc. revert w Ha Ht. induction Hc as [|args cmds Hq _ IH]; intros w Ha Ht.
  - cbn [mapEach length replicate]. rewrite app_nil_r. destruct w as [svc scr [] n]. cbn in Ht. by subst.
  - cbn [mapEach]. unfold thenDo. rewrite queue_step by done. rewrite IH by done. cbn [w_session onSession ses_queued withQueue].
    by rewrite <- app_assoc.
Qed.

(** C29: a transaction is atomic: between MULTI and EXEC its commands are only queued,
    and EXEC replies with what the commands reply when they run in order on the
    service as EXEC found it, with no call of another connection in between. *)
Theorem transaction_atomic cmds w : ses_authenticated (w_session w) = true -> ses_inTransaction (w_session w) = false ->
  ses_inTx (w_session w) = false -> Forall queueable cmds ->
  exists w' replies, length replies = length cmds /\
    mapEach cmds (handleCommand (quiet env) commandDepth)
      (mkWorld (re_others env (w_calls w) (w_service w)) (w_scripts w) (withTx true (withQueue false [] (w_session w)))
         (S (w_calls w))) = (w', Ok replies) /\
    mapEach ([str_bytes "MULTI"] :: cmds ++ [[str_bytes "EXEC"]]) (handleCommand env commandDepth) w
    = (onSession (withTx false) w',
       Ok (simpleString "OK" :: replicate (length cmds) (simpleString "QUEUED") ++ [RespArray replies])).
Proof.
  intros Ha Ht Hx Hc. set (start := mkWorld _ _ _ _).
  destruct (commands_reply (quiet env) 2 cmds start) as (w' & replies & Hr & Hl). exists w', replies.
  split; [exact Hl|]. split; [exact Hr|]. cbn [mapEach]. unfold thenDo at 1. unfold commandDepth.
  rewrite multi_step by done. set (w1 := onSession (withQueue true []) w).
  pose proof (queue_all 2 cmds w1 Ha eq_refl Hc) as Hq. cbn [w_session w1 onSession ses_queued withQueue app] in Hq.
  set (w2 := onSession (withQueue true cmds) w1) in *.
  assert (mapEach [[str_bytes "EXEC"]] (handleCommand env 3) w2 = (onSession (withTx false) w', Ok [RespArray replies])) as He.
  { cbn [mapEach]. unfold thenDo at 1. rewrite exec_step by done. change (ses_queued (w_session w2)) with cmds.
    unfold settle, thenDo, lockedService. cbn [w_session onSession withQueue ses_inTx w2 w1]. rewrite Hx.
    change (mkWorld _ _ _ _) with start.
    pose proof (proj1 (locks_mapEach cmds (handleCommand env 2) (handleCommand (quiet env) 3) (locked_command 0 1) start eq_refl))
      as Hs. unfold queuedCommand. by rewrite Hs, Hr. }
  pose proof (mapEach_app (handleCommand env 3) _ _ _ _ _ _ _ Hq He) as Hm. unfold thenDo, respArg in *. by rewrite Hm.
Qed.
End Dispatch.
