(* ===== verification/RedisSafety.v ===== *)
(** * Connections of the Redis front end, end to end

    A connection leaves the namespaces of other users alone, and the replies to a
    pipeline of commands are sent in order and in full. *)

From S2P Require Import Prelude.
From S2P Require Import GoStrings.
From S2P Require Import GoUnicode.
From S2P Require Import EngineTypes.
From S2P Require Import Shard.
From S2P Require Import Primitives.
From S2P Require Import MemoryEngine.
From S2P Require Import EngineSpec.
From S2P Require Import Service.
From S2P Require Import EngineFrame.
From S2P Require Import Resp.
From S2P Require Import Redis.
From S2P Require Import RedisCommands.
From S2P Require Import RedisServer.
From S2P Require Import RedisSpec.

Local Open Scope Z_scope.

(** ** Users *)

Section Users.
  Context `{!Codecs, !GoMath, !RangeOrder, !Unicode, !FloatText, !Lua} (env : redisEnv MemoryEngine).

Definition has_password (user : string) : Prop := is_Some (re_credentials env !! user).

(** The calls on a user's keys keep what is stored under the keys of the others. *)
Lemma users_confined e0 : settled has_password e0 ->
  (forall n s, framed has_password (svc_engine s) (svc_engine (re_others env n s))) ->
  Confined env has_password (service_framed has_password e0).
Proof.
  intros Hs Ho. constructor.
  - intros. by apply getLocked_framed.
  - intros. by apply setLocked_framed.
  - intros. by apply deleteLocked_framed.
  - intros. by apply touchLocked_framed.
  - intros. by apply adjustLocked_framed.
  - intros. by apply primitiveLocked_framed.
  - intros n s Hf. eapply framed_trans; [exact Hf|apply Ho].
  - intros user password Hp. by exists password.
Qed.

(** C28: a connection of the Redis front end, whatever bytes it sends and whatever its
    scripts do, leaves every item of a namespace that is no configured user's as it
    found it, evictions included, when the other connections do. *)
Theorem redis_users_isolated input (e : MemoryEngine) quota scripts key : engine_inv e ->
  (forall n s, framed has_password (svc_engine s) (svc_engine (re_others env n s))) ->
  (forall user, has_password user -> is_u64 (str_len user)) -> is_u64 (str_len (k_namespace key)) ->
  re_credentials env !! k_namespace key = None ->
  engine_store (svc_engine (w_service (serveConn env input (mkService e quota) scripts).1)) key = engine_store e key.
Proof.
  intros Hi Ho Hu Hk Hn. unfold engine_store. f_equal.
  pose proof (users_confined e (settled_inv _ e Hi) Ho) as Hc.
  apply (connection_confined env has_password (service_framed has_password e) input (mkService e quota) scripts); [done|].
  apply other_namespace_foreign; [done|done|]. intros [password Hp]. by rewrite Hp in Hn.
Qed.
End Users.

(** ** Pipelines *)

Section Pipeline.
  Context `{!RangeOrder, !Unicode, !FloatText, !Lua} {E : Type} `{!Engine E} (env : redisEnv E).

(** The replies to a list of commands, up to one that closes the connection. *)
Fixpoint replyAll (cmds : list (list respArg)) (w : world E) : world E * list respValue :=
  match cmds with
  | [] => (w, [])
  | args :: cmds =>
      let '(w, r) := responseForCommand env args w in
      if ses_close (w_session w) then (w, [r])
      else let '(w, rs) := replyAll cmds w in (w, r :: rs)
  end.

(** A command that fits in memory. *)
Definition sendable (args : list respArg) : Prop :=
  args <> [] /\ 24 * zlen args <= maxAlloc /\ Forall (fun arg => zlen arg + 2 <= maxAlloc) args.

Definition encodeAll (cmds : list (list respArg)) : list byte := concat (List.map (fun args => encodeRESP (commandValue args)) cmds).

(** All that has been written. *)
Definition written (o : wire) : list byte := out_sent o ++ out_pending o.

Lemma writeOut_written kept bytes o : written (writeOut kept bytes o) = written o ++ bytes.
Proof.
  unfold writeOut, written. case_match; cbn [out_sent out_pending]; [by rewrite app_assoc|].
  by rewrite <- !app_assoc, take_drop.
Qed.

Lemma writeOut_panicked kept bytes o : out_panicked (writeOut kept bytes o) = out_panicked o.
Proof. unfold writeOut. by case_match. Qed.

Lemma encoded_nonempty args : encodeRESP (commandValue args) <> [].
Proof. done. Qed.

Lemma encodeAll_nil cmds : encodeAll cmds = [] -> cmds = [].
Proof. by destruct cmds. Qed.

Lemma session_replies cmds fuel index w o : Forall sendable cmds -> (length cmds < fuel)%nat ->
  (cmds = [] -> out_pending o = []) -> out_panicked o = false ->
  runSession env fuel index (encodeAll cmds) w o
  = ((replyAll cmds w).1, mkWireOut (written o ++ concat (List.map encodeRESP (replyAll cmds w).2)) [] false).
Proof.
  intros Hc. revert fuel index w o. induction Hc as [|args cmds (Hne & Hn & Ha) _ IH]; intros [|fuel] index w o Hf Hp Hnp;
    try (cbn in Hf; lia).
  { destruct o as [sent pending panicked]. cbn in *. rewrite Hp by done. subst panicked. unfold written. cbn. by rewrite !app_nil_r. }
  cbn [runSession encodeAll List.map concat]. fold (encodeAll cmds). rewrite readCommand_encoded by done.
  unfold writeCommandResponse. cbn [replyAll]. destruct (responseForCommand env args w) as [w1 r].
  set (o1 := writeOut (re_kept env index) (encodeRESP r) o).
  assert (written o1 = written o ++ encodeRESP r) as Ho1 by apply writeOut_written.
  assert (out_panicked o1 = false) as Hp1 by (unfold o1; by rewrite writeOut_panicked).
  destruct (ses_close (w_session w1)) eqn:Hcl; cbn [negb].
  - rewrite andb_false_r. unfold flushRESP. cbn [fst snd List.map concat]. rewrite app_nil_r, <- Ho1, Hp1. done.
  - rewrite andb_true_r. assert (length cmds < fuel)%nat as Hf' by (cbn in Hf; lia).
    destruct (negb (bool_decide (encodeAll cmds = [])) && re_buffered env index) eqn:Hm.
    + apply andb_prop in Hm as [Hr%negb_true_iff%bool_decide_eq_false_1 _].
      rewrite IH by (try done; intros ->; done). destruct (replyAll cmds w1) as [w2 rs]. cbn [fst snd List.map concat].
      by rewrite Ho1, <- app_assoc.
    + rewrite IH by done. destruct (replyAll cmds w1) as [w2 rs]. cbn [fst snd List.map concat].
      assert (written (flushRESP o1) = written o1) as -> by (unfold written, flushRESP; cbn; by rewrite app_nil_r).
      by rewrite Ho1, <- app_assoc.
Qed.

Lemma encodeAll_length cmds : Forall sendable cmds -> (length cmds <= length (encodeAll cmds))%nat.
Proof.
  unfold encodeAll. induction 1 as [|args cmds _ _ IH]; [done|]. cbn [List.map concat length]. rewrite length_app.
  assert (0 < length (encodeRESP (commandValue args)))%nat by (cbn; lia). lia.
Qed.

(** C31: a pipeline of commands is answered in full: whatever the reads of the input
    leave in the buffers, the connection sends the replies to its commands, in their
    order and up to one that closes it, and nothing else, and keeps none back. *)
Theorem redis_pipeline_answered cmds service scripts : Forall sendable cmds ->
  let w := mkWorld service scripts newSession 0 in
  serveConn env (encodeAll cmds) service scripts
  = ((replyAll cmds w).1, mkWireOut (concat (List.map encodeRESP (replyAll cmds w).2)) [] false).
Proof.
  intros Hc w. unfold serveConn. rewrite session_replies; [done|done| |done|done].
  pose proof (encodeAll_length cmds Hc). lia.
Qed.
End Pipeline.

(** * Sessions, run *)

From S2P Require Import Instances.
From S2P Require Import EngineExamples.
From S2P Require Import RedisAtomic.

#[local] Existing Instance sample_codecs.
#[local] Existing Instance sample_math.
#[local] Existing Instance canonical_order.
#[local] Existing Instance ascii_tables.

(** Numbers are not parsed, and a script gets its first key and returns the value. *)
Definition no_floats : FloatText := {|
  ParseFloat := fun _ => None;
  FormatShortest := fun _ => "";
  FormatFour := fun _ => ""
|}.

Definition get_script : Lua := {|
  lua_compile := fun _ => None;
  lua_next := fun _ keys _ answers =>
    match answers with
    | [] => LuaCall false [LString (str_bytes "GET"); LString (default [] (head keys))]
    | LuaPushed v :: _ => LuaReturn v
    | LuaRaised m :: _ => LuaRaise m
    end;
  lua_String := fun v => match v with LString s => bytes_str s | _ => "" end
|}.

#[local] Existing Instance no_floats.
#[local] Existing Instance get_script.

(** A second between two calls; alone on the server; all input arrives at once. *)
Definition bob_env : redisEnv MemoryEngine :=
  mkRedisEnv MemoryEngine (fun n _ => 1000000000 * (1000 + Z.of_nat n)) (fun n => 1000000000 * (1000 + Z.of_nat n))
    (fun _ _ => "refused") (fun _ s => s) (fun _ m => m) (fun _ => 10%nat) (fun _ => true) (fun _ => 0%nat)
    {["bob" := "secret"]}.

Definition cmdOf (words : list string) : list respArg := str_bytes <$> words.

Definition login : list respArg := cmdOf ["auth"; "bob"; "secret"].

Definition plain_service : EngineService MemoryEngine := mkService (NewMemory 2) (mkQuota 0 0 ∅ ∅).

(** What a connection that logs in and sends the commands is sent. *)
Definition answers (service : EngineService MemoryEngine) (cmds : list (list string)) : list byte :=
  out_sent (serveConn bob_env (encodeAll (login :: (cmdOf <$> cmds))) service ∅).2.

Definition lines (texts : list string) : list byte := texts ≫= fun t => str_bytes t ++ CRLF.

(** Strings, a wrong type, a deadline, a transaction with a script in it, a list. *)
Example session_replies_example : answers plain_service
    [["SET"; "k"; "v"; "EX"; "100"]; ["get"; "k"]; ["HSET"; "k"; "a"; "b"]; ["TTL"; "k"]; ["MULTI"]; ["SET"; "k"; "w"];
     ["EVAL"; "return redis.call('GET', KEYS[1])"; "1"; "k"]; ["EXEC"]; ["RPUSH"; "l"; "x"; "y"]; ["LRANGE"; "l"; "-2"; "-1"]]
  = lines ["+OK"; "+OK"; "$1"; "v"; "-WRONGTYPE Operation against a key holding the wrong kind of value"; ":94";
           "+OK"; "+QUEUED"; "+QUEUED"; "*2"; "+OK"; "$1"; "w"; ":2"; "*2"; "$1"; "x"; "$1"; "y"].
Proof. vm_compute. reflexivity. Qed.

(** ** Where the code is not what it means to be *)

(** A size of a bulk string near the largest integer wraps around and the process
    panics, before the client has authenticated. *)
Theorem bulk_size_panics `{!RangeOrder, !Unicode, !FloatText, !Lua, !Engine E} (env : redisEnv E) service scripts :
  out_panicked (serveConn env (lines ["*1"; "$9223372036854775807"]) service scripts).2 = true.
Proof. reflexivity. Qed.

(** A deadline of 2^55 seconds is 0 nanoseconds in 64 bits, and the key has none. *)
Example long_expiry_is_dropped : answers plain_service [["SET"; "k"; "v"; "EX"; "36028797018963968"]; ["TTL"; "k"]]
  = lines ["+OK"; "+OK"; ":-1"].
Proof. vm_compute. reflexivity. Qed.

(** An empty element is removed but reported as a missing one. *)
Example empty_element_pops_null : answers plain_service [["RPUSH"; "l"; ""; "x"]; ["LPOP"; "l"]; ["LLEN"; "l"]]
  = lines ["+OK"; ":2"; "$-1"; ":1"].
Proof. vm_compute. reflexivity. Qed.

(** A space of 200 bytes. *)
Definition small_service : EngineService MemoryEngine := mkService (NewMemory 2) (mkQuota 0 200 ∅ ∅).

Definition long_text : string := bytes_str (replicate 300 (byte_of_Z 97)).

(** A set that is refused has deleted the hash it was to replace. *)
Example refused_set_deletes : answers small_service [["HSET"; "k"; "a"; "b"]; ["SET"; "k"; long_text]; ["TYPE"; "k"]]
  = lines ["+OK"; ":1"; "-ERR refused"; "+none"].
Proof. vm_compute. reflexivity. Qed.

(** The replies to the commands before a malformed one are not sent when it is
    already in the read buffer. *)
Example malformed_command_drops_replies :
  (serveConn bob_env (encodeAll [login; cmdOf ["PING"]] ++ CRLF) plain_service ∅).2
  = mkWireOut [] (lines ["+OK"; "+PONG"]) false.
Proof. vm_compute. reflexivity. Qed.

(** The name of an unknown command is written into the error line as it is: a line
    break in it makes two replies of one. *)
Example unknown_command_splits_reply :
  readReply 1 (encodeRESP (responseForCommand bob_env [str_bytes "x" ++ CRLF ++ str_bytes "+ok"]
    (mkWorld plain_service ∅ (withAuth "bob" newSession) 0)).2)
  = (Ok (RespErrorString (str_bytes "ERR unknown command 'x")), lines ["+ok'"]).
Proof. vm_compute. reflexivity. Qed.

(** ** Witnesses *)

(** A user that writes and deletes, next to an item of another namespace. *)
Lemma redis_users_isolated_witness :
  re_credentials bob_env !! k_namespace k1 = None /\
  engine_store (svc_engine (w_service (serveConn bob_env (encodeAll [login; cmdOf ["MSET"; "a"; "1"; "b"; "2"]; cmdOf ["DEL"; "a"]])
    (mkService engine2 (mkQuota 0 0 ∅ ∅)) ∅).1)) k1 = engine_store engine2 k1 /\ is_Some (engine_store engine2 k1).
Proof.
  split; [reflexivity|]. split; [|vm_compute; by eexists].
  apply (redis_users_isolated bob_env); [apply engine2_inv|done| |unfold is_u64, str_len; cbn; lia|reflexivity].
  intros user [password Hp]. cbn [re_credentials bob_env] in Hp. apply lookup_singleton_Some in Hp as [<- _]. unfold is_u64, str_len. cbn. lia.
Defined.

(** A client that reads and writes without a password. *)
Lemma unauthenticated_connection_inert_witness :
  w_service (serveConn bob_env (encodeAll [cmdOf ["PING"]; cmdOf ["SET"; "k"; "v"]; cmdOf ["AUTH"; "bob"; "guess"]]) plain_service ∅).1
  = plain_service /\
  w_scripts (serveConn bob_env (encodeAll [cmdOf ["PING"]; cmdOf ["SET"; "k"; "v"]; cmdOf ["AUTH"; "bob"; "guess"]]) plain_service ∅).1 = ∅.
Proof. apply (unauthenticated_connection_inert bob_env). vm_compute. reflexivity. Defined.

Definition bob_world : world MemoryEngine := mkWorld plain_service ∅ (withAuth "bob" newSession) 0.

Lemma queueable_named args name h : commandName args = name -> name ∉ ["EXEC"; "DISCARD"; "MULTI"] ->
  findHandler name (commandHandlers bob_env (fun _ => ret RespNullBulkString)) = Some h -> queueable bob_env args.
Proof. intros <- Hn Hh. split; [by exists h|done]. Qed.

Lemma transaction_atomic_witness : exists w' replies, length replies = 2%nat /\
  mapEach [cmdOf ["SET"; "k"; "v"]; cmdOf ["GET"; "k"]] (handleCommand (quiet bob_env) commandDepth)
    (mkWorld (re_others bob_env 0 plain_service) ∅ (withTx true (withQueue false [] (w_session bob_world))) 1) = (w', Ok replies) /\
  mapEach ([str_bytes "MULTI"] :: [cmdOf ["SET"; "k"; "v"]; cmdOf ["GET"; "k"]] ++ [[str_bytes "EXEC"]])
    (handleCommand bob_env commandDepth) bob_world
  = (onSession (withTx false) w', Ok (simpleString "OK" :: replicate 2 (simpleString "QUEUED") ++ [RespArray replies])).
Proof.
  apply (transaction_atomic bob_env [cmdOf ["SET"; "k"; "v"]; cmdOf ["GET"; "k"]] bob_world); [reflexivity..|].
  apply Forall_cons_2; [|apply Forall_cons_2; [|apply Forall_nil_2]].
  - apply (queueable_named _ "SET" (handleSet bob_env)); [vm_compute; reflexivity|by apply (bool_decide_unpack _)|reflexivity].
  - apply (queueable_named _ "GET" (handleGet bob_env)); [vm_compute; reflexivity|by apply (bool_decide_unpack _)|reflexivity].
Defined.

Lemma redis_pipeline_answered_witness :
  let cmds := [login; cmdOf ["SET"; "k"; "v"]; cmdOf ["GET"; "k"]; cmdOf ["QUIT"]; cmdOf ["PING"]] in
  let w := mkWorld plain_service ∅ newSession 0 in
  serveConn bob_env (encodeAll cmds) plain_service ∅
  = ((replyAll bob_env cmds w).1, mkWireOut (concat (List.map encodeRESP (replyAll bob_env cmds w).2)) [] false).
Proof.
  cbv zeta. apply (redis_pipeline_answered bob_env). repeat constructor; done.
Defined.
